(* ===== verification/_CoqProject ===== *)
-Q . S2P
Prelude.v
JsNumber.v
JsString.v
StellarAmount.v
DecimalLib.v
Money.v
StellarMemo.v
ModelPlugins.v
Confirmation.v
PaymentStatus.v
PaymentModel.v
PaymentAdmin.v
DistributedLock.v
CircuitBreaker.v
RequestGate.v
Refund.v
PaymentLimits.v
Idempotency.v
PollBudget.v
PaymentPlan.v
StudentBalance.v
FeeRules.v
StellarRetry.v
LedgerPayments.v
Poller.v
AuditChain.v
LeaderElection.v
Dispute.v
AcademicPeriods.v
Outbox.v
WebhookUrl.v
Webhook.v
Currency.v
HorizonFailover.v
RetryWorker.v
TransactionQueue.v
Consistency.v
Auth.v
Mfa.v
Login.v
RateLimiter.v
FeeEngine.v
Users.v
ParentPortal.v
Reminders.v
Students.v
FrontAmount.v
Sse.v
Streaming.v
Csv.v
Reports.v
Rollups.v
Workers.v
FieldCrypto.v
Migrations.v
DataMigrations.v
WebhookAdmin.v
Schools.v
EmailEvents.v
Receipts.v
PaymentOps.v
RetryQueue.v
PaymentFlow.v
PaymentQueries.v
