(* ===== verification/Prelude.v ===== *)
(** * StellarEduPay: school fees paid over the Stellar network

    This library models the core of the StellarEduPay backend and proves the
    properties its money handling relies on.  Parents pay school fees in XLM or
    USDC with a memo that identifies the student; the backend polls the ledger,
    matches payments to students, tracks their confirmation, keeps the student's
    balance, and lets administrators correct payments, refund them, adjust fees
    and agree instalment plans.  Services run in several processes that share a
    MongoDB database and a Redis server.

    ** The program's parts and the files that model them

    Paths are under src/backend/src/ unless they say frontend.

    - Prelude: calls that may throw ([result]), stable sorting
      ([Array.prototype.sort]), tactics, hint databases and list lemmas.
    - JsNumber: IEEE-754 doubles as [number] (NaN, signed infinities, finite
      rationals), every operation rounding to nearest-even; proved error bounds,
      exactness on integers up to 2^53, order preservation of subtraction.
      Zeros are not signed: no modelled code distinguishes them.
    - JsString: code units below 256, trimming, digits, [parseFloat], [toFixed].
    - StellarAmount: utils/stellarAmount.js, amounts as stroop counts.
    - DecimalLib, Money: the interface of the decimal.js package (a class with
      its documented laws and an instance) and utils/money.js on top of it.
    - StellarMemo: utils/stellarMemo.js and the encoder of
      frontend/src/utils/stellarMemo.js.
    - ModelPlugins: utils/softDelete.js and plugins/tenantScope.js, the query
      hooks every tenant model uses.
    - Confirmation: services/paymentConfirmationStateMachine.js and
      determineConfirmationState of services/stellarService.js.
    - PaymentStatus, PaymentModel: constants/paymentStatus.js and the lifecycle
      part of models/paymentModel.js.
    - PaymentAdmin: the status changes of controllers/paymentAdminController.js.
    - DistributedLock: services/distributedLock.js, Lua scripts included, over a
      Redis with expiring keys and lost replies, and the in-process fallback.
    - CircuitBreaker: utils/circuitBreaker.js.
    - RequestGate: middleware/concurrentRequestHandler.js, a Module for each of
      its classes and middlewares.
    - Refund: services/refundService.js and the indexes of models/refundModel.js,
      using DistributedLock and PaymentModel.
    - PaymentLimits: services/paymentLimitsService.js and utils/paymentLimits.js.
    - Idempotency: services/idempotencyStore.js and middleware/idempotency.js.
    - PollBudget: services/horizonPollBudget.js.
    - PaymentPlan: models/paymentPlanModel.js and
      controllers/paymentPlanController.js.
    - StudentBalance: utils/studentBalanceUpdater.js with the balance hook of
      models/studentModel.js and models/studentPeriodFeeModel.js.
    - FeeRules: services/feeAdjustmentService.js and
      controllers/feeAdjustmentController.js.
    - StellarRetry: utils/withStellarRetry.js, the submission classifier and the
      asset check of config/stellarConfig.js, utils/hashValidator.js.
    - LedgerPayments: services/stellarService.js: reading operations, recognising
      and verifying payments, fraud checks; uses StellarMemo, StellarAmount,
      PaymentLimits and Money.
    - Poller: services/transactionPollingService.js with utils/ingestWindow.js,
      services/walletRotationService.js and services/unmatchedPaymentService.js;
      uses LedgerPayments and PollBudget.
    - AuditChain: services/auditService.js over models/auditLogModel.js.
    - LeaderElection: services/leaderElection.js.
    - Dispute: controllers/dispute.controller.js, models/disputeModel.js and the
      sweep of services/disputeNotificationService.js; moves PaymentModel's
      payments.
    - AcademicPeriods: services/academicPeriodService.js with its models.
    - Outbox: services/outboxDispatcher.js, models/outboxModel.js,
      services/paymentSavedSubscribers.js, controllers/outboxAdminController.js.
    - WebhookUrl: utils/validateWebhookUrl.js, utils/dnsCache.js and the
      send-time checks of services/webhookService.js.
    - Webhook: services/webhookService.js with utils/buildWebhookPayload.js,
      utils/webhookEnvelope.js, utils/webhookSignaturePolicy.js and
      models/webhookRetryModel.js.
    - Currency: services/currencyConversionService.js; uses CircuitBreaker and
      DecimalLib.
    - HorizonFailover: services/horizonFailoverClient.js, a breaker per endpoint.
    - RetryWorker: services/retryContract.js and services/retryService.js over
      models/pendingVerificationModel.js.
    - TransactionQueue: queue/transactionQueue.js,
      services/transactionQueueService.js, services/stuckPaymentReconciliation.js
      and the delay of queue/transactionRetryQueue.js.
    - Consistency: services/consistencyService.js and
      services/reconciliationService.js; uses StudentBalance.
    - Auth: services/tokenService.js, middleware/auth.js and
      middleware/schoolContext.js: access tokens, guards, address blocking and
      the school of a request; a Module for each.
    - Mfa: controllers/mfaController.js: secrets, backup codes and their handlers.
    - Login: services/sessionStore.js, the lockout and the login of
      controllers/authController.js; uses Auth's stores and Mfa.
    - RateLimiter: middleware/rateLimiter.js, in doubles.
    - FeeEngine: services/feeAdjustmentEngine.js over DecimalLib.
    - Users: controllers/userController.js; uses Login's store and Auth's check.
    - ParentPortal: services/parentPortalService.js, middleware/parentAuth.js and
      controllers/parentPortalController.js; raises Dispute's disputes.
    - Reminders: services/reminderService.js over models/reminderLogModel.js.
    - Students: controllers/studentController.js and services/studentQuota.js; uses
      DistributedLock's lock and StudentBalance's update.
    - FrontAmount: the amount form of frontend/src/utils/stellarAmount.js.
    - Sse: services/sseService.js on several replicas.
    - Streaming: services/horizonStreamingService.js.
    - Csv: utils/csv.js against a reader; Reports: services/reportService.js, printed
      with Csv; Rollups: services/metricsRollupService.js and the dashboard over
      Reports' payments; Workers: services/workerHeartbeat.js.
    - FieldCrypto: services/webhookSecretEncryption.js,
      services/studentPiiEncryption.js, utils/signerKeyManager.js, the model hooks
      that call them and migrations 021, 029 and 030, over its own hexadecimal and
      base64 codecs.
    - Migrations: services/migrationRunner.js on several instances, with what the
      files under src/backend/migrations export; DataMigrations: the migrations
      that replace payment indexes (032, 034, 035) and unify statuses (036).
    - WebhookAdmin: services/webhookEndpointService.js,
      controllers/webhookEndpointsController.js, utils/webhookSecretPolicy.js; uses
      FieldCrypto and Webhook.
    - Schools: controllers/schoolController.js with its step-up check and
      services/schoolSettingsService.js.
    - EmailEvents: services/email/ (verification of callbacks, provider events, the
      suppression list and sending), services/emailDeliveryService.js,
      controllers/emailWebhookController.js and the two inbound-webhook middlewares.
    - Receipts: services/receiptService.js, models/receiptModel.js and the receipt
      handlers of controllers/paymentAdminController.js.
    - PaymentOps: the operational handlers of controllers/paymentAdminController.js,
      a Module each: row locks, dead letters, the review of suspicious payments, the
      refund routes over Refund, manual synchronisation under DistributedLock.
    - RetryQueue: queue/transactionRetryQueue.js, services/bullMQRetryService.js,
      its controllers and routes and config/retryQueueSetup.js; uses RetryWorker's
      documents and ModelPlugins' scope.
    - PaymentFlow: controllers/paymentController.js: intents, submission and
      verification, over StudentBalance, DistributedLock, LedgerPayments, Money,
      Confirmation and RetryWorker.
    - PaymentQueries: controllers/paymentQueryController.js; shares Consistency's
      error bounds on doubles.

    A component's state is a Record with the fields the code reads or writes; a
    handler is a function from the state (and the time, which is always an
    argument) to the new state and its answer; thrown errors are values of
    [result]; a collection is the list of its documents in natural order, or a
    [gmap] when only its keys matter.  Concurrency is a list of events: one
    database round trip of one request is one event, so every interleaving of
    round trips is a list.

    ** What the theorems show

    - Money is exact.  Amount texts are rounded half up and round-trip; numbers
      are lossless below 2^29 units; classifying a total against a fee is integer
      arithmetic on stroops; a stored balance is exactly the qualifying payments
      plus credits, can be recomputed at any time and touches nobody else's.
    - Matching is sound: encoded memos come back, and no foreign value is
      decoded into one.
    - Lifecycles are respected: polling in any order gives the state of the
      greatest ledger seen; admin changes follow the transition table with one
      audit entry each; refunds keep one active refund per transaction and, but
      for the generic status update, the two-person rule; they fail without trace.
    - Concurrency control works: locks exclude, expire and hand out increasing
      fencing tokens; one handler holds an idempotency key while reservations are
      not outrun; breakers, queues, rate limits (with the allowance each process
      adds when Redis fails) and poll budgets keep their bounds.
    - Fees and plans: instalments fill oldest first (integer amounts; on
      fractions a counterexample is given), rule evaluation is deterministic,
      selects what the coded conflict policies select and computes the fees of
      integer arithmetic, the preview is what will happen.
    - Ingestion is exact and gap-free: every operation that pays a school's wallet
      is credited once with its exact amount, verification by hash agrees with
      polling on transactions marked successful, paging reads every record and ends,
      and the stored cursor only passes transactions that were examined.
    - Delivery: while leases hold an outbox listener is called again only after the
      note of a delivery was lost, and regular ticks settle every event; webhooks connect to public addresses only, sign so
      that exactly holders of an active secret accept, and stuck retries come back.
    - Periods and disputes: a rollover carries each student's arrears and leaves
      one current period; disputes keep to their state machine together with the
      payment and the hold, and a refused request changes nothing.
    - Recovery: a call reaches a healthy Horizon endpoint and asks each at most
      once; the verification backlog drains, and what it calls resolved is
      recorded; interrupted queue jobs are all offered again.
    - Oversight: the consistency check finds no drift on what the balance
      updater wrote; edited entries of the audit log are found one by one (the
      chain as a whole never verifies), there is one leader while leases are renewed
      in time, served exchange rates are recent.
    - Access: a guarded route serves a user's own school only, when it is named by
      its id; parents' links open exactly while they are issued, unrevoked and
      unexpired, and show their own students; revocation leaves nothing behind; a
      school keeps an owner unless a super-admin or an overlapping write takes the
      last one; limiters and lockouts keep their bounds.
    - Reminders: one per student and local date across replicas, capped over all
      runs, and an outage stops after five failures.
    - Students: the quota and the unique ids hold in every interleaving; deleting
      and restoring is a round trip; chunks import what one insertion imports.
    - Sse, Streaming: events reach every sound connection once and every connection
      knows of an outage; a stream is never stranded, and leaves no gap while its
      messages are handled in order and succeed.
    - FrontAmount, Csv, Reports, Rollups: accepted amounts are not rounded; files are
      read back as written; reports and rollups count every payment once.
    - Secrets at rest: what a model hook or the key manager encrypts is read back,
      under the previous key too while keys are rotated; a migration and its
      rollback cancel, where the two ends agree on the encoding.
    - Deployment: several instances together apply every migration, each once; the
      index migrations give an operation of a transaction one payment and move the
      placeholders without loss.
    - Administration: endpoints stay well formed and in their school, receivers keep
      verifying through a rotation of the secret; a school's retired wallets stay in
      its history, also when changes overlap, and none is missing unless one change
      overtakes another; a step-up passes only with the password and second factor.
    - The payment flow: a verification records only what was verified for the
      school and its student, once; afterwards the stored balance is the earlier
      payments, this one and the credits; failures leave an attempt or a retry
      document and nothing else; no lock is left behind.  A submission ends with
      the status the network gave.
    - Operations: the audit log tells the story of every refund made over the refund
      routes; a locked row excludes other lockers; pages of listings are
      what matched, each once; every attempt of a retry job is accounted for, and a
      transaction has one job however often it is added.
    - Messages and receipts: callbacks in production are authenticated and a signed
      one is processed once; a suppressed address gets no mail; receipts are one per
      operation, signed by the service or unsigned from the handler, and signed ones
      are tamper-evident.
    - Some theorems state where the code departs from its comments or breaks:
      they are concrete executions, next to the component they are about.

    ** Assumptions

    Packages and servers outside the repository are parameters with the laws
    used: decimal.js ([DecimalLib]: exact results up to twenty digits, half-up
    rounding, conversion of doubles through fifteen digits), MongoDB's decimal
    sum ([MongoSum]) and its sum of doubles ([fsum]), the job queue ([BullQueue]),
    the recording of a payment ([Recorder]), dates and numbers read from texts,
    [localeCompare] (a consistent comparison), the Stellar SDK's
    amount formatter ([StellarSdk]), the keyed hashes of the audit chain and of
    webhook and receipt signatures, of SNS and SendGrid callbacks (injective or of hexadecimal form where a theorem says so),
    the pages Horizon serves, the URL parser, [net.isIPv6] and name resolution,
    what price feeds answer, jsonwebtoken ([JwtLib], [PortalJwt]: signed tokens
    verify until they expire), bcrypt, TOTP and AES-GCM ([Crypto],
    [Gcm]), the lockout and second-factor services of the step-up check, local hours
    and dates, time zone offsets, the database's sums and rounding in reports, and
    what providers of messages answer.  The classes have instances, and the
    functions have concrete stand-ins, which the witnesses use.  MongoDB's documented single-document
    atomicity, unique indexes and transactions, and Redis' atomic scripts, are
    built into the step functions.  All definitions are total.  Fuel bounds nine
    loops and is proved to be enough in each: the decimal digits of an integer
    (JsString; its binary length), reading operations (LedgerPayments; one round
    per page), recovering stuck retries (Webhook; one round per retry), cutting
    the roster into batches (AcademicPeriods; one round per student), trying
    endpoints (HorizonFailover; one round per endpoint), reading the chain
    (Consistency; the code's own limit of 50 pages), cutting an import into
    chunks (Students; one round per row), cutting identifiers into batches
    (DataMigrations; one round per identifier) and scanning dead letters (PaymentOps;
    one round per job and one more).  The entropy of a webhook secret is
    compared with its threshold on integers, without logarithms.

    ** Not modelled

    The network itself, e-mail and SMS providers, report and receipt rendering,
    most routes, metrics and the user interface, which hold no state of their own or
    only pass it on.  syncPaymentsForSchool of services/stellarService.js and the
    placeholder correction of controllers/paymentAdminController.js are cut off in
    the source, the audit listing reads undeclared variables, refreshing and listing
    sessions call store methods that do not exist; recordPayment is called and
    defined nowhere; savePayment of services/transactionService.js depends on how
    the database driver treats [Model.create] with options;
    services/paymentService.js requires a module that does not exist.  Anchors,
    notifications and the scheduling of jobs are calls to outside services around
    timers, and are left out. *)

From Stdlib Require Import ZArith QArith Qround Qabs Lia Lqa Sorting.Sorted.
From stdpp Require Import base decidable option list strings gmap sorting.

Local Open Scope Z_scope.

(** ** Outcomes of calls that may throw *)

(** A JavaScript call either returns a value or throws; [E] is the type of the
    thrown errors (for most services their [code] field). *)
Inductive result (E A : Type) : Type :=
| Ok (a : A)
| Throw (e : E).
Arguments Ok {E A} a.
Arguments Throw {E A} e.

#[export] Instance result_ret {E} : MRet (result E) := fun A a => Ok a.
#[export] Instance result_bind {E} : MBind (result E) := fun A B f m =>
  match m with Ok a => f a | Throw e => Throw e end.
#[export] Instance result_fmap {E} : FMap (result E) := fun A B f m =>
  match m with Ok a => Ok (f a) | Throw e => Throw e end.

Definition guard_else {E} (b : bool) (e : E) : result E unit :=
  if b then Ok tt else Throw e.

Definition of_option {E A} (o : option A) (e : E) : result E A :=
  match o with Some a => Ok a | None => Throw e end.

Lemma bind_Ok {E A B} (m : result E A) (f : A -> result E B) (b : B) :
  m ≫= f = Ok b -> exists a, m = Ok a /\ f a = Ok b.
Proof. destruct m; simpl; intros; [eauto | discriminate]. Qed.

Lemma bind_Throw {E A B} (m : result E A) (f : A -> result E B) (e : E) :
  m ≫= f = Throw e -> m = Throw e \/ exists a, m = Ok a /\ f a = Throw e.
Proof. destruct m; simpl; intros H; [eauto | left; congruence]. Qed.

(** ** Tactics of the development *)

(** Split every [match]/[if] of the goal and the hypotheses, keeping the
    equations, and discharge the impossible branches. *)
Ltac crush_match :=
  repeat (case_match; simplify_eq/=); try done.

(** Reflect boolean comparisons of [Z] in the context into propositions. *)
Ltac zbool :=
  repeat match goal with
  | H : context [Z.eqb ?a ?b] |- _ => destruct (Z.eqb_spec a b); simpl in H
  | H : context [Z.ltb ?a ?b] |- _ => destruct (Z.ltb_spec a b); simpl in H
  | H : context [Z.leb ?a ?b] |- _ => destruct (Z.leb_spec a b); simpl in H
  | |- context [Z.eqb ?a ?b] => destruct (Z.eqb_spec a b); simpl
  | |- context [Z.ltb ?a ?b] => destruct (Z.ltb_spec a b); simpl
  | |- context [Z.leb ?a ?b] => destruct (Z.leb_spec a b); simpl
  end; try done; try lia.

(** Decide a closed decidable proposition by evaluating its decision procedure. *)
Ltac by_decision := refine (bool_decide_unpack _ _); vm_compute; exact I.

Create HintDb edupay.
Create Rewrite HintDb jsnum.
Create Rewrite HintDb fields.

(** ** Stable sorting: [Array.prototype.sort] with a comparator *)

Section JsSort.
Context {A : Type} (cmp : A -> A -> Z).

(** [Array.prototype.sort] is stable; on a consistent comparator every stable
    sort gives the same array, so insertion sort is a faithful model. *)
Fixpoint sort_insert (x : A) (l : list A) : list A :=
  match l with
  | [] => [x]
  | y :: l' => if cmp x y <=? 0 then x :: y :: l' else y :: sort_insert x l'
  end.

Definition js_sort (l : list A) : list A := foldr sort_insert [] l.

Lemma sort_insert_perm x l : sort_insert x l ≡ₚ x :: l.
Proof.
  induction l as [|y l IH]; simpl; [done|].
  destruct (cmp x y <=? 0); [done|].
  rewrite IH. apply Permutation_swap.
Qed.

Lemma js_sort_perm l : js_sort l ≡ₚ l.
Proof.
  induction l as [|x l IH]; simpl; [done|].
  rewrite sort_insert_perm. by rewrite IH.
Qed.

Lemma js_sort_elem x l : x ∈ js_sort l <-> x ∈ l.
Proof. by rewrite js_sort_perm. Qed.

Lemma js_sort_length l : length (js_sort l) = length l.
Proof. apply Permutation_length, js_sort_perm. Qed.

(** A comparator is consistent when "not after" is a total preorder. *)
Definition cmp_le (a b : A) : Prop := cmp a b <= 0.

(** It need only be so on the elements that are sorted. *)
Variable P : A -> Prop.
Hypothesis cmp_total : forall a b, P a -> P b -> cmp a b <= 0 \/ cmp b a <= 0.
Hypothesis cmp_trans : forall a b c, P a -> P b -> P c ->
  cmp a b <= 0 -> cmp b c <= 0 -> cmp a c <= 0.

Lemma sort_insert_sorted x l :
  P x -> Forall P l -> StronglySorted cmp_le l -> StronglySorted cmp_le (sort_insert x l).
Proof.
  intros Hx. induction l as [|y l IH]; intros HP Hs; simpl.
  { repeat constructor. }
  apply Forall_cons in HP as [Hy HP]. apply StronglySorted_inv in Hs as [Hs Hf].
  destruct (Z.leb_spec (cmp x y) 0) as [Hle|Hgt].
  - constructor; [by constructor|]. constructor; [done|].
    rewrite Forall_forall in *. intros z Hz. eapply (cmp_trans x y z); auto. by apply Hf.
  - constructor; [by apply IH|].
    assert (cmp_le y x) as Hyx by (destruct (cmp_total x y Hx Hy); [lia|done]).
    rewrite sort_insert_perm. by constructor.
Qed.

Lemma js_sort_sorted l : Forall P l -> StronglySorted cmp_le (js_sort l).
Proof.
  induction 1 as [|x l Hx Hl IH]; simpl; [constructor|].
  apply sort_insert_sorted; [done| |done]. by rewrite js_sort_perm.
Qed.

(** When no two different elements compare equal, the order of the input is
    forgotten. *)
Lemma js_sort_unique l1 l2 : Forall P l1 -> l1 ≡ₚ l2 ->
  (forall a b, a ∈ l1 -> b ∈ l1 -> cmp_le a b -> cmp_le b a -> a = b) ->
  js_sort l1 = js_sort l2.
Proof.
  intros HP Hp Hanti. apply (StronglySorted_unique_strong cmp_le).
  - intros a b. rewrite !js_sort_elem, <- Hp. apply Hanti.
  - by apply js_sort_sorted.
  - apply js_sort_sorted. by rewrite <- Hp.
  - by rewrite !js_sort_perm.
Qed.
End JsSort.

(** Sorting a list the comparator already orders leaves it unchanged. *)
Lemma js_sort_id {A} (cmp : A -> A -> Z) l :
  StronglySorted (cmp_le cmp) l -> js_sort cmp l = l.
Proof.
  induction 1 as [|x l Hs IH Hf]; simpl; [done|]. rewrite IH.
  destruct l as [|y l]; simpl; [done|].
  inversion Hf as [|? ? Hxy]; subst. unfold cmp_le in Hxy.
  destruct (Z.leb_spec (cmp x y) 0); [done|lia].
Qed.

Lemma js_sort_ext {A} (cmp cmp' : A -> A -> Z) l :
  (forall a b, cmp a b = cmp' a b) -> js_sort cmp l = js_sort cmp' l.
Proof.
  intros E. induction l as [|x l IH]; simpl; [done|]. rewrite IH.
  generalize (js_sort cmp' l). intros k. induction k as [|y k IHk]; simpl; [done|].
  by rewrite E, IHk.
Qed.

(** ** List facts *)

Lemma Forall_snoc {A} (P : A -> Prop) l x : Forall P l -> P x -> Forall P (l ++ [x]).
Proof. intros. apply Forall_app; split; [done|by constructor]. Qed.

Lemma find_ext {A} (f g : A -> bool) (l : list A) :
  (forall x, f x = g x) -> List.find f l = List.find g l.
Proof. intros E. induction l as [|x l IH]; simpl; [done|]. by rewrite E, IH. Qed.

Lemma find_exists {A} (f : A -> bool) (l : list A) x :
  List.find f l = Some x -> x ∈ l /\ f x = true.
Proof. intros H. apply List.find_some in H as [H ?]. by rewrite list_elem_of_In. Qed.

Lemma find_none_forall {A} (f : A -> bool) (l : list A) :
  List.find f l = None -> forall x, x ∈ l -> f x = false.
Proof. intros H x Hx. apply (List.find_none _ _ H). by apply list_elem_of_In. Qed.

Lemma elem_of_filterb {A} (f : A -> bool) (l : list A) x :
  x ∈ List.filter f l <-> f x = true /\ x ∈ l.
Proof. rewrite !list_elem_of_In, List.filter_In. tauto. Qed.

Lemma forallb_Forall {A} (f : A -> bool) (l : list A) :
  forallb f l = true <-> Forall (fun x => f x = true) l.
Proof. rewrite List.forallb_forall, Forall_forall. by setoid_rewrite list_elem_of_In. Qed.

(** A key without repetitions determines the element. *)
Lemma NoDup_fmap_eq {A B} (f : A -> B) (l : list A) x y :
  NoDup (f <$> l) -> x ∈ l -> y ∈ l -> f x = f y -> x = y.
Proof.
  induction l as [|z l IH]; simpl; intros Hn Hx Hy E; [by apply elem_of_nil in Hx|].
  apply NoDup_cons in Hn as [Hz Hn].
  apply elem_of_cons in Hx as [->|Hx], Hy as [->|Hy]; eauto; exfalso; apply Hz.
  - rewrite E. by apply list_elem_of_fmap_2.
  - rewrite <- E. by apply list_elem_of_fmap_2.
Qed.

Lemma filterb_perm {A} (f : A -> bool) (l l' : list A) : l ≡ₚ l' -> List.filter f l ≡ₚ List.filter f l'.
Proof.
  induction 1 as [|x l l' _ IH|x y l|l1 l2 l3 _ IH1 _ IH2]; simpl; [done|by destruct (f x); [constructor|]| |by etrans].
  destruct (f x), (f y); try done. apply Permutation_swap.
Qed.
Lemma filterb_split {A} (f : A -> bool) (l : list A) : List.filter f l ++ List.filter (fun x => negb (f x)) l ≡ₚ l.
Proof.
  induction l as [|x l IH]; simpl; [done|]. destruct (f x); simpl; [by constructor|]. by rewrite <-Permutation_middle, IH.
Qed.
Lemma filterb_filterb {A} (f g : A -> bool) (l : list A) : List.filter f (List.filter g l) = List.filter (fun x => f x && g x) l.
Proof. induction l as [|x l IH]; simpl; [done|]. destruct (g x); simpl; destruct (f x); simpl; by rewrite IH. Qed.
Lemma NoDup_map_filterb {A B} (g : A -> B) (f : A -> bool) (l : list A) : NoDup (map g l) -> NoDup (map g (List.filter f l)).
Proof.
  induction l as [|x l IH]; simpl; [done|]. intros [Hx Hl]%NoDup_cons. destruct (f x); simpl; [|by apply IH].
  apply NoDup_cons. split; [|by apply IH]. intros Hin. apply Hx.
  apply list_elem_of_fmap in Hin as (y & -> & Hy). apply list_elem_of_fmap_2. apply elem_of_filterb in Hy. tauto.
Qed.

#[export] Hint Resolve Forall_snoc : edupay.
