(* ===== verification/JsNumber.v ===== *)
(** IEEE-754 doubles as JavaScript numbers use them.

    A finite double is represented by its exact rational value; every
    arithmetic operation computes the exact result and rounds it once, to
    nearest with ties to even, onto the 53-bit grid with exponents from -1074
    to 971, and overflows to an infinity.  The two zeros are one value.  The
    operations of the source that are modelled here: the four arithmetic
    operators, the comparisons, [Math.min], [Math.max], [Math.abs],
    [Math.floor], [Math.round] and [toFixed] (as the scaled integer it prints). *)

From Stdlib Require Import ZArith QArith Qround Qabs Qpower Lia Lqa.
From stdpp Require Import base list.
From S2P Require Import Prelude.

Local Open Scope Z_scope.

Inductive number : Type :=
| NaN
| Infinity (neg : bool)
| Fin (q : Q).

(** ** Rounding to the double grid *)

(** Nearest integer to [n / d] ([d > 0]), ties to even. *)
Definition round_half_even (n d : Z) : Z :=
  let q := n / d in
  let r := n mod d in
  match 2 * r ?= d with
  | Lt => q
  | Gt => q + 1
  | Eq => if Z.even q then q else q + 1
  end.

(** [n * 2^(-k)] over [d * 2^k], as a pair of integers. *)
Definition scale2 (n d k : Z) : Z * Z :=
  if k <=? 0 then (n * 2 ^ (- k), d) else (n, d * 2 ^ k).

(** Floor of the binary logarithm of the positive rational [n / d]. *)
Definition floor_log2 (n d : Z) : Z :=
  let e := Z.log2 n - Z.log2 d in
  let '(n', d') := scale2 n d e in
  if d' <=? n' then e else e - 1.

(** Exponent of the unit in the last place at [n / d]. *)
Definition ulp_exp (n d : Z) : Z := Z.max (floor_log2 n d - 52) (-1074).

(** [m * 2^k] as a rational in lowest terms. *)
Definition dyadic (m k : Z) : Q :=
  if 0 <=? k then inject_Z (m * 2 ^ k) else Qred (m # Z.to_pos (2 ^ (- k))).

Definition rnd_pos (n d : Z) : Q :=
  let k := ulp_exp n d in
  let '(n', d') := scale2 n d k in
  dyadic (round_half_even n' d') k.

Definition rnd_abs (q : Q) : Q := rnd_pos (Qnum q) (QDen q).

Definition rnd (q : Q) : Q :=
  let q := Qred q in
  match Qnum q with
  | 0 => 0%Q
  | Zpos _ => rnd_abs q
  | Zneg _ => Qopp (rnd_abs (Qopp q))
  end.

(** The double nearest to [q]; results of magnitude [2^1024] overflow. *)
Definition to_double (q : Q) : number :=
  let r := rnd q in
  if Qle_bool (inject_Z (2 ^ 1024)) (Qabs r) then Infinity (Qnum q <? 0) else Fin r.

(** ** Arithmetic and comparison *)

Definition Qltb (a b : Q) : bool := negb (Qle_bool b a).

Definition sign_neg (a : number) : bool :=
  match a with Fin q => Qnum q <? 0 | Infinity s => s | NaN => false end.

Definition num_is_zero (a : number) : bool :=
  match a with Fin q => Qnum q =? 0 | _ => false end.

Definition num_neg (a : number) : number :=
  match a with NaN => NaN | Infinity s => Infinity (negb s) | Fin q => Fin (Qopp q) end.

Definition num_add (a b : number) : number :=
  match a, b with
  | NaN, _ | _, NaN => NaN
  | Infinity s, Infinity t => if Bool.eqb s t then Infinity s else NaN
  | Infinity s, Fin _ | Fin _, Infinity s => Infinity s
  | Fin p, Fin q => to_double (p + q)
  end.

Definition num_sub (a b : number) : number := num_add a (num_neg b).

Definition num_mul (a b : number) : number :=
  match a, b with
  | NaN, _ | _, NaN => NaN
  | Fin p, Fin q => to_double (p * q)
  | _, _ => if num_is_zero a || num_is_zero b then NaN
            else Infinity (xorb (sign_neg a) (sign_neg b))
  end.

Definition num_div (a b : number) : number :=
  match a, b with
  | NaN, _ | _, NaN => NaN
  | Infinity _, Infinity _ => NaN
  | Infinity s, Fin q => Infinity (xorb s (Qnum q <? 0))
  | Fin _, Infinity _ => Fin 0
  | Fin p, Fin q =>
      if Qnum q =? 0 then (if Qnum p =? 0 then NaN else Infinity (Qnum p <? 0))
      else to_double (p / q)
  end.

Definition num_lt (a b : number) : bool :=
  match a, b with
  | NaN, _ | _, NaN => false
  | Infinity s, Infinity t => s && negb t
  | Infinity s, Fin _ => s
  | Fin _, Infinity t => negb t
  | Fin p, Fin q => Qltb p q
  end.

Definition num_le (a b : number) : bool :=
  match a, b with
  | NaN, _ | _, NaN => false
  | Infinity s, Infinity t => s || negb t
  | Infinity s, Fin _ => s
  | Fin _, Infinity t => negb t
  | Fin p, Fin q => Qle_bool p q
  end.

(** [a === b] on numbers. *)
Definition num_eqb (a b : number) : bool := num_le a b && num_le b a.

Definition num_gt (a b : number) : bool := num_lt b a.
Definition num_ge (a b : number) : bool := num_le b a.

(** Truthiness of a number: neither zero nor [NaN]. *)
Definition num_truthy (a : number) : bool :=
  match a with NaN => false | Infinity _ => true | Fin q => negb (Qnum q =? 0) end.

Definition isFinite (a : number) : bool :=
  match a with Fin _ => true | _ => false end.

(** [x || d] for a number [x]. *)
Definition num_or (a d : number) : number := if num_truthy a then a else d.

Definition num_max (a b : number) : number :=
  match a, b with
  | NaN, _ | _, NaN => NaN
  | _, _ => if num_le a b then b else a
  end.

Definition num_min (a b : number) : number :=
  match a, b with
  | NaN, _ | _, NaN => NaN
  | _, _ => if num_le a b then a else b
  end.

Definition num_abs (a : number) : number :=
  match a with NaN => NaN | Infinity _ => Infinity false | Fin q => Fin (Qabs q) end.

Definition num_floor (a : number) : number :=
  match a with Fin q => Fin (inject_Z (Qfloor q)) | _ => a end.

(** [Math.round]: nearest integer, ties towards +infinity. *)
Definition num_round (a : number) : number :=
  match a with Fin q => Fin (inject_Z (Qfloor (q + (1 # 2)))) | _ => a end.

Definition of_Z (z : Z) : number := Fin (inject_Z z).

(** The integer [n] with [n / 10^d] printed by [x.toFixed(d)] for a finite [x]
    of magnitude below [1e21]: the closest one, the larger in a tie, computed
    on the magnitude. *)
Definition toFixed_int (q : Q) (d : Z) : Z :=
  let a := Qfloor (Qabs q * inject_Z (10 ^ d) + (1 # 2)) in
  if Qnum q <? 0 then - a else a.

(** ** Properties of the rounding *)

Lemma round_half_even_error n d :
  0 < d -> Z.abs (2 * (round_half_even n d * d - n)) <= d.
Proof.
  intros Hd. unfold round_half_even.
  pose proof (Z.div_mod n d ltac:(lia)) as Heq.
  pose proof (Z.mod_pos_bound n d Hd) as Hr.
  generalize dependent (n mod d); intros r Heq Hr.
  generalize dependent (n / d); intros q Heq. subst n.
  destruct (Z.compare_spec (2 * r) d); [destruct (Z.even q)|..]; lia.
Qed.

Lemma round_half_even_exact m d : 0 < d -> round_half_even (m * d) d = m.
Proof.
  intros Hd. unfold round_half_even.
  rewrite Z.div_mul, Z.mod_mul by lia.
  destruct (Z.compare_spec (2 * 0) d); lia.
Qed.

Lemma round_half_even_nonneg n d : 0 < d -> 0 <= n -> 0 <= round_half_even n d.
Proof.
  intros Hd Hn. unfold round_half_even.
  pose proof (Z.div_pos n d Hn Hd).
  destruct (2 * (n mod d) ?= d); [destruct (Z.even _)|..]; lia.
Qed.

Lemma scale2_pos n d k : 0 < n -> 0 < d -> 0 < (scale2 n d k).1 /\ 0 < (scale2 n d k).2.
Proof.
  intros. unfold scale2. destruct (Z.leb_spec k 0); simpl.
  - pose proof (Z.pow_pos_nonneg 2 (-k)). nia.
  - pose proof (Z.pow_pos_nonneg 2 k). nia.
Qed.

(** The chosen exponent is not above the binary logarithm. *)
Lemma floor_log2_lower n d :
  0 < n -> 0 < d -> (scale2 n d (floor_log2 n d)).2 <= (scale2 n d (floor_log2 n d)).1.
Proof.
  intros Hn Hd. unfold floor_log2.
  set (e := Z.log2 n - Z.log2 d).
  destruct (scale2 n d e) as [n' d'] eqn:He.
  destruct (Z.leb_spec d' n') as [Hle|Hgt]; [rewrite He; simpl; lia|].
  pose proof (Z.log2_spec n Hn) as [Hln _]. pose proof (Z.log2_spec d Hd) as [_ Hld].
  pose proof (Z.log2_nonneg n) as Hn0. pose proof (Z.log2_nonneg d) as Hd0.
  assert (Hpow : 2 ^ Z.succ (Z.log2 d) = 2 * 2 ^ Z.log2 d) by (rewrite Z.pow_succ_r; lia).
  unfold scale2. destruct (Z.leb_spec (e - 1) 0) as [Hk|Hk]; simpl.
  - assert (2 ^ Z.log2 n * 2 ^ (- (e - 1)) = 2 * 2 ^ Z.log2 d) as Hx.
    { rewrite <- Z.pow_add_r by lia. rewrite <- Hpow. f_equal. unfold e. lia. }
    pose proof (Z.pow_pos_nonneg 2 (- (e - 1))). nia.
  - assert (2 ^ Z.log2 n = 2 * 2 ^ Z.log2 d * 2 ^ (e - 1)) as Hx.
    { rewrite <- Hpow, <- Z.pow_add_r by lia. f_equal. unfold e. lia. }
    pose proof (Z.pow_pos_nonneg 2 (e - 1)). nia.
Qed.

Lemma floor_log2_lt n d j : 0 < n -> 0 < d -> 0 <= j -> n < 2 ^ j * d -> floor_log2 n d < j.
Proof.
  intros Hn Hd Hj Hlt. pose proof (floor_log2_lower n d Hn Hd) as Hlow.
  destruct (Z.lt_ge_cases (floor_log2 n d) j) as [|Hge]; [done|exfalso].
  set (f := floor_log2 n d) in *. clearbody f.
  assert (2 ^ j <= 2 ^ f) by (apply Z.pow_le_mono_r; lia).
  unfold scale2 in Hlow. destruct (Z.leb_spec f 0); simpl in Hlow; [|nia].
  replace f with 0 in * by lia. simpl in *. nia.
Qed.

Lemma floor_log2_int n : 0 < n -> floor_log2 n 1 = Z.log2 n.
Proof.
  intros Hn. unfold floor_log2. change (Z.log2 1) with 0. rewrite Z.sub_0_r.
  pose proof (Z.log2_spec n Hn) as [Hle _]. pose proof (Z.log2_nonneg n).
  unfold scale2. destruct (Z.leb_spec (Z.log2 n) 0) as [Hz|Hz].
  - assert (Hl : Z.log2 n = 0) by lia. rewrite Hl, Z.opp_0, Z.pow_0_r.
    destruct (Z.leb_spec 1 (n * 1)); lia.
  - rewrite Z.mul_1_l. destruct (Z.leb_spec (2 ^ Z.log2 n) n); lia.
Qed.

(** ** The value of a rounded number *)

Lemma pow2_neg_Q k : 0 < k -> (Qpower 2 (- k) == 1 # Z.to_pos (2 ^ k))%Q.
Proof.
  intros Hk. pose proof (Z.pow_pos_nonneg 2 k ltac:(lia) ltac:(lia)) as Hp.
  rewrite Qpower_opp. change 2%Q with (inject_Z 2). rewrite <- Zpower_Qpower by lia.
  destruct (2 ^ k); simpl; try lia. reflexivity.
Qed.

Lemma dyadic_value m k : (dyadic m k == inject_Z m * Qpower 2 k)%Q.
Proof.
  unfold dyadic. destruct (Z.leb_spec 0 k) as [Hk|Hk].
  - change 2%Q with (inject_Z 2). by rewrite inject_Z_mult, Zpower_Qpower by lia.
  - rewrite Qred_correct.
    replace k with (- (- k)) at 2 by lia. rewrite pow2_neg_Q by lia.
    unfold Qeq, Qmult, inject_Z; simpl. lia.
Qed.

Lemma scale2_value n d k : 0 < d ->
  (inject_Z (scale2 n d k).1 / inject_Z (scale2 n d k).2 * Qpower 2 k
   == inject_Z n / inject_Z d)%Q.
Proof.
  intros Hd. assert (Hd' : ~ (inject_Z d == 0)%Q) by (unfold Qeq; simpl; lia).
  assert (H2 : forall j, ~ (Qpower 2 j == 0)%Q).
  { intros j H. pose proof (Qpower_0_lt 2 j ltac:(reflexivity)) as H'. rewrite H in H'. discriminate. }
  unfold scale2. destruct (Z.leb_spec k 0) as [Hk|Hk]; simpl.
  - rewrite inject_Z_mult, Zpower_Qpower by lia.
    change (inject_Z 2) with (2%Q).
    assert (inject_Z n * Qpower 2 (- k) / inject_Z d * Qpower 2 k
            == inject_Z n / inject_Z d * (Qpower 2 (- k) * Qpower 2 k))%Q as -> by (field; auto).
    rewrite <- Qpower_plus by discriminate. replace (- k + k) with 0 by lia. simpl. ring.
  - rewrite inject_Z_mult, Zpower_Qpower by lia. change (inject_Z 2) with (2%Q).
    field. split; auto.
Qed.

Lemma inject_Z_pos d : 0 < d -> (0 < inject_Z d)%Q.
Proof. intros. unfold Qlt; simpl; lia. Qed.

(** The rounding error is at most half a unit in the last place. *)
Lemma rnd_pos_error n d : 0 < n -> 0 < d ->
  (Qabs (rnd_pos n d - inject_Z n / inject_Z d) <= (1 # 2) * Qpower 2 (ulp_exp n d))%Q.
Proof.
  intros Hn Hd. unfold rnd_pos. set (k := ulp_exp n d).
  pose proof (scale2_pos n d k Hn Hd) as [Hn' Hd'].
  pose proof (scale2_value n d k Hd) as Hv.
  destruct (scale2 n d k) as [n' d']; cbn [fst snd] in *.
  pose proof (round_half_even_error n' d' Hd') as He.
  set (m := round_half_even n' d') in *.
  rewrite dyadic_value, <- Hv.
  pose proof (Qpower_0_lt 2 k ltac:(reflexivity)) as H2.
  assert (inject_Z m * Qpower 2 k - inject_Z n' / inject_Z d' * Qpower 2 k
          == (inject_Z m - inject_Z n' / inject_Z d') * Qpower 2 k)%Q as -> by ring.
  rewrite Qabs_Qmult, (Qabs_pos (Qpower 2 k)) by (apply Qlt_le_weak; exact H2).
  apply Qmult_le_compat_r; [|apply Qlt_le_weak; exact H2].
  pose proof (inject_Z_pos d' Hd') as Hdq.
  assert (Hz : (inject_Z m - inject_Z n' / inject_Z d' == (m * d' - n') # Z.to_pos d')%Q).
  { unfold Qeq, Qminus, Qplus, Qdiv, Qmult, Qinv, inject_Z; simpl.
    destruct d'; simpl; lia. }
  rewrite Hz. unfold Qle, Qabs; simpl. rewrite Z2Pos.id by lia. lia.
Qed.

#[export] Instance rnd_proper : Proper (Qeq ==> eq) rnd.
Proof. intros p q H. unfold rnd. by rewrite (Qred_complete _ _ H). Qed.

#[export] Instance to_double_proper : Proper (Qeq ==> eq) to_double.
Proof.
  intros p q H. unfold to_double. rewrite (rnd_proper _ _ H).
  replace (Qnum p <? 0) with (Qnum q <? 0); [done|].
  unfold Qeq in H. destruct p as [pn pd], q as [qn qd]; simpl in *.
  destruct (Z.ltb_spec qn 0), (Z.ltb_spec pn 0); nia.
Qed.

Lemma Qdiv_num_den q : (inject_Z (Qnum q) / inject_Z (QDen q) == q)%Q.
Proof. destruct q as [n d]. unfold Qeq, Qdiv, Qmult, Qinv, inject_Z; simpl. lia. Qed.

Lemma ulp_exp_le n d j : 0 < n -> 0 < d -> 0 <= j -> n < 2 ^ j * d -> ulp_exp n d <= j - 53.
Proof. intros Hn Hd Hj H. pose proof (floor_log2_lt n d j Hn Hd Hj H). unfold ulp_exp. lia. Qed.

Lemma Qlt_pow2 q j : 0 <= j -> (q < Qpower 2 j)%Q -> Qnum q < 2 ^ j * QDen q.
Proof.
  intros Hj H. change 2%Q with (inject_Z 2) in H. rewrite <- Zpower_Qpower in H by lia.
  unfold Qlt in H; simpl in H. lia.
Qed.

Lemma rnd_abs_error q j : 0 < Qnum q -> 0 <= j -> (q < Qpower 2 j)%Q ->
  (Qabs (rnd_abs q - q) <= (1 # 2) * Qpower 2 (j - 53))%Q.
Proof.
  intros Hn Hj Hlt. unfold rnd_abs.
  pose proof (rnd_pos_error (Qnum q) (QDen q) Hn ltac:(lia)) as He.
  rewrite Qdiv_num_den in He. eapply Qle_trans; [exact He|].
  apply Qmult_le_l; [reflexivity|]. apply Qpower_le_compat_l; [|discriminate].
  apply ulp_exp_le; [done|lia|done|]. by apply Qlt_pow2.
Qed.

(** A value of magnitude below [2^j] is rounded by at most [2^(j-54)]. *)
Lemma rnd_error q j : 0 <= j -> (Qabs q < Qpower 2 j)%Q ->
  (Qabs (rnd q - q) <= (1 # 2) * Qpower 2 (j - 53))%Q.
Proof.
  intros Hj Hlt. assert (Hr : (rnd q - q == rnd q - Qred q)%Q) by (rewrite Qred_correct; ring).
  rewrite Hr. rewrite <- (Qred_correct q) in Hlt. unfold rnd; cbv zeta.
  revert Hlt. clear Hr. generalize (Qred q). clear q. intros q Hlt.
  destruct (Qnum q) as [|p|p] eqn:Hn.
  - assert (q == 0)%Q as Hq0 by (destruct q as [qn qd]; simpl in Hn; subst; reflexivity).
    rewrite Hq0. apply Qmult_le_0_compat; [discriminate|]. by apply Qpower_0_le.
  - apply rnd_abs_error; [lia|done|]. eapply Qle_lt_trans; [apply Qle_Qabs|done].
  - assert (Hopp : (- rnd_abs (- q) - q == - (rnd_abs (- q) - (- q)))%Q) by ring.
    rewrite Hopp, Qabs_opp. apply rnd_abs_error; [simpl; lia|done|].
    eapply Qle_lt_trans; [apply Qle_Qabs|]. by rewrite Qabs_opp.
Qed.

Lemma rnd_nonneg q : (0 <= q)%Q -> (0 <= rnd q)%Q.
Proof.
  intros Hq. unfold rnd. cbv zeta. rewrite <- (Qred_correct q) in Hq. revert Hq.
  generalize (Qred q). clear q. intros q Hq. unfold Qle in Hq; simpl in Hq.
  destruct (Qnum q) as [|p|p] eqn:Hn; [discriminate| |lia].
  unfold rnd_abs, rnd_pos.
  pose proof (scale2_pos (Qnum q) (QDen q) (ulp_exp (Qnum q) (QDen q))) as Hs.
  destruct (scale2 _ _ _) as [n' d']; cbn [fst snd] in *.
  rewrite dyadic_value. apply Qmult_le_0_compat; [|by apply Qpower_0_le].
  pose proof (round_half_even_nonneg n' d'). unfold Qle; simpl. lia.
Qed.

(** A value of magnitude below [2^j] becomes a finite double close to it. *)
Lemma to_double_near q j : 0 <= j <= 1000 -> (Qabs q < Qpower 2 j)%Q ->
  exists r, to_double q = Fin r /\ (Qabs (r - q) <= (1 # 2) * Qpower 2 (j - 53))%Q /\ ((0 <= q)%Q -> (0 <= r)%Q).
Proof.
  intros Hj Hq. pose proof (rnd_error q j ltac:(lia) Hq) as He.
  exists (rnd q). split; [|split; [done|apply rnd_nonneg]].
  unfold to_double. destruct (Qle_bool _ _) eqn:E; [|done]. exfalso.
  apply Qle_bool_iff in E. pose proof (Qabs_triangle_reverse (rnd q) q) as Ht.
  assert (H1 : (Qpower 2 j <= Qpower 2 1000)%Q) by (apply Qpower_le_compat_l; [lia|discriminate]).
  assert (H2 : (Qpower 2 (j - 53) <= Qpower 2 1000)%Q) by (apply Qpower_le_compat_l; [lia|discriminate]).
  assert (H3 : (Qpower 2 1000 + Qpower 2 1000 < inject_Z (2 ^ 1024))%Q) by reflexivity.
  assert (H4 : (0 < Qpower 2 1000)%Q) by reflexivity.
  generalize dependent (Qpower 2 1000). intros. generalize dependent (inject_Z (2 ^ 1024)). intros. lra.
Qed.

(** ** Integers up to [2^53] are exact *)

Lemma Qred_inject_Z z : Qred (inject_Z z) = inject_Z z.
Proof.
  unfold Qred, inject_Z. pose proof (Z.ggcd_gcd z 1) as Hg.
  pose proof (Z.ggcd_correct_divisors z 1) as Hd. rewrite Z.gcd_1_r in Hg.
  destruct (Z.ggcd z 1) as [g [aa bb]]; simpl in *. destruct Hd as [-> Hb]. subst g.
  f_equal; [lia|]. destruct bb; lia.
Qed.

Lemma rnd_abs_int z : 0 < z <= 2 ^ 53 -> rnd_abs (inject_Z z) = inject_Z z.
Proof.
  intros [Hz Hle]. unfold rnd_abs, rnd_pos, inject_Z; simpl Qnum; simpl Qden.
  assert (Hlog : 0 <= Z.log2 z <= 53).
  { split; [apply Z.log2_nonneg|]. change 53 with (Z.log2 (2 ^ 53)). by apply Z.log2_le_mono. }
  unfold ulp_exp. rewrite floor_log2_int by done.
  rewrite Z.max_l by lia. unfold scale2, dyadic.
  destruct (Z.leb_spec (Z.log2 z - 52) 0) as [Hk|Hk].
  - pose proof (Z.pow_pos_nonneg 2 (- (Z.log2 z - 52)) ltac:(lia) ltac:(lia)) as Hp.
    replace (z * 2 ^ (- (Z.log2 z - 52))) with ((z * 2 ^ (- (Z.log2 z - 52))) * 1) by lia.
    rewrite round_half_even_exact by lia.
    destruct (Z.leb_spec 0 (Z.log2 z - 52)) as [H0|H0].
    + replace (Z.log2 z - 52) with 0 by lia. unfold inject_Z. f_equal.
      rewrite Z.opp_0, !Z.pow_0_r. lia.
    + transitivity (Qred (inject_Z z)); [|apply Qred_inject_Z]. apply Qred_complete.
      unfold Qeq; simpl. rewrite Z2Pos.id by lia. lia.
  - assert (Hl : Z.log2 z = 53) by lia.
    pose proof (Z.log2_spec z Hz) as [Hlo _]. rewrite Hl in *.
    assert (z = 2 ^ 53) as -> by lia. reflexivity.
Qed.

Lemma rnd_int z : Z.abs z <= 2 ^ 53 -> rnd (inject_Z z) = inject_Z z.
Proof.
  intros Hz. unfold rnd. rewrite Qred_inject_Z. destruct z as [|p|p]; simpl Qnum.
  - reflexivity.
  - apply (rnd_abs_int (Z.pos p)). split; [reflexivity|exact Hz].
  - change (- inject_Z (Z.neg p))%Q with (inject_Z (Z.pos p)).
    rewrite (rnd_abs_int (Z.pos p)) by (split; [reflexivity|exact Hz]). reflexivity.
Qed.

Lemma to_double_int q z : Z.abs z <= 2 ^ 53 -> (q == inject_Z z)%Q -> to_double q = of_Z z.
Proof.
  intros Hz Hq. rewrite (to_double_proper _ _ Hq). unfold to_double. rewrite rnd_int by done.
  destruct (Qle_bool _ _) eqn:E; [|done]. apply Qle_bool_iff in E.
  unfold Qle, Qabs in E; simpl in E. lia.
Qed.

Lemma num_add_int a b : Z.abs (a + b) <= 2 ^ 53 -> num_add (of_Z a) (of_Z b) = of_Z (a + b).
Proof. intros. apply to_double_int; [done|]. by rewrite inject_Z_plus. Qed.

Lemma num_sub_int a b : Z.abs (a - b) <= 2 ^ 53 -> num_sub (of_Z a) (of_Z b) = of_Z (a - b).
Proof. intros. apply to_double_int; [done|]. unfold Zminus. by rewrite inject_Z_plus. Qed.

Lemma num_mul_int a b : Z.abs (a * b) <= 2 ^ 53 -> num_mul (of_Z a) (of_Z b) = of_Z (a * b).
Proof. intros. apply to_double_int; [done|]. by rewrite inject_Z_mult. Qed.

Lemma Qle_bool_int a b : Qle_bool (inject_Z a) (inject_Z b) = (a <=? b).
Proof. unfold Qle_bool; simpl. by rewrite !Z.mul_1_r. Qed.

Lemma num_le_int a b : num_le (of_Z a) (of_Z b) = (a <=? b).
Proof. apply Qle_bool_int. Qed.

Lemma num_lt_int a b : num_lt (of_Z a) (of_Z b) = (a <? b).
Proof. simpl. unfold Qltb. rewrite Qle_bool_int. zbool. Qed.

Lemma num_eqb_int a b : num_eqb (of_Z a) (of_Z b) = (a =? b).
Proof. unfold num_eqb. rewrite !num_le_int. zbool. Qed.

Lemma num_min_int a b : num_min (of_Z a) (of_Z b) = of_Z (Z.min a b).
Proof.
  unfold num_min, of_Z. fold (of_Z a) (of_Z b). rewrite num_le_int.
  destruct (Z.leb_spec a b); unfold of_Z; do 2 f_equal; lia.
Qed.

Lemma num_max_int a b : num_max (of_Z a) (of_Z b) = of_Z (Z.max a b).
Proof.
  unfold num_max, of_Z. fold (of_Z a) (of_Z b). rewrite num_le_int.
  destruct (Z.leb_spec a b); unfold of_Z; do 2 f_equal; lia.
Qed.

Lemma num_truthy_int a : num_truthy (of_Z a) = negb (a =? 0).
Proof. reflexivity. Qed.

Lemma of_Z_inj a b : of_Z a = of_Z b -> a = b.
Proof. unfold of_Z, inject_Z. congruence. Qed.

Lemma Qfloor_unique q n : (inject_Z n <= q)%Q -> (q < inject_Z (n + 1))%Q -> Qfloor q = n.
Proof.
  intros H1 H2. apply Qfloor_resp_le in H1. rewrite Qfloor_Z in H1.
  pose proof (Qfloor_le q) as H3. assert (inject_Z (Qfloor q) < inject_Z (n + 1))%Q as H4 by lra.
  rewrite <- Zlt_Qlt in H4. lia.
Qed.

#[export] Hint Rewrite num_le_int num_lt_int num_eqb_int num_min_int num_max_int
  num_truthy_int : jsnum.

(** ** The sign of a difference is exact *)

(** Multiples of the least positive double; every finite double is one. *)
Definition on_grid (q : Q) : Prop := exists m, (q == inject_Z m * Qpower 2 (-1074))%Q.

Lemma on_grid_scaled m k : -1074 <= k -> on_grid (inject_Z m * Qpower 2 k).
Proof.
  intros Hk. exists (m * 2 ^ (k + 1074)). rewrite inject_Z_mult, Zpower_Qpower by lia.
  change (inject_Z 2) with 2%Q. rewrite <- Qmult_assoc, <- Qpower_plus by discriminate.
  by replace (k + 1074 + -1074) with k by lia.
Qed.

#[export] Instance on_grid_proper : Proper (Qeq ==> iff) on_grid.
Proof. intros p q E. unfold on_grid. by setoid_rewrite E. Qed.

Lemma on_grid_opp q : on_grid q -> on_grid (- q).
Proof. intros [m Hm]. exists (- m). rewrite Hm, inject_Z_opp. ring. Qed.

Lemma on_grid_minus p q : on_grid p -> on_grid q -> on_grid (p - q).
Proof. intros [m Hm] [n Hn]. exists (m - n). unfold Z.sub. rewrite Hm, Hn, inject_Z_plus, inject_Z_opp. ring. Qed.

Lemma on_grid_int z : on_grid (inject_Z z).
Proof.
  pose proof (on_grid_scaled z 0 ltac:(lia)) as H. change (Qpower 2 0) with 1%Q in H.
  by rewrite Qmult_1_r in H.
Qed.

Lemma rnd_abs_grid q : on_grid (rnd_abs q).
Proof.
  unfold rnd_abs, rnd_pos. destruct (scale2 _ _ _) as [n' d']. rewrite dyadic_value.
  apply on_grid_scaled. unfold ulp_exp. lia.
Qed.

Lemma rnd_grid q : on_grid (rnd q).
Proof.
  unfold rnd. destruct (Qnum (Qred q)); [apply (on_grid_int 0)|apply rnd_abs_grid|].
  apply on_grid_opp, rnd_abs_grid.
Qed.

Lemma ulp_below n d : 0 < n -> 0 < d -> (Qpower 2 (-1074) <= inject_Z n / inject_Z d)%Q ->
  (Qpower 2 (ulp_exp n d) <= inject_Z n / inject_Z d)%Q.
Proof.
  intros Hn Hd Hlow. unfold ulp_exp.
  destruct (Z.max_spec (floor_log2 n d - 52) (-1074)) as [[_ ->]|[_ ->]]; [done|].
  pose proof (floor_log2_lower n d Hn Hd) as Hl.
  pose proof (scale2_pos n d (floor_log2 n d) Hn Hd) as [_ Hd'].
  rewrite <- (scale2_value n d (floor_log2 n d) Hd).
  destruct (scale2 n d (floor_log2 n d)) as [n' d']; cbn [fst snd] in *.
  apply Qle_trans with (Qpower 2 (floor_log2 n d)).
  - apply Qpower_le_compat_l; [lia|discriminate].
  - rewrite <- (Qmult_1_l (Qpower 2 _)) at 1.
    apply Qmult_le_compat_r; [|apply Qlt_le_weak, Qpower_0_lt; reflexivity].
    apply Qle_shift_div_l; [by apply inject_Z_pos|]. rewrite Qmult_1_l. by rewrite <- Zle_Qle.
Qed.

Lemma grid_least q : on_grid q -> (0 < q)%Q -> (Qpower 2 (-1074) <= q)%Q.
Proof.
  intros [m Hm] Hq. rewrite Hm in *.
  pose proof (Qpower_0_lt 2 (-1074) ltac:(reflexivity)) as H2.
  assert (1 <= m) as Hm1.
  { destruct (Z.le_gt_cases 1 m) as [|Hlt]; [done|exfalso]. apply (Qlt_not_le _ _ Hq).
    assert (inject_Z m <= 0)%Q by (change 0%Q with (inject_Z 0); rewrite <- Zle_Qle; lia).
    rewrite <- (Qmult_0_l (Qpower 2 (-1074))). apply Qmult_le_compat_r; [done|by apply Qlt_le_weak]. }
  rewrite <- (Qmult_1_l (Qpower 2 (-1074))) at 1.
  apply Qmult_le_compat_r; [|by apply Qlt_le_weak]. change 1%Q with (inject_Z 1). by rewrite <- Zle_Qle.
Qed.

Lemma rnd_abs_pos q : on_grid q -> (0 < q)%Q -> (0 < rnd_abs q)%Q.
Proof.
  intros Hg Hq. assert (0 < Qnum q) as Hn by (unfold Qlt in Hq; simpl in Hq; lia).
  pose proof (grid_least q Hg Hq) as Hlow. rewrite <- (Qdiv_num_den q) in Hlow.
  pose proof (ulp_below (Qnum q) (QDen q) Hn ltac:(lia) Hlow) as Hu.
  pose proof (rnd_pos_error (Qnum q) (QDen q) Hn ltac:(lia)) as He.
  apply Qabs_Qle_condition in He as [He _]. fold (rnd_abs q) in He.
  pose proof (Qpower_0_lt 2 (ulp_exp (Qnum q) (QDen q)) ltac:(reflexivity)). lra.
Qed.

(** The sign of a number: of NaN it is 0, like a zero's (both are falsy). *)
Definition num_sign (a : number) : Z :=
  match a with NaN => 0 | Infinity s => if s then -1 else 1 | Fin q => Z.sgn (Qnum q) end.

Lemma sgn_pos q : (0 < q)%Q -> Z.sgn (Qnum q) = 1.
Proof. unfold Qlt. simpl. intros. apply Z.sgn_pos_iff. lia. Qed.
Lemma sgn_neg q : (q < 0)%Q -> Z.sgn (Qnum q) = -1.
Proof. unfold Qlt. simpl. intros. apply Z.sgn_neg_iff. lia. Qed.

Lemma to_double_sign q : on_grid q -> num_sign (to_double q) = Z.sgn (Qnum q).
Proof.
  intros Hg. destruct (Z.lt_trichotomy (Qnum q) 0) as [Hn|[Hz|Hp]].
  - assert (q < 0)%Q as Hq by (unfold Qlt; simpl; lia).
    assert (rnd q < 0)%Q as Hr.
    { unfold rnd. pose proof (Qred_correct q) as E. rewrite <- E in Hq, Hg. revert Hq Hg.
      generalize (Qred q). clear. intros q Hq Hg. assert (Qnum q < 0) by (unfold Qlt in Hq; simpl in Hq; lia).
      destruct (Qnum q) eqn:En; try lia. rewrite <- (Qopp_involutive 0). apply Qopp_lt_compat.
      apply rnd_abs_pos; [by apply on_grid_opp|]. lra. }
    unfold to_double. destruct (Qle_bool _ _); simpl.
    + destruct (Z.ltb_spec (Qnum q) 0); lia.
    + by rewrite !sgn_neg.
  - assert (q == 0)%Q as E by (unfold Qeq; simpl; lia). rewrite Hz.
    rewrite (to_double_proper q 0%Q E). reflexivity.
  - assert (0 < q)%Q as Hq by (unfold Qlt; simpl; lia).
    assert (0 < rnd q)%Q as Hr.
    { unfold rnd. pose proof (Qred_correct q) as E. rewrite <- E in Hq, Hg. revert Hq Hg.
      generalize (Qred q). clear. intros q Hq Hg. assert (0 < Qnum q) by (unfold Qlt in Hq; simpl in Hq; lia).
      destruct (Qnum q) eqn:En; try lia. by apply rnd_abs_pos. }
    unfold to_double. destruct (Qle_bool _ _); simpl.
    + destruct (Z.ltb_spec (Qnum q) 0); lia.
    + by rewrite !sgn_pos.
Qed.

(** Subtraction of doubles never loses the order of its operands. *)
Lemma num_sub_sign p q : on_grid p -> on_grid q ->
  num_sign (num_sub (Fin p) (Fin q)) = match (p ?= q)%Q with Lt => -1 | Eq => 0 | Gt => 1 end.
Proof.
  intros Hp Hq. unfold num_sub, num_neg, num_add. rewrite to_double_sign by (by apply on_grid_minus).
  destruct (Qcompare_spec p q) as [E|E|E].
  - assert (p + - q == 0)%Q as E' by (rewrite E; ring). unfold Qeq in E'. simpl in E'. 
    apply Z.sgn_null_iff. simpl. lia.
  - apply sgn_neg. lra.
  - apply sgn_pos. lra.
Qed.

Lemma num_truthy_sign a : a <> NaN -> num_truthy a = negb (num_sign a =? 0).
Proof.
  destruct a as [|[]|q]; simpl; try done. intros _. f_equal.
  destruct (Z.eqb_spec (Qnum q) 0) as [->|Hn]; [done|].
  destruct (Z.eqb_spec (Z.sgn (Qnum q)) 0) as [E|]; [|done]. apply Z.sgn_null_iff in E. lia.
Qed.
