(* ===== verification/JsString.v ===== *)
(** The string operations of the source, on code units below 256: trimming,
    ASCII case mapping, prefix tests, decimal and hexadecimal digits, the
    decimal printing and parsing of integers, [toFixed] and [parseFloat].
    Strings that are taken apart are lists of characters; literals, keys and
    identifiers are [string]s. *)

From Stdlib Require Import Ascii ZArith QArith Qround Qabs Lia Lqa.
From stdpp Require Import base list strings.
From S2P Require Import Prelude JsNumber.

Local Open Scope Z_scope.

Definition code (c : ascii) : Z := Z.of_N (Ascii.N_of_ascii c).
Definition chr (z : Z) : ascii := Ascii.ascii_of_N (Z.to_N z).

Lemma code_chr z : 0 <= z < 256 -> code (chr z) = z.
Proof.
  intros Hz. unfold code, chr. rewrite Ascii.N_ascii_embedding by lia. lia.
Qed.

Lemma chr_code c : chr (code c) = c.
Proof. unfold code, chr. rewrite N2Z.id. apply Ascii.ascii_N_embedding. Qed.

Lemma code_range c : 0 <= code c < 256.
Proof.
  unfold code. pose proof (Ascii.N_ascii_bounded c). lia.
Qed.

(** [String.prototype.trim] removes these code units (of those below 256). *)
Definition is_space (c : ascii) : bool :=
  let z := code c in
  (z =? 9) || (z =? 10) || (z =? 11) || (z =? 12) || (z =? 13) || (z =? 32) || (z =? 160).

Fixpoint drop_while (f : ascii -> bool) (l : list ascii) : list ascii :=
  match l with
  | [] => []
  | c :: l' => if f c then drop_while f l' else l
  end.

Definition trim (l : list ascii) : list ascii :=
  rev (drop_while is_space (rev (drop_while is_space l))).

Definition upper (c : ascii) : ascii :=
  let z := code c in if (97 <=? z) && (z <=? 122) then chr (z - 32) else c.
Definition lower (c : ascii) : ascii :=
  let z := code c in if (65 <=? z) && (z <=? 90) then chr (z + 32) else c.

Abbreviation chars := String.list_ascii_of_string.
Abbreviation text := String.string_of_list_ascii.

Definition toUpperCase (s : string) : string := text (map upper (chars s)).
Definition toLowerCase (s : string) : string := text (map lower (chars s)).
Definition str_trim (s : string) : string := text (trim (chars s)).

(** Truthiness of a string. *)
Definition str_truthy (s : string) : bool :=
  match s with EmptyString => false | _ => true end.

(** [s || d]. *)
Definition str_or (s d : string) : string := if str_truthy s then s else d.

Fixpoint starts_with (p l : list ascii) : bool :=
  match p, l with
  | [], _ => true
  | c :: p', d :: l' => Ascii.eqb c d && starts_with p' l'
  | _, [] => false
  end.

(** ** Digits *)

Definition is_digit (c : ascii) : bool := (48 <=? code c) && (code c <=? 57).
Definition digit_val (c : ascii) : Z := code c - 48.
Definition digit_chr (d : Z) : ascii := chr (48 + d).

(** Positional value of a digit string, most significant digit first. *)
Definition digits_val (l : list ascii) : Z :=
  fold_left (fun acc c => 10 * acc + digit_val c) l 0.

(** The [k] low decimal digits of [n], zero padded. *)
Fixpoint pad_digits (k : nat) (n : Z) : list ascii :=
  match k with
  | O => []
  | S k' => pad_digits k' (n / 10) ++ [digit_chr (n mod 10)]
  end.

(** Number of decimal digits of [n >= 0], at least one. *)
Fixpoint count_digits (fuel : nat) (n : Z) : nat :=
  match fuel with
  | O => 1%nat
  | S f => if n <? 10 then 1%nat else S (count_digits f (n / 10))
  end.

Definition dec_digits (n : Z) : list ascii :=
  pad_digits (count_digits (Z.to_nat (Z.log2 n)) n) n.

Definition Z_text (n : Z) : list ascii :=
  if n <? 0 then "-"%char :: dec_digits (- n) else dec_digits n.

Definition Z_to_string (n : Z) : string := text (Z_text n).

(** Longest prefix of digits and the rest. *)
Fixpoint span_digits (l : list ascii) : list ascii * list ascii :=
  match l with
  | [] => ([], [])
  | c :: l' => if is_digit c then let '(d, r) := span_digits l' in (c :: d, r) else ([], l)
  end.

Lemma digit_chr_spec d : 0 <= d < 10 -> is_digit (digit_chr d) = true /\ digit_val (digit_chr d) = d.
Proof.
  intros Hd. unfold is_digit, digit_val, digit_chr. rewrite code_chr by lia.
  split; [zbool|lia].
Qed.

Lemma digit_val_range c : is_digit c = true -> 0 <= digit_val c < 10.
Proof. unfold is_digit, digit_val. zbool. Qed.

Lemma digits_val_app l1 l2 :
  digits_val (l1 ++ l2) = digits_val l1 * 10 ^ Z.of_nat (length l2) + digits_val l2.
Proof.
  revert l1. unfold digits_val.
  assert (Hacc : forall l a, fold_left (fun acc c => 10 * acc + digit_val c) l a
    = a * 10 ^ Z.of_nat (length l) + fold_left (fun acc c => 10 * acc + digit_val c) l 0).
  { induction l as [|c l IH]; intros a; cbn [fold_left length]; [simpl; lia|].
    rewrite (IH (10 * a + digit_val c)), (IH (10 * 0 + digit_val c)).
    rewrite Nat2Z.inj_succ, Z.pow_succ_r by lia. ring. }
  intros l1. rewrite fold_left_app. apply Hacc.
Qed.

Lemma digits_val_snoc l c : digits_val (l ++ [c]) = 10 * digits_val l + digit_val c.
Proof. unfold digits_val. by rewrite fold_left_app. Qed.

Lemma digits_val_range l : Forall (fun c => is_digit c = true) l ->
  0 <= digits_val l < 10 ^ Z.of_nat (length l).
Proof.
  induction l as [|c l IH] using rev_ind; intros Hf; [unfold digits_val; simpl; lia|].
  apply Forall_app in Hf as [Hl Hc]. inversion Hc as [|? ? Hd]; subst.
  apply digit_val_range in Hd. specialize (IH Hl).
  rewrite digits_val_snoc, length_app, Nat2Z.inj_add, Z.pow_add_r by lia.
  change (10 ^ Z.of_nat (length [c])) with 10. lia.
Qed.

Lemma pad_digits_length k n : length (pad_digits k n) = k.
Proof. revert n. induction k; intros; simpl; [done|]. rewrite length_app, IHk. simpl. lia. Qed.

Lemma pad_digits_digits k n : Forall (fun c => is_digit c = true) (pad_digits k n).
Proof.
  revert n. induction k as [|k IH]; intros; simpl; [constructor|].
  apply Forall_snoc; [apply IH|]. apply digit_chr_spec, Z.mod_pos_bound. lia.
Qed.

Lemma pad_digits_val k n : 0 <= n < 10 ^ Z.of_nat k -> digits_val (pad_digits k n) = n.
Proof.
  revert n. induction k as [|k IH]; intros n Hn.
  { simpl in Hn. unfold digits_val; simpl. lia. }
  simpl pad_digits. rewrite digits_val_snoc.
  rewrite Nat2Z.inj_succ, Z.pow_succ_r in Hn by lia.
  rewrite IH.
  - destruct (digit_chr_spec (n mod 10)) as [_ ->]; [apply Z.mod_pos_bound; lia|].
    pose proof (Z.div_mod n 10). lia.
  - split; [apply Z.div_pos; lia|]. apply Z.div_lt_upper_bound; lia.
Qed.

Lemma count_digits_bound fuel n : 0 <= n -> n < 2 ^ (Z.of_nat fuel + 1) ->
  n < 10 ^ Z.of_nat (count_digits fuel n).
Proof.
  revert n. induction fuel as [|f IH]; intros n Hn Hlt; simpl count_digits.
  { simpl in *. lia. }
  destruct (Z.ltb_spec n 10); [simpl; lia|].
  rewrite Nat2Z.inj_succ, Z.pow_succ_r by lia.
  rewrite Nat2Z.inj_succ in Hlt.
  assert (n / 10 < 10 ^ Z.of_nat (count_digits f (n / 10))) as Hd.
  { apply IH; [apply Z.div_pos; lia|]. apply Z.div_lt_upper_bound; [lia|].
    replace (Z.succ (Z.of_nat f) + 1) with (Z.succ (Z.of_nat f + 1)) in Hlt by lia.
    rewrite Z.pow_succ_r in Hlt by lia. lia. }
  pose proof (Z.div_mod n 10). pose proof (Z.mod_pos_bound n 10). lia.
Qed.

Lemma dec_digits_bound n : 0 <= n ->
  n < 10 ^ Z.of_nat (count_digits (Z.to_nat (Z.log2 n)) n).
Proof.
  intros Hn. apply count_digits_bound; [done|].
  pose proof (Z.log2_nonneg n). rewrite Z2Nat.id by lia.
  destruct (Z.eq_dec n 0) as [->|]; [reflexivity|].
  pose proof (Z.log2_spec n ltac:(lia)). replace (Z.log2 n + 1) with (Z.succ (Z.log2 n)) by lia. lia.
Qed.

Lemma dec_digits_val n : 0 <= n -> digits_val (dec_digits n) = n.
Proof. intros. apply pad_digits_val. split; [done|]. by apply dec_digits_bound. Qed.

Lemma dec_digits_digits n : Forall (fun c => is_digit c = true) (dec_digits n).
Proof. apply pad_digits_digits. Qed.

Lemma dec_digits_nonempty n : dec_digits n <> [].
Proof.
  unfold dec_digits. intros H. apply (f_equal length) in H. rewrite pad_digits_length in H.
  destruct (Z.to_nat (Z.log2 n)); simpl in H; [done|]. destruct (n <? 10); done.
Qed.

Lemma span_digits_app l r : Forall (fun c => is_digit c = true) l ->
  (forall c r', r = c :: r' -> is_digit c = false) -> span_digits (l ++ r) = (l, r).
Proof.
  intros Hl Hr. induction Hl as [|c l Hc Hl IH]; simpl.
  - destruct r as [|c r']; simpl; [done|]. by rewrite (Hr c r').
  - rewrite Hc, IH. done.
Qed.

Lemma span_digits_spec l d r : span_digits l = (d, r) ->
  l = d ++ r /\ Forall (fun c => is_digit c = true) d.
Proof.
  revert d r. induction l as [|c l IH]; intros d r H; simpl in H; [simplify_eq; auto|].
  destruct (is_digit c) eqn:Hc; [|simplify_eq; auto].
  destruct (span_digits l) as [d' r']. simplify_eq. destruct (IH _ _ eq_refl) as [-> Hf]. auto.
Qed.

(** ** Trimming and conversion of plain texts *)

Lemma drop_while_false f l : Forall (fun c => f c = false) l -> drop_while f l = l.
Proof. destruct 1 as [|c l Hc]; simpl; [done|]. by rewrite Hc. Qed.

Lemma trim_id l : Forall (fun c => is_space c = false) l -> trim l = l.
Proof.
  intros H. unfold trim. rewrite (drop_while_false is_space l H).
  rewrite drop_while_false, rev_involutive; [done|]. by apply Forall_rev.
Qed.

Lemma digit_not_space c : is_digit c = true -> is_space c = false.
Proof.
  unfold is_digit, is_space. cbv zeta. intros H. zbool.
Qed.

Lemma digits_not_space l :
  Forall (fun c => is_digit c = true) l -> Forall (fun c => is_space c = false) l.
Proof. intros H. eapply Forall_impl; [exact H|]. apply digit_not_space. Qed.

Lemma chars_text l : chars (text l) = l.
Proof. apply String.list_ascii_of_string_of_list_ascii. Qed.

Lemma text_chars s : text (chars s) = s.
Proof. apply String.string_of_list_ascii_of_string. Qed.

(** ** [toFixed] and [parseFloat] *)

(** [x.toFixed(d)]; [None] stands for the exponent form that [toString] gives
    to magnitudes of [1e21] and above, which is no decimal literal. *)
Definition toFixed (x : number) (d : nat) : option (list ascii) :=
  match x with
  | NaN => Some (chars "NaN")
  | Infinity s => Some (if s then chars "-Infinity" else chars "Infinity")
  | Fin q =>
      if Qle_bool (inject_Z (10 ^ 21)) (Qabs q) then None
      else
        let n := Z.abs (toFixed_int q (Z.of_nat d)) in
        let p := 10 ^ Z.of_nat d in
        let body := dec_digits (n / p) ++ (if (d =? 0)%nat then [] else "."%char :: pad_digits d (n mod p)) in
        Some (if Qnum q <? 0 then "-"%char :: body else body)
  end.

(** [parseFloat] on a decimal literal without exponent: the longest prefix
    [sign digits . digits] after white space, [NaN] when it has no digit. *)
Definition parseFloat (l : list ascii) : number :=
  let l := drop_while is_space l in
  let neg := starts_with ["-"%char] l in
  let l := if neg then tail l else if starts_with ["+"%char] l then tail l else l in
  let '(i, r) := span_digits l in
  let f := match r with "."%char :: r' => (span_digits r').1 | _ => [] end in
  match i ++ f with
  | [] => NaN
  | ds => let m := digits_val ds in
          to_double ((if neg then - m else m) # Z.to_pos (10 ^ Z.of_nat (length f)))
  end.

(** [parseInt(s, 10)] as an integer, [None] for NaN.  The double it gives is
    the integer itself up to 2^53. *)
Definition parseInt10 (s : string) : option Z :=
  let l := drop_while is_space (chars s) in
  let digits l := match (span_digits l).1 with [] => None | d => Some (digits_val d) end in
  match l with
  | c :: l' => if Ascii.eqb c "-" then Z.opp <$> digits l' else if Ascii.eqb c "+" then digits l' else digits l
  | [] => None
  end.
