(* ===== verification/StellarAmount.v ===== *)
(** Exact stroop arithmetic: backend/src/utils/stellarAmount.js.

    A stroop count is a [Z] (the source's BigInt); an amount argument is a
    BigInt, a number, a string, [null] or [undefined].  The conversions are
    proved to be the half-up rounding of the decimal they are given, to
    round-trip through the printed form, and to round-trip through a JavaScript
    number below 2^29 units. *)

From Stdlib Require Import Ascii ZArith QArith Qround Qabs Qpower Lia Lqa.
From stdpp Require Import base list strings.
From S2P Require Import Prelude JsNumber JsString.

Local Open Scope Z_scope.

Definition DECIMALS : nat := 7.
Definition STROOPS_PER_UNIT : Z := 10000000.

Inductive amount_arg : Type :=
| ABigInt (z : Z)
| ANumber (x : number)
| AString (s : string)
| ANull
| AUndefined.

Inductive amount_error : Type := TypeError | RangeError | SyntaxError.

(** The literals the amount pattern accepts (digits, optionally a point and
    digits), split at the point. *)
Definition split_decimal (l : list ascii) : option (list ascii * option (list ascii)) :=
  let '(i, r) := span_digits l in
  match r with
  | [] => Some (i, None)
  | "."%char :: f =>
      let '(fd, r') := span_digits f in
      match r' with [] => Some (i, Some fd) | _ => None end
  | _ => None
  end.

Definition default_digits (l : list ascii) : list ascii :=
  match l with [] => ["0"%char] | _ => l end.

(** The literal part of [toStroops], after the argument was turned into text. *)
Definition toStroops_text (str : list ascii) : result amount_error Z :=
  let negative := starts_with ["-"%char] str in
  let str := if negative then tail str else str in
  match split_decimal str with
  | None => Throw TypeError
  | Some (intPart, fracOpt) =>
      let fracRaw := default [] fracOpt in
      if bool_decide (str = []) || bool_decide (str = ["."%char]) then Throw TypeError
      else
        let frac := take DECIMALS (fracRaw ++ replicate DECIMALS "0"%char) in
        let stroops := digits_val (default_digits intPart) * STROOPS_PER_UNIT
                       + digits_val (default_digits frac) in
        let stroops :=
          if (DECIMALS <? length fracRaw)%nat
             && (5 <=? digit_val (nth DECIMALS fracRaw "0"%char))
          then stroops + 1 else stroops in
        Ok (if negative then - stroops else stroops)
  end.

Definition toStroops (amount : amount_arg) : result amount_error Z :=
  match amount with
  | ABigInt z => Ok z
  | ANull | AUndefined => Throw TypeError
  | AString s => if str_truthy s then toStroops_text (trim (chars s)) else Throw TypeError
  | ANumber x =>
      match toFixed x DECIMALS with
      | Some str => toStroops_text str
      | None => Throw TypeError
      end
  end.

Definition fromStroops_text (b : Z) : list ascii :=
  let negative := b <? 0 in
  let abs := if negative then - b else b in
  (if negative then ["-"%char] else [])
    ++ dec_digits (abs / STROOPS_PER_UNIT)
    ++ "."%char :: pad_digits DECIMALS (abs mod STROOPS_PER_UNIT).

Definition fromStroops (b : Z) : string := text (fromStroops_text b).

Definition stroopsToNumber (b : Z) : number := parseFloat (chars (fromStroops b)).

Definition MAX_SAFE_INTEGER : Z := 2 ^ 53 - 1.
Definition MIN_SAFE_INTEGER : Z := - (2 ^ 53 - 1).

Definition stroopsToSafeNumber (b : Z) : result amount_error number :=
  if (MAX_SAFE_INTEGER <? b) || (b <? MIN_SAFE_INTEGER) then Throw RangeError
  else Ok (of_Z b).

(** [BigInt(v)] for the entries [sumStroops] accepts: BigInts, integral
    numbers and decimal integer strings. *)
Definition BigInt_of (v : amount_arg) : result amount_error Z :=
  match v with
  | ABigInt z => Ok z
  | ANumber (Fin q) =>
      if Qeq_bool q (inject_Z (Qfloor q)) then Ok (Qfloor q) else Throw RangeError
  | ANumber _ => Throw RangeError
  | AString s =>
      let t := trim (chars s) in
      let neg := starts_with ["-"%char] t in
      let ds := if neg then tail t else if starts_with ["+"%char] t then tail t else t in
      let '(d, r) := span_digits ds in
      match t, d, r with
      | [], _, _ => Ok 0
      | _, _ :: _, [] => Ok (if neg then - digits_val d else digits_val d)
      | _, _, _ => Throw SyntaxError
      end
  | ANull | AUndefined => Throw TypeError
  end.

Definition sum_step (total : Z) (v : amount_arg) : result amount_error Z :=
  match v with
  | ANull | AUndefined => Ok total
  | AString "" => Ok total
  | _ => b ← BigInt_of v; Ok (total + b)
  end.

Fixpoint sum_loop (total : Z) (values : list amount_arg) : result amount_error Z :=
  match values with
  | [] => Ok total
  | v :: vs => t ← sum_step total v; sum_loop t vs
  end.

(** [None] is an argument that is not an array. *)
Definition sumStroops (values : option (list amount_arg)) : result amount_error Z :=
  match values with None => Ok 0 | Some vs => sum_loop 0 vs end.

Definition compareAmounts (a b : amount_arg) : result amount_error Z :=
  sa ← toStroops a;
  sb ← toStroops b;
  Ok (if sa <? sb then -1 else if sb <? sa then 1 else 0).

Definition amountsEqual (a b : amount_arg) : result amount_error bool :=
  c ← compareAmounts a b; Ok (c =? 0).

Definition normalizeToNumber (raw : amount_arg) : number :=
  match raw with
  | ANull | AUndefined | AString "" => of_Z 0
  | _ => match toStroops raw with Ok s => stroopsToNumber s | Throw _ => of_Z 0 end
  end.

Definition parseAmount (raw : amount_arg) : result amount_error (Z * number) :=
  amountStroops ← toStroops raw; Ok (amountStroops, stroopsToNumber amountStroops).

Example toStroops_ex1 : toStroops (AString "100.0000000") = Ok 1000000000.
Proof. reflexivity. Qed.
Example toStroops_ex2 : toStroops (AString " -0.00000005 ") = Ok (-1).
Proof. reflexivity. Qed.
Example toStroops_ex3 : toStroops (ANumber (to_double (1 # 10))) = Ok 1000000.
Proof. vm_compute. reflexivity. Qed.
Example toStroops_ex4 : toStroops (AString "1.2.3") = Throw TypeError.
Proof. reflexivity. Qed.
Example fromStroops_ex1 : fromStroops (-12345678) = "-1.2345678"%string.
Proof. reflexivity. Qed.

(** ** Parsing and printing *)

Lemma digit_not_minus c l : is_digit c = true -> starts_with ["-"%char] (c :: l) = false.
Proof.
  intros H. unfold starts_with. destruct (Ascii.eqb_spec "-" c) as [<-|]; [discriminate H|done].
Qed.

(** A decimal text: optional sign, integer digits, point, fraction digits. *)
Definition decimal_text (neg : bool) (I F : list ascii) : list ascii :=
  (if neg then ["-"%char] else []) ++ I ++ "."%char :: F.

Definition decimal_val (I F : list ascii) : Q :=
  digits_val (I ++ F) # Z.to_pos (10 ^ Z.of_nat (length F)).

Lemma decimal_text_not_space neg I F :
  Forall (fun c => is_digit c = true) I -> Forall (fun c => is_digit c = true) F ->
  Forall (fun c => is_space c = false) (decimal_text neg I F).
Proof.
  intros HI HF. unfold decimal_text.
  repeat (apply Forall_app; split); [destruct neg; by repeat constructor|by apply digits_not_space|].
  constructor; [done|by apply digits_not_space].
Qed.

Lemma split_decimal_text I F :
  Forall (fun c => is_digit c = true) I -> Forall (fun c => is_digit c = true) F ->
  split_decimal (I ++ "."%char :: F) = Some (I, Some F).
Proof.
  intros HI HF. unfold split_decimal. rewrite (span_digits_app I ("."%char :: F)); [|done|].
  - rewrite <- (app_nil_r F), span_digits_app; [by rewrite app_nil_r|done|done].
  - intros c r [= <- _]. reflexivity.
Qed.

Lemma decimal_sign neg I F : Forall (fun c => is_digit c = true) I ->
  starts_with ["-"%char] (decimal_text neg I F) = neg /\
  (if neg then tail (decimal_text neg I F) else decimal_text neg I F) = I ++ "."%char :: F.
Proof.
  intros HI. unfold decimal_text. destruct neg; [done|]. cbn [app]. split; [|done].
  destruct HI as [|c I Hc HI]; [done|]. by apply digit_not_minus.
Qed.

Lemma default_digits_val l : digits_val (default_digits l) = digits_val l.
Proof. by destruct l. Qed.

Lemma digits_val_zeros n : digits_val (replicate n "0"%char) = 0.
Proof.
  induction n as [|n IH]; [done|]. rewrite replicate_S_end, digits_val_snoc, IH. done.
Qed.

(** What [toStroops] computes on any decimal text with a digit. *)
Lemma toStroops_decimal neg I F :
  Forall (fun c => is_digit c = true) I -> Forall (fun c => is_digit c = true) F ->
  I ++ F <> [] ->
  toStroops_text (decimal_text neg I F) =
    let n := digits_val I * STROOPS_PER_UNIT
             + digits_val (take DECIMALS (F ++ replicate DECIMALS "0"%char))
             + (if (DECIMALS <? length F)%nat
                   && (5 <=? digit_val (nth DECIMALS F "0"%char)) then 1 else 0) in
    Ok (if neg then - n else n).
Proof.
  intros HI HF Hne. unfold toStroops_text.
  destruct (decimal_sign neg I F HI) as [-> Htl]. rewrite Htl.
  rewrite split_decimal_text by done. cbn [default from_option id].
  rewrite !default_digits_val.
  rewrite bool_decide_eq_false_2 by (destruct I; discriminate).
  rewrite bool_decide_eq_false_2.
  2: { destruct I as [|c I]; [destruct F; [done|discriminate]|].
       intros [= -> Hx]. by destruct I. }
  cbn [orb]. cbv zeta. destruct (_ && _); do 2 f_equal; destruct neg; lia.
Qed.

Lemma toStroops_fixed neg n : 0 <= n ->
  toStroops_text (decimal_text neg (dec_digits (n / STROOPS_PER_UNIT))
                    (pad_digits DECIMALS (n mod STROOPS_PER_UNIT)))
  = Ok (if neg then - n else n).
Proof.
  intros Hn. rewrite toStroops_decimal; [|apply dec_digits_digits|apply pad_digits_digits|].
  2: { intros H. apply app_eq_nil in H as [H _]. by apply dec_digits_nonempty in H. }
  rewrite pad_digits_length. cbn [Nat.ltb Nat.leb DECIMALS andb].
  change (7 <? 7)%nat with false. cbn [andb]. rewrite Z.add_0_r.
  rewrite take_app_length' by (by rewrite pad_digits_length).
  rewrite dec_digits_val by (apply Z.div_pos; unfold STROOPS_PER_UNIT; lia).
  rewrite pad_digits_val by (apply Z.mod_pos_bound; unfold STROOPS_PER_UNIT; lia).
  pose proof (Z.div_mod n STROOPS_PER_UNIT ltac:(unfold STROOPS_PER_UNIT; lia)).
  cbv zeta. do 2 f_equal; destruct neg; lia.
Qed.

Lemma fromStroops_text_decimal z :
  fromStroops_text z = decimal_text (z <? 0) (dec_digits (Z.abs z / STROOPS_PER_UNIT))
                         (pad_digits DECIMALS (Z.abs z mod STROOPS_PER_UNIT)).
Proof.
  unfold fromStroops_text, decimal_text.
  destruct (Z.ltb_spec z 0); [rewrite Z.abs_neq|rewrite Z.abs_eq]; done || lia.
Qed.

Lemma toStroops_text_string l : l <> [] -> Forall (fun c => is_space c = false) l ->
  toStroops (AString (text l)) = toStroops_text l.
Proof.
  intros Hne Hs. unfold toStroops. rewrite chars_text, trim_id by done. by destruct l.
Qed.

(** Printing a stroop count and parsing the text gives the count back, for
    every integer: [toStroops(fromStroops(z)) = z]. *)
Theorem toStroops_fromStroops z : toStroops (AString (fromStroops z)) = Ok z.
Proof.
  unfold fromStroops. rewrite fromStroops_text_decimal, toStroops_text_string.
  - rewrite toStroops_fixed by lia. f_equal. destruct (Z.ltb_spec z 0); lia.
  - unfold decimal_text. intros H. repeat apply app_eq_nil in H as [_ H]. discriminate.
  - apply decimal_text_not_space; [apply dec_digits_digits|apply pad_digits_digits].
Qed.

(** ** Half-up rounding *)

(** The nearest integer to [a / b] with ties away from zero, as an integer division. *)
Lemma Qfloor_half_up a b s : 0 < b ->
  Qfloor ((a # Z.to_pos b) * inject_Z s + (1 # 2)) = (2 * (a * s) + b) / (2 * b).
Proof.
  intros Hb. unfold Qfloor, Qplus, Qmult, inject_Z; simpl.
  rewrite Pos.mul_1_r. rewrite Pos2Z.inj_mul, Z2Pos.id by lia.
  f_equal; lia.
Qed.

Lemma half_up_short v k n : 0 <= k <= n -> 0 <= v ->
  (2 * (v * 10 ^ n) + 10 ^ k) / (2 * 10 ^ k) = v * 10 ^ (n - k).
Proof.
  intros Hk Hv. replace n with (n - k + k) at 1 by lia. rewrite Z.pow_add_r by lia.
  pose proof (Z.pow_pos_nonneg 10 k). symmetry.
  apply Z.div_unique with (r := 10 ^ k); lia.
Qed.

Lemma half_up_long v d r k : 0 <= k -> 0 <= d < 10 -> 0 <= r < 10 ^ k ->
  (2 * ((v * 10 + d) * 10 ^ k + r) + 10 ^ (k + 1)) / (2 * 10 ^ (k + 1))
  = v + (if 5 <=? d then 1 else 0).
Proof.
  intros Hk Hd Hr. rewrite Z.pow_add_r by lia. change (10 ^ 1) with 10.
  pose proof (Z.pow_pos_nonneg 10 k ltac:(lia) Hk) as Hp. set (P := 10 ^ k) in *. symmetry.
  destruct (Z.leb_spec 5 d).
  - apply Z.div_unique with (r := 2 * (d * P + r) + P * 10 - 20 * P); nia.
  - apply Z.div_unique with (r := 2 * (d * P + r) + P * 10); nia.
Qed.

Lemma take_zeros_val F : (length F <= DECIMALS)%nat ->
  digits_val (take DECIMALS (F ++ replicate DECIMALS "0"%char))
  = digits_val F * 10 ^ (7 - Z.of_nat (length F)).
Proof.
  intros Hl. unfold DECIMALS in *. rewrite take_app_ge, take_replicate by lia.
  rewrite digits_val_app, digits_val_zeros, length_replicate, Z.add_0_r.
  do 2 f_equal. lia.
Qed.

Lemma half_up_long_fraction i F :
  Forall (fun c => is_digit c = true) F -> (DECIMALS < length F)%nat ->
  i * 10 ^ 7 + digits_val (take DECIMALS (F ++ replicate DECIMALS "0"%char))
    + (if 5 <=? digit_val (nth DECIMALS F "0"%char) then 1 else 0)
  = (2 * ((i * 10 ^ Z.of_nat (length F) + digits_val F) * 10 ^ 7) + 10 ^ Z.of_nat (length F))
    / (2 * 10 ^ Z.of_nat (length F)).
Proof.
  unfold DECIMALS. intros HF Hlt.
  destruct (drop 7 F) as [|c R] eqn:Hdrop.
  { apply (f_equal length) in Hdrop. rewrite length_drop in Hdrop. simpl in Hdrop. lia. }
  assert (HF' : F = take 7 F ++ c :: R) by (by rewrite <- Hdrop, take_drop).
  assert (Hl7 : length (take 7 F) = 7%nat) by (rewrite length_take; lia).
  rewrite take_app_le by lia.
  assert (Hc : nth 7 F "0"%char = c).
  { rewrite HF', app_nth2; rewrite Hl7; [done|lia]. }
  rewrite Hc. rewrite HF' in HF. apply Forall_app in HF as [HF7 HcR].
  apply Forall_cons in HcR as [Hdc HR]. apply digit_val_range in Hdc.
  pose proof (digits_val_range R HR) as HRr. set (k := Z.of_nat (length R)) in *.
  assert (HlF : Z.of_nat (length F) = k + 1 + 7).
  { rewrite HF', length_app, Hl7. simpl length. unfold k. lia. }
  assert (HvF : digits_val F = digits_val (take 7 F) * 10 ^ (k + 1)
                               + digit_val c * 10 ^ k + digits_val R).
  { rewrite HF' at 1. change (c :: R) with ([c] ++ R).
    rewrite !digits_val_app, length_app. change (digits_val [c]) with (digit_val c).
    rewrite Nat2Z.inj_add. change (Z.of_nat (length [c])) with 1. fold k.
    rewrite (Z.add_comm 1 k). ring. }
  rewrite HlF, HvF.
  rewrite <- (half_up_long (i * 10 ^ 7 + digits_val (take 7 F)) (digit_val c)
                (digits_val R) k) by (unfold k in *; lia).
  rewrite (Z.pow_add_r 10 (k + 1) 7) by (unfold k; lia).
  rewrite <- (Z.div_mul_cancel_r _ _ (10 ^ 7)) by lia.
  rewrite (Z.pow_add_r 10 k 1) by (unfold k; lia). change (10 ^ 1) with 10.
  f_equal; ring.
Qed.

Lemma half_up_short_fraction i F :
  Forall (fun c => is_digit c = true) F -> (length F <= DECIMALS)%nat -> 0 <= i ->
  i * 10 ^ 7 + digits_val (take DECIMALS (F ++ replicate DECIMALS "0"%char))
  = (2 * ((i * 10 ^ Z.of_nat (length F) + digits_val F) * 10 ^ 7) + 10 ^ Z.of_nat (length F))
    / (2 * 10 ^ Z.of_nat (length F)).
Proof.
  intros HF Hle Hi. pose proof (digits_val_range F HF) as HvF.
  pose proof (Z.pow_pos_nonneg 10 (Z.of_nat (length F))) as Hp.
  rewrite take_zeros_val by done. unfold DECIMALS in Hle. rewrite half_up_short by nia.
  rewrite Z.mul_add_distr_r, <- Z.mul_assoc, <- Z.pow_add_r by lia.
  replace (Z.of_nat (length F) + (7 - Z.of_nat (length F))) with 7 by lia. lia.
Qed.

(** On every decimal text with at least one digit, however long its
    fraction, [toStroops] is the half-up rounding of the denoted number to
    seven places, with the sign put back: no digit is lost or misrounded. *)
Theorem toStroops_half_up neg I F :
  Forall (fun c => is_digit c = true) I -> Forall (fun c => is_digit c = true) F ->
  I ++ F <> [] ->
  toStroops (AString (text (decimal_text neg I F))) =
    Ok ((if neg then Z.opp else id)
          (Qfloor (decimal_val I F * inject_Z STROOPS_PER_UNIT + (1 # 2)))).
Proof.
  intros HI HF Hne. rewrite toStroops_text_string.
  2: { unfold decimal_text. destruct neg, I; discriminate. }
  2: by apply decimal_text_not_space.
  rewrite toStroops_decimal by done. unfold decimal_val.
  rewrite Qfloor_half_up, digits_val_app by (apply Z.pow_pos_nonneg; lia).
  change STROOPS_PER_UNIT with (10 ^ 7). cbv zeta.
  pose proof (digits_val_range I HI) as [HI0 _].
  match goal with |- Ok (if neg then - ?x else ?x) = Ok (_ ?y) => assert (x = y) as -> end;
    [|by destruct neg].
  destruct (Nat.ltb_spec DECIMALS (length F)) as [Hlt|Hge]; cbn [andb].
  - by apply half_up_long_fraction.
  - rewrite Z.add_0_r. by apply half_up_short_fraction.
Qed.

Lemma toStroops_half_up_witness :
  toStroops (AString (text (decimal_text true (chars "3") (chars "14159265")))) = Ok (-31415927).
Proof.
  refine (eq_trans (toStroops_half_up true (chars "3") (chars "14159265") _ _ _) _).
  - repeat constructor.
  - repeat constructor.
  - discriminate.
  - reflexivity.
Defined.

(** ** Stroops as JavaScript numbers *)

Lemma parseFloat_decimal neg I F :
  Forall (fun c => is_digit c = true) I -> Forall (fun c => is_digit c = true) F ->
  I <> [] ->
  parseFloat (decimal_text neg I F)
  = to_double ((if neg then - digits_val (I ++ F) else digits_val (I ++ F))
               # Z.to_pos (10 ^ Z.of_nat (length F))).
Proof.
  intros HI HF Hne. unfold parseFloat.
  rewrite drop_while_false by by apply decimal_text_not_space.
  destruct (decimal_sign neg I F HI) as [-> Htl].
  assert (Hplus : starts_with ["+"%char] (decimal_text neg I F) = false).
  { unfold decimal_text. destruct neg; [done|]. destruct HI as [|c I Hc HI]; [done|].
    simpl. by destruct c as [[] [] [] [] [] [] [] []]. }
  rewrite Hplus, Htl. rewrite (span_digits_app I ("."%char :: F)); [|done|].
  2: { intros c r [= <- _]. reflexivity. }
  replace (span_digits F) with (F, @nil ascii).
  2: { rewrite <- (app_nil_r F) at 2. by rewrite span_digits_app. }
  cbn [fst]. destruct (I ++ F) eqn:E; [|by rewrite <- E].
  apply app_eq_nil in E as [-> _]. done.
Qed.

(** The number for a stroop count is the double nearest to it in units. *)
Lemma stroopsToNumber_nearest z : stroopsToNumber z = to_double (z # 10000000).
Proof.
  unfold stroopsToNumber, fromStroops. rewrite chars_text, fromStroops_text_decimal.
  rewrite parseFloat_decimal;
    [|apply dec_digits_digits|apply pad_digits_digits|apply dec_digits_nonempty].
  rewrite pad_digits_length, digits_val_app, pad_digits_length.
  rewrite dec_digits_val by (apply Z.div_pos; unfold STROOPS_PER_UNIT; lia).
  rewrite pad_digits_val by (apply Z.mod_pos_bound; unfold STROOPS_PER_UNIT; lia).
  change (10 ^ Z.of_nat DECIMALS) with STROOPS_PER_UNIT.
  pose proof (Z.div_mod (Z.abs z) STROOPS_PER_UNIT ltac:(unfold STROOPS_PER_UNIT; lia)) as Hd.
  rewrite Z.mul_comm, <- Hd. change (Z.to_pos STROOPS_PER_UNIT) with 10000000%positive.
  f_equal. f_equal. destruct (Z.ltb_spec z 0); lia.
Qed.

Lemma toStroops_number q : (Qabs q < inject_Z (10 ^ 21))%Q ->
  toStroops (ANumber (Fin q)) = Ok (toFixed_int q 7).
Proof.
  intros Hq. unfold toStroops, toFixed.
  destruct (Qle_bool _ _) eqn:E; [apply Qle_bool_iff in E; lra|].
  change (Z.of_nat DECIMALS) with 7. change (10 ^ 7) with STROOPS_PER_UNIT.
  cbv zeta. change (DECIMALS =? 0)%nat with false. cbn [orb].
  set (n := Z.abs (toFixed_int q 7)).
  transitivity (toStroops_text (decimal_text (Qnum q <? 0) (dec_digits (n / STROOPS_PER_UNIT))
                    (pad_digits DECIMALS (n mod STROOPS_PER_UNIT)))).
  { unfold decimal_text. by destruct (Qnum q <? 0). }
  rewrite toStroops_fixed by (unfold n; lia). f_equal. unfold n, toFixed_int.
  assert (0 <= Qfloor (Qabs q * inject_Z (10 ^ 7) + (1 # 2))).
  { apply (Qfloor_resp_le 0). pose proof (Qabs_nonneg q).
    assert (0 <= inject_Z (10 ^ 7))%Q by discriminate. nra. }
  destruct (Qnum q <? 0); lia.
Qed.

Lemma Qnum_neg q : (Qnum q <? 0) = true <-> (q < 0)%Q.
Proof. unfold Qlt; simpl. rewrite Z.ltb_lt. lia. Qed.

(** [toFixed(7)] recovers the integer from any value within a third of a stroop. *)
Lemma toFixed_int_close r z : (Qabs (r - (z # 10000000)) <= 1 # 33000000)%Q -> toFixed_int r 7 = z.
Proof.
  intros Herr. apply Qabs_Qle_condition in Herr as [Hlo Hhi].
  assert (Hz : (z # 10000000 == inject_Z z * (1 # 10000000))%Q) by (unfold Qeq; simpl; lia).
  rewrite Hz in Hlo, Hhi. unfold toFixed_int. change (10 ^ 7) with 10000000.
  change (inject_Z 10000000) with 10000000%Q.
  destruct (Z.lt_trichotomy z 0) as [Hneg|[->|Hpos]].
  - assert (inject_Z z <= -1)%Q by (unfold Qle; simpl; lia).
    assert (Hr : (r < 0)%Q) by lra. rewrite (proj2 (Qnum_neg r) Hr).
    rewrite (Qfloor_unique _ (- z)); [lia|..].
    + rewrite Qabs_neg, inject_Z_opp by lra. lra.
    + rewrite Qabs_neg, inject_Z_plus, inject_Z_opp by lra. change (inject_Z 1) with 1%Q. lra.
  - rewrite (Qfloor_unique _ 0); [by destruct (_ <? _)|..]; change (inject_Z 0) with 0%Q in *.
    + pose proof (Qabs_nonneg r). lra.
    + change (inject_Z (0 + 1)) with 1%Q.
      assert (Qabs r <= 1 # 33000000)%Q by (apply Qabs_Qle_condition; lra). lra.
  - assert (1 <= inject_Z z)%Q by (unfold Qle; simpl; lia).
    assert (Hr : (0 <= r)%Q) by lra.
    destruct (Qnum r <? 0) eqn:E; [apply Qnum_neg in E; lra|].
    apply Qfloor_unique.
    + rewrite Qabs_pos by lra. lra.
    + rewrite Qabs_pos, inject_Z_plus by lra. change (inject_Z 1) with 1%Q. lra.
Qed.

Lemma to_double_fin q : (Qabs q < Qpower 2 29)%Q ->
  exists r, to_double q = Fin r /\ (Qabs (r - q) <= 1 # 33000000)%Q /\ (Qabs r < Qpower 2 30)%Q.
Proof.
  intros Hq. pose proof (rnd_error q 29 ltac:(lia) Hq) as He.
  assert (Hb : (Qabs (rnd q - q) <= 1 # 33000000)%Q).
  { eapply Qle_trans; [exact He|]. vm_compute. discriminate. }
  assert (Hr : (Qabs (rnd q) < Qpower 2 30)%Q).
  { pose proof (Qabs_triangle_reverse (rnd q) q) as Ht.
    assert (Qpower 2 30 == Qpower 2 29 + Qpower 2 29)%Q as -> by reflexivity.
    assert (1 # 33000000 < Qpower 2 29)%Q by reflexivity. lra. }
  exists (rnd q). split; [|done]. unfold to_double.
  destruct (Qle_bool _ _) eqn:E; [|done]. apply Qle_bool_iff in E.
  assert (Qpower 2 30 < inject_Z (2 ^ 1024))%Q by reflexivity.
  exfalso. eapply Qlt_not_le; [exact Hr|]. eapply Qle_trans; [|exact E]. by apply Qlt_le_weak.
Qed.

(** A stroop count below [2^29] units survives being stored as a
    JavaScript number: converting it to a number and back is the identity. *)
Theorem stroops_number_roundtrip z : Z.abs z < 2 ^ 29 * STROOPS_PER_UNIT ->
  toStroops (ANumber (stroopsToNumber z)) = Ok z.
Proof.
  intros Hz. rewrite stroopsToNumber_nearest.
  destruct (to_double_fin (z # 10000000)) as (r & -> & Herr & Hr).
  { unfold STROOPS_PER_UNIT in Hz. unfold Qlt, Qabs; simpl. lia. }
  rewrite toStroops_number.
  - by rewrite (toFixed_int_close r z).
  - eapply Qlt_trans; [exact Hr|reflexivity].
Qed.

Lemma stroops_number_roundtrip_witness :
  toStroops (ANumber (stroopsToNumber (2 ^ 29 * 10000000 - 1))) = Ok (2 ^ 29 * 10000000 - 1).
Proof. apply (stroops_number_roundtrip (2 ^ 29 * 10000000 - 1)). reflexivity. Defined.

(** Above that range the round trip through a number is lossy, already for
    amounts whose stroop count is a safe integer: two adjacent stroop counts
    below [2^53] are stored as the same number. *)
Theorem stroops_number_collision :
  let z := 2 ^ 53 - 20 in
  z <= MAX_SAFE_INTEGER /\ stroopsToNumber z = stroopsToNumber (z + 1) /\
  toStroops (ANumber (stroopsToNumber z)) <> Ok z.
Proof. cbv zeta. split; [discriminate|]. rewrite !stroopsToNumber_nearest. vm_compute. split; [reflexivity|discriminate]. Qed.

(** ** Comparison and summation *)

(** Comparing two amounts is comparing their stroop counts: the sign of
    the result is the order of the integers, whatever form the arguments have. *)
Theorem compareAmounts_spec a b sa sb :
  toStroops a = Ok sa -> toStroops b = Ok sb ->
  compareAmounts a b = Ok (Z.sgn (sa - sb)) /\
  amountsEqual a b = Ok (bool_decide (sa = sb)).
Proof.
  intros Ha Hb. unfold amountsEqual, compareAmounts. rewrite Ha, Hb. cbn [mbind result_bind].
  destruct (Z.ltb_spec sa sb), (Z.ltb_spec sb sa); try lia; cbn [Z.eqb].
  - rewrite bool_decide_eq_false_2 by lia. by rewrite Z.sgn_neg by lia.
  - rewrite bool_decide_eq_false_2 by lia. by rewrite Z.sgn_pos by lia.
  - assert (sa = sb) as -> by lia. by rewrite bool_decide_eq_true_2, Z.sub_diag.
Qed.

Lemma compareAmounts_spec_witness :
  compareAmounts (AString "0.1") (ANumber (to_double (1 # 10))) = Ok 0.
Proof.
  refine (proj1 (compareAmounts_spec _ _ 1000000 1000000 _ _)); vm_compute; reflexivity.
Defined.

(** The entries of a sum that count, as integers. *)
Definition entry_value (v : amount_arg) : option Z :=
  match v with
  | ANull | AUndefined | AString "" => Some 0
  | _ => match BigInt_of v with Ok z => Some z | Throw _ => None end
  end.

Lemma sum_loop_spec vs zs t : mapM entry_value vs = Some zs ->
  sum_loop t vs = Ok (t + foldr Z.add 0 zs).
Proof.
  revert zs t. induction vs as [|v vs IH]; intros zs t H; simpl in H.
  { injection H as <-. cbn [sum_loop foldr]. by rewrite Z.add_0_r. }
  apply bind_Some in H as (z & Hz & (zs' & Hzs & [= <-])%bind_Some).
  cbn [sum_loop]. assert (sum_step t v = Ok (t + z)) as ->.
  { unfold entry_value in Hz. destruct v as [|x|[]| |]; simpl in *; simplify_eq;
      rewrite ?Z.add_0_r; try done; crush_match. }
  cbn [mbind result_bind]. rewrite (IH zs') by done. cbn [foldr]. by rewrite Z.add_assoc.
Qed.

(** The total of a report is exactly the sum of its line items: when every
    entry is convertible, [sumStroops] returns the integer sum, with empty
    entries counting as zero. *)
Theorem sumStroops_exact vs zs :
  mapM entry_value vs = Some zs -> sumStroops (Some vs) = Ok (foldr Z.add 0 zs).
Proof. intros H. unfold sumStroops. by rewrite (sum_loop_spec vs zs 0 H). Qed.

Lemma sumStroops_exact_witness :
  sumStroops (Some [ABigInt 5; ANull; AString "12"; ANumber (of_Z 3); AString ""]) = Ok 20.
Proof.
  refine (eq_trans (sumStroops_exact _ [5; 0; 12; 3; 0] _) _); reflexivity.
Defined.

(** Persisted stroops are exact or refused. *)
Lemma stroopsToSafeNumber_exact z x :
  stroopsToSafeNumber z = Ok x -> x = of_Z z /\ Z.abs z < 2 ^ 53 /\ rnd (inject_Z z) = inject_Z z.
Proof.
  unfold stroopsToSafeNumber, MAX_SAFE_INTEGER, MIN_SAFE_INTEGER. intros H.
  assert (Hz : Z.abs z < 2 ^ 53 /\ x = of_Z z).
  { destruct (Z.ltb_spec (2 ^ 53 - 1) z), (Z.ltb_spec z (- (2 ^ 53 - 1)));
      simpl in H; simplify_eq; split; lia || done. }
  destruct Hz as [Hz ->]. split; [done|]. split; [done|]. apply rnd_int. lia.
Qed.
