(* ===== verification/DecimalLib.v ===== *)
(** The interface of decimal.js, the arbitrary-precision package the money code
    computes with.  The package is not part of the repository: it is a class of
    operations with the laws its documentation states, and every definition
    that uses it takes the class as an argument.  [exact_decimal] is an
    instance, so the laws are consistent. *)

From Stdlib Require Import Ascii ZArith QArith Qround Qabs Qpower Qminmax Lia Lqa.
From stdpp Require Import base list strings.
From S2P Require Import Prelude JsNumber JsString StellarAmount.

Local Open Scope Z_scope.

(** Two numbers with the same value: finite ones are compared as rationals. *)
Definition num_equiv (a b : number) : Prop :=
  match a, b with
  | NaN, NaN => True
  | Infinity s, Infinity t => s = t
  | Fin p, Fin q => (p == q)%Q
  | _, _ => False
  end.

#[export] Instance num_equiv_equivalence : Equivalence num_equiv.
Proof.
  split.
  - intros []; simpl; done.
  - intros [] []; simpl; done.
  - intros [] [] []; simpl; try done; by intros -> ->.
Qed.

(** Round to [n] decimal places, half away from zero ([ROUND_HALF_UP]). *)
Definition round_half_up (n : nat) (q : Q) : Q :=
  toFixed_int q (Z.of_nat n) # Z.to_pos (10 ^ Z.of_nat n).

(** A rational with at most twenty significant decimal digits. *)
Definition fits20 (q : Q) : Prop :=
  exists m e, Z.abs m < 10 ^ 20 /\ (q == inject_Z m * Qpower 10 e)%Q.

Class DecimalLib : Type := {
  dec : Type;
  dec_val : dec -> number;
  dec_of_number : number -> dec;
  dec_of_string : string -> option dec;  (** [None]: DecimalError is thrown *)
  dec_plus : dec -> dec -> dec;
  dec_minus : dec -> dec -> dec;
  dec_mul : dec -> dec -> dec;
  dec_div : dec -> dec -> dec;
  dec_negated : dec -> dec;
  dec_abs : dec -> dec;
  dec_max : dec -> dec -> dec;
  dec_toDP : nat -> dec -> dec;          (** toDecimalPlaces, half up *)
  dec_cmp : dec -> dec -> option comparison;  (** [None]: NaN *)
  dec_toNumber : dec -> number;

  (** Documented behaviour. *)
  dec_of_number_finite : forall x, isFinite (dec_val (dec_of_number x)) = isFinite x;
  dec_of_number_int : forall z, Z.abs z <= 2 ^ 53 ->
    num_equiv (dec_val (dec_of_number (of_Z z))) (of_Z z);
  (** [new Decimal(x)] reads the decimal text of [x], which has fifteen reliable
      digits: a number that is nearest to a short decimal denotes it. *)
  dec_of_number_stroops : forall z, Z.abs z < 10 ^ 15 ->
    num_equiv (dec_val (dec_of_number (to_double (z # 10000000)))) (Fin (z # 10000000));
  dec_plus_exact : forall a b p q, dec_val a = Fin p -> dec_val b = Fin q ->
    fits20 (p + q) -> num_equiv (dec_val (dec_plus a b)) (Fin (p + q));
  dec_minus_exact : forall a b p q, dec_val a = Fin p -> dec_val b = Fin q ->
    fits20 (p - q) -> num_equiv (dec_val (dec_minus a b)) (Fin (p - q));
  dec_mul_exact : forall a b p q, dec_val a = Fin p -> dec_val b = Fin q ->
    fits20 (p * q) -> num_equiv (dec_val (dec_mul a b)) (Fin (p * q));
  dec_div_exact : forall a b p q, dec_val a = Fin p -> dec_val b = Fin q ->
    ~ (q == 0)%Q -> fits20 (p / q) -> num_equiv (dec_val (dec_div a b)) (Fin (p / q));
  dec_negated_exact : forall a p, dec_val a = Fin p ->
    num_equiv (dec_val (dec_negated a)) (Fin (- p));
  dec_abs_exact : forall a p, dec_val a = Fin p ->
    num_equiv (dec_val (dec_abs a)) (Fin (Qabs p));
  dec_max_exact : forall a b p q, dec_val a = Fin p -> dec_val b = Fin q ->
    num_equiv (dec_val (dec_max a b)) (Fin (Qmax p q));
  dec_toDP_exact : forall n a p, dec_val a = Fin p ->
    num_equiv (dec_val (dec_toDP n a)) (Fin (round_half_up n p));
  dec_cmp_exact : forall a b p q, dec_val a = Fin p -> dec_val b = Fin q ->
    dec_cmp a b = Some (p ?= q)%Q;
  dec_toNumber_nearest : forall a p, dec_val a = Fin p -> dec_toNumber a = to_double p;
}.

(** Comparison methods of a Decimal; false on NaN. *)
Section Comparisons.
Context `{DL : DecimalLib}.
Definition dec_lt (a b : dec) : bool := match dec_cmp a b with Some Lt => true | _ => false end.
Definition dec_gt (a b : dec) : bool := match dec_cmp a b with Some Gt => true | _ => false end.
Definition dec_lte (a b : dec) : bool :=
  match dec_cmp a b with Some Lt | Some Eq => true | _ => false end.
Definition dec_isFinite (a : dec) : bool := isFinite (dec_val a).

(** [a] denotes the rational [p]. *)
Definition denotes (a : dec) (p : Q) : Prop := num_equiv (dec_val a) (Fin p).

Lemma denotes_val a p : denotes a p -> exists p', dec_val a = Fin p' /\ (p' == p)%Q.
Proof. unfold denotes. destruct (dec_val a); simpl; try done. eauto. Qed.

#[export] Instance denotes_proper : Proper (eq ==> Qeq ==> iff) denotes.
Proof. intros a ? <- p q H. unfold denotes. destruct (dec_val a); simpl; try done. by rewrite H. Qed.
End Comparisons.

#[export] Instance fits20_proper : Proper (Qeq ==> iff) fits20.
Proof. intros p q H. unfold fits20. by setoid_rewrite H. Qed.

Lemma fits20_opp q : fits20 q -> fits20 (- q).
Proof.
  intros (m & e & Hm & Hq). exists (- m), e. split; [lia|]. rewrite Hq, inject_Z_opp. ring.
Qed.

Lemma fits20_int z : Z.abs z < 10 ^ 20 -> fits20 (inject_Z z).
Proof. intros Hz. exists z, 0. split; [done|]. simpl. ring. Qed.

Lemma fits20_scaled z (n : nat) : Z.abs z < 10 ^ 20 ->
  fits20 (z # Z.to_pos (10 ^ Z.of_nat n)).
Proof.
  intros Hz. exists z, (- Z.of_nat n). split; [done|].
  rewrite Qpower_opp. change 10%Q with (inject_Z 10). rewrite <- Zpower_Qpower by lia.
  pose proof (Z.pow_pos_nonneg 10 (Z.of_nat n) ltac:(lia) ltac:(lia)).
  destruct (10 ^ Z.of_nat n); simpl; try lia. unfold Qeq; simpl. lia.
Qed.

(** ** Facts about half-up rounding *)

Lemma toFixed_int_sign q d : 0 <= d ->
  ((0 <= q)%Q -> 0 <= toFixed_int q d) /\ ((q <= 0)%Q -> toFixed_int q d <= 0).
Proof.
  intros Hd. assert (0 <= Qfloor (Qabs q * inject_Z (10 ^ d) + (1 # 2))) as Hf.
  { apply (Qfloor_resp_le 0). pose proof (Qabs_nonneg q).
    pose proof (Z.pow_pos_nonneg 10 d). assert (0 <= inject_Z (10 ^ d))%Q by (unfold Qle; simpl; lia). nra. }
  unfold toFixed_int, Qle. cbn [Qnum Qden]. rewrite !Z.mul_0_l, !Z.mul_1_r.
  destruct (Z.ltb_spec (Qnum q) 0); split; try lia.
  intros H0. assert (Qnum q = 0) as Hq0 by lia.
  assert (Qabs q == 0)%Q as Hq by (unfold Qabs, Qeq; destruct q; simpl in *; lia).
  assert (Qfloor (Qabs q * inject_Z (10 ^ d) + (1 # 2)) = 0); [|lia].
  assert (Qabs q * inject_Z (10 ^ d) + (1 # 2) == 1 # 2)%Q as -> by (rewrite Hq; ring). reflexivity.
Qed.

#[export] Instance toFixed_int_proper : Proper (Qeq ==> eq ==> eq) toFixed_int.
Proof.
  intros p q H d ? <-. unfold toFixed_int. cbv zeta.
  rewrite (Qfloor_comp (Qabs p * inject_Z (10 ^ d) + (1 # 2)) (Qabs q * inject_Z (10 ^ d) + (1 # 2)))
    by by rewrite H.
  replace (Qnum p <? 0) with (Qnum q <? 0); [done|].
  unfold Qeq in H. destruct (Z.ltb_spec (Qnum q) 0), (Z.ltb_spec (Qnum p) 0); nia.
Qed.

#[export] Instance round_half_up_proper : Proper (eq ==> Qeq ==> Qeq) round_half_up.
Proof. intros n ? <- p q H. unfold round_half_up. by rewrite H. Qed.

Lemma toFixed_int_exact z d : 0 <= d -> toFixed_int (z # Z.to_pos (10 ^ d)) d = z.
Proof.
  intros Hd. pose proof (Z.pow_pos_nonneg 10 d ltac:(lia) Hd) as Hp. unfold toFixed_int; cbv zeta; cbn [Qnum].
  assert (Hq : (Qabs (z # Z.to_pos (10 ^ d)) * inject_Z (10 ^ d) == inject_Z (Z.abs z))%Q).
  { unfold Qabs, Qeq; simpl. rewrite Pos2Z.inj_mul, Z2Pos.id by lia. lia. }
  rewrite (Qfloor_unique _ (Z.abs z)).
  2-3: rewrite Hq, ?inject_Z_plus; change (inject_Z 1) with 1%Q; lra.
  destruct (Z.ltb_spec z 0); lia.
Qed.

(** Rounding a value that already has [n] places changes nothing. *)
Lemma round_half_up_exact n z :
  (round_half_up n (z # Z.to_pos (10 ^ Z.of_nat n)) == z # Z.to_pos (10 ^ Z.of_nat n))%Q.
Proof. unfold round_half_up. by rewrite toFixed_int_exact by lia. Qed.

Lemma round_half_up_nonneg n q : (0 <= q)%Q -> (0 <= round_half_up n q)%Q.
Proof.
  intros H. apply (toFixed_int_sign q (Z.of_nat n)) in H; [|lia].
  unfold round_half_up, Qle; simpl. lia.
Qed.

(** ** An instance *)

(** Exact rational arithmetic satisfies every law. *)
Definition rat_op (f : Q -> Q -> Q) (a b : number) : number :=
  match a, b with Fin p, Fin q => Fin (f p q) | _, _ => NaN end.

Definition rat_div (a b : number) : number :=
  match a, b with
  | Fin p, Fin q => if Qeq_bool q 0 then NaN else Fin (p / q)
  | _, _ => NaN
  end.

(** The exact value of a decimal text. *)
Definition rat_of_string (s : string) : option number :=
  let str := trim (chars s) in
  let neg := starts_with ["-"%char] str in
  match split_decimal (if neg then tail str else str) with
  | Some (i, f) =>
      let v := decimal_val i (default [] f) in Some (Fin (if neg then Qopp v else v))
  | None => None
  end.

(** A number as the seven-place decimal it prints as, if it is nearest to one. *)
Definition rat_of_number (x : number) : number :=
  match x with
  | Fin q =>
      let z := toFixed_int q 7 in
      match to_double (z # 10000000) with
      | Fin r => if Qeq_bool r q then Fin (z # 10000000) else x
      | _ => x
      end
  | _ => x
  end.

Lemma rat_of_number_finite x : isFinite (rat_of_number x) = isFinite x.
Proof. destruct x as [| |q]; try done. unfold rat_of_number. by crush_match. Qed.

Lemma rat_of_number_int z : Z.abs z <= 2 ^ 53 -> num_equiv (rat_of_number (of_Z z)) (of_Z z).
Proof.
  intros Hz. unfold rat_of_number, of_Z.
  assert (inject_Z z == z * 10 ^ 7 # Z.to_pos (10 ^ 7))%Q as E by (unfold Qeq; simpl; lia).
  rewrite (toFixed_int_proper _ _ E 7 7 eq_refl), toFixed_int_exact by lia. change (Z.to_pos (10 ^ 7)) with 10000000%positive in *.
  rewrite (to_double_int (z * 10 ^ 7 # 10000000) z Hz) by (by rewrite <- E).
  unfold of_Z. rewrite (proj2 (Qeq_bool_iff _ _)) by done. simpl. by rewrite E.
Qed.

Lemma rat_of_number_stroops z : Z.abs z < 10 ^ 15 ->
  num_equiv (rat_of_number (to_double (z # 10000000))) (Fin (z # 10000000)).
Proof.
  intros Hz. destruct (to_double_fin (z # 10000000)) as (r & Hr & Herr & _).
  { unfold Qlt, Qabs; simpl. lia. }
  rewrite Hr. unfold rat_of_number. rewrite (toFixed_int_close r z Herr), Hr.
  by rewrite (proj2 (Qeq_bool_iff r r)) by done.
Qed.

#[refine] Definition exact_decimal : DecimalLib := {|
  dec := number;
  dec_val := id;
  dec_of_number := rat_of_number;
  dec_of_string := rat_of_string;
  dec_plus := rat_op Qplus;
  dec_minus := rat_op Qminus;
  dec_mul := rat_op Qmult;
  dec_div := rat_div;
  dec_negated := num_neg;
  dec_abs := num_abs;
  dec_max := rat_op Qmax;
  dec_toDP n a := match a with Fin p => Fin (round_half_up n p) | _ => a end;
  dec_cmp a b := match a, b with Fin p, Fin q => Some (p ?= q)%Q | _, _ => None end;
  dec_toNumber a := match a with Fin p => to_double p | _ => a end;
|}.
Proof.
  all: unfold id.
  - apply rat_of_number_finite.
  - apply rat_of_number_int.
  - apply rat_of_number_stroops.
  - by intros ? ? ? ? -> ->.
  - by intros ? ? ? ? -> ->.
  - by intros ? ? ? ? -> ->.
  - intros ? ? ? ? -> -> Hq _. simpl. destruct (Qeq_bool _ _) eqn:E; [|done].
    by apply Qeq_bool_eq in E.
  - by intros ? ? ->.
  - by intros ? ? ->.
  - by intros ? ? ? ? -> ->.
  - by intros ? ? ? ->.
  - by intros ? ? ? ? -> ->.
  - by intros ? ? ->.
Defined.
