(* ===== verification/Money.v ===== *)
(** Fee settlement in exact decimal arithmetic: backend/src/utils/money.js.

    The classification of a cumulative payment total against a fee is stated
    over the rationals the Decimals denote, and proved to coincide with integer
    arithmetic on stroops whenever both amounts are stroop counts. *)

From Stdlib Require Import ZArith QArith Qround Qabs Qpower Qminmax Lia Lqa.
From stdpp Require Import base list strings.
From S2P Require Import Prelude JsNumber JsString StellarAmount DecimalLib.

Local Open Scope Z_scope.

Definition MONEY_DECIMALS : nat := 7.

Inductive fee_status : Type := partial | overpaid | valid | underpaid.

#[export] Instance fee_status_eq_dec : EqDecision fee_status.
Proof. solve_decision. Defined.

Inductive money_error : Type := DecimalError.

Record classification : Type := {
  status : fee_status;
  feePaid : bool;
  cumulativeTotal : number;
  excessAmount : number;
  remainingBalance : number;
}.

Section Money.
Context `{DL : DecimalLib}.

(** The values the functions are called with. *)
Inductive money_arg : Type :=
| MDecimal (d : dec)
| MNumber (x : number)
| MString (s : string)
| MNull
| MUndefined.

Definition toMoney (value : money_arg) : result money_error dec :=
  match value with
  | MDecimal d => Ok d
  | MNull | MUndefined | MString "" => Ok (dec_of_number (of_Z 0))
  | MString s => of_option (dec_of_string s) DecimalError
  | MNumber x => Ok (dec_of_number x)
  end.

(** The argument is the text of a BSON Decimal128, or absent. *)
Definition decimalFromMongo (value : option string) : result money_error dec :=
  match value with
  | None => Ok (dec_of_number (of_Z 0))
  | Some s => of_option (dec_of_string s) DecimalError
  end.

Definition roundMoney (value : money_arg) : result money_error dec :=
  d ← toMoney value; Ok (dec_toDP MONEY_DECIMALS d).

Definition toMoneyNumber (value : money_arg) : result money_error number :=
  d ← roundMoney value; Ok (dec_toNumber d).

Definition compareMoney (a b : money_arg) : result money_error (option comparison) :=
  x ← toMoney a; y ← toMoney b; Ok (dec_cmp x y).

Definition moneyEquals (a b : money_arg) : result money_error bool :=
  c ← compareMoney a b; Ok (match c with Some Eq => true | _ => false end).

Definition classifyFeePayment (cumulativeTotal feeAmount : money_arg)
  : result money_error classification :=
  cumulative ← roundMoney cumulativeTotal;
  fee ← toMoney feeAmount;
  let cmp := dec_cmp cumulative fee in
  let st := match cmp with Some Lt => partial | Some Gt => overpaid | _ => valid end in
  excess ← (if decide (st = overpaid)
            then toMoneyNumber (MDecimal (dec_minus cumulative fee))
            else Ok (of_Z 0));
  remaining ← toMoneyNumber
                (MDecimal (dec_max (dec_of_number (of_Z 0)) (dec_minus fee cumulative)));
  Ok {| status := st;
        feePaid := match cmp with Some Gt | Some Eq => true | _ => false end;
        cumulativeTotal := dec_toNumber cumulative;
        excessAmount := excess;
        remainingBalance := remaining |}.

Definition with_status (st : fee_status) (c : classification) : classification :=
  {| status := st; feePaid := feePaid c; cumulativeTotal := cumulativeTotal c;
     excessAmount := excessAmount c; remainingBalance := remainingBalance c |}.

Definition installment_given (a : money_arg) : bool :=
  match a with MNull | MUndefined | MString "" => false | _ => true end.

Definition classifyFeePaymentStatus (cumulativeTotal feeAmount installmentAmount : money_arg)
  : result money_error classification :=
  result ← classifyFeePayment cumulativeTotal feeAmount;
  if decide (status result = partial) then
    if installment_given installmentAmount then
      cumulative ← roundMoney cumulativeTotal;
      expected ← roundMoney installmentAmount;
      match dec_cmp cumulative expected with
      | Some Lt => Ok (with_status underpaid result)
      | _ => Ok result
      end
    else Ok result
  else Ok result.

(** ** Specification *)

(** What an argument denotes: the Decimal it is converted to. *)
Definition money_denotes (a : money_arg) (p : Q) : Prop :=
  exists d, toMoney a = Ok d /\ denotes d p.

Definition status_of (c f : Q) : fee_status :=
  match (c ?= f)%Q with Lt => partial | Gt => overpaid | Eq => valid end.

(** The classification of a total [c] against a fee [f] over the rationals. *)
Definition classify_spec (c f : Q) : classification :=
  let r := round_half_up 7 c in
  {| status := status_of r f;
     feePaid := Qle_bool f r;
     cumulativeTotal := to_double r;
     excessAmount := if decide (status_of r f = overpaid)
                     then to_double (round_half_up 7 (r - f)) else of_Z 0;
     remainingBalance := to_double (round_half_up 7 (Qmax 0 (f - r))) |}.

Lemma toDP_denotes n d p : denotes d p -> denotes (dec_toDP n d) (round_half_up n p).
Proof.
  intros (p' & Hv & Hp)%denotes_val. pose proof (dec_toDP_exact n d p' Hv) as H.
  unfold denotes. etransitivity; [exact H|]. simpl. by rewrite Hp.
Qed.

Lemma toNumber_denotes d p : denotes d p -> dec_toNumber d = to_double p.
Proof.
  intros (p' & Hv & Hp)%denotes_val. rewrite (dec_toNumber_nearest d p' Hv).
  by apply to_double_proper.
Qed.

Lemma cmp_denotes d e p q : denotes d p -> denotes e q -> dec_cmp d e = Some (p ?= q)%Q.
Proof.
  intros (p' & Hv & Hp)%denotes_val (q' & Hw & Hq)%denotes_val.
  rewrite (dec_cmp_exact d e p' q' Hv Hw). by rewrite Hp, Hq.
Qed.

Lemma minus_denotes d e p q : denotes d p -> denotes e q -> fits20 (p - q) ->
  denotes (dec_minus d e) (p - q).
Proof.
  intros (p' & Hv & Hp)%denotes_val (q' & Hw & Hq)%denotes_val Hf.
  assert (Hf' : fits20 (p' - q')) by by rewrite Hp, Hq.
  unfold denotes. etransitivity; [exact (dec_minus_exact d e p' q' Hv Hw Hf')|].
  simpl. by rewrite Hp, Hq.
Qed.

Lemma zero_denotes : denotes (dec_of_number (of_Z 0)) 0.
Proof. apply dec_of_number_int. lia. Qed.

Lemma max_denotes d e p q : denotes d p -> denotes e q -> denotes (dec_max d e) (Qmax p q).
Proof.
  intros (p' & Hv & Hp)%denotes_val (q' & Hw & Hq)%denotes_val.
  unfold denotes. etransitivity; [exact (dec_max_exact d e p' q' Hv Hw)|].
  simpl. by rewrite Hp, Hq.
Qed.

Lemma toMoneyNumber_denotes d p : denotes d p ->
  toMoneyNumber (MDecimal d) = Ok (to_double (round_half_up 7 p)).
Proof.
  intros H. unfold toMoneyNumber, roundMoney. simpl. f_equal.
  by apply toNumber_denotes, toDP_denotes.
Qed.

Lemma Qle_bool_compare c f :
  Qle_bool f c = match (c ?= f)%Q with Lt => false | _ => true end.
Proof.
  destruct (Qcompare_spec c f) as [H|H|H]; [..|]; apply eq_true_iff_eq; rewrite Qle_bool_iff;
    split; intros; try done; lra.
Qed.

(** For a total and a fee whose difference fits the configured precision, the
    code computes the classification over the rationals. *)
Lemma classifyFeePayment_exact a b c f :
  money_denotes a c -> money_denotes b f -> fits20 (round_half_up 7 c - f) ->
  classifyFeePayment a b = Ok (classify_spec c f).
Proof.
  intros (da & Ha & Hda) (db & Hb & Hdb) Hfit.
  unfold classifyFeePayment, roundMoney. rewrite Ha, Hb. cbn [mbind result_bind].
  pose proof (toDP_denotes 7 da c Hda) as Hr. fold MONEY_DECIMALS in Hr.
  set (r := round_half_up 7 c) in *. unfold MONEY_DECIMALS in *.
  rewrite (cmp_denotes _ _ _ _ Hr Hdb).
  rewrite (toMoneyNumber_denotes _ _ (max_denotes _ _ _ _ zero_denotes
             (minus_denotes _ _ f r Hdb Hr ltac:(rewrite <- (Qopp_involutive (f - r));
                apply fits20_opp; assert (- (f - r) == r - f)%Q as -> by ring; exact Hfit)))).
  rewrite (toMoneyNumber_denotes _ _ (minus_denotes _ _ _ _ Hr Hdb Hfit)).
  unfold classify_spec. fold r. unfold status_of.
  rewrite (toNumber_denotes _ _ Hr), Qle_bool_compare.
  by destruct (r ?= f)%Q.
Qed.

(** The status every writer of [feeValidationStatus] records: [i] is the
    denoted instalment of an active plan, if there is one. *)
Definition plan_status (c f : Q) (i : option Q) : fee_status :=
  let st := status_of (round_half_up 7 c) f in
  match st, i with
  | partial, Some i => if Qltb (round_half_up 7 c) (round_half_up 7 i) then underpaid else partial
  | _, _ => st
  end.

Definition installment_denotes (a : money_arg) (i : option Q) : Prop :=
  match i with
  | None => installment_given a = false
  | Some p => installment_given a = true /\ money_denotes a p
  end.

Lemma Qltb_compare p q : Qltb p q = match (p ?= q)%Q with Lt => true | _ => false end.
Proof. unfold Qltb. rewrite Qle_bool_compare. by destruct (p ?= q)%Q. Qed.

(** The status recorded on a payment is decided exactly: for a total [c]
    and a fee [f] whose difference fits the configured precision, it is the
    order of the total rounded to seven places and the fee, except that a
    partial total below the instalment of an active plan is 'underpaid', and
    'underpaid' never occurs without a plan; [feePaid] holds exactly when the
    total reaches the fee, and the excess and the remaining balance are the
    rounded differences, clamped at zero. *)
Theorem classifyFeePaymentStatus_exact a b inst c f i :
  money_denotes a c -> money_denotes b f -> installment_denotes inst i ->
  fits20 (round_half_up 7 c - f) ->
  classifyFeePaymentStatus a b inst = Ok (with_status (plan_status c f i) (classify_spec c f)).
Proof.
  intros Ha Hb Hi Hfit. unfold classifyFeePaymentStatus.
  rewrite (classifyFeePayment_exact a b c f Ha Hb Hfit). cbn [mbind result_bind].
  change (status (classify_spec c f)) with (status_of (round_half_up 7 c) f).
  unfold plan_status.
  destruct (status_of (round_half_up 7 c) f) eqn:Est; cbn [decide];
    try (unfold with_status, classify_spec; cbn; by rewrite Est).
  destruct i as [i|]; simpl in Hi.
  - destruct Hi as [-> (di & Hdi & Hden)]. destruct Ha as (da & Hda & Hdena).
    unfold roundMoney. rewrite Hda, Hdi. cbn [mbind result_bind].
    unfold MONEY_DECIMALS. rewrite (cmp_denotes _ _ _ _ (toDP_denotes 7 _ _ Hdena) (toDP_denotes 7 _ _ Hden)).
    rewrite Qltb_compare.
    destruct (round_half_up 7 c ?= round_half_up 7 i)%Q; try done;
      unfold with_status, classify_spec; cbn; by rewrite Est.
  - rewrite Hi. unfold with_status, classify_spec; cbn; by rewrite Est.
Qed.

(** ** Agreement with stroop arithmetic *)

(** The classification in integer stroops. *)
Definition stroop_spec (zc zf : Z) : classification :=
  {| status := if zc <? zf then partial else if zf <? zc then overpaid else valid;
     feePaid := zf <=? zc;
     cumulativeTotal := stroopsToNumber zc;
     excessAmount := if zf <? zc then stroopsToNumber (zc - zf) else of_Z 0;
     remainingBalance := stroopsToNumber (Z.max 0 (zf - zc)) |}.

Definition units (z : Z) : Q := z # 10000000.

Lemma round_units z : (round_half_up 7 (units z) == units z)%Q.
Proof. apply (round_half_up_exact 7 z). Qed.

Lemma units_sub a b : (units a - units b == units (a - b))%Q.
Proof. unfold units, Qeq; simpl. lia. Qed.

Lemma units_compare a b : (units a ?= units b)%Q = (a ?= b).
Proof. unfold units, Qcompare; simpl. by rewrite <- Zmult_compare_compat_r by lia. Qed.

Lemma units_max a : (Qmax 0 (units a) == units (Z.max 0 a))%Q.
Proof.
  destruct (Z.le_ge_cases 0 a) as [H|H].
  - rewrite Q.max_r by (unfold Qle; simpl; lia). by rewrite Z.max_r.
  - rewrite Q.max_l by (unfold Qle; simpl; lia). by rewrite Z.max_l.
Qed.

Lemma to_double_round_units z : to_double (round_half_up 7 (units z)) = stroopsToNumber z.
Proof. rewrite stroopsToNumber_nearest. apply to_double_proper, round_units. Qed.

Lemma classify_spec_stroops zc zf : classify_spec (units zc) (units zf) = stroop_spec zc zf.
Proof.
  unfold classify_spec, stroop_spec, status_of.
  assert (Hcmp : (round_half_up 7 (units zc) ?= units zf)%Q = (zc ?= zf)).
  { by rewrite round_units, units_compare. }
  rewrite Qle_bool_compare, Hcmp, to_double_round_units.
  assert (Hex : to_double (round_half_up 7 (round_half_up 7 (units zc) - units zf))
                = stroopsToNumber (zc - zf)).
  { rewrite <- to_double_round_units. apply to_double_proper. by rewrite round_units, units_sub. }
  assert (Hre : to_double (round_half_up 7 (Qmax 0 (units zf - round_half_up 7 (units zc))))
                = stroopsToNumber (Z.max 0 (zf - zc))).
  { rewrite <- to_double_round_units. apply to_double_proper.
    by rewrite round_units, units_sub, units_max. }
  rewrite Hex, Hre. destruct (Z.compare_spec zc zf) as [->|H|H]; simpl.
  - by rewrite Z.ltb_irrefl, Z.leb_refl.
  - by rewrite (proj2 (Z.ltb_lt zc zf)), (proj2 (Z.ltb_ge zf zc)), (proj2 (Z.leb_gt zf zc)) by lia.
  - by rewrite (proj2 (Z.ltb_ge zc zf)), (proj2 (Z.ltb_lt zf zc)), (proj2 (Z.leb_le zf zc)) by lia.
Qed.

Lemma classify_stroops a b zc zf :
  money_denotes a (units zc) -> money_denotes b (units zf) -> Z.abs (zc - zf) < 10 ^ 20 ->
  classifyFeePayment a b = Ok (stroop_spec zc zf).
Proof.
  intros Ha Hb Hfit. rewrite <- classify_spec_stroops.
  apply classifyFeePayment_exact; [done|done|].
  rewrite round_units, units_sub. by apply (fits20_scaled (zc - zf) 7).
Qed.

(** C2: money classification refines stroop arithmetic: when the total and
    the fee are whole stroop counts, the Decimal classification is the
    integer one, so a fee paid in instalments that add up to it exactly is
    always 'valid' with nothing in excess and nothing remaining. *)
Theorem classifyFeePayment_stroops a b zc zf :
  money_denotes a (units zc) -> money_denotes b (units zf) -> Z.abs (zc - zf) < 10 ^ 20 ->
  classifyFeePayment a b = Ok (stroop_spec zc zf).
Proof.
  apply classify_stroops.
Qed.
End Money.

(** ** Instances of the properties *)

Lemma classifyFeePaymentStatus_exact_witness :
  @classifyFeePaymentStatus exact_decimal (MNumber (of_Z 100)) (MNumber (of_Z 250))
    (MNumber (of_Z 125))
  = Ok {| status := underpaid; feePaid := false; cumulativeTotal := of_Z 100;
          excessAmount := of_Z 0; remainingBalance := of_Z 150 |}.
Proof.
  refine (eq_trans (@classifyFeePaymentStatus_exact exact_decimal _ _ _ 100 250 (Some 125%Q) _ _ _ _) _).
  - eexists. split; [reflexivity|vm_compute; reflexivity].
  - eexists. split; [reflexivity|vm_compute; reflexivity].
  - split; [reflexivity|]. eexists. split; [reflexivity|vm_compute; reflexivity].
  - exists (-150), 0. split; reflexivity.
  - vm_compute. reflexivity.
Defined.

Lemma classifyFeePayment_stroops_witness :
  @classifyFeePayment exact_decimal (@MDecimal exact_decimal (rat_op Qplus (Fin (1 # 10)) (Fin (2 # 10))))
    (@MDecimal exact_decimal (Fin (3 # 10)))
  = Ok (stroop_spec 3000000 3000000).
Proof.
  refine (@classifyFeePayment_stroops exact_decimal _ _ 3000000 3000000 _ _ _).
  - eexists. split; [reflexivity|]. vm_compute. reflexivity.
  - eexists. split; [reflexivity|]. vm_compute. reflexivity.
  - reflexivity.
Defined.
