(* ===== verification/StellarMemo.v ===== *)
(** Payment memos: the encoder of frontend/src/utils/stellarMemo.js and the
    decoder of backend/src/utils/stellarMemo.js, which must be inverse to each
    other.  Memo values and types are strings (the form Horizon reports them
    in); [None] is [null] or [undefined].  Bytes are integers below 256; the
    Base64 and hexadecimal codecs are those of the language's runtime. *)

From Stdlib Require Import Ascii ZArith QArith Qround Qabs Qpower Lia Lqa.
From stdpp Require Import base list strings.
From S2P Require Import Prelude JsNumber JsString.

Local Open Scope Z_scope.

(** ** Hexadecimal *)

Definition is_hex (c : ascii) : bool :=
  is_digit c || ((65 <=? code c) && (code c <=? 70)) || ((97 <=? code c) && (code c <=? 102)).

Definition is_upper_hex (c : ascii) : bool :=
  is_digit c || ((65 <=? code c) && (code c <=? 70)).

Definition hex_val (c : ascii) : Z :=
  if is_digit c then code c - 48
  else if code c <=? 70 then code c - 55 else code c - 87.

(** Upper-case hexadecimal digit. *)
Definition hex_chr (d : Z) : ascii := if d <? 10 then chr (48 + d) else chr (55 + d).

Definition hex_digits_val (l : list ascii) : Z := fold_left (fun a c => 16 * a + hex_val c) l 0.

Fixpoint pad_hex (k : nat) (n : Z) : list ascii :=
  match k with O => [] | S k' => pad_hex k' (n / 16) ++ [hex_chr (n mod 16)] end.

Fixpoint strip_zeros (l : list ascii) : list ascii :=
  match l with
  | c :: ((_ :: _) as l') => if Ascii.eqb c "0"%char then strip_zeros l' else l
  | _ => l
  end.

(** [n.toString(16).toUpperCase()] for a safe integer [n >= 0]. *)
Definition toString16 (n : Z) : list ascii := strip_zeros (pad_hex 14 n).

(** [s.padStart(n, '0')]. *)
Definition padStart (n : nat) (l : list ascii) : list ascii :=
  replicate (n - length l) "0"%char ++ l.

(** Two hexadecimal characters per byte, [Buffer.from(value, 'hex')]. *)
Fixpoint hex_bytes (l : list ascii) : list Z :=
  match l with
  | a :: b :: l' => (16 * hex_val a + hex_val b) :: hex_bytes l'
  | _ => []
  end.

(** [bytes.toString('hex').toUpperCase()]. *)
Definition bytes_hex (bs : list Z) : list ascii := concat (map (pad_hex 2) bs).

(** ** Base64 *)

Definition b64_alphabet : list ascii :=
  chars "ABCDEFGHIJKLMNOPQRSTUVWXYZabcdefghijklmnopqrstuvwxyz0123456789+/".

Definition b64_chr (s : Z) : ascii := nth (Z.to_nat s) b64_alphabet "A"%char.

Definition b64_val (c : ascii) : Z :=
  let z := code c in
  if (65 <=? z) && (z <=? 90) then z - 65
  else if (97 <=? z) && (z <=? 122) then z - 71
  else if is_digit c then z + 4
  else if z =? 43 then 62 else 63.

Definition is_b64 (c : ascii) : bool :=
  let z := code c in
  ((65 <=? z) && (z <=? 90)) || ((97 <=? z) && (z <=? 122)) || is_digit c || (z =? 43) || (z =? 47).

(** Standard Base64 without and with the padding. *)
Fixpoint b64_body (bs : list Z) : list ascii :=
  match bs with
  | a :: b :: c :: bs' =>
      b64_chr (a / 4) :: b64_chr (a mod 4 * 16 + b / 16)
      :: b64_chr (b mod 16 * 4 + c / 64) :: b64_chr (c mod 64) :: b64_body bs'
  | [a; b] => [b64_chr (a / 4); b64_chr (a mod 4 * 16 + b / 16); b64_chr (b mod 16 * 4)]
  | [a] => [b64_chr (a / 4); b64_chr (a mod 4 * 16)]
  | [] => []
  end.

Definition b64_pad (bs : list Z) : list ascii :=
  match (length bs mod 3)%nat with 1%nat => ["="; "="]%char | 2%nat => ["="]%char | _ => [] end.

Definition b64_encode (bs : list Z) : list ascii := b64_body bs ++ b64_pad bs.

(** [Buffer.from(value, 'base64')] on the characters before the padding; an
    incomplete last group yields the bytes it determines. *)
Fixpoint b64_decode (l : list ascii) : list Z :=
  match l with
  | a :: b :: c :: d :: l' =>
      let '(a, b, c, d) := (b64_val a, b64_val b, b64_val c, b64_val d) in
      (a * 4 + b / 16) :: (b mod 16 * 16 + c / 4) :: (c mod 4 * 64 + d) :: b64_decode l'
  | [a; b; c] =>
      let '(a, b, c) := (b64_val a, b64_val b, b64_val c) in
      [a * 4 + b / 16; b mod 16 * 16 + c / 4]
  | [a; b] => [b64_val a * 4 + b64_val b / 16]
  | _ => []
  end.

(** [value.replace(/=+$/, '')]. *)
Definition strip_padding (l : list ascii) : list ascii :=
  rev (drop_while (fun c => Ascii.eqb c "="%char) (rev l)).

(** The pattern of one or more alphabet characters and at most two ['=']. *)
Fixpoint span_b64 (l : list ascii) : list ascii * list ascii :=
  match l with
  | c :: l' => if is_b64 c then let '(b, r) := span_b64 l' in (c :: b, r) else ([], l)
  | [] => ([], [])
  end.

Definition matches_b64 (l : list ascii) : bool :=
  let '(b, r) := span_b64 l in
  negb (bool_decide (b = [])) &&
  (bool_decide (r = []) || bool_decide (r = ["="%char]) || bool_decide (r = ["="%char; "="%char])).

(** ** Memo types *)

Definition SUPPORTED_MEMO_TYPES : list string := ["MEMO_TEXT"; "MEMO_ID"; "MEMO_HASH"]%string.

Definition memo_type_form (memoType : string) : string :=
  let upper := toUpperCase memoType in
  if starts_with (chars "MEMO_") (chars upper) then upper else ("MEMO_" +:+ upper)%string.

(** backend normalizeMemoType *)
Definition normalizeMemoType (memoType : option string) : option string :=
  match memoType with
  | None | Some "" => None
  | Some t => let full := memo_type_form t in
              if decide (full ∈ SUPPORTED_MEMO_TYPES) then Some full else None
  end.

(** frontend normalizeMemoType: a missing type is text, an unknown one throws *)
Definition normalizeMemoType_ui (memoType : option string) : result string string :=
  match memoType with
  | None | Some "" => Ok "MEMO_TEXT"%string
  | Some t => let full := memo_type_form t in
              if decide (full ∈ SUPPORTED_MEMO_TYPES) then Ok full
              else Throw "Unsupported memo type"%string
  end.

(** [CANONICAL_MEMO_RE]: exactly eight upper-case hexadecimal characters. *)
Definition canonical_re (l : list ascii) : bool :=
  (length l =? 8)%nat && forallb is_upper_hex l.

Definition isCanonicalMemo (memo : string) : bool :=
  canonical_re (map upper (trim (chars memo))).

Definition isEncodableMemo (memo : string) : bool :=
  canonical_re (map upper (trim (chars memo))).

(** ** Encoding (frontend) *)

(** [new TextEncoder().encode(s).length]: code units from 128 take two bytes. *)
Definition utf8_length (s : string) : nat :=
  sum_list_with (fun c => if code c <? 128 then 1%nat else 2%nat) (chars s).

(** The 32-byte array: the four memo bytes right-aligned after zeros. *)
Definition memo_bytes (value : list ascii) : list Z := replicate 28 0 ++ hex_bytes (take 8 value).

Definition encodeMemo (memo : string) (memoType : option string) : result string string :=
  type ← normalizeMemoType_ui memoType;
  let value := toUpperCase (str_trim memo) in
  if decide (type = "MEMO_TEXT"%string) then
    if (28 <? utf8_length memo)%nat then Throw "MEMO_TEXT exceeds the 28-byte Stellar limit"%string
    else Ok memo
  else if negb (isEncodableMemo value) then Throw "Memo cannot be encoded"%string
  else if decide (type = "MEMO_ID"%string) then
    Ok (Z_to_string (hex_digits_val (chars value)))
  else Ok (text (b64_encode (memo_bytes (chars value)))).

(** ** Decoding (backend) *)

Definition decodeHashBytes (value : list ascii) : option (list Z) :=
  if (length value =? 64)%nat && forallb is_hex value then Some (hex_bytes value)
  else if negb (matches_b64 value) then None
  else
    let buf := b64_decode (strip_padding value) in
    if bool_decide (strip_padding (b64_encode buf) = strip_padding value) then Some buf else None.

Definition is_safe_integer (x : number) : bool :=
  match x with
  | Fin q => Qeq_bool q (inject_Z (Qfloor q)) && Qle_bool (Qabs q) (inject_Z (2 ^ 53 - 1))
  | _ => false
  end.

Definition decode_memo_id (raw : list ascii) : option string :=
  if bool_decide (raw = []) || negb (forallb is_digit raw) then None
  else
    let numeric := to_double (inject_Z (digits_val raw)) in
    if negb (is_safe_integer numeric) || num_lt numeric (of_Z 0)
       || num_lt (of_Z 4294967295) numeric then None
    else match numeric with
         | Fin q => Some (text (padStart 8 (toString16 (Qfloor q))))
         | _ => None
         end.

Definition decode_memo_hash (value : list ascii) : option string :=
  match decodeHashBytes value with
  | None => None
  | Some bytes =>
      if negb (length bytes =? 32)%nat then None
      else if negb (forallb (Z.eqb 0) (take 28 bytes)) then None
      else
        let tail := bytes_hex (drop 28 bytes) in
        if canonical_re tail then Some (text tail) else None
  end.

Definition decodeMemoToCanonical (value : option string) (memoType : option string)
  : option string :=
  match value with
  | None | Some "" => None
  | Some v =>
      match normalizeMemoType memoType with
      | None => None
      | Some type =>
          if decide (type = "MEMO_TEXT"%string) then
            let t := trim (chars v) in
            match t with [] => None | _ => Some (text t) end
          else if decide (type = "MEMO_ID"%string) then decode_memo_id (trim (chars v))
          else decode_memo_hash (trim (chars v))
      end
  end.

Example memo_ex1 : encodeMemo "A3F91B2C" (Some "id") = Ok "2751011628"%string.
Proof. reflexivity. Qed.
Example memo_ex2 :
  decodeMemoToCanonical (Some "2751011628") (Some "id") = Some "A3F91B2C"%string.
Proof. vm_compute. reflexivity. Qed.
Example memo_ex3 :
  encodeMemo "A3F91B2C" (Some "MEMO_HASH")
  = Ok "AAAAAAAAAAAAAAAAAAAAAAAAAAAAAAAAAAAAAKP5Gyw="%string.
Proof. vm_compute. reflexivity. Qed.

(** ** Hexadecimal facts *)

Lemma hex_chr_spec d : 0 <= d < 16 ->
  is_upper_hex (hex_chr d) = true /\ hex_val (hex_chr d) = d.
Proof.
  intros Hd. unfold is_upper_hex, hex_val, hex_chr, is_digit.
  destruct (Z.ltb_spec d 10); rewrite code_chr by lia; zbool.
Qed.

Lemma hex_chr_val c : is_upper_hex c = true -> hex_chr (hex_val c) = c.
Proof.
  unfold is_upper_hex, hex_val, hex_chr, is_digit. intros H.
  transitivity (chr (code c)); [|apply chr_code].
  destruct (Z.leb_spec 48 (code c)), (Z.leb_spec (code c) 57), (Z.leb_spec 65 (code c)),
    (Z.leb_spec (code c) 70); simpl in *; try done; try lia;
    match goal with |- context [if ?x <? 10 then _ else _] => destruct (Z.ltb_spec x 10) end;
    try lia; f_equal; lia.
Qed.

Lemma hex_val_range c : is_upper_hex c = true -> 0 <= hex_val c < 16.
Proof.
  unfold is_upper_hex, hex_val, is_digit. intros H.
  destruct (Z.leb_spec 48 (code c)), (Z.leb_spec (code c) 57), (Z.leb_spec 65 (code c)),
    (Z.leb_spec (code c) 70); simpl in *; try done; lia.
Qed.

Lemma hex_digits_val_snoc l c : hex_digits_val (l ++ [c]) = 16 * hex_digits_val l + hex_val c.
Proof. unfold hex_digits_val. by rewrite fold_left_app. Qed.

Lemma hex_digits_val_range l : Forall (fun c => is_upper_hex c = true) l ->
  0 <= hex_digits_val l < 16 ^ Z.of_nat (length l).
Proof.
  induction l as [|c l IH] using rev_ind; intros Hf; [unfold hex_digits_val; simpl; lia|].
  apply Forall_app in Hf as [Hl Hc]. apply Forall_cons in Hc as [Hc _]. apply hex_val_range in Hc. specialize (IH Hl).
  rewrite hex_digits_val_snoc, length_app, Nat2Z.inj_add, Z.pow_add_r by lia.
  change (16 ^ Z.of_nat (length [c])) with 16. lia.
Qed.

Lemma pad_hex_length k n : length (pad_hex k n) = k.
Proof. revert n. induction k; intros; simpl; [done|]. rewrite length_app, IHk. simpl. lia. Qed.

Lemma pad_hex_upper k n : Forall (fun c => is_upper_hex c = true) (pad_hex k n).
Proof.
  revert n. induction k as [|k IH]; intros; simpl; [constructor|].
  apply Forall_snoc; [apply IH|]. apply hex_chr_spec, Z.mod_pos_bound. lia.
Qed.

Lemma pad_hex_val k n : 0 <= n < 16 ^ Z.of_nat k -> hex_digits_val (pad_hex k n) = n.
Proof.
  revert n. induction k as [|k IH]; intros n Hn.
  { simpl in Hn. unfold hex_digits_val; simpl. lia. }
  simpl pad_hex. rewrite hex_digits_val_snoc. rewrite Nat2Z.inj_succ, Z.pow_succ_r in Hn by lia.
  destruct (hex_chr_spec (n mod 16)) as [_ ->]; [apply Z.mod_pos_bound; lia|].
  rewrite IH by (split; [apply Z.div_pos; lia|apply Z.div_lt_upper_bound; lia]).
  pose proof (Z.div_mod n 16). lia.
Qed.

Lemma pad_hex_digits_val l : Forall (fun c => is_upper_hex c = true) l ->
  pad_hex (length l) (hex_digits_val l) = l.
Proof.
  induction l as [|c l IH] using rev_ind; intros Hf; [done|].
  apply Forall_app in Hf as [Hl Hc]. apply Forall_cons in Hc as [Hc _]. specialize (IH Hl).
  pose proof (hex_val_range c Hc). rewrite length_app, Nat.add_comm. simpl pad_hex.
  rewrite hex_digits_val_snoc.
  replace ((16 * hex_digits_val l + hex_val c) / 16) with (hex_digits_val l)
    by (apply Z.div_unique with (r := hex_val c); lia).
  replace ((16 * hex_digits_val l + hex_val c) mod 16) with (hex_val c)
    by (apply Z.mod_unique with (q := hex_digits_val l); lia).
  by rewrite IH, hex_chr_val.
Qed.

Lemma pad_hex_app k j n : 0 <= n < 16 ^ Z.of_nat k ->
  pad_hex (j + k) n = replicate j "0"%char ++ pad_hex k n.
Proof.
  revert n. induction k as [|k IH]; intros n Hn.
  - rewrite Nat.add_0_r, app_nil_r. simpl in Hn. assert (n = 0) as -> by lia.
    clear Hn. induction j as [|j IHj]; [done|]. rewrite replicate_S_end. simpl.
    change (0 / 16) with 0. by rewrite IHj.
  - rewrite Nat.add_succ_r. simpl pad_hex. rewrite Nat2Z.inj_succ, Z.pow_succ_r in Hn by lia.
    rewrite IH, app_assoc; [done|]. split; [apply Z.div_pos; lia|apply Z.div_lt_upper_bound; lia].
Qed.

Lemma strip_zeros_cons c d l :
  strip_zeros (c :: d :: l) = if Ascii.eqb c "0" then strip_zeros (d :: l) else c :: d :: l.
Proof. reflexivity. Qed.

(** Dropping leading zeros and padding back gives the digits again. *)
Lemma padStart_strip l n : length l = n -> padStart n (strip_zeros l) = l.
Proof.
  intros <-. unfold padStart. induction l as [|c [|d l] IH]; [done|done|].
  rewrite strip_zeros_cons.
  destruct (Ascii.eqb_spec c "0") as [->|]; [|by rewrite Nat.sub_diag].
  assert (Hle : (length (strip_zeros (d :: l)) <= length (d :: l))%nat).
  { clear IH. generalize (d :: l). intros m. induction m as [|x [|y m] IHm]; [done|done|].
    rewrite strip_zeros_cons. destruct (Ascii.eqb x "0"); cbn [length] in *; lia. }
  replace (length ("0"%char :: d :: l) - length (strip_zeros (d :: l)))%nat
    with (S (length (d :: l) - length (strip_zeros (d :: l)))) by (simpl in *; lia).
  exact (f_equal (cons "0"%char) IH).
Qed.

Lemma strip_zeros_app j l : l <> [] ->
  strip_zeros (replicate j "0"%char ++ l) = strip_zeros l.
Proof.
  intros Hl. induction j as [|j IH]; [done|]. simpl replicate. rewrite <- IH.
  cbn [app]. destruct (replicate j "0"%char ++ l) eqn:E.
  - apply app_eq_nil in E as [_ ->]. done.
  - reflexivity.
Qed.

Lemma padStart_toString16 n : 0 <= n < 16 ^ 8 -> padStart 8 (toString16 n) = pad_hex 8 n.
Proof.
  intros Hn. unfold toString16. rewrite (pad_hex_app 8 6) by done.
  rewrite strip_zeros_app by (intros H; by apply (f_equal length) in H).
  apply padStart_strip, pad_hex_length.
Qed.

(** ** Base64 facts *)

Definition is_byte (b : Z) : Prop := 0 <= b < 256.

Lemma b64_chr_spec s : 0 <= s < 64 -> b64_val (b64_chr s) = s /\ is_b64 (b64_chr s) = true.
Proof.
  intros Hs. assert (Hall : forallb (fun n => (b64_val (b64_chr (Z.of_nat n)) =? Z.of_nat n)
    && is_b64 (b64_chr (Z.of_nat n))) (seq 0 64) = true) by (vm_compute; reflexivity).
  rewrite forallb_forall in Hall. specialize (Hall (Z.to_nat s)).
  rewrite Z2Nat.id in Hall by lia. rewrite andb_true_iff, Z.eqb_eq in Hall.
  apply Hall, in_seq. lia.
Qed.

(** Sextets of a group of bytes are in range. *)
Lemma sextets a b c : is_byte a -> is_byte b -> is_byte c ->
  0 <= a / 4 < 64 /\ 0 <= a mod 4 * 16 + b / 16 < 64 /\ 0 <= b mod 16 * 4 + c / 64 < 64 /\
  0 <= c mod 64 < 64.
Proof. unfold is_byte. intros. repeat split; Z.div_mod_to_equations; lia. Qed.

Lemma b64_decode_body n bs : (length bs <= n)%nat -> Forall is_byte bs ->
  b64_decode (b64_body bs) = bs.
Proof.
  revert bs. induction n as [|n IH]; intros bs Hn Hb; [by destruct bs; simpl in *; try lia|].
  destruct bs as [|a [|b [|c bs]]]; [done|..].
  - apply Forall_cons in Hb as [Ha _]. destruct (sextets a 0 0 Ha) as (H1 & H2 & _); [done|done|].
    cbn [b64_body b64_decode]. change (0 / 16) with 0 in H2. rewrite Z.add_0_r in H2.
    rewrite (proj1 (b64_chr_spec _ H1)), (proj1 (b64_chr_spec _ H2)).
    f_equal. unfold is_byte in Ha. Z.div_mod_to_equations; lia.
  - apply Forall_cons in Hb as [Ha Hb]. apply Forall_cons in Hb as [Hb _].
    destruct (sextets a b 0 Ha Hb) as (H1 & H2 & H3 & _); [done|].
    cbn [b64_body b64_decode]. change (0 / 64) with 0 in H3. rewrite Z.add_0_r in H3.
    rewrite (proj1 (b64_chr_spec _ H1)), (proj1 (b64_chr_spec _ H2)), (proj1 (b64_chr_spec _ H3)).
    unfold is_byte in *. f_equal; [|f_equal]; Z.div_mod_to_equations; lia.
  - apply Forall_cons in Hb as [Ha Hb]. apply Forall_cons in Hb as [Hb Hc].
    apply Forall_cons in Hc as [Hc Hbs].
    destruct (sextets a b c Ha Hb Hc) as (H1 & H2 & H3 & H4).
    cbn [b64_body b64_decode].
    rewrite (proj1 (b64_chr_spec _ H1)), (proj1 (b64_chr_spec _ H2)),
      (proj1 (b64_chr_spec _ H3)), (proj1 (b64_chr_spec _ H4)).
    rewrite IH by (simpl in *; done || lia). unfold is_byte in *.
    f_equal; [|f_equal; [|f_equal]]; Z.div_mod_to_equations; lia.
Qed.

Lemma b64_body_alphabet n bs : (length bs <= n)%nat -> Forall is_byte bs ->
  Forall (fun c => is_b64 c = true) (b64_body bs).
Proof.
  revert bs. induction n as [|n IH]; intros bs Hn Hb; [by destruct bs; simpl in *; try lia|].
  destruct bs as [|a [|b [|c bs]]]; [constructor|..].
  - apply Forall_cons in Hb as [Ha _]. destruct (sextets a 0 0 Ha) as (H1 & H2 & _); [done|done|].
    change (0 / 16) with 0 in H2. rewrite Z.add_0_r in H2.
    repeat constructor; by apply b64_chr_spec.
  - apply Forall_cons in Hb as [Ha Hb]. apply Forall_cons in Hb as [Hb _].
    destruct (sextets a b 0 Ha Hb) as (H1 & H2 & H3 & _); [done|].
    change (0 / 64) with 0 in H3. rewrite Z.add_0_r in H3.
    repeat constructor; by apply b64_chr_spec.
  - apply Forall_cons in Hb as [Ha Hb]. apply Forall_cons in Hb as [Hb Hc].
    apply Forall_cons in Hc as [Hc Hbs].
    destruct (sextets a b c Ha Hb Hc) as (H1 & H2 & H3 & H4). cbn [b64_body].
    repeat (constructor; [by apply b64_chr_spec|]). apply IH; [simpl in *; lia|done].
Qed.

Lemma is_b64_not_pad c : is_b64 c = true -> Ascii.eqb c "=" = false.
Proof. intros H. destruct (Ascii.eqb_spec c "=") as [->|]; [discriminate H|done]. Qed.

Lemma strip_padding_body l r : Forall (fun c => is_b64 c = true) l ->
  Forall (fun c => c = "="%char) r -> strip_padding (l ++ r) = l.
Proof.
  intros Hl Hr. unfold strip_padding. rewrite rev_app_distr.
  assert (Hd : forall x y, Forall (fun c => c = "="%char) x ->
            drop_while (fun c => Ascii.eqb c "=") (x ++ y) = drop_while (fun c => Ascii.eqb c "=") y).
  { induction 1 as [|c x -> Hx IH]; [done|]. simpl. done. }
  rewrite Hd by by apply Forall_rev.
  assert (Hs : drop_while (fun c => Ascii.eqb c "=") (rev l) = rev l).
  { apply Forall_rev in Hl. destruct Hl as [|c x Hc Hx]; [done|]. simpl. by rewrite is_b64_not_pad. }
  by rewrite Hs, rev_involutive.
Qed.

Lemma span_b64_app l r : Forall (fun c => is_b64 c = true) l ->
  Forall (fun c => c = "="%char) r -> span_b64 (l ++ r) = (l, r).
Proof.
  intros Hl Hr. induction Hl as [|c l Hc Hl IH]; simpl.
  - destruct Hr as [|c r ->]; done.
  - by rewrite Hc, IH.
Qed.

Lemma b64_pad_shape bs : b64_pad bs = [] \/ b64_pad bs = ["="%char] \/ b64_pad bs = ["="; "="]%char.
Proof. unfold b64_pad. destruct (length bs mod 3)%nat as [|[|[|]]]; auto. Qed.

Lemma b64_pad_all bs : Forall (fun c => c = "="%char) (b64_pad bs).
Proof. destruct (b64_pad_shape bs) as [->|[->| ->]]; repeat constructor. Qed.

(** The decoder's Base64 branch inverts the encoder on every non-empty buffer. *)
Lemma decodeHashBytes_b64 bs : Forall is_byte bs -> bs <> [] ->
  (length (b64_encode bs) =? 64)%nat = false -> decodeHashBytes (b64_encode bs) = Some bs.
Proof.
  intros Hb Hne Hlen. unfold decodeHashBytes. rewrite Hlen. cbn [andb].
  pose proof (b64_body_alphabet (length bs) bs ltac:(lia) Hb) as Ha.
  assert (Hm : matches_b64 (b64_encode bs) = true).
  { unfold matches_b64, b64_encode. rewrite span_b64_app by (done || apply b64_pad_all).
    rewrite bool_decide_eq_false_2 by (destruct bs as [|? [|? [|? ?]]]; done).
    by destruct (b64_pad_shape bs) as [->|[->| ->]]. }
  rewrite Hm. cbn [negb].
  assert (Hs : strip_padding (b64_encode bs) = b64_body bs)
    by (apply strip_padding_body; [done|apply b64_pad_all]).
  rewrite Hs, (b64_decode_body (length bs)) by (done || lia).
  by rewrite bool_decide_eq_true_2.
Qed.

(** ** Canonical memos *)

Definition canonical (m : string) : Prop := canonical_re (chars m) = true.

Lemma canonical_re_spec l :
  canonical_re l = true <-> length l = 8%nat /\ Forall (fun c => is_upper_hex c = true) l.
Proof.
  unfold canonical_re. rewrite andb_true_iff, Nat.eqb_eq, forallb_forall, List.Forall_forall. done.
Qed.

Lemma upper_hex_plain c : is_upper_hex c = true -> is_space c = false /\ upper c = c.
Proof.
  unfold is_upper_hex, is_digit, is_space, upper. cbv zeta. intros H.
  destruct (Z.leb_spec 48 (code c)), (Z.leb_spec (code c) 57), (Z.leb_spec 65 (code c)),
    (Z.leb_spec (code c) 70); simpl in *; try done; try lia; split;
    repeat match goal with
    | |- context [?x =? ?y] => destruct (Z.eqb_spec x y); try lia
    | |- context [?x <=? ?y] => destruct (Z.leb_spec x y); try lia
    end; done.
Qed.

Lemma upper_hex_text l : Forall (fun c => is_upper_hex c = true) l ->
  trim l = l /\ map upper l = l.
Proof.
  intros H. split.
  - apply trim_id. eapply Forall_impl; [exact H|]. intros. by apply upper_hex_plain.
  - induction H as [|c l Hc Hl IH]; simpl; [done|]. destruct (upper_hex_plain c Hc) as [_ ->].
    by rewrite IH.
Qed.

Lemma canonical_trim m : canonical m -> toUpperCase (str_trim m) = m.
Proof.
  intros [_ Hu]%canonical_re_spec. unfold toUpperCase, str_trim.
  rewrite String.list_ascii_of_string_of_list_ascii.
  destruct (upper_hex_text _ Hu) as [-> ->]. apply String.string_of_list_ascii_of_string.
Qed.

Lemma hex_bytes_hex l : Forall (fun c => is_upper_hex c = true) l ->
  Nat.Even (length l) -> bytes_hex (hex_bytes l) = l.
Proof.
  intros Hl [k Hk]. revert l Hl Hk. induction k as [|k IH]; intros l Hl Hk.
  { by destruct l. }
  destruct l as [|a [|b l]]; simpl in Hk; [lia|lia|].
  apply Forall_cons in Hl as [Ha Hl]. apply Forall_cons in Hl as [Hb Hl].
  cbn [hex_bytes]. unfold bytes_hex in *. cbn [map concat].
  rewrite IH by (done || lia).
  assert (pad_hex 2 (16 * hex_val a + hex_val b) = [a; b]) as ->; [|done].
  apply (pad_hex_digits_val [a; b]). by repeat constructor.
Qed.

Lemma hex_bytes_range l : Forall (fun c => is_upper_hex c = true) l -> Forall is_byte (hex_bytes l).
Proof.
  remember (length l) as n eqn:Hn. assert (Hle : (length l <= n)%nat) by lia. clear Hn.
  revert l Hle. induction n as [|n IH]; intros l Hle Hl; [by destruct l; simpl in *; try lia|].
  destruct l as [|a [|b l]]; [constructor|constructor|].
  apply Forall_cons in Hl as [Ha Hl]. apply Forall_cons in Hl as [Hb Hl].
  apply hex_val_range in Ha, Hb. cbn [hex_bytes]. constructor; [unfold is_byte; lia|].
  apply IH; [simpl in *; lia|done].
Qed.

(** ** Decoding the encodings *)

Lemma to_double_nat_digits v : 0 <= v < 2 ^ 32 -> to_double (inject_Z v) = of_Z v.
Proof. intros. apply to_double_int; [lia|reflexivity]. Qed.

Lemma decode_memo_id_small raw v :
  raw <> [] -> forallb is_digit raw = true -> digits_val raw = v -> 0 <= v < 2 ^ 32 ->
  decode_memo_id raw = Some (text (pad_hex 8 v)).
Proof.
  intros Hne Hd Hv Hr. unfold decode_memo_id. rewrite bool_decide_eq_false_2, Hd, Hv by done.
  cbn [orb negb]. rewrite to_double_nat_digits by done.
  assert (Hsafe : is_safe_integer (of_Z v) = true).
  { unfold is_safe_integer, of_Z. rewrite Qfloor_Z. apply andb_true_iff. split.
    - apply Qeq_bool_iff. reflexivity.
    - apply Qle_bool_iff. unfold Qle, Qabs; simpl. lia. }
  rewrite Hsafe, !num_lt_int. destruct (Z.ltb_spec v 0); [lia|].
  destruct (Z.ltb_spec 4294967295 v); [lia|]. cbn [negb orb]. unfold of_Z.
  by rewrite Qfloor_Z, padStart_toString16 by (change (16 ^ 8) with (2 ^ 32); lia).
Qed.

Lemma decode_memo_hash_bytes value bs l :
  decodeHashBytes value = Some bs -> bs = replicate 28 0 ++ hex_bytes l ->
  canonical_re l = true -> decode_memo_hash value = Some (text l).
Proof.
  intros Hd -> Hc. pose proof Hc as [Hl Hu]%canonical_re_spec.
  unfold decode_memo_hash. rewrite Hd.
  assert (Hlen : length (hex_bytes l) = 4%nat).
  { do 9 (destruct l as [|? l]; try discriminate Hl). reflexivity. }
  rewrite length_app, length_replicate, Hlen. cbn [negb].
  rewrite take_app_length' by done. rewrite drop_app_length' by done.
  rewrite hex_bytes_hex by (done || (exists 4%nat; lia)). rewrite Hc. done.
Qed.

Lemma encode_id m mt : canonical m -> normalizeMemoType_ui mt = Ok "MEMO_ID"%string ->
  encodeMemo m mt = Ok (Z_to_string (hex_digits_val (chars m))).
Proof.
  intros Hm Ht. unfold encodeMemo. rewrite Ht. cbn [mbind result_bind].
  rewrite canonical_trim by done. unfold isEncodableMemo.
  pose proof Hm as [_ Hu]%canonical_re_spec. destruct (upper_hex_text _ Hu) as [-> ->].
  rewrite Hm. done.
Qed.

Lemma encode_hash m mt : canonical m -> normalizeMemoType_ui mt = Ok "MEMO_HASH"%string ->
  encodeMemo m mt = Ok (text (b64_encode (memo_bytes (chars m)))).
Proof.
  intros Hm Ht. unfold encodeMemo. rewrite Ht. cbn [mbind result_bind].
  rewrite canonical_trim by done. unfold isEncodableMemo.
  pose proof Hm as [_ Hu]%canonical_re_spec. destruct (upper_hex_text _ Hu) as [-> ->].
  rewrite Hm. done.
Qed.

Lemma normalize_ui mt t : normalizeMemoType mt = Some t -> normalizeMemoType_ui mt = Ok t.
Proof. destruct mt as [[|c s]|]; simpl; try done. case_decide; intros [= <-]; done. Qed.

Lemma normalize_supported mt t : normalizeMemoType mt = Some t -> t ∈ SUPPORTED_MEMO_TYPES.
Proof. destruct mt as [[|c s]|]; simpl; try done. case_decide; intros [= <-]; done. Qed.

Lemma trim_chars_text l : Forall (fun c => is_space c = false) l -> trim (chars (text l)) = l.
Proof. intros H. by rewrite chars_text, trim_id. Qed.

Lemma upper_hex_utf8 l : Forall (fun c => is_upper_hex c = true) l ->
  sum_list_with (fun c => if code c <? 128 then 1%nat else 2%nat) l = length l.
Proof.
  induction 1 as [|c l Hc Hl IH]; simpl; [done|]. rewrite IH.
  destruct (Z.ltb_spec (code c) 128) as [|Hge]; [done|].
  unfold is_upper_hex, is_digit in Hc.
  destruct (Z.leb_spec (code c) 57), (Z.leb_spec (code c) 70); lia.
Qed.

Lemma memo_text_roundtrip m mt : canonical m -> normalizeMemoType mt = Some "MEMO_TEXT"%string ->
  encodeMemo m mt = Ok m /\ decodeMemoToCanonical (Some m) mt = Some m.
Proof.
  intros [Hl Hu]%canonical_re_spec Hn. split.
  - unfold encodeMemo. rewrite (normalize_ui _ _ Hn). cbn [mbind result_bind].
    unfold utf8_length. rewrite upper_hex_utf8, Hl by done. done.
  - unfold decodeMemoToCanonical. destruct m as [|c m]; [done|]. rewrite Hn.
    destruct (upper_hex_text _ Hu) as [-> _]. simpl. by rewrite text_chars.
Qed.

Lemma memo_id_roundtrip m mt : canonical m -> normalizeMemoType mt = Some "MEMO_ID"%string ->
  exists w, encodeMemo m mt = Ok w /\ decodeMemoToCanonical (Some w) mt = Some m.
Proof.
  intros Hm Hn. pose proof Hm as [Hl Hu]%canonical_re_spec.
  pose proof (hex_digits_val_range _ Hu) as Hv. rewrite Hl in Hv.
  set (v := hex_digits_val (chars m)) in *. change (16 ^ Z.of_nat 8) with (2 ^ 32) in Hv.
  exists (Z_to_string v). split; [by apply encode_id, normalize_ui|].
  unfold Z_to_string, Z_text. destruct (Z.ltb_spec v 0); [lia|].
  pose proof (dec_digits_nonempty v) as Hne. pose proof (dec_digits_digits v) as Hd.
  unfold decodeMemoToCanonical. destruct (text (dec_digits v)) as [|c w] eqn:E.
  { destruct (dec_digits v); [done|discriminate]. }
  rewrite Hn, <- E. cbn [decide]. rewrite trim_chars_text by by apply digits_not_space.
  simpl. rewrite (decode_memo_id_small _ v); [|done|..|done].
  - f_equal. rewrite <- (text_chars m). f_equal. unfold v. rewrite <- Hl. by apply pad_hex_digits_val.
  - apply forallb_forall. by apply List.Forall_forall.
  - apply dec_digits_val. lia.
Qed.

Lemma b64_encode_not_space bs : Forall is_byte bs ->
  Forall (fun c => is_space c = false) (b64_encode bs).
Proof.
  intros Hb. apply Forall_app. split.
  - eapply Forall_impl; [exact (b64_body_alphabet (length bs) bs ltac:(lia) Hb)|].
    intros c Hc. destruct c as [[] [] [] [] [] [] [] []]; done || discriminate Hc.
  - eapply Forall_impl; [apply b64_pad_all|]. by intros c ->.
Qed.

Lemma memo_hash_roundtrip m mt : canonical m -> normalizeMemoType mt = Some "MEMO_HASH"%string ->
  exists w, encodeMemo m mt = Ok w /\ decodeMemoToCanonical (Some w) mt = Some m.
Proof.
  intros Hm Hn. pose proof Hm as [Hl Hu]%canonical_re_spec.
  exists (text (b64_encode (memo_bytes (chars m)))).
  split; [by apply encode_hash, normalize_ui|].
  unfold memo_bytes. rewrite take_ge by lia. set (bs := replicate 28 0 ++ hex_bytes (chars m)).
  assert (Hb : Forall is_byte bs).
  { apply Forall_app. split; [by repeat constructor|by apply hex_bytes_range]. }
  assert (Hlen : (length (b64_encode bs) =? 64)%nat = false).
  { unfold bs. clear Hb. destruct (chars m) as [|c1 [|c2 [|c3 [|c4 [|c5 [|c6 [|c7 [|c8 [|]]]]]]]]];
      try discriminate Hl. reflexivity. }
  unfold decodeMemoToCanonical. destruct (text (b64_encode bs)) as [|c w] eqn:E.
  { destruct (b64_encode bs) eqn:E'; [by apply (f_equal length) in E'|discriminate]. }
  rewrite Hn, <- E. simpl decide. rewrite trim_chars_text by by apply b64_encode_not_space.
  simpl. rewrite (decode_memo_hash_bytes _ bs (chars m)); [by rewrite text_chars|..|done|done].
  by apply decodeHashBytes_b64.
Qed.

(** C8: the wallet's memo comes back: whatever supported memo type (and
    spelling of it) is used, the frontend's encoding of a canonical payment
    memo exists and the backend decodes it to that memo. *)
Theorem memo_roundtrip m mt t : canonical m -> normalizeMemoType mt = Some t ->
  exists w, encodeMemo m mt = Ok w /\ decodeMemoToCanonical (Some w) mt = Some m.
Proof.
  intros Hm Hn. pose proof (normalize_supported _ _ Hn) as Ht.
  unfold SUPPORTED_MEMO_TYPES in Ht. rewrite !elem_of_cons, elem_of_nil in Ht.
  destruct Ht as [->|[->|[->|[]]]].
  - exists m. by apply memo_text_roundtrip.
  - by apply memo_id_roundtrip.
  - by apply memo_hash_roundtrip.
Qed.

Lemma memo_roundtrip_witness :
  exists w, encodeMemo "00F91B2C" (Some "hash"%string) = Ok w /\
            decodeMemoToCanonical (Some w) (Some "hash"%string) = Some "00F91B2C"%string.
Proof. apply (memo_roundtrip _ _ "MEMO_HASH"); reflexivity. Defined.

(** ** No false match *)

(** A double at most [2^32 - 1] that came from an integer is that integer. *)
Lemma to_double_small v q : 0 <= v -> to_double (inject_Z v) = Fin q ->
  (q <= inject_Z 4294967295)%Q -> q = inject_Z v /\ v <= 4294967295.
Proof.
  intros Hv Hd Hq. destruct (Z.le_gt_cases v (2 ^ 53)) as [Hle|Hgt].
  { rewrite (to_double_int _ v) in Hd by (reflexivity || lia). unfold of_Z in Hd. simplify_eq.
    split; [done|]. unfold Qle in Hq; simpl in Hq. lia. }
  exfalso. unfold to_double in Hd. destruct (Qle_bool _ _); simplify_eq.
  set (j := Z.succ (Z.log2 v)). pose proof (Z.log2_spec v ltac:(lia)) as [Hlo Hhi]. fold j in Hhi.
  assert (Hj : 53 < j).
  { unfold j. assert (53 <= Z.log2 v); [|lia]. change 53 with (Z.log2 (2 ^ 53)). apply Z.log2_le_mono. lia. }
  assert (Hb : (Qabs (inject_Z v) < Qpower 2 j)%Q).
  { change 2%Q with (inject_Z 2). rewrite <- Zpower_Qpower by lia.
    unfold Qabs, Qlt; simpl. lia. }
  pose proof (rnd_error (inject_Z v) j ltac:(lia) Hb) as He.
  apply Qabs_Qle_condition in He as [He _].
  assert (Hp : (Qpower 2 (j - 53) <= inject_Z v)%Q).
  { change 2%Q with (inject_Z 2). rewrite <- Zpower_Qpower by lia. rewrite <- Zle_Qle.
    transitivity (2 ^ Z.log2 v); [|lia]. apply Z.pow_le_mono_r; unfold j; lia. }
  assert (inject_Z (2 ^ 53) < inject_Z v)%Q as Hbig by by rewrite <- Zlt_Qlt.
  change (inject_Z (2 ^ 53)) with 9007199254740992%Q in Hbig.
  change (inject_Z 4294967295) with 4294967295%Q in Hq. lra.
Qed.

Lemma decode_memo_id_sound raw m : decode_memo_id raw = Some m ->
  canonical m /\ digits_val raw = hex_digits_val (chars m).
Proof.
  unfold decode_memo_id. destruct (bool_decide _); [done|]. cbn [orb].
  destruct (forallb is_digit raw) eqn:Hd; [|done]. cbn [negb].
  rewrite forallb_forall in Hd. assert (Hd' : Forall (fun c => is_digit c = true) raw).
  { apply List.Forall_forall. intros x Hx. by apply Hd. }
  pose proof (digits_val_range raw Hd') as [Hv _].
  destruct (is_safe_integer _) eqn:Hs; [|done].
  destruct (to_double (inject_Z (digits_val raw))) as [|s|q] eqn:Eq; try discriminate Hs.
  destruct (num_lt (Fin q) (of_Z 0)); [done|].
  destruct (num_lt (of_Z 4294967295) (Fin q)) eqn:Hlt; [done|]. cbn [negb orb].
  intros [= <-]. simpl in Hlt. unfold Qltb in Hlt. apply negb_false_iff, Qle_bool_iff in Hlt.
  destruct (to_double_small _ _ Hv Eq Hlt) as [-> Hle]. rewrite Qfloor_Z.
  rewrite padStart_toString16 by (change (16 ^ 8) with (2 ^ 32); lia).
  unfold canonical. rewrite chars_text, pad_hex_val by (change (16 ^ Z.of_nat 8) with (2 ^ 32); lia).
  split; [|done]. apply canonical_re_spec. split; [apply pad_hex_length|apply pad_hex_upper].
Qed.

Lemma b64_val_range c : 0 <= b64_val c < 64.
Proof.
  unfold b64_val, is_digit. cbv zeta. pose proof (code_range c).
  repeat match goal with
  | |- context [?x <=? ?y] => destruct (Z.leb_spec x y); simpl
  | |- context [?x =? ?y] => destruct (Z.eqb_spec x y); simpl
  end; lia.
Qed.

Lemma b64_decode_bytes n l : (length l <= n)%nat -> Forall is_byte (b64_decode l).
Proof.
  revert l. induction n as [|n IH]; intros l Hn; [destruct l; [constructor|simpl in *; lia]|].
  destruct l as [|a [|b [|c [|d l]]]]; [constructor|constructor|..]; cbn [b64_decode];
    pose proof (b64_val_range a); pose proof (b64_val_range b);
    try pose proof (b64_val_range c); try pose proof (b64_val_range d);
    repeat (constructor; [unfold is_byte; Z.div_mod_to_equations; lia|]); [constructor..|].
  apply IH. simpl in Hn. lia.
Qed.

Lemma is_hex_range c : is_hex c = true -> 0 <= hex_val c < 16.
Proof.
  unfold is_hex, hex_val, is_digit. intros H.
  destruct (Z.leb_spec 48 (code c)), (Z.leb_spec (code c) 57), (Z.leb_spec 65 (code c)),
    (Z.leb_spec (code c) 70), (Z.leb_spec 97 (code c)), (Z.leb_spec (code c) 102);
    simpl in *; try done; lia.
Qed.

Lemma hex_bytes_bytes n l : (length l <= n)%nat -> Forall (fun c => is_hex c = true) l ->
  Forall is_byte (hex_bytes l).
Proof.
  revert l. induction n as [|n IH]; intros l Hn Hl; [by destruct l; simpl in *; try lia|].
  destruct l as [|a [|b l]]; [constructor|constructor|].
  apply Forall_cons in Hl as [Ha Hl]. apply Forall_cons in Hl as [Hb Hl].
  apply is_hex_range in Ha, Hb. cbn [hex_bytes]. constructor; [unfold is_byte; lia|].
  apply IH; [simpl in *; lia|done].
Qed.

Lemma decodeHashBytes_bytes value bs : decodeHashBytes value = Some bs -> Forall is_byte bs.
Proof.
  unfold decodeHashBytes. destruct (_ && _) eqn:E; [intros [= <-]|].
  - apply andb_true_iff in E as [_ E]. apply (hex_bytes_bytes (length value)); [done|].
    apply List.Forall_forall. rewrite forallb_forall in E. done.
  - destruct (negb _); [done|]. destruct (bool_decide _); [|done]. intros [= <-].
    by apply (b64_decode_bytes (length (strip_padding value))).
Qed.

Lemma bytes_hex_bytes bs : Forall is_byte bs -> hex_bytes (bytes_hex bs) = bs.
Proof.
  induction 1 as [|b bs Hb Hbs IH]; [done|]. unfold is_byte in Hb.
  change (bytes_hex (b :: bs)) with (hex_chr (b / 16 mod 16) :: hex_chr (b mod 16) :: bytes_hex bs).
  cbn [hex_bytes]. rewrite IH. f_equal.
  destruct (hex_chr_spec (b / 16 mod 16)) as [_ ->]; [apply Z.mod_pos_bound; lia|].
  destruct (hex_chr_spec (b mod 16)) as [_ ->]; [apply Z.mod_pos_bound; lia|].
  Z.div_mod_to_equations; lia.
Qed.

Lemma decode_memo_hash_sound value m : decode_memo_hash value = Some m ->
  canonical m /\ decodeHashBytes value = Some (replicate 28 0 ++ hex_bytes (chars m)).
Proof.
  unfold decode_memo_hash. destruct (decodeHashBytes value) as [bs|] eqn:Hd; [|done].
  destruct (length bs =? 32)%nat eqn:Hl; [|done]. cbn [negb]. apply Nat.eqb_eq in Hl.
  destruct (forallb (Z.eqb 0) (take 28 bs)) eqn:Hz; [|done]. cbn [negb].
  destruct (canonical_re _) eqn:Hc; [|done]. intros [= <-].
  unfold canonical. rewrite chars_text. split; [done|]. f_equal.
  apply decodeHashBytes_bytes in Hd. rewrite bytes_hex_bytes by by apply Forall_drop.
  rewrite <- (take_drop 28 bs) at 1. f_equal. symmetry. apply replicate_as_elem_of.
  split; [rewrite length_take; lia|]. rewrite forallb_forall in Hz.
  intros x Hx. apply list_elem_of_In, Hz, Z.eqb_eq in Hx. done.
Qed.

(** C9: a numeric or hash memo is matched only when it really is an encoding:
    if the backend decodes a MEMO_ID or MEMO_HASH value to [m], then [m] is
    canonical and the value denotes exactly the 32-bit number of [m] - no value
    of another protocol is truncated into a match, however long it is. *)
Theorem decode_no_false_match w mt t m :
  normalizeMemoType mt = Some t -> decodeMemoToCanonical (Some w) mt = Some m ->
  (t = "MEMO_ID"%string ->
     canonical m /\ digits_val (trim (chars w)) = hex_digits_val (chars m)) /\
  (t = "MEMO_HASH"%string ->
     canonical m /\
     decodeHashBytes (trim (chars w)) = Some (replicate 28 0 ++ hex_bytes (chars m))).
Proof.
  intros Hn Hd. unfold decodeMemoToCanonical in Hd. destruct w as [|c w]; [done|]. rewrite Hn in Hd.
  split; intros ->; simpl in Hd.
  - by apply decode_memo_id_sound.
  - by apply decode_memo_hash_sound.
Qed.

Lemma decode_no_false_match_witness :
  canonical "A3F91B2C" /\ digits_val (trim (chars " 2751011628")) = hex_digits_val (chars "A3F91B2C").
Proof.
  refine (proj1 (decode_no_false_match " 2751011628" (Some "id"%string) "MEMO_ID" "A3F91B2C" _ _) _);
    vm_compute; reflexivity.
Defined.
