(* ===== verification/ModelPlugins.v ===== *)
(** Query middleware of the Mongoose models: the soft-delete plugin
    (backend/src/utils/softDelete.js) and the tenant-scope plugin
    (backend/src/plugins/tenantScope.js), over a collection modelled as the
    list of its documents in natural order.  The driver's own behaviour used
    here is the documented one: [findOne] returns the first document that
    satisfies every condition of the filter, [updateMany] updates all of them. *)

From Stdlib Require Import ZArith Lia.
From stdpp Require Import base list strings.
From S2P Require Import Prelude.
Local Open Scope Z_scope.
Local Open Scope string_scope.
Local Open Scope list_scope.

(** What the plugins need to know of a model's documents. *)
Class TenantDoc (D : Type) := {
  schoolId : D -> string;
  deletedAt : D -> option Z;
  set_deletedAt : option Z -> D -> D;
  deletedAt_set : forall t d, deletedAt (set_deletedAt t d) = t;
  set_deletedAt_id : forall d, set_deletedAt (deletedAt d) d = d;
  set_deletedAt_set : forall t u d, set_deletedAt t (set_deletedAt u d) = set_deletedAt t d;
  schoolId_set : forall t d, schoolId (set_deletedAt t d) = schoolId d;
}.

(** The query operations the two plugins hook. *)
Inductive query_op :=
| op_find | op_findOne | op_findOneAndUpdate | op_findOneAndDelete
| op_findOneAndReplace | op_updateOne | op_updateMany | op_deleteOne
| op_deleteMany | op_countDocuments | op_distinct | op_replaceOne
| op_estimatedDocumentCount.

#[export] Instance query_op_eq_dec : EqDecision query_op.
Proof. solve_decision. Defined.

Inductive plugin_error := TenantScopeError (modelName : string) (op : query_op).

Module Plugins.
Section Plugins.
Context {D : Type} `{TenantDoc D}.

(** A filter object: its keys in insertion order, each with its condition. *)
Definition filter : Type := list (string * (D -> bool)).

Definition has_key (k : string) (f : filter) : bool :=
  existsb (fun e => bool_decide (e.1 = k)) f.

Definition matches (f : filter) (d : D) : bool := forallb (fun e => e.2 d) f.

Record query := Query {
  q_filter : filter;
  q_includeDeleted : bool;
  q_bypassTenantScope : bool;
}.

Definition includeDeleted (q : query) : query :=
  Query (q_filter q) true (q_bypassTenantScope q).
Definition bypassTenantScope (q : query) : query :=
  Query (q_filter q) (q_includeDeleted q) true.

Definition not_deleted (d : D) : bool :=
  match deletedAt d with None => true | Some _ => false end.

(** [{ ...filter, deletedAt: null }]: a later key replaces an earlier one. *)
Definition activeFilter (f : filter) : filter :=
  List.filter (fun e => negb (bool_decide (e.1 = "deletedAt"))) f
    ++ [("deletedAt", not_deleted)].

Definition SOFT_DELETE_HOOKS : list query_op :=
  [op_find; op_findOne; op_findOneAndUpdate; op_countDocuments;
   op_updateMany; op_deleteMany; op_findOneAndDelete].

Definition excludeDeleted (q : query) : query :=
  if q_includeDeleted q then q
  else if negb (has_key "deletedAt" (q_filter q))
  then Query (q_filter q ++ [("deletedAt", not_deleted)])
             (q_includeDeleted q) (q_bypassTenantScope q)
  else q.

Definition SCOPED_QUERY_TYPES : list query_op :=
  [op_find; op_findOne; op_findOneAndUpdate; op_findOneAndDelete;
   op_findOneAndReplace; op_updateOne; op_updateMany; op_deleteOne;
   op_deleteMany; op_countDocuments; op_distinct; op_replaceOne].

Definition assertSchoolId (modelName : string) (op : query_op) (f : filter)
  : result plugin_error unit :=
  if negb (has_key "schoolId" f) then Throw (TenantScopeError modelName op)
  else Ok tt.

Definition tenant_hook (modelName : string) (op : query_op) (q : query)
  : result plugin_error unit :=
  if q_bypassTenantScope q then Ok tt
  else assertSchoolId modelName op (q_filter q).

(** The pre-hooks of a model that uses both plugins, in registration order. *)
Definition run_hooks (modelName : string) (op : query_op) (q : query)
  : result plugin_error query :=
  let q := if bool_decide (op ∈ SOFT_DELETE_HOOKS) then excludeDeleted q else q in
  if bool_decide (op ∈ SCOPED_QUERY_TYPES)
  then (_ ← tenant_hook modelName op q; Ok q)
  else Ok q.

(** The aggregate hook: [None] is a first stage that is not a [$match]. *)
Definition aggregate_hook (modelName : string) (bypass : bool)
  (pipeline : list (option filter)) : result string unit :=
  if bypass then Ok tt else
  match pipeline with
  | Some m :: _ => if has_key "schoolId" m then Ok tt else Throw modelName
  | _ => Throw modelName
  end.

Definition find (modelName : string) (q : query) (c : list D)
  : result plugin_error (list D) :=
  (q ← run_hooks modelName op_find q; Ok (List.filter (matches (q_filter q)) c)).

Definition findOne (modelName : string) (q : query) (c : list D)
  : result plugin_error (option D) :=
  (q ← run_hooks modelName op_findOne q; Ok (List.find (matches (q_filter q)) c)).

Definition updateMany (modelName : string) (q : query) (upd : D -> D) (c : list D)
  : result plugin_error (list D) :=
  (q ← run_hooks modelName op_updateMany q;
   Ok ((fun d => if matches (q_filter q) d then upd d else d) <$> c)).

(** Static methods [Model.softDelete(filter)] and [Model.restore(filter)]. *)
Definition softDelete (modelName : string) (now : Z) (f : filter) (c : list D) :=
  updateMany modelName (Query f false false) (set_deletedAt (Some now)) c.
Definition restore (modelName : string) (f : filter) (c : list D) :=
  updateMany modelName (Query f false false) (set_deletedAt None) c.

(** Instance methods [doc.softDelete()] and [doc.restore()], before [save]. *)
Definition doc_softDelete (now : Z) (d : D) : D := set_deletedAt (Some now) d.
Definition doc_restore (d : D) : D := set_deletedAt None d.

(** ** Lemmas *)

Lemma has_key_app k f g : has_key k (f ++ g) = has_key k f || has_key k g.
Proof. unfold has_key. by rewrite existsb_app. Qed.

Lemma matches_app f g d : matches (f ++ g) d = matches f d && matches g d.
Proof. unfold matches. by rewrite forallb_app. Qed.

Lemma excludeDeleted_filter q d :
  q_includeDeleted q = false -> has_key "deletedAt" (q_filter q) = false ->
  matches (q_filter (excludeDeleted q)) d
  = matches (q_filter q) d && not_deleted d.
Proof.
  intros Hi Hk. unfold excludeDeleted. rewrite Hi, Hk. simpl.
  rewrite matches_app. simpl. by rewrite andb_true_r.
Qed.

Lemma excludeDeleted_keys k q :
  has_key k (q_filter q) = true -> has_key k (q_filter (excludeDeleted q)) = true.
Proof. unfold excludeDeleted. intros. crush_match. rewrite has_key_app. by rewrite H0. Qed.

Lemma run_hooks_scoped m op f q' :
  op ∈ SCOPED_QUERY_TYPES ->
  run_hooks m op (Query f false false) = Ok q' -> has_key "schoolId" f = true.
Proof.
  unfold run_hooks. intros Hop. rewrite (bool_decide_eq_true_2 _ Hop).
  unfold tenant_hook, assertSchoolId, excludeDeleted.
  case_bool_decide; crush_match; simpl in *;
    rewrite ?has_key_app, ?andb_true_iff, ?negb_false_iff in *; simpl in *;
    rewrite ?orb_false_r in *; try done.
  all: by destruct (has_key "schoolId" f).
Qed.

(** A default query on a hooked operation: what the hooks make of it. *)
Lemma run_hooks_default m op f :
  op ∈ SOFT_DELETE_HOOKS -> op ∈ SCOPED_QUERY_TYPES ->
  has_key "deletedAt" f = false -> has_key "schoolId" f = true ->
  run_hooks m op (Query f false false)
  = Ok (Query (f ++ [("deletedAt", not_deleted)]) false false).
Proof.
  intros Hs Ht Hd Hk. unfold run_hooks.
  rewrite (bool_decide_eq_true_2 _ Hs), (bool_decide_eq_true_2 _ Ht).
  unfold excludeDeleted. simpl. rewrite Hd. simpl.
  unfold tenant_hook, assertSchoolId. simpl. rewrite has_key_app, Hk. done.
Qed.

Lemma matches_default f d :
  matches (f ++ [("deletedAt", not_deleted)]) d = matches f d && not_deleted d.
Proof. rewrite matches_app. simpl. by rewrite andb_true_r. Qed.

Lemma findOne_default m f c :
  has_key "deletedAt" f = false -> has_key "schoolId" f = true ->
  findOne m (Query f false false) c
  = Ok (List.find (fun d => matches f d && not_deleted d) c).
Proof.
  intros Hd Hk. unfold findOne.
  rewrite (run_hooks_default m op_findOne f); [|by_decision|by_decision|done|done].
  simpl. f_equal. induction c as [|d c IH]; simpl; [done|].
  rewrite matches_default, IH. done.
Qed.

Lemma find_default m f c :
  has_key "deletedAt" f = false -> has_key "schoolId" f = true ->
  find m (Query f false false) c
  = Ok (List.filter (fun d => matches f d && not_deleted d) c).
Proof.
  intros Hd Hk. unfold find.
  rewrite (run_hooks_default m op_find f); [|by_decision|by_decision|done|done].
  simpl. f_equal. apply List.filter_ext. apply matches_default.
Qed.

Lemma updateMany_default m f u c :
  has_key "deletedAt" f = false -> has_key "schoolId" f = true ->
  updateMany m (Query f false false) u c
  = Ok ((fun d => if matches f d && not_deleted d then u d else d) <$> c).
Proof.
  intros Hd Hk. unfold updateMany.
  rewrite (run_hooks_default m op_updateMany f); [|by_decision|by_decision|done|done].
  simpl. f_equal. apply list_fmap_ext. intros i d _. by rewrite matches_default.
Qed.

Lemma unscoped_throws m op f :
  op ∈ SCOPED_QUERY_TYPES -> has_key "schoolId" f = false ->
  run_hooks m op (Query f false false) = Throw (TenantScopeError m op).
Proof.
  intros Ht Hk. destruct (run_hooks m op (Query f false false)) as [q'|[m' op']] eqn:E.
  { by rewrite (run_hooks_scoped m op f q') in Hk. }
  unfold run_hooks in E. rewrite (bool_decide_eq_true_2 _ Ht) in E.
  unfold tenant_hook, assertSchoolId in E. crush_match; simpl in *; crush_match.
Qed.

(** A query without opt-outs on a tenant-scoped, soft-deleting model either
    throws before touching the collection (its filter has no [schoolId]) or
    returns exactly the documents that satisfy the caller's filter and are not
    soft-deleted, in their natural order. *)
Theorem find_scoped_and_live m f c :
  has_key "deletedAt" f = false ->
  find m (Query f false false) c
  = if has_key "schoolId" f
    then Ok (List.filter (fun d => matches f d && not_deleted d) c)
    else Throw (TenantScopeError m op_find).
Proof.
  intros Hd. destruct (has_key "schoolId" f) eqn:Hk; [by apply find_default|].
  unfold find. by rewrite (unscoped_throws m op_find f); [|by_decision|done].
Qed.

(** The static [restore(filter)] never restores anything: the soft-delete
    hook on [updateMany] adds [deletedAt: null] to its filter, so it only
    reaches documents that are not deleted. *)
Theorem restore_static_noop m f c :
  has_key "deletedAt" f = false -> has_key "schoolId" f = true ->
  restore m f c = Ok c.
Proof.
  intros Hd Hk. unfold restore. rewrite updateMany_default by done.
  f_equal.
  induction c as [|d c IH]; simpl; [done|]. f_equal; [|exact IH].
  destruct (matches f d); simpl; [|done].
  unfold not_deleted. destruct (deletedAt d) eqn:E; [done|].
  rewrite <- E at 1. apply set_deletedAt_id.
Qed.

Lemma softDelete_then_find m now f c c' :
  has_key "deletedAt" f = false -> has_key "schoolId" f = true ->
  (forall t d, matches f (set_deletedAt t d) = matches f d) ->
  softDelete m now f c = Ok c' -> find m (Query f false false) c' = Ok [].
Proof.
  intros Hd Hk Hst. unfold softDelete. rewrite updateMany_default by done.
  intros [= <-]. rewrite find_default by done. f_equal.
  induction c as [|d c IH]; simpl; [done|].
  destruct (matches f d) eqn:Hm, (not_deleted d) eqn:Hn; simpl;
    rewrite ?Hst, ?Hm, ?Hn; unfold not_deleted; rewrite ?deletedAt_set; simpl; done.
Qed.
End Plugins.

(** A minimal document type: its school and its deletion time. *)
#[export] #[refine] Instance plain_doc : TenantDoc (string * option Z) := {|
  schoolId := fst; deletedAt := snd; set_deletedAt := fun t d => (d.1, t) |}.
Proof. all: by intros; try destruct d. Defined.

Definition of_school (s : string) : filter (D := string * option Z) :=
  [("schoolId", fun d => bool_decide (d.1 = s))].

Lemma find_scoped_and_live_witness :
  find "Student" (Query (of_school "A") false false)
    [("A", None); ("B", None); ("A", Some 5)] = Ok [("A", None)].
Proof. rewrite find_scoped_and_live by reflexivity. reflexivity. Defined.

Lemma restore_static_noop_witness :
  restore "Student" (of_school "A") [("A", Some 5)] = Ok [("A", Some 5)].
Proof. apply restore_static_noop; reflexivity. Defined.
End Plugins.
