(* ===== verification/Confirmation.v ===== *)
(** The payment confirmation (finality) state machine:
    backend/src/services/paymentConfirmationStateMachine.js, and its driver
    [determineConfirmationState] of backend/src/services/stellarService.js.
    Ledger sequence numbers are 32-bit integers in Horizon, so the differences
    the code takes are exact and are modelled in [Z]. *)

From Stdlib Require Import ZArith Lia.
From stdpp Require Import base list strings.
From S2P Require Import Prelude.
Local Open Scope string_scope.
Local Open Scope Z_scope.
Local Open Scope list_scope.

Module Confirmation.

Inductive CONFIRMATION_STATES := DETECTED | PENDING | CONFIRMED | FINALIZED | FAILED.

#[export] Instance CONFIRMATION_STATES_eq_dec : EqDecision CONFIRMATION_STATES.
Proof. solve_decision. Defined.

Definition state_name (s : CONFIRMATION_STATES) : string :=
  match s with
  | DETECTED => "detected" | PENDING => "pending" | CONFIRMED => "confirmed"
  | FINALIZED => "finalized" | FAILED => "failed"
  end.

(** Own properties of the rank table, by their string key. *)
Definition state_of_string (s : string) : option CONFIRMATION_STATES :=
  List.find (fun c => bool_decide (state_name c = s))
    [DETECTED; PENDING; CONFIRMED; FINALIZED; FAILED].

Definition STATE_RANK (s : CONFIRMATION_STATES) : Z :=
  match s with
  | DETECTED => 0 | PENDING => 1 | CONFIRMED => 2 | FINALIZED => 3 | FAILED => 99
  end.

Definition TERMINAL_STATES : list CONFIRMATION_STATES := [FINALIZED; FAILED].

Definition CONFIRMATION_STATE_TRANSITIONS (s : CONFIRMATION_STATES) : list CONFIRMATION_STATES :=
  match s with
  | DETECTED => [PENDING; CONFIRMED; FINALIZED; FAILED]
  | PENDING => [CONFIRMED; FINALIZED; FAILED]
  | CONFIRMED => [FINALIZED; FAILED]
  | FINALIZED => []
  | FAILED => []
  end.

(** [!x] for a ledger sequence that may be null. *)
Definition falsy_ledger (x : option Z) : bool :=
  match x with None => true | Some z => z =? 0 end.

Definition computeTargetState (txLedger latestLedgerSequence : option Z)
  (isSuspicious : bool) (confirmationThreshold finalizationThreshold : Z)
  : CONFIRMATION_STATES :=
  if isSuspicious then FAILED else
  if falsy_ledger txLedger || falsy_ledger latestLedgerSequence then DETECTED else
  let depth := default 0 latestLedgerSequence - default 0 txLedger in
  if finalizationThreshold <=? depth then FINALIZED else
  if confirmationThreshold <=? depth then CONFIRMED else
  if 1 <=? depth then PENDING else DETECTED.

#[local] Arguments computeTargetState : simpl never.

Record next_state := NextState { state : CONFIRMATION_STATES; changed : bool }.

(** The only thrown error: a target that is not a known state. *)
Definition resolveNextState (currentState : option string) (targetState : string)
  : result string next_state :=
  match state_of_string targetState with
  | None => Throw ("Unknown confirmation state: " ++ targetState)%string
  | Some target =>
    let current :=
      match currentState with
      | Some c => default DETECTED (state_of_string c)
      | None => DETECTED
      end in
    if bool_decide (current ∈ TERMINAL_STATES) then Ok (NextState current false) else
    if (STATE_RANK target <=? STATE_RANK current) && negb (bool_decide (target = FAILED))
    then Ok (NextState current false) else
    if negb (bool_decide (target ∈ CONFIRMATION_STATE_TRANSITIONS current))
    then Ok (NextState current false) else
    Ok (NextState target true)
  end.

Inductive legacy_status := pending_confirmation | confirmed | failed.

#[export] Instance legacy_status_eq_dec : EqDecision legacy_status.
Proof. solve_decision. Defined.

Definition deriveLegacyConfirmationStatus (s : CONFIRMATION_STATES) : legacy_status :=
  if bool_decide (s = FAILED) then failed else
  if bool_decide (s = CONFIRMED) || bool_decide (s = FINALIZED) then confirmed else
  pending_confirmation.

Definition isConfirmedOrAbove (s : CONFIRMATION_STATES) : bool :=
  STATE_RANK CONFIRMED <=? STATE_RANK s.

(** ** The driver: one poll of Horizon *)
Section Driver.
(** The two thresholds of the configuration. *)
Variables CONFIRMATION_THRESHOLD FINALIZATION_THRESHOLD : Z.

Record determination := Determination {
  d_state : CONFIRMATION_STATES;
  d_changed : bool;
  d_confirmationStatus : legacy_status;
  d_latest : Z;
}.

(** [latest] is the answer of [getLatestLedgerSequence]. *)
Definition determineConfirmationState (latest : Z) (txLedger : option Z)
  (currentState : option string) (isSuspicious : bool) : result string determination :=
  let targetState := computeTargetState txLedger (Some latest) isSuspicious
                       CONFIRMATION_THRESHOLD FINALIZATION_THRESHOLD in
  (n ← resolveNextState currentState (state_name targetState);
   Ok (Determination (state n) (changed n)
         (deriveLegacyConfirmationStatus (state n)) latest)).

(** A payment polled repeatedly: each poll sees a latest ledger and a
    suspicion flag, and the state it resolves to is the next poll's current. *)
Fixpoint poll_all (tx : option Z) (cur : CONFIRMATION_STATES) (obs : list (Z * bool))
  : result string CONFIRMATION_STATES :=
  match obs with
  | [] => Ok cur
  | (latest, susp) :: obs' =>
    (d ← determineConfirmationState latest tx (Some (state_name cur)) susp;
     poll_all tx (d_state d) obs')
  end.

(** ** Lemmas *)

Lemma state_of_name s : state_of_string (state_name s) = Some s.
Proof. by destruct s. Qed.

Lemma state_name_of str s : state_of_string str = Some s -> state_name s = str.
Proof. unfold state_of_string. intros [_ H]%find_exists. by apply bool_decide_eq_true in H. Qed.

(** The machine on known states, without the string keys. *)
Definition resolve (cur target : CONFIRMATION_STATES) : CONFIRMATION_STATES :=
  match cur with
  | FINALIZED => FINALIZED
  | FAILED => FAILED
  | _ => if STATE_RANK cur <? STATE_RANK target then target else cur
  end.

Lemma resolveNextState_resolve cur target :
  resolveNextState (Some (state_name cur)) (state_name target)
  = Ok (NextState (resolve cur target) (negb (bool_decide (resolve cur target = cur)))).
Proof. destruct cur, target; reflexivity. Qed.

Lemma resolve_rank cur target : STATE_RANK cur <= STATE_RANK (resolve cur target).
Proof. destruct cur, target; simpl; lia. Qed.

Lemma resolve_idem cur target : resolve (resolve cur target) target = resolve cur target.
Proof. by destruct cur, target. Qed.

Abbreviation target tx l susp :=
  (computeTargetState tx (Some l) susp CONFIRMATION_THRESHOLD FINALIZATION_THRESHOLD).

Lemma poll_all_cons tx cur l s obs :
  poll_all tx cur ((l, s) :: obs) = poll_all tx (resolve cur (target tx l s)) obs.
Proof.
  simpl. unfold determineConfirmationState. by rewrite resolveNextState_resolve.
Qed.

Lemma poll_all_app tx cur obs1 obs2 :
  poll_all tx cur (obs1 ++ obs2) = (s ← poll_all tx cur obs1; poll_all tx s obs2).
Proof.
  revert cur. induction obs1 as [|[l s] obs1 IH]; intros cur; [done|].
  rewrite <- app_comm_cons, !poll_all_cons. apply IH.
Qed.

Lemma poll_all_total tx cur obs : exists s, poll_all tx cur obs = Ok s /\ STATE_RANK cur <= STATE_RANK s.
Proof.
  revert cur. induction obs as [|[l s] obs IH]; intros cur; [exists cur; split; [done|lia]|].
  rewrite poll_all_cons.
  destruct (IH (resolve cur (target tx l s))) as (s' & -> & Hr).
  exists s'. split; [done|]. pose proof (resolve_rank cur (target tx l s)). lia.
Qed.

Lemma poll_all_terminal tx cur obs : cur ∈ TERMINAL_STATES -> poll_all tx cur obs = Ok cur.
Proof.
  intros Hc. induction obs as [|[l s] obs IH]; [done|]. rewrite poll_all_cons.
  assert (resolve cur (target tx l s) = cur) as ->; [|done].
  apply elem_of_cons in Hc as [->|Hc]; [done|].
  by apply list_elem_of_singleton in Hc as ->.
Qed.

(** A later ledger never lowers the target, and two honest targets combine to
    the target of the later ledger. *)
Lemma resolve_targets tx m l :
  0 <= m -> 0 <= l ->
  resolve (target tx m false) (target tx l false) = target tx (m `max` l) false.
Proof.
  intros Hm Hl. unfold computeTargetState.
  destruct (falsy_ledger tx) eqn:Et; [done|]. simpl. unfold resolve, STATE_RANK.
  repeat match goal with
  | |- context [Z.eqb ?a ?b] => destruct (Z.eqb_spec a b)
  | |- context [Z.leb ?a ?b] => destruct (Z.leb_spec a b)
  end; simpl; try reflexivity; exfalso; lia.
Qed.

Lemma target_not_failed tx l : target tx l false <> FAILED.
Proof. unfold computeTargetState. by repeat case_match. Qed.

(** ** Reference semantics of a polling history *)

Definition max_ledger (obs : list (Z * bool)) : Z :=
  foldr (fun o m => o.1 `max` m) 0 obs.

(** A suspicion reported before the payment is seen final. *)
Fixpoint fraud_before_final (tx : option Z) (obs : list (Z * bool)) : bool :=
  match obs with
  | [] => false
  | (l, susp) :: obs' =>
    susp || (negb (bool_decide (target tx l false = FINALIZED))
             && fraud_before_final tx obs')
  end.

Lemma target_final_mono tx m l :
  0 <= m -> 0 <= l ->
  target tx m false = FINALIZED -> target tx (m `max` l) false = FINALIZED.
Proof. intros Hm Hl E. rewrite <- resolve_targets by done. by rewrite E. Qed.

Lemma poll_all_spec_gen tx m obs :
  0 <= m -> Forall (fun o => 0 <= o.1) obs ->
  poll_all tx (target tx m false) obs
  = Ok (if bool_decide (target tx m false = FINALIZED) then FINALIZED
        else if fraud_before_final tx obs then FAILED
        else target tx (m `max` max_ledger obs) false).
Proof.
  intros Hm Hobs. revert m Hm.
  induction Hobs as [|[l s] obs Hl Hobs IH]; intros m Hm.
  { simpl. rewrite Z.max_l by done. case_bool_decide as E; [by rewrite E|done]. }
  simpl in Hl.
  destruct (decide (target tx m false = FINALIZED)) as [E|E].
  { rewrite bool_decide_eq_true_2 by done. rewrite E.
    apply poll_all_terminal. by left. }
  rewrite (bool_decide_eq_false_2 _ E), poll_all_cons. simpl.
  destruct s; simpl.
  - assert (resolve (target tx m false) (target tx l true) = FAILED) as ->.
    { change (target tx l true) with FAILED. pose proof (target_not_failed tx m).
      destruct (target tx m false) eqn:?; try reflexivity; congruence. }
    apply poll_all_terminal. right. by left.
  - rewrite resolve_targets by done. rewrite IH by lia.
    rewrite <- Z.max_assoc. case_bool_decide as E1.
    + assert (target tx l false = FINALIZED) as E2.
      { destruct (Z.max_spec m l) as [[_ Hx]|[_ Hx]]; rewrite Hx in E1; congruence. }
      rewrite bool_decide_eq_true_2 by done. simpl. f_equal. symmetry.
      rewrite Z.max_assoc. apply target_final_mono; [lia| |done].
      clear -Hobs. induction Hobs; simpl; lia.
    + rewrite bool_decide_eq_false_2; [done|].
      intros E2. apply E1. rewrite Z.max_comm. by apply target_final_mono.
Qed.

Lemma target_zero tx : target tx 0 false = DETECTED.
Proof. unfold computeTargetState. by destruct (falsy_ledger tx). Qed.

Lemma max_ledger_nonneg obs : 0 <= max_ledger obs.
Proof. induction obs; simpl; lia. Qed.

(** C10: polling a new payment with any history of observed ledgers never
    throws, and its final state has a closed form: failed exactly when a
    suspicion was raised before the payment was first seen at finalization
    depth, otherwise the state of the greatest ledger observed.  So repeated,
    stale or reordered polls cannot change an honest payment's state. *)
Theorem poll_history_closed_form tx obs :
  Forall (fun o => 0 <= o.1) obs ->
  poll_all tx DETECTED obs
  = Ok (if fraud_before_final tx obs then FAILED
        else target tx (max_ledger obs) false).
Proof.
  intros Hobs. rewrite <- (target_zero tx) at 1.
  rewrite poll_all_spec_gen by done. rewrite target_zero. simpl.
  rewrite Z.max_r; [done|apply max_ledger_nonneg].
Qed.

(** Along any polling history the rank of the state never decreases, a
    terminal state is never left, and running the whole history again from
    the state it reached changes nothing (re-polling is idempotent). *)
Theorem poll_monotone_idempotent tx cur obs :
  Forall (fun o => 0 <= o.1) obs ->
  exists s, poll_all tx cur obs = Ok s
    /\ STATE_RANK cur <= STATE_RANK s
    /\ (cur ∈ TERMINAL_STATES -> s = cur)
    /\ poll_all tx s obs = Ok s.
Proof.
  intros Hobs. destruct (poll_all_total tx cur obs) as (s & Hs & Hr).
  exists s. split_and!; [done|done| |].
  { intros Ht. rewrite poll_all_terminal in Hs by done. congruence. }
  enough (Forall (fun o => resolve s (target tx o.1 o.2) = s) obs) as HF.
  { clear -HF. induction HF as [|[l x] obs Hx HF IH]; [done|].
    rewrite poll_all_cons. simpl in Hx. by rewrite Hx. }
  clear Hobs Hr. revert cur Hs. induction obs as [|[l x] obs IH]; intros cur Hs; [constructor|].
  rewrite poll_all_cons in Hs. constructor; [|by eapply IH].
  simpl. set (t := target tx l x) in *.
  destruct (poll_all_total tx (resolve cur t) obs) as (s' & Hs' & Hr').
  assert (s' = s) by congruence. subst s'.
  destruct (decide (resolve cur t ∈ TERMINAL_STATES)) as [Ht|Ht].
  { rewrite poll_all_terminal in Hs by done. injection Hs as <-. apply resolve_idem. }
  destruct cur, t, s; simpl in *; try reflexivity; try lia;
    exfalso; apply Ht; try (by left); right; by left.
Qed.
End Driver.

(** The "confirmed or above" test is true of the failed state as well (its
    rank is 99), not only of confirmed and finalized as documented; for every
    other state it agrees with the legacy status being [confirmed]. *)
Theorem isConfirmedOrAbove_spec s :
  isConfirmedOrAbove s = bool_decide (s = CONFIRMED \/ s = FINALIZED \/ s = FAILED)
  /\ (s <> FAILED ->
      isConfirmedOrAbove s = bool_decide (deriveLegacyConfirmationStatus s = confirmed)).
Proof. by destruct s. Qed.

Lemma poll_history_closed_form_witness :
  poll_all 2 10 (Some 100) DETECTED [(101, false); (104, false); (99, false)] = Ok CONFIRMED
  /\ poll_all 2 10 (Some 100) DETECTED [(101, false); (104, true); (120, false)] = Ok FAILED.
Proof.
  split; rewrite poll_history_closed_form; repeat constructor; simpl; lia.
Defined.

Lemma poll_monotone_idempotent_witness :
  exists s, poll_all 2 10 (Some 100) PENDING [(150, false); (101, true)] = Ok s
    /\ STATE_RANK PENDING <= STATE_RANK s /\ (PENDING ∈ TERMINAL_STATES -> s = PENDING)
    /\ poll_all 2 10 (Some 100) s [(150, false); (101, true)] = Ok s.
Proof. apply poll_monotone_idempotent. repeat constructor; simpl; lia. Defined.

Lemma isConfirmedOrAbove_spec_witness :
  isConfirmedOrAbove CONFIRMED = bool_decide (deriveLegacyConfirmationStatus CONFIRMED = confirmed).
Proof. apply (isConfirmedOrAbove_spec CONFIRMED). discriminate. Defined.

End Confirmation.
