(* ===== verification/PaymentStatus.v ===== *)
(** The canonical payment statuses, their transition tables and derivations:
    backend/src/constants/paymentStatus.js. *)

From Stdlib Require Import ZArith.
From stdpp Require Import base list strings.
From S2P Require Import Prelude Confirmation.
Import Confirmation.
Local Open Scope string_scope.
Local Open Scope list_scope.

(** The eight statuses of the constants file, and the [REJECTED] marker the
    model's enum adds. *)
Inductive payment_status :=
| S_PENDING | S_SUBMITTED | S_SUCCESS | S_FAILED | S_DISPUTED
| S_REFUND_PENDING | S_REFUNDED | S_INVALID | S_REJECTED.

#[export] Instance payment_status_eq_dec : EqDecision payment_status.
Proof. solve_decision. Defined.

Definition PAYMENT_STATUS (s : payment_status) : string :=
  match s with
  | S_PENDING => "PENDING" | S_SUBMITTED => "SUBMITTED" | S_SUCCESS => "SUCCESS"
  | S_FAILED => "FAILED" | S_DISPUTED => "DISPUTED"
  | S_REFUND_PENDING => "REFUND_PENDING" | S_REFUNDED => "REFUNDED"
  | S_INVALID => "INVALID" | S_REJECTED => "REJECTED"
  end.

Definition PAYMENT_STATUS_VALUES : list payment_status :=
  [S_PENDING; S_SUBMITTED; S_SUCCESS; S_FAILED; S_DISPUTED; S_REFUND_PENDING;
   S_REFUNDED; S_INVALID].

Module Constants.

Definition PAYMENT_STATUS_TRANSITIONS (s : payment_status) : list payment_status :=
  match s with
  | S_SUCCESS => [S_DISPUTED; S_REFUND_PENDING]
  | S_REFUND_PENDING => [S_REFUNDED; S_SUCCESS]
  | S_PENDING => [S_SUCCESS; S_FAILED]
  | S_SUBMITTED => [S_FAILED]
  | _ => []
  end.

Definition ADMIN_PAYMENT_STATUS_TRANSITIONS (s : payment_status) : list payment_status :=
  match s with
  | S_SUCCESS => [S_DISPUTED; S_REFUND_PENDING; S_REFUNDED]
  | S_REFUND_PENDING => [S_REFUNDED; S_SUCCESS]
  | S_PENDING => [S_SUCCESS; S_FAILED]
  | S_SUBMITTED => [S_FAILED]
  | S_DISPUTED => [S_REFUNDED]
  | S_FAILED => [S_SUCCESS; S_DISPUTED]
  | _ => []
  end.

Definition isTransitionAllowed (from to_ : payment_status) (adminOverride : bool) : bool :=
  let table := if adminOverride then ADMIN_PAYMENT_STATUS_TRANSITIONS
               else PAYMENT_STATUS_TRANSITIONS in
  bool_decide (to_ ∈ table from).

Definition COUNTED_AS_PAID_STATUSES : list payment_status := [S_SUCCESS].

Definition isCountedAsPaid (s : payment_status) : bool :=
  bool_decide (s ∈ COUNTED_AS_PAID_STATUSES).

Definition deriveConfirmationStatus (s : payment_status) : legacy_status :=
  if bool_decide (s = S_SUCCESS) || bool_decide (s = S_REFUNDED) then confirmed
  else if bool_decide (s = S_FAILED) || bool_decide (s = S_INVALID) then failed
  else pending_confirmation.

(** The string [deriveConfirmationState] returns is the legacy status value. *)
Definition deriveConfirmationState (s : payment_status) : string :=
  match deriveConfirmationStatus s with
  | confirmed => "confirmed"
  | failed => "failed"
  | pending_confirmation => "pending_confirmation"
  end.

End Constants.

