(* ===== verification/PaymentModel.v ===== *)
(** The payment document: backend/src/models/paymentModel.js, its derivations of
    the lifecycle fields, its filters and the pre-save hook, and the graph of
    the status tables. *)

From Stdlib Require Import ZArith Lia.
From stdpp Require Import base list strings relations.
From S2P Require Import Prelude JsNumber ModelPlugins Confirmation PaymentStatus.
Import Confirmation.
Local Open Scope string_scope.
Local Open Scope Z_scope.
Local Open Scope list_scope.

(** models/paymentModel.js *)
Module PaymentModel.

Definition STATUS_TO_CONFIRMATION_STATE (s : payment_status) : option CONFIRMATION_STATES :=
  match s with
  | S_PENDING => Some DETECTED
  | S_SUBMITTED => Some PENDING
  | S_SUCCESS => Some FINALIZED
  | S_FAILED => Some FAILED
  | S_REFUNDED => Some FINALIZED
  | S_REJECTED => Some FAILED
  | _ => None
  end.

Definition STATUS_TO_CONFIRMATION_STATUS (s : payment_status) : option legacy_status :=
  match s with
  | S_PENDING => Some pending_confirmation
  | S_SUBMITTED => Some pending_confirmation
  | S_SUCCESS => Some confirmed
  | S_FAILED => Some failed
  | S_REFUNDED => Some confirmed
  | S_REJECTED => Some failed
  | _ => None
  end.

Definition REJECTION_STATUSES : list payment_status := [S_REJECTED].

Definition deriveConfirmationState (s : payment_status) : CONFIRMATION_STATES :=
  default DETECTED (STATUS_TO_CONFIRMATION_STATE s).

Definition deriveConfirmationStatus (s : payment_status) : legacy_status :=
  default pending_confirmation (STATUS_TO_CONFIRMATION_STATUS s).

(** The fields of a payment document the modelled services read or write. *)
Record payment := Payment {
  p_id : Z;
  p_schoolId : string;
  p_studentId : string;
  p_txHash : string;
  p_opIndex : Z;
  p_amount : number;
  p_assetCode : option string;
  p_status : payment_status;
  p_isSuspicious : bool;
  p_confirmationState : CONFIRMATION_STATES;
  p_confirmationStatus : legacy_status;
  p_rejectedAt : option Z;
  p_deletedAt : option Z;
}.

Definition set_status (s : payment_status) (p : payment) : payment :=
  Payment (p_id p) (p_schoolId p) (p_studentId p) (p_txHash p) (p_opIndex p) (p_amount p)
    (p_assetCode p) s (p_isSuspicious p) (p_confirmationState p) (p_confirmationStatus p)
    (p_rejectedAt p) (p_deletedAt p).
Definition set_derived (c : CONFIRMATION_STATES) (l : legacy_status) (p : payment) : payment :=
  Payment (p_id p) (p_schoolId p) (p_studentId p) (p_txHash p) (p_opIndex p) (p_amount p)
    (p_assetCode p) (p_status p) (p_isSuspicious p) c l (p_rejectedAt p) (p_deletedAt p).
Definition set_rejectedAt (t : option Z) (p : payment) : payment :=
  Payment (p_id p) (p_schoolId p) (p_studentId p) (p_txHash p) (p_opIndex p) (p_amount p)
    (p_assetCode p) (p_status p) (p_isSuspicious p) (p_confirmationState p)
    (p_confirmationStatus p) t (p_deletedAt p).
Definition set_p_deletedAt (t : option Z) (p : payment) : payment :=
  Payment (p_id p) (p_schoolId p) (p_studentId p) (p_txHash p) (p_opIndex p) (p_amount p)
    (p_assetCode p) (p_status p) (p_isSuspicious p) (p_confirmationState p)
    (p_confirmationStatus p) (p_rejectedAt p) t.

#[export] #[refine] Instance payment_doc : TenantDoc payment := {|
  schoolId := p_schoolId; deletedAt := p_deletedAt; set_deletedAt := set_p_deletedAt |}.
Proof. all: by intros; try destruct d. Defined.

Definition isCountedAsPaid (s : payment_status) : bool :=
  bool_decide (s = S_SUCCESS) || bool_decide (s = S_REFUNDED).

Definition countedAsPaidFilter : Plugins.filter (D := payment) :=
  [("status", fun p => bool_decide (p_status p ∈ [S_SUCCESS; S_REFUNDED]))].

(** [{ ...base, status: { $nin: REJECTION_STATUSES } }] *)
Definition existingPaymentFilter (base : Plugins.filter (D := payment))
  : Plugins.filter (D := payment) :=
  List.filter (fun e => negb (bool_decide (e.1 = "status"))) base
    ++ [("status", fun p => negb (bool_decide (p_status p ∈ REJECTION_STATUSES)))].

Definition isRejected (s : payment_status) : bool := bool_decide (s ∈ REJECTION_STATUSES).

(** The pre-save hook.  [stored] is the document as last loaded or saved, or
    [None] for a new one; [isModified('status')] compares with it. *)
Definition syncDerivedLifecycleFields (now : Z) (stored : option payment) (p : payment) : payment :=
  let isNew := match stored with None => true | Some _ => false end in
  let isModified := match stored with
                    | None => true
                    | Some q => negb (bool_decide (p_status q = p_status p))
                    end in
  let p := if isModified || isNew
           then set_derived (deriveConfirmationState (p_status p))
                            (deriveConfirmationStatus (p_status p)) p
           else p in
  if bool_decide (p_status p = S_REJECTED)
     && bool_decide (p_rejectedAt p = None)
  then set_rejectedAt (Some now) p else p.

(** ** Agreement of the three lifecycle fields *)

Definition lifecycle_ok (p : payment) : Prop :=
  p_confirmationState p = deriveConfirmationState (p_status p) /\
  p_confirmationStatus p = deriveConfirmationStatus (p_status p) /\
  (p_status p = S_REJECTED -> is_Some (p_rejectedAt p)).

Lemma save_new_ok now p : lifecycle_ok (syncDerivedLifecycleFields now None p).
Proof.
  unfold syncDerivedLifecycleFields. simpl.
  repeat case_bool_decide; simpl in *; repeat split; try done.
  all: intros; destruct (p_rejectedAt p) eqn:?; [eauto|naive_solver].
Qed.

Lemma save_preserves_ok now q p :
  lifecycle_ok q -> p_confirmationState p = p_confirmationState q ->
  p_confirmationStatus p = p_confirmationStatus q ->
  lifecycle_ok (syncDerivedLifecycleFields now (Some q) p).
Proof.
  intros (H1 & H2 & H3) E1 E2. unfold syncDerivedLifecycleFields. rewrite orb_false_r.
  destruct (decide (p_status q = p_status p)) as [E|E].
  - rewrite (bool_decide_eq_true_2 _ E). simpl.
    repeat case_bool_decide; simpl in *; unfold lifecycle_ok; simpl;
      (split_and!; [congruence|congruence|]); try done.
    intros; destruct (p_rejectedAt p) eqn:?; [eauto|naive_solver].
  - rewrite (bool_decide_eq_false_2 _ E). simpl.
    repeat case_bool_decide; simpl in *; unfold lifecycle_ok; simpl; split_and!; try done.
    intros; destruct (p_rejectedAt p) eqn:?; [eauto|naive_solver].
Qed.

Lemma hook_status now o p : p_status (syncDerivedLifecycleFields now o p) = p_status p.
Proof. unfold syncDerivedLifecycleFields. by crush_match. Qed.
Lemma hook_school now o p : p_schoolId (syncDerivedLifecycleFields now o p) = p_schoolId p.
Proof. unfold syncDerivedLifecycleFields. by crush_match. Qed.
Lemma hook_id now o p : p_id (syncDerivedLifecycleFields now o p) = p_id p.
Proof. unfold syncDerivedLifecycleFields. by crush_match. Qed.
Lemma hook_txHash now o p : p_txHash (syncDerivedLifecycleFields now o p) = p_txHash p.
Proof. unfold syncDerivedLifecycleFields. by crush_match. Qed.
Lemma hook_deletedAt now o p : p_deletedAt (syncDerivedLifecycleFields now o p) = p_deletedAt p.
Proof. unfold syncDerivedLifecycleFields. by crush_match. Qed.

#[export] Hint Rewrite hook_status hook_school hook_id hook_txHash hook_deletedAt : fields.

(** The two published predicates for "counted as paid" and the two
    derivations of the legacy confirmation status disagree exactly on one status
    each ([REFUNDED], and [INVALID] among the constants' statuses); the derived
    confirmation states of the two modules agree on failed payments only. *)
Theorem derivations_disagree s :
  (PaymentModel.isCountedAsPaid s = Constants.isCountedAsPaid s <-> s <> S_REFUNDED) /\
  (s <> S_REJECTED ->
   (PaymentModel.deriveConfirmationStatus s = Constants.deriveConfirmationStatus s
    <-> s <> S_INVALID)) /\
  (state_name (PaymentModel.deriveConfirmationState s) = Constants.deriveConfirmationState s
   <-> s = S_FAILED).
Proof. destruct s; repeat split; intros; try done. Qed.

Lemma derivations_disagree_witness :
  PaymentModel.deriveConfirmationStatus S_DISPUTED = Constants.deriveConfirmationStatus S_DISPUTED.
Proof. by apply (derivations_disagree S_DISPUTED). Defined.

(** ** The status graph *)

Definition status_step (adminOverride : bool) (a b : payment_status) : Prop :=
  Constants.isTransitionAllowed a b adminOverride = true.

Lemma status_step_normal_admin a b : status_step false a b -> status_step true a b.
Proof. unfold status_step. by destruct a, b. Qed.

Lemma refunded_final adm b : ~ status_step adm S_REFUNDED b.
Proof. by destruct adm, b. Qed.

Lemma reachable_invariant adm (P : payment_status -> Prop) a b :
  (forall x y, status_step adm x y -> P x -> P y) ->
  rtc (status_step adm) a b -> P a -> P b.
Proof. induction 2; eauto. Qed.

(** Reachability in the two transition tables.  On the normal path a
    failed, disputed, refunded or rejected payment never moves again; with the
    admin table only refunded, invalid and rejected are final.  On both, a
    refunded payment is final, no status ever returns to [PENDING], and
    [SUBMITTED], [INVALID] and [REJECTED] are only ever initial statuses. *)
Theorem status_reachability adm a b :
  rtc (status_step adm) a b ->
  (a = S_REFUNDED \/ a = S_INVALID \/ a = S_REJECTED -> b = a) /\
  (adm = false -> a = S_FAILED \/ a = S_DISPUTED -> b = a) /\
  (b = S_PENDING -> a = S_PENDING) /\
  (b = S_SUBMITTED \/ b = S_INVALID \/ b = S_REJECTED -> a = b) /\
  (adm = false -> a = S_SUBMITTED -> b = S_SUBMITTED \/ b = S_FAILED).
Proof.
  intros Hr. split_and!.
  - intros Ha. eapply (reachable_invariant adm (fun x => x = a)); [|done|done].
    intros x y Hs ->. destruct Ha as [->|[->| ->]]; by destruct adm, y.
  - intros -> Ha. eapply (reachable_invariant false (fun x => x = a)); [|done|done].
    intros x y Hs ->. destruct Ha as [->| ->]; by destruct y.
  - induction Hr as [|x y z Hs Hr IH]; [done|]. intros ->. specialize (IH eq_refl).
    subst y. by destruct adm, x.
  - induction Hr as [|x y z Hs Hr IH]; [done|]. intros Hz. specialize (IH Hz).
    subst y. destruct Hz as [->|[->| ->]]; by destruct adm, x.
  - intros -> ->. eapply (reachable_invariant false (fun x => x = S_SUBMITTED \/ x = S_FAILED));
      [|done|by left].
    intros x y Hs [->| ->]; destruct y; try done; auto.
Qed.

Lemma status_reachability_witness :
  rtc (status_step true) S_FAILED S_REFUNDED /\
  (S_REFUNDED = S_PENDING -> S_FAILED = S_PENDING).
Proof.
  assert (rtc (status_step true) S_FAILED S_REFUNDED) as Hr.
  { apply (rtc_l _ _ S_SUCCESS); [reflexivity|]. by apply rtc_once. }
  split; [exact Hr|]. apply (status_reachability true S_FAILED S_REFUNDED Hr).
Defined.

End PaymentModel.
