(* ===== verification/PaymentAdmin.v ===== *)
(** The admin status endpoints of
    backend/src/controllers/paymentAdminController.js: the shared transition
    [applyStatusTransition], the single-payment handler and the bulk handler,
    over the payment collection and the audit log. *)

From Stdlib Require Import ZArith Lia.
From stdpp Require Import base list strings.
From S2P Require Import Prelude JsNumber JsString ModelPlugins Confirmation PaymentStatus PaymentModel.
Import PaymentModel.
Local Open Scope string_scope.
Local Open Scope Z_scope.
Local Open Scope list_scope.

Module PaymentAdmin.

Record audit_entry := AuditEntry {
  a_schoolId : string;
  a_performedBy : string;
  a_targetId : string;
  a_from : payment_status;
  a_to : payment_status;
  a_reason : string;
}.

Record db := Db { payments : list payment; audit : list audit_entry }.

Record request := Request { r_schoolId : string; r_performedBy : option string; r_now : Z }.

Inductive code := VALIDATION_ERROR | BATCH_TOO_LARGE | NOT_FOUND | INVALID_TRANSITION.

#[export] Instance code_eq_dec : EqDecision code.
Proof. solve_decision. Defined.

Inductive outcome :=
| Done (p : payment) (previousStatus : payment_status)
| Refused (c : code).

Definition ok (o : outcome) : bool := match o with Done _ _ => true | Refused _ => false end.

Definition ALLOWED_TRANSITIONS := Constants.ADMIN_PAYMENT_STATUS_TRANSITIONS.

(** [document.save()]: the stored document with the same id is replaced. *)
Definition save (p : payment) (c : list payment) : list payment :=
  (fun q => if p_id q =? p_id p then p else q) <$> c.

Definition tx_filter (req : request) (txHash : string) : Plugins.filter (D := payment) :=
  [("schoolId", fun p => bool_decide (p_schoolId p = r_schoolId req));
   ("txHash", fun p => bool_decide (p_txHash p = txHash))].

(** [newStatus] is the request's string; [allowed.includes] compares names. *)
Definition applyStatusTransition (req : request) (txHash newStatus reason : string) (d : db)
  : db * result plugin_error outcome :=
  match Plugins.findOne "Payment" (Plugins.Query (tx_filter req txHash) false false) (payments d) with
  | Throw e => (d, Throw e)
  | Ok None => (d, Ok (Refused NOT_FOUND))
  | Ok (Some payment) =>
    let previousStatus := p_status payment in
    let allowed := ALLOWED_TRANSITIONS previousStatus in
    match List.find (fun s => bool_decide (PAYMENT_STATUS s = newStatus)) allowed with
    | None => (d, Ok (Refused INVALID_TRANSITION))
    | Some s =>
      let updated := syncDerivedLifecycleFields (r_now req) (Some payment) (set_status s payment) in
      let entry := AuditEntry (r_schoolId req) (str_or (default "" (r_performedBy req)) "unknown")
                     txHash previousStatus s reason in
      (Db (save updated (payments d)) (audit d ++ [entry]), Ok (Done updated previousStatus))
    end
  end.

Definition validateStatusChange (newStatus reason : string) : option code :=
  if negb (str_truthy newStatus) || negb (str_truthy reason) then Some VALIDATION_ERROR
  else if bool_decide (newStatus = PAYMENT_STATUS S_PENDING) then Some INVALID_TRANSITION
  else None.

Inductive response :=
| Status400 (c : code)
| NextError (c : code)
| NextThrown (e : plugin_error)
| Json (p : payment).

Definition updatePaymentStatus (req : request) (txHash newStatus reason : string) (d : db)
  : db * response :=
  match validateStatusChange newStatus reason with
  | Some c => (d, Status400 c)
  | None =>
    match applyStatusTransition req txHash newStatus reason d with
    | (d', Throw e) => (d', NextThrown e)
    | (d', Ok (Refused NOT_FOUND)) => (d', NextError NOT_FOUND)
    | (d', Ok (Refused c)) => (d', Status400 c)
    | (d', Ok (Done p _)) => (d', Json p)
    end
  end.

(** ** The bulk endpoint *)
Section Bulk.
Variable BULK_STATUS_UPDATE_LIMIT : Z.

(** [None]: not an array; an element [None]: not a string. *)
Definition validateTxHashes (txHashes : option (list (option string))) : option code :=
  match txHashes with
  | None | Some [] => Some VALIDATION_ERROR
  | Some hs =>
    if BULK_STATUS_UPDATE_LIMIT <? Z.of_nat (length hs) then Some BATCH_TOO_LARGE
    else if existsb (fun h => match h with
                              | None => true
                              | Some s => negb (str_truthy (str_trim s))
                              end) hs then Some VALIDATION_ERROR
    else if negb (length (remove_dups hs) =? length hs)%nat then Some VALIDATION_ERROR
    else None
  end.

Inductive bulk_item :=
| Updated (txHash : string) (from : payment_status)
| NotUpdated (txHash : string) (c : code).

Definition item_updated (i : bulk_item) : bool :=
  match i with Updated _ _ => true | NotUpdated _ _ => false end.

Inductive bulk_response :=
| Bulk400 (c : code)
| BulkThrown (e : plugin_error)
| BulkJson (requested updated failed : Z) (results : list bulk_item).

Fixpoint bulk_loop (req : request) (newStatus reason : string) (hs : list string)
  (results : list bulk_item) (d : db) : db * result plugin_error (list bulk_item) :=
  match hs with
  | [] => (d, Ok results)
  | h :: hs' =>
    match applyStatusTransition req h newStatus reason d with
    | (d', Throw e) => (d', Throw e)
    | (d', Ok (Done _ prev)) => bulk_loop req newStatus reason hs' (results ++ [Updated h prev]) d'
    | (d', Ok (Refused c)) => bulk_loop req newStatus reason hs' (results ++ [NotUpdated h c]) d'
    end
  end.

Definition bulkUpdatePaymentStatus (req : request) (txHashes : option (list (option string)))
  (newStatus reason : string) (d : db) : db * bulk_response :=
  match validateTxHashes txHashes with
  | Some c => (d, Bulk400 c)
  | None =>
    match validateStatusChange newStatus reason with
    | Some c => (d, Bulk400 c)
    | None =>
      let hs := omap id (default [] txHashes) in
      match bulk_loop req newStatus reason hs [] d with
      | (d', Throw e) => (d', BulkThrown e)
      | (d', Ok results) =>
        let updatedCount := Z.of_nat (length (List.filter item_updated results)) in
        (d', BulkJson (Z.of_nat (length hs)) updatedCount
                      (Z.of_nat (length hs) - updatedCount) results)
      end
    end
  end.
End Bulk.

(** ** Lemmas *)

Definition visible (req : request) (txHash : string) (p : payment) : bool :=
  bool_decide (p_schoolId p = r_schoolId req) && bool_decide (p_txHash p = txHash)
  && bool_decide (p_deletedAt p = None).

Lemma find_tx req h c :
  Plugins.findOne "Payment" (Plugins.Query (tx_filter req h) false false) c
  = Ok (List.find (visible req h) c).
Proof.
  rewrite Plugins.findOne_default by reflexivity. f_equal.
  apply find_ext. intros p. unfold visible, Plugins.not_deleted. simpl.
  rewrite andb_true_r. by destruct (p_deletedAt p).
Qed.

Lemma applyStatusTransition_total req h s r d :
  exists d' o, applyStatusTransition req h s r d = (d', Ok o).
Proof.
  unfold applyStatusTransition. rewrite find_tx.
  destruct (List.find (visible req h) (payments d)); [|eauto]. case_match; eauto.
Qed.

(** One document's change under an admin transition. *)
Definition admin_change (req : request) (p p' : payment) : Prop :=
  p' = p \/
  (p_schoolId p = r_schoolId req /\ p_deletedAt p = None /\
   p_id p' = p_id p /\ p_schoolId p' = p_schoolId p /\ p_deletedAt p' = p_deletedAt p /\
   PaymentModel.status_step true (p_status p) (p_status p') /\
   (lifecycle_ok p -> lifecycle_ok p')).

Definition unique_ids (c : list payment) : Prop := NoDup (p_id <$> c).

Lemma unique_id c p q : unique_ids c -> p ∈ c -> q ∈ c -> p_id p = p_id q -> p = q.
Proof. apply NoDup_fmap_eq. Qed.

Lemma save_ids p c : p_id <$> save p c = p_id <$> c.
Proof.
  unfold save. rewrite <- list_fmap_compose. apply list_fmap_ext. intros i q _. simpl.
  destruct (Z.eqb_spec (p_id q) (p_id p)); congruence.
Qed.

(** Every branch of [applyStatusTransition], on a collection with unique ids. *)
Lemma applyStatusTransition_spec req h s r d d' o :
  unique_ids (payments d) ->
  applyStatusTransition req h s r d = (d', Ok o) ->
  match List.find (visible req h) (payments d) with
  | None => d' = d /\ o = Refused NOT_FOUND
  | Some p =>
    (exists t, PAYMENT_STATUS t = s /\ PaymentModel.status_step true (p_status p) t /\
       let p' := syncDerivedLifecycleFields (r_now req) (Some p) (set_status t p) in
       o = Done p' (p_status p) /\ payments d' = save p' (payments d) /\
       exists e, audit d' = audit d ++ [e] /\ a_from e = p_status p /\ a_to e = t)
    \/ (d' = d /\ o = Refused INVALID_TRANSITION /\
        forall t, PAYMENT_STATUS t = s -> ~ PaymentModel.status_step true (p_status p) t)
  end.
Proof.
  intros Hu. unfold applyStatusTransition. rewrite find_tx.
  destruct (List.find (visible req h) (payments d)) as [p|] eqn:Ef; [|by intros [= <- <-]].
  destruct (List.find _ (ALLOWED_TRANSITIONS _)) as [t|] eqn:Et; intros [= <- <-].
  - left. exists t. apply find_exists in Et as [Hin Hn]. apply bool_decide_eq_true in Hn.
    split_and!; [done| |done|done|eauto].
    unfold PaymentModel.status_step, Constants.isTransitionAllowed. by apply bool_decide_eq_true.
  - right. split_and!; [done|done|]. intros t Ht Hs.
    apply bool_decide_eq_true in Hs. by rewrite (find_none_forall _ _ Et _ Hs) in Ht
      || (pose proof (find_none_forall _ _ Et _ Hs) as Hc; apply bool_decide_eq_false in Hc).
Qed.

Lemma save_admin_change req h p t c :
  unique_ids c -> List.find (visible req h) c = Some p ->
  PaymentModel.status_step true (p_status p) t ->
  Forall2 (admin_change req) c
    (save (syncDerivedLifecycleFields (r_now req) (Some p) (set_status t p)) c).
Proof.
  intros Hu Hf Hs. apply find_exists in Hf as [Hin Hv]. unfold visible in Hv.
  apply andb_true_iff in Hv as [[Hsch Htx]%andb_true_iff Hdel].
  apply bool_decide_eq_true in Hsch, Htx, Hdel.
  unfold save. apply Forall2_fmap_r, Forall_Forall2_diag, Forall_forall. intros q Hq. unfold compose.
  destruct (Z.eqb_spec (p_id q)
    (p_id (syncDerivedLifecycleFields (r_now req) (Some p) (set_status t p)))) as [E|E]; [|by left].
  rewrite hook_id in E. simpl in E. assert (q = p) as -> by (by eapply unique_id).
  right. autorewrite with fields. simpl. split_and!; try done.
  intros Hok. by apply save_preserves_ok.
Qed.

Lemma admin_change_refl req c : Forall2 (admin_change req) c c.
Proof. apply Forall_Forall2_diag, Forall_forall. intros; by left. Qed.

(** A single admin status change, on a collection whose ids are unique:
    it never throws, changes at most documents of the caller's school that are
    not soft-deleted, and only along an edge of the admin transition table,
    keeping the three lifecycle fields in agreement; it appends exactly one
    audit entry when it answers with the payment and changes nothing at all
    otherwise. *)
Theorem updatePaymentStatus_safe req h s r d d' resp :
  unique_ids (payments d) ->
  updatePaymentStatus req h s r d = (d', resp) ->
  Forall2 (admin_change req) (payments d) (payments d') /\
  unique_ids (payments d') /\
  match resp with
  | Json p => exists e, audit d' = audit d ++ [e] /\ a_schoolId e = r_schoolId req
                        /\ a_targetId e = h /\ a_to e = p_status p
  | NextThrown _ => False
  | _ => d' = d
  end.
Proof.
  intros Hu. unfold updatePaymentStatus.
  destruct (validateStatusChange s r).
  { intros [= <- <-]. split_and!; [apply admin_change_refl|done|done]. }
  destruct (applyStatusTransition req h s r d) as [d1 o] eqn:Ea.
  destruct (applyStatusTransition_total req h s r d) as (d2 & o2 & E2).
  rewrite E2 in Ea. injection Ea as <- <-.
  pose proof (applyStatusTransition_spec req h s r d _ _ Hu E2) as Hspec.
  destruct (List.find (visible req h) (payments d)) as [p|] eqn:Ef.
  - destruct Hspec as [(t & Ht & Hst & -> & Hp & e & He & He1 & He2)|(-> & -> & _)].
    + intros [= <- <-]. rewrite Hp. split_and!.
      * by eapply save_admin_change.
      * unfold unique_ids. by rewrite save_ids.
      * unfold applyStatusTransition in E2. rewrite find_tx, Ef in E2.
        case_match; [|by injection E2]. injection E2 as <- _. simpl in *.
        exists e. apply app_inv_head in He. injection He as <-. simpl in *.
        by rewrite hook_status.
    + intros [= <- <-]. split_and!; [apply admin_change_refl|done|done].
  - destruct Hspec as [-> ->]. intros [= <- <-]. split_and!; [apply admin_change_refl|done|done].
Qed.

(** The bulk loop is the sequence of single transitions. *)
Definition single_item (h : string) (o : outcome) : bulk_item :=
  match o with Done _ prev => Updated h prev | Refused c => NotUpdated h c end.

Fixpoint singles (req : request) (s r : string) (hs : list string) (d : db)
  : db * list (string * outcome) :=
  match hs with
  | [] => (d, [])
  | h :: hs' =>
    match applyStatusTransition req h s r d with
    | (d', Ok o) => let '(d'', l) := singles req s r hs' d' in (d'', (h, o) :: l)
    | (d', Throw _) => (d', [])
    end
  end.

Lemma bulk_loop_singles req s r hs acc d :
  bulk_loop req s r hs acc d
  = let '(d', l) := singles req s r hs d in
    (d', Ok (acc ++ ((fun ho => single_item ho.1 ho.2) <$> l))).
Proof.
  revert acc d. induction hs as [|h hs IH]; intros acc d; simpl; [by rewrite app_nil_r|].
  destruct (applyStatusTransition_total req h s r d) as (d1 & o & ->).
  destruct o as [p prev|c]; rewrite IH; destruct (singles req s r hs d1) as [d2 l];
    simpl; rewrite <- app_assoc; done.
Qed.

Lemma singles_length req s r hs d : length (singles req s r hs d).2 = length hs.
Proof.
  revert d. induction hs as [|h hs IH]; intros d; simpl; [done|].
  destruct (applyStatusTransition_total req h s r d) as (d1 & o & ->).
  specialize (IH d1). destruct (singles req s r hs d1). simpl in *. congruence.
Qed.

Lemma singles_count req s r hs d :
  length (List.filter item_updated ((fun ho => single_item ho.1 ho.2) <$> (singles req s r hs d).2))
  = length (List.filter (fun ho => ok ho.2) (singles req s r hs d).2).
Proof.
  induction (singles req s r hs d).2 as [|[h o] l IH]; simpl; [done|].
  destruct o; simpl; [f_equal|]; exact IH.
Qed.

(** An accepted bulk update is exactly the sequence of single transitions in
    request order (same final database, one result per hash with the single
    transition's own verdict); [requested] is the number of hashes, [updated]
    the number of successes, and [updated + failed = requested]. *)
Theorem bulk_is_singles limit req hs s r d :
  validateTxHashes limit (Some (Some <$> hs)) = None ->
  validateStatusChange s r = None ->
  bulkUpdatePaymentStatus limit req (Some (Some <$> hs)) s r d
  = let '(d', l) := singles req s r hs d in
    let n := Z.of_nat (length hs) in
    let k := Z.of_nat (length (List.filter (fun ho => ok ho.2) l)) in
    (d', BulkJson n k (n - k) ((fun ho => single_item ho.1 ho.2) <$> l)).
Proof.
  intros Hv Hs. unfold bulkUpdatePaymentStatus. rewrite Hv, Hs. simpl.
  assert (omap id (Some <$> hs) = hs) as -> by (clear; induction hs as [|h hs IH]; simpl; [done|f_equal; exact IH]).
  rewrite bulk_loop_singles. pose proof (singles_count req s r hs d) as Hc.
  destruct (singles req s r hs d) as [d' l]. simpl in *. by rewrite Hc.
Qed.

(** ** Witnesses *)

Definition sample_payment (i : Z) (h : string) (st : payment_status) : payment :=
  syncDerivedLifecycleFields 0 None
    (Payment i "SCH1" "STU1" h 0 (of_Z 10) (Some "XLM") st false
       Confirmation.DETECTED Confirmation.pending_confirmation None None).
Definition sample_req : request := Request "SCH1" (Some "admin") 7.

Lemma updatePaymentStatus_safe_witness :
  let d := Db [sample_payment 1 "aa" S_FAILED; sample_payment 2 "bb" S_SUCCESS] [] in
  Forall2 (admin_change sample_req) (payments d)
    (payments (updatePaymentStatus sample_req "aa" "SUCCESS" "found" d).1).
Proof.
  intros d. eapply (updatePaymentStatus_safe sample_req "aa" "SUCCESS" "found" d).
  - apply NoDup_cons; split; [|apply NoDup_singleton]. intros H%list_elem_of_singleton. discriminate.
  - apply surjective_pairing.
Defined.

Lemma bulk_is_singles_witness :
  let d := Db [sample_payment 1 "aa" S_FAILED; sample_payment 2 "bb" S_REFUNDED] [] in
  (bulkUpdatePaymentStatus 100 sample_req (Some (Some <$> ["aa"; "bb"; "cc"])) "SUCCESS" "found" d).2
  = BulkJson 3 1 2 [Updated "aa" S_FAILED; NotUpdated "bb" INVALID_TRANSITION;
                    NotUpdated "cc" NOT_FOUND].
Proof. intros d. rewrite bulk_is_singles by reflexivity. reflexivity. Defined.

End PaymentAdmin.
