(* ===== verification/DistributedLock.v ===== *)
(** The distributed lock with fencing tokens:
    backend/src/services/distributedLock.js, with its three Lua scripts run by a
    Redis server (a keyspace of values with optional expiry and a clock) and its
    in-process fallback (the [localLocks] map).  A Redis call may fail before or
    after the server applied it; both outcomes are modelled. *)

From Stdlib Require Import ZArith Lia Sorting.Sorted.
From stdpp Require Import base list strings gmap.
From S2P Require Import Prelude JsString.
Local Open Scope string_scope.
Local Open Scope Z_scope.

Module DistributedLock.

(** ** The Redis server *)

Inductive rval := VTok (s : string) | VInt (n : Z).

(** The string Redis stores for a value. *)
Definition rtext (v : rval) : string :=
  match v with VTok s => s | VInt n => Z_to_string n end.

Record entry := Entry { e_val : rval; e_exp : option Z }.

Record redis := Redis { store : gmap string entry; clock : Z }.

Definition live (now : Z) (e : entry) : bool :=
  match e_exp e with None => true | Some t => now <? t end.

Definition rget (k : string) (r : redis) : option entry :=
  match store r !! k with
  | Some e => if live (clock r) e then Some e else None
  | None => None
  end.

Definition rset (k : string) (e : entry) (r : redis) : redis :=
  Redis (<[k := e]> (store r)) (clock r).
Definition rdel (k : string) (r : redis) : redis :=
  Redis (delete k (store r)) (clock r).
Definition tick (dt : Z) (r : redis) : redis := Redis (store r) (clock r + dt).

(** [INCR]: fails on a value that is not an integer, keeps a key's expiry. *)
Definition incr (k : string) (r : redis) : option (Z * redis) :=
  match rget k r with
  | None => Some (1, rset k (Entry (VInt 1) None) r)
  | Some (Entry (VInt n) x) => Some (n + 1, rset k (Entry (VInt (n + 1)) x) r)
  | Some (Entry (VTok _) _) => None
  end.

(** ** The Lua scripts; [None] as the outer option is a script error *)

Definition ACQUIRE_WITH_FENCE_SCRIPT (lock_key fence_key lock_value : string) (ttl : Z) (r : redis)
  : redis * option (option Z) :=
  let held := match rget lock_key r with
              | Some e => negb (bool_decide (rtext (e_val e) = ""))
              | None => false
              end in
  if held then (r, Some None)
  else match incr fence_key r with
       | None => (r, None)
       | Some (fence, r1) =>
         (rset lock_key (Entry (VTok lock_value) (Some (clock r1 + ttl))) r1, Some (Some fence))
       end.

Definition owned (k token : string) (r : redis) : bool :=
  match rget k r with
  | Some e => bool_decide (rtext (e_val e) = token)
  | None => false
  end.

Definition RELEASE_SCRIPT (k token : string) (r : redis) : redis * Z :=
  if owned k token r then (rdel k r, 1) else (r, 0).

Definition RENEW_SCRIPT (k token : string) (ttl : Z) (r : redis) : redis * Z :=
  match rget k r with
  | Some e => if bool_decide (rtext (e_val e) = token)
              then (rset k (Entry (e_val e) (Some (clock r + ttl))) r, 1) else (r, 0)
  | None => (r, 0)
  end.

(** How a call to the client ends: normally, or with an error that leaves the
    command applied or not. *)
Inductive fault := NoFault | LostRequest | LostReply.

(** ** The module's functions with a Redis client *)

Definition FENCE_PREFIX : string := "__fence__:".
Definition getFenceKey (key : string) : string := (FENCE_PREFIX ++ key)%string.
Definition studentBalanceLockKey (schoolId studentId : string) : string :=
  ("sync:lock:" ++ schoolId ++ ":student:" ++ studentId)%string.

Record acquired := Acquired { a_token : string; a_fencingToken : Z }.

(** [token] is the answer of [newToken]. *)
Definition acquire_redis (f : fault) (token key : string) (ttlMs : Z) (r : redis)
  : redis * option acquired :=
  match f with
  | LostRequest => (r, None)
  | LostReply => ((ACQUIRE_WITH_FENCE_SCRIPT key (getFenceKey key) token ttlMs r).1, None)
  | NoFault =>
    match ACQUIRE_WITH_FENCE_SCRIPT key (getFenceKey key) token ttlMs r with
    | (r', Some (Some fence)) => (r', Some (Acquired token fence))
    | (r', Some None) => (r', None)
    | (r', None) => (r', None)
    end
  end.

Definition release_redis (f : fault) (key token : string) (r : redis) : redis * bool :=
  if negb (str_truthy token) then (r, false) else
  match f with
  | LostRequest => (r, false)
  | LostReply => ((RELEASE_SCRIPT key token r).1, false)
  | NoFault => let '(r', res) := RELEASE_SCRIPT key token r in (r', res =? 1)
  end.

Definition renew_redis (f : fault) (key token : string) (ttlMs : Z) (r : redis) : redis * bool :=
  if negb (str_truthy token) then (r, false) else
  match f with
  | LostRequest => (r, false)
  | LostReply => ((RENEW_SCRIPT key token ttlMs r).1, false)
  | NoFault => let '(r', res) := RENEW_SCRIPT key token ttlMs r in (r', res =? 1)
  end.

(** [parseInt] of the stored text: an integer, or the digits a token starts with. *)
Definition getCurrentFence_redis (key : string) (r : redis) : option Z :=
  match rget (getFenceKey key) r with
  | Some (Entry (VInt n) _) => Some n
  | Some (Entry (VTok s) _) => Some (digits_val (span_digits (chars s)).1)
  | None => None
  end.

(** ** The in-process fallback *)

(** [localLocks] holds lock records and, under the fence keys, bare counters
    (no token, no expiry: [undefined > now] is false). *)
Record local_rec := LocalRec {
  l_token : option string; l_fencingToken : Z; l_expiresAt : option Z }.

Abbreviation localLocks := (gmap string local_rec).

Definition expires_after (now : Z) (x : local_rec) : bool :=
  match l_expiresAt x with Some t => now <? t | None => false end.

Definition acquire_local (now : Z) (token key : string) (ttlMs : Z) (m : localLocks)
  : localLocks * option acquired :=
  let held := match m !! key with Some x => expires_after now x | None => false end in
  if held then (m, None) else
  let fenceCounter := match m !! getFenceKey key with
                      | Some x => l_fencingToken x + 1
                      | None => 1
                      end in
  let m := <[getFenceKey key := LocalRec None fenceCounter None]> m in
  let m := <[key := LocalRec (Some token) fenceCounter (Some (now + ttlMs))]> m in
  (m, Some (Acquired token fenceCounter)).

Definition release_local (key token : string) (m : localLocks) : localLocks * bool :=
  if negb (str_truthy token) then (m, false) else
  match m !! key with
  | Some x => if bool_decide (l_token x = Some token) then (delete key m, true) else (m, false)
  | None => (m, false)
  end.

Definition renew_local (now : Z) (key token : string) (ttlMs : Z) (m : localLocks)
  : localLocks * bool :=
  if negb (str_truthy token) then (m, false) else
  match m !! key with
  | Some x => if bool_decide (l_token x = Some token) && expires_after now x
              then (<[key := LocalRec (l_token x) (l_fencingToken x) (Some (now + ttlMs))]> m, true)
              else (m, false)
  | None => (m, false)
  end.

Definition getCurrentFence_local (key : string) (m : localLocks) : option Z :=
  l_fencingToken <$> m !! key.

(** ** Watchdog and [withLock] (with Redis) *)

(** One firing of the watchdog's timer: the new [stopped] flag. *)
Definition watchdog_tick (f : fault) (key token : string) (ttlMs : Z) (stopped : bool) (r : redis)
  : redis * bool :=
  if stopped then (r, true) else
  let '(r', success) := renew_redis f key token ttlMs r in (r', negb success).

(** [fn] is the protected section, with whatever happens to the server while it
    runs; it may throw, and the lock is released either way. *)
Definition withLock {E A} (f_acq f_rel : fault) (token key : string) (ttlMs : Z)
  (fn : string -> Z -> redis -> redis * result E A) (r : redis)
  : redis * result E (option (A * Z)) :=
  match acquire_redis f_acq token key ttlMs r with
  | (r1, None) => (r1, Ok None)
  | (r1, Some a) =>
    let '(r2, res) := fn (a_token a) (a_fencingToken a) r1 in
    let '(r3, _) := release_redis f_rel key (a_token a) r2 in
    (r3, match res with Ok x => Ok (Some (x, a_fencingToken a)) | Throw e => Throw e end)
  end.

(** ** Executions *)

Inductive event :=
| EvAcquire (f : fault) (token key : string) (ttl : Z)
| EvRelease (f : fault) (key token : string)
| EvRenew (f : fault) (key token : string) (ttl : Z)
| EvTick (dt : Z).

(** The answer of an event: the fencing token of a successful acquisition. *)
Definition exec (ev : event) (r : redis) : redis * option acquired :=
  match ev with
  | EvAcquire f token key ttl => acquire_redis f token key ttl r
  | EvRelease f key token => ((release_redis f key token r).1, None)
  | EvRenew f key token ttl => ((renew_redis f key token ttl r).1, None)
  | EvTick dt => (tick dt r, None)
  end.

Fixpoint run (evs : list event) (r : redis) : redis * list (option acquired) :=
  match evs with
  | [] => (r, [])
  | ev :: evs' =>
    let '(r1, o) := exec ev r in
    let '(r2, os) := run evs' r1 in (r2, o :: os)
  end.

(** ** Key discipline *)

Definition is_fence_key (k : string) : bool := starts_with (chars FENCE_PREFIX) (chars k).

Lemma fence_key_is k : is_fence_key (getFenceKey k) = true.
Proof. reflexivity. Qed.

Lemma fence_key_inj k k' : getFenceKey k = getFenceKey k' -> k = k'.
Proof. intros H. by injection H. Qed.

Lemma fence_key_ne k k' : is_fence_key k = false -> getFenceKey k' <> k.
Proof. intros H <-. by rewrite fence_key_is in H. Qed.

Lemma fence_key_ne' k k' : is_fence_key k = false -> k <> getFenceKey k'.
Proof. intros H ->. by rewrite fence_key_is in H. Qed.

(** The server as this module leaves it: lock keys hold non-empty tokens, fence
    keys hold counters that never expire. *)
Record wf (r : redis) : Prop := {
  wf_lock : forall k e, is_fence_key k = false -> store r !! k = Some e ->
    exists t, e_val e = VTok t /\ t <> "" /\ is_Some (e_exp e);
  wf_fence : forall k e, store r !! getFenceKey k = Some e ->
    exists n, e = Entry (VInt n) None;
}.

Definition ev_ok (ev : event) : Prop :=
  match ev with
  | EvAcquire _ token key _ => is_fence_key key = false /\ token <> ""
  | EvRelease _ key _ | EvRenew _ key _ _ => is_fence_key key = false
  | EvTick dt => 0 <= dt
  end.

Definition fence_of (k : string) (r : redis) : Z :=
  match store r !! getFenceKey k with Some (Entry (VInt n) _) => n | _ => 0 end.

Lemma str_truthy_ne t : t <> "" -> str_truthy t = true.
Proof. by destruct t. Qed.

Lemma rget_some k r e : rget k r = Some e -> store r !! k = Some e /\ live (clock r) e = true.
Proof. unfold rget. intros. crush_match. Qed.

(** *** The three scripts, by cases *)

Lemma acquire_script_spec key token ttl r r' res :
  wf r -> ACQUIRE_WITH_FENCE_SCRIPT key (getFenceKey key) token ttl r = (r', res) ->
  (r' = r /\ (res = None \/ res = Some None)) \/
  (rget key r = None \/ exists e, rget key r = Some e /\ rtext (e_val e) = "") /\
  res = Some (Some (fence_of key r + 1)) /\
  r' = rset key (Entry (VTok token) (Some (clock r + ttl)))
         (rset (getFenceKey key) (Entry (VInt (fence_of key r + 1)) None) r).
Proof.
  intros Hwf. unfold ACQUIRE_WITH_FENCE_SCRIPT.
  destruct (match rget key r with Some e => _ | None => _ end) eqn:Hheld.
  { intros [= <- <-]. left. auto. }
  assert (incr (getFenceKey key) r
    = Some (fence_of key r + 1, rset (getFenceKey key) (Entry (VInt (fence_of key r + 1)) None) r)) as ->.
  { unfold incr, fence_of, rget. destruct (store r !! getFenceKey key) as [e|] eqn:E; [|done].
    destruct (wf_fence r Hwf _ _ E) as [n ->]. done. }
  intros [= <- <-]. right. split; [|done].
  destruct (rget key r) as [e|]; [right|by left].
  exists e. split; [done|]. by apply negb_false_iff, bool_decide_eq_true in Hheld.
Qed.

Lemma acquire_script_free key token ttl r :
  wf r -> rget key r = None ->
  ACQUIRE_WITH_FENCE_SCRIPT key (getFenceKey key) token ttl r
  = (rset key (Entry (VTok token) (Some (clock r + ttl)))
       (rset (getFenceKey key) (Entry (VInt (fence_of key r + 1)) None) r),
     Some (Some (fence_of key r + 1))).
Proof.
  intros Hwf Hg. unfold ACQUIRE_WITH_FENCE_SCRIPT. rewrite Hg.
  unfold incr, fence_of, rget. destruct (store r !! getFenceKey key) as [e|] eqn:E; [|done].
  by destruct (wf_fence r Hwf _ _ E) as [n ->].
Qed.

Lemma acquire_script_held key token ttl r e :
  rget key r = Some e -> rtext (e_val e) <> "" ->
  ACQUIRE_WITH_FENCE_SCRIPT key (getFenceKey key) token ttl r = (r, Some None).
Proof.
  intros Hg Hne. unfold ACQUIRE_WITH_FENCE_SCRIPT. rewrite Hg.
  by rewrite bool_decide_eq_false_2.
Qed.

Lemma wf_rset_lock r key token x :
  wf r -> is_fence_key key = false -> token <> "" ->
  wf (rset key (Entry (VTok token) (Some x)) r).
Proof.
  intros [Hl Hf] Hk Ht. split; simpl.
  - intros k e Hnf. rewrite lookup_insert_Some. intros [[<- <-]|[_ H]]; eauto.
  - intros k e. rewrite lookup_insert_ne by (by apply fence_key_ne'). eauto.
Qed.

Lemma wf_rset_fence r key n : wf r -> wf (rset (getFenceKey key) (Entry (VInt n) None) r).
Proof.
  intros [Hl Hf]. split; simpl.
  - intros k e Hnf. rewrite lookup_insert_ne by (by apply fence_key_ne). eauto.
  - intros k e. rewrite lookup_insert_Some. intros [[_ <-]|[_ H]]; eauto.
Qed.

Lemma wf_rdel r key : wf r -> is_fence_key key = false -> wf (rdel key r).
Proof.
  intros [Hl Hf] Hk. split; simpl; intros k e.
  - intros Hnf [_ H]%lookup_delete_Some. eauto.
  - intros [_ H]%lookup_delete_Some. eauto.
Qed.

Lemma wf_tick r dt : wf r -> wf (tick dt r).
Proof. intros [Hl Hf]. by split. Qed.

Lemma wf_init t : wf (Redis ∅ t).
Proof. split; simpl; intros *; by rewrite lookup_empty. Qed.

#[local] Hint Resolve wf_rset_lock wf_rset_fence wf_rdel wf_tick : edupay.

(** A call's effect on the server is nothing or its script's effect. *)
Lemma acquire_redis_cases f token key ttl r r' o :
  acquire_redis f token key ttl r = (r', o) ->
  (r' = r /\ o = None) \/
  (r' = (ACQUIRE_WITH_FENCE_SCRIPT key (getFenceKey key) token ttl r).1 /\
   (o = None \/ exists n, o = Some (Acquired token n) /\
      (ACQUIRE_WITH_FENCE_SCRIPT key (getFenceKey key) token ttl r).2 = Some (Some n))).
Proof.
  unfold acquire_redis.
  destruct (ACQUIRE_WITH_FENCE_SCRIPT key (getFenceKey key) token ttl r) as [r1 [[n|]|]];
    destruct f; intros [= <- <-]; eauto 10.
Qed.

Lemma release_redis_cases f key token r :
  (release_redis f key token r).1 = r \/
  (owned key token r = true /\ (release_redis f key token r).1 = rdel key r).
Proof.
  unfold release_redis, RELEASE_SCRIPT. destruct (negb _), f, (owned key token r); simpl; auto.
Qed.

Lemma renew_redis_cases f key token ttl r :
  (renew_redis f key token ttl r).1 = r \/
  exists e, rget key r = Some e /\ rtext (e_val e) = token /\
    (renew_redis f key token ttl r).1 = rset key (Entry (e_val e) (Some (clock r + ttl))) r.
Proof.
  unfold renew_redis, RENEW_SCRIPT. destruct (negb _), f; simpl; auto;
    destruct (rget key r) as [e|]; simpl; auto; case_bool_decide; simpl; eauto.
Qed.

Lemma exec_wf ev r : wf r -> ev_ok ev -> wf (exec ev r).1.
Proof.
  intros Hwf Hok. destruct ev as [f token key ttl|f key token|f key token ttl|dt]; simpl in *.
  - destruct Hok as [Hk Ht]. destruct (acquire_redis f token key ttl r) as [r' o] eqn:E. simpl.
    apply acquire_redis_cases in E as [[-> _]|[-> _]]; [done|].
    destruct (ACQUIRE_WITH_FENCE_SCRIPT _ _ _ _ _) as [r1 res] eqn:E.
    apply acquire_script_spec in E as [[-> _]|(_ & _ & ->)]; simpl; auto with edupay.
  - destruct (release_redis_cases f key token r) as [->|[_ ->]]; auto with edupay.
  - destruct (renew_redis_cases f key token ttl r) as [->|(e & He & _ & ->)]; [done|].
    apply rget_some in He as [He _]. destruct (wf_lock r Hwf _ _ Hok He) as (t & -> & Ht & _).
    auto with edupay.
  - auto with edupay.
Qed.

(** *** Fencing *)

(** The fencing tokens handed out for [k], in order. *)
Fixpoint fences (k : string) (evs : list event) (os : list (option acquired)) : list Z :=
  match evs, os with
  | EvAcquire _ _ key _ :: evs', o :: os' =>
    match o with
    | Some a => if bool_decide (key = k) then a_fencingToken a :: fences k evs' os'
                else fences k evs' os'
    | None => fences k evs' os'
    end
  | _ :: evs', _ :: os' => fences k evs' os'
  | _, _ => []
  end.

Lemma fence_of_rset_lock k key e r :
  is_fence_key key = false -> fence_of k (rset key e r) = fence_of k r.
Proof.
  intros Hk. unfold fence_of. simpl.
  by rewrite lookup_insert_ne by (by apply fence_key_ne').
Qed.

Lemma fence_of_rset_fence k key n r :
  fence_of k (rset (getFenceKey key) (Entry (VInt n) None) r)
  = if bool_decide (key = k) then n else fence_of k r.
Proof.
  unfold fence_of. simpl. case_bool_decide as E.
  - subst. by rewrite lookup_insert_eq.
  - rewrite lookup_insert_ne; [done|]. by intros ?%fence_key_inj.
Qed.

Lemma fence_of_rdel k key r : is_fence_key key = false -> fence_of k (rdel key r) = fence_of k r.
Proof.
  intros Hk. unfold fence_of. simpl.
  by rewrite lookup_delete_ne by (by apply fence_key_ne').
Qed.

Lemma exec_fence ev r k : wf r -> ev_ok ev ->
  fence_of k r <= fence_of k (exec ev r).1 /\
  (forall f t ttl a, ev = EvAcquire f t k ttl -> (exec ev r).2 = Some a ->
     fence_of k r < a_fencingToken a /\ fence_of k (exec ev r).1 = a_fencingToken a).
Proof.
  intros Hwf Hok. destruct ev as [f token key ttl|f key token|f key token ttl|dt]; simpl in *;
    (split; [|try done]).
  - destruct Hok as [Hk _]. destruct (acquire_redis f token key ttl r) as [r' o] eqn:E. simpl.
    apply acquire_redis_cases in E as [[-> _]|[-> _]]; [lia|].
    destruct (ACQUIRE_WITH_FENCE_SCRIPT _ _ _ _ _) as [r1 res] eqn:E.
    apply acquire_script_spec in E as [[-> _]|(_ & _ & ->)]; [simpl; lia| |done].
    simpl. rewrite fence_of_rset_lock by done. rewrite fence_of_rset_fence.
    case_bool_decide; [subst|]; lia.
  - intros f' t ttl' a [= <- <- -> <-]. destruct Hok as [Hk _].
    destruct (acquire_redis f token k ttl r) as [r' o] eqn:E. simpl. intros ->.
    apply acquire_redis_cases in E as [[_ [=]]|[-> [[=]|(n & [= ->] & Hn)]]].
    destruct (ACQUIRE_WITH_FENCE_SCRIPT _ _ _ _ _) as [r1 res] eqn:E. simpl in *. subst res.
    apply acquire_script_spec in E as [[_ [[=]|[=]]]|(_ & [= ->] & ->)]; [|done].
    rewrite fence_of_rset_lock by done. rewrite fence_of_rset_fence.
    rewrite bool_decide_eq_true_2 by done. simpl. lia.
  - destruct (release_redis_cases f key token r) as [->|[_ ->]]; [lia|].
    rewrite fence_of_rdel by done. lia.
  - destruct (renew_redis_cases f key token ttl r) as [->|(e & _ & _ & ->)]; [lia|].
    rewrite fence_of_rset_lock by done. lia.
  - done.
Qed.

Lemma fences_increasing k evs r r' os :
  wf r -> Forall ev_ok evs -> run evs r = (r', os) ->
  StronglySorted Z.lt (fence_of k r :: fences k evs os) /\
  Forall (fun n => n <= fence_of k r') (fence_of k r :: fences k evs os).
Proof.
  intros Hwf Hok. revert r r' os Hwf. induction Hok as [|ev evs Hev Hok IH]; intros r r' os Hwf; simpl.
  { intros [= <- <-]. repeat constructor. simpl. lia. }
  destruct (exec ev r) as [r1 o] eqn:Ee. destruct (run evs r1) as [r2 os'] eqn:Er.
  intros [= <- <-].
  pose proof (exec_wf ev r Hwf Hev) as Hwf1. pose proof (exec_fence ev r k Hwf Hev) as [Hle Hacq].
  rewrite Ee in *. simpl in *.
  destruct (IH r1 r2 os' Hwf1 Er) as [Hs Hb]. inversion Hs as [|? ? Hs' Hf']; subst.
  apply Forall_cons in Hb as [Hb0 Hb].
  assert (Forall (Z.lt (fence_of k r)) (fences k evs os')) as Hlt.
  { eapply Forall_impl; [exact Hf'|]. simpl. intros; lia. }
  destruct ev as [f t key ttl| | |]; simpl in *; try (by repeat constructor; auto; lia).
  destruct o as [a|]; [|by repeat constructor; auto; lia].
  case_bool_decide as E; [|by repeat constructor; auto; lia]. subst key.
  destruct (Hacq f t ttl a eq_refl eq_refl) as [Hlt' Heq]. rewrite Heq in *.
  repeat constructor; auto; lia.
Qed.

(** In every execution of any number of clients (with failed calls whose
    effect may or may not have reached the server), the fencing tokens handed
    out for one key strictly increase, starting above the server's counter, and
    a later reader of the counter never sees less than any of them. *)
Theorem fencing_tokens_increase k evs r r' os :
  wf r -> Forall ev_ok evs -> run evs r = (r', os) ->
  StronglySorted Z.lt (fence_of k r :: fences k evs os) /\
  Forall (fun n => n <= fence_of k r') (fences k evs os).
Proof.
  intros Hwf Hok Hr. destruct (fences_increasing k evs r r' os Hwf Hok Hr) as [H1 H2].
  split; [done|]. by apply Forall_cons in H2 as [_ H2].
Qed.

(** *** Mutual exclusion *)

Definition elapsed (evs : list event) : Z :=
  foldr (fun ev a => match ev with EvTick dt => dt + a | _ => a end) 0 evs.

(** The holder neither releases nor shortens its own lease. *)
Definition keeps (key token : string) (ttl : Z) (ev : event) : Prop :=
  match ev with
  | EvRelease _ k t => ~ (k = key /\ t = token)
  | EvRenew _ k t ttl' => k = key -> t = token -> ttl <= ttl'
  | EvTick dt => 0 <= dt
  | EvAcquire _ _ _ _ => True
  end.

Definition held_by (key token : string) (r : redis) (until_ : Z) : Prop :=
  exists x, store r !! key = Some (Entry (VTok token) (Some x)) /\ until_ < x.

Lemma held_rget key token r u : held_by key token r u -> clock r <= u ->
  exists x, rget key r = Some (Entry (VTok token) (Some x)) /\ u < x.
Proof.
  intros (x & Hx & Hlt) Hc. exists x. unfold rget. rewrite Hx. unfold live. simpl.
  destruct (Z.ltb_spec (clock r) x); [done|lia].
Qed.

Lemma held_rset_ne key key' e token r u :
  key' <> key -> held_by key token r u -> held_by key token (rset key' e r) u.
Proof. intros Hne (x & Hx & Hlt). exists x. simpl. by rewrite lookup_insert_ne. Qed.

Lemma exec_keeps key token ttl ev r u :
  is_fence_key key = false -> token <> "" -> keeps key token ttl ev -> wf r ->
  held_by key token r u -> clock r <= u -> u < clock r + ttl ->
  held_by key token (exec ev r).1 u /\
  (forall f t ttl', ev = EvAcquire f t key ttl' -> (exec ev r).2 = None).
Proof.
  intros Hk Ht Hkeep Hwf Hh Hc Hu. destruct (held_rget _ _ _ _ Hh Hc) as (x & Hg & Hx).
  destruct ev as [f t k ttl'|f k t|f k t ttl'|dt]; simpl in *.
  - destruct (decide (k = key)) as [->|Hne].
    + pose proof (acquire_script_held key t ttl' r _ Hg Ht) as Es.
      destruct (acquire_redis f t key ttl' r) as [r' o] eqn:E. simpl.
      apply acquire_redis_cases in E as [[-> ->]|[-> Ho]]; [done|]. rewrite Es in *. simpl in *.
      split; [done|]. intros * _. destruct Ho as [->|(n & _ & [=])]. done.
    + split; [|by intros ??? [=]].
      destruct (acquire_redis f t k ttl' r) as [r' o] eqn:E. simpl.
      apply acquire_redis_cases in E as [[-> _]|[-> _]]; [done|].
      destruct (ACQUIRE_WITH_FENCE_SCRIPT _ _ _ _ _) as [r1 res] eqn:E.
      apply acquire_script_spec in E as [[-> _]|(_ & _ & ->)]; [done| |done].
      simpl. apply held_rset_ne; [done|]. apply held_rset_ne; [by apply fence_key_ne|done].
  - split; [|done]. destruct (release_redis_cases f k t r) as [->|[Ho ->]]; [done|].
    destruct Hh as (y & Hy & Hlt). exists y. split; [|done]. simpl.
    destruct (decide (k = key)) as [->|Hne]; [|by rewrite lookup_delete_ne].
    exfalso. apply Hkeep. split; [done|]. unfold owned in Ho. rewrite Hg in Ho.
    by apply bool_decide_eq_true in Ho.
  - split; [|done]. destruct (renew_redis_cases f k t ttl' r) as [->|(e & He & Het & ->)]; [done|].
    destruct (decide (k = key)) as [->|Hne]; [|by apply held_rset_ne].
    rewrite Hg in He. injection He as <-. simpl in *. exists (clock r + ttl').
    split; [simpl; by rewrite lookup_insert_eq|]. specialize (Hkeep eq_refl (eq_sym Het)). lia.
  - split; [|done]. destruct Hh as (y & Hy & Hlt). by exists y.
Qed.

Lemma clock_exec ev r : clock (exec ev r).1 = clock r + elapsed [ev].
Proof.
  destruct ev as [f t k ttl|f k t|f k t ttl|dt]; simpl.
  - unfold acquire_redis, ACQUIRE_WITH_FENCE_SCRIPT, incr.
    repeat (case_match; simplify_eq/=); lia.
  - destruct (release_redis_cases f k t r) as [->|[_ ->]]; simpl; lia.
  - destruct (renew_redis_cases f k t ttl r) as [->|(e & _ & _ & ->)]; simpl; lia.
  - lia.
Qed.

Lemma elapsed_nonneg key token ttl evs : Forall (keeps key token ttl) evs -> 0 <= elapsed evs.
Proof. induction 1 as [|ev evs Hev _ IH]; simpl; [lia|]. destruct ev; simpl in *; lia. Qed.

Lemma run_keeps key token ttl evs r r' os :
  is_fence_key key = false -> token <> "" ->
  wf r -> Forall ev_ok evs -> Forall (keeps key token ttl) evs ->
  held_by key token r (clock r + elapsed evs) -> elapsed evs < ttl ->
  run evs r = (r', os) ->
  held_by key token r' (clock r') /\ fences key evs os = [].
Proof.
  intros Hk Ht Hwf Hok Hkeep. revert r r' os Hwf.
  induction Hkeep as [|ev evs Hev Hkeep IH]; intros r r' os Hwf Hh Hlt; simpl.
  { intros [= <- <-]. simpl in Hh. by rewrite Z.add_0_r in Hh. }
  apply Forall_cons in Hok as [Hok1 Hok].
  destruct (exec ev r) as [r1 o] eqn:Ee. destruct (run evs r1) as [r2 os'] eqn:Er.
  intros [= <- <-].
  assert (elapsed (ev :: evs) = elapsed [ev] + elapsed evs) as El by (destruct ev; simpl; lia).
  pose proof (elapsed_nonneg _ _ _ _ Hkeep) as Hn.
  assert (0 <= elapsed [ev]) as Hn1 by (destruct ev; simpl in *; lia).
  pose proof (clock_exec ev r) as Hc. pose proof (exec_wf ev r Hwf Hok1) as Hwf1.
  destruct (exec_keeps key token ttl ev r (clock r + elapsed (ev :: evs))) as [Hh1 Hnone];
    try done; [lia|lia|].
  rewrite Ee in *. cbn [fst snd] in Hc, Hh1, Hnone, Hwf1.
  destruct (IH Hok r1 r2 os' Hwf1) as [Hfin Hf]; [|lia|done|].
  { replace (clock r1 + elapsed evs) with (clock r + elapsed (ev :: evs)) by lia. done. }
  split; [done|]. destruct ev as [f t k ttl'| | |]; simpl; try done.
  destruct o as [a|]; [|done]. case_bool_decide as E; [|done]. subst k.
  specialize (Hnone f t ttl' eq_refl). discriminate.
Qed.

(** C5: mutual exclusion.  Once a client has acquired a key with a lease of [ttl]
    milliseconds, then in every execution of less than [ttl] milliseconds in
    which that client neither releases the lock nor renews it for a shorter
    lease, no other acquisition of the key succeeds, whatever the other clients
    do (releases and renewals with other tokens included), and the lock is still
    the client's at the end. *)
Theorem lock_mutual_exclusion key token ttl r r1 a evs r2 os :
  is_fence_key key = false -> token <> "" -> wf r ->
  acquire_redis NoFault token key ttl r = (r1, Some a) ->
  Forall ev_ok evs -> Forall (keeps key token ttl) evs -> elapsed evs < ttl ->
  run evs r1 = (r2, os) ->
  a_token a = token /\ fences key evs os = [] /\ owned key token r2 = true.
Proof.
  intros Hk Ht Hwf Ha Hok Hkeep Hlt Hrun.
  assert (ev_ok (EvAcquire NoFault token key ttl)) as Hok0 by done.
  pose proof (exec_wf _ r Hwf Hok0) as Hwf1. cbn [exec] in Hwf1. rewrite Ha in Hwf1. simpl in Hwf1.
  apply acquire_redis_cases in Ha as [[_ [=]]|[-> [[=]|(n & [= ->] & Hn)]]].
  destruct (ACQUIRE_WITH_FENCE_SCRIPT _ _ _ _ _) as [r1' res] eqn:E. simpl in *. subst res.
  apply acquire_script_spec in E as [[_ [[=]|[=]]]|(_ & [= ->] & ->)]; [|done].
  match type of Hrun with run _ ?s = _ =>
    assert (held_by key token s (clock s + elapsed evs)) as Hh0
  end.
  { eexists. simpl. rewrite lookup_insert_eq. split; [done|]. lia. }
  destruct (run_keeps key token ttl evs _ _ _ Hk Ht Hwf1 Hok Hkeep Hh0 Hlt Hrun) as [Hh Hf].
  split_and!; [done|done|]. destruct (held_rget _ _ _ _ Hh) as (x & Hg & _); [lia|].
  unfold owned. rewrite Hg. simpl. by apply bool_decide_eq_true.
Qed.

(** The lock is never stuck.  A key whose lease has run out, or that its
    holder has released, is acquired by the next call that reaches the server,
    with a fencing token greater than the counter; and only the holder's own
    token can release or renew it. *)
Theorem lock_takeover key token ttl r :
  wf r -> rget key r = None ->
  (exists r', acquire_redis NoFault token key ttl r
     = (r', Some (Acquired token (fence_of key r + 1)))) /\
  (forall t ttl', (release_redis NoFault key t r) = (r, false)
     /\ (renew_redis NoFault key t ttl' r) = (r, false)).
Proof.
  intros Hwf Hg. split.
  - unfold acquire_redis. rewrite acquire_script_free by done. eauto.
  - intros t ttl'. unfold release_redis, renew_redis, RELEASE_SCRIPT, RENEW_SCRIPT, owned.
    rewrite Hg. by destruct (negb (str_truthy t)).
Qed.

(** ** The in-process fallback implements the same lock *)

Definition local_view (now : Z) (x : option local_rec) : option (option string * option Z) :=
  match x with
  | Some x => if expires_after now x then Some (l_token x, l_expiresAt x) else None
  | None => None
  end.

Definition redis_view (e : option entry) : option (option string * option Z) :=
  match e with Some e => Some (Some (rtext (e_val e)), e_exp e) | None => None end.

(** The two stores agree on live locks and on counters, for every lock key. *)
Definition same_locks (m : localLocks) (r : redis) : Prop :=
  forall k, is_fence_key k = false ->
    local_view (clock r) (m !! k) = redis_view (rget k r) /\
    default 0 (l_fencingToken <$> m !! getFenceKey k) = fence_of k r.

Lemma rget_rset_eq k e r : rget k (rset k e r) = if live (clock r) e then Some e else None.
Proof. unfold rget. simpl. by rewrite lookup_insert_eq. Qed.
Lemma rget_rset_ne k k' e r : k' <> k -> rget k (rset k' e r) = rget k r.
Proof. intros. unfold rget. simpl. by rewrite lookup_insert_ne. Qed.

Lemma same_insert m r key x e :
  is_fence_key key = false -> same_locks m r ->
  local_view (clock r) (Some x) = redis_view (if live (clock r) e then Some e else None) ->
  same_locks (<[key := x]> m) (rset key e r).
Proof.
  intros Hk Hs Hv k Hnf. rewrite fence_of_rset_lock by done.
  rewrite (lookup_insert_ne m key (getFenceKey k)) by (by apply fence_key_ne').
  destruct (Hs k Hnf) as [H1 H2]. split; [|done].
  destruct (decide (key = k)) as [->|Hne].
  - rewrite lookup_insert_eq, rget_rset_eq. exact Hv.
  - rewrite lookup_insert_ne, rget_rset_ne by done. exact H1.
Qed.

Lemma same_fence m r key n :
  same_locks m r ->
  same_locks (<[getFenceKey key := LocalRec None n None]> m)
             (rset (getFenceKey key) (Entry (VInt n) None) r).
Proof.
  intros Hs k Hnf. pose proof (fence_key_ne k key Hnf) as Hne.
  rewrite (lookup_insert_ne m _ k), rget_rset_ne by done.
  destruct (Hs k Hnf) as [H1 H2]. split; [exact H1|]. rewrite fence_of_rset_fence.
  case_bool_decide as E.
  - subst k. by rewrite lookup_insert_eq.
  - rewrite lookup_insert_ne; [done|]. by intros ?%fence_key_inj.
Qed.

Lemma same_delete m r key :
  is_fence_key key = false -> same_locks m r -> same_locks (delete key m) (rdel key r).
Proof.
  intros Hk Hs k Hnf. destruct (Hs k Hnf) as [H1 H2]. rewrite fence_of_rdel by done.
  rewrite (lookup_delete_ne m key (getFenceKey k)) by (by apply fence_key_ne').
  split; [|done]. unfold rget. simpl. destruct (decide (key = k)) as [->|Hne].
  - by rewrite !lookup_delete_eq.
  - rewrite !lookup_delete_ne by done. exact H1.
Qed.

Lemma expires_live t n x now :
  local_view now (Some (LocalRec (Some t) n (Some x)))
  = redis_view (if live now (Entry (VTok t) (Some x)) then Some (Entry (VTok t) (Some x)) else None).
Proof. unfold local_view, expires_after, live. simpl. by destruct (now <? x). Qed.

Lemma acquire_local_same m r key token ttl :
  wf r -> is_fence_key key = false -> same_locks m r ->
  let '(m', o) := acquire_local (clock r) token key ttl m in
  let '(r', o') := acquire_redis NoFault token key ttl r in
  o = o' /\ same_locks m' r'.
Proof.
  intros Hwf Hk Hs. destruct (Hs key Hk) as [H1 H2].
  unfold acquire_local, acquire_redis.
  destruct (rget key r) as [e|] eqn:Hg.
  - pose proof (rget_some _ _ _ Hg) as [He _].
    destruct (wf_lock r Hwf _ _ Hk He) as (t & Hv & Ht & _).
    rewrite (acquire_script_held key token ttl r e Hg) by (by rewrite Hv).
    destruct (m !! key) as [x|]; simpl in H1; [|done].
    destruct (expires_after (clock r) x); [|done]. done.
  - rewrite acquire_script_free by done.
    assert (match m !! key with Some x => expires_after (clock r) x | None => false end = false) as ->.
    { destruct (m !! key) as [x|]; [|done]. simpl in H1. by destruct (expires_after (clock r) x). }
    assert (match m !! getFenceKey key with Some x => l_fencingToken x + 1 | None => 1 end
            = fence_of key r + 1) as ->.
    { rewrite <- H2. by destruct (m !! getFenceKey key). }
    split; [done|]. apply same_insert; [done|by apply same_fence|]. apply expires_live.
Qed.

Lemma renew_local_same m r key token ttl :
  wf r -> is_fence_key key = false -> token <> "" -> same_locks m r ->
  let '(m', b) := renew_local (clock r) key token ttl m in
  let '(r', b') := renew_redis NoFault key token ttl r in
  b = b' /\ same_locks m' r'.
Proof.
  intros Hwf Hk Ht Hs. destruct (Hs key Hk) as [H1 H2]. unfold renew_local, renew_redis, RENEW_SCRIPT.
  rewrite str_truthy_ne by done. simpl.
  destruct (m !! key) as [x|] eqn:Em; destruct (rget key r) as [e|] eqn:Hg; simpl in H1; try done.
  - destruct (expires_after (clock r) x) eqn:Ex; [|done]. injection H1 as Ht1 He1.
    rewrite andb_true_r, Ht1. pose proof (rget_some _ _ _ Hg) as [He _].
    destruct (wf_lock r Hwf _ _ Hk He) as (t & Hv & Htn & _). rewrite Hv in *. simpl in *.
    repeat case_bool_decide; try congruence; (split; [done|]); [|done].
    apply same_insert; [done|done|]. apply expires_live.
  - destruct (expires_after (clock r) x) eqn:Ex; [done|]. rewrite andb_false_r. done.
Qed.

Lemma release_local_same m r key token :
  wf r -> is_fence_key key = false -> token <> "" -> same_locks m r ->
  let '(m', b) := release_local key token m in
  let '(r', b') := release_redis NoFault key token r in
  (local_view (clock r) (m !! key) <> None -> b = b') /\ same_locks m' r'.
Proof.
  intros Hwf Hk Ht Hs. destruct (Hs key Hk) as [H1 H2]. unfold release_local, release_redis, RELEASE_SCRIPT, owned.
  rewrite str_truthy_ne by done. simpl.
  destruct (m !! key) as [x|] eqn:Em; destruct (rget key r) as [e|] eqn:Hg; simpl in *; try done.
  - destruct (expires_after (clock r) x) eqn:Ex; [|done]. injection H1 as Ht1 He1.
    rewrite Ht1. repeat case_bool_decide; try congruence; (split; [done|]); [|done].
    by apply same_delete.
  - destruct (expires_after (clock r) x) eqn:Ex; [done|]. case_bool_decide; split; try done.
    intros k Hnf. destruct (Hs k Hnf) as [H3 H4].
    rewrite (lookup_delete_ne m key (getFenceKey k)) by (by apply fence_key_ne').
    split; [|done]. destruct (decide (key = k)) as [->|Hne].
    + rewrite lookup_delete_eq, Hg. done.
    + by rewrite lookup_delete_ne.
Qed.

(** The in-process fallback refines the Redis lock: started from stores that
    agree on live locks and fence counters, every operation keeps them in
    agreement, and acquisitions and renewals give the same answer (a release
    does too while the lock is live; the fallback also answers [true] when the
    holder releases a lock that has already expired). *)
Theorem fallback_refines_redis m r key token ttl :
  wf r -> is_fence_key key = false -> token <> "" -> same_locks m r ->
  (let '(m', o) := acquire_local (clock r) token key ttl m in
   let '(r', o') := acquire_redis NoFault token key ttl r in o = o' /\ same_locks m' r') /\
  (let '(m', b) := renew_local (clock r) key token ttl m in
   let '(r', b') := renew_redis NoFault key token ttl r in b = b' /\ same_locks m' r') /\
  (let '(m', b) := release_local key token m in
   let '(r', b') := release_redis NoFault key token r in
   (local_view (clock r) (m !! key) <> None -> b = b') /\ same_locks m' r').
Proof.
  intros. split_and!;
    [by apply acquire_local_same|by apply renew_local_same|by apply release_local_same].
Qed.

(** The reader of the fence counter, documented to answer only while the lock
    is held, keeps answering with the last token after a release with Redis, and
    answers [null] with the fallback. *)
Theorem current_fence_after_release :
  let '(r1, a) := acquire_redis NoFault "t1" "sync:lock:S" 1000 (Redis ∅ 0) in
  let '(r2, b) := release_redis NoFault "sync:lock:S" "t1" r1 in
  let '(m1, a') := acquire_local 0 "t1" "sync:lock:S" 1000 ∅ in
  let '(m2, b') := release_local "sync:lock:S" "t1" m1 in
  b = true /\ b' = true /\ rget "sync:lock:S" r2 = None /\
  getCurrentFence_redis "sync:lock:S" r2 = Some 1 /\
  getCurrentFence_local "sync:lock:S" m2 = None.
Proof. vm_compute. repeat split. Qed.

(** ** Witnesses *)

Lemma fencing_tokens_increase_witness :
  let evs := [EvAcquire NoFault "t1" "k" 100; EvTick 100; EvAcquire LostReply "t2" "k" 5;
              EvTick 5; EvAcquire NoFault "t3" "k" 5] in
  let os := (run evs (Redis ∅ 0)).2 in
  fences "k" evs os = [1; 3] /\
  StronglySorted Z.lt (fence_of "k" (Redis ∅ 0) :: fences "k" evs os).
Proof.
  intros evs os. split; [reflexivity|].
  eapply (fencing_tokens_increase "k" evs (Redis ∅ 0)).
  - apply wf_init.
  - repeat constructor; simpl; done || lia.
  - apply surjective_pairing.
Defined.

Lemma lock_mutual_exclusion_witness :
  let r1 := (acquire_redis NoFault "t1" "k" 100 (Redis ∅ 0)).1 in
  let evs := [EvAcquire NoFault "t2" "k" 100; EvTick 60; EvRelease NoFault "k" "t2";
              EvRenew NoFault "k" "t1" 100; EvTick 30; EvAcquire NoFault "t3" "k" 9] in
  owned "k" "t1" (run evs r1).1 = true.
Proof.
  intros r1 evs.
  eapply (lock_mutual_exclusion "k" "t1" 100 (Redis ∅ 0) r1 (Acquired "t1" 1) evs).
  - reflexivity.
  - discriminate.
  - apply wf_init.
  - reflexivity.
  - repeat constructor; simpl; done || lia.
  - repeat constructor; simpl; try done; try lia. intros [_ E]. discriminate.
  - vm_compute. reflexivity.
  - apply surjective_pairing.
Defined.

Lemma lock_takeover_witness :
  exists r', acquire_redis NoFault "t2" "k" 5 (Redis ∅ 0) = (r', Some (Acquired "t2" 1)).
Proof.
  destruct (lock_takeover "k" "t2" 5 (Redis ∅ 0)) as [H _]; [apply wf_init|reflexivity|exact H].
Defined.

Lemma fallback_refines_redis_witness :
  (acquire_local 0 "t1" "k" 10 ∅).2 = (acquire_redis NoFault "t1" "k" 10 (Redis ∅ 0)).2.
Proof.
  pose proof (fallback_refines_redis ∅ (Redis ∅ 0) "k" "t1" 10) as H.
  destruct H as [H _]; [apply wf_init|reflexivity|discriminate| |].
  - intros k _. split; reflexivity.
  - exact (proj1 H).
Defined.

End DistributedLock.
