(* ===== verification/CircuitBreaker.v ===== *)
(** The generic circuit breaker of backend/src/utils/circuitBreaker.js, as a
    state record with one function per method, and histories of calls.  Times
    are the answers of [Date.now()], in milliseconds. *)

From Stdlib Require Import ZArith Lia.
From stdpp Require Import base list strings.
From S2P Require Import Prelude.
Local Open Scope Z_scope.

Inductive CB_STATE := CLOSED | OPEN | HALF_OPEN.

#[export] Instance CB_STATE_eq_dec : EqDecision CB_STATE.
Proof. solve_decision. Defined.

(** [option || default] for a numeric option. *)
Definition opt_or (o : option Z) (d : Z) : Z :=
  match o with Some z => if z =? 0 then d else z | None => d end.

Module CircuitBreaker.

Record breaker := Breaker {
  failureThreshold : Z;
  resetTimeoutMs : Z;
  successThreshold : Z;
  state : CB_STATE;
  failures : Z;
  halfOpenSuccesses : Z;
  openedAt : option Z;
  changes : list (CB_STATE * CB_STATE);  (** calls of [onStateChange], latest last *)
}.

Definition _cbStateNum (s : CB_STATE) : Z :=
  match s with CLOSED => 0 | OPEN => 1 | HALF_OPEN => 2 end.

Definition constructor (failureThreshold resetTimeoutMs successThreshold : option Z) : breaker :=
  Breaker (opt_or failureThreshold 5) (opt_or resetTimeoutMs 30000) (opt_or successThreshold 2)
    CLOSED 0 0 None [].

Definition _transition (newState : CB_STATE) (b : breaker) : breaker :=
  if bool_decide (newState = state b) then b
  else Breaker (failureThreshold b) (resetTimeoutMs b) (successThreshold b) newState
         (failures b) (halfOpenSuccesses b) (openedAt b) (changes b ++ [(state b, newState)]).

Definition set_counts (f h : Z) (o : option Z) (b : breaker) : breaker :=
  Breaker (failureThreshold b) (resetTimeoutMs b) (successThreshold b) (state b) f h o (changes b).

Definition isAvailable (now : Z) (b : breaker) : breaker * bool :=
  match state b with
  | CLOSED | HALF_OPEN => (b, true)
  | OPEN => if resetTimeoutMs b <=? now - default 0 (openedAt b)
            then (_transition HALF_OPEN b, true) else (b, false)
  end.

Definition recordSuccess (b : breaker) : breaker :=
  match state b with
  | HALF_OPEN =>
    let b := set_counts (failures b) (halfOpenSuccesses b + 1) (openedAt b) b in
    if successThreshold b <=? halfOpenSuccesses b
    then _transition CLOSED (set_counts 0 0 (openedAt b) b) else b
  | CLOSED => set_counts 0 (halfOpenSuccesses b) (openedAt b) b
  | OPEN => b
  end.

Definition recordFailure (now : Z) (b : breaker) : breaker :=
  let b := set_counts (failures b + 1) 0 (openedAt b) b in
  if bool_decide (state b = HALF_OPEN) || (failureThreshold b <=? failures b)
  then _transition OPEN (set_counts (failures b) (halfOpenSuccesses b) (Some now) b) else b.

Definition getStateNum (b : breaker) : Z := _cbStateNum (state b).
Definition getFailures (b : breaker) : Z := failures b.

Definition getTimeUntilRetry (now : Z) (b : breaker) : Z :=
  if negb (bool_decide (state b = OPEN)) then 0
  else Z.max 0 (resetTimeoutMs b - (now - default 0 (openedAt b))).

Definition reset (b : breaker) : breaker :=
  Breaker (failureThreshold b) (resetTimeoutMs b) (successThreshold b) CLOSED 0 0 None (changes b).

(** ** Histories of calls *)

Inductive call := Available (now : Z) | Success | Failure (now : Z).

Definition apply (c : call) (b : breaker) : breaker :=
  match c with
  | Available now => (isAvailable now b).1
  | Success => recordSuccess b
  | Failure now => recordFailure now b
  end.

(** The history, oldest call first. *)
Definition run (cs : list call) (b : breaker) : breaker := fold_left (fun b c => apply c b) cs b.

(** Successes since the last failure, failures since the last success, and the
    time of the last failure of a history. *)
Definition success_streak (cs : list call) : Z :=
  fold_left (fun n c => match c with Success => n + 1 | Failure _ => 0 | Available _ => n end) cs 0.
Definition failure_streak (cs : list call) : Z :=
  fold_left (fun n c => match c with Failure _ => n + 1 | Success => 0 | Available _ => n end) cs 0.
Definition last_failure (cs : list call) : option Z :=
  fold_left (fun o c => match c with Failure t => Some t | _ => o end) cs None.

Lemma run_snoc cs c b : run (cs ++ [c]) b = apply c (run cs b).
Proof. unfold run. by rewrite fold_left_app. Qed.
Lemma success_streak_snoc cs c : success_streak (cs ++ [c])
  = match c with Success => success_streak cs + 1 | Failure _ => 0 | Available _ => success_streak cs end.
Proof. unfold success_streak. by rewrite fold_left_app. Qed.
Lemma failure_streak_snoc cs c : failure_streak (cs ++ [c])
  = match c with Failure _ => failure_streak cs + 1 | Success => 0 | Available _ => failure_streak cs end.
Proof. unfold failure_streak. by rewrite fold_left_app. Qed.
Lemma last_failure_snoc cs c : last_failure (cs ++ [c])
  = match c with Failure t => Some t | _ => last_failure cs end.
Proof. unfold last_failure. by rewrite fold_left_app. Qed.

(** What the breaker's fields mean, in terms of the history that led to it. *)
Record meaning (b0 : breaker) (cs : list call) (b : breaker) : Prop := {
  m_config : failureThreshold b = failureThreshold b0 /\ resetTimeoutMs b = resetTimeoutMs b0
             /\ successThreshold b = successThreshold b0;
  m_closed : state b = CLOSED -> failures b = failure_streak cs;
  m_half : 0 <= halfOpenSuccesses b <= success_streak cs;
  m_idle : state b <> HALF_OPEN -> halfOpenSuccesses b = 0;
  m_over : state b <> CLOSED -> failureThreshold b0 <= failures b;
  m_open : state b = OPEN -> openedAt b = last_failure cs /\ is_Some (openedAt b);
}.

Definition fresh (b : breaker) : Prop :=
  state b = CLOSED /\ failures b = 0 /\ halfOpenSuccesses b = 0.

Lemma constructor_fresh f r s : fresh (constructor f r s).
Proof. done. Qed.
Lemma reset_fresh b : fresh (reset b).
Proof. done. Qed.

Lemma apply_meaning b0 cs b c : meaning b0 cs b -> meaning b0 (cs ++ [c]) (apply c b).
Proof.
  intros [(Hf & Hr & Hs) Hc Hh Hi Hv Ho].
  destruct b as [ft rt st s f h o ch]; simpl in *; subst ft rt st.
  destruct c as [now| |now], s; simpl;
    unfold isAvailable, recordSuccess, recordFailure, _transition, set_counts; simpl;
    repeat (case_match; simpl in *); zbool;
    split; simpl; rewrite ?failure_streak_snoc, ?success_streak_snoc, ?last_failure_snoc;
    intros; try done; try (split_and!; done); try lia; eauto;
    repeat match goal with
    | H : ?x = ?x -> _ |- _ => specialize (H eq_refl)
    | H : ?a <> ?b -> _ |- _ => specialize (H ltac:(discriminate))
    end; try lia; try done.
Qed.

Lemma run_meaning b0 cs : fresh b0 -> meaning b0 cs (run cs b0).
Proof.
  intros (Hs & Hf & Hh). induction cs as [|c cs IH] using rev_ind.
  - split; simpl; try done; rewrite ?Hf, ?Hh; try done; try congruence; lia.
  - rewrite run_snoc. by apply apply_meaning.
Qed.

(** A breaker leaves the closed state exactly on a failure that makes the
    number of consecutive failures (since the last success) reach the failure
    threshold, whatever the history since its construction or reset. *)
Theorem breaker_opens_exactly b0 cs c :
  fresh b0 -> state (run cs b0) = CLOSED ->
  (state (run (cs ++ [c]) b0) <> CLOSED <->
   (exists now, c = Failure now) /\ failureThreshold b0 <= failure_streak (cs ++ [c])).
Proof.
  intros Hfr Hcl. pose proof (run_meaning b0 cs Hfr) as [(Hf & Hr & Hs) Hc Hh Hi Hv Ho].
  rewrite run_snoc, failure_streak_snoc. specialize (Hc Hcl). rewrite <- Hc, <- Hf.
  destruct (run cs b0) as [ft rt st s f h o ch]; simpl in *. subst s.
  destruct c as [now| |now]; simpl; unfold isAvailable, recordSuccess, recordFailure; simpl.
  - split; [done|]. by intros [[? [=]] _].
  - split; [done|]. by intros [[? [=]] _].
  - destruct (Z.leb_spec ft (f + 1)); simpl; unfold _transition; simpl;
      split; try done; [eauto|]. intros [_ ?]. lia.
Qed.

(** A breaker that is not closed closes only on a success, and only after at
    least the success threshold of consecutive successes since the last
    failure; until the reset timeout after the last failure has passed, an open
    breaker refuses every request. *)
Theorem breaker_closes_only_after_successes b0 cs c :
  fresh b0 -> state (run cs b0) <> CLOSED ->
  (state (run (cs ++ [c]) b0) = CLOSED ->
   c = Success /\ successThreshold b0 <= success_streak (cs ++ [c])) /\
  (state (run cs b0) = OPEN -> exists t, last_failure cs = Some t /\
   forall now, (isAvailable now (run cs b0)).2 = (resetTimeoutMs b0 <=? now - t)).
Proof.
  intros Hfr Hcl. pose proof (run_meaning b0 cs Hfr) as [(Hf & Hr & Hs) Hc Hh Hi Hv Ho]. split.
  - rewrite run_snoc, success_streak_snoc. rewrite <- Hs.
    destruct (run cs b0) as [ft rt st s f h o ch]; simpl in *.
    destruct c as [now| |now], s; simpl;
      unfold isAvailable, recordSuccess, recordFailure, _transition; simpl;
      try done; repeat (case_match; simpl in *); try done; zbool. intros _. split; [done|lia].
  - intros Hop. destruct (Ho Hop) as [<- [t Ht]]. exists t. split; [done|]. intros now.
    unfold isAvailable. rewrite Hop, Ht, Hr. simpl. by case_match.
Qed.

(** Recovery.  An open breaker probed once the reset timeout has passed lets
    requests through, and [successThreshold] consecutive successes then close it
    with a clean failure count. *)
Theorem breaker_recovers b0 cs t now n :
  fresh b0 -> state (run cs b0) = OPEN -> last_failure cs = Some t ->
  resetTimeoutMs b0 <= now - t -> Z.of_nat n = successThreshold b0 -> 0 < successThreshold b0 ->
  let b := run (cs ++ Available now :: replicate n Success) b0 in
  state b = CLOSED /\ failures b = 0.
Proof.
  intros Hfr Hop Hl Hdue Hn Hpos b. subst b.
  pose proof (run_meaning b0 cs Hfr) as [(Hf & Hr & Hs) _ _ Hi _ Ho].
  destruct (Ho Hop) as [Hl' _]. specialize (Hi ltac:(congruence)).
  unfold run. rewrite fold_left_app. fold (run cs b0). simpl.
  unfold isAvailable. rewrite Hop, Hl', Hl, Hr. simpl.
  destruct (Z.leb_spec (resetTimeoutMs b0) (now - t)); [|lia]. simpl.
  rewrite <- Hs in *. clear Hf Hr Hs Ho Hl Hl' Hdue Hfr H.
  destruct (run cs b0) as [ft rt st s f h o ch]; simpl in *. subst s h.
  unfold _transition. simpl. generalize (ch ++ [(OPEN, HALF_OPEN)]) as ch'. intros ch'.
  assert (forall k h, (0 < k)%nat -> h + Z.of_nat k = st ->
    let b := fold_left (fun b c => apply c b) (replicate k Success)
               (Breaker ft rt st HALF_OPEN f h o ch') in
    state b = CLOSED /\ failures b = 0) as HH; [|apply HH; lia].
  clear n Hn. intros k. induction k as [|k IH]; intros h Hk Hh; [lia|]. simpl.
  unfold recordSuccess, set_counts. simpl.
  destruct (Z.leb_spec st (h + 1)) as [Hle|Hgt].
  - assert (k = 0%nat) as -> by lia. done.
  - apply IH; lia.
Qed.

Lemma breaker_opens_exactly_witness :
  let b0 := constructor (Some 2) None None in
  state (run ([Failure 0] ++ [Failure 5]) b0) <> CLOSED.
Proof.
  intros b0. apply (breaker_opens_exactly b0 [Failure 0] (Failure 5)).
  - apply constructor_fresh.
  - reflexivity.
  - split; [by exists 5|]. vm_compute. discriminate.
Defined.

Lemma breaker_closes_only_after_successes_witness :
  let b0 := constructor (Some 1) (Some 10) (Some 1) in
  Success = Success /\ successThreshold b0 <= success_streak ([Failure 0; Available 10] ++ [Success]).
Proof.
  intros b0. apply (breaker_closes_only_after_successes b0 [Failure 0; Available 10] Success).
  - apply constructor_fresh.
  - discriminate.
  - reflexivity.
Defined.

Lemma breaker_recovers_witness :
  state (run ([Failure 0] ++ Available 10 :: replicate 2 Success)
           (constructor (Some 1) (Some 10) None)) = CLOSED.
Proof.
  apply (breaker_recovers (constructor (Some 1) (Some 10) None) [Failure 0] 0 10 2);
    try reflexivity; try (vm_compute; discriminate).
  apply constructor_fresh.
Defined.

End CircuitBreaker.
