(* ===== verification/RequestGate.v ===== *)
(** The concurrent-request middleware of
    backend/src/middleware/concurrentRequestHandler.js: its own circuit breaker,
    the bounded priority queue, the request deduplicator, the rate limiter and
    the in-memory idempotency cache.  Timers are explicit events; times are
    milliseconds. *)

From Stdlib Require Import ZArith Lia Sorting.Sorted.
From stdpp Require Import base list strings gmap.
From S2P Require Import Prelude JsString CircuitBreaker DistributedLock.
Local Open Scope string_scope.
Local Open Scope Z_scope.
Local Open Scope list_scope.

(** ** The request middleware's breaker *)
Module Middleware.

Record mw_breaker := MwBreaker {
  failureThreshold : Z;
  resetTimeoutMs : Z;
  halfOpenSuccessThreshold : Z;
  state : CB_STATE;
  failureCount : Z;
  successCount : Z;
  lastFailureTime : option Z;
  halfOpenAttempts : Z;
}.

Definition mw_constructor (failureThreshold resetTimeoutMs halfOpenSuccessThreshold : option Z) : mw_breaker :=
  MwBreaker (opt_or failureThreshold 5) (opt_or resetTimeoutMs 30000)
    (opt_or halfOpenSuccessThreshold 2) CLOSED 0 0 None 0.

Definition set_state (s : CB_STATE) (f n : Z) (l : option Z) (a : Z) (b : mw_breaker) : mw_breaker :=
  MwBreaker (failureThreshold b) (resetTimeoutMs b) (halfOpenSuccessThreshold b) s f n l a.

Definition onSuccess (b : mw_breaker) : mw_breaker :=
  match state b with
  | HALF_OPEN =>
    let n := successCount b + 1 in
    if halfOpenSuccessThreshold b <=? n
    then set_state CLOSED 0 0 (lastFailureTime b) (halfOpenAttempts b) b
    else set_state (state b) (failureCount b) n (lastFailureTime b) (halfOpenAttempts b) b
  | _ => set_state (state b) 0 (successCount b) (lastFailureTime b) (halfOpenAttempts b) b
  end.

Definition onFailure (now : Z) (b : mw_breaker) : mw_breaker :=
  let f := failureCount b + 1 in
  match state b with
  | HALF_OPEN => set_state OPEN f (successCount b) (Some now) (halfOpenAttempts b) b
  | _ => set_state (if failureThreshold b <=? f then OPEN else state b) f (successCount b)
           (Some now) (halfOpenAttempts b) b
  end.

(** The admission test of [execute], before the operation runs. *)
Definition execute_begin (now : Z) (b : mw_breaker) : result unit mw_breaker :=
  match state b with
  | OPEN =>
    if resetTimeoutMs b <=? now - default 0 (lastFailureTime b)
    then Ok (set_state HALF_OPEN (failureCount b) (successCount b) (lastFailureTime b) 0 b)
    else Throw tt
  | _ => Ok b
  end.

(** [execute] of an operation that settles (at time [t1]) before another starts:
    [ok] says whether it resolves. *)
Definition execute (t0 t1 : Z) (ok : bool) (b : mw_breaker) : mw_breaker * result unit bool :=
  match execute_begin t0 b with
  | Throw e => (b, Throw e)
  | Ok b' => if ok then (onSuccess b', Ok true) else (onFailure t1 b', Ok false)
  end.

(** An open middleware breaker rejects every operation, without running it and
    without changing its state, until the reset timeout after the last failure;
    a closed one opens exactly when the failure count reaches the threshold. *)
Theorem middleware_breaker_guards t0 t1 ok b :
  (state b = OPEN -> t0 - default 0 (lastFailureTime b) < resetTimeoutMs b ->
   execute t0 t1 ok b = (b, Throw tt)) /\
  (state b = CLOSED ->
   state (execute t0 t1 ok b).1
   = if negb ok && (failureThreshold b <=? failureCount b + 1) then OPEN else CLOSED).
Proof.
  split.
  - intros Hs Hlt. unfold execute, execute_begin. rewrite Hs.
    destruct (Z.leb_spec (resetTimeoutMs b) (t0 - default 0 (lastFailureTime b))); [lia|done].
  - intros Hs. unfold execute, execute_begin, onSuccess, onFailure. rewrite Hs.
    destruct ok; simpl; [by rewrite Hs|]. rewrite Hs. simpl. by case_match.
Qed.

Lemma middleware_breaker_guards_witness :
  let b := set_state OPEN 5 0 (Some 100) 0 (mw_constructor None None None) in
  execute 200 300 true b = (b, Throw tt).
Proof. intros b. apply (middleware_breaker_guards 200 300 true b); reflexivity. Defined.

(** The middleware's breaker counts half-open successes across failures: after
    one success and then a failure in the half-open state, the next probe closes
    it with a single success although its threshold is two in a row. *)
Theorem middleware_breaker_stale_success :
  let b0 := mw_constructor (Some 1) (Some 10) (Some 2) in
  let b1 := (execute 0 0 false b0).1 in       (* opens *)
  let b2 := (execute 10 10 true b1).1 in      (* half-open, one success *)
  let b3 := (execute 11 11 false b2).1 in     (* half-open failure: opens again *)
  let b4 := (execute 21 21 true b3).1 in      (* one success after the failure *)
  state b1 = OPEN /\ state b2 = HALF_OPEN /\ state b3 = OPEN /\
  halfOpenSuccessThreshold b4 = 2 /\ state b4 = CLOSED.
Proof. by vm_compute. Qed.

End Middleware.

(** ** The request queue *)
Module RequestQueue.

(** A waiting request: its arrival number (the identity of the queue item) and
    its priority. *)
Record item := Item { it_id : Z; it_priority : Z }.

Record queue_state := QueueState {
  maxSize : Z;
  maxConcurrent : Z;
  queue : list item;
  processing : Z;
  running : list item;      (* operations started and not settled *)
  settled : list Z;         (* operations settled *)
  rejected : list Z;        (* promises rejected: queue full or timeout *)
  arrivals : Z;             (* arrival counter *)
}.

Definition queue_constructor (maxSize maxConcurrent : option Z) : queue_state :=
  QueueState (opt_or maxSize 1000) (opt_or maxConcurrent 50) [] 0 [] [] [] 0.

(** [findIndex(item => item.priority < priority)], then [splice] or [push]. *)
Fixpoint insert_item (it : item) (q : list item) : list item :=
  match q with
  | [] => [it]
  | x :: q' => if it_priority x <? it_priority it then it :: x :: q' else x :: insert_item it q'
  end.

(** The [while] loop of [processQueue]: the new processing count, what is left
    waiting, and the operations started, in order. *)
Fixpoint drain (maxC processing : Z) (q : list item) : Z * list item * list item :=
  match q with
  | [] => (processing, [], [])
  | it :: q' =>
    if processing <? maxC
    then let '(p, rest, started) := drain maxC (processing + 1) q' in (p, rest, it :: started)
    else (processing, q, [])
  end.

Definition processQueue (s : queue_state) : queue_state :=
  let '(p, rest, started) := drain (maxConcurrent s) (processing s) (queue s) in
  QueueState (maxSize s) (maxConcurrent s) rest p (running s ++ started)
    (settled s) (rejected s) (arrivals s).

Definition enqueue (priority : Z) (s : queue_state) : queue_state :=
  let it := Item (arrivals s) priority in
  if maxSize s <=? Z.of_nat (length (queue s))
  then QueueState (maxSize s) (maxConcurrent s) (queue s) (processing s) (running s)
         (settled s) (it_id it :: rejected s) (arrivals s + 1)
  else processQueue
         (QueueState (maxSize s) (maxConcurrent s) (insert_item it (queue s)) (processing s)
            (running s) (settled s) (rejected s) (arrivals s + 1)).

Definition is_id (i : Z) (it : item) : bool := it_id it =? i.

(** The timeout callback of item [i]: only a still waiting item is removed. *)
Definition on_timeout (i : Z) (s : queue_state) : queue_state :=
  if existsb (is_id i) (queue s)
  then QueueState (maxSize s) (maxConcurrent s)
         (List.filter (fun it => negb (is_id i it)) (queue s)) (processing s) (running s)
         (settled s) (i :: rejected s) (arrivals s)
  else s.

(** The [finally] callback of a running operation [i]. *)
Definition on_settled (i : Z) (s : queue_state) : queue_state :=
  if existsb (is_id i) (running s)
  then processQueue
         (QueueState (maxSize s) (maxConcurrent s) (queue s) (processing s - 1)
            (List.filter (fun it => negb (is_id i it)) (running s))
            (i :: settled s) (rejected s) (arrivals s))
  else s.

Inductive event := Enqueue (priority : Z) | Timeout (i : Z) | Settled (i : Z).

Definition step (e : event) (s : queue_state) : queue_state :=
  match e with
  | Enqueue p => enqueue p s
  | Timeout i => on_timeout i s
  | Settled i => on_settled i s
  end.

Definition run (es : list event) (s : queue_state) : queue_state :=
  fold_left (fun s e => step e s) es s.

(** *** Invariant *)

(** Served before: higher priority, and first come first served among equals. *)
Definition before (a b : item) : Prop :=
  it_priority b < it_priority a \/ (it_priority a = it_priority b /\ it_id a < it_id b).

Definition all_ids (s : queue_state) : list Z :=
  (it_id <$> queue s) ++ (it_id <$> running s) ++ settled s ++ rejected s.

Record inv (s : queue_state) : Prop := {
  i_sorted : StronglySorted before (queue s);
  i_size : Z.of_nat (length (queue s)) <= maxSize s;
  i_processing : processing s = Z.of_nat (length (running s));
  i_concurrent : processing s <= maxConcurrent s;
  i_busy : queue s <> [] -> processing s = maxConcurrent s;
  i_account : all_ids s ≡ₚ seqZ 0 (arrivals s);
  i_count : 0 <= arrivals s;
}.

Lemma before_trans a b c : before a b -> before b c -> before a c.
Proof. unfold before. lia. Qed.

Lemma insert_item_perm it q : insert_item it q ≡ₚ it :: q.
Proof.
  induction q as [|x q IH]; simpl; [done|]. case_match; [done|].
  rewrite IH. apply Permutation_swap.
Qed.

Lemma insert_item_sorted it q :
  StronglySorted before q -> Forall (fun x => it_id x < it_id it) q ->
  StronglySorted before (insert_item it q).
Proof.
  induction 1 as [|x q Hs IH Hf]; simpl; intros Hid; [repeat constructor|].
  apply Forall_cons in Hid as [Hx Hid]. destruct (Z.ltb_spec (it_priority x) (it_priority it)) as [Hlt|Hge].
  - constructor; [by constructor|]. constructor; [by left|].
    eapply Forall_impl; [exact Hf|]. intros y Hy. eapply before_trans; [|exact Hy]. by left.
  - constructor; [by apply IH|]. rewrite insert_item_perm. constructor; [|done].
    unfold before. lia.
Qed.

Lemma drain_spec maxC p q p' rest started :
  drain maxC p q = (p', rest, started) ->
  q = started ++ rest /\ p' = p + Z.of_nat (length started) /\
  (p <= maxC -> p' <= maxC) /\ (rest <> [] -> maxC <= p').
Proof.
  revert p p' rest started. induction q as [|it q IH]; intros p p' rest started; simpl.
  { intros [= <- <- <-]. split_and!; simpl; try done; lia. }
  destruct (Z.ltb_spec p maxC) as [Hlt|Hge].
  - destruct (drain maxC (p + 1) q) as [[p1 r1] s1] eqn:E. intros [= <- <- <-].
    apply IH in E as (-> & -> & H3 & H4). split_and!; simpl; try done; lia.
  - intros [= <- <- <-]. split_and!; simpl; try done; lia.
Qed.

Lemma processQueue_inv s :
  StronglySorted before (queue s) -> Z.of_nat (length (queue s)) <= maxSize s ->
  processing s = Z.of_nat (length (running s)) -> processing s <= maxConcurrent s ->
  all_ids s ≡ₚ seqZ 0 (arrivals s) -> 0 <= arrivals s ->
  inv (processQueue s).
Proof.
  intros Hs Hl Hp Hc Ha Hn. unfold processQueue.
  destruct (drain _ _ _) as [[p rest] started] eqn:E.
  apply drain_spec in E as (Hq & -> & H3 & H4). specialize (H3 Hc). rewrite Hq in *.
  split; simpl; try done.
  - clear -Hs. induction started; simpl in *; [done|]. inversion Hs; auto.
  - rewrite length_app in Hl. lia.
  - rewrite length_app. lia.
  - intros Hr. specialize (H4 Hr). lia.
  - rewrite <- Ha. unfold all_ids. simpl. rewrite !fmap_app, Hq, fmap_app.
    rewrite (Permutation_app_comm (it_id <$> started) (it_id <$> rest)), <- !app_assoc.
    apply Permutation_app_head, Permutation_app_swap_app.
Qed.

Lemma all_ids_bound s x : inv s -> x ∈ queue s -> it_id x < arrivals s.
Proof.
  intros Hi Hx. assert (it_id x ∈ all_ids s) as Hin.
  { unfold all_ids. apply elem_of_app. left. by apply list_elem_of_fmap_2. }
  rewrite (i_account s Hi) in Hin. apply elem_of_seqZ in Hin. lia.
Qed.

Lemma seqZ_next n : 0 <= n -> n :: seqZ 0 n ≡ₚ seqZ 0 (n + 1).
Proof.
  intros Hn. rewrite seqZ_app by lia. rewrite (seqZ_cons (0 + n) 1) by lia. simpl.
  apply Permutation_cons_append.
Qed.

(** Removing the item with identity [i] from a list without repeated ids. *)
Lemma filter_id_perm i l :
  NoDup (it_id <$> l) -> existsb (is_id i) l = true ->
  i :: (it_id <$> List.filter (fun it => negb (is_id i it)) l) ≡ₚ it_id <$> l.
Proof.
  unfold is_id. induction l as [|x l IH]; simpl; [done|]. intros [Hx Hn]%NoDup_cons.
  destruct (Z.eqb_spec (it_id x) i) as [E|E]; simpl; intros Hex.
  - subst i. apply Permutation_cons; [done|].
    assert (List.filter (fun it => negb (it_id it =? it_id x)) l = l) as ->; [|done].
    clear -Hx. induction l as [|y l IH]; simpl in *; [done|].
    apply not_elem_of_cons in Hx as [H1 H2]. destruct (Z.eqb_spec (it_id y) (it_id x)); [congruence|].
    simpl. by rewrite IH.
  - rewrite Permutation_swap. apply Permutation_cons; [done|]. by apply IH.
Qed.

Lemma filter_sorted f q : StronglySorted before q -> StronglySorted before (List.filter f q).
Proof.
  induction 1 as [|x q Hs IH Hf]; simpl; [constructor|]. case_match; [|done].
  constructor; [done|]. apply Forall_forall. intros y Hy.
  apply list_elem_of_In, List.filter_In in Hy as [Hy _]. rewrite Forall_forall in Hf.
  apply Hf. by apply list_elem_of_In.
Qed.

Lemma inv_nodup s : inv s -> NoDup (all_ids s).
Proof. intros Hi. rewrite (i_account s Hi). apply NoDup_seqZ. Qed.

Lemma filter_length_le {A} (f : A -> bool) l : (length (List.filter f l) <= length l)%nat.
Proof. induction l as [|x l IH]; simpl; [lia|]. case_match; simpl; lia. Qed.

Lemma enqueue_inv p s : inv s -> inv (enqueue p s).
Proof.
  intros Hi. destruct Hi as [Hs Hl Hp Hc Hb Ha Hn] eqn:E. clear E. unfold enqueue.
  destruct (Z.leb_spec (maxSize s) (Z.of_nat (length (queue s)))) as [Hfull|Hroom].
  - split; simpl; try done; [|lia]. rewrite <- seqZ_next by done. rewrite <- Ha.
    unfold all_ids. simpl. rewrite !app_assoc. symmetry. apply Permutation_middle.
  - apply processQueue_inv; simpl; try done; [| | |lia].
    + apply insert_item_sorted; [done|]. apply Forall_forall. intros x Hx. simpl.
      by apply all_ids_bound.
    + rewrite (Permutation_length (insert_item_perm _ _)). simpl. lia.
    + rewrite <- seqZ_next by done. rewrite <- Ha. unfold all_ids. simpl.
      by rewrite insert_item_perm.
Qed.

Lemma timeout_inv i s : inv s -> inv (on_timeout i s).
Proof.
  intros Hi. pose proof (inv_nodup s Hi) as Hnd. destruct Hi as [Hs Hl Hp Hc Hb Ha Hn].
  unfold on_timeout. destruct (existsb _ _) eqn:Hex; [|done].
  unfold all_ids in Hnd. apply NoDup_app in Hnd as (Hnd & _ & _).
  split; simpl; try done.
  - by apply filter_sorted.
  - pose proof (filter_length_le (fun it => negb (is_id i it)) (queue s)). lia.
  - intros Hq. apply Hb. intros E. rewrite E in Hq. done.
  - rewrite <- Ha. unfold all_ids. simpl.
    rewrite <- (filter_id_perm i (queue s)) by done.
    rewrite !app_assoc. symmetry. apply Permutation_middle.
Qed.

Lemma settled_inv i s : inv s -> inv (on_settled i s).
Proof.
  intros Hi. pose proof (inv_nodup s Hi) as Hnd. destruct Hi as [Hs Hl Hp Hc Hb Ha Hn].
  unfold on_settled. destruct (existsb _ _) eqn:Hex; [|done].
  unfold all_ids in Hnd. apply NoDup_app in Hnd as (_ & _ & Hnd).
  apply NoDup_app in Hnd as (Hnd & _ & _).
  pose proof (filter_id_perm i (running s) Hnd Hex) as Hperm.
  apply Permutation_length in Hperm as Hlen. simpl in Hlen. rewrite !length_fmap in Hlen.
  apply processQueue_inv; simpl; try done; [lia|lia|].
  rewrite <- Ha. unfold all_ids. simpl. rewrite <- Hperm. apply Permutation_app_head.
  rewrite <- app_comm_cons. symmetry. apply Permutation_middle.
Qed.

Lemma queue_step_inv e s : inv s -> inv (step e s).
Proof. destruct e; simpl; [apply enqueue_inv|apply timeout_inv|apply settled_inv]. Qed.

Lemma queue_run_inv es s : inv s -> inv (run es s).
Proof. revert s. induction es as [|e es IH]; intros s Hi; simpl; [done|]. by apply IH, queue_step_inv. Qed.

Lemma constructor_inv ms mc : 0 <= opt_or ms 1000 -> 0 <= opt_or mc 50 -> inv (queue_constructor ms mc).
Proof. intros. split; simpl; try done; constructor. Qed.

(** In every history of arrivals, timeouts and completions, the queue serves
    by priority and first come first served among equal priorities, never holds
    more than [maxSize] waiting or runs more than [maxConcurrent] operations,
    keeps nobody waiting while a slot is free, and accounts for every arrival
    exactly once (waiting, running, settled or rejected). *)
Theorem request_queue_invariant ms mc es :
  0 <= opt_or ms 1000 -> 0 <= opt_or mc 50 ->
  let s := run es (queue_constructor ms mc) in
  StronglySorted before (queue s) /\
  Z.of_nat (length (queue s)) <= maxSize s /\
  processing s = Z.of_nat (length (running s)) /\
  processing s <= maxConcurrent s /\
  (queue s <> [] -> processing s = maxConcurrent s) /\
  all_ids s ≡ₚ seqZ 0 (arrivals s).
Proof.
  intros Hms Hmc s. assert (inv s) as [] by (by apply queue_run_inv, constructor_inv). done.
Qed.

Lemma request_queue_invariant_witness :
  let s := run [Enqueue 1; Enqueue 1; Enqueue 5; Enqueue 5; Settled 0; Timeout 1]
             (queue_constructor (Some 2) (Some 1)) in
  StronglySorted before (queue s) /\ (it_id <$> running s) = [2] /\ rejected s = [1; 3].
Proof.
  intros s. split; [|split; reflexivity].
  eapply (request_queue_invariant (Some 2) (Some 1)); vm_compute; discriminate.
Defined.

End RequestQueue.

(** ** The request deduplicator *)
Module Deduplicator.

(** What a caller can [await]: the promise of registration [r], or the record
    [{ promise, resolve, reject }] the map stores for it. *)
Inductive awaitable := APromise (r : Z) | ARecord (r : Z).

Inductive settled_as {A : Type} := Resolved (a : A) | Rejected.
Arguments settled_as : clear implicits.

Section Dedup.
Context {A : Type}.

Record dedup := Dedup {
  pendingRequests : gmap string Z;        (* key -> registration *)
  ttlMs : Z;
  timers : list (Z * string);             (* armed TTL timers: due time, key *)
  outcomes : gmap Z (settled_as A);       (* settled promises *)
  registrations : Z;
}.

Definition dedup_constructor (ttl : Z) : dedup := Dedup ∅ ttl [] ∅ 0.

(** [Some v]: [{ duplicate: true, promise: v }]; the value the map holds is the
    whole record. *)
Definition tryStart (now : Z) (key : string) (s : dedup) : dedup * option awaitable :=
  match pendingRequests s !! key with
  | Some r => (s, Some (ARecord r))
  | None =>
    (Dedup (<[key := registrations s]> (pendingRequests s)) (ttlMs s)
       (timers s ++ [(now + ttlMs s, key)]) (outcomes s) (registrations s + 1), None)
  end.

(** A TTL timer fires: it deletes whatever the map holds for its key. *)
Definition timer_fires (key : string) (s : dedup) : dedup :=
  Dedup (delete key (pendingRequests s)) (ttlMs s) (timers s) (outcomes s) (registrations s).

(** All timers due at [now]. *)
Definition fire_due (now : Z) (s : dedup) : dedup :=
  let due := List.filter (fun t => t.1 <=? now) (timers s) in
  let s := fold_left (fun s t => timer_fires t.2 s) due s in
  Dedup (pendingRequests s) (ttlMs s) (List.filter (fun t => negb (t.1 <=? now)) (timers s))
    (outcomes s) (registrations s).

Definition complete (key : string) (res : settled_as A) (s : dedup) : dedup :=
  match pendingRequests s !! key with
  | Some r => Dedup (delete key (pendingRequests s)) (ttlMs s) (timers s)
                (<[r := res]> (outcomes s)) (registrations s)
  | None => s
  end.

Definition dedup_getStats (s : dedup) : Z := Z.of_nat (size (pendingRequests s)).

(** [await v]: a value that is not a promise is its own result at once; [None]
    is a promise still pending. *)
Definition await (v : awaitable) (s : dedup) : option (settled_as (A + Z)) :=
  match v with
  | ARecord r => Some (Resolved (inr r))
  | APromise r =>
    match outcomes s !! r with
    | Some (Resolved a) => Some (Resolved (inl a))
    | Some Rejected => Some Rejected
    | None => None
    end
  end.

Inductive dedup_response := NextHandler | RespondResult (a : A) | RespondRecord (r : Z) | Status500.

(** The [deduplicate] middleware; [None]: the response waits. *)
Definition deduplicate (now : Z) (key : string) (s : dedup) : dedup * option dedup_response :=
  if negb (str_truthy key) then (s, Some NextHandler) else
  match tryStart now key s with
  | (s', None) => (s', Some NextHandler)
  | (s', Some v) =>
    (s', match await v s' with
         | Some (Resolved (inl a)) => Some (RespondResult a)
         | Some (Resolved (inr r)) => Some (RespondRecord r)
         | Some Rejected => Some Status500
         | None => None
         end)
  end.

(** A duplicate request is answered at once, before the original request has
    any outcome, and never with the original's result: the middleware awaits the
    bookkeeping record instead of the promise in it. *)
Theorem duplicate_answered_without_result now key s r :
  key <> "" -> pendingRequests s !! key = Some r ->
  deduplicate now key s = (s, Some (RespondRecord r)) /\
  (forall a, (deduplicate now key s).2 <> Some (RespondResult a)).
Proof.
  intros Hk Hp. unfold deduplicate, tryStart. rewrite Hp.
  by destruct key.
Qed.
End Dedup.
Arguments dedup : clear implicits.

(** A TTL timer outlives the registration it was armed for: after a request
    completes and the same key is registered again, the first timer deletes the
    second registration, and a third request with the key is let through while
    the second is still running. *)
Theorem stale_timer_drops_registration :
  let s0 : dedup unit := dedup_constructor 60000 in
  let '(s1, d1) := deduplicate 0 "k" s0 in                     (* first request runs *)
  let s2 := complete "k" (Resolved tt) s1 in                  (* and completes *)
  let '(s3, d3) := deduplicate 59999 "k" (fire_due 59999 s2) in  (* second request runs *)
  let '(s4, d4) := deduplicate 60000 "k" (fire_due 60000 s3) in  (* third one, 1 ms later *)
  d1 = Some NextHandler /\ d3 = Some NextHandler /\ d4 = Some NextHandler /\
  outcomes s4 !! 1 = None.
Proof. by vm_compute. Qed.

Lemma duplicate_answered_without_result_witness :
  let s := (tryStart 0 "k" (dedup_constructor (A := unit) 60000)).1 in
  deduplicate 5 "k" s = (s, Some (RespondRecord 0)).
Proof.
  intros s. apply (duplicate_answered_without_result 5 "k" s 0); [discriminate|reflexivity].
Defined.

End Deduplicator.

(** ** The rate limiter *)
Module RateLimiter.
Import DistributedLock.

(** The fallback store: key -> window start and count. *)
Abbreviation memory := (gmap string (Z * Z)).

Definition _inMemoryIncrement (m : memory) (key : string) (now windowStart : Z) : memory * Z :=
  let entry := match m !! key with
               | Some (ws, c) => if ws <? windowStart then (now, 0) else (ws, c)
               | None => (now, 0)
               end in
  (<[key := (entry.1, entry.2 + 1)]> m, entry.2 + 1).

Definition bucket_of (now windowMs : Z) : Z := now / windowMs * windowMs.

Definition ceil_div (a b : Z) : Z := - (- a / b).

(** The Redis pipeline: [INCR] then [EXPIRE]; [None] is the undefined count of
    an [INCR] that failed. *)
Definition redis_increment (key : string) (now windowMs : Z) (r : redis) : redis * option Z :=
  let r := Redis (store r) now in
  let redisKey := (key ++ ":" ++ Z_to_string (bucket_of now windowMs))%string in
  let ttlSec := ceil_div windowMs 1000 + 1 in
  match incr redisKey r with
  | Some (cnt, r1) =>
    (rset redisKey (Entry (VInt cnt) (Some (now + ttlSec * 1000))) r1, Some cnt)
  | None => (r, None)
  end.

Inductive backend := UseRedis | RedisFails | NoRedis.

Inductive verdict := Next | TooMany (retryAfter : Z).

Definition resetSeconds (now windowMs : Z) : Z :=
  Z.max 1 (ceil_div (bucket_of now windowMs + windowMs - now) 1000).

Definition rateLimiter (windowMs maxRequests : Z) (b : backend) (clientKey : string) (now : Z)
  (st : memory * redis) : (memory * redis) * verdict :=
  let key := ("rl:" ++ clientKey)%string in
  let windowStart := now - windowMs in
  let '(st', count) :=
    match b with
    | UseRedis => let '(r, c) := redis_increment key now windowMs st.2 in ((st.1, r), c)
    | RedisFails | NoRedis =>
      let '(m, c) := _inMemoryIncrement st.1 key now windowStart in ((m, st.2), Some c)
    end in
  match count with
  | Some c => if maxRequests <? c then (st', TooMany (resetSeconds now windowMs)) else (st', Next)
  | None => (st', Next)
  end.

(** One client's requests at the given times, through one backend. *)
Fixpoint requests (windowMs maxRequests : Z) (b : backend) (client : string) (ts : list Z)
  (st : memory * redis) : list verdict :=
  match ts with
  | [] => []
  | t :: ts' => let '(st', v) := rateLimiter windowMs maxRequests b client t st in
                v :: requests windowMs maxRequests b client ts' st'
  end.

Definition is_next (v : verdict) : bool := match v with Next => true | TooMany _ => false end.

(** The verdicts of a window in which [c] requests were counted already: the
    budget that is left, then refusals. *)
Definition expected (maxRequests c : Z) (n : nat) : list bool :=
  (fun i => c + Z.of_nat i <? maxRequests) <$> seq 0 n.

Lemma expected_cons maxR c n :
  expected maxR c (S n) = (c <? maxR) :: expected maxR (c + 1) n.
Proof.
  unfold expected. simpl. rewrite Z.add_0_r. f_equal.
  rewrite <- fmap_S_seq, <- list_fmap_compose. apply list_fmap_ext. intros i x _. simpl.
  f_equal. lia.
Qed.

Lemma verdict_count (w maxR t c : Z) :
  is_next (if maxR <? c + 1 then TooMany (resetSeconds t w) else Next) = (c <? maxR).
Proof. destruct (Z.ltb_spec maxR (c + 1)), (Z.ltb_spec c maxR); simpl; lia || done. Qed.

Lemma requests_memory w maxR b client ts m r ws c :
  b <> UseRedis -> m !! ("rl:" ++ client)%string = Some (ws, c) ->
  Forall (fun t => t - w <= ws) ts ->
  is_next <$> requests w maxR b client ts (m, r) = expected maxR c (length ts).
Proof.
  intros Hb Hm Hts. revert m c Hm. induction Hts as [|t ts Ht Hts IH]; intros m c Hm; [done|].
  simpl length. rewrite expected_cons. simpl. unfold rateLimiter, _inMemoryIncrement. simpl fst.
  rewrite Hm. destruct (Z.ltb_spec ws (t - w)); [lia|]. simpl.
  specialize (IH (<[("rl:" ++ client)%string := (ws, c + 1)]> m) (c + 1) (lookup_insert_eq _ _ _)).
  destruct b; [done| |]; pose proof (verdict_count w maxR t c);
    destruct (maxR <? c + 1); simpl in *; by f_equal.
Qed.

Lemma ceil_div_ge a b : 0 < b -> a <= ceil_div a b * b.
Proof. intros Hb. unfold ceil_div. pose proof (Z.mul_div_le (- a) b Hb). lia. Qed.

Lemma requests_redis w maxR client ts m r b x c :
  0 < w -> Forall (fun t => bucket_of t w = b) ts ->
  let k := (("rl:" ++ client) ++ ":" ++ Z_to_string b)%string in
  store r !! k = Some (Entry (VInt c) (Some x)) -> b + w <= x ->
  is_next <$> requests w maxR UseRedis client ts (m, r) = expected maxR c (length ts).
Proof.
  intros Hw Hts k. revert r x c. induction Hts as [|t ts Ht Hts IH]; intros r x c Hr Hx; [done|].
  simpl length. rewrite expected_cons. simpl. unfold rateLimiter, redis_increment. simpl snd.
  rewrite Ht. fold k.
  assert (b <= t < b + w) as Hb.
  { subst b. unfold bucket_of. pose proof (Z.mod_pos_bound t w Hw).
    pose proof (Z.div_mod t w ltac:(lia)). lia. }
  assert (rget k (Redis (store r) t) = Some (Entry (VInt c) (Some x))) as Hg.
  { unfold rget. simpl. rewrite Hr. unfold live. simpl. destruct (Z.ltb_spec t x); [done|lia]. }
  unfold incr. rewrite Hg. simpl.
  pose proof (ceil_div_ge w 1000 ltac:(lia)) as Hc.
  pose proof (verdict_count w maxR t c) as Hv.
  destruct (maxR <? c + 1); simpl in *; f_equal; try done;
    (eapply IH; [simpl; apply lookup_insert_eq|lia]).
Qed.

(** Within one window a client gets exactly [maxRequests] requests through,
    the first ones, and every later one is answered 429.  With Redis the window
    is the aligned bucket all the times fall in, and the counter's expiry
    outlives it; with the in-memory fallback it is the [windowMs] after the
    client's first request. *)
Theorem rate_limit_window w maxR client t0 ts m r b :
  0 < w -> 0 < maxR ->
  match b with
  | UseRedis => Forall (fun t => bucket_of t w = bucket_of t0 w) ts /\
      store r !! (("rl:" ++ client) ++ ":" ++ Z_to_string (bucket_of t0 w))%string = None
  | _ => Forall (fun t => t <= t0 + w) ts /\ m !! ("rl:" ++ client)%string = None
  end ->
  is_next <$> requests w maxR b client (t0 :: ts) (m, r) = expected maxR 0 (S (length ts)).
Proof.
  intros Hw Hmax Hpre. rewrite expected_cons. simpl.
  assert ((0 <? maxR) = true) as -> by (by apply Z.ltb_lt).
  assert ((maxR <? 1) = false) as H1 by (apply Z.ltb_ge; lia).
  unfold rateLimiter. destruct b.
  - destruct Hpre as [Hts Hk]. unfold redis_increment, incr, rget. simpl. rewrite Hk. simpl.
    change (0 + 1) with 1. rewrite H1. simpl. f_equal. eapply (requests_redis w maxR client ts m _ (bucket_of t0 w)).
    + done.
    + done.
    + simpl. apply lookup_insert_eq.
    + pose proof (ceil_div_ge w 1000 ltac:(lia)). unfold bucket_of.
      pose proof (Z.mul_div_le t0 w Hw). lia.
  - destruct Hpre as [Hts Hk]. unfold _inMemoryIncrement. simpl. rewrite Hk. simpl.
    change (0 + 1) with 1. rewrite H1.
    simpl. f_equal. eapply requests_memory; [done|apply lookup_insert_eq|].
    eapply Forall_impl; [exact Hts|]. simpl. intros; lia.
  - destruct Hpre as [Hts Hk]. unfold _inMemoryIncrement. simpl. rewrite Hk. simpl.
    change (0 + 1) with 1. rewrite H1.
    simpl. f_equal. eapply requests_memory; [done|apply lookup_insert_eq|].
    eapply Forall_impl; [exact Hts|]. simpl. intros; lia.
Qed.

Lemma rate_limit_window_witness :
  is_next <$> requests 1000 2 UseRedis "ip" [5; 7; 999] (∅, Redis ∅ 0) = [true; true; false].
Proof.
  rewrite (rate_limit_window 1000 2 "ip" 5 [7; 999] ∅ (Redis ∅ 0) UseRedis); [reflexivity|lia|lia|].
  split; [repeat constructor|reflexivity].
Defined.

End RateLimiter.

(** ** The in-memory idempotency cache of the middleware *)
Module IdempotencyCache.
Section Cache.
Context {Body : Type}.

Abbreviation cache := (gmap string (Body * Z)).

Inductive idem_verdict := IdemNext | IdemReplay (response : Body).

Definition idempotency_begin (now : Z) (key : option string) (c : cache) : cache * idem_verdict :=
  match key with
  | None => (c, IdemNext)
  | Some k =>
    if negb (str_truthy k) then (c, IdemNext) else
    match c !! k with
    | Some (body, expiresAt) =>
      if expiresAt <? now then (delete k c, IdemNext) else (c, IdemReplay body)
    | None => (c, IdemNext)
    end
  end.

(** The wrapped [res.json] of a request that was let through with key [k]. *)
Definition idempotency_json (now ttlMs statusCode : Z) (k : string) (body : Body) (c : cache) : cache :=
  if (200 <=? statusCode) && (statusCode <? 300) then <[k := (body, now + ttlMs)]> c else c.

(** A successful response is replayed verbatim to every request with its key
    until the TTL has passed, then the handler runs again; an unsuccessful one
    is never stored. *)
Theorem idempotency_cache_replays t now ttl st k body c :
  k <> "" ->
  (idempotency_begin now (Some k) (idempotency_json t ttl st k body c)).2
  = if (200 <=? st) && (st <? 300)
    then (if t + ttl <? now then IdemNext else IdemReplay body)
    else (idempotency_begin now (Some k) c).2.
Proof.
  intros Hk. unfold idempotency_json. destruct ((200 <=? st) && (st <? 300)); [|done].
  unfold idempotency_begin. destruct (str_truthy k) eqn:E; [|by destruct k].
  simpl. rewrite lookup_insert_eq. by case_match.
Qed.
End Cache.

Lemma idempotency_cache_replays_witness :
  (idempotency_begin 50 (Some "k") (idempotency_json 0 60 200 "k" tt ∅)).2 = IdemReplay tt.
Proof. rewrite idempotency_cache_replays by discriminate. reflexivity. Defined.

End IdempotencyCache.
