(* ===== verification/Refund.v ===== *)
(** The refund lifecycle: backend/src/services/refundService.js over the Payment
    and Refund collections (backend/src/models/refundModel.js with its unique
    indexes), the outbox and the per-payment distributed lock.

    A transaction commits all its writes or none: it is modelled as a candidate
    state that is kept only when the unique indexes of the Refund collection
    accept it.  [document.save()] writes the modified paths of a loaded document
    to the stored one. *)

From Stdlib Require Import ZArith Lia.
From stdpp Require Import base list strings gmap.
From S2P Require Import Prelude JsNumber JsString ModelPlugins Confirmation PaymentStatus PaymentModel PaymentAdmin DistributedLock.
Import PaymentModel DistributedLock.
Local Open Scope string_scope.
Local Open Scope Z_scope.
Local Open Scope list_scope.

Module Refund.

Inductive refund_status :=
| R_approval_pending | R_pending | R_submitted | R_confirmed | R_rejected | R_failed.

#[export] Instance refund_status_eq_dec : EqDecision refund_status.
Proof. solve_decision. Defined.

Definition status_name (s : refund_status) : string :=
  match s with
  | R_approval_pending => "approval_pending" | R_pending => "pending"
  | R_submitted => "submitted" | R_confirmed => "confirmed"
  | R_rejected => "rejected" | R_failed => "failed"
  end.

Definition ACTIVE_REFUND_STATUSES : list refund_status :=
  [R_approval_pending; R_pending; R_submitted; R_confirmed].

Definition REFUND_STATUS_TRANSITIONS (s : refund_status) : list refund_status :=
  match s with
  | R_approval_pending => [R_pending; R_rejected; R_failed]
  | R_pending => [R_submitted; R_failed]
  | R_submitted => [R_confirmed; R_failed]
  | R_confirmed => []
  | R_rejected => []
  | R_failed => []
  end.

Definition VALID_REFUND_STATUSES : list refund_status :=
  [R_approval_pending; R_pending; R_submitted; R_confirmed; R_rejected; R_failed].

Definition REFUND_LOCK_TTL_MS : Z := 30000.

Definition refundLockKey (schoolId originalTxHash : string) : string :=
  ("refund:lock:" ++ schoolId ++ ":" ++ originalTxHash)%string.

Record principal := Principal { userId : string; displayName : string }.

Record refund := RefundDoc {
  rf_id : Z;
  rf_schoolId : string;
  rf_originalTxHash : string;
  rf_studentId : string;
  rf_refundTxHash : option string;
  rf_amount : number;
  rf_status : refund_status;
  rf_reason : string;
  rf_initiatedBy : principal;
  rf_approvedBy : option principal;
  rf_rejectedBy : option principal;
  rf_note : option string;         (* rejectionReason / failureReason *)
}.

Inductive code :=
| UNKNOWN_PRINCIPAL | REFUND_LOCK_CONTENDED | PAYMENT_NOT_FOUND | INVALID_AMOUNT
| AMOUNT_EXCEEDS_REFUNDABLE | REFUND_ALREADY_EXISTS | NOT_FOUND | INVALID_STATE
| SELF_APPROVAL_NOT_ALLOWED | VALIDATION_ERROR | INVALID_STATUS | INVALID_STATUS_TRANSITION
| DUPLICATE_KEY     (* E11000 of a unique index *)
| SCHEMA_INVALID.   (* Mongoose ValidationError *)

#[export] Instance code_eq_dec : EqDecision code.
Proof. solve_decision. Defined.

(** Fields of the admin token and the audit context, as far as they are set. *)
Record admin_claims := Admin {
  ad_id : option string; ad__id : option string; ad_userId : option string;
  ad_email : option string; ad_username : option string; ad_name : option string }.

(** [a || b || ...] over optional strings. *)
Definition first_truthy (l : list (option string)) : option string :=
  match List.find (fun o => str_truthy (default "" o)) l with Some o => o | None => None end.

Definition buildPrincipal (performedBy : option string) (admin : option admin_claims)
  : result code principal :=
  let a := default (Admin None None None None None None) admin in
  let uid := first_truthy [ad_id a; ad__id a; ad_userId a; performedBy] in
  match uid with
  | None => Throw UNKNOWN_PRINCIPAL
  | Some u =>
    if bool_decide (u = "unknown") then Throw UNKNOWN_PRINCIPAL
    else Ok (Principal u (default u (first_truthy [ad_email a; ad_username a; ad_name a; performedBy])))
  end.

Inductive outbox_event :=
| RefundInitiated (refundId : Z) (tx : string) (amount : number) (by_ : principal)
| RefundApproved (refundId : Z) (tx : string) (approvedBy : principal)
| RefundRejected (refundId : Z) (tx : string) (rejectedBy : principal)
| RefundStatusChanged (refundId : Z) (tx : string) (previous new_ : refund_status).

Record db := Db {
  payments : list payment;
  refunds : list refund;
  outbox : list outbox_event;
  emitted : list (refund_status * refund_status);  (* in-process refund.status_changed *)
  locks : redis;
  next_id : Z;
}.

(** What a call gets from its environment: the time, a fresh lock token, and
    whether its two lock calls reach Redis. *)
Record env := Env { e_now : Z; e_token : string; e_acquire : fault; e_release : fault }.

(** ** Collections *)

Definition is_active (r : refund) : bool := bool_decide (rf_status r ∈ ACTIVE_REFUND_STATUSES).

Definition active_keys (l : list refund) : list (string * string) :=
  (fun r => (rf_schoolId r, rf_originalTxHash r)) <$> List.filter is_active l.

(** The unique indexes of the Refund collection: one active refund per payment,
    and [refundTxHash], which is sparse but stored as [null] by default, and a
    stored [null] is an indexed value. *)
Definition index_ok (l : list refund) : bool :=
  bool_decide (NoDup (active_keys l)) && bool_decide (NoDup (rf_refundTxHash <$> l)).

Definition commit (d d' : db) : db * result code unit :=
  if index_ok (refunds d') then (d', Ok tt) else (d, Throw DUPLICATE_KEY).

Definition find_payment (schoolId tx : string) (extra : payment -> bool) (l : list payment)
  : option payment :=
  List.find (fun p => bool_decide (p_schoolId p = schoolId) && bool_decide (p_txHash p = tx)
                      && extra p && bool_decide (p_deletedAt p = None)) l.

Definition find_refund (id : Z) (schoolId : option string) (l : list refund) : option refund :=
  List.find (fun r => (rf_id r =? id) &&
    match schoolId with Some s => bool_decide (rf_schoolId r = s) | None => true end) l.

Definition update_refund (id : Z) (f : refund -> refund) (l : list refund) : list refund :=
  (fun r => if rf_id r =? id then f r else r) <$> l.

Definition set_payment_status (now : Z) (s : payment_status) (p : payment) (l : list payment)
  : list payment :=
  PaymentAdmin.save (syncDerivedLifecycleFields now (Some p) (set_status s p)) l.

Definition with_rf_status (s : refund_status) (r : refund) : refund :=
  RefundDoc (rf_id r) (rf_schoolId r) (rf_originalTxHash r) (rf_studentId r) (rf_refundTxHash r)
    (rf_amount r) s (rf_reason r) (rf_initiatedBy r) (rf_approvedBy r) (rf_rejectedBy r) (rf_note r).
Definition with_approved (p : principal) (r : refund) : refund :=
  RefundDoc (rf_id r) (rf_schoolId r) (rf_originalTxHash r) (rf_studentId r) (rf_refundTxHash r)
    (rf_amount r) (rf_status r) (rf_reason r) (rf_initiatedBy r) (Some p) (rf_rejectedBy r) (rf_note r).
Definition with_rejected (p : principal) (why : string) (r : refund) : refund :=
  RefundDoc (rf_id r) (rf_schoolId r) (rf_originalTxHash r) (rf_studentId r) (rf_refundTxHash r)
    (rf_amount r) (rf_status r) (rf_reason r) (rf_initiatedBy r) (rf_approvedBy r) (Some p) (Some why).
Definition with_txHash (h : string) (r : refund) : refund :=
  RefundDoc (rf_id r) (rf_schoolId r) (rf_originalTxHash r) (rf_studentId r) (Some h)
    (rf_amount r) (rf_status r) (rf_reason r) (rf_initiatedBy r) (rf_approvedBy r) (rf_rejectedBy r) (rf_note r).
Definition with_note (n : string) (r : refund) : refund :=
  RefundDoc (rf_id r) (rf_schoolId r) (rf_originalTxHash r) (rf_studentId r) (rf_refundTxHash r)
    (rf_amount r) (rf_status r) (rf_reason r) (rf_initiatedBy r) (rf_approvedBy r) (rf_rejectedBy r) (Some n).

Definition set_locks (l : redis) (d : db) : db :=
  Db (payments d) (refunds d) (outbox d) (emitted d) l (next_id d).

(** ** Shared guards *)

Definition known_principal (p : option principal) : result code principal :=
  match p with
  | None => Throw UNKNOWN_PRINCIPAL
  | Some p => if negb (str_truthy (userId p)) || bool_decide (userId p = "unknown")
              then Throw UNKNOWN_PRINCIPAL else Ok p
  end.

(** [lock.acquire ... try ... finally lock.release] around [body]. *)
Definition with_refund_lock {A} (e : env) (key : string) (body : db -> db * result code A) (d : db)
  : db * result code A :=
  match acquire_redis (e_acquire e) (e_token e) key REFUND_LOCK_TTL_MS (locks d) with
  | (l, None) => (set_locks l d, Throw REFUND_LOCK_CONTENDED)
  | (l, Some a) =>
    let '(d1, res) := body (set_locks l d) in
    (set_locks (release_redis (e_release e) key (a_token a) (locks d1)).1 d1, res)
  end.

(** [parseFloat(x.toFixed(7))] *)
Definition round7 (x : number) : number :=
  match x with
  | Fin _ => match toFixed x 7 with Some l => parseFloat l | None => x end
  | _ => x
  end.

Definition alreadyRefunded (schoolId tx : string) (l : list refund) : number :=
  foldl (fun acc r => if bool_decide (rf_schoolId r = schoolId)
                         && bool_decide (rf_originalTxHash r = tx)
                         && bool_decide (rf_status r = R_confirmed)
                      then num_add acc (rf_amount r) else acc) (of_Z 0) l.

(** Schema validation of a new refund ([reason] is trimmed first). *)
Definition schema_ok (studentId reason : string) (p : principal) : bool :=
  str_truthy studentId && str_truthy (str_trim reason)
  && (length (chars (str_trim reason)) <=? 1000)%nat && str_truthy (displayName p).

(** ** Operations *)

Definition initiate_body (e : env) (schoolId originalTxHash studentId : string) (amount : number)
  (reason : string) (p : principal) (d : db) : db * result code refund :=
  match find_payment schoolId originalTxHash (fun q => bool_decide (p_status q = S_SUCCESS)) (payments d) with
  | None => (d, Throw PAYMENT_NOT_FOUND)
  | Some payment =>
    if negb (num_truthy amount) || num_le amount (of_Z 0) then (d, Throw INVALID_AMOUNT) else
    let refundable := round7 (num_sub (p_amount payment)
                                (alreadyRefunded schoolId originalTxHash (refunds d))) in
    if num_gt amount refundable then (d, Throw AMOUNT_EXCEEDS_REFUNDABLE) else
    match List.find (fun r => bool_decide (rf_schoolId r = schoolId)
                              && bool_decide (rf_originalTxHash r = originalTxHash)
                              && is_active r) (refunds d) with
    | Some _ => (d, Throw REFUND_ALREADY_EXISTS)
    | None =>
      if negb (schema_ok studentId reason p) then (d, Throw SCHEMA_INVALID) else
      let r := RefundDoc (next_id d) schoolId originalTxHash studentId None amount
                 R_approval_pending (str_trim reason) p None None None in
      let d' := Db (set_payment_status (e_now e) S_REFUND_PENDING payment (payments d))
                  (refunds d ++ [r])
                  (outbox d ++ [RefundInitiated (rf_id r) originalTxHash amount p])
                  (emitted d) (locks d) (next_id d + 1) in
      match commit d d' with
      | (d1, Ok _) => (d1, Ok r)
      | (d1, Throw c) => (d1, Throw c)
      end
    end
  end.

Definition initiateRefund (e : env) (schoolId originalTxHash studentId : string) (amount : number)
  (reason : string) (who : option principal) (d : db) : db * result code refund :=
  match known_principal who with
  | Throw c => (d, Throw c)
  | Ok p => with_refund_lock e (refundLockKey schoolId originalTxHash)
              (initiate_body e schoolId originalTxHash studentId amount reason p) d
  end.

(** The checks of [approveRefund], on the refund it loads. *)
Definition approve_check (refundId : Z) (who : option principal) (schoolId : string) (d : db)
  : result code (refund * principal) :=
  (p ← known_principal who;
   refund ← of_option (find_refund refundId (Some schoolId) (refunds d)) NOT_FOUND;
   _ ← guard_else (bool_decide (rf_status refund = R_approval_pending)) INVALID_STATE;
   _ ← guard_else (negb (bool_decide (userId (rf_initiatedBy refund) = userId p)))
         SELF_APPROVAL_NOT_ALLOWED;
   Ok (refund, p)).

(** The transaction of [approveRefund]: no lock, no re-read of the refund. *)
Definition approve_commit (loaded : refund) (p : principal) (d : db) : db * result code refund :=
  let upd := fun r => with_approved p (with_rf_status R_pending r) in
  let d' := Db (payments d) (update_refund (rf_id loaded) upd (refunds d))
              (outbox d ++ [RefundApproved (rf_id loaded) (rf_originalTxHash loaded) p])
              (emitted d) (locks d) (next_id d) in
  match commit d d' with
  | (d1, Ok _) => (d1, Ok (upd loaded))
  | (d1, Throw c) => (d1, Throw c)
  end.

Definition approveRefund (refundId : Z) (who : option principal) (schoolId : string) (d : db)
  : db * result code refund :=
  match approve_check refundId who schoolId d with
  | Throw c => (d, Throw c)
  | Ok (refund, p) => approve_commit refund p d
  end.

Definition reject_check (refundId : Z) (who : option principal) (rejectReason schoolId : string) (d : db)
  : result code (refund * principal) :=
  (p ← known_principal who;
   _ ← guard_else (str_truthy rejectReason && str_truthy (str_trim rejectReason)) VALIDATION_ERROR;
   refund ← of_option (find_refund refundId (Some schoolId) (refunds d)) NOT_FOUND;
   _ ← guard_else (bool_decide (rf_status refund = R_approval_pending)) INVALID_STATE;
   _ ← guard_else (negb (bool_decide (userId (rf_initiatedBy refund) = userId p)))
         SELF_APPROVAL_NOT_ALLOWED;
   Ok (refund, p)).

(** The locked section of [rejectRefund]; the refund loaded before is not read again. *)
Definition reject_body (e : env) (loaded : refund) (p : principal) (why : string) (d : db)
  : db * result code refund :=
  match find_payment (rf_schoolId loaded) (rf_originalTxHash loaded) (fun _ => true) (payments d) with
  | None => (d, Throw PAYMENT_NOT_FOUND)
  | Some payment =>
    if negb (length (chars why) <=? 1000)%nat then (d, Throw SCHEMA_INVALID) else
    let upd := fun r => with_rejected p why (with_rf_status R_rejected r) in
    let d' := Db (set_payment_status (e_now e) S_SUCCESS payment (payments d))
                (update_refund (rf_id loaded) upd (refunds d))
                (outbox d ++ [RefundRejected (rf_id loaded) (rf_originalTxHash loaded) p])
                (emitted d) (locks d) (next_id d) in
    match commit d d' with
    | (d1, Ok _) => (Db (payments d1) (refunds d1) (outbox d1)
                       (emitted d1 ++ [(R_approval_pending, R_rejected)]) (locks d1) (next_id d1),
                     Ok (upd loaded))
    | (d1, Throw c) => (d1, Throw c)
    end
  end.

Definition rejectRefund (e : env) (refundId : Z) (who : option principal) (rejectReason schoolId : string)
  (d : db) : db * result code refund :=
  match reject_check refundId who rejectReason schoolId d with
  | Throw c => (d, Throw c)
  | Ok (refund, p) =>
    with_refund_lock e (refundLockKey (rf_schoolId refund) (rf_originalTxHash refund))
      (reject_body e refund p rejectReason) d
  end.

Definition complete_check (refundId : Z) (refundTxHash : string) (who : option principal)
  (schoolId : string) (d : db) : result code (refund * principal) :=
  (p ← known_principal who;
   _ ← guard_else (str_truthy refundTxHash && str_truthy (str_trim refundTxHash)) VALIDATION_ERROR;
   refund ← of_option (find_refund refundId (Some schoolId) (refunds d)) NOT_FOUND;
   _ ← guard_else (bool_decide (rf_status refund = R_pending)) INVALID_STATE;
   Ok (refund, p)).

(** The balance update that follows is best-effort and touches neither
    collection; it is the student-balance component's. *)
Definition complete_body (e : env) (loaded : refund) (refundTxHash : string) (d : db)
  : db * result code refund :=
  match find_payment (rf_schoolId loaded) (rf_originalTxHash loaded) (fun _ => true) (payments d) with
  | None => (d, Throw PAYMENT_NOT_FOUND)
  | Some payment =>
    let upd := fun r => with_txHash refundTxHash (with_rf_status R_confirmed r) in
    let d' := Db (set_payment_status (e_now e) S_REFUNDED payment (payments d))
                (update_refund (rf_id loaded) upd (refunds d))
                (outbox d ++ [RefundStatusChanged (rf_id loaded) (rf_originalTxHash loaded)
                                R_pending R_confirmed])
                (emitted d) (locks d) (next_id d) in
    match commit d d' with
    | (d1, Ok _) => (Db (payments d1) (refunds d1) (outbox d1)
                       (emitted d1 ++ [(R_pending, R_confirmed)]) (locks d1) (next_id d1),
                     Ok (upd loaded))
    | (d1, Throw c) => (d1, Throw c)
    end
  end.

Definition completeRefund (e : env) (refundId : Z) (refundTxHash : string) (who : option principal)
  (schoolId : string) (d : db) : db * result code refund :=
  match complete_check refundId refundTxHash who schoolId d with
  | Throw c => (d, Throw c)
  | Ok (refund, _) =>
    with_refund_lock e (refundLockKey (rf_schoolId refund) (rf_originalTxHash refund))
      (complete_body e refund refundTxHash) d
  end.

Definition update_status_body (refundId : Z) (newStatus : refund_status)
  (txHash failureReason schoolId : option string) (d : db) : db * result code refund :=
  match find_refund refundId schoolId (refunds d) with
  | None => (d, Throw NOT_FOUND)
  | Some lockedRefund =>
    let previousStatus := rf_status lockedRefund in
    if negb (bool_decide (newStatus ∈ REFUND_STATUS_TRANSITIONS previousStatus))
    then (d, Throw INVALID_STATUS_TRANSITION) else
    let upd := fun r =>
      let r := with_rf_status newStatus r in
      if bool_decide (newStatus = R_confirmed) && str_truthy (default "" txHash)
      then with_txHash (default "" txHash) r
      else if bool_decide (newStatus = R_failed) && str_truthy (default "" failureReason)
      then with_note (default "" failureReason) r else r in
    let d' := Db (payments d) (update_refund refundId upd (refunds d))
                (outbox d ++ [RefundStatusChanged refundId (rf_originalTxHash lockedRefund)
                                previousStatus newStatus])
                (emitted d) (locks d) (next_id d) in
    match commit d d' with
    | (d1, Ok _) => (Db (payments d1) (refunds d1) (outbox d1)
                       (emitted d1 ++ [(previousStatus, newStatus)]) (locks d1) (next_id d1),
                     Ok (upd lockedRefund))
    | (d1, Throw c) => (d1, Throw c)
    end
  end.

Definition updateRefundStatus (e : env) (refundId : Z) (newStatus : string)
  (txHash failureReason schoolId : option string) (d : db) : db * result code refund :=
  match List.find (fun s => bool_decide (status_name s = newStatus)) VALID_REFUND_STATUSES with
  | None => (d, Throw INVALID_STATUS)
  | Some ns =>
    let schoolId := if str_truthy (default "" schoolId) then schoolId else None in
    match find_refund refundId schoolId (refunds d) with
    | None => (d, Throw NOT_FOUND)
    | Some refund =>
      with_refund_lock e (refundLockKey (rf_schoolId refund) (rf_originalTxHash refund))
        (update_status_body refundId ns txHash failureReason schoolId) d
    end
  end.

(** ** The invariant of the lifecycle *)

Definition refund_key (r : refund) : string * string := (rf_schoolId r, rf_originalTxHash r).
Definition payment_key (p : payment) : string * string := (p_schoolId p, p_txHash p).

(** A payment of the transaction that [r] refunds is in the collection, visible,
    in status [s].  A transaction with several operations has several payments
    (#1558) and a refund names only the transaction. *)
Definition payment_in (ps : list payment) (r : refund) (s : payment_status) : Prop :=
  exists p, p ∈ ps /\ payment_key p = refund_key r /\ p_deletedAt p = None /\ p_status p = s.

Definition approved_by_other (r : refund) : Prop :=
  exists a, rf_approvedBy r = Some a /\ userId a <> userId (rf_initiatedBy r).

Definition within_payment (ps : list payment) (r : refund) : Prop :=
  num_lt (of_Z 0) (rf_amount r) = true /\
  exists p, p ∈ ps /\ payment_key p = refund_key r /\
    num_gt (rf_amount r) (round7 (num_sub (p_amount p) (of_Z 0))) = false.

(** [T] lists the refunds that [updateRefundStatus] was called for: it checks
    neither the approver nor the payment, so nothing is said of them beyond the
    indexes and the amounts. *)
Record inv (T : list Z) (ps : list payment) (rs : list refund) (n : Z) : Prop := {
  (* at most one active refund per transaction, unique on-chain hashes *)
  i_index : index_ok rs = true;
  i_ids : NoDup (rf_id <$> rs);
  i_next : Forall (fun r => rf_id r < n) rs;
  i_pids : NoDup (p_id <$> ps);
  (* the two-person rule *)
  i_two : forall r, r ∈ rs -> rf_id r ∉ T -> rf_status r ∈ [R_pending; R_submitted; R_confirmed] -> approved_by_other r;
  (* a refund is positive and at most a payment of its transaction *)
  i_amount : forall r, r ∈ rs -> within_payment ps r;
  (* a refund under way holds a payment of its transaction in REFUND_PENDING, a
     confirmed one in REFUNDED *)
  i_money : forall r, r ∈ rs -> rf_id r ∉ T -> rf_status r ∈ [R_approval_pending; R_pending] ->
    payment_in ps r S_REFUND_PENDING;
  i_done : forall r, r ∈ rs -> rf_id r ∉ T -> rf_status r = R_confirmed -> payment_in ps r S_REFUNDED;
}.

(** *** Collections *)

Lemma index_active rs x y :
  index_ok rs = true -> x ∈ rs -> y ∈ rs -> is_active x = true -> is_active y = true ->
  refund_key x = refund_key y -> x = y.
Proof.
  intros Hi Hx Hy Ax Ay E. unfold index_ok in Hi. apply andb_true_iff in Hi as [Hi _].
  apply bool_decide_eq_true in Hi.
  eapply (NoDup_fmap_eq _ _ x y Hi); [by apply elem_of_filterb..|exact E].
Qed.

Lemma update_refund_elem id f rs x r :
  NoDup (rf_id <$> rs) -> r ∈ rs -> rf_id r = id ->
  x ∈ update_refund id f rs -> x = f r \/ (x ∈ rs /\ x <> r).
Proof.
  intros Hn Hr Hid Hx. unfold update_refund in Hx.
  apply list_elem_of_fmap in Hx as (y & -> & Hy). destruct (Z.eqb_spec (rf_id y) id) as [E|E].
  - left. f_equal. eapply (NoDup_fmap_eq rf_id rs); [done..|congruence].
  - right. split; [done|]. congruence.
Qed.

Lemma update_refund_ids id f rs :
  (forall r, rf_id (f r) = rf_id r) -> rf_id <$> update_refund id f rs = rf_id <$> rs.
Proof.
  intros Hf. unfold update_refund. rewrite <- list_fmap_compose. apply list_fmap_ext.
  intros i r _. simpl. by case_match.
Qed.

Lemma find_payment_some school tx extra ps p :
  find_payment school tx extra ps = Some p ->
  p ∈ ps /\ payment_key p = (school, tx) /\ extra p = true /\ p_deletedAt p = None.
Proof.
  intros [Hin Hp]%find_exists.
  apply andb_true_iff in Hp as [[[H1 H2]%andb_true_iff H3]%andb_true_iff H4].
  apply bool_decide_eq_true in H1, H2, H4. unfold payment_key. by rewrite H1, H2.
Qed.

Lemma find_refund_some id school rs r :
  find_refund id school rs = Some r -> r ∈ rs /\ rf_id r = id.
Proof.
  intros [Hin Hp]%find_exists. apply andb_true_iff in Hp as [H1 _].
  apply Z.eqb_eq in H1. done.
Qed.

Section SetPayment.
Context (ps : list payment) (p : payment) (now : Z) (s : payment_status).
Hypothesis Hids : NoDup (p_id <$> ps).
Hypothesis Hp : p ∈ ps.

Local Abbreviation ps' := (set_payment_status now s p ps).
Local Abbreviation p' := (syncDerivedLifecycleFields now (Some p) (set_status s p)).

Lemma set_payment_ids : p_id <$> ps' = p_id <$> ps.
Proof. apply PaymentAdmin.save_ids. Qed.

Lemma set_payment_keys : payment_key <$> ps' = payment_key <$> ps.
Proof.
  unfold set_payment_status, PaymentAdmin.save. rewrite <- list_fmap_compose.
  apply list_fmap_ext. intros i q Hq. simpl.
  destruct (Z.eqb_spec (p_id q) (p_id p')) as [E|]; [|done].
  rewrite hook_id in E. simpl in E.
  assert (q = p) as -> by (eapply (NoDup_fmap_eq p_id ps); eauto using list_elem_of_lookup_2).
  unfold payment_key. by rewrite hook_school, hook_txHash.
Qed.

Lemma set_payment_other q : q ∈ ps -> q <> p -> q ∈ ps'.
Proof.
  intros Hq Hne. unfold set_payment_status, PaymentAdmin.save.
  apply list_elem_of_fmap. exists q. split; [|done].
  destruct (Z.eqb_spec (p_id q) (p_id p')) as [E|]; [|done].
  rewrite hook_id in E. simpl in E. exfalso. apply Hne.
  by eapply (NoDup_fmap_eq p_id ps).
Qed.

Lemma set_payment_this : p' ∈ ps'.
Proof.
  unfold set_payment_status, PaymentAdmin.save. apply list_elem_of_fmap. exists p.
  split; [|done]. rewrite hook_id. simpl. by rewrite Z.eqb_refl.
Qed.

Lemma hook_amount o q : p_amount (syncDerivedLifecycleFields now o q) = p_amount q.
Proof. unfold syncDerivedLifecycleFields. by crush_match. Qed.

Lemma set_payment_within r : within_payment ps r -> within_payment ps' r.
Proof.
  intros (Hpos & q & Hq & Hk & Ha). split; [done|].
  destruct (decide (p_id q = p_id p)) as [E|Hne].
  - assert (q = p) as -> by (by eapply (NoDup_fmap_eq p_id ps)).
    exists p'. split_and!; [apply set_payment_this| |by rewrite hook_amount].
    rewrite <- Hk. unfold payment_key. by rewrite hook_school, hook_txHash.
  - exists q. split_and!; [apply set_payment_other; congruence|done|done].
Qed.

Lemma set_payment_in_other r s' : p_status p <> s' -> payment_in ps r s' -> payment_in ps' r s'.
Proof.
  intros Hne (q & Hq & Hk & Hd & Hs). exists q. split_and!; try done.
  apply set_payment_other; [done|]. congruence.
Qed.

Lemma set_payment_in_key r s' : payment_key p <> refund_key r ->
  payment_in ps r s' -> payment_in ps' r s'.
Proof.
  intros Hne (q & Hq & Hk & Hd & Hs). exists q. split_and!; try done.
  apply set_payment_other; [done|]. congruence.
Qed.

Lemma set_payment_in_this r : payment_key p = refund_key r -> p_deletedAt p = None ->
  payment_in ps' r s.
Proof.
  intros Hk Hd. exists p'. rewrite hook_deletedAt, hook_status.
  split_and!; [apply set_payment_this| |done|done].
  rewrite <- Hk. unfold payment_key. by rewrite hook_school, hook_txHash.
Qed.
End SetPayment.

Lemma payment_in_key ps r r' s : refund_key r = refund_key r' -> payment_in ps r s -> payment_in ps r' s.
Proof. unfold payment_in. intros ->. done. Qed.

Lemma within_key ps r r' : refund_key r = refund_key r' -> rf_amount r = rf_amount r' ->
  within_payment ps r -> within_payment ps r'.
Proof. unfold within_payment. intros -> ->. done. Qed.

Lemma live_active r : rf_status r ∈ [R_approval_pending; R_pending] -> is_active r = true.
Proof.
  intros H. apply bool_decide_eq_true. unfold ACTIVE_REFUND_STATUSES.
  rewrite !elem_of_cons in *. tauto.
Qed.


(** *** Each transaction preserves the invariant *)

(** Replace the stored refund [r] by [f r] and give its payment status [s]. *)
Lemma inv_transaction T ps rs n r f p now s :
  inv T ps rs n -> r ∈ rs -> is_active r = true ->
  (forall x, rf_id (f x) = rf_id x) -> (forall x, refund_key (f x) = refund_key x) ->
  rf_amount (f r) = rf_amount r ->
  p ∈ ps -> payment_key p = refund_key r -> p_deletedAt p = None ->
  index_ok (update_refund (rf_id r) f rs) = true ->
  (rf_id r ∉ T -> rf_status (f r) ∈ [R_pending; R_submitted; R_confirmed] -> approved_by_other (f r)) ->
  (rf_status (f r) ∈ [R_approval_pending; R_pending] -> s = S_REFUND_PENDING) ->
  (rf_status (f r) = R_confirmed -> s = S_REFUNDED) ->
  inv T (set_payment_status now s p ps) (update_refund (rf_id r) f rs) n.
Proof.
  intros [Hidx Hids Hnext Hpids Htwo Hamt Hmoney Hdone] Hr Hact Hfid Hfk Hfa Hp Hpk Hpd
    Hidx' Hf2 Hf3 Hf4.
  assert (forall x, x ∈ update_refund (rf_id r) f rs -> x = f r \/ (x ∈ rs /\ x <> r)) as Hel.
  { intros x. by apply update_refund_elem. }
  assert (forall x, x ∈ rs -> x <> r -> is_active x = true -> payment_key p <> refund_key x) as Hkey.
  { intros x Hx Hne Hax E. apply Hne. apply (index_active rs x r Hidx Hx Hr Hax Hact). congruence. }
  split; try done.
  - by rewrite update_refund_ids.
  - apply Forall_forall. intros x [->|[Hx _]]%Hel; rewrite ?Hfid; by eapply Forall_forall in Hnext.
  - by rewrite set_payment_ids.
  - intros x [->|[Hx Hne]]%Hel; rewrite ?Hfid; eauto.
  - intros x [->|[Hx Hne]]%Hel; apply set_payment_within; eauto.
    apply (within_key ps r); [by rewrite Hfk|done|by apply Hamt].
  - intros x [->|[Hx Hne]]%Hel HT Hs.
    + rewrite <- (Hf3 Hs). apply set_payment_in_this; rewrite ?Hfk; done.
    + apply set_payment_in_key; [done|done| |by apply Hmoney].
      apply Hkey; [done|done|by apply live_active].
  - intros x [->|[Hx Hne]]%Hel HT Hs.
    + rewrite <- (Hf4 Hs). apply set_payment_in_this; rewrite ?Hfk; done.
    + apply set_payment_in_key; [done|done| |by apply Hdone].
      apply Hkey; [done|done|]. unfold is_active. rewrite Hs. reflexivity.
Qed.

Lemma commit_cases d d' d1 res :
  commit d d' = (d1, res) ->
  (d1 = d' /\ res = Ok tt /\ index_ok (refunds d') = true) \/ (d1 = d /\ res = Throw DUPLICATE_KEY).
Proof. unfold commit. destruct (index_ok _) eqn:E; intros [= <- <-]; auto. Qed.

Definition db_inv (T : list Z) (d : db) : Prop := inv T (payments d) (refunds d) (next_id d).

Lemma with_lock_inv {A} T e key (body : db -> db * result code A) d :
  (forall l, db_inv T (set_locks l d) -> db_inv T (body (set_locks l d)).1) ->
  db_inv T d -> db_inv T (with_refund_lock e key body d).1.
Proof.
  intros Hb Hi. unfold with_refund_lock. destruct (acquire_redis _ _ _ _ _) as [l [a|]]; [|done].
  specialize (Hb l Hi). destruct (body (set_locks l d)) as [d1 res]. done.
Qed.

Lemma alreadyRefunded_none school tx rs :
  (forall r, r ∈ rs -> refund_key r = (school, tx) -> rf_status r <> R_confirmed) ->
  alreadyRefunded school tx rs = of_Z 0.
Proof.
  unfold alreadyRefunded. generalize (of_Z 0) as acc. induction rs as [|r rs IH]; intros acc H; simpl; [done|].
  assert (bool_decide (rf_schoolId r = school) && bool_decide (rf_originalTxHash r = tx)
          && bool_decide (rf_status r = R_confirmed) = false) as ->.
  { apply not_true_is_false. intros E. apply andb_true_iff in E as [[E1 E2]%andb_true_iff E3].
    apply bool_decide_eq_true in E1, E2, E3. apply (H r); [by left|by unfold refund_key; rewrite E1, E2|done]. }
  apply IH. intros x Hx. apply H. by right.
Qed.

Lemma positive_amount a :
  negb (num_truthy a) || num_le a (of_Z 0) = false -> num_lt (of_Z 0) a = true.
Proof.
  destruct a as [|[]|q]; simpl; try done. unfold of_Z.
  intros [_ H]%orb_false_iff. unfold num_lt, num_le in *. simpl in *.
  rewrite <- negb_true_iff in H. unfold Qltb in *. done.
Qed.

Lemma initiate_inv T e school tx stu amt why p l d :
  db_inv T (set_locks l d) -> db_inv T (initiate_body e school tx stu amt why p (set_locks l d)).1.
Proof.
  unfold db_inv. simpl. intros Hi. unfold initiate_body. simpl.
  destruct (find_payment _ _ _ _) as [q|] eqn:Ep; [|done].
  destruct (_ || _) eqn:Ea; [done|]. destruct (num_gt _ _) eqn:Eg; [done|].
  destruct (List.find _ (refunds d)) eqn:Ef; [done|]. destruct (negb (schema_ok _ _ _)); [done|].
  destruct (commit _ _) as [d1 res] eqn:Ec. apply commit_cases in Ec as [(-> & -> & Hidx)|[-> ->]]; [|exact Hi].
  simpl in *. apply find_payment_some in Ep as (Hq & Hk & Hs & Hd). apply bool_decide_eq_true in Hs.
  pose proof (find_none_forall _ _ Ef) as Hno.
  assert (forall r, r ∈ refunds d -> refund_key r = (school, tx) -> is_active r = false) as Hna.
  { intros r Hr [= E1 E2]. specialize (Hno r Hr). apply not_true_is_false. intros Hx.
    cbn beta in Hno. rewrite Hx, andb_true_r in Hno.
    apply andb_false_iff in Hno as [Hno|Hno]; by apply bool_decide_eq_false in Hno. }
  rewrite alreadyRefunded_none in Eg.
  2: { intros r Hr Hkr E. specialize (Hna r Hr Hkr). unfold is_active in Hna. by rewrite E in Hna. }
  destruct Hi as [Hix Hids Hnext Hpids Htwo Hamt Hmoney Hdone].
  assert (forall r s', r ∈ refunds d -> s' <> S_SUCCESS -> payment_in (payments d) r s' ->
    payment_in (set_payment_status (e_now e) S_REFUND_PENDING q (payments d)) r s') as Hkeep.
  { intros r s' Hr Hne. apply set_payment_in_other; congruence. }
  split; try done.
  - rewrite fmap_app. simpl. apply NoDup_app. split_and!; [done| |apply NoDup_singleton].
    intros x Hx. rewrite list_elem_of_singleton. intros ->. apply list_elem_of_fmap in Hx as (r & E & Hr).
    rewrite Forall_forall in Hnext. specialize (Hnext r Hr). lia.
  - apply Forall_app. split; [|repeat constructor; simpl; lia].
    eapply Forall_impl; [exact Hnext|]. simpl. intros; lia.
  - by rewrite set_payment_ids.
  - intros r [Hr|Hr%list_elem_of_singleton]%elem_of_app; [auto|]. subst r. intros _. simpl.
    rewrite !elem_of_cons. intros [?|[?|[?|?%elem_of_nil]]]; done.
  - intros r [Hr|Hr%list_elem_of_singleton]%elem_of_app; apply set_payment_within; auto.
    subst r. split; [by apply positive_amount|]. exists q. done.
  - intros r [Hr|Hr%list_elem_of_singleton]%elem_of_app HT Hst; [by apply Hkeep; auto|].
    subst r. apply set_payment_in_this; done.
  - intros r [Hr|Hr%list_elem_of_singleton]%elem_of_app HT Hst; [by apply Hkeep; auto|]. by subst r.
Qed.


(** What the successful checks of the three follow-up operations say. *)
Lemma approve_check_ok id who school d r p :
  approve_check id who school d = Ok (r, p) ->
  r ∈ refunds d /\ rf_id r = id /\ rf_status r = R_approval_pending /\
  userId (rf_initiatedBy r) <> userId p.
Proof.
  unfold approve_check. intros (p0 & _ & H)%bind_Ok. apply bind_Ok in H as (r0 & Hf & H).
  apply bind_Ok in H as ([] & Hs & H). apply bind_Ok in H as ([] & Hu & H).
  injection H as -> ->. unfold of_option in Hf. case_match; simplify_eq.
  apply find_refund_some in H as [Hin Hid]. unfold guard_else in *.
  case_bool_decide; simplify_eq. case_bool_decide; simplify_eq. done.
Qed.

Lemma reject_check_ok id who why school d r p :
  reject_check id who why school d = Ok (r, p) ->
  r ∈ refunds d /\ rf_id r = id /\ rf_status r = R_approval_pending.
Proof.
  unfold reject_check. intros (p0 & _ & H)%bind_Ok. apply bind_Ok in H as ([] & _ & H).
  apply bind_Ok in H as (r0 & Hf & H). apply bind_Ok in H as ([] & Hs & H).
  apply bind_Ok in H as ([] & Hu & H). injection H as -> ->.
  unfold of_option in Hf. case_match; simplify_eq.
  apply find_refund_some in H as [Hin Hid]. unfold guard_else in *.
  case_bool_decide; simplify_eq. done.
Qed.

Lemma complete_check_ok id h who school d r p :
  complete_check id h who school d = Ok (r, p) ->
  r ∈ refunds d /\ rf_id r = id /\ rf_status r = R_pending.
Proof.
  unfold complete_check. intros (p0 & _ & H)%bind_Ok. apply bind_Ok in H as ([] & _ & H).
  apply bind_Ok in H as (r0 & Hf & H). apply bind_Ok in H as ([] & Hs & H). injection H as -> ->.
  unfold of_option in Hf. case_match; simplify_eq.
  apply find_refund_some in H as [Hin Hid]. unfold guard_else in *.
  case_bool_decide; simplify_eq. done.
Qed.

Lemma approve_commit_inv T d r p :
  db_inv T d -> r ∈ refunds d -> rf_status r = R_approval_pending ->
  userId (rf_initiatedBy r) <> userId p -> db_inv T (approve_commit r p d).1.
Proof.
  unfold db_inv. intros Hi Hr Hs Hne. unfold approve_commit.
  destruct (commit _ _) as [d1 res] eqn:Ec.
  apply commit_cases in Ec as [(-> & -> & Hidx)|[-> ->]]; [|exact Hi]. simpl in *.
  destruct Hi as [Hidx0 Hids Hnext Hpids Htwo Hamt Hmoney Hdone].
  assert (forall x, x ∈ update_refund (rf_id r)
      (fun r => with_approved p (with_rf_status R_pending r)) (refunds d) ->
      x = with_approved p (with_rf_status R_pending r) \/ (x ∈ refunds d /\ x <> r)) as Hel.
  { intros x Hx. eapply update_refund_elem in Hx; eauto. }
  split; try done.
  - by rewrite update_refund_ids.
  - apply Forall_forall. intros x [->|[Hx _]]%Hel; simpl; by eapply Forall_forall in Hnext.
  - intros x [->|[Hx _]]%Hel HT Hst; [|by apply Htwo]. by exists p.
  - intros x [->|[Hx _]]%Hel; [|by apply Hamt]. apply (within_key _ r); [done|done|by apply Hamt].
  - intros x [->|[Hx _]]%Hel HT Hst; [|by apply Hmoney].
    apply (payment_in_key _ r); [done|]. apply Hmoney; [done|done|]. rewrite Hs. by left.
  - intros x [->|[Hx _]]%Hel HT Hst; [done|by apply Hdone].
Qed.

Lemma reject_body_inv T e r p why d :
  db_inv T d -> r ∈ refunds d -> rf_status r = R_approval_pending -> db_inv T (reject_body e r p why d).1.
Proof.
  unfold db_inv. intros Hi Hr Hs. unfold reject_body.
  destruct (find_payment _ _ _ _) as [q|] eqn:Ep; [|done]. destruct (negb _); [done|].
  destruct (commit _ _) as [d1 res] eqn:Ec.
  apply commit_cases in Ec as [(-> & -> & Hidx)|[-> ->]]; [|exact Hi]. simpl in *.
  apply find_payment_some in Ep as (Hq & Hk & _ & Hd).
  apply inv_transaction; simpl; try done.
  - unfold is_active. by rewrite Hs.
  - intros _. rewrite !elem_of_cons. intros [?|[?|[?|?%elem_of_nil]]]; done.
  - rewrite !elem_of_cons. intros [?|[?|?%elem_of_nil]]; done.
Qed.

Lemma complete_body_inv T e r h d :
  db_inv T d -> r ∈ refunds d -> rf_status r = R_pending -> db_inv T (complete_body e r h d).1.
Proof.
  unfold db_inv. intros Hi Hr Hs. unfold complete_body.
  destruct (find_payment _ _ _ _) as [q|] eqn:Ep; [|done].
  destruct (commit _ _) as [d1 res] eqn:Ec.
  apply commit_cases in Ec as [(-> & -> & Hidx)|[-> ->]]; [|exact Hi]. simpl in *.
  apply find_payment_some in Ep as (Hq & Hk & _ & Hd).
  apply inv_transaction; simpl; try done.
  - unfold is_active. by rewrite Hs.
  - intros HT _. destruct (i_two _ _ _ _ Hi r Hr HT) as (a & Ha & Hne); [rewrite Hs; by left|].
    by exists a.
  - rewrite !elem_of_cons. intros [?|[?|?%elem_of_nil]]; done.
Qed.

(** ** Sequences of operations *)

Inductive op :=
| Initiate (e : env) (schoolId tx studentId : string) (amount : number) (reason : string)
    (who : option principal)
| Approve (refundId : Z) (who : option principal) (schoolId : string)
| Reject (e : env) (refundId : Z) (who : option principal) (why schoolId : string)
| Complete (e : env) (refundId : Z) (refundTxHash : string) (who : option principal) (schoolId : string)
| UpdateStatus (e : env) (refundId : Z) (newStatus : string) (txHash failureReason schoolId : option string).

Definition step (o : op) (d : db) : db * result code refund :=
  match o with
  | Initiate e sc tx st a why who => initiateRefund e sc tx st a why who d
  | Approve id who sc => approveRefund id who sc d
  | Reject e id who why sc => rejectRefund e id who why sc d
  | Complete e id h who sc => completeRefund e id h who sc d
  | UpdateStatus e id ns h why sc => updateRefundStatus e id ns h why sc d
  end.

Definition run (os : list op) (d : db) : db := fold_left (fun d o => (step o d).1) os d.

(** The refunds a history passes to [updateRefundStatus]. *)
Definition generically_updated (os : list op) : list Z :=
  omap (fun o => match o with UpdateStatus _ id _ _ _ _ => Some id | _ => None end) os.

(** The generic update changes neither payments nor amounts, and the refund it
    changes is one of [T]. *)
Lemma update_status_body_inv T id ns h why sc d :
  db_inv T d -> id ∈ T -> db_inv T (update_status_body id ns h why sc d).1.
Proof.
  unfold db_inv. intros Hi HT. unfold update_status_body.
  destruct (find_refund _ _ _) as [r|] eqn:Ef; [|done]. destruct (negb _); [done|].
  destruct (commit _ _) as [d1 res] eqn:Ec.
  apply commit_cases in Ec as [(-> & -> & Hidx)|[-> ->]]; [|exact Hi]. simpl in *.
  apply find_refund_some in Ef as [Hr <-].
  set (f := fun r0 : refund => _) in *.
  assert (forall x, rf_id (f x) = rf_id x /\ refund_key (f x) = refund_key x /\
            rf_amount (f x) = rf_amount x) as Hf by (intros x; unfold f; by repeat case_match).
  destruct Hi as [Hidx0 Hids Hnext Hpids Htwo Hamt Hmoney Hdone].
  assert (forall x, x ∈ update_refund (rf_id r) f (refunds d) ->
            x = f r \/ (x ∈ refunds d /\ x <> r)) as Hel.
  { intros x Hx. by eapply update_refund_elem in Hx. }
  destruct (Hf r) as (Hfi & Hfk & Hfa).
  split; try done.
  - rewrite update_refund_ids; [done|]. intros x. apply Hf.
  - apply Forall_forall. intros x [->|[Hx _]]%Hel; rewrite ?Hfi; by eapply Forall_forall in Hnext.
  - intros x [->|[Hx _]]%Hel HT'; [by rewrite Hfi in HT'|by apply Htwo].
  - intros x [->|[Hx _]]%Hel; [|by apply Hamt]. apply (within_key _ r); [done|done|by apply Hamt].
  - intros x [->|[Hx _]]%Hel HT'; [by rewrite Hfi in HT'|by apply Hmoney].
  - intros x [->|[Hx _]]%Hel HT'; [by rewrite Hfi in HT'|by apply Hdone].
Qed.

Lemma refund_step_inv T o d :
  (forall id, id ∈ generically_updated [o] -> id ∈ T) -> db_inv T d -> db_inv T (step o d).1.
Proof.
  intros HT Hi.
  destruct o as [e sc tx st a why who|id who sc|e id who why sc|e id h who sc|e id ns h why sc]; simpl.
  - unfold initiateRefund. destruct (known_principal who); [|done].
    apply with_lock_inv; [|done]. intros l Hl. by apply initiate_inv.
  - unfold approveRefund. destruct (approve_check _ _ _ _) as [[r p]|] eqn:E; [|done].
    apply approve_check_ok in E as (Hr & _ & Hs & Hne). by apply approve_commit_inv.
  - unfold rejectRefund. destruct (reject_check _ _ _ _ _) as [[r p]|] eqn:E; [|done].
    apply reject_check_ok in E as (Hr & _ & Hs).
    apply with_lock_inv; [|done]. intros l Hl. by apply reject_body_inv.
  - unfold completeRefund. destruct (complete_check _ _ _ _ _) as [[r p]|] eqn:E; [|done].
    apply complete_check_ok in E as (Hr & _ & Hs).
    apply with_lock_inv; [|done]. intros l Hl. by apply complete_body_inv.
  - unfold updateRefundStatus. destruct (List.find _ _) as [s|]; [|done].
    destruct (find_refund _ _ _); [|done].
    apply with_lock_inv; [|done]. intros l Hl. apply update_status_body_inv; [done|].
    apply HT. by left.
Qed.

Lemma inv_widen T T' d : (forall id, id ∈ T -> id ∈ T') -> db_inv T d -> db_inv T' d.
Proof. intros HT [H1 H2 H3 H4 H5 H6 H7 H8]. split; naive_solver. Qed.

Lemma refund_run_inv T os d :
  (forall id, id ∈ generically_updated os -> id ∈ T) -> db_inv T d -> db_inv T (run os d).
Proof.
  revert d. induction os as [|o os IH]; intros d HT Hi; simpl; [done|].
  assert (generically_updated (o :: os) = generically_updated [o] ++ generically_updated os) as E
    by (by destruct o).
  rewrite E in HT. apply IH; [|apply refund_step_inv; [|done]]; intros id Hid; apply HT, elem_of_app; auto.
Qed.

(** C3: any sequence of the refund operations of the service (the generic
    status update included, by any callers, with lock calls that may fail, each
    served as a whole) keeps: at most one active refund per transaction, unique
    ids and on-chain hashes, and every refund positive and at most a payment of
    its transaction; and for every refund that was never passed to the generic
    update, past approval it was approved by a user other than its initiator,
    while under way some payment of its transaction is [REFUND_PENDING], and
    once confirmed some payment of its transaction is [REFUNDED].  The payments
    of a transaction are identified by their operation as well (#1558), so a
    transaction may have several. *)
Theorem refund_lifecycle_invariant os d :
  db_inv [] d -> db_inv (generically_updated os) (run os d).
Proof.
  intros Hi. apply refund_run_inv; [done|]. apply (inv_widen []); [|done].
  intros id Hid. by apply elem_of_nil in Hid.
Qed.

Definition all_or_nothing {A} (d : db) (out : db * result code A) : Prop :=
  match out.2 with
  | Throw _ => payments out.1 = payments d /\ refunds out.1 = refunds d /\
               outbox out.1 = outbox d /\ emitted out.1 = emitted d
  | Ok _ => exists ev, outbox out.1 = outbox d ++ [ev]
  end.

Lemma with_lock_all_or_nothing {A} e key (body : db -> db * result code A) d :
  (forall l, all_or_nothing d (body (set_locks l d))) ->
  all_or_nothing d (with_refund_lock e key body d).
Proof.
  intros Hb. unfold with_refund_lock.
  destruct (acquire_redis _ _ _ _ _) as [l [a|]]; [|done].
  specialize (Hb l). by destruct (body (set_locks l d)) as [d1 [x|c]].
Qed.

(** A refund operation that throws leaves payments, refunds, outbox and
    emitted events exactly as they were (only the lock store may differ), and
    one that returns appends exactly one outbox event. *)
Theorem refund_all_or_nothing o d : all_or_nothing d (step o d).
Proof.
  destruct o as [e sc tx st a why who|id who sc|e id who why sc|e id h who sc|e id ns h why sc]; simpl.
  - unfold initiateRefund. destruct (known_principal who); [|done].
    apply with_lock_all_or_nothing. intros l. unfold initiate_body, commit, all_or_nothing. simpl.
    repeat case_match; simplify_eq/=; eauto.
  - unfold approveRefund. destruct (approve_check _ _ _ _) as [[r p]|]; [|done].
    unfold approve_commit, commit, all_or_nothing. repeat case_match; simplify_eq/=; eauto.
  - unfold rejectRefund. destruct (reject_check _ _ _ _ _) as [[r p]|]; [|done].
    apply with_lock_all_or_nothing. intros l. unfold reject_body, commit, all_or_nothing. simpl.
    repeat case_match; simplify_eq/=; eauto.
  - unfold completeRefund. destruct (complete_check _ _ _ _ _) as [[r p]|]; [|done].
    apply with_lock_all_or_nothing. intros l. unfold complete_body, commit, all_or_nothing. simpl.
    repeat case_match; simplify_eq/=; eauto.
  - unfold updateRefundStatus. destruct (List.find _ _) as [s|]; [|done].
    destruct (find_refund _ _ _); [|done].
    apply with_lock_all_or_nothing. intros l. unfold update_status_body, commit, all_or_nothing. simpl.
    repeat case_match; simplify_eq/=; eauto.
Qed.

(** ** Scenarios *)

Definition sample_db : db :=
  Db [PaymentAdmin.sample_payment 1 "aa" S_SUCCESS; PaymentAdmin.sample_payment 2 "bb" S_SUCCESS]
     [] [] [] (Redis ∅ 0) 100.
Definition alice : option principal := Some (Principal "u1" "Alice").
Definition bob : option principal := Some (Principal "u2" "Bob").
Definition at_time (t : Z) : env := Env t "tok" NoFault NoFault.
Definition first_refund : db :=
  (initiateRefund (at_time 0) "SCH1" "aa" "STU1" (of_Z 4) "duplicate" alice sample_db).1.

Definition statuses (d : db) : list refund_status * list payment_status :=
  (rf_status <$> refunds d, p_status <$> payments d).

Lemma sample_db_inv : db_inv [] sample_db.
Proof.
  split; simpl; try done; try (intros r Hr; by apply elem_of_nil in Hr); try by_decision.
Qed.

(** The [refundTxHash] index is unique and sparse, but the field is stored as
    [null] until a refund is confirmed, so the index admits a single
    unconfirmed refund in the whole collection: with one refund awaiting
    approval, initiating a refund of another payment fails on the index. *)
Theorem second_unconfirmed_refund_refused :
  statuses first_refund = ([R_approval_pending], [S_REFUND_PENDING; S_SUCCESS]) /\
  (initiateRefund (at_time 1) "SCH1" "bb" "STU1" (of_Z 4) "duplicate" alice first_refund).2
  = Throw DUPLICATE_KEY.
Proof. vm_compute. split; reflexivity. Qed.

(** Approval and rejection are not serialised against each other: approval
    takes no lock and neither re-reads the refund before writing.  When both
    have passed their checks and rejection commits first, the approval revives
    the rejected refund: it ends [pending] (awaiting execution) while its
    payment is back in [SUCCESS]. *)
Theorem approve_reject_race :
  match approve_check 100 bob "SCH1" first_refund,
        reject_check 100 bob "no" "SCH1" first_refund with
  | Ok (ra, pa), Ok (rr, pr) =>
    let d1 := (with_refund_lock (at_time 1) (refundLockKey "SCH1" "aa")
                 (reject_body (at_time 1) rr pr "no") first_refund).1 in
    let d2 := (approve_commit ra pa d1).1 in
    statuses d1 = ([R_rejected], [S_SUCCESS; S_SUCCESS]) /\
    statuses d2 = ([R_pending], [S_SUCCESS; S_SUCCESS])
  | _, _ => False
  end.
Proof. vm_compute. split; reflexivity. Qed.

(** The generic status update skips the two-person rule and the payment: it
    moves an unapproved refund to [pending] without an approver, and a refund it
    fails leaves its payment in [REFUND_PENDING], where no new refund can be
    initiated. *)
Theorem generic_update_skips_approval_and_payment :
  let d1 := (updateRefundStatus (at_time 1) 100 "pending" None None (Some "SCH1") first_refund).1 in
  let d2 := (updateRefundStatus (at_time 2) 100 "failed" None (Some "x") (Some "SCH1") d1).1 in
  statuses d1 = ([R_pending], [S_REFUND_PENDING; S_SUCCESS]) /\
  (rf_approvedBy <$> refunds d1) = [None] /\
  statuses d2 = ([R_failed], [S_REFUND_PENDING; S_SUCCESS]) /\
  (initiateRefund (at_time 3) "SCH1" "aa" "STU1" (of_Z 4) "again" alice d2).2 = Throw PAYMENT_NOT_FOUND.
Proof. vm_compute. repeat split; reflexivity. Qed.

(** Two payments of one transaction (operations 0 and 1): the refund is raised
    against the one in [SUCCESS], but completing it looks the payment up by
    transaction alone and marks the other one [REFUNDED]. *)
Definition two_operations : db :=
  Db [PaymentAdmin.sample_payment 1 "aa" S_FAILED; PaymentAdmin.sample_payment 2 "aa" S_SUCCESS]
     [] [] [] (Redis ∅ 0) 100.

Theorem completion_refunds_another_operation :
  db_inv [] two_operations /\
  statuses (run [Initiate (at_time 0) "SCH1" "aa" "STU1" (of_Z 4) "duplicate" alice;
                 Approve 100 bob "SCH1"] two_operations)
  = ([R_pending], [S_FAILED; S_REFUND_PENDING]) /\
  statuses (run [Initiate (at_time 0) "SCH1" "aa" "STU1" (of_Z 4) "duplicate" alice;
                 Approve 100 bob "SCH1"; Complete (at_time 5) 100 "h1" alice "SCH1"] two_operations)
  = ([R_confirmed], [S_REFUNDED; S_REFUND_PENDING]).
Proof.
  split_and!; [|vm_compute; reflexivity..].
  split; simpl; try done; try (intros r Hr; by apply elem_of_nil in Hr); try by_decision.
Qed.

Lemma refund_lifecycle_invariant_witness :
  let os := [Initiate (at_time 0) "SCH1" "aa" "STU1" (of_Z 4) "duplicate" alice;
             Approve 100 alice "SCH1"; Approve 100 bob "SCH1";
             Complete (at_time 5) 100 "h1" alice "SCH1";
             Initiate (at_time 6) "SCH1" "bb" "STU1" (of_Z 2) "duplicate" alice;
             UpdateStatus (at_time 7) 101 "failed" None (Some "bank") (Some "SCH1")] in
  db_inv [101] (run os sample_db) /\
  statuses (run os sample_db) = ([R_confirmed; R_failed], [S_REFUNDED; S_REFUND_PENDING]).
Proof.
  intros os. split; [apply (refund_lifecycle_invariant os), sample_db_inv|vm_compute; reflexivity].
Defined.

End Refund.
