(* ===== verification/PaymentLimits.v ===== *)
(** Payment limits: backend/src/services/paymentLimitsService.js (validation of
    limit documents, resolution over school, system and environment layers, the
    in-process cache and the admin writes) and backend/src/utils/paymentLimits.js
    (the checks on a payment amount).  Stored documents are of Mongoose type
    Mixed, so they are modelled as untrusted JavaScript values. *)

From Stdlib Require Import ZArith QArith Lia.
From stdpp Require Import base list strings gmap.
From S2P Require Import Prelude JsNumber JsString DecimalLib.
Local Open Scope string_scope.
Local Open Scope Z_scope.
Local Open Scope list_scope.

Module PaymentLimits.

(** ** Stored values *)

(** A field that should be a number; anything else is [FOther]. *)
Inductive field := FNumber (n : number) | FOther.

(** A value where a [{ min, max }] pair is expected: [PFalsy] is null, 0, an
    empty string or false; [PScalar] any other non-object. *)
Inductive pair := PUndefined | PFalsy | PScalar | PObject (min max : field).

(** The [assets] member: [ABad] is null, an array or a non-object. *)
Inductive assets_value := AUndefined | ABad | AObject (entries : list (string * pair)).

(** A limits document: [DFalsy] is null or undefined, [DScalar] a non-object. *)
Inductive limits_doc := DFalsy | DScalar | DObject (default_ : pair) (assets : assets_value).

Inductive limit_error :=
| E_not_object | E_not_finite (name : string) | E_min_negative | E_max_not_greater
| E_doc_not_object | E_assets_not_object | E_in_default (e : limit_error)
| E_in_asset (asset : string) (e : limit_error) | E_empty.

Definition finite_field (f : field) : bool :=
  match f with FNumber n => isFinite n | FOther => false end.

Definition field_number (f : field) : number := match f with FNumber n => n | FOther => NaN end.

(** [None] is valid. *)
Definition validateLimitPair (limits : pair) : option limit_error :=
  match limits with
  | PUndefined | PFalsy | PScalar => Some E_not_object
  | PObject min max =>
    if negb (finite_field min) then Some (E_not_finite "min") else
    if negb (finite_field max) then Some (E_not_finite "max") else
    if num_lt (field_number min) (of_Z 0) then Some E_min_negative else
    if num_le (field_number max) (field_number min) then Some E_max_not_greater else
    None
  end.

Fixpoint validate_assets (entries : list (string * pair)) : option limit_error :=
  match entries with
  | [] => None
  | (c, p) :: es =>
    match validateLimitPair p with
    | Some e => Some (E_in_asset c e)
    | None => validate_assets es
    end
  end.

Definition validateLimitsDocument (doc : limits_doc) : option limit_error :=
  match doc with
  | DFalsy | DScalar => Some E_doc_not_object
  | DObject def assets =>
    match (match def with
           | PUndefined => None
           | _ => E_in_default <$> validateLimitPair def
           end) with
    | Some e => Some e
    | None =>
      match (match assets with
             | AUndefined => None
             | ABad => Some E_assets_not_object
             | AObject es => validate_assets es
             end) with
      | Some e => Some e
      | None => match def, assets with PUndefined, AUndefined => Some E_empty | _, _ => None end
      end
    end
  end.

(** ** Resolution *)

Inductive layer := L_school | L_system.

Inductive source := SrcAsset (l : layer) (asset : string) | SrcDefault (l : layer) | SrcEnv.

Record limits := Limits { l_min : number; l_max : number; l_source : source }.

Definition truthy_pair (p : pair) : bool :=
  match p with PUndefined | PFalsy => false | PScalar | PObject _ _ => true end.

(** [doc.assets[key]] *)
Definition asset_entry (a : assets_value) (key : string) : pair :=
  match a with
  | AObject es =>
    match List.find (fun e => bool_decide (e.1 = key)) es with Some e => e.2 | None => PUndefined end
  | AUndefined | ABad => PUndefined
  end.

Definition valid_pair (p : pair) : bool :=
  match validateLimitPair p with None => true | Some _ => false end.

Definition pair_limits (p : pair) (s : source) : limits :=
  match p with
  | PObject min max => Limits (field_number min) (field_number max) s
  | _ => Limits NaN NaN s
  end.

Definition _pick (doc : limits_doc) (asset : option string) (src : layer) : option limits :=
  match doc with
  | DFalsy | DScalar => None
  | DObject def assets =>
    let assetKey := toUpperCase <$> asset in
    let per_asset :=
      match assetKey with
      | Some k =>
        if str_truthy k && truthy_pair (asset_entry assets k) && valid_pair (asset_entry assets k)
        then Some (pair_limits (asset_entry assets k) (SrcAsset src k)) else None
      | None => None
      end in
    match per_asset with
    | Some l => Some l
    | None => if truthy_pair def && valid_pair def then Some (pair_limits def (SrcDefault src)) else None
    end
  end.

Definition DEFAULT_ASSET : string := "XLM".

Section Service.
(** Configuration: the environment limits and the cache lifetime. *)
Variable ENV_LIMITS : limits.
Variable CACHE_TTL_MS : Z.

(** The stored documents: schools that exist, with their limits document, and
    the system document. *)
Record db := Db { schools : gmap string limits_doc; system : limits_doc }.

Record cached := Cached { c_school : limits_doc; c_system : limits_doc }.

Record service := Service { database : db; cache : gmap string (cached * Z) }.

Definition _cacheKey (schoolId : option string) : string :=
  str_or (default "" schoolId) "__global__".

Definition _readCache (now : Z) (schoolId : option string) (s : service) : option cached :=
  match cache s !! _cacheKey schoolId with
  | Some (v, expiresAt) => if expiresAt <=? now then None else Some v
  | None => None
  end.

Definition _writeCache (now : Z) (schoolId : option string) (v : cached) (s : service) : service :=
  Service (database s) (<[_cacheKey schoolId := (v, now + CACHE_TTL_MS)]> (cache s)).

(** [invalidateCache()] and [invalidateCache(schoolId)] *)
Definition invalidateCache (schoolId : option string) (s : service) : service :=
  match schoolId with
  | None => Service (database s) ∅
  | Some _ => Service (database s) (delete (_cacheKey schoolId) (cache s))
  end.

Definition assetKey_of (asset : option string) : string :=
  toUpperCase (str_or (default "" asset) DEFAULT_ASSET).

(** [_pick(school) || _pick(system) || ENV_LIMITS] *)
Definition pick_layers (v : cached) (key : string) : limits :=
  match _pick (c_school v) (Some key) L_school with
  | Some l => l
  | None => match _pick (c_system v) (Some key) L_system with
            | Some l => l
            | None => ENV_LIMITS
            end
  end.

(** The two database reads of a resolution. *)
Definition load_docs (schoolId : option string) (d : db) : cached :=
  Cached (if str_truthy (default "" schoolId)
          then default DFalsy (schools d !! default "" schoolId) else DFalsy)
         (system d).

(** [readable] is false when a read throws or exceeds its timeout. *)
Definition resolveLimits (now : Z) (readable : bool) (schoolId asset : option string) (s : service)
  : service * limits :=
  let key := assetKey_of asset in
  match _readCache now schoolId s with
  | Some v => (s, pick_layers v key)
  | None =>
    if negb readable then (s, ENV_LIMITS) else
    let v := load_docs schoolId (database s) in
    (_writeCache now schoolId v s, pick_layers v key)
  end.

Definition getStoredLimits (schoolId : option string) (s : service) : limits_doc * limits_doc * limits :=
  (system (database s), c_school (load_docs schoolId (database s)), ENV_LIMITS).

Inductive code := INVALID_PAYMENT_LIMITS (e : limit_error) | NOT_FOUND.

Definition setSystemLimits (doc : limits_doc) (s : service) : service * result code limits_doc :=
  match validateLimitsDocument doc with
  | Some e => (s, Throw (INVALID_PAYMENT_LIMITS e))
  | None => (invalidateCache None (Service (Db (schools (database s)) doc) (cache s)), Ok doc)
  end.

(** The School record update shared by the two school writes; the school cache
    it also invalidates belongs to another component. *)
Definition write_school (schoolId : string) (doc : limits_doc) (s : service) : service * result code unit :=
  match schools (database s) !! schoolId with
  | None => (s, Throw NOT_FOUND)
  | Some _ =>
    (invalidateCache (Some schoolId)
       (Service (Db (<[schoolId := doc]> (schools (database s))) (system (database s))) (cache s)), Ok tt)
  end.

Definition setSchoolLimits (schoolId : string) (doc : limits_doc) (s : service)
  : service * result code limits_doc :=
  match validateLimitsDocument doc with
  | Some e => (s, Throw (INVALID_PAYMENT_LIMITS e))
  | None => let '(s', r) := write_school schoolId doc s in (s', (fun _ => doc) <$> r)
  end.

Definition clearSchoolLimits (schoolId : string) (s : service) : service * result code unit :=
  write_school schoolId DFalsy s.

(** ** Validity of every resolution *)

Definition sane (min max : number) : Prop :=
  isFinite min = true /\ isFinite max = true /\
  num_lt min (of_Z 0) = false /\ num_le max min = false.

Lemma valid_pair_sane p s : valid_pair p = true ->
  sane (l_min (pair_limits p s)) (l_max (pair_limits p s)).
Proof.
  unfold valid_pair, validateLimitPair, sane. destruct p as [| | |mn mx]; try done. simpl.
  destruct (finite_field mn) eqn:E1; [|done]. destruct (finite_field mx) eqn:E2; [|done]. simpl.
  destruct (num_lt _ _) eqn:E3; [done|]. destruct (num_le _ _) eqn:E4; [done|]. intros _.
  destruct mn, mx; simpl in *; done.
Qed.

Lemma pick_sane doc a src l : _pick doc a src = Some l -> sane (l_min l) (l_max l).
Proof.
  unfold _pick. destruct doc as [| |def assets]; try done.
  repeat case_match; intros; simplify_eq; apply valid_pair_sane;
    repeat match goal with H : _ && _ = true |- _ => apply andb_true_iff in H as [??] end; done.
Qed.

Lemma pick_layers_sane v key :
  sane (l_min ENV_LIMITS) (l_max ENV_LIMITS) ->
  sane (l_min (pick_layers v key)) (l_max (pick_layers v key)).
Proof.
  intros He. unfold pick_layers.
  destruct (_pick (c_school v) _ _) eqn:E1; [by eapply pick_sane|].
  destruct (_pick (c_system v) _ _) eqn:E2; [by eapply pick_sane|done].
Qed.

Lemma resolveLimits_sane now rd sid a s :
  sane (l_min ENV_LIMITS) (l_max ENV_LIMITS) ->
  let l := (resolveLimits now rd sid a s).2 in sane (l_min l) (l_max l).
Proof.
  intros He. unfold resolveLimits. destruct (_readCache now sid s); [by apply pick_layers_sane|].
  destruct (negb rd); [done|]. by apply pick_layers_sane.
Qed.

(** ** Coherence of the cache on one instance *)

Inductive op :=
| Resolve (now : Z) (readable : bool) (schoolId asset : option string)
| SetSystem (doc : limits_doc)
| SetSchool (schoolId : string) (doc : limits_doc)
| ClearSchool (schoolId : string).

Definition step (o : op) (s : service) : service :=
  match o with
  | Resolve now rd sid a => (resolveLimits now rd sid a s).1
  | SetSystem doc => (setSystemLimits doc s).1
  | SetSchool sid doc => (setSchoolLimits sid doc s).1
  | ClearSchool sid => (clearSchoolLimits sid s).1
  end.

Definition run (os : list op) (s : service) : service := fold_left (fun s o => step o s) os s.

(** School ids are non-empty and differ from the key of the global entry. *)
Definition good_id (sid : string) : Prop := sid <> "" /\ sid <> "__global__".

Definition op_ok (o : op) : Prop :=
  match o with
  | Resolve _ _ sid _ => match sid with Some i => good_id i | None => True end
  | SetSystem _ => True
  | SetSchool sid _ | ClearSchool sid => good_id sid
  end.

Definition coherent (s : service) : Prop :=
  (forall v x, cache s !! "__global__" = Some (v, x) -> v = load_docs None (database s)) /\
  (forall sid v x, good_id sid -> cache s !! sid = Some (v, x) -> v = load_docs (Some sid) (database s)).

Lemma cacheKey_good sid : good_id sid -> _cacheKey (Some sid) = sid.
Proof. intros [H _]. unfold _cacheKey, str_or. simpl. by destruct sid. Qed.

Lemma coherent_read s now sid v :
  coherent s -> match sid with Some i => good_id i | None => True end ->
  _readCache now sid s = Some v -> v = load_docs sid (database s).
Proof.
  intros [Hg Hs] Hid. unfold _readCache. destruct sid as [i|].
  - rewrite cacheKey_good by done. destruct (cache s !! i) as [[w x]|] eqn:E; [|done].
    case_match; [done|]. intros [= <-]. by eapply Hs.
  - change (_cacheKey None) with "__global__".
    destruct (cache s !! "__global__") as [[w x]|] eqn:E; [|done].
    case_match; [done|]. intros [= <-]. by eapply Hg.
Qed.

Lemma coherent_write_school s sid doc : coherent s -> good_id sid ->
  coherent (write_school sid doc s).1.
Proof.
  intros [Hg Hs] Hid. unfold write_school. destruct (schools (database s) !! sid) eqn:E; [|done].
  simpl. rewrite cacheKey_good by done. split; simpl.
  - intros v x Hv%lookup_delete_Some. destruct Hv as [_ Hv]. by rewrite (Hg _ _ Hv).
  - intros i v x Hi Hv%lookup_delete_Some. destruct Hv as [Hne Hv]. rewrite (Hs i v x Hi Hv).
    unfold load_docs. simpl. by rewrite lookup_insert_ne.
Qed.

Lemma coherent_step o s : coherent s -> op_ok o -> coherent (step o s).
Proof.
  intros Hc Hok. destruct o as [now rd sid a|doc|sid doc|sid]; simpl.
  - unfold resolveLimits. destruct (_readCache now sid s); [done|]. destruct (negb rd); [done|].
    destruct Hc as [Hg Hs]. destruct sid as [i|]; unfold _writeCache; simpl.
    + rewrite cacheKey_good by done. split; simpl.
      * intros v x. rewrite lookup_insert_ne; [by apply Hg|]. by destruct Hok.
      * intros j v x Hj. destruct (decide (i = j)) as [->|Hne].
        { rewrite lookup_insert_eq. by intros [= <- _]. }
        rewrite lookup_insert_ne by done. by apply Hs.
    + change (_cacheKey None) with "__global__". split; simpl.
      * intros v x. rewrite lookup_insert_eq. by intros [= <- _].
      * intros j v x Hj. rewrite lookup_insert_ne; [by apply Hs|]. destruct Hj as [_ Hj]. congruence.
  - unfold setSystemLimits. destruct (validateLimitsDocument doc); [done|].
    split; simpl; intros *; by rewrite lookup_empty.
  - unfold setSchoolLimits. destruct (validateLimitsDocument doc); [done|].
    pose proof (coherent_write_school s sid doc Hc Hok). by destruct (write_school sid doc s).
  - by apply coherent_write_school.
Qed.

Lemma coherent_run os s : coherent s -> Forall op_ok os -> coherent (run os s).
Proof.
  intros Hc Hok. revert s Hc. induction Hok as [|o os Ho Hos IH]; intros s Hc; simpl; [done|].
  by apply IH, coherent_step.
Qed.

(** Read-your-writes on one instance.  After any sequence of resolutions and
    admin writes that run one after another, every resolution that hits the
    cache, or whose reads succeed, gives exactly the limits the stored documents
    define now; one that can do neither gives the environment limits. *)
Theorem resolve_reflects_writes os d now rd sid a :
  Forall op_ok os -> match sid with Some i => good_id i | None => True end ->
  let s := run os (Service d ∅) in
  (resolveLimits now rd sid a s).2 =
    (if rd || match _readCache now sid s with Some _ => true | None => false end
     then pick_layers (load_docs sid (database s)) (assetKey_of a) else ENV_LIMITS).
Proof.
  intros Hok Hid s.
  assert (coherent s) as Hc.
  { apply coherent_run; [|done]. split; simpl; intros *; by rewrite lookup_empty. }
  unfold resolveLimits. destruct (_readCache now sid s) as [v|] eqn:E.
  - rewrite orb_true_r. simpl. by rewrite (coherent_read s now sid v Hc Hid E).
  - rewrite orb_false_r. by destruct rd.
Qed.

(** Whatever is stored (invalid documents included), whatever the cache holds
    and even when the database cannot be read, the resolved limits are a finite
    pair with [0 <= min < max], provided the environment's are. *)
Theorem resolved_limits_sane now rd sid a s :
  sane (l_min ENV_LIMITS) (l_max ENV_LIMITS) ->
  let l := (resolveLimits now rd sid a s).2 in sane (l_min l) (l_max l).
Proof. apply resolveLimits_sane. Qed.

End Service.

(** ** The check of an amount *)
Section Check.
Context `{DL : DecimalLib}.

Inductive verdict := Valid | INVALID_AMOUNT | INVALID_FEE | AMOUNT_TOO_LOW | AMOUNT_TOO_HIGH.

(** [new Decimal(typeof x === 'number' && isFinite(x) ? x : NaN)]; an argument
    that is not a number is [None]. *)
Definition dec_of_arg (x : option number) : dec :=
  dec_of_number (match x with Some n => if isFinite n then n else NaN | None => NaN end).

Definition compareAgainstLimits (amount : option number) (min max : number) : verdict :=
  let d := dec_of_arg amount in
  if negb (dec_isFinite d) || dec_lte d (dec_of_number (of_Z 0)) then INVALID_AMOUNT else
  if dec_lt d (dec_of_number min) then AMOUNT_TOO_LOW else
  if dec_gt d (dec_of_number max) then AMOUNT_TOO_HIGH else Valid.

Definition validatePaymentAmountAgainstFee (paymentAmount feeAmount : option number)
  (maxPaymentMultiplier : number) : verdict :=
  let dPayment := dec_of_arg paymentAmount in
  let dFee := dec_of_arg feeAmount in
  if negb (dec_isFinite dPayment) || dec_lte dPayment (dec_of_number (of_Z 0)) then INVALID_AMOUNT else
  if negb (dec_isFinite dFee) || dec_lte dFee (dec_of_number (of_Z 0)) then INVALID_FEE else
  if dec_gt dPayment (dec_mul dFee (dec_of_number maxPaymentMultiplier)) then AMOUNT_TOO_HIGH
  else Valid.

(** The metrics counter aside, the result is the comparison's. *)
Definition validatePaymentAmount (env : limits) (ttl now : Z) (readable : bool)
  (amount : option number) (schoolId asset : option string) (s : service) : service * verdict :=
  let '(s', l) := resolveLimits env ttl now readable schoolId asset s in
  (s', compareAgainstLimits amount (l_min l) (l_max l)).

Definition getPaymentLimits (env : limits) (ttl now : Z) (readable : bool)
  (schoolId asset : option string) (s : service) : service * (number * number) :=
  let '(s', l) := resolveLimits env ttl now readable schoolId asset s in (s', (l_min l, l_max l)).

Lemma denotes_zero : denotes (dec_of_number (of_Z 0)) 0.
Proof. apply (dec_of_number_int 0). simpl. lia. Qed.

Lemma limit_cmp_denotes a b p q : denotes a p -> denotes b q -> dec_cmp a b = Some (p ?= q)%Q.
Proof.
  intros Ha Hb. apply denotes_val in Ha as (p' & Ha & Ep), Hb as (q' & Hb & Eq).
  rewrite (dec_cmp_exact a b p' q') by done. f_equal. by rewrite Ep, Eq.
Qed.

Lemma denotes_finite a p : denotes a p -> dec_isFinite a = true.
Proof. intros Ha. apply denotes_val in Ha as (p' & Ha & _). unfold dec_isFinite. by rewrite Ha. Qed.

(** The reference check, on exact values. *)
Definition check_spec (a lo hi : Q) : verdict :=
  if Qle_bool a 0 then INVALID_AMOUNT else
  if Qltb a lo then AMOUNT_TOO_LOW else
  if Qltb hi a then AMOUNT_TOO_HIGH else Valid.

Lemma lte_spec a b p q : denotes a p -> denotes b q -> dec_lte a b = Qle_bool p q.
Proof.
  intros Ha Hb. unfold dec_lte. rewrite (limit_cmp_denotes a b p q) by done.
  destruct (Qcompare_spec p q) as [E|E|E]; symmetry.
  - apply Qle_bool_iff. rewrite E. apply Qle_refl.
  - by apply Qle_bool_iff, Qlt_le_weak.
  - apply not_true_is_false. intros H%Qle_bool_iff. by apply Qlt_not_le in E.
Qed.

Lemma lt_spec a b p q : denotes a p -> denotes b q -> dec_lt a b = Qltb p q.
Proof.
  intros Ha Hb. unfold dec_lt, Qltb. rewrite (limit_cmp_denotes a b p q) by done.
  destruct (Qcompare_spec p q) as [E|E|E]; symmetry.
  - apply negb_false_iff, Qle_bool_iff. rewrite E. apply Qle_refl.
  - apply negb_true_iff, not_true_is_false. intros H%Qle_bool_iff. by apply Qlt_not_le in E.
  - by apply negb_false_iff, Qle_bool_iff, Qlt_le_weak.
Qed.

Lemma gt_spec a b p q : denotes a p -> denotes b q -> dec_gt a b = Qltb q p.
Proof.
  intros Ha Hb. rewrite <- (lt_spec b a q p) by done. unfold dec_gt, dec_lt.
  rewrite (limit_cmp_denotes a b p q), (limit_cmp_denotes b a q p) by done.
  rewrite (Qcompare_antisym q p) || rewrite <- (Qcompare_antisym q p).
  by destruct (q ?= p)%Q.
Qed.

(** A payment amount is accepted exactly when it is positive and within the
    limits, bounds included, compared as exact decimals; otherwise the code says
    which bound it misses. *)
Theorem compareAgainstLimits_exact amount min max a lo hi :
  denotes (dec_of_arg amount) a -> denotes (dec_of_number min) lo -> denotes (dec_of_number max) hi ->
  compareAgainstLimits amount min max = check_spec a lo hi.
Proof.
  intros Ha Hlo Hhi. unfold compareAgainstLimits, check_spec.
  rewrite (denotes_finite _ _ Ha), (lte_spec _ _ a 0 Ha denotes_zero).
  by rewrite (lt_spec _ _ a lo), (gt_spec _ _ a hi).
Qed.
End Check.

Lemma compareAgainstLimits_exact_witness :
  compareAgainstLimits (DL := exact_decimal) (Some (of_Z 5)) (of_Z 5) (of_Z 10) = Valid.
Proof.
  rewrite (compareAgainstLimits_exact (DL := exact_decimal) _ _ _ 5 5 10); vm_compute; reflexivity.
Defined.

(** ** Scenarios *)

Definition env0 : limits := Limits (of_Z 1) (of_Z 100) SrcEnv.
Definition doc_of (asset : string) (lo hi : Z) : limits_doc :=
  DObject PUndefined (AObject [(asset, PObject (FNumber (of_Z lo)) (FNumber (of_Z hi)))]).

(** A per-asset limit stored under a lower-case code passes validation and is
    stored, but resolution looks codes up in upper case and never finds it. *)
Theorem lowercase_asset_limit_ignored :
  let s := Service (Db ∅ DFalsy) ∅ in
  let '(s', r) := setSystemLimits (doc_of "usdc" 2 3) s in
  r = Ok (doc_of "usdc" 2 3) /\ system (database s') = doc_of "usdc" 2 3 /\
  (resolveLimits env0 30000 0 true None (Some "usdc") s').2 = env0.
Proof. repeat split; vm_compute; reflexivity. Qed.

(** A resolution that has read the documents before an admin write and fills
    the cache after it makes the writing instance serve the replaced limits
    until the cache entry expires. *)
Theorem resolve_write_race :
  let s0 := Service (Db {[ "S1" := doc_of "XLM" 1 5 ]} DFalsy) ∅ in
  let v := load_docs (Some "S1") (database s0) in                 (* reader loads *)
  let s1 := (setSchoolLimits "S1" (doc_of "XLM" 1 2) s0).1 in      (* admin tightens *)
  let s2 := _writeCache 30000 10 (Some "S1") v s1 in              (* reader caches *)
  (resolveLimits env0 30000 20 true (Some "S1") None s2).2
    = Limits (of_Z 1) (of_Z 5) (SrcAsset L_school "XLM") /\
  pick_layers env0 (load_docs (Some "S1") (database s2)) "XLM"
    = Limits (of_Z 1) (of_Z 2) (SrcAsset L_school "XLM").
Proof. split; vm_compute; reflexivity. Qed.

Lemma resolve_reflects_writes_witness :
  let s := run env0 30000 [Resolve 0 true (Some "S1") None; SetSchool "S1" (doc_of "XLM" 1 2)]
             (Service (Db {[ "S1" := doc_of "XLM" 1 5 ]} DFalsy) ∅) in
  (resolveLimits env0 30000 5 true (Some "S1") None s).2
  = Limits (of_Z 1) (of_Z 2) (SrcAsset L_school "XLM").
Proof.
  intros s. unfold s. rewrite resolve_reflects_writes; [vm_compute; reflexivity| |];
    repeat constructor; discriminate.
Defined.

Lemma resolved_limits_sane_witness :
  let l := (resolveLimits env0 30000 0 true None None (Service (Db ∅ (doc_of "XLM" 9 3)) ∅)).2 in
  sane (l_min l) (l_max l) /\ l = env0.
Proof.
  intros l. split; [apply resolved_limits_sane; repeat split; reflexivity|vm_compute; reflexivity].
Defined.

End PaymentLimits.
