(* ===== verification/Idempotency.v ===== *)
(** Idempotent requests: backend/src/services/idempotencyStore.js (MongoDB as the
    source of truth behind an optional Redis cache) and
    backend/src/middleware/idempotency.js (the HTTP decisions).

    The Mongo collection is a map by its unique [key]; a Redis cache is a map or
    absent.  Expiry of either is the explicit event of its key disappearing.
    [mongo_up = false] means every Mongo operation of the call throws. *)

From Stdlib Require Import ZArith Lia.
From stdpp Require Import base list strings gmap.
From S2P Require Import Prelude JsNumber JsString.
Local Open Scope string_scope.
Local Open Scope Z_scope.
Local Open Scope list_scope.

Module Idempotency.

(** ** Response bodies *)

Record local_currency := LocalCurrency {
  lc_amount : option number; lc_currency : string; lc_rate : option number;
  lc_rateTimestamp : option string; lc_available : bool }.

(** A JSON body: an object with the members the middleware looks at and the
    rest, or any other value. *)
Inductive body {R : Type} :=
| BObject (amount : option number) (assetCode : option string)
    (localCurrency : option local_currency) (rest : R)
| BOther (rest : R).
Arguments body : clear implicits.

(** The answer of the currency conversion service. *)
Record conversion := Conversion {
  cv_available : bool; cv_localAmount : option number; cv_currency : string;
  cv_rate : option number; cv_rateTimestamp : option string }.

Inductive record_state := in_progress | completed.

#[export] Instance record_state_eq_dec : EqDecision record_state.
Proof. solve_decision. Defined.

Section Store.
Context {R : Type}.
(** [package.json]'s version, the in-flight window, and the conversion service
    ([None]: it throws). *)
Variable APP_SCHEMA_VERSION : string.
Variable IN_FLIGHT_TTL_MS : Z.
Variable convertToLocalCurrency : number -> string -> string -> option conversion.

Record idem_record := IdemRecord {
  r_scope : string;
  r_state : record_state;
  r_fingerprint : option string;
  r_status : option Z;
  r_body : option (body R);
  r_version : option string;
  r_createdAt : Z;
}.

(** What Redis holds: [get] and [set] cache a record without its state. *)
Record cached := CachedRec {
  k_state : option record_state;
  k_scope : string;
  k_fingerprint : option string;
  k_status : option Z;
  k_body : option (body R);
  k_version : option string;
}.

Record store := Store {
  mongo : gmap string idem_record;
  redis : option (gmap string cached);
}.

Definition redisGet (key : string) (s : store) : option cached :=
  match redis s with Some m => m !! key | None => None end.

Definition redisSet (key : string) (c : cached) (s : store) : store :=
  match redis s with
  | Some m => Store (mongo s) (Some (<[key := c]> m))
  | None => s
  end.

(** [v && v !== APP_SCHEMA_VERSION] *)
Definition stale_version (v : option string) : bool :=
  match v with
  | Some x => str_truthy x && negb (bool_decide (x = APP_SCHEMA_VERSION))
  | None => false
  end.

Definition mongo_delete (mongo_up : bool) (key : string) (s : store) : store :=
  if mongo_up then Store (delete key (mongo s)) (redis s) else s.

Definition get (mongo_up : bool) (key : string) (s : store) : store * result unit (option cached) :=
  if negb (str_truthy key) then (s, Ok None) else
  match redisGet key s with
  | Some c =>
    if stale_version (k_version c) then (mongo_delete mongo_up key s, Ok None) else (s, Ok (Some c))
  | None =>
    if negb mongo_up then (s, Throw tt) else
    match mongo s !! key with
    | None => (s, Ok None)
    | Some r =>
      if stale_version (r_version r) then (mongo_delete mongo_up key s, Ok None) else
      let c := CachedRec None (r_scope r) None (r_status r) (r_body r) (r_version r) in
      (redisSet key c s, Ok (Some c))
    end
  end.

Definition set (mongo_up : bool) (now : Z) (key scope : string) (status : option Z)
  (b : option (body R)) (s : store) : store * result unit unit :=
  if negb (str_truthy key) then (s, Ok tt) else
  if negb mongo_up then (s, Throw tt) else
  let m := match mongo s !! key with
           | Some _ => mongo s
           | None => <[key := IdemRecord scope completed None status b (Some APP_SCHEMA_VERSION) now]> (mongo s)
           end in
  (redisSet key (CachedRec None scope None status b (Some APP_SCHEMA_VERSION)) (Store m (redis s)), Ok tt).

(** The full record, as the middleware sees it. *)
Record full := Full {
  f_state : record_state; f_fingerprint : option string; f_status : option Z;
  f_body : option (body R); f_createdAt : Z }.

Definition getFull (mongo_up : bool) (now : Z) (key : string) (s : store)
  : store * result unit (option full) :=
  if negb (str_truthy key) then (s, Ok None) else
  let from_mongo :=
    if negb mongo_up then (s, Throw tt) else
    match mongo s !! key with
    | None => (s, Ok None)
    | Some r =>
      if stale_version (r_version r) then (mongo_delete mongo_up key s, Ok None)
      else (s, Ok (Some (Full (r_state r) (r_fingerprint r) (r_status r) (r_body r) (r_createdAt r))))
    end in
  match redisGet key s with
  | Some c =>
    if bool_decide (k_state c = Some completed) then
      if stale_version (k_version c) then (mongo_delete mongo_up key s, Ok None)
      else (s, Ok (Some (Full completed (k_fingerprint c) (k_status c) (k_body c) now)))
    else from_mongo
  | None => from_mongo
  end.

(** [IdempotencyKey.create] of a reservation: [None] is a duplicate key. *)
Definition create_reservation (now : Z) (key scope : string) (fp : option string) (s : store)
  : option store :=
  match mongo s !! key with
  | Some _ => None
  | None => Some (Store (<[key := IdemRecord scope in_progress fp None None None now]> (mongo s)) (redis s))
  end.

Inductive reservation := Reserved | NotReserved (record : option full).

Definition not_reserved (x : store * result unit (option full)) : store * result unit reservation :=
  (x.1, NotReserved <$> x.2).

Definition reserve (mongo_up : bool) (now : Z) (key scope : string) (fp : option string) (s : store)
  : store * result unit reservation :=
  if negb (str_truthy key) then (s, Ok (NotReserved None)) else
  if negb mongo_up then (s, Throw tt) else
  match create_reservation now key scope fp s with
  | Some s' => (s', Ok Reserved)
  | None =>
    match getFull mongo_up now key s with
    | (s1, Throw e) => (s1, Throw e)
    | (s1, Ok None) =>
      match create_reservation now key scope fp s1 with
      | Some s2 => (s2, Ok Reserved)
      | None => not_reserved (getFull mongo_up now key s1)
      end
    | (s1, Ok (Some existing)) =>
      if bool_decide (f_state existing = in_progress)
         && (IN_FLIGHT_TTL_MS <=? now - f_createdAt existing)
      then match mongo s1 !! key with
           | Some r =>
             if bool_decide (r_state r = in_progress)
             then (Store (<[key := IdemRecord scope in_progress fp (r_status r) (r_body r)
                                    (r_version r) now]> (mongo s1)) (redis s1), Ok Reserved)
             else not_reserved (getFull mongo_up now key s1)
           | None => not_reserved (getFull mongo_up now key s1)
           end
      else (s1, Ok (NotReserved (Some existing)))
    end
  end.

Definition complete (now : Z) (key scope : string) (fp : option string) (status : Z)
  (b : option (body R)) (s : store) : store :=
  if negb (str_truthy key) then s else
  let createdAt := match mongo s !! key with Some r => r_createdAt r | None => now end in
  redisSet key (CachedRec (Some completed) scope fp (Some status) b (Some APP_SCHEMA_VERSION))
    (Store (<[key := IdemRecord scope completed fp (Some status) b (Some APP_SCHEMA_VERSION) createdAt]>
              (mongo s)) (redis s)).

Definition release (key : string) (s : store) : store :=
  if negb (str_truthy key) then s else
  match mongo s !! key with
  | Some r => if bool_decide (r_state r = in_progress)
              then Store (delete key (mongo s)) (redis s) else s
  | None => s
  end.

(** ** The middleware *)

Definition refreshVolatileFields (b : option (body R)) : option (body R) :=
  match b with
  | Some (BObject (Some amount) assetCode (Some lc) rest) =>
    if negb (str_truthy (lc_currency lc)) then b else
    match convertToLocalCurrency amount (str_or (default "" assetCode) "XLM") (lc_currency lc) with
    | Some fresh =>
      Some (BObject (Some amount) assetCode
        (Some (LocalCurrency (if cv_available fresh then cv_localAmount fresh else None)
                 (cv_currency fresh) (cv_rate fresh) (cv_rateTimestamp fresh) (cv_available fresh))) rest)
    | None => b
    end
  | _ => b
  end.

Inductive action :=
| Missing400
| Reuse422
| InProgress409
| Unavailable503
| Replay (status : option Z) (b : option (body R))
| Run            (* the handler runs and owns the reservation *)
| RunUnprotected (* fail-open: the handler runs without a reservation *)
| NoAnswer.      (* neither a response nor a call of next *)

Definition resolveExisting (fp : string) (record : option full) : action :=
  match record with
  | None => NoAnswer
  | Some r =>
    match f_state r with
    | completed =>
      if match f_fingerprint r with
         | Some f => str_truthy f && negb (bool_decide (f = fp))
         | None => false
         end
      then Reuse422
      else Replay (f_status r) (refreshVolatileFields (f_body r))
    | in_progress => InProgress409
    end
  end.

Inductive lookup_result : Type := Decided (a : action) | Proceed.

(** The middleware in its two database steps.  [key] is the canonical key, a
    SHA-256 digest and never empty; [failClosed] is [failClosed ||
    criticalPaymentEndpoints].  First the header check and the lookup: *)
Definition middleware_lookup (failClosed mongo_up : bool) (now : Z) (rawKey : option string)
  (key fp : string) (s : store) : store * lookup_result :=
  if negb (str_truthy (str_trim (default "" rawKey))) then (s, Decided Missing400) else
  match getFull mongo_up now key s with
  | (s1, Throw _) => (s1, Decided (if failClosed then Unavailable503 else RunUnprotected))
  | (s1, Ok (Some r)) =>
    if bool_decide (f_state r = in_progress) && (IN_FLIGHT_TTL_MS <=? now - f_createdAt r)
    then (s1, Proceed) else (s1, Decided (resolveExisting fp (Some r)))
  | (s1, Ok None) => (s1, Proceed)
  end.

(** then, when the lookup did not decide, the claim. *)
Definition middleware_claim (failClosed mongo_up : bool) (now : Z) (key scope fp : string) (s : store)
  : store * action :=
  match reserve mongo_up now key scope (Some fp) s with
  | (s2, Throw _) => (s2, if failClosed then Unavailable503 else RunUnprotected)
  | (s2, Ok Reserved) => (s2, Run)
  | (s2, Ok (NotReserved record)) => (s2, resolveExisting fp record)
  end.

Definition idempotencyMiddleware (failClosed mongo_up : bool) (now : Z) (rawKey : option string)
  (key scope fp : string) (s : store) : store * action :=
  match middleware_lookup failClosed mongo_up now rawKey key fp s with
  | (s1, Decided a) => (s1, a)
  | (s1, Proceed) => middleware_claim failClosed mongo_up now key scope fp s1
  end.

(** The owner's response is flushed ([finish]). *)
Definition completeReservation (now : Z) (key scope fp : string) (statusCode : Z)
  (captured : option (body R)) (s : store) : store :=
  if (statusCode <? 500) && negb (statusCode =? 404)
  then complete now key scope (Some fp) statusCode captured s
  else release key s.

(** The connection closes before the response is flushed. *)
Definition releaseReservation (key : string) (s : store) : store := release key s.

(** ** Requests in flight *)

(** The keys of the running handlers: [owners] hold a reservation that is not
    settled and answer a connected client; [unguarded] run without one, because
    their client has gone (the handler of a closed connection runs on) or because
    the store failed on a fail-open route. *)
Record sys := Sys { st : store; owners : list string; unguarded : list string }.

(** [up = false]: the Mongo calls of the step fail. *)
Inductive ev :=
| Lookup (failClosed up : bool) (now : Z) (rawKey : option string) (key fp : string)
| Claim (failClosed up : bool) (now : Z) (key scope fp : string)
| Finish (up : bool) (now : Z) (key scope fp : string) (statusCode : Z) (captured : option (body R))
| Close (up : bool) (key : string)   (* the client leaves; its handler runs on *)
| End_ (key : string)                (* an unguarded handler ends *)
| Crash (key : string)               (* the process of a handler dies *)
| ExpireMongo (key : string)
| ExpireRedis (key : string).

Fixpoint remove_one (k : string) (l : list string) : list string :=
  match l with
  | [] => []
  | x :: l' => if bool_decide (x = k) then l' else x :: remove_one k l'
  end.

(** Only a running handler finishes or loses its client.  The two steps of a
    request may be separated by any steps of other requests, so a claim can come
    at any time.  A settling write that fails is logged and dropped. *)
Definition step (e : ev) (y : sys) : sys :=
  match e with
  | Lookup fc up now raw key fp =>
    match middleware_lookup fc up now raw key fp (st y) with
    | (s', Decided RunUnprotected) => Sys s' (owners y) (key :: unguarded y)
    | (s', _) => Sys s' (owners y) (unguarded y)
    end
  | Claim fc up now key scope fp =>
    match middleware_claim fc up now key scope fp (st y) with
    | (s', Run) => Sys s' (key :: owners y) (unguarded y)
    | (s', RunUnprotected) => Sys s' (owners y) (key :: unguarded y)
    | (s', _) => Sys s' (owners y) (unguarded y)
    end
  | Finish up now key scope fp code b =>
    if bool_decide (key ∈ owners y)
    then Sys (if up then completeReservation now key scope fp code b (st y) else st y)
             (remove_one key (owners y)) (unguarded y)
    else y
  | Close up key =>
    if bool_decide (key ∈ owners y)
    then Sys (if up then releaseReservation key (st y) else st y)
             (remove_one key (owners y)) (key :: unguarded y)
    else y
  | End_ key => Sys (st y) (owners y) (remove_one key (unguarded y))
  | Crash key => Sys (st y) (remove_one key (owners y)) (unguarded y)
  | ExpireMongo key => Sys (Store (delete key (mongo (st y))) (redis (st y))) (owners y) (unguarded y)
  | ExpireRedis key => Sys (Store (mongo (st y)) (delete key <$> redis (st y))) (owners y) (unguarded y)
  end.

Definition run (es : list ev) (y : sys) : sys := fold_left (fun y e => step e y) es y.

(** Canonical keys are not empty, no request outlives the in-flight window
    while another with its key arrives, and none outlives the 24 hours after
    which Mongo purges its reservation. *)
Definition timely (e : ev) (y : sys) : Prop :=
  match e with
  | Lookup _ _ _ _ _ _ | End_ _ | Crash _ | ExpireRedis _ => True
  | Claim _ _ now key _ _ => key <> "" /\
      forall r, mongo (st y) !! key = Some r -> r_state r = in_progress ->
        now - r_createdAt r < IN_FLIGHT_TTL_MS
  | Finish _ _ key _ _ _ _ | Close _ key => key <> ""
  | ExpireMongo key => key ∉ owners y
  end.

Fixpoint timely_run (es : list ev) (y : sys) : Prop :=
  match es with [] => True | e :: es' => timely e y /\ timely_run es' (step e y) end.

(** No entry of another application version is left. *)
Definition versions_ok (s : store) : Prop :=
  (forall k r, mongo s !! k = Some r -> stale_version (r_version r) = false) /\
  (forall k c, redisGet k s = Some c -> stale_version (k_version c) = false).

Record inv (y : sys) : Prop := {
  i_single : NoDup (owners y);
  i_backed : forall k, k ∈ owners y ->
    exists r, mongo (st y) !! k = Some r /\ r_state r = in_progress;
  i_versions : versions_ok (st y);
}.

Lemma truthy_ne k : k <> "" -> str_truthy k = true.
Proof. by destruct k. Qed.

Lemma fresh_version : stale_version (Some APP_SCHEMA_VERSION) = false.
Proof. simpl. rewrite bool_decide_eq_true_2 by done. apply andb_false_r. Qed.

Lemma mongo_redisSet k c s : mongo (redisSet k c s) = mongo s.
Proof. unfold redisSet. by destruct (redis s). Qed.

Lemma redisGet_redisSet k k' c s :
  redisGet k' (redisSet k c s)
  = match redis s with
    | Some m => if bool_decide (k = k') then Some c else m !! k'
    | None => None
    end.
Proof.
  unfold redisGet, redisSet. destruct (redis s) as [m|] eqn:E; simpl; [|by rewrite E].
  case_bool_decide as Ek; [subst; apply lookup_insert_eq|by rewrite lookup_insert_ne].
Qed.

Lemma getFull_pure up now key s : versions_ok s -> (getFull up now key s).1 = s.
Proof.
  intros [Hm Hr]. unfold getFull. destruct (negb (str_truthy key)); [done|]. simpl.
  destruct up; simpl; [|by destruct (redisGet key s) as [c|] eqn:Ec; [rewrite (Hr _ _ Ec); case_match|]].
  destruct (redisGet key s) as [c|] eqn:Ec.
  - rewrite (Hr _ _ Ec). case_match; [done|].
    destruct (mongo s !! key) as [r|] eqn:Em; [|done]. by rewrite (Hm _ _ Em).
  - destruct (mongo s !! key) as [r|] eqn:Em; [|done]. by rewrite (Hm _ _ Em).
Qed.

Lemma versions_insert k r s :
  versions_ok s -> stale_version (r_version r) = false ->
  versions_ok (Store (<[k := r]> (mongo s)) (redis s)).
Proof.
  intros [Hm Hr] Hv. split; simpl; [|exact Hr]. intros k' r'.
  rewrite lookup_insert_Some. intros [[_ <-]|[_ H]]; eauto.
Qed.

Lemma versions_delete k s : versions_ok s -> versions_ok (Store (delete k (mongo s)) (redis s)).
Proof. intros [Hm Hr]. split; simpl; [|exact Hr]. intros k' r' [_ H]%lookup_delete_Some. eauto. Qed.

Lemma lookup_pure fc up now raw key fp s : versions_ok s ->
  (middleware_lookup fc up now raw key fp s).1 = s.
Proof.
  intros Hv. unfold middleware_lookup. destruct (negb _); [done|].
  pose proof (getFull_pure up now key s Hv) as Hp. destruct (getFull up now key s) as [s1 o].
  simpl in Hp. subst s1. by repeat case_match.
Qed.

(** What the store reads for a key that has a record. *)
Lemma getFull_record now key s r : versions_ok s -> key <> "" -> mongo s !! key = Some r ->
  exists f, getFull true now key s = (s, Ok (Some f)) /\
    (f_state f = completed \/ (f_state f = r_state r /\ f_createdAt f = r_createdAt r)).
Proof.
  intros [Hvm Hvr] Hk Hm. unfold getFull. rewrite (truthy_ne key Hk), Hm, (Hvm _ _ Hm). simpl.
  destruct (redisGet key s) as [c|] eqn:Ec; [|eauto].
  rewrite (Hvr _ _ Ec). case_bool_decide; eauto.
Qed.

Lemma resolve_not_run fp f : resolveExisting fp (Some f) <> Run.
Proof. unfold resolveExisting. by repeat case_match. Qed.

(** A claim of a key that has a record runs nothing and changes nothing, unless
    the record is in progress and stale; *)
Lemma claim_taken fc now key scope fp s r :
  versions_ok s -> key <> "" -> mongo s !! key = Some r ->
  (r_state r = in_progress -> now - r_createdAt r < IN_FLIGHT_TTL_MS) ->
  exists a, middleware_claim fc true now key scope fp s = (s, a) /\ a <> Run.
Proof.
  intros Hv Hk Hm Ht. unfold middleware_claim, reserve, create_reservation.
  rewrite (truthy_ne key Hk), Hm. simpl.
  destruct (getFull_record now key s r Hv Hk Hm) as (f & -> & Hf).
  assert (bool_decide (f_state f = in_progress) && (IN_FLIGHT_TTL_MS <=? now - f_createdAt f) = false) as ->.
  { case_bool_decide as E; [|done]. simpl. apply Z.leb_gt.
    destruct Hf as [Hf|[Hf ->]]; [congruence|]. apply Ht. congruence. }
  eexists. split; [done|]. apply resolve_not_run.
Qed.

(** while the store fails a claim reserves nothing; *)
Lemma claim_down fc now key scope fp s : key <> "" ->
  middleware_claim fc false now key scope fp s = (s, if fc then Unavailable503 else RunUnprotected).
Proof. intros Hk. unfold middleware_claim, reserve. by rewrite (truthy_ne key Hk). Qed.

(** a free key is reserved. *)
Lemma claim_free fc now key scope fp s :
  key <> "" -> mongo s !! key = None ->
  middleware_claim fc true now key scope fp s
  = (Store (<[key := IdemRecord scope in_progress (Some fp) None None None now]> (mongo s)) (redis s), Run).
Proof.
  intros Hk Hm. unfold middleware_claim, reserve, create_reservation. by rewrite (truthy_ne key Hk), Hm.
Qed.

Lemma remove_one_elem k l x : NoDup l -> x ∈ remove_one k l -> x ∈ l /\ x <> k.
Proof.
  induction l as [|y l IH]; simpl; intros Hn Hx; [by apply elem_of_nil in Hx|].
  apply NoDup_cons in Hn as [Hy Hn]. case_bool_decide as E.
  - subst y. split; [by right|]. intros ->. done.
  - apply elem_of_cons in Hx as [->|Hx]; [split; [by left|done]|].
    destruct (IH Hn Hx). split; [by right|done].
Qed.

Lemma remove_one_nodup k l : NoDup l -> NoDup (remove_one k l).
Proof.
  induction l as [|y l IH]; simpl; intros Hn; [done|]. apply NoDup_cons in Hn as [Hy Hn].
  case_bool_decide; [done|]. apply NoDup_cons. split; [|auto].
  intros Hx. by apply remove_one_elem in Hx as [Hx _].
Qed.

Lemma finish_store now key scope fp code b s k :
  k <> key -> mongo (completeReservation now key scope fp code b s) !! k = mongo s !! k.
Proof.
  intros Hne. unfold completeReservation, complete, release.
  destruct (_ && _); destruct (negb (str_truthy key)); try done.
  - rewrite mongo_redisSet. simpl. by rewrite lookup_insert_ne.
  - repeat case_match; try done. simpl. by rewrite lookup_delete_ne.
Qed.

Lemma release_store key s k : k <> key -> mongo (release key s) !! k = mongo s !! k.
Proof.
  intros Hne. unfold release. repeat case_match; try done. simpl. by rewrite lookup_delete_ne.
Qed.

Lemma release_versions key s : versions_ok s -> versions_ok (release key s).
Proof. intros Hv. unfold release. repeat case_match; try done. by apply versions_delete. Qed.

Lemma finish_versions now key scope fp code b s :
  versions_ok s -> versions_ok (completeReservation now key scope fp code b s).
Proof.
  intros Hv. unfold completeReservation. destruct (_ && _); [|by apply release_versions].
  unfold complete. destruct (negb _); [done|].
  assert (versions_ok (Store (<[key := IdemRecord scope completed (Some fp) (Some code) b
    (Some APP_SCHEMA_VERSION) match mongo s !! key with Some r => r_createdAt r | None => now end]>
    (mongo s)) (redis s))) as [H1 H2].
  { apply versions_insert; [done|apply fresh_version]. }
  split.
  - intros k r. rewrite mongo_redisSet. apply H1.
  - intros k c. rewrite redisGet_redisSet. simpl. destruct (redis s) as [m|] eqn:E; [|done].
    case_bool_decide; [intros [= <-]; apply fresh_version|]. intros Hc. apply (H2 k c).
    unfold redisGet. simpl. exact Hc.
Qed.

Lemma inv_owners y s l u :
  inv y -> versions_ok s -> NoDup l -> (forall k, k ∈ l -> k ∈ owners y /\ mongo s !! k = mongo (st y) !! k) ->
  inv (Sys s l u).
Proof.
  intros [Hs Hb Hv] Hv' Hl Hin. split; simpl; [done| |done].
  intros k [Hk ->]%Hin. by apply Hb.
Qed.

Lemma inv_remove y s key u :
  inv y -> versions_ok s -> (forall k, k <> key -> mongo s !! k = mongo (st y) !! k) ->
  inv (Sys s (remove_one key (owners y)) u).
Proof.
  intros Hi Hv Hm. apply (inv_owners y); [done|done|apply remove_one_nodup, Hi|].
  intros k [Hk Hne]%remove_one_elem; [|apply Hi]. auto.
Qed.

Lemma inv_unguarded y s u : inv y -> st y = s -> inv (Sys s (owners y) u).
Proof. intros Hi <-. apply (inv_owners y); [done|apply Hi|apply Hi|done]. Qed.

Lemma claim_step_inv fc up now key scope fp y :
  inv y -> timely (Claim fc up now key scope fp) y -> inv (step (Claim fc up now key scope fp) y).
Proof.
  intros Hi [Hk Ht]. pose proof Hi as [Hs Hb Hv]. simpl. destruct up.
  2: { rewrite claim_down by done. destruct fc; by apply inv_unguarded. }
  destruct (mongo (st y) !! key) as [r|] eqn:Em.
  - destruct (claim_taken fc now key scope fp (st y) r Hv Hk Em) as (a & -> & Ha); [by apply Ht|].
    destruct a; try done; by apply inv_unguarded.
  - rewrite claim_free by done. split; simpl.
    + apply NoDup_cons. split; [|done]. intros Hin. destruct (Hb _ Hin) as (r' & Hr' & Hst). congruence.
    + intros k [->|Hin]%elem_of_cons; [rewrite lookup_insert_eq; eauto|].
      destruct (Hb _ Hin) as (r' & Hr' & Hst). exists r'.
      rewrite lookup_insert_ne by congruence. done.
    + by apply versions_insert.
Qed.

Lemma key_step_inv e y : inv y -> timely e y -> inv (step e y).
Proof.
  intros Hi Ht. destruct e as [fc up now raw key fp|fc up now key scope fp|up now key scope fp code b|up key|key|key|key|key].
  - simpl. pose proof (lookup_pure fc up now raw key fp (st y) (i_versions _ Hi)) as Hp.
    destruct (middleware_lookup _ _ _ _ _ _ _) as [s' o]. simpl in Hp.
    destruct o as [a|]; [destruct a|]; by apply inv_unguarded.
  - by apply claim_step_inv.
  - simpl. case_bool_decide; [|done]. apply inv_remove; [done| |].
    + destruct up; [apply finish_versions|]; apply Hi.
    + intros k Hne. destruct up; [by apply finish_store|done].
  - simpl. case_bool_decide; [|done]. apply inv_remove; [done| |].
    + destruct up; [apply release_versions|]; apply Hi.
    + intros k Hne. destruct up; [by apply release_store|done].
  - by apply inv_unguarded.
  - apply inv_remove; [done|apply Hi|done].
  - simpl in *. apply (inv_owners y); [done|apply versions_delete, Hi|apply Hi|].
    intros k Hk. split; [done|]. simpl. rewrite lookup_delete_ne; [done|]. by intros ->.
  - apply (inv_owners y); [done| |apply Hi|done]. destruct (i_versions _ Hi) as [Hm Hr]. split; [done|].
    intros k c. unfold redisGet. simpl. destruct (redis (st y)) as [m|] eqn:E; simpl; [|done].
    intros [_ Hc]%lookup_delete_Some. apply (Hr k). unfold redisGet. by rewrite E.
Qed.

Lemma timely_run_inv es y : inv y -> timely_run es y -> inv (run es y).
Proof.
  revert y. induction es as [|e es IH]; intros y Hi Ht; simpl; [done|]. destruct Ht as [Ht Hts].
  apply IH; [by apply key_step_inv|done].
Qed.

(** The routes that refuse requests while the store fails. *)
Definition fails_closed (e : ev) : Prop :=
  match e with Lookup fc _ _ _ _ _ | Claim fc _ _ _ _ _ => fc = true | _ => True end.

Definition keeps_client (e : ev) : Prop := match e with Close _ _ => False | _ => True end.

Lemma resolve_protected fp r : resolveExisting fp r <> RunUnprotected.
Proof. unfold resolveExisting. by repeat case_match. Qed.

Lemma guarded_step e y : fails_closed e -> keeps_client e -> unguarded y = [] -> unguarded (step e y) = [].
Proof.
  intros Hf Hc Hu. destruct e; simpl in *; subst; rewrite ?Hu; try done; try (by case_bool_decide).
  - destruct (middleware_lookup _ _ _ _ _ _ _) as [s' o] eqn:E. destruct o as [[]|]; try done.
    unfold middleware_lookup in E. destruct (negb _); [done|]. destruct (getFull _ _ _ _) as [s1 [[r|]|]]; try done.
    destruct (_ && _); [done|]. injection E as _ E. by apply (resolve_protected fp (Some r)) in E.
  - destruct (middleware_claim _ _ _ _ _ _ _) as [s' a] eqn:E. destruct a; try done.
    unfold middleware_claim in E. destruct (reserve _ _ _ _ _ _) as [s1 [[|r]|]]; try done.
    injection E as _ E. by apply (resolve_protected fp r) in E.
Qed.

(** C4: one execution at a time per idempotency key.  Take any interleaving of
    arriving requests, finished responses, dropped connections, crashed
    processes, store outages and expiring entries in which no reservation is
    claimed again after the in-flight window or purged while its request still
    runs, starting without entries of another application version.  Then no two
    handlers with the same key hold a reservation for a connected client at the
    same time; and when moreover every route refuses requests while the store
    fails and no client disconnects early, no other handler runs at all.  (A
    handler whose client has left runs on without its reservation:
    [disconnect_double_execution].) *)
Theorem one_handler_per_key es y :
  inv y -> timely_run es y ->
  NoDup (owners (run es y)) /\
  (unguarded y = [] -> Forall fails_closed es -> Forall keeps_client es -> unguarded (run es y) = []).
Proof.
  intros Hi Ht. split; [apply timely_run_inv; done|]. clear Hi Ht. revert y.
  induction es as [|e es IH]; intros y Hu Hf Hc; simpl; [done|].
  apply Forall_cons in Hf as [Hf Hfs]. apply Forall_cons in Hc as [Hc Hcs].
  apply IH; [by apply guarded_step|done|done].
Qed.

(** A cacheable response (below 500 and not 404) decides every later request
    with its key: same body fingerprint gets that status and body back (the
    local-currency member refreshed), a different one gets 422; no handler runs
    and the store does not change. *)
Theorem completed_key_replays fc t now raw key scope fp fp' code b s :
  key <> "" -> fp <> "" -> str_truthy (str_trim raw) = true ->
  code < 500 -> code <> 404 ->
  let s' := completeReservation t key scope fp code b s in
  idempotencyMiddleware fc true now (Some raw) key scope fp' s'
  = (s', if bool_decide (fp' = fp) then Replay (Some code) (refreshVolatileFields b) else Reuse422).
Proof.
  intros Hk Hf Hraw Hc H4 s'. subst s'. unfold completeReservation.
  destruct (Z.ltb_spec code 500); [|lia]. destruct (Z.eqb_spec code 404); [lia|]. simpl.
  unfold complete. rewrite (truthy_ne key Hk). simpl.
  unfold idempotencyMiddleware, middleware_lookup, middleware_claim. simpl default. rewrite Hraw. simpl negb. cbv iota.
  set (s1 := redisSet _ _ _).
  assert (getFull true now key s1 = (s1, Ok (Some (Full completed (Some fp) (Some code) b
    (if match redis s with Some _ => true | None => false end then now
     else match mongo s !! key with Some r => r_createdAt r | None => t end))))) as ->.
  { unfold getFull. rewrite (truthy_ne key Hk). simpl. unfold s1 at 1. rewrite redisGet_redisSet. simpl redis.
    destruct (redis s) as [m|] eqn:E; cbv iota.
    - rewrite bool_decide_eq_true_2 by done. cbn [k_state k_version k_fingerprint k_status k_body].
      rewrite bool_decide_eq_true_2 by done. by rewrite fresh_version.
    - unfold s1 at 1. rewrite mongo_redisSet. cbn [mongo]. rewrite lookup_insert_eq.
      cbn [r_version r_state r_fingerprint r_status r_body r_createdAt]. by rewrite fresh_version. }
  cbn [f_state f_createdAt]. simpl bool_decide. simpl andb. cbv iota.
  unfold resolveExisting. cbn [f_state f_fingerprint f_status f_body].
  rewrite (truthy_ne fp Hf). simpl andb. repeat case_bool_decide; simpl; congruence.
Qed.

(** A 5xx or 404 response is never stored: the reservation is released, and
    the next request with the key runs the handler again. *)
Theorem failed_request_can_retry fc t now raw key scope fp fp' code b s r :
  key <> "" -> str_truthy (str_trim raw) = true -> 500 <= code \/ code = 404 ->
  mongo s !! key = Some r -> r_state r = in_progress -> redisGet key s = None ->
  (idempotencyMiddleware fc true now (Some raw) key scope fp'
     (completeReservation t key scope fp code b s)).2 = Run.
Proof.
  intros Hk Hraw Hc Hm Hs Hr. unfold completeReservation.
  assert ((code <? 500) && negb (code =? 404) = false) as ->.
  { destruct (Z.ltb_spec code 500), (Z.eqb_spec code 404); simpl; lia || done. }
  unfold release. rewrite (truthy_ne key Hk), Hm, Hs. simpl.
  unfold idempotencyMiddleware, middleware_lookup, middleware_claim. simpl default. rewrite Hraw. simpl negb. cbv iota.
  unfold getFull. rewrite (truthy_ne key Hk). unfold redisGet in *. cbn [redis mongo negb]. cbv iota.
  rewrite Hr, lookup_delete_eq. unfold reserve, create_reservation. rewrite (truthy_ne key Hk).
  cbn [mongo negb]. cbv iota. by rewrite lookup_delete_eq.
Qed.

End Store.
Arguments store : clear implicits.
Arguments sys : clear implicits.

(** ** Scenarios *)

Definition no_conversion (a : number) (c l : string) : option conversion := None.
Abbreviation mw s := (idempotencyMiddleware "2.0.0" 30000 no_conversion true true s).

(** A cached Redis entry of an earlier application version is never removed
    from Redis; each request that meets it deletes the Mongo record of the key
    instead, so a second request arriving while the first is running deletes the
    first one's reservation and runs as well. *)
Theorem stale_cache_double_execution :
  let s0 : store unit := Store ∅ (Some {[ "k" := CachedRec (Some completed) "" (Some "f") (Some 200)
                                          None (Some "1.0.0") ]}) in
  let '(s1, a1) := mw 0 (Some "x") "k" "" "f" s0 in
  let '(s2, a2) := mw 5 (Some "x") "k" "" "f" s1 in
  a1 = Run /\ a2 = Run.
Proof. vm_compute. split; reflexivity. Qed.

(** A reservation has no owner mark, so after a takeover the first owner's
    late failure releases its successor's reservation, and a third request runs
    while the second is still running. *)
Theorem late_failure_releases_successor :
  let s0 : store unit := Store ∅ None in
  let '(s1, a1) := mw 0 (Some "x") "k" "" "f" s0 in
  let '(s2, a2) := mw 30000 (Some "x") "k" "" "f" s1 in            (* takes over *)
  let s3 := completeReservation "2.0.0" 30001 "k" "" "f" 500 None s2 in  (* first one fails late *)
  let '(s4, a4) := mw 30002 (Some "x") "k" "" "f" s3 in
  a1 = Run /\ a2 = Run /\ a4 = Run.
Proof. vm_compute. repeat split; reflexivity. Qed.

Definition empty_sys : sys unit := Sys (Store ∅ (Some ∅)) [] [].

(** A client that disconnects releases the reservation although its handler
    keeps running: a retry with the same key a second later runs the handler a
    second time, beside the first. *)
Theorem disconnect_double_execution :
  let y := run "2.0.0" 30000 no_conversion
             [Lookup true true 0 (Some "x") "k" "f"; Claim true true 1 "k" "" "f"; Close true "k";
              Lookup true true 1000 (Some "x") "k" "f"; Claim true true 1001 "k" "" "f"] empty_sys in
  owners y = ["k"] /\ unguarded y = ["k"].
Proof. vm_compute. split; reflexivity. Qed.

Lemma one_handler_per_key_witness :
  let es := [Lookup true true 0 (Some "x") "k" "f"; Lookup true true 0 (Some "x") "k" "f";
             Claim true true 1 "k" "" "f"; Claim true true 1 "k" "" "f"; Claim true false 1 "k" "" "f";
             Finish true 2 "k" "" "f" 200 None; Claim true true 3 "k" "" "f"; ExpireMongo "k"] in
  NoDup (owners (run "2.0.0" 30000 no_conversion es empty_sys)) /\
  unguarded (run "2.0.0" 30000 no_conversion es empty_sys) = [].
Proof.
  intros es. destruct (one_handler_per_key "2.0.0" 30000 no_conversion es empty_sys) as [H1 H2].
  - split; simpl.
    + constructor.
    + intros k Hk. by apply elem_of_nil in Hk.
    + split; intros *; cbn; by rewrite lookup_empty.
  - repeat split; try discriminate; try (intros r Hr; vm_compute in Hr; try discriminate;
      injection Hr as <-; intros; simpl in *; try discriminate; lia). vm_compute. intros H. inversion H.
  - split; [exact H1|]. apply H2; [reflexivity|repeat constructor|repeat constructor].
Defined.

Lemma completed_key_replays_witness :
  let s' := completeReservation "2.0.0" 0 "k" "" "f" 201 (Some (BOther tt)) (Store ∅ None) in
  mw 10 (Some "x") "k" "" "f" s' = (s', Replay (Some 201) (Some (BOther tt))).
Proof.
  intros s'. unfold s'. rewrite completed_key_replays; try discriminate; try lia; reflexivity.
Defined.

Lemma failed_request_can_retry_witness :
  let s : store unit := Store {[ "k" := IdemRecord "" in_progress (Some "f") None None None 0 ]} None in
  (mw 10 (Some "x") "k" "" "f" (completeReservation "2.0.0" 5 "k" "" "f" 503 None s)).2 = Run.
Proof.
  intros s. eapply failed_request_can_retry; try reflexivity; [discriminate|lia].
Defined.

End Idempotency.
