(* ===== verification/PollBudget.v ===== *)
(** The Horizon polling budget: backend/src/services/horizonPollBudget.js, the
    per-cycle request budget with its additive-increase multiplicative-decrease
    ceiling, the priority score of a school with aging, and the order in which
    schools are polled.  Budgets and counters are integers; scores are doubles. *)

From Stdlib Require Import ZArith QArith Qabs Qpower Lia Lqa Sorting.Sorted.
From stdpp Require Import base list strings gmap.
From S2P Require Import Prelude JsNumber JsString.
Local Open Scope string_scope.
Local Open Scope Z_scope.
Local Open Scope list_scope.

Module PollBudget.

Definition AIMD_INCREASE_TOKENS : Z := 2.
Definition PRIORITY_PENDING_PAYMENT : Z := 100.
Definition PRIORITY_RECENT_ACTIVITY : Z := 20.
Definition PRIORITY_NEVER_SYNCED : Z := 250.
Definition PRIORITY_AGING_PER_CYCLE : Z := 15.

Section Config.
(** Environment: hourly limit, safety factor, replicas, floor, activity window. *)
Variables (HORIZON_RATE_LIMIT_PER_HOUR : Z) (POLL_BUDGET_SAFETY_FACTOR : number)
          (REPLICA_COUNT MIN_BUDGET_PER_CYCLE RECENT_ACTIVITY_WINDOW_MS : Z).

Definition computeCycleBudget (intervalMs : Z) : number :=
  let perMs := num_div (of_Z HORIZON_RATE_LIMIT_PER_HOUR) (of_Z 3600000) in
  let raw := num_div (num_mul (num_mul perMs (of_Z intervalMs)) POLL_BUDGET_SAFETY_FACTOR)
               (of_Z REPLICA_COUNT) in
  num_max (of_Z MIN_BUDGET_PER_CYCLE) (num_floor raw).

(** ** The budget of a cycle *)

Record budget := Budget {
  nominalBudget : Z;
  currentCeiling : Z;
  remaining : Z;
  consumedThisCycle : Z;
  deniedThisCycle : Z;
  rateLimitEventsThisCycle : Z;
  cyclesDeferred : gmap string Z;
  cycles : Z;
}.

Definition budget_constructor (nominal : Z) : budget :=
  Budget nominal nominal nominal 0 0 0 ∅ 0.

(** [Math.floor(ceiling * 0.5)] of an integer is its halving rounded down. *)
Definition startCycle (b : budget) : budget * Z :=
  let ceiling :=
    if 0 <? cycles b then
      if 0 <? rateLimitEventsThisCycle b
      then Z.max MIN_BUDGET_PER_CYCLE (currentCeiling b / 2)
      else if currentCeiling b <? nominalBudget b
      then Z.min (nominalBudget b) (currentCeiling b + AIMD_INCREASE_TOKENS)
      else currentCeiling b
    else currentCeiling b in
  (Budget (nominalBudget b) ceiling ceiling 0 0 0 (cyclesDeferred b) (cycles b + 1), ceiling).

Definition tryConsume (n : Z) (b : budget) : budget * bool :=
  if remaining b <? n
  then (Budget (nominalBudget b) (currentCeiling b) (remaining b) (consumedThisCycle b)
          (deniedThisCycle b + n) (rateLimitEventsThisCycle b) (cyclesDeferred b) (cycles b), false)
  else (Budget (nominalBudget b) (currentCeiling b) (remaining b - n) (consumedThisCycle b + n)
          (deniedThisCycle b) (rateLimitEventsThisCycle b) (cyclesDeferred b) (cycles b), true).

Definition refund (n : Z) (b : budget) : budget :=
  Budget (nominalBudget b) (currentCeiling b) (Z.min (currentCeiling b) (remaining b + n))
    (Z.max 0 (consumedThisCycle b - n)) (deniedThisCycle b) (rateLimitEventsThisCycle b)
    (cyclesDeferred b) (cycles b).

Definition recordRateLimited (b : budget) : budget :=
  Budget (nominalBudget b) (currentCeiling b) (remaining b) (consumedThisCycle b)
    (deniedThisCycle b) (rateLimitEventsThisCycle b + 1) (cyclesDeferred b) (cycles b).

Definition set_deferred (m : gmap string Z) (b : budget) : budget :=
  Budget (nominalBudget b) (currentCeiling b) (remaining b) (consumedThisCycle b)
    (deniedThisCycle b) (rateLimitEventsThisCycle b) m (cycles b).

Definition getDeferralCount (schoolId : string) (b : budget) : Z :=
  default 0 (cyclesDeferred b !! schoolId).

Definition recordDeferred (schoolId : string) (b : budget) : budget :=
  set_deferred (<[schoolId := getDeferralCount schoolId b + 1]> (cyclesDeferred b)) b.

Definition recordPolled (schoolId : string) (b : budget) : budget :=
  set_deferred (delete schoolId (cyclesDeferred b)) b.

Definition getMaxDeferralCycles (b : budget) : Z :=
  foldl (fun m e => if m <? e.2 then e.2 else m) 0 (map_to_list (cyclesDeferred b)).

(** ** Scores and order *)

Record school := School { s_schoolId : string; s_syncCursor : option string }.

Record signals := Signals {
  pendingCount : Z; lastActivityAt : option Z; sig_cyclesDeferred : Z }.

Definition no_signals : signals := Signals 0 None 0.

(** The recent-activity bonus, decaying linearly across the window. *)
Definition add_recent_activity (score : number) (g : signals) (now : Z) : number :=
  match lastActivityAt g with
  | Some t =>
    let age := now - t in
    if (0 <=? age) && (age <? RECENT_ACTIVITY_WINDOW_MS)
    then let freshness := num_sub (of_Z 1) (num_div (of_Z age) (of_Z RECENT_ACTIVITY_WINDOW_MS)) in
         num_add score (num_mul (of_Z PRIORITY_RECENT_ACTIVITY) freshness)
    else score
  | None => score
  end.

Definition computeSchoolPriority (s : school) (g : signals) (now : Z) : number :=
  let score := if negb (str_truthy (default "" (s_syncCursor s)))
               then num_add (of_Z 0) (of_Z PRIORITY_NEVER_SYNCED) else of_Z 0 in
  let score := num_add score
                 (num_mul (num_min (of_Z (pendingCount g)) (of_Z 10)) (of_Z PRIORITY_PENDING_PAYMENT)) in
  let score := add_recent_activity score g now in
  num_add score (num_mul (of_Z (sig_cyclesDeferred g)) (of_Z PRIORITY_AGING_PER_CYCLE)).

(** [String.prototype.localeCompare]. *)
Variable localeCompare : string -> string -> Z.

Definition priority_cmp (a b : school * number) : Z :=
  let d := num_sub b.2 a.2 in
  if num_truthy d then num_sign d else localeCompare (s_schoolId a.1) (s_schoolId b.1).

Definition orderSchoolsByPriority (schools : list school) (sigs : gmap string signals) (now : Z)
  : list (school * number) :=
  js_sort priority_cmp
    ((fun s => (s, computeSchoolPriority s (default no_signals (sigs !! s_schoolId s)) now)) <$> schools).

(** ** The budget invariant *)
Section Invariant.
Hypothesis MIN_pos : 1 <= MIN_BUDGET_PER_CYCLE.

Inductive op :=
| StartCycle | TryConsume (n : Z) | Refund (n : Z) | RateLimited
| Deferred (schoolId : string) | Polled (schoolId : string).

Definition step (o : op) (b : budget) : budget :=
  match o with
  | StartCycle => (startCycle b).1
  | TryConsume n => (tryConsume n b).1
  | Refund n => refund n b
  | RateLimited => recordRateLimited b
  | Deferred s => recordDeferred s b
  | Polled s => recordPolled s b
  end.

Definition run (os : list op) (b : budget) : budget := fold_left (fun b o => step o b) os b.

Definition op_ok (o : op) : Prop :=
  match o with TryConsume n | Refund n => 0 <= n | _ => True end.

Record inv (b : budget) : Prop := {
  i_floor : MIN_BUDGET_PER_CYCLE <= currentCeiling b;
  i_nominal : currentCeiling b <= nominalBudget b;
  i_remaining : 0 <= remaining b;
  i_consumed : 0 <= consumedThisCycle b;
  i_balance : consumedThisCycle b + remaining b = currentCeiling b;
}.

Lemma budget_step_inv o b : inv b -> op_ok o -> inv (step o b).
Proof.
  intros [H1 H2 H3 H4 H5] Hok. destruct o; simpl in *;
    unfold startCycle, tryConsume, refund; simpl; try (by split; simpl; lia).
  - repeat case_match; split; simpl; unfold AIMD_INCREASE_TOKENS in *;
      pose proof (Z.div_lt (currentCeiling b) 2); zbool.
  - destruct (Z.ltb_spec (remaining b) n); split; simpl; lia.
Qed.

Lemma step_nominal o b : nominalBudget (step o b) = nominalBudget b.
Proof. destruct o; simpl; unfold startCycle, tryConsume; repeat case_match; done. Qed.

Lemma run_inv os b : inv b -> Forall op_ok os -> inv (run os b) /\ nominalBudget (run os b) = nominalBudget b.
Proof.
  intros Hi Hos. revert b Hi. induction Hos as [|o os Ho Hos IH]; intros b Hi; simpl; [done|].
  destruct (IH (step o b) (budget_step_inv o b Hi Ho)) as [H1 H2]. by rewrite step_nominal in H2.
Qed.

(** In every history the ceiling stays between the configured floor and the
    nominal budget, and within a cycle the requests granted (less those handed
    back) and the tokens left add up to exactly the ceiling; so no cycle issues
    more requests than the nominal budget. *)
Theorem budget_never_exceeded os nominal :
  MIN_BUDGET_PER_CYCLE <= nominal -> Forall op_ok os ->
  let b := run os (budget_constructor nominal) in
  MIN_BUDGET_PER_CYCLE <= currentCeiling b <= nominal /\
  0 <= remaining b /\ 0 <= consumedThisCycle b /\
  consumedThisCycle b + remaining b = currentCeiling b.
Proof.
  intros Hn Hos b. destruct (run_inv os (budget_constructor nominal)) as [[] Hnom]; [|done|].
  { split; simpl; lia. }
  subst b. rewrite Hnom in *. simpl in *. lia.
Qed.

(** Recovery from rate limiting: [k] clean cycles after any state raise the
    ceiling by two tokens each until it is back at the nominal budget. *)
Theorem budget_recovers b k :
  inv b -> 0 < cycles b -> rateLimitEventsThisCycle b = 0 ->
  currentCeiling (run (replicate k StartCycle) b)
  = Z.min (nominalBudget b) (currentCeiling b + AIMD_INCREASE_TOKENS * Z.of_nat k).
Proof.
  intros Hi Hc Hr. revert b Hi Hc Hr. induction k as [|k IH]; intros b Hi Hc Hr.
  { simpl. destruct Hi. lia. }
  simpl replicate. simpl run. rewrite IH.
  - unfold step, startCycle. simpl.
    destruct Hi. unfold AIMD_INCREASE_TOKENS.
    destruct (Z.ltb_spec 0 (cycles b)); [|lia].
    destruct (Z.ltb_spec 0 (rateLimitEventsThisCycle b)); [lia|].
    destruct (Z.ltb_spec (currentCeiling b) (nominalBudget b)); lia.
  - by apply (budget_step_inv StartCycle).
  - unfold startCycle. simpl. lia.
  - done.
Qed.

End Invariant.

(** ** The scores are accurate *)

Lemma near_double q : (Qabs q < Qpower 2 20)%Q ->
  exists r, to_double q = Fin r /\ (Qabs (r - q) <= 1 # 10000000000)%Q /\ on_grid r.
Proof.
  intros Hq. pose proof (rnd_error q 20 ltac:(lia) Hq) as He.
  assert (Qabs (rnd q - q) <= 1 # 10000000000)%Q as Hb.
  { eapply Qle_trans; [exact He|]. vm_compute. discriminate. }
  exists (rnd q). split_and!; [|done|apply rnd_grid].
  unfold to_double. destruct (Qle_bool _ _) eqn:E; [exfalso|done].
  apply Qle_bool_iff in E. apply (Qle_not_lt _ _ E).
  apply Qabs_Qle_condition in Hb as [Hb1 Hb2]. apply Qabs_Qlt_condition in Hq as [Hq1 Hq2].
  change (Qpower 2 20) with 1048576%Q in *.
  apply Qlt_trans with 2000000%Q; [|vm_compute; reflexivity].
  apply Qabs_Qlt_condition. split; lra.
Qed.

(** The base score (never synced, pending payments) and the exact freshness. *)
Definition base_score (s : school) (g : signals) : Z :=
  (if negb (str_truthy (default "" (s_syncCursor s))) then PRIORITY_NEVER_SYNCED else 0)
  + PRIORITY_PENDING_PAYMENT * Z.min (pendingCount g) 10.

Definition freshness_of (g : signals) (now : Z) : Q :=
  match lastActivityAt g with
  | Some t => let age := now - t in
    if (0 <=? age) && (age <? RECENT_ACTIVITY_WINDOW_MS)
    then 1 - inject_Z age / inject_Z RECENT_ACTIVITY_WINDOW_MS else 0
  | None => 0
  end.

Definition exact_score (s : school) (g : signals) (now : Z) : Q :=
  inject_Z (base_score s g + PRIORITY_AGING_PER_CYCLE * sig_cyclesDeferred g)
  + 20 * freshness_of g now.

Definition signals_ok (g : signals) : Prop :=
  0 <= pendingCount g /\ 0 <= sig_cyclesDeferred g < 2 ^ 15.

Lemma base_score_range s g : signals_ok g -> 0 <= base_score s g <= 1250.
Proof.
  intros [Hp _]. unfold base_score, PRIORITY_NEVER_SYNCED, PRIORITY_PENDING_PAYMENT.
  case_match; lia.
Qed.

Lemma freshness_range g now : (0 <= freshness_of g now <= 1)%Q.
Proof.
  unfold freshness_of. destruct (lastActivityAt g) as [t|]; [|split; discriminate].
  destruct (Z.leb_spec 0 (now - t)); simpl; [|split; discriminate].
  destruct (Z.ltb_spec (now - t) RECENT_ACTIVITY_WINDOW_MS) as [Hlt|]; [|split; discriminate].
  assert (0 < RECENT_ACTIVITY_WINDOW_MS) as HW by lia.
  assert (0 <= inject_Z (now - t) / inject_Z RECENT_ACTIVITY_WINDOW_MS)%Q.
  { apply Qle_shift_div_l; [by apply inject_Z_pos|]. rewrite Qmult_0_l.
    change 0%Q with (inject_Z 0). by rewrite <- Zle_Qle. }
  assert (inject_Z (now - t) / inject_Z RECENT_ACTIVITY_WINDOW_MS <= 1)%Q.
  { apply Qle_shift_div_r; [by apply inject_Z_pos|]. rewrite Qmult_1_l, <- Zle_Qle. lia. }
  lra.
Qed.

Lemma start_score s g : signals_ok g ->
  num_add (if negb (str_truthy (default "" (s_syncCursor s)))
           then num_add (of_Z 0) (of_Z PRIORITY_NEVER_SYNCED) else of_Z 0)
    (num_mul (num_min (of_Z (pendingCount g)) (of_Z 10)) (of_Z PRIORITY_PENDING_PAYMENT))
  = of_Z (base_score s g).
Proof.
  intros Hg. pose proof (base_score_range s g Hg) as Hr. destruct Hg as [Hp _]. revert Hr.
  unfold base_score, PRIORITY_NEVER_SYNCED, PRIORITY_PENDING_PAYMENT.
  rewrite num_min_int, num_mul_int by lia.
  destruct (negb _); intros Hr; [rewrite (num_add_int 0) by lia|];
    rewrite num_add_int by lia; f_equal; lia.
Qed.

Lemma active_score (b age : Z) :
  0 <= b <= 1250 -> 0 <= age < RECENT_ACTIVITY_WINDOW_MS ->
  exists r, num_add (of_Z b) (num_mul (of_Z PRIORITY_RECENT_ACTIVITY)
      (num_sub (of_Z 1) (num_div (of_Z age) (of_Z RECENT_ACTIVITY_WINDOW_MS)))) = Fin r /\
    (Qabs (r - (inject_Z b + 20 * (1 - inject_Z age / inject_Z RECENT_ACTIVITY_WINDOW_MS)))
       <= 1 # 10000)%Q.
Proof.
  intros Hb Ha. set (W := RECENT_ACTIVITY_WINDOW_MS) in *.
  set (x := (inject_Z age / inject_Z W)%Q).
  assert (0 <= x <= 1)%Q as Hx.
  { split; [apply Qle_shift_div_l|apply Qle_shift_div_r]; try (apply inject_Z_pos; lia).
    - rewrite Qmult_0_l. change 0%Q with (inject_Z 0). rewrite <- Zle_Qle. lia.
    - rewrite Qmult_1_l, <- Zle_Qle. lia. }
  assert (0 <= inject_Z b <= 1250)%Q as Hbq.
  { change 0%Q with (inject_Z 0). change 1250%Q with (inject_Z 1250). rewrite <- !Zle_Qle. lia. }
  assert (forall q, (-100000 <= q <= 100000)%Q -> (Qabs q < Qpower 2 20)%Q) as Hsmall.
  { intros q Hq. apply Qabs_Qlt_condition. change (Qpower 2 20) with 1048576%Q. split; lra. }
  assert (num_div (of_Z age) (of_Z W) = to_double x) as ->.
  { unfold num_div, of_Z. simpl. destruct (Z.eqb_spec W 0); [lia|done]. }
  destruct (near_double x) as (x1 & -> & [E1 E1']%Qabs_Qle_condition & _); [apply Hsmall; split; lra|].
  change (num_sub (of_Z 1) (Fin x1)) with (to_double (inject_Z 1 + - x1)).
  destruct (near_double (inject_Z 1 + - x1)) as (f & -> & [E2 E2']%Qabs_Qle_condition & _);
    [apply Hsmall; change (inject_Z 1) with 1%Q; split; lra|]. change (inject_Z 1) with 1%Q in *.
  change (num_mul (of_Z PRIORITY_RECENT_ACTIVITY) (Fin f)) with (to_double (inject_Z 20 * f)).
  destruct (near_double (inject_Z 20 * f)) as (m & -> & [E3 E3']%Qabs_Qle_condition & _);
    [apply Hsmall; change (inject_Z 20) with 20%Q; split; lra|]. change (inject_Z 20) with 20%Q in *.
  change (num_add (of_Z b) (Fin m)) with (to_double (inject_Z b + m)).
  destruct (near_double (inject_Z b + m)) as (r & -> & [E4 E4']%Qabs_Qle_condition & _);
    [apply Hsmall; split; lra|].
  exists r. split; [done|]. apply Qabs_Qle_condition. split; lra.
Qed.

Lemma activity_near b g now : 0 <= b <= 1250 ->
  exists r, add_recent_activity (of_Z b) g now = Fin r /\
    (Qabs (r - (inject_Z b + 20 * freshness_of g now)) <= 1 # 10000)%Q.
Proof.
  intros Hb. unfold add_recent_activity, freshness_of. destruct (lastActivityAt g) as [t|]; cbv zeta.
  - destruct (Z.leb_spec 0 (now - t)); simpl andb; cbv iota;
      [|exists (inject_Z b); split; [done|]; apply Qabs_Qle_condition; split; lra].
    destruct (Z.ltb_spec (now - t) RECENT_ACTIVITY_WINDOW_MS);
      [|exists (inject_Z b); split; [done|]; apply Qabs_Qle_condition; split; lra].
    apply active_score; lia.
  - exists (inject_Z b). split; [done|]. apply Qabs_Qle_condition. split; lra.
Qed.

Lemma score_near s g now : signals_ok g ->
  exists p, computeSchoolPriority s g now = Fin p /\ on_grid p /\
    (Qabs (p - exact_score s g now) <= 1 # 1000)%Q.
Proof.
  intros Hg. unfold computeSchoolPriority. cbv zeta. rewrite (start_score s g Hg).
  pose proof (base_score_range s g Hg) as Hb. set (b := base_score s g) in *.
  destruct Hg as [_ Hk]. set (k := sig_cyclesDeferred g) in *.
  assert (num_mul (of_Z k) (of_Z PRIORITY_AGING_PER_CYCLE) = of_Z (PRIORITY_AGING_PER_CYCLE * k)) as ->.
  { unfold PRIORITY_AGING_PER_CYCLE. rewrite num_mul_int by lia. f_equal. lia. }
  destruct (activity_near b g now Hb) as (r & -> & Hr).
  pose proof (freshness_range g now) as Hf. set (f := freshness_of g now) in *.
  apply Qabs_Qle_condition in Hr as [Hr1 Hr2].
  assert (0 <= inject_Z b <= 1250)%Q as Hbq.
  { change 0%Q with (inject_Z 0). change 1250%Q with (inject_Z 1250). rewrite <- !Zle_Qle. lia. }
  assert (0 <= inject_Z (PRIORITY_AGING_PER_CYCLE * k) <= 500000)%Q as Hkq.
  { unfold PRIORITY_AGING_PER_CYCLE. change 0%Q with (inject_Z 0).
    change 500000%Q with (inject_Z 500000). rewrite <- !Zle_Qle. lia. }
  unfold num_add, of_Z.
  destruct (near_double (r + inject_Z (PRIORITY_AGING_PER_CYCLE * k)))
    as (p & -> & [E1 E2]%Qabs_Qle_condition & Hgrid).
  { apply Qabs_Qlt_condition. change (Qpower 2 20) with 1048576%Q. split; lra. }
  exists p. split_and!; [done|done|]. apply Qabs_Qle_condition.
  unfold exact_score. fold b k f. rewrite inject_Z_plus. split; lra.
Qed.

(** The starvation guard.  A school deferred for 85 cycles or more scores
    strictly above every school that has not been deferred, whatever their
    pending payments, activity and cursors; the computed (floating-point) scores
    are compared. *)
Theorem aging_overtakes s g s' g' now :
  signals_ok g -> signals_ok g' ->
  85 <= sig_cyclesDeferred g -> sig_cyclesDeferred g' = 0 ->
  num_lt (computeSchoolPriority s' g' now) (computeSchoolPriority s g now) = true.
Proof.
  intros Hg Hg' Hk Hk'.
  destruct (score_near s g now Hg) as (p & -> & _ & [H1 H2]%Qabs_Qle_condition).
  destruct (score_near s' g' now Hg') as (p' & -> & _ & [H3 H4]%Qabs_Qle_condition).
  pose proof (freshness_range g now) as [F1 F2]. pose proof (freshness_range g' now) as [F3 F4].
  pose proof (base_score_range s g Hg). pose proof (base_score_range s' g' Hg').
  unfold exact_score in *. rewrite Hk' in *.
  assert (inject_Z 1275 <= inject_Z (base_score s g + PRIORITY_AGING_PER_CYCLE * sig_cyclesDeferred g))%Q as L.
  { unfold PRIORITY_AGING_PER_CYCLE. rewrite <- Zle_Qle. lia. }
  assert (inject_Z (base_score s' g' + PRIORITY_AGING_PER_CYCLE * 0) <= inject_Z 1250)%Q as U.
  { unfold PRIORITY_AGING_PER_CYCLE. rewrite <- Zle_Qle. lia. }
  change (inject_Z 1275) with 1275%Q in L. change (inject_Z 1250) with 1250%Q in U.
  simpl. unfold Qltb. apply negb_true_iff, not_true_is_false. intros E%Qle_bool_iff. lra.
Qed.

(** ** The order *)

(** Documented of [localeCompare]: it is a consistent comparator. *)
Hypothesis lc_total : forall a b, localeCompare a b <= 0 \/ localeCompare b a <= 0.
Hypothesis lc_trans : forall a b c,
  localeCompare a b <= 0 -> localeCompare b c <= 0 -> localeCompare a c <= 0.

Definition scored (x : school * number) : Prop := exists p, x.2 = Fin p /\ on_grid p.

Lemma priority_cmp_le a b p q : a.2 = Fin p -> b.2 = Fin q -> on_grid p -> on_grid q ->
  (priority_cmp a b <= 0 <->
   (q < p)%Q \/ ((p == q)%Q /\ localeCompare (s_schoolId a.1) (s_schoolId b.1) <= 0)).
Proof.
  intros Ea Eb Hp Hq. unfold priority_cmp. rewrite Ea, Eb.
  assert (num_sub (Fin q) (Fin p) <> NaN) as Hn.
  { unfold num_sub, num_neg, num_add, to_double. by case_match. }
  rewrite (num_truthy_sign _ Hn), num_sub_sign by done.
  destruct (Qcompare_spec q p) as [E|E|E]; simpl.
  - split; [intros; right; split; [by symmetry|done]|]. intros [H|[_ H]]; [lra|done].
  - split; [by left|lia].
  - split; [lia|]. intros [H|[H _]]; lra.
Qed.

Lemma priority_total a b : scored a -> scored b -> priority_cmp a b <= 0 \/ priority_cmp b a <= 0.
Proof.
  intros (p & Ea & Hp) (q & Eb & Hq).
  rewrite (priority_cmp_le a b p q), (priority_cmp_le b a q p) by done.
  destruct (Qcompare_spec p q) as [E|E|E]; [|by right; left|by left; left].
  destruct (lc_total (s_schoolId a.1) (s_schoolId b.1)); [left; right|right; right];
    (split; [lra|done]).
Qed.

Lemma priority_trans a b c : scored a -> scored b -> scored c ->
  priority_cmp a b <= 0 -> priority_cmp b c <= 0 -> priority_cmp a c <= 0.
Proof.
  intros (p & Ea & Hp) (q & Eb & Hq) (r & Ec & Hr).
  rewrite (priority_cmp_le a b p q), (priority_cmp_le b c q r), (priority_cmp_le a c p r) by done.
  intros [H1|[H1 L1]] [H2|[H2 L2]]; [left; lra..|]. right. split; [lra|by eapply lc_trans].
Qed.

(** The polling order keeps every school exactly once and puts the schools in
    non-increasing order of their computed priority. *)
Theorem order_is_sorted schools sigs now :
  Forall (fun s => signals_ok (default no_signals (sigs !! s_schoolId s))) schools ->
  let out := orderSchoolsByPriority schools sigs now in
  out.*1 ≡ₚ schools /\
  StronglySorted (fun a b => num_lt a.2 b.2 = false) out.
Proof.
  intros Hs out. subst out. unfold orderSchoolsByPriority. set (l := _ <$> schools).
  assert (Forall scored l) as Hl.
  { unfold l. apply Forall_fmap. eapply Forall_impl; [exact Hs|]. intros s Hg. unfold compose.
    destruct (score_near s _ now Hg) as (p & Hp & Hgr & _). by exists p. }
  split.
  - rewrite js_sort_perm. unfold l. rewrite <- list_fmap_compose. unfold compose. simpl.
    by rewrite list_fmap_id.
  - pose proof (js_sort_sorted priority_cmp scored priority_total priority_trans l Hl) as Hsorted.
    assert (Forall scored (js_sort priority_cmp l)) as Hl' by (by rewrite js_sort_perm).
    revert Hsorted Hl'. generalize (js_sort priority_cmp l). clear. intros l Hs Hl.
    induction Hs as [|a l Hs IH Hf]; [constructor|]. apply Forall_cons in Hl as [Ha Hl].
    constructor; [by apply IH|]. rewrite Forall_forall in *. intros b Hb.
    destruct Ha as (p & Ea & Hp), (Hl b Hb) as (q & Eb & Hq). rewrite Ea, Eb. simpl.
    specialize (Hf b Hb). apply (priority_cmp_le a b p q) in Hf; [|done..].
    unfold Qltb. apply negb_false_iff, Qle_bool_iff. destruct Hf as [H|[H _]]; lra.
Qed.
End Config.

(** ** Witnesses *)

Lemma budget_never_exceeded_witness :
  let b := run 4 [StartCycle; TryConsume 10; RateLimited; StartCycle; TryConsume 9; TryConsume 8]
             (budget_constructor 18) in
  4 <= currentCeiling b <= 18 /\ consumedThisCycle b = 9.
Proof.
  intros b. split; [|reflexivity].
  apply (budget_never_exceeded 4 ltac:(lia)
    [StartCycle; TryConsume 10; RateLimited; StartCycle; TryConsume 9; TryConsume 8] 18); [lia|].
  repeat constructor; simpl; lia.
Defined.

Lemma budget_recovers_witness :
  currentCeiling (run 4 (replicate 3 StartCycle) (Budget 18 9 9 0 0 0 ∅ 2)) = 15.
Proof.
  rewrite (budget_recovers 4 ltac:(lia)); [reflexivity| |reflexivity|reflexivity].
  split; simpl; lia.
Defined.

Lemma aging_overtakes_witness :
  num_lt (computeSchoolPriority 3600000 (School "B" None) (Signals 50 (Some 0) 0) 1)
         (computeSchoolPriority 3600000 (School "A" (Some "c")) (Signals 0 None 85) 1) = true.
Proof. apply aging_overtakes; simpl; repeat split; simpl; lia. Defined.

(** A consistent stand-in for the collation: compare the lengths. *)
Definition by_length (a b : string) : Z := Z.of_nat (String.length a) - Z.of_nat (String.length b).

Lemma order_is_sorted_witness :
  let schools := [School "A" (Some "c"); School "B" None] in
  (orderSchoolsByPriority 3600000 by_length schools ∅ 0).*1 ≡ₚ schools.
Proof.
  intros schools. apply (order_is_sorted 3600000 by_length); unfold by_length; intros; try lia.
  apply Forall_forall. intros s _. rewrite lookup_empty. repeat split; simpl; lia.
Defined.

End PollBudget.
