(* ===== verification/PaymentPlan.v ===== *)
(** Instalment plans: backend/src/models/paymentPlanModel.js (the virtuals and
    the two methods) and backend/src/controllers/paymentPlanController.js.

    Amounts are JavaScript numbers.  On integer amounts the allocation of
    payments is proved equal to filling the instalments oldest first with the
    total paid; with fractional amounts the rounding of doubles can leave a
    settled instalment open, which is shown on concrete amounts. *)

From Stdlib Require Import ZArith QArith Lia Btauto.
From stdpp Require Import base list strings sorting.
From S2P Require Import Prelude JsNumber.

Local Open Scope string_scope.
Local Open Scope Z_scope.
Local Open Scope list_scope.

Module PaymentPlan.

Record installment := Installment {
  amount : number;
  dueDate : Z;
  paid : bool;
  paidAt : option Z;
  paidAmount : number;
  paymentTxHashes : list string;
  reference : option string;
}.

Inductive plan_status : Type := active | completed | cancelled.

#[export] Instance plan_status_eq_dec : EqDecision plan_status.
Proof. solve_decision. Defined.

Record plan := Plan {
  planId : Z;
  planSchool : string;
  planStudent : string;
  totalAmount : number;
  installments : list installment;
  plan_state : plan_status;
  updatedAt : Z;
  planDeletedAt : option Z;
}.

Definition set_installments (l : list installment) (p : plan) : plan :=
  Plan (planId p) (planSchool p) (planStudent p) (totalAmount p) l (plan_state p)
    (updatedAt p) (planDeletedAt p).
Definition set_plan_state (s : plan_status) (p : plan) : plan :=
  Plan (planId p) (planSchool p) (planStudent p) (totalAmount p) (installments p) s
    (updatedAt p) (planDeletedAt p).
Definition touch (now : Z) (p : plan) : plan :=
  Plan (planId p) (planSchool p) (planStudent p) (totalAmount p) (installments p) (plan_state p)
    now (planDeletedAt p).
Definition set_planDeletedAt (t : option Z) (p : plan) : plan :=
  Plan (planId p) (planSchool p) (planStudent p) (totalAmount p) (installments p) (plan_state p)
    (updatedAt p) t.

(** ** Virtuals *)

Definition paid_so_far (i : installment) : number := num_or (paidAmount i) (of_Z 0).

Definition totalPaid (p : plan) : number :=
  foldl (fun sum i => num_add sum (paid_so_far i)) (of_Z 0) (installments p).

Definition remainingBalance (p : plan) : number :=
  num_max (of_Z 0) (num_sub (totalAmount p) (totalPaid p)).

Definition completedInstallments (p : plan) : nat :=
  length (List.filter paid (installments p)).

Definition overdue (now : Z) (i : installment) : bool := negb (paid i) && (dueDate i <? now).

Definition isCurrent (now : Z) (p : plan) : bool :=
  negb (existsb (overdue now) (installments p)).

Definition overdueInstallments (now : Z) (p : plan) : list installment :=
  List.filter (overdue now) (installments p).

Definition nextDueDate (p : plan) : option Z :=
  dueDate <$> List.find (fun i => negb (paid i)) (installments p).

(** ** applyPayment *)

Definition all_paid (p : plan) : bool := forallb paid (installments p).

(** Book [portion] on an instalment; the flag is set once the amount is reached. *)
Definition book (now : Z) (hashes : list string) (portion : number) (i : installment) : installment :=
  let pa := num_add (paid_so_far i) portion in
  let full := num_ge pa (amount i) in
  Installment (amount i) (dueDate i) (if full then true else paid i)
    (if full then Some now else paidAt i) pa hashes (reference i).

Definition add_hash (txHash : option string) (hs : list string) : list string :=
  match txHash with
  | Some h => if (h =? "")%string || bool_decide (h ∈ hs) then hs else hs ++ [h]
  | None => hs
  end.

(** The loop body on one instalment: what is left of the payment, and the
    instalment. *)
Definition apply_one (now : Z) (txHash : option string) (remaining : number) (i : installment)
  : number * installment :=
  if paid i then (remaining, i) else
  let outstanding := num_max (of_Z 0) (num_sub (amount i) (paid_so_far i)) in
  if num_le outstanding (of_Z 0) then (remaining, i) else
  let portion := num_min outstanding remaining in
  (num_sub remaining portion, book now (add_hash txHash (paymentTxHashes i)) portion i).

(** The sorted copy [ordered] shares its elements with [installments]: it is a
    list of positions, and each iteration updates the shared element. *)
Fixpoint apply_loop (now : Z) (txHash : option string) (ordered : list nat) (remaining : number)
    (l : list installment) : number * list installment :=
  match ordered with
  | [] => (remaining, l)
  | k :: ordered' =>
      if num_le remaining (of_Z 0) then (remaining, l) else
      match l !! k with
      | None => apply_loop now txHash ordered' remaining l
      | Some i =>
          let '(r, i') := apply_one now txHash remaining i in
          apply_loop now txHash ordered' r (<[k := i']> l)
      end
  end.

Definition due_at (l : list installment) (k : nat) : Z := default 0 (dueDate <$> l !! k).

Definition ordered_by_due (l : list installment) : list nat :=
  js_sort (fun a b => due_at l a - due_at l b) (seq 0 (length l)).

(** The amount is [Number(amount)].  Returns the plan, [applied] and
    [remaining]. *)
Definition applyPayment (now : Z) (amt : number) (txHash : option string) (p : plan)
  : plan * (number * number) :=
  let remaining := num_or amt (of_Z 0) in
  if num_le remaining (of_Z 0) then (p, (of_Z 0, of_Z 0)) else
  let applied := remaining in
  let '(r, l) := apply_loop now txHash (ordered_by_due (installments p)) remaining (installments p) in
  let p1 := set_installments l p in
  let p2 := if all_paid p1 then set_plan_state completed p1 else p1 in
  (touch now p2, (num_sub applied r, r)).

(** ** settleInstallmentManually *)

Inductive plan_error : Type := InstallmentNotFound | ReferenceRequired.

Definition settled (now : Z) (pd : bool) (pa : option number) (ref : string) (i : installment)
  : installment :=
  if pd then
    let a := default (amount i) pa in
    Installment (amount i) (dueDate i) (num_ge a (amount i)) (Some now) a (paymentTxHashes i) (Some ref)
  else Installment (amount i) (dueDate i) false None (of_Z 0) (paymentTxHashes i) (Some ref).

Definition resettle_state (p : plan) : plan :=
  if all_paid p then set_plan_state completed p
  else if decide (plan_state p = completed) then set_plan_state active p
  else p.

Definition settleInstallmentManually (now : Z) (index : nat) (pd : bool) (pa : option number)
    (ref : option string) (p : plan) : result plan_error plan :=
  i ← of_option (installments p !! index) InstallmentNotFound;
  match ref with
  | None | Some "" => Throw ReferenceRequired
  | Some r =>
      let p1 := set_installments (<[index := settled now pd pa r i]> (installments p)) p in
      Ok (touch now (resettle_state p1))
  end.

(** ** The controller *)

(** The collection of plans, in the order [findOne] scans it. *)
Abbreviation plans := (list plan).

Definition find_plan (school student : string) (only_active : bool) (ps : plans) : option plan :=
  List.find (fun p => (planSchool p =? school)%string && (planStudent p =? student)%string
                      && bool_decide (planDeletedAt p = None)
                      && (negb only_active || bool_decide (plan_state p = active))) ps.

Definition save_plan (p : plan) (ps : plans) : plans :=
  (fun q => if planId q =? planId p then p else q) <$> ps.

Inductive response : Type :=
| Json (p : plan)
| Message
| Status400 | Status404 | Status409
| NextTypeError.                     (** [next(err)] with a TypeError *)

(** [max] instalments, positive amounts, future dates, and the custom rule: due
    dates strictly ascending.  ([precision(7)] rounds an amount when the body is
    converted and refuses nothing.) *)
Definition MAX_INSTALLMENTS : nat := 24.

Fixpoint dueDatesAscending (l : list (number * Z)) : bool :=
  match l with
  | a :: (b :: _) as l' => (a.2 <? b.2) && dueDatesAscending l'
  | _ => true
  end.

Definition valid_body (now : Z) (l : list (number * Z)) : bool :=
  (1 <=? length l)%nat && (length l <=? MAX_INSTALLMENTS)%nat
  && forallb (fun x => num_gt x.1 (of_Z 0) && (now <? x.2)) l
  && dueDatesAscending l.

(** The handler up to [money.toDecimal(0)], the first argument it evaluates when
    it totals the instalments: utils/money.js exports no [toDecimal], so calling
    it throws a TypeError, which the catch clause hands to [next].  Nothing after
    that call is reached. *)
Definition createPaymentPlan (now : Z) (school student : string) (student_exists : bool)
    (body : list (number * Z)) (ps : plans) : response * plans :=
  if negb (valid_body now body) then (Status400, ps) else
  if negb student_exists then (Status404, ps) else
  match find_plan school student true ps with
  | Some _ => (Status409, ps)
  | None => (NextTypeError, ps)
  end.

Definition getPaymentPlan (school student : string) (ps : plans) : response :=
  match find_plan school student false ps with Some p => Json p | None => Status404 end.

(** The loop of allocatePaymentToPlan, in the order of the stored array. *)
Fixpoint allocate_loop (now : Z) (txHash : option string) (remaining : number)
    (l : list installment) : list installment :=
  match l with
  | [] => []
  | i :: l' =>
      if num_le remaining (of_Z 0) then i :: l' else
      let outstanding := num_sub (amount i) (paid_so_far i) in
      if num_le outstanding (of_Z 0) then i :: allocate_loop now txHash remaining l' else
      let applied := num_min remaining outstanding in
      let hashes := match txHash with
                    | None | Some "" => paymentTxHashes i
                    | Some h => paymentTxHashes i ++ [h]
                    end in
      book now hashes applied i :: allocate_loop now txHash (num_sub remaining applied) l'
  end.

Definition allocatePaymentToPlan (now : Z) (school student : string) (amt : number)
    (txHash : option string) (ps : plans) : option plan * plans :=
  match find_plan school student true ps with
  | None => (None, ps)
  | Some p =>
      let p' := set_installments (allocate_loop now txHash amt (installments p)) p in
      (Some p', save_plan p' ps)
  end.

Definition mark (now : Z) (pd : bool) (i : installment) : installment :=
  Installment (amount i) (dueDate i) pd (if pd then Some now else paidAt i)
    (if pd then amount i else of_Z 0) (paymentTxHashes i) (reference i).

(** The index is the parsed path parameter. *)
Definition updateInstallmentStatus (now : Z) (school student : string) (index : Z) (pd : bool)
    (ref : option string) (ps : plans) : response * plans :=
  match ref with
  | None | Some "" => (Status400, ps)
  | Some _ =>
      match find_plan school student false ps with
      | None => (Status404, ps)
      | Some p =>
          if (index <? 0) || (Z.of_nat (length (installments p)) <=? index) then (Status400, ps) else
          let p' := set_installments (alter (mark now pd) (Z.to_nat index) (installments p)) p in
          (Json p', save_plan p' ps)
      end
  end.

Definition cancelPaymentPlan (now : Z) (school student : string) (ps : plans) : response * plans :=
  match find_plan school student false ps with
  | None => (Status404, ps)
  | Some p =>
      (Message, save_plan (set_planDeletedAt (Some now) (set_plan_state cancelled p)) ps)
  end.

(** ** Filling the instalments oldest first *)

(** [t] spread over the amounts [l], each filled before the next. *)
Fixpoint fill (t : Z) (l : list Z) : list Z :=
  match l with
  | [] => []
  | a :: l' => Z.min a t :: fill (t - Z.min a t) l'
  end.

(** The instalment owes the integer [a] and has [f] of it booked. *)
Definition holds (i : installment) (a f : Z) : Prop :=
  amount i = of_Z a /\ paidAmount i = of_Z f /\ paid i = (a <=? f).

(** The instalments, in this order, are those of the amounts [l] with [t] paid. *)
Fixpoint filled (t : Z) (ins : list installment) (l : list Z) : Prop :=
  match ins, l with
  | [], [] => True
  | i :: ins', a :: l' => holds i a (Z.min a t) /\ filled (t - Z.min a t) ins' l'
  | _, _ => False
  end.

Definition amounts_ok (l : list Z) : Prop := Forall (fun a => 0 < a <= 2 ^ 53) l.

Abbreviation sum l := (foldr Z.add 0 l).

Lemma num_or_int f : num_or (of_Z f) (of_Z 0) = of_Z f.
Proof.
  unfold num_or. rewrite num_truthy_int. by destruct (Z.eqb_spec f 0) as [->|].
Qed.

Lemma holds_paid_so_far i a f : holds i a f -> paid_so_far i = of_Z f.
Proof. intros (_ & H & _). unfold paid_so_far. by rewrite H, num_or_int. Qed.

Lemma book_holds now hs i a f p :
  holds i a f -> 0 <= f < a -> 0 < p -> f + p <= a <= 2 ^ 53 ->
  holds (book now hs (of_Z p) i) a (f + p).
Proof.
  intros H Hf Hp Ha. unfold book, holds; simpl. rewrite (holds_paid_so_far _ _ _ H).
  destruct H as (Ha' & _ & Hpd). rewrite num_add_int by lia. rewrite Ha', Hpd.
  unfold num_ge. rewrite num_le_int. repeat split.
  destruct (Z.leb_spec a (f + p)), (Z.leb_spec a f); lia || done.
Qed.

(** What the two loop bodies do to an instalment with an integer amount. *)
Definition rest_after (a t r : Z) : Z := if t <? a then r - Z.min r (a - t) else r.

Lemma apply_one_holds now h i a t r :
  holds i a (Z.min a t) -> 0 < a <= 2 ^ 53 -> 0 <= t -> 0 < r <= 2 ^ 53 ->
  (apply_one now h (of_Z r) i).1 = of_Z (rest_after a t r) /\
  holds (apply_one now h (of_Z r) i).2 a (Z.min a (t + r)).
Proof.
  intros H Ha Ht Hr. unfold apply_one, rest_after. pose proof (holds_paid_so_far _ _ _ H) as Hps.
  pose proof H as (Hamt & _ & Hpd). rewrite Hpd, Hps, Hamt.
  destruct (Z.ltb_spec t a) as [Hlt|Hge].
  - replace (Z.min a t) with t in * by lia.
    destruct (Z.leb_spec a t); [lia|].
    rewrite num_sub_int, num_max_int, num_le_int by lia.
    destruct (Z.leb_spec (Z.max 0 (a - t)) 0); [lia|].
    rewrite num_min_int. cbn [fst snd]. rewrite num_sub_int by lia.
    split; [f_equal; lia|].
    replace (Z.min a (t + r)) with (t + Z.min (Z.max 0 (a - t)) r) by lia.
    apply book_holds; [done|lia..].
  - destruct (Z.leb_spec a (Z.min a t)); [|lia]. cbn [fst snd]. split; [done|].
    by replace (Z.min a (t + r)) with (Z.min a t) by lia.
Qed.

Lemma filled_skip t i ins a l : filled t (i :: ins) (a :: l) -> a <= t ->
  holds i a a /\ filled (t - a) ins l.
Proof. intros [H1 H2] Hle. by replace (Z.min a t) with a in * by lia. Qed.

(** Nothing is booked behind an instalment that is still open. *)
Lemma filled_open t i ins a l : filled t (i :: ins) (a :: l) -> t < a ->
  holds i a t /\ filled 0 ins l.
Proof.
  intros [H1 H2] Hlt. replace (Z.min a t) with t in * by lia. by rewrite Z.sub_diag in H2.
Qed.

(** The loop of applyPayment, seen on the instalments in the order it visits them. *)
Fixpoint apply_list (now : Z) (h : option string) (r : number) (ins : list installment)
  : number * list installment :=
  match ins with
  | [] => (r, [])
  | i :: ins' =>
      if num_le r (of_Z 0) then (r, i :: ins') else
      let '(r', i') := apply_one now h r i in
      let '(r'', ins'') := apply_list now h r' ins' in (r'', i' :: ins'')
  end.

Lemma apply_list_filled now h t r ins l :
  filled t ins l -> amounts_ok l -> 0 <= t -> 0 <= r <= 2 ^ 53 ->
  let out := apply_list now h (of_Z r) ins in
  filled (t + r) out.2 l /\ out.1 = of_Z (r - (sum (fill (t + r) l) - sum (fill t l))).
Proof.
  revert t r l. induction ins as [|i ins IH]; intros t r [|a l] Hf Hl Ht Hr; try done.
  { simpl. split; [done|]. f_equal. lia. }
  cbv zeta. cbn [apply_list]. apply Forall_cons in Hl as [Ha Hl].
  rewrite num_le_int. destruct (Z.leb_spec r 0).
  { replace r with 0 by lia. rewrite Z.add_0_r. split; [done|]. cbn [fst]. f_equal. lia. }
  destruct Hf as [Hi Hf]. destruct (apply_one_holds now h i a t r Hi) as [H1 H2]; [lia..|].
  destruct (apply_one now h (of_Z r) i) as [r1 i1]. cbn [fst snd] in *. subst r1.
  assert (rest_after a t r = t + r - Z.min a (t + r) - (t - Z.min a t)) as Hrest.
  { unfold rest_after. destruct (Z.ltb_spec t a); lia. }
  destruct (IH (t - Z.min a t) (rest_after a t r) l Hf Hl) as [H3 H4].
  { lia. } { unfold rest_after. destruct (Z.ltb_spec t a); lia. }
  destruct (apply_list now h (of_Z (rest_after a t r)) ins) as [r2 is2]. cbn [fst snd] in *.
  rewrite Hrest in H3, H4.
  replace (t - Z.min a t + (t + r - Z.min a (t + r) - (t - Z.min a t)))
    with (t + r - Z.min a (t + r)) in * by lia.
  split; [by split|]. rewrite H4. f_equal. cbn [fill foldr]. lia.
Qed.

(** Reading a list at the positions of [ks]. *)
Fixpoint gather {A} (ks : list nat) (l : list A) : list A :=
  match ks with
  | [] => []
  | k :: ks' => match l !! k with Some x => x :: gather ks' l | None => gather ks' l end
  end.

Lemma gather_insert_notin {A} ks (l : list A) k x : k ∉ ks -> gather ks (<[k:=x]> l) = gather ks l.
Proof.
  induction ks as [|j ks IH]; intros Hk; [done|]. apply not_elem_of_cons in Hk as [Hj Hk].
  simpl. rewrite list_lookup_insert_ne by done. by rewrite (IH Hk).
Qed.

Lemma apply_loop_length now h ks r l : length (apply_loop now h ks r l).2 = length l.
Proof.
  revert r l. induction ks as [|k ks IH]; intros r l; simpl; [done|].
  destruct (num_le r (of_Z 0)); [done|]. destruct (l !! k); [|apply IH].
  destruct (apply_one now h r i). rewrite IH. apply length_insert.
Qed.

(** The loop on shared elements is [apply_list] on the gathered ones, and
    touches no other element. *)
Lemma apply_loop_gather now h ks r l :
  NoDup ks -> Forall (fun k => k < length l)%nat ks ->
  let out := apply_loop now h ks r l in
  (out.1, gather ks out.2) = apply_list now h r (gather ks l) /\
  forall k, k ∉ ks -> out.2 !! k = l !! k.
Proof.
  revert r l. induction ks as [|k ks IH]; intros r l Hnd Hlt; [done|]. cbv zeta.
  apply NoDup_cons in Hnd as [Hk Hnd]. apply Forall_cons in Hlt as [Hkl Hlt].
  destruct (lookup_lt_is_Some_2 l k Hkl) as [i Hi].
  assert (gather (k :: ks) l = i :: gather ks l) as -> by (simpl; by rewrite Hi).
  cbn [apply_loop apply_list]. destruct (num_le r (of_Z 0)).
  { split; [|done]. simpl. by rewrite Hi. }
  rewrite Hi. destruct (apply_one now h r i) as [r1 i1].
  destruct (IH r1 (<[k:=i1]> l) Hnd) as [E Hout].
  { eapply Forall_impl; [exact Hlt|]. intros j. simpl. by rewrite length_insert. }
  rewrite (gather_insert_notin _ _ _ _ Hk) in E. rewrite <- E.
  set (out := apply_loop now h ks r1 (<[k:=i1]> l)) in *. split.
  - f_equal. cbn [gather]. rewrite (Hout k Hk), list_lookup_insert_eq by done. done.
  - intros j [Hj Hjs]%not_elem_of_cons. rewrite Hout by done. by apply list_lookup_insert_ne.
Qed.

(** ** Sequences of payments *)

Lemma apply_one_due now h r i : dueDate (apply_one now h r i).2 = dueDate i.
Proof. unfold apply_one, book. repeat case_match; done. Qed.

Lemma apply_loop_due now h ks r l k : due_at (apply_loop now h ks r l).2 k = due_at l k.
Proof.
  revert r l. induction ks as [|j ks IH]; intros r l; simpl; [done|].
  destruct (num_le r (of_Z 0)); [done|]. destruct (l !! j) as [i|] eqn:Hj; [|apply IH].
  pose proof (apply_one_due now h r i) as Hd. destruct (apply_one now h r i) as [r1 i1].
  rewrite IH. unfold due_at. cbn [snd] in Hd.
  destruct (decide (j = k)) as [->|Hne]; [|by rewrite list_lookup_insert_ne].
  rewrite list_lookup_insert_eq by (by eapply lookup_lt_Some). rewrite Hj. simpl. done.
Qed.

Lemma apply_loop_order now h ks r l :
  ordered_by_due (apply_loop now h ks r l).2 = ordered_by_due l.
Proof.
  unfold ordered_by_due. rewrite apply_loop_length. apply js_sort_ext.
  intros a b. by rewrite !apply_loop_due.
Qed.

Lemma ordered_perm l : ordered_by_due l ≡ₚ seq 0 (length l).
Proof. apply js_sort_perm. Qed.

Lemma ordered_nodup l : NoDup (ordered_by_due l).
Proof. rewrite ordered_perm. apply NoDup_seq. Qed.

Lemma ordered_lt l : Forall (fun k => k < length l)%nat (ordered_by_due l).
Proof. rewrite ordered_perm. apply Forall_forall. intros k. rewrite elem_of_seq. lia. Qed.

#[export] Instance gather_perm {A} (l : list A) : Proper ((≡ₚ) ==> (≡ₚ)) (fun ks => gather ks l).
Proof.
  induction 1 as [|k ks ks' _ IH|j k ks|]; simpl; [done| | |by etrans].
  - destruct (l !! k); [by rewrite IH|done].
  - destruct (l !! j), (l !! k); try done. apply Permutation_swap.
Qed.

Lemma gather_seq {A} (l1 l2 : list A) : gather (seq (length l1) (length l2)) (l1 ++ l2) = l2.
Proof.
  revert l1. induction l2 as [|x l2 IH]; intros l1; simpl; [done|].
  rewrite list_lookup_middle by done. f_equal.
  specialize (IH (l1 ++ [x])). rewrite <- app_assoc in IH. simpl in IH.
  rewrite length_app in IH. simpl in IH. by rewrite Nat.add_1_r in IH.
Qed.

(** The instalments in the order payments reach them. *)
Definition by_due (l : list installment) : list installment := gather (ordered_by_due l) l.

Lemma by_due_perm l : by_due l ≡ₚ l.
Proof.
  unfold by_due. rewrite (gather_perm l _ _ (ordered_perm l)).
  pose proof (gather_seq [] l) as E. simpl in E. by rewrite E.
Qed.

(** The plan's instalments owe the amounts [l], oldest first, and [t] was paid. *)
Definition plan_filled (t : Z) (p : plan) (l : list Z) : Prop := filled t (by_due (installments p)) l.

Lemma fill_sum t l : Forall (fun a => 0 < a) l -> 0 <= t -> sum (fill t l) = Z.min t (sum l).
Proof.
  intros Hl. revert t. induction Hl as [|a l Ha Hl IH]; intros t Ht; simpl; [lia|].
  rewrite IH by lia. assert (0 <= sum l); [|lia].
  clear -Hl. induction Hl; simpl; lia.
Qed.

Lemma amounts_ok_pos l : amounts_ok l -> Forall (fun a => 0 < a) l.
Proof. intros H. eapply Forall_impl; [exact H|]. simpl. lia. Qed.

Lemma sum_nonneg l : amounts_ok l -> 0 <= sum l.
Proof. induction 1; simpl in *; lia. Qed.

Lemma filled_all_paid t ins l : filled t ins l -> amounts_ok l -> 0 <= t ->
  forallb paid ins = (sum l <=? t).
Proof.
  revert t l. induction ins as [|i ins IH]; intros t [|a l] Hf Hl Ht; try done.
  { simpl. by destruct (Z.leb_spec 0 t); [|lia]. }
  destruct Hf as [(_ & _ & Hp) Hf]. apply Forall_cons in Hl as [Ha Hl]. simpl.
  rewrite Hp, (IH _ _ Hf Hl) by lia.
  pose proof (sum_nonneg l Hl).
  destruct (Z.leb_spec a (Z.min a t)), (Z.leb_spec (sum l) (t - Z.min a t)),
    (Z.leb_spec (a + sum l) t); lia || done.
Qed.

Lemma forallb_perm {A} (f : A -> bool) l k : l ≡ₚ k -> forallb f l = forallb f k.
Proof. induction 1; simpl; btauto || congruence. Qed.

Lemma all_paid_filled t p l : plan_filled t p l -> amounts_ok l -> 0 <= t ->
  all_paid p = (sum l <=? t).
Proof.
  intros Hf Hl Ht. unfold all_paid. rewrite (forallb_perm _ _ _ (Permutation_sym (by_due_perm (installments p)))).
  by apply filled_all_paid.
Qed.

(** One payment on integer amounts: it fills up from where the last one ended. *)
Lemma applyPayment_filled now h t r p l :
  plan_filled t p l -> amounts_ok l -> 0 <= t -> 0 < r <= 2 ^ 53 ->
  let '(p', (applied, remaining)) := applyPayment now (of_Z r) h p in
  plan_filled (t + r) p' l /\
  plan_state p' = (if sum l <=? t + r then completed else plan_state p) /\
  applied = of_Z (Z.min (t + r) (sum l) - Z.min t (sum l)) /\
  remaining = of_Z (r - (Z.min (t + r) (sum l) - Z.min t (sum l))).
Proof.
  intros Hf Hl Ht Hr. unfold applyPayment. rewrite num_or_int, num_le_int.
  destruct (Z.leb_spec r 0); [lia|].
  set (ks := ordered_by_due (installments p)).
  destruct (apply_loop_gather now h ks (of_Z r) (installments p) (ordered_nodup _) (ordered_lt _)) as [E _].
  destruct (apply_list_filled now h t r _ _ Hf Hl Ht ltac:(lia)) as [Hf' Hrem].
  rewrite !fill_sum in Hrem by (lia || by apply amounts_ok_pos). fold ks in Hf', Hrem.
  unfold by_due in Hf', Hrem. fold ks in Hf', Hrem. rewrite <- E in Hf', Hrem. cbn [fst snd] in Hf', Hrem.
  pose proof (apply_loop_order now h ks (of_Z r) (installments p)) as Hord.
  destruct (apply_loop now h ks (of_Z r) (installments p)) as [rem l']. cbn [fst snd] in *. subst rem.
  set (p1 := set_installments l' p).
  assert (plan_filled (t + r) p1 l) as H1 by (unfold plan_filled, by_due; simpl; by rewrite Hord).
  rewrite (all_paid_filled (t + r) p1 l) by (done || lia).
  pose proof (sum_nonneg l Hl).
  rewrite num_sub_int by lia. split; [|split; [|split; f_equal; lia]]; destruct (sum l <=? t + r); done.
Qed.

(** Payments in the order they are applied: time, amount, transaction hash. *)
Definition pay_all (ps : list (Z * Z * option string)) (p : plan) : plan :=
  foldl (fun p '(now, r, h) => (applyPayment now (of_Z r) h p).1) p ps.

Definition amounts_of (ps : list (Z * Z * option string)) : list Z := (fun x => x.1.2) <$> ps.

Lemma pay_all_filled ps t p l :
  plan_filled t p l -> amounts_ok l -> amounts_ok (amounts_of ps) -> 0 <= t ->
  plan_state p = (if sum l <=? t then completed else active) ->
  plan_filled (t + sum (amounts_of ps)) (pay_all ps p) l /\
  plan_state (pay_all ps p) = (if sum l <=? t + sum (amounts_of ps) then completed else active).
Proof.
  revert t p. induction ps as [|[[now r] h] ps IH]; intros t p Hf Hl Hps Ht Hst.
  { simpl. by rewrite Z.add_0_r. }
  apply Forall_cons in Hps as [Hr Hps]. simpl in Hr.
  pose proof (applyPayment_filled now h t r p l Hf Hl Ht Hr) as H.
  cbn [pay_all foldl amounts_of fmap list_fmap foldr fst snd]. unfold pay_all.
  cbn [foldl]. destruct (applyPayment now (of_Z r) h p) as [p' [ap rem]]. destruct H as (H1 & H2 & _).
  cbn [fst]. rewrite Z.add_assoc. apply IH; [done|done|done|lia|].
  rewrite H2, Hst. destruct (Z.leb_spec (sum l) (t + r)), (Z.leb_spec (sum l) t); lia || done.
Qed.

(** C6: on integer amounts, after any sequence of payments to a fresh plan the
    instalments hold exactly the total paid, filled oldest first: their order
    of arrival and their sizes do not matter, an instalment is marked paid
    exactly when it is full, and the plan is completed exactly when the total
    covers all of them.  The next payment reports as applied what the plan still
    lacked, and the rest as remaining. *)
Theorem payments_fill_oldest_first p l ps now r h :
  plan_filled 0 p l -> amounts_ok l -> l <> [] -> plan_state p = active ->
  amounts_ok (amounts_of ps) -> 0 < r <= 2 ^ 53 ->
  let t := sum (amounts_of ps) in
  plan_filled t (pay_all ps p) l /\
  plan_state (pay_all ps p) = (if sum l <=? t then completed else active) /\
  (applyPayment now (of_Z r) h (pay_all ps p)).2 =
    (of_Z (Z.min (t + r) (sum l) - Z.min t (sum l)),
     of_Z (r - (Z.min (t + r) (sum l) - Z.min t (sum l)))).
Proof.
  intros Hf Hl Hne Hst Hps Hr t. pose proof (sum_nonneg _ Hps) as Ht.
  assert (0 < sum l) as Hpos.
  { destruct l as [|a l']; [done|]. apply Forall_cons in Hl as [Ha Hl]. simpl.
    pose proof (sum_nonneg l' Hl). lia. }
  destruct (pay_all_filled ps 0 p l Hf Hl Hps) as [H1 H2]; [lia| |].
  { rewrite Hst. destruct (Z.leb_spec (sum l) 0); [lia|done]. }
  rewrite Z.add_0_l in H1, H2. split; [done|split; [done|]].
  pose proof (applyPayment_filled now h t r _ l H1 Hl Ht Hr) as H.
  destruct (applyPayment now (of_Z r) h (pay_all ps p)) as [p' [ap rem]].
  destruct H as (_ & _ & -> & ->). done.
Qed.

Definition fresh (a due : Z) : installment := Installment (of_Z a) due false None (of_Z 0) [] None.

Definition sample_plan : plan :=
  Plan 1 "SCH-1" "STU-1" (of_Z 600) [fresh 300 30; fresh 100 10; fresh 200 20] active 0 None.

Lemma payments_fill_oldest_first_witness :
  plan_state (pay_all [(1, 50, Some "t1"); (2, 70, None)] sample_plan) = active /\
  (applyPayment 3 (of_Z 500) (Some "t3") (pay_all [(1, 50, Some "t1"); (2, 70, None)] sample_plan)).2
  = (of_Z 480, of_Z 20).
Proof.
  assert (plan_filled 0 sample_plan [100; 200; 300]) as H.
  { vm_compute. repeat split; reflexivity. }
  assert (amounts_ok [100; 200; 300]) as Hl by by_decision.
  assert (amounts_ok (amounts_of [(1, 50, Some "t1"); (2, 70, None)])) as Hps by by_decision.
  pose proof (payments_fill_oldest_first sample_plan _ _ 3 500 (Some "t3") H Hl ltac:(done) eq_refl Hps ltac:(lia))
    as (_ & Hs & Hr). exact (conj Hs Hr).
Defined.

(** ** allocatePaymentToPlan *)

Lemma allocate_loop_filled now h t r ins l :
  filled t ins l -> amounts_ok l -> 0 <= t -> 0 <= r <= 2 ^ 53 ->
  filled (t + r) (allocate_loop now h (of_Z r) ins) l.
Proof.
  revert t r l. induction ins as [|i ins IH]; intros t r [|a l] Hf Hl Ht Hr; try done.
  cbn [allocate_loop]. apply Forall_cons in Hl as [Ha Hl]. rewrite num_le_int.
  destruct (Z.leb_spec r 0). { by replace (t + r) with t by lia. }
  destruct (Z.le_gt_cases a t) as [Hat|Hat].
  - destruct (filled_skip _ _ _ _ _ Hf Hat) as [Hi Hf']. rewrite (holds_paid_so_far _ _ _ Hi).
    destruct Hi as (Hamt & Hpa & Hpd). rewrite Hamt, num_sub_int, num_le_int by lia.
    destruct (Z.leb_spec (a - a) 0); [|lia]. split.
    + by replace (Z.min a (t + r)) with a by lia.
    + replace (t + r - Z.min a (t + r)) with (t - a + r) by lia. apply IH; [done|done|lia..].
  - destruct (filled_open _ _ _ _ _ Hf Hat) as [Hi Hf']. rewrite (holds_paid_so_far _ _ _ Hi).
    pose proof Hi as (Hamt & _ & _). rewrite Hamt, num_sub_int, num_le_int by lia.
    destruct (Z.leb_spec (a - t) 0); [lia|]. rewrite num_min_int, num_sub_int by lia. split.
    + replace (Z.min a (t + r)) with (t + Z.min r (a - t)) by lia. apply book_holds; [done|lia..].
    + replace (t + r - Z.min a (t + r)) with (0 + (r - Z.min r (a - t))) by lia.
      apply IH; [done|done|lia..].
Qed.

Lemma find_plan_Some school student b ps p :
  find_plan school student b ps = Some p ->
  p ∈ ps /\ planSchool p = school /\ planStudent p = student /\ planDeletedAt p = None /\
  (b = true -> plan_state p = active).
Proof.
  intros [Hin H]%find_exists. rewrite !andb_true_iff, orb_true_iff, negb_true_iff, !bool_decide_eq_true in H.
  destruct H as [[[E1 E2] E3] E4]. apply String.eqb_eq in E1, E2.
  repeat split; try done. intros ->. by destruct E4.
Qed.

Lemma find_plan_save school student p q ps :
  find_plan school student true ps = Some p -> NoDup (planId <$> ps) ->
  planId q = planId p -> planSchool q = school -> planStudent q = student ->
  planDeletedAt q = None -> plan_state q = active ->
  find_plan school student true (save_plan q ps) = Some q.
Proof.
  intros Hf Hnd Hid Hs Ht Hd Ha. pose proof (find_plan_Some _ _ _ _ _ Hf) as [Hin _].
  unfold find_plan, save_plan in *. induction ps as [|x ps IH]; simpl in *; [done|].
  apply NoDup_cons in Hnd as [Hx Hnd].
  destruct (Z.eqb_spec (planId x) (planId q)) as [E|E].
  - simpl. by rewrite Hs, Ht, Hd, Ha, !String.eqb_refl, !bool_decide_eq_true_2.
  - destruct (_ && _ && _ && _) eqn:M; [congruence|].
    apply IH; [done|done|]. apply elem_of_cons in Hin as [->|]; congruence || done.
Qed.

(** Payments recorded through the controller. *)
Definition allocate_all (school student : string) (ps : list (Z * Z * option string)) (db : plans) : plans :=
  foldl (fun db '(now, r, h) => (allocatePaymentToPlan now school student (of_Z r) h db).2) db ps.

Lemma allocate_all_filled school student l ps : amounts_ok l -> forall t db p,
  NoDup (planId <$> db) ->
  find_plan school student true db = Some p -> filled t (installments p) l -> 0 <= t ->
  amounts_ok (amounts_of ps) ->
  exists p', find_plan school student true (allocate_all school student ps db) = Some p' /\
    planId p' = planId p /\ plan_state p' = active /\
    filled (t + sum (amounts_of ps)) (installments p') l.
Proof.
  intros Hl.
  induction ps as [|[[now r] h] ps IH]; intros t db p Hnd Hf Hfill Ht Hps.
  { pose proof (find_plan_Some _ _ _ _ _ Hf) as (_ & _ & _ & _ & Ha).
    exists p. simpl. rewrite Z.add_0_r. auto. }
  apply Forall_cons in Hps as [Hr Hps]. simpl in Hr.
  set (p1 := set_installments (allocate_loop now h (of_Z r) (installments p)) p).
  pose proof (find_plan_Some _ _ _ _ _ Hf) as (_ & Hs & Hst & Hd & Ha).
  destruct (IH (t + r) (save_plan p1 db) p1) as (p' & H1 & H2 & H3 & H4); [| | |lia|done|].
  - unfold save_plan. replace (planId <$> _) with (planId <$> db); [done|].
    rewrite <- list_fmap_compose. apply list_fmap_ext. intros _ q _. simpl.
    destruct (Z.eqb_spec (planId q) (planId p)); done.
  - eapply find_plan_save; [exact Hf|done..| |]; simpl; auto.
  - apply allocate_loop_filled; [done|done|done|lia].
  - exists p'. unfold allocate_all. cbn [foldl]. unfold allocatePaymentToPlan at 2. rewrite Hf. cbn [snd].
    fold p1. cbn [amounts_of fmap list_fmap foldr fst snd]. rewrite Z.add_assoc. done.
Qed.

(** Payments allocated through the controller fill the instalments of the
    student's active plan in their stored order by exactly the total paid, and
    the plan stays active however much is paid: unlike applyPayment, this path
    never completes a plan. *)
Theorem allocate_fills_in_order school student db p l ps :
  NoDup (planId <$> db) ->
  find_plan school student true db = Some p -> filled 0 (installments p) l -> amounts_ok l ->
  amounts_ok (amounts_of ps) ->
  exists p', find_plan school student true (allocate_all school student ps db) = Some p' /\
    planId p' = planId p /\ plan_state p' = active /\
    filled (sum (amounts_of ps)) (installments p') l.
Proof.
  intros Hnd Hf Hfill Hl Hps. rewrite <- (Z.add_0_l (sum (amounts_of ps))).
  by apply allocate_all_filled.
Qed.

Definition two_part_plan : plan :=
  Plan 1 "SCH-1" "STU-1" (of_Z 300) [fresh 100 10; fresh 200 20] active 0 None.

Lemma allocate_fills_in_order_witness :
  exists p', find_plan "SCH-1" "STU-1" true
      (allocate_all "SCH-1" "STU-1" [(1, 150, Some "t1"); (2, 150, Some "t2")] [two_part_plan]) = Some p' /\
    planId p' = 1 /\ plan_state p' = active /\ filled 300 (installments p') [100; 200].
Proof.
  apply (allocate_fills_in_order "SCH-1" "STU-1" [two_part_plan] two_part_plan [100; 200]
           [(1, 150, Some "t1"); (2, 150, Some "t2")]).
  - by_decision.
  - vm_compute. reflexivity.
  - vm_compute. repeat split; reflexivity.
  - by_decision.
  - by_decision.
Defined.

(** ** The plan's flags agree with its amounts *)

Definition inst_ok (i : installment) : Prop :=
  paid i = true -> num_ge (paidAmount i) (amount i) = true /\ is_Some (paidAt i).

(** A marked instalment was fully booked at a recorded time; a completed plan
    has only marked instalments, and a plan whose instalments are all marked is
    no longer active. *)
Definition plan_ok (p : plan) : Prop :=
  Forall inst_ok (installments p) /\
  (plan_state p = completed -> all_paid p = true) /\
  (all_paid p = true -> plan_state p <> active).

Inductive plan_op : Type :=
| Apply (now : Z) (amt : number) (txHash : option string)
| Settle (now : Z) (index : nat) (pd : bool) (pa : option number) (ref : option string).

(** A method that throws leaves the document as it is. *)
Definition plan_step (o : plan_op) (p : plan) : plan :=
  match o with
  | Apply now amt h => (applyPayment now amt h p).1
  | Settle now k pd pa ref =>
      match settleInstallmentManually now k pd pa ref p with Ok p' => p' | Throw _ => p end
  end.

Lemma apply_one_ok now h r i : inst_ok i -> inst_ok (apply_one now h r i).2.
Proof.
  intros H. unfold apply_one. destruct (paid i) eqn:Hp; [done|]. destruct (num_le _ _); [done|].
  cbn [snd]. unfold inst_ok, book; cbn [paid paidAmount amount paidAt]. cbv zeta.
  destruct (num_ge _ _) eqn:E; [eauto|]. congruence.
Qed.

Lemma apply_loop_ok now h ks r l : Forall inst_ok l -> Forall inst_ok (apply_loop now h ks r l).2.
Proof.
  revert r l. induction ks as [|k ks IH]; intros r l Hl; simpl; [done|].
  destruct (num_le r (of_Z 0)); [done|]. destruct (l !! k) as [i|] eqn:Hk; [|auto].
  pose proof (apply_one_ok now h r i) as Hi. destruct (apply_one now h r i) as [r1 i1].
  apply IH, Forall_insert; [done|]. apply Hi. eapply Forall_lookup_1; eauto.
Qed.

(** A payment never unmarks an instalment. *)
Lemma apply_loop_keeps_paid now h ks r l k i :
  l !! k = Some i -> paid i = true ->
  exists i', (apply_loop now h ks r l).2 !! k = Some i' /\ paid i' = true.
Proof.
  revert r l i. induction ks as [|j ks IH]; intros r l i Hk Hp; simpl; [eauto|].
  destruct (num_le r (of_Z 0)); [eauto|]. destruct (l !! j) as [ij|] eqn:Hj; [|eauto].
  destruct (apply_one now h r ij) as [r1 i1] eqn:E.
  destruct (decide (j = k)) as [->|Hne].
  - assert (i1 = i) as -> by (unfold apply_one in E; simplify_eq; rewrite Hp in E; by simplify_eq).
    eapply IH; [|exact Hp]. apply list_lookup_insert_eq. by eapply lookup_lt_Some.
  - eapply IH; [|exact Hp]. by rewrite list_lookup_insert_ne.
Qed.

Lemma apply_loop_all_paid now h ks r l :
  forallb paid l = true -> forallb paid (apply_loop now h ks r l).2 = true.
Proof.
  rewrite !forallb_Forall, !Forall_lookup. intros H k i Hk.
  destruct (lookup_lt_is_Some_2 l k) as [i0 Hi0].
  { rewrite <- (apply_loop_length now h ks r l). by eapply lookup_lt_Some. }
  destruct (apply_loop_keeps_paid now h ks r l k i0 Hi0) as (i' & Hi' & Hp); [by apply H with k|].
  by simplify_eq.
Qed.

Lemma applyPayment_ok now amt h p : plan_ok p -> plan_ok (applyPayment now amt h p).1.
Proof.
  intros (H1 & H2 & H3). unfold applyPayment. destruct (num_le _ _); [done|].
  set (ks := ordered_by_due (installments p)). set (r := num_or amt (of_Z 0)).
  pose proof (apply_loop_ok now h ks r _ H1) as Hok.
  pose proof (apply_loop_all_paid now h ks r (installments p)) as Hall.
  destruct (apply_loop now h ks r (installments p)) as [r' l']. cbn [fst snd] in *.
  unfold all_paid at 1; cbn [installments set_installments].
  destruct (forallb paid l') eqn:E; unfold plan_ok, all_paid; simpl; split; try done.
  rewrite E. split; [|done]. intros Hc. specialize (Hall (H2 Hc)). congruence.
Qed.

Lemma resettle_ok p : Forall inst_ok (installments p) -> plan_ok (resettle_state p).
Proof.
  intros Hl. unfold resettle_state. destruct (all_paid p) eqn:E; [by split|].
  destruct (decide (plan_state p = completed)); split; try done; split; try done.
  unfold all_paid in *; simpl. by rewrite E.
  intros. congruence.
Qed.

Lemma settle_ok now k pd pa ref p p' :
  plan_ok p -> settleInstallmentManually now k pd pa ref p = Ok p' -> plan_ok p'.
Proof.
  intros (H1 & _). unfold settleInstallmentManually. destruct (installments p !! k) as [i|] eqn:Hk; [|done].
  simpl. intros H. assert (exists r, p' = touch now (resettle_state
    (set_installments (<[k:=settled now pd pa r i]> (installments p)) p))) as [r ->]
    by (repeat case_match; simplify_eq; eauto).
  change (plan_ok (resettle_state (set_installments (<[k:=settled now pd pa r i]> (installments p)) p))).
  apply resettle_ok; simpl. apply Forall_insert; [done|].
  unfold settled, inst_ok. destruct pd; simpl; [intros; eauto|done].
Qed.

(** Whatever payments and manual settlements a plan goes through, with any
    amounts, an instalment is marked paid only when its booked amount reaches
    its amount and the time was recorded, a completed plan has no unmarked
    instalment, and a plan with every instalment marked is not active. *)
Theorem plan_flags_consistent ops p : plan_ok p -> plan_ok (foldl (fun p o => plan_step o p) p ops).
Proof.
  revert p. induction ops as [|o ops IH]; intros p Hp; simpl; [done|]. apply IH.
  destruct o; simpl; [by apply applyPayment_ok|].
  destruct (settleInstallmentManually _ _ _ _ _ _) eqn:E; [|done]. by eapply settle_ok.
Qed.

Lemma plan_flags_consistent_witness :
  plan_ok (foldl (fun p o => plan_step o p) sample_plan
    [Apply 1 (Fin (1 # 2)) (Some "t"); Settle 2 0 true None (Some "cash"); Apply 3 (of_Z 1000) None]).
Proof.
  apply plan_flags_consistent. split; [|split]; [by repeat constructor| |]; vm_compute; congruence.
Defined.

(** ** Where the integers end *)

Definition cents (z : Z) : number := to_double (z # 100).

(** With fractional amounts the doubles drift: an instalment of 992.07 paid
    by 289.32 and then 702.75, which add up to it, keeps an amount booked that is
    less than 992.07; it is not marked paid and the plan stays active, although
    nothing of the second payment is left. *)
Theorem rounding_leaves_installment_open :
  let p := Plan 1 "SCH-1" "STU-1" (cents 99207)
             [Installment (cents 99207) 10 false None (of_Z 0) [] None] active 0 None in
  let p1 := (applyPayment 1 (cents 28932) (Some "t1") p).1 in
  let '(p2, (_, remaining)) := applyPayment 2 (cents 70275) (Some "t2") p1 in
  28932 + 70275 = 99207 /\ num_eqb remaining (of_Z 0) = true /\
  (paid <$> installments p2) = [false] /\ plan_state p2 = active.
Proof. vm_compute. done. Qed.

(** The tx hash recorded with an instalment does not protect against a
    second delivery: applying the same transaction twice books its amount twice
    and lists the hash once. *)
Theorem same_transaction_booked_twice :
  let p1 := (applyPayment 1 (of_Z 40) (Some "t1") two_part_plan).1 in
  let p2 := (applyPayment 2 (of_Z 40) (Some "t1") p1).1 in
  totalPaid p1 = of_Z 40 /\ totalPaid p2 = of_Z 80 /\
  (paymentTxHashes <$> installments p2) = [["t1"]; []].
Proof. vm_compute. done. Qed.

End PaymentPlan.
