(* ===== verification/StudentBalance.v ===== *)
(** The student's balance: backend/src/utils/studentBalanceUpdater.js, with the
    balance fields and the pre-save hook of backend/src/models/studentModel.js
    and of the current academic period's fee record.

    The payment total is computed by the database, which is not part of the
    repository: [MongoSum] is its [$sum] of [$toDecimal] amounts.  The stored
    balance is proved to be the exact stroop arithmetic on the payments that
    qualify, and a function of the ledger alone. *)

From Stdlib Require Import Ascii ZArith QArith Qabs Lia.
From stdpp Require Import base list strings.
From S2P Require Import Prelude JsNumber JsString StellarAmount DecimalLib Money PaymentStatus PaymentModel.
Import PaymentModel.

Local Open Scope string_scope.
Local Open Scope Z_scope.
Local Open Scope list_scope.

Abbreviation zsum l := (foldr Z.add 0 l).

(** The text of the Decimal128 that [$sum: { $toDecimal: '$amount' }] yields.
    The conversion of a double keeps fifteen significant digits and the sum is
    decimal, so it is exact on amounts in whole stroops. *)
Class MongoSum `{DL : DecimalLib} := {
  mongo_sum : list number -> string;
  mongo_sum_exact : forall zs, Forall (fun z => Z.abs z < 10 ^ 15) zs ->
    exists d, dec_of_string (mongo_sum (stroopsToNumber <$> zs)) = Some d /\
              denotes d (units (zsum zs));
}.

Module StudentBalance.

Record fee_category := FeeCategory {
  fc_category : string;
  fc_amount : number;
  fc_paid : bool;
  fc_totalPaid : number;
  fc_remainingBalance : option number;
}.

Record student := Student {
  st_schoolId : string;
  st_studentId : string;
  st_class : string;
  st_academicYear : option string;
  st_feeAmount : number;
  st_fees : list fee_category;
  st_feePaid : bool;
  st_totalPaid : number;
  st_remainingBalance : option number;
  st_creditAdjustments : number;
  st_deletedAt : option Z;
}.

(** A payment document with the two fields only the balance reads. *)
Record entry := Entry {
  e_payment : payment;
  e_feeCategory : option string;
  e_createdAt : Z;
}.

Record period := Period { pd_id : Z; pd_schoolId : string; pd_isCurrent : bool; pd_startsAt : Z }.

Record period_fee := PeriodFee {
  pf_id : Z;
  pf_schoolId : string;
  pf_studentId : string;
  pf_periodId : Z;
  pf_feeAmount : number;
  pf_carriedArrears : number;
  pf_creditAdjustments : number;
  pf_totalPaid : number;
  pf_remainingBalance : option number;
  pf_feePaid : bool;
}.

Record db := Db {
  students : list student;
  ledger : list entry;
  periods : list period;
  period_fees : list period_fee;
}.

(** ** Virtuals and the pre-save hook of the student model *)

Definition isOverdue (now : Z) (deadline : option Z) (s : student) : bool :=
  negb (st_feePaid s) && match deadline with Some d => d <? now | None => false end.

Definition sum_numbers (f : fee_category -> number) (l : list fee_category) : number :=
  foldl (fun acc c => num_add acc (num_or (f c) (of_Z 0))) (of_Z 0) l.

Definition totalFeeAmount (s : student) : number :=
  match st_fees s with
  | [] => num_or (st_feeAmount s) (of_Z 0)
  | l => sum_numbers fc_amount l
  end.

Definition totalPaidFromFees (s : student) : number :=
  match st_fees s with
  | [] => num_or (st_totalPaid s) (of_Z 0)
  | l => sum_numbers fc_totalPaid l
  end.

(** The hook that archives the oldest categories beyond [cap] and recomputes the
    top-level fields from the categories; the archived ones are the second
    result. *)
Definition student_pre_save (cap : nat) (s : student) : student * list fee_category :=
  let overflow := (length (st_fees s) - cap)%nat in
  let archived := take overflow (st_fees s) in
  let fees := drop overflow (st_fees s) in
  match fees with
  | [] => (s, archived)
  | _ =>
      let feeAmount := sum_numbers fc_amount fees in
      let fees' := (fun c =>
          FeeCategory (fc_category c) (fc_amount c)
            (num_ge (num_or (fc_totalPaid c) (of_Z 0)) (fc_amount c))
            (fc_totalPaid c)
            (Some (num_max (of_Z 0) (num_sub (fc_amount c) (num_or (fc_totalPaid c) (of_Z 0)))))) <$> fees in
      let totalPaid := sum_numbers fc_totalPaid fees' in
      (Student (st_schoolId s) (st_studentId s) (st_class s) (st_academicYear s) feeAmount fees'
         (forallb fc_paid fees') totalPaid
         (Some (num_max (of_Z 0) (num_sub feeAmount totalPaid)))
         (st_creditAdjustments s) (st_deletedAt s), archived)
  end.

(** ** The updater *)

Inductive fee_validation : Type := fv_valid | fv_partial | fv_overpaid | fv_unknown.

(** The object given to the mapping: [feeAmount] is absent from what
    classifyFeePayment returns, and [remainingBalance] is a number there.  A
    number has no [greaterThan], so calling it throws a TypeError. *)
Record classification_obj := ClassificationObj {
  co_feeAmount : option number;
  co_feePaid : bool;
  co_remainingBalance : number;
}.

Definition feeValidationStatusFromClassification (c : option classification_obj)
  : result amount_error fee_validation :=
  match c with
  | None => Ok fv_unknown
  | Some c =>
      match co_feeAmount c with
      | None => Ok fv_unknown
      | Some _ =>
          if co_feePaid c then Ok fv_valid
          else if num_truthy (co_remainingBalance c) then Throw TypeError
          else Ok fv_overpaid
      end
  end.

Definition of_classification (c : classification) : classification_obj :=
  ClassificationObj None (feePaid c) (remainingBalance c).

(** The match stage; [feeCategory] restricts it when given. *)
Definition canonicalPaidMatch (school stu : string) (feeCategory : option string) (e : entry) : bool :=
  let p := e_payment e in
  (p_schoolId p =? school)%string && (p_studentId p =? stu)%string
  && bool_decide (p_deletedAt p = None)
  && bool_decide (p_status p = S_SUCCESS)
  && negb (p_isSuspicious p)
  && match feeCategory with
     | None => true
     | Some c => bool_decide (e_feeCategory e = Some c)
     end.

Section Updater.
Context `{DL : DecimalLib} `{MS : !MongoSum}.

(** The aggregation returns no group when nothing matches. *)
Definition aggregate_total (matched : list entry) : result money_error dec :=
  match matched with
  | [] => toMoney (MNumber (of_Z 0))
  | _ => decimalFromMongo (Some (mongo_sum ((fun e => p_amount (e_payment e)) <$> matched)))
  end.

Definition sumCanonicalPayments (school stu : string) (feeCategory : option string) (l : list entry)
  : result money_error dec :=
  aggregate_total (List.filter (canonicalPaidMatch school stu feeCategory) l).

Definition find_student (school stu : string) (l : list student) : option student :=
  List.find (fun s => (st_schoolId s =? school)%string && (st_studentId s =? stu)%string
                      && bool_decide (st_deletedAt s = None)) l.

(** The computation computeStudentBalance and updateStudentBalance share. *)
Definition canonical_classification (school stu : string) (s : student) (l : list entry)
  : result money_error classification :=
  paymentTotal ← sumCanonicalPayments school stu None l;
  creditAdjustments ← toMoney (MNumber (num_or (st_creditAdjustments s) (of_Z 0)));
  cumulativeTotal ← toMoney (MDecimal (dec_plus paymentTotal creditAdjustments));
  classifyFeePayment (MDecimal cumulativeTotal) (MNumber (st_feeAmount s)).

Definition computeStudentBalance (school stu : string) (d : db)
  : result money_error (option (number * number * bool)) :=
  match find_student school stu (students d) with
  | None => Ok None
  | Some s =>
      c ← canonical_classification school stu s (ledger d);
      Ok (Some (cumulativeTotal c, remainingBalance c, feePaid c))
  end.

Definition update_category (school stu : string) (l : list entry) (c : fee_category)
  : result money_error fee_category :=
  categoryTotal ← sumCanonicalPayments school stu (Some (fc_category c)) l;
  cl ← classifyFeePayment (MDecimal categoryTotal) (MNumber (fc_amount c));
  Ok (FeeCategory (fc_category c) (fc_amount c) (feePaid cl) (cumulativeTotal cl)
        (Some (remainingBalance cl))).

Fixpoint update_categories (school stu : string) (l : list entry) (cs : list fee_category)
  : result money_error (list fee_category) :=
  match cs with
  | [] => Ok []
  | c :: cs' =>
      c' ← update_category school stu l c;
      rest ← update_categories school stu l cs';
      Ok (c' :: rest)
  end.

(** The document with the fields of [updateData] set. *)
Definition with_balance (c : classification) (fees : list fee_category) (s : student) : student :=
  Student (st_schoolId s) (st_studentId s) (st_class s) (st_academicYear s) (st_feeAmount s) fees
    (feePaid c) (cumulativeTotal c) (Some (remainingBalance c)) (st_creditAdjustments s)
    (st_deletedAt s).

(** [findOneAndUpdate]: the first live document of the student. *)
Fixpoint replace_student (school stu : string) (f : student -> student) (l : list student)
  : list student :=
  match l with
  | [] => []
  | s :: l' =>
      if (st_schoolId s =? school)%string && (st_studentId s =? stu)%string && bool_decide (st_deletedAt s = None)
      then f s :: l' else s :: replace_student school stu f l'
  end.

(** Attributed to the current period: made on or after its start. *)
Definition period_match (school stu : string) (startsAt : Z) (e : entry) : bool :=
  canonicalPaidMatch school stu None e && (startsAt <=? e_createdAt e).

Definition set_period_balance (id : Z) (c : classification) (l : list period_fee) : list period_fee :=
  (fun f => if pf_id f =? id
            then PeriodFee (pf_id f) (pf_schoolId f) (pf_studentId f) (pf_periodId f) (pf_feeAmount f)
                   (pf_carriedArrears f) (pf_creditAdjustments f) (cumulativeTotal c)
                   (Some (remainingBalance c)) (feePaid c)
            else f) <$> l.

Definition syncCurrentPeriodFee (school stu : string) (d : db) : result money_error db :=
  match List.find (fun p => (pd_schoolId p =? school)%string && pd_isCurrent p) (periods d) with
  | None => Ok d
  | Some p =>
      match List.find (fun f => (pf_schoolId f =? school)%string && (pf_studentId f =? stu)%string
                                && (pf_periodId f =? pd_id p)%Z) (period_fees d) with
      | None => Ok d
      | Some f =>
          paymentTotal ← aggregate_total (List.filter (period_match school stu (pd_startsAt p)) (ledger d));
          cumulativeTotal ← toMoney (MDecimal (dec_plus paymentTotal
                              (dec_of_number (num_or (pf_creditAdjustments f) (of_Z 0)))));
          let totalDue := num_add (num_or (pf_feeAmount f) (of_Z 0)) (num_or (pf_carriedArrears f) (of_Z 0)) in
          c ← classifyFeePayment (MDecimal cumulativeTotal) (MNumber totalDue);
          Ok (Db (students d) (ledger d) (periods d) (set_period_balance (pf_id f) c (period_fees d)))
      end
  end.

Definition set_students (l : list student) (d : db) : db :=
  Db l (ledger d) (periods d) (period_fees d).

(** Outside a transaction the student is stored before the period's record is
    computed, so the database is returned with the outcome. *)
Definition updateStudentBalance (school stu : string) (includeFeeCategoryBreakdown : bool) (d : db)
  : db * result money_error (option student) :=
  match find_student school stu (students d) with
  | None => (d, Ok None)
  | Some s =>
      match (c ← canonical_classification school stu s (ledger d);
             fees ← (if includeFeeCategoryBreakdown
                     then update_categories school stu (ledger d) (st_fees s)
                     else Ok (st_fees s));
             Ok (with_balance c fees)) with
      | Throw e => (d, Throw e)
      | Ok f =>
          let d' := set_students (replace_student school stu f (students d)) d in
          let updated := find_student school stu (students d') in
          match syncCurrentPeriodFee school stu d' with
          | Ok d'' => (d'', Ok updated)
          | Throw e => (d', Throw e)
          end
      end
  end.

(** ** Finding and replacing a student *)

Lemma find_student_Some school stu l s : find_student school stu l = Some s ->
  st_schoolId s = school /\ st_studentId s = stu /\ st_deletedAt s = None.
Proof.
  intros [_ H]%find_exists. rewrite !andb_true_iff, bool_decide_eq_true in H.
  destruct H as [[H1 H2] H3]. apply String.eqb_eq in H1, H2. done.
Qed.

(** An update of the found student that keeps its identity is found again. *)
Lemma find_replace school stu f l s :
  find_student school stu l = Some s ->
  st_schoolId (f s) = st_schoolId s -> st_studentId (f s) = st_studentId s ->
  st_deletedAt (f s) = st_deletedAt s ->
  find_student school stu (replace_student school stu f l) = Some (f s).
Proof.
  unfold find_student. induction l as [|x l IH]; simpl; [done|].
  destruct (_ && _ && _) eqn:E; intros H E1 E2 E3.
  - simplify_eq. simpl. by rewrite E1, E2, E3, E.
  - simpl. rewrite E. by apply IH.
Qed.

Lemma replace_replace school stu f g l s :
  find_student school stu l = Some s ->
  st_schoolId (f s) = st_schoolId s -> st_studentId (f s) = st_studentId s ->
  st_deletedAt (f s) = st_deletedAt s -> g (f s) = f s ->
  replace_student school stu g (replace_student school stu f l) = replace_student school stu f l.
Proof.
  unfold find_student. induction l as [|x l IH]; simpl; [done|].
  destruct (_ && _ && _) eqn:E; intros H E1 E2 E3 E4.
  - simplify_eq. simpl. by rewrite E1, E2, E3, E, E4.
  - simpl. rewrite E. by rewrite IH.
Qed.

(** ** The update is a function of the ledger *)

Lemma update_categories_idem school stu l cs cs' :
  update_categories school stu l cs = Ok cs' -> update_categories school stu l cs' = Ok cs'.
Proof.
  revert cs'. induction cs as [|c cs IH]; simpl; intros cs' H; [by simplify_eq|].
  apply bind_Ok in H as (c' & Hc & (cs2 & Hcs & [= <-])%bind_Ok).
  simpl. rewrite (IH _ Hcs). replace (update_category school stu l c') with (Ok (E := money_error) c'); [done|].
  unfold update_category in *. apply bind_Ok in Hc as (t & Ht & (cl & Hcl & [= <-])%bind_Ok).
  simpl. rewrite Ht. simpl. by rewrite Hcl.
Qed.

Lemma set_period_balance_idem id c l :
  set_period_balance id c (set_period_balance id c l) = set_period_balance id c l.
Proof.
  unfold set_period_balance. rewrite <- list_fmap_compose. apply list_fmap_ext.
  intros _ f _. simpl. destruct (pf_id f =? id) eqn:E; simpl; by rewrite E.
Qed.

Lemma find_set_period_balance (P : period_fee -> bool) id c l f :
  List.find P l = Some f ->
  (forall f, P (PeriodFee (pf_id f) (pf_schoolId f) (pf_studentId f) (pf_periodId f) (pf_feeAmount f)
                   (pf_carriedArrears f) (pf_creditAdjustments f) (cumulativeTotal c)
                   (Some (remainingBalance c)) (feePaid c)) = P f) ->
  exists f', List.find P (set_period_balance id c l) = Some f' /\
    pf_id f' = pf_id f /\ pf_feeAmount f' = pf_feeAmount f /\
    pf_carriedArrears f' = pf_carriedArrears f /\ pf_creditAdjustments f' = pf_creditAdjustments f.
Proof.
  intros H HP. revert H. induction l as [|x l IH]; simpl; [done|]. intros H.
  destruct (pf_id x =? id); rewrite ?HP; destruct (P x); simplify_eq; eauto; eexists; split; done.
Qed.

Lemma sync_idem school stu d d' :
  syncCurrentPeriodFee school stu d = Ok d' ->
  students d' = students d /\ ledger d' = ledger d /\
  forall l, syncCurrentPeriodFee school stu (set_students l d') = Ok (set_students l d').
Proof.
  unfold syncCurrentPeriodFee at 1. intros H.
  destruct (List.find _ (periods d)) as [p|] eqn:Hp.
  2: { simplify_eq. split; [done|split; [done|]]. intros l. unfold syncCurrentPeriodFee; simpl. by rewrite Hp. }
  destruct (List.find _ (period_fees d)) as [f|] eqn:Hf.
  2: { simplify_eq. split; [done|split; [done|]]. intros l. unfold syncCurrentPeriodFee; simpl. by rewrite Hp, Hf. }
  apply bind_Ok in H as (t & Ht & (ct & Hct & (c & Hc & [= <-])%bind_Ok)%bind_Ok).
  split; [done|split; [done|]]. intros l. unfold syncCurrentPeriodFee; simpl. rewrite Hp.
  destruct (find_set_period_balance _ (pf_id f) c _ _ Hf (fun _ => eq_refl)) as (f' & -> & E1 & E2 & E3 & E4).
  rewrite Ht. cbn [mbind result_bind]. rewrite E4. simpl in Hct. simplify_eq. rewrite E2, E3.
  cbn [toMoney mbind result_bind]. rewrite Hc. cbn [mbind result_bind].
  by rewrite E1, set_period_balance_idem.
Qed.

(** The stored balance is a function of the ledger: a successful update can
    be repeated at any time without changing anything, and the fields it stored
    are the ones computeStudentBalance reports for the same database. *)
Theorem balance_update_idempotent school stu breakdown d d' r :
  updateStudentBalance school stu breakdown d = (d', Ok r) ->
  updateStudentBalance school stu breakdown d' = (d', Ok r) /\
  match r with
  | None => d' = d /\ computeStudentBalance school stu d' = Ok None
  | Some s =>
      find_student school stu (students d') = Some s /\
      exists rb, st_remainingBalance s = Some rb /\
        computeStudentBalance school stu d' = Ok (Some (st_totalPaid s, rb, st_feePaid s))
  end.
Proof.
  unfold updateStudentBalance at 1. destruct (find_student school stu (students d)) as [s|] eqn:Hs.
  2: { intros [= <- <-]. unfold updateStudentBalance, computeStudentBalance. by rewrite Hs. }
  destruct (canonical_classification school stu s (ledger d)) as [c|] eqn:Hc; [|done].
  cbn [mbind result_bind].
  destruct (if breakdown then _ else _) as [fees|] eqn:Hfees; [|done]. cbn [mbind result_bind].
  set (f := with_balance c fees).
  pose proof (find_replace school stu f _ _ Hs eq_refl eq_refl eq_refl) as Hf.
  cbn [students set_students]. rewrite Hf.
  destruct (syncCurrentPeriodFee _ _ _) as [d2|] eqn:Hsync; [|done]. intros [= <- <-].
  destruct (sync_idem _ _ _ _ Hsync) as (Es & El & Hagain). simpl in Es, El.
  assert (find_student school stu (students d2) = Some (f s)) as Hs2 by (by rewrite Es).
  assert (canonical_classification school stu (f s) (ledger d2) = Ok c) as Hc2 by (by rewrite El).
  split; [|split; [done|]].
  - unfold updateStudentBalance. rewrite Hs2, Hc2. cbn [mbind result_bind].
    assert ((if breakdown then update_categories school stu (ledger d2) (st_fees (f s)) else Ok (st_fees (f s)))
            = Ok fees) as ->.
    { simpl. rewrite El. destruct breakdown; [by eapply update_categories_idem|done]. }
    cbn [mbind result_bind]. fold f. rewrite Es, (replace_replace school stu f f _ s Hs) by done.
    rewrite <- Es. rewrite Hagain. cbn [students set_students]. rewrite Hs2. by destruct d2.
  - exists (remainingBalance c). split; [done|]. unfold computeStudentBalance. rewrite Hs2, Hc2. done.
Qed.

(** ** Exactness in stroops *)

Lemma plus_denotes a b p q : denotes a p -> denotes b q -> fits20 (p + q) ->
  denotes (dec_plus a b) (p + q).
Proof.
  intros (p' & Ea & Hp)%denotes_val (q' & Eb & Hq)%denotes_val Hfit.
  assert (fits20 (p' + q')) as Hfit' by (by rewrite Hp, Hq).
  assert (denotes (dec_plus a b) (p' + q')) as H by (by apply (dec_plus_exact a b)).
  revert H. by rewrite Hp, Hq.
Qed.

Lemma number_denotes z : Z.abs z < 10 ^ 15 -> denotes (dec_of_number (stroopsToNumber z)) (units z).
Proof. intros Hz. rewrite stroopsToNumber_nearest. by apply dec_of_number_stroops. Qed.

Lemma zero_units_denotes : denotes (dec_of_number (of_Z 0)) (units 0).
Proof. assert (units 0 == 0)%Q as -> by done. apply zero_denotes. Qed.

(** [x || 0] denotes the same amount. *)
Lemma number_or_denotes z : Z.abs z < 10 ^ 15 ->
  denotes (dec_of_number (num_or (stroopsToNumber z) (of_Z 0))) (units z).
Proof.
  intros Hz. unfold num_or. destruct (num_truthy (stroopsToNumber z)) eqn:E; [by apply number_denotes|].
  assert (z = 0) as ->; [|apply zero_units_denotes].
  revert E. rewrite stroopsToNumber_nearest.
  destruct (to_double_fin (z # 10000000)) as (r & -> & Herr & _).
  { unfold Qlt, Qabs; simpl. lia. }
  simpl. intros E%negb_false_iff%Z.eqb_eq. rewrite <- (toFixed_int_close r z Herr).
  assert (r == 0)%Q as Hr by (unfold Qeq; simpl; lia).
  by rewrite (toFixed_int_proper r 0%Q Hr 7 7 eq_refl).
Qed.

(** Classifying a Decimal against a number never throws. *)
Lemma classify_total t x : exists c, classifyFeePayment (MDecimal t) (MNumber x) = Ok c.
Proof.
  unfold classifyFeePayment. simpl. destruct (decide _); simpl; eauto.
Qed.

Section Exact.
Variables (school stu : string) (d : db) (s : student).
(** The stroop counts behind the stored numbers. *)
Variables (z : entry -> Z) (zfee : fee_category -> Z) (zf zc : Z).

Definition paid_by (Q : entry -> bool) : Z := zsum (z <$> List.filter Q (ledger d)).

Hypothesis Hfind : find_student school stu (students d) = Some s.
Hypothesis Hz : forall e, e ∈ ledger d -> canonicalPaidMatch school stu None e = true ->
  p_amount (e_payment e) = stroopsToNumber (z e) /\ 0 <= z e < 10 ^ 15.
Hypothesis Hfee : st_feeAmount s = stroopsToNumber zf /\ 0 <= zf < 10 ^ 15.
Hypothesis Hcredit : st_creditAdjustments s = stroopsToNumber zc /\ Z.abs zc < 10 ^ 15.
Hypothesis Hfees : Forall (fun c => fc_amount c = stroopsToNumber (zfee c) /\ 0 <= zfee c < 10 ^ 15) (st_fees s).
Hypothesis Hsum : paid_by (canonicalPaidMatch school stu None) < 10 ^ 19.

Lemma paid_by_bounds Q :
  (forall e, Q e = true -> canonicalPaidMatch school stu None e = true) ->
  0 <= paid_by Q <= paid_by (canonicalPaidMatch school stu None).
Proof.
  intros HQ. unfold paid_by. clear Hsum. induction (ledger d) as [|e l IH]; simpl; [lia|].
  destruct IH as [IH1 IH2]. { intros e' He'. apply Hz. by right. }
  destruct (Q e) eqn:E.
  - rewrite (HQ e E). destruct (Hz e ltac:(by left) (HQ e E)).
    rewrite !fmap_cons. cbn [foldr]. lia.
  - destruct (canonicalPaidMatch school stu None e) eqn:E'; [|lia].
    destruct (Hz e ltac:(by left) E'). rewrite !fmap_cons. cbn [foldr]. lia.
Qed.

(** The aggregation over any part of the qualifying payments. *)
Lemma aggregate_exact Q :
  (forall e, Q e = true -> canonicalPaidMatch school stu None e = true) ->
  exists t, aggregate_total (List.filter Q (ledger d)) = Ok t /\ denotes t (units (paid_by Q)).
Proof.
  intros HQ. unfold paid_by, aggregate_total. set (l := List.filter Q (ledger d)).
  assert (Forall (fun e => p_amount (e_payment e) = stroopsToNumber (z e) /\ 0 <= z e < 10 ^ 15) l) as Hl.
  { apply Forall_forall. intros e [He Hin]%elem_of_filterb. by apply Hz, HQ. }
  clearbody l. destruct l as [|e0 l0].
  { eexists. split; [done|]. apply zero_units_denotes. }
  revert Hl. generalize (e0 :: l0). intros l Hl.
  destruct (mongo_sum_exact (z <$> l)) as (t & Ht & Hd).
  { apply Forall_fmap. eapply Forall_impl; [exact Hl|]. simpl. lia. }
  exists t. split; [|done].
  replace ((fun e => p_amount (e_payment e)) <$> l) with (stroopsToNumber <$> (z <$> l)).
  { unfold decimalFromMongo. by rewrite Ht. }
  rewrite <- list_fmap_compose. apply list_fmap_ext. intros i e He. simpl. symmetry.
  eapply Forall_lookup_1 in Hl; [|exact He]. by destruct Hl.
Qed.

Lemma match_iff e : canonicalPaidMatch school stu None e = true <->
  p_schoolId (e_payment e) = school /\ p_studentId (e_payment e) = stu /\
  p_status (e_payment e) = S_SUCCESS /\ p_isSuspicious (e_payment e) = false /\
  p_deletedAt (e_payment e) = None.
Proof.
  unfold canonicalPaidMatch.
  rewrite !andb_true_iff, !String.eqb_eq, !bool_decide_eq_true, negb_true_iff. tauto.
Qed.

Lemma match_none e c : canonicalPaidMatch school stu c e = true -> canonicalPaidMatch school stu None e = true.
Proof. unfold canonicalPaidMatch. rewrite !andb_true_iff. tauto. Qed.

Lemma canonical_exact :
  canonical_classification school stu s (ledger d)
  = Ok (stroop_spec (paid_by (canonicalPaidMatch school stu None) + zc) zf).
Proof.
  destruct (aggregate_exact (canonicalPaidMatch school stu None)) as (t & Ht & Hd); [done|].
  destruct Hfee as [Ef Bf], Hcredit as [Ec Bc].
  pose proof (paid_by_bounds (canonicalPaidMatch school stu None) (fun _ H => H)) as Hp.
  unfold canonical_classification, sumCanonicalPayments. rewrite Ht. cbn [mbind result_bind toMoney].
  rewrite Ec, Ef. apply classify_stroops; [| |lia].
  - eexists. split; [done|]. set (P := paid_by _) in *.
    assert (units P + units zc == units (P + zc))%Q as E by (unfold units, Qeq; simpl; lia).
    rewrite <- E. apply plus_denotes; [done|by apply number_or_denotes|].
    rewrite E. apply (fits20_scaled (P + zc) 7). lia.
  - eexists. split; [done|]. apply number_denotes. lia.
Qed.

Definition category_spec (c : fee_category) : fee_category :=
  let sp := stroop_spec (paid_by (canonicalPaidMatch school stu (Some (fc_category c)))) (zfee c) in
  FeeCategory (fc_category c) (fc_amount c) (feePaid sp) (cumulativeTotal sp) (Some (remainingBalance sp)).

Lemma categories_exact : update_categories school stu (ledger d) (st_fees s) = Ok (category_spec <$> st_fees s).
Proof.
  generalize Hfees. generalize (st_fees s). intros l Hl.
  induction Hl as [|c cs [Ec Bc] _ IH]; simpl; [done|]. rewrite IH.
  assert (update_category school stu (ledger d) c = Ok (category_spec c)) as ->; [|done].
  destruct (aggregate_exact (canonicalPaidMatch school stu (Some (fc_category c)))) as (t & Ht & Hd).
  { intros e. apply match_none. }
  pose proof (paid_by_bounds _ (fun e => match_none e (Some (fc_category c)))) as Hp.
  unfold update_category, sumCanonicalPayments. rewrite Ht. cbn [mbind result_bind]. rewrite Ec.
  rewrite (classify_stroops _ _ (paid_by (canonicalPaidMatch school stu (Some (fc_category c)))) (zfee c)).
  - unfold category_spec. by rewrite Ec.
  - eexists. by split.
  - eexists. split; [done|]. apply number_denotes. lia.
  - lia.
Qed.

Lemma sync_total l : exists d', syncCurrentPeriodFee school stu (set_students l d) = Ok d'.
Proof.
  unfold syncCurrentPeriodFee; simpl. destruct (List.find _ (periods d)) as [p|]; [|eauto].
  destruct (List.find _ (period_fees d)) as [f|]; [|eauto].
  destruct (aggregate_exact (period_match school stu (pd_startsAt p))) as (t & Ht & _).
  { intros e. unfold period_match. rewrite andb_true_iff. tauto. }
  rewrite Ht. cbn [mbind result_bind toMoney].
  destruct (classify_total (dec_plus t (dec_of_number (num_or (pf_creditAdjustments f) (of_Z 0))))
    (num_add (num_or (pf_feeAmount f) (of_Z 0)) (num_or (pf_carriedArrears f) (of_Z 0)))) as [c Hc].
  rewrite Hc. eauto.
Qed.

Lemma stored_balance_spec :
  let s' := with_balance (stroop_spec (paid_by (canonicalPaidMatch school stu None) + zc) zf)
              (category_spec <$> st_fees s) s in
  exists d', updateStudentBalance school stu true d = (d', Ok (Some s')) /\
    find_student school stu (students d') = Some s' /\
    students d' = replace_student school stu (fun _ => s') (students d) /\
    ledger d' = ledger d /\
    forall e, canonicalPaidMatch school stu None e = true <->
      p_schoolId (e_payment e) = school /\ p_studentId (e_payment e) = stu /\
      p_status (e_payment e) = S_SUCCESS /\ p_isSuspicious (e_payment e) = false /\
      p_deletedAt (e_payment e) = None.
Proof.
  intros s'. unfold updateStudentBalance. rewrite Hfind, canonical_exact. cbn [mbind result_bind].
  rewrite categories_exact. cbn [mbind result_bind students set_students].
  set (f := with_balance _ _). change s' with (f s) in *.
  rewrite (find_replace school stu f _ _ Hfind eq_refl eq_refl eq_refl).
  destruct (sync_total (replace_student school stu f (students d))) as [d' Hd]. rewrite Hd.
  destruct (sync_idem _ _ _ _ Hd) as (Es & El & _). exists d'. split; [done|].
  simpl in Es, El. rewrite Es, El. split; [by rewrite (find_replace school stu f _ _ Hfind)|].
  split; [|split; [done|apply match_iff]]. clear -Hfind. unfold find_student in Hfind.
  induction (students d) as [|x l IH]; simpl in *; [done|].
  destruct (_ && _ && _); [congruence|]. by rewrite IH.
Qed.

(** C1: for a student whose payments, fee and credits are whole stroop counts,
    updating the balance succeeds and stores exactly: total paid = the
    successful, unsuspicious, undeleted payments plus the credits; remaining =
    the fee less that, never negative; paid = the total reaches the fee; and the
    same for every fee category, over the payments of that category.  Every
    other field of the student is kept. *)
Theorem stored_balance_exact :
  let s' := with_balance (stroop_spec (paid_by (canonicalPaidMatch school stu None) + zc) zf)
              (category_spec <$> st_fees s) s in
  exists d', updateStudentBalance school stu true d = (d', Ok (Some s')) /\
    find_student school stu (students d') = Some s' /\
    students d' = replace_student school stu (fun _ => s') (students d) /\
    ledger d' = ledger d /\
    forall e, canonicalPaidMatch school stu None e = true <->
      p_schoolId (e_payment e) = school /\ p_studentId (e_payment e) = stu /\
      p_status (e_payment e) = S_SUCCESS /\ p_isSuspicious (e_payment e) = false /\
      p_deletedAt (e_payment e) = None.
Proof. apply stored_balance_spec. Qed.
End Exact.
End Updater.

(** ** Instances of the properties *)

Lemma rat_of_string_fromStroops z :
  exists q, rat_of_string (fromStroops z) = Some (Fin q) /\ (q == units z)%Q.
Proof.
  unfold rat_of_string, fromStroops. rewrite chars_text, fromStroops_text_decimal.
  set (n := Z.abs z). set (i := dec_digits (n / STROOPS_PER_UNIT)).
  set (f := pad_digits DECIMALS (n mod STROOPS_PER_UNIT)).
  assert (Forall (fun c => is_digit c = true) i) as Hi by apply dec_digits_digits.
  assert (Forall (fun c => is_digit c = true) f) as Hf by apply pad_digits_digits.
  rewrite trim_id by (by apply decimal_text_not_space).
  destruct (decimal_sign (z <? 0) i f Hi) as [-> ->]. rewrite split_decimal_text by done.
  eexists. split; [done|]. simpl.
  assert (decimal_val i f == units n)%Q as E.
  { unfold decimal_val, i, f. rewrite digits_val_app, pad_digits_length.
    rewrite dec_digits_val by (apply Z.div_pos; unfold STROOPS_PER_UNIT; lia).
    rewrite pad_digits_val by (apply Z.mod_pos_bound; unfold STROOPS_PER_UNIT; lia).
    change (10 ^ Z.of_nat DECIMALS) with STROOPS_PER_UNIT.
    pose proof (Z.div_mod n STROOPS_PER_UNIT ltac:(unfold STROOPS_PER_UNIT; lia)) as Hd.
    by rewrite Z.mul_comm, <- Hd. }
  unfold n in E. destruct (Z.ltb_spec z 0); rewrite E; unfold units, Qeq; simpl; lia.
Qed.

(** The stroop count of a number that is nearest to one. *)
Definition stroops_of (x : number) : Z := match x with Fin q => toFixed_int q 7 | _ => 0 end.

Lemma stroops_of_number z : Z.abs z < 10 ^ 15 -> stroops_of (stroopsToNumber z) = z.
Proof.
  intros Hz. rewrite stroopsToNumber_nearest.
  destruct (to_double_fin (z # 10000000)) as (r & -> & Herr & _); [unfold Qlt, Qabs; simpl; lia|].
  by apply toFixed_int_close.
Qed.

#[refine] Definition exact_sum : MongoSum (DL := exact_decimal) :=
  {| mongo_sum l := fromStroops (zsum (stroops_of <$> l)) |}.
Proof.
  intros zs Hzs. rewrite <- list_fmap_compose.
  replace (stroops_of ∘ stroopsToNumber <$> zs) with zs.
  - destruct (rat_of_string_fromStroops (zsum zs)) as (q & Hq & E). exists (Fin q). by split.
  - induction Hzs as [|z zs Hz _ IH]; [done|]. rewrite fmap_cons.
    f_equal; [|exact IH]. symmetry. by apply stroops_of_number.
Defined.

Definition a_payment (id amt : Z) (st : payment_status) : payment :=
  Payment id "SCH-1" "STU-1" "tx" 0 (stroopsToNumber amt) None st false Confirmation.Confirmation.FINALIZED
    Confirmation.Confirmation.confirmed None None.

Definition a_student (fees : list fee_category) (fee credit : Z) : student :=
  Student "SCH-1" "STU-1" "JSS1" None (stroopsToNumber fee) fees false (of_Z 0) None
    (stroopsToNumber credit) None.

(** 0.1 for tuition and 0.2 without a category, a failed payment of 5, and a
    credit of 0.4 against a fee of 0.7. *)
Definition a_db : db :=
  Db [a_student [FeeCategory "tuition" (stroopsToNumber 1000000) false (of_Z 0) None] 7000000 4000000]
     [Entry (a_payment 1 1000000 S_SUCCESS) (Some "tuition") 10;
      Entry (a_payment 2 2000000 S_SUCCESS) None 20;
      Entry (a_payment 3 50000000 S_FAILED) None 30] [] [].

Definition entry_stroops (e : entry) : Z := stroops_of (p_amount (e_payment e)).

Lemma stored_balance_exact_witness :
  exists d' s', updateStudentBalance (DL := exact_decimal) (MS := exact_sum) "SCH-1" "STU-1" true a_db
                = (d', Ok (Some s')) /\
    st_feePaid s' = true /\ (fc_paid <$> st_fees s') = [true] /\
    find_student "SCH-1" "STU-1" (students d') = Some s'.
Proof.
  destruct (stored_balance_exact (DL := exact_decimal) (MS := exact_sum) "SCH-1" "STU-1" a_db
    (a_student [FeeCategory "tuition" (stroopsToNumber 1000000) false (of_Z 0) None] 7000000 4000000)
    entry_stroops (fun c => stroops_of (fc_amount c)) 7000000 4000000) as (d' & H1 & H2 & _).
  - reflexivity.
  - intros e He _. apply Forall_forall with (x := e) (l := ledger a_db); [|done].
    repeat constructor; vm_compute; done.
  - split; [reflexivity|done].
  - split; [reflexivity|done].
  - repeat constructor; vm_compute; done.
  - vm_compute. done.
  - eexists _, _. split; [exact H1|]. split; [|split; [|exact H2]]; vm_compute; reflexivity.
Defined.

Lemma balance_update_idempotent_witness :
  exists d' r, updateStudentBalance (DL := exact_decimal) (MS := exact_sum) "SCH-1" "STU-1" true a_db = (d', Ok r) /\
    updateStudentBalance (DL := exact_decimal) (MS := exact_sum) "SCH-1" "STU-1" true d' = (d', Ok r).
Proof.
  eexists _, _. split; [vm_compute; reflexivity|].
  refine (proj1 (balance_update_idempotent (DL := exact_decimal) (MS := exact_sum) "SCH-1" "STU-1" true a_db _ _ _)).
  vm_compute. reflexivity.
Defined.

(** ** Where the writers disagree *)

(** Saving the student after an update undoes it: the model's hook recomputes
    the top-level totals from the fee categories, so credits and payments
    without a category, which the updater counts, disappear from the balance. *)
Theorem save_hook_drops_credits :
  exists d' s', updateStudentBalance (DL := exact_decimal) (MS := exact_sum) "SCH-1" "STU-1" true a_db
                = (d', Ok (Some s')) /\
    st_totalPaid s' = stroopsToNumber 7000000 /\
    st_totalPaid (student_pre_save 100 s').1 = stroopsToNumber 1000000.
Proof. eexists _, _. split; [vm_compute; reflexivity|]. vm_compute. done. Qed.

(** The period's total due is added in doubles: a student who owes a fee of
    0.1 and arrears of 0.2 and paid exactly 0.3 has nothing remaining, yet the
    period's fee is not marked paid. *)
Theorem period_due_added_in_doubles :
  let f := PeriodFee 1 "SCH-1" "STU-1" 7 (stroopsToNumber 1000000) (stroopsToNumber 2000000) (of_Z 0)
             (of_Z 0) None false in
  let d := Db [a_student [] 3000000 0] [Entry (a_payment 1 3000000 S_SUCCESS) None 50]
              [Period 7 "SCH-1" true 40] [f] in
  let d' := (updateStudentBalance (DL := exact_decimal) (MS := exact_sum) "SCH-1" "STU-1" true d).1 in
  (st_feePaid <$> students d') = [true] /\
  (pf_remainingBalance <$> period_fees d') = [Some (of_Z 0)] /\
  (pf_feePaid <$> period_fees d') = [false].
Proof. vm_compute. done. Qed.

(** The mapping onto feeValidationStatus is constant on the classifications
    classifyFeePayment produces. *)
Lemma fee_validation_always_unknown c :
  feeValidationStatusFromClassification (Some (of_classification c)) = Ok fv_unknown.
Proof. done. Qed.

End StudentBalance.
