(* ===== verification/FeeRules.v ===== *)
(** Fee adjustment rules on the live path:
    backend/src/services/feeAdjustmentService.js (the evaluation of a school's
    rules for one student) and backend/src/controllers/feeAdjustmentController.js
    (the rule collection, the preview and the bulk application).

    The order rules are evaluated in uses String.prototype.localeCompare, whose
    collation is the platform's: it is a parameter, assumed to be a consistent
    comparison. *)

From Stdlib Require Import ZArith QArith Qround Qabs Lia Lqa Sorting.Sorted.
From stdpp Require Import base list strings sorting.
From S2P Require Import Prelude JsNumber JsString StudentBalance.
Import StudentBalance.

Local Open Scope string_scope.
Local Open Scope Z_scope.
Local Open Scope list_scope.

Module FeeRules.

Inductive rule_type : Type :=
| discount_percentage | discount_fixed | penalty_percentage | penalty_fixed | waiver.

Inductive policy : Type := stack | first_only | best_for_student.

#[export] Instance rule_type_eq_dec : EqDecision rule_type.
Proof. solve_decision. Defined.
#[export] Instance policy_eq_dec : EqDecision policy.
Proof. solve_decision. Defined.

Record conditions := Conditions {
  studentClass : list string;
  academicYear : option string;
  paymentBefore : option Z;
  paymentAfter : option Z;
  minAmount : option number;
  maxAmount : option number;
}.

Definition no_conditions : conditions := Conditions [] None None None None None.

Record rule := Rule {
  r_id : Z;
  r_schoolId : string;
  r_name : string;
  r_type : rule_type;
  r_value : number;
  r_conditions : conditions;
  r_isActive : bool;
  r_priority : number;
  r_policy : option policy;
}.

(** The context a rule is evaluated in; [paymentDate] is a time value. *)
Record context := Context_ {
  c_class : option string;
  c_academicYear : option string;
  c_paymentDate : number;
  c_baseAmount : number;
  c_totalPaid : option number;
}.

Record adjustment := Adjustment {
  a_ruleName : string;
  a_type : rule_type;
  a_value : number;
  a_amountAdjusted : number;
  a_finalFeeAfterThis : number;
}.

Record overpayment_record := Overpayment {
  o_amountPaid : number;
  o_newFee : number;
  o_creditAmount : number;
}.

Record outcome := Outcome {
  baseFee : number;
  finalFee : number;
  adjustmentsApplied : list adjustment;
  o_remainingBalance : number;
  overpayment : option overpayment_record;
}.

(** ** Evaluation *)

Definition opt_str_truthy (o : option string) : bool :=
  match o with Some s => negb (s =? "")%string | None => false end.

Definition _ruleApplies (r : rule) (ctx : context) : bool :=
  let cond := r_conditions r in
  negb ((0 <? length (studentClass cond))%nat
        && negb match c_class ctx with
                | Some c => bool_decide (c ∈ studentClass cond)
                | None => false
                end)
  && negb (opt_str_truthy (academicYear cond)
           && negb (bool_decide (academicYear cond = c_academicYear ctx)))
  && negb match paymentBefore cond with
          | Some t => num_gt (c_paymentDate ctx) (of_Z t) | None => false end
  && negb match paymentAfter cond with
          | Some t => num_lt (c_paymentDate ctx) (of_Z t) | None => false end
  && negb match minAmount cond with
          | Some m => num_truthy m && num_lt (c_baseAmount ctx) m | None => false end
  && negb match maxAmount cond with
          | Some m => num_truthy m && num_gt (c_baseAmount ctx) m | None => false end.

Definition adjustmentAmount (fee : number) (r : rule) : number :=
  match r_type r with
  | discount_percentage => num_neg (num_div (num_mul fee (r_value r)) (of_Z 100))
  | discount_fixed => num_neg (r_value r)
  | penalty_percentage => num_div (num_mul fee (r_value r)) (of_Z 100)
  | penalty_fixed => r_value r
  | waiver => num_neg fee
  end.

Definition is_discount (t : rule_type) : bool :=
  match t with discount_percentage | discount_fixed => true | _ => false end.

(** The fee after one rule, clamped at zero. *)
Definition apply_rule (fee : number) (r : rule) : number :=
  num_max (of_Z 0) (num_add fee (adjustmentAmount fee r)).

Definition adjustment_of (fee : number) (r : rule) : adjustment :=
  Adjustment (r_name r) (r_type r) (r_value r) (num_abs (adjustmentAmount fee r)) (apply_rule fee r).

(** The loop over the matching rules; [pol] is the policy once it is known. *)
Fixpoint rules_loop (pol : option policy) (fee : number) (adjs : list adjustment) (l : list rule)
  : number * list adjustment :=
  match l with
  | [] => (fee, adjs)
  | r :: l' =>
      let p := match pol with Some p => p | None => default stack (r_policy r) end in
      if bool_decide (p = first_only) && (0 <? length adjs)%nat then (fee, adjs)
      else if bool_decide (p = best_for_student) && (is_discount (r_type r) && (0 <? length adjs)%nat)
              && existsb (fun a => is_discount (a_type a)) adjs
      then rules_loop (Some p) fee adjs l'
      else
        let fee' := apply_rule fee r in
        let adjs' := adjs ++ [adjustment_of fee r] in
        if bool_decide (r_type r = waiver) then (fee', adjs')
        else rules_loop (Some p) fee' adjs' l'
  end.

(** [parseFloat(x.toFixed(2))] *)
Definition toFixed2 (x : number) : number :=
  match x with
  | Fin q => if Qle_bool (inject_Z (10 ^ 21)) (Qabs q) then x else to_double (toFixed_int q 2 # 100)
  | _ => x
  end.

(** [Math.round(x * 100) / 100] *)
Definition round_cents (x : number) : number :=
  num_div (num_round (num_mul x (of_Z 100))) (of_Z 100).

Definition _applyRules (feeAmount : number) (ctx : context) (rules : list rule) : outcome :=
  let '(fee, adjs) := rules_loop None feeAmount [] (List.filter (fun r => _ruleApplies r ctx) rules) in
  let resolved := round_cents fee in
  let amountPaid := default (of_Z 0) (c_totalPaid ctx) in
  Outcome feeAmount resolved adjs (num_max (of_Z 0) (num_sub resolved amountPaid))
    (if num_gt amountPaid resolved
     then Some (Overpayment amountPaid resolved (toFixed2 (num_sub amountPaid resolved)))
     else None).

Section Service.
Context (localeCompare : string -> string -> Z).

(** [(a.priority - b.priority) || a.name.localeCompare(b.name)], as a sign. *)
Definition rule_cmp (a b : rule) : Z :=
  let d := num_sub (r_priority a) (r_priority b) in
  if num_truthy d then num_sign d else localeCompare (r_name a) (r_name b).

Definition sort_rules (l : list rule) : list rule := js_sort rule_cmp l.

(** The collection's active rules of the school ([None]: no school is given). *)
Definition _fetchSortedRules (school : option string) (rules : list rule) : list rule :=
  sort_rules (List.filter (fun r => r_isActive r
    && match school with
       | Some s => (s =? "")%string || (r_schoolId r =? s)%string
       | None => true
       end) rules).

Definition calculateAdjustedFeeWithRules (feeAmount : number) (ctx : context) (rules : list rule) : outcome :=
  _applyRules feeAmount ctx rules.

Definition calculateAdjustedFee (school : option string) (feeAmount : number) (ctx : context)
    (collection : list rule) : outcome :=
  _applyRules feeAmount ctx (_fetchSortedRules school collection).

(** The outcome and [ruleApplied]. *)
Definition simulateWithExtraWithRules (feeAmount : number) (ctx : context) (extraRule : rule)
    (existingRules : list rule) : outcome * bool :=
  let combined := sort_rules (existingRules ++ [extraRule]) in
  let res := _applyRules feeAmount ctx combined in
  (res, existsb (fun a => (a_ruleName a =? (if (r_name extraRule =? "")%string then "_dry_run_preview_"
                                            else r_name extraRule))%string)
          (adjustmentsApplied res)).

(** ** The rule collection *)

(** A request body; [None] stands for a missing or ill-typed field. *)
Record rule_body := RuleBody {
  b_name : option string;
  b_type : option rule_type;
  b_value : option number;
  b_conditions : option conditions;
  b_priority : option number;
  b_isActive : option bool;
  b_policy : option (option policy);     (** [Some None]: not a known policy *)
}.

Inductive api_error : Type := VALIDATION_ERROR | NOT_FOUND | DUPLICATE_RULE.

(** [Ok] with the validated name, type and value. *)
Definition validateBody (b : rule_body) : result api_error (string * rule_type * number) :=
  match b_name b, b_type b, b_value b with
  | Some n, Some t, Some v =>
      if (str_trim n =? "")%string then Throw VALIDATION_ERROR
      else if num_lt v (of_Z 0) then Throw VALIDATION_ERROR
      else match b_policy b with
           | Some None => Throw VALIDATION_ERROR
           | _ => Ok (str_trim n, t, v)
           end
  | _, _, _ => Throw VALIDATION_ERROR
  end.

(** The unique index on (schoolId, name). *)
Definition name_taken (school name : string) (except : option Z) (rules : list rule) : bool :=
  existsb (fun r => (r_schoolId r =? school)%string && (r_name r =? name)%string
                    && negb (bool_decide (except = Some (r_id r)))) rules.

Definition createRule (school : string) (newId : Z) (b : rule_body) (rules : list rule)
  : result api_error rule * list rule :=
  match validateBody b with
  | Throw e => (Throw e, rules)
  | Ok (name, type, value) =>
      if name_taken school name None rules then (Throw DUPLICATE_RULE, rules) else
      let r := Rule newId school name type value (default no_conditions (b_conditions b)) true
                 (default (of_Z 10) (b_priority b))
                 (Some (match b_policy b with Some (Some p) => p | _ => stack end)) in
      (Ok r, rules ++ [r])
  end.

Definition is_rule (school : string) (id : Z) (r : rule) : bool :=
  (r_id r =? id) && (r_schoolId r =? school)%string.

(** Fields that are absent from the body are left as they are. *)
Definition updateRule (school : string) (id : Z) (b : rule_body) (rules : list rule)
  : result api_error rule * list rule :=
  match validateBody b with
  | Throw e => (Throw e, rules)
  | Ok (name, type, value) =>
      match List.find (is_rule school id) rules with
      | None => (Throw NOT_FOUND, rules)
      | Some old =>
          if name_taken school name (Some id) rules then (Throw DUPLICATE_RULE, rules) else
          let r := Rule id school name type value (default (r_conditions old) (b_conditions b))
                     (default (r_isActive old) (b_isActive b))
                     (default (r_priority old) (b_priority b))
                     (match b_policy b with Some (Some p) => Some p | _ => r_policy old end) in
          (Ok r, (fun x => if is_rule school id x then r else x) <$> rules)
      end
  end.

Definition deactivate (r : rule) : rule :=
  Rule (r_id r) (r_schoolId r) (r_name r) (r_type r) (r_value r) (r_conditions r) false
    (r_priority r) (r_policy r).

(** Deactivation with a reason; the rule stays in the collection. *)
Definition deleteRule (school : string) (id : Z) (reason : option string) (rules : list rule)
  : result api_error rule * list rule :=
  match reason with
  | None => (Throw VALIDATION_ERROR, rules)
  | Some why =>
      if (str_trim why =? "")%string then (Throw VALIDATION_ERROR, rules) else
      match List.find (is_rule school id) rules with
      | None => (Throw NOT_FOUND, rules)
      | Some old =>
          (Ok (deactivate old), (fun x => if is_rule school id x then deactivate x else x) <$> rules)
      end
  end.

(** Live students of the school matching the rule's class and year conditions. *)
Definition countAffectedStudents (school : string) (r : rule) (students : list student) : nat :=
  length (List.filter (fun s =>
    (st_schoolId s =? school)%string && bool_decide (st_deletedAt s = None)
    && (bool_decide (studentClass (r_conditions r) = []) || bool_decide (st_class s ∈ studentClass (r_conditions r)))
    && (negb (opt_str_truthy (academicYear (r_conditions r)))
        || bool_decide (st_academicYear s = academicYear (r_conditions r)))) students).

(** ** Bulk application *)

(** The cohort filter of the preview and the application. *)
Definition in_cohort (school : string) (cls year : option string) (s : student) : bool :=
  (st_schoolId s =? school)%string && bool_decide (st_deletedAt s = None)
  && (negb (opt_str_truthy cls) || bool_decide (Some (st_class s) = cls))
  && (negb (opt_str_truthy year) || bool_decide (st_academicYear s = year)).

Definition student_context (paymentDate : Z) (s : student) : context :=
  Context_ (Some (st_class s)) (st_academicYear s) (of_Z paymentDate) (st_feeAmount s)
    (Some (st_totalPaid s)).

Definition syntheticRule (school : string) (name : option string) (type : rule_type) (value : number)
    (cond : option conditions) (priority : option number) (pol : option policy) : rule :=
  Rule 0 school (match name with Some n => if (n =? "")%string then "_dry_run_preview_" else n
                               | None => "_dry_run_preview_" end)
    type value (default no_conditions cond) true (default (of_Z 10) priority)
    (Some (default stack pol)).

(** Per student: current fee, projected fee and whether the rule would apply. *)
Definition dryRunRule (school : string) (extra : rule) (cls year : option string) (paymentDate : Z)
    (students : list student) (collection : list rule) : list (string * number * number * bool) :=
  let existing := _fetchSortedRules (Some school) collection in
  (fun s =>
     let ctx := student_context paymentDate s in
     let cur := calculateAdjustedFeeWithRules (st_feeAmount s) ctx existing in
     let '(res, applied) := simulateWithExtraWithRules (st_feeAmount s) ctx extra existing in
     (st_studentId s, finalFee cur, finalFee res, applied))
  <$> List.filter (in_cohort school cls year) students.

(** One student of the bulk application: [None] when the fee does not change. *)
Definition apply_to_student (paymentDate : Z) (rules : list rule) (s : student) : option student :=
  let newFee := finalFee (calculateAdjustedFeeWithRules (st_feeAmount s) (student_context paymentDate s) rules) in
  if num_eqb newFee (st_feeAmount s) then None else
  let paid := num_or (st_totalPaid s) (of_Z 0) in
  let newRemainingBalance := num_max (of_Z 0) (num_sub newFee paid) in
  let feePaid := if num_eqb newRemainingBalance (of_Z 0) && num_gt newFee (of_Z 0)
                 then num_ge paid newFee else st_feePaid s in
  Some (Student (st_schoolId s) (st_studentId s) (st_class s) (st_academicYear s) newFee (st_fees s)
          feePaid (st_totalPaid s) (Some newRemainingBalance) (st_creditAdjustments s) (st_deletedAt s)).

(** The students after the bulk write, and how many were applied and skipped. *)
Definition applyRule (school : string) (id : Z) (cls year : option string) (paymentDate : Z)
    (collection : list rule) (students : list student)
  : result api_error (nat * nat) * list student :=
  match List.find (fun r => is_rule school id r && r_isActive r) collection with
  | None => (Throw NOT_FOUND, students)
  | Some _ =>
      let rules := _fetchSortedRules (Some school) collection in
      let cohort := List.filter (in_cohort school cls year) students in
      let applied := omap (apply_to_student paymentDate rules) cohort in
      (Ok (length applied, (length cohort - length applied)%nat),
       (fun s => if in_cohort school cls year s then default s (apply_to_student paymentDate rules s) else s)
       <$> students)
  end.

(** ** The evaluation order *)

(** Documented of [localeCompare]: it is a consistent comparator. *)
Hypothesis lc_total : forall a b, localeCompare a b <= 0 \/ localeCompare b a <= 0.
Hypothesis lc_trans : forall a b c,
  localeCompare a b <= 0 -> localeCompare b c <= 0 -> localeCompare a c <= 0.

(** The priority is a finite double. *)
Definition ranked (r : rule) : Prop := exists p, r_priority r = Fin p /\ on_grid p.

Lemma rule_cmp_le a b p q : r_priority a = Fin p -> r_priority b = Fin q -> on_grid p -> on_grid q ->
  (rule_cmp a b <= 0 <->
   (p < q)%Q \/ ((p == q)%Q /\ localeCompare (r_name a) (r_name b) <= 0)).
Proof.
  intros Ea Eb Hp Hq. unfold rule_cmp. rewrite Ea, Eb.
  assert (num_sub (Fin p) (Fin q) <> NaN) as Hn.
  { unfold num_sub, num_neg, num_add, to_double. by case_match. }
  rewrite (num_truthy_sign _ Hn), num_sub_sign by done.
  destruct (Qcompare_spec p q) as [E|E|E]; simpl.
  - split; [by right|]. intros [H|[_ H]]; [lra|done].
  - split; [by left|lia].
  - split; [lia|]. intros [H|[H _]]; lra.
Qed.

Lemma rule_total a b : ranked a -> ranked b -> rule_cmp a b <= 0 \/ rule_cmp b a <= 0.
Proof.
  intros (p & Ea & Hp) (q & Eb & Hq).
  rewrite (rule_cmp_le a b p q), (rule_cmp_le b a q p) by done.
  destruct (Qcompare_spec p q) as [E|E|E]; [|by left; left|by right; left].
  destruct (lc_total (r_name a) (r_name b)); [left; right|right; right]; (split; [lra|done]).
Qed.

Lemma rule_trans a b c : ranked a -> ranked b -> ranked c ->
  rule_cmp a b <= 0 -> rule_cmp b c <= 0 -> rule_cmp a c <= 0.
Proof.
  intros (p & Ea & Hp) (q & Eb & Hq) (r & Ec & Hr).
  rewrite (rule_cmp_le a b p q), (rule_cmp_le b c q r), (rule_cmp_le a c p r) by done.
  intros [H1|[H1 L1]] [H2|[H2 L2]]; [left; lra..|]. right. split; [lra|by eapply lc_trans].
Qed.

(** Different rules of the list have names the collation tells apart. *)
Definition told_apart (l : list rule) : Prop := forall a b, a ∈ l -> b ∈ l ->
  localeCompare (r_name a) (r_name b) <= 0 -> localeCompare (r_name b) (r_name a) <= 0 -> a = b.

Lemma sort_rules_unique l1 l2 : Forall ranked l1 -> told_apart l1 -> l1 ≡ₚ l2 ->
  sort_rules l1 = sort_rules l2.
Proof.
  intros Hr Ht Hp. apply (js_sort_unique rule_cmp ranked rule_total rule_trans); [done|done|].
  intros a b Ha Hb Hab Hba. rewrite Forall_forall in Hr.
  destruct (Hr a Ha) as (p & Ea & Gp), (Hr b Hb) as (q & Eb & Gq).
  apply (rule_cmp_le a b p q) in Hab; [|done..]. apply (rule_cmp_le b a q p) in Hba; [|done..].
  destruct Hab as [H|[H L1]], Hba as [H'|[H' L2]]; try lra. by apply Ht.
Qed.

(** The evaluation order is deterministic: however the database returns the
    rules, the same list is evaluated: exactly the school's active rules, in
    ascending priority. *)
Theorem evaluation_order_deterministic school rules rules' :
  Forall ranked rules -> told_apart rules -> rules ≡ₚ rules' -> school <> "" ->
  let out := _fetchSortedRules (Some school) rules in
  out = _fetchSortedRules (Some school) rules' /\
  (forall r, r ∈ out <-> r ∈ rules /\ r_isActive r = true /\ r_schoolId r = school) /\
  StronglySorted (fun a b => num_lt (r_priority b) (r_priority a) = false) out.
Proof.
  intros Hr Ht Hp Hs out. subst out. unfold _fetchSortedRules.
  set (keep := fun r => r_isActive r && _).
  assert (Forall ranked (List.filter keep rules)) as Hrk.
  { rewrite Forall_forall in *. intros r [_ H]%elem_of_filterb. by apply Hr. }
  assert (told_apart (List.filter keep rules)) as Htk.
  { intros a b [_ Ha]%elem_of_filterb [_ Hb]%elem_of_filterb. by apply Ht. }
  split; [|split].
  - apply sort_rules_unique; [done|done|]. clear -Hp.
    induction Hp as [| | |]; simpl; repeat case_match; try done; [by constructor|apply Permutation_swap|by etrans].
  - intros r. unfold sort_rules. rewrite js_sort_elem, elem_of_filterb. unfold keep.
    rewrite andb_true_iff, orb_true_iff, !String.eqb_eq. tauto.
  - pose proof (js_sort_sorted rule_cmp ranked rule_total rule_trans _ Hrk) as Hsorted.
    assert (Forall ranked (sort_rules (List.filter keep rules))) as Hl by (unfold sort_rules; by rewrite js_sort_perm).
    revert Hsorted Hl. unfold sort_rules. generalize (js_sort rule_cmp (List.filter keep rules)). clear -localeCompare.
    intros l Hs Hl. induction Hs as [|a l Hs IH Hf]; [constructor|]. apply Forall_cons in Hl as [Ha Hl].
    constructor; [by apply IH|]. rewrite Forall_forall in *. intros b Hb.
    destruct Ha as (p & Ea & Gp), (Hl b Hb) as (q & Eb & Gq). rewrite Ea, Eb. simpl.
    specialize (Hf b Hb). apply (rule_cmp_le a b p q) in Hf; [|done..].
    unfold Qltb. apply negb_false_iff, Qle_bool_iff. destruct Hf as [H|[H _]]; lra.
Qed.

(** The preview is faithful: the projection for an unsaved rule is the outcome
    the evaluation gives once the rule is in the collection. *)
Theorem preview_is_the_outcome school rules extra fee ctx :
  Forall ranked (extra :: rules) -> told_apart (extra :: rules) -> school <> "" ->
  r_isActive extra = true -> r_schoolId extra = school ->
  (simulateWithExtraWithRules fee ctx extra (_fetchSortedRules (Some school) rules)).1
  = calculateAdjustedFee (Some school) fee ctx (rules ++ [extra]).
Proof.
  intros Hr Ht Hs Ha Hsch. unfold simulateWithExtraWithRules, calculateAdjustedFee, _fetchSortedRules.
  cbn [fst]. f_equal. rewrite List.filter_app. cbn [List.filter]. rewrite Ha, Hsch, String.eqb_refl, orb_true_r.
  cbn [andb]. set (keep := fun r => r_isActive r && _).
  assert (forall r, r ∈ sort_rules (List.filter keep rules) ++ [extra] -> r ∈ extra :: rules) as Hsub.
  { intros r [H|H%list_elem_of_singleton]%elem_of_app; [|subst; by left].
    unfold sort_rules in H. rewrite js_sort_elem, elem_of_filterb in H. destruct H as [_ H]. by right. }
  apply sort_rules_unique.
  - rewrite Forall_forall in *. intros r Hin. by apply Hr, Hsub.
  - intros a b Ha' Hb'. by apply Ht; apply Hsub.
  - unfold sort_rules. by rewrite js_sort_perm.
Qed.

End Service.

(** ** Which rules a policy applies *)

(** Evaluation stops after the first waiver. *)
Fixpoint up_to_waiver (l : list rule) : list rule :=
  match l with
  | [] => []
  | r :: l' => if bool_decide (r_type r = waiver) then [r] else r :: up_to_waiver l'
  end.

(** Every rule but the discounts after the first one ([seen]: one was met). *)
Fixpoint keep_first_discount (seen : bool) (l : list rule) : list rule :=
  match l with
  | [] => []
  | r :: l' =>
      if is_discount (r_type r) && seen then keep_first_discount seen l'
      else r :: keep_first_discount (seen || is_discount (r_type r)) l'
  end.

Definition selected (p : policy) (l : list rule) : list rule :=
  match p with
  | stack => up_to_waiver l
  | first_only => take 1 l
  | best_for_student => up_to_waiver (keep_first_discount false l)
  end.

(** The fee and the log after applying all of [l] in order. *)
Fixpoint run_rules (fee : number) (adjs : list adjustment) (l : list rule) : number * list adjustment :=
  match l with
  | [] => (fee, adjs)
  | r :: l' => run_rules (apply_rule fee r) (adjs ++ [adjustment_of fee r]) l'
  end.

Lemma loop_stack fee adjs l : rules_loop (Some stack) fee adjs l = run_rules fee adjs (up_to_waiver l).
Proof.
  revert fee adjs. induction l as [|r l IH]; intros fee adjs; [done|].
  cbn [rules_loop up_to_waiver]. rewrite !(bool_decide_eq_false_2 (stack = _)) by done. cbn [andb].
  destruct (bool_decide (r_type r = waiver)); [done|]. apply IH.
Qed.

Lemma loop_first_only fee adjs l : adjs <> [] -> rules_loop (Some first_only) fee adjs l = (fee, adjs).
Proof. intros H. destruct l; [done|]. by destruct adjs. Qed.

Lemma loop_best fee adjs l :
  rules_loop (Some best_for_student) fee adjs l =
  run_rules fee adjs (up_to_waiver (keep_first_discount (existsb (fun a => is_discount (a_type a)) adjs) l)).
Proof.
  revert fee adjs. induction l as [|r l IH]; intros fee adjs; [done|].
  cbn [rules_loop keep_first_discount]. rewrite (bool_decide_eq_false_2 (best_for_student = first_only)) by done.
  rewrite (bool_decide_eq_true_2 (best_for_student = best_for_student)) by done. cbn [andb].
  set (seen := existsb _ adjs).
  replace (is_discount (r_type r) && (0 <? length adjs)%nat && seen) with (is_discount (r_type r) && seen).
  2: { unfold seen. destruct adjs; simpl; [by rewrite !andb_false_r|by rewrite andb_true_r]. }
  destruct (is_discount (r_type r) && seen) eqn:E; [apply IH|]. cbn [up_to_waiver].
  destruct (bool_decide (r_type r = waiver)) eqn:W; [done|]. rewrite IH. cbn [run_rules]. f_equal. f_equal.
  rewrite existsb_app. cbn [existsb adjustment_of a_type]. by rewrite orb_false_r.
Qed.

Lemma loop_selected fee r l :
  rules_loop None fee [] (r :: l) = run_rules fee [] (selected (default stack (r_policy r)) (r :: l)).
Proof.
  cbn [rules_loop]. set (p := default stack (r_policy r)). cbn [length]. change (0 <? 0)%nat with false.
  rewrite !andb_false_r. cbn [andb existsb app].
  destruct p; cbn [selected up_to_waiver keep_first_discount]; rewrite ?andb_false_r;
    cbn [up_to_waiver take]; destruct (bool_decide (r_type r = waiver)) eqn:W; cbn [run_rules app];
    rewrite ?loop_stack, ?loop_first_only, ?loop_best by done; try done.
  cbn [existsb adjustment_of a_type]. by rewrite orb_false_r.
Qed.

Lemma run_rules_spec fee adjs l :
  (run_rules fee adjs l).1 = foldl apply_rule fee l /\
  a_ruleName <$> (run_rules fee adjs l).2 = (a_ruleName <$> adjs) ++ (r_name <$> l).
Proof.
  revert fee adjs. induction l as [|r l IH]; intros fee adjs; simpl; [by rewrite app_nil_r|].
  destruct (IH (apply_rule fee r) (adjs ++ [adjustment_of fee r])) as [-> ->].
  split; [done|]. rewrite fmap_app, <- app_assoc. done.
Qed.

(** The rules of a sorted list that are applied in a context. *)
Definition chosen (ctx : context) (rules : list rule) : list rule :=
  match List.filter (fun r => _ruleApplies r ctx) rules with
  | [] => []
  | r :: l => selected (default stack (r_policy r)) (r :: l)
  end.

Lemma applyRules_chosen fee ctx rules :
  finalFee (_applyRules fee ctx rules) = round_cents (foldl apply_rule fee (chosen ctx rules)) /\
  a_ruleName <$> adjustmentsApplied (_applyRules fee ctx rules) = r_name <$> chosen ctx rules.
Proof.
  unfold _applyRules, chosen. destruct (List.filter _ rules) as [|r l]; [done|].
  rewrite loop_selected. set (sel := selected _ _).
  destruct (run_rules_spec fee [] sel) as [H1 H2]. destruct (run_rules fee [] sel) as [x adjs].
  cbn [fst snd finalFee adjustmentsApplied] in *. by rewrite H1, H2.
Qed.

(** *** What the rules mean, independently of the loop *)













(** ** Bounds *)

Definition non_negative (x : number) : Prop := num_lt x (of_Z 0) = false.

Lemma non_negative_fin q : non_negative (Fin q) <-> (0 <= q)%Q.
Proof. unfold non_negative, num_lt, of_Z, Qltb. by rewrite negb_false_iff, Qle_bool_iff. Qed.

Lemma to_double_non_negative q : (0 <= q)%Q -> non_negative (to_double q).
Proof.
  intros Hq. unfold to_double. destruct (Qle_bool _ _).
  - assert ((Qnum q <? 0) = false) as -> by (unfold Qle in Hq; simpl in Hq; apply Z.ltb_ge; lia). done.
  - by apply non_negative_fin, rnd_nonneg.
Qed.

Lemma max0_non_negative x : non_negative (num_max (of_Z 0) x).
Proof.
  destruct x as [|[]|q]; try done. unfold num_max, of_Z. simpl.
  destruct (Qle_bool (inject_Z 0) q) eqn:E; apply non_negative_fin; [by apply Qle_bool_iff|done].
Qed.

Lemma num_div_100 q : num_div (Fin q) (of_Z 100) = to_double (q / inject_Z 100).
Proof. done. Qed.

Lemma round_cents_non_negative x : non_negative x -> non_negative (round_cents x).
Proof.
  unfold round_cents. intros Hx. assert (non_negative (num_mul x (of_Z 100))) as Hm.
  { destruct x as [|[]|q]; try done. apply non_negative_fin in Hx.
    apply to_double_non_negative. apply Qmult_le_0_compat; done. }
  destruct (num_mul x (of_Z 100)) as [|[]|m]; try done. apply non_negative_fin in Hm.
  cbn [num_round]. rewrite num_div_100. apply to_double_non_negative, Qle_shift_div_l; [done|].
  assert (0 <= Qfloor (m + (1 # 2))) as Hf by (apply (Qfloor_resp_le 0); lra).
  rewrite Qmult_0_l. by rewrite Zle_Qle in Hf.
Qed.

Lemma rules_fee_non_negative fee l : non_negative fee -> non_negative (foldl apply_rule fee l).
Proof.
  revert fee. induction l as [|r l IH]; intros fee H; simpl; [done|]. apply IH, max0_non_negative.
Qed.

(** Whatever the rules, values and dates, the adjusted fee and the remaining
    balance are never negative when the fee was not, and an overpayment is
    reported exactly when the student has paid more than the adjusted fee. *)
Theorem adjusted_fee_non_negative fee ctx rules :
  non_negative fee ->
  let out := _applyRules fee ctx rules in
  non_negative (finalFee out) /\ non_negative (o_remainingBalance out) /\
  (is_Some (overpayment out) <->
   num_gt (default (of_Z 0) (c_totalPaid ctx)) (finalFee out) = true).
Proof.
  intros Hf out. destruct (applyRules_chosen fee ctx rules) as [E _]. fold out in E. split; [|split].
  - rewrite E. apply round_cents_non_negative, rules_fee_non_negative, Hf.
  - unfold out, _applyRules. destruct (rules_loop _ _ _ _). apply max0_non_negative.
  - unfold out, _applyRules. destruct (rules_loop _ _ _ _). simpl.
    destruct (num_gt _ _); split; intros H; [done|eauto|by destruct H|done].
Qed.


(** ** The rule collection keeps its names distinct *)

Definition name_key (r : rule) : string * string := (r_schoolId r, r_name r).

(** The unique index and the identity of the documents. *)
Definition collection_ok (rules : list rule) : Prop :=
  NoDup (r_id <$> rules) /\ NoDup (name_key <$> rules).

Inductive rule_op : Type :=
| OpCreate (school : string) (newId : Z) (b : rule_body)
| OpUpdate (school : string) (id : Z) (b : rule_body)
| OpDelete (school : string) (id : Z) (reason : option string).

Definition rule_step (o : rule_op) (rules : list rule) : list rule :=
  match o with
  | OpCreate s i b => (createRule s i b rules).2
  | OpUpdate s i b => (updateRule s i b rules).2
  | OpDelete s i w => (deleteRule s i w rules).2
  end.

(** New documents get fresh identifiers. *)
Fixpoint fresh_ids (used : list Z) (ops : list rule_op) : Prop :=
  match ops with
  | [] => True
  | OpCreate _ i _ :: ops' => (i ∉ used) /\ fresh_ids (i :: used) ops'
  | _ :: ops' => fresh_ids used ops'
  end.

Lemma name_taken_false school name except rules r :
  name_taken school name except rules = false -> r ∈ rules -> except <> Some (r_id r) ->
  name_key r <> (school, name).
Proof.
  intros H Hr He [= E1 E2]. unfold name_taken in H.
  assert (existsb (fun r => (r_schoolId r =? school)%string && (r_name r =? name)%string
                    && negb (bool_decide (except = Some (r_id r)))) rules = true); [|congruence].
  apply existsb_exists. exists r. rewrite <- list_elem_of_In. split; [done|].
  by rewrite E1, E2, !String.eqb_refl, bool_decide_eq_false_2.
Qed.

(** Replacing the document with identifier [id] keeps the collection well
    formed when the new name is free. *)
Lemma replace_rule_ok school id (f : rule -> rule) rules :
  collection_ok rules ->
  (forall x, x ∈ rules -> is_rule school id x = true -> r_id (f x) = r_id x /\
     (forall y, y ∈ rules -> r_id y <> r_id x -> name_key y <> name_key (f x))) ->
  collection_ok ((fun x => if is_rule school id x then f x else x) <$> rules).
Proof.
  set (g := fun x => if is_rule school id x then f x else x). intros [Hid Hnm] Hf.
  assert (r_id <$> (g <$> rules) = r_id <$> rules) as E.
  { rewrite <- list_fmap_compose. apply list_fmap_ext. intros i x Hx. unfold g, compose.
    destruct (is_rule school id x) eqn:Hi; [|done]. apply Hf; [by eapply list_elem_of_lookup_2|done]. }
  split; [by rewrite E|]. clear E.
  assert (forall x, x ∈ rules -> is_rule school id x = true -> r_id x = id) as His.
  { intros x _ H. unfold is_rule in H. rewrite andb_true_iff, Z.eqb_eq in H. tauto. }
  assert (forall x y, x ∈ rules -> y ∈ rules -> r_id x <> r_id y -> name_key (g x) <> name_key (g y)) as Hne.
  { intros x y Hx Hy Hxy. unfold g. destruct (is_rule school id x) eqn:Ex, (is_rule school id y) eqn:Ey.
    - rewrite (His x Hx Ex), (His y Hy Ey) in Hxy. done.
    - destruct (Hf x Hx Ex) as [_ H]. specialize (H y Hy ltac:(congruence)). congruence.
    - destruct (Hf y Hy Ey) as [_ H]. by apply H.
    - intros E. apply Hxy. f_equal. by eapply (NoDup_fmap_eq name_key). }
  clear Hf His Hnm. induction rules as [|x rules IH]; [constructor|].
  rewrite fmap_cons in Hid. apply NoDup_cons in Hid as [Hx Hid]. rewrite !fmap_cons. constructor.
  - intros (k & Ek & (y & -> & Hy)%list_elem_of_fmap)%list_elem_of_fmap.
    apply (Hne x y); [by left|by right| |done]. intros E. apply Hx. rewrite E. by apply list_elem_of_fmap_2.
  - apply IH; [done|]. intros a b Ha Hb. apply Hne; by right.
Qed.

Lemma create_ok school i b rules :
  collection_ok rules -> i ∉ r_id <$> rules -> collection_ok (createRule school i b rules).2.
Proof.
  intros [Hid Hnm] Hi. unfold createRule. destruct (validateBody b) as [[[n ty] v]|]; [|done].
  destruct (name_taken school n None rules) eqn:E; [done|]. cbn [snd]. split; rewrite fmap_app.
  - apply NoDup_app. split; [done|]. split; [|by apply NoDup_singleton].
    intros x Hx Hy%list_elem_of_singleton. simpl in Hy. by subst.
  - apply NoDup_app. split; [done|]. split; [|by apply NoDup_singleton].
    intros k (x & -> & Hx)%list_elem_of_fmap Hy%list_elem_of_singleton.
    by apply (name_taken_false _ _ _ _ _ E Hx).
Qed.

Lemma update_ok school i b rules : collection_ok rules -> collection_ok (updateRule school i b rules).2.
Proof.
  intros Hok. unfold updateRule. destruct (validateBody b) as [[[n ty] v]|]; [|done].
  destruct (List.find _ rules) as [old|]; [|done].
  destruct (name_taken school n (Some i) rules) eqn:E; [done|]. cbn [snd].
  apply replace_rule_ok; [done|]. intros x Hx Hi. unfold is_rule in Hi.
  apply andb_true_iff in Hi as [Hi%Z.eqb_eq Hs]. split; [done|].
  intros y Hy Hne. apply (name_taken_false _ _ _ _ _ E Hy). congruence.
Qed.

Lemma delete_ok school i w rules : collection_ok rules -> collection_ok (deleteRule school i w rules).2.
Proof.
  intros Hok. unfold deleteRule. destruct w as [w|]; [|done]. destruct (_ =? _)%string; [done|].
  destruct (List.find _ rules) as [old|]; [|done]. cbn [snd].
  apply replace_rule_ok; [done|]. intros x Hx Hi. split; [done|].
  intros y Hy Hne E. apply Hne. f_equal. by apply (NoDup_fmap_eq name_key rules y x (proj2 Hok)).
Qed.

Lemma step_ids o rules x :
  x ∈ r_id <$> rule_step o rules -> x ∈ r_id <$> rules \/ exists s b, o = OpCreate s x b.
Proof.
  assert (forall school i (f : rule -> rule) (l : list rule), (forall x, is_rule school i x = true -> r_id (f x) = r_id x) ->
    r_id <$> ((fun x => if is_rule school i x then f x else x) <$> l) = r_id <$> l) as Hmap.
  { intros school i f l Hf. rewrite <- list_fmap_compose. apply list_fmap_ext. intros _ y _. simpl.
    destruct (is_rule school i y) eqn:E; [by apply Hf|done]. }
  destruct o as [s i b|s i b|s i w]; simpl.
  - unfold createRule. destruct (validateBody b) as [[[n ty] v]|]; [|by left].
    destruct (name_taken _ _ _ _); [by left|]. simpl. rewrite fmap_app, elem_of_app.
    intros [H|H%list_elem_of_singleton]; [by left|right]. simpl in H. subst. eauto.
  - unfold updateRule. destruct (validateBody b) as [[[n ty] v]|]; [|by left].
    destruct (List.find _ rules); [|by left]. destruct (name_taken _ _ _ _); [by left|].
    cbn [snd]. rewrite Hmap; [by left|]. intros y Hy. unfold is_rule in Hy.
    apply andb_true_iff in Hy as [Hy%Z.eqb_eq _]. done.
  - unfold deleteRule. destruct w as [w|]; [|by left]. destruct (_ =? _)%string; [by left|].
    destruct (List.find _ rules); [|by left]. cbn [snd]. by rewrite Hmap; [left|].
Qed.

(** Through any sequence of creations, updates and deactivations, accepted or
    refused, no two rules of a school ever share a name: a clash is refused
    and leaves the collection unchanged.  (This is what makes the evaluation
    order deterministic.) *)
Theorem rule_names_stay_distinct rules ops used :
  collection_ok rules -> (forall x, x ∈ r_id <$> rules -> x ∈ used) -> fresh_ids used ops ->
  collection_ok (foldl (fun l o => rule_step o l) rules ops).
Proof.
  revert rules used. induction ops as [|o ops IH]; intros rules used Hok Hu Hf; [done|]. simpl.
  assert (collection_ok (rule_step o rules)) as Hok'.
  { destruct o; simpl; [apply create_ok; [done|]|by apply update_ok|by apply delete_ok].
    intros Hin. destruct Hf as [Hf _]. auto. }
  destruct o as [s i b|s i b|s i w]; simpl in Hf.
  - apply IH with (i :: used); [done| |tauto].
    intros x [H|(s' & b' & E)]%step_ids; [right; auto|]. simplify_eq. left.
  - apply IH with used; [done| |done]. intros x [H|(s' & b' & E)]%step_ids; [auto|done].
  - apply IH with used; [done| |done]. intros x [H|(s' & b' & E)]%step_ids; [auto|done].
Qed.


(** ** Bulk application *)

Lemma omap_length_le {A B} (f : A -> option B) (l : list A) : (length (omap f l) <= length l)%nat.
Proof. induction l as [|x l IH]; simpl; [lia|]. destruct (f x); [apply le_n_S, IH|apply le_S, IH]. Qed.

(** A bulk application either finds no such active rule and changes nothing,
    or reports every student of the cohort as applied or skipped and changes
    exactly those whose adjusted fee differs: the new fee is the evaluation of
    all the school's active rules, the remaining balance is the new fee less
    what was paid, clamped at zero, and the payments are kept.  Students of
    other schools, of other cohorts and deleted ones are untouched. *)
Theorem bulk_application lc school id cls year date rules students :
  let '(r, students') := applyRule lc school id cls year date rules students in
  let evaluated := _fetchSortedRules lc (Some school) rules in
  match r with
  | Throw e => e = NOT_FOUND /\ students' = students /\
      forall x, x ∈ rules -> is_rule school id x = true -> r_isActive x = false
  | Ok (applied, skipped) =>
      (applied + skipped = length (List.filter (in_cohort school cls year) students))%nat /\
      length students' = length students /\
      forall i s, students !! i = Some s -> exists s', students' !! i = Some s' /\
        let newFee := finalFee (_applyRules (st_feeAmount s) (student_context date s) evaluated) in
        if in_cohort school cls year s && negb (num_eqb newFee (st_feeAmount s))
        then st_feeAmount s' = newFee /\ st_totalPaid s' = st_totalPaid s /\
             st_schoolId s' = school /\ st_studentId s' = st_studentId s /\
             st_remainingBalance s' = Some (num_max (of_Z 0) (num_sub newFee (num_or (st_totalPaid s) (of_Z 0))))
        else s' = s
  end.
Proof.
  unfold applyRule. destruct (List.find _ rules) as [r|] eqn:Hr.
  - split; [|split; [by rewrite length_fmap|]].
    + pose proof (omap_length_le (apply_to_student date (_fetchSortedRules lc (Some school) rules))
        (List.filter (in_cohort school cls year) students)). lia.
    + intros i s Hs. rewrite list_lookup_fmap, Hs. simpl. eexists. split; [done|].
      destruct (in_cohort school cls year s) eqn:Hc; cbn [andb]; [|done].
      unfold apply_to_student, calculateAdjustedFeeWithRules.
      destruct (num_eqb _ (st_feeAmount s)); cbn [negb]; [done|]. simpl. repeat split.
      unfold in_cohort in Hc. rewrite !andb_true_iff, String.eqb_eq in Hc. tauto.
  - split; [done|split; [done|]]. intros x Hx Hi.
    pose proof (find_none_forall _ _ Hr x Hx) as H. simpl in H. rewrite Hi in H. done.
Qed.

(** ** Instances of the properties *)

Definition by_length (a b : string) : Z := Z.of_nat (String.length a) - Z.of_nat (String.length b).

Definition pct (id : Z) (name : string) (v prio : Z) (pol : policy) : rule :=
  Rule id "SCH-1" name discount_percentage (of_Z v) no_conditions true (of_Z prio) (Some pol).

Definition a_context : context := Context_ (Some "JSS1") None (of_Z 0) (of_Z 1000) None.

Lemma told_apart_by_length l : NoDup ((fun r => String.length (r_name r)) <$> l) -> told_apart by_length l.
Proof.
  intros Hn a b Ha Hb H1 H2. unfold by_length in *.
  apply (NoDup_fmap_eq (fun r => String.length (r_name r)) l); [done..|lia].
Qed.

Lemma ranked_int r z : r_priority r = of_Z z -> ranked r.
Proof. intros E. eexists. split; [exact E|apply on_grid_int]. Qed.

Lemma evaluation_order_deterministic_witness :
  let l := [pct 1 "early" 10 5 stack; pct 2 "sibling" 20 1 stack] in
  _fetchSortedRules by_length (Some "SCH-1") l = _fetchSortedRules by_length (Some "SCH-1") (reverse l).
Proof.
  intros l. refine (proj1 (evaluation_order_deterministic by_length _ _ "SCH-1" l (reverse l) _ _ _ _)).
  - unfold by_length. lia.
  - unfold by_length. lia.
  - repeat constructor; by eapply ranked_int.
  - apply told_apart_by_length. by_decision.
  - by rewrite reverse_Permutation.
  - done.
Defined.

Lemma preview_is_the_outcome_witness :
  (simulateWithExtraWithRules by_length (of_Z 1000) a_context (pct 2 "sibling" 20 1 stack)
     (_fetchSortedRules by_length (Some "SCH-1") [pct 1 "early" 10 5 stack])).1
  = calculateAdjustedFee by_length (Some "SCH-1") (of_Z 1000) a_context
      [pct 1 "early" 10 5 stack; pct 2 "sibling" 20 1 stack].
Proof.
  apply (preview_is_the_outcome by_length ltac:(unfold by_length; lia) ltac:(unfold by_length; lia)
           "SCH-1" [pct 1 "early" 10 5 stack] (pct 2 "sibling" 20 1 stack)); try done.
  - repeat constructor; by eapply ranked_int.
  - apply told_apart_by_length. by_decision.
Defined.

Lemma adjusted_fee_non_negative_witness :
  non_negative (finalFee (_applyRules (of_Z 1000) a_context [pct 1 "all" 150 1 stack])).
Proof.
  refine (proj1 (adjusted_fee_non_negative (of_Z 1000) a_context [pct 1 "all" 150 1 stack] _)).
  vm_compute. reflexivity.
Defined.

Lemma rule_names_stay_distinct_witness :
  let b := RuleBody (Some " early ") (Some waiver) (Some (of_Z 0)) None None None None in
  let ops := [OpCreate "SCH-1" 1 b; OpCreate "SCH-1" 2 b; OpDelete "SCH-1" 1 (Some "x")] in
  collection_ok (foldl (fun l o => rule_step o l) [] ops) /\
  length (foldl (fun l o => rule_step o l) [] ops) = 1%nat.
Proof.
  intros b ops. split; [|reflexivity].
  apply (rule_names_stay_distinct [] ops []); [repeat constructor|by intros x Hx%elem_of_nil|].
  repeat split; [by apply not_elem_of_nil|]. intros H%list_elem_of_singleton. discriminate.
Defined.



(** ** Where the code departs from its description *)

(** Best-for-student does not pick the best discount but the first one in
    priority order: with 5% at priority 1 and 50% at priority 2 the student
    gets the 5%. *)
Theorem best_for_student_keeps_the_first :
  let rules := [pct 1 "small" 5 1 best_for_student; pct 2 "large" 50 2 best_for_student] in
  finalFee (calculateAdjustedFee by_length (Some "SCH-1") (of_Z 1000) a_context rules) = of_Z 950 /\
  finalFee (calculateAdjustedFee by_length (Some "SCH-1") (of_Z 1000) a_context (tail rules)) = of_Z 500.
Proof. vm_compute. done. Qed.

Definition a_payer (fee paid : Z) (flag : bool) : student :=
  Student "SCH-1" "STU-1" "JSS1" None (of_Z fee) [] flag (of_Z paid) None (of_Z 0) None.

(** The application is not idempotent: it stores the discounted fee as the
    new base, so applying the same 10% rule again takes 10% of what is left. *)
Theorem reapplication_compounds :
  let rules := [pct 1 "early" 10 1 stack] in
  let once := (applyRule by_length "SCH-1" 1 None None 0 rules [a_payer 1000 0 false]).2 in
  let twice := (applyRule by_length "SCH-1" 1 None None 0 rules once).2 in
  (st_feeAmount <$> once) = [of_Z 900] /\ (st_feeAmount <$> twice) = [of_Z 810].
Proof. vm_compute. done. Qed.

(** The paid flag is not recomputed with the fee: a fully waived student with
    nothing remaining stays unpaid, and a student whose fee is raised above what
    they paid stays paid with a balance remaining. *)
Theorem paid_flag_left_behind :
  let waive := Rule 1 "SCH-1" "waive" waiver (of_Z 0) no_conditions true (of_Z 1) None in
  let raise := Rule 1 "SCH-1" "late" penalty_fixed (of_Z 50) no_conditions true (of_Z 1) None in
  let apply r s := (applyRule by_length "SCH-1" 1 None None 0 [r] [s]).2 in
  ((fun s => (st_remainingBalance s, st_feePaid s)) <$> apply waive (a_payer 100 0 false))
    = [(Some (of_Z 0), false)] /\
  ((fun s => (st_remainingBalance s, st_feePaid s)) <$> apply raise (a_payer 100 100 true))
    = [(Some (of_Z 50), true)].
Proof. vm_compute. done. Qed.

End FeeRules.
