(* ===== verification/StellarRetry.v ===== *)
(** Calls to Horizon: backend/src/utils/withStellarRetry.js (classification of
    failures and the retry loop), the submission classifier and the asset check
    of backend/src/config/stellarConfig.js, and
    backend/src/utils/hashValidator.js.  A call to Horizon is a parameter: the
    outcome of the k-th attempt. *)

From Stdlib Require Import Ascii ZArith QArith Qround Qabs Qpower Lia Lqa.
From stdpp Require Import base list strings.
From S2P Require Import Prelude JsNumber JsString.
Local Open Scope string_scope.
Local Open Scope Z_scope.
Local Open Scope list_scope.

Module StellarRetry.

(** ** Failures of a call *)

(** The fields of an error that the code reads: the axios response's [status]
    and [statusCode], the error's own, its [code] and [message].  Classification
    also attaches the raw failure as [originalError], which nothing reads. *)
Record herror := HError {
  response : option (option Z * option Z);
  e_status : option Z;
  e_statusCode : option Z;
  e_code : option string;
  e_message : string
}.

(** [a || b] on an optional number. *)
Definition numopt_or (a b : option Z) : option Z :=
  match a with Some z => if z =? 0 then b else a | None => b end.

Definition getStatus (err : herror) : option Z :=
  numopt_or (err.(response) ≫= fst)
    (numopt_or (err.(response) ≫= snd) (numopt_or err.(e_status) err.(e_statusCode))).

Definition NETWORK_CODES : list string :=
  ["ECONNREFUSED"; "ECONNRESET"; "ETIMEDOUT"; "ENOTFOUND"; "EAI_AGAIN"].

Definition network_code (c : option string) : bool :=
  match c with Some c => bool_decide (c ∈ NETWORK_CODES) | None => false end.

(** Does a pattern occur in a text? *)
Fixpoint occurs (p l : list ascii) : bool :=
  starts_with p l || match l with [] => false | _ :: l' => occurs p l' end.

(** [/timeout|network|socket hang up/i.test(message)] *)
Definition network_message (m : string) : bool :=
  existsb (fun p => occurs (chars p) (map lower (chars m))) ["timeout"; "network"; "socket hang up"].

Definition unavailable_status (s : option Z) : bool :=
  match s with Some s => (s =? 429) || ((500 <=? s) && (s <? 600)) | None => false end.

Definition isTransient (err : herror) : bool :=
  network_code err.(e_code) || network_message err.(e_message) || unavailable_status (getStatus err).

(** A new error with a normalised code and status. *)
Definition new_error (msg code : string) (status : Z) : herror :=
  HError None (Some status) None (Some code) msg.

Definition truthy_opt (s : option string) : bool :=
  match s with Some s => str_truthy s | None => false end.

Definition classifyHorizonError (err : herror) (context : string) : herror :=
  let s := getStatus err in
  if bool_decide (s = Some 404) then
    new_error (str_or context "Transaction" +:+ " not found on the Stellar network") "NOT_FOUND" 404
  else if unavailable_status s || network_code err.(e_code) || network_message err.(e_message) then
    new_error "Stellar Horizon is temporarily unavailable. Please retry shortly." "HORIZON_UNAVAILABLE" 503
  else if truthy_opt err.(e_code) && (match err.(e_status) with Some z => negb (z =? 0) | None => false end) then err
  else new_error (str_or err.(e_message) "Unexpected Stellar network error") "STELLAR_NETWORK_ERROR" 502.

(** ** The retry loop *)

Definition MAX_DELAY : Z := 10000.

(** [Math.min(baseDelay * 2 ** (attempt - 1), MAX_DELAY)]; multiplying an
    integer by a power of two is exact in doubles until it overflows, where
    the minimum is [MAX_DELAY] all the same. *)
Definition retry_delay (baseDelay : Z) (attempt : nat) : Z :=
  Z.min (baseDelay * 2 ^ (Z.of_nat attempt - 1)) MAX_DELAY.

(** [delay + Math.floor(Math.random() * delay * 0.3)] *)
Definition retry_wait (random : number) (delay : Z) : number :=
  num_add (of_Z delay)
    (num_floor (num_mul (num_mul random (of_Z delay)) (to_double (3 # 10)))).

Section Loop.
Context {A : Type}.
(** The outcome of the k-th attempt and the value of [Math.random] after it. *)
Variable fn : nat -> result herror A.
Variable random : nat -> number.
Variable baseDelay : Z.
Variable context : string.

(** The attempts that are left; gives the waits before each retry, and the
    outcome ([None] when the loop body never runs and the call resolves to
    undefined). *)
Fixpoint retry_loop (left attempt : nat) (waits : list number)
  : list number * option (result herror A) :=
  match left with
  | O => (waits, None)
  | S left' =>
    match fn attempt with
    | Ok a => (waits, Some (Ok a))
    | Throw err =>
      if negb (isTransient err) || (left' =? 0)%nat then (waits, Some (Throw (classifyHorizonError err context)))
      else retry_loop left' (S attempt)
             (waits ++ [retry_wait (random attempt) (retry_delay baseDelay attempt)])
    end
  end.

Definition withStellarRetry (maxAttempts : nat) : list number * option (result herror A) :=
  retry_loop maxAttempts 1 [].

(** The attempt that decides: the first that succeeds, fails for good, or is
    the last one allowed. *)
Definition decides (maxAttempts k : nat) : Prop :=
  (1 <= k <= maxAttempts)%nat /\
  (forall j, (1 <= j < k)%nat -> exists e, fn j = Throw e /\ isTransient e = true) /\
  (k = maxAttempts \/ match fn k with Ok _ => True | Throw e => isTransient e = false end).

Lemma retry_loop_spec left : forall attempt waits, (0 < left)%nat ->
  exists k, (attempt <= k < attempt + left)%nat /\
    (forall j, (attempt <= j < k)%nat -> exists e, fn j = Throw e /\ isTransient e = true) /\
    (k = attempt + left - 1 \/ match fn k with Ok _ => True | Throw e => isTransient e = false end)%nat /\
    retry_loop left attempt waits =
      (waits ++ map (fun j => retry_wait (random j) (retry_delay baseDelay j)) (seq attempt (k - attempt)),
       Some (match fn k with Ok a => Ok a | Throw e => Throw (classifyHorizonError e context) end)).
Proof.
  induction left as [|left IH]; intros attempt waits Hl; [lia|]. simpl.
  destruct (fn attempt) as [a|e] eqn:Hf.
  { exists attempt. rewrite Nat.sub_diag, Hf, app_nil_r. repeat split; [lia|lia| |by right]. intros; lia. }
  destruct (negb (isTransient e) || (left =? 0)%nat) eqn:Hg.
  { exists attempt. rewrite Nat.sub_diag, Hf, app_nil_r. repeat split; [lia|lia|intros; lia|].
    apply orb_true_iff in Hg as [Hg|Hg]; [right; by destruct (isTransient e)|left].
    apply Nat.eqb_eq in Hg. lia. }
  apply orb_false_iff in Hg as [Ht%negb_false_iff Hn%Nat.eqb_neq].
  destruct (IH (S attempt) (waits ++ [retry_wait (random attempt) (retry_delay baseDelay attempt)]))
    as (k & Hk & Hprev & Hdec & ->); [lia|].
  exists k. repeat split; [lia|lia| | |].
  - intros j Hj. destruct (decide (j = attempt)) as [->|]; [by exists e|]. apply Hprev. lia.
  - destruct Hdec as [->|?]; [left; lia|by right].
  - rewrite <- app_assoc. do 2 f_equal.
    replace (k - attempt)%nat with (S (k - S attempt)) by lia. done.
Qed.

(** A retried Horizon call always finishes within [maxAttempts] calls: the
    call that decides is the first that succeeds or fails for good, or the last
    one, every call before it failed transiently, and the answer is its value
    or its error as classified; one wait precedes each further call. *)
Theorem retry_finishes maxAttempts : (0 < maxAttempts)%nat ->
  exists k, decides maxAttempts k /\
    withStellarRetry maxAttempts =
      (map (fun j => retry_wait (random j) (retry_delay baseDelay j)) (seq 1 (k - 1)),
       Some (match fn k with Ok a => Ok a | Throw e => Throw (classifyHorizonError e context) end)).
Proof.
  intros Hm. destruct (retry_loop_spec maxAttempts 1 [] Hm) as (k & Hk & Hp & Hd & E).
  exists k. unfold withStellarRetry. rewrite E. split; [|done].
  split; [lia|]. split; [done|]. destruct Hd as [->|?]; [left; lia|by right].
Qed.
End Loop.


(** Each wait is at least the exponential delay and at most twice it. *)
Lemma retry_wait_bounds r base k : (0 <= r)%Q -> (r < 1)%Q -> 0 < base -> (1 <= k)%nat ->
  exists w, retry_wait (Fin r) (retry_delay base k) = of_Z w /\
    retry_delay base k <= w <= 2 * retry_delay base k.
Proof.
  intros Hr0 Hr1 Hb Hk.
  assert (Hd : 0 < retry_delay base k <= MAX_DELAY).
  { unfold retry_delay, MAX_DELAY. assert (0 < 2 ^ (Z.of_nat k - 1)) by (apply Z.pow_pos_nonneg; lia). nia. }
  revert Hd. generalize (retry_delay base k). intros d Hd. unfold MAX_DELAY in Hd. unfold retry_wait.
  assert (Hq : (1 <= inject_Z d <= 10000)%Q) by (split; unfold Qle; simpl; lia).
  change (num_mul (Fin r) (of_Z d)) with (to_double (r * inject_Z d)).
  destruct (to_double_near (r * inject_Z d) 14) as (p & -> & Hp & Hp0); [lia| |].
  { change (Qpower 2 14) with 16384%Q. rewrite Qabs_pos; nra. }
  specialize (Hp0 ltac:(nra)). apply Qabs_Qle_condition in Hp as [_ Hp].
  assert (Hp' : (p <= inject_Z d + (1 # 1000))%Q).
  { assert ((1 # 2) * Qpower 2 (14 - 53) <= 1 # 1000)%Q by (vm_compute; discriminate). nra. }
  assert (E3 : exists t, to_double (3 # 10) = Fin t /\ (0 <= t <= 1 # 3)%Q).
  { eexists. split; [vm_compute; reflexivity|]. split; vm_compute; discriminate. }
  destruct E3 as (t & -> & Ht). change (num_mul (Fin p) (Fin t)) with (to_double (p * t)).
  destruct (to_double_near (p * t) 14) as (u & -> & Hu & Hu0); [lia| |].
  { change (Qpower 2 14) with 16384%Q. rewrite Qabs_pos; nra. }
  specialize (Hu0 ltac:(nra)). apply Qabs_Qle_condition in Hu as [_ Hu].
  assert (Hu' : (u <= inject_Z d)%Q).
  { assert ((1 # 2) * Qpower 2 (14 - 53) <= 1 # 1000)%Q by (vm_compute; discriminate). nra. }
  exists (d + Qfloor u). cbn [num_floor]. fold (of_Z (Qfloor u)).
  apply Qfloor_resp_le in Hu0. apply Qfloor_resp_le in Hu'. rewrite Qfloor_Z in Hu'.
  change (Qfloor 0) with 0 in Hu0.
  rewrite num_add_int; [split; [done|lia]|lia].
Qed.

(** The total time spent waiting is bounded by twice the number of retries
    times the longest delay. *)
Lemma retry_delay_le base k : retry_delay base k <= MAX_DELAY.
Proof. unfold retry_delay. lia. Qed.

(** ** What classification does *)

Definition classified_code (e : herror) : option string * option Z := (e.(e_code), e.(e_status)).

(** A classified failure tells the two cases callers act on apart: not found
    exactly for status 404, unavailable exactly for the other transient
    failures; everything else keeps its own code and status or becomes a
    network error 502. *)
Theorem classify_codes err ctx :
  let e := classifyHorizonError err ctx in
  (getStatus err = Some 404 -> classified_code e = (Some "NOT_FOUND", Some 404)) /\
  (getStatus err <> Some 404 -> isTransient err = true ->
     classified_code e = (Some "HORIZON_UNAVAILABLE", Some 503)) /\
  (getStatus err <> Some 404 -> isTransient err = false ->
     e = err /\ truthy_opt (e_code err) = true \/
     classified_code e = (Some "STELLAR_NETWORK_ERROR", Some 502)).
Proof.
  cbv zeta. unfold classifyHorizonError, isTransient. split; [|split].
  - intros ->. by rewrite bool_decide_true.
  - intros H1 H2. rewrite bool_decide_false by done.
    assert (unavailable_status (getStatus err) || network_code (e_code err) || network_message (e_message err) = true)
      as -> by (destruct (network_code _), (network_message _), (unavailable_status _); done).
    done.
  - intros H1 H2. rewrite bool_decide_false by done.
    assert (unavailable_status (getStatus err) || network_code (e_code err) || network_message (e_message err) = false)
      as -> by (destruct (network_code _), (network_message _), (unavailable_status _); done).
    destruct (truthy_opt (e_code err)); simpl; [|by right].
    destruct (e_status err) as [z|]; [destruct (z =? 0)|]; simpl; auto.
Qed.

Lemma classify_codes_witness :
  let err := HError (Some (Some 503, None)) None None None "Request failed" in
  classified_code (classifyHorizonError err "op") = (Some "HORIZON_UNAVAILABLE", Some 503).
Proof.
  cbv zeta. refine (proj1 (proj2 (classify_codes _ "op")) _ _); [discriminate|reflexivity].
Defined.

(** Classifying is not idempotent: an error that is neither transient nor
    classified becomes a 502 network error, and classifying that again makes it
    a transient "temporarily unavailable" one. *)
Theorem classify_twice_differs :
  let e := HError None None None None "bad request" in
  let once := classifyHorizonError e "" in
  classified_code once = (Some "STELLAR_NETWORK_ERROR", Some 502) /\ isTransient e = false /\
  isTransient once = true /\
  classified_code (classifyHorizonError once "") = (Some "HORIZON_UNAVAILABLE", Some 503).
Proof. vm_compute. done. Qed.

Lemma retry_finishes_witness :
  let bad := HError (Some (Some 503, None)) None None None "" in
  let fn := fun k => if (k <? 3)%nat then Throw bad else Ok k in
  exists k, decides fn 3 k /\
    withStellarRetry fn (fun _ => of_Z 0) 1000 "op" 3 =
      (map (fun j => retry_wait (of_Z 0) (retry_delay 1000 j)) (seq 1 (k - 1)),
       Some (match fn k with Ok a => Ok a | Throw e => Throw (classifyHorizonError e "op") end)).
Proof. cbv zeta. refine (retry_finishes _ (fun _ => of_Z 0) 1000 "op" 3 _). lia. Defined.

(** ** Failed submissions *)

(** What [classifySubmitError] reads of an error: the HTTP status, and of the
    response data its transaction result code and its detail. *)
Record submit_failure := SubmitFailure {
  sf_status : option Z; sf_result_code : option string; sf_detail : option string; sf_message : option string
}.

Record submit_class := SubmitClass { definitive : bool; resultCode : option string; reason : string }.

(** [a || b || d] on optional texts. *)
Definition first_truthy (l : list (option string)) (d : string) : string :=
  match List.find truthy_opt l with Some (Some s) => s | _ => d end.

Definition classifySubmitError (err : option submit_failure) : submit_class :=
  let status := err ≫= sf_status in
  let txResultCode := err ≫= sf_result_code in
  match txResultCode with
  | Some rc =>
    if bool_decide (status = Some 400) && str_truthy rc then SubmitClass true (Some rc) rc
    else SubmitClass false (if str_truthy rc then Some rc else None)
           (first_truthy [err ≫= sf_detail; err ≫= sf_message] "ambiguous_horizon_outcome")
  | None => SubmitClass false None
              (first_truthy [err ≫= sf_detail; err ≫= sf_message] "ambiguous_horizon_outcome")
  end.

(** A submission is given up exactly when Horizon rejected it (400) and said
    why; a timeout, a 5xx, a network failure or a bare 400 stays open. *)
Lemma submit_definitive_iff err :
  definitive (classifySubmitError err) = true <->
  exists f rc, err = Some f /\ sf_status f = Some 400 /\ sf_result_code f = Some rc /\ rc <> "".
Proof.
  unfold classifySubmitError. destruct err as [[st rc dt ms]|]; simpl.
  2: { split; [done|]. intros (? & ? & ? & _). done. }
  split.
  - destruct rc as [rc|]; [|done]. destruct (bool_decide _ && _) eqn:E; [|done]. intros _.
    apply andb_true_iff in E as [E%bool_decide_eq_true_1 E']. exists (SubmitFailure st (Some rc) dt ms), rc.
    repeat split; try done. by destruct rc.
  - intros (f & rc' & [= <-] & Hs & Hr & Hn). simpl in *. subst. rewrite bool_decide_true by done.
    by destruct rc'.
Qed.

(** ** Accepted assets *)

Record asset := Asset { a_code : string; a_type : option string; a_issuer : option string }.

Definition ALL_ASSETS (usdc_issuer : option string) (code : string) : option asset :=
  if decide (code = "XLM") then Some (Asset "XLM" (Some "native") None)
  else if decide (code = "USDC") then Some (Asset "USDC" (Some "credit_alphanum4") usdc_issuer)
  else None.

(** Property names every object inherits: looking one up in [ACCEPTED_ASSETS]
    finds a value without [type] and [issuer]. *)
Definition inherited_names : list string :=
  ["constructor"; "__proto__"; "hasOwnProperty"; "isPrototypeOf"; "propertyIsEnumerable";
   "toLocaleString"; "toString"; "valueOf"; "__defineGetter__"; "__defineSetter__";
   "__lookupGetter__"; "__lookupSetter__"].

Definition ACCEPTED_ASSETS (configured : asset) (assetCode : option string) : option asset :=
  let key := default "undefined" assetCode in
  if decide (key = configured.(a_code)) then Some configured
  else if decide (key ∈ inherited_names) then Some (Asset key None None) else None.

Inductive asset_refusal := unsupported_code | type_mismatch | unexpected_issuer | issuer_not_configured | issuer_mismatch.

(** The accepted asset or the reason of the refusal. *)
Definition isAcceptedAsset (configured : asset) (assetCode assetType assetIssuer : option string)
  : result asset_refusal asset :=
  match ACCEPTED_ASSETS configured assetCode with
  | None => Throw unsupported_code
  | Some a =>
    if negb (bool_decide (a.(a_type) = assetType)) then Throw type_mismatch else
    if bool_decide (a.(a_type) = Some "native") then
      if truthy_opt assetIssuer then Throw unexpected_issuer else Ok a
    else if negb (truthy_opt a.(a_issuer)) then Throw issuer_not_configured else
    if negb (bool_decide (assetIssuer = a.(a_issuer))) then Throw issuer_mismatch else Ok a
  end.

(** Only the configured asset is ever accepted, and a credit asset only from
    the pinned issuer: the code alone proves nothing. *)
Lemma isAcceptedAsset_iff c code ty iss a : a_type c <> None -> a_code c <> "undefined" ->
  isAcceptedAsset c code ty iss = Ok a <->
  a = c /\ code = Some (a_code c) /\ ty = a_type c /\
  (a_type c = Some "native" /\ truthy_opt iss = false \/
   a_type c <> Some "native" /\ iss = a_issuer c /\ truthy_opt iss = true).
Proof.
  intros Ht Hu. unfold isAcceptedAsset, ACCEPTED_ASSETS. destruct (decide (default "undefined" code = a_code c)) as [E|E].
  - assert (code = Some (a_code c)) as -> by (destruct code; simpl in *; congruence).
    destruct (decide (a_type c = ty)) as [<-|Hty].
    2: { rewrite bool_decide_false by done. simpl. split; [done|]. intros (_ & _ & -> & _). done. }
    rewrite bool_decide_true by done. simpl. destruct (decide (a_type c = Some "native")) as [Hn|Hn].
    + rewrite bool_decide_true by done. destruct (truthy_opt iss) eqn:Ei; split.
      all: intros H; first [done|by simplify_eq; auto 10|by destruct H as (-> & _ & _ & [[_ ?]|[? _]])].
    + rewrite bool_decide_false by done. destruct (decide (iss = a_issuer c)) as [->|Hi].
      * rewrite bool_decide_true by done. destruct (truthy_opt (a_issuer c)) eqn:Ei; simpl; split.
        all: intros H; first [done|by simplify_eq; auto 10|by destruct H as (-> & _ & _ & [[? _]|(_ & _ & ?)])].
      * rewrite bool_decide_false by done. destruct (truthy_opt (a_issuer c)) eqn:Ei; simpl; split.
        all: intros H; first [done|by destruct H as (_ & _ & _ & [[? _]|(_ & ? & _)])].
  - split.
    2: { intros (_ & -> & _). done. }
    destruct (decide _); [|done]. destruct ty; done.
Qed.

(** ** Transaction hashes *)

Inductive hash_arg := HashFalsy | HashOther | HashText (s : string).

Inductive hash_error := MISSING_HASH | INVALID_HASH_TYPE | INVALID_HASH_LENGTH (n : nat) | INVALID_HASH_FORMAT.

Definition hash_char (c : ascii) : bool :=
  is_digit c || ((97 <=? code c) && (code c <=? 102)) || ((65 <=? code c) && (code c <=? 70)).

(** [/^[0-9a-fA-F]{64}$/] on a text of 64 characters. *)
Definition STELLAR_HASH_REGEX (l : list ascii) : bool := (length l =? 64)%nat && forallb hash_char l.

Definition validateTransactionHash (hash : hash_arg) : result hash_error string :=
  match hash with
  | HashFalsy => Throw MISSING_HASH
  | HashOther => Throw INVALID_HASH_TYPE
  | HashText s =>
    if negb (str_truthy s) then Throw MISSING_HASH else
    let trimmed := trim (chars s) in
    if negb (length trimmed =? 64)%nat then Throw (INVALID_HASH_LENGTH (length trimmed)) else
    if negb (STELLAR_HASH_REGEX trimmed) then Throw INVALID_HASH_FORMAT else
    Ok (text (map lower trimmed))
  end.

(** validity, the errors with their index, the valid hashes *)
Definition validateTransactionHashes (hashes : list hash_arg) : bool * list (nat * hash_error) * list string :=
  let results := imap (fun i h => (i, validateTransactionHash h)) hashes in
  (forallb (fun r => match r.2 with Ok _ => true | Throw _ => false end) results,
   omap (fun r => match r.2 with Throw e => Some (r.1, e) | Ok _ => None end) results,
   omap (fun r => match r.2 with Ok n => Some n | Throw _ => None end) results).

Definition sanitizeHash (hash : hash_arg) : option string :=
  match validateTransactionHash hash with Ok n => Some n | Throw _ => None end.

Definition hash_truthy (h : hash_arg) : bool :=
  match h with HashFalsy => false | HashOther => true | HashText s => str_truthy s end.

(** The three places a request may carry the hash in. *)
Record hash_request := HashRequest { in_params : hash_arg; in_body : hash_arg; in_query : hash_arg }.

Definition hash_or (a b : hash_arg) : hash_arg := if hash_truthy a then a else b.

Definition validateHashMiddleware (req : hash_request) : result hash_error hash_request :=
  let hash := hash_or req.(in_params) (hash_or req.(in_body) req.(in_query)) in
  match validateTransactionHash hash with
  | Throw e => Throw e
  | Ok n =>
    let put h := if hash_truthy h then HashText n else h in
    Ok (HashRequest (put req.(in_params)) (put req.(in_body)) (put req.(in_query)))
  end.

Lemma lower_hash c : hash_char c = true -> hash_char (lower c) = true /\ lower (lower c) = lower c /\ is_space (lower c) = false.
Proof. destruct c as [[] [] [] [] [] [] [] []]; vm_compute; intros; repeat split; congruence. Qed.

Lemma map_lower_hash l : Forall (fun c => hash_char c = true) l ->
  Forall (fun c => hash_char c = true /\ is_space c = false) (map lower l) /\ map lower (map lower l) = map lower l.
Proof.
  induction 1 as [|c l Hc Hl [IH1 IH2]]; [done|]. destruct (lower_hash c Hc) as (H1 & H2 & H3). simpl.
  split; [by constructor|]. by rewrite H2, IH2.
Qed.

(** Validation normalises: the accepted texts are those whose trimmed form
    is 64 hexadecimal digits, the answer is that form in lower case, and
    validating the answer gives it back. *)
Theorem hash_normal_form s n : validateTransactionHash (HashText s) = Ok n ->
  length (chars n) = 64%nat /\ Forall (fun c => hash_char c = true) (trim (chars s)) /\
  n = text (map lower (trim (chars s))) /\ validateTransactionHash (HashText n) = Ok n.
Proof.
  unfold validateTransactionHash at 1. destruct (str_truthy s); simpl; [|done].
  destruct (_ =? 64)%nat eqn:El; simpl; [|done]. apply Nat.eqb_eq in El.
  destruct (STELLAR_HASH_REGEX _) eqn:Er; simpl; [|done]. intros [= <-].
  apply andb_true_iff in Er as [_ Hf%forallb_Forall].
  destruct (map_lower_hash _ Hf) as [Hl Hll]. rewrite chars_text.
  assert (Hlen : length (map lower (trim (chars s))) = 64%nat) by (by rewrite length_map).
  repeat split; try done. unfold validateTransactionHash. cbv beta iota zeta.
  assert (Ht : trim (map lower (trim (chars s))) = map lower (trim (chars s))).
  { apply trim_id. eapply Forall_impl; [exact Hl|]. by intros ? []. }
 rewrite Ht, Hlen, Hll. unfold STELLAR_HASH_REGEX. rewrite Hlen. simpl.
  assert (forallb hash_char (map lower (trim (chars s))) = true) as ->.
  { apply forallb_Forall. eapply Forall_impl; [exact Hl|]. by intros ? []. }
  destruct (text _) eqn:E; [|done]. apply (f_equal chars) in E. rewrite chars_text in E.
  rewrite E in Hlen. done.
Qed.

Lemma hash_normal_form_witness :
  let s := "  ABCDEF0123456789abcdef0123456789ABCDEF0123456789abcdef0123456789 " in
  validateTransactionHash (HashText "abcdef0123456789abcdef0123456789abcdef0123456789abcdef0123456789")
  = Ok "abcdef0123456789abcdef0123456789abcdef0123456789abcdef0123456789".
Proof.
  cbv zeta.
  refine (proj2 (proj2 (proj2 (hash_normal_form
    "  ABCDEF0123456789abcdef0123456789ABCDEF0123456789abcdef0123456789 " _ _)))).
  vm_compute. reflexivity.
Defined.

End StellarRetry.
