(* ===== verification/LedgerPayments.v ===== *)
(** Payments found on the ledger: backend/src/services/stellarService.js.

    Reading all operations of a transaction page by page, recognising the
    operations that credit a school's wallet in the accepted asset, decoding
    the memo, verifying a single transaction with its error codes, comparing
    it with the fee, and the two kinds of fraud checks.  Horizon is a parameter
    (the pages it serves), so is the Stellar SDK's amount formatter. *)

From Stdlib Require Import Ascii ZArith QArith Qround Qabs Qpower Lia Lqa Sorting.Sorted.
From stdpp Require Import base list strings gmap.
From S2P Require Import Prelude JsNumber JsString StellarAmount DecimalLib Money StellarMemo Confirmation PaymentLimits StellarRetry.
Import StellarRetry.
Local Open Scope string_scope.
Local Open Scope Z_scope.
Local Open Scope list_scope.

(** The SDK's [Operation._fromXDRAmount]: a stroop count in decimal digits is
    formatted with seven places. *)
Class StellarSdk := {
  _fromXDRAmount : string -> string;
  fromXDRAmount_stroops : forall z, _fromXDRAmount (Z_to_string z) = fromStroops z
}.

Module LedgerPayments.

(** ** Operations of a transaction *)

(** The fields of a Horizon operation record that are read; an absent field is
    [None]. *)
Record operation := Operation {
  op_type : string;
  op_to : option string;
  op_from : option string;
  asset_type : option string;
  asset_code : option string;
  asset_issuer : option string;
  op_amount : option string;
  destination_asset_type : option string;
  destination_asset_code : option string;
  destination_asset_issuer : option string;
  destination_amount : option string
}.

Definition CREDITABLE_OP_TYPES : list string :=
  ["payment"; "path_payment_strict_receive"; "path_payment_strict_send"].

Definition isCreditableOpType (type : string) : bool := bool_decide (type ∈ CREDITABLE_OP_TYPES).

Definition isPathPayment (op : operation) : bool :=
  bool_decide (op.(op_type) = "path_payment_strict_send")
  || bool_decide (op.(op_type) = "path_payment_strict_receive").

Record delivered := Delivered { assetType : option string; assetCode : option string; assetIssuer : option string }.

Definition native_or (ty code issuer : option string) : delivered :=
  Delivered ty (if decide (ty = Some "native") then Some "XLM" else code)
            (if decide (ty = Some "native") then None else issuer).

Definition resolveDeliveredAsset (op : operation) : delivered :=
  if isPathPayment op then
    native_or op.(destination_asset_type) op.(destination_asset_code) op.(destination_asset_issuer)
  else native_or op.(asset_type) op.(asset_code) op.(asset_issuer).

Definition resolveCreditedAmount (op : operation) : option string :=
  if isPathPayment op then op.(destination_amount) else op.(op_amount).

(** The asset the deployment accepts, [ACCEPTED_ASSET] of the configuration. *)
Section Config.
Context (configured : asset).

Definition detectAsset (payOp : operation) : option delivered :=
  let d := resolveDeliveredAsset payOp in
  match isAcceptedAsset configured d.(assetCode) d.(assetType) d.(assetIssuer) with
  | Ok _ => Some d
  | Throw _ => None
  end.

(** ** Amounts *)
Section Sdk.
Context `{SDK : StellarSdk}.

(** [String(x)] of a number that [Math.round] gave, below [1e21]. *)
Definition integer_text (x : number) : string :=
  match x with
  | NaN => "NaN"
  | Infinity s => if s then "-Infinity" else "Infinity"
  | Fin q => Z_to_string (Qfloor q)
  end.

Definition normalizeAmount (rawAmount : option string) : number :=
  let x := match rawAmount with Some s => parseFloat (chars s) | None => NaN end in
  let stroops := integer_text (num_round (num_mul x (of_Z 10000000))) in
  parseFloat (chars (_fromXDRAmount stroops)).

(** ** Reading every page of operations *)

Record page := Page { records : list operation; has_next : bool }.

Section Fetch.
(** The k-th page Horizon serves, after retries; following the link may also
    resolve to nothing. *)
Variable horizon : nat -> result herror (option page).

(** [None] when the fuel ran out. *)
Fixpoint fetch_loop (fuel : nat) (k : nat) (p : page) (acc : list operation)
  : option (result herror (list operation)) :=
  match fuel with
  | O => None
  | S fuel' =>
    if negb (length p.(records) =? 0)%nat && p.(has_next) then
      match horizon (S k) with
      | Throw e => Some (Throw e)
      | Ok None => Some (Ok acc)
      | Ok (Some p') =>
        if (length p'.(records) =? 0)%nat then Some (Ok acc)
        else fetch_loop fuel' (S k) p' (acc ++ p'.(records))
      end
    else Some (Ok acc)
  end.

(** The first page has to exist ([page.records] is read at once). *)
Definition fetchAllOperations (fuel : nat) : option (result herror (list operation)) :=
  match horizon 0%nat with
  | Throw e => Some (Throw e)
  | Ok None => Some (Throw (new_error "Cannot read properties of undefined" "" 0))
  | Ok (Some p) => fetch_loop fuel 0 p p.(records)
  end.

(** Horizon serves the pages [ps] and then an empty one (or no link). *)
Definition serves (ps : list page) : Prop :=
  Forall (fun p => p.(records) <> [] /\ p.(has_next) = true) ps /\
  (forall k p, ps !! k = Some p -> horizon k = Ok (Some p)) /\
  (exists last, horizon (length ps) = Ok (Some last) /\ last.(records) = []).

Lemma fetch_loop_pages : forall fuel k p acc ps,
  (length ps < fuel)%nat -> p.(records) <> [] -> p.(has_next) = true ->
  Forall (fun p => p.(records) <> [] /\ p.(has_next) = true) ps ->
  (forall j p', ps !! j = Some p' -> horizon (S k + j) = Ok (Some p')) ->
  (exists last, horizon (S k + length ps) = Ok (Some last) /\ last.(records) = []) ->
  fetch_loop fuel k p acc = Some (Ok (acc ++ concat (map records ps))).
Proof.
  induction fuel as [|fuel IH]; intros k p acc ps Hf Hp Hn HF Hh Hlast; [lia|].
  cbn [fetch_loop]. destruct (length (records p) =? 0)%nat eqn:E;
    [apply Nat.eqb_eq, nil_length_inv in E; done|]. rewrite Hn. cbn [negb andb].
  destruct ps as [|p' ps].
  - destruct Hlast as (last & Hl & Hr). simpl in Hl. rewrite Nat.add_0_r in Hl. rewrite Hl, Hr. simpl.
    by rewrite app_nil_r.
  - apply Forall_cons in HF as [[Hp' Hn'] HF].
    pose proof (Hh 0%nat p' eq_refl) as H0. rewrite Nat.add_0_r in H0. rewrite H0.
    destruct (length (records p') =? 0)%nat eqn:E'; [apply Nat.eqb_eq, nil_length_inv in E'; done|].
    rewrite (IH (S k) p' (acc ++ records p') ps); [| |done|done|done| |].
    + simpl. by rewrite <- app_assoc.
    + simpl in Hf. lia.
    + intros j q Hj. rewrite <- (Hh (S j) q Hj). f_equal. lia.
    + destruct Hlast as (last & Hl & Hr). exists last. split; [|done]. rewrite <- Hl. f_equal. simpl. lia.
Qed.

(** C34: reading the operations of a transaction terminates and loses nothing:
    against a Horizon that serves any number of non-empty pages and then an
    empty one, one round per page is enough fuel, and the answer is every
    record of every page in order. *)
Theorem fetch_reads_every_page ps fuel : serves ps -> (length ps < fuel)%nat ->
  fetchAllOperations fuel = Some (Ok (concat (map records ps))).
Proof.
  intros (HF & Hh & Hlast) Hf. unfold fetchAllOperations. destruct ps as [|p ps].
  - destruct Hlast as (last & Hl & Hr). simpl in Hl. rewrite Hl.
    destruct fuel; [lia|]. simpl. by rewrite Hr.
  - rewrite (Hh 0%nat p eq_refl). apply Forall_cons in HF as [[Hp Hn] HF].
    rewrite (fetch_loop_pages fuel 0 p (records p) ps); [done| |done|done|done| |].
    + simpl in Hf. lia.
    + intros j q Hj. apply (Hh (S j) q Hj).
    + exact Hlast.
Qed.
End Fetch.

(** ** Recognising a payment *)

Record transaction := Transaction {
  tx_hash : string;
  successful : option bool;
  inner_transaction : option string;
  memo_type : option string;
  tx_memo : option string;
  fee_paid : option string;
  created_at : string;
  ledger_attr : option Z;
  tx_ledger : option Z
}.

(** [tx.memo_type || 'none'] *)
Definition memoType_of (tx : transaction) : string := str_or (default "" tx.(memo_type)) "none".

Record credited := Credited { payOp : operation; opIndex : nat; c_amount : number; c_asset : delivered }.

Record valid_payment := ValidPayment {
  vp_operations : list credited; vp_memo : string; vp_memoType : string; vp_innerHash : option string
}.

Definition to_wallet (walletAddress : string) (op : operation) : bool :=
  isCreditableOpType op.(op_type) && bool_decide (op.(op_to) = Some walletAddress).

(** The operations that land on the wallet, with their index. *)
Definition wallet_operations (walletAddress : string) (ops : list operation) : list (nat * operation) :=
  List.filter (fun io => to_wallet walletAddress io.2) (imap (fun i op => (i, op)) ops).

Definition credit_of (io : nat * operation) : option credited :=
  match detectAsset io.2 with
  | None => None
  | Some a => Some (Credited io.2 io.1 (normalizeAmount (resolveCreditedAmount io.2)) a)
  end.

(** [fetched] is the answer of [fetchAllOperations]. *)
Definition extractValidPayment (fetched : result herror (list operation)) (tx : transaction)
  (walletAddress : string) : result herror (option valid_payment) :=
  if negb (bool_decide (tx.(successful) = Some true)) then Ok None else
  let memoType := memoType_of tx in
  if decide (memoType = "none") then Ok None else
  match normalizeMemoType (Some memoType) with
  | None => Ok None
  | Some _ =>
    match decodeMemoToCanonical tx.(tx_memo) (Some memoType) with
    | None => Ok None
    | Some memo =>
      ops ← fetched;
      match omap credit_of (wallet_operations walletAddress ops) with
      | [] => Ok None
      | creditable => Ok (Some (ValidPayment creditable memo memoType tx.(inner_transaction)))
      end
    end
  end.

(** ** The fee *)

Inductive fee_status := fs_underpaid | fs_overpaid | fs_valid | fs_unknown.

Record fee_validation := FeeValidation { fv_status : fee_status; fv_excess : number }.

Definition validatePaymentAgainstFee (paymentAmount expectedFee : number)
  : result amount_error fee_validation :=
  paidStroops ← toStroops (ANumber paymentAmount);
  feeStroops ← toStroops (ANumber expectedFee);
  Ok (if paidStroops <? feeStroops then FeeValidation fs_underpaid (of_Z 0)
      else if feeStroops <? paidStroops then FeeValidation fs_overpaid (stroopsToNumber (paidStroops - feeStroops))
      else FeeValidation fs_valid (of_Z 0)).

(** ** Verifying one transaction *)

Inductive verify_error :=
| HorizonError (e : herror) | TX_FAILED | INVALID_DESTINATION | UNSUPPORTED_ASSET (code : option string)
| MISSING_MEMO | UNSUPPORTED_MEMO_TYPE (t : string) | LimitError (v : PaymentLimits.verdict)
| TenantScopeError | AmountError (e : amount_error).

Record verified_op := VerifiedOp { vo_index : nat; vo_amount : number; vo_asset : delivered; vo_sender : option string }.

Record verified := Verified {
  v_hash : string; v_innerHash : option string; v_memo : string; v_amount : number;
  v_assetCode : option string; v_assetType : option string; v_feeAmount : option number;
  v_feeValidation : fee_validation; v_networkFee : number; v_date : string; v_ledger : option Z;
  v_sender : option string; v_operations : list verified_op
}.

(** [op.from || null] *)
Definition sender_of (op : operation) : option string :=
  match op.(op_from) with Some s => if str_truthy s then Some s else None | None => None end.

(** The loop over the wallet's operations: the first one in another asset
    throws. *)
Fixpoint verify_operations (l : list (nat * operation)) : result verify_error (list verified_op) :=
  match l with
  | [] => Ok []
  | (i, op) :: l' =>
    match detectAsset op with
    | None =>
      let d := resolveDeliveredAsset op in
      Throw (UNSUPPORTED_ASSET
        (if decide (d.(assetType) = Some "native") then Some "XLM"
         else if truthy_opt d.(assetCode) then d.(assetCode) else d.(assetType)))
    | Some a =>
      os ← verify_operations l';
      Ok (VerifiedOp i (normalizeAmount (resolveCreditedAmount op)) a (sender_of op) :: os)
    end
  end.

Definition verify_memo (tx : transaction) : result verify_error string :=
  let memoType := memoType_of tx in
  if decide (memoType = "none") then Throw MISSING_MEMO else
  match normalizeMemoType (Some memoType) with
  | None => Throw (UNSUPPORTED_MEMO_TYPE memoType)
  | Some t =>
    match decodeMemoToCanonical tx.(tx_memo) (Some memoType) with
    | None => if decide (t = "MEMO_TEXT") then Throw MISSING_MEMO else Throw (UNSUPPORTED_MEMO_TYPE memoType)
    | Some memo => Ok memo
    end
  end.

(** [parseFloat(operations.reduce((sum, o) => sum + o.amount, 0).toFixed(7))] *)
Definition total_amount (amounts : list number) : number :=
  let sum := fold_left num_add amounts (of_Z 0) in
  match toFixed sum DECIMALS with
  | Some t => parseFloat t
  | None => sum
  end.

Section Verify.
Context `{DL : DecimalLib}.
(** The limits' configuration and clock, and the students: [None] when the
    student does not exist, the fee otherwise. *)
Variables (env : PaymentLimits.limits) (ttl now : Z) (readable : bool).
Variable students : string -> string -> option number.

(** Each operation's amount against its own asset's limits. *)
Fixpoint verify_limits (schoolId : option string) (os : list verified_op) (s : PaymentLimits.service)
  : PaymentLimits.service * result verify_error unit :=
  match os with
  | [] => (s, Ok tt)
  | o :: os' =>
    let '(s', v) := PaymentLimits.validatePaymentAmount env ttl now readable
                      (Some o.(vo_amount)) schoolId o.(vo_asset).(assetCode) s in
    match v with
    | PaymentLimits.Valid => verify_limits schoolId os' s'
    | _ => (s', Throw (LimitError v))
    end
  end.

(** [Student.findOne(schoolId ? { schoolId, studentId } : { studentId })]: the
    model's tenant-scope hook throws when the filter has no [schoolId]. *)
Definition find_student_fee (schoolId : option string) (memo : string) : result verify_error (option number) :=
  match schoolId with
  | Some sid => if str_truthy sid then Ok (students sid memo) else Throw TenantScopeError
  | None => Throw TenantScopeError
  end.

Definition finish_verification (tx : transaction) (os : list verified_op) (memo : string) (amount : number)
  (schoolId : option string) : result verify_error verified :=
  feeAmount ← find_student_fee schoolId memo;
  fv ← match feeAmount with
       | Some f => match validatePaymentAgainstFee amount f with Ok v => Ok v | Throw e => Throw (AmountError e) end
       | None => Ok (FeeValidation fs_unknown (of_Z 0))
       end;
  let networkFee := num_div (parseFloat (chars (str_or (default "" tx.(fee_paid)) "0"))) (of_Z 10000000) in
  match os with
  | [] => Throw INVALID_DESTINATION
  | primary :: _ =>
    Ok (Verified tx.(tx_hash) tx.(inner_transaction) memo amount
         primary.(vo_asset).(assetCode) primary.(vo_asset).(assetType) feeAmount fv networkFee
         tx.(created_at) (numopt_or tx.(ledger_attr) (numopt_or tx.(tx_ledger) None))
         primary.(vo_sender) os)
  end.

(** [looked_up] and [fetched] are Horizon's answers for the transaction and
    its operations; without wallet-bound operations the code throws before it
    reads the first one. *)
Definition verifyTransaction (looked_up : result herror transaction) (fetched : result herror (list operation))
  (walletAddress : string) (schoolId : option string) (s : PaymentLimits.service)
  : PaymentLimits.service * result verify_error verified :=
  match looked_up with
  | Throw e => (s, Throw (HorizonError e))
  | Ok tx =>
    if bool_decide (tx.(successful) = Some false) then (s, Throw TX_FAILED) else
    match fetched with
    | Throw e => (s, Throw (HorizonError e))
    | Ok ops =>
      match wallet_operations walletAddress ops with
      | [] => (s, Throw INVALID_DESTINATION)
      | creditable =>
        match verify_operations creditable with
        | Throw e => (s, Throw e)
        | Ok os =>
          match verify_memo tx with
          | Throw e => (s, Throw e)
          | Ok memo =>
            let amount := total_amount (map vo_amount os) in
            let '(s', lim) := verify_limits schoolId os s in
            match lim with
            | Throw e => (s', Throw e)
            | Ok _ => (s', finish_verification tx os memo amount schoolId)
            end
          end
        end
      end
    end
  end.
End Verify.
End Sdk.
End Config.

Definition checkConfirmationStatus (CONFIRMATION_THRESHOLD latest txLedger : Z) : bool :=
  CONFIRMATION_THRESHOLD <=? latest - txLedger.

(** ** What is credited *)

(** An operation pays the wallet in the accepted asset: its type delivers
    funds, it lands on the wallet, and the asset delivered (for a path payment
    the destination's) is the configured one, from the pinned issuer. *)
Definition credits (c : asset) (w : string) (op : operation) : Prop :=
  let d := resolveDeliveredAsset op in
  op_type op ∈ CREDITABLE_OP_TYPES /\ op_to op = Some w /\
  assetCode d = Some (a_code c) /\ assetType d = a_type c /\
  (a_type c <> Some "native" -> assetIssuer d = a_issuer c /\ truthy_opt (a_issuer c) = true).

Definition sane_asset (c : asset) : Prop := a_type c <> None /\ a_code c <> "undefined".

Lemma delivered_issuer op : assetType (resolveDeliveredAsset op) = Some "native" ->
  assetIssuer (resolveDeliveredAsset op) = None.
Proof.
  unfold resolveDeliveredAsset, native_or. destruct (isPathPayment op); simpl; intros ->; by rewrite decide_True.
Qed.

Lemma detectAsset_spec c op : sane_asset c ->
  (exists d, detectAsset c op = Some d) <->
  (let d := resolveDeliveredAsset op in
   assetCode d = Some (a_code c) /\ assetType d = a_type c /\
   (a_type c <> Some "native" -> assetIssuer d = a_issuer c /\ truthy_opt (a_issuer c) = true)).
Proof.
  intros [Ht Hc]. cbv zeta. unfold detectAsset. split.
  - intros [d Hd]. destruct (isAcceptedAsset _ _ _ _) as [a|] eqn:E; [|done].
    apply isAcceptedAsset_iff in E as (-> & -> & -> & [[? ?]|(? & -> & ?)]); auto. naive_solver.
  - intros (H1 & H2 & H3). assert (isAcceptedAsset c (assetCode (resolveDeliveredAsset op))
      (assetType (resolveDeliveredAsset op)) (assetIssuer (resolveDeliveredAsset op)) = Ok c) as ->; [|eauto].
    apply isAcceptedAsset_iff; [done|done|]. repeat split; [done|done|].
    destruct (decide (a_type c = Some "native")) as [En|En].
    + left. split; [done|]. by rewrite delivered_issuer by congruence.
    + right. destruct (H3 En) as [-> ?]. done.
Qed.

Lemma wallet_operations_elem w ops i op :
  (i, op) ∈ wallet_operations w ops <-> ops !! i = Some op /\ op_type op ∈ CREDITABLE_OP_TYPES /\ op_to op = Some w.
Proof.
  unfold wallet_operations. rewrite elem_of_filterb. simpl. unfold to_wallet, isCreditableOpType.
  rewrite andb_true_iff, !bool_decide_eq_true. rewrite elem_of_lookup_imap. naive_solver.
Qed.

Lemma credit_of_spec `{StellarSdk} c i op cr :
  credit_of c (i, op) = Some cr <->
  exists d, detectAsset c op = Some d /\ cr = Credited op i (normalizeAmount (resolveCreditedAmount op)) d.
Proof. unfold credit_of; simpl. destruct (detectAsset c op); naive_solver. Qed.

(** Indices stay in ledger order. *)
Lemma imap_from_sorted (ops : list operation) k :
  Sorted lt (map fst (imap (fun i op => (k + i, op)%nat) ops)) /\
  Forall (fun x => k <= x)%nat (map fst (imap (fun i op => (k + i, op)%nat) ops)).
Proof.
  revert k. induction ops as [|op ops IH]; intros k; [split; constructor|]. simpl.
  rewrite (imap_ext _ (fun i op => (S k + i, op)%nat)) by (intros; simpl; f_equal; lia).
  destruct (IH (S k)) as [H1 H2]. rewrite Nat.add_0_r. split.
  - constructor; [done|]. destruct H2; constructor. lia.
  - constructor; [lia|]. eapply Forall_impl; [exact H2|]. simpl. lia.
Qed.

Lemma sorted_filter_omap {A B} (f : A -> nat) (g : B -> nat) (P : A -> bool) (h : A -> option B) l :
  (forall a b, h a = Some b -> g b = f a) ->
  StronglySorted lt (map f l) -> StronglySorted lt (map g (omap h (List.filter P l))).
Proof.
  intros Hg. induction l as [|a l IH]; intros Hs; [constructor|]. cbn [map] in Hs.
  apply StronglySorted_inv in Hs as [Hs Hf]. specialize (IH Hs). cbn [List.filter].
  destruct (P a); [|done]. cbn [omap list_omap]. destruct (h a) as [b|] eqn:E; [|done].
  cbn [map]. constructor; [done|]. rewrite (Hg a b E). rewrite Forall_forall in *. intros n Hn.
  apply list_elem_of_In, in_map_iff in Hn as (b' & <- & Hb). apply list_elem_of_In, list_elem_of_omap in Hb as (a' & Ha & E').
  rewrite (Hg a' b' E'). apply Hf. apply list_elem_of_In. apply in_map_iff. exists a'. split; [done|].
  apply elem_of_filterb in Ha as [_ Ha]. by apply list_elem_of_In.
Qed.

Section Credited.
Context `{SDK : StellarSdk} (c : asset) (Hc : sane_asset c).

(** C11: a transaction is recognised as a payment exactly when it succeeded,
    its memo decodes to a reference, and some operation pays the wallet in the
    accepted asset; then every such operation, and no other, is credited once,
    in ledger order, under its own index and with its own amount. *)
Theorem extract_credits_exactly ops tx w :
  match extractValidPayment c (Ok ops) tx w with
  | Ok (Some v) =>
      successful tx = Some true /\
      decodeMemoToCanonical (tx_memo tx) (Some (memoType_of tx)) = Some (vp_memo v) /\
      StronglySorted lt (map opIndex (vp_operations v)) /\
      (exists i op, ops !! i = Some op /\ credits c w op) /\
      (forall i op, ops !! i = Some op /\ credits c w op <->
         exists a, Credited op i (normalizeAmount (resolveCreditedAmount op)) a ∈ vp_operations v)
  | Ok None =>
      successful tx <> Some true \/
      decodeMemoToCanonical (tx_memo tx) (Some (memoType_of tx)) = None \/
      (forall i op, ops !! i = Some op -> ~ credits c w op)
  | Throw _ => False
  end.
Proof.
  assert (Hin : forall i op, ops !! i = Some op /\ credits c w op <->
     exists a, Credited op i (normalizeAmount (resolveCreditedAmount op)) a ∈ omap (credit_of c) (wallet_operations w ops)).
  { intros i op. unfold credits. cbv zeta. setoid_rewrite list_elem_of_omap. split.
    - intros (H1 & H2 & H3 & H4). apply (detectAsset_spec c op Hc) in H4 as [d Hd].
      exists d, (i, op). rewrite wallet_operations_elem, credit_of_spec. eauto 10.
    - intros (a & [j op'] & Hw & Hcr). apply credit_of_spec in Hcr as (d & Hd & E).
      simplify_eq. apply wallet_operations_elem in Hw as (? & ? & ?).
      split; [done|]. split; [done|]. split; [done|]. apply (detectAsset_spec c op' Hc). eauto. }
  unfold extractValidPayment. destruct (bool_decide (successful tx = Some true)) eqn:Es; cbn [negb].
  2: { left. by apply bool_decide_eq_false in Es. }
  apply bool_decide_eq_true in Es. destruct (decide (memoType_of tx = "none")) as [En|En].
  { right; left. rewrite En. destruct (tx_memo tx) as [[]|]; reflexivity. }
  destruct (normalizeMemoType (Some (memoType_of tx))) as [t|] eqn:Et.
  2: { right; left. unfold decodeMemoToCanonical. rewrite Et. by destruct (tx_memo tx) as [[]|]. }
  destruct (decodeMemoToCanonical _ _) as [memo|] eqn:Ed; [|auto].
  cbn [mbind result_bind]. destruct (omap (credit_of c) (wallet_operations w ops)) as [|cr crs] eqn:Eo.
  - right; right. intros i op H1 H2. destruct (proj1 (Hin i op) (conj H1 H2)) as [a Ha].
    by apply elem_of_nil in Ha.
  - cbn [mbind result_bind vp_operations vp_memo]. split; [done|]. split; [done|].
    assert (Hcr : cr ∈ omap (credit_of c) (wallet_operations w ops)) by (rewrite Eo; left).
    rewrite <- Eo in *. clear crs Eo.
    split; [|split; [|done]].
    + unfold wallet_operations. apply (sorted_filter_omap fst).
      * intros [i op] b Hb. apply credit_of_spec in Hb as (? & _ & ->). done.
      * apply Sorted_StronglySorted; [intros ???; lia|]. apply (imap_from_sorted ops 0).
    + apply list_elem_of_omap in Hcr as ([i op] & Hw & Hcr). pose proof Hcr as Hcr'.
      apply credit_of_spec in Hcr' as (d & Hd & ->). exists i, op. apply Hin. exists d.
      apply list_elem_of_omap. eauto.
Qed.

(** ** Amounts are exact *)

Lemma Zfrac z : (z # 10000000 == inject_Z z * (1 # 10000000))%Q.
Proof. unfold Qeq; simpl. lia. Qed.

Lemma normalize_product z r : 0 <= z < 2 ^ 50 ->
  (Qabs (r - (z # 10000000)) <= (1 # 2) * Qpower 2 (27 - 53))%Q -> (0 <= r)%Q ->
  num_round (num_mul (Fin r) (of_Z 10000000)) = of_Z z.
Proof.
  intros Hz Hr Hr0. apply Qabs_Qle_condition in Hr as [Hlo Hhi]. rewrite Zfrac in Hlo, Hhi.
  assert (Hb : ((1 # 2) * Qpower 2 (27 - 53) <= 1 # 134217728)%Q) by (vm_compute; discriminate).
  assert (Hzq : (0 <= inject_Z z <= 1125899906842624)%Q) by (split; unfold Qle; simpl; lia).
  change (num_mul (Fin r) (of_Z 10000000)) with (to_double (r * 10000000)).
  assert (Hp : (0 <= r * 10000000 <= inject_Z z + (1 # 12))%Q).
  { split; [apply Qmult_le_0_compat; [done|discriminate]|lra]. }
  destruct (to_double_near (r * 10000000) 51) as (p & -> & Hpe & _); [lia| |].
  { rewrite Qabs_pos by apply Hp. change (Qpower 2 51) with 2251799813685248%Q. lra. }
  apply Qabs_Qle_condition in Hpe as [Hpl Hph].
  assert (Hb2 : ((1 # 2) * Qpower 2 (51 - 53) <= 1 # 8)%Q) by (vm_compute; discriminate).
  cbn [num_round]. unfold of_Z. do 2 f_equal. apply Qfloor_unique; [lra|].
  rewrite inject_Z_plus. change (inject_Z 1) with 1%Q. lra.
Qed.

Lemma fromStroops_parse z : parseFloat (chars (fromStroops z)) = to_double (z # 10000000).
Proof. apply stroopsToNumber_nearest. Qed.

Lemma normalizeAmount_nearest z : 0 <= z < 2 ^ 50 ->
  normalizeAmount (Some (fromStroops z)) = stroopsToNumber z.
Proof.
  intros Hz. unfold normalizeAmount. rewrite fromStroops_parse.
  destruct (to_double_near (z # 10000000) 27) as (r & -> & He & H0); [lia| |].
  { rewrite Zfrac, Qabs_pos.
    - assert (inject_Z z <= 1125899906842624)%Q by (unfold Qle; simpl; lia). change (Qpower 2 27) with 134217728%Q. lra.
    - assert (0 <= inject_Z z)%Q by (unfold Qle; simpl; lia). lra. }
  rewrite (normalize_product z r Hz He); [|apply H0; unfold Qle; simpl; lia].
  unfold integer_text, of_Z. by rewrite Qfloor_Z, fromXDRAmount_stroops.
Qed.

(** C25: the amount credited for an operation is exact: below 2^50 stroops
    (over a hundred million units) the number recorded for the ledger's text
    of z stroops converts back to exactly z stroops. The SDK's formatter of
    integer stroop counts is assumed to print them with seven decimals, as it
    documents. *)
Theorem credited_amount_exact z : 0 <= z < 2 ^ 50 ->
  toStroops (ANumber (normalizeAmount (Some (fromStroops z)))) = Ok z.
Proof.
  intros Hz. rewrite normalizeAmount_nearest by done. rewrite stroopsToNumber_nearest.
  destruct (to_double_fin (z # 10000000)) as (r & -> & Herr & Hr).
  { unfold Qlt, Qabs; simpl. lia. }
  rewrite toStroops_number; [by rewrite (toFixed_int_close r z)|].
  eapply Qlt_trans; [exact Hr|reflexivity].
Qed.
End Credited.

(** *** Sums of several operations *)

Definition sum_stroops (zs : list Z) : Z := foldr Z.add 0 zs.

Lemma sum_stroops_nonneg zs : Forall (fun z => 0 <= z) zs -> 0 <= sum_stroops zs.
Proof. induction 1; simpl; lia. Qed.

(** After k additions the running sum is within k times 2^-32 of the exact one. *)
Lemma fold_sum_error zs : forall acc k s,
  Forall (fun z => 0 <= z) zs -> 0 <= s -> s + sum_stroops zs < 2 ^ 20 * 10000000 -> (Z.of_nat (k + length zs) <= 100) ->
  (Qabs (acc - (s # 10000000)) <= inject_Z (Z.of_nat k) * (1 # 4294967296))%Q ->
  exists r, fold_left num_add (map stroopsToNumber zs) (Fin acc) = Fin r /\
    (Qabs (r - (s + sum_stroops zs # 10000000)) <= inject_Z (Z.of_nat (k + length zs)) * (1 # 4294967296))%Q.
Proof.
  induction zs as [|z zs IH]; intros acc k s Hzs Hs Hb Hl Hacc.
  { exists acc. simpl. rewrite Z.add_0_r, Nat.add_0_r. done. }
  apply Forall_cons in Hzs as [Hz Hzs]. cbn [sum_stroops foldr] in Hb. fold (sum_stroops zs) in Hb.
  pose proof (sum_stroops_nonneg zs Hzs) as Hnn. cbn [map fold_left]. rewrite stroopsToNumber_nearest.
  assert (Hzq : (0 <= inject_Z z <= 10485760000000)%Q) by (split; unfold Qle; simpl; lia).
  assert (Hsq : (0 <= inject_Z s)%Q) by (unfold Qle; simpl; lia).
  assert (Hszq : (inject_Z s + inject_Z z <= 10485760000000)%Q).
  { rewrite <- inject_Z_plus. unfold Qle; simpl. lia. }
  assert (Hkq : (0 <= inject_Z (Z.of_nat k) <= 100)%Q).
  { simpl in Hl. split; unfold Qle; simpl; lia. }
  destruct (to_double_near (z # 10000000) 20) as (a & -> & Ha & Ha0); [lia| |].
  { rewrite Zfrac, Qabs_pos by lra. change (Qpower 2 20) with 1048576%Q.
    assert (inject_Z z < 10485760000000)%Q by (unfold Qlt; simpl; lia). lra. }
  apply Qabs_Qle_condition in Ha as [Hal Hah]. apply Qabs_Qle_condition in Hacc as [Hcl Hch].
  rewrite Zfrac in *.
  assert (Hp1 : ((1 # 2) * Qpower 2 (20 - 53) == 1 # 17179869184)%Q) by reflexivity.
  rewrite Hp1 in Hal, Hah.
  change (num_add (Fin acc) (Fin a)) with (to_double (acc + a)).
  destruct (to_double_near (acc + a) 21) as (b & -> & Hbe & _); [lia| |].
  { change (Qpower 2 21) with 2097152%Q. apply Qabs_Qlt_condition. split; lra. }
  apply Qabs_Qle_condition in Hbe as [Hbl Hbh].
  assert (Hp2 : ((1 # 2) * Qpower 2 (21 - 53) == 1 # 8589934592)%Q) by reflexivity.
  rewrite Hp2 in Hbl, Hbh.
  destruct (IH b (S k) (s + z)) as (r & Hr & Her); [done|lia| |simpl in *; lia| |].
  { cbn [sum_stroops foldr] in Hb. lia. }
  { rewrite Zfrac, inject_Z_plus. rewrite Nat2Z.inj_succ, <- Z.add_1_r, inject_Z_plus.
    change (inject_Z 1) with 1%Q. apply Qabs_Qle_condition. split; lra. }
  exists r. split; [done|]. cbn [sum_stroops foldr length]. fold (sum_stroops zs).
  rewrite Z.add_assoc, Nat.add_succ_r. exact Her.
Qed.

Lemma toFixed_parse q : (Qabs q < inject_Z (10 ^ 21))%Q ->
  exists t, toFixed (Fin q) DECIMALS = Some t /\ parseFloat t = to_double (toFixed_int q 7 # 10000000).
Proof.
  intros Hq. unfold toFixed. destruct (Qle_bool _ _) eqn:E; [apply Qle_bool_iff in E; lra|].
  eexists. split; [reflexivity|]. change (Z.of_nat DECIMALS) with 7. cbv zeta.
  change (DECIMALS =? 0)%nat with false. cbv iota. change (10 ^ 7) with STROOPS_PER_UNIT.
  set (n := Z.abs (toFixed_int q 7)).
  transitivity (parseFloat (decimal_text (Qnum q <? 0) (dec_digits (n / STROOPS_PER_UNIT))
                  (pad_digits DECIMALS (n mod STROOPS_PER_UNIT)))).
  { unfold decimal_text. by destruct (Qnum q <? 0). }
  rewrite parseFloat_decimal; [|apply dec_digits_digits|apply pad_digits_digits|apply dec_digits_nonempty].
  rewrite digits_val_app, pad_digits_length.
  rewrite dec_digits_val by (apply Z.div_pos; unfold n, STROOPS_PER_UNIT; lia).
  rewrite pad_digits_val by (apply Z.mod_pos_bound; unfold STROOPS_PER_UNIT; lia).
  change (10 ^ Z.of_nat DECIMALS) with STROOPS_PER_UNIT.
  pose proof (Z.div_mod n STROOPS_PER_UNIT ltac:(unfold STROOPS_PER_UNIT; lia)) as Hd.
  rewrite Z.mul_comm, <- Hd. change (Z.to_pos STROOPS_PER_UNIT) with 10000000%positive.
  do 2 f_equal. unfold n, toFixed_int.
  assert (0 <= Qfloor (Qabs q * inject_Z (10 ^ 7) + (1 # 2))).
  { apply (Qfloor_resp_le 0). pose proof (Qabs_nonneg q).
    assert (0 <= inject_Z (10 ^ 7))%Q by discriminate. nra. }
  destruct (Qnum q <? 0); lia.
Qed.

(** The amount of a transaction with several operations is exact too: up
    to a hundred operations (the ledger's own limit) that together pay less
    than 2^20 units, adding the recorded numbers and rounding to seven places
    gives the number of the exact stroop total. *)
Theorem transaction_total_exact zs :
  Forall (fun z => 0 <= z) zs -> Z.of_nat (length zs) <= 100 -> sum_stroops zs < 2 ^ 20 * 10000000 ->
  total_amount (map stroopsToNumber zs) = stroopsToNumber (sum_stroops zs).
Proof.
  intros Hzs Hl Hb. unfold total_amount.
  destruct (fold_sum_error zs 0 0 0) as (r & Hr & He); [done|lia|lia|done|vm_compute; discriminate|].
  change (of_Z 0) with (Fin 0). rewrite Hr. simpl in He.
  assert (Hlq : (inject_Z (Z.of_nat (length zs)) <= 100)%Q) by (unfold Qle; simpl; lia).
  assert (Hc : (Qabs (r - (sum_stroops zs # 10000000)) <= 1 # 33000000)%Q).
  { eapply Qle_trans; [exact He|]. lra. }
  pose proof (sum_stroops_nonneg zs Hzs) as Hnn.
  assert (Hi : toFixed_int r 7 = sum_stroops zs) by by apply toFixed_int_close.
  assert (Hr21 : (Qabs r < inject_Z (10 ^ 21))%Q).
  { apply Qabs_Qle_condition in Hc as [Hlo Hhi]. rewrite Zfrac in Hlo, Hhi.
    assert (0 <= inject_Z (sum_stroops zs) <= 10485760000000)%Q by (split; unfold Qle; simpl; lia).
    change (inject_Z (10 ^ 21)) with 1000000000000000000000%Q. apply Qabs_Qlt_condition. split; lra. }
  destruct (toFixed_parse r Hr21) as (t & -> & ->). by rewrite Hi, stroopsToNumber_nearest.
Qed.


(** ** Polling and verification agree *)

Section Agreement.
Context `{SDK : StellarSdk} `{DL : DecimalLib}.
Variables (c : asset) (env : PaymentLimits.limits) (ttl now : Z) (readable : bool).
Variable students : string -> string -> option number.

Definition credit_key (cr : credited) : nat * number * delivered := (opIndex cr, c_amount cr, c_asset cr).
Definition verified_key (o : verified_op) : nat * number * delivered := (vo_index o, vo_amount o, vo_asset o).

Lemma verify_operations_credits l os : verify_operations c l = Ok os ->
  map verified_key os = map credit_key (omap (credit_of c) l) /\ (l <> [] -> os <> []).
Proof.
  revert os. induction l as [|[i op] l IH]; intros os H; simpl in H; [by simplify_eq|].
  destruct (detectAsset c op) as [a|] eqn:Ea; [|done].
  apply bind_Ok in H as (os' & Hl & [= <-]). destruct (IH os' Hl) as [E _].
  cbn [omap list_omap credit_of snd fst]. unfold credit_of; cbn [snd fst]. rewrite Ea. simpl.
  split; [|done]. rewrite E. done.
Qed.

Lemma verify_memo_decodes tx memo : verify_memo tx = Ok memo ->
  memoType_of tx <> "none" /\ (exists t, normalizeMemoType (Some (memoType_of tx)) = Some t) /\
  decodeMemoToCanonical (tx_memo tx) (Some (memoType_of tx)) = Some memo.
Proof.
  unfold verify_memo. destruct (decide _); [done|]. destruct (normalizeMemoType _) as [t|]; [|done].
  destruct (decodeMemoToCanonical _ _); [|by destruct (decide _)]. intros [= ->]. eauto.
Qed.

Lemma finish_fields tx os memo amount sid v :
  finish_verification students tx os memo amount sid = Ok v ->
  v_memo v = memo /\ v_operations v = os /\ v_amount v = amount /\
  exists s, sid = Some s /\ s <> "" /\ v_feeAmount v = students s memo.
Proof.
  unfold finish_verification. intros H. apply bind_Ok in H as (f & Hf & H). apply bind_Ok in H as (fv & _ & H).
  destruct os as [|o os]; [done|]. injection H as <-. simpl. repeat (split; [done|]).
  unfold find_student_fee in Hf. destruct sid as [s|]; [|done]. exists s. destruct s; [done|]. simpl in Hf. by simplify_eq.
Qed.

(** C16: the two ways a payment enters the system agree, but for a missing
    success flag.  Whenever verifying a transaction by hash succeeds, the
    transaction is not marked failed; and polling recognises it, with the same
    memo and the same operations, indices, amounts and assets, whose total is
    the verified amount, exactly when the transaction is marked successful (a
    transaction without the flag is verified and passed over by polling). *)
Theorem verification_agrees_with_polling tx ops w sid s s' v :
  verifyTransaction c env ttl now readable students (Ok tx) (Ok ops) w sid s = (s', Ok v) ->
  successful tx <> Some false /\
  exists e, extractValidPayment c (Ok ops) tx w = Ok (if bool_decide (successful tx = Some true) then Some e else None) /\
    vp_memo e = v_memo v /\
    map credit_key (vp_operations e) = map verified_key (v_operations v) /\
    v_amount v = total_amount (map c_amount (vp_operations e)).
Proof.
  intros H. unfold verifyTransaction in H. destruct (bool_decide (successful tx = Some false)) eqn:Hf; [done|].
  apply bool_decide_eq_false in Hf. split; [done|].
  destruct (wallet_operations w ops) as [|io l] eqn:Ew; [done|].
  destruct (verify_operations c (io :: l)) as [os|] eqn:Eo; [|done].
  destruct (verify_memo tx) as [memo|] eqn:Em; [|done].
  destruct (verify_limits _ _ _ _ _ _ _) as [s1 [[]|]]; [|done].
  injection H as <- H. apply finish_fields in H as (Hmemo & Hops & Ham & _).
  apply verify_memo_decodes in Em as (Hn & [t Ht] & Hd).
  apply verify_operations_credits in Eo as [Ek Hne]. specialize (Hne ltac:(done)).
  unfold extractValidPayment.
  destruct (omap (credit_of c) (io :: l)) as [|cr crs] eqn:Ec.
  { destruct os; simpl in Ek; done. }
  exists (ValidPayment (cr :: crs) memo (memoType_of tx) (inner_transaction tx)). split.
  { destruct (bool_decide (successful tx = Some true)); cbn [negb]; [|done].
    rewrite decide_False by done. rewrite Ht, Hd. cbn [mbind result_bind]. by rewrite Ew, Ec. }
  cbn [vp_memo vp_operations]. split; [done|]. split; [by rewrite Hops|]. rewrite Ham. f_equal.
  transitivity (map (fun k => k.1.2) (map verified_key os)); [by rewrite map_map|].
  rewrite Ek, map_map. done.
Qed.

(** Verifying without a school never succeeds, whatever the transaction: the
    student lookup is refused by the model's tenant scope. *)
Theorem verification_needs_school looked fetched w s s' r :
  verifyTransaction c env ttl now readable students looked fetched w None s = (s', r) -> forall v, r <> Ok v.
Proof.
  intros H v ->. unfold verifyTransaction in H.
  destruct looked as [tx|]; [|done]. destruct (bool_decide _); [done|].
  destruct fetched as [ops|]; [|done]. destruct (wallet_operations w ops); [done|].
  destruct (verify_operations _ _); [|done]. destruct (verify_memo tx); [|done].
  destruct (verify_limits _ _ _ _ _ _ _) as [s1 [[]|]]; [|done].
  injection H as _ H. by apply finish_fields in H as (_ & _ & _ & ? & ? & _).
Qed.
End Agreement.

(** On recorded amounts the fee check is integer comparison of stroops. *)
Theorem fee_check_exact zp zf : 0 <= zp < 2 ^ 29 * STROOPS_PER_UNIT -> 0 <= zf < 2 ^ 29 * STROOPS_PER_UNIT ->
  validatePaymentAgainstFee (stroopsToNumber zp) (stroopsToNumber zf) =
  Ok (match zp ?= zf with
      | Lt => FeeValidation fs_underpaid (of_Z 0)
      | Gt => FeeValidation fs_overpaid (stroopsToNumber (zp - zf))
      | Eq => FeeValidation fs_valid (of_Z 0)
      end).
Proof.
  intros Hp Hf. unfold validatePaymentAgainstFee.
  assert (Hn : forall z, 0 <= z < 2 ^ 29 * STROOPS_PER_UNIT -> toStroops (ANumber (stroopsToNumber z)) = Ok z).
  { intros z Hz. rewrite stroopsToNumber_nearest. destruct (to_double_fin (z # 10000000)) as (r & -> & He & Hr).
    { unfold STROOPS_PER_UNIT in Hz. unfold Qlt, Qabs; simpl. lia. }
    rewrite toStroops_number; [by rewrite (toFixed_int_close r z)|]. eapply Qlt_trans; [exact Hr|reflexivity]. }
  rewrite !Hn by done. simpl. destruct (Z.compare_spec zp zf); zbool.
Qed.

(** The confirmation test is the state machine's: for a payment with a ledger
    and no suspicion, it holds exactly from the confirmed state on. *)
Theorem confirmation_check_matches_states ct ft latest ledger :
  0 < ledger -> 0 < latest -> ct <= ft -> 0 <= ct ->
  checkConfirmationStatus ct latest ledger =
  Confirmation.isConfirmedOrAbove (Confirmation.computeTargetState (Some ledger) (Some latest) false ct ft).
Proof.
  intros Hl Hs Hc H0. unfold checkConfirmationStatus, Confirmation.computeTargetState, Confirmation.isConfirmedOrAbove.
  unfold Confirmation.falsy_ledger. simpl. repeat (case_match; zbool); simpl in *; zbool; try congruence.
Qed.

(** ** An instance of the SDK's formatter *)

Definition xdr_format (s : string) : string :=
  let l := chars s in
  if starts_with ["-"%char] l then fromStroops (- digits_val (tail l)) else fromStroops (digits_val l).

#[refine] Instance exact_sdk : StellarSdk := {| _fromXDRAmount := xdr_format |}.
Proof.
  intros z. unfold xdr_format, Z_to_string. rewrite chars_text. unfold Z_text.
  destruct (Z.ltb_spec z 0) as [Hz|Hz].
  - cbn [starts_with tail]. change (Ascii.eqb "-" "-") with true. cbn [andb]. rewrite dec_digits_val by lia. f_equal. lia.
  - destruct (dec_digits z) as [|d ds] eqn:E; [by apply dec_digits_nonempty in E|].
    pose proof (dec_digits_digits z) as Hd. rewrite E in Hd. apply Forall_cons in Hd as [Hd _].
    rewrite digit_not_minus by done. rewrite <- E, dec_digits_val by lia. done.
Defined.


(** ** Fraud checks *)

(** A stored payment, the fields the checks filter on; times in milliseconds. *)
Record stored := Stored {
  st_schoolId : string; st_memo : option string; st_studentId : string; st_sender : option string;
  st_confirmedAt : option Z; st_live : bool; st_suspicious : bool; st_amount : number
}.

Inductive suspicion :=
| MemoOtherSender (memo sender : string) | MemoOtherSchool (memo school : string)
| RapidTransactions (sender : string) (count : Z) | UnusualByHistory (zScore : number)
| UnusualByRatio (ratio : number).

Definition COLLISION_WINDOW_MS : Z := 24 * 60 * 60 * 1000.

Definition since (windowStart : Z) (p : stored) : bool :=
  match p.(st_confirmedAt) with Some t => windowStart <=? t | None => false end.

(** [senderAddress: { $nin: [senderAddress, null], $exists: true }] *)
Definition other_sender (senderAddress : option string) (p : stored) : bool :=
  match p.(st_sender) with Some s => negb (bool_decide (Some s = senderAddress)) | None => false end.

Definition detectMemoCollision (memo : string) (senderAddress : option string) (txDate : Z) (schoolId : string)
  (payments : list stored) : option suspicion :=
  let windowStart := txDate - COLLISION_WINDOW_MS in
  match List.find (fun p => bool_decide (p.(st_schoolId) = schoolId) && bool_decide (p.(st_memo) = Some memo)
                         && other_sender senderAddress p && since windowStart p && p.(st_live)) payments with
  | Some p => Some (MemoOtherSender memo (default "" p.(st_sender)))
  | None => None
  end.

Definition detectCrossSchoolMemoCollision (memo schoolId : string) (txDate : Z) (payments : list stored)
  : option suspicion :=
  let windowStart := txDate - COLLISION_WINDOW_MS in
  match List.find (fun p => negb (bool_decide (p.(st_schoolId) = schoolId)) && bool_decide (p.(st_studentId) = memo)
                         && since windowStart p && p.(st_live)) payments with
  | Some p => Some (MemoOtherSchool memo p.(st_schoolId))
  | None => None
  end.

Record amount_stats := Stats { count : Z; mean : number; std : number }.

Record amount_config := AmountConfig {
  mode : string; historicalWindowDays : Z; historicalStdDevMultiplier : number; historicalMinSamples : Z
}.

Section Abnormal.
(** MongoDB's [$avg] and [$stdDevPop] over the matched amounts. *)
Variables mongo_avg mongo_std : list number -> number.

Definition computeHistoricalAmountStats (nowMs : Z) (schoolId : string) (windowDays : Z) (payments : list stored)
  : amount_stats :=
  let windowStart := nowMs - windowDays * 24 * 60 * 60 * 1000 in
  let rows := List.filter (fun p => bool_decide (p.(st_schoolId) = schoolId) && negb p.(st_suspicious) && p.(st_live)
                               && since windowStart p && num_gt p.(st_amount) (of_Z 0)) payments in
  let amounts := map st_amount rows in
  match rows with
  | [] => Stats 0 (of_Z 0) (of_Z 0)
  | _ => Stats (Z.of_nat (length rows)) (num_or (mongo_avg amounts) (of_Z 0)) (num_or (mongo_std amounts) (of_Z 0))
  end.

Definition RAPID_TX_WINDOW_MS : Z := 10 * 60 * 1000.
Definition RAPID_TX_LIMIT : Z := 3.

Definition velocity_check (senderAddress : option string) (txDate : Z) (schoolId : string) (payments : list stored)
  : list suspicion :=
  match senderAddress with
  | Some s =>
    if str_truthy s then
      let recentCount := Z.of_nat (length (List.filter (fun p =>
        bool_decide (p.(st_schoolId) = schoolId) && bool_decide (p.(st_sender) = Some s)
        && since (txDate - RAPID_TX_WINDOW_MS) p && p.(st_live)) payments)) in
      if RAPID_TX_LIMIT <=? recentCount then [RapidTransactions s (recentCount + 1)] else []
    else []
  | None => []
  end.

(** Whether the historical test applied, and what it found.  [readable] is
    false when the aggregation throws, which falls back to the multiplier. *)
Definition historical_check (nowMs : Z) (readable : bool) (paymentAmount : number) (schoolId : string)
  (cfg : option amount_config) (payments : list stored) : bool * list suspicion :=
  match cfg with
  | Some k =>
    if bool_decide (k.(mode) = "historical") && str_truthy schoolId && readable then
      let windowDays := if k.(historicalWindowDays) =? 0 then 90 else k.(historicalWindowDays) in
      let stdMultiplier := num_or k.(historicalStdDevMultiplier) (of_Z 3) in
      let minSamples := if k.(historicalMinSamples) =? 0 then 20 else k.(historicalMinSamples) in
      let st := computeHistoricalAmountStats nowMs schoolId windowDays payments in
      if (minSamples <=? st.(count)) && num_gt st.(std) (of_Z 0) then
        let zScore := num_div (num_abs (num_sub paymentAmount st.(mean))) st.(std) in
        (true, if num_ge zScore stdMultiplier then [UnusualByHistory zScore] else [])
      else (false, [])
    else (false, [])
  | None => (false, [])
  end.

Definition multiplier_check (paymentAmount expectedFee multiplier : number) : list suspicion :=
  if num_truthy expectedFee && num_gt expectedFee (of_Z 0) then
    let ratio := num_div paymentAmount expectedFee in
    let lowerThreshold := num_div (of_Z 1) multiplier in
    let lowerBoundExclusive := num_lt (num_abs (num_sub multiplier (of_Z 5))) (to_double (1 # 100)) in
    if num_ge ratio multiplier || (if lowerBoundExclusive then num_lt ratio lowerThreshold else num_le ratio lowerThreshold)
    then [UnusualByRatio ratio] else []
  else [].

Definition detectAbnormalPatterns (nowMs : Z) (readable : bool) (senderAddress : option string)
  (paymentAmount expectedFee : number) (txDate : Z) (schoolId : string) (multiplier : number)
  (cfg : option amount_config) (payments : list stored) : list suspicion :=
  let v := velocity_check senderAddress txDate schoolId payments in
  let '(applied, h) := historical_check nowMs readable paymentAmount schoolId cfg payments in
  v ++ h ++ (if applied then [] else multiplier_check paymentAmount expectedFee multiplier).

Lemma div_self q : ~ (q == 0)%Q -> num_div (Fin q) (Fin q) = of_Z 1.
Proof.
  intros Hq. unfold num_div. assert ((Qnum q =? 0) = false) as ->.
  { apply Z.eqb_neq. intros E. apply Hq. unfold Qeq. simpl. lia. }
  apply to_double_int; [done|]. by field_simplify_eq.
Qed.

Lemma reciprocal_below_one m : (2 <= m)%Q -> exists r, num_div (of_Z 1) (Fin m) = Fin r /\ (r < 1)%Q.
Proof.
  intros Hm. unfold num_div, of_Z. assert ((Qnum m =? 0) = false) as ->.
  { apply Z.eqb_neq. intros E. unfold Qle in Hm. simpl in Hm. lia. }
  assert (Hi : (0 < 1 / m <= 1 # 2)%Q).
  { split; [apply Qlt_shift_div_l; lra|apply Qle_shift_div_r; lra]. }
  change (inject_Z 1) with 1%Q.
  destruct (to_double_near (1 / m) 0) as (r & -> & He & _); [lia| |].
  { change (Qpower 2 0) with 1%Q. rewrite Qabs_pos; lra. }
  exists r. split; [done|]. apply Qabs_Qle_condition in He as [_ He].
  assert ((1 # 2) * Qpower 2 (0 - 53) < 1 # 2)%Q by reflexivity. lra.
Qed.

(** A payment of exactly the fee is never unusual: whatever positive fee
    and multiplier of at least two a school has, the ratio test does not flag
    it, so without a burst from its sender or a historical test it raises no
    suspicion. *)
Theorem paying_the_fee_is_not_unusual nowMs readable sender fee m txDate sid payments :
  (0 < fee)%Q -> (2 <= m)%Q -> velocity_check sender txDate sid payments = [] ->
  detectAbnormalPatterns nowMs readable sender (Fin fee) (Fin fee) txDate sid (Fin m) None payments = [].
Proof.
  intros Hf Hm Hv. unfold detectAbnormalPatterns. rewrite Hv. simpl historical_check. cbn [app].
  unfold multiplier_check. destruct (_ && _); [|done]. rewrite div_self by lra.
  destruct (reciprocal_below_one m Hm) as (r & -> & Hr).
  assert (num_ge (of_Z 1) (Fin m) = false) as ->.
  { unfold num_ge, num_le, of_Z. destruct (Qle_bool _ _) eqn:E; [|done]. apply Qle_bool_iff in E. change (inject_Z 1) with 1%Q in E. lra. }
  assert (num_lt (of_Z 1) (Fin r) = false /\ num_le (of_Z 1) (Fin r) = false) as [E1 E2].
  { unfold num_lt, num_le, of_Z, Qltb. change (inject_Z 1) with 1%Q.
    destruct (Qle_bool r 1) eqn:A; destruct (Qle_bool 1 r) eqn:B; try done.
    all: try (apply Qle_bool_iff in B; lra).
    exfalso. assert (Qle_bool r 1 = true) by (apply Qle_bool_iff; lra). congruence. }
  rewrite E1, E2. by destruct (num_lt (num_abs _) _).
Qed.
End Abnormal.

(** The sender's own earlier payments never make a memo collision, another
    sender's within a day does. *)
Lemma memo_collision_iff memo sender txDate sid payments :
  detectMemoCollision memo sender txDate sid payments <> None <->
  exists p s t, p ∈ payments /\ st_schoolId p = sid /\ st_memo p = Some memo /\ st_sender p = Some s /\
    Some s <> sender /\ st_confirmedAt p = Some t /\ txDate - COLLISION_WINDOW_MS <= t /\ st_live p = true.
Proof.
  unfold detectMemoCollision. split.
  - destruct (List.find _ _) as [p|] eqn:E; [|done]. intros _.
    apply find_exists in E as [Hp H]. repeat rewrite andb_true_iff in H.
    destruct H as ((((H1 & H2) & H3) & H4) & H5). unfold other_sender in H3. unfold since in H4.
    destruct (st_sender p) as [s|] eqn:Es; [|done]. destruct (st_confirmedAt p) as [t|] eqn:Et; [|done].
    apply bool_decide_eq_true in H1, H2. apply negb_true_iff, bool_decide_eq_false in H3. apply Z.leb_le in H4.
    exists p, s, t. done.
  - intros (p & s & t & Hp & H1 & H2 & H3 & H4 & H5 & H6 & H7). destruct (List.find _ _) eqn:E; [done|].
    apply (find_none_forall _ _ E) in Hp. unfold other_sender, since in Hp. rewrite H3, H5, H7 in Hp.
    rewrite !bool_decide_true in Hp by done. rewrite bool_decide_false in Hp by done.
    rewrite (proj2 (Z.leb_le _ _) H6) in Hp. done.
Qed.


(** ** Instances of the properties *)

Definition xlm : asset := Asset "XLM" (Some "native") None.
Definition pay_op (to : string) (amt : string) : operation :=
  Operation "payment" (Some to) (Some "GPARENT") (Some "native") None None (Some amt) None None None None.
Definition tx0 : transaction :=
  Transaction "h" (Some true) None (Some "text") (Some "A3F91B2C") None "now" None (Some 7).

Lemma xlm_sane : sane_asset xlm.
Proof. split; discriminate. Qed.

Lemma fetch_reads_every_page_witness :
  let ps := [Page [pay_op "GW" "1.0"] true; Page [pay_op "GW" "2.0"; pay_op "GX" "3.0"] true] in
  let horizon k := Ok (Some (default (Page [] true) (ps !! k))) in
  fetchAllOperations horizon 3 = Some (Ok (concat (map records ps))).
Proof.
  cbv zeta.
  refine (fetch_reads_every_page _ [Page [pay_op "GW" "1.0"] true; Page [pay_op "GW" "2.0"; pay_op "GX" "3.0"] true] 3 _ _);
    [|simpl; lia].
  split; [repeat constructor; discriminate|]. split; [|by exists (Page [] true)].
  intros k p Hk. by rewrite Hk.
Defined.

Lemma extract_credits_exactly_witness :
  exists i op, [pay_op "GX" "3.0"; pay_op "GW" "1.5"] !! i = Some op /\ credits xlm "GW" op.
Proof.
  pose proof (extract_credits_exactly (SDK := exact_sdk) xlm xlm_sane
                [pay_op "GX" "3.0"; pay_op "GW" "1.5"] tx0 "GW") as H.
  destruct (extractValidPayment xlm (Ok [pay_op "GX" "3.0"; pay_op "GW" "1.5"]) tx0 "GW") as [[v|]|] eqn:E.
  - exact (proj1 (proj2 (proj2 (proj2 H)))).
  - vm_compute in E. discriminate.
  - destruct H.
Defined.

Lemma credited_amount_exact_witness :
  toStroops (ANumber (normalizeAmount (SDK := exact_sdk) (Some (fromStroops (2 ^ 50 - 1))))) = Ok (2 ^ 50 - 1).
Proof. refine (credited_amount_exact (SDK := exact_sdk) (2 ^ 50 - 1) _). lia. Defined.

Lemma transaction_total_exact_witness :
  total_amount (map stroopsToNumber [1000000; 2000000; 3000000]) = stroopsToNumber 6000000.
Proof. refine (transaction_total_exact [1000000; 2000000; 3000000] _ _ _); [repeat constructor; lia|simpl; lia|simpl; lia]. Defined.

Lemma verification_agrees_with_polling_witness :
  let ops := [pay_op "GW" "1.5"] in
  exists e, extractValidPayment (SDK := exact_sdk) xlm (Ok ops) tx0 "GW" = Ok (Some e) /\ vp_memo e = "A3F91B2C".
Proof.
  cbv zeta.
  destruct (verifyTransaction (SDK := exact_sdk) (DL := exact_decimal) xlm (PaymentLimits.Limits (of_Z 1) (of_Z 100) PaymentLimits.SrcEnv) 1000 0 true
     (fun _ _ => None) (Ok tx0) (Ok [pay_op "GW" "1.5"]) "GW" (Some "S1")
     (PaymentLimits.Service (PaymentLimits.Db ∅ PaymentLimits.DFalsy) ∅)) as [s' [v|]] eqn:E.
  - destruct (verification_agrees_with_polling (SDK := exact_sdk) (DL := exact_decimal) xlm _ _ _ _ _ tx0 _ _ _ _ s' v E)
      as (_ & e & He & Hm & _). exists e. split; [exact He|]. rewrite Hm.
    apply (f_equal (fun r => match r.2 with Ok v => v_memo v | Throw _ => "" end)) in E.
    vm_compute in E. symmetry. exact E.
  - apply (f_equal (fun r => match r.2 with Ok _ => true | Throw _ => false end)) in E. vm_compute in E. discriminate.
Defined.

Lemma verification_needs_school_witness :
  forall v, (verifyTransaction (SDK := exact_sdk) (DL := exact_decimal) xlm
     (PaymentLimits.Limits (of_Z 1) (of_Z 100) PaymentLimits.SrcEnv) 1000 0 true
     (fun _ _ => None) (Ok tx0) (Ok [pay_op "GW" "1.5"]) "GW" None
     (PaymentLimits.Service (PaymentLimits.Db ∅ PaymentLimits.DFalsy) ∅)).2 <> Ok v.
Proof.
  refine (verification_needs_school (SDK := exact_sdk) (DL := exact_decimal) xlm _ _ _ _ (fun _ _ => None)
    (Ok tx0) (Ok [pay_op "GW" "1.5"]) "GW" _ _ _ (surjective_pairing _)).
Defined.

Lemma paying_the_fee_is_not_unusual_witness :
  detectAbnormalPatterns (fun _ => of_Z 0) (fun _ => of_Z 0) 0 true (Some "GP") (of_Z 250) (of_Z 250) 0 "S1" (of_Z 3) None [] = [].
Proof. refine (paying_the_fee_is_not_unusual (fun _ => of_Z 0) (fun _ => of_Z 0) 0 true (Some "GP") 250 3 0 "S1" [] _ _ _); reflexivity || discriminate. Defined.

End LedgerPayments.
