(* ===== verification/Poller.v ===== *)
(** The polling service: backend/src/services/transactionPollingService.js
    with backend/src/utils/ingestWindow.js,
    backend/src/services/walletRotationService.js and
    backend/src/services/unmatchedPaymentService.js.

    One poll of one wallet (pages, cursor, budget), the processing of one
    transaction as far as the code can get, a polling cycle over all schools
    with aging and backoff, the bounded-concurrency runner and the start/stop
    life cycle.  Horizon's answers are parameters. *)

From Stdlib Require Import ZArith QArith Qabs Qpower Lia Lqa.
From stdpp Require Import base list strings gmap.
From S2P Require Import Prelude JsNumber JsString StellarRetry LedgerPayments PollBudget.
Import StellarRetry LedgerPayments.
Local Open Scope string_scope.
Local Open Scope Z_scope.
Local Open Scope list_scope.

(** ** Retired wallets *)
Module WalletRotation.

Definition WALLET_DRAIN_WINDOW_MS : Z := 90 * 24 * 60 * 60 * 1000.

Record retired_entry := Retired {
  r_address : option string; r_activeFrom : option Z; r_activeUntil : option Z;
  r_drainUntil : option Z; r_cursor : option string
}.

Record wallet := Wallet {
  stellarAddress : string; syncCursor : option string; walletActiveFrom : option Z;
  w_createdAt : option Z; walletHistory : list retired_entry
}.

(** [x || null] on a text *)
Definition or_null (x : option string) : option string :=
  match x with Some s => if str_truthy s then Some s else None | None => None end.

(** Newest token first: Horizon's answer to [order('desc').limit(1)]. *)
Definition latestPagingToken (newest : result herror (option string)) : result herror (option string) :=
  match newest with Ok t => Ok (or_null t) | Throw e => Throw e end.

Record rotation := Rotation { rot_retired : retired_entry; rot_syncCursor : option string; rot_activeFrom : Z }.

Definition buildWalletRotation (newest : result herror (option string)) (backfill : bool) (now : Z) (s : wallet)
  : result herror rotation :=
  syncCursor' ← (if backfill then Ok None else latestPagingToken newest);
  Ok (Rotation
        (Retired (Some s.(stellarAddress))
           (match s.(walletActiveFrom) with Some t => Some t | None => s.(w_createdAt) end)
           (Some now) (Some (now + WALLET_DRAIN_WINDOW_MS)) (or_null s.(syncCursor)))
        syncCursor' now).

Definition drains (now : Z) (e : retired_entry) : bool :=
  truthy_opt e.(r_address) && match e.(r_drainUntil) with Some d => now <? d | None => false end.

Definition drainingWalletEntries (now : Z) (s : wallet) : list (string * option string) :=
  map (fun e => (default "" e.(r_address), or_null e.(r_cursor))) (List.filter (drains now) s.(walletHistory)).

(** After a rotation the old address keeps being polled from its own cursor
    for ninety days and no longer. *)
Lemma rotation_drains newest backfill t0 s rot hist now :
  buildWalletRotation newest backfill t0 s = Ok rot -> stellarAddress s <> "" ->
  (stellarAddress s, or_null (syncCursor s)) ∈
    drainingWalletEntries now (Wallet "new" (rot_syncCursor rot) None None (hist ++ [rot_retired rot])) \/
  t0 + WALLET_DRAIN_WINDOW_MS <= now.
Proof.
  intros H Hne. apply bind_Ok in H as (sc & _ & [= <-]).
  destruct (Z.le_gt_cases (t0 + WALLET_DRAIN_WINDOW_MS) now); [by right|left].
  unfold drainingWalletEntries. simpl. rewrite List.filter_app, map_app. apply elem_of_app. right.
  simpl. unfold drains at 1. simpl. assert (str_truthy (stellarAddress s) = true) as -> by by destruct (stellarAddress s).
  destruct (Z.ltb_spec now (t0 + WALLET_DRAIN_WINDOW_MS)); [|lia]. simpl. apply list_elem_of_singleton.
  f_equal. unfold or_null. destruct (syncCursor s) as [c|]; [|done]. destruct (str_truthy c) eqn:E; by rewrite ?E.
Qed.
End WalletRotation.

(** ** Payments nobody could be credited with *)
Module Unmatched.

Record unmatched := UnmatchedDoc {
  u_amount : string; u_assetCode : option string; u_memo : option string; u_memoType : option string;
  u_sender : option string; u_ledger : option Z; u_reason : string; u_receivedAt : Z
}.

Abbreviation store := (gmap (string * string * nat) unmatched).

(** [String(payOp.amount)] of an absent amount is "undefined". *)
Definition unmatched_fields (now : Z) (tx : transaction) (op : operation) (memo memoType : option string)
  (a : option delivered) (reason : string) : unmatched :=
  UnmatchedDoc (default "undefined" op.(op_amount))
    (match a ≫= assetCode with
     | Some c => if str_truthy c then Some c else if decide (op.(asset_type) = Some "native") then Some "XLM" else WalletRotation.or_null op.(asset_code)
     | None => if decide (op.(asset_type) = Some "native") then Some "XLM" else WalletRotation.or_null op.(asset_code)
     end)
    memo memoType (WalletRotation.or_null op.(op_from)) tx.(ledger_attr) reason now.

(** An upsert with [$setOnInsert]: an existing document is left alone. *)
Definition recordUnmatchedPayment (now : Z) (schoolId : string) (tx : transaction) (op : operation)
  (memo memoType : option string) (a : option delivered) (opIndex : nat) (reason : string) (m : store) : store :=
  let key := (schoolId, tx_hash tx, opIndex) in
  match m !! key with Some _ => m | None => <[key := unmatched_fields now tx op memo memoType a reason]> m end.

(** Recording an inflow again, with whatever details, keeps the first record. *)
Lemma record_first_wins now now' sid tx op op' memo memo' mt mt' a a' i r r' m :
  let m1 := recordUnmatchedPayment now sid tx op memo mt a i r m in
  recordUnmatchedPayment now' sid tx op' memo' mt' a' i r' m1 = m1.
Proof.
  cbv zeta. unfold recordUnmatchedPayment at 1. assert (H : exists u, recordUnmatchedPayment now sid tx op memo mt a i r m !! (sid, tx_hash tx, i) = Some u).
  { unfold recordUnmatchedPayment. destruct (m !! (sid, tx_hash tx, i)) as [u|] eqn:E; [by exists u|].
    rewrite lookup_insert_eq. eauto. }
  by destruct H as [u ->].
Qed.
End Unmatched.

Module Poller.
Import WalletRotation.

(** ** Queue backpressure *)

Definition BASE_TRANSACTIONS_PER_POLL : Z := 20.
Definition MIN_TRANSACTIONS_PER_POLL : Z := 5.
Definition MAX_TRANSACTIONS_PER_POLL : Z := 50.

Record backpressure := Backpressure { queueDepth : Z; maxQueueDepth : Z; highWater : Z; lowWater : Z }.

(** The three settings of the configuration. *)
Definition getQueueBackpressureState (MAX_QUEUE_DEPTH HIGH LOW : Z) : backpressure :=
  let hw := Z.min HIGH MAX_QUEUE_DEPTH in
  Backpressure 0 MAX_QUEUE_DEPTH hw (Z.min LOW (Z.max 0 (hw - 1))).

Definition getEffectiveBatchSize (b : backpressure) (depth : Z) : number :=
  if b.(highWater) <=? depth then of_Z 0 else
  if depth <=? b.(lowWater) then of_Z BASE_TRANSACTIONS_PER_POLL else
  let pressureRatio := num_div (num_sub (of_Z depth) (of_Z b.(lowWater)))
                         (num_max (of_Z 1) (num_sub (of_Z b.(highWater)) (of_Z b.(lowWater)))) in
  let scaled := num_round (num_mul (of_Z BASE_TRANSACTIONS_PER_POLL) (num_sub (of_Z 1) pressureRatio)) in
  num_max (of_Z MIN_TRANSACTIONS_PER_POLL) (num_min (of_Z MAX_TRANSACTIONS_PER_POLL) scaled).

(** ** Transactions seen by a poll *)

(** A transaction with its paging token and its time ([None] when it is not a
    date). *)
Record ltx := Ltx { l_tx : transaction; paging_token : option string; tx_time : option Z }.

Definition isBeforeIngestStart (t : ltx) (ingestStartsAt : option Z) : bool :=
  match t.(tx_time), ingestStartsAt with
  | Some a, Some b => a <? b
  | _, _ => false
  end.

(** ** Processing one transaction *)

Inductive process_outcome := Processed | Skipped (reason : string).

Section Process.
Context `{SDK : StellarSdk} (configured : asset).

(** [const { payOp, memo, asset } = valid]: the object [extractValidPayment]
    returns has the properties operations, memo, memoType and innerHash. *)
Definition payOp_property (v : valid_payment) : option operation := None.

(** [recorded] are the school's live payments' hashes.  Reading [amount] of an
    undefined [payOp] throws; the code after it is never reached. *)
Definition processTransaction (recorded : list string) (fetched : result herror (list operation))
  (stellarAddress : string) (tx : transaction) : result herror process_outcome :=
  if decide (tx_hash tx ∈ recorded) then Ok (Skipped "duplicate") else
  valid ← extractValidPayment configured fetched tx stellarAddress;
  match valid with
  | None => Ok (Skipped "invalid_payment")
  | Some v =>
    match payOp_property v with
    | None => Throw (HError None None None None "Cannot read properties of undefined (reading 'amount')")
    | Some _ => Ok Processed
    end
  end.

(** The poller never records a payment: every transaction it recognises as a
    valid payment ends in a TypeError. *)
Lemma process_never_records recorded fetched w tx :
  processTransaction recorded fetched w tx <> Ok Processed.
Proof.
  unfold processTransaction. destruct (decide _); [done|].
  destruct (extractValidPayment configured fetched tx w) as [[v|]|]; done.
Qed.

Lemma process_throws_on_payment recorded fetched w tx v :
  tx_hash tx ∉ recorded -> extractValidPayment configured fetched tx w = Ok (Some v) ->
  exists e, processTransaction recorded fetched w tx = Throw e.
Proof. intros Hn He. unfold processTransaction. rewrite decide_False by done. rewrite He. simpl. eauto. Qed.
End Process.

(** ** Polling one wallet *)

Inductive poll_result :=
| LoadPaused | LockSkipped
| Polled (processed skipped : nat) (cursor : option string) (budgetExhausted : bool)
| Failed (status : option Z) (rateLimited : bool).

(** [error.response?.status || error.status || error.statusCode] *)
Definition poll_status (e : herror) : option Z :=
  numopt_or (e.(response) ≫= fst) (numopt_or e.(e_status) e.(e_statusCode)).

Definition consume (b : option PollBudget.budget) : option PollBudget.budget * bool :=
  match b with
  | None => (None, true)
  | Some b => let '(b', ok) := PollBudget.tryConsume 1 b in (Some b', ok)
  end.

(** [if (tx.paging_token) cursor = tx.paging_token] *)
Definition advance (t : ltx) (cursor : option string) : option string :=
  if truthy_opt t.(paging_token) then t.(paging_token) else cursor.

Section Poll.
Context {W : Type}.
(** Processing a transaction in the world (database, ledger, clock). *)
Variable process : ltx -> W -> W * result herror bool.
(** The k-th page request, from a cursor, with a limit. *)
Variable fetch : nat -> option string -> nat -> result herror (list ltx).
Variable ingestStartsAt : option Z.
Variable batchSize : nat.

(** The records of one page. *)
Fixpoint page_loop (recs : list ltx) (cursor : option string) (p s : nat) (w : W)
  : W * result herror (option string * nat * nat) :=
  match recs with
  | [] => (w, Ok (cursor, p, s))
  | t :: ts =>
    if isBeforeIngestStart t ingestStartsAt then page_loop ts (advance t cursor) p (S s) w
    else
      let '(w', r) := process t w in
      match r with
      | Throw e => (w', Throw e)
      | Ok true => page_loop ts (advance t cursor) (S p) s w'
      | Ok false => page_loop ts (advance t cursor) p (S s) w'
      end
  end.

(** The stored cursor after a page. *)
Definition persist (startCursor cursor db : option string) : option string :=
  if truthy_opt cursor && negb (bool_decide (cursor = startCursor)) then cursor else db.

Record progress := Progress { g_db : option string; g_budget : option PollBudget.budget; g_world : W }.

(** The page loop: at most [pages] further pages. *)
Fixpoint pages_loop (pages k : nat) (startCursor cursor : option string) (p s : nat) (g : progress)
  : progress * result herror (option string * nat * nat * bool) :=
  match pages with
  | O => (g, Ok (cursor, p, s, false))
  | S pages' =>
    let '(b, granted) := consume g.(g_budget) in
    let g := Progress g.(g_db) b g.(g_world) in
    if negb granted then (g, Ok (cursor, p, s, true)) else
    match fetch k cursor batchSize with
    | Throw e => (g, Throw e)
    | Ok [] => (g, Ok (cursor, p, s, false))
    | Ok recs =>
      let '(w', r) := page_loop recs cursor p s g.(g_world) in
      match r with
      | Throw e => (Progress g.(g_db) g.(g_budget) w', Throw e)
      | Ok (cursor', p', s') =>
        let g := Progress (persist startCursor cursor' g.(g_db)) g.(g_budget) w' in
        if (length recs <? batchSize)%nat then (g, Ok (cursor', p', s', false))
        else pages_loop pages' (S k) startCursor cursor' p' s' g
      end
    end
  end.

Definition MAX_PAGES_PER_POLL : nat := 50.

(** The whole poll; [acquired] is the answer of [lock.acquire], [g_db] the
    cursor stored for the wallet (the school's, or the retired entry's). *)
Definition pollSchoolTransactions (bp : backpressure) (acquired : bool) (g : progress) : progress * poll_result :=
  if bp.(highWater) <=? bp.(queueDepth) then (g, LoadPaused) else
  if negb acquired then (g, LockSkipped) else
  let cursor := or_null g.(g_db) in
  let '(g', r) := pages_loop MAX_PAGES_PER_POLL 0 cursor cursor 0 0 g in
  match r with
  | Ok (cursor', p, s, ex) => (g', Polled p s cursor' ex)
  | Throw e =>
    let limited := bool_decide (poll_status e = Some 429) in
    (Progress g'.(g_db) (if limited then PollBudget.recordRateLimited <$> g'.(g_budget) else g'.(g_budget)) g'.(g_world),
     Failed (poll_status e) limited)
  end.

(** ** No gaps *)

Section Gaps.
(** The wallet's transactions in ledger order, with distinct tokens; Horizon
    serves the ones after the cursor, as many as asked for. *)
Variable history : list ltx.

Definition token (t : ltx) : string := default "" t.(paging_token).

Fixpoint after_token (c : string) (h : list ltx) : list ltx :=
  match h with
  | [] => []
  | t :: h' => if decide (token t = c) then h' else after_token c h'
  end.

Definition after (cursor : option string) : list ltx :=
  match cursor with None => history | Some c => after_token c history end.

Hypothesis tokens_set : Forall (fun t => token t <> "") history.
Hypothesis tokens_distinct : NoDup (token <$> history).
Hypothesis fetch_after : forall k c n recs, fetch k c n = Ok recs -> recs = take n (after c).
Hypothesis batch_positive : (0 < batchSize)%nat.

Lemma page_loop_app l1 l2 c p s w :
  page_loop (l1 ++ l2) c p s w =
  let '(w1, r) := page_loop l1 c p s w in
  match r with Throw e => (w1, Throw e) | Ok (c1, p1, s1) => page_loop l2 c1 p1 s1 w1 end.
Proof.
  revert c p s w. induction l1 as [|t l1 IH]; intros c p s w; simpl; [done|].
  destruct (isBeforeIngestStart _ _); [apply IH|].
  destruct (process t w) as [w' [[]|e]]; [apply IH|apply IH|done].
Qed.

(** The cursor after a page is the token of its last transaction. *)
Lemma page_loop_cursor l c p s w w' c' p' s' : Forall (fun t => token t <> "") l ->
  page_loop l c p s w = (w', Ok (c', p', s')) ->
  c' = match last l with Some t => Some (token t) | None => c end.
Proof.
  intros Hl. revert c p s w. induction Hl as [|t l Ht Hl IH]; intros c p s w H; simpl in H; [by simplify_eq|].
  assert (Ha : advance t c = Some (token t)).
  { unfold advance, truthy_opt, token in *. destruct (paging_token t) as [x|]; simpl in *; [|done].
    destruct x; [done|]. done. }
  assert (Hlast : match last (t :: l) with Some t => Some (token t) | None => c end =
                  match last l with Some t => Some (token t) | None => Some (token t) end).
  { rewrite last_cons. by destruct (last l). }
  rewrite Hlast. rewrite Ha in H.
  destruct (isBeforeIngestStart _ _); [by eapply IH|].
  destruct (process t w) as [w1 [[]|e]]; [by eapply IH|by eapply IH|done].
Qed.

Lemma after_token_app l t r : NoDup (token <$> l ++ t :: r) -> after_token (token t) (l ++ t :: r) = r.
Proof.
  induction l as [|u l IH]; simpl; intros Hn; [by rewrite decide_True|].
  apply NoDup_cons in Hn as [Hu Hn]. rewrite decide_False; [by apply IH|].
  intros E. apply Hu. rewrite E, fmap_app. apply elem_of_app. right. left.
Qed.

(** [cursor] stands between what was examined and the rest. *)
Lemma after_split (seen rest l : list ltx) t : history = seen ++ l ++ rest -> last l = Some t ->
  after (Some (token t)) = rest.
Proof.
  intros Hh Hl. simpl. apply last_Some in Hl as [l' ->]. rewrite Hh.
  replace (seen ++ (l' ++ [t]) ++ rest) with ((seen ++ l') ++ t :: rest) by by rewrite <- !app_assoc.
  apply after_token_app. rewrite Hh in tokens_distinct.
  by replace ((seen ++ l') ++ t :: rest) with (seen ++ (l' ++ [t]) ++ rest) by by rewrite <- !app_assoc.
Qed.


(** A stored cursor that stands in the history: everything before it is
    [done0]. *)
Definition standing (done0 : list ltx) (cursor : option string) : Prop :=
  history = done0 ++ after cursor /\
  match cursor with None => done0 = [] | Some c => exists t, last done0 = Some t /\ c = token t end.

Lemma standing_page done0 cursor n l t : standing done0 cursor -> l = take n (after cursor) -> last l = Some t ->
  standing (done0 ++ l) (Some (token t)) /\ after cursor = l ++ after (Some (token t)).
Proof.
  intros [Hh Hc] Hl Ht.
  assert (Hs : after cursor = l ++ drop n (after cursor)) by (rewrite Hl; symmetry; apply take_drop).
  assert (Ha : after (Some (token t)) = drop n (after cursor)).
  { apply (after_split done0 (drop n (after cursor)) l t); [|done]. by rewrite <- Hs. }
  split; [split|].
  - rewrite Ha, <- app_assoc, <- Hs. done.
  - exists t. split; [|done]. apply last_Some in Ht as [l' ->]. rewrite app_assoc. apply last_snoc.
  - by rewrite Ha.
Qed.

Lemma page_cursor_new done0 l t start : history = done0 ++ l ++ after (Some (token t)) -> last l = Some t ->
  (start = None \/ exists u, u ∈ done0 /\ start = Some (token u)) ->
  bool_decide (Some (token t) = start) = false.
Proof.
  intros Hh Ht Hs. apply bool_decide_eq_false. intros <-. destruct Hs as [|(u & Hu & E)]; [done|].
  injection E as E. apply last_Some in Ht as [l' ->].
  rewrite Hh, !fmap_app in tokens_distinct. apply NoDup_app in tokens_distinct as (_ & Hd & _).
  apply (Hd (token u)); [by apply list_elem_of_fmap_2|]. rewrite <- E.
  apply elem_of_app. left. apply elem_of_app. right. by left.
Qed.

(** What a completed page does to the cursor. *)
Lemma page_step done0 start cursor l p s w w' c' p' s' db :
  standing done0 cursor -> (start = None \/ exists u, u ∈ done0 /\ start = Some (token u)) ->
  l = take batchSize (after cursor) -> l <> [] -> page_loop l cursor p s w = (w', Ok (c', p', s')) ->
  standing (done0 ++ l) c' /\ after cursor = l ++ after c' /\ persist start c' db = c' /\ or_null c' = c' /\
  (start = None \/ exists u, u ∈ done0 ++ l /\ start = Some (token u)).
Proof.
  intros Hst Hsr Hrecs Hne Hp.
  assert (Hlt : exists t, last l = Some t).
  { destruct (last l) eqn:E; [eauto|]. by apply last_None in E. }
  destruct Hlt as [t Ht]. destruct (standing_page done0 cursor batchSize l t Hst Hrecs Ht) as [Hst' Haft].
  assert (Hlset : Forall (fun t => token t <> "") l).
  { destruct Hst as [Hh _]. rewrite Hh, Haft in tokens_set. apply Forall_app in tokens_set as [_ Hs].
    by apply Forall_app in Hs as [Hs _]. }
  pose proof (page_loop_cursor _ _ _ _ _ _ _ _ _ Hlset Hp) as Hc'. rewrite Ht in Hc'. subst c'.
  assert (Htr : str_truthy (token t) = true).
  { apply last_Some in Ht as [l' El]. rewrite El in Hlset. apply Forall_app in Hlset as [_ Hx].
    inversion Hx. by destruct (token t). }
  split; [done|]. split; [done|]. split; [|split].
  - unfold persist. simpl truthy_opt. rewrite Htr.
    rewrite (page_cursor_new done0 l t start); [done| |done|done]. rewrite <- Haft. apply Hst.
  - simpl. by rewrite Htr.
  - destruct Hsr as [->|(u & Hu & ->)]; [by left|right]. exists u. split; [|done]. apply elem_of_app. by left.
Qed.

Definition failed_page (c : option string) (p s : nat) (w w' : W) (e : herror) : Prop :=
  w' = w \/ exists n, page_loop (take n (after c)) c p s w = (w', Throw e).

Lemma pages_loop_gap_free pages : forall k start cursor p s g g' r done0,
  standing done0 cursor -> or_null (g_db g) = cursor ->
  (start = None \/ exists u, u ∈ done0 /\ start = Some (token u)) ->
  pages_loop pages k start cursor p s g = (g', r) ->
  exists seen c1 p1 s1 w1,
    standing (done0 ++ seen) c1 /\ after cursor = seen ++ after c1 /\ or_null (g_db g') = c1 /\
    page_loop seen cursor p s (g_world g) = (w1, Ok (c1, p1, s1)) /\
    match r with
    | Ok (c', p', s', _) => c' = c1 /\ p' = p1 /\ s' = s1 /\ g_world g' = w1
    | Throw e => failed_page c1 p1 s1 w1 (g_world g') e
    end.
Proof.
  induction pages as [|pages IH]; intros k start cursor p s g g' r done0 Hst Hdb Hsr H; cbn [pages_loop] in H.
  { simplify_eq. exists [], (or_null (g_db g')), p, s, (g_world g'). rewrite app_nil_r. done. }
  destruct (consume (g_budget g)) as [b granted]. destruct granted; cbn [negb] in H.
  2: { simplify_eq. exists [], (or_null (g_db g)), p, s, (g_world g). rewrite app_nil_r. done. }
  cbn [g_db g_budget g_world] in H.
  destruct (fetch k cursor batchSize) as [recs|e] eqn:Hf.
  2: { simplify_eq. exists [], (or_null (g_db g)), p, s, (g_world g). rewrite app_nil_r. do 4 (split; [done|]). by left. }
  pose proof (fetch_after _ _ _ _ Hf) as Hrecs.
  destruct recs as [|t0 recs].
  { simplify_eq. exists [], (or_null (g_db g)), p, s, (g_world g). rewrite app_nil_r. done. }
  set (l := t0 :: recs) in *. destruct (page_loop l cursor p s (g_world g)) as [w' pr] eqn:Hp.
  destruct pr as [[[c' p'] s']|e].
  2: { simplify_eq. exists [], (or_null (g_db g)), p, s, (g_world g). rewrite app_nil_r.
       do 4 (split; [done|]). right. exists batchSize. by rewrite <- Hrecs. }
  destruct (page_step done0 start cursor l p s (g_world g) w' c' p' s' (g_db g) Hst Hsr Hrecs ltac:(done) Hp)
    as (Hst' & Haft & Hpers & Hor & Hsr').
  rewrite Hpers in H. destruct (length l <? batchSize)%nat.
  - injection H as <- <-. exists l, c', p', s', w'. cbn [g_db g_world]. done.
  - destruct (IH (S k) start c' p' s' (Progress c' b w') g' r (done0 ++ l))
      as (seen & c1 & p1 & s1 & w1 & H1 & H2 & H3 & H4 & H5); [done|done|done|done|].
    exists (l ++ seen), c1, p1, s1, w1. rewrite app_assoc. split; [done|]. split.
    { rewrite Haft, H2. by rewrite app_assoc. }
    split; [done|]. split; [|done]. rewrite page_loop_app, Hp. exact H4.
Qed.

(** C17: polling leaves no gap and repeats nothing: whatever happens in a poll
    (budget running out, a failed request, a throwing transaction), the cursor
    that is stored afterwards stands exactly behind a run of transactions that
    started at the previous cursor, was taken in ledger order without
    omission, and was examined to its end without an error. *)
Theorem poll_gap_free bp acquired g g' res done0 :
  standing done0 (or_null (g_db g)) ->
  pollSchoolTransactions bp acquired g = (g', res) ->
  exists seen c1 p s w1,
    after (or_null (g_db g)) = seen ++ after (or_null (g_db g')) /\
    standing (done0 ++ seen) (or_null (g_db g')) /\
    page_loop seen (or_null (g_db g)) 0 0 (g_world g) = (w1, Ok (c1, p, s)) /\
    match res with
    | LoadPaused | LockSkipped => seen = [] /\ g_world g' = w1
    | Polled p' s' c' _ => p' = p /\ s' = s /\ c' = c1 /\ g_world g' = w1
    | Failed _ _ => exists e, failed_page c1 p s w1 (g_world g') e
    end.
Proof.
  intros Hst H. unfold pollSchoolTransactions in H. revert H. generalize MAX_PAGES_PER_POLL. intros pages H.
  assert (Hnone : exists seen c1 p s w1, after (or_null (g_db g)) = seen ++ after (or_null (g_db g)) /\
    standing (done0 ++ seen) (or_null (g_db g)) /\
    page_loop seen (or_null (g_db g)) 0 0 (g_world g) = (w1, Ok (c1, p, s)) /\ seen = [] /\ g_world g = w1).
  { exists [], (or_null (g_db g)), 0%nat, 0%nat, (g_world g). by rewrite app_nil_r. }
  destruct (highWater bp <=? queueDepth bp); [by simplify_eq|].
  destruct acquired; cbn [negb] in H; [|by simplify_eq].
  destruct (pages_loop _ _ _ _ _ _ g) as [g1 r] eqn:Hp.
  assert (Hsr : or_null (g_db g) = None \/ exists u, u ∈ done0 /\ or_null (g_db g) = Some (token u)).
  { destruct Hst as [_ Hc]. destruct (or_null (g_db g)) as [c|]; [right|by left].
    destruct Hc as (t & Ht & ->). exists t. split; [|done]. apply last_Some in Ht as [l ->]. apply elem_of_app. right. by left. }
  destruct (pages_loop_gap_free _ _ _ _ _ _ _ _ _ done0 Hst eq_refl Hsr Hp)
    as (seen & c1 & p1 & s1 & w1 & H1 & H2 & H3 & H4 & H5).
  destruct r as [[[[c' p'] s'] ex]|e]; injection H as <- <-; rewrite <- H3 in *; exists seen, (or_null (g_db g1)), p1, s1, w1.
  - destruct H5 as (-> & -> & -> & ->). done.
  - cbn. do 3 (split; [done|]). by exists e.
Qed.


(** A transaction on which processing always throws stops its page. *)
Lemma page_loop_throws l t c p s w : t ∈ l -> isBeforeIngestStart t ingestStartsAt = false ->
  (forall w, exists w' e, process t w = (w', Throw e)) ->
  exists w' e, page_loop l c p s w = (w', Throw e).
Proof.
  intros Hin Hb Ht. revert c p s w. induction l as [|u l IH]; intros c p s w; [by apply elem_of_nil in Hin|].
  apply elem_of_cons in Hin as [<-|Hin]; simpl.
  - rewrite Hb. destruct (Ht w) as (w' & e & ->). eauto.
  - specialize (IH Hin). destruct (isBeforeIngestStart u _); [apply IH|].
    destruct (process u w) as [w' [[]|e]]; [apply IH|apply IH|eauto].
Qed.

(** While such a transaction is in the next page, no poll moves the stored
    cursor: the wallet is stuck in front of it. *)
Lemma poll_stuck bp acquired g g' res t :
  t ∈ take batchSize (after (or_null (g_db g))) -> isBeforeIngestStart t ingestStartsAt = false ->
  (forall w, exists w' e, process t w = (w', Throw e)) ->
  pollSchoolTransactions bp acquired g = (g', res) -> g_db g' = g_db g.
Proof.
  intros Hin Hb Ht H. unfold pollSchoolTransactions in H. revert H. generalize MAX_PAGES_PER_POLL. intros pages H.
  destruct (_ <=? _); [by simplify_eq|]. destruct acquired; cbn [negb] in H; [|by simplify_eq].
  assert (Hp : g_db (pages_loop pages 0 (or_null (g_db g)) (or_null (g_db g)) 0 0 g).1 = g_db g).
  { destruct pages as [|pages]; cbn [pages_loop]; [done|]. destruct (consume (g_budget g)) as [b []]; cbn [negb]; [|done].
    destruct (fetch _ _ _) as [recs|e] eqn:Hf; [|done]. pose proof (fetch_after _ _ _ _ Hf) as ->.
    destruct (page_loop_throws _ t (or_null (g_db g)) 0%nat 0%nat (g_world g) Hin Hb Ht) as (w' & e & Hpl).
    destruct (take batchSize (after (or_null (g_db g)))) as [|u l]; [done|]. cbn [g_world]. by rewrite Hpl. }
  destruct (pages_loop pages _ _ _ _ _ g) as [g1 [[[[c1 p1] s1] ex]|e]]; cbn [fst] in Hp; by simplify_eq/=.
Qed.

(** With Horizon answering, no throwing transaction and no budget limit, a
    poll examines everything there is, up to its page cap. *)
Lemma pages_loop_drains pages : forall k start cursor p s g done0,
  (forall k c n, fetch k c n = Ok (take n (after c))) ->
  (forall t w, exists w' b, process t w = (w', Ok b)) ->
  g_budget g = None -> standing done0 cursor -> or_null (g_db g) = cursor ->
  (start = None \/ exists u, u ∈ done0 /\ start = Some (token u)) ->
  after (or_null (g_db (pages_loop pages k start cursor p s g).1)) = drop (pages * batchSize) (after cursor).
Proof.
  intros k start cursor p s g done0 Hf Hok. revert k cursor p s g done0.
  assert (Hpl : forall l c p s w, exists w' r, page_loop l c p s w = (w', Ok r)).
  { induction l as [|t l IH]; intros c p' s' w; simpl; [eauto|]. destruct (isBeforeIngestStart t _); [apply IH|].
    destruct (Hok t w) as (w' & [] & ->); apply IH. }
  induction pages as [|pages IH]; intros k cursor p s g done0 Hb Hst Hdb Hsr; cbn [pages_loop].
  { cbn [fst]. by rewrite Hdb. }
  rewrite Hb. cbn [consume negb]. rewrite Hf.
  destruct (take batchSize (after cursor)) as [|t0 recs] eqn:Hrecs.
  { cbn [fst g_db]. rewrite Hdb. destruct (after cursor) as [|u l]; [by rewrite drop_nil|].
    destruct batchSize; [lia|done]. }
  set (l := t0 :: recs) in *. cbn [g_world g_db].
  destruct (Hpl l cursor p s (g_world g)) as (w' & [[c' p'] s'] & Hp). rewrite Hp.
  destruct (page_step done0 start cursor l p s (g_world g) w' c' p' s' (g_db g) Hst Hsr (eq_sym Hrecs) ltac:(done) Hp)
    as (Hst' & Haft & Hpers & Hor & Hsr').
  rewrite Hpers.
  assert (Hdrop : after c' = drop batchSize (after cursor)).
  { pose proof (take_drop batchSize (after cursor)) as Htd. rewrite Hrecs in Htd.
    apply (app_inv_head l). rewrite <- Haft. symmetry. exact Htd. }
  destruct (length l <? batchSize)%nat eqn:Hlen.
  - cbn [fst g_db]. rewrite Hor, Hdrop. apply Nat.ltb_lt in Hlen. rewrite <- Hrecs, length_take in Hlen.
    rewrite !drop_ge; [done|lia|lia].
  - rewrite (IH (S k) c' p' s' _ (done0 ++ l)); [|done..]. rewrite Hdrop, drop_drop. done.
Qed.

End Gaps.
End Poll.

(** ** The code's own processing, and what it does to the poll *)

Section Stuck.
Context `{SDK : StellarSdk} (configured : asset) (recorded : list string) (wallet : string).
Variable ops_of : ltx -> result herror (list operation).

(** The world is not changed: nothing is ever written. *)
Definition process_poll (t : ltx) (w : unit) : unit * result herror bool :=
  (w, match processTransaction configured recorded (ops_of t) wallet (l_tx t) with
      | Ok Processed => Ok true
      | Ok (Skipped _) => Ok false
      | Throw e => Throw e
      end).

(** A new valid payment stops the poller: as soon as one stands in the next
    page, every later poll leaves the stored cursor where it is, so no payment
    from that page on is ever reached. *)
Theorem valid_payment_blocks_cursor fetch ingest batch history t v (polls : list (backpressure * bool))
  (g : @progress unit) :
  (forall k c n recs, fetch k c n = Ok recs -> recs = take n (after history c)) ->
  t ∈ take batch (after history (or_null (g_db g))) -> isBeforeIngestStart t ingest = false ->
  tx_hash (l_tx t) ∉ recorded -> extractValidPayment configured (ops_of t) (l_tx t) wallet = Ok (Some v) ->
  g_db (foldl (fun g pb => (pollSchoolTransactions process_poll fetch ingest batch pb.1 pb.2 g).1) g polls) = g_db g.
Proof.
  intros Hf Hin Hb Hn Hv. revert g Hin. induction polls as [|[bp acq] polls IH]; intros g Hin; [done|]. cbn [foldl fst snd].
  destruct (pollSchoolTransactions process_poll fetch ingest batch bp acq g) as [g' res] eqn:E. cbn [fst].
  assert (Hdb : g_db g' = g_db g).
  { eapply (poll_stuck process_poll fetch ingest batch history Hf bp acq g g' res t Hin Hb); [|exact E].
    intros w. destruct (process_throws_on_payment configured recorded (ops_of t) wallet (l_tx t) v Hn Hv) as [e He].
    exists w, e. unfold process_poll. by rewrite He. }
  rewrite IH; [done|]. by rewrite Hdb.
Qed.
End Stuck.

(** ** Batch sizes *)

Lemma num_max_min_clamp lo hi x : x <> NaN -> lo <= hi ->
  num_le (of_Z lo) (num_max (of_Z lo) (num_min (of_Z hi) x)) = true /\
  num_le (num_max (of_Z lo) (num_min (of_Z hi) x)) (of_Z hi) = true.
Proof.
  intros Hx Hle. assert (Hl : forall z, num_le (of_Z z) (of_Z z) = true) by (intros; rewrite num_le_int; lia).
  destruct x as [|[]|q]; [done|..].
  - change (num_min (of_Z hi) (Infinity true)) with (Infinity true). change (num_max (of_Z lo) (Infinity true)) with (of_Z lo). split; [apply Hl|]. rewrite num_le_int. lia.
  - change (num_min (of_Z hi) (Infinity false)) with (of_Z hi). rewrite num_max_int, !num_le_int. lia.
  - change (num_min (of_Z hi) (Fin q)) with (if Qle_bool (inject_Z hi) q then of_Z hi else Fin q).
    destruct (Qle_bool (inject_Z hi) q) eqn:E.
    + rewrite num_max_int, !num_le_int. lia.
    + change (num_max (of_Z lo) (Fin q)) with (if Qle_bool (inject_Z lo) q then Fin q else of_Z lo).
      assert (Hq : (q <= inject_Z hi)%Q).
      { destruct (Qlt_le_dec (inject_Z hi) q) as [H|H]; [|done].
        assert (Qle_bool (inject_Z hi) q = true) by (apply Qle_bool_iff, Qlt_le_weak, H). congruence. }
      destruct (Qle_bool (inject_Z lo) q) eqn:E2; [|rewrite !num_le_int; lia].
      split; [done|]. by apply Qle_bool_iff.
Qed.

(** A page request asks for nothing when the queue is full and otherwise for
    between 5 and 50 transactions. *)
Theorem batch_size_bounds b depth : 0 <= lowWater b -> highWater b <= 2 ^ 50 ->
  getEffectiveBatchSize b depth = of_Z 0 \/
  num_le (of_Z MIN_TRANSACTIONS_PER_POLL) (getEffectiveBatchSize b depth) = true /\
  num_le (getEffectiveBatchSize b depth) (of_Z MAX_TRANSACTIONS_PER_POLL) = true.
Proof.
  intros Hlo Hhi. unfold getEffectiveBatchSize. destruct (Z.leb_spec (highWater b) depth) as [|Hd]; [by left|right].
  destruct (Z.leb_spec depth (lowWater b)) as [|Hl]; [done|].
  apply num_max_min_clamp; [|done]. rewrite !num_sub_int by lia. rewrite num_max_int.
  set (a := depth - lowWater b). set (d := Z.max 1 (highWater b - lowWater b)).
  assert (Had : 0 <= a <= d /\ 0 < d) by (unfold a, d; lia). destruct Had as [Ha Hdp].
  assert (Hq : (0 <= inject_Z a / inject_Z d <= 1)%Q).
  { split; [apply Qle_shift_div_l|apply Qle_shift_div_r]; unfold Qlt, Qle; simpl; lia. }
  unfold num_div, of_Z. cbn [inject_Z Qnum]. destruct (Z.eqb_spec d 0); [lia|].
  fold (inject_Z d). fold (inject_Z a).
  destruct (to_double_near (inject_Z a / inject_Z d) 1) as (r & -> & Hr & Hr0); [lia| |].
  { change (Qpower 2 1) with 2%Q. rewrite Qabs_pos; lra. }
  specialize (Hr0 (proj1 Hq)). apply Qabs_Qle_condition in Hr as [_ Hr].
  assert ((1 # 2) * Qpower 2 (1 - 53) <= 1)%Q by (vm_compute; discriminate).
  unfold num_sub, num_neg, num_add.
  destruct (to_double_near (inject_Z 1 + - r) 2) as (u & -> & Hu & _); [lia| |].
  { change (Qpower 2 2) with 4%Q. change (inject_Z 1) with 1%Q. apply Qabs_Qlt_condition. lra. }
  apply Qabs_Qle_condition in Hu as [Hu1 Hu2].
  assert ((1 # 2) * Qpower 2 (2 - 53) <= 1)%Q by (vm_compute; discriminate). change (inject_Z 1) with 1%Q in *.
  unfold num_mul, BASE_TRANSACTIONS_PER_POLL. change (inject_Z 20) with 20%Q.
  destruct (to_double_near (20 * u) 7) as (v & -> & _ & _); [lia| |done].
  change (Qpower 2 7) with 128%Q. apply Qabs_Qlt_condition. lra.
Qed.


(** ** A cycle over all schools *)

(** The current wallet first, then each retired one; only the first result is
    reported. *)
Definition pollSchoolWithDrainingAddresses {W : Type}
  (poll : option (string * option string) -> W -> W * poll_result) (draining : list (string * option string)) (w : W)
  : W * poll_result :=
  let '(w1, result) := poll None w in
  (foldl (fun w e => (poll (Some e) w).1) w1 draining, result).

(** What the signals read of a payment. *)
Record activity := Activity { ac_school : string; ac_confirmed : bool; ac_at : option Z; ac_live : bool }.

Definition latest (a b : option Z) : option Z :=
  match a, b with Some x, Some y => Some (Z.max x y) | Some x, None => Some x | None, y => y end.

(** The aggregation's row for one school: [None] when no live payment matches. *)
Definition signal_row (sid : string) (payments : list activity) : option (Z * option Z) :=
  match List.filter (fun a => bool_decide (a.(ac_school) = sid) && a.(ac_live)) payments with
  | [] => None
  | rows => Some (Z.of_nat (length (List.filter (fun a => negb a.(ac_confirmed)) rows)),
                  foldr (fun a => latest a.(ac_at)) None rows)
  end.

(** [readable] is false when the aggregation throws. *)
Definition gatherSchoolSignals (readable : bool) (ids : list string) (payments : list activity)
  (b : PollBudget.budget) : gmap string PollBudget.signals :=
  list_to_map (map (fun sid =>
    (sid, match (if readable then signal_row sid payments else None) with
          | Some (n, t) => PollBudget.Signals n t (PollBudget.getDeferralCount sid b)
          | None => PollBudget.Signals 0 None (PollBudget.getDeferralCount sid b)
          end)) ids).

Inductive settled := Fulfilled (r : poll_result) | Rejected.

Record summary := Summary { sm_processed : nat; sm_skipped : nat; sm_errors : nat; sm_rateLimited : nat; sm_deferred : nat }.

Definition summarize1 (acc : summary) (r : settled) : summary :=
  match r with
  | Fulfilled (Polled p s _ ex) =>
      Summary (acc.(sm_processed) + p) (acc.(sm_skipped) + s) acc.(sm_errors) acc.(sm_rateLimited)
        (acc.(sm_deferred) + (if ex then 1 else 0))
  | Fulfilled (Failed _ limited) =>
      Summary acc.(sm_processed) acc.(sm_skipped) (S acc.(sm_errors))
        (acc.(sm_rateLimited) + (if limited then 1 else 0)) acc.(sm_deferred)
  | Fulfilled _ => acc
  | Rejected => Summary acc.(sm_processed) acc.(sm_skipped) (S acc.(sm_errors)) acc.(sm_rateLimited) acc.(sm_deferred)
  end.

Definition summarize (results : list settled) : summary := foldl summarize1 (Summary 0 0 0 0 0) results.

(** Whether the school counts as polled for aging. *)
Definition polled (r : settled) : bool :=
  match r with
  | Fulfilled (Polled _ _ _ ex) => negb ex
  | Fulfilled (Failed _ _) => true
  | Fulfilled LoadPaused | Fulfilled LockSkipped | Rejected => false
  end.

Definition age (b : PollBudget.budget) (sr : string * settled) : PollBudget.budget :=
  if polled sr.2 then PollBudget.recordPolled sr.1 b else PollBudget.recordDeferred sr.1 b.

Section Cycle.
Variables SYNC_INTERVAL_MS POLL_MAX_BACKOFF_MS : Z.

Record cycle_state := CycleState {
  consecutiveErrors : Z; currentIntervalMs : Z; horizonUnreachableSince : option Z
}.

Definition _markPollFailure (now : Z) (s : cycle_state) : cycle_state :=
  CycleState s.(consecutiveErrors) s.(currentIntervalMs)
    (match s.(horizonUnreachableSince) with Some t => Some t | None => Some now end).

Definition _markPollSuccess (s : cycle_state) : cycle_state :=
  CycleState s.(consecutiveErrors) s.(currentIntervalMs) None.

(** [Math.min(SYNC_INTERVAL_MS * Math.pow(2, n), POLL_MAX_BACKOFF_MS)]: the
    product is exact in doubles until it overflows to infinity. *)
Definition backoff (n : Z) : Z := Z.min (SYNC_INTERVAL_MS * 2 ^ n) POLL_MAX_BACKOFF_MS.

Definition on_errors (now : Z) (s : cycle_state) : cycle_state :=
  let n := s.(consecutiveErrors) + 1 in
  _markPollFailure now (CycleState n (backoff n) s.(horizonUnreachableSince)).

Definition on_success (s : cycle_state) : cycle_state :=
  _markPollSuccess (CycleState 0 SYNC_INTERVAL_MS s.(horizonUnreachableSince)).

(** How a cycle ends: no active school, the results in school order, or an
    exception. *)
Inductive cycle_end := NoSchools | Results (l : list (string * settled)) | Crashed.

Definition pollAllSchools (now : Z) (e : cycle_end) (s : cycle_state) (b : PollBudget.budget)
  : cycle_state * PollBudget.budget :=
  match e with
  | NoSchools => (s, b)
  | Crashed => (on_errors now s, b)
  | Results l =>
    let b' := foldl age b l in
    ((if (0 <? (summarize (map snd l)).(sm_errors))%nat then on_errors now s else on_success s), b')
  end.

Definition failed_cycle (e : cycle_end) : bool :=
  match e with
  | NoSchools => false
  | Crashed => true
  | Results l => existsb (fun r => match r.2 with Fulfilled (Failed _ _) | Rejected => true | _ => false end) l
  end.

Lemma summarize_errors l acc :
  sm_errors (foldl summarize1 acc (map snd l)) =
  (sm_errors acc + length (List.filter (fun r : string * settled => match r.2 with Fulfilled (Failed _ _) | Rejected => true | _ => false end) l))%nat.
Proof.
  revert acc. induction l as [|[sid r] l IH]; intros acc; simpl; [lia|]. rewrite IH.
  destruct r as [[| |p s c ex|st lim]|]; simpl; lia.
Qed.

Lemma errors_iff l : (0 <? (summarize (map snd l)).(sm_errors))%nat = failed_cycle (Results l).
Proof.
  unfold summarize. rewrite summarize_errors. simpl.
  induction l as [|[sid r] l IH]; [done|]. simpl. destruct r as [[| |p s c ex|st lim]|]; simpl; done.
Qed.

(** Consecutive failures at the end of a history, cycles without schools not
    counting either way. *)
Fixpoint trailing (h : list (Z * cycle_end)) (n : Z) : Z :=
  match h with
  | [] => n
  | (_, NoSchools) :: h' => trailing h' n
  | (_, e) :: h' => trailing h' (if failed_cycle e then n + 1 else 0)
  end.

Definition run_cycles (h : list (Z * cycle_end)) (s : cycle_state) (b : PollBudget.budget) : cycle_state :=
  (foldl (fun sb te => pollAllSchools te.1 te.2 sb.1 sb.2) (s, b) h).1.

Definition started : cycle_state := CycleState 0 SYNC_INTERVAL_MS None.

(** The pause before the next cycle is a function of the failures alone:
    after any history it is the base interval doubled once per consecutive
    failed cycle and capped, the outage mark is set exactly while there is one,
    and the first clean cycle restores the base interval. *)
Theorem backoff_closed_form h b : SYNC_INTERVAL_MS <= POLL_MAX_BACKOFF_MS ->
  let s := run_cycles h started b in
  let n := trailing h 0 in
  0 <= n /\ consecutiveErrors s = n /\ currentIntervalMs s = backoff n /\
  (horizonUnreachableSince s = None <-> n = 0).
Proof.
  intros Hle. cbv zeta. unfold run_cycles.
  assert (Hgen : forall h s b n, 0 <= n -> consecutiveErrors s = n -> currentIntervalMs s = backoff n ->
    (horizonUnreachableSince s = None <-> n = 0) ->
    let s' := (foldl (fun sb te => pollAllSchools te.1 te.2 sb.1 sb.2) (s, b) h).1 in
    let m := trailing h n in
    0 <= m /\ consecutiveErrors s' = m /\ currentIntervalMs s' = backoff m /\ (horizonUnreachableSince s' = None <-> m = 0)).
  { clear h b. induction h as [|[now e] h IH]; intros s b n H0 H1 H2 H3; [done|].
    assert (Hfail : let s' := on_errors now s in 0 <= n + 1 /\ consecutiveErrors s' = n + 1 /\
      currentIntervalMs s' = backoff (n + 1) /\ (horizonUnreachableSince s' = None <-> n + 1 = 0)).
    { unfold on_errors, _markPollFailure. cbn. rewrite H1. do 3 (split; [done || lia|]).
      destruct (horizonUnreachableSince s); split; first [done|lia]. }
    assert (Hok : let s' := on_success s in 0 <= 0 /\ consecutiveErrors s' = 0 /\
      currentIntervalMs s' = backoff 0 /\ (horizonUnreachableSince s' = None <-> 0 = 0)).
    { unfold on_success, _markPollSuccess, backoff. cbn. repeat split; lia. }
    cbv zeta in Hfail, Hok. cbn [foldl fst snd]. destruct e as [|l|]; cbn [pollAllSchools trailing].
    - by apply IH.
    - rewrite errors_iff. destruct (failed_cycle (Results l)); apply IH; tauto.
    - cbn [failed_cycle]. apply IH; tauto. }
  apply Hgen; cbn; [done|done| |done]. unfold backoff. lia.
Qed.
End Cycle.

(** ** Bounded concurrency *)

Section Pool.
Context {R : Type}.

(** The runners' current items, the next item to start, the results so far. *)
Record pool := Pool { next : nat; running : list (option nat); results : list (option R) }.

Inductive pool_event := Take (r : nat) | Finish (r : nat) (out : R).

(** [runWithConcurrency] over [n] items: its start and the two things a runner
    does ([None]: not possible now). *)
Definition pool_init (n limit : nat) : pool := Pool 0 (replicate (min limit n) None) (replicate n None).

Definition pool_step (p : pool) (e : pool_event) : option pool :=
  match e with
  | Take r =>
    match p.(running) !! r with
    | Some None => if (p.(next) <? length p.(results))%nat
                   then Some (Pool (S p.(next)) (<[r := Some p.(next)]> p.(running)) p.(results)) else None
    | _ => None
    end
  | Finish r out =>
    match p.(running) !! r with
    | Some (Some i) => Some (Pool p.(next) (<[r := None]> p.(running)) (<[i := Some out]> p.(results)))
    | _ => None
    end
  end.

Fixpoint runWithConcurrency (p : pool) (es : list pool_event) : option pool :=
  match es with
  | [] => Some p
  | e :: es' => match pool_step p e with Some p' => runWithConcurrency p' es' | None => None end
  end.

Record pool_inv (n limit : nat) (p : pool) : Prop := {
  pi_results : length (results p) = n;
  pi_running : length (running p) = min limit n;
  pi_next : (next p <= n)%nat;
  pi_busy : forall r i, running p !! r = Some (Some i) -> (i < next p)%nat /\ results p !! i = Some None;
  pi_once : forall r r' i, running p !! r = Some (Some i) -> running p !! r' = Some (Some i) -> r = r';
  pi_done : forall i, (i < next p)%nat -> (exists r, running p !! r = Some (Some i)) \/ exists x, results p !! i = Some (Some x);
  pi_later : forall i, (next p <= i < n)%nat -> results p !! i = Some None
}.

Lemma pool_init_inv n limit : pool_inv n limit (pool_init n limit).
Proof.
  split; simpl; try rewrite length_replicate; try done; try lia.
  - intros r i H. apply lookup_replicate in H as [? _]. done.
  - intros r r' i H. apply lookup_replicate in H as [? _]. done.
  - intros i Hi. apply lookup_replicate. split; [done|lia].
Qed.

Lemma pool_step_inv n limit p e p' : pool_inv n limit p -> pool_step p e = Some p' -> pool_inv n limit p'.
Proof.
  intros [H1 H2 H3 H4 H5 H6 H7] Hs. destruct e as [r|r out]; simpl in Hs.
  - destruct (running p !! r) as [[|]|] eqn:Er; try done. destruct (Nat.ltb_spec (next p) (length (results p))); [|done].
    simplify_eq. assert (Hr : (r < length (running p))%nat) by (by eapply lookup_lt_Some).
    split; simpl; try rewrite length_insert; try done; try lia.
    + intros r' i Hi. destruct (decide (r' = r)) as [->|Hne].
      * rewrite list_lookup_insert_eq in Hi by done. simplify_eq. split; [lia|]. apply H7. lia.
      * rewrite list_lookup_insert_ne in Hi by done. destruct (H4 _ _ Hi). split; [lia|done].
    + intros r1 r2 i Ha Hb. destruct (decide (r1 = r)) as [->|]; destruct (decide (r2 = r)) as [->|]; try done.
      * rewrite list_lookup_insert_eq in Ha by done. rewrite list_lookup_insert_ne in Hb by done. simplify_eq.
        destruct (H4 _ _ Hb). lia.
      * rewrite list_lookup_insert_eq in Hb by done. rewrite list_lookup_insert_ne in Ha by done. simplify_eq.
        destruct (H4 _ _ Ha). lia.
      * rewrite list_lookup_insert_ne in Ha, Hb by done. by eapply H5.
    + intros i Hi. destruct (decide (i = next p)) as [->|].
      * left. exists r. by rewrite list_lookup_insert_eq.
      * destruct (H6 i ltac:(lia)) as [[r' Hr']|?]; [left|by right]. exists r'.
        rewrite list_lookup_insert_ne; [done|]. intros <-. congruence.
    + intros i Hi. apply H7. lia.
  - destruct (running p !! r) as [[i|]|] eqn:Er; try done. simplify_eq.
    assert (Hr : (r < length (running p))%nat) by (by eapply lookup_lt_Some).
    destruct (H4 _ _ Er) as [Hi Hri]. assert (Hil : (i < length (results p))%nat) by (by eapply lookup_lt_Some).
    split; simpl; try rewrite length_insert; try done; try lia.
    + intros r' j Hj. destruct (decide (r' = r)) as [->|]; [by rewrite list_lookup_insert_eq in Hj|].
      rewrite list_lookup_insert_ne in Hj by done. destruct (H4 _ _ Hj). split; [done|].
      rewrite list_lookup_insert_ne; [done|]. intros <-. by pose proof (H5 _ _ _ Er Hj).
    + intros r1 r2 j Ha Hb. destruct (decide (r1 = r)) as [->|]; [by rewrite list_lookup_insert_eq in Ha|].
      destruct (decide (r2 = r)) as [->|]; [by rewrite list_lookup_insert_eq in Hb|].
      rewrite list_lookup_insert_ne in Ha, Hb by done. by eapply H5.
    + intros j Hj. destruct (decide (j = i)) as [->|]; [right; exists out; by rewrite list_lookup_insert_eq|].
      destruct (H6 j Hj) as [[r' Hr']|[x Hx]].
      * left. exists r'. rewrite list_lookup_insert_ne; [done|]. intros <-. congruence.
      * right. exists x. by rewrite list_lookup_insert_ne.
    + intros j Hj. rewrite list_lookup_insert_ne by lia. by apply H7.
Qed.

Lemma pool_run_inv n limit es : forall p p', pool_inv n limit p -> runWithConcurrency p es = Some p' -> pool_inv n limit p'.
Proof.
  induction es as [|e es IH]; intros p p' Hi H; simpl in H; [by simplify_eq|].
  destruct (pool_step p e) as [p1|] eqn:E; [|done]. eauto using pool_step_inv.
Qed.

Definition busy (o : option nat) : bool := match o with Some _ => true | None => false end.

(** Work left: two steps per item not yet started, one per item in flight. *)
Definition pool_work (p : pool) : nat :=
  2 * (length p.(results) - p.(next)) + length (List.filter busy p.(running)).

Lemma count_insert (l : list (option nat)) r o : l !! r = Some o -> forall o',
  (length (List.filter busy (<[r := o']> l)) + (if busy o then 1 else 0) =
   length (List.filter busy l) + (if busy o' then 1 else 0))%nat.
Proof.
  revert r. induction l as [|x l IH]; intros [|r] H o'; simpl in H; try done.
  - simplify_eq. simpl. destruct o, o'; simpl; lia.
  - specialize (IH r H o'). simpl. destruct x; simpl; lia.
Qed.

Lemma pool_work_step n limit p e p' : pool_inv n limit p -> pool_step p e = Some p' -> (pool_work p' < pool_work p)%nat.
Proof.
  intros Hi Hs. unfold pool_work. destruct e as [r|r out]; simpl in Hs; destruct (running p !! r) as [o|] eqn:Er; try done.
  - destruct o; [done|]. destruct (Nat.ltb_spec (next p) (length (results p))); [|done]. simplify_eq. simpl.
    pose proof (count_insert _ _ _ Er (Some (next p))). simpl in *. lia.
  - destruct o as [i|]; [|done]. simplify_eq. simpl. rewrite length_insert. pose proof (count_insert _ _ _ Er None). simpl in *. lia.
Qed.

(** No runner is busy and none can take another item: [Promise.all] resolves. *)
Definition quiescent (p : pool) : Prop :=
  (forall r i, running p !! r <> Some (Some i)) /\ (forall r, pool_step p (Take r) = None).

(** Running a worker over [n] items with a positive limit works and ends:
    never more than [limit] items are in flight, no item is taken by two
    runners, every run has at most 2n steps, and when nothing more can happen
    every item has its result at its own index. *)
Theorem concurrency_bounded_and_complete n limit es p : (0 < limit)%nat ->
  runWithConcurrency (pool_init n limit) es = Some p ->
  (length (List.filter busy (running p)) <= limit)%nat /\
  (forall r r' i, running p !! r = Some (Some i) -> running p !! r' = Some (Some i) -> r = r') /\
  (length es <= 2 * n)%nat /\
  (quiescent p -> forall i, (i < n)%nat -> exists x, results p !! i = Some (Some x)).
Proof.
  intros Hlim Hrun. pose proof (pool_run_inv n limit es _ _ (pool_init_inv n limit) Hrun) as Hi.
  split; [|split; [|split]].
  - pose proof (List.filter_length_le busy (running p)).
    rewrite (pi_running _ _ _ Hi) in H. lia.
  - apply (pi_once _ _ _ Hi).
  - assert (Hw : forall es q q', pool_inv n limit q -> runWithConcurrency q es = Some q' -> (length es + pool_work q' <= pool_work q)%nat).
    { clear es p Hrun Hi. induction es as [|e es IH]; intros q q' Hq H; simpl in *; [by simplify_eq|].
      destruct (pool_step q e) as [q1|] eqn:E; [|done]. pose proof (pool_work_step _ _ _ _ _ Hq E).
      specialize (IH q1 q' (pool_step_inv _ _ _ _ _ Hq E) H). lia. }
    specialize (Hw es _ _ (pool_init_inv n limit) Hrun).
    assert (pool_work (pool_init n limit) <= 2 * n)%nat; [|lia]. unfold pool_work. simpl. rewrite length_replicate.
    assert (E : List.filter busy (replicate (min limit n) None) = []).
    { induction (min limit n) as [|m IHm]; [done|exact IHm]. }
    rewrite E. simpl. lia.
  - intros [Hidle Htake] i Hin. destruct (decide (next p < n)%nat) as [Hn|Hn].
    + exfalso. specialize (Htake 0%nat). simpl in Htake. pose proof (pi_running _ _ _ Hi) as Hl.
      destruct (running p !! 0%nat) as [[j|]|] eqn:E0.
      * by apply Hidle in E0.
      * rewrite (pi_results _ _ _ Hi) in Htake. destruct (Nat.ltb_spec (next p) n); [done|lia].
      * apply lookup_ge_None in E0. lia.
    + destruct (pi_done _ _ _ Hi i ltac:(lia)) as [[r Hr]|Hx]; [by apply Hidle in Hr|done].
Qed.
End Pool.


(** ** Starting and stopping *)

Section LifeCycle.
Variable SYNC_INTERVAL_MS : Z.

(** The module's variables, the timers that are pending and the cycles that
    are running. *)
Record service := PollService {
  isPolling : bool; pollingInterval : option nat; timers : list nat; fresh : nat; cycles : nat
}.

Inductive life_event := StartPolling | StopPolling | TimerFires (id : nat) | CycleEnds.

Definition scheduleNextPoll (s : service) : service :=
  if s.(isPolling) then PollService true (Some s.(fresh)) (s.(fresh) :: s.(timers)) (S s.(fresh)) s.(cycles) else s.

(** A call of [pollAllSchools]: it returns at once when polling is off. *)
Definition begin_cycle (s : service) : service :=
  if s.(isPolling) then PollService true s.(pollingInterval) s.(timers) s.(fresh) (S s.(cycles)) else s.

Definition startPolling (s : service) : service :=
  if s.(isPolling) then s else if SYNC_INTERVAL_MS <=? 0 then s else
  begin_cycle (PollService true s.(pollingInterval) s.(timers) s.(fresh) s.(cycles)).

Definition stopPolling (s : service) : service :=
  if s.(isPolling) then
    match s.(pollingInterval) with
    | Some id => PollService false None (List.filter (fun t => negb (t =? id)%nat) s.(timers)) s.(fresh) s.(cycles)
    | None => PollService false None s.(timers) s.(fresh) s.(cycles)
    end
  else s.

Definition life_step (s : service) (e : life_event) : service :=
  match e with
  | StartPolling => startPolling s
  | StopPolling => stopPolling s
  | TimerFires id =>
    if existsb (Nat.eqb id) s.(timers)
    then begin_cycle (PollService s.(isPolling) s.(pollingInterval) (List.filter (fun t => negb (t =? id)%nat) s.(timers)) s.(fresh) s.(cycles))
    else s
  | CycleEnds =>
    match s.(cycles) with
    | O => s
    | S n => scheduleNextPoll (PollService s.(isPolling) s.(pollingInterval) s.(timers) s.(fresh) n)
    end
  end.

Definition idle : service := PollService false None [] 0 0.

(** A restart only happens once the previous cycle has ended. *)
Fixpoint calm (s : service) (es : list life_event) : Prop :=
  match es with
  | [] => True
  | e :: es' => (e = StartPolling -> isPolling s = false -> cycles s = 0%nat) /\ calm (life_step s e) es'
  end.

Record life_inv (s : service) : Prop := {
  li_one : isPolling s = true -> (length (timers s) + cycles s = 1)%nat;
  li_off : isPolling s = false -> timers s = [] /\ (cycles s <= 1)%nat;
  li_timer : forall t, t ∈ timers s -> pollingInterval s = Some t
}.

Lemma filter_out_single t : List.filter (fun x => negb (x =? t)%nat) [t] = [].
Proof. simpl. by rewrite Nat.eqb_refl. Qed.

Lemma life_step_inv s e : life_inv s -> (e = StartPolling -> isPolling s = false -> cycles s = 0%nat) ->
  life_inv (life_step s e).
Proof.
  destruct s as [on iv ts fr cy]. intros [H1 H2 H3] Hc. simpl in *. destruct e as [| |id|]; simpl.
  - unfold startPolling; simpl. destruct on; [by split|]. destruct (SYNC_INTERVAL_MS <=? 0); [by split|].
    destruct (H2 eq_refl) as [-> _]. rewrite (Hc eq_refl eq_refl). split; simpl; [done|done|set_solver].
  - unfold stopPolling; simpl. destruct on; [|by split]. specialize (H1 eq_refl).
    destruct ts as [|t [|t' ts]]; simpl in *.
    + destruct iv; simpl; split; simpl; try done; try (intros; split; [done|lia]); set_solver.
    + rewrite (H3 t ltac:(left)). rewrite Nat.eqb_refl. simpl. split; simpl; [done|intros _; split; [done|lia]|set_solver].
    + lia.
  - destruct (existsb (Nat.eqb id) ts) eqn:Ex; [|by split]. apply existsb_exists in Ex as (t & Ht & ->%Nat.eqb_eq).
    apply list_elem_of_In in Ht. unfold begin_cycle; simpl. destruct on; simpl.
    + specialize (H1 eq_refl). destruct ts as [|u [|u' ts]]; simpl in *; [by apply elem_of_nil in Ht| |lia].
      apply list_elem_of_singleton in Ht as ->. rewrite Nat.eqb_refl. simpl. split; simpl; [lia|done|set_solver].
    + destruct (H2 eq_refl) as [-> _]. by apply elem_of_nil in Ht.
  - destruct cy as [|n]; [by split|]. unfold scheduleNextPoll; simpl. destruct on; simpl.
    + specialize (H1 eq_refl). destruct ts; simpl in *; [|lia]. split; simpl; [lia|done|].
      intros t Ht. apply list_elem_of_singleton in Ht as ->. done.
    + destruct (H2 eq_refl) as [-> ?]. split; simpl; [done|intros; split; [done|lia]|set_solver].
Qed.

(** While polling is on there is exactly one loop: one pending timer or one
    running cycle, never both and never two, provided polling is not restarted
    while a cycle is still running; once stopped, no timer is left. *)
Theorem single_polling_loop es : calm idle es ->
  let s := fold_left life_step es idle in
  (isPolling s = true -> (length (timers s) + cycles s = 1)%nat) /\
  (isPolling s = false -> timers s = [] /\ (cycles s <= 1)%nat).
Proof.
  cbv zeta. intros Hc. assert (Hi : life_inv (fold_left life_step es idle)).
  { assert (H0 : life_inv idle) by (split; simpl; [done|intros; split; [done|lia]|set_solver]).
    revert H0 Hc. generalize idle. induction es as [|e es IH]; intros s Hs Hc; [done|]. simpl in *.
    destruct Hc as [He Hc]. apply IH; [by apply life_step_inv|done]. }
  split; apply Hi.
Qed.

(** Restarting while a cycle runs starts a second loop that never ends: both
    cycles schedule a successor, and stopping cancels only one timer. *)
Theorem restart_doubles_polling : 0 < SYNC_INTERVAL_MS ->
  let s := fold_left life_step [StartPolling; StopPolling; StartPolling] idle in
  let s' := fold_left life_step [CycleEnds; CycleEnds] s in
  cycles s = 2%nat /\ length (timers s') = 2%nat /\ length (timers (stopPolling s')) = 1%nat.
Proof. intros H. unfold idle, fold_left, life_step, startPolling. simpl. destruct (Z.leb_spec SYNC_INTERVAL_MS 0); [lia|done]. Qed.
End LifeCycle.

(** ** Instances of the properties *)

Definition lt0 (tok : string) (memo : option string) : ltx :=
  Ltx (Transaction tok (Some true) None (Some "text") memo None "" None None) (Some tok) (Some 0).
Definition hist0 : list ltx := [lt0 "a" None; lt0 "b" (Some "STU1"); lt0 "c" None].
Definition fetch0 (k : nat) (c : option string) (n : nat) : result herror (list ltx) := Ok (take n (after hist0 c)).
Definition bp0 : backpressure := getQueueBackpressureState 1000 800 500.

Lemma poll_gap_free_witness :
  let g := Progress (W := nat) (Some "a") None 0%nat in
  let process := fun (t : ltx) w => (S w, Ok true) in
  exists seen, after hist0 (Some "a") = seen ++ after hist0 (or_null (g_db (pollSchoolTransactions process fetch0 None 20 bp0 true g).1)).
Proof.
  cbv zeta.
  destruct (pollSchoolTransactions (fun (t : ltx) (w : nat) => (S w, Ok true)) fetch0 None 20 bp0 true (Progress (Some "a") None 0%nat))
    as [g' res] eqn:E.
  destruct (poll_gap_free (fun (t : ltx) (w : nat) => (S w, Ok true)) fetch0 None 20 hist0
    ltac:(repeat constructor; discriminate) ltac:(by_decision)
    ltac:(intros k c n recs [= <-]; reflexivity) bp0 true
    (Progress (Some "a") None 0%nat) g' res [lt0 "a" None]) as (seen & _ & _ & _ & _ & H & _).
  - split; [reflexivity|]. exists (lt0 "a" None). done.
  - exact E.
  - exists seen. exact H.
Defined.

Lemma valid_payment_blocks_cursor_witness :
  g_db (foldl (fun g (pb : backpressure * bool) =>
     (pollSchoolTransactions (process_poll (SDK := exact_sdk) xlm [] "GW" (fun _ => Ok [pay_op "GW" "1.5"])) fetch0 None 20 pb.1 pb.2 g).1)
     (Progress None None tt) [(bp0, true); (bp0, true)]) = None.
Proof.
  destruct (extractValidPayment (SDK := exact_sdk) xlm (Ok [pay_op "GW" "1.5"]) (l_tx (lt0 "b" (Some "STU1"))) "GW") as [[v|]|] eqn:E.
  - refine (valid_payment_blocks_cursor (SDK := exact_sdk) xlm [] "GW" (fun _ => Ok [pay_op "GW" "1.5"]) fetch0 None 20 hist0
      (lt0 "b" (Some "STU1")) v _ (Progress None None tt) _ _ _ _ E).
    + intros k c n recs [= <-]. reflexivity.
    + right. left.
    + reflexivity.
    + apply not_elem_of_nil.
  - vm_compute in E. discriminate.
  - vm_compute in E. discriminate.
Defined.

Lemma batch_size_bounds_witness :
  getEffectiveBatchSize bp0 650 = of_Z 0 \/
  num_le (of_Z 5) (getEffectiveBatchSize bp0 650) = true /\ num_le (getEffectiveBatchSize bp0 650) (of_Z 50) = true.
Proof. refine (batch_size_bounds bp0 650 _ _); vm_compute; discriminate. Defined.

Lemma backoff_closed_form_witness :
  currentIntervalMs (run_cycles 30000 300000 [(1, Crashed); (2, NoSchools); (3, Results [("S", Fulfilled (Failed None false))])]
    (started 30000) (PollBudget.budget_constructor 10)) = 120000.
Proof.
  refine (eq_trans (proj1 (proj2 (proj2 (backoff_closed_form 30000 300000 _ (PollBudget.budget_constructor 10) _)))) _); [lia|reflexivity].
Defined.

Definition pool3 : pool := Pool 3 [None; None] [Some "a"; Some "b"; Some "c"].

Lemma concurrency_bounded_and_complete_witness :
  exists x, results pool3 !! 2%nat = Some (Some x).
Proof.
  refine (proj2 (proj2 (proj2 (concurrency_bounded_and_complete 3 2
    [Take 0; Take 1; Finish 1 "b"; Take 1; Finish 0 "a"; Finish 1 "c"] pool3 _ _))) _ 2%nat _); [lia|reflexivity| |lia].
  split; intros [|[|r]]; done.
Defined.

Lemma single_polling_loop_witness :
  let s := fold_left (life_step 30000) [StartPolling; CycleEnds; TimerFires 0] idle in
  isPolling s = true -> (length (timers s) + cycles s = 1)%nat.
Proof.
  cbv zeta. refine (proj1 (single_polling_loop 30000 [StartPolling; CycleEnds; TimerFires 0] _)).
  simpl. repeat split; done.
Defined.

Lemma restart_doubles_polling_witness :
  cycles (fold_left (life_step 30000) [StartPolling; StopPolling; StartPolling] idle) = 2%nat.
Proof. exact (proj1 (restart_doubles_polling 30000 ltac:(lia))). Defined.

End Poller.
