(* ===== verification/AuditChain.v ===== *)
(** The audit log: backend/src/services/auditService.js over
    backend/src/models/auditLogModel.js.

    Canonical serialisation, entry hashes, appending with its sequence
    reservation as the database driver executes it, verification of the chain,
    listing limits and the failure counter.  The HMAC of a serialised value is
    a parameter.  The paginated listing is not modelled: it reads two variables
    that are declared nowhere. *)

From Stdlib Require Import ZArith QArith Qreduction Lia Sorting.Sorted.
From stdpp Require Import base list strings sorting countable pretty.
From S2P Require Import Prelude JsNumber.
Local Open Scope string_scope.
Local Open Scope Z_scope.
Local Open Scope list_scope.

Module AuditChain.

(** ** Canonical form *)

(** JavaScript values as they occur in an entry; an object is the list of its
    own properties in order. *)
Inductive jsval :=
| JNull | JUndefined | JBool (b : bool) | JNumber (n : number) | JString (s : string)
| JDate (iso : string) | JObjectId (hex : string)
| JArray (l : list jsval) | JObject (props : list (string * jsval)).

(** Values after [_canonicalize] as JSON.stringify writes them: a finite number
    by its value (in lowest terms here), NaN and the infinities as null. *)
Inductive json :=
| CNull | CBool (b : bool) | CNumber (q : Q) | CString (s : string)
| CArray (l : list json) | CObject (props : list (string * json)).

(** The order of [Array.prototype.sort] on property names. *)
Definition key_cmp {A} (a b : string * A) : Z :=
  if decide (a.1 = b.1) then 0 else if decide (String.le a.1 b.1) then -1 else 1.

Fixpoint _canonicalize (v : jsval) : json :=
  match v with
  | JNull | JUndefined => CNull
  | JDate iso => CObject [("$date", CString iso)]
  | JArray l => CArray (map _canonicalize l)
  | JObjectId hex => CObject [("$oid", CString hex)]
  | JObject props => CObject (js_sort key_cmp (map (fun kv => (kv.1, _canonicalize kv.2)) props))
  | JBool b => CBool b
  | JNumber (Fin q) => CNumber (Qred q)
  | JNumber _ => CNull
  | JString s => CString s
  end.

Section KeyOrder.
Context {A : Type}.

Lemma key_cmp_le (a b : string * A) : key_cmp a b <= 0 <-> String.le a.1 b.1.
Proof.
  unfold key_cmp. destruct (decide (a.1 = b.1)) as [E|E].
  - split; [intros _|lia]. rewrite E. reflexivity.
  - destruct (decide (String.le a.1 b.1)); split; intros; try done; lia.
Qed.

Lemma key_cmp_total (a b : string * A) : key_cmp a b <= 0 \/ key_cmp b a <= 0.
Proof. rewrite !key_cmp_le. apply (total String.le). Qed.

Lemma key_cmp_trans (a b c : string * A) : key_cmp a b <= 0 -> key_cmp b c <= 0 -> key_cmp a c <= 0.
Proof. rewrite !key_cmp_le. intros H1 H2. by etrans. Qed.

(** Sorting properties with distinct names forgets the order they came in. *)
Lemma sort_keys_perm (l1 l2 : list (string * A)) : NoDup (map fst l1) -> l1 ≡ₚ l2 ->
  js_sort key_cmp l1 = js_sort key_cmp l2.
Proof.
  intros Hn Hp. apply (js_sort_unique key_cmp (fun _ => True)); try done.
  - intros a b _ _. apply key_cmp_total.
  - intros a b c _ _ _. apply key_cmp_trans.
  - by apply Forall_true.
  - intros a b Ha Hb Hab Hba. unfold cmp_le in *. apply key_cmp_le in Hab, Hba.
    assert (a.1 = b.1) by (by apply (anti_symm String.le)).
    by apply (NoDup_fmap_eq fst l1).
Qed.
End KeyOrder.

(** Values that differ only in the order of properties, at any depth. *)
Inductive same_value : jsval -> jsval -> Prop :=
| SV_refl v : same_value v v
| SV_undefined : same_value JNull JUndefined
| SV_array l l' : Forall2 same_value l l' -> same_value (JArray l) (JArray l')
| SV_object ps ps' qs : NoDup (map fst ps) ->
    Forall2 (fun p q => p.1 = q.1 /\ same_value p.2 q.2) ps ps' -> ps' ≡ₚ qs ->
    same_value (JObject ps) (JObject qs).

(** The canonical form depends on the value only, not on the order in which
    properties are stored or read back. *)
Lemma canonical_stable : forall v v', same_value v v' -> _canonicalize v = _canonicalize v'.
Proof.
  fix IH 3. intros v v' H. destruct H as [v| |l l' Hl|ps ps' qs Hn Hf Hp].
  - reflexivity.
  - reflexivity.
  - cbn [_canonicalize]. f_equal. induction Hl as [|x y l l' Hxy Hl IHl]; [reflexivity|].
    cbn [map]. rewrite (IH x y Hxy), IHl. reflexivity.
  - cbn [_canonicalize]. f_equal.
    assert (E : map (fun kv => (kv.1, _canonicalize kv.2)) ps = map (fun kv => (kv.1, _canonicalize kv.2)) ps').
    { clear Hn Hp qs. induction Hf as [|p q ps ps' Hpq Hf IHf]; [reflexivity|].
      destruct Hpq as [E1 E2]. cbn [map]. rewrite E1, (IH _ _ E2), IHf. reflexivity. }
    rewrite E. apply sort_keys_perm.
    + rewrite <- E, map_map. exact Hn.
    + apply Permutation_map. exact Hp.
Qed.

(** ** Entries *)

Record entry := Entry {
  e_id : nat;
  schoolId : string; action : option string; performedBy : option string; targetId : option string;
  targetType : option string; details : jsval; result_ : option string; errorMessage : option string;
  ipAddress : option string; userAgent : option string;
  prevHash : option string; entryHash : option string; createdAt : string
}.

Definition opt_str (o : option string) : jsval := match o with Some s => JString s | None => JNull end.

Section Hash.
(** [crypto.createHmac('sha256', key).update(JSON.stringify(v)).digest('hex')] *)
Variable hmac : json -> string.

(** The canonical fields of an entry: everything but the user agent. *)
Definition hash_fields (e : entry) : jsval :=
  JObject [("schoolId", JString e.(schoolId)); ("action", opt_str e.(action)); ("performedBy", opt_str e.(performedBy));
           ("targetId", opt_str e.(targetId)); ("targetType", opt_str e.(targetType)); ("details", e.(details));
           ("result", opt_str e.(result_)); ("errorMessage", opt_str e.(errorMessage)); ("ipAddress", opt_str e.(ipAddress));
           ("prevHash", opt_str e.(prevHash)); ("createdAt", JString e.(createdAt))].

Definition _computeEntryHash (e : entry) : string := hmac (_canonicalize (hash_fields e)).

(** ** Verification *)

Inductive broken_reason := entryHash_mismatch | chain_link_broken.

Fixpoint verify_loop (entries : list entry) (prev : option string) : list (nat * broken_reason) :=
  match entries with
  | [] => []
  | e :: es =>
    (if negb (bool_decide (Some (_computeEntryHash e) = e.(entryHash))) then [(e.(e_id), entryHash_mismatch)]
     else if negb (bool_decide (e.(prevHash) = prev)) then [(e.(e_id), chain_link_broken)] else [])
    ++ verify_loop es e.(entryHash)
  end.

(** [found] is what the query returns, in its order. *)
Definition verifyAuditChain (found : list entry) (limit : nat) : bool * nat * list (nat * broken_reason) :=
  let entries := take limit found in
  let broken := verify_loop entries None in
  ((length broken =? 0)%nat, length entries, broken).

(** A chain in the intended sense: every entry carries its hash and points to
    its predecessor's. *)
Fixpoint chained (es : list entry) (prev : option string) : Prop :=
  match es with
  | [] => True
  | e :: es' => entryHash e = Some (_computeEntryHash e) /\ prevHash e = prev /\ chained es' (entryHash e)
  end.

Lemma verify_loop_nil es prev : verify_loop es prev = [] <-> chained es prev.
Proof.
  revert prev. induction es as [|e es IH]; intros prev; [done|]. cbn [verify_loop chained].
  rewrite <- IH. destruct (decide (Some (_computeEntryHash e) = entryHash e)) as [E|E].
  - rewrite bool_decide_true by done. destruct (decide (prevHash e = prev)) as [E2|E2].
    + rewrite bool_decide_true by done. cbn [negb app]. split; [|by intros (_ & _ & ?)]. intros ?. done.
    + rewrite bool_decide_false by done. split; [done|]. by intros (_ & ? & _).
  - rewrite bool_decide_false by done. split; [done|]. intros (? & _). congruence.
Qed.

Definition last_hash (es : list entry) : option string := last es ≫= entryHash.

Lemma chained_snoc es e prev : chained (es ++ [e]) prev <->
  chained es prev /\ entryHash e = Some (_computeEntryHash e) /\
  prevHash e = match last es with Some l => entryHash l | None => prev end.
Proof.
  revert prev. induction es as [|x es IH]; intros prev; simpl; [tauto|]. rewrite IH.
  assert (E : match last es with Some l => entryHash l | None => entryHash x end =
              match last (x :: es) with Some l => entryHash l | None => prev end).
  { rewrite last_cons. by destruct (last es). }
  rewrite E. simpl. tauto.
Qed.

(** Distinct contents have distinct hashes. *)
Hypothesis collision_free : forall a b : json, hmac a = hmac b -> a = b.

(** The part of an entry that its hash covers. *)
Definition sealed (e : entry) : json := _canonicalize (hash_fields e).

Lemma opt_str_inj a b : _canonicalize (opt_str a) = _canonicalize (opt_str b) -> a = b.
Proof. destruct a, b; simpl; congruence. Qed.

Lemma sealed_sorted e : sealed e =
  CObject [("action", _canonicalize (opt_str e.(action))); ("createdAt", CString e.(createdAt));
           ("details", _canonicalize e.(details)); ("errorMessage", _canonicalize (opt_str e.(errorMessage)));
           ("ipAddress", _canonicalize (opt_str e.(ipAddress))); ("performedBy", _canonicalize (opt_str e.(performedBy)));
           ("prevHash", _canonicalize (opt_str e.(prevHash))); ("result", _canonicalize (opt_str e.(result_)));
           ("schoolId", CString e.(schoolId)); ("targetId", _canonicalize (opt_str e.(targetId)));
           ("targetType", _canonicalize (opt_str e.(targetType)))].
Proof. reflexivity. Qed.

Lemma sealed_prev a b : sealed a = sealed b -> prevHash a = prevHash b.
Proof. rewrite !sealed_sorted. intros H. injection H. intros. by apply opt_str_inj. Qed.

(** In a chain as it is meant to be, tampering is evident: two logs that both verify and end in the
    same hash have the same sealed contents, entry by entry; so changing,
    inserting, removing or reordering anything before a known last entry is
    detected. *)
Theorem chain_tamper_evident l1 l2 :
  (verifyAuditChain l1 (length l1)).1.1 = true -> (verifyAuditChain l2 (length l2)).1.1 = true ->
  last_hash l1 = last_hash l2 -> map sealed l1 = map sealed l2.
Proof.
  unfold verifyAuditChain. cbn [fst]. rewrite !firstn_all, !Nat.eqb_eq.
  intros H1 H2. apply nil_length_inv in H1, H2. apply verify_loop_nil in H1, H2. revert l2 H1 H2.
  induction l1 as [|e1 l1 IH] using rev_ind; intros l2 H1 H2 Hl.
  - destruct l2 as [|e2 l2 _] using rev_ind; [done|]. apply chained_snoc in H2 as (_ & H2 & _).
    unfold last_hash in Hl. rewrite last_snoc in Hl. simpl in Hl. congruence.
  - apply chained_snoc in H1 as (H1 & Hh1 & Hp1). destruct l2 as [|e2 l2 _] using rev_ind.
    { unfold last_hash in Hl. rewrite last_snoc in Hl. simpl in Hl. congruence. }
    apply chained_snoc in H2 as (H2 & Hh2 & Hp2). unfold last_hash in Hl. rewrite !last_snoc in Hl. simpl in Hl.
    assert (Hs : sealed e1 = sealed e2) by (apply collision_free; unfold _computeEntryHash, sealed in *; congruence).
    rewrite !map_app. simpl. rewrite Hs. f_equal. apply IH; [done|done|].
    apply sealed_prev in Hs. rewrite Hp1, Hp2 in Hs. unfold last_hash.
    destruct (last l1), (last l2); simpl; congruence.
Qed.

(** Cutting off the end is not detected: every prefix of a log that verifies
    verifies. *)
Lemma truncation_undetected l n : chained l None -> chained (take n l) None.
Proof.
  generalize (@None string). revert n. induction l as [|e l IH]; intros n prev H; [by rewrite take_nil|].
  destruct n; [done|]. simpl in *. destruct H as (? & ? & ?). eauto.
Qed.

(** ** Appending, as the database executes it *)

Definition TARGET_TYPES : list string :=
  ["student"; "payment"; "fee"; "school"; "user"; "webhook"; "academicPeriod"; "auth"].

(** The service: the collection in natural order and the failure counter. *)
Record audit := Audit { logs : list entry; _auditFailureCount : Z; next_id : nat }.

Definition getAuditHealth (s : audit) : string * Z :=
  (if s.(_auditFailureCount) =? 0 then "ok" else "degraded", s.(_auditFailureCount)).

(** [findOneAndUpdate({ schoolId, seq: { $exists: false } }, { $inc: { seq: 1 } },
    { upsert: true })].  The schema has no [seq], so in strict mode the
    increment is dropped: any entry of the school matches the filter and only
    its update time changes; when there is none, a document without an action
    is inserted.  The sequence number read from the answer is undefined. *)
Definition _reserveSequence (now sid : string) (s : audit) : audit * option Z :=
  if existsb (fun e => bool_decide (e.(schoolId) = sid)) s.(logs) then (s, None)
  else (Audit (s.(logs) ++ [Entry s.(next_id) sid None None None None (JObject []) (Some "success") None None None None None now])
              s.(_auditFailureCount) (S s.(next_id)), None).

(** A lookup with an undefined sequence number finds nothing: [NaN <= 0] is
    false and no stored entry has a [seq] field. *)
Definition _getHashAtSeq (seq : option Z) (s : audit) : option string := None.

Record request := Request {
  q_action : string; q_by : string; q_target : string; q_type : string; q_details : jsval;
  q_result : string; q_error : option string; q_ip : option string; q_ua : option string
}.

(** Mongoose's validation of the new document. *)
Definition validates (r : request) : bool :=
  bool_decide (r.(q_action) <> "") && bool_decide (r.(q_by) <> "") && bool_decide (r.(q_target) <> "")
  && bool_decide (r.(q_type) ∈ TARGET_TYPES) && bool_decide (r.(q_result) ∈ ["success"; "failure"]).

(** [logAudit]; the retry on a duplicate key never happens since no unique
    index covers the entries. *)
Definition logAudit (now sid : string) (r : request) (s : audit) : audit :=
  let '(s1, seq) := _reserveSequence now sid s in
  let prev := _getHashAtSeq (option_map (fun z => z - 1) seq) s1 in
  let draft := Entry s1.(next_id) sid (Some r.(q_action)) (Some r.(q_by)) (Some r.(q_target)) (Some r.(q_type))
                 r.(q_details) (Some r.(q_result)) r.(q_error) r.(q_ip) r.(q_ua) prev None now in
  let e := Entry s1.(next_id) sid (Some r.(q_action)) (Some r.(q_by)) (Some r.(q_target)) (Some r.(q_type))
             r.(q_details) (Some r.(q_result)) r.(q_error) r.(q_ip) r.(q_ua) prev (Some (_computeEntryHash draft)) now in
  if validates r then Audit (s1.(logs) ++ [e]) s1.(_auditFailureCount) (S s1.(next_id))
  else Audit s1.(logs) (s1.(_auditFailureCount) + 1) s1.(next_id).

Definition log_all (sid : string) (rs : list (string * request)) (s : audit) : audit :=
  foldl (fun s nr => logAudit nr.1 sid nr.2 s) s rs.

Definition of_school (sid : string) (s : audit) : list entry :=
  List.filter (fun e => bool_decide (e.(schoolId) = sid)) s.(logs).

Lemma verify_loop_mismatch e es prev : e ∈ es -> entryHash e = None -> verify_loop es prev <> [].
Proof.
  intros Hin Hn H. apply verify_loop_nil in H. revert prev H. induction es as [|x es IH]; intros prev H; [by apply elem_of_nil in Hin|].
  simpl in H. destruct H as (Hx & _ & H). apply elem_of_cons in Hin as [->|Hin]; [congruence|by eapply IH].
Qed.

Lemma logAudit_keeps now sid r s e : e ∈ logs s -> e ∈ logs (logAudit now sid r s).
Proof.
  intros H. unfold logAudit, _reserveSequence. destruct (existsb _ _); simpl; destruct (validates r); simpl;
    rewrite ?elem_of_app; auto.
Qed.

(** As written the chain never verifies: after the first audited action of
    a school, whatever follows, verification reports a broken chain in every
    order the database may return the entries in. *)
Theorem audit_log_never_verifies sid nr rs found : let s := log_all sid (nr :: rs) (Audit [] 0 0) in
  found ≡ₚ of_school sid s -> (verifyAuditChain found (length found)).1.1 = false.
Proof.
  cbv zeta. intros Hp. set (stub := Entry 0 sid None None None None (JObject []) (Some "success") None None None None None nr.1).
  assert (Hin : stub ∈ logs (log_all sid (nr :: rs) (Audit [] 0 0))).
  { clear Hp. cbn [log_all foldl]. assert (H0 : stub ∈ logs (logAudit nr.1 sid nr.2 (Audit [] 0 0))).
    { unfold logAudit, _reserveSequence. cbn [existsb logs app]. destruct (validates nr.2); simpl; by left. }
    fold (log_all sid rs (logAudit nr.1 sid nr.2 (Audit [] 0 0))). revert H0. generalize (logAudit nr.1 sid nr.2 (Audit [] 0 0)).
    unfold log_all. induction rs as [|r rs IH]; intros s H; [done|]. apply IH. by apply logAudit_keeps. }
  assert (Hf : stub ∈ found).
  { rewrite Hp. apply elem_of_filterb. split; [|done]. simpl. by apply bool_decide_eq_true. }
  unfold verifyAuditChain. cbn [fst]. rewrite firstn_all. apply Nat.eqb_neq. intros Hl. apply nil_length_inv in Hl.
  by apply (verify_loop_mismatch stub found None).
Qed.

(** *** What verification can tell of a log the service wrote *)









(** An entry whose target type is not in the model's list is lost: only the
    failure counter tells. *)
Lemma unlisted_target_lost now sid r s : q_type r ∉ TARGET_TYPES ->
  _auditFailureCount (logAudit now sid r s) = _auditFailureCount s + 1 /\
  forall e, e ∈ logs (logAudit now sid r s) -> e ∈ logs s \/ action e = None.
Proof.
  intros Hn. assert (Hv : validates r = false).
  { unfold validates. rewrite (bool_decide_eq_false_2 (q_type r ∈ TARGET_TYPES)) by done. by rewrite !andb_false_r. }
  unfold logAudit, _reserveSequence. destruct (existsb _ _); rewrite Hv; simpl; split; try done; [auto|].
  intros e He. apply elem_of_app in He as [?|He]; [by left|right]. apply list_elem_of_singleton in He as ->. done.
Qed.
End Hash.

(** ** Limits of the listings *)

Definition MAX_PAGE_SIZE : Z := 200.
Definition MAX_EXPORT_ROWS : Z := 10000.

(** [Math.min(Math.max(parseInt(x, 10) || d, 1), cap)]; [None] is NaN. *)
Definition clamp_limit (parsed : option Z) (d cap : Z) : Z :=
  Z.min (Z.max (match parsed with Some z => if z =? 0 then d else z | None => d end) 1) cap.

Definition exportLimit (parsed : option Z) : Z := clamp_limit parsed MAX_EXPORT_ROWS MAX_EXPORT_ROWS.

Lemma clamp_limit_range p d cap : 1 <= cap -> 1 <= clamp_limit p d cap <= cap.
Proof. unfold clamp_limit. lia. Qed.

(** ** Instances of the properties *)

(** A collision-free stand-in for the HMAC: the number that codes the value. *)
Fixpoint json_tree (v : json) : gen_tree (bool + Z + string) :=
  match v with
  | CNull => GenNode 0 []
  | CBool b => GenLeaf (inl (inl b))
  | CNumber q => GenNode 4 [GenLeaf (inl (inr (Qnum q))); GenLeaf (inl (inr (Z.pos (Qden q))))]
  | CString s => GenLeaf (inr s)
  | CArray l => GenNode 1 (map json_tree l)
  | CObject ps => GenNode 2 (map (fun kv => GenNode 3 [GenLeaf (inr kv.1); json_tree kv.2]) ps)
  end.

Lemma json_tree_inj : forall a b, json_tree a = json_tree b -> a = b.
Proof.
  fix IH 1. intros a b. destruct a as [| | | |l|ps], b as [| | | |l'|ps']; simpl; try discriminate; intros H.
  - reflexivity.
  - injection H as ->. reflexivity.
  - destruct q as [n d], q0 as [n' d']. injection H as H1 H2. simpl in *. subst. reflexivity.
  - injection H as ->. reflexivity.
  - injection H as H. f_equal. revert l' H. induction l as [|x l IHl]; intros [|y l'] H; simpl in H; try discriminate; [reflexivity|].
    injection H as H1 H2. rewrite (IH _ _ H1), (IHl _ H2). reflexivity.
  - injection H as H. f_equal. revert ps' H. induction ps as [|[k x] ps IHl]; intros [|[k' y] ps'] H; simpl in H; try discriminate; [reflexivity|].
    injection H as H0 H1 H2. rewrite H0, (IH _ _ H1), (IHl _ H2). reflexivity.
Qed.

Definition code_hash (v : json) : string := pretty (Npos (encode (json_tree v))).

Lemma code_hash_free a b : code_hash a = code_hash b -> a = b.
Proof.
  intros H. unfold code_hash in H. apply (inj pretty) in H. injection H as H.
  apply (inj encode) in H. by apply json_tree_inj.
Qed.

Definition entry1 : entry :=
  Entry 0 "S1" (Some "refund") (Some "admin") (Some "tx1") (Some "payment") (JObject [("b", JNumber (of_Z 1)); ("a", JNull)])
    (Some "success") None None None None
    (Some (_computeEntryHash code_hash (Entry 0 "S1" (Some "refund") (Some "admin") (Some "tx1") (Some "payment")
       (JObject [("b", JNumber (of_Z 1)); ("a", JNull)]) (Some "success") None None None None None "t"))) "t".

(** The same entry as seen by another client: the user agent is not sealed. *)
Definition entry1' : entry :=
  Entry 7 "S1" (Some "refund") (Some "admin") (Some "tx1") (Some "payment") (JObject [("a", JUndefined); ("b", JNumber (of_Z 1))])
    (Some "success") None None (Some "curl") None entry1.(entryHash) "t".

Lemma entry1_verifies : (verifyAuditChain code_hash [entry1] 1).1.1 = true.
Proof. unfold verifyAuditChain. cbn [fst take verify_loop]. rewrite !bool_decide_true by reflexivity. reflexivity. Qed.

Lemma entry1'_verifies : (verifyAuditChain code_hash [entry1'] 1).1.1 = true.
Proof. unfold verifyAuditChain. cbn [fst take verify_loop]. rewrite !bool_decide_true by reflexivity. reflexivity. Qed.

Lemma chain_tamper_evident_witness : map sealed [entry1] = map sealed [entry1'].
Proof.
  refine (chain_tamper_evident code_hash code_hash_free [entry1] [entry1'] _ _ _);
    [exact entry1_verifies|exact entry1'_verifies|reflexivity].
Defined.



Lemma audit_log_never_verifies_witness :
  let r := Request "fee_update" "admin" "s1" "student" (JObject []) "success" None None None in
  let found := of_school "S1" (log_all code_hash "S1" [("t1", r); ("t2", r)] (Audit [] 0 0)) in
  (verifyAuditChain code_hash found (length found)).1.1 = false.
Proof. cbv zeta. refine (audit_log_never_verifies code_hash "S1" _ _ _ _). reflexivity. Defined.

End AuditChain.
