(* ===== verification/LeaderElection.v ===== *)
(** Leader election and durable jobs: backend/src/services/leaderElection.js.

    The lock document in the system configuration, the instances that compete
    for it, the schedulers each starts and stops, and the registry of jobs
    that run at most once per interval.  The database model the service
    requires is not in the repository: whether it stores the expiry is a
    parameter. *)

From Stdlib Require Import ZArith Lia.
From stdpp Require Import base list strings gmap.
From S2P Require Import Prelude.
Local Open Scope string_scope.
Local Open Scope Z_scope.
Local Open Scope list_scope.

Module LeaderElection.

(** ** The lock document *)

Record lock_doc := LockDoc { value : option string; expiresAt : option Z }.

Section Election.
Variable leaseDurationMs : Z.
(** Does the model keep the [expiresAt] field of an update? *)
Variable stores_expiry : bool.

Definition stored (t : Z) (old : option Z) : option Z := if stores_expiry then Some t else old.

Definition lapsed (now : Z) (d : lock_doc) : bool :=
  match d.(value) with None => true | Some _ => false end
  || match d.(expiresAt) with Some t => t <? now | None => false end.

(** The upsert inserts when there is no document, updates a free or lapsed
    one, and hits the unique key otherwise. *)
Definition acquireLock (now : Z) (doc : option lock_doc) : option lock_doc * bool :=
  match doc with
  | None => (Some (LockDoc (Some "locked") (stored (now + leaseDurationMs) None)), true)
  | Some d => if lapsed now d
              then (Some (LockDoc (Some "locked") (stored (now + leaseDurationMs) d.(expiresAt))), true)
              else (Some d, false)
  end.

Definition renewLock (now : Z) (doc : option lock_doc) : option lock_doc * bool :=
  match doc with
  | Some d => if decide (d.(value) = Some "locked")
              then (Some (LockDoc (Some "locked") (stored (now + leaseDurationMs) d.(expiresAt))), true)
              else (Some d, false)
  | None => (None, false)
  end.

Definition releaseLock (doc : option lock_doc) : option lock_doc :=
  match doc with
  | Some d => if decide (d.(value) = Some "locked") then Some (LockDoc (Some "") (stored 0 d.(expiresAt))) else Some d
  | None => None
  end.

(** ** The instances *)

(** What an instance keeps: whether it leads, whether its timer is set and
    whether the leader's schedulers run. *)
Record instance := Instance { isLeader : bool; renewTimer : bool; schedulersOn : bool }.

Record cluster := Cluster { doc : option lock_doc; nodes : gmap nat instance }.

Definition node (i : nat) (c : cluster) : instance := default (Instance false false false) (nodes c !! i).

Definition set_node (i : nat) (n : instance) (c : cluster) (d : option lock_doc) : cluster :=
  Cluster d (<[i := n]> (nodes c)).

(** The timer's callback. *)
Definition tick (now : Z) (i : nat) (c : cluster) : cluster :=
  let n := node i c in
  if n.(isLeader) then
    let '(d, renewed) := renewLock now c.(doc) in
    if renewed then set_node i n c d else set_node i (Instance false n.(renewTimer) false) c d
  else
    let '(d, acquired) := acquireLock now c.(doc) in
    if acquired then set_node i (Instance true n.(renewTimer) true) c d else set_node i n c d.

Definition start (now : Z) (i : nat) (c : cluster) : cluster :=
  let '(d, acquired) := acquireLock now c.(doc) in
  let n := node i c in
  if acquired then set_node i (Instance true true true) c d
  else set_node i (Instance n.(isLeader) true n.(schedulersOn)) c d.

Definition stop (i : nat) (c : cluster) : cluster :=
  let n := node i c in
  if n.(isLeader) then set_node i (Instance false false false) c (releaseLock c.(doc))
  else set_node i (Instance false false false) c c.(doc).

Inductive event := Start (now : Z) (i : nat) | Tick (now : Z) (i : nat) | Stop (i : nat).

Definition step (c : cluster) (e : event) : cluster :=
  match e with
  | Start now i => start now i c
  | Tick now i => if (node i c).(renewTimer) then tick now i c else c
  | Stop i => stop i c
  end.

Definition run (es : list event) (c : cluster) : cluster := fold_left step es c.

Definition leads (c : cluster) (i : nat) : Prop := isLeader (node i c) = true.

(** The lease of the leader, if there is one, has not lapsed when another
    instance tries to take over. *)
Definition timely1 (c : cluster) (e : event) : Prop :=
  match e with
  | Start now i => forall j, leads c j -> j <> i /\ exists d t, doc c = Some d /\ expiresAt d = Some t /\ now <= t
  | Tick now i => forall j, leads c j -> j <> i -> exists d t, doc c = Some d /\ expiresAt d = Some t /\ now <= t
  | Stop _ => True
  end.

Fixpoint timely (c : cluster) (es : list event) : Prop :=
  match es with [] => True | e :: es' => timely1 c e /\ timely (step c e) es' end.

Record cluster_inv (c : cluster) : Prop := {
  ci_one : forall i j, leads c i -> leads c j -> i = j;
  ci_doc : forall i, leads c i -> exists d, doc c = Some d /\ value d = Some "locked";
  ci_sched : forall i, schedulersOn (node i c) = isLeader (node i c)
}.

Lemma node_set i j n c d : node j (set_node i n c d) = if decide (j = i) then n else node j c.
Proof.
  unfold node, set_node. simpl. destruct (decide (j = i)) as [->|H].
  - by rewrite lookup_insert_eq.
  - by rewrite lookup_insert_ne.
Qed.

Lemma acquire_locked now d d' : value d = Some "locked" -> acquireLock now (Some d) = (d', false) -> d' = Some d.
Proof. unfold acquireLock. destruct (lapsed now d); congruence. Qed.

Lemma acquire_fails now d t : value d = Some "locked" -> expiresAt d = Some t -> now <= t ->
  acquireLock now (Some d) = (Some d, false).
Proof. intros Hv He Ht. unfold acquireLock, lapsed. rewrite Hv, He. destruct (Z.ltb_spec t now); [lia|done]. Qed.

Lemma acquire_takes now od d' : acquireLock now od = (d', true) -> exists d, d' = Some d /\ value d = Some "locked".
Proof. unfold acquireLock. destruct od as [d|]; [destruct (lapsed now d)|]; intros H; simplify_eq; eauto. Qed.

Lemma acquire_refused now od d' : acquireLock now od = (d', false) -> d' = od.
Proof. unfold acquireLock. destruct od as [d|]; [destruct (lapsed now d)|]; intros H; by simplify_eq. Qed.

(** A newcomer that gets the lock meets no leader. *)
Lemma take_over_inv now i n c d : cluster_inv c -> isLeader n = true -> schedulersOn n = true ->
  acquireLock now (doc c) = (d, true) ->
  (forall j, leads c j -> j <> i -> exists d t, doc c = Some d /\ expiresAt d = Some t /\ now <= t) ->
  cluster_inv (set_node i n c d).
Proof.
  intros [H1 H2 H3] Hn Hs Ha Ht.
  assert (Hnone : forall j, leads c j -> j = i).
  { intros j Hj. destruct (decide (j = i)) as [|Hne]; [done|]. destruct (Ht j Hj Hne) as (d0 & t & Hd & He & Hle).
    destruct (H2 j Hj) as (d1 & Hd1 & Hv). rewrite Hd in Hd1. injection Hd1 as <-.
    rewrite Hd, (acquire_fails now d0 t Hv He Hle) in Ha. done. }
  split.
  - intros a b. unfold leads. rewrite !node_set. destruct (decide (a = i)), (decide (b = i)); subst; try done; intros Ha' Hb'.
    + symmetry. by apply Hnone.
    + by apply Hnone.
    + by apply H1.
  - intros j _. by apply acquire_takes in Ha.
  - intros j. rewrite node_set. destruct (decide (j = i)); [congruence|apply H3].
Qed.

(** Replacing a node by one that leads no more than before keeps the order. *)
Lemma demote_inv i n c d : cluster_inv c -> (isLeader n = true -> isLeader (node i c) = true) ->
  schedulersOn n = isLeader n ->
  (forall j, leads (set_node i n c d) j -> exists x, d = Some x /\ value x = Some "locked") ->
  cluster_inv (set_node i n c d).
Proof.
  intros [H1 H2 H3] Hn Hs Hd. split.
  - intros a b. unfold leads. rewrite !node_set. destruct (decide (a = i)), (decide (b = i)); subst; try done; intros Ha' Hb'.
    + apply H1; [by apply Hn|done].
    + apply H1; [done|by apply Hn].
    + by apply H1.
  - exact Hd.
  - intros j. rewrite node_set. destruct (decide (j = i)); [congruence|apply H3].
Qed.

Lemma election_step_inv c e : cluster_inv c -> timely1 c e -> cluster_inv (step c e).
Proof.
  intros Hi Ht. pose proof Hi as [H1 H2 H3]. destruct e as [now i|now i|i]; simpl.
  - unfold start. destruct (acquireLock now (doc c)) as [d []] eqn:Ha.
    + apply (take_over_inv now); try done. intros j Hj _. by apply (Ht j Hj).
    + apply acquire_refused in Ha as ->. apply demote_inv; [done|done|apply H3|].
      intros j. unfold leads. rewrite node_set. destruct (decide (j = i)) as [->|]; simpl; apply H2.
  - destruct (renewTimer (node i c)); [|done]. unfold tick. destruct (isLeader (node i c)) eqn:Hl.
    + destruct (H2 i Hl) as (d & Hd & Hv). unfold renewLock. rewrite Hd, Hv. rewrite decide_True by done.
      apply demote_inv; [done|done|apply H3|]. intros j _. eauto.
    + destruct (acquireLock now (doc c)) as [d []] eqn:Ha.
      * apply (take_over_inv now); try done.
      * apply acquire_refused in Ha as ->. apply demote_inv; [done|congruence|apply H3|].
        intros j. unfold leads. rewrite node_set. destruct (decide (j = i)) as [->|]; [congruence|apply H2].
  - unfold stop. destruct (isLeader (node i c)) eqn:Hl.
    + apply demote_inv; [done|done|done|]. intros j. unfold leads. rewrite node_set. destruct (decide (j = i)) as [|Hne]; [done|].
      intros Hj. exfalso. apply Hne. by apply H1.
    + apply demote_inv; [done|done|done|]. intros j. unfold leads. rewrite node_set. destruct (decide (j = i)) as [|Hne]; [done|]. apply H2.
Qed.

(** C23: as long as a leader's lease has not lapsed when others ask, there is
    never more than one leader, the leader's schedulers run exactly on the
    leader, and the document is locked while there is one. *)
Theorem at_most_one_leader es : timely (Cluster None ∅) es ->
  let c := run es (Cluster None ∅) in
  (forall i j, leads c i -> leads c j -> i = j) /\
  (forall i, schedulersOn (node i c) = isLeader (node i c)).
Proof.
  cbv zeta. intros Ht. assert (Hi : cluster_inv (run es (Cluster None ∅))).
  { assert (H0 : cluster_inv (Cluster None ∅)).
    { split; unfold leads, node; simpl; intros; by rewrite ?lookup_empty in *. }
    revert H0 Ht. generalize (Cluster None ∅). unfold run. induction es as [|e es IH]; intros c Hc Ht; [done|].
    destruct Ht as [H1 H2]. apply IH; [by apply election_step_inv|done]. }
  split; apply Hi.
Qed.

(** If the model does not store the expiry, leadership is lost for good once
    the first leader stops: no later attempt of anyone succeeds. *)
Theorem no_leader_after_stop : stores_expiry = false ->
  forall es i, let c := run ([Start 0 1; Stop 1] ++ es) (Cluster None ∅) in ~ leads c i.
Proof.
  intros Hs es i. cbv zeta. unfold run. rewrite fold_left_app.
  assert (Hgen : forall es c, doc c = Some (LockDoc (Some "") None) -> (forall j, ~ leads c j) ->
            forall i, ~ leads (fold_left step es c) i).
  { clear es i. induction es as [|e es IH]; intros c Hd Hn i; [apply Hn|]. simpl.
    assert (Hacq : forall now, acquireLock now (doc c) = (doc c, false)) by (intros; by rewrite Hd).
    apply IH; clear IH.
    - destruct e as [now j|now j|j]; simpl.
      + unfold start. by rewrite Hacq.
      + destruct (renewTimer _); [|done]. unfold tick. destruct (isLeader (node j c)) eqn:E; [by apply Hn in E|]. by rewrite Hacq.
      + unfold stop. destruct (isLeader (node j c)) eqn:E; [by apply Hn in E|done].
    - intros k. unfold leads. destruct e as [now j|now j|j]; simpl.
      + unfold start. rewrite Hacq, node_set. destruct (decide (k = j)) as [->|]; apply Hn.
      + destruct (renewTimer _); [|apply Hn]. unfold tick. destruct (isLeader (node j c)) eqn:E; [by apply Hn in E|].
        rewrite Hacq, node_set. destruct (decide (k = j)) as [->|]; [by rewrite E|apply Hn].
      + unfold stop. destruct (isLeader (node j c)) eqn:E; [by apply Hn in E|]. rewrite node_set.
        destruct (decide (k = j)) as [->|]; [done|apply Hn]. }
  apply Hgen.
  - unfold step, start, stop, acquireLock, stored, node, set_node. unfold releaseLock, stored. rewrite Hs. vm_compute. done.
  - intros j. unfold leads, step, start, stop, acquireLock, stored. rewrite Hs. cbn. rewrite node_set. rewrite decide_True by done. cbn.
    rewrite node_set. destruct (decide (j = 1%nat)); [done|]. rewrite node_set, decide_False by done. unfold node. cbn. by rewrite lookup_empty.
Qed.
End Election.

(** A leader that was paused past its lease renews the lock another instance
    has taken: both lead, and go on renewing. *)
Theorem paused_leader_returns :
  let c := run 30000 true [Start 0 1; Start 0 2; Tick 30001 2; Tick 30002 1] (Cluster None ∅) in
  leads c 1 /\ leads c 2 /\ leads (run 30000 true [Tick 40001 1; Tick 40002 2] c) 1 /\
  leads (run 30000 true [Tick 40001 1; Tick 40002 2] c) 2.
Proof. unfold leads. vm_compute. done. Qed.

(** Stopping a deposed leader releases its successor's lock: a third instance
    takes over while the second still leads. *)
Theorem deposed_leader_releases :
  let c := run 30000 true [Start 0 1; Start 0 2; Tick 30001 2; Stop 1; Start 30002 3] (Cluster None ∅) in
  leads c 2 /\ leads c 3.
Proof. unfold leads. vm_compute. done. Qed.

(** ** Durable jobs *)

Record job := Job { j_name : string; j_interval : Z }.

Definition JOB_CHECK_INTERVAL_MS : Z := 5 * 60 * 1000.

Definition registerDurableJob (name : string) (intervalMs : Z) (is_function : bool) (jobs : list job) : list job :=
  if decide (name = "") then jobs else if negb is_function then jobs else
  if existsb (fun j => bool_decide (j.(j_name) = name)) jobs then jobs else jobs ++ [Job name intervalMs].

(** A completed run: the round's time and the completion time. *)
Record job_run := JobRun { jr_name : string; jr_round : Z; jr_completed : Z }.

Record job_store := JobStore { lastRunAt : gmap string Z; history : list job_run }.

(** [completes] tells when a job that is started in this round completes, or
    that it throws. *)
Definition run_job (now : Z) (completes : string -> option Z) (s : job_store) (j : job) : job_store :=
  let due := match s.(lastRunAt) !! j.(j_name) with None => true | Some t => j.(j_interval) <=? now - t end in
  if due then
    match completes j.(j_name) with
    | Some t => JobStore (<[j.(j_name) := t]> s.(lastRunAt)) (s.(history) ++ [JobRun j.(j_name) now t])
    | None => s
    end
  else s.

(** One round; a round that finds another one running returns at once. *)
Definition runDurableJobs (running : bool) (now : Z) (completes : string -> option Z) (jobs : list job) (s : job_store)
  : job_store :=
  if running then s else foldl (run_job now completes) s jobs.

Record round := Round { rd_running : bool; rd_now : Z; rd_completes : string -> option Z }.

Definition rounds (jobs : list job) (rs : list round) (s : job_store) : job_store :=
  foldl (fun s r => runDurableJobs r.(rd_running) r.(rd_now) r.(rd_completes) jobs s) s rs.

(** In a history, each run of a job starts at least its interval after the
    completion of the previous one. *)
Fixpoint spaced (name : string) (interval : Z) (prev : option Z) (h : list job_run) : Prop :=
  match h with
  | [] => True
  | r :: h' =>
    if decide (r.(jr_name) = name)
    then match prev with Some t => interval <= jr_round r - t | None => True end /\ spaced name interval (Some (jr_completed r)) h'
    else spaced name interval prev h'
  end.

Definition last_completed (name : string) (h : list job_run) (prev : option Z) : option Z :=
  foldl (fun p r => if decide (r.(jr_name) = name) then Some (jr_completed r) else p) prev h.

Lemma spaced_app name iv prev h1 h2 : spaced name iv prev (h1 ++ h2) <->
  spaced name iv prev h1 /\ spaced name iv (last_completed name h1 prev) h2.
Proof.
  revert prev. induction h1 as [|r h IH]; intros prev; simpl; [tauto|]. destruct (decide (jr_name r = name)); rewrite IH; tauto.
Qed.

Record job_inv (jobs : list job) (s : job_store) : Prop := {
  jv_last : forall j, j ∈ jobs -> s.(lastRunAt) !! j_name j = last_completed (j_name j) (history s) None;
  jv_spaced : forall j, j ∈ jobs -> spaced (j_name j) (j_interval j) None (history s)
}.

Lemma run_job_inv jobs now completes s j : NoDup (map j_name jobs) -> j ∈ jobs -> job_inv jobs s ->
  job_inv jobs (run_job now completes s j).
Proof.
  intros Hn Hj [H1 H2]. unfold run_job.
  destruct (match lastRunAt s !! j_name j with Some t => j_interval j <=? now - t | None => true end) eqn:Hdue; [|by split].
  destruct (completes (j_name j)) as [t|]; [|by split]. split; intros k Hk; simpl.
  - unfold last_completed. rewrite foldl_app. simpl. fold (last_completed (j_name k) (history s) None).
    destruct (decide (j_name j = j_name k)) as [E|E]; [by rewrite E, lookup_insert_eq|].
    rewrite lookup_insert_ne by done. by apply H1.
  - rewrite spaced_app. split; [by apply H2|]. simpl. destruct (decide (j_name j = j_name k)) as [E|E]; [|done].
    assert (j = k) as <- by (by apply (NoDup_fmap_eq j_name jobs)). split; [|done].
    rewrite <- (H1 j Hj). destruct (lastRunAt s !! j_name j); [|done]. by apply Z.leb_le.
Qed.

(** A durable job runs at most once per interval: over any number of rounds
    (with failures, restarts that keep the database, skipped rounds) every
    completed run starts at least the job's interval after the previous one
    completed. *)
Theorem durable_jobs_spaced jobs rs j : NoDup (map j_name jobs) -> j ∈ jobs ->
  spaced (j_name j) (j_interval j) None (history (rounds jobs rs (JobStore ∅ []))).
Proof.
  intros Hn Hj. assert (Hi : job_inv jobs (rounds jobs rs (JobStore ∅ []))).
  { assert (H0 : job_inv jobs (JobStore ∅ [])) by (by split).
    revert H0. generalize (JobStore ∅ []). unfold rounds. induction rs as [|r rs IH]; intros s Hs; [done|]. simpl. apply IH.
    unfold runDurableJobs. destruct (rd_running r); [done|]. clear IH.
    assert (Hsub : forall js, (forall x, x ∈ js -> x ∈ jobs) -> forall s, job_inv jobs s -> job_inv jobs (foldl (run_job (rd_now r) (rd_completes r)) s js)).
    { clear s Hs. induction js as [|x js IH]; intros Hx s Hs; [done|]. simpl. apply IH; [intros; apply Hx; by right|].
      apply run_job_inv; [done|apply Hx; by left|done]. }
    by apply Hsub. }
  by apply Hi.
Qed.

(** A failed job is due again in the next round. *)
Lemma failed_job_retried now completes s j : completes (j_name j) = None ->
  run_job now completes s j = s.
Proof. intros H. unfold run_job. rewrite H. by destruct (match lastRunAt s !! _ with Some _ => _ | None => _ end). Qed.

Lemma register_distinct name iv f jobs : NoDup (map j_name jobs) -> NoDup (map j_name (registerDurableJob name iv f jobs)).
Proof.
  intros Hn. unfold registerDurableJob. destruct (decide (name = "")); [done|]. destruct f; simpl; [|done].
  destruct (existsb _ jobs) eqn:E; [done|]. rewrite map_app. apply NoDup_app. split; [done|]. split; [|apply NoDup_singleton].
  intros x Hx. simpl. intros ->%list_elem_of_singleton. apply list_elem_of_In, in_map_iff in Hx as (j & Hj & Hin).
  assert (existsb (fun j => bool_decide (j_name j = name)) jobs = true); [|congruence].
  apply existsb_exists. exists j. split; [done|]. by apply bool_decide_eq_true.
Qed.

(** ** Instances of the properties *)

Definition calm_day : list event := [Start 0 1; Start 5 2; Tick 10000 1; Tick 10001 2; Stop 1; Tick 20000 2].

Lemma leads_nodes c i : leads c i -> i ∈ map fst (List.filter (fun p => isLeader p.2) (map_to_list (nodes c))).
Proof.
  unfold leads, node. destruct (nodes c !! i) as [n|] eqn:E; [|done]. simpl. intros Hl.
  apply list_elem_of_In, in_map_iff. exists (i, n). split; [done|]. apply filter_In. split; [|done].
  apply list_elem_of_In. by apply elem_of_map_to_list.
Qed.

Lemma at_most_one_leader_witness :
  let c := run 30000 true calm_day (Cluster None ∅) in
  (forall i j, leads c i -> leads c j -> i = j) /\ (forall i, schedulersOn (node i c) = isLeader (node i c)).
Proof.
  refine (at_most_one_leader 30000 true calm_day _).
  unfold calm_day, timely, timely1.
  repeat match goal with |- _ /\ _ => apply conj end; try exact I; intros k Hk; apply leads_nodes in Hk;
    vm_compute in Hk; try (by apply elem_of_nil in Hk); apply list_elem_of_singleton in Hk as ->; try done.
  all: first [split; [done|] | intros Hne; try done]; eexists _, _; vm_compute; split; [reflexivity|split; [reflexivity|discriminate]].
Defined.

Lemma no_leader_after_stop_witness : ~ leads (run 30000 false ([Start 0 1; Stop 1] ++ [Start 50000 2; Tick 90000 2]) (Cluster None ∅)) 2.
Proof. exact (no_leader_after_stop 30000 false eq_refl [Start 50000 2; Tick 90000 2] 2). Defined.

Lemma durable_jobs_spaced_witness :
  let jobs := [Job "daily" 1000; Job "hourly" 100] in
  let rs := [Round false 0 (fun _ => Some 5); Round false 50 (fun _ => Some 55); Round false 2000 (fun _ => Some 2010)] in
  spaced "daily" 1000 None (history (rounds jobs rs (JobStore ∅ []))).
Proof.
  cbv zeta. refine (durable_jobs_spaced [Job "daily" 1000; Job "hourly" 100] _ (Job "daily" 1000) _ _); [by_decision|left].
Defined.

End LeaderElection.
