(* ===== verification/Dispute.v ===== *)
(** Disputes: backend/src/controllers/dispute.controller.js over
    backend/src/models/disputeModel.js, and the deadline sweep of
    backend/src/services/disputeNotificationService.js.

    Raising a dispute, moving it through its states with the linked payment and
    the student's hold, adding evidence, and escalating overdue disputes.  Two
    administrators acting at once are modelled by the two database round trips
    of a resolution.  Contact encryption, audit entries, metrics and the
    notifications themselves do not change the state modelled here; a balance
    refresh is recorded (StudentBalance models what it does). *)

From Stdlib Require Import Ascii ZArith Lia.
From stdpp Require Import base list strings gmap.
From S2P Require Import Prelude JsNumber JsString Confirmation PaymentStatus PaymentModel PaymentAdmin StellarRetry.
Import StellarRetry.
Local Open Scope string_scope.
Local Open Scope Z_scope.
Local Open Scope list_scope.

Module Dispute.
Import PaymentModel.

(** ** States *)

Inductive status := D_open | D_under_review | D_resolved | D_rejected.

#[export] Instance dispute_status_eq_dec : EqDecision status.
Proof. solve_decision. Defined.

Definition status_name (s : status) : string :=
  match s with D_open => "open" | D_under_review => "under_review" | D_resolved => "resolved" | D_rejected => "rejected" end.

Definition DISPUTE_TRANSITIONS (s : status) : list status :=
  match s with
  | D_open => [D_under_review; D_resolved; D_rejected]
  | D_under_review => [D_resolved; D_rejected; D_open]
  | D_resolved => [D_open]
  | D_rejected => [D_open]
  end.

Definition TERMINAL_STATUSES : list status := [D_resolved; D_rejected].

Definition DISPUTE_TO_PAYMENT_STATUS (s : status) : payment_status :=
  match s with
  | D_resolved => S_REFUNDED
  | D_rejected => S_SUCCESS
  | D_open => S_DISPUTED
  | D_under_review => S_DISPUTED
  end.

Definition isValidTransition (from to_ : status) : bool := bool_decide (to_ ∈ DISPUTE_TRANSITIONS from).

Definition isTerminal (s : status) : bool := bool_decide (s ∈ TERMINAL_STATUSES).

(** [status: { $in: ['open', 'under_review'] }] *)
Definition active (s : status) : bool := match s with D_open | D_under_review => true | _ => false end.

Record evidence := Evidence { ev_type : string; ev_url : string; ev_description : option string }.

Record dispute := DisputeDoc {
  d_id : nat; d_school : string; d_tx : string; d_student : string; d_raisedBy : string; d_reason : string;
  d_email : option string; d_phone : option string; d_txRef : option string; d_evidence : list evidence;
  d_status : status; d_assignedTo : option string; d_slaDeadline : option Z; d_slaBreachedAt : option Z;
  d_slaNotifiedAt : option Z; d_escalation : Z; d_escalatedAt : option Z; d_lastActivity : Z;
  d_resolvedBy : option string; d_note : option string; d_resolvedAt : option Z
}.

(** The collections a handler touches; [refreshed] are the students whose
    balance was recomputed. *)
Record db := Db {
  disputes : list dispute; payments : list payment; holds : gmap (string * string) bool;
  refreshed : list (string * string)
}.

(** The unique index on school, hash and status, over active disputes. *)
Definition index_ok (ds : list dispute) (d : dispute) : bool :=
  negb (active d.(d_status)) ||
  negb (existsb (fun x => negb (d_id x =? d_id d)%nat && bool_decide (d_school x = d_school d)
                          && bool_decide (d_tx x = d_tx d) && bool_decide (d_status x = d_status d)) ds).

(** ** The linked payment *)

Definition find_payment (sid txHash : string) (ps : list payment) : option payment :=
  List.find (fun p => bool_decide (p_schoolId p = sid) && bool_decide (p_txHash p = txHash)
                      && bool_decide (p_deletedAt p = None)) ps.

(** The payment model has no transition guard: [save] stores any status. *)
Definition _syncPaymentStatus (now : Z) (sid txHash : string) (s : status) (b : db) : db :=
  let target := DISPUTE_TO_PAYMENT_STATUS s in
  match find_payment sid txHash b.(payments) with
  | None => b
  | Some p =>
    if decide (p_status p = target) then b
    else
      let p' := syncDerivedLifecycleFields now (Some p) (set_status target p) in
      Db b.(disputes) (PaymentAdmin.save p' b.(payments)) b.(holds) (b.(refreshed) ++ [(sid, p_studentId p)])
  end.

(** ** Raising a dispute *)

(** A field of a request body: absent (or falsy), a string, or something else. *)
Inductive arg := Absent | Str (s : string) | Other.

Definition arg_truthy (a : arg) : bool := match a with Absent => false | Str s => str_truthy s | Other => true end.

Definition trimmed (a : arg) : list ascii := match a with Str s => trim (chars s) | _ => [] end.

(** The characters before the first "@" and those after it. *)
Fixpoint split_at_sign (l : list ascii) : option (list ascii * list ascii) :=
  match l with
  | [] => None
  | c :: l' => if Ascii.eqb c "@" then Some ([], l')
               else match split_at_sign l' with Some (a, b) => Some (c :: a, b) | None => None end
  end.

(** Is there a dot with a character before and after it? *)
Definition inner_dot (l : list ascii) : bool :=
  existsb (fun c => Ascii.eqb c ".") (removelast (tail l)).

(** [/^[^\s@]+@[^\s@]+\.[^\s@]+$/] *)
Definition email_re (l : list ascii) : bool :=
  match split_at_sign l with
  | Some (a, b) => negb (length a =? 0)%nat && forallb (fun c => negb (is_space c)) (a ++ b)
                   && forallb (fun c => negb (Ascii.eqb c "@")) b && inner_dot b
  | None => false
  end.

(** [/^\+[1-9]\d{1,14}$/] *)
Definition isValidE164 (l : list ascii) : bool :=
  match trim l with
  | "+"%char :: c :: ds => is_digit c && negb (Ascii.eqb c "0") && forallb is_digit ds
                           && (1 <=? length ds)%nat && (length ds <=? 14)%nat
  | _ => false
  end.

(** [Ok None]: no contact was given. *)
Definition contact_email (a : arg) : result unit (option string) :=
  match a with
  | Absent | Str "" => Ok None
  | _ => let e := map lower (trimmed a) in
         if (length e =? 0)%nat || (254 <? length e)%nat || negb (email_re e) then Throw tt else Ok (Some (text e))
  end.

Definition contact_phone (a : arg) : result unit (option string) :=
  match a with
  | Absent | Str "" => Ok None
  | _ => let p := List.filter (fun c => negb (is_space c || Ascii.eqb c "(" || Ascii.eqb c ")" || Ascii.eqb c "-"))
                    (match a with Str s => chars s | _ => [] end) in
         if isValidE164 p then Ok (Some (text p)) else Throw tt
  end.

(** The [evidence] field: absent, an array of items, or something else. *)
Inductive evidence_arg := NoEvidence | Items (l : list evidence) | NotArray.

(** The hash and the student id are read as strings ([""] when absent). *)
Record flag_request := FlagRequest {
  f_school : string; f_tx : string; f_student : string; f_raisedBy : arg; f_reason : arg; f_txRef : arg;
  f_evidence : evidence_arg; f_email : arg; f_phone : arg
}.

Inductive response :=
| R201 (d : dispute) | R200 (d : dispute) | R400 | R401 | R404 | R409 (existing : nat)
| R422 (from to_ : status) | RThrown.

(** The checks on the body: the trimmed texts and the contacts. *)
Definition flag_body (r : flag_request) : option (string * string * option string * option string) :=
  if negb (str_truthy r.(f_tx) && str_truthy r.(f_student) && arg_truthy r.(f_raisedBy) && arg_truthy r.(f_reason)) then None else
  let by_ := trimmed r.(f_raisedBy) in
  let why := trimmed r.(f_reason) in
  if (length by_ =? 0)%nat || (length why =? 0)%nat then None else
  if (200 <? length by_)%nat || (1000 <? length why)%nat then None else
  match contact_email r.(f_email), contact_phone r.(f_phone) with
  | Ok e, Ok p => Some (text by_, text why, e, p)
  | _, _ => None
  end.

(** The schema trims what it stores. *)
Definition cast_evidence (e : evidence) : evidence :=
  Evidence e.(ev_type) (str_trim e.(ev_url)) (str_trim <$> e.(ev_description)).

(** The schema's validators, which run when a document is created. *)
Definition evidence_valid (e : evidence) : bool :=
  bool_decide (e.(ev_type) ∈ ["screenshot"; "tx_reference"; "document"; "other"]) && str_truthy e.(ev_url)
  && match e.(ev_description) with Some s => (String.length s <=? 500)%nat | None => true end.

Definition dispute_valid (d : dispute) : bool :=
  forallb evidence_valid d.(d_evidence)
  && match d.(d_txRef) with Some s => (String.length s <=? 128)%nat | None => true end.

(** The hook before a document is saved: an active dispute past its deadline
    is escalated; one under review within a day of it is marked. *)
Definition pre_save (now : Z) (d : dispute) : dispute :=
  let with_sla breached level at_ :=
    DisputeDoc d.(d_id) d.(d_school) d.(d_tx) d.(d_student) d.(d_raisedBy) d.(d_reason) d.(d_email) d.(d_phone) d.(d_txRef)
      d.(d_evidence) d.(d_status) d.(d_assignedTo) d.(d_slaDeadline) breached d.(d_slaNotifiedAt) level at_ now
      d.(d_resolvedBy) d.(d_note) d.(d_resolvedAt) in
  let keep := with_sla d.(d_slaBreachedAt) d.(d_escalation) d.(d_escalatedAt) in
  match d.(d_slaDeadline) with
  | Some t =>
    if active d.(d_status) && (t <? now) then
      match d.(d_slaBreachedAt) with None => with_sla (Some now) 2 (Some now) | Some _ => keep end
    else if bool_decide (d.(d_status) = D_under_review) && (t - now <=? 24 * 3600000) && (now <? t) && (d.(d_escalation) <? 1)
    then with_sla d.(d_slaBreachedAt) 1 d.(d_escalatedAt)
    else keep
  | None => keep
  end.

Section Handlers.
Variable DISPUTE_SLA_HOURS : Z.

Definition new_dispute (now : Z) (id : nat) (r : flag_request) (by_ why : string) (e p : option string) : dispute :=
  DisputeDoc id r.(f_school) r.(f_tx) r.(f_student) by_ why e p
    (match r.(f_txRef) with Str t => if str_truthy t then Some (str_trim t) else None | _ => None end)
    (match r.(f_evidence) with Items l => map cast_evidence l | _ => [] end) D_open None (Some (now + DISPUTE_SLA_HOURS * 60 * 60 * 1000)) None None 0 None now None None None.

Definition flagDispute (now : Z) (id : nat) (r : flag_request) (b : db) : db * response :=
  match flag_body r with
  | None => (b, R400)
  | Some (by_, why, e, p) =>
    let tx := r.(f_tx) in
    match find_payment r.(f_school) tx b.(payments) with
    | None => (b, R404)
    | Some pay =>
      if negb (bool_decide (p_studentId pay = r.(f_student))) then (b, R404) else
      match List.find (fun d => bool_decide (d_school d = r.(f_school)) && bool_decide (d_tx d = tx) && active (d_status d)) b.(disputes) with
      | Some d => (b, R409 (d_id d))
      | None =>
        match r.(f_evidence), r.(f_txRef) with
        | NotArray, _ => (b, R400)
        | _, Other => (b, RThrown)
        | _, _ =>
        let d := pre_save now (new_dispute now id r by_ why e p) in
        if negb (dispute_valid d && index_ok b.(disputes) d) then (b, RThrown) else
        let b1 := Db (b.(disputes) ++ [d]) b.(payments) (<[(r.(f_school), d_student d) := true]> b.(holds)) b.(refreshed) in
        (_syncPaymentStatus now r.(f_school) tx D_open b1, R201 d)
        end
      end
    end
  end.

(** ** Resolving *)

Record resolve_request := ResolveRequest {
  q_school : string; q_id : nat; q_actor : option string; q_note : arg; q_status : option string;
  q_assignedTo : arg; q_evidence : evidence_arg
}.

Definition find_dispute (sid : string) (id : nat) (ds : list dispute) : option dispute :=
  List.find (fun d => (d_id d =? id)%nat && bool_decide (d_school d = sid)) ds.

(** [status && ALLOWED_TARGET.includes(status) ? status : 'resolved'] *)
Definition newStatus_of (s : option string) : status :=
  match s with
  | Some "rejected" => D_rejected
  | Some "under_review" => D_under_review
  | Some "open" => D_open
  | _ => D_resolved
  end.

(** What is written: who, the note and the new status, or the refusal. *)
Definition resolve_check (r : resolve_request) (b : db) : response + (string * string * status) :=
  match r.(q_actor) with
  | None => inl R401
  | Some who =>
    if negb (str_truthy who) then inl R401 else
    if negb (arg_truthy r.(q_note)) then inl R400 else
    let note := trimmed r.(q_note) in
    if (length note =? 0)%nat || (1000 <? length note)%nat then inl R400 else
    match find_dispute r.(q_school) r.(q_id) b.(disputes) with
    | None => inl R404
    | Some cur =>
      let ns := newStatus_of r.(q_status) in
      if negb (isValidTransition cur.(d_status) ns) then inl (R422 cur.(d_status) ns) else
      match r.(q_assignedTo) with Other => inl RThrown | _ => inr (who, text note, ns) end
    end
  end.

Definition resolved_doc (now : Z) (r : resolve_request) (who note : string) (ns : status) (d : dispute) : dispute :=
  DisputeDoc d.(d_id) d.(d_school) d.(d_tx) d.(d_student) d.(d_raisedBy) d.(d_reason) d.(d_email) d.(d_phone) d.(d_txRef)
    (d.(d_evidence) ++ match r.(q_evidence) with Items l => map cast_evidence l | _ => [] end) ns
    (match r.(q_assignedTo) with Str a => if str_truthy a then Some (str_trim a) else d.(d_assignedTo) | _ => d.(d_assignedTo) end)
    d.(d_slaDeadline) d.(d_slaBreachedAt) d.(d_slaNotifiedAt) d.(d_escalation) d.(d_escalatedAt) now
    (Some who) (Some note) (if isTerminal ns then Some now else None).

Definition replace_dispute (d' : dispute) (ds : list dispute) : list dispute :=
  map (fun d => if (d_id d =? d_id d')%nat then d' else d) ds.

(** The update by id and what follows it; the state may have changed since the
    check. *)
Definition resolve_apply (now : Z) (r : resolve_request) (w : string * string * status) (b : db) : db * response :=
  let '(who, note, ns) := w in
  match find_dispute r.(q_school) r.(q_id) b.(disputes) with
  | None => (b, R404)
  | Some d =>
    let d' := resolved_doc now r who note ns d in
    if negb (index_ok b.(disputes) d') then (b, RThrown) else
    let b1 := Db (replace_dispute d' b.(disputes)) b.(payments)
                (if isTerminal ns then <[(r.(q_school), d_student d) := false]> b.(holds) else b.(holds)) b.(refreshed) in
    (_syncPaymentStatus now r.(q_school) (d_tx d) ns b1, R200 d')
  end.

Definition resolveDispute (now : Z) (r : resolve_request) (b : db) : db * response :=
  match resolve_check r b with
  | inl e => (b, e)
  | inr w => resolve_apply now r w b
  end.

Definition evidence_ok (e : evidence) : bool :=
  str_truthy e.(ev_type) && str_truthy e.(ev_url)
  && bool_decide (e.(ev_type) ∈ ["screenshot"; "tx_reference"; "document"; "other"]).

Definition addEvidence (now : Z) (sid : string) (id : nat) (ev : evidence_arg) (b : db) : db * response :=
  match ev with
  | NoEvidence | NotArray | Items [] => (b, R400)
  | Items l =>
    if negb (forallb evidence_ok l) then (b, R400) else
    match List.find (fun d => (d_id d =? id)%nat && bool_decide (d_school d = sid) && active (d_status d)) b.(disputes) with
    | None => (b, R404)
    | Some d =>
      let d' := DisputeDoc d.(d_id) d.(d_school) d.(d_tx) d.(d_student) d.(d_raisedBy) d.(d_reason) d.(d_email) d.(d_phone) d.(d_txRef)
        (d.(d_evidence) ++ map cast_evidence l) d.(d_status) d.(d_assignedTo) d.(d_slaDeadline) d.(d_slaBreachedAt) d.(d_slaNotifiedAt)
        d.(d_escalation) d.(d_escalatedAt) now d.(d_resolvedBy) d.(d_note) d.(d_resolvedAt) in
      (Db (replace_dispute d' b.(disputes)) b.(payments) b.(holds) b.(refreshed), R200 d')
    end
  end.

(** ** The deadline sweep *)

Definition due (now : Z) (d : dispute) : bool :=
  active d.(d_status) && match d.(d_slaDeadline) with Some t => t <? now | None => false end
  && bool_decide (d.(d_slaNotifiedAt) = None).

Definition sla_cmp (a b : dispute) : Z := default 0 a.(d_slaDeadline) - default 0 b.(d_slaDeadline).

Definition breach (now : Z) (d : dispute) : dispute :=
  DisputeDoc d.(d_id) d.(d_school) d.(d_tx) d.(d_student) d.(d_raisedBy) d.(d_reason) d.(d_email) d.(d_phone) d.(d_txRef)
    d.(d_evidence) d.(d_status) d.(d_assignedTo) d.(d_slaDeadline)
    (Some (default now d.(d_slaBreachedAt))) (Some now) 2 (Some (default now d.(d_escalatedAt))) d.(d_lastActivity)
    d.(d_resolvedBy) d.(d_note) d.(d_resolvedAt).

Definition SLA_SWEEP_BATCH : nat := 100.

(** Each round claims the overdue dispute with the earliest deadline; gives
    the disputes and the ones the administrators were alerted about. *)
Fixpoint sweep_loop (rounds : nat) (now : Z) (ds : list dispute) (alerted : list nat) : list dispute * list nat :=
  match rounds with
  | O => (ds, alerted)
  | S n =>
    match js_sort sla_cmp (List.filter (due now) ds) with
    | [] => (ds, alerted)
    | d :: _ => sweep_loop n now (replace_dispute (breach now d) ds) (alerted ++ [d_id d])
    end
  end.

Definition processSlaBreaches (now : Z) (ds : list dispute) : list dispute * list nat := sweep_loop SLA_SWEEP_BATCH now ds [].
End Handlers.

(** ** Facts about the pieces *)

Lemma replace_ids d ds : map d_id (replace_dispute d ds) = map d_id ds.
Proof.
  unfold replace_dispute. rewrite map_map. apply map_ext. intros x. destruct (Nat.eqb_spec (d_id x) (d_id d)); congruence.
Qed.

Lemma replace_elem d ds x : x ∈ replace_dispute d ds -> x = d \/ x ∈ ds /\ d_id x <> d_id d.
Proof.
  unfold replace_dispute. intros H. apply list_elem_of_In, in_map_iff in H as (y & Hy & Hin).
  destruct (Nat.eqb_spec (d_id y) (d_id d)); [by left|right]. subst. split; [by apply list_elem_of_In|done].
Qed.

Lemma sync_disputes now sid tx s b : disputes (_syncPaymentStatus now sid tx s b) = disputes b /\
  holds (_syncPaymentStatus now sid tx s b) = holds b.
Proof. unfold _syncPaymentStatus. destruct (find_payment _ _ _); [destruct (decide _)|]; done. Qed.

(** After the sync the first live payment with the hash has the status that
    goes with the dispute's, and its derived fields agree. *)
Lemma sync_status now sid tx s b p : NoDup (p_id <$> payments b) -> find_payment sid tx (payments b) = Some p ->
  exists p', find_payment sid tx (payments (_syncPaymentStatus now sid tx s b)) = Some p' /\
    p_id p' = p_id p /\ p_status p' = DISPUTE_TO_PAYMENT_STATUS s /\ p_studentId p' = p_studentId p.
Proof.
  intros Hn Hf. unfold _syncPaymentStatus. rewrite Hf. destruct (decide (p_status p = _)) as [E|E]; [by exists p|].
  set (t := DISPUTE_TO_PAYMENT_STATUS s) in *. set (p' := syncDerivedLifecycleFields now (Some p) (set_status t p)).
  assert (Hp' : p_id p' = p_id p /\ p_schoolId p' = p_schoolId p /\ p_txHash p' = p_txHash p /\ p_deletedAt p' = p_deletedAt p /\
                p_status p' = t /\ p_studentId p' = p_studentId p).
  { unfold p', syncDerivedLifecycleFields. destruct (negb _); simpl; destruct (_ && _); done. }
  destruct Hp' as (H1 & H2 & H3 & H4 & H5 & H6). exists p'. split; [|done]. cbn [payments].
  clear E. unfold find_payment, PaymentAdmin.save in *. revert Hn Hf. generalize (payments b). intros l.
  induction l as [|q l IH]; intros Hn Hf; [done|]. rewrite fmap_cons in *. apply NoDup_cons in Hn as [Hq Hn]. cbn [List.find] in *.
  destruct (bool_decide (p_schoolId q = sid) && bool_decide (p_txHash q = tx) && bool_decide (p_deletedAt q = None)) eqn:Em.
  - injection Hf as ->. rewrite H1, Z.eqb_refl. rewrite H2, H3, H4, Em. done.
  - destruct (Z.eqb_spec (p_id q) (p_id p')) as [Eq|Ne].
    + exfalso. apply Hq. rewrite Eq, H1. apply find_exists in Hf as [Hin _]. by apply list_elem_of_fmap_2.
    + rewrite Em. by apply IH.
Qed.

Lemma check_refuses r b e d : resolve_check r b = inl e -> e <> R200 d.
Proof. unfold resolve_check. intros H ->. repeat (case_match; try done). Qed.

Lemma check_accepts r b who note ns : resolve_check r b = inr (who, note, ns) ->
  who <> "" /\ exists d, find_dispute (q_school r) (q_id r) (disputes b) = Some d /\ ns ∈ DISPUTE_TRANSITIONS (d_status d).
Proof.
  unfold resolve_check. intros H. destruct (q_actor r) as [w|]; [|done]. destruct (str_truthy w) eqn:Ew; cbn [negb] in H; [|done].
  destruct (find_dispute _ _ _) as [d|]; [|by repeat (case_match; try done)].
  destruct (isValidTransition (d_status d) (newStatus_of (q_status r))) eqn:Hv; [|by repeat (case_match; try done)].
  assert (w = who /\ newStatus_of (q_status r) = ns) as [-> <-] by (repeat (case_match; try done); by simplify_eq).
  split; [by destruct who|]. exists d. split; [done|]. by apply bool_decide_eq_true in Hv.
Qed.

(** ** Properties *)
Section Properties.
Variable DISPUTE_SLA_HOURS : Z.

(** A request that is refused changes nothing: every answer but success
    leaves disputes, payments, holds and balances as they were. *)
Theorem refused_dispute_request_changes_nothing now id fr rr ev b :
  ((forall d, (flagDispute DISPUTE_SLA_HOURS now id fr b).2 <> R201 d) -> (flagDispute DISPUTE_SLA_HOURS now id fr b).1 = b) /\
  ((forall d, (resolveDispute now rr b).2 <> R200 d) -> (resolveDispute now rr b).1 = b) /\
  ((forall d, (addEvidence now (q_school rr) (q_id rr) ev b).2 <> R200 d) -> (addEvidence now (q_school rr) (q_id rr) ev b).1 = b).
Proof.
  split; [intros Hf|split; [intros Hr|intros He]].
  - unfold flagDispute in *. destruct (flag_body fr) as [[[[by_ why] e] p]|]; [|done].
    destruct (find_payment _ _ _) as [pay|]; [|done]. destruct (negb _); [done|].
    destruct (List.find _ _); [done|]. repeat (case_match; try done).
    all: exfalso; by eapply Hf.
  - unfold resolveDispute in *. destruct (resolve_check rr b) as [|[[who note] ns]]; [done|]. unfold resolve_apply in *.
    destruct (find_dispute _ _ _) as [d|]; [|done]. destruct (negb _); [done|]. exfalso. by eapply Hr.
  - unfold addEvidence in *. destruct ev as [|[|x l]|]; [done|done| |done]. destruct (negb _); [done|].
    destruct (List.find _ _); [|done]. exfalso. by eapply He.
Qed.

(** A document is well formed: closed exactly when it carries a closing time,
    and once it has left the open state somebody is named. *)
Definition dispute_wf (d : dispute) : Prop :=
  (isTerminal (d_status d) = true <-> d_resolvedAt d <> None) /\
  (d_status d <> D_open -> exists who note, d_resolvedBy d = Some who /\ who <> "" /\ d_note d = Some note).

(** The index's guarantee. *)
Definition distinct_active (ds : list dispute) : Prop :=
  forall x y, x ∈ ds -> y ∈ ds -> active (d_status x) = true -> d_school x = d_school y -> d_tx x = d_tx y ->
    d_status x = d_status y -> x = y.

Record dispute_inv (b : db) : Prop := {
  di_ids : NoDup (map d_id (disputes b));
  di_wf : Forall dispute_wf (disputes b);
  di_index : distinct_active (disputes b)
}.

Lemma index_ok_spec ds d : index_ok ds d = true -> active (d_status d) = true ->
  forall x, x ∈ ds -> d_id x <> d_id d -> d_school x = d_school d -> d_tx x = d_tx d -> d_status x <> d_status d.
Proof.
  unfold index_ok. intros H Ha x Hx Hid Hs Ht Hst. rewrite Ha in H. simpl in H. apply negb_true_iff in H.
  assert (existsb (fun x => negb (d_id x =? d_id d)%nat && bool_decide (d_school x = d_school d)
     && bool_decide (d_tx x = d_tx d) && bool_decide (d_status x = d_status d)) ds = true); [|congruence].
  apply existsb_exists. exists x. split; [by apply list_elem_of_In|].
  rewrite !bool_decide_true by done. destruct (Nat.eqb_spec (d_id x) (d_id d)); done.
Qed.

Lemma add_inv b d ps hs rf : dispute_inv b -> d_id d ∉ map d_id (disputes b) -> dispute_wf d -> index_ok (disputes b) d = true ->
  dispute_inv (Db (disputes b ++ [d]) ps hs rf).
Proof.
  intros [H1 H2 H3] Hid Hwf Hix. split; simpl.
  - rewrite map_app. apply NoDup_app. split; [done|]. split; [|apply NoDup_singleton].
    intros x Hx Hx'. apply list_elem_of_singleton in Hx' as ->. done.
  - by apply Forall_snoc.
  - assert (Hnew : forall x, x ∈ disputes b -> d_id x <> d_id d).
    { intros x Hx E. apply Hid. rewrite <- E. by apply (list_elem_of_fmap_2 d_id). }
    intros x y Hx Hy Ha Hs Ht Hst. apply elem_of_app in Hx as [Hx|Hx], Hy as [Hy|Hy].
    + by apply H3.
    + apply list_elem_of_singleton in Hy as ->. rewrite Hst in Ha. exfalso. by apply (index_ok_spec _ _ Hix Ha x Hx (Hnew x Hx) Hs Ht).
    + apply list_elem_of_singleton in Hx as ->. exfalso. by apply (index_ok_spec _ _ Hix Ha y Hy (Hnew y Hy)).
    + apply list_elem_of_singleton in Hx as ->, Hy as ->. done.
Qed.

Lemma replace_inv b d ps hs rf : dispute_inv b -> dispute_wf d -> index_ok (disputes b) d = true ->
  dispute_inv (Db (replace_dispute d (disputes b)) ps hs rf).
Proof.
  intros [H1 H2 H3] Hwf Hix. split; simpl.
  - by rewrite replace_ids.
  - apply Forall_forall. intros x Hx. apply replace_elem in Hx as [->|[Hx _]]; [done|]. rewrite Forall_forall in H2. auto.
  - intros x y Hx Hy Ha Hs Ht Hst. apply replace_elem in Hx as [->|[Hx Nx]], Hy as [->|[Hy Ny]]; [done| | |by apply H3].
    + exfalso. by apply (index_ok_spec _ _ Hix Ha y Hy Ny).
    + exfalso. rewrite Hst in Ha. by apply (index_ok_spec _ _ Hix Ha x Hx Nx).
Qed.

Lemma inv_sync now sid tx s b : dispute_inv b -> dispute_inv (_syncPaymentStatus now sid tx s b).
Proof. destruct (sync_disputes now sid tx s b) as [E _]. intros [H1 H2 H3]. split; rewrite E; done. Qed.

(** The calls the service may receive, and one of them. *)
Inductive call :=
| Flag (now : Z) (id : nat) (r : flag_request)
| Resolve (now : Z) (r : resolve_request)
| AddEvidence (now : Z) (sid : string) (id : nat) (ev : evidence_arg).

Definition apply_call (b : db) (c : call) : db :=
  match c with
  | Flag now id r => (flagDispute DISPUTE_SLA_HOURS now id r b).1
  | Resolve now r => (resolveDispute now r b).1
  | AddEvidence now sid id ev => (addEvidence now sid id ev b).1
  end.

(** New documents get fresh ids. *)
Fixpoint fresh_ids (b : db) (cs : list call) : Prop :=
  match cs with
  | [] => True
  | c :: cs' => (match c with Flag _ id _ => id ∉ map d_id (disputes b) | _ => True end) /\ fresh_ids (apply_call b c) cs'
  end.

Lemma terminal_doc_wf now r who note ns d : who <> "" -> dispute_wf (resolved_doc now r who note ns d).
Proof.
  intros Hw. unfold dispute_wf, resolved_doc. cbn. split.
  - destruct (isTerminal ns); split; try done; congruence.
  - intros _. eauto.
Qed.

Lemma pre_save_keeps now d : d_id (pre_save now d) = d_id d /\ d_status (pre_save now d) = d_status d /\
  d_resolvedAt (pre_save now d) = d_resolvedAt d /\ d_resolvedBy (pre_save now d) = d_resolvedBy d.
Proof. unfold pre_save. destruct (d_slaDeadline d); [|done]. repeat case_match; done. Qed.

Lemma new_wf now id r by_ why e p : dispute_wf (pre_save now (new_dispute DISPUTE_SLA_HOURS now id r by_ why e p)).
Proof.
  destruct (pre_save_keeps now (new_dispute DISPUTE_SLA_HOURS now id r by_ why e p)) as (_ & Hs & Hr & _).
  unfold dispute_wf. rewrite Hs, Hr. cbn. split; [split; [done|congruence]|done].
Qed.

Lemma apply_call_inv b c : dispute_inv b -> (match c with Flag _ id _ => id ∉ map d_id (disputes b) | _ => True end) ->
  dispute_inv (apply_call b c).
Proof.
  intros Hi Hid. destruct c as [now id r|now r|now sid id ev]; simpl.
  - unfold flagDispute. destruct (flag_body r) as [[[[by_ why] e] p]|]; [|done].
    destruct (find_payment _ _ _) as [pay|]; [|done]. destruct (negb _); [done|].
    destruct (List.find _ _); [done|].
    set (d := pre_save now (new_dispute _ now id r by_ why e p)).
    assert (Hadd : forall ps hs rf, dispute_valid d && index_ok (disputes b) d = true -> dispute_inv (Db (disputes b ++ [d]) ps hs rf)).
    { intros ps hs rf [_ Hix]%andb_true_iff. apply add_inv; [done| |apply new_wf|done].
      unfold d. by rewrite (proj1 (pre_save_keeps _ _)). }
    destruct (dispute_valid d && index_ok (disputes b) d); cbn [negb]; destruct (f_evidence r), (f_txRef r); try done;
      apply inv_sync; by apply Hadd.
  - unfold resolveDispute. destruct (resolve_check r b) as [|[[who note] ns]] eqn:Hc; [done|]. unfold resolve_apply.
    destruct (find_dispute _ _ _) as [d|]; [|done]. destruct (index_ok (disputes b) _) eqn:Hix; cbn [negb]; [|done].
    apply inv_sync. apply replace_inv; [done| |done]. apply terminal_doc_wf.
    by apply check_accepts in Hc as [? _].
  - unfold addEvidence. destruct ev as [|[|x l]|]; [done|done| |done]. destruct (negb _); [done|].
    destruct (List.find _ _) as [d|] eqn:Hf; [|done]. apply find_exists in Hf as [Hd Hm].
    apply replace_inv; [done| |].
    + destruct Hi as [_ H2 _]. rewrite Forall_forall in H2. exact (H2 d Hd).
    + destruct Hi as [H1 _ H3]. unfold index_ok. simpl. destruct (active (d_status d)) eqn:Ha; [|done]. simpl.
      apply negb_true_iff. destruct (existsb _ _) eqn:Ex; [|done]. apply existsb_exists in Ex as (y & Hy & Em).
      repeat rewrite andb_true_iff in Em. destruct Em as (((E1 & E2) & E3) & E4). apply list_elem_of_In in Hy.
      apply bool_decide_eq_true in E2, E3, E4. assert (y = d) as -> by (apply H3; try done; by rewrite E4).
      by rewrite Nat.eqb_refl in E1.
Qed.

(** C20: whatever sequence of requests arrives, each dispute stays well formed
    (closed exactly when it has a closing time; nobody anonymous moves it) and
    a payment never has two disputes in the same active state. *)
Theorem dispute_invariant cs ps hs : fresh_ids (Db [] ps hs []) cs ->
  let b := foldl apply_call (Db [] ps hs []) cs in
  Forall dispute_wf (disputes b) /\ distinct_active (disputes b).
Proof.
  cbv zeta. intros Hf. assert (Hi : dispute_inv (foldl apply_call (Db [] ps hs []) cs)).
  { assert (H0 : dispute_inv (Db [] ps hs [])).
    { split; simpl; [constructor|constructor|]. intros x y Hx. by apply elem_of_nil in Hx. }
    revert H0 Hf. generalize (Db [] ps hs []). induction cs as [|c cs IH]; intros b Hb Hf; [done|].
    destruct Hf as [H1 H2]. apply IH; [by apply apply_call_inv|done]. }
  split; apply Hi.
Qed.

(** A resolution moves the dispute along an edge of its state machine and
    takes the linked payment with it: the payment ends in the status that
    belongs to the new state, and a closing one lifts the student's hold. *)
Theorem resolution_moves_payment now r b b' d' p : NoDup (p_id <$> payments b) ->
  resolveDispute now r b = (b', R200 d') ->
  find_payment (q_school r) (d_tx d') (payments b) = Some p ->
  exists d, find_dispute (q_school r) (q_id r) (disputes b) = Some d /\
    d_status d' ∈ DISPUTE_TRANSITIONS (d_status d) /\
    (isTerminal (d_status d') = true -> holds b' !! (q_school r, d_student d) = Some false) /\
    exists p', find_payment (q_school r) (d_tx d') (payments b') = Some p' /\
      p_id p' = p_id p /\ p_status p' = DISPUTE_TO_PAYMENT_STATUS (d_status d').
Proof.
  intros Hn H Hp. unfold resolveDispute in H. destruct (resolve_check r b) as [e|[[who note] ns]] eqn:Hc;
    [injection H as _ ->; by apply (check_refuses _ _ _ d') in Hc|].
  unfold resolve_apply in H. destruct (find_dispute (q_school r) (q_id r) (disputes b)) as [d|] eqn:Hd; [|done].
  destruct (index_ok _ _); cbn [negb] in H; [|done]. injection H as <- <-. exists d. split; [done|].
  cbn [d_status resolved_doc d_tx] in *.
  apply check_accepts in Hc as (_ & d0 & Hd0 & Hv). assert (d0 = d) as -> by congruence. split; [done|]. set (b1 := Db _ _ _ _).
  destruct (sync_disputes now (q_school r) (d_tx d) ns b1) as [_ Eh]. split.
  - intros Ht. rewrite Eh. unfold b1. cbn [holds]. rewrite Ht. by rewrite lookup_insert_eq.
  - destruct (sync_status now (q_school r) (d_tx d) ns b1 p) as (p' & H1 & H2 & H3 & _); [done|done|]. eauto.
Qed.

(** ** The sweep *)

Lemma sla_cmp_total a b : sla_cmp a b <= 0 \/ sla_cmp b a <= 0.
Proof. unfold sla_cmp. lia. Qed.

Lemma breach_not_due now d : due now (breach now d) = false.
Proof. unfold due. apply andb_false_intro2. by apply bool_decide_eq_false. Qed.

Lemma due_after now d ds : NoDup (map d_id ds) -> d ∈ ds ->
  forall x, x ∈ List.filter (due now) (replace_dispute (breach now d) ds) <-> x ∈ List.filter (due now) ds /\ d_id x <> d_id d.
Proof.
  intros Hn Hd x. rewrite !elem_of_filterb. split.
  - intros [Hx Hin]. apply replace_elem in Hin as [->|[Hin Hne]]; [by rewrite breach_not_due in Hx|done].
  - intros [[Hx Hin] Hne]. split; [done|]. unfold replace_dispute. apply list_elem_of_In, in_map_iff. exists x. simpl.
    destruct (Nat.eqb_spec (d_id x) (d_id d)); [done|]. split; [done|]. by apply list_elem_of_In.
Qed.

Lemma nothing_new now (ds : list dispute) (alerted : list nat) n : NoDup (map d_id ds) ->
  ((0 < n)%nat -> List.filter (due now) ds = []) ->
  alerted = alerted /\ NoDup (@nil nat) /\ (length (@nil nat) <= n)%nat /\
    (forall i, i ∈ @nil nat -> exists d, d ∈ ds /\ d_id d = i /\ due now d = true) /\
    NoDup (map d_id ds) /\
    (forall x, x ∈ List.filter (due now) ds <-> x ∈ List.filter (due now) ds /\ d_id x ∉ @nil nat) /\
    ((length (@nil nat) < n)%nat -> List.filter (due now) ds = []).
Proof.
  intros Hn Hz. do 2 (split; [done || constructor|]). split; [simpl; lia|]. split; [intros i Hi; by apply elem_of_nil in Hi|].
  split; [done|]. split; [|done]. intros x. split; [|tauto]. intros Hx. split; [done|apply not_elem_of_nil].
Qed.

(** Nobody is alerted twice, only overdue disputes are, and a sweep stops
    early only when nothing overdue is left. *)
Lemma sweep_loop_spec rounds : forall now ds alerted ds' alerted',
  NoDup (map d_id ds) -> sweep_loop rounds now ds alerted = (ds', alerted') ->
  exists new, alerted' = alerted ++ new /\ NoDup new /\ (length new <= rounds)%nat /\
    (forall i, i ∈ new -> exists d, d ∈ ds /\ d_id d = i /\ due now d = true) /\
    NoDup (map d_id ds') /\
    (forall x, x ∈ List.filter (due now) ds' <-> x ∈ List.filter (due now) ds /\ d_id x ∉ new) /\
    ((length new < rounds)%nat -> List.filter (due now) ds' = []).
Proof.
  induction rounds as [|n IH]; intros now ds alerted ds' alerted' Hn H; cbn [sweep_loop] in H.
  { simplify_eq. exists []. rewrite app_nil_r. apply nothing_new; [done|simpl; lia]. }
  destruct (js_sort sla_cmp (List.filter (due now) ds)) as [|d rest] eqn:Es.
  { simplify_eq. exists []. rewrite app_nil_r. pose proof (js_sort_length sla_cmp (List.filter (due now) ds')) as Hl.
    rewrite Es in Hl. simpl in Hl. symmetry in Hl. apply nil_length_inv in Hl.
    by apply nothing_new. }
  assert (Hd : d ∈ ds /\ due now d = true).
  { assert (Hin : d ∈ js_sort sla_cmp (List.filter (due now) ds)) by (rewrite Es; left).
    apply js_sort_elem, elem_of_filterb in Hin as [? ?]. done. }
  destruct Hd as [Hd Hdue].
  destruct (IH now (replace_dispute (breach now d) ds) (alerted ++ [d_id d]) ds' alerted') as (new & -> & H1 & H2 & H3 & H4 & H5 & H6);
    [by rewrite replace_ids|done|].
  pose proof (due_after now d ds Hn Hd) as Haft.
  assert (Hnew : forall i, i ∈ new -> (exists e, e ∈ ds /\ d_id e = i /\ due now e = true) /\ i <> d_id d).
  { intros i Hi. destruct (H3 i Hi) as (e & He & <- & Hde).
    assert (Hf : e ∈ List.filter (due now) (replace_dispute (breach now d) ds)) by (by apply elem_of_filterb).
    apply Haft in Hf as [Hf Hne]. apply elem_of_filterb in Hf as [_ Hf]. eauto. }
  exists (d_id d :: new). split; [by rewrite <- app_assoc|]. repeat split.
  - constructor; [|done]. intros Hi. by apply Hnew in Hi as [_ ?].
  - simpl. lia.
  - intros i Hi. apply elem_of_cons in Hi as [->|Hi]; [by exists d|]. by apply Hnew.
  - done.
  - apply H5 in H0 as [H0 _]. by apply Haft in H0 as [H0 _].
  - apply H5 in H0 as [H0 Hx]. apply Haft in H0 as [_ Hne]. intros Hi. by apply elem_of_cons in Hi as [Hi|Hi].
  - intros [Hx Hi]. apply H5. rewrite Haft. set_solver.
  - simpl. intros Hlt. apply H6. lia.
Qed.

(** Overdue disputes are escalated once: a sweep alerts about distinct,
    overdue disputes only, at most a hundred; afterwards none of them is due
    again, and if it alerted fewer than a hundred nothing overdue is left. *)
Theorem sla_sweep_alerts_once now ds ds' alerted :
  NoDup (map d_id ds) -> processSlaBreaches now ds = (ds', alerted) ->
  NoDup alerted /\ (length alerted <= SLA_SWEEP_BATCH)%nat /\
  (forall i, i ∈ alerted -> exists d, d ∈ ds /\ d_id d = i /\ due now d = true) /\
  (forall x, x ∈ List.filter (due now) ds' -> d_id x ∉ alerted) /\
  ((length alerted < SLA_SWEEP_BATCH)%nat -> List.filter (due now) ds' = []).
Proof.
  unfold processSlaBreaches. generalize SLA_SWEEP_BATCH. intros n Hn H.
  destruct (sweep_loop_spec n now ds [] ds' alerted Hn H) as (new & -> & H1 & H2 & H3 & H4 & H5 & H6).
  simpl. repeat split; try done. intros x Hx. by apply H5 in Hx as [_ ?].
Qed.
End Properties.

(** ** Witnesses and what the handlers do not ensure *)

Definition pay (i : Z) (h : string) (st : payment_status) : payment := PaymentAdmin.sample_payment i h st.
Definition db0 (st : payment_status) : db := Db [] [pay 1 "aa" st; pay 2 "bb" S_SUCCESS] ∅ [].
Definition flag_req (h : string) : flag_request :=
  FlagRequest "SCH1" h "STU1" (Str " Ada ") (Str "not my payment") Absent NoEvidence Absent (Str "+234 801 234 5678").
Definition move_req (id : nat) (to_ : string) : resolve_request :=
  ResolveRequest "SCH1" id (Some "admin") (Str "checked") (Some to_) Absent NoEvidence.
Definition calls : list call :=
  [Flag 0 1 (flag_req "aa"); Resolve 5 (move_req 1 "under_review"); Flag 7 2 (flag_req "bb");
   AddEvidence 8 "SCH1" 2 (Items [Evidence "document" " u " None]); Resolve 9 (move_req 1 "rejected")].

Lemma dispute_invariant_witness :
  let b := foldl (apply_call 72) (db0 S_SUCCESS) calls in
  length (disputes b) = 2%nat /\ Forall dispute_wf (disputes b) /\ distinct_active (disputes b).
Proof.
  intros b. split; [by vm_compute|]. apply (dispute_invariant 72 calls (payments (db0 S_SUCCESS)) ∅).
  cbn [fresh_ids calls]. repeat (split; [try done; vm_compute; intros H; repeat (apply elem_of_cons in H as [H|H]; [discriminate|]);
    by apply elem_of_nil in H|]). done.
Defined.

Lemma ids_distinct : NoDup (p_id <$> payments (db0 S_SUCCESS)).
Proof. vm_compute. apply NoDup_cons. split; [|apply NoDup_singleton]. intros H%list_elem_of_singleton. discriminate. Qed.

Definition overdue (i : nat) (t : Z) (s : status) : dispute :=
  DisputeDoc i "SCH1" "aa" "STU1" "Ada" "why" None None None [] s None (Some t) None None 0 None 0 None None None.

Definition opened : db := (flagDispute 72 0 1 (flag_req "aa") (db0 S_SUCCESS)).1.
Definition moved : db * response := resolveDispute 5 (move_req 1 "resolved") opened.
Definition moved_doc : dispute := match moved.2 with R200 d => d | _ => overdue 0 0 D_open end.
Definition opened_pay : payment := default (pay 1 "aa" S_SUCCESS) (find_payment "SCH1" "aa" (payments opened)).

Lemma resolution_moves_payment_witness :
  moved.2 = R200 moved_doc /\
  exists p', find_payment "SCH1" "aa" (payments moved.1) = Some p' /\ p_id p' = 1 /\ p_status p' = S_REFUNDED.
Proof.
  split; [by vm_compute|].
  destruct (resolution_moves_payment 5 (move_req 1 "resolved") opened moved.1 moved_doc opened_pay)
    as (d & _ & _ & _ & p' & H1 & H2 & H3); [exact ids_distinct|by vm_compute|by vm_compute|].
  exists p'. split; [exact H1|]. split; [by rewrite H2|by rewrite H3].
Defined.

Lemma sla_sweep_alerts_once_witness :
  let ds := [overdue 1 90 D_open; overdue 2 50 D_under_review; overdue 3 10 D_resolved; overdue 4 200 D_open] in
  (processSlaBreaches 100 ds).2 = [2%nat; 1%nat] /\ List.filter (due 100) (processSlaBreaches 100 ds).1 = [].
Proof.
  intros ds. assert (E : (processSlaBreaches 100 ds).2 = [2%nat; 1%nat]) by (by vm_compute). split; [exact E|].
  destruct (sla_sweep_alerts_once 100 ds (processSlaBreaches 100 ds).1 (processSlaBreaches 100 ds).2) as (_ & _ & _ & _ & H).
  - apply (bool_decide_unpack _). by vm_compute.
  - by vm_compute.
  - apply H. rewrite E. vm_compute. lia.
Defined.

(** Closing one dispute lifts the student's hold although another of the
    student's disputes is still open. *)
Theorem hold_lifted_too_early :
  let b := foldl (apply_call 72) (db0 S_SUCCESS) [Flag 0 1 (flag_req "aa"); Flag 1 2 (flag_req "bb"); Resolve 2 (move_req 1 "rejected")] in
  holds b !! ("SCH1", "STU1") = Some false /\ map d_status (disputes b) = [D_rejected; D_open].
Proof. by vm_compute. Qed.

(** Reopening a closed dispute does not put the student back on hold. *)
Theorem reopening_sets_no_hold :
  let b := foldl (apply_call 72) (db0 S_SUCCESS) [Flag 0 1 (flag_req "aa"); Resolve 2 (move_req 1 "rejected"); Resolve 3 (move_req 1 "open")] in
  holds b !! ("SCH1", "STU1") = Some false /\ map d_status (disputes b) = [D_open] /\ map p_status (payments b) = [S_DISPUTED; S_SUCCESS].
Proof. by vm_compute. Qed.

(** The index is per state, so a payment can have two active disputes: one
    reopened, one under review. *)
Theorem two_active_disputes :
  let b := foldl (apply_call 72) (db0 S_SUCCESS)
    [Flag 0 1 (flag_req "aa"); Resolve 2 (move_req 1 "rejected"); Flag 3 2 (flag_req "aa");
     Resolve 4 (move_req 2 "under_review"); Resolve 5 (move_req 1 "open")] in
  map (fun d => (d_tx d, d_status d)) (disputes b) = [("aa", D_open); ("aa", D_under_review)].
Proof. by vm_compute. Qed.

(** Disputing a refunded payment and rejecting the dispute makes the
    payment successful again, by two steps no transition table allows. *)
Theorem refunded_payment_revived :
  let b := foldl (apply_call 72) (db0 S_REFUNDED) [Flag 0 1 (flag_req "aa"); Resolve 2 (move_req 1 "rejected")] in
  map p_status (payments b) = [S_SUCCESS; S_SUCCESS] /\
  Constants.isTransitionAllowed S_REFUNDED S_DISPUTED true = false /\ Constants.isTransitionAllowed S_DISPUTED S_SUCCESS true = false.
Proof. by vm_compute. Qed.

(** The state is checked before the write, not in it: of two concurrent
    requests the second moves a closed dispute along no edge of the machine. *)
Theorem concurrent_resolutions_skip_the_machine :
  let b := (flagDispute 72 0 1 (flag_req "aa") (db0 S_SUCCESS)).1 in
  match resolve_check (move_req 1 "resolved") b, resolve_check (move_req 1 "rejected") b with
  | inr w1, inr w2 =>
    let b1 := (resolve_apply 5 (move_req 1 "resolved") w1 b).1 in
    let b2 := (resolve_apply 6 (move_req 1 "rejected") w2 b1).1 in
    map d_status (disputes b1) = [D_resolved] /\ map d_status (disputes b2) = [D_rejected] /\
    isValidTransition D_resolved D_rejected = false
  | _, _ => False
  end.
Proof. by vm_compute. Qed.
End Dispute.
