(* ===== verification/AcademicPeriods.v ===== *)
(** Academic periods and the rollover: backend/src/services/academicPeriodService.js
    over backend/src/models/academicPeriodModel.js and studentPeriodFeeModel.js.

    Periods and per-period fee assignments with the schemas' validators and
    unique indexes, and the rollover as the source has it: checks on one read
    of the database, then a transaction that closes one period, opens the next
    and carries each student's arrears in batches.  A transaction that fails
    leaves the database as it was, which is the database's promise; audit
    entries are AuditChain's subject. *)

From Stdlib Require Import Ascii ZArith Lia.
From stdpp Require Import base list strings.
From S2P Require Import Prelude JsNumber JsString StellarAmount DecimalLib PaymentStatus StudentBalance.
Local Open Scope string_scope.
Local Open Scope Z_scope.
Local Open Scope list_scope.

Module AcademicPeriods.
Import StudentBalance.

Record term := Term {
  ap_id : nat; ap_schoolId : string; ap_name : string; ap_startsAt : Z; ap_endsAt : Z;
  ap_isCurrent : bool; ap_isClosed : bool; ap_carriedForwardArrears : number; ap_notes : option string
}.

Record assignment := Assignment {
  sf_schoolId : string; sf_studentId : string; sf_periodId : nat; sf_periodName : string;
  sf_feeAmount : number; sf_carriedArrears : number; sf_totalPaid : number; sf_remainingBalance : option number;
  sf_feePaid : bool; sf_paymentDeadline : option Z; sf_creditAdjustments : number
}.

Record fee_structure := FeeStructure {
  fs_schoolId : string; fs_className : string; fs_feeAmount : number; fs_isActive : bool; fs_deletedAt : option Z
}.

Record state := State {
  terms : list term; assignments : list assignment; roster : list student; structures : list fee_structure
}.

Inductive failure := VALIDATION_ERROR | NOT_FOUND | SchemaError | DuplicateKey.

Abbreviation res A := (result failure A).

(** A date argument: absent, unreadable ([Invalid Date]) or a time. *)
Inductive date_arg := NoDate | InvalidDate | At (t : Z).

Definition date_given (d : date_arg) : bool := match d with NoDate => false | _ => true end.

(** [a >= b] on dates: false when either is invalid. *)
Definition date_ge (a b : date_arg) : bool := match a, b with At x, At y => y <=? x | _, _ => false end.

(** The schema trims the name; it must not be empty nor exceed 100 characters,
    and is unique in the school. *)
Definition name_valid (n : string) : bool := str_truthy n && (String.length n <=? 100)%nat.

Definition same_name (sid n : string) (id : nat) (t : term) : bool :=
  bool_decide (ap_schoolId t = sid) && bool_decide (ap_name t = n) && negb (ap_id t =? id)%nat.

(** ** Periods *)

Definition createPeriod (id : nat) (sid : option string) (name : option string) (startsAt endsAt : date_arg)
    (notes : option string) (b : state) : res (state * term) :=
  match sid, name with
  | Some sid, Some name =>
    if negb (str_truthy sid && str_truthy name && date_given startsAt && date_given endsAt) then Throw VALIDATION_ERROR else
    if date_ge startsAt endsAt then Throw VALIDATION_ERROR else
    match startsAt, endsAt with
    | At s, At e =>
      let n := str_trim name in
      if negb (name_valid n) then Throw SchemaError else
      if existsb (same_name sid n id) b.(terms) then Throw DuplicateKey else
      let t := Term id sid n s e false false (of_Z 0)
                 (match notes with Some x => if str_truthy x then Some x else None | None => None end) in
      Ok (State (b.(terms) ++ [t]) b.(assignments) b.(roster) b.(structures), t)
    | _, _ => Throw SchemaError
    end
  | _, _ => Throw VALIDATION_ERROR
  end.

Definition starts_desc (x y : term) : Z := ap_startsAt y - ap_startsAt x.

Definition listPeriods (sid : string) (b : state) : list term :=
  js_sort starts_desc (List.filter (fun t => bool_decide (ap_schoolId t = sid)) b.(terms)).

Definition current_in (sid : string) (t : term) : bool := bool_decide (ap_schoolId t = sid) && ap_isCurrent t.

Definition getCurrentPeriod (sid : string) (b : state) : option term := List.find (current_in sid) b.(terms).

Definition find_term (sid : string) (id : nat) (b : state) : option term :=
  List.find (fun t => (ap_id t =? id)%nat && bool_decide (ap_schoolId t = sid)) b.(terms).

Definition getPeriodById (sid : string) (id : nat) (b : state) : res term := of_option (find_term sid id b) NOT_FOUND.

Definition update_terms (f : term -> term) (id : nat) (l : list term) : list term :=
  map (fun t => if (ap_id t =? id)%nat then f t else t) l.

(** The fields of an update: [None] is [undefined]. *)
Record term_update := TermUpdate {
  u_name : option string; u_startsAt : option date_arg; u_endsAt : option date_arg; u_notes : option (option string)
}.

Definition opt_given (d : option date_arg) : bool := match d with Some d => date_given d | None => false end.

(** A date as it is assigned: [new Date(null)] is the epoch. *)
Definition assigned (d : option date_arg) (old : Z) : date_arg :=
  match d with None => At old | Some NoDate => At 0 | Some d => d end.

Definition updatePeriod (sid : string) (id : nat) (u : term_update) (b : state) : res (state * term) :=
  match find_term sid id b with
  | None => Throw NOT_FOUND
  | Some t =>
    if ap_isClosed t && (match u.(u_name) with Some n => str_truthy n | None => false end
                         || opt_given u.(u_startsAt) || opt_given u.(u_endsAt)) then Throw VALIDATION_ERROR else
    let n := match u.(u_name) with Some n => str_trim n | None => ap_name t end in
    let s := assigned u.(u_startsAt) (ap_startsAt t) in
    let e := assigned u.(u_endsAt) (ap_endsAt t) in
    if date_ge s e then Throw VALIDATION_ERROR else
    match s, e with
    | At s, At e =>
      if negb (name_valid n) then Throw SchemaError else
      if existsb (same_name sid n id) b.(terms) then Throw DuplicateKey else
      let t' := Term (ap_id t) (ap_schoolId t) n s e (ap_isCurrent t) (ap_isClosed t) (ap_carriedForwardArrears t)
                  (match u.(u_notes) with Some x => x | None => ap_notes t end) in
      Ok (State (update_terms (fun _ => t') id b.(terms)) b.(assignments) b.(roster) b.(structures), t')
    | _, _ => Throw SchemaError
    end
  end.

(** ** Fee assignments *)

Definition assigned_to (sid stu : string) (pid : nat) (a : assignment) : bool :=
  bool_decide (sf_schoolId a = sid) && bool_decide (sf_studentId a = stu) && (sf_periodId a =? pid)%nat.

(** The schema refuses negative amounts. *)
Definition assignment_valid (a : assignment) : bool :=
  num_le (of_Z 0) (sf_feeAmount a) && num_le (of_Z 0) (sf_carriedArrears a) && num_le (of_Z 0) (sf_totalPaid a).

Definition getStudentPeriodFee (sid stu : string) (pid : nat) (b : state) : option assignment :=
  List.find (assigned_to sid stu pid) b.(assignments).

(** [paymentDeadline] is [null] when it is not given. *)
Definition upsertStudentPeriodFee (sid stu : string) (pid : nat) (feeAmount : number) (paymentDeadline : option Z)
    (carriedArrears : number) (b : state) : res (state * assignment) :=
  match find_term sid pid b with
  | None => Throw NOT_FOUND
  | Some t =>
    if ap_isClosed t then Throw VALIDATION_ERROR else
    let carried := num_or carriedArrears (of_Z 0) in
    let totalDue := num_add feeAmount carried in
    let put a := Ok (State b.(terms)
        (match getStudentPeriodFee sid stu pid b with
         | Some _ => map (fun x => if assigned_to sid stu pid x then a else x) b.(assignments)
         | None => b.(assignments) ++ [a]
         end) b.(roster) b.(structures), a) in
    match getStudentPeriodFee sid stu pid b with
    | Some x =>
      let a := Assignment sid stu pid (sf_periodName x) feeAmount carried (sf_totalPaid x)
                 (Some (num_max (of_Z 0) (num_sub totalDue (sf_totalPaid x)))) (num_ge (sf_totalPaid x) totalDue)
                 paymentDeadline (sf_creditAdjustments x) in
      if assignment_valid a then put a else Throw SchemaError
    | None =>
      let a := Assignment sid stu pid (ap_name t) feeAmount carried (of_Z 0) (Some totalDue)
                 (num_le totalDue (of_Z 0)) paymentDeadline (of_Z 0) in
      if assignment_valid a then put a else Throw SchemaError
    end
  end.

(** ** Rollover *)

Definition ROLLOVER_BATCH_SIZE : nat := 500.

(** [new Map(pairs).get(key)]: the last pair with the key. *)
Definition map_get {A B} (key : A -> string) (val : A -> B) (k : string) (l : list A) : option B :=
  val <$> last (List.filter (fun x => bool_decide (key x = k)) l).

Definition student_arrears (closing : list assignment) (s : student) : number :=
  match map_get sf_studentId id (st_studentId s) closing with
  | Some a => let totalDue := num_add (sf_feeAmount a) (num_or (sf_carriedArrears a) (of_Z 0)) in
              num_max (of_Z 0) (num_sub totalDue (num_or (sf_totalPaid a) (of_Z 0)))
  | None => match st_remainingBalance s with Some r => num_max (of_Z 0) r | None => of_Z 0 end
  end.

Definition new_fee (fees : list fee_structure) (s : student) : number :=
  default (st_feeAmount s) (map_get fs_className fs_feeAmount (st_class s) fees).

(** The upsert queued for one student. *)
Definition period_op (sid : string) (next : term) (fee arrears : number) (s : student) (l : list assignment) : list assignment :=
  let due := num_add fee arrears in
  let set_ (deadline : option Z) (credit : number) :=
    Assignment sid (st_studentId s) (ap_id next) (ap_name next) fee arrears (of_Z 0) (Some due) (num_le due (of_Z 0)) deadline credit in
  match List.find (assigned_to sid (st_studentId s) (ap_id next)) l with
  | Some x => map (fun y => if assigned_to sid (st_studentId s) (ap_id next) y
                            then set_ (sf_paymentDeadline x) (sf_creditAdjustments x) else y) l
  | None => l ++ [set_ None (of_Z 0)]
  end.

Definition is_student (sid stu : string) (s : student) : bool :=
  bool_decide (st_schoolId s = sid) && bool_decide (st_studentId s = stu).

Definition rolled (next : term) (fee arrears : number) (s : student) : student :=
  let due := num_add fee arrears in
  Student (st_schoolId s) (st_studentId s) (st_class s) (Some (ap_name next)) fee (st_fees s) (num_le due (of_Z 0)) (of_Z 0)
    (Some due) (st_creditAdjustments s) (st_deletedAt s).

Definition student_op (sid : string) (next : term) (fee arrears : number) (s : student) (l : list student) : list student :=
  map (fun x => if is_student sid (st_studentId s) x then rolled next fee arrears x else x) l.

Record progress := Progress { pr_assignments : list assignment; pr_roster : list student; pr_count : nat; pr_total : number }.

Section Batches.
Variables (sid : string) (next : term) (fees : list fee_structure) (closing : list assignment).

(** The queued writes of a batch, one collection after the other. *)
Definition write_batch (batch : list student) (p : progress) : progress :=
  Progress
    (foldl (fun l s => period_op sid next (new_fee fees s) (student_arrears closing s) s l) p.(pr_assignments) batch)
    (foldl (fun l s => student_op sid next (new_fee fees s) (student_arrears closing s) s l) p.(pr_roster) batch)
    (p.(pr_count) + length batch)
    (foldl (fun t s => num_add t (student_arrears closing s)) p.(pr_total) batch).

(** The loop over slices of the class list; every round takes a slice, so
    [length students] rounds are enough. *)
Fixpoint batches (rounds size : nat) (students : list student) (p : progress) : progress :=
  match rounds, students with
  | S n, _ :: _ => batches n size (drop size students) (write_batch (take size students) p)
  | _, _ => p
  end.
End Batches.

Definition live_students (sid : string) (b : state) : list student :=
  List.filter (fun s => bool_decide (st_schoolId s = sid) && bool_decide (st_deletedAt s = None)) b.(roster).

Definition active_fees (sid : string) (b : state) : list fee_structure :=
  List.filter (fun f => bool_decide (fs_schoolId f = sid) && fs_isActive f && bool_decide (fs_deletedAt f = None)) b.(structures).

Definition closing_fees (sid : string) (pid : nat) (b : state) : list assignment :=
  List.filter (fun a => bool_decide (sf_schoolId a = sid) && (sf_periodId a =? pid)%nat) b.(assignments).

Definition close (t : term) : term :=
  Term (ap_id t) (ap_schoolId t) (ap_name t) (ap_startsAt t) (ap_endsAt t) false true (ap_carriedForwardArrears t) (ap_notes t).
Definition open_term (t : term) : term :=
  Term (ap_id t) (ap_schoolId t) (ap_name t) (ap_startsAt t) (ap_endsAt t) true (ap_isClosed t) (ap_carriedForwardArrears t) (ap_notes t).
Definition with_arrears (x : number) (t : term) : term :=
  Term (ap_id t) (ap_schoolId t) (ap_name t) (ap_startsAt t) (ap_endsAt t) (ap_isCurrent t) (ap_isClosed t) x (ap_notes t).

(** The checks before the transaction. *)
Definition rollover_check (sid : string) (nextId : nat) (b : state) : res (term * term) :=
  match getCurrentPeriod sid b with
  | None => Throw NOT_FOUND
  | Some cur =>
    match find_term sid nextId b with
    | None => Throw NOT_FOUND
    | Some next => if ap_isClosed next then Throw VALIDATION_ERROR
                   else if (ap_id next =? ap_id cur)%nat then Throw VALIDATION_ERROR
                   else Ok (cur, next)
    end
  end.

(** The transaction; [size] is ROLLOVER_BATCH_SIZE. *)
Definition rollover_tx (size : nat) (sid : string) (cur next : term) (b : state) : state * (nat * number) :=
  let terms1 := update_terms open_term (ap_id next) (update_terms close (ap_id cur) b.(terms)) in
  let students := live_students sid b in
  let p := batches sid next (active_fees sid b) (closing_fees sid (ap_id cur) b) (length students) size students
             (Progress b.(assignments) b.(roster) 0 (of_Z 0)) in
  (State (update_terms (with_arrears p.(pr_total)) (ap_id next) terms1) p.(pr_assignments) p.(pr_roster) b.(structures),
   (p.(pr_count), p.(pr_total))).

(** The ids are required; they are given as strings and a number here. *)
Definition rolloverToNextPeriod (sid performedBy : string) (nextId : nat) (b : state) : res (state * (nat * number)) :=
  if negb (str_truthy sid && str_truthy performedBy) then Throw VALIDATION_ERROR else
  match rollover_check sid nextId b with
  | Throw e => Throw e
  | Ok (cur, next) => Ok (rollover_tx ROLLOVER_BATCH_SIZE sid cur next b)
  end.

(** ** Seeding *)

(** One school at a time; [year_text], [jan1] and [dec31] are the current
    year's name and bounds. *)
Fixpoint seedDefaultPeriodsForExistingSchools (year_text : string) (jan1 dec31 : Z) (ids : nat) (schools : list string) (b : state)
    : state * nat :=
  match schools with
  | [] => (b, 0%nat)
  | sid :: rest =>
    if existsb (fun t => bool_decide (ap_schoolId t = sid)) b.(terms)
    then seedDefaultPeriodsForExistingSchools year_text jan1 dec31 ids rest b
    else
      let t := Term ids sid (year_text +:+ " Default Period") jan1 dec31 true false (of_Z 0)
                 (Some "Auto-created during migration to cover existing data") in
      let '(b', n) := seedDefaultPeriodsForExistingSchools year_text jan1 dec31 (S ids) rest
                        (State (b.(terms) ++ [t]) b.(assignments) b.(roster) b.(structures)) in
      (b', S n)
  end.

(** ** Batches *)

Section BatchFacts.
Variables (sid : string) (next : term) (fees : list fee_structure) (closing : list assignment).

Lemma write_batch_app l1 l2 p :
  write_batch sid next fees closing (l1 ++ l2) p = write_batch sid next fees closing l2 (write_batch sid next fees closing l1 p).
Proof. unfold write_batch. simpl. rewrite !foldl_app, length_app. f_equal. lia. Qed.

Lemma batches_whole rounds size : (0 < size)%nat -> forall students p, (length students <= rounds)%nat ->
  batches sid next fees closing rounds size students p = write_batch sid next fees closing students p.
Proof.
  intros Hs. induction rounds as [|n IH]; intros students p Hl.
  - destruct students; simpl in Hl; [|lia]. unfold write_batch. simpl. rewrite Nat.add_0_r. by destruct p.
  - destruct students as [|s students]; [unfold write_batch; simpl; rewrite Nat.add_0_r; by destruct p|].
    cbn [batches]. rewrite IH by (rewrite length_drop; simpl in *; lia).
    rewrite <- write_batch_app, take_drop. done.
Qed.
End BatchFacts.

(** Cutting the class list into batches changes nothing: with any positive
    batch size the rollover does what one pass over all students would do. *)
Theorem batching_irrelevant size sid cur next b : (0 < size)%nat ->
  rollover_tx size sid cur next b =
  let p := write_batch sid next (active_fees sid b) (closing_fees sid (ap_id cur) b) (live_students sid b)
             (Progress b.(assignments) b.(roster) 0 (of_Z 0)) in
  (State (update_terms (with_arrears p.(pr_total)) (ap_id next)
            (update_terms open_term (ap_id next) (update_terms close (ap_id cur) b.(terms))))
     p.(pr_assignments) p.(pr_roster) b.(structures), (p.(pr_count), p.(pr_total))).
Proof. intros Hs. unfold rollover_tx. by rewrite batches_whole by done. Qed.

(** ** Each student's new assignment *)

Lemma find_map_hit {A} (f : A -> bool) c (l : list A) x : f c = true -> List.find f l = Some x ->
  List.find f (map (fun y => if f y then c else y) l) = Some c.
Proof.
  intros Hc. induction l as [|y l IH]; simpl; [done|]. destruct (f y) eqn:E; intros H; simpl; [by rewrite Hc|]. rewrite E. auto.
Qed.

Lemma find_map_miss {A} (f g : A -> bool) c (l : list A) : g c = false -> (forall y, f y = true -> g y = false) ->
  List.find g (map (fun y => if f y then c else y) l) = List.find g l.
Proof.
  intros Hc Hd. induction l as [|y l IH]; simpl; [done|]. destruct (f y) eqn:E; simpl; [rewrite Hc, (Hd y E)|destruct (g y)]; auto.
Qed.

Lemma find_app {A} (f : A -> bool) (l : list A) x : List.find f (l ++ [x]) =
  match List.find f l with Some y => Some y | None => if f x then Some x else None end.
Proof. induction l as [|y l IH]; simpl; [done|]. by destruct (f y). Qed.

Lemma assigned_to_key sid stu pid a : assigned_to sid stu pid a = true <->
  sf_schoolId a = sid /\ sf_studentId a = stu /\ sf_periodId a = pid.
Proof. unfold assigned_to. rewrite !andb_true_iff, !bool_decide_eq_true, Nat.eqb_eq. tauto. Qed.

Lemma assigned_to_other sid stu pid a : (sid, stu, pid) <> (sf_schoolId a, sf_studentId a, sf_periodId a) -> assigned_to sid stu pid a = false.
Proof. intros Hne. apply not_true_is_false. intros (H1 & H2 & H3)%assigned_to_key. congruence. Qed.

(** The assignment written for a student; a deadline and credits of an earlier
    assignment to the new period are kept. *)
Definition written (sid : string) (next : term) (fee arrears : number) (stu : string) (old : option assignment) : assignment :=
  Assignment sid stu (ap_id next) (ap_name next) fee arrears (of_Z 0) (Some (num_add fee arrears))
    (num_le (num_add fee arrears) (of_Z 0)) (x ← old; sf_paymentDeadline x) (default (of_Z 0) (sf_creditAdjustments <$> old)).

Lemma period_op_hit sid next fee arr s l :
  List.find (assigned_to sid (st_studentId s) (ap_id next)) (period_op sid next fee arr s l)
  = Some (written sid next fee arr (st_studentId s) (List.find (assigned_to sid (st_studentId s) (ap_id next)) l)).
Proof.
  assert (Hme : forall d c, assigned_to sid (st_studentId s) (ap_id next)
    (Assignment sid (st_studentId s) (ap_id next) (ap_name next) fee arr (of_Z 0) (Some (num_add fee arr))
       (num_le (num_add fee arr) (of_Z 0)) d c) = true).
  { intros. unfold assigned_to. cbn [sf_schoolId sf_studentId sf_periodId]. rewrite !bool_decide_true by done. apply Nat.eqb_refl. }
  unfold period_op. destruct (List.find _ l) as [x|] eqn:E; unfold written; cbn.
  - eapply find_map_hit; [apply Hme|done].
  - by rewrite find_app, E, Hme.
Qed.

(** Every other lookup is unaffected. *)
Lemma period_op_miss sid next fee arr s sid' stu pid l : (sid', stu, pid) <> (sid, st_studentId s, ap_id next) ->
  List.find (assigned_to sid' stu pid) (period_op sid next fee arr s l) = List.find (assigned_to sid' stu pid) l.
Proof.
  intros Hne.
  assert (Hno : forall d c, assigned_to sid' stu pid
    (Assignment sid (st_studentId s) (ap_id next) (ap_name next) fee arr (of_Z 0) (Some (num_add fee arr))
       (num_le (num_add fee arr) (of_Z 0)) d c) = false).
  { intros. by apply assigned_to_other. }
  unfold period_op. destruct (List.find (assigned_to sid (st_studentId s) (ap_id next)) l) as [x|].
  - apply find_map_miss; [apply Hno|]. intros y (H1 & H2 & H3)%assigned_to_key. apply assigned_to_other. congruence.
  - rewrite find_app, Hno. by destruct (List.find _ l).
Qed.

Section Fold.
Variables (sid : string) (next : term) (fees : list fee_structure) (closing : list assignment).

Let op l s := period_op sid next (new_fee fees s) (student_arrears closing s) s l.
Let sop l s := student_op sid next (new_fee fees s) (student_arrears closing s) s l.

Lemma fold_period_miss sid' stu pid students l : (sid' = sid -> pid = ap_id next -> stu ∉ (st_studentId <$> students)) ->
  List.find (assigned_to sid' stu pid) (foldl op l students) = List.find (assigned_to sid' stu pid) l.
Proof.
  revert l. induction students as [|s students IH]; intros l H; [done|]. rewrite fmap_cons in H. setoid_rewrite not_elem_of_cons in H.
  simpl. rewrite IH by naive_solver. apply period_op_miss. naive_solver.
Qed.

Lemma fold_period_hit s students l : NoDup (st_studentId <$> students) -> s ∈ students ->
  List.find (assigned_to sid (st_studentId s) (ap_id next)) (foldl op l students)
  = Some (written sid next (new_fee fees s) (student_arrears closing s) (st_studentId s) (List.find (assigned_to sid (st_studentId s) (ap_id next)) l)).
Proof.
  revert l. induction students as [|x students IH]; intros l Hn Hs; [by apply elem_of_nil in Hs|].
  rewrite fmap_cons, NoDup_cons in Hn. destruct Hn as [Hx Hn]. simpl. apply elem_of_cons in Hs as [->|Hs].
  - rewrite fold_period_miss by done. apply period_op_hit.
  - rewrite (IH _ Hn Hs). unfold op at 1. rewrite period_op_miss; [done|]. intros [= E].
    apply Hx. rewrite <- E. by apply list_elem_of_fmap_2.
Qed.

Lemma fold_roster students l : foldl sop l students =
  map (fun y => foldl (fun y s => if is_student sid (st_studentId s) y
                                  then rolled next (new_fee fees s) (student_arrears closing s) y else y) y students) l.
Proof.
  revert l. induction students as [|s students IH]; intros l; simpl; [symmetry; apply map_id|].
  rewrite IH. unfold sop, student_op. by rewrite map_map.
Qed.

Lemma is_student_rolled stu n f a y : is_student sid stu (rolled n f a y) = is_student sid stu y.
Proof. done. Qed.

(** A student's document after all the writes: rolled once if it is one of
    them, untouched otherwise. *)
Lemma roll_one students y : NoDup (st_studentId <$> students) ->
  let f y s := if is_student sid (st_studentId s) y then rolled next (new_fee fees s) (student_arrears closing s) y else y in
  (y ∈ students -> st_schoolId y = sid -> foldl f y students = rolled next (new_fee fees y) (student_arrears closing y) y) /\
  (st_schoolId y <> sid \/ st_studentId y ∉ (st_studentId <$> students) -> foldl f y students = y).
Proof.
  intros Hn f. assert (Hmiss : forall l y, st_schoolId y <> sid \/ st_studentId y ∉ (st_studentId <$> l) -> foldl f y l = y).
  { clear. induction l as [|s l IH]; intros y H; [done|]. simpl. unfold f at 2, is_student.
    assert (Hf : bool_decide (st_schoolId y = sid) && bool_decide (st_studentId y = st_studentId s) = false).
    { apply andb_false_iff. rewrite !bool_decide_eq_false. destruct H as [H|H]; [by left|right].
      rewrite fmap_cons, not_elem_of_cons in H. tauto. }
    rewrite Hf. apply IH. destruct H as [H|H]; [by left|right]. rewrite fmap_cons, not_elem_of_cons in H. tauto. }
  split; [|apply Hmiss]. intros Hy Hs. induction students as [|s l IH]; [by apply elem_of_nil in Hy|].
  rewrite fmap_cons, NoDup_cons in Hn. destruct Hn as [Hx Hn]. simpl. apply elem_of_cons in Hy as [<-|Hy].
  - unfold f at 2, is_student. rewrite !bool_decide_true by done. simpl. apply Hmiss. by right.
  - unfold f at 2, is_student. rewrite (bool_decide_eq_false_2 (st_studentId y = st_studentId s)).
    + rewrite andb_false_r. by apply IH.
    + intros E. apply Hx. rewrite <- E. by apply list_elem_of_fmap_2.
Qed.
End Fold.

Definition student_key (s : student) : string * string := (st_schoolId s, st_studentId s).

Lemma live_elem sid b s : s ∈ live_students sid b <-> s ∈ roster b /\ st_schoolId s = sid /\ st_deletedAt s = None.
Proof. unfold live_students. rewrite elem_of_filterb, andb_true_iff, !bool_decide_eq_true. tauto. Qed.

Lemma live_ids_distinct sid b : NoDup (student_key <$> roster b) -> NoDup (st_studentId <$> live_students sid b).
Proof.
  unfold live_students. induction (roster b) as [|s l IH]; intros H; [constructor|]. rewrite fmap_cons, NoDup_cons in H.
  destruct H as [Hs Hl]. simpl. destruct (_ && _) eqn:E; [|by apply IH]. rewrite andb_true_iff, !bool_decide_eq_true in E.
  rewrite fmap_cons, NoDup_cons. split; [|by apply IH]. intros Hin. apply list_elem_of_fmap in Hin as (x & Hx & Hin).
  apply elem_of_filterb in Hin as [E' Hin]. rewrite andb_true_iff, !bool_decide_eq_true in E'.
  apply Hs, list_elem_of_fmap. exists x. split; [|done]. unfold student_key. destruct E as [-> _], E' as [-> _]. by rewrite Hx.
Qed.

Lemma find_term_id sid id b t : find_term sid id b = Some t -> t ∈ terms b /\ ap_id t = id /\ ap_schoolId t = sid.
Proof.
  intros [H1 H2]%find_exists. rewrite andb_true_iff, bool_decide_eq_true, Nat.eqb_eq in H2. tauto.
Qed.

Lemma rollover_check_Ok sid nextId b cur next : rollover_check sid nextId b = Ok (cur, next) ->
  getCurrentPeriod sid b = Some cur /\ find_term sid nextId b = Some next /\ ap_isClosed next = false /\ ap_id next <> ap_id cur.
Proof.
  unfold rollover_check. destruct (getCurrentPeriod sid b) as [c|]; [|done]. destruct (find_term sid nextId b) as [n|]; [|done].
  destruct (ap_isClosed n) eqn:E; [done|]. destruct (Nat.eqb_spec (ap_id n) (ap_id c)); [done|]. intros. by simplify_eq.
Qed.

(** *** What the closing period leaves, in whole amounts *)

Definition moderate (z : Z) : Prop := Z.abs z <= 2 ^ 50.

(** What a student owes when period [pid] closes: the fee and the arrears of
    the assignment less what was paid on it; without an assignment, the balance
    on the student's record.  Never less than nothing. *)
Inductive owes (sid : string) (pid : nat) (b : state) (s : student) : Z -> Prop :=
| owes_assigned a fee carried paid :
    a ∈ assignments b -> sf_schoolId a = sid -> sf_studentId a = st_studentId s -> sf_periodId a = pid ->
    sf_feeAmount a = of_Z fee -> sf_carriedArrears a = of_Z carried -> sf_totalPaid a = of_Z paid ->
    moderate fee -> moderate carried -> moderate paid ->
    owes sid pid b s (Z.max 0 (fee + carried - paid))
| owes_balance r :
    (forall a, a ∈ assignments b -> sf_schoolId a = sid -> sf_periodId a = pid -> sf_studentId a <> st_studentId s) ->
    st_remainingBalance s = Some (of_Z r) -> moderate r ->
    owes sid pid b s (Z.max 0 r)
| owes_nothing :
    (forall a, a ∈ assignments b -> sf_schoolId a = sid -> sf_periodId a = pid -> sf_studentId a <> st_studentId s) ->
    st_remainingBalance s = None ->
    owes sid pid b s 0.

(** The fee of the student's class where one is active, else the student's own. *)
Inductive charged (sid : string) (b : state) (s : student) : Z -> Prop :=
| charged_class x fee :
    x ∈ structures b -> fs_schoolId x = sid -> fs_className x = st_class s -> fs_isActive x = true -> fs_deletedAt x = None ->
    fs_feeAmount x = of_Z fee -> charged sid b s fee
| charged_own fee :
    (forall x, x ∈ structures b -> fs_schoolId x = sid -> fs_isActive x = true -> fs_deletedAt x = None -> fs_className x <> st_class s) ->
    st_feeAmount s = of_Z fee -> charged sid b s fee.

(** With unique keys a map has the one entry there is. *)
Lemma map_get_unique {A B} (key : A -> string) (val : A -> B) (l : list A) x :
  x ∈ l -> (forall y, y ∈ l -> key y = key x -> y = x) -> map_get key val (key x) l = Some (val x).
Proof.
  intros Hx Hu. unfold map_get. destruct (last (List.filter _ l)) as [y|] eqn:E.
  - simpl. apply last_Some in E as [l' E]. assert (y ∈ List.filter (fun z => bool_decide (key z = key x)) l) as Hy by (rewrite E; apply elem_of_app; right; by left).
    apply elem_of_filterb in Hy as [Hk Hy]. apply bool_decide_eq_true in Hk. by rewrite (Hu y Hy Hk).
  - exfalso. apply last_None in E. assert (x ∈ List.filter (fun z => bool_decide (key z = key x)) l) as H by (apply elem_of_filterb; by rewrite bool_decide_true).
    rewrite E in H. by apply elem_of_nil in H.
Qed.

Lemma map_get_absent {A B} (key : A -> string) (val : A -> B) (l : list A) k : (forall y, y ∈ l -> key y <> k) -> map_get key val k l = None.
Proof.
  intros Hn. unfold map_get. replace (List.filter (fun z => bool_decide (key z = k)) l) with (@nil A); [done|]. symmetry.
  induction l as [|y l IH]; simpl; [done|]. rewrite bool_decide_false by (apply Hn; by left). apply IH. intros z Hz. apply Hn. by right.
Qed.

Definition assignment_key (a : assignment) : string * string * nat := (sf_schoolId a, sf_studentId a, sf_periodId a).
Definition structure_key (x : fee_structure) : string * string := (fs_schoolId x, fs_className x).

Lemma num_or_zero z : num_or (of_Z z) (of_Z 0) = of_Z z.
Proof. unfold num_or. rewrite num_truthy_int. destruct (Z.eqb_spec z 0) as [->|]; done. Qed.

Lemma arrears_owed sid pid b s z : NoDup (assignment_key <$> assignments b) ->
  owes sid pid b s z -> student_arrears (closing_fees sid pid b) s = of_Z z.
Proof.
  intros Hk Ho. unfold student_arrears.
  assert (forall a, a ∈ closing_fees sid pid b <-> a ∈ assignments b /\ sf_schoolId a = sid /\ sf_periodId a = pid) as Hcl.
  { intros a. unfold closing_fees. rewrite elem_of_filterb, andb_true_iff, bool_decide_eq_true, Nat.eqb_eq. tauto. }
  destruct Ho as [a fee carried paid Ha Hs Hst Hp Hf Hc Hpd Bf Bc Bp|r Hno Hr Br|Hno Hr].
  - rewrite <- Hst, (map_get_unique sf_studentId id).
    + unfold id. rewrite Hf, Hc, Hpd, !num_or_zero. unfold moderate in *. rewrite num_add_int, num_sub_int, num_max_int by lia. done.
    + by apply Hcl.
    + intros y (Hy & Hys & Hyp)%Hcl E. eapply (NoDup_fmap_eq assignment_key); [exact Hk|done|done|]. unfold assignment_key. congruence.
  - rewrite map_get_absent by (intros y (Hy & Hys & Hyp)%Hcl; by apply Hno). by rewrite Hr, num_max_int.
  - rewrite map_get_absent by (intros y (Hy & Hys & Hyp)%Hcl; by apply Hno). by rewrite Hr.
Qed.

Lemma fee_charged sid b s z : NoDup (structure_key <$> structures b) -> charged sid b s z -> new_fee (active_fees sid b) s = of_Z z.
Proof.
  intros Hk Hc. unfold new_fee.
  assert (forall x, x ∈ active_fees sid b <-> x ∈ structures b /\ fs_schoolId x = sid /\ fs_isActive x = true /\ fs_deletedAt x = None) as Ha.
  { intros x. unfold active_fees. rewrite elem_of_filterb, !andb_true_iff, !bool_decide_eq_true. tauto. }
  destruct Hc as [x fee Hx Hs Hcl Hact Hd Hf|fee Hno Hf].
  - rewrite <- Hcl, (map_get_unique fs_className fs_feeAmount); [done|by apply Ha|].
    intros y (Hy & Hys & _)%Ha E. eapply (NoDup_fmap_eq structure_key); [exact Hk|done|done|]. unfold structure_key. congruence.
  - rewrite map_get_absent; [done|]. intros y (Hy & Hys & H1 & H2)%Ha. by apply Hno.
Qed.

Lemma carried_total_from (due : student -> Z) closing students :
  Forall (fun s => student_arrears closing s = of_Z (due s) /\ 0 <= due s) students -> forall z, 0 <= z ->
  z + zsum (due <$> students) <= 2 ^ 53 ->
  foldl (fun t s => num_add t (student_arrears closing s)) (of_Z z) students = of_Z (z + zsum (due <$> students)).
Proof.
  induction 1 as [|s l [Hs Hd] Hl IH]; intros z Hz Hb; [cbn; by rewrite Z.add_0_r|].
  rewrite fmap_cons in *. cbn [foldl foldr] in *.
  assert (Hp : 0 <= zsum (due <$> l)) by (clear -Hl; induction Hl as [|x l [_ ?] _ IH]; [done|rewrite fmap_cons; cbn [foldr]; lia]).
  rewrite Hs, num_add_int by lia. rewrite IH by lia. f_equal. lia.
Qed.

Definition is_live (sid : string) (s : student) : bool := bool_decide (st_schoolId s = sid) && bool_decide (st_deletedAt s = None).

(** Amounts written for a student, as whole numbers. *)
Lemma written_whole sid next f a stu old : moderate f -> 0 <= a <= 2 ^ 52 ->
  written sid next (of_Z f) (of_Z a) stu old =
  Assignment sid stu (ap_id next) (ap_name next) (of_Z f) (of_Z a) (of_Z 0) (Some (of_Z (f + a))) (f + a <=? 0)
    (x ← old; sf_paymentDeadline x) (default (of_Z 0) (sf_creditAdjustments <$> old)).
Proof. intros Hf Ha. unfold written. unfold moderate in Hf. by rewrite num_add_int, num_le_int by lia. Qed.

Lemma rolled_whole next f a s : moderate f -> 0 <= a <= 2 ^ 52 ->
  rolled next (of_Z f) (of_Z a) s =
  Student (st_schoolId s) (st_studentId s) (st_class s) (Some (ap_name next)) (of_Z f) (st_fees s) (f + a <=? 0) (of_Z 0)
    (Some (of_Z (f + a))) (st_creditAdjustments s) (st_deletedAt s).
Proof. intros Hf Ha. unfold rolled. unfold moderate in Hf. by rewrite num_add_int, num_le_int by lia. Qed.

Lemma owes_bounds sid pid b s z : owes sid pid b s z -> 0 <= z <= 2 ^ 52.
Proof. intros [a fee carried paid _ _ _ _ _ _ _ Bf Bc Bp|r _ _ Br|_ _]; unfold moderate in *; lia. Qed.

(** C18: the rollover carries what is owed and touches nothing else.  Let every
    live student of the school owe [due s] from the closing period and be charged
    [fee s] for the next, in whole amounts up to 2^50 (and the keys of students,
    assignments and fee structures be unique, as their indexes keep them).  Then
    after a rollover from period [cur] to [next] each of them has exactly one
    assignment there on record: that fee, those arrears, nothing paid, their sum
    remaining, paid only when nothing is due, an earlier deadline and credits
    kept; every other assignment is as it was.  The school's live students'
    records show the same amounts and every other record is as it was; the
    count and the total reported are those of these students. *)
Theorem rollover_carries_arrears sid by_ nextId b b' n tot (due fee : student -> Z) cur next :
  NoDup (student_key <$> roster b) -> NoDup (assignment_key <$> assignments b) -> NoDup (structure_key <$> structures b) ->
  rolloverToNextPeriod sid by_ nextId b = Ok (b', (n, tot)) ->
  getCurrentPeriod sid b = Some cur -> find_term sid nextId b = Some next ->
  (forall s, s ∈ roster b -> is_live sid s = true -> owes sid (ap_id cur) b s (due s) /\ charged sid b s (fee s) /\ moderate (fee s)) ->
  (forall s, s ∈ roster b -> is_live sid s = true ->
     let old := getStudentPeriodFee sid (st_studentId s) nextId b in
     getStudentPeriodFee sid (st_studentId s) nextId b' =
     Some (Assignment sid (st_studentId s) nextId (ap_name next) (of_Z (fee s)) (of_Z (due s)) (of_Z 0) (Some (of_Z (fee s + due s)))
             (fee s + due s <=? 0) (x ← old; sf_paymentDeadline x) (default (of_Z 0) (sf_creditAdjustments <$> old)))) /\
  (forall sid' stu pid, (sid' = sid -> pid = nextId -> forall s, s ∈ roster b -> is_live sid s = true -> st_studentId s <> stu) ->
     getStudentPeriodFee sid' stu pid b' = getStudentPeriodFee sid' stu pid b) /\
  roster b' = map (fun s => if is_live sid s
    then Student (st_schoolId s) (st_studentId s) (st_class s) (Some (ap_name next)) (of_Z (fee s)) (st_fees s) (fee s + due s <=? 0) (of_Z 0)
           (Some (of_Z (fee s + due s))) (st_creditAdjustments s) (st_deletedAt s)
    else s) (roster b) /\
  n = length (List.filter (is_live sid) (roster b)) /\
  (zsum (due <$> List.filter (is_live sid) (roster b)) <= 2 ^ 53 -> tot = of_Z (zsum (due <$> List.filter (is_live sid) (roster b)))).
Proof.
  intros Hk Hka Hks H Hcur Hnext Hspec. unfold rolloverToNextPeriod in H. destruct (negb _); [done|].
  destruct (rollover_check sid nextId b) as [[cur0 next0]|] eqn:Hc; [|done].
  apply rollover_check_Ok in Hc as (Hcur0 & Hnext0 & _). rewrite Hcur in Hcur0. rewrite Hnext in Hnext0.
  injection Hcur0 as <-. injection Hnext0 as <-.
  apply find_term_id in Hnext as (_ & Hid & _). subst nextId.
  rewrite batching_irrelevant in H by (vm_compute; lia). cbv zeta in H. injection H as <- <- <-.
  pose proof (live_ids_distinct sid b Hk) as Hn. unfold getStudentPeriodFee.
  cbn [write_batch pr_count pr_total assignments roster pr_assignments pr_roster].
  change (List.filter (is_live sid) (roster b)) with (live_students sid b).
  assert (forall s, s ∈ live_students sid b <-> s ∈ roster b /\ is_live sid s = true) as Hlive
    by (intros s; unfold live_students; rewrite elem_of_filterb; unfold is_live; tauto).
  assert (forall s, s ∈ live_students sid b -> student_arrears (closing_fees sid (ap_id cur) b) s = of_Z (due s) /\
            new_fee (active_fees sid b) s = of_Z (fee s) /\ 0 <= due s <= 2 ^ 52 /\ moderate (fee s)) as Hval.
  { intros s Hs. pose proof (proj1 (Hlive s) Hs) as [H1 H2]. destruct (Hspec s H1 H2) as (Ho & Hch & Hm).
    split_and!; [by apply arrears_owed|by apply fee_charged|by eapply owes_bounds|by eapply owes_bounds|done]. }
  split_and!.
  - intros s Hs Hl. cbv zeta. assert (s ∈ live_students sid b) as Hin by (by apply Hlive). destruct (Hval s Hin) as (E1 & E2 & B1 & B2).
    rewrite fold_period_hit by done. by rewrite E1, E2, written_whole.
  - intros sid' stu pid Hno. apply fold_period_miss. intros -> -> (s & -> & Hs)%list_elem_of_fmap. apply Hlive in Hs as [H1 H2]. by apply (Hno eq_refl eq_refl s).
  - rewrite fold_roster. apply map_ext_in. intros s Hs%list_elem_of_In.
    destruct (roll_one sid next (active_fees sid b) (closing_fees sid (ap_id cur) b) (live_students sid b) s Hn) as [Hyes Hno].
    destruct (is_live sid s) eqn:El.
    + assert (s ∈ live_students sid b) as Hin by (by apply Hlive). destruct (Hval s Hin) as (E1 & E2 & B1 & B2).
      rewrite Hyes; [by rewrite E1, E2, rolled_whole|done|]. unfold is_live in El. by apply andb_true_iff in El as [?%bool_decide_eq_true _].
    + apply Hno. destruct (decide (st_schoolId s = sid)) as [E|]; [right|by left].
      intros (x & Hx & Hin)%list_elem_of_fmap. apply Hlive in Hin as [Hxr Hxl].
      assert (x = s) as ->; [|congruence]. eapply (NoDup_fmap_eq student_key); [exact Hk|done|done|].
      unfold is_live in Hxl. apply andb_true_iff in Hxl as [Hxs%bool_decide_eq_true _]. unfold student_key. congruence.
  - done.
  - intros Hb. apply (carried_total_from due); [|done|done]. apply Forall_forall. intros s Hs. destruct (Hval s Hs) as (E1 & _ & B1 & _). split; [done|lia].
Qed.

(** With whole amounts the carried total is exact: it is the sum over the
    students of what each still owes. *)
Theorem carried_total_exact (due : student -> Z) closing students :
  Forall (fun s => student_arrears closing s = of_Z (due s) /\ 0 <= due s) students -> zsum (due <$> students) <= 2 ^ 53 ->
  foldl (fun t s => num_add t (student_arrears closing s)) (of_Z 0) students = of_Z (zsum (due <$> students)).
Proof. intros H Hb. by rewrite (carried_total_from due closing students H 0) by lia. Qed.

(** ** The periods of a school *)

Record periods_wf (ts : list term) : Prop := {
  pw_ids : NoDup (ap_id <$> ts);
  pw_names : forall x y, x ∈ ts -> y ∈ ts -> ap_schoolId x = ap_schoolId y -> ap_name x = ap_name y -> x = y;
  pw_current : forall x y, x ∈ ts -> y ∈ ts -> ap_schoolId x = ap_schoolId y -> ap_isCurrent x = true -> ap_isCurrent y = true -> x = y;
  pw_closed : forall x, x ∈ ts -> ap_isClosed x = true -> ap_isCurrent x = false;
  pw_dates : forall x, x ∈ ts -> ap_startsAt x < ap_endsAt x;
}.

Lemma update_terms_elem f id ts x : x ∈ update_terms f id ts <-> exists y, y ∈ ts /\ x = if (ap_id y =? id)%nat then f y else y.
Proof.
  unfold update_terms. rewrite list_elem_of_In, in_map_iff. split; intros (y & H1 & H2); exists y; rewrite list_elem_of_In in *; done.
Qed.

Lemma update_terms_ids f id ts : (forall t, ap_id (f t) = ap_id t) -> ap_id <$> update_terms f id ts = ap_id <$> ts.
Proof.
  intros Hf. unfold update_terms. induction ts as [|t ts IH]; [done|]. cbn. f_equal; [|exact IH].
  by destruct (_ =? _)%nat.
Qed.

Lemma same_id ts x y : periods_wf ts -> x ∈ ts -> y ∈ ts -> ap_id x = ap_id y -> x = y.
Proof. intros [H _ _ _ _]. by apply (NoDup_fmap_eq ap_id). Qed.

Lemma name_free sid n id ts x : existsb (same_name sid n id) ts = false -> x ∈ ts -> ap_schoolId x = sid -> ap_name x = n ->
  ap_id x = id.
Proof.
  intros H Hx Hs Hn. destruct (Nat.eqb_spec (ap_id x) id) as [|Hne]; [done|]. exfalso.
  assert (existsb (same_name sid n id) ts = true); [|congruence]. apply existsb_exists. exists x.
  split; [by apply list_elem_of_In|]. unfold same_name. rewrite !bool_decide_true by done. by destruct (Nat.eqb_spec (ap_id x) id).
Qed.

Lemma elem_snoc {A} (l : list A) t x : x ∈ l ++ [t] -> x = t \/ x ∈ l.
Proof. intros [H|H]%elem_of_app; [by right|left]. by apply list_elem_of_singleton in H. Qed.

Lemma create_wf id sid name s e notes b b' t : periods_wf (terms b) -> id ∉ (ap_id <$> terms b) ->
  createPeriod id sid name s e notes b = Ok (b', t) -> periods_wf (terms b') /\ ap_isCurrent t = false /\ terms b' = terms b ++ [t].
Proof.
  intros Hwf Hid H. unfold createPeriod in H. destruct sid as [sid|]; [|done]. destruct name as [name|]; [|done].
  destruct (negb _); [done|]. destruct (date_ge s e) eqn:Hd; [done|]. destruct s as [| |s], e as [| |e]; try done.
  destruct (negb _); [done|]. destruct (existsb _ _) eqn:Hex; [done|]. injection H as <- <-. simpl in *.
  apply Z.leb_gt in Hd. split; [|done].
  assert (Hno : forall x, x ∈ terms b -> ap_id x <> id) by (intros x Hx <-; apply Hid; by apply list_elem_of_fmap_2).
  split.
  - rewrite fmap_app, NoDup_app. split; [apply Hwf|]. split; [|apply NoDup_singleton]. intros x Hx Hx'.
    by apply list_elem_of_singleton in Hx' as ->.
  - intros x y [->|Hx]%elem_snoc [->|Hy]%elem_snoc Hs Hn; [done| | |by apply Hwf]; exfalso.
    + apply (Hno y Hy). by apply (name_free _ _ _ _ _ Hex Hy).
    + apply (Hno x Hx). by apply (name_free _ _ _ _ _ Hex Hx).
  - intros x y [->|Hx]%elem_snoc [->|Hy]%elem_snoc; [done..|by apply Hwf].
  - intros x [->|Hx]%elem_snoc; [done|by apply Hwf].
  - intros x [->|Hx]%elem_snoc; [simpl; lia|by apply Hwf].
Qed.

Lemma update_wf sid id u b b' t : periods_wf (terms b) -> updatePeriod sid id u b = Ok (b', t) ->
  periods_wf (terms b') /\ exists t0, find_term sid id b = Some t0 /\ ap_isCurrent t = ap_isCurrent t0 /\
    terms b' = update_terms (fun _ => t) id (terms b) /\ ap_schoolId t = sid.
Proof.
  intros Hwf H. unfold updatePeriod in H. destruct (find_term sid id b) as [t0|] eqn:Hf; [|done].
  destruct (_ && _); [done|]. destruct (date_ge _ _) eqn:Hd; [done|].
  destruct (assigned (u_startsAt u) _) as [| |s] eqn:Es; try done. destruct (assigned (u_endsAt u) _) as [| |e] eqn:Ee; try done.
  destruct (negb _); [done|]. destruct (existsb _ _) eqn:Hex; [done|]. injection H as <- <-. simpl in *.
  apply find_term_id in Hf as (Hin & Hid & Hsid). apply Z.leb_gt in Hd. set (t' := Term _ _ _ _ _ _ _ _ _) in *.
  split; [|by exists t0].
  assert (Hmem : forall x, x ∈ update_terms (fun _ => t') id (terms b) -> x = t' \/ x ∈ terms b /\ ap_id x <> id).
  { intros x (y & Hy & ->)%update_terms_elem. destruct (Nat.eqb_spec (ap_id y) id); [by left|by right]. }
  assert (Hcur : forall x, x ∈ terms b -> ap_id x <> id -> ap_schoolId x = sid -> ap_isCurrent x = true -> ap_isCurrent t0 = true -> False).
  { intros x Hx Hne Hs H1 H2. apply Hne. rewrite <- Hid. f_equal. apply (pw_current _ Hwf); congruence. }
  split.
  - replace (ap_id <$> update_terms (fun _ => t') id (terms b)) with (ap_id <$> terms b); [apply Hwf|].
    clear -Hid. unfold update_terms. induction (terms b) as [|x l IH]; [done|]. cbn. f_equal; [|exact IH].
    destruct (Nat.eqb_spec (ap_id x) id); [|done]. simpl. congruence.
  - intros x y [->|[Hx Nx]]%Hmem [->|[Hy Ny]]%Hmem Hs Hn; [done| | |by apply Hwf].
    + exfalso. apply Ny. apply (name_free _ _ _ _ _ Hex Hy); [by rewrite <- Hs|done].
    + exfalso. apply Nx. apply (name_free _ _ _ _ _ Hex Hx); [by rewrite Hs|done].
  - intros x y [->|[Hx Nx]]%Hmem [->|[Hy Ny]]%Hmem Hs H1 H2; [done| | |by apply (pw_current _ Hwf)]; exfalso.
    + apply (Hcur y); try done. by rewrite <- Hs.
    + apply (Hcur x); try done. by rewrite Hs.
  - intros x [->|[Hx Nx]]%Hmem; [|by apply Hwf]. apply (pw_closed _ Hwf t0 Hin).
  - intros x [->|[Hx Nx]]%Hmem; [simpl; lia|by apply Hwf].
Qed.

(** What the rollover does to one period. *)
Definition roll_term (curId nextId : nat) (tot : number) (t : term) : term :=
  if (ap_id t =? curId)%nat then close t else if (ap_id t =? nextId)%nat then with_arrears tot (open_term t) else t.

Lemma rollover_terms cur next tot ts : ap_id next <> ap_id cur ->
  update_terms (with_arrears tot) (ap_id next) (update_terms open_term (ap_id next) (update_terms close (ap_id cur) ts)) =
  map (roll_term (ap_id cur) (ap_id next) tot) ts.
Proof.
  intros Hne. unfold update_terms. rewrite !map_map. apply map_ext. intros t. unfold roll_term.
  destruct (Nat.eqb_spec (ap_id t) (ap_id cur)) as [E|E]; simpl.
  - rewrite E. destruct (Nat.eqb_spec (ap_id cur) (ap_id next)); [congruence|]. simpl. rewrite E.
    by destruct (Nat.eqb_spec (ap_id cur) (ap_id next)).
  - destruct (Nat.eqb_spec (ap_id t) (ap_id next)) as [E'|E']; simpl.
    + by rewrite E', Nat.eqb_refl.
    + by destruct (Nat.eqb_spec (ap_id t) (ap_id next)).
Qed.

Lemma roll_keeps c n tot t : ap_id (roll_term c n tot t) = ap_id t /\ ap_schoolId (roll_term c n tot t) = ap_schoolId t /\
  ap_name (roll_term c n tot t) = ap_name t /\ ap_startsAt (roll_term c n tot t) = ap_startsAt t /\
  ap_endsAt (roll_term c n tot t) = ap_endsAt t.
Proof. unfold roll_term. destruct (_ =? _)%nat; [done|]. by destruct (_ =? _)%nat. Qed.

(** Only the next period and periods that were current before are current
    afterwards, and the closing one is not. *)
Lemma roll_current c n tot t : ap_isCurrent (roll_term c n tot t) = true ->
  ap_id t <> c /\ (ap_id t = n \/ ap_isCurrent t = true /\ roll_term c n tot t = t).
Proof.
  unfold roll_term. destruct (Nat.eqb_spec (ap_id t) c); [done|]. destruct (Nat.eqb_spec (ap_id t) n); auto.
Qed.

Lemma roll_wf sid cur next tot ts : periods_wf ts -> cur ∈ ts -> current_in sid cur = true -> next ∈ ts -> ap_schoolId next = sid ->
  ap_isClosed next = false -> ap_id next <> ap_id cur -> periods_wf (map (roll_term (ap_id cur) (ap_id next) tot) ts).
Proof.
  intros Hwf Hc Hcur Hn Hns Hno Hne. unfold current_in in Hcur. rewrite andb_true_iff, bool_decide_eq_true in Hcur. destruct Hcur as [Hcs Hcc].
  pose proof (roll_keeps (ap_id cur) (ap_id next) tot) as Hk. set (f := roll_term (ap_id cur) (ap_id next) tot) in *.
  assert (Hel : forall x, x ∈ map f ts -> exists y, x = f y /\ y ∈ ts).
  { intros x Hx. apply list_elem_of_In, in_map_iff in Hx as (y & <- & Hy). exists y. by rewrite list_elem_of_In. }
  assert (Hold : forall y, y ∈ ts -> ap_schoolId y = sid -> ap_isCurrent y = true -> y = cur).
  { intros y Hy Hs H. apply (pw_current _ Hwf); congruence. }
  split.
  - replace (ap_id <$> map f ts) with (ap_id <$> ts); [apply Hwf|].
    clear -Hk. induction ts as [|x l IH]; [done|]. cbn. f_equal; [|exact IH]. symmetry. apply Hk.
  - intros ? ? (x & -> & Hx)%Hel (y & -> & Hy)%Hel. destruct (Hk x) as (_ & -> & -> & _).
    destruct (Hk y) as (_ & -> & -> & _). intros Hs Hnm. f_equal. by apply (pw_names _ Hwf).
  - intros ? ? (x & -> & Hx)%Hel (y & -> & Hy)%Hel. destruct (Hk x) as (_ & -> & _).
    destruct (Hk y) as (_ & -> & _). intros Hs Hcx Hcy.
    apply roll_current in Hcx as (Hxc & Hxn), Hcy as (Hyc & Hyn). f_equal.
    assert (Hboth : forall u v, u ∈ ts -> v ∈ ts -> ap_schoolId u = ap_schoolId v -> ap_id v <> ap_id cur -> ap_id u = ap_id next -> ap_isCurrent v = true -> False).
    { intros u v Hu Hv Huv Hvc Hun Hv1. apply Hvc. f_equal. apply Hold; [done| |done]. rewrite <- Huv.
      by rewrite (same_id _ _ _ Hwf Hu Hn Hun). }
    destruct Hxn as [Hxn|[Hx1 _]], Hyn as [Hyn|[Hy1 _]].
    + by apply (same_id ts); [done..|congruence].
    + exfalso. by apply (Hboth x y).
    + exfalso. by apply (Hboth y x).
    + by apply (pw_current _ Hwf).
  - intros ? (x & -> & Hx)%Hel. unfold f, roll_term. destruct (Nat.eqb_spec (ap_id x) (ap_id cur)); [done|].
    destruct (Nat.eqb_spec (ap_id x) (ap_id next)) as [E|]; [|by apply (pw_closed _ Hwf)].
    simpl. rewrite (same_id _ _ _ Hwf Hx Hn E), Hno. done.
  - intros ? (x & -> & Hx)%Hel. destruct (Hk x) as (_ & _ & _ & -> & ->). by apply Hwf.
Qed.

Lemma rollover_state sid by_ nextId b b' n tot : rolloverToNextPeriod sid by_ nextId b = Ok (b', (n, tot)) ->
  exists cur next, rollover_check sid nextId b = Ok (cur, next) /\ terms b' = map (roll_term (ap_id cur) (ap_id next) tot) (terms b).
Proof.
  unfold rolloverToNextPeriod. destruct (negb _); [done|]. destruct (rollover_check sid nextId b) as [[cur next]|] eqn:Hc; [|done].
  intros H. rewrite batching_irrelevant in H by (vm_compute; lia). cbv zeta in H. injection H as <- <- <-.
  exists cur, next. split; [done|]. cbn [terms]. apply rollover_terms. by apply rollover_check_Ok in Hc as (_ & _ & _ & ?).
Qed.

(** ** Any sequence of requests *)

Inductive request :=
| Create (id : nat) (sid name : option string) (s e : date_arg) (notes : option string)
| Update (sid : string) (id : nat) (u : term_update)
| Assign (sid stu : string) (pid : nat) (fee : number) (deadline : option Z) (carried : number)
| Rollover (sid by_ : string) (nextId : nat).

Definition new_state {A} (b : state) (r : res (state * A)) : state := match r with Ok (b', _) => b' | Throw _ => b end.

Definition serve (b : state) (r : request) : state :=
  match r with
  | Create id sid name s e notes => new_state b (createPeriod id sid name s e notes b)
  | Update sid id u => new_state b (updatePeriod sid id u b)
  | Assign sid stu pid fee deadline carried => new_state b (upsertStudentPeriodFee sid stu pid fee deadline carried b)
  | Rollover sid by_ nextId => new_state b (rolloverToNextPeriod sid by_ nextId b)
  end.

(** New documents get ids of their own. *)
Definition fresh_for (b : state) (r : request) : Prop := match r with Create id _ _ _ _ _ => id ∉ (ap_id <$> terms b) | _ => True end.

Fixpoint fresh_requests (b : state) (rs : list request) : Prop :=
  match rs with [] => True | r :: rs' => fresh_for b r /\ fresh_requests (serve b r) rs' end.

Lemma assign_terms sid stu pid fee deadline carried b b' a :
  upsertStudentPeriodFee sid stu pid fee deadline carried b = Ok (b', a) -> terms b' = terms b.
Proof.
  unfold upsertStudentPeriodFee. intros H. destruct (find_term _ _ _) as [t|]; [|done]. destruct (ap_isClosed t); [done|].
  destruct (getStudentPeriodFee _ _ _ _); destruct (assignment_valid _); try done; by injection H as <- _.
Qed.

Lemma serve_wf b r : periods_wf (terms b) -> fresh_for b r -> periods_wf (terms (serve b r)).
Proof.
  intros Hwf Hf. destruct r as [id sid name s e notes|sid id u|sid stu pid fee dl ca|sid by_ nextId]; simpl.
  - destruct (createPeriod _ _ _ _ _ _ _) as [[b' t]|] eqn:H; [|done]. by apply (create_wf _ _ _ _ _ _ _ _ _ Hwf Hf H).
  - destruct (updatePeriod _ _ _ _) as [[b' t]|] eqn:H; [|done]. by apply (update_wf _ _ _ _ _ _ Hwf H).
  - destruct (upsertStudentPeriodFee _ _ _ _ _ _ _) as [[b' t]|] eqn:H; [|done]. simpl. by rewrite (assign_terms _ _ _ _ _ _ _ _ _ H).
  - destruct (rolloverToNextPeriod _ _ _ _) as [[b' [n tot]]|] eqn:H; [|done]. simpl.
    apply rollover_state in H as (cur & next & Hc & ->). apply rollover_check_Ok in Hc as ([H1 H2]%find_exists & Hn & Hcl & Hne).
    apply find_term_id in Hn as (Hn & _ & Hs). by apply (roll_wf sid).
Qed.

(** Whatever sequence of requests is served, one after the other, no school
    ever has two current periods; ids and names stay distinct, a closed period
    is not current and every period ends after it starts. *)
Theorem one_current_period rs b : periods_wf (terms b) -> fresh_requests b rs -> periods_wf (terms (foldl serve b rs)).
Proof.
  revert b. induction rs as [|r rs IH]; intros b Hwf; [done|]. intros [Hf Hr]. apply IH; [by apply serve_wf|done].
Qed.

(** A successful rollover leaves the requested period, and no other, as the
    school's current one, with the arrears total on it. *)
Theorem rollover_makes_next_current sid by_ nextId b b' n tot : periods_wf (terms b) ->
  rolloverToNextPeriod sid by_ nextId b = Ok (b', (n, tot)) ->
  exists t, getCurrentPeriod sid b' = Some t /\ ap_id t = nextId /\ ap_carriedForwardArrears t = tot /\ ap_isClosed t = false /\
    (forall c, getCurrentPeriod sid b = Some c -> exists c', c' ∈ terms b' /\ ap_id c' = ap_id c /\ ap_isClosed c' = true).
Proof.
  intros Hwf H. assert (Hwf' : periods_wf (terms b')).
  { pose proof (serve_wf b (Rollover sid by_ nextId) Hwf I) as Hw. simpl in Hw. by rewrite H in Hw. }
  apply rollover_state in H as (cur & next & Hc & Ht). apply rollover_check_Ok in Hc as (Hcur & Hn & Hcl & Hne).
  apply find_term_id in Hn as (Hn & Hid & Hs). subst nextId. set (f := roll_term (ap_id cur) (ap_id next) tot) in *.
  assert (Hin : forall x, x ∈ terms b -> f x ∈ terms b').
  { intros x Hx. rewrite Ht. apply list_elem_of_In, in_map. by apply list_elem_of_In. }
  assert (Hfn : f next = with_arrears tot (open_term next)).
  { unfold f, roll_term. rewrite Nat.eqb_refl. by destruct (Nat.eqb_spec (ap_id next) (ap_id cur)). }
  exists (f next). split; [|rewrite Hfn; split; [done|]; split; [done|]; split; [done|]].
  - unfold getCurrentPeriod. destruct (List.find _ (terms b')) as [t|] eqn:E.
    + f_equal. apply find_exists in E as [E1 E2]. unfold current_in in E2. rewrite andb_true_iff, bool_decide_eq_true in E2.
      destruct E2 as [E2 E3]. apply (pw_current _ Hwf'); [done|by apply Hin| |done|by rewrite Hfn]. rewrite Hfn. simpl. congruence.
    + pose proof (find_none_forall _ _ E) as Hno. specialize (Hno _ (Hin _ Hn)).
      unfold current_in in Hno. rewrite Hfn in Hno. simpl in Hno. by rewrite bool_decide_true in Hno.
  - intros c Hc. assert (c = cur) as -> by congruence. exists (f cur). apply find_exists in Hcur as [Hcur _].
    split; [by apply Hin|]. unfold f, roll_term. by rewrite Nat.eqb_refl.
Qed.

(** ** What the service does not do *)

Definition no_current (sid : string) (b : state) : Prop := forall t, t ∈ terms b -> current_in sid t = false.

Lemma no_current_find sid b : no_current sid b -> getCurrentPeriod sid b = None.
Proof.
  intros H. unfold getCurrentPeriod. destruct (List.find _ _) as [t|] eqn:E; [|done].
  apply find_exists in E as [E1 E2]. by rewrite H in E2.
Qed.

Lemma serve_no_current sid b r : periods_wf (terms b) -> fresh_for b r -> no_current sid b -> no_current sid (serve b r).
Proof.
  intros Hwf Hf Hn. destruct r as [id sid' name s e notes|sid' id u|sid' stu pid fee dl ca|sid' by_ nextId]; simpl.
  - destruct (createPeriod _ _ _ _ _ _ _) as [[b' t]|] eqn:H; [|done]. destruct (create_wf _ _ _ _ _ _ _ _ _ Hwf Hf H) as (_ & Hc & Ht).
    intros x Hx. simpl in Hx. rewrite Ht in Hx. apply elem_snoc in Hx as [->|Hx]; [unfold current_in; rewrite Hc; apply andb_false_r|by apply Hn].
  - destruct (updatePeriod _ _ _ _) as [[b' t]|] eqn:H; [|done]. destruct (update_wf _ _ _ _ _ _ Hwf H) as (_ & t0 & H0 & Hc & Ht & Hs).
    intros x Hx. simpl in Hx. rewrite Ht in Hx. apply update_terms_elem in Hx as (y & Hy & ->). destruct (_ =? _)%nat; [|by apply Hn].
    apply find_term_id in H0 as (H0 & _ & Hs0). specialize (Hn _ H0). unfold current_in in *. rewrite Hc, Hs. by rewrite Hs0 in Hn.
  - destruct (upsertStudentPeriodFee _ _ _ _ _ _ _) as [[b' t]|] eqn:H; [|done]. intros x. simpl.
    rewrite (assign_terms _ _ _ _ _ _ _ _ _ H). apply Hn.
  - destruct (rolloverToNextPeriod _ _ _ _) as [[b' [n tot]]|] eqn:H; [|done]. simpl. intros x Hx.
    apply rollover_state in H as (cur & next & Hc & Ht). rewrite Ht in Hx. apply list_elem_of_In, in_map_iff in Hx as (y & <- & Hy).
    apply list_elem_of_In in Hy. apply rollover_check_Ok in Hc as ([H1 H2]%find_exists & Hnx & _). apply find_term_id in Hnx as (Hnx & _ & Hs).
    destruct (current_in sid (roll_term _ _ _ y)) eqn:E; [|done]. unfold current_in in E. rewrite andb_true_iff, bool_decide_eq_true in E.
    destruct E as [E1 E2]. destruct (roll_keeps (ap_id cur) (ap_id next) tot y) as (_ & Ek & _). rewrite Ek in E1.
    apply roll_current in E2 as (_ & [E2|[E2 _]]).
    + rewrite (same_id _ _ _ Hwf Hy Hnx E2), Hs in E1. specialize (Hn _ H1). congruence.
    + specialize (Hn _ Hy). unfold current_in in Hn. by rewrite E1, E2, bool_decide_true in Hn.
Qed.

(** A school that starts without a current period never gets one: creating
    periods does not make them current and the rollover needs one to begin
    with, so it answers "not found" for ever. *)
Theorem new_school_never_rolls_over sid rs b : periods_wf (terms b) -> fresh_requests b rs ->
  (forall t, t ∈ terms b -> ap_schoolId t <> sid) ->
  let b' := foldl serve b rs in
  getCurrentPeriod sid b' = None /\ forall by_ id, str_truthy sid && str_truthy by_ = true -> rolloverToNextPeriod sid by_ id b' = Throw NOT_FOUND.
Proof.
  intros Hwf Hf Hno b'. assert (Hb : no_current sid b').
  { assert (H0 : no_current sid b).
    { intros t Ht. unfold current_in. rewrite bool_decide_eq_false_2; [done|]. by apply Hno. }
    clear Hno. unfold b'. clear b'. revert b Hwf Hf H0. induction rs as [|r rs IH]; intros b Hwf Hf H0; [done|].
    destruct Hf as [Hf1 Hf2]. apply IH; [by apply serve_wf|done|by apply serve_no_current]. }
  split; [by apply no_current_find|]. intros by_ id Hby. unfold rolloverToNextPeriod, rollover_check. rewrite Hby. cbn [negb].
  by rewrite no_current_find.
Qed.

(** ** A small school *)

Definition a_term (id : nat) (name : string) (cur : bool) : term := Term id "SCH-1" name (Z.of_nat id * 100) (Z.of_nat id * 100 + 99) cur false (of_Z 0) None.
Definition pupil (stu cls : string) (fee : Z) (deleted : option Z) : student :=
  Student "SCH-1" stu cls None (of_Z fee) [] false (of_Z 0) (Some (of_Z 7)) (of_Z 0) deleted.
Definition school0 : state :=
  State [a_term 1 "T1" true; a_term 2 "T2" false; a_term 3 "T3" false]
    [Assignment "SCH-1" "S1" 1 "T1" (of_Z 50) (of_Z 5) (of_Z 40) (Some (of_Z 15)) false None (of_Z 0)]
    [pupil "S1" "JSS1" 50 None; pupil "S2" "JSS2" 60 None; pupil "S3" "JSS1" 50 (Some 4)]
    [FeeStructure "SCH-1" "JSS1" (of_Z 80) true None].

Definition after_state (b : state) (r : res (state * (nat * number))) : state := new_state b r.

Lemma school0_terms x : x ∈ terms school0 -> x = a_term 1 "T1" true \/ x = a_term 2 "T2" false \/ x = a_term 3 "T3" false.
Proof.
  intros H. cbn [terms school0] in H. apply elem_of_cons in H as [H|H]; [auto|]. apply elem_of_cons in H as [H|H]; [auto|].
  apply list_elem_of_singleton in H. auto.
Qed.

Lemma school0_wf : periods_wf (terms school0).
Proof.
  split.
  - by_decision.
  - intros x y [->|[->| ->]]%school0_terms [->|[->| ->]]%school0_terms; try done; intros _ H; discriminate H.
  - intros x y [->|[->| ->]]%school0_terms [->|[->| ->]]%school0_terms; done.
  - by intros x [->|[->| ->]]%school0_terms.
  - by intros x [->|[->| ->]]%school0_terms.
Qed.

Lemma batching_irrelevant_witness :
  (rollover_tx 1 "SCH-1" (a_term 1 "T1" true) (a_term 2 "T2" false) school0).2 =
  (pr_count (write_batch "SCH-1" (a_term 2 "T2" false) (active_fees "SCH-1" school0) (closing_fees "SCH-1" 1 school0)
     (live_students "SCH-1" school0) (Progress (assignments school0) (roster school0) 0 (of_Z 0))),
   of_Z 22).
Proof. rewrite (batching_irrelevant 1) by lia. by vm_compute. Defined.

(** S1 paid 40 of 50 and arrears of 5, S2 had no assignment and owes 7. *)
Lemma rollover_carries_arrears_witness :
  let b' := after_state school0 (rolloverToNextPeriod "SCH-1" "owner" 2 school0) in
  getStudentPeriodFee "SCH-1" "S1" 2 b' =
    Some (Assignment "SCH-1" "S1" 2 "T2" (of_Z 80) (of_Z 15) (of_Z 0) (Some (of_Z 95)) false None (of_Z 0)) /\
  getStudentPeriodFee "SCH-1" "S2" 2 b' =
    Some (Assignment "SCH-1" "S2" 2 "T2" (of_Z 60) (of_Z 7) (of_Z 0) (Some (of_Z 67)) false None (of_Z 0)).
Proof.
  intros b'.
  destruct (rollover_carries_arrears "SCH-1" "owner" 2 school0 b' 2 (of_Z 22)
    (fun s => if (st_studentId s =? "S1")%string then 15 else 7) (fun s => if (st_studentId s =? "S1")%string then 80 else 60)
    (a_term 1 "T1" true) (a_term 2 "T2" false)) as [H _].
  - by_decision.
  - by_decision.
  - by_decision.
  - by vm_compute.
  - reflexivity.
  - reflexivity.
  - intros s Hs Hl. cbn [roster school0] in Hs. apply elem_of_cons in Hs as [->|Hs]; [|apply elem_of_cons in Hs as [->|Hs]].
    + split_and!.
      * change (owes "SCH-1" 1 school0 (pupil "S1" "JSS1" 50 None) (Z.max 0 (50 + 5 - 40))).
        apply (owes_assigned _ _ _ _ (Assignment "SCH-1" "S1" 1 "T1" (of_Z 50) (of_Z 5) (of_Z 40) (Some (of_Z 15)) false None (of_Z 0)) 50 5 40);
          try reflexivity; [by left|unfold moderate; lia..].
      * apply (charged_class _ _ _ (FeeStructure "SCH-1" "JSS1" (of_Z 80) true None)); try reflexivity. by left.
      * unfold moderate. cbn. lia.
    + split_and!.
      * change (owes "SCH-1" 1 school0 (pupil "S2" "JSS2" 60 None) (Z.max 0 7)).
        apply owes_balance; [|done|unfold moderate; lia]. intros a Ha _ _. apply list_elem_of_singleton in Ha as ->. done.
      * apply charged_own; [|done]. intros x Hx _ _ _. apply list_elem_of_singleton in Hx as ->. done.
      * unfold moderate. cbn. lia.
    + apply list_elem_of_singleton in Hs as ->. discriminate Hl.
  - split.
    + apply (H (pupil "S1" "JSS1" 50 None)); [by left|reflexivity].
    + apply (H (pupil "S2" "JSS2" 60 None)); [right; by left|reflexivity].
Defined.

Lemma carried_total_exact_witness :
  foldl (fun t s => num_add t (student_arrears (closing_fees "SCH-1" 1 school0) s)) (of_Z 0) (live_students "SCH-1" school0) = of_Z 22.
Proof.
  apply (carried_total_exact (fun s => if (st_studentId s =? "S1")%string then 15 else 7)); [|by vm_compute].
  vm_compute live_students. repeat (constructor; [by vm_compute|]). constructor.
Defined.

Definition requests : list request :=
  [Create 4 (Some "SCH-1") (Some " T4 ") (At 900) (At 950) None; Rollover "SCH-1" "owner" 2; Rollover "SCH-1" "owner" 1;
   Rollover "SCH-1" "owner" 4].

Lemma one_current_period_witness :
  periods_wf (terms (foldl serve school0 requests)) /\
  (ap_id <$> getCurrentPeriod "SCH-1" (foldl serve school0 requests)) = Some 4%nat.
Proof.
  split; [|by vm_compute]. apply (one_current_period requests school0 school0_wf).
  split; [by_decision|]. done.
Defined.

Lemma rollover_makes_next_current_witness :
  exists t, getCurrentPeriod "SCH-1" (after_state school0 (rolloverToNextPeriod "SCH-1" "owner" 2 school0)) = Some t /\ ap_id t = 2%nat.
Proof.
  destruct (rollover_makes_next_current "SCH-1" "owner" 2 school0 (after_state school0 (rolloverToNextPeriod "SCH-1" "owner" 2 school0)) 2 (of_Z 22))
    as (t & H1 & H2 & _); [exact school0_wf|by vm_compute|]. by exists t.
Defined.

Lemma new_school_never_rolls_over_witness :
  let b' := foldl serve school0 [Create 9 (Some "SCH-2") (Some "First") (At 1) (At 2) None] in
  length (listPeriods "SCH-2" b') = 1%nat /\ rolloverToNextPeriod "SCH-2" "owner" 9 b' = Throw NOT_FOUND.
Proof.
  intros b'. split; [by vm_compute|].
  destruct (new_school_never_rolls_over "SCH-2" [Create 9 (Some "SCH-2") (Some "First") (At 1) (At 2) None] school0 school0_wf) as [_ H].
  - split; [by_decision|done].
  - by intros t [->|[->| ->]]%school0_terms.
  - by apply H.
Defined.

(** The checks are made outside the transaction, so two rollovers started
    together to different periods leave the school with two current ones. *)
Theorem concurrent_rollovers_two_current :
  match rollover_check "SCH-1" 2 school0, rollover_check "SCH-1" 3 school0 with
  | Ok (c1, n1), Ok (c2, n2) =>
    let b1 := (rollover_tx 500 "SCH-1" c1 n1 school0).1 in
    let b2 := (rollover_tx 500 "SCH-1" c2 n2 b1).1 in
    ap_id <$> List.filter (current_in "SCH-1") (terms b2) = [2%nat; 3%nat]
  | _, _ => False
  end.
Proof. by vm_compute. Qed.

(** The rollover resets what the student paid and adds the arrears to the
    balance, but the next balance update counts all payments ever made against
    the new fee alone: a pupil who paid last term's 100 in full and nothing
    since is shown as paid up. *)
Theorem rollover_undone_by_balance_update :
  let s := Student "SCH-1" "STU-1" "JSS1" None (of_Z 100) [] true (of_Z 100) (Some (of_Z 0)) (of_Z 0) None in
  let b := State [a_term 1 "T1" true; a_term 2 "T2" false] [] [s] [] in
  let rolled_over := roster (after_state b (rolloverToNextPeriod "SCH-1" "owner" 2 b)) in
  let d := Db rolled_over [Entry (a_payment 1 1000000000 PaymentStatus.S_SUCCESS) None 150] [] [] in
  let d' := (updateStudentBalance (DL := exact_decimal) (MS := exact_sum) "SCH-1" "STU-1" true d).1 in
  (fun x => (st_feePaid x, st_remainingBalance x)) <$> rolled_over = [(false, Some (of_Z 100))] /\
  (fun x => (st_feePaid x, st_remainingBalance x)) <$> students d' = [(true, Some (of_Z 0))].
Proof. by vm_compute. Qed.

(** The dates and the name of the current period can be changed; only a
    closed one is protected. *)
Theorem current_period_renamed :
  match updatePeriod "SCH-1" 1 (TermUpdate (Some "Other") None (Some (At 5000)) None) school0 with
  | Ok (_, t) => ap_isCurrent t = true /\ ap_name t = "Other" /\ ap_endsAt t = 5000
  | Throw _ => False
  end.
Proof. by vm_compute. Qed.
End AcademicPeriods.
