(* ===== verification/Outbox.v ===== *)
(** The transactional outbox: backend/src/services/outboxDispatcher.js over
    backend/src/models/outboxModel.js, the subscribers of
    backend/src/services/paymentSavedSubscribers.js and the dead-letter
    endpoints of backend/src/controllers/outboxAdminController.js.

    Several replicas share the collection.  A dispatch is modelled by its
    awaits (the claim, for each listener its call and then the note of its
    delivery, the final update), which interleave freely with the other
    replicas' and with crashes; the single-replica batch composes them.  What a
    listener does is outside; a step says whether it succeeded. *)

From Stdlib Require Import Ascii ZArith Lia.
From stdpp Require Import base list strings gmap pretty.
From S2P Require Import Prelude JsString.
Local Open Scope string_scope.
Local Open Scope Z_scope.
Local Open Scope list_scope.

Module Outbox.

Inductive status := pending | processing | completed | dead_letter.

#[export] Instance outbox_status_eq_dec : EqDecision status.
Proof. solve_decision. Defined.

Record event := Event {
  ev_id : nat; ev_type : string; ev_status : status; ev_lockedUntil : Z; ev_lockedBy : option nat;
  ev_deliveredTo : list string; ev_nextAttemptAt : Z; ev_retryCount : Z; ev_createdAt : Z
}.

(** ** Constants and helpers *)

Definition LEASE_DURATION_MS : Z := 30000.
Definition BASE_BACKOFF_MS : Z := 1000.
Definition MAX_BACKOFF_MS : Z := 600000.

Definition backoffMs (retryCount : Z) : Z := Z.min (BASE_BACKOFF_MS * 2 ^ retryCount) MAX_BACKOFF_MS.

Definition nextAttemptDate (now retryCount : Z) : Z := now + backoffMs retryCount.

(** A listener's name, or its position when it has none. *)
Fixpoint names_from (idx : nat) (fns : list string) : list string :=
  match fns with
  | [] => []
  | n :: l => (if str_truthy n then n else "listener_" +:+ pretty idx) :: names_from (S idx) l
  end.

(** The subscribers registered at start-up; an arrow function has no name. *)
Definition registered (eventType : string) : list string :=
  if decide (eventType = "payment.saved") then
    ["onPaymentSavedWebhook"; "onPaymentSavedReceipt"; "onPaymentSavedCancelReminder"; "onPaymentSavedRecordDuration"; ""; ""]
  else if decide (eventType = "refund.status_changed") then ["onRefundStatusChanged"]
  else [].

Section Dispatcher.
(** The functions registered for each event type, by name. *)
Variable rawListeners : string -> list string.
Variable maxRetries : Z.

Definition listenerNames (eventType : string) : list string := names_from 0 (rawListeners eventType).

(** ** Updates of the collection *)

Definition update_event (f : event -> event) (id : nat) (l : list event) : list event :=
  map (fun e => if (ev_id e =? id)%nat then f e else e) l.

(** Gives up the lease with a new status and, where the update sets them, a
    new attempt time and retry count. *)
Definition release (s : status) (nextAttempt retries : option Z) (e : event) : event :=
  Event (ev_id e) (ev_type e) s 0 None (ev_deliveredTo e) (default (ev_nextAttemptAt e) nextAttempt)
    (default (ev_retryCount e) retries) (ev_createdAt e).

Definition addToSet (n : string) (e : event) : event :=
  Event (ev_id e) (ev_type e) (ev_status e) (ev_lockedUntil e) (ev_lockedBy e)
    (if decide (n ∈ ev_deliveredTo e) then ev_deliveredTo e else ev_deliveredTo e ++ [n])
    (ev_nextAttemptAt e) (ev_retryCount e) (ev_createdAt e).

Definition stale (now : Z) (e : event) : bool := bool_decide (ev_status e = processing) && (ev_lockedUntil e <? now).

Definition recoverStaleLeases (now : Z) (l : list event) : list event :=
  map (fun e => if stale now e
                then Event (ev_id e) (ev_type e) pending 0 None (ev_deliveredTo e) (ev_nextAttemptAt e) (ev_retryCount e) (ev_createdAt e)
                else e) l.

Definition claimable (now : Z) (e : event) : bool :=
  bool_decide (ev_status e = pending) && (ev_nextAttemptAt e <=? now) && (ev_lockedUntil e <? now).

Definition lease (now : Z) (r : nat) (e : event) : event :=
  Event (ev_id e) (ev_type e) processing (now + LEASE_DURATION_MS) (Some r) (ev_deliveredTo e)
    (ev_nextAttemptAt e) (ev_retryCount e) (ev_createdAt e).

Definition older (a b : event) : Z := ev_createdAt a - ev_createdAt b.

(** The oldest claimable event; returns it as it is after the update. *)
Definition claimNextEvent (now : Z) (r : nat) (l : list event) : option (event * list event) :=
  match js_sort older (List.filter (claimable now) l) with
  | [] => None
  | e :: _ => Some (lease now r e, update_event (lease now r) (ev_id e) l)
  end.

(** ** One dispatch *)

(** What a replica remembers of the event it holds: the document it read, the
    listeners still to call, those that failed, and a listener that succeeded
    and whose delivery is not noted yet. *)
Record job := Job { j_event : event; j_todo : list string; j_failed : list string; j_unnoted : option string }.

Definition start_job (e : event) : job :=
  Job e (List.filter (fun n => negb (bool_decide (n ∈ ev_deliveredTo e))) (listenerNames (ev_type e))) [] None.

(** The call of the next listener: [ok] is its outcome; the answer is the job
    and the successful call, if it was one. *)
Definition call_listener (ok : bool) (j : job) : job * list (nat * string) :=
  match j_unnoted j, j_todo j with
  | None, n :: rest =>
    if ok then (Job (j_event j) rest (j_failed j) (Some n), [(ev_id (j_event j), n)])
    else (Job (j_event j) rest (j_failed j ++ [n]) None, [])
  | _, _ => (j, [])
  end.

(** [$addToSet] of the delivery; when the update throws, the listener counts as
    failed. *)
Definition note_delivery (noted : bool) (j : job) (l : list event) : job * list event :=
  match j_unnoted j with
  | None => (j, l)
  | Some n =>
    if noted then (Job (j_event j) (j_todo j) (j_failed j) None, update_event (addToSet n) (ev_id (j_event j)) l)
    else (Job (j_event j) (j_todo j) (j_failed j ++ [n]) None, l)
  end.

(** The successful call whose note is outstanding. *)
Definition unnoted_call (j : job) : list (nat * string) :=
  match j_unnoted j with Some n => [(ev_id (j_event j), n)] | None => [] end.

(** The final update. *)
Definition finish_job (now : Z) (j : job) (l : list event) : list event :=
  let e := j_event j in
  match rawListeners (ev_type e) with
  | [] => update_event (release dead_letter None None) (ev_id e) l
  | _ =>
    match j_failed j with
    | [] => update_event (release completed None None) (ev_id e) l
    | _ =>
      let newRetryCount := ev_retryCount e + 1 in
      if maxRetries <=? newRetryCount
      then update_event (release dead_letter None (Some newRetryCount)) (ev_id e) l
      else update_event (release pending (Some (nextAttemptDate now newRetryCount)) (Some newRetryCount)) (ev_id e) l
    end
  end.

(** ** Replicas *)

(** The collection, what each replica holds, every successful call of a
    listener so far, and those of them whose delivery will never be noted. *)
Record world := World { docs : list event; busy : gmap nat job; calls : list (nat * string); lost : list (nat * string) }.

(** A new event, written with the change it reports. *)
Definition new_event (now : Z) (id : nat) (eventType : string) : event := Event id eventType pending 0 None [] now 0 now.

Inductive action :=
| Emit (now : Z) (id : nat) (eventType : string)
| Recover (now : Z)
| Claim (now : Z) (r : nat)
| Call (r : nat) (ok : bool)
| Note (r : nat) (noted : bool)
| Finish (now : Z) (r : nat)
| Crash (r : nat).   (* the process dies, or a database call of the dispatch throws *)

Definition step (w : world) (a : action) : world :=
  match a with
  | Emit now id t => World (w.(docs) ++ [new_event now id t]) w.(busy) w.(calls) w.(lost)
  | Recover now => World (recoverStaleLeases now w.(docs)) w.(busy) w.(calls) w.(lost)
  | Claim now r =>
    match w.(busy) !! r with
    | Some _ => w
    | None => match claimNextEvent now r w.(docs) with
              | Some (e, l) => World l (<[r := start_job e]> w.(busy)) w.(calls) w.(lost)
              | None => w
              end
    end
  | Call r ok =>
    match w.(busy) !! r with
    | Some j => let '(j', c) := call_listener ok j in World w.(docs) (<[r := j']> w.(busy)) (w.(calls) ++ c) w.(lost)
    | None => w
    end
  | Note r noted =>
    match w.(busy) !! r with
    | Some j => let '(j', l) := note_delivery noted j w.(docs) in
                World l (<[r := j']> w.(busy)) w.(calls) (w.(lost) ++ if noted then [] else unnoted_call j)
    | None => w
    end
  | Finish now r =>
    match w.(busy) !! r with
    | Some j => match j_todo j, j_unnoted j with
                | [], None => World (finish_job now j w.(docs)) (delete r w.(busy)) w.(calls) w.(lost)
                | _, _ => w
                end
    | None => w
    end
  | Crash r =>
    match w.(busy) !! r with
    | Some j => World w.(docs) (delete r w.(busy)) w.(calls) (w.(lost) ++ unnoted_call j)
    | None => w
    end
  end.

(** ** One replica on its own *)






End Dispatcher.

(** ** The timer *)

(** [timer]: the variable holds a timer object (a fired one stays there);
    [armed]: timers that will still fire; [inflight]: running batches. *)
Record scheduler := Scheduler { _running : bool; timer : bool; armed : nat; inflight : nat; waiting : bool }.

Definition scheduleTick (s : scheduler) : scheduler :=
  if negb s.(_running) then Scheduler false s.(timer) s.(armed) s.(inflight) false
  else Scheduler true true (S s.(armed)) s.(inflight) s.(waiting).

Definition startOutboxDispatcher (s : scheduler) : scheduler :=
  if s.(_running) then s else scheduleTick (Scheduler true s.(timer) s.(armed) s.(inflight) s.(waiting)).

(** The callback runs: the batch starts; the variable is not cleared. *)
Definition timer_fires (s : scheduler) : scheduler :=
  match s.(armed) with
  | O => s
  | S n => Scheduler s.(_running) s.(timer) n (S s.(inflight)) s.(waiting)
  end.

Definition batch_ends (s : scheduler) : scheduler :=
  match s.(inflight) with
  | O => s
  | S n => scheduleTick (Scheduler s.(_running) s.(timer) s.(armed) n s.(waiting))
  end.

(** Stopping: the answer is [true] when the promise is already resolved.  The
    cleared timer is the last one set; one that fired stays fired. *)
Definition stopOutboxDispatcher (s : scheduler) : scheduler * bool :=
  if negb s.(_running) then (s, true)
  else if s.(timer) then (Scheduler false false (pred s.(armed)) s.(inflight) s.(waiting), true)
  else (Scheduler false false s.(armed) s.(inflight) true, false).

(** ** Dead-letter administration *)

(** The queries filter on [deadLettered], a virtual property: no stored
    document has such a field, so none matches. *)
Definition stored_deadLettered (e : event) : option bool := None.

Definition listDeadLetterEvents (l : list event) : list event :=
  List.filter (fun e => bool_decide (stored_deadLettered e = Some true)) l.

(** What the replay writes to a document; fields outside the schema are
    dropped, the status is not among them. *)
Definition reset_for_replay (e : event) : event :=
  Event (ev_id e) (ev_type e) (ev_status e) (ev_lockedUntil e) (ev_lockedBy e) (ev_deliveredTo e) (ev_nextAttemptAt e) 0 (ev_createdAt e).

Definition replayDeadLetterEvent (id : nat) (l : list event) : option (list event) :=
  match List.find (fun e => (ev_id e =? id)%nat) (listDeadLetterEvents l) with
  | Some e => Some (update_event reset_for_replay id l)
  | None => None
  end.

(** ** Facts about the updates *)

Lemma update_elem f id l x : x ∈ update_event f id l <-> exists y, y ∈ l /\ x = if (ev_id y =? id)%nat then f y else y.
Proof.
  unfold update_event. rewrite list_elem_of_In, in_map_iff. split; intros (y & H1 & H2); exists y; rewrite list_elem_of_In in *; done.
Qed.

Lemma update_ids f id l : (forall e, ev_id (f e) = ev_id e) -> ev_id <$> update_event f id l = ev_id <$> l.
Proof.
  intros Hf. unfold update_event. induction l as [|e l IH]; [done|]. cbn. f_equal; [|exact IH]. by destruct (_ =? _)%nat.
Qed.

Lemma recover_elem now l x : x ∈ recoverStaleLeases now l -> exists y, y ∈ l /\ ev_id x = ev_id y /\ ev_type x = ev_type y /\
  ev_deliveredTo x = ev_deliveredTo y /\ (x = y \/ stale now y = true /\ ev_status x = pending).
Proof.
  unfold recoverStaleLeases. intros H. apply list_elem_of_In, in_map_iff in H as (y & <- & Hy). exists y.
  rewrite list_elem_of_In. destruct (stale now y); simpl; auto 10.
Qed.

Lemma recover_keeps now l y : y ∈ l -> stale now y = false -> y ∈ recoverStaleLeases now l.
Proof. intros Hy Hs. apply list_elem_of_In, in_map_iff. exists y. rewrite Hs. by rewrite <- list_elem_of_In. Qed.

Lemma recover_has now l y : y ∈ l -> exists x, x ∈ recoverStaleLeases now l /\ ev_id x = ev_id y /\ ev_deliveredTo x = ev_deliveredTo y.
Proof.
  intros Hy. eexists. split; [apply list_elem_of_In, in_map, list_elem_of_In, Hy|]. by destruct (stale now y).
Qed.

Lemma recover_ids now l : ev_id <$> recoverStaleLeases now l = ev_id <$> l.
Proof. unfold recoverStaleLeases. induction l as [|e l IH]; [done|]. cbn. f_equal; [by destruct (stale now e)|exact IH]. Qed.

Lemma claim_spec now r l e l' : claimNextEvent now r l = Some (e, l') ->
  exists e0, e0 ∈ l /\ claimable now e0 = true /\ e = lease now r e0 /\ l' = update_event (lease now r) (ev_id e0) l.
Proof.
  unfold claimNextEvent. destruct (js_sort older (List.filter (claimable now) l)) as [|x rest] eqn:E; [done|]. intros H.
  injection H as <- <-. exists x. assert (Hx : x ∈ js_sort older (List.filter (claimable now) l)) by (rewrite E; left).
  apply js_sort_elem, elem_of_filterb in Hx as [Hc Hx]. done.
Qed.


Lemma addToSet_elem n e x : x ∈ ev_deliveredTo (addToSet n e) <-> x ∈ ev_deliveredTo e \/ x = n.
Proof.
  unfold addToSet. cbn [ev_deliveredTo]. destruct (decide (n ∈ ev_deliveredTo e)); [split; [auto|by intros [| ->]]|].
  rewrite elem_of_app, list_elem_of_singleton. tauto.
Qed.

(** ** How often a listener is called *)

(** The number of entries of a log for one event and listener. *)
Definition times (p : nat * string) (log : list (nat * string)) : nat := length (List.filter (fun q => bool_decide (q = p)) log).

Lemma times_app p l l' : times p (l ++ l') = (times p l + times p l')%nat.
Proof. unfold times. by rewrite List.filter_app, length_app. Qed.

Lemma times_one p q : times p [q] = if decide (q = p) then 1%nat else 0%nat.
Proof. unfold times. simpl. by destruct (decide (q = p)); [rewrite bool_decide_true|rewrite bool_decide_false]. Qed.

Lemma times_zero p l : p ∉ l -> times p l = 0%nat.
Proof.
  unfold times. induction l as [|q l IH]; simpl; [done|]. intros [Hne Hl]%not_elem_of_cons.
  rewrite bool_decide_false by done. by apply IH.
Qed.

Lemma times_pos p l : (0 < times p l)%nat -> p ∈ l.
Proof. destruct (decide (p ∈ l)) as [|Hn]; [done|]. rewrite (times_zero p l Hn). lia. Qed.

Lemma times_nodup l : (forall p, (times p l <= 1)%nat) -> NoDup l.
Proof.
  induction l as [|q l IH]; intros H; constructor.
  - intros Hq. specialize (H q). unfold times in H. simpl in H. rewrite bool_decide_true in H by done. simpl in H.
    assert (q ∈ List.filter (fun x => bool_decide (x = q)) l) as Hin by (apply elem_of_filterb; split; [by apply bool_decide_eq_true|done]).
    destruct (List.filter _ l); [by apply elem_of_nil in Hin|simpl in H; lia].
  - apply IH. intros p. specialize (H p). unfold times in *. simpl in H. destruct (bool_decide _); simpl in H; lia.
Qed.

Section Exclusive.
Variable rawListeners : string -> list string.
Variable maxRetries : Z.
Hypothesis distinct_names : forall t, NoDup (listenerNames rawListeners t).

Abbreviation names := (listenerNames rawListeners).
Abbreviation step' := (step rawListeners maxRetries).

(** The premises of one action: a lease is not taken from a replica that still
    works on its event, and new events have new ids. *)
Definition timely1 (w : world) (a : action) : Prop :=
  match a with
  | Emit _ id _ => id ∉ (ev_id <$> docs w)
  | Recover now => forall r j e, busy w !! r = Some j -> e ∈ docs w -> ev_id e = ev_id (j_event j) -> now <= ev_lockedUntil e
  | _ => True
  end.

Fixpoint timely (w : world) (acts : list action) : Prop :=
  match acts with [] => True | a :: acts' => timely1 w a /\ timely (step' w a) acts' end.

(** The document of a job: held, and its listeners accounted for. *)
Definition holds_doc (j : job) (e : event) : Prop :=
  ev_id e = ev_id (j_event j) /\ ev_type e = ev_type (j_event j) /\ ev_status e = processing /\
  (forall n, n ∈ j_todo j \/ j_unnoted j = Some n -> n ∉ ev_deliveredTo e) /\
  (forall n, n ∈ names (ev_type e) -> n ∈ ev_deliveredTo e \/ n ∈ j_todo j \/ n ∈ j_failed j \/ j_unnoted j = Some n).

Definition good_todo (j : job) : Prop := NoDup (j_todo j) /\ forall n, j_unnoted j = Some n -> n ∉ j_todo j.

(** A successful call of the listener is still to be noted. *)
Definition unnoted (b : gmap nat job) (id : nat) (n : string) : Prop :=
  exists r j, b !! r = Some j /\ ev_id (j_event j) = id /\ j_unnoted j = Some n.

(** Every successful call is noted on its document, still to be noted, or one
    whose note was lost; the first two happen at most once, and not both. *)
Definition accounted (c lo : list (nat * string)) (b : gmap nat job) (e : event) (n : string) : Prop :=
  (n ∈ ev_deliveredTo e \/ unnoted b (ev_id e) n -> times (ev_id e, n) c = S (times (ev_id e, n) lo)) /\
  (n ∉ ev_deliveredTo e -> ~ unnoted b (ev_id e) n -> times (ev_id e, n) c = times (ev_id e, n) lo).

Record outbox_inv (w : world) : Prop := {
  oi_ids : NoDup (ev_id <$> docs w);
  oi_excl : forall r1 r2 j1 j2, busy w !! r1 = Some j1 -> busy w !! r2 = Some j2 ->
    ev_id (j_event j1) = ev_id (j_event j2) -> r1 = r2;
  oi_held : forall r j, busy w !! r = Some j -> good_todo j /\ exists e, e ∈ docs w /\ holds_doc j e;
  oi_count : forall e n, e ∈ docs w -> accounted (calls w) (lost w) (busy w) e n;
  oi_known : forall id n, (id, n) ∈ calls w \/ (id, n) ∈ lost w -> id ∈ (ev_id <$> docs w);
  oi_done : forall e, e ∈ docs w -> ev_status e = completed -> forall n, n ∈ names (ev_type e) -> n ∈ ev_deliveredTo e
}.

Lemma same_doc w x y : outbox_inv w -> x ∈ docs w -> y ∈ docs w -> ev_id x = ev_id y -> x = y.
Proof. intros [H _ _ _ _ _]. by apply (NoDup_fmap_eq ev_id). Qed.

Lemma unnoted_split b r j id n : b !! r = Some j ->
  unnoted b id n <-> (ev_id (j_event j) = id /\ j_unnoted j = Some n) \/ unnoted (delete r b) id n.
Proof.
  intros Hr. split.
  - intros (r' & j' & Hr' & H). destruct (decide (r' = r)) as [->|N]; [left; congruence|right].
    exists r', j'. by rewrite lookup_delete_ne.
  - intros [[H1 H2]|(r' & j' & Hr' & H)]; [by exists r, j|]. apply lookup_delete_Some in Hr' as [_ Hr']. by exists r', j'.
Qed.

Lemma unnoted_insert b r j id n :
  unnoted (<[r := j]> b) id n <-> (ev_id (j_event j) = id /\ j_unnoted j = Some n) \/ unnoted (delete r b) id n.
Proof. rewrite (unnoted_split _ r j); [|by rewrite lookup_insert_eq]. by rewrite delete_insert_eq. Qed.

Lemma unnoted_free b r id n : b !! r = None -> unnoted (delete r b) id n <-> unnoted b id n.
Proof. intros H. by rewrite delete_id. Qed.

(** Only the holder of an event can have a note outstanding for it. *)
Lemma unnoted_other w r j n : outbox_inv w -> busy w !! r = Some j -> ~ unnoted (delete r (busy w)) (ev_id (j_event j)) n.
Proof.
  intros Hi Hr (r' & j' & [N Hr']%lookup_delete_Some & Hid & _). apply N. symmetry. by apply (oi_excl w Hi r' r j' j).
Qed.

Lemma accounted_iff c c' lo lo' b b' e e' n :
  ev_id e' = ev_id e -> ev_deliveredTo e' = ev_deliveredTo e -> (unnoted b' (ev_id e) n <-> unnoted b (ev_id e) n) ->
  times (ev_id e, n) c' = times (ev_id e, n) c -> times (ev_id e, n) lo' = times (ev_id e, n) lo ->
  accounted c lo b e n -> accounted c' lo' b' e' n.
Proof. unfold accounted. intros -> -> Hb -> ->. by rewrite Hb. Qed.

Lemma emit_inv w now id t : outbox_inv w -> id ∉ (ev_id <$> docs w) -> outbox_inv (step' w (Emit now id t)).
Proof.
  intros Hi Hid. pose proof Hi as [H1 H2 H3 H4 H5 H7]. split; cbn [step docs busy calls lost].
  - rewrite fmap_app, NoDup_app. split; [done|]. split; [|apply NoDup_singleton]. intros x Hx Hx'.
    by apply list_elem_of_singleton in Hx' as ->.
  - done.
  - intros r j Hj. destruct (H3 r j Hj) as (Hn & e & He & Hh). split; [done|]. exists e. split; [set_solver|done].
  - intros e n He. apply elem_of_app in He as [He|He%list_elem_of_singleton]; [by apply H4|]. subst e.
    assert (times (id, n) (calls w) = 0%nat /\ times (id, n) (lost w) = 0%nat) as [E1 E2]
      by (split; apply times_zero; intros Hc; apply Hid; eauto).
    split; cbn [ev_id ev_deliveredTo new_event]; [|congruence].
    intros [Hn|(r & j & Hr & Ej & _)]; [by apply elem_of_nil in Hn|]. exfalso. apply Hid.
    destruct (H3 r j Hr) as (_ & e & He & (Ee & _)). rewrite <- Ej, <- Ee. by apply list_elem_of_fmap_2.
  - intros i n Hc. rewrite fmap_app. apply elem_of_app. left. eauto.
  - intros e He. apply elem_of_app in He as [He|He%list_elem_of_singleton]; [by apply H7|]. by subst e.
Qed.

Lemma recover_inv w now : outbox_inv w -> timely1 w (Recover now) -> outbox_inv (step' w (Recover now)).
Proof.
  intros Hi Ht. pose proof Hi as [H1 H2 H3 H4 H5 H7]. split; cbn [step docs busy calls lost].
  - by rewrite recover_ids.
  - done.
  - intros r j Hj. destruct (H3 r j Hj) as (Hn & e & He & Hh). split; [done|]. exists e. split; [|done].
    apply recover_keeps; [done|]. unfold stale. apply andb_false_intro2. apply Z.ltb_ge. apply (Ht r j e Hj He). apply Hh.
  - intros e n He. apply recover_elem in He as (y & Hy & E1 & _ & E2 & _). by apply (accounted_iff (calls w) _ (lost w) _ (busy w) _ y); [..|apply H4].
  - intros i n Hc. rewrite recover_ids. eauto.
  - intros e He Hs. apply recover_elem in He as (y & Hy & _ & Et & -> & [->|[_ Hp]]); [by apply H7|congruence].
Qed.

Lemma filter_nodup {A} (f : A -> bool) (l : list A) : NoDup l -> NoDup (List.filter f l).
Proof.
  induction 1 as [|x l Hx Hl IH]; simpl; [constructor|]. destruct (f x); [|done]. constructor; [|done].
  intros H. by apply elem_of_filterb in H as [_ ?].
Qed.

Lemma claim_inv w now r : outbox_inv w -> outbox_inv (step' w (Claim now r)).
Proof.
  intros Hi. pose proof Hi as [H1 H2 H3 H4 H5 H7]. cbn [step]. destruct (busy w !! r) eqn:Hr; [done|].
  destruct (claimNextEvent now r (docs w)) as [[e l]|] eqn:Hc; [|done]. apply claim_spec in Hc as (e0 & He0 & Hcl & -> & ->).
  unfold claimable in Hcl. rewrite !andb_true_iff, bool_decide_eq_true in Hcl. destruct Hcl as [[Hst _] _].
  assert (Hfree : forall r' j, busy w !! r' = Some j -> ev_id (j_event j) <> ev_id e0).
  { intros r' j Hj E. destruct (H3 r' j Hj) as (_ & e & He & (Ee & _ & Hp & _)).
    rewrite (same_doc w e e0 Hi He He0) in Hp; congruence. }
  split; cbn [docs busy calls lost].
  - by rewrite update_ids.
  - intros r1 r2 j1 j2 Hj1 Hj2 E. destruct (decide (r1 = r)) as [->|N1], (decide (r2 = r)) as [->|N2]; [done|..].
    + rewrite lookup_insert_eq in Hj1. rewrite lookup_insert_ne in Hj2 by done. simplify_eq. exfalso. by apply (Hfree r2 j2 Hj2).
    + rewrite lookup_insert_eq in Hj2. rewrite lookup_insert_ne in Hj1 by done. simplify_eq. exfalso. by apply (Hfree r1 j1 Hj1).
    + rewrite !lookup_insert_ne in * by done. eauto.
  - intros r' j Hj. destruct (decide (r' = r)) as [->|N].
    + rewrite lookup_insert_eq in Hj. injection Hj as <-. split; [split; [apply filter_nodup, distinct_names|done]|].
      exists (lease now r e0). split; [apply update_elem; exists e0; rewrite Nat.eqb_refl; done|].
      repeat split; try done; cbn [start_job j_todo j_event j_unnoted ev_deliveredTo ev_type lease].
      * intros n [Hn|Hn]; [|done]. apply elem_of_filterb in Hn as [Hn _]. by apply negb_true_iff, bool_decide_eq_false in Hn.
      * intros n Hn. destruct (decide (n ∈ ev_deliveredTo e0)); [by left|right; left]. apply elem_of_filterb. split; [|done].
        by apply negb_true_iff, bool_decide_eq_false.
    + rewrite lookup_insert_ne in Hj by done. destruct (H3 r' j Hj) as (Hn & e & He & Hh). split; [done|]. exists e. split; [|done].
      apply update_elem. exists e. split; [done|]. destruct (Nat.eqb_spec (ev_id e) (ev_id e0)) as [E|]; [|done].
      exfalso. apply (Hfree r' j Hj). rewrite <- E. symmetry. apply Hh.
  - intros e n He. apply update_elem in He as (y & Hy & ->).
    apply (accounted_iff (calls w) _ (lost w) _ (busy w) _ y); [by destruct (_ =? _)%nat..| |done|done|by apply H4].
    rewrite unnoted_insert, unnoted_free by done. cbn [start_job j_unnoted]. split; [by intros [[_ ?]|?]|auto].
  - intros i n Hin. rewrite update_ids by done. eauto.
  - intros e He. apply update_elem in He as (y & Hy & ->). destruct (_ =? _)%nat; [done|by apply H7].
Qed.

(** A replica's job is replaced by one for the same event, the document by [f]
    of it, the two logs by longer ones: what has to be shown. *)
Lemma job_step_inv w r j j' f c lo :
  outbox_inv w -> busy w !! r = Some j -> j_event j' = j_event j -> good_todo j' ->
  (forall e, ev_id (f e) = ev_id e /\ ev_type (f e) = ev_type e /\ ev_status (f e) = ev_status e) ->
  (forall e n, n ∈ ev_deliveredTo e -> n ∈ ev_deliveredTo (f e)) ->
  (forall e, e ∈ docs w -> holds_doc j e -> holds_doc j' (f e)) ->
  (forall p, p ∈ c ++ lo -> p.1 = ev_id (j_event j)) ->
  (forall e n, e ∈ docs w -> ev_id e = ev_id (j_event j) ->
     (forall m, ~ unnoted (delete r (busy w)) (ev_id e) m) -> accounted (calls w) (lost w) (busy w) e n ->
     accounted (calls w ++ c) (lost w ++ lo) (<[r := j']> (busy w)) (f e) n) ->
  outbox_inv (World (update_event f (ev_id (j_event j)) (docs w)) (<[r := j']> (busy w)) (calls w ++ c) (lost w ++ lo)).
Proof.
  intros Hi Hr Ej Hg Hf Hd Hh Hp Ha. pose proof Hi as [H1 H2 H3 H4 H5 H7].
  assert (forall r' k, <[r := j']> (busy w) !! r' = Some k -> exists k0, busy w !! r' = Some k0 /\ j_event k = j_event k0) as Hsw.
  { intros r' k Hk. destruct (decide (r' = r)) as [->|N]; [rewrite lookup_insert_eq in Hk; injection Hk as <-; eauto|].
    rewrite lookup_insert_ne in Hk by done. eauto. }
  split; cbn [docs busy calls lost].
  - rewrite update_ids; [done|apply Hf].
  - intros r1 r2 j1 j2 (k1 & Hk1 & E1)%Hsw (k2 & Hk2 & E2)%Hsw E. apply (H2 r1 r2 k1 k2); [done|done|congruence].
  - intros r' k Hk. destruct (decide (r' = r)) as [->|N].
    + rewrite lookup_insert_eq in Hk. injection Hk as <-. split; [done|]. destruct (H3 r j Hr) as (_ & e & He & Hhe).
      exists (f e). split; [|by apply Hh]. apply update_elem. exists e. destruct Hhe as [-> _]. by rewrite Nat.eqb_refl.
    + rewrite lookup_insert_ne in Hk by done. destruct (H3 r' k Hk) as (Hn' & e' & He' & Hh'). split; [done|]. exists e'.
      split; [|done]. apply update_elem. exists e'. split; [done|].
      destruct (Nat.eqb_spec (ev_id e') (ev_id (j_event j))) as [E|]; [|done]. exfalso. apply N.
      apply (H2 r' r k j Hk Hr). rewrite <- E. symmetry. apply Hh'.
  - intros x m Hx. apply update_elem in Hx as (y & Hy & ->). destruct (Nat.eqb_spec (ev_id y) (ev_id (j_event j))) as [E|E].
    + apply Ha; [done|done| |by apply H4]. intros m'. rewrite E. by apply unnoted_other.
    + assert (times (ev_id y, m) c = 0%nat /\ times (ev_id y, m) lo = 0%nat) as [E1 E2]
        by (split; apply times_zero; intros Hc; apply E, (Hp (ev_id y, m)), elem_of_app; auto).
      apply (accounted_iff (calls w) _ (lost w) _ (busy w) _ y); [done|done| |rewrite times_app; lia|rewrite times_app; lia|by apply H4].
      rewrite unnoted_insert, (unnoted_split (busy w) r j) by done. rewrite Ej. split; intros [[E' _]|]; [congruence|auto|congruence|auto].
  - intros i m Hc. rewrite update_ids by apply Hf. rewrite !elem_of_app in Hc.
    assert ((i, m) ∈ c ++ lo -> i ∈ ev_id <$> docs w) as Hnew.
    { intros E%Hp. simpl in E. subst i. destruct (H3 r j Hr) as (_ & e & He & [<- _]). by apply list_elem_of_fmap_2. }
    rewrite elem_of_app in Hnew. destruct Hc as [[Hc|Hc]|[Hc|Hc]]; eauto.
  - intros x Hx Hs m Hm. apply update_elem in Hx as (y & Hy & ->). destruct (_ =? _)%nat; [|by apply (H7 y)].
    destruct (Hf y) as (_ & Et & Es). apply Hd, (H7 y); [done|congruence|by rewrite <- Et].
Qed.

Lemma update_id_event id l : update_event (fun e => e) id l = l.
Proof. unfold update_event. induction l as [|e l IH]; [done|]. simpl. rewrite IH. by destruct (_ =? _)%nat. Qed.

Lemma call_inv w r ok : outbox_inv w -> outbox_inv (step' w (Call r ok)).
Proof.
  intros Hi. cbn [step]. destruct (busy w !! r) as [j|] eqn:Hr; [|done].
  destruct (oi_held w Hi r j Hr) as ([Hnd Hun] & _). unfold call_listener.
  assert (outbox_inv (World (docs w) (<[r := j]> (busy w)) (calls w ++ []) (lost w))) as Hsame
    by (rewrite (insert_id (busy w) r j Hr), app_nil_r; by destruct w).
  destruct (j_unnoted j) as [m|] eqn:Eu; [done|]. destruct (j_todo j) as [|n rest] eqn:Et; [done|].
  apply NoDup_cons in Hnd as [Hn Hnd].
  rewrite <- (update_id_event (ev_id (j_event j)) (docs w)). rewrite <- (app_nil_r (lost w)).
  destruct ok; apply (job_step_inv w r j); try done.
  - split; [done|]. cbn. by intros m [= <-].
  - intros e _ (Eid & Ety & Hs & Hnot & Hall). repeat split; try done; cbn [j_todo j_unnoted j_failed].
    + intros x [Hx|[= <-]]; apply Hnot; left; rewrite Et; [by right|by left].
    + intros x Hx. destruct (Hall x Hx) as [H|[H|[H|H]]]; [by auto| |by auto|congruence].
      rewrite Et in H. apply elem_of_cons in H as [->|H]; auto.
  - intros p Hp. rewrite app_nil_r, list_elem_of_singleton in Hp. by subst p.
  - intros e x He Eid Hno [Ha1 Ha2]. rewrite app_nil_r.
    assert (forall y, ~ unnoted (busy w) (ev_id e) y) as Hnone.
    { intros y. rewrite (unnoted_split _ r j) by done. rewrite Eu. intros [[_ ?]|?]; [done|by apply (Hno y)]. }
    assert (n ∉ ev_deliveredTo e) as Hnd'.
    { destruct (oi_held w Hi r j Hr) as (_ & e' & He' & (E1 & _ & _ & Hnot & _)).
      assert (e' = e) as -> by (apply (same_doc w); [done..|congruence]). apply Hnot. left. rewrite Et. by left. }
    unfold accounted. rewrite unnoted_insert. cbn [j_event j_unnoted]. rewrite times_app, times_one, <- Eid.
    destruct (decide ((ev_id e, n) = (ev_id e, x))) as [[= <-]|Hne].
    + split; [intros _; rewrite Ha2 by eauto; lia|]. intros _ Hx. exfalso. apply Hx. by left.
    + rewrite Nat.add_0_r. split.
      * intros [Hx|[[_ [= ->]]|Hx]]; [by apply Ha1; left|done|by apply Hno in Hx].
      * intros Hx _. by apply Ha2.
  - intros e _ (Eid & Ety & Hs & Hnot & Hall). repeat split; try done; cbn [j_todo j_unnoted j_failed].
    + intros x [Hx|?]; [|done]. apply Hnot. left. rewrite Et. by right.
    + intros x Hx. destruct (Hall x Hx) as [H|[H|[H|H]]]; [by auto| |right; right; left; set_solver|congruence].
      rewrite Et in H. apply elem_of_cons in H as [->|H]; [right; right; left; set_solver|by auto].
  - intros p Hp. by apply elem_of_nil in Hp.
  - intros e x He Eid Hno Ha. rewrite !app_nil_r. apply (accounted_iff (calls w) _ (lost w) _ (busy w) _ e); try done.
    rewrite unnoted_insert, (unnoted_split (busy w) r j) by done. rewrite Eu. cbn. done.
Qed.

(** The counts when the outstanding note of [n] is lost: as if the call had
    never been. *)
Lemma lose_note c lo b b' e n x :
  (forall y, unnoted b (ev_id e) y <-> y = n) -> (forall y, ~ unnoted b' (ev_id e) y) -> n ∉ ev_deliveredTo e ->
  accounted c lo b e x -> accounted c (lo ++ [(ev_id e, n)]) b' e x.
Proof.
  intros Hb Hb' Hn [Ha1 Ha2]. unfold accounted. rewrite times_app, times_one.
  destruct (decide ((ev_id e, n) = (ev_id e, x))) as [[= <-]|Hne].
  - split; [intros [?|Hx]; [done|by apply Hb' in Hx]|]. intros _ _. rewrite Ha1 by (right; by apply Hb). lia.
  - rewrite Nat.add_0_r. split; [intros [Hx|Hx]; [by apply Ha1; left|by apply Hb' in Hx]|].
    intros Hx _. apply Ha2; [done|]. rewrite Hb. congruence.
Qed.

Lemma note_inv w r noted : outbox_inv w -> outbox_inv (step' w (Note r noted)).
Proof.
  intros Hi. cbn [step]. destruct (busy w !! r) as [j|] eqn:Hr; [|done].
  destruct (oi_held w Hi r j Hr) as ([Hnd Hun] & _). unfold note_delivery, unnoted_call.
  destruct (j_unnoted j) as [n|] eqn:Eu.
  2: { rewrite (insert_id (busy w) r j Hr). destruct noted; rewrite app_nil_r; by destruct w. }
  assert (forall e, e ∈ docs w -> ev_id e = ev_id (j_event j) -> n ∉ ev_deliveredTo e) as Hnot.
  { intros e He Eid. destruct (oi_held w Hi r j Hr) as (_ & e' & He' & (E1 & _ & _ & Hnot & _)).
    assert (e' = e) as -> by (apply (same_doc w); [done..|congruence]). apply Hnot. by right. }
  assert (forall e, ev_id e = ev_id (j_event j) -> (forall m, ~ unnoted (delete r (busy w)) (ev_id e) m) ->
            forall y, unnoted (busy w) (ev_id e) y <-> y = n) as Hone.
  { intros e Eid Hno y. rewrite (unnoted_split _ r j), Eu by done. split; [intros [[_ ?]|Hx]; [congruence|by apply Hno in Hx]|].
    intros ->. left. done. }
  assert (forall e j', j_unnoted j' = None -> (forall m, ~ unnoted (delete r (busy w)) (ev_id e) m) ->
            forall y, ~ unnoted (<[r := j']> (busy w)) (ev_id e) y) as Hzero.
  { intros e j' Hj' Hno y. rewrite unnoted_insert, Hj'. intros [[_ ?]|Hx]; [done|by apply Hno in Hx]. }
  rewrite <- (app_nil_r (calls w)). destruct noted.
  - apply (job_step_inv w r j); try done.
    + intros e x Hx. apply addToSet_elem. by left.
    + intros e _ (Eid & Ety & Hs & Hno & Hall). repeat split; try done; cbn [j_todo j_unnoted j_failed].
      * intros x [Hx|?]; [|done]. rewrite addToSet_elem. intros [Hd| ->]; [apply (Hno x); auto|by apply (Hun n)].
      * intros x Hx. rewrite addToSet_elem. destruct (Hall x Hx) as [H|[H|[H|H]]]; auto. left. right. congruence.
    + intros p Hp. by apply elem_of_nil in Hp.
    + intros e x He Eid Hno [Ha1 Ha2]. rewrite !app_nil_r. unfold accounted. change (ev_id (addToSet n e)) with (ev_id e).
      rewrite addToSet_elem. specialize (Hone e Eid Hno). split.
      * intros [[Hx| ->]|Hx]; [apply Ha1; by left|apply Ha1; right; by apply Hone|exfalso; by eapply Hzero in Hx].
      * intros Hx _. apply Ha2; [tauto|]. rewrite Hone. tauto.
  - rewrite <- (update_id_event (ev_id (j_event j)) (docs w)). apply (job_step_inv w r j); try done.
    + intros e _ (Eid & Ety & Hs & Hno & Hall). repeat split; try done; cbn [j_todo j_unnoted j_failed].
      * intros x [Hx|?]; [|done]. apply Hno. by left.
      * intros x Hx. destruct (Hall x Hx) as [H|[H|[H|H]]]; auto; right; right; left; [set_solver|].
        apply elem_of_app. right. apply list_elem_of_singleton. congruence.
    + intros p Hp. rewrite app_nil_l, list_elem_of_singleton in Hp. by subst p.
    + intros e x He Eid Hno Ha. rewrite app_nil_r, <- Eid. eapply lose_note; [by apply Hone|by apply Hzero|by apply Hnot|done].
Qed.

Lemma release_inv w r j s na rt : outbox_inv w -> busy w !! r = Some j -> j_unnoted j = None ->
  (s = completed -> forall e, e ∈ docs w -> ev_id e = ev_id (j_event j) -> forall n, n ∈ names (ev_type e) -> n ∈ ev_deliveredTo e) ->
  outbox_inv (World (update_event (release s na rt) (ev_id (j_event j)) (docs w)) (delete r (busy w)) (calls w) (lost w)).
Proof.
  intros Hi Hr Hu Hc. pose proof Hi as [H1 H2 H3 H4 H5 H7]. split; cbn [docs busy calls lost]; try done.
  - by rewrite update_ids.
  - intros r1 r2 j1 j2 Hj1 Hj2. apply lookup_delete_Some in Hj1 as [_ Hj1], Hj2 as [_ Hj2]. eauto.
  - intros r' j' Hj'. apply lookup_delete_Some in Hj' as [N Hj']. destruct (H3 r' j' Hj') as (Hn & e & He & Hh). split; [done|].
    exists e. split; [|done]. apply update_elem. exists e. split; [done|].
    destruct (Nat.eqb_spec (ev_id e) (ev_id (j_event j))) as [E|]; [|done]. exfalso. apply N. symmetry.
    apply (H2 r' r j' j Hj' Hr). rewrite <- E. symmetry. apply Hh.
  - intros x m Hx. apply update_elem in Hx as (y & Hy & ->).
    apply (accounted_iff (calls w) _ (lost w) _ (busy w) _ y); [by destruct (_ =? _)%nat..| |done|done|by apply H4].
    rewrite (unnoted_split (busy w) r j) by done. rewrite Hu. split; [auto|by intros [[_ ?]|?]].
  - intros i m Hm. rewrite update_ids by done. eauto.
  - intros x Hx Hs m Hm. apply update_elem in Hx as (y & Hy & ->).
    destruct (Nat.eqb_spec (ev_id y) (ev_id (j_event j))) as [E|E]; [|by apply (H7 y)]. by apply (Hc Hs y Hy E).
Qed.

Lemma finish_inv w now r : outbox_inv w -> outbox_inv (step' w (Finish now r)).
Proof.
  intros Hi. cbn [step]. destruct (busy w !! r) as [j|] eqn:Hr; [|done]. destruct (j_todo j) eqn:Ej; [|done].
  destruct (j_unnoted j) eqn:Eu; [done|].
  unfold finish_job. destruct (rawListeners (ev_type (j_event j))) eqn:El; [by apply release_inv|].
  destruct (j_failed j) eqn:Ef.
  - apply release_inv; [done|done|done|]. intros _ e He Hid n Hn.
    destruct (oi_held w Hi r j Hr) as (_ & e' & He' & Hid' & _ & _ & _ & Hall). assert (e' = e) as -> by (apply (same_doc w); [done..|congruence]).
    destruct (Hall n Hn) as [H|[H|[H|H]]]; [done|rewrite Ej in H|rewrite Ef in H|congruence]; by apply elem_of_nil in H.
  - destruct (maxRetries <=? _); by apply release_inv.
Qed.

Lemma crash_inv w r : outbox_inv w -> outbox_inv (step' w (Crash r)).
Proof.
  intros Hi. cbn [step]. destruct (busy w !! r) as [j|] eqn:Hr; [|done]. pose proof Hi as [H1 H2 H3 H4 H5 H7].
  split; cbn [docs busy calls lost]; try done.
  - intros r1 r2 j1 j2 Hj1 Hj2. apply lookup_delete_Some in Hj1 as [_ Hj1], Hj2 as [_ Hj2]. eauto.
  - intros r' j' Hj'. apply lookup_delete_Some in Hj' as [_ Hj']. eauto.
  - intros e x He. unfold unnoted_call. destruct (j_unnoted j) as [n|] eqn:Eu.
    + destruct (decide (ev_id e = ev_id (j_event j))) as [Eid|Eid].
      * rewrite <- Eid. apply (lose_note _ _ (busy w)); [| | |by apply H4].
        -- intros y. rewrite (unnoted_split _ r j), Eu by done. rewrite Eid. split; [|by intros ->; left].
           intros [[_ ?]|Hx]; [congruence|by apply (unnoted_other w r j) in Hx].
        -- intros y. rewrite Eid. by apply unnoted_other.
        -- destruct (H3 r j Hr) as (_ & e' & He' & (E1 & _ & _ & Hnot & _)).
           assert (e' = e) as -> by (apply (same_doc w); [done..|congruence]). apply Hnot. by right.
      * apply (accounted_iff (calls w) _ (lost w) _ (busy w) _ e); try done; [| |by apply H4].
        -- rewrite (unnoted_split (busy w) r j) by done. split; [auto|by intros [[? _]|?]].
        -- rewrite times_app, times_one. rewrite decide_False by congruence. lia.
    + rewrite app_nil_r. apply (accounted_iff (calls w) _ (lost w) _ (busy w) _ e); try done; [|by apply H4].
      rewrite (unnoted_split (busy w) r j), Eu by done. split; [auto|by intros [[_ ?]|?]].
  - intros i m [Hc|Hc]; [eauto|]. apply elem_of_app in Hc as [Hc|Hc]; [eauto|]. unfold unnoted_call in Hc.
    destruct (j_unnoted j); [|by apply elem_of_nil in Hc]. apply list_elem_of_singleton in Hc as [= -> ->].
    destruct (H3 r j Hr) as (_ & e & He & [<- _]). by apply list_elem_of_fmap_2.
Qed.

Lemma step_inv w a : outbox_inv w -> timely1 w a -> outbox_inv (step' w a).
Proof.
  intros Hi Ht. destruct a as [now id t|now|now r|r ok|r noted|now r|r].
  - by apply emit_inv.
  - by apply recover_inv.
  - by apply claim_inv.
  - by apply call_inv.
  - by apply note_inv.
  - by apply finish_inv.
  - by apply crash_inv.
Qed.

Lemma empty_inv : outbox_inv (World [] ∅ [] []).
Proof.
  split; cbn [docs busy calls lost].
  - constructor.
  - intros r1 r2 j1 j2 H. by rewrite lookup_empty in H.
  - intros r j H. by rewrite lookup_empty in H.
  - intros e n H. by apply elem_of_nil in H.
  - intros i n [H|H]; by apply elem_of_nil in H.
  - intros e H. by apply elem_of_nil in H.
Qed.

Lemma outbox_run_inv acts w : outbox_inv w -> timely w acts -> outbox_inv (foldl step' w acts).
Proof.
  revert w. induction acts as [|a acts IH]; intros w Hw Ht; [done|].
  destruct Ht as [H1 H2]. apply IH; [by apply step_inv|done].
Qed.

Lemma times_bound w p : outbox_inv w -> (times p (calls w) <= S (times p (lost w)))%nat.
Proof.
  intros Hi. destruct p as [id n]. destruct (decide ((id, n) ∈ calls w)) as [Hc|Hc]; [|rewrite times_zero by done; lia].
  pose proof (oi_known w Hi id n (or_introl Hc)) as Hk. apply list_elem_of_fmap in Hk as (e & -> & He).
  destruct (oi_count w Hi e n He) as [H1 H2].
  destruct (decide (n ∈ ev_deliveredTo e)) as [Hd|Hd]; [rewrite H1 by auto; lia|].
  destruct (decide (times (ev_id e, n) (calls w) = times (ev_id e, n) (lost w))) as [->|Hne]; [lia|].
  assert (~ ~ unnoted (busy w) (ev_id e) n) as Hnn by auto.
  destruct (decide (times (ev_id e, n) (calls w) = S (times (ev_id e, n) (lost w)))) as [->|Hne']; [lia|]. exfalso. apply Hnn. auto.
Qed.

(** C15: each listener gets each event, and more than once only when the note
    of a delivery is lost.  Any number of replicas, interleaved in any way,
    crash between any two awaits (also between a listener's success and the note
    of it) and their notes may fail, as long as a working replica's lease is not
    taken over and the listeners of a type have different names.  Then a
    listener is called successfully for an event at most once more often than
    notes of such calls were lost, so at most once when none was; no two
    replicas hold the same event; and an event is completed only when every
    listener has been called successfully. *)
Theorem outbox_delivery acts : timely (World [] ∅ [] []) acts ->
  let w := foldl step' (World [] ∅ [] []) acts in
  (forall p, (times p (calls w) <= S (times p (lost w)))%nat) /\
  (lost w = [] -> NoDup (calls w)) /\
  (forall r1 r2 j1 j2, busy w !! r1 = Some j1 -> busy w !! r2 = Some j2 -> ev_id (j_event j1) = ev_id (j_event j2) -> r1 = r2) /\
  (forall e, e ∈ docs w -> ev_status e = completed -> forall n, n ∈ names (ev_type e) -> (ev_id e, n) ∈ calls w).
Proof.
  intros Ht w. assert (Hi : outbox_inv w) by (apply outbox_run_inv; [apply empty_inv|done]).
  split_and!.
  - intros p. by apply times_bound.
  - intros Hl. apply times_nodup. intros p. pose proof (times_bound w p Hi) as H. by rewrite Hl in H.
  - apply Hi.
  - intros e He Hs n Hn. apply times_pos. destruct (oi_count w Hi e n He) as [H _]. rewrite H; [lia|].
    left. by apply (oi_done w Hi e He Hs).
Qed.
End Exclusive.

(** ** Budget and backoff *)


(** The wait before the next attempt doubles with each failure from two
    seconds and never exceeds ten minutes. *)
Theorem outbox_backoff now n : 1 <= n ->
  nextAttemptDate now n = now + (if n <=? 9 then 1000 * 2 ^ n else MAX_BACKOFF_MS) /\
  now + 2000 <= nextAttemptDate now n <= now + MAX_BACKOFF_MS /\ nextAttemptDate now n <= nextAttemptDate now (n + 1).
Proof.
  intros Hn. unfold nextAttemptDate, backoffMs, BASE_BACKOFF_MS, MAX_BACKOFF_MS.
  assert (Hp : 2 ^ 1 <= 2 ^ n) by (apply Z.pow_le_mono_r; lia). assert (Hp' : 2 ^ n <= 2 ^ (n + 1)) by (apply Z.pow_le_mono_r; lia).
  change (2 ^ 1) with 2 in Hp. repeat split; try lia. destruct (Z.leb_spec n 9).
  - assert (2 ^ n <= 2 ^ 9) by (apply Z.pow_le_mono_r; lia). change (2 ^ 9) with 512 in *. lia.
  - assert (2 ^ 10 <= 2 ^ n) by (apply Z.pow_le_mono_r; lia). change (2 ^ 10) with 1024 in *. lia.
Qed.

Section Settles.
Variable rawListeners : string -> list string.
Variable maxRetries : Z.




























End Settles.

(** ** The registered subscribers *)

Lemma registered_distinct t : NoDup (listenerNames registered t).
Proof.
  unfold listenerNames, registered. destruct (decide (t = "payment.saved")); [by_decision|].
  destruct (decide (t = "refund.status_changed")); by_decision.
Qed.

(** Two replicas: the receipt fails once and is retried by the other one, which
    crashes after the receipt was made and before it is noted; the first one
    makes it a second time. *)
Definition two_replicas : list action :=
  [Emit 1 7 "payment.saved"; Claim 5 0; Claim 5 1; Call 0 true; Note 0 true; Call 0 false; Call 0 true; Note 0 true;
   Call 0 true; Note 0 true; Call 0 true; Note 0 true; Call 0 true; Note 0 true; Finish 20 0;
   Recover 3000; Claim 3000 1; Call 1 true; Crash 1; Recover 90000; Claim 90000 0; Call 0 true; Note 0 true; Finish 90100 0].

Lemma two_replicas_timely : timely registered 10 (World [] ∅ [] []) two_replicas.
Proof.
  assert (Hrec : forall w now, busy w = ∅ -> timely1 w (Recover now)) by (intros w now H r j e Hj; rewrite H in Hj; by rewrite lookup_empty in Hj).
  unfold two_replicas. repeat match goal with
  | |- timely _ _ ?w (Recover _ :: _) => split; [apply Hrec; by vm_compute|]
  | |- timely _ _ _ (Emit _ _ _ :: _) => split; [by_decision|]
  | |- timely _ _ _ (_ :: _) => split; [done|]
  | |- timely _ _ _ [] => done
  end.
Qed.

Lemma outbox_delivery_witness :
  let w := foldl (step registered 10) (World [] ∅ [] []) two_replicas in
  (forall p, (times p (calls w) <= S (times p (lost w)))%nat) /\ lost w = [(7%nat, "onPaymentSavedReceipt")] /\
  times (7%nat, "onPaymentSavedReceipt") (calls w) = 2%nat /\ length (calls w) = 7%nat /\ map ev_status (docs w) = [completed].
Proof.
  intros w. destruct (outbox_delivery registered 10 registered_distinct two_replicas two_replicas_timely) as [H _].
  split; [exact H|]. by vm_compute.
Defined.

Lemma outbox_backoff_witness : nextAttemptDate 0 1 = 2000 /\ nextAttemptDate 0 12 = 600000.
Proof. split; [apply (outbox_backoff 0 1); lia|apply (outbox_backoff 0 12); lia]. Defined.


(** A replica that needs longer than the lease loses its event without
    noticing: a second replica claims it and the same listener is called
    successfully twice. *)
Theorem slow_replica_delivers_twice :
  let w := foldl (step registered 10) (World [] ∅ [] [])
    [Emit 1 7 "refund.status_changed"; Claim 5 0; Recover 40000; Claim 40000 1; Call 1 true; Note 1 true; Call 0 true] in
  calls w = [(7%nat, "onRefundStatusChanged"); (7%nat, "onRefundStatusChanged")].
Proof. by vm_compute. Qed.

(** Stopping does not wait for a running batch: the fired timer is still in
    the variable, so the promise is resolved while the batch is in flight; and
    starting again then leaves two polling chains. *)
Theorem stop_does_not_wait :
  let s0 := Scheduler false false 0 0 false in
  let s1 := timer_fires (startOutboxDispatcher s0) in
  inflight (stopOutboxDispatcher s1).1 = 1%nat /\ (stopOutboxDispatcher s1).2 = true /\
  armed (batch_ends (startOutboxDispatcher (stopOutboxDispatcher s1).1)) = 2%nat.
Proof. by vm_compute. Qed.

(** No dead-lettered event can be listed, replayed or discarded: the
    endpoints filter on a virtual property that is never stored. *)
Theorem dead_letters_unreachable l id : listDeadLetterEvents l = [] /\ replayDeadLetterEvent id l = None.
Proof.
  assert (H : listDeadLetterEvents l = []).
  { unfold listDeadLetterEvents. induction l as [|e l IH]; [done|]. simpl. exact IH. }
  split; [done|]. unfold replayDeadLetterEvent. by rewrite H.
Qed.

(** Even on a document it finds, the replay does not make the event
    claimable: the status stays. *)
Theorem replay_keeps_status e now : ev_status e = dead_letter -> claimable now (reset_for_replay e) = false.
Proof. intros H. unfold claimable, reset_for_replay. cbn [ev_status]. by rewrite H. Qed.
End Outbox.
