(* ===== verification/WebhookUrl.v ===== *)
(** Where webhooks may be sent: backend/src/utils/validateWebhookUrl.js,
    backend/src/utils/dnsCache.js and the send-time check and connection
    pinning of backend/src/services/webhookService.js.

    The deny list of IPv4 ranges is proved to be the documented networks, on
    32-bit arithmetic as the code computes it.  The URL parser, [net.isIPv6]
    and name resolution are the platform's: they are parameters. *)

From Stdlib Require Import Ascii ZArith Lia.
From stdpp Require Import base list strings gmap.
From S2P Require Import Prelude JsString.
Local Open Scope string_scope.
Local Open Scope Z_scope.
Local Open Scope list_scope.

Module WebhookUrl.

(** ** IPv4 addresses *)

Definition PRIVATE_IPv4_RANGES : list (Z * Z) :=
  [(0x00000000, 0x00FFFFFF); (0x0A000000, 0x0AFFFFFF); (0x64400000, 0x647FFFFF); (0x7F000000, 0x7FFFFFFF);
   (0xA9FE0000, 0xA9FEFFFF); (0xAC100000, 0xAC1FFFFF); (0xC0000000, 0xC00000FF); (0xC0A80000, 0xC0A8FFFF);
   (0xC6120000, 0xC613FFFF); (0xC6336400, 0xC63364FF); (0xCB007100, 0xCB0071FF); (0xE0000000, 0xEFFFFFFF);
   (0xF0000000, 0xFFFFFFFF)].

(** [split('.')] *)
Fixpoint split_dots (l : list ascii) : list (list ascii) :=
  match l with
  | [] => [[]]
  | c :: l' => if Ascii.eqb c "." then [] :: split_dots l'
               else match split_dots l' with [] => [[c]] | x :: xs => (c :: x) :: xs end
  end.

(** A segment of [net.isIPv4]: up to 255, without leading zeros. *)
Definition octet_text (l : list ascii) : bool :=
  forallb is_digit l && (1 <=? length l)%nat && (length l <=? 3)%nat && (digits_val l <=? 255)
  && ((length l =? 1)%nat || negb (Ascii.eqb (hd "0"%char l) "0")).

Definition isIPv4 (ip : list ascii) : bool :=
  let segs := split_dots ip in (length segs =? 4)%nat && forallb octet_text segs.

Definition to_uint32 (z : Z) : Z := z mod 2 ^ 32.

(** [acc << 8], a signed 32-bit result. *)
Definition shl8 (acc : Z) : Z :=
  let u := to_uint32 (Z.shiftl (to_uint32 acc) 8) in if u <? 2 ^ 31 then u else u - 2 ^ 32.

Definition ipv4ToLong (ip : list ascii) : Z :=
  fold_left (fun acc octet => to_uint32 (shl8 acc + digits_val octet)) (split_dots ip) 0.

Definition isPrivateIPv4 (ip : list ascii) : bool :=
  let n := ipv4ToLong ip in existsb (fun r => (r.1 <=? n) && (n <=? r.2)) PRIVATE_IPv4_RANGES.

(** ** IPv6 addresses *)

Definition strip_brackets (l : list ascii) : list ascii :=
  let l1 := match l with c :: l' => if Ascii.eqb c "[" then l' else l | [] => [] end in
  match rev l1 with c :: r => if Ascii.eqb c "]" then rev r else l1 | [] => [] end.

(** One to three digits, not checked for size. *)
Definition loose_octet (l : list ascii) : bool := forallb is_digit l && (1 <=? length l)%nat && (length l <=? 3)%nat.

Definition mapped_ipv4 (lower : list ascii) : option (list ascii) :=
  if starts_with (chars "::ffff:") lower then
    let rest := drop 7 lower in
    if (length (split_dots rest) =? 4)%nat && forallb loose_octet (split_dots rest) then Some rest else None
  else None.

Definition one_of (s : string) (c : ascii) : bool := existsb (Ascii.eqb c) (chars s).

Definition isPrivateIPv6 (ip : list ascii) : bool :=
  let l := strip_brackets (map lower ip) in
  if bool_decide (l = chars "::1") then true else
  match mapped_ipv4 l with
  | Some v4 => isPrivateIPv4 v4
  | None =>
    starts_with (chars "::ffff:") l
    || match l with c0 :: c1 :: _ => Ascii.eqb c0 "f" && one_of "cd" c1 | _ => false end
    || match l with c0 :: c1 :: c2 :: _ => Ascii.eqb c0 "f" && Ascii.eqb c1 "e" && one_of "89ab" c2 | _ => false end
    || bool_decide (l = chars "::") || bool_decide (l = chars "::0")
    || starts_with (chars "64:ff9b::") l
  end.

(** ** The DNS cache *)

Definition DEFAULT_TTL_MS : Z := 60000.
Definition MAX_TTL_MS : Z := 3600000.

Record dns_entry := DnsEntry { ips : list (list ascii); expiresAt : Z }.
Abbreviation cache := (gmap string dns_entry).

Definition cache_get (now : Z) (host : string) (c : cache) : option (list (list ascii)) * cache :=
  match c !! host with
  | None => (None, c)
  | Some e => if e.(expiresAt) <? now then (None, delete host c) else (Some e.(ips), c)
  end.

Definition cache_set (now : Z) (host : string) (l : list (list ascii)) (ttlSeconds : Z) (c : cache) : cache :=
  <[host := DnsEntry l (now + Z.min (Z.max (ttlSeconds * 1000) DEFAULT_TTL_MS) MAX_TTL_MS)]> c.

(** [v4] and [v6]: what the resolver answers now, empty when it fails.  An
    empty cached list would still count: arrays are truthy. *)
Definition resolveDnsWithCache (now : Z) (host : string) (v4 v6 : list (list ascii)) (c : cache)
    : option (list (list ascii)) * cache :=
  match cache_get now host c with
  | (Some l, c') => (Some l, c')
  | (None, c') =>
    match v4 ++ v6 with
    | [] => (None, c')
    | all => (Some all, cache_set now host all (DEFAULT_TTL_MS / 1000) c')
    end
  end.

Section Platform.
Variable isIPv6 : list ascii -> bool.
(** [new URL(url)]: protocol and host name, or a throw. *)
Variable parse_url : string -> option (string * list ascii).

(** [true]: blocked. *)
Definition validateResolvedIp (ip : list ascii) : bool :=
  if isIPv4 ip then isPrivateIPv4 ip else if isIPv6 ip then isPrivateIPv6 ip else true.

(** ** Registration-time check *)

Definition ends_with (s l : list ascii) : bool := starts_with (rev s) (rev l).

Definition internal_name (host : list ascii) : bool :=
  let l := map lower host in
  bool_decide (l = chars "localhost")
  || existsb (fun s => ends_with (chars s) l) [".local"; ".internal"; ".localhost"; ".example"; ".test"; ".invalid"].

(** [Some ips]: valid, with the resolved addresses. *)
Definition validateWebhookUrl (now : Z) (v4 v6 : list (list ascii)) (url : string) (c : cache) : option (list (list ascii)) * cache :=
  match parse_url url with
  | None => (None, c)
  | Some (protocol, hostname) =>
    if negb (protocol =? "https:")%string then (None, c) else
    if isIPv4 hostname then (if validateResolvedIp hostname then None else Some [hostname], c) else
    let raw := strip_brackets hostname in
    if isIPv6 raw then (if validateResolvedIp raw then None else Some [raw], c) else
    if internal_name hostname then (None, c) else
    match resolveDnsWithCache now (text hostname) v4 v6 c with
    | (None, c') => (None, c')
    | (Some all, c') => (if existsb validateResolvedIp all then None else Some all, c')
    end
  end.

(** ** Send-time check and pinning *)

Definition _validateAtSendTime (now : Z) (v4 v6 : list (list ascii)) (url : string) (c : cache) : option (list (list ascii)) * cache :=
  match parse_url url with
  | None => (None, c)
  | Some (_, hostname) =>
    let raw := strip_brackets hostname in
    if isIPv4 hostname || isIPv6 raw then
      let ip := if isIPv6 raw then raw else hostname in
      (if validateResolvedIp ip then None else Some [ip], c)
    else
      match resolveDnsWithCache now (text hostname) v4 v6 c with
      | (None, c') => (None, c')
      | (Some [], c') => (None, c')
      | (Some all, c') => (if existsb validateResolvedIp all then None else Some all, c')
      end
  end.

(** The family the connection asks for; [None] is any. *)
Definition family (ip : list ascii) : Z := if isIPv6 ip then 6 else 4.

Definition pinnedLookup (addresses : list (list ascii)) (wanted : option Z) : list (list ascii) :=
  let entries := List.filter (fun a => isIPv4 a || isIPv6 a) addresses in
  match wanted with
  | Some f => if (f =? 4) || (f =? 6) then List.filter (fun a => family a =? f) entries else entries
  | None => entries
  end.
End Platform.

(** ** 32-bit arithmetic *)

Lemma shl8_step acc o : 0 <= acc < 2 ^ 32 -> 0 <= o < 256 -> to_uint32 (shl8 acc + o) = (acc mod 2 ^ 24) * 256 + o.
Proof.
  intros Ha Ho. unfold shl8, to_uint32. rewrite Z.shiftl_mul_pow2 by lia. rewrite (Z.mod_small acc) by lia.
  change (2 ^ 8) with 256. set (u := (acc * 256) mod 2 ^ 32).
  assert (Hu : u = acc mod 2 ^ 24 * 256).
  { unfold u. change (2 ^ 32) with (2 ^ 24 * 256). by rewrite Zmult_mod_distr_r. }
  assert (Hm : 0 <= acc mod 2 ^ 24 < 2 ^ 24) by (apply Z.mod_pos_bound; lia).
  assert (E : (if u <? 2 ^ 31 then u else u - 2 ^ 32) mod 2 ^ 32 = u).
  { destruct (u <? 2 ^ 31).
    - apply Z.mod_small. lia.
    - replace (u - 2 ^ 32) with (u + (-1) * 2 ^ 32) by lia. rewrite Z.mod_add by lia. apply Z.mod_small. lia. }
  rewrite <- Z.add_mod_idemp_l, E by lia. rewrite Z.mod_small by lia. lia.
Qed.

(** The number of an address is its four bytes in network order; no
    intermediate step overflows. *)
Lemma ipv4ToLong_bytes ip A B C D : split_dots ip = [A; B; C; D] ->
  0 <= digits_val A < 256 -> 0 <= digits_val B < 256 -> 0 <= digits_val C < 256 -> 0 <= digits_val D < 256 ->
  ipv4ToLong ip = digits_val A * 2 ^ 24 + digits_val B * 2 ^ 16 + digits_val C * 2 ^ 8 + digits_val D.
Proof.
  unfold ipv4ToLong. intros ->. cbn [fold_left]. generalize (digits_val A) (digits_val B) (digits_val C) (digits_val D).
  intros a b c d Ha Hb Hc Hd. rewrite (shl8_step 0 a) by lia. change (0 mod 2 ^ 24 * 256) with 0. rewrite Z.add_0_l.
  rewrite (shl8_step a b) by lia. rewrite (Z.mod_small a) by lia.
  rewrite (shl8_step (a * 256 + b) c) by lia. rewrite (Z.mod_small (a * 256 + b)) by lia.
  rewrite (shl8_step ((a * 256 + b) * 256 + c) d) by lia. rewrite (Z.mod_small ((a * 256 + b) * 256 + c)) by lia. lia.
Qed.

(** The networks the comments name, byte by byte. *)
Definition reserved (a b c d : Z) : bool :=
  (a =? 0) || (a =? 10) || ((a =? 100) && (64 <=? b) && (b <=? 127)) || (a =? 127) || ((a =? 169) && (b =? 254))
  || ((a =? 172) && (16 <=? b) && (b <=? 31)) || ((a =? 192) && (b =? 0) && (c =? 0)) || ((a =? 192) && (b =? 168))
  || ((a =? 198) && (18 <=? b) && (b <=? 19)) || ((a =? 198) && (b =? 51) && (c =? 100)) || ((a =? 203) && (b =? 0) && (c =? 113))
  || (224 <=? a).

Ltac byte_range := apply eq_true_iff_eq; rewrite ?orb_true_iff, ?andb_true_iff, ?Z.leb_le, ?Z.eqb_eq; lia.

Lemma ranges_reserved a b c d : 0 <= a < 256 -> 0 <= b < 256 -> 0 <= c < 256 -> 0 <= d < 256 ->
  let n := a * 2 ^ 24 + b * 2 ^ 16 + c * 2 ^ 8 + d in
  existsb (fun r => (r.1 <=? n) && (n <=? r.2)) PRIVATE_IPv4_RANGES = reserved a b c d.
Proof.
  intros Ha Hb Hc Hd n. unfold PRIVATE_IPv4_RANGES, n. cbn [existsb fst snd]. rewrite orb_false_r.
  change (2 ^ 24) with 16777216. change (2 ^ 16) with 65536. change (2 ^ 8) with 256. clear n. unfold reserved.
  set (n := a * 16777216 + b * 65536 + c * 256 + d). rewrite <- !orb_assoc.
  do 11 (apply (f_equal2 orb); [unfold n; byte_range|]). unfold n. byte_range.
Qed.

Lemma octet_range l : octet_text l = true -> 0 <= digits_val l < 256.
Proof.
  unfold octet_text. rewrite !andb_true_iff, Z.leb_le. intros [[[[H _] _] H2] _].
  assert (Hf : Forall (fun c => is_digit c = true) l) by (by apply forallb_Forall). pose proof (digits_val_range l Hf). lia.
Qed.

(** On every IPv4 address the deny list blocks exactly the networks the
    comments name (this network, private, shared, loopback, link-local,
    protocol, benchmarking, documentation, multicast and reserved space). *)
Theorem deny_list_exact ip : isIPv4 ip = true -> exists a b c d,
  map digits_val (split_dots ip) = [a; b; c; d] /\ 0 <= a < 256 /\ 0 <= b < 256 /\ 0 <= c < 256 /\ 0 <= d < 256 /\
  isPrivateIPv4 ip = reserved a b c d.
Proof.
  unfold isIPv4. rewrite andb_true_iff, Nat.eqb_eq. intros [Hl Ho].
  destruct (split_dots ip) as [|A [|B [|C [|D [|]]]]] eqn:E; try discriminate Hl. cbn [forallb] in Ho.
  rewrite !andb_true_iff in Ho. destruct Ho as (HA & HB & HC & HD & _). apply octet_range in HA, HB, HC, HD.
  exists (digits_val A), (digits_val B), (digits_val C), (digits_val D). do 5 (split; [done|]).
  unfold isPrivateIPv4. rewrite (ipv4ToLong_bytes ip A B C D) by done. by apply ranges_reserved.
Qed.

(** ** Connections *)
Section Connections.
Variable isIPv6 : list ascii -> bool.
Variable parse_url : string -> option (string * list ascii).

Lemma none_blocked l x : existsb (validateResolvedIp isIPv6) l = false -> x ∈ l -> validateResolvedIp isIPv6 x = false.
Proof.
  intros H Hx. destruct (validateResolvedIp isIPv6 x) eqn:E; [|done]. rewrite <- H. symmetry. apply existsb_exists.
  exists x. split; [by apply list_elem_of_In|done].
Qed.

Lemma checked_public now v4 v6 url c addrs c' x :
  _validateAtSendTime isIPv6 parse_url now v4 v6 url c = (Some addrs, c') -> x ∈ addrs -> validateResolvedIp isIPv6 x = false.
Proof.
  unfold _validateAtSendTime. destruct (parse_url url) as [[pr host]|]; [|done]. destruct (_ || _).
  - set (ip := if isIPv6 _ then _ else _). destruct (validateResolvedIp isIPv6 ip) eqn:E; [done|]. intros H Hx.
    injection H as <- _. by apply list_elem_of_singleton in Hx as ->.
  - destruct (resolveDnsWithCache _ _ _ _ _) as [[all|] c1]; [|done]. destruct all as [|a all]; [done|].
    destruct (existsb _ (a :: all)) eqn:E; [done|]. intros H Hx. injection H as <- _. by apply (none_blocked (a :: all)).
Qed.

(** C33: a delivery can only connect to an address that passed the deny list at
    that moment: whatever family the socket asks for, the pinned lookup
    returns nothing else, so an IPv4 peer is never in reserved space. *)
Theorem connection_is_public now v4 v6 url c addrs c' wanted ip :
  _validateAtSendTime isIPv6 parse_url now v4 v6 url c = (Some addrs, c') -> ip ∈ pinnedLookup isIPv6 addrs wanted ->
  validateResolvedIp isIPv6 ip = false /\
  (isIPv4 ip = true -> exists a b c d, map digits_val (split_dots ip) = [a; b; c; d] /\ reserved a b c d = false).
Proof.
  intros H Hp. assert (Hin : ip ∈ addrs).
  { unfold pinnedLookup in Hp. set (es := List.filter _ addrs) in Hp. assert (He : ip ∈ es).
    { destruct wanted as [f|]; [|done]. destruct (_ || _); [|done]. by apply elem_of_filterb in Hp as [_ ?]. }
    by apply elem_of_filterb in He as [_ ?]. }
  pose proof (checked_public _ _ _ _ _ _ _ _ H Hin) as Hv. split; [done|]. intros H4. unfold validateResolvedIp in Hv.
  rewrite H4 in Hv. unfold isPrivateIPv4 in Hv. unfold isIPv4 in H4. rewrite andb_true_iff, Nat.eqb_eq in H4. destruct H4 as [Hl Ho].
  destruct (split_dots ip) as [|A [|B [|C [|D [|]]]]] eqn:E; try discriminate Hl. cbn [forallb] in Ho.
  rewrite !andb_true_iff in Ho. destruct Ho as (HA & HB & HC & HD & _). apply octet_range in HA, HB, HC, HD.
  exists (digits_val A), (digits_val B), (digits_val C), (digits_val D). split; [done|].
  rewrite (ipv4ToLong_bytes ip A B C D) in Hv by done. by rewrite ranges_reserved in Hv by done.
Qed.

(** A URL that is accepted for registration uses https and resolved to
    permitted addresses only. *)
Theorem accepted_url_is_public now v4 v6 url c addrs c' :
  validateWebhookUrl isIPv6 parse_url now v4 v6 url c = (Some addrs, c') ->
  (exists host, parse_url url = Some ("https:", host)) /\ forall x, x ∈ addrs -> validateResolvedIp isIPv6 x = false.
Proof.
  unfold validateWebhookUrl. destruct (parse_url url) as [[pr host]|]; [|done].
  destruct (String.eqb_spec pr "https:") as [->|]; [|done]. cbn [negb].
  assert (Hone : forall ip : list ascii, (if validateResolvedIp isIPv6 ip then None else Some [ip], c) = (Some addrs, c') ->
    forall x, x ∈ addrs -> validateResolvedIp isIPv6 x = false).
  { intros ip H x Hx. destruct (validateResolvedIp isIPv6 ip) eqn:E; [done|]. injection H as <- _.
    by apply list_elem_of_singleton in Hx as ->. }
  destruct (isIPv4 host); [intros H; split; [by eexists|by apply (Hone host)]|].
  destruct (isIPv6 (strip_brackets host)); [intros H; split; [by eexists|by apply (Hone (strip_brackets host))]|].
  destruct (internal_name host); [done|]. destruct (resolveDnsWithCache _ _ _ _ _) as [[all|] c1]; [|done].
  destruct (existsb _ all) eqn:E; [done|]. intros H. injection H as <- _. split; [by eexists|]. intros x Hx. by apply (none_blocked all).
Qed.
End Connections.

(** ** Age of cached answers *)

(** A resolution: when, which host, and what the resolver would answer. *)
Record query := Query { q_now : Z; q_host : string; q_v4 : list (list ascii); q_v6 : list (list ascii) }.

Fixpoint answers (qs : list query) (c : cache) : list (option (list (list ascii))) :=
  match qs with
  | [] => []
  | q :: qs' => let '(a, c') := resolveDnsWithCache (q_now q) (q_host q) (q_v4 q) (q_v6 q) c in a :: answers qs' c'
  end.

(** What the cache holds was answered to an earlier query and expires a minute
    after it. *)
Definition sourced (past : list query) (c : cache) : Prop :=
  forall h e, c !! h = Some e -> exists q, q ∈ past /\ q_host q = h /\ ips e = q_v4 q ++ q_v6 q /\ expiresAt e = q_now q + DEFAULT_TTL_MS.

Lemma resolve_sourced past q c a c' : sourced past c ->
  resolveDnsWithCache (q_now q) (q_host q) (q_v4 q) (q_v6 q) c = (a, c') ->
  sourced (past ++ [q]) c' /\ forall l, a = Some l -> exists p, p ∈ past ++ [q] /\ q_host p = q_host q /\ l = q_v4 p ++ q_v6 p /\
    q_now q <= q_now p + DEFAULT_TTL_MS.
Proof.
  intros Hs. assert (Hs' : sourced (past ++ [q]) c).
  { intros h e He. destruct (Hs h e He) as (p & Hp & Hr). exists p. split; [set_solver|done]. }
  unfold resolveDnsWithCache, cache_get. intros H.
  assert (Hfresh : forall c1 : cache, sourced (past ++ [q]) c1 -> match q_v4 q ++ q_v6 q with [] => (None, c1)
     | all => (Some all, cache_set (q_now q) (q_host q) all (DEFAULT_TTL_MS / 1000) c1) end = (a, c') ->
     sourced (past ++ [q]) c' /\ forall l, a = Some l -> exists p, p ∈ past ++ [q] /\ q_host p = q_host q /\ l = q_v4 p ++ q_v6 p /\
     q_now q <= q_now p + DEFAULT_TTL_MS).
  { intros c1 H1 E. destruct (q_v4 q ++ q_v6 q) as [|x all] eqn:Eq; injection E as <- <-; [done|]. split.
    - intros h e He. unfold cache_set in He. destruct (decide (h = q_host q)) as [->|N].
      + rewrite lookup_insert_eq in He. injection He as <-. exists q. split; [set_solver|]. by rewrite Eq.
      + rewrite lookup_insert_ne in He by done. by apply H1.
    - intros l Hl. injection Hl as <-. exists q. split; [set_solver|]. rewrite Eq. unfold DEFAULT_TTL_MS. repeat split; lia. }
  destruct (c !! q_host q) as [e|] eqn:Ec; [|by apply (Hfresh c)]. destruct (Z.ltb_spec (expiresAt e) (q_now q)).
  - apply (Hfresh (delete (q_host q) c)); [|done]. intros h e' He. apply lookup_delete_Some in He as [_ He]. by apply Hs'.
  - injection H as <- <-. split; [done|]. intros l Hl. injection Hl as <-. destruct (Hs' _ _ Ec) as (p & Hp & Hh & Hi & He).
    exists p. repeat split; try done. lia.
Qed.

(** A cached resolution is at most a minute old: every answer is what the
    resolver said to a query for the same host within the last 60 seconds. *)
Theorem dns_answer_fresh qs : forall i q l, qs !! i = Some q -> answers qs ∅ !! i = Some (Some l) ->
  exists p, p ∈ qs /\ q_host p = q_host q /\ l = q_v4 p ++ q_v6 p /\ q_now q <= q_now p + DEFAULT_TTL_MS.
Proof.
  assert (H0 : sourced [] ∅) by (intros h e He; by rewrite lookup_empty in He).
  assert (H : forall qs past c, sourced past c -> forall i q l, qs !! i = Some q -> answers qs c !! i = Some (Some l) ->
    exists p, p ∈ past ++ qs /\ q_host p = q_host q /\ l = q_v4 p ++ q_v6 p /\ q_now q <= q_now p + DEFAULT_TTL_MS);
    [|intros i q l; by apply (H qs [])].
  clear. induction qs as [|q0 qs IH]; intros past c Hs i q l Hq Ha; [done|]. cbn [answers] in Ha.
  destruct (resolveDnsWithCache _ _ _ _ c) as [a c'] eqn:E. destruct (resolve_sourced past q0 c a c' Hs E) as [Hs' Hl].
  destruct i as [|i]; simpl in Hq, Ha.
  - injection Hq as <-. injection Ha as ->. destruct (Hl l eq_refl) as (p & Hp & Hr). exists p. split; [set_solver|done].
  - destruct (IH _ _ Hs' i q l Hq Ha) as (p & Hp & Hr). exists p. split; [set_solver|done].
Qed.

(** ** Witnesses *)

(** A stand-in for the platform's parser. *)
Definition demo_parse (u : string) : option (string * list ascii) :=
  if decide (u = "https://hooks.school.org/x") then Some ("https:", chars "hooks.school.org") else None.
Definition demo_v6 (l : list ascii) : bool := existsb (Ascii.eqb ":") l.

Lemma deny_list_exact_witness : isIPv4 (chars "172.31.255.1") = true /\ exists a b c d, reserved a b c d = true /\ (a, b, c, d) = (172, 31, 255, 1).
Proof.
  split; [vm_compute; reflexivity|]. destruct (deny_list_exact (chars "172.31.255.1")) as (a & b & c & d & H & _ & _ & _ & _ & Hp); [vm_compute; reflexivity|].
  exists a, b, c, d. vm_compute in H. injection H as <- <- <- <-. vm_compute; split; reflexivity.
Defined.

Lemma connection_is_public_witness :
  let r := _validateAtSendTime demo_v6 demo_parse 0 [chars "93.184.216.34"] [] "https://hooks.school.org/x" ∅ in
  r.1 = Some [chars "93.184.216.34"] /\ validateResolvedIp demo_v6 (chars "93.184.216.34") = false.
Proof.
  intros r. split; [vm_compute; reflexivity|].
  apply (connection_is_public demo_v6 demo_parse 0 [chars "93.184.216.34"] [] "https://hooks.school.org/x" ∅ [chars "93.184.216.34"] r.2 (Some 4)).
  - vm_compute; reflexivity.
  - vm_compute. left.
Defined.

Lemma accepted_url_is_public_witness : exists host, demo_parse "https://hooks.school.org/x" = Some ("https:", host).
Proof.
  apply (accepted_url_is_public demo_v6 demo_parse 0 [chars "93.184.216.34"] [] "https://hooks.school.org/x" ∅ [chars "93.184.216.34"]
    (validateWebhookUrl demo_v6 demo_parse 0 [chars "93.184.216.34"] [] "https://hooks.school.org/x" ∅).2). vm_compute; reflexivity.
Defined.

Lemma dns_answer_fresh_witness :
  let qs := [Query 0 "h" [chars "1.2.3.4"] []; Query 60000 "h" [chars "5.6.7.8"] []; Query 60001 "h" [chars "9.9.9.9"] []] in
  answers qs ∅ = [Some [chars "1.2.3.4"]; Some [chars "1.2.3.4"]; Some [chars "9.9.9.9"]] /\
  exists p, p ∈ qs /\ q_host p = "h" /\ 60000 <= q_now p + DEFAULT_TTL_MS.
Proof.
  intros qs. assert (E : answers qs ∅ = [Some [chars "1.2.3.4"]; Some [chars "1.2.3.4"]; Some [chars "9.9.9.9"]]) by (vm_compute; reflexivity).
  split; [exact E|]. destruct (dns_answer_fresh qs 1%nat (Query 60000 "h" [chars "5.6.7.8"] []) [chars "1.2.3.4"]) as (p & H1 & H2 & _ & H3);
    [reflexivity|by rewrite E|]. exists p. done.
Defined.
End WebhookUrl.
