(* ===== verification/Webhook.v ===== *)
(** Webhook delivery: backend/src/services/webhookService.js with
    backend/src/utils/buildWebhookPayload.js, webhookEnvelope.js and
    webhookSignaturePolicy.js, and the retry queue of
    backend/src/models/webhookRetryModel.js.

    What is sent, how it is signed and verified, replay protection, and the
    retry queue with its leases.  The HMAC and the outcome of an HTTP request
    are parameters; where a request may connect is WebhookUrl's subject. *)

From Stdlib Require Import Ascii ZArith Lia Sorting.Sorted.
From stdpp Require Import base list strings gmap.
From S2P Require Import Prelude JsString.
Local Open Scope string_scope.
Local Open Scope Z_scope.
Local Open Scope list_scope.

Module Webhook.

(** ** Payloads *)

Definition DEFAULT_ALLOWED_FIELDS : list string :=
  ["event"; "txHash"; "transactionHash"; "amount"; "asset"; "assetCode"; "status"; "schoolId"; "ts"; "timestamp";
   "correlationId"; "referenceCode"; "finalFee"; "feeValidationStatus"; "confirmedAt"; "ledgerSequence"; "reason";
   "isSuspicious"; "originalTxHash"; "refundTxHash"; "refundedAt"].

(** An object: its own properties, values left abstract as text. *)
Abbreviation payload := (gmap string string).

Definition fields_of (allowedFields : option (list string)) : list string :=
  match allowedFields with Some (x :: l) => x :: l | _ => DEFAULT_ALLOWED_FIELDS end.

Definition buildWebhookPayload (rawPayload : option payload) (allowedFields : option (list string)) : payload :=
  match rawPayload with
  | None => ∅
  | Some raw => foldl (fun r k => match raw !! k with Some v => <[k := v]> r | None => r end) ∅ (fields_of allowedFields)
  end.

Definition WEBHOOK_API_VERSION : string := "2026-10-01".

Record body := Body { b_event : string; b_timestamp : Z; b_apiVersion : string; b_data : payload; b_sequence : option Z }.

Definition buildEventBody (event : string) (timestamp : Z) (data : payload) (sequence : option Z) : body :=
  Body event timestamp WEBHOOK_API_VERSION data sequence.

(** ** Signature versions *)

Definition LEGACY_SIGNATURE_VERSIONS : list string := ["v1"; "v2"].

Definition isV1Sunset (sunset now : Z) : bool := sunset <=? now.

(** [new Set] keeps first occurrences; on these two names sorting puts v1
    first. *)
Definition resolveSignatureVersions (sunset : Z) (requested : option (list string)) (now : Z) : list string :=
  let base := match requested with Some (x :: l) => x :: l | _ => LEGACY_SIGNATURE_VERSIONS end in
  let v1 := bool_decide ("v1" ∈ base) && negb (isV1Sunset sunset now) in
  let v2 := bool_decide ("v2" ∈ base) in
  if v1 then (if v2 then ["v1"; "v2"] else ["v1"]) else ["v2"].

(** ** Signatures *)

Definition hex_val (c : ascii) : option Z :=
  let n := code c in
  if is_digit c then Some (n - 48)
  else if (97 <=? n) && (n <=? 102) then Some (n - 87)
  else if (65 <=? n) && (n <=? 70) then Some (n - 55)
  else None.

(** [Buffer.from(s, 'hex')]: pairs of digits up to the first that is none. *)
Fixpoint hex_bytes (l : list ascii) : list Z :=
  match l with
  | a :: b :: l' => match hex_val a, hex_val b with
                    | Some x, Some y => 16 * x + y :: hex_bytes l'
                    | _, _ => []
                    end
  | _ => []
  end.

Fixpoint split_on (sep : ascii) (l : list ascii) : list (list ascii) :=
  match l with
  | [] => [[]]
  | c :: l' => if Ascii.eqb c sep then [] :: split_on sep l'
               else match split_on sep l' with [] => [[c]] | x :: xs => (c :: x) :: xs end
  end.

Fixpoint join_with (sep : ascii) (l : list (list ascii)) : list ascii :=
  match l with
  | [] => []
  | [x] => x
  | x :: l' => x ++ sep :: join_with sep l'
  end.

Section Signing.
(** [crypto.createHmac('sha256', secret).update(text).digest('hex')] *)
Variable hmac : string -> list ascii -> list ascii.

(** [`${timestamp}.${deliveryId}.${rawBody}`] *)
Definition signing_base (timestamp deliveryId rawBody : list ascii) : list ascii :=
  timestamp ++ "."%char :: deliveryId ++ "."%char :: rawBody.

Definition generateSignature (rawBody : list ascii) (secret : string) : list ascii := hmac secret rawBody.

Definition generateSignatureV2 (timestamp deliveryId rawBody : list ascii) (secret : string) : list ascii :=
  hmac secret (signing_base timestamp deliveryId rawBody).

Definition verifySignatureV2 (timestamp deliveryId rawBody provided : list ascii) (secret : string) : bool :=
  bool_decide (hex_bytes (generateSignatureV2 timestamp deliveryId rawBody secret) = hex_bytes provided).

Definition sha256_prefix : list ascii := chars "sha256=".

Definition active_secrets (secrets : list (option string)) : list string :=
  omap (fun s => match s with Some x => if str_truthy x then Some x else None | None => None end) secrets.

Definition buildSignatureV2Header (timestamp deliveryId rawBody : list ascii) (secrets : list (option string)) : list ascii :=
  join_with "," (map (fun s => sha256_prefix ++ generateSignatureV2 timestamp deliveryId rawBody s) (active_secrets secrets)).

Definition strip_prefix (v : list ascii) : list ascii := if starts_with sha256_prefix v then drop 7 v else v.

Definition verifySignatureV2Header (timestamp deliveryId rawBody headerValue : list ascii) (secret : string) : bool :=
  negb (length headerValue =? 0)%nat && str_truthy secret &&
  existsb (fun v => verifySignatureV2 timestamp deliveryId rawBody (strip_prefix v) secret)
    (List.filter (fun v => negb (length v =? 0)%nat) (map trim (split_on "," headerValue))).
End Signing.

(** ** Endpoints and their secrets *)

Record endpoint := Endpoint {
  ep_id : nat; ep_school : string; ep_url : string; ep_secret : option string; ep_previousSecret : option string;
  ep_previousExpires : option Z; ep_signatureVersions : option (list string); ep_isActive : bool;
  ep_events : list string; ep_sequence : Z
}.

Definition _activePreviousSecret (now : Z) (ep : endpoint) : option string :=
  match ep.(ep_previousSecret), ep.(ep_previousExpires) with
  | Some s, Some t => if str_truthy s && (now <? t) then Some s else None
  | _, _ => None
  end.

Definition or_null (s : option string) (d : option string) : option string :=
  match s with Some x => if str_truthy x then Some x else d | None => d end.

(** [None] for an endpoint that cannot be loaded. *)
Definition _resolveSigningContext (now : Z) (ep : option endpoint) (secret : option string)
    : option string * option string * option (list string) :=
  match ep with
  | Some e => (or_null e.(ep_secret) (or_null secret None), _activePreviousSecret now e, e.(ep_signatureVersions))
  | None => (or_null secret None, None, None)
  end.

(** ** Replay protection *)

Definition REPLAY_WINDOW_S : Z := 300.

(** Redis: ready, with its keys and their expiry; failing; or not ready. *)
Inductive redis := Ready (keys : gmap string Z) | Failing | NotReady.

Record nonces := Nonces { n_redis : redis; n_local : gmap string Z; n_local_allowed : bool }.

Definition _evictExpiredNonces (now : Z) (m : gmap string Z) : gmap string Z := filter (fun kv => now <= kv.2) m.

Definition _isReplay (now : Z) (deliveryId : string) (s : nonces) : bool * nonces :=
  match s.(n_redis) with
  | Ready keys =>
    match keys !! deliveryId with
    | Some exp => if now <? exp then (true, s)
                  else (false, Nonces (Ready (<[deliveryId := now + REPLAY_WINDOW_S * 1000]> keys)) s.(n_local) s.(n_local_allowed))
    | None => (false, Nonces (Ready (<[deliveryId := now + REPLAY_WINDOW_S * 1000]> keys)) s.(n_local) s.(n_local_allowed))
    end
  | Failing => (true, s)
  | NotReady =>
    if negb s.(n_local_allowed) then (true, s) else
    let m := _evictExpiredNonces now s.(n_local) in
    match m !! deliveryId with
    | Some _ => (true, Nonces NotReady m true)
    | None => (false, Nonces NotReady (<[deliveryId := now + REPLAY_WINDOW_S * 1000]> m) true)
    end
  end.

(** ** Sending *)

(** How the request ended. *)
Inductive http_outcome := Responded (statusCode : Z) | TimedOut | NetworkError.

Inductive send_error := SSRF_BLOCKED | SSRF_REDIRECT_BLOCKED (code : Z) | HTTP (code : Z) | ConnectionTimeout | OtherError
| URL_VALIDATION_FAILED | REPLAY_DETECTED.

Definition send_result (o : http_outcome) : option send_error :=
  match o with
  | Responded s => if (200 <=? s) && (s <? 300) then None
                   else if (300 <=? s) && (s <? 400) then Some (SSRF_REDIRECT_BLOCKED s) else Some (HTTP s)
  | TimedOut => Some ConnectionTimeout
  | NetworkError => Some OtherError
  end.

Record request := Request {
  rq_url : string; rq_deliveryId : string; rq_body : body; rq_v1 : option string; rq_v2 : list string; rq_v2_previous : option string
}.

(** One delivery to one URL: [allowed] is the send-time check of the address.
    The request made, if any, and the error, if any.  The secrets stand for
    the signatures computed with them. *)
Definition _sendToUrl (sunset now : Z) (allowed : bool) (o : http_outcome) (url event : string) (filteredPayload : payload)
    (secret previousSecret : option string) (signatureVersions : option (list string)) (deliveryId : string) (sequence : option Z)
    : option request * option send_error :=
  if negb allowed then (None, Some SSRF_BLOCKED) else
  let b := buildEventBody event (now / 1000) filteredPayload sequence in
  let versions := resolveSignatureVersions sunset signatureVersions now in
  let rq :=
    match or_null secret None with
    | Some s =>
      let v2 := bool_decide ("v2" ∈ versions) in
      Request url deliveryId b (if bool_decide ("v1" ∈ versions) then Some s else None)
        (if v2 then active_secrets [Some s; previousSecret] else []) (if v2 then or_null previousSecret None else None)
    | None => Request url deliveryId b None [] None
    end in
  (Some rq, send_result o).

(** ** The retry queue *)

Inductive retry_status := R_pending | R_processing | R_succeeded | R_failed.

#[export] Instance retry_status_eq_dec : EqDecision retry_status.
Proof. solve_decision. Defined.

Record retry := Retry {
  rt_deliveryId : string; rt_url : string; rt_event : string; rt_payload : payload; rt_endpointId : option nat; rt_sequence : option Z;
  rt_status : retry_status; rt_attemptCount : Z; rt_maxAttempts : Z; rt_nextRetryAt : Z; rt_leasedAt : option Z
}.

(** The events the model's enumeration allows. *)
Definition RETRY_EVENTS : list string := ["payment.confirmed"; "payment.pending"; "payment.failed"; "payment.suspicious"; "payment.refunded"].

Definition getBackoffDelay (attemptNumber : Z) : Z :=
  if attemptNumber <=? 0 then 60000 else if attemptNumber =? 1 then 300000 else 900000.

Section Queue.
Variable WEBHOOK_MAX_ATTEMPTS : Z.
Variable LEASE_TIMEOUT_MS : Z.

(** [None]: the document is invalid or its delivery id is taken. *)
Definition queueWebhookRetry (now : Z) (url event : string) (p : payload) (deliveryId : string) (endpointId : option nat)
    (sequence : option Z) (q : list retry) : option (list retry) :=
  if negb (bool_decide (event ∈ RETRY_EVENTS)) then None else
  if existsb (fun r => (rt_deliveryId r =? deliveryId)%string) q then None else
  Some (q ++ [Retry deliveryId url event p endpointId sequence R_pending 0 WEBHOOK_MAX_ATTEMPTS (now + getBackoffDelay 0) None]).

Definition update_retry (f : retry -> retry) (id : string) (q : list retry) : list retry :=
  map (fun r => if (rt_deliveryId r =? id)%string then f r else r) q.

Definition set_status (s : retry_status) (attempts nextAt : option Z) (leased : option Z) (r : retry) : retry :=
  Retry (rt_deliveryId r) (rt_url r) (rt_event r) (rt_payload r) (rt_endpointId r) (rt_sequence r) s
    (default (rt_attemptCount r) attempts) (rt_maxAttempts r) (default (rt_nextRetryAt r) nextAt) leased.

Definition stuck (now : Z) (r : retry) : bool :=
  bool_decide (rt_status r = R_processing) && match rt_leasedAt r with Some t => t <? now - LEASE_TIMEOUT_MS | None => false end.

(** One document per round, until none is stuck. *)
Fixpoint recover_loop (fuel : nat) (now : Z) (q : list retry) (recovered : nat) : option (list retry * nat) :=
  match List.find (stuck now) q with
  | None => Some (q, recovered)
  | Some r => match fuel with
              | O => None
              | S n => recover_loop n now (update_retry (set_status R_pending None None None) (rt_deliveryId r) q) (S recovered)
              end
  end.

Definition recoverStuckLeases (now : Z) (q : list retry) : option (list retry * nat) := recover_loop (length q) now q 0.

Definition due (now : Z) (r : retry) : bool := bool_decide (rt_status r = R_pending) && (rt_nextRetryAt r <=? now).

Definition earlier (a b : retry) : Z := rt_nextRetryAt a - rt_nextRetryAt b.

Definition claim_retry (now : Z) (q : list retry) : option (retry * list retry) :=
  match js_sort earlier (List.filter (due now) q) with
  | [] => None
  | r :: _ => let f := set_status R_processing None None (Some now) in Some (f r, update_retry f (rt_deliveryId r) q)
  end.

(** [url_ok]: the URL still validates; [o]: how the attempt ended, [None] when
    the send-time check refused it.  The request sent carries the stored
    payload as it is. *)
Definition retryWebhook (now : Z) (url_ok : bool) (o : option http_outcome) (r : retry) (q : list retry) : list retry * list payload :=
  if negb url_ok then (update_retry (set_status R_failed None None None) (rt_deliveryId r) q, []) else
  let sent := match o with Some _ => [rt_payload r] | None => [] end in
  let attemptNumber := rt_attemptCount r + 1 in
  match (match o with Some h => send_result h | None => Some SSRF_BLOCKED end) with
  | None => (update_retry (set_status R_succeeded None None None) (rt_deliveryId r) q, sent)
  | Some _ =>
    if attemptNumber <? rt_maxAttempts r
    then (update_retry (set_status R_pending (Some attemptNumber) (Some (now + getBackoffDelay attemptNumber)) None) (rt_deliveryId r) q, sent)
    else (update_retry (set_status R_failed (Some attemptNumber) None None) (rt_deliveryId r) q, sent)
  end.

Fixpoint retry_rounds (rounds : nat) (now : Z) (env : string -> bool * option http_outcome) (q : list retry) : list retry * nat :=
  match rounds with
  | O => (q, 0%nat)
  | S n => match claim_retry now q with
           | None => (q, 0%nat)
           | Some (r, q1) => let '(q2, _) := retryWebhook now (env (rt_deliveryId r)).1 (env (rt_deliveryId r)).2 r q1 in
                             let '(q3, k) := retry_rounds n now env q2 in (q3, S k)
           end
  end.

Definition processPendingRetries (now : Z) (env : string -> bool * option http_outcome) (q : list retry) : option (list retry * nat) :=
  match recoverStuckLeases now q with
  | Some (q1, _) => Some (retry_rounds 10 now env q1)
  | None => None
  end.

(** ** Dispatch to a school's endpoints *)

Record service := Service { s_endpoints : list endpoint; s_queue : list retry; s_nonces : nonces; s_sent : list (nat * request) }.

(** What happens on the way to one endpoint: the fresh delivery id, whether
    the URL validates, whether the send-time check passes, the outcome. *)
Record circumstances := Circumstances { ci_id : string; ci_url_ok : bool; ci_allowed : bool; ci_outcome : http_outcome }.

Definition bump (id : nat) (l : list endpoint) : list endpoint :=
  map (fun e => if (ep_id e =? id)%nat
                then Endpoint (ep_id e) (ep_school e) (ep_url e) (ep_secret e) (ep_previousSecret e) (ep_previousExpires e)
                       (ep_signatureVersions e) (ep_isActive e) (ep_events e) (ep_sequence e + 1)
                else e) l.

(** The new value of the counter, [None] when the endpoint is gone. *)
Definition _nextEndpointSequence (id : nat) (l : list endpoint) : option Z * list endpoint :=
  (ep_sequence <$> List.find (fun e => (ep_id e =? id)%nat) (bump id l), bump id l).

Definition deliver (sunset now : Z) (event : string) (raw filtered : payload) (ep : endpoint) (c : circumstances) (s : service)
    : service * option send_error :=
  if negb c.(ci_url_ok) then (s, Some URL_VALIDATION_FAILED) else
  let '(replay, ns) := _isReplay now c.(ci_id) s.(s_nonces) in
  let s1 := Service s.(s_endpoints) s.(s_queue) ns s.(s_sent) in
  if replay then (s1, Some REPLAY_DETECTED) else
  let '(sequence, eps) := _nextEndpointSequence ep.(ep_id) s1.(s_endpoints) in
  let '(rq, err) := _sendToUrl sunset now c.(ci_allowed) c.(ci_outcome) ep.(ep_url) event filtered ep.(ep_secret)
                      (_activePreviousSecret now ep) ep.(ep_signatureVersions) c.(ci_id) sequence in
  let sent := match rq with Some r => [(ep_id ep, r)] | None => [] end in
  let queue := match err with
               | None => s1.(s_queue)
               | Some _ => default s1.(s_queue) (queueWebhookRetry now ep.(ep_url) event raw c.(ci_id) (Some ep.(ep_id)) sequence s1.(s_queue))
               end in
  (Service eps queue ns (s1.(s_sent) ++ sent), err).

Fixpoint deliver_all (sunset now : Z) (event : string) (raw filtered : payload) (eps : list endpoint) (env : nat -> circumstances) (s : service)
    : service * list (nat * option send_error) :=
  match eps with
  | [] => (s, [])
  | ep :: rest =>
    let '(s1, e) := deliver sunset now event raw filtered ep (env (ep_id ep)) s in
    let '(s2, es) := deliver_all sunset now event raw filtered rest env s1 in
    (s2, (ep_id ep, e) :: es)
  end.

Definition subscribed (school event : string) (e : endpoint) : bool :=
  (ep_school e =? school)%string && ep_isActive e && bool_decide (event ∈ ep_events e).

Definition fireWebhookToEndpoints (sunset now : Z) (school event : string) (raw : payload) (allowedFields : option (list string))
    (env : nat -> circumstances) (s : service) : service * list (nat * option send_error) :=
  deliver_all sunset now event raw (buildWebhookPayload (Some raw) allowedFields) (List.filter (subscribed school event) s.(s_endpoints)) env s.

(** [config]: the school's allowed fields, [None] when it has none. *)
Definition dispatchToSchool (sunset now : Z) (school event : string) (raw : payload) (config : option (list string))
    (env : nat -> circumstances) (s : service) : service * list (nat * option send_error) :=
  if negb (str_truthy school) then (s, []) else fireWebhookToEndpoints sunset now school event raw config env s.
End Queue.

(** ** What is sent *)

Lemma build_fold (raw : payload) fields (r : payload) k :
  foldl (fun (r : payload) k => match raw !! k with Some v => <[k := v]> r | None => r end) r fields !! k =
  if decide (k ∈ fields /\ is_Some (raw !! k)) then raw !! k else r !! k.
Proof.
  revert r. induction fields as [|f fields IH]; intros r; cbn [foldl].
  - destruct (decide _) as [[H _]|]; [by apply elem_of_nil in H|done].
  - rewrite IH. destruct (decide (k ∈ fields /\ is_Some (raw !! k))) as [H|H].
    + destruct (decide _) as [|H']; [done|]. exfalso. apply H'. set_solver.
    + destruct (decide (k = f)) as [->|N].
      * destruct (raw !! f) as [v|] eqn:E.
        -- rewrite lookup_insert_eq. destruct (decide _) as [|H']; [done|]. exfalso. apply H'. split; [left|done].
        -- destruct (decide _) as [[_ H']|]; [by destruct H'|done].
      * assert (E : match raw !! f with Some v => <[f := v]> r | None => r end !! k = r !! k).
        { destruct (raw !! f); [by rewrite lookup_insert_ne|done]. }
        rewrite E. destruct (decide _) as [[H1 H2]|]; [|done]. exfalso. apply H. split; [set_solver|done].
Qed.

Lemma build_lookup raw allowed k :
  buildWebhookPayload (Some raw) allowed !! k = if decide (k ∈ fields_of allowed) then raw !! k else None.
Proof.
  unfold buildWebhookPayload. rewrite build_fold, lookup_empty. destruct (decide (k ∈ fields_of allowed)).
  - destruct (raw !! k) eqn:E; destruct (decide _) as [|H]; [done| |done|done]. exfalso. apply H. split; [done|]. by eexists.
  - destruct (decide _) as [[? _]|]; done.
Qed.

(** What is built is the restriction of the event to the school's fields,
    nothing else and nothing lost; without a configuration neither the student
    nor the sender's address is in it. *)
Theorem payload_is_restriction raw allowed :
  (forall k, buildWebhookPayload (Some raw) allowed !! k = if decide (k ∈ fields_of allowed) then raw !! k else None) /\
  buildWebhookPayload (Some raw) None !! "studentId" = None /\ buildWebhookPayload (Some raw) None !! "senderAddress" = None.
Proof. split; [apply build_lookup|]. by rewrite !build_lookup. Qed.

(** Some signature is always sent, only known versions are, and the old one
    only to endpoints that ask for it and never after its sunset. *)
Theorem signature_versions_sound sunset requested now :
  let vs := resolveSignatureVersions sunset requested now in
  vs <> [] /\ (forall v, v ∈ vs -> v = "v1" \/ v = "v2") /\ (sunset <= now -> "v1" ∉ vs) /\
  ("v1" ∈ vs -> "v1" ∈ match requested with Some (x :: l) => x :: l | _ => LEGACY_SIGNATURE_VERSIONS end).
Proof.
  cbv zeta. unfold resolveSignatureVersions, isV1Sunset. set (base := match requested with Some (x :: l) => _ | _ => _ end).
  assert (Hno : "v1" ∉ ["v2"]) by (intros H%list_elem_of_singleton; discriminate).
  destruct (bool_decide_reflect ("v1" ∈ base)) as [H1|H1]; destruct (Z.leb_spec sunset now); cbn [andb negb];
    destruct (bool_decide_reflect ("v2" ∈ base)); (split; [done|]); (split; [intros v; rewrite ?elem_of_cons, ?elem_of_nil; tauto|]);
    (split; [intros; try lia; try done|try done]).
Qed.

(** ** Signatures *)
Section SigningFacts.
Variable hmac : string -> list ascii -> list ascii.

Definition is_lower_hex (c : ascii) : bool := is_digit c || ((97 <=? code c) && (code c <=? 102)).

(** A digest is 64 lower-case hexadecimal digits. *)
Hypothesis digest_hex : forall s m, length (hmac s m) = 64%nat /\ Forall (fun c => is_lower_hex c = true) (hmac s m).

Lemma hex_val_inj a b x : is_lower_hex a = true -> is_lower_hex b = true -> hex_val a = Some x -> hex_val b = Some x -> a = b.
Proof.
  intros Ha Hb Ea Eb. rewrite <- (chr_code a), <- (chr_code b). f_equal. unfold is_lower_hex, hex_val, is_digit in *.
  destruct ((48 <=? code a) && (code a <=? 57)) eqn:E1, ((48 <=? code b) && (code b <=? 57)) eqn:E2; cbn [orb] in *;
    rewrite ?Ha, ?Hb in *; simplify_eq; try lia; zbool; lia.
Qed.

Lemma hex_val_some a : is_lower_hex a = true -> exists x, hex_val a = Some x /\ 0 <= x < 16.
Proof.
  unfold is_lower_hex, hex_val, is_digit. destruct ((48 <=? code a) && (code a <=? 57)) eqn:E; cbn [orb]; intros H.
  - exists (code a - 48). split; [done|]. zbool; lia.
  - rewrite H. exists (code a - 87). split; [done|]. zbool; lia.
Qed.

Lemma hex_bytes_inj n : forall l1 l2, length l1 = (2 * n)%nat -> length l2 = (2 * n)%nat ->
  Forall (fun c => is_lower_hex c = true) l1 -> Forall (fun c => is_lower_hex c = true) l2 -> hex_bytes l1 = hex_bytes l2 -> l1 = l2.
Proof.
  induction n as [|n IH]; intros l1 l2 H1 H2 F1 F2 E.
  - destruct l1, l2; try discriminate; done.
  - destruct l1 as [|a [|b l1]]; [simpl in H1; lia..|]. destruct l2 as [|a' [|b' l2]]; [simpl in H2; lia..|].
    apply Forall_cons in F1 as [Ha F1], F2 as [Ha' F2]. apply Forall_cons in F1 as [Hb F1], F2 as [Hb' F2].
    destruct (hex_val_some a Ha) as (x & Ex & Bx), (hex_val_some b Hb) as (y & Ey & By),
      (hex_val_some a' Ha') as (x' & Ex' & Bx'), (hex_val_some b' Hb') as (y' & Ey' & By').
    cbn [hex_bytes] in E. rewrite Ex, Ey, Ex', Ey' in E. injection E as E1 E2.
    assert (x = x' /\ y = y') as [-> ->] by lia. rewrite (hex_val_inj a a' x'), (hex_val_inj b b' y') by done.
    do 2 f_equal. apply IH; simpl in *; try lia; done.
Qed.

Lemma split_no_sep sep l : sep ∉ l -> split_on sep l = [l].
Proof.
  induction l as [|c l IH]; intros H; [done|]. rewrite not_elem_of_cons in H. destruct H as [Hc Hl]. cbn [split_on].
  destruct (Ascii.eqb_spec c sep); [congruence|]. by rewrite IH.
Qed.

Lemma split_app sep x l : sep ∉ x -> split_on sep (x ++ sep :: l) = x :: split_on sep l.
Proof.
  induction x as [|c x IH]; intros H.
  - cbn. by rewrite Ascii.eqb_refl.
  - rewrite not_elem_of_cons in H. destruct H as [Hc Hx]. cbn [app split_on]. destruct (Ascii.eqb_spec c sep); [congruence|]. by rewrite IH.
Qed.

Lemma split_join sep ps : ps <> [] -> Forall (fun p => sep ∉ p) ps -> split_on sep (join_with sep ps) = ps.
Proof.
  induction ps as [|p ps IH]; intros Hne F; [done|]. apply Forall_cons in F as [Hp F]. destruct ps as [|q ps]; [by apply split_no_sep|].
  cbn [join_with]. rewrite split_app by done. f_equal. by apply IH.
Qed.

Lemma strip_prefix_app l : strip_prefix (sha256_prefix ++ l) = l.
Proof. done. Qed.

Lemma hex_clean c : is_lower_hex c = true -> is_space c = false /\ c <> ","%char.
Proof.
  intros H. split.
  - unfold is_lower_hex, is_digit, is_space in *. zbool; lia.
  - intros ->. done.
Qed.

Section Message.
Variables (ts id rawBody : list ascii).
Abbreviation sign := (generateSignatureV2 hmac ts id rawBody).

Lemma part_clean s : (","%char ∉ sha256_prefix ++ sign s) /\ trim (sha256_prefix ++ sign s) = sha256_prefix ++ sign s.
Proof.
  destruct (digest_hex s (signing_base ts id rawBody)) as [_ F]. change (hmac s _) with (sign s) in F. split.
  - intros H. apply elem_of_app in H as [H|H].
    + assert (Hno : ","%char ∉ sha256_prefix) by by_decision. done.
    + rewrite Forall_forall in F. apply F, hex_clean in H. by destruct H.
  - apply trim_id. apply Forall_app. split; [repeat constructor|]. eapply Forall_impl; [exact F|]. intros c Hc. by apply hex_clean in Hc as [? _].
Qed.

Lemma header_parts secrets : active_secrets secrets <> [] ->
  List.filter (fun v => negb (length v =? 0)%nat) (map trim (split_on "," (buildSignatureV2Header hmac ts id rawBody secrets))) =
  map (fun s => sha256_prefix ++ sign s) (active_secrets secrets).
Proof.
  intros Hne. unfold buildSignatureV2Header. rewrite split_join.
  - clear Hne. induction (active_secrets secrets) as [|s l IH]; [done|]. cbn [map]. rewrite (proj2 (part_clean s)). cbn [List.filter].
    change (negb (length (sha256_prefix ++ sign s) =? 0)%nat) with true. cbv iota. by rewrite IH.
  - by destruct (active_secrets secrets).
  - apply Forall_map, Forall_true. intros s. apply part_clean.
Qed.

(** The signature header round-trips through a rotation: a receiver that
    knows any of the active secrets, the new one or the previous one, accepts
    the delivery; and it accepts nothing that an active secret did not sign
    for exactly this timestamp, delivery and body. *)
Theorem signature_header_roundtrip secrets s :
  verifySignatureV2Header hmac ts id rawBody (buildSignatureV2Header hmac ts id rawBody secrets) s = true <->
  str_truthy s = true /\ exists t, t ∈ active_secrets secrets /\ sign t = sign s.
Proof.
  unfold verifySignatureV2Header. rewrite !andb_true_iff. destruct (decide (active_secrets secrets = [])) as [E|E].
  { unfold buildSignatureV2Header. rewrite E. cbn. split; [intros [[? _] _]; done|]. intros (_ & t & H & _). by apply elem_of_nil in H. }
  rewrite header_parts by done. rewrite existsb_exists. split.
  - intros [[_ Hs] (v & Hv & Hok)]. split; [done|]. apply in_map_iff in Hv as (t & <- & Ht). exists t. rewrite list_elem_of_In. split; [done|].
    rewrite strip_prefix_app in Hok. apply bool_decide_eq_true in Hok. symmetry in Hok.
    apply (hex_bytes_inj 32) in Hok; [done|apply digest_hex..].
  - intros (Hs & t & Ht & Et). split.
    + split; [|done]. unfold buildSignatureV2Header. destruct (active_secrets secrets) as [|x l]; [done|]. cbn [map join_with]. by destruct l.
    + exists (sha256_prefix ++ sign t). split; [apply in_map_iff; exists t; by rewrite <- list_elem_of_In|].
      rewrite strip_prefix_app. apply bool_decide_eq_true. by rewrite Et.
Qed.
End Message.
End SigningFacts.

Lemma app_sep_inj (sep : ascii) x y l1 l2 : sep ∉ x -> sep ∉ y -> x ++ sep :: l1 = y ++ sep :: l2 -> x = y /\ l1 = l2.
Proof.
  revert y. induction x as [|c x IH]; intros y Hx Hy E; destruct y as [|d y]; simpl in E.
  - by injection E.
  - injection E as -> _. exfalso. apply Hy. left.
  - injection E as -> _. exfalso. apply Hx. left.
  - injection E as -> E. rewrite not_elem_of_cons in Hx, Hy. destruct (IH y) as [-> ->]; [tauto|tauto|done|done].
Qed.

(** The signed text determines what was signed: timestamp, delivery id and
    body cannot be shifted into one another, so a signature cannot be reused
    with another timestamp or id. *)
Theorem signing_base_injective ts id rawBody ts' id' rawBody' :
  "."%char ∉ ts -> "."%char ∉ ts' -> "."%char ∉ id -> "."%char ∉ id' ->
  signing_base ts id rawBody = signing_base ts' id' rawBody' -> ts = ts' /\ id = id' /\ rawBody = rawBody'.
Proof.
  intros H1 H2 H3 H4 E. unfold signing_base in E. apply app_sep_inj in E as [-> E]; [|done..].
  apply app_sep_inj in E as [-> ->]; done.
Qed.

(** ** The retry queue *)
Section QueueFacts.
Variables (WEBHOOK_MAX_ATTEMPTS LEASE_TIMEOUT_MS : Z).

Abbreviation stuck' := (stuck LEASE_TIMEOUT_MS).

Lemma unstick_fewer now r q : r ∈ q -> stuck' now r = true ->
  (length (List.filter (stuck' now) (update_retry (set_status R_pending None None None) (rt_deliveryId r) q))
   < length (List.filter (stuck' now) q))%nat.
Proof.
  intros Hr Hs.
  assert (Hle : forall l, (length (List.filter (stuck' now) (update_retry (set_status R_pending None None None) (rt_deliveryId r) l))
     <= length (List.filter (stuck' now) l))%nat).
  { induction l as [|x l IH]; [done|]. cbn [update_retry map List.filter]. fold (update_retry (set_status R_pending None None None) (rt_deliveryId r) l).
    destruct (_ =? _)%string; [change (stuck' now (set_status R_pending None None None x)) with false; cbv iota|];
      destruct (stuck' now x); simpl; lia. }
  induction q as [|x q IH]; [by apply elem_of_nil in Hr|]. cbn [update_retry map List.filter].
  fold (update_retry (set_status R_pending None None None) (rt_deliveryId r) q). pose proof (Hle q) as Hq.
  apply elem_of_cons in Hr as [->|Hr].
  - rewrite String.eqb_refl, Hs. change (stuck' now (set_status R_pending None None None x)) with false. simpl. lia.
  - specialize (IH Hr). destruct (_ =? _)%string; [change (stuck' now (set_status R_pending None None None x)) with false; cbv iota|];
      destruct (stuck' now x); simpl; lia.
Qed.

Lemma recover_loop_drains fuel now : forall q k, (length (List.filter (stuck' now) q) <= fuel)%nat ->
  exists q' n, recover_loop LEASE_TIMEOUT_MS fuel now q k = Some (q', n) /\ (forall r, r ∈ q' -> stuck' now r = false) /\
    (n <= k + length (List.filter (stuck' now) q))%nat.
Proof.
  induction fuel as [|fuel IH]; intros q k Hf; cbn [recover_loop]; destruct (List.find (stuck' now) q) as [r|] eqn:E.
  - apply find_exists in E as [Hr Hs]. pose proof (unstick_fewer now r q Hr Hs). lia.
  - exists q, k. split; [done|]. split; [by apply find_none_forall|lia].
  - apply find_exists in E as [Hr Hs]. pose proof (unstick_fewer now r q Hr Hs) as Hlt.
    destruct (IH (update_retry (set_status R_pending None None None) (rt_deliveryId r) q) (S k)) as (q' & n & H1 & H2 & H3); [lia|].
    exists q', n. split; [done|]. split; [done|lia].
  - exists q, k. split; [done|]. split; [by apply find_none_forall|lia].
Qed.

(** Recovering stuck leases ends: after at most as many rounds as there are
    stuck retries no lease is stuck, so a crashed worker's retries become
    available again. *)
Theorem stuck_leases_recovered now q : exists q' n, recoverStuckLeases LEASE_TIMEOUT_MS now q = Some (q', n) /\
  (forall r, r ∈ q' -> stuck' now r = false) /\ (n <= length (List.filter (stuck' now) q))%nat.
Proof.
  destruct (recover_loop_drains (length q) now q 0) as (q' & n & H1 & H2 & H3); [apply List.filter_length_le|]. by exists q', n.
Qed.

(** One round on a queue with a single retry. *)
Definition round (q : list retry) (tick : Z * (bool * option http_outcome)) : list retry :=
  (retry_rounds 1 tick.1 (fun _ => tick.2) q).1.

Definition closed (r : retry) : Prop := rt_status r = R_succeeded \/ rt_status r = R_failed.

Fixpoint rounds_due (t : Z) (ticks : list (Z * (bool * option http_outcome))) : Prop :=
  match ticks with [] => True | (t', _) :: rest => t <= t' /\ rounds_due (t' + 900000) rest end.

Lemma backoff_range n : 60000 <= getBackoffDelay n <= 900000.
Proof. unfold getBackoffDelay. destruct (n <=? 0); [lia|]. destruct (n =? 1); lia. Qed.

Lemma round_closed r tick : closed r -> round [r] tick = [r].
Proof. intros [H|H]; unfold round, retry_rounds, claim_retry, due; simpl; by rewrite H. Qed.

Lemma round_pending r t e : rt_status r = R_pending -> rt_nextRetryAt r <= t ->
  exists r', round [r] (t, e) = [r'] /\ rt_maxAttempts r' = rt_maxAttempts r /\
    (closed r' \/ rt_status r' = R_pending /\ rt_attemptCount r' = rt_attemptCount r + 1 /\ rt_attemptCount r' < rt_maxAttempts r /\
       rt_nextRetryAt r' = t + getBackoffDelay (rt_attemptCount r + 1)).
Proof.
  intros Hp Hd. unfold round. cbn [fst snd retry_rounds]. unfold claim_retry, due. cbn [List.filter]. rewrite Hp.
  rewrite bool_decide_true by done. destruct (Z.leb_spec (rt_nextRetryAt r) t); [|lia]. cbn [andb js_sort foldr sort_insert update_retry map].
  rewrite String.eqb_refl. unfold retryWebhook, closed. destruct e as [url_ok o]. cbn [fst snd]. destruct url_ok; cbn [negb].
  - destruct (match o with Some h => send_result h | None => Some SSRF_BLOCKED end); [destruct (Z.ltb_spec (rt_attemptCount r + 1) (rt_maxAttempts r))|];
      cbn [rt_attemptCount rt_maxAttempts set_status rt_deliveryId default option_map];
      (destruct (Z.ltb_spec (rt_attemptCount r + 1) (rt_maxAttempts r)); try lia); cbn [update_retry map rt_deliveryId set_status];
      rewrite ?String.eqb_refl; cbn [fst]; eexists; (split; [done|]); cbn; auto 10.
  - cbn [update_retry map rt_deliveryId set_status]. rewrite String.eqb_refl. eexists. split; [done|]. cbn. auto.
Qed.

(** A queued delivery does not stay in the queue: whatever the receiver
    does, after its maximum number of due rounds it has succeeded or failed. *)
Theorem retry_settles ticks r : rt_status r = R_pending -> rounds_due (rt_nextRetryAt r) ticks ->
  rt_maxAttempts r - rt_attemptCount r <= Z.of_nat (length ticks) -> (0 < length ticks)%nat ->
  exists r', foldl round [r] ticks = [r'] /\ closed r'.
Proof.
  revert r. induction ticks as [|[t e] ticks IH]; intros r Hp Hd Hb Hl; [simpl in Hl; lia|]. destruct Hd as [Hd Hrest]. cbn [foldl].
  destruct (round_pending r t e Hp Hd) as (r' & -> & Hm & [Hc|(H1 & H2 & H3 & H4)]).
  - exists r'. split; [|done]. clear -Hc. induction ticks as [|tk ticks IH]; [done|]. cbn [foldl]. by rewrite round_closed.
  - destruct ticks as [|[t' e'] ticks]; [simpl in Hb; lia|]. destruct Hrest as [Hr1 Hr2].
    apply IH; [done| |cbn [length] in *; lia|simpl; lia]. split; [|done]. rewrite H4. pose proof (backoff_range (rt_attemptCount r + 1)). lia.
Qed.
End QueueFacts.

(** ** Sequence numbers *)

Definition seqs (id : nat) (sent : list (nat * request)) : list Z :=
  omap (fun x => if (x.1 =? id)%nat then b_sequence (rq_body x.2) else None) sent.

Lemma seqs_app id l1 l2 : seqs id (l1 ++ l2) = seqs id l1 ++ seqs id l2.
Proof. apply omap_app. Qed.

Lemma bump_ids id l : ep_id <$> bump id l = ep_id <$> l.
Proof. unfold bump. induction l as [|e l IH]; [done|]. cbn. f_equal; [by destruct (_ =? _)%nat|exact IH]. Qed.

Definition counter (id : nat) (l : list endpoint) : Z := default 0 (ep_sequence <$> List.find (fun e => (ep_id e =? id)%nat) l).

Lemma counter_bump id j l : counter j (bump id l) = counter j l + (if bool_decide (j = id /\ id ∈ (ep_id <$> l)) then 1 else 0).
Proof.
  unfold counter. induction l as [|e l IH].
  - cbn. rewrite bool_decide_eq_false_2; [done|]. intros [_ H]. by apply elem_of_nil in H.
  - cbn [bump map List.find]. destruct (Nat.eqb_spec (ep_id e) id) as [E|E].
    + cbn [ep_id]. destruct (Nat.eqb_spec (ep_id e) j) as [E'|E'].
      * cbn. rewrite bool_decide_eq_true_2; [done|]. split; [congruence|]. rewrite <- E. left.
      * fold (bump id l). rewrite IH. rewrite !bool_decide_eq_false_2; [done| |]; intros [-> _]; congruence.
    + destruct (Nat.eqb_spec (ep_id e) j) as [E'|E'].
      * cbn. rewrite bool_decide_eq_false_2; [lia|]. intros [-> _]. done.
      * fold (bump id l). rewrite IH. rewrite (bool_decide_ext (j = id /\ id ∈ (ep_id <$> l)) (j = id /\ id ∈ (ep_id <$> e :: l))); [done|].
        rewrite fmap_cons, elem_of_cons. split; [tauto|]. intros [-> [H|H]]; [congruence|tauto].
Qed.

(** Numbers sent so far are increasing and not above the counter. *)
Definition ordered_inv (s : service) : Prop :=
  forall id, StronglySorted Z.lt (seqs id (s_sent s)) /\ Forall (fun n => n <= counter id (s_endpoints s)) (seqs id (s_sent s)).

Lemma sorted_snoc l n : StronglySorted Z.lt l -> Forall (fun x => x < n) l -> StronglySorted Z.lt (l ++ [n]).
Proof.
  induction 1 as [|x l Hs IH Hx]; intros Hf; [repeat constructor|]. apply Forall_cons in Hf as [H1 H2]. cbn. constructor; [by apply IH|].
  by apply Forall_snoc.
Qed.

Lemma deliver_ordered maxA sunset now event raw filtered ep c s s' e : ordered_inv s ->
  deliver maxA sunset now event raw filtered ep c s = (s', e) -> ordered_inv s'.
Proof.
  intros Hi. unfold deliver. destruct (negb (ci_url_ok c)); [intros H; by injection H as <- _|].
  destruct (_isReplay now (ci_id c) (s_nonces s)) as [replay ns]. destruct replay; [intros H; injection H as <- _; exact Hi|].
  cbn [_nextEndpointSequence s_endpoints s_queue s_sent]. unfold _sendToUrl.
  set (sq := ep_sequence <$> List.find (fun e => (ep_id e =? ep_id ep)%nat) (bump (ep_id ep) (s_endpoints s))).
  assert (Hquiet : forall id, StronglySorted Z.lt (seqs id (s_sent s)) /\
    Forall (fun n => n <= counter id (bump (ep_id ep) (s_endpoints s))) (seqs id (s_sent s))).
  { intros id. destruct (Hi id) as [H1 H2]. split; [done|]. eapply Forall_impl; [exact H2|]. intros n Hn. cbv beta in *.
    rewrite counter_bump. destruct (bool_decide _); lia. }
  destruct (ci_allowed c); cbn [negb]; intros H; injection H as <- _; unfold ordered_inv; cbn [s_sent s_endpoints].
  2: { intros id. rewrite app_nil_r. apply Hquiet. }
  intros id. rewrite seqs_app. destruct (Hquiet id) as [H1 H2]. set (rq := match or_null _ _ with Some _ => _ | None => _ end).
  assert (Hrq : b_sequence (rq_body rq) = sq) by (unfold rq; by destruct (or_null _ _)).
  unfold seqs at 2 4. cbn [omap list_omap fst snd]. rewrite Hrq. destruct (Nat.eqb_spec (ep_id ep) id) as [E|]; [|by rewrite !app_nil_r].
  destruct sq as [n|] eqn:Esq; [|by rewrite !app_nil_r]. subst id.
  assert (Hn : counter (ep_id ep) (bump (ep_id ep) (s_endpoints s)) = n) by (unfold counter; unfold sq in Esq; by rewrite Esq).
  assert (Hk : ep_id ep ∈ (ep_id <$> s_endpoints s)).
  { unfold sq in Esq. apply fmap_Some in Esq as (x & Hx & _). apply find_exists in Hx as [Hx Hxe]. apply Nat.eqb_eq in Hxe.
    rewrite <- (bump_ids (ep_id ep)). apply list_elem_of_fmap. by exists x. }
  pose proof (counter_bump (ep_id ep) (ep_id ep) (s_endpoints s)) as Hcb. rewrite bool_decide_true in Hcb by done. split.
  - apply sorted_snoc; [done|]. eapply Forall_impl; [exact (proj2 (Hi (ep_id ep)))|]. intros m Hm. cbv beta in Hm. lia.
  - apply Forall_snoc; [done|lia].
Qed.

(** An event fired for a school, with the circumstances of each endpoint. *)
Record firing := Firing {
  fi_now : Z; fi_school : string; fi_event : string; fi_raw : payload; fi_allowed : option (list string); fi_env : nat -> circumstances
}.

Definition fire (maxA sunset : Z) (s : service) (f : firing) : service :=
  (dispatchToSchool maxA sunset (fi_now f) (fi_school f) (fi_event f) (fi_raw f) (fi_allowed f) (fi_env f) s).1.

Lemma deliver_all_ordered maxA sunset now event raw filtered env eps : forall s, ordered_inv s ->
  ordered_inv (deliver_all maxA sunset now event raw filtered eps env s).1.
Proof.
  induction eps as [|ep eps IH]; intros s Hi; [done|]. cbn [deliver_all].
  destruct (deliver _ _ _ _ _ _ _ _ _) as [s1 e] eqn:E. pose proof (deliver_ordered _ _ _ _ _ _ _ _ _ _ _ Hi E) as Hi1.
  specialize (IH s1 Hi1). by destruct (deliver_all _ _ _ _ _ _ _ _ s1).
Qed.

(** The sequence numbers an endpoint receives with first deliveries are
    strictly increasing, whatever events are fired and whatever fails. *)
Theorem endpoint_sequence_increasing maxA sunset fs s id : s_sent s = [] ->
  StronglySorted Z.lt (seqs id (s_sent (foldl (fire maxA sunset) s fs))).
Proof.
  intros H0. assert (Hi : ordered_inv s) by (intros j; rewrite H0; repeat constructor). clear H0.
  revert s Hi. induction fs as [|f fs IH]; intros s Hi; [apply Hi|]. cbn [foldl]. apply IH. unfold fire, dispatchToSchool.
  destruct (negb _); [done|]. by apply deliver_all_ordered.
Qed.

(** ** Replays *)

(** The store knows the id and will not forget it before [exp]. *)
Definition remembers (exp : Z) (id : string) (s : nonces) : Prop :=
  match s.(n_redis) with
  | Ready keys => exists t, keys !! id = Some t /\ exp <= t
  | Failing => True
  | NotReady => s.(n_local_allowed) = true -> exists t, s.(n_local) !! id = Some t /\ exp <= t
  end.

Lemma evict_keeps now m id t : m !! id = Some t -> now <= t -> _evictExpiredNonces now m !! id = Some t.
Proof. intros H Ht. unfold _evictExpiredNonces. apply map_lookup_filter_Some. done. Qed.

Lemma remembered_refused exp id s now : remembers exp id s -> now < exp -> (_isReplay now id s).1 = true.
Proof.
  unfold remembers, _isReplay. destruct (n_redis s) as [keys| |]; [|done|].
  - intros (t & -> & Ht) Hn. destruct (Z.ltb_spec now t); [done|lia].
  - destruct (n_local_allowed s); cbn [negb]; [|done]. intros H Hn. destruct (H eq_refl) as (t & Ht & Hle).
    by rewrite (evict_keeps now _ id t Ht) by lia.
Qed.

Lemma remembers_step exp id s now id' : remembers exp id s -> now < exp -> remembers exp id (_isReplay now id' s).2.
Proof.
  intros Hr Hn. destruct (decide (id' = id)) as [->|N].
  - pose proof (remembered_refused exp id s now Hr Hn) as Hb. unfold _isReplay, remembers in *.
    destruct (n_redis s) as [keys| |] eqn:Er; [|cbn; by rewrite Er|].
    + destruct (keys !! id) as [t|] eqn:Ek; [|done]. destruct (now <? t); [|done]. cbn. rewrite Er. destruct Hr as (t0 & H1 & H2). exists t0. by rewrite Ek.
    + destruct (n_local_allowed s) eqn:Ea; cbn [negb] in *; [|cbn; rewrite Er, Ea; done].
      destruct (Hr eq_refl) as (t & Ht & Hle). rewrite (evict_keeps now _ id t Ht) in * by lia. cbn. intros _. exists t.
      by rewrite (evict_keeps now _ id t Ht) by lia.
  - unfold _isReplay, remembers in *. destruct (n_redis s) as [keys| |] eqn:Er; [|cbn; by rewrite Er|].
    + destruct Hr as (t & Ht & Hle). destruct (keys !! id') as [t'|]; [destruct (now <? t'); [cbn; rewrite Er; eauto|]|];
        cbn; exists t; by rewrite lookup_insert_ne.
    + destruct (n_local_allowed s) eqn:Ea; cbn [negb]; [|cbn; rewrite Er, Ea; done]. destruct (Hr eq_refl) as (t & Ht & Hle).
      pose proof (evict_keeps now _ id t Ht ltac:(lia)) as Hk.
      destruct (_evictExpiredNonces now (n_local s) !! id'); cbn; intros _; exists t; [done|by rewrite lookup_insert_ne].
Qed.

Lemma accepted_remembered now id s : (_isReplay now id s).1 = false -> remembers (now + REPLAY_WINDOW_S * 1000) id (_isReplay now id s).2.
Proof.
  unfold _isReplay, remembers. destruct (n_redis s) as [keys| |]; [|done|].
  - destruct (keys !! id) as [t|]; [destruct (now <? t); [done|]|]; intros _; cbn [snd n_redis];
      eexists; (split; [by rewrite lookup_insert_eq|lia]).
  - destruct (negb (n_local_allowed s)); [done|]. destruct (_ !! id); [done|]. intros _. cbn [snd n_redis n_local n_local_allowed].
    intros _. eexists. split; [by rewrite lookup_insert_eq|lia].
Qed.

(** A delivery id is used once per window: after it was accepted, every
    attempt with the same id within five minutes is refused, whatever other
    deliveries come in between, with Redis or with the local store. *)
Theorem delivery_id_used_once now id s between now' :
  (_isReplay now id s).1 = false -> Forall (fun c => c.1 < now + 300000) between -> now' < now + 300000 ->
  (_isReplay now' id (foldl (fun s c => (_isReplay c.1 c.2 s).2) (_isReplay now id s).2 between)).1 = true.
Proof.
  intros Ha Hf Hn. apply (remembered_refused (now + 300000)); [|done]. apply accepted_remembered in Ha.
  change (now + REPLAY_WINDOW_S * 1000) with (now + 300000) in Ha. revert Ha. generalize ((_isReplay now id s).2).
  induction Hf as [|[t i] l Ht Hf IH]; intros s' Hs; [done|]. cbn [foldl]. apply IH. by apply remembers_step.
Qed.

(** ** Witnesses *)

(** A stand-in for the keyed hash: 64 decimal digits. *)
Definition demo_hmac (s : string) (m : list ascii) : list ascii :=
  pad_digits 64 (fold_left (fun acc c => 131 * acc + code c) (chars s ++ m) 7).

Lemma demo_hex s m : length (demo_hmac s m) = 64%nat /\ Forall (fun c => is_lower_hex c = true) (demo_hmac s m).
Proof.
  unfold demo_hmac. split; [apply pad_digits_length|]. eapply Forall_impl; [apply pad_digits_digits|]. intros c Hc. cbv beta in *.
  unfold is_lower_hex. by rewrite Hc.
Qed.

Lemma signature_header_roundtrip_witness :
  let h := buildSignatureV2Header demo_hmac (chars "17") (chars "d1") (chars "{}") [Some "new"; Some "old"] in
  verifySignatureV2Header demo_hmac (chars "17") (chars "d1") (chars "{}") h "old" = true /\
  verifySignatureV2Header demo_hmac (chars "18") (chars "d1") (chars "{}") h "old" = false.
Proof.
  intros h. split; [|by vm_compute]. apply (signature_header_roundtrip demo_hmac demo_hex). split; [done|]. exists "old". split; [|done].
  by_decision.
Defined.

Lemma signing_base_injective_witness :
  signing_base (chars "17") (chars "d1") (chars "x.y") = signing_base (chars "17") (chars "d1") (chars "x.y") /\ chars "x.y" = chars "x.y".
Proof.
  split; [done|]. apply (signing_base_injective (chars "17") (chars "d1") (chars "x.y") (chars "17") (chars "d1") (chars "x.y"));
    try by_decision; done.
Defined.

Definition sample_retry : retry := Retry "d1" "https://h" "payment.confirmed" ∅ (Some 1%nat) (Some 1) R_pending 0 3 60000 None.

Lemma retry_settles_witness :
  let down := (true, Some (Responded 500)) in
  exists r', foldl round [sample_retry] [(100000, down); (1000000, down); (2000000, down)] = [r'] /\ closed r' /\ rt_attemptCount r' = 3.
Proof.
  intros down. destruct (retry_settles [(100000, down); (1000000, down); (2000000, down)] sample_retry) as (r' & H1 & H2).
  - reflexivity.
  - cbn. lia.
  - cbn. lia.
  - cbn. lia.
  - exists r'. split; [exact H1|]. split; [exact H2|].
    assert (Hr : map rt_attemptCount (foldl round [sample_retry] [(100000, down); (1000000, down); (2000000, down)]) = [3]) by (by vm_compute).
    rewrite H1 in Hr. by injection Hr.
Defined.

Definition a_endpoint (i : nat) : endpoint :=
  Endpoint i "SCH-1" "https://h" (Some "k") None None None true ["payment.confirmed"; "dispute.created"] 0.
Definition a_service : service := Service [a_endpoint 1; a_endpoint 2] [] (Nonces (Ready ∅) ∅ false) [].
Definition a_payment : payload := <["txHash" := "aa"]> (<["studentId" := "STU-1"]> ∅).
Definition firing_of (event id : string) (o : http_outcome) : firing :=
  Firing 1000 "SCH-1" event a_payment None (fun i => Circumstances (if decide (i = 1%nat) then id else id +:+ "b") true true o).
Definition two_firings : list firing := [firing_of "payment.confirmed" "d1" (Responded 200); firing_of "payment.confirmed" "d2" (Responded 200)].

Lemma endpoint_sequence_increasing_witness :
  seqs 1 (s_sent (foldl (fire 3 0) a_service two_firings)) = [1; 2] /\
  StronglySorted Z.lt (seqs 1 (s_sent (foldl (fire 3 0) a_service two_firings))).
Proof. split; [by vm_compute|]. apply (endpoint_sequence_increasing 3 0 two_firings a_service 1). reflexivity. Defined.

Lemma delivery_id_used_once_witness :
  let s := Nonces NotReady ∅ true in
  (_isReplay 0 "d1" s).1 = false /\ (_isReplay 299999 "d1" (_isReplay 5 "d2" (_isReplay 0 "d1" s).2).2).1 = true.
Proof.
  intros s. split; [by vm_compute|]. apply (delivery_id_used_once 0 "d1" s [(5, "d2")] 299999); [by vm_compute| |lia].
  repeat constructor.
Defined.

(** ** Where the service departs from its intent *)

(** The retry is queued with the unfiltered event: an endpoint that did not
    receive the student's id because the school's configuration withholds it
    gets it with the first retry. *)
Theorem retry_sends_unfiltered_payload :
  let s := fire 3 0 a_service (firing_of "payment.confirmed" "d1" (Responded 503)) in
  map (fun x => b_data (rq_body x.2) !! "studentId") (s_sent s) = [None; None] /\
  map (fun r => (retryWebhook 70000 true (Some (Responded 200)) r (s_queue s)).2 ≫= (fun p => option_list (p !! "studentId"))) (s_queue s)
  = [["STU-1"]; ["STU-1"]].
Proof. by vm_compute. Qed.

(** Events outside the queue's enumeration are never retried: a failed
    delivery of a dispute event, to which endpoints can subscribe, is lost. *)
Theorem dispute_events_not_retried :
  let s := fire 3 0 a_service (firing_of "dispute.created" "d1" (Responded 503)) in
  length (s_sent s) = 2%nat /\ s_queue s = [].
Proof. by vm_compute. Qed.
End Webhook.
