(* ===== verification/Currency.v ===== *)
(** Currency conversion: backend/src/services/currencyConversionService.js.

    Rates from two providers behind circuit breakers (CircuitBreaker), a shared
    Redis cache with a bounded least-recently-used map behind it, serving of
    stale rates, and decimal-safe conversion (DecimalLib).  What a provider
    answers is an argument.  Calls are served one after the other: the sharing
    of a request in flight between concurrent callers is not modelled, nor are
    metrics and the list of currencies the provider supports. *)

From Stdlib Require Import Ascii ZArith QArith Lia.
From stdpp Require Import base list strings gmap.
From S2P Require Import Prelude JsNumber JsString StellarAmount DecimalLib Money CircuitBreaker.
Local Open Scope string_scope.
Local Open Scope Z_scope.
Local Open Scope list_scope.

Module Currency.
Import CircuitBreaker.

Definition CURRENCY_DECIMALS (c : string) : option nat :=
  if decide (c ∈ ["BIF"; "CLP"; "DJF"; "GNF"; "ISK"; "JPY"; "KMF"; "KRW"; "MGA"; "PYG"; "RWF"; "UGX"; "VND"; "VUV"; "XAF"; "XOF"; "XPF"])
  then Some 0%nat
  else if decide (c ∈ ["BHD"; "IQD"; "JOD"; "KWD"; "LYD"; "OMR"; "TND"]) then Some 3%nat
  else None.

Definition decimals (currency : string) : nat := default 2%nat (CURRENCY_DECIMALS (toUpperCase currency)).

Definition CACHE_TTL_MS : Z := 60000.
Definition PRICE_STALE_THRESHOLD_MS : Z := 3600000.
Definition REDIS_CACHE_TTL_S : Z := 3600.

Definition _DEFAULT_ALLOWED_FIAT : list string :=
  ["USD"; "EUR"; "GBP"; "JPY"; "AUD"; "CAD"; "CHF"; "CNY"; "HKD"; "NZD"; "SEK"; "KRW"; "SGD"; "NOK"; "MXN"; "INR"; "RUB"; "ZAR";
   "BRL"; "TRY"; "TWD"; "DKK"; "PLN"; "THB"; "IDR"; "HUF"; "CZK"; "ILS"; "CLP"; "PHP"; "AED"; "COP"; "SAR"; "MYR"; "RON"; "PGK";
   "NGN"; "GHS"; "KES"; "UGX"; "TZS"; "ETB"; "RWF"; "XOF"; "XAF"; "MAD"; "EGP"; "PKR"; "BDT"; "VND";
   "BHD"; "IQD"; "JOD"; "KWD"; "LYD"; "OMR"; "TND"].

(** ** The bounded map *)
Section Lru.
Context {V : Type}.

(** Entries in order of use, oldest first. *)
Abbreviation lru := (list (string * V)).

Definition lru_delete (k : string) (m : lru) : lru := List.filter (fun e => negb (e.1 =? k)%string) m.

Definition lru_find (k : string) (m : lru) : option V := snd <$> List.find (fun e => (e.1 =? k)%string) m.

Definition lru_get (k : string) (m : lru) : option V * lru :=
  match lru_find k m with
  | None => (None, m)
  | Some v => (Some v, lru_delete k m ++ [(k, v)])
  end.

(** [max] is at least one ([Math.max(1, maxSize)]). *)
Definition lru_set (max : nat) (k : string) (v : V) (m : lru) : lru :=
  let m' := lru_delete k m ++ [(k, v)] in
  if (Nat.max 1 max <? length m')%nat then tail m' else m'.

(** A sequence of lookups and stores. *)
Inductive lru_op := LGet (k : string) | LSet (k : string) (v : V).
Definition op_key (o : lru_op) : string := match o with LGet k | LSet k _ => k end.
Definition lru_step (max : nat) (m : lru) (o : lru_op) : lru :=
  match o with LGet k => (lru_get k m).2 | LSet k v => lru_set max k v m end.
Definition lru_run (max : nat) (ops : list lru_op) (m : lru) : lru := fold_left (lru_step max) ops m.

(** Keys are distinct and there are at most as many as the cap. *)
Definition lru_ok (max : nat) (m : lru) : Prop := NoDup m.*1 /\ (length m <= Nat.max 1 max)%nat.

Lemma lru_delete_notin k (m : lru) : k ∉ m.*1 -> lru_delete k m = m.
Proof.
  induction m as [|[k' v'] m IH]; intros Hk; [done|]. cbn in *. apply not_elem_of_cons in Hk as [Hne Hk].
  destruct (String.eqb_spec k' k); [congruence|]. cbn. f_equal. by apply IH.
Qed.

Lemma lru_delete_keys k (m : lru) : (lru_delete k m).*1 = List.filter (fun x => negb (x =? k)%string) m.*1.
Proof. induction m as [|[k' v'] m IH]; cbn; [done|]. destruct (k' =? k)%string; cbn; [done|by f_equal]. Qed.

Lemma lru_delete_elem k (m : lru) x : x ∈ (lru_delete k m).*1 <-> x ∈ m.*1 /\ x <> k.
Proof.
  rewrite lru_delete_keys, elem_of_filterb. split; intros [? H]; split; try done; by destruct (String.eqb_spec x k).
Qed.

Lemma NoDup_List_filter (f : string -> bool) l : NoDup l -> NoDup (List.filter f l).
Proof.
  induction 1 as [|x l Hx Hl IH]; cbn; [constructor|]. destruct (f x); [|done]. constructor; [|done]. rewrite elem_of_filterb. tauto.
Qed.

Lemma lru_delete_nodup k (m : lru) : NoDup m.*1 -> NoDup (lru_delete k m).*1.
Proof. rewrite lru_delete_keys. apply NoDup_List_filter. Qed.

Lemma lru_delete_app k (a b : lru) : lru_delete k (a ++ b) = lru_delete k a ++ lru_delete k b.
Proof. apply List.filter_app. Qed.

Lemma lru_delete_length k (m : lru) : (length (lru_delete k m) <= length m)%nat.
Proof. unfold lru_delete. induction m as [|e m IH]; cbn; [lia|]. destruct (negb _); cbn; lia. Qed.

Lemma lru_find_elem k (m : lru) v : lru_find k m = Some v -> k ∈ m.*1.
Proof.
  unfold lru_find. destruct (List.find _ m) as [[k' v']|] eqn:E; [|done]. intros _.
  apply find_some in E as [Hin Hk]. apply String.eqb_eq in Hk. cbn in Hk. subst.
  apply list_elem_of_In in Hin. by apply (list_elem_of_fmap_2 fst) in Hin.
Qed.

Lemma lru_delete_length_in k (m : lru) : k ∈ m.*1 -> (length (lru_delete k m) < length m)%nat.
Proof.
  induction m as [|[k' v'] m IH]; cbn; intros Hk; [by apply not_elem_of_nil in Hk|].
  apply elem_of_cons in Hk. destruct (String.eqb_spec k' k); cbn.
  - pose proof (lru_delete_length k m). unfold lru_delete in *. lia.
  - destruct Hk; [congruence|]. specialize (IH H). unfold lru_delete in IH. lia.
Qed.

Lemma bump_nodup k v (m : lru) : NoDup m.*1 -> NoDup (lru_delete k m ++ [(k, v)]).*1.
Proof.
  intros Hm. rewrite fmap_app. apply NoDup_app. split; [by apply lru_delete_nodup|]. split; [|apply NoDup_singleton].
  intros x [_ Hx]%lru_delete_elem ->%list_elem_of_singleton. done.
Qed.

Lemma lru_step_ok max m o : lru_ok max m -> lru_ok max (lru_step max m o).
Proof.
  intros [Hnd Hlen]. destruct o as [k|k v]; cbn [lru_step].
  - unfold lru_get. destruct (lru_find k m) as [v|] eqn:E; [|done]. cbn [snd]. split; [by apply bump_nodup|].
    rewrite length_app. cbn. apply lru_find_elem, lru_delete_length_in in E. lia.
  - unfold lru_set. cbv zeta. pose proof (bump_nodup k v m Hnd) as Hb. pose proof (lru_delete_length k m).
    set (m' := lru_delete k m ++ [(k, v)]) in *. assert (length m' <= S (Nat.max 1 max))%nat by (unfold m'; rewrite length_app; cbn; lia).
    destruct (Nat.ltb_spec (Nat.max 1 max) (length m')); [|by split]. destruct m' as [|e m']; [cbn [length] in *; lia|]. cbn in *.
    split; [by apply NoDup_cons in Hb as [_ ?]|lia].
Qed.

(** Where a key sits: only keys used since come after it. *)
Definition sits (k : string) (v : V) (used : list string) (m : lru) : Prop :=
  exists a b, m = (a ++ (k, v) :: b) /\ (b.*1) ⊆ used /\ (k ∉ b.*1) /\ (k ∉ a.*1).

Lemma sits_find k v used m : sits k v used m -> lru_find k m = Some v.
Proof.
  intros (a & b & -> & _ & _ & Ha). unfold lru_find. induction a as [|[k' v'] a IH]; cbn in *.
  - by rewrite String.eqb_refl.
  - apply not_elem_of_cons in Ha as [Hne Ha]. destruct (String.eqb_spec k' k); [congruence|]. by apply IH.
Qed.

Lemma lru_set_sits max k v m used : lru_ok max m -> sits k v used (lru_set max k v m).
Proof.
  intros [Hnd Hlen]. unfold lru_set. cbv zeta. set (d := lru_delete k m).
  assert (k ∉ d.*1) as Hk by (intros [_ ?]%lru_delete_elem; done).
  destruct (Nat.ltb_spec (Nat.max 1 max) (length (d ++ [(k, v)]))) as [Hl|Hl].
  - rewrite length_app in Hl. cbn in Hl. destruct d as [|e d]; [cbn in Hl; lia|]. cbn [tail app].
    exists d, []. repeat split; [set_solver|apply not_elem_of_nil|]. cbn in Hk. set_solver.
  - exists d, []. repeat split; [set_solver|apply not_elem_of_nil|done].
Qed.

Lemma bump_other k v k' v' used m : k' <> k -> sits k v used m -> sits k v (k' :: used) (lru_delete k' m ++ [(k', v')]).
Proof.
  intros Hne (a & b & -> & Hb & Hkb & Hka). rewrite lru_delete_app.
  replace (lru_delete k' ((k, v) :: b)) with ((k, v) :: lru_delete k' b)
    by (unfold lru_delete; cbn; destruct (String.eqb_spec k k'); [congruence|done]).
  exists (lru_delete k' a), (lru_delete k' b ++ [(k', v')]). rewrite <- app_assoc. split; [done|].
  repeat split.
  - rewrite fmap_app. intros x [Hx|Hx]%elem_of_app; [apply lru_delete_elem in Hx; set_solver|set_solver].
  - rewrite fmap_app, elem_of_app, lru_delete_elem. set_solver.
  - rewrite lru_delete_elem. tauto.
Qed.

Lemma bump_self k v used m : sits k v used m -> sits k v used (lru_delete k m ++ [(k, v)]).
Proof.
  intros _. exists (lru_delete k m), []. repeat split; [set_solver|apply not_elem_of_nil|]. rewrite lru_delete_elem. tauto.
Qed.

Lemma sits_weaken k v u u' m : u ⊆ u' -> sits k v u m -> sits k v u' m.
Proof. intros Hu (a & b & H1 & H2 & H3 & H4). exists a, b. repeat split; try done. set_solver. Qed.

(** Evicting the oldest entry spares [k] while fewer than the cap of other keys
    have been used since. *)
Lemma evict_sits max k v (U : list string) m : NoDup m.*1 -> sits k v U m -> (length (remove_dups U) < Nat.max 1 max)%nat ->
  (Nat.max 1 max < length m)%nat -> sits k v U (tail m).
Proof.
  intros Hnd (a & b & -> & Hb & Hkb & Hka) Hu Hl. destruct a as [|e a].
  - exfalso. cbn in Hl. rewrite fmap_app in Hnd. cbn in Hnd. apply NoDup_cons in Hnd as [_ Hnd].
    assert (length b.*1 <= length (remove_dups U))%nat as Hle.
    { apply submseteq_length, NoDup_submseteq; [done|]. intros x Hx. apply elem_of_remove_dups. by apply Hb. }
    rewrite length_fmap in Hle. lia.
  - exists a, b. repeat split; try done. cbn in Hka. set_solver.
Qed.

Lemma step_sits max k v used m o : lru_ok max m -> (op_key o = k -> o = LGet k) ->
  (length (remove_dups (op_key o :: used)) < Nat.max 1 max)%nat \/ op_key o = k ->
  sits k v used m -> sits k v (if (op_key o =? k)%string then used else op_key o :: used) (lru_step max m o).
Proof.
  intros [Hnd Hlen] Hself Hu Hs. destruct (String.eqb_spec (op_key o) k) as [He|He].
  - rewrite (Hself He). cbn. unfold lru_get. rewrite (sits_find _ _ _ _ Hs). by apply (bump_self k v used).
  - destruct Hu as [Hu|]; [|done]. destruct o as [k'|k' v']; cbn [op_key lru_step] in *.
    + unfold lru_get. destruct (lru_find k' m) eqn:E; cbn [snd]; [by apply bump_other|].
      eapply sits_weaken, Hs. set_solver.
    + unfold lru_set. cbv zeta. pose proof (bump_other k v k' v' used m He Hs).
      destruct (Nat.ltb_spec (Nat.max 1 max) (length (lru_delete k' m ++ [(k', v')]))); [|done].
      apply (evict_sits max); try done. by apply bump_nodup.
Qed.

(** The other keys a sequence uses, without repetition. *)
Definition other_keys (k : string) (ops : list lru_op) : list string :=
  remove_dups (List.filter (fun x => negb (x =? k)%string) (map op_key ops)).

Lemma remove_dups_mono (a b : list string) : a ⊆ b -> (length (remove_dups a) <= length (remove_dups b))%nat.
Proof.
  intros H. apply submseteq_length, NoDup_submseteq; [apply NoDup_remove_dups|]. intros x. rewrite !elem_of_remove_dups. apply H.
Qed.

Lemma run_sits max k v ops : forall used m, lru_ok max m -> (forall o, o ∈ ops -> op_key o = k -> o = LGet k) ->
  (length (remove_dups (used ++ List.filter (fun x => negb (x =? k)%string) (map op_key ops))) < Nat.max 1 max)%nat ->
  sits k v used m -> exists used', sits k v used' (lru_run max ops m).
Proof.
  induction ops as [|o ops IH]; intros used m Hok Hself Hu Hs; [by exists used|]. cbn [lru_run fold_left].
  assert (forall p, p ∈ ops -> op_key p = k -> p = LGet k) as Hself' by (intros p Hp; apply Hself; set_solver).
  cbn [map List.filter] in Hu. pose proof (lru_step_ok max m o Hok) as Hok'.
  assert (op_key o = k -> o = LGet k) as Ho by (apply Hself; set_solver).
  pose proof (fun H => step_sits max k v used m o Hok Ho H Hs) as Hst.
  destruct (String.eqb_spec (op_key o) k) as [He|He]; cbn [negb] in Hu.
  - apply (IH used); [done..|]. apply Hst. by right.
  - apply (IH (op_key o :: used)); [done..| |].
    + eapply Nat.le_lt_trans, Hu. apply remove_dups_mono. intros x. rewrite !elem_of_app, !elem_of_cons. tauto.
    + apply Hst. left. eapply Nat.le_lt_trans, Hu. apply remove_dups_mono. intros x. rewrite elem_of_app, !elem_of_cons. tauto.
Qed.

(** The in-process rate cache never holds more entries than its cap, and a rate
    stored in it is still found after any sequence of lookups and stores that use
    fewer other currencies than the cap (and store nothing for its own). *)
Theorem recent_rates_kept max k v (m : lru) ops : lru_ok max m ->
  (forall o, o ∈ ops -> op_key o = k -> o = LGet k) -> (length (other_keys k ops) < Nat.max 1 max)%nat ->
  (length (lru_run max ops (lru_set max k v m)) <= Nat.max 1 max)%nat /\ lru_find k (lru_run max ops (lru_set max k v m)) = Some v.
Proof.
  intros Hok Hself Hu. pose proof (lru_step_ok max m (LSet k v) Hok) as Hok1. cbn [lru_step] in Hok1. split.
  - assert (lru_ok max (lru_run max ops (lru_set max k v m))) as [_ H]; [|exact H]. clear Hself Hu.
    revert Hok1. generalize (lru_set max k v m). induction ops as [|o ops IH]; intros m' Hm'; [done|]. by apply IH, lru_step_ok.
  - destruct (run_sits max k v ops [] _ Hok1 Hself Hu (lru_set_sits max k v m [] Hok)) as [used' H].
    by apply sits_find in H.
Qed.
End Lru.

(** ** Rates *)

Inductive provider := coingecko | coinbase.

Record rate_entry := RateEntry { r_XLM : number; r_USDC : number; r_fetchedAt : Z; r_lastSuccessfulFetch : Z; r_provider : provider }.

(** What a provider answers: nothing usable (network, status, JSON), or the two
    rates as far as they are numbers. *)
Abbreviation answer := (option (option number * option number)).

(** [typeof rate !== "number" || rate <= 0] *)
Definition _fetchFromCoinGecko (a : answer) : option (number * number) :=
  match a with
  | Some (Some x, Some u) => if num_le x (of_Z 0) || num_le u (of_Z 0) then None else Some (x, u)
  | _ => None
  end.

(** [parseFloat], then [!isFinite(rate) || rate <= 0]; an absent rate is NaN. *)
Definition _fetchFromCoinbase (a : answer) : option (number * number) :=
  match a with
  | Some (x, u) =>
    let x := default NaN x in let u := default NaN u in
    if negb (isFinite x) || num_le x (of_Z 0) then None else
    if negb (isFinite u) || num_le u (of_Z 0) then None else Some (x, u)
  | None => None
  end.

(** Redis: up with its keys and their expiry, failing on commands, or not
    connected. *)
Inductive redis := Up (keys : gmap string (rate_entry * Z)) | Erring | Down.

Record service := Service {
  s_redis : redis; s_local : list (string * rate_entry); s_gecko : breaker; s_base : breaker;
  s_asked : list provider    (** providers contacted, latest last *)
}.

Section Rates.
Variable CURRENCY_LRU_MAX_SIZE : nat.
Variable ALLOWED_FIAT_CURRENCIES : list string.

Definition _isCurrencyAllowed (c : string) : bool := bool_decide (c ∈ ALLOWED_FIAT_CURRENCIES).

Definition local_get (key : string) (s : service) : option rate_entry * service :=
  let '(v, m) := lru_get key s.(s_local) in (v, Service s.(s_redis) m s.(s_gecko) s.(s_base) s.(s_asked)).

Definition _readCache (now : Z) (key : string) (s : service) : option rate_entry * service :=
  match s.(s_redis) with
  | Up keys => match keys !! key with
               | Some (e, exp) => if now <? exp then (Some e, s) else local_get key s
               | None => local_get key s
               end
  | _ => local_get key s
  end.

Definition _writeCache (now : Z) (key : string) (e : rate_entry) (s : service) : service :=
  Service (match s.(s_redis) with Up keys => Up (<[key := (e, now + REDIS_CACHE_TTL_S * 1000)]> keys) | r => r end)
    (lru_set CURRENCY_LRU_MAX_SIZE key e s.(s_local)) s.(s_gecko) s.(s_base) s.(s_asked).

(** One provider: skipped when its breaker is open. *)
Definition try_provider (p : provider) (now after : Z) (a : answer) (s : service) : option rate_entry * service :=
  let '(b, ok) := isAvailable now (match p with coingecko => s.(s_gecko) | coinbase => s.(s_base) end) in
  let put b' asked := match p with
    | coingecko => Service s.(s_redis) s.(s_local) b' s.(s_base) (s.(s_asked) ++ asked)
    | coinbase => Service s.(s_redis) s.(s_local) s.(s_gecko) b' (s.(s_asked) ++ asked)
    end in
  if negb ok then (None, put b []) else
  match (match p with coingecko => _fetchFromCoinGecko a | coinbase => _fetchFromCoinbase a end) with
  | Some (x, u) => (Some (RateEntry x u after after p), put (recordSuccess b) [p])
  | None => (None, put (recordFailure after b) [p])
  end.

Definition _fetchRates (now after : Z) (env : provider -> answer) (s : service) : option rate_entry * service :=
  let '(r, s1) := try_provider coingecko now after (env coingecko) s in
  match r with
  | Some e => (Some e, s1)
  | None => try_provider coinbase now after (env coinbase) s1
  end.

(** The availability checks before fetching; each may move a breaker on. *)
Definition both_open (now : Z) (s : service) : bool * service :=
  let '(g, okg) := isAvailable now s.(s_gecko) in
  let s1 := Service s.(s_redis) s.(s_local) g s.(s_base) s.(s_asked) in
  if okg then (false, s1) else
  let '(b, okb) := isAvailable now s.(s_base) in
  (negb okb, Service s.(s_redis) s.(s_local) g b s.(s_asked)).

(** What is served: an entry, and whether it is marked stale. *)
Record served := Served { sv_entry : rate_entry; sv_stale : bool }.

Definition still_usable (now : Z) (e : rate_entry) : bool := now - e.(r_lastSuccessfulFetch) <? PRICE_STALE_THRESHOLD_MS.

(** [Throw tt]: the currency is not allowed.  The call starts at [now]; a fetch
    it makes ends at [after]. *)
Definition getRates (now after : Z) (env : provider -> answer) (currency : string) (s : service) : result unit (option served) * service :=
  let key := toUpperCase currency in
  if negb (_isCurrencyAllowed key) then (Throw tt, s) else
  let '(cached, s1) := _readCache now key s in
  let fresh := match cached with Some c => now - c.(r_fetchedAt) <? CACHE_TTL_MS | None => false end in
  match cached with
  | Some c =>
    if fresh then (Ok (Some (Served c false)), s1) else
    let '(bothOpen, s2) := both_open now s1 in
    if bothOpen && still_usable now c then (Ok (Some (Served c true)), s2) else
    let '(r, s3) := _fetchRates now after env s2 in
    match r with
    | Some e => (Ok (Some (Served e false)), _writeCache after key e s3)
    | None => (Ok (if still_usable after c then Some (Served c true) else None), s3)
    end
  | None =>
    let '(_, s2) := both_open now s1 in
    let '(r, s3) := _fetchRates now after env s2 in
    match r with
    | Some e => (Ok (Some (Served e false)), _writeCache after key e s3)
    | None => (Ok None, s3)
    end
  end.

(** ** What is served *)

(** A positive rate, infinity included. *)
Definition positive (x : number) : Prop := num_lt (of_Z 0) x = true.

(** An entry as a successful fetch writes it, at or before [now]. *)
Definition entry_ok (now : Z) (e : rate_entry) : Prop :=
  positive (r_XLM e) /\ positive (r_USDC e) /\ r_lastSuccessfulFetch e = r_fetchedAt e /\ r_fetchedAt e <= now.

Definition redis_ok (now : Z) (r : redis) : Prop :=
  match r with Up keys => forall k e exp, keys !! k = Some (e, exp) -> entry_ok now e | _ => True end.

Definition svc_ok (now : Z) (s : service) : Prop :=
  redis_ok now (s_redis s) /\ forall k e, (k, e) ∈ s_local s -> entry_ok now e.

(** JSON holds no NaN. *)
Definition json_numbers (env : provider -> answer) : Prop :=
  forall x u, env coingecko = Some (x, u) -> x <> Some NaN /\ u <> Some NaN.

(** A replica between [t] and later: calls, and Redis going away, coming back or
    being written by other replicas. *)
Inductive reach : Z -> service -> Prop :=
| reach_start g b : reach 0 (Service Down [] g b [])
| reach_redis t t' s r : reach t s -> t <= t' -> redis_ok t' r ->
    reach t' (Service r (s_local s) (s_gecko s) (s_base s) (s_asked s))
| reach_call t now after env c s : reach t s -> t <= now <= after -> json_numbers env ->
    reach after (getRates now after env c s).2.

Lemma entry_ok_mono t t' e : t <= t' -> entry_ok t e -> entry_ok t' e.
Proof. unfold entry_ok. intuition lia. Qed.

Lemma svc_ok_mono t t' s : t <= t' -> svc_ok t s -> svc_ok t' s.
Proof.
  intros Ht [Hr Hl]. split.
  - unfold redis_ok in *. destruct (s_redis s); [|done..]. intros. eauto using entry_ok_mono.
  - intros. eauto using entry_ok_mono.
Qed.

Lemma lru_find_pair {V} k (m : list (string * V)) v : lru_find k m = Some v -> (k, v) ∈ m.
Proof.
  unfold lru_find. destruct (List.find _ m) as [[k' v']|] eqn:E; [|done]. intros [= <-].
  apply find_some in E as [Hin Hk]. apply String.eqb_eq in Hk. cbn in Hk. subst. by apply list_elem_of_In.
Qed.

Lemma lru_delete_sub {V} k (m : list (string * V)) x : x ∈ lru_delete k m -> x ∈ m.
Proof. unfold lru_delete. rewrite elem_of_filterb. tauto. Qed.

Lemma lru_set_elem {V} max k v (m : list (string * V)) x : x ∈ lru_set max k v m -> x ∈ m \/ x = (k, v).
Proof.
  unfold lru_set. cbv zeta. intros Hx. assert (x ∈ lru_delete k m ++ [(k, v)]) as H.
  { destruct (_ <? _)%nat; [|done]. destruct (lru_delete k m ++ [(k, v)]); [done|]. by right. }
  apply elem_of_app in H as [H|H]; [left; by eapply lru_delete_sub|right; by apply list_elem_of_singleton].
Qed.

Lemma positive_le x : x <> NaN -> num_le x (of_Z 0) = false -> positive x.
Proof.
  unfold positive, num_le, num_lt, of_Z, Qltb. by destruct x as [|[]|p]; cbn -[Qle_bool]; intros Hx H; rewrite ?H.
Qed.

(** The rates a provider function returns are positive. *)
Lemma fetched_positive env p x u : json_numbers env ->
  (match p with coingecko => _fetchFromCoinGecko (env p) | coinbase => _fetchFromCoinbase (env p) end) = Some (x, u) ->
  positive x /\ positive u.
Proof.
  intros Hj. destruct p.
  - unfold _fetchFromCoinGecko. destruct (env coingecko) as [[[x'|] [u'|]]|] eqn:E; try done.
    destruct (Hj _ _ E) as [Hx Hu]. destruct (_ || _) eqn:Eo; [done|]. apply orb_false_iff in Eo as [Ex Eu].
    intros [= <- <-]. split; apply positive_le; congruence.
  - unfold _fetchFromCoinbase. destruct (env coinbase) as [[x' u']|]; [|done]. cbv zeta.
    destruct (negb _ || _) eqn:Ex; [done|]. destruct (negb (isFinite (default NaN u')) || _) eqn:Eu; [done|].
    apply orb_false_iff in Ex as [Fx Ex]. apply orb_false_iff in Eu as [Fu Eu]. intros [= <- <-].
    split; apply positive_le; try done; intros E; rewrite E in *; done.
Qed.

(** The same caches, whatever happened to the breakers. *)
Definition same_caches (s s' : service) : Prop := s_redis s' = s_redis s /\ s_local s' = s_local s.

Lemma same_caches_ok t s s' : same_caches s s' -> svc_ok t s -> svc_ok t s'.
Proof. intros [Hr Hl] [H1 H2]. split; [by rewrite Hr|by rewrite Hl]. Qed.

Lemma try_provider_spec p now after a s : let r := try_provider p now after a s in
  same_caches s r.2 /\ forall e, r.1 = Some e -> r_fetchedAt e = after /\ r_lastSuccessfulFetch e = after /\
    (match p with coingecko => _fetchFromCoinGecko a | coinbase => _fetchFromCoinbase a end) = Some (r_XLM e, r_USDC e).
Proof.
  cbv zeta. unfold try_provider. destruct (isAvailable _ _) as [b ok]. destruct ok; cbn [negb].
  - destruct (match p with coingecko => _ | coinbase => _ end) as [[x u]|]; destruct p; split; try done; by intros e [= <-].
  - by destruct p.
Qed.

Lemma fetchRates_spec now after env s : json_numbers env -> let r := _fetchRates now after env s in
  same_caches s r.2 /\ forall e, r.1 = Some e -> r_fetchedAt e = after /\ entry_ok after e.
Proof.
  intros Hj. cbv zeta. unfold _fetchRates.
  assert (forall p s e, (try_provider p now after (env p) s).1 = Some e -> r_fetchedAt e = after /\ entry_ok after e) as Hok.
  { intros p s0 e He. apply try_provider_spec in He as (H1 & H2 & H3). apply (fetched_positive env p _ _ Hj) in H3 as [H3 H4].
    split; [done|]. unfold entry_ok. rewrite H1, H2. repeat split; (done || lia). }
  pose proof (try_provider_spec coingecko now after (env coingecko) s) as [Hc _]. pose proof (Hok coingecko s) as Hg.
  destruct (try_provider coingecko _ _ _ s) as [[e|] s1]; cbn in *; [split; [done|]; by intros ? [= <-]; apply Hg|].
  pose proof (try_provider_spec coinbase now after (env coinbase) s1) as [[Hc1 Hc2] _]. destruct Hc as [Hr Hl].
  split; [|by apply Hok]. split; congruence.
Qed.

Lemma both_open_caches now s : same_caches s (both_open now s).2.
Proof. unfold both_open. destruct (isAvailable now (s_gecko s)) as [g []]; [done|]. by destruct (isAvailable now (s_base s)). Qed.

Lemma local_get_ok t key s : svc_ok t s -> let r := local_get key s in
  svc_ok t r.2 /\ forall e, r.1 = Some e -> entry_ok t e.
Proof.
  intros [Hr Hl]. cbv zeta. unfold local_get, lru_get. destruct (lru_find key (s_local s)) as [v|] eqn:E; cbn; [|by destruct s].
  pose proof (lru_find_pair _ _ _ E) as Hv. split; [split; [done|]|intros e [= <-]; eauto].
  cbn. intros k e [H|H]%elem_of_app; [apply lru_delete_sub in H; eauto|]. apply list_elem_of_singleton in H as [= -> ->]. eauto.
Qed.

Lemma readCache_ok t now key s : svc_ok t s -> let r := _readCache now key s in
  svc_ok t r.2 /\ forall e, r.1 = Some e -> entry_ok t e.
Proof.
  intros Hs. cbv zeta. unfold _readCache. destruct (s_redis s) as [keys| |] eqn:Er; try by apply local_get_ok.
  destruct (keys !! key) as [[e exp]|] eqn:Ek; [|by apply local_get_ok]. destruct (now <? exp); [|by apply local_get_ok].
  split; [done|]. intros e' [= <-]. destruct Hs as [Hr _]. rewrite Er in Hr. by eapply Hr.
Qed.

Lemma writeCache_ok t now key e s : svc_ok t s -> entry_ok t e -> svc_ok t (_writeCache now key e s).
Proof.
  intros [Hr Hl] He. split; cbn.
  - unfold redis_ok in *. destruct (s_redis s) as [keys| |]; [|done..]. intros k e' exp.
    rewrite lookup_insert_Some. intros [[_ [= <- <-]]|[_ H]]; eauto.
  - intros k e' [H|[= -> ->]]%lru_set_elem; eauto.
Qed.

(** The age of what a call serves, measured when it starts. *)
Definition served_ok (now after : Z) (v : served) : Prop :=
  entry_ok after (sv_entry v) /\
  now - r_fetchedAt (sv_entry v) < (if sv_stale v then PRICE_STALE_THRESHOLD_MS else CACHE_TTL_MS) /\
  (sv_stale v = true -> CACHE_TTL_MS <= now - r_fetchedAt (sv_entry v)).

Lemma served_ok_intro now after e (st : bool) : entry_ok after e ->
  now - r_fetchedAt e < (if st then PRICE_STALE_THRESHOLD_MS else CACHE_TTL_MS) -> (st = true -> CACHE_TTL_MS <= now - r_fetchedAt e) ->
  served_ok now after (Served e st).
Proof. by unfold served_ok. Qed.

(** The part of [getRates] after the caches were read and found no fresh entry. *)
Lemma refetch_ok now after env key cached s : json_numbers env -> now <= after -> svc_ok after s ->
  let '(r, s3) := _fetchRates now after env s in
  svc_ok after (match r with Some e => _writeCache after key e s3 | None => s3 end) /\
  (forall e, r = Some e -> served_ok now after (Served e false)) /\
  (entry_ok after cached -> CACHE_TTL_MS <= now - r_fetchedAt cached -> still_usable after cached = true -> served_ok now after (Served cached true)).
Proof.
  intros Hj Ht Hs. pose proof (fetchRates_spec now after env s Hj) as [Hc Hf]. destruct (_fetchRates now after env s) as [r s3].
  cbn in Hc, Hf. pose proof (same_caches_ok _ _ _ Hc Hs) as Hs3. split; [|split].
  - destruct r as [e|]; [|done]. destruct (Hf e eq_refl). by apply writeCache_ok.
  - intros e ->. destruct (Hf e eq_refl) as [H1 H2]. apply served_ok_intro; [done| |done]. rewrite H1. unfold CACHE_TTL_MS. lia.
  - intros He Hage Hu. apply served_ok_intro; [done| |done]. unfold still_usable in Hu. destruct He as (_ & _ & E & _). rewrite E in Hu.
    apply Z.ltb_lt in Hu. lia.
Qed.

Lemma getRates_ok now after env c s : json_numbers env -> now <= after -> svc_ok now s ->
  svc_ok after (getRates now after env c s).2 /\ forall v, (getRates now after env c s).1 = Ok (Some v) -> served_ok now after v.
Proof.
  intros Hj Ht Hs. unfold getRates. cbv zeta. destruct (negb (_isCurrencyAllowed _)); [split; [by eapply svc_ok_mono|done]|].
  pose proof (readCache_ok now now (toUpperCase c) s Hs) as [Hs1 Hc]. destruct (_readCache now (toUpperCase c) s) as [cached s1].
  cbn in Hs1, Hc. pose proof (svc_ok_mono now after s1 Ht Hs1) as Hs1'.
  pose proof (both_open_caches now s1) as Hb. destruct (both_open now s1) as [bo s2]. cbn in Hb.
  pose proof (same_caches_ok _ _ _ Hb Hs1') as Hs2. destruct cached as [e|].
  - pose proof (entry_ok_mono now after e Ht (Hc e eq_refl)) as He. pose proof (refetch_ok now after env (toUpperCase c) e s2 Hj Ht Hs2) as Hf.
    destruct (Z.ltb_spec (now - r_fetchedAt e) CACHE_TTL_MS) as [Hl|Hl].
    { split; [done|]. intros v [= <-]. by apply served_ok_intro. }
    destruct (bo && still_usable now e) eqn:Eb.
    { split; [done|]. intros v [= <-]. apply andb_true_iff in Eb as [_ Eb]. unfold still_usable in Eb.
      apply served_ok_intro; [done| |done]. destruct He as (_ & _ & E & _). rewrite E in Eb. by apply Z.ltb_lt in Eb. }
    destruct (_fetchRates now after env s2) as [r s3]. destruct Hf as (Hf1 & Hf2 & Hf3).
    destruct r as [e'|]; (split; [done|]); cbn; intros v; [intros [= <-]; by apply Hf2|].
    destruct (still_usable after e) eqn:Eu; intros [= <-]. by apply Hf3.
  - pose proof (refetch_ok now after env (toUpperCase c) (RateEntry NaN NaN 0 0 coinbase) s2 Hj Ht Hs2) as Hf.
    destruct (_fetchRates now after env s2) as [r s3]. destruct Hf as (Hf1 & Hf2 & _).
    destruct r as [e'|]; (split; [done|]); cbn; intros v [= <-]. by apply Hf2.
Qed.

Lemma reach_ok t s : reach t s -> svc_ok t s.
Proof.
  induction 1 as [g b|t t' s r Hr IH Ht Hok|t now after env c s Hr IH Ht Hj].
  - split; [done|]. intros k e H. by apply not_elem_of_nil in H.
  - split; [done|]. destruct (svc_ok_mono t t' s Ht IH) as [_ H]. apply H.
  - apply getRates_ok; [done|lia|]. apply (svc_ok_mono t); [lia|done].
Qed.

(** Whatever calls, Redis outages and writes of other replicas came before, a rate
    that is served is positive and was fetched from a provider: less than a minute
    ago when it is not marked stale, and otherwise between a minute and an hour
    ago; an older rate is never served. *)
Theorem served_rate_recent t s now after env c v : reach t s -> t <= now <= after -> json_numbers env ->
  (getRates now after env c s).1 = Ok (Some v) -> served_ok now after v.
Proof.
  intros Hr Ht Hj Hv. refine (proj2 (getRates_ok now after env c s Hj _ _) v Hv); [lia|].
  apply (svc_ok_mono t); [lia|by apply reach_ok].
Qed.

Lemma unavailable_idem now b : (isAvailable now b).2 = false -> isAvailable now b = (b, false).
Proof. unfold isAvailable. destruct (state b); try done. by destruct (_ <=? _). Qed.

Lemma readCache_breakers now key s : let s1 := (_readCache now key s).2 in
  s_gecko s1 = s_gecko s /\ s_base s1 = s_base s /\ s_asked s1 = s_asked s.
Proof.
  cbv zeta. unfold _readCache, local_get. destruct (s_redis s) as [keys| |]; [destruct (keys !! key) as [[e exp]|]; [destruct (now <? exp)|]|..]; try done;
    by destruct (lru_get key (s_local s)).
Qed.

(** While both breakers refuse, a call contacts no provider, whatever the caches
    hold. *)
Theorem open_breakers_contact_nobody now after env c s :
  (isAvailable now (s_gecko s)).2 = false -> (isAvailable now (s_base s)).2 = false ->
  s_asked (getRates now after env c s).2 = s_asked s.
Proof.
  intros Hg Hb. unfold getRates. cbv zeta. destruct (negb (_isCurrencyAllowed _)); [done|].
  pose proof (readCache_breakers now (toUpperCase c) s) as (Eg & Eb & Ea). destruct (_readCache now _ s) as [cached s1]. cbn in Eg, Eb, Ea.
  apply unavailable_idem in Hg, Hb. rewrite <- Eg in Hg. rewrite <- Eb in Hb. rewrite <- Ea.
  assert (both_open now s1 = (true, s1)) as -> by (unfold both_open; rewrite Hg, Hb; by destruct s1).
  assert (_fetchRates now after env s1 = (None, s1)) as ->.
  { unfold _fetchRates, try_provider. rewrite Hg. cbn. rewrite Hb. cbn. rewrite !app_nil_r. by destruct s1. }
  destruct cached as [e|]; [|done]. destruct (_ <? CACHE_TTL_MS); [done|]. by destruct (true && _).
Qed.

(** ** Conversion *)
Section Conversion.
Context `{DL : DecimalLib}.

Definition _decimalMultiply (amount rate : number) (currency : string) : number :=
  dec_toNumber (dec_toDP (decimals currency) (dec_mul (dec_of_number amount) (dec_of_number rate))).

(** A converted amount is the exact product of amount and rate rounded once, half
    up, to the minor unit of the currency, whenever the product has at most twenty
    digits. *)
Theorem conversion_rounds_once z rate q c : Z.abs z < 10 ^ 15 -> denotes (dec_of_number rate) q -> fits20 ((z # 10000000) * q) ->
  _decimalMultiply (to_double (z # 10000000)) rate c = to_double (round_half_up (decimals c) ((z # 10000000) * q)).
Proof.
  intros Hz Hq Hf. unfold _decimalMultiply. apply toNumber_denotes, toDP_denotes.
  pose proof (dec_of_number_stroops z Hz) as Ha.
  destruct (denotes_val _ _ Ha) as (a' & Ea & Qa). destruct (denotes_val _ _ Hq) as (q' & Eq & Qq).
  rewrite <- Qa, <- Qq in Hf. pose proof (dec_mul_exact _ _ _ _ Ea Eq Hf) as H. unfold denotes. etransitivity; [exact H|].
  cbn. by rewrite Qa, Qq.
Qed.

Record conversion := Conversion {
  localAmount : option number; cv_currency : string; cv_rate : option number; rateTimestamp : option Z; available : bool; cv_stale : bool
}.

Definition convertToLocalCurrency (now after : Z) (env : provider -> answer) (amount : number) (assetCode targetCurrency : string) (s : service)
    : conversion * service :=
  let currency := toUpperCase targetCurrency in
  if negb (_isCurrencyAllowed currency) then (Conversion None currency None None false false, s) else
  match getRates now after env currency s with
  | (Throw _, s') | (Ok None, s') => (Conversion None currency None None false false, s')
  | (Ok (Some v), s') =>
    let e := sv_entry v in
    let rate := if (assetCode =? "USDC")%string then r_USDC e else r_XLM e in
    if num_le rate (of_Z 0) then (Conversion None currency None (Some (r_fetchedAt e)) false (sv_stale v), s')
    else (Conversion (Some (_decimalMultiply amount rate currency)) currency (Some rate) (Some (r_fetchedAt e)) true (sv_stale v), s')
  end.

Record snapshot := Snapshot { fiatAmount : number; fiatCurrency : string; fiatRate : option number; fs_rateTimestamp : Z }.

Definition captureFiatSnapshot (now after : Z) (env : provider -> answer) (amount : number) (assetCode currency : string) (s : service)
    : option snapshot * service :=
  let '(c, s') := convertToLocalCurrency now after env amount assetCode currency s in
  (match localAmount c with
   | Some x => if available c then Some (Snapshot x (cv_currency c) (cv_rate c) (default after (rateTimestamp c))) else None
   | None => None
   end, s').
End Conversion.
End Rates.

(** ** The hypotheses can hold *)

Lemma recent_rates_kept_witness :
  let m := lru_run 2 [LGet "GBP"; LSet "JPY" 4; LGet "GBP"; LGet "JPY"; LSet "JPY" 5] (lru_set 2 "GBP" 3 [("USD", 1); ("EUR", 2)]) in
  (length m <= 2)%nat /\ lru_find "GBP" m = Some 3.
Proof.
  apply (recent_rates_kept 2 "GBP" 3 [("USD", 1); ("EUR", 2)]).
  - split; [by_decision|cbn; lia].
  - intros o Ho Hk. repeat (apply elem_of_cons in Ho as [-> | Ho]; [by first [reflexivity|discriminate Hk]|]). by apply not_elem_of_nil in Ho.
  - vm_compute. lia.
Defined.

Definition demo_breaker : breaker := constructor (Some 3) (Some 60000) (Some 2).
(** CoinGecko answers with rates in a euro-like currency; nobody answers. *)
Definition demo_env (p : provider) : answer :=
  match p with coingecko => Some (Some (to_double (1 # 10)), Some (to_double (9 # 10))) | coinbase => None end.
Definition silent_env (p : provider) : answer := None.
Definition demo_start : service := Service Down [] demo_breaker demo_breaker [].
Definition demo_service : service := (getRates 50 _DEFAULT_ALLOWED_FIAT 1000 1200 demo_env "eur" demo_start).2.

(** Ten minutes after a successful fetch both providers are silent: the cached rate
    is served, marked stale. *)
Lemma served_rate_recent_witness :
  served_ok 601200 605000 (Served (RateEntry (to_double (1 # 10)) (to_double (9 # 10)) 1200 1200 coingecko) true).
Proof.
  apply (served_rate_recent 50 _DEFAULT_ALLOWED_FIAT 1200 demo_service 601200 605000 silent_env "EUR").
  - apply (reach_call _ _ 0); [apply reach_start|lia|]. intros x u [= <- <-]. split; vm_compute; congruence.
  - lia.
  - intros x u [=].
  - vm_compute. reflexivity.
Defined.

(** 12.5 units at 0.11 are 1.38 in a currency with cents (1.375 rounds up). *)
Lemma conversion_rounds_once_witness :
  _decimalMultiply (DL := exact_decimal) (to_double (125000000 # 10000000)) (to_double (1100000 # 10000000)) "USD"
  = to_double (round_half_up 2 ((125000000 # 10000000) * (1100000 # 10000000))).
Proof.
  apply (conversion_rounds_once (DL := exact_decimal) 125000000 (to_double (1100000 # 10000000)) (1100000 # 10000000) "USD").
  - lia.
  - apply (dec_of_number_stroops (DecimalLib := exact_decimal) 1100000). lia.
  - exists 1375, (-3). split; [lia|]. reflexivity.
Defined.

Example conversion_rounds_once_value :
  _decimalMultiply (DL := exact_decimal) (to_double (125000000 # 10000000)) (to_double (1100000 # 10000000)) "USD" = to_double (138 # 100).
Proof. vm_compute. reflexivity. Qed.
End Currency.
