(* ===== verification/HorizonFailover.v ===== *)
(** Horizon endpoints: backend/src/services/horizonFailoverClient.js.

    The list of endpoints from the environment, the breaker of each endpoint and
    the call that fails over between them.  What an endpoint answers is a
    parameter and one call runs at a time; metrics, spans and the status report
    are left out. *)

From Stdlib Require Import Ascii ZArith Lia.
From stdpp Require Import base list strings.
From S2P Require Import Prelude JsNumber JsString CircuitBreaker StellarRetry.
Local Open Scope string_scope.
Local Open Scope Z_scope.
Local Open Scope list_scope.

Module HorizonFailover.
Import StellarRetry.

(** ** Configuration *)

(** [s.split(",")], as lists of characters. *)
Fixpoint split_comma (l : list ascii) : list (list ascii) :=
  match l with
  | [] => [[]]
  | c :: l' =>
    if (c =? ",")%char then [] :: split_comma l'
    else match split_comma l' with w :: ws => (c :: w) :: ws | [] => [[c]] end
  end.

(** The environment: STELLAR_HORIZON_URLS, STELLAR_HORIZON_URL, HORIZON_URL and
    the configured default. *)
Record env := Env { e_URLS : option string; e_URL : option string; e_HORIZON_URL : option string; c_HORIZON_URL : option string }.

Definition opt_str_or (a : option string) (d : string) : string := match a with Some s => str_or s d | None => d end.

Definition fallback_url (e : env) : string :=
  opt_str_or e.(e_URL) (opt_str_or e.(e_HORIZON_URL) (opt_str_or e.(c_HORIZON_URL) "https://horizon.stellar.org")).

Definition resolveHorizonUrls (e : env) : list string :=
  let urls := match e.(e_URLS) with
              | Some raw => List.filter str_truthy (map (fun w => text (trim w)) (split_comma (chars raw)))
              | None => []
              end in
  match urls with [] => [fallback_url e] | _ => urls end.

(** ** Failures *)

(** The status is read from the response first; zero counts as absent. *)
Definition isTransientFailure (err : herror) : bool :=
  let status := getStatus err in
  unavailable_status status || network_code err.(e_code) || network_message err.(e_message).

(** ** The breaker of an endpoint *)

Record breaker := Breaker { state : CB_STATE; failures : Z; halfOpenSuccesses : Z; openedAt : option Z }.

Definition new_breaker : breaker := Breaker CLOSED 0 0 None.

Section Client.
Variables CB_FAILURE_THRESHOLD CB_RESET_TIMEOUT_MS CB_HALF_OPEN_SUCCESS_THRESHOLD : Z.

Definition isAvailable (now : Z) (b : breaker) : breaker * bool :=
  match b.(state) with
  | CLOSED | HALF_OPEN => (b, true)
  | OPEN => if CB_RESET_TIMEOUT_MS <=? now - default 0 b.(openedAt)
            then (Breaker HALF_OPEN b.(failures) b.(halfOpenSuccesses) b.(openedAt), true) else (b, false)
  end.

Definition recordSuccess (b : breaker) : breaker :=
  match b.(state) with
  | HALF_OPEN =>
    let h := b.(halfOpenSuccesses) + 1 in
    if CB_HALF_OPEN_SUCCESS_THRESHOLD <=? h then Breaker CLOSED 0 0 b.(openedAt)
    else Breaker HALF_OPEN b.(failures) h b.(openedAt)
  | s => Breaker s 0 b.(halfOpenSuccesses) b.(openedAt)
  end.

Definition recordFailure (now : Z) (b : breaker) : breaker :=
  let f := b.(failures) + 1 in
  if bool_decide (b.(state) = HALF_OPEN) || (CB_FAILURE_THRESHOLD <=? f)
  then Breaker OPEN f 0 (Some now) else Breaker b.(state) f 0 b.(openedAt).

(** ** The client *)

(** One breaker per URL, in order of priority, and the endpoint in use. *)
Record client := Client { servers : list breaker; activeIndex : nat }.

Definition new_client (urls : list string) : client := Client (map (fun _ => new_breaker) urls) 0.

(** [_nextAvailableIndex]: the first available endpoint in cyclic order from
    [start], looking at [left] endpoints; a lapsed breaker it meets becomes
    half open. *)
Fixpoint next_from (now : Z) (start left : nat) (ss : list breaker) : list breaker * option nat :=
  match left with
  | O => (ss, None)
  | S left' =>
    let idx := (start mod length ss)%nat in
    match ss !! idx with
    | None => (ss, None)
    | Some b => let '(b', ok) := isAvailable now b in
                let ss' := <[idx := b']> ss in
                if ok then (ss', Some idx) else next_from now (S start) left' ss'
    end
  end.

Definition _nextAvailableIndex (now : Z) (start : nat) (ss : list breaker) : list breaker * option nat :=
  next_from now start (length ss) ss.

Inductive failure := ALL_UNAVAILABLE | ALL_FAILED | Surfaced (err : herror).

Section Call.
Context {A : Type}.
(** What endpoint [i] answers when it is asked, and when that answer comes. *)
Variable fn : nat -> result herror A.
Variable at_ : nat -> Z.

(** The loop of [call]: [tried] are the endpoints asked so far, latest first. *)
Fixpoint call_loop (fuel : nat) (cur : nat) (tried : list nat) (c : client) : client * list nat * result failure A :=
  match fuel with
  | O => (c, tried, Throw ALL_FAILED)
  | S fuel' =>
    if negb (length tried <? length c.(servers))%nat || bool_decide (cur ∈ tried) then (c, tried, Throw ALL_FAILED) else
    let tried := cur :: tried in
    let b := default new_breaker (c.(servers) !! cur) in
    match fn cur with
    | Ok a => (Client (<[cur := recordSuccess b]> c.(servers)) cur, tried, Ok a)
    | Throw err =>
      if isTransientFailure err then
        let ss := <[cur := recordFailure (at_ cur) b]> c.(servers) in
        let '(ss', next) := _nextAvailableIndex (at_ cur) (cur + 1) ss in
        match next with
        | None => (Client ss' c.(activeIndex), tried, Throw (Surfaced err))
        | Some n => if (n =? cur)%nat then (Client ss' c.(activeIndex), tried, Throw (Surfaced err))
                    else call_loop fuel' n tried (Client ss' n)
        end
      else (c, tried, Throw (Surfaced err))
    end
  end.

(** [call(fn)] at time [now]: the endpoints asked come back, latest first. *)
Definition call (now : Z) (c : client) : client * list nat * result failure A :=
  let cur := c.(activeIndex) in
  match c.(servers) !! cur with
  | None => (c, [], Throw ALL_UNAVAILABLE)
  | Some b =>
    let '(b', ok) := isAvailable now b in
    let ss := <[cur := b']> c.(servers) in
    if ok then call_loop (S (length ss)) cur [] (Client ss cur)
    else let '(ss', next) := _nextAvailableIndex now cur ss in
         match next with
         | None => (Client ss' cur, [], Throw ALL_UNAVAILABLE)
         | Some n => call_loop (S (length ss')) n [] (Client ss' n)
         end
  end.

(** ** What a call does *)

Definition sane (c : client) : Prop := (c.(activeIndex) < length c.(servers))%nat.

(** Asked in vain: the endpoint answered with a failure that lets the next be
    tried. *)
Definition in_vain (i : nat) : Prop := exists e, fn i = Throw e /\ isTransientFailure e = true.

Lemma isAvailable_closed now b : b.(state) <> OPEN -> isAvailable now b = (b, true).
Proof. unfold isAvailable. by destruct (state b). Qed.

Lemma next_from_range now left : forall start ss,
  let r := next_from now start left ss in
  length r.1 = length ss /\ forall n, r.2 = Some n -> (n < length ss)%nat.
Proof.
  induction left as [|left IH]; intros start ss; cbn [next_from]; [done|].
  destruct (ss !! (start mod length ss)%nat) as [b|] eqn:E; [|done]. destruct (isAvailable now b) as [b' ok].
  apply lookup_lt_Some in E. destruct ok; cbn.
  - rewrite length_insert. split; [done|]. by intros n [= <-].
  - destruct (IH (S start) (<[(start mod length ss)%nat:=b']> ss)) as [H1 H2]. rewrite length_insert in H1, H2. done.
Qed.

(** How the loop ends, whatever the breakers say. *)
Definition call_ends (n : nat) (c' : client) (tried : list nat) (r : result failure A) : Prop :=
  NoDup tried /\ (forall i, i ∈ tried -> (i < n)%nat) /\ length c'.(servers) = n /\ sane c' /\
  match r with
  | Ok a => exists i rest, tried = i :: rest /\ fn i = Ok a /\ activeIndex c' = i /\ Forall in_vain rest
  | Throw (Surfaced e) => exists i rest, tried = i :: rest /\ fn i = Throw e /\ Forall in_vain rest
  | Throw ALL_FAILED => tried <> [] /\ Forall in_vain tried
  | Throw ALL_UNAVAILABLE => tried = []
  end.

Lemma call_loop_ends fuel : forall cur tried c, sane c -> (cur < length (servers c))%nat -> activeIndex c = cur ->
  NoDup tried -> (forall i, i ∈ tried -> (i < length (servers c))%nat) -> Forall in_vain tried ->
  (length (servers c) < fuel + length tried)%nat -> (tried = [] -> 0 < fuel)%nat ->
  let '(c', tried', r) := call_loop fuel cur tried c in call_ends (length (servers c)) c' tried' r.
Proof.
  induction fuel as [|fuel IH]; intros cur tried c Hs Hc Ha Hn Hb Hv Hf Hf0; cbn [call_loop].
  - repeat split; try done. intros ->. specialize (Hf0 eq_refl). lia.
  - destruct (negb _ || _) eqn:Eg.
    { repeat split; try done. intros ->. rewrite bool_decide_false, orb_false_r in Eg by apply not_elem_of_nil.
      apply negb_true_iff, Nat.ltb_ge in Eg. cbn [length] in Eg. unfold sane in Hs. lia. }
    apply orb_false_iff in Eg as [_ Hnew]. apply bool_decide_eq_false in Hnew.
    assert (NoDup (cur :: tried)) as Hn' by by constructor.
    assert (forall i, i ∈ cur :: tried -> (i < length (servers c))%nat) as Hb' by (intros i [->|Hi]%elem_of_cons; eauto).
    destruct (fn cur) as [a|err] eqn:Ef.
    { split; [done|]. split; [done|]. unfold sane. cbn. rewrite length_insert. repeat split; try done. by exists cur, tried. }
    destruct (isTransientFailure err) eqn:Et.
    2: { repeat split; try done. by exists cur, tried. }
    set (ss := <[cur := _]> (servers c)). assert (length ss = length (servers c)) as Hl by apply length_insert.
    unfold _nextAvailableIndex. pose proof (next_from_range (at_ cur) (length ss) (cur + 1) ss) as [H1 H2].
    destruct (next_from (at_ cur) (cur + 1) (length ss) ss) as [ss' [n|]]; cbn in H1, H2.
    + specialize (H2 n eq_refl). destruct (Nat.eqb_spec n cur) as [->|Hne].
      { unfold call_ends, sane. cbn. rewrite H1, Hl. unfold sane in Hs. repeat split; try done. by exists cur, tried. }
      specialize (IH n (cur :: tried) (Client ss' n)). cbn [servers activeIndex] in IH. rewrite H1, Hl in IH.
      apply IH; try done; [unfold sane; cbn; lia|lia|constructor; [by exists err|done]|cbn [length]; lia].
    + unfold call_ends, sane. cbn. rewrite H1, Hl. unfold sane in Hs. repeat split; try done. by exists cur, tried.
Qed.

Lemma call_loop_start ss cur L : length ss = L -> (cur < L)%nat ->
  let '(c', tried', r) := call_loop (S (length ss)) cur [] (Client ss cur) in call_ends L c' tried' r.
Proof.
  intros <- Hc. apply (call_loop_ends (S (length ss)) cur [] (Client ss cur)); try done; cbn [servers];
    [constructor|intros i Hi; by apply not_elem_of_nil in Hi|lia|lia].
Qed.

(** A call asks each endpoint at most once and ends: it answers with the first
    answer it gets and stays on that endpoint; every endpoint asked before it
    failed transiently; an error that is not transient is surfaced at once; and
    only when nothing could be asked or all that was asked failed transiently does
    it report that the endpoints are unavailable. *)
Theorem call_asks_each_once now c : sane c ->
  let '(c', tried, r) := call now c in call_ends (length (servers c)) c' tried r.
Proof.
  intros Hs. unfold call. destruct (servers c !! activeIndex c) as [b|] eqn:Eb.
  2: { apply lookup_ge_None in Eb. unfold sane in Hs. lia. }
  destruct (isAvailable now b) as [b' ok]. set (ss := <[_ := b']> (servers c)).
  assert (length ss = length (servers c)) as Hl by apply length_insert. destruct ok; [by apply call_loop_start|].
  unfold _nextAvailableIndex. pose proof (next_from_range now (length ss) (activeIndex c) ss) as [H1 H2].
  destruct (next_from now (activeIndex c) (length ss) ss) as [ss' [n|]]; cbn in H1, H2.
  - specialize (H2 n eq_refl). apply call_loop_start; [congruence|]. by rewrite <- Hl.
  - unfold call_ends, sane in *. cbn. rewrite H1, Hl. repeat split; try done; [constructor|]. intros i Hi. by apply not_elem_of_nil in Hi.
Qed.

(** ** A healthy endpoint is found *)

Lemma mod_step_inj n s j k : (j < k < n)%nat -> ((s + j) mod n <> (s + k) mod n)%nat.
Proof.
  intros Hk E. pose proof (Nat.div_mod_eq (s + j) n). pose proof (Nat.div_mod_eq (s + k) n). rewrite E in *.
  assert (k - j = n * ((s + k) / n - (s + j) / n))%nat by nia. nia.
Qed.

(** Looking from [start], nothing beyond the first closed breaker is chosen. *)
Lemma next_from_finds now h left : forall start ss k b, ss !! h = Some b -> b.(state) <> OPEN -> (k < left)%nat ->
  h = ((start + k) mod length ss)%nat ->
  exists k' ss', next_from now start left ss = (ss', Some ((start + k') mod length ss)%nat) /\ (k' <= k)%nat /\
    length ss' = length ss /\ ss' !! h = Some b.
Proof.
  induction left as [|left IH]; intros start ss k b Hb Hst Hk Eh; [lia|]. cbn [next_from].
  assert (0 < length ss)%nat as Hpos by (apply lookup_lt_Some in Hb; lia).
  destruct (lookup_lt_is_Some_2 ss (start mod length ss)) as [b0 Eb0]; [apply Nat.mod_upper_bound; lia|]. rewrite Eb0.
  destruct (decide ((start mod length ss)%nat = h)) as [E|E].
  - rewrite E in *. assert (b0 = b) as -> by congruence. rewrite (isAvailable_closed now b Hst).
    exists 0%nat, (<[h := b]> ss). rewrite Nat.add_0_r, E, length_insert, list_insert_id by done. repeat split; (done || lia).
  - destruct (isAvailable now b0) as [b1 ok]. destruct ok.
    + exists 0%nat, (<[(start mod length ss)%nat := b1]> ss). rewrite Nat.add_0_r, length_insert, list_lookup_insert_ne by done.
      repeat split; (done || lia).
    + destruct k as [|k]; [rewrite Nat.add_0_r in Eh; congruence|].
      destruct (IH (S start) (<[(start mod length ss)%nat := b1]> ss) k b) as (k' & ss' & E1 & Hk' & Hl & Hb'); try done;
        rewrite ?length_insert in *; [by rewrite list_lookup_insert_ne|lia|by rewrite Nat.add_succ_comm|].
      exists (S k'), ss'. rewrite <- Nat.add_succ_comm. repeat split; try done. lia.
Qed.

Lemma call_loop_reaches h a s K fuel : forall k tried ss b, (K < length ss)%nat -> h = ((s + K) mod length ss)%nat -> (k <= K)%nat ->
  (forall i e, fn i = Throw e -> isTransientFailure e = true) -> fn h = Ok a ->
  ss !! h = Some b -> b.(state) <> OPEN -> (K < fuel + k)%nat -> (length tried <= k)%nat ->
  (forall t, t ∈ tried -> exists j, (j < k)%nat /\ t = ((s + j) mod length ss)%nat) ->
  exists a', (call_loop fuel ((s + k) mod length ss) tried (Client ss ((s + k) mod length ss))).2 = Ok a'.
Proof.
  induction fuel as [|fuel IH]; intros k tried ss b HK Eh Hk Htr Hfh Hb Hst Hf Hlen Htried; [lia|]. cbn [call_loop].
  set (cur := ((s + k) mod length ss)%nat).
  assert ((length tried <? length ss)%nat = true) as E1 by (apply Nat.ltb_lt; lia). cbn [servers activeIndex]. rewrite E1.
  assert (cur ∉ tried) as Hnew. { intros (j & Hj & E)%Htried. apply (mod_step_inj (length ss) s j k); [lia|]. by rewrite <- E. }
  rewrite bool_decide_false by done. cbn [negb orb]. destruct (fn cur) as [x|e] eqn:Ef; [by exists x|]. rewrite (Htr cur e Ef).
  assert (cur <> h) as Hne by congruence.
  assert (k < K)%nat as Hlt by (destruct (decide (k = K)) as [->|]; [by rewrite Eh in Hne|lia]).
  set (ss1 := <[cur := _]> ss). assert (length ss1 = length ss) as Hl1 by apply length_insert.
  destruct (next_from_finds (at_ cur) h (length ss1) (cur + 1) ss1 (K - k - 1) b) as (k' & ss2 & E2 & Hk' & Hl2 & Hb2); try done.
  { unfold ss1. by rewrite list_lookup_insert_ne. }
  { lia. }
  { rewrite Hl1, Eh. unfold cur. rewrite <- Nat.add_assoc, Nat.Div0.add_mod_idemp_l. f_equal. lia. }
  unfold _nextAvailableIndex. rewrite E2.
  assert (((cur + 1 + k') mod length ss1)%nat = ((s + (k + 1 + k')) mod length ss2)%nat) as ->.
  { rewrite Hl2, Hl1. unfold cur. rewrite <- (Nat.add_assoc _ 1 k'), Nat.Div0.add_mod_idemp_l. f_equal. lia. }
  rewrite Hl2, Hl1. destruct (Nat.eqb_spec ((s + (k + 1 + k')) mod length ss) cur) as [Eq|_].
  { exfalso. apply (mod_step_inj (length ss) s k (k + 1 + k')); [lia|]. by rewrite Eq. }
  rewrite <- Hl1, <- Hl2. apply (IH (k + 1 + k')%nat (cur :: tried) ss2 b); rewrite ?Hl2, ?Hl1; cbn [length]; try done; try lia.
  intros t [->|Ht]%elem_of_cons; [exists k; split; [lia|done]|]. destruct (Htried t Ht) as (j & Hj & ->). exists j. split; [lia|done].
Qed.

(** As long as one endpoint is healthy the call succeeds: if some endpoint whose
    breaker is not open would answer, and failures are transient, then the call
    answers, whatever the state of the other breakers and wherever it starts. *)
Theorem healthy_endpoint_is_reached now c h b a : sane c -> servers c !! h = Some b -> b.(state) <> OPEN -> fn h = Ok a ->
  (forall i e, fn i = Throw e -> isTransientFailure e = true) -> exists a', (call now c).2 = Ok a'.
Proof.
  intros Hs Hb Hst Hfh Htr. unfold sane in Hs. pose proof (lookup_lt_Some _ _ _ Hb) as Hh. unfold call.
  destruct (servers c !! activeIndex c) as [b0|] eqn:E0; [|apply lookup_ge_None in E0; lia].
  set (n := length (servers c)) in *. set (cur := activeIndex c) in *.
  assert (exists K, (K < n)%nat /\ h = ((cur + K) mod n)%nat) as (K & HK & Eh).
  { exists ((h + (n - cur)) mod n)%nat. split; [apply Nat.mod_upper_bound; lia|]. rewrite Nat.Div0.add_mod_idemp_r.
    replace (cur + (h + (n - cur)))%nat with (h + 1 * n)%nat by lia. by rewrite Nat.Div0.mod_add, Nat.mod_small. }
  assert (forall ss m k b, length ss = n -> m = ((cur + k) mod n)%nat -> (k <= K)%nat -> ss !! h = Some b -> b.(state) <> OPEN ->
    exists a', (call_loop (S (length ss)) m [] (Client ss m)).2 = Ok a') as Hgo.
  { intros ss m k b1 Hl Em Hk Hb1 Hs1. rewrite Em, Hl. rewrite <- Hl. apply (call_loop_reaches h a cur K _ k [] ss b1); rewrite ?Hl; try done; try lia.
    - cbn [length]. lia.
    - intros t Ht. by apply not_elem_of_nil in Ht. }
  assert (cur = ((cur + 0) mod n)%nat) as Ecur by (rewrite Nat.add_0_r, Nat.mod_small; lia).
  destruct (decide (cur = h)) as [E|E].
  - assert (b0 = b) as -> by (rewrite E in E0; congruence). rewrite (isAvailable_closed now b Hst).
    apply (Hgo _ cur 0%nat b); [by rewrite length_insert|done|lia| |done]. rewrite E. by rewrite list_lookup_insert_eq by (unfold n in Hh; lia).
  - destruct (isAvailable now b0) as [b1 ok]. set (ss := <[cur := b1]> (servers c)).
    assert (ss !! h = Some b) as Hb' by (unfold ss; by rewrite list_lookup_insert_ne). assert (length ss = n) as Hl by apply length_insert.
    destruct ok; [by apply (Hgo ss cur 0%nat b); try lia|].
    destruct (next_from_finds now h (length ss) cur ss K b) as (k' & ss2 & E2 & Hk' & Hl2 & Hb2); try done; [lia|by rewrite Hl|].
    unfold _nextAvailableIndex. rewrite E2. apply (Hgo ss2 _ k' b); [congruence|by rewrite Hl|done|done|done].
Qed.

(** ** An open endpoint is spared *)

Lemma next_from_spares now i b left : forall start ss, isAvailable now b = (b, false) -> ss !! i = Some b ->
  (next_from now start left ss).1 !! i = Some b /\ (next_from now start left ss).2 <> Some i.
Proof.
  induction left as [|left IH]; intros start ss Hb Hi; cbn [next_from]; [done|].
  destruct (ss !! (start mod length ss)%nat) as [b0|] eqn:E; [|done].
  destruct (decide ((start mod length ss)%nat = i)) as [Ei|Ei].
  - rewrite Ei in *. assert (b0 = b) as -> by congruence. rewrite Hb. rewrite list_insert_id by done. by apply IH.
  - destruct (isAvailable now b0) as [b1 []].
    + cbn. rewrite list_lookup_insert_ne by done. split; [done|congruence].
    + apply IH; [done|]. by rewrite list_lookup_insert_ne.
Qed.

Lemma call_loop_spares i b fuel : (forall j, isAvailable (at_ j) b = (b, false)) ->
  forall cur tried c, servers c !! i = Some b -> cur <> i -> i ∉ tried -> i ∉ (call_loop fuel cur tried c).1.2.
Proof.
  intros Hb. induction fuel as [|fuel IH]; intros cur tried c Hi Hne Ht; cbn [call_loop]; [done|].
  destruct (_ || _); [done|]. assert (i ∉ cur :: tried) as Ht' by (apply not_elem_of_cons; done).
  destruct (fn cur) as [a|err]; [done|]. destruct (isTransientFailure err); [|done].
  unfold _nextAvailableIndex. set (ss := <[cur := _]> (servers c)).
  assert (ss !! i = Some b) as Hss by (unfold ss; by rewrite list_lookup_insert_ne).
  pose proof (next_from_spares (at_ cur) i b (length ss) (cur + 1) ss (Hb cur) Hss) as [H1 H2].
  destruct (next_from _ _ _ ss) as [ss' [n|]]; [|done]. destruct (n =? cur)%nat; [done|]. apply IH; [done| |done]. cbn in H2. congruence.
Qed.

(** An endpoint whose breaker is open is not asked until its timeout has passed,
    during the whole call. *)
Theorem open_endpoint_is_spared now c i b t : servers c !! i = Some b -> b.(state) = OPEN -> b.(openedAt) = Some t ->
  now - t < CB_RESET_TIMEOUT_MS -> (forall j, at_ j - t < CB_RESET_TIMEOUT_MS) -> i ∉ (call now c).1.2.
Proof.
  intros Hi Ho Ht Hn Ha.
  assert (forall x, x - t < CB_RESET_TIMEOUT_MS -> isAvailable x b = (b, false)) as Hb.
  { intros x Hx. unfold isAvailable. rewrite Ho, Ht. cbn. destruct (Z.leb_spec CB_RESET_TIMEOUT_MS (x - t)); [lia|done]. }
  unfold call. destruct (servers c !! activeIndex c) as [b0|] eqn:E0; [|apply not_elem_of_nil].
  assert (forall ss n, ss !! i = Some b -> n <> i -> i ∉ (call_loop (S (length ss)) n [] (Client ss n)).1.2) as Hgo.
  { intros ss n Hss Hne. apply (call_loop_spares i b); [intros j; by apply Hb|done|done|apply not_elem_of_nil]. }
  destruct (decide (activeIndex c = i)) as [E|E].
  - assert (b0 = b) as -> by congruence. rewrite (Hb now Hn), list_insert_id by done.
    unfold _nextAvailableIndex. pose proof (next_from_spares now i b (length (servers c)) (activeIndex c) (servers c) (Hb now Hn) Hi) as [H1 H2].
    destruct (next_from _ _ _ _) as [ss' [n|]]; [|apply not_elem_of_nil]. apply Hgo; [done|]. cbn in H2. congruence.
  - destruct (isAvailable now b0) as [b1 ok]. set (ss := <[_ := b1]> (servers c)).
    assert (ss !! i = Some b) as Hss by (unfold ss; by rewrite list_lookup_insert_ne). destruct ok; [by apply Hgo|].
    unfold _nextAvailableIndex. pose proof (next_from_spares now i b (length ss) (activeIndex c) ss (Hb now Hn) Hss) as [H1 H2].
    destruct (next_from _ _ _ ss) as [ss' [n|]]; [|apply not_elem_of_nil]. apply Hgo; [done|]. cbn in H2. congruence.
Qed.
End Call.
End Client.

(** ** The hypotheses can hold *)

Definition refused : herror := HError None None None (Some "ECONNREFUSED") "connect".
(** The first endpoint refuses connections, the others answer with their number. *)
Definition first_down (i : nat) : result herror nat := if (i =? 0)%nat then Throw refused else Ok i.

Definition one_open : client := Client [new_breaker; Breaker OPEN 5 0 (Some 0); new_breaker] 0.

Lemma call_asks_each_once_witness :
  let '(c', tried, r) := call 5 30000 2 first_down (fun _ => 1000) 1000 one_open in call_ends first_down 3 c' tried r.
Proof. apply (call_asks_each_once 5 30000 2 first_down (fun _ => 1000) 1000 one_open). unfold sane. cbn. lia. Defined.

Lemma healthy_endpoint_is_reached_witness : exists a', (call 5 30000 2 first_down (fun _ => 1000) 1000 one_open).2 = Ok a'.
Proof.
  apply (healthy_endpoint_is_reached 5 30000 2 first_down (fun _ => 1000) 1000 one_open 2 new_breaker 2%nat); try done.
  - unfold sane. cbn. lia.
  - unfold first_down. intros i e. destruct (i =? 0)%nat; [|done]. intros [= <-]. vm_compute. reflexivity.
Defined.

Example failover_run : call 5 30000 2 first_down (fun _ => 1000) 1000 one_open
  = (Client [Breaker CLOSED 1 0 None; Breaker OPEN 5 0 (Some 0); new_breaker] 2, [2; 0]%nat, Ok 2%nat).
Proof. vm_compute. reflexivity. Qed.

(** The list of endpoints is documented to be free of duplicates; it is not, and a
    host named twice is asked twice. *)
Theorem duplicate_url_kept :
  let urls := resolveHorizonUrls (Env (Some "https://h1, https://h1") None None None) in
  urls = ["https://h1"; "https://h1"] /\
  (call 5 30000 2 (fun _ => Throw refused : result herror unit) (fun _ => 1000) 1000 (new_client urls)).1.2 = [1; 0]%nat.
Proof. vm_compute. done. Qed.

(** Half open is documented to allow one probe; it admits every caller, for as
    long as no probe has ended. *)
Theorem half_open_admits_everyone timeout now now' b :
  (isAvailable timeout now b).2 = true -> (isAvailable timeout now' (isAvailable timeout now b).1).2 = true.
Proof. unfold isAvailable. destruct b as [[] f h o]; cbn; try done. by destruct (timeout <=? now - default 0 o). Qed.
End HorizonFailover.
