(* ===== verification/RetryWorker.v ===== *)
(** Retrying verifications: backend/src/services/retryContract.js (which failures
    are permanent) and backend/src/services/retryService.js (the database-backed
    retry worker) over backend/src/models/pendingVerificationModel.js.

    What verifying and recording a transaction answers is an argument of the
    worker (LedgerPayments models the verification; a theorem puts the two
    together).  Heartbeats, logs and the timer are left out. *)

From Stdlib Require Import Ascii ZArith Lia.
From stdpp Require Import base list strings sets.
From S2P Require Import Prelude JsNumber JsString DecimalLib ModelPlugins PaymentLimits StellarRetry LedgerPayments.
Local Open Scope string_scope.
Local Open Scope Z_scope.
Local Open Scope list_scope.

(** ** Which failures are permanent *)
Module RetryContract.

(** The fields of an error the contract reads. *)
Record job_error := JobError { je_code : option string; je_message : option string }.

Definition PERMANENT_ERROR_CODES : list string :=
  ["TX_FAILED"; "MISSING_MEMO"; "INVALID_DESTINATION"; "UNSUPPORTED_ASSET"; "DUPLICATE_TX"; "INVALID_TRANSACTION_HASH";
   "TRANSACTION_NOT_FOUND"].

Definition TRANSIENT_ERROR_CODES : list string :=
  ["STELLAR_NETWORK_ERROR"; "ECONNREFUSED"; "ETIMEDOUT"; "ENOTFOUND"; "NETWORK_ERROR"; "SOCKET_TIMEOUT"; "REQUEST_TIMEOUT";
   "HORIZON_UNAVAILABLE"].

Definition TRANSIENT_MESSAGE_PATTERNS : list string := ["network"; "timeout"; "connection"; "unavailable"; "temporary"].

Inductive error_class := permanent | transient | unknown.

#[export] Instance error_class_eq_dec : EqDecision error_class.
Proof. solve_decision. Defined.

Definition classifyError (error : option job_error) : error_class :=
  match error with
  | None => unknown
  | Some e =>
    let code := default "" e.(je_code) in
    let message := default "" e.(je_message) in
    if bool_decide (code ∈ PERMANENT_ERROR_CODES) then permanent else
    if bool_decide (code ∈ TRANSIENT_ERROR_CODES) then transient else
    if existsb (fun p => StellarRetry.occurs (chars p) (map lower (chars message))) TRANSIENT_MESSAGE_PATTERNS then transient
    else unknown
  end.

Definition isPermanent (error : job_error) : bool := bool_decide (classifyError (Some error) = permanent).
End RetryContract.

(** ** The database-backed worker *)
Module RetryWorker.
Import RetryContract.

(** [queued] is what the queue-backed service stores, outside the schema's list. *)
Inductive pv_status := pending | processing | resolved | dead_letter | queued.

#[export] Instance pv_status_eq_dec : EqDecision pv_status.
Proof. solve_decision. Defined.

Record pv_doc := PvDoc {
  pv_id : nat; pv_school : option string; pv_tx : string; pv_student : option string;
  pv_attempts : Z; pv_lastAttemptAt : option Z; pv_nextRetryAt : Z; pv_st : pv_status;
  pv_lastError : option string; pv_resolvedAt : option Z
}.

#[export] Instance pv_doc_eq_dec : EqDecision pv_doc.
Proof. solve_decision. Defined.

Section Worker.
Variable MAX_ATTEMPTS : Z.

(** [Math.min(Math.pow(2, attempts) * 60000, 60 * 60000)] after [now]; powers of
    two are exact in doubles until they overflow, where the minimum is the cap. *)
Definition nextRetryDelay (now attempts : Z) : Z := now + Z.min (2 ^ attempts * 60000) 3600000.

(** [$set] of the fields an update names. *)
Definition set_st (s : pv_status) (err : option string) (d : pv_doc) : pv_doc :=
  PvDoc d.(pv_id) d.(pv_school) d.(pv_tx) d.(pv_student) d.(pv_attempts) d.(pv_lastAttemptAt) d.(pv_nextRetryAt) s err d.(pv_resolvedAt).

Definition begin_attempt (now : Z) (d : pv_doc) : pv_doc :=
  PvDoc d.(pv_id) d.(pv_school) d.(pv_tx) d.(pv_student) (d.(pv_attempts) + 1) (Some now) d.(pv_nextRetryAt) processing
    d.(pv_lastError) d.(pv_resolvedAt).

Definition mark_resolved (now : Z) (d : pv_doc) : pv_doc :=
  PvDoc d.(pv_id) d.(pv_school) d.(pv_tx) d.(pv_student) d.(pv_attempts) d.(pv_lastAttemptAt) d.(pv_nextRetryAt) resolved None (Some now).

Definition reschedule (next : Z) (err : option string) (d : pv_doc) : pv_doc :=
  PvDoc d.(pv_id) d.(pv_school) d.(pv_tx) d.(pv_student) d.(pv_attempts) d.(pv_lastAttemptAt) next pending err d.(pv_resolvedAt).

(** [findOneAndUpdate({ _id, schoolId }, ...)] *)
Definition same_doc (item d : pv_doc) : bool := (d.(pv_id) =? item.(pv_id))%nat && bool_decide (d.(pv_school) = item.(pv_school)).

Fixpoint update_first (p : pv_doc -> bool) (u : pv_doc -> pv_doc) (ds : list pv_doc) : list pv_doc :=
  match ds with
  | [] => []
  | d :: ds' => if p d then u d :: ds' else d :: update_first p u ds'
  end.

Inductive store_error := DUPLICATE_KEY.

Definition requeue (now : Z) (err : string) (d : pv_doc) : pv_doc :=
  PvDoc d.(pv_id) d.(pv_school) d.(pv_tx) d.(pv_student) d.(pv_attempts) d.(pv_lastAttemptAt) now pending (Some err) d.(pv_resolvedAt).

(** An upsert by hash and school; the hash is unique across schools.  [id] is the
    identifier of a new document. *)
Definition queueForRetry (now : Z) (id : nat) (txHash : string) (studentId : option string) (errorMessage schoolId : string) (ds : list pv_doc)
    : result store_error (list pv_doc) :=
  let sel d := (pv_tx d =? txHash)%string && bool_decide (pv_school d = Some schoolId) in
  if existsb sel ds then Ok (update_first sel (requeue now errorMessage) ds) else
  if existsb (fun d => (pv_tx d =? txHash)%string) ds then Throw DUPLICATE_KEY else
  Ok (ds ++ [PvDoc id (Some schoolId) txHash studentId 0 None now pending (Some errorMessage) None]).

Definition redrive (now : Z) (d : pv_doc) : pv_doc :=
  PvDoc d.(pv_id) d.(pv_school) d.(pv_tx) d.(pv_student) 0 d.(pv_lastAttemptAt) now pending None d.(pv_resolvedAt).

Definition redriveDeadLetter (now : Z) (id : nat) (ds : list pv_doc) : list pv_doc :=
  update_first (fun d => (pv_id d =? id)%nat && bool_decide (pv_st d = dead_letter)) (redrive now) ds.

(** ** One item *)

(** What happens while an item is processed: the time, the wallet of its school
    (None: not found or inactive), and what verifying and recording answer. *)
Record outcome := Outcome {
  o_now : Z; o_school : option string;
  o_verify : result job_error bool;   (** [Ok false]: nothing was found *)
  o_record : result job_error unit
}.

(** The documents, the payments recorded and the failed ones noted for audit. *)
Record world := World { w_docs : list pv_doc; w_recorded : list string; w_failed : list string }.

(** The catch block; [attempts] is the snapshot's count plus one. *)
Definition on_error (o : outcome) (item : pv_doc) (err : job_error) (w : world) : world :=
  let attempts := item.(pv_attempts) + 1 in
  if isPermanent err || (MAX_ATTEMPTS <=? attempts) then
    World (update_first (same_doc item) (set_st dead_letter err.(je_message)) w.(w_docs)) w.(w_recorded)
      (w.(w_failed) ++ (if bool_decide (err.(je_code) = Some "TX_FAILED") then [item.(pv_tx)] else []))
  else
    World (update_first (same_doc item) (reschedule (nextRetryDelay o.(o_now) attempts) err.(je_message)) w.(w_docs))
      w.(w_recorded) w.(w_failed).

Definition process_item (o : outcome) (item : pv_doc) (w : world) : world :=
  let w1 := World (update_first (same_doc item) (begin_attempt o.(o_now)) w.(w_docs)) w.(w_recorded) w.(w_failed) in
  match o.(o_school) with
  | None =>
    World (update_first (same_doc item) (set_st dead_letter (Some ("School " +:+ default "undefined" item.(pv_school) +:+ " not found or inactive"))) w1.(w_docs))
      w1.(w_recorded) w1.(w_failed)
  | Some _ =>
    match o.(o_verify) with
    | Throw err => on_error o item err w1
    | Ok false =>
      World (update_first (same_doc item) (set_st dead_letter (Some "verifyTransaction returned null — transaction is permanently invalid")) w1.(w_docs))
        w1.(w_recorded) w1.(w_failed)
    | Ok true =>
      match o.(o_record) with
      | Throw err => on_error o item err w1
      | Ok _ => World (update_first (same_doc item) (mark_resolved o.(o_now)) w1.(w_docs)) (w1.(w_recorded) ++ [item.(pv_tx)]) w1.(w_failed)
      end
    end
  end.

Definition is_due (now : Z) (d : pv_doc) : bool := bool_decide (d.(pv_st) = pending) && (d.(pv_nextRetryAt) <=? now).

(** One run: the due documents are read once, at most fifty. *)
Definition processPendingVerifications (now : Z) (reachable : bool) (env : pv_doc -> outcome) (w : world) : world :=
  match take 50 (List.filter (is_due now) w.(w_docs)) with
  | [] => w
  | due => if reachable then foldl (fun w item => process_item (env item) item w) w due else w
  end.


(** ** What a run does, document by document *)

(** The outcome for a document that is attempted. *)
Definition after_error (o : outcome) (item : pv_doc) (err : job_error) (d : pv_doc) : pv_doc :=
  let attempts := item.(pv_attempts) + 1 in
  if isPermanent err || (MAX_ATTEMPTS <=? attempts) then set_st dead_letter err.(je_message) d
  else reschedule (nextRetryDelay o.(o_now) attempts) err.(je_message) d.

Definition attempted (o : outcome) (item : pv_doc) : pv_doc :=
  let d := begin_attempt o.(o_now) item in
  match o.(o_school) with
  | None => set_st dead_letter (Some ("School " +:+ default "undefined" item.(pv_school) +:+ " not found or inactive")) d
  | Some _ =>
    match o.(o_verify), o.(o_record) with
    | Throw err, _ | Ok true, Throw err => after_error o item err d
    | Ok false, _ => set_st dead_letter (Some "verifyTransaction returned null — transaction is permanently invalid") d
    | Ok true, Ok _ => mark_resolved o.(o_now) d
    end
  end.

(** Verified and recorded. *)
Definition succeeds (o : outcome) : bool :=
  match o.(o_school), o.(o_verify), o.(o_record) with Some _, Ok true, Ok _ => true | _, _, _ => false end.

(** The collection with the documents of [item] replaced. *)
Definition replace (item d' : pv_doc) (ds : list pv_doc) : list pv_doc :=
  map (fun d => if (pv_id d =? pv_id item)%nat then d' else d) ds.

Lemma update_first_replace item u ds : NoDup (map pv_id ds) -> item ∈ ds ->
  update_first (same_doc item) u ds = replace item (u item) ds.
Proof.
  induction ds as [|d ds IH]; intros Hn Hi; [by apply not_elem_of_nil in Hi|]. cbn in Hn. apply NoDup_cons in Hn as [Hd Hn].
  cbn [update_first replace map]. unfold same_doc at 1. destruct (Nat.eqb_spec (pv_id d) (pv_id item)) as [E|E]; cbn [andb].
  - assert (d = item) as ->.
    { apply elem_of_cons in Hi as [->|Hi]; [done|]. destruct Hd. rewrite E. apply list_elem_of_In, in_map, list_elem_of_In, Hi. }
    rewrite bool_decide_true by done. f_equal. symmetry. rewrite <- (map_id ds) at 2. apply map_ext_in. intros x Hx.
    destruct (Nat.eqb_spec (pv_id x) (pv_id item)) as [Ex|]; [|done]. destruct Hd. rewrite <- Ex. apply list_elem_of_In, in_map, Hx.
  - f_equal. apply IH; [done|]. apply elem_of_cons in Hi as [->|?]; [congruence|done].
Qed.

Lemma replace_doc_ids item d' ds : pv_id d' = pv_id item -> map pv_id (replace item d' ds) = map pv_id ds.
Proof.
  intros E. unfold replace. rewrite map_map. apply map_ext. intros d. by destruct (Nat.eqb_spec (pv_id d) (pv_id item)); [rewrite E|].
Qed.

Lemma replace_twice item d1 d2 ds : pv_id d1 = pv_id item -> replace d1 d2 (replace item d1 ds) = replace item d2 ds.
Proof.
  intros E. unfold replace. rewrite map_map. apply map_ext. intros d. destruct (Nat.eqb_spec (pv_id d) (pv_id item)) as [Ed|Ed].
  - by rewrite Nat.eqb_refl.
  - rewrite E. by destruct (Nat.eqb_spec (pv_id d) (pv_id item)).
Qed.

Lemma replace_doc_elem item d' ds : item ∈ ds -> d' ∈ replace item d' ds.
Proof.
  intros Hi. apply list_elem_of_In, in_map_iff. exists item. rewrite Nat.eqb_refl. split; [done|by apply list_elem_of_In].
Qed.

(** Two updates of the same document in a row. *)
Lemma update_twice item u1 u2 ds : NoDup (map pv_id ds) -> item ∈ ds -> pv_id (u1 item) = pv_id item -> pv_school (u1 item) = pv_school item ->
  update_first (same_doc item) u2 (update_first (same_doc item) u1 ds) = replace item (u2 (u1 item)) ds.
Proof.
  intros Hn Hi Hid Hs. rewrite (update_first_replace item u1) by done.
  assert (same_doc item = same_doc (u1 item)) as -> by (unfold same_doc; by rewrite Hid, Hs).
  rewrite update_first_replace; [by apply replace_twice|by rewrite replace_doc_ids|by apply replace_doc_elem].
Qed.

Lemma process_item_spec o item w : NoDup (map pv_id (w_docs w)) -> item ∈ w_docs w ->
  w_docs (process_item o item w) = replace item (attempted o item) (w_docs w) /\
  w_recorded (process_item o item w) = w_recorded w ++ (if succeeds o then [pv_tx item] else []).
Proof.
  intros Hn Hi. unfold process_item, attempted, succeeds, on_error, after_error.
  destruct (o_school o); [destruct (o_verify o) as [[]|e]; [destruct (o_record o) as [[]|e]| |]|]; cbn;
    rewrite ?app_nil_r; try (split; [by apply update_twice|done]);
    (destruct (isPermanent e || _); cbn; (split; [by apply update_twice|done])).
Qed.

Lemma attempted_id o item : pv_id (attempted o item) = pv_id item /\ pv_tx (attempted o item) = pv_tx item.
Proof.
  unfold attempted, after_error. destruct (o_school o); [destruct (o_verify o) as [[]|e]; [destruct (o_record o)| |]|]; cbn; try done;
    by destruct (isPermanent _ || _).
Qed.

Lemma batch_spec env due : forall w g ds0, NoDup (map pv_id ds0) -> NoDup due -> (forall d, d ∈ due -> d ∈ ds0 /\ g d = d) ->
  (forall d, pv_id (g d) = pv_id d) -> w_docs w = map g ds0 ->
  let w' := foldl (fun w item => process_item (env item) item w) w due in
  w_docs w' = map (fun d => if bool_decide (d ∈ due) then attempted (env d) d else g d) ds0 /\
  w_recorded w' = w_recorded w ++ map pv_tx (List.filter (fun d => succeeds (env d)) due).
Proof.
  induction due as [|item due IH]; intros w g ds0 Hn Hd Hdue Hg Hw; cbv zeta; cbn [foldl].
  { split; [|by rewrite app_nil_r]. rewrite Hw. apply map_ext. intros d. by rewrite bool_decide_false by apply not_elem_of_nil. }
  apply NoDup_cons in Hd as [Hni Hd]. destruct (Hdue item ltac:(set_solver)) as [Hin Hgi].
  assert (NoDup (map pv_id (w_docs w))) as Hnw by (rewrite Hw, map_map; by rewrite (map_ext _ _ Hg)).
  assert (item ∈ w_docs w) as Hiw by (rewrite Hw; rewrite <- Hgi at 1; apply list_elem_of_In, in_map, list_elem_of_In, Hin).
  destruct (process_item_spec (env item) item w Hnw Hiw) as [Hd1 Hr1].
  specialize (IH (process_item (env item) item w) (fun d => if bool_decide (d = item) then attempted (env item) item else g d) ds0 Hn Hd).
  destruct IH as [IH1 IH2].
  - intros d Hd'. destruct (Hdue d ltac:(set_solver)) as [H1 H2]. split; [done|]. rewrite bool_decide_false; [done|]. congruence.
  - intros d. destruct (decide (d = item)) as [->|]; [rewrite bool_decide_true by done; apply attempted_id|by rewrite bool_decide_false].
  - rewrite Hd1, Hw. unfold replace. rewrite map_map. apply map_ext_in. intros d Hdin. rewrite Hg.
    destruct (Nat.eqb_spec (pv_id d) (pv_id item)) as [E|E].
    + rewrite bool_decide_true; [done|]. apply (NoDup_fmap_eq pv_id ds0); try done. by apply list_elem_of_In.
    + rewrite bool_decide_false; [done|congruence].
  - cbv zeta in IH1, IH2. rewrite IH1, IH2. split.
    + apply map_ext. intros d. destruct (decide (d ∈ due)) as [Hdd|Hdd].
      * rewrite !bool_decide_true; [done|set_solver|done].
      * rewrite (bool_decide_false (d ∈ due)) by done. destruct (decide (d = item)) as [->|Hne].
        -- rewrite !bool_decide_true; [done|set_solver|done].
        -- rewrite !bool_decide_false; [done|set_solver|done].
    + rewrite Hr1, <- app_assoc. cbn [List.filter map]. by destruct (succeeds (env item)).
Qed.

Lemma NoDup_of_ids ds : NoDup (map pv_id ds) -> NoDup ds.
Proof. apply (NoDup_fmap_1 pv_id). Qed.

(** The documents a run takes up. *)
Definition due_docs (now : Z) (ds : list pv_doc) : list pv_doc := take 50 (List.filter (is_due now) ds).

Lemma due_facts now ds : NoDup (map pv_id ds) ->
  NoDup (due_docs now ds) /\ forall x, x ∈ due_docs now ds -> is_due now x = true /\ x ∈ ds.
Proof.
  intros Hn. split.
  - apply (sublist_NoDup _ (List.filter (is_due now) ds)); [|apply sublist_take].
    apply NoDup_ListNoDup, List.NoDup_filter, NoDup_ListNoDup, NoDup_of_ids, Hn.
  - intros x Hx. apply elem_of_take in Hx as (k & Hk & _). by apply list_elem_of_lookup_2, elem_of_filterb in Hk.
Qed.

(** What one run makes of a document. *)
Definition run_doc (now : Z) (env : pv_doc -> outcome) (d : pv_doc) : pv_doc :=
  if is_due now d then attempted (env d) d else d.

Lemma run_spec now env w : NoDup (map pv_id (w_docs w)) -> (length (w_docs w) <= 50)%nat ->
  let w' := processPendingVerifications now true env w in
  w_docs w' = map (run_doc now env) (w_docs w) /\
  w_recorded w' = w_recorded w ++ map pv_tx (List.filter (fun d => is_due now d && succeeds (env d)) (w_docs w)).
Proof.
  intros Hn Hl. cbv zeta. unfold processPendingVerifications. rewrite take_ge by (pose proof (List.filter_length_le (is_due now) (w_docs w)); lia).
  set (due := List.filter (is_due now) (w_docs w)).
  destruct (batch_spec env due w id (w_docs w) Hn) as [H1 H2]; try done.
  { apply NoDup_ListNoDup, List.NoDup_filter, NoDup_ListNoDup, NoDup_of_ids, Hn. }
  { intros d Hd. apply elem_of_filterb in Hd as [_ H]. by split. }
  { by rewrite map_id. }
  assert (List.filter (fun d => is_due now d && succeeds (env d)) (w_docs w) = List.filter (fun d => succeeds (env d)) due) as ->.
  { unfold due. clear. induction (w_docs w) as [|d ds IH]; cbn; [done|]. destruct (is_due now d); cbn; by rewrite IH. }
  assert (map (run_doc now env) (w_docs w) = map (fun d => if bool_decide (d ∈ due) then attempted (env d) d else id d) (w_docs w)) as ->.
  { apply map_ext_in. intros d Hd%list_elem_of_In. unfold run_doc. destruct (is_due now d) eqn:E.
    - rewrite bool_decide_true; [done|]. by apply elem_of_filterb.
    - rewrite bool_decide_false; [done|]. intros [? _]%elem_of_filterb. congruence. }
  destruct due; done.
Qed.

(** A run of the retry worker on at most fifty documents acts on each of them
    independently: every due document is attempted once, with the outcome its own
    answers determine, no other document changes, and the payments recorded are
    exactly those of the due documents whose verification and recording succeed. *)
Theorem retry_run_pointwise now env w : NoDup (map pv_id (w_docs w)) -> (length (w_docs w) <= 50)%nat ->
  let w' := processPendingVerifications now true env w in
  w_docs w' = map (run_doc now env) (w_docs w) /\
  w_recorded w' = w_recorded w ++ map pv_tx (List.filter (fun d => is_due now d && succeeds (env d)) (w_docs w)).
Proof. apply run_spec. Qed.

(** ** The backlog drains *)

Definition rounds := list (Z * (pv_doc -> outcome)).

Definition run_rounds (rs : rounds) (w : world) : world :=
  foldl (fun w r => processPendingVerifications r.1 true r.2 w) w rs.
Definition doc_rounds (rs : rounds) (d : pv_doc) : pv_doc := foldl (fun d r => run_doc r.1 r.2 d) d rs.

(** Runs at least an hour apart, the first at [t] or later. *)
Fixpoint hourly (t : Z) (rs : rounds) : Prop :=
  match rs with
  | [] => True
  | (now, env) :: rs' => t <= now /\ exists t', (forall d, o_now (env d) + 3600000 <= t') /\ hourly t' rs'
  end.

Definition settled (d : pv_doc) : Prop := pv_st d = resolved \/ pv_st d = dead_letter.

Lemma run_doc_id now env d : pv_id (run_doc now env d) = pv_id d.
Proof. unfold run_doc. destruct (is_due now d); [apply attempted_id|done]. Qed.

Lemma run_rounds_docs rs : forall w, NoDup (map pv_id (w_docs w)) -> (length (w_docs w) <= 50)%nat ->
  w_docs (run_rounds rs w) = map (doc_rounds rs) (w_docs w).
Proof.
  induction rs as [|[now env] rs IH]; intros w Hn Hl; [by rewrite map_id|]. cbn [run_rounds foldl fst snd].
  destruct (run_spec now env w Hn Hl) as [Hd _]. fold (run_rounds rs (processPendingVerifications now true env w)). rewrite IH.
  - rewrite Hd, map_map. done.
  - rewrite Hd, map_map. by rewrite (map_ext _ _ (run_doc_id now env)).
  - by rewrite Hd, length_map.
Qed.

Lemma not_pending_kept rs d : pv_st d <> pending -> doc_rounds rs d = d.
Proof.
  intros H. unfold doc_rounds. induction rs as [|[now env] rs IH]; [done|]. cbn [foldl fst snd].
  unfold run_doc, is_due. by rewrite bool_decide_false.
Qed.

(** An attempt settles a document or puts it off with one more attempt counted. *)
Lemma attempted_cases o d : settled (attempted o d) \/
  (pv_st (attempted o d) = pending /\ pv_attempts (attempted o d) = pv_attempts d + 1 /\ pv_attempts d + 1 < MAX_ATTEMPTS /\
   pv_nextRetryAt (attempted o d) <= o_now o + 3600000).
Proof.
  assert (forall e, settled (after_error o d e (begin_attempt (o_now o) d)) \/
    (pv_st (after_error o d e (begin_attempt (o_now o) d)) = pending /\ pv_attempts (after_error o d e (begin_attempt (o_now o) d)) = pv_attempts d + 1 /\
     pv_attempts d + 1 < MAX_ATTEMPTS /\ pv_nextRetryAt (after_error o d e (begin_attempt (o_now o) d)) <= o_now o + 3600000)) as He.
  { intros e. unfold after_error. destruct (isPermanent e || _) eqn:E; [left; by right|right].
    apply orb_false_iff in E as [_ E]. apply Z.leb_gt in E. cbn. unfold nextRetryDelay. repeat split; (done || lia). }
  unfold attempted. destruct (o_school o); [destruct (o_verify o) as [[]|e]; [destruct (o_record o) as [[]|e]| |]|]; try (by apply He);
    left; cbn; unfold settled; cbn; auto.
Qed.

Lemma doc_settles rs : forall t d, hourly t rs -> pv_st d = pending -> pv_nextRetryAt d <= t -> (0 < length rs)%nat ->
  MAX_ATTEMPTS - pv_attempts d <= Z.of_nat (length rs) -> settled (doc_rounds rs d).
Proof.
  induction rs as [|[now env] rs IH]; intros t d Hh Hp Hn Hl Hm; [cbn in Hl; lia|]. destruct Hh as (Hnow & t' & Ht' & Hh).
  unfold doc_rounds. cbn [foldl fst snd]. fold (doc_rounds rs (run_doc now env d)). unfold run_doc, is_due.
  rewrite bool_decide_true by done. assert ((pv_nextRetryAt d <=? now) = true) as -> by (apply Z.leb_le; lia). cbn [andb].
  destruct (attempted_cases (env d) d) as [Hs|(Hp' & Ha & Hlt & Hnext)].
  - rewrite not_pending_kept; [done|]. destruct Hs as [->| ->]; done.
  - specialize (Ht' d). cbn [length] in Hm. apply (IH t'); [done|done|lia|lia|lia].
Qed.

(** The retry backlog drains: whatever verifications answer, after as many hourly
    runs as there are attempts every document that was waiting is resolved or
    dead-lettered. *)
Theorem backlog_drains t rs w i d : NoDup (map pv_id (w_docs w)) -> (length (w_docs w) <= 50)%nat -> hourly t rs ->
  0 < MAX_ATTEMPTS <= Z.of_nat (length rs) ->
  w_docs w !! i = Some d -> pv_st d = pending -> pv_nextRetryAt d <= t -> 0 <= pv_attempts d ->
  exists d', w_docs (run_rounds rs w) !! i = Some d' /\ settled d'.
Proof.
  intros Hn Hl Hh Hm Hi Hp Ht Ha. rewrite run_rounds_docs by done. exists (doc_rounds rs d). split.
  - rewrite list_lookup_fmap, Hi. done.
  - apply (doc_settles rs t); (done || lia).
Qed.

(** ** Resolved means recorded *)

Definition recorded_inv (w : world) : Prop :=
  NoDup (map pv_id (w_docs w)) /\ forall d, d ∈ w_docs w -> pv_st d = resolved -> pv_tx d ∈ w_recorded w.

Lemma attempted_resolved o d : pv_st (attempted o d) = resolved -> succeeds o = true.
Proof.
  unfold attempted, succeeds, after_error. destruct (o_school o); [destruct (o_verify o) as [[]|e]; [destruct (o_record o) as [[]|e]| |]|]; cbn; try done;
    by destruct (isPermanent _ || _).
Qed.

Lemma run_recorded now reachable env w : recorded_inv w -> recorded_inv (processPendingVerifications now reachable env w).
Proof.
  intros [Hn Hr]. unfold processPendingVerifications. destruct (due_facts now (w_docs w) Hn) as [Hdn Hdue].
  fold (due_docs now (w_docs w)). set (due := due_docs now (w_docs w)) in *.
  assert (recorded_inv (foldl (fun w item => process_item (env item) item w) w due)) as H; [|by destruct due, reachable].
  destruct (batch_spec env due w id (w_docs w) Hn) as [H1 H2]; try done.
  { intros d Hd. split; [by apply Hdue|done]. }
  { by rewrite map_id. }
  split.
  - rewrite H1, map_map. rewrite (map_ext _ pv_id); [done|]. intros d. destruct (bool_decide _); [apply attempted_id|done].
  - rewrite H1, H2. intros d Hd Hs. apply list_elem_of_In, in_map_iff in Hd as (d0 & <- & Hd0). rewrite elem_of_app.
    destruct (decide (d0 ∈ due)) as [Hin|Hin].
    + rewrite bool_decide_true in Hs |- * by done. right. destruct (attempted_id (env d0) d0) as [_ ->].
      apply list_elem_of_In, in_map, filter_In. split; [by apply list_elem_of_In|]. by apply attempted_resolved in Hs.
    + rewrite bool_decide_false in Hs |- * by done. left. apply Hr; [by apply list_elem_of_In|done].
Qed.

(** The worker marks a verification resolved only when its payment was verified and
    recorded, through any number of runs, reachable or not. *)
Theorem resolved_means_recorded (rs : list (Z * bool * (pv_doc -> outcome))) ds : NoDup (map pv_id ds) ->
  (forall d, d ∈ ds -> pv_st d <> resolved) ->
  let w := foldl (fun w r => processPendingVerifications r.1.1 r.1.2 r.2 w) (World ds [] []) rs in
  forall d, d ∈ w_docs w -> pv_st d = resolved -> pv_tx d ∈ w_recorded w.
Proof.
  intros Hn H0. assert (recorded_inv (World ds [] [])) as Hi by (split; [done|]; intros d Hd Hs; by destruct (H0 d Hd)).
  cbv zeta. revert Hi. generalize (World ds [] []). induction rs as [|r rs IH]; intros w Hi; [apply Hi|]. cbn [foldl]. by apply IH, run_recorded.
Qed.

(** A document that a crash left in processing is never looked at again by this
    worker. *)
Theorem crashed_item_stuck now reachable env w d : NoDup (map pv_id (w_docs w)) -> d ∈ w_docs w -> pv_st d = processing ->
  d ∈ w_docs (processPendingVerifications now reachable env w).
Proof.
  intros Hn Hd Hs. unfold processPendingVerifications. destruct (due_facts now (w_docs w) Hn) as [Hdn Hdue].
  fold (due_docs now (w_docs w)). set (due := due_docs now (w_docs w)) in *.
  destruct (batch_spec env due w id (w_docs w) Hn) as [H1 _]; try done.
  { intros x Hx. split; [by apply Hdue|done]. }
  { by rewrite map_id. }
  assert (d ∈ w_docs (foldl (fun w item => process_item (env item) item w) w due)) as H; [|by destruct due, reachable].
  rewrite H1. apply list_elem_of_In, in_map_iff. exists d. split; [|by apply list_elem_of_In].
  rewrite bool_decide_false; [done|]. intros [Hd' _]%Hdue. unfold is_due in Hd'. by rewrite Hs in Hd'.
Qed.

(** ** Putting verification in *)

(** What the worker sees of a verification; [describe] is the error's code and
    message. *)
Definition seen {E A} (describe : E -> job_error) (r : result E A) : result job_error bool :=
  match r with Ok _ => Ok true | Throw e => Throw (describe e) end.

(** The worker calls the verification without a school, which never succeeds: no
    payment is recorded and no document is ever resolved, whatever the ledger
    holds. *)
Theorem retried_verification_never_succeeds `{LedgerPayments.StellarSdk} `{DL : DecimalLib}
    c limits ttl clock readable students looked fetched describe now reachable env ds :
  NoDup (map pv_id ds) -> (forall d, d ∈ ds -> pv_st d <> resolved) ->
  (forall d, exists wallet s, o_verify (env d) =
     seen describe (LedgerPayments.verifyTransaction c limits ttl clock readable students (looked d) (fetched d) wallet None s).2) ->
  let w := processPendingVerifications now reachable env (World ds [] []) in
  w_recorded w = [] /\ forall d, d ∈ w_docs w -> pv_st d <> resolved.
Proof.
  intros Hn H0 Hv. cbv zeta. assert (forall d, succeeds (env d) = false) as Hs.
  { intros d. destruct (Hv d) as (wallet & s & E). unfold succeeds. destruct (o_school (env d)); [|done]. rewrite E.
    destruct (LedgerPayments.verifyTransaction _ _ _ _ _ _ _ _ _ _ _) as [s' r] eqn:Er. destruct r as [v|e]; [|done].
    by destruct (LedgerPayments.verification_needs_school _ _ _ _ _ _ _ _ _ _ _ _ Er v). }
  unfold processPendingVerifications. cbn [w_docs]. destruct (due_facts now ds Hn) as [Hdn Hdue].
  fold (due_docs now ds). set (due := due_docs now ds) in *.
  destruct (batch_spec env due (World ds [] []) id ds Hn) as [H1 H2]; try done.
  { intros d Hd. split; [by apply Hdue|done]. }
  { by rewrite map_id. }
  assert (w_recorded (foldl (fun w item => process_item (env item) item w) (World ds [] []) due) = [] /\
    forall d, d ∈ w_docs (foldl (fun w item => process_item (env item) item w) (World ds [] []) due) -> pv_st d <> resolved) as [G1 G2];
    [|by destruct due, reachable].
  rewrite H1, H2. split.
  - cbn. assert (List.filter (fun d => succeeds (env d)) due = []) as ->; [|done]. clear -Hs. induction due as [|d due IH]; cbn; [done|]. by rewrite Hs.
  - intros d Hd. apply list_elem_of_In, in_map_iff in Hd as (d0 & <- & Hd0). destruct (bool_decide _).
    + intros E. apply attempted_resolved in E. by rewrite Hs in E.
    + apply H0. by apply list_elem_of_In.
Qed.
End Worker.

(** Counting the backlog by status is an aggregation without a school and without
    the bypass; the tenant scope refuses it. *)
Definition getBacklogCounts (ds : list pv_doc) : result string (list (pv_status * nat)) :=
  _ ← Plugins.aggregate_hook (D := pv_doc) "PendingVerification" false [None];
  Ok (map (fun s => (s, length (List.filter (fun d => bool_decide (pv_st d = s)) ds))) [pending; processing; resolved; dead_letter]).

Theorem backlog_counts_always_fail ds : getBacklogCounts ds = Throw "PendingVerification".
Proof. done. Qed.

(** ** The hypotheses can hold *)

Definition a_doc (i : nat) (tx : string) (n : Z) (s : pv_status) : pv_doc := PvDoc i (Some "S1") tx None n None 0 s None None.
Definition outage : job_error := JobError (Some "HORIZON_UNAVAILABLE") (Some "down").
(** Transaction "a" fails for good, "b" is out of reach, others verify. *)
Definition demo_env (d : pv_doc) : outcome :=
  Outcome 5 (Some "GW")
    (if (pv_tx d =? "a")%string then Throw (JobError (Some "TX_FAILED") (Some "failed"))
     else if (pv_tx d =? "b")%string then Throw outage else Ok true) (Ok tt).
Definition demo_docs : list pv_doc := [a_doc 1 "a" 0 pending; a_doc 2 "b" 0 pending; a_doc 3 "c" 0 pending; a_doc 4 "d" 0 processing].

Lemma retry_run_pointwise_witness :
  let w' := processPendingVerifications 10 5 true demo_env (World demo_docs [] []) in
  w_docs w' = map (run_doc 10 5 demo_env) demo_docs /\ w_recorded w' = ["c"].
Proof. apply (retry_run_pointwise 10 5 demo_env (World demo_docs [] [])); [by_decision|cbn; lia]. Defined.

Definition two_hours (k : Z) : Z * (pv_doc -> outcome) :=
  (7200000 * k, fun d => Outcome (7200000 * k) (Some "GW") (Throw outage) (Ok tt)).

Lemma backlog_drains_witness :
  exists d', w_docs (run_rounds 3 [two_hours 1; two_hours 2; two_hours 3] (World demo_docs [] [])) !! 1%nat = Some d' /\ settled d'.
Proof.
  apply (backlog_drains 3 0 [two_hours 1; two_hours 2; two_hours 3] (World demo_docs [] []) 1 (a_doc 2 "b" 0 pending)); try done; try (cbn; lia).
  - by_decision.
  - unfold two_hours. cbn [hourly]. repeat (split; [lia|]; eexists; split; [intros d; cbn [o_now]; reflexivity|]). exact I.
Defined.

Lemma resolved_means_recorded_witness :
  "c" ∈ w_recorded (foldl (fun w r => processPendingVerifications 10 r.1.1 r.1.2 r.2 w) (World demo_docs [] []) [(5, true, demo_env); (6, false, demo_env)]).
Proof.
  refine (resolved_means_recorded 10 [(5, true, demo_env); (6, false, demo_env)] demo_docs _ _ (mark_resolved 5 (begin_attempt 5 (a_doc 3 "c" 0 pending))) _ eq_refl).
  - by_decision.
  - intros d Hd. repeat (apply elem_of_cons in Hd as [-> | Hd]; [done|]). by apply not_elem_of_nil in Hd.
  - by_decision.
Defined.

(** Queueing a dead-lettered transaction again keeps its attempt count, so the
    first failure, however transient, dead-letters it again. *)
Theorem requeued_without_attempts :
  match queueForRetry 7 9 "b" None "again" "S1" [a_doc 2 "b" 10 dead_letter] with
  | Ok ds => map pv_st ds = [pending] /\
             map pv_st (w_docs (processPendingVerifications 10 8 true demo_env (World ds [] []))) = [dead_letter]
  | Throw _ => False
  end.
Proof. vm_compute. done. Qed.

(** A transaction that does not exist is retried: the contract lists
    TRANSACTION_NOT_FOUND as permanent, the Horizon layer says NOT_FOUND, and the
    word network in its message makes it transient. *)
Theorem missing_transaction_is_retried :
  let e := StellarRetry.classifyHorizonError (StellarRetry.HError (Some (Some 404, None)) None None None "Not Found") "Transaction" in
  classifyError (Some (JobError (StellarRetry.e_code e) (Some (StellarRetry.e_message e)))) = transient.
Proof. vm_compute. reflexivity. Qed.
End RetryWorker.
