(* ===== verification/TransactionQueue.v ===== *)
(** The queue-backed path of a verification:
    backend/src/queue/transactionQueue.js,
    backend/src/services/transactionQueueService.js and
    backend/src/services/stuckPaymentReconciliation.js, with the delays of
    backend/src/queue/transactionRetryQueue.js.

    Jobs are documents of RetryWorker's collection plus entries of a job queue
    library, which is a parameter: whether it accepts a job.  Draining a worker,
    which asks the library for its active jobs, tracing and metrics are left
    out. *)

From Stdlib Require Import Ascii ZArith QArith Qround Qabs Qpower Lia Lqa.
From stdpp Require Import base list strings sets.
From S2P Require Import Prelude JsNumber JsString ModelPlugins StellarRetry LedgerPayments RetryWorker.
Local Open Scope string_scope.
Local Open Scope Z_scope.
Local Open Scope list_scope.

Module TransactionQueue.
Import RetryContract RetryWorker.

Definition by_tx (tx : string) : string * (pv_doc -> bool) := ("txHash", fun d => (pv_tx d =? tx)%string).
Definition by_school (sid : option string) : string * (pv_doc -> bool) := ("schoolId", fun d => bool_decide (pv_school d = sid)).
Definition by_status (ss : list pv_status) : string * (pv_doc -> bool) := ("status", fun d => bool_decide (pv_st d ∈ ss)).

(** [findOneAndUpdate(filter, update, { _bypassTenantScope })] behind the tenant
    scope hook. *)
Definition findOneAndUpdate (f : Plugins.filter) (bypass : bool) (u : pv_doc -> pv_doc) (ds : list pv_doc) : result plugin_error (list pv_doc) :=
  _ ← Plugins.tenant_hook "PendingVerification" op_findOneAndUpdate (Plugins.Query f false bypass);
  Ok (update_first (Plugins.matches f) u ds).

(** [persistJob]: an upsert that only ever inserts. *)
Definition persistJob (now : Z) (id : nat) (txHash : string) (schoolId studentId : option string) (ds : list pv_doc) : result plugin_error (list pv_doc) :=
  _ ← Plugins.tenant_hook "PendingVerification" op_findOneAndUpdate (Plugins.Query [by_tx txHash] false false);
  Ok (if existsb (by_tx txHash).2 ds then ds
      else ds ++ [PvDoc id (Some (match schoolId with Some s => str_or s "unknown" | None => "unknown" end)) txHash studentId 0 None now pending None None]).

Section Queue.
(** Is there a queue, and does it accept a job with this identifier? *)
Variable connected : bool.
Variable accepts : string -> bool.

(** [Ok (documents, queued)]; [queued] is false when the job is in the database
    only. *)
Definition enqueueTransaction (now : Z) (id : nat) (txHash : string) (schoolId studentId : option string) (ds : list pv_doc)
    : result plugin_error (list pv_doc * bool) :=
  ds' ← persistJob now id txHash schoolId studentId ds;
  Ok (ds', connected && accepts txHash).

Definition markResolved (now : Z) (txHash : string) : list pv_doc -> result plugin_error (list pv_doc) :=
  findOneAndUpdate [by_tx txHash] true (fun d =>
    PvDoc (pv_id d) (pv_school d) (pv_tx d) (pv_student d) (pv_attempts d) (pv_lastAttemptAt d) (pv_nextRetryAt d) resolved (pv_lastError d) (Some now)).

Definition markDead (txHash err : string) : list pv_doc -> result plugin_error (list pv_doc) :=
  findOneAndUpdate [by_tx txHash] true (set_st dead_letter (Some err)).

Definition markInterrupted (now : Z) (txHash err : string) : list pv_doc -> result plugin_error (list pv_doc) :=
  findOneAndUpdate [by_tx txHash] true (fun d =>
    PvDoc (pv_id d) (pv_school d) (pv_tx d) (pv_student d) (pv_attempts d) (Some now) (pv_nextRetryAt d) pending (Some err) (pv_resolvedAt d)).

(** ** Recovery *)

Definition back_to_pending (d : pv_doc) : pv_doc := set_st pending (pv_lastError d) d.

(** The loop over the unresolved documents: each is reset when it was in flight,
    and offered to the queue; what goes wrong is caught. *)
Fixpoint recover_loop (unresolved : list pv_doc) (ds : list pv_doc) (recovered : nat) (offered : list string)
    : list pv_doc * nat * list string :=
  match unresolved with
  | [] => (ds, recovered, offered)
  | doc :: rest =>
    match findOneAndUpdate [by_tx (pv_tx doc); by_school (pv_school doc); by_status [processing]] false back_to_pending ds with
    | Throw _ => recover_loop rest ds recovered offered
    | Ok ds' => recover_loop rest ds' (if accepts (pv_tx doc) then S recovered else recovered) (offered ++ [pv_tx doc])
    end
  end.

Definition unresolved (d : pv_doc) : bool := (by_status [pending; processing]).2 d.

Definition recoverPendingJobs (ds : list pv_doc) : list pv_doc * nat * list string :=
  if connected then recover_loop (List.filter unresolved ds) ds 0 [] else (ds, 0%nat, []).

(** [recoverPendingJobsWithRetry]: the delays waited, and whether Redis became
    ready; [ready k] is the k-th check. *)
Definition recovery_delay (baseDelayMs maxDelayMs : Z) (attempt : nat) : Z := Z.min (baseDelayMs * 2 ^ Z.of_nat attempt) maxDelayMs.

Fixpoint wait_for_redis (left attempt : nat) (ready : nat -> bool) (base max : Z) (waited : list Z) : list Z * bool :=
  if ready attempt then (waited, true) else
  match left with
  | O => (waited, false)
  | S left' => wait_for_redis left' (S attempt) ready base max (waited ++ [recovery_delay base max attempt])
  end.

Inductive recovery := rec_disabled | rec_degraded | rec_ok (recovered : nat).

Definition recoverPendingJobsWithRetry (maxRetries : nat) (ready : nat -> bool) (base max : Z) (ds : list pv_doc) : list pv_doc * recovery * list Z :=
  if connected then
    match wait_for_redis maxRetries 0 ready base max [] with
    | (waited, true) => let '(ds', n, _) := recoverPendingJobs ds in (ds', rec_ok n, waited)
    | (waited, false) => (ds, rec_degraded, waited)
    end
  else (ds, rec_disabled, []).

(** ** Processing a job *)

Definition PERMANENT_FAIL_CODES : list string :=
  ["TX_FAILED"; "MISSING_MEMO"; "INVALID_DESTINATION"; "UNSUPPORTED_ASSET"; "AMOUNT_TOO_LOW"; "AMOUNT_TOO_HIGH"; "UNDERPAID"].

Section Job.
Context {A : Type}.
(** What happens after the document was marked: the look-up of an existing payment,
    the verification and the recording. *)
Variable rest : list pv_doc -> list pv_doc * result job_error A.
(** Code and message of the tenant scope's error. *)
Definition scope_error (e : plugin_error) : job_error := JobError (Some "TENANT_SCOPE_MISSING") (Some "[TenantScope]").

Definition processTransactionJob (now : Z) (txHash : string) (ds : list pv_doc) : list pv_doc * result job_error A :=
  match findOneAndUpdate [by_tx txHash; by_status [pending; processing]] false (begin_attempt now) ds with
  | Throw e => (ds, Throw (scope_error e))
  | Ok ds' => rest ds'
  end.

(** The wrapper: permanent failures dead-letter the document, others note the
    error; the error goes on to the queue.  (The failed payment kept for audit is
    not part of the state here.) *)
Definition _jobProcessor (now : Z) (txHash : string) (ds : list pv_doc) : list pv_doc * result job_error A :=
  match processTransactionJob now txHash ds with
  | (ds', Ok a) => (ds', Ok a)
  | (ds', Throw err) =>
    if bool_decide (default "" (je_code err) ∈ PERMANENT_FAIL_CODES) then
      match markDead txHash (default "undefined" (je_message err)) ds' with Ok ds'' => (ds'', Throw err) | Throw e => (ds', Throw (scope_error e)) end
    else match findOneAndUpdate [by_tx txHash] false (fun d => set_st (pv_st d) (je_message err) d) ds' with
         | Ok ds'' => (ds'', Throw err)
         | Throw e => (ds', Throw (scope_error e))
         end
  end.
End Job.

(** ** Stuck payments *)
Section Stuck.
Context {P : Type}.
Variables (submitted : P -> bool) (submittedAt : P -> Z) (live : P -> bool) (p_tx : P -> string) (p_school p_student : P -> option string).
Variable STUCK_PAYMENT_THRESHOLD_MS : Z.

Definition stuck_filter (now : Z) : Plugins.filter (D := P) :=
  [("status", submitted); ("submittedAt", fun p => submittedAt p <? now - STUCK_PAYMENT_THRESHOLD_MS); ("deletedAt", live)].

Definition findStuckPayments (now : Z) (limit : nat) (ps : list P) : result plugin_error (list P) :=
  _ ← Plugins.tenant_hook "Payment" op_find (Plugins.Query (stuck_filter now) false false);
  Ok (take limit (js_sort (fun a b => submittedAt a - submittedAt b) (List.filter (Plugins.matches (stuck_filter now)) ps))).

Fixpoint requeue_loop (now : Z) (id : nat) (ps : list P) (ds : list pv_doc) (requeued : nat) : list pv_doc * nat :=
  match ps with
  | [] => (ds, requeued)
  | p :: ps' =>
    match enqueueTransaction now id (p_tx p) (p_school p) (p_student p) ds with
    | Ok (ds', _) => requeue_loop now (S id) ps' ds' (S requeued)
    | Throw _ => requeue_loop now (S id) ps' ds requeued
    end
  end.

Definition reconcileStuckPayments (now : Z) (id limit : nat) (ps : list P) (ds : list pv_doc) : result plugin_error (list pv_doc * nat) :=
  stuck ← findStuckPayments now limit ps;
  Ok (requeue_loop now id stuck ds 0).
End Stuck.
End Queue.

(** ** Delays of the retry queue *)

(** [Math.min(initialDelay * Math.pow(multiplier, attempt - 1), maxDelay)], exact
    below [maxDelay]. *)
Definition backoff_base (initialDelay multiplier maxDelay attempt : Z) : Z := Z.min (initialDelay * multiplier ^ (attempt - 1)) maxDelay.

(** [random] is the answer of [Math.random()], [jitterRatio] a double. *)
Definition calculateBackoffDelay (initialDelay multiplier maxDelay : Z) (jitterRatio random : number) (withJitter : bool) (attempt : Z) : number :=
  let base := of_Z (backoff_base initialDelay multiplier maxDelay attempt) in
  if negb withJitter || num_le jitterRatio (of_Z 0) then num_round base else
  let spread := num_mul base jitterRatio in
  let jittered := num_add (num_sub base spread) (num_mul random (num_mul (of_Z 2) spread)) in
  num_max (of_Z 0) (num_round (num_min jittered (of_Z maxDelay))).

(** ** Recovery after a restart *)

Lemma matches_in_flight doc d : Plugins.matches [by_tx (pv_tx doc); by_school (pv_school doc); by_status [processing]] d
  = (pv_tx d =? pv_tx doc)%string && bool_decide (pv_school d = pv_school doc) && bool_decide (pv_st d = processing).
Proof.
  unfold Plugins.matches. cbn [forallb snd by_tx by_school by_status]. rewrite andb_true_r, andb_assoc. f_equal.
  apply bool_decide_ext. rewrite list_elem_of_singleton. done.
Qed.

(** The documents with those of a list of hashes reset when in flight. *)
Definition reset_in (txs : list string) (d : pv_doc) : pv_doc :=
  if bool_decide (pv_tx d ∈ txs) && bool_decide (pv_st d = processing) then back_to_pending d else d.

Lemma reset_tx txs d : pv_tx (reset_in txs d) = pv_tx d.
Proof. unfold reset_in. by destruct (_ && _). Qed.

Lemma update_first_reset doc ds : NoDup (map pv_tx ds) -> doc ∈ ds ->
  update_first (Plugins.matches [by_tx (pv_tx doc); by_school (pv_school doc); by_status [processing]]) back_to_pending ds
  = map (reset_in [pv_tx doc]) ds.
Proof.
  induction ds as [|d ds IH]; intros Hn Hi; [done|]. cbn in Hn. apply NoDup_cons in Hn as [Hd Hn]. cbn [update_first map].
  rewrite matches_in_flight. unfold reset_in at 1. destruct (String.eqb_spec (pv_tx d) (pv_tx doc)) as [E|E].
  - assert (d = doc) as ->.
    { apply elem_of_cons in Hi as [->|Hi]; [done|]. destruct Hd. rewrite E. apply list_elem_of_In, in_map, list_elem_of_In, Hi. }
    rewrite (bool_decide_true (pv_school doc = _)) by done. rewrite (bool_decide_true (pv_tx doc ∈ _)) by by apply list_elem_of_singleton.
    cbn [andb]. assert (map (reset_in [pv_tx doc]) ds = ds) as Hrest.
    { rewrite <- (map_id ds) at 2. apply map_ext_in. intros x Hx. unfold reset_in. rewrite bool_decide_false; [done|].
      intros Ex%list_elem_of_singleton. destruct Hd. rewrite <- Ex. apply list_elem_of_In, in_map, Hx. }
    rewrite Hrest. destruct (bool_decide (pv_st doc = processing)); [done|]. f_equal.
    clear -Hd. induction ds as [|x ds IH]; [done|]. cbn [update_first]. cbn in Hd. apply not_elem_of_cons in Hd as [Hx Hd].
    rewrite matches_in_flight. destruct (String.eqb_spec (pv_tx x) (pv_tx doc)); [congruence|]. cbn [andb]. f_equal. by apply IH.
  - cbn [andb]. rewrite bool_decide_false by (rewrite list_elem_of_singleton; congruence). cbn [andb]. f_equal. apply IH; [done|].
    apply elem_of_cons in Hi as [->|?]; [done|done].
Qed.

Lemma recover_loop_spec accepts todo : forall ds n offered, NoDup (map pv_tx ds) -> (forall d, d ∈ todo -> pv_tx d ∈ map pv_tx ds /\
    forall x, x ∈ ds -> pv_tx x = pv_tx d -> pv_school x = pv_school d) ->
  recover_loop accepts todo ds n offered =
    (map (reset_in (map pv_tx todo)) ds, (n + length (List.filter accepts (map pv_tx todo)))%nat, offered ++ map pv_tx todo).
Proof.
  induction todo as [|doc todo IH]; intros ds n offered Hn Ht; cbn [recover_loop map].
  - assert (map (reset_in []) ds = ds) as ->. { rewrite <- (map_id ds) at 2. apply map_ext. intros d. unfold reset_in. by rewrite bool_decide_false by apply not_elem_of_nil. }
    by rewrite Nat.add_0_r, app_nil_r.
  - destruct (Ht doc ltac:(set_solver)) as [Hin Hsch]. apply list_elem_of_In, in_map_iff in Hin as (x & Ex & Hx%list_elem_of_In).
    unfold findOneAndUpdate. change (Plugins.tenant_hook _ _ _) with (Ok tt : result plugin_error unit). cbn [mbind result_bind].
    assert ([by_tx (pv_tx doc); by_school (pv_school doc); by_status [processing]] = [by_tx (pv_tx x); by_school (pv_school x); by_status [processing]]) as ->
      by (rewrite Ex, (Hsch x Hx Ex); done).
    rewrite update_first_reset by done. rewrite IH; cycle 1.
    { rewrite map_map. by rewrite (map_ext _ _ (reset_tx _)). }
    { intros d Hd. destruct (Ht d ltac:(set_solver)) as [H1 H2]. rewrite map_map, (map_ext _ _ (reset_tx _)). split; [done|].
      intros y Hy Ey. apply list_elem_of_In, in_map_iff in Hy as (y0 & <- & Hy0%list_elem_of_In). rewrite reset_tx in Ey.
      specialize (H2 y0 Hy0 Ey). unfold reset_in. by destruct (_ && _). }
    f_equal; [f_equal|].
    + rewrite map_map. apply map_ext. intros d. unfold reset_in. rewrite Ex. cbn [map].
      destruct (decide (pv_tx d = pv_tx doc)) as [E|E].
      * rewrite (bool_decide_true (pv_tx d ∈ [pv_tx doc])) by by apply list_elem_of_singleton.
        rewrite (bool_decide_true (pv_tx d ∈ pv_tx doc :: _)) by set_solver. cbn [andb].
        destruct (bool_decide (pv_st d = processing)) eqn:Es; [by rewrite andb_false_r|]. rewrite Es. by rewrite andb_false_r.
      * rewrite (bool_decide_false (pv_tx d ∈ [pv_tx doc])) by (rewrite list_elem_of_singleton; done). cbn [andb].
        rewrite (bool_decide_ext (pv_tx d ∈ map pv_tx todo) (pv_tx d ∈ pv_tx doc :: map pv_tx todo)); [done|]. set_solver.
    + cbn [List.filter]. destruct (accepts (pv_tx doc)); cbn [length]; lia.
    + by rewrite <- app_assoc.
Qed.

(** Recovery after a restart loses no job: with a queue, every document that was
    waiting or in flight is offered to it exactly once and in order, none is left in
    flight, no other document changes, and the number reported is the number of jobs
    the queue accepted. *)
Theorem recovery_offers_every_job accepts ds : NoDup (map pv_tx ds) ->
  recoverPendingJobs true accepts ds =
    (map (fun d => if bool_decide (pv_st d = processing) then back_to_pending d else d) ds,
     length (List.filter accepts (map pv_tx (List.filter unresolved ds))), map pv_tx (List.filter unresolved ds)).
Proof.
  intros Hn. unfold recoverPendingJobs. rewrite (recover_loop_spec accepts (List.filter unresolved ds) ds 0 [] Hn).
  - f_equal. f_equal. apply map_ext_in. intros d Hd%list_elem_of_In. unfold reset_in.
    destruct (decide (pv_st d = processing)) as [E|E]; [|by rewrite (bool_decide_false (pv_st d = _)), andb_false_r].
    rewrite !bool_decide_true; [done|done|]. apply list_elem_of_In, in_map, filter_In. split; [by apply list_elem_of_In|].
    unfold unresolved. cbn. rewrite E. by apply bool_decide_eq_true_2; set_solver.
  - intros d [_ Hd]%elem_of_filterb. split; [apply list_elem_of_In, in_map, list_elem_of_In, Hd|].
    intros x Hx E. by rewrite (NoDup_fmap_eq pv_tx ds x d Hn Hx Hd E).
Qed.

Lemma wait_for_redis_spec ready base max left : forall attempt waited,
  exists n, (n <= left)%nat /\ (forall k, (attempt <= k < attempt + n)%nat -> ready k = false) /\
    wait_for_redis left attempt ready base max waited =
      (waited ++ map (recovery_delay base max) (seq attempt n), ready (attempt + n)%nat) /\
    (ready (attempt + n)%nat = false -> n = left).
Proof.
  induction left as [|left IH]; intros attempt waited; cbn [wait_for_redis].
  - exists 0%nat. rewrite Nat.add_0_r. destruct (ready attempt); cbn [seq map]; rewrite app_nil_r; (repeat split; try done); intros; lia.
  - destruct (ready attempt) eqn:E.
    + exists 0%nat. rewrite Nat.add_0_r, E. cbn [seq map]. rewrite app_nil_r. repeat split; try done; [lia|intros; lia].
    + destruct (IH (S attempt) (waited ++ [recovery_delay base max attempt])) as (n & Hn & Hk & Eq & Hf).
      exists (S n). rewrite Nat.add_succ_r, <- Nat.add_succ_l. repeat split; [lia| | |intros H; by rewrite Hf].
      * intros k Hr. destruct (decide (k = attempt)) as [->|]; [done|]. apply Hk. lia.
      * rewrite Eq, <- app_assoc. done.
Qed.

(** Waiting for Redis at start-up ends: after at most [maxRetries] doubling waits,
    capped at the maximum, either Redis was ready and recovery ran, or the state is
    degraded and nothing was touched. *)
Theorem recovery_wait_ends accepts maxRetries ready base max ds : exists n, (n <= maxRetries)%nat /\
  (forall k, (k < n)%nat -> ready k = false) /\
  recoverPendingJobsWithRetry true accepts maxRetries ready base max ds =
    (if ready n then ((recoverPendingJobs true accepts ds).1.1, rec_ok (recoverPendingJobs true accepts ds).1.2)
     else (ds, rec_degraded), map (recovery_delay base max) (seq 0 n)) /\ (ready n = false -> n = maxRetries).
Proof.
  destruct (wait_for_redis_spec ready base max maxRetries 0 []) as (n & Hn & Hk & E & Hf). exists n. repeat split; try done.
  - intros k Hlt. apply Hk. lia.
  - unfold recoverPendingJobsWithRetry. rewrite E. cbn [Nat.add app]. destruct (ready n); [|done].
    by destruct (recoverPendingJobs true accepts ds) as [[ds' m] l].
Qed.

(** ** Delays *)

(** A finite double below a power of two. *)
Definition below (j : Z) (x : number) : Prop := exists r, x = Fin r /\ (Qabs r < Qpower 2 j)%Q.

Lemma to_double_below q j : 0 <= j <= 100 -> (Qabs q < Qpower 2 j)%Q -> below (j + 1) (to_double q).
Proof.
  intros Hj Hq. destruct (to_double_near q j) as (r & -> & Hr & _); [lia|done|]. exists r. split; [done|].
  assert (Qabs r <= Qabs (r - q) + Qabs q)%Q as Ht.
  { assert (r == (r - q) + q)%Q as E by ring. rewrite E at 1. apply Qabs_triangle. }
  assert (Qpower 2 (j - 53) <= Qpower 2 j)%Q as Hp by (apply Qpower_le_compat_l; [lia|discriminate]).
  assert (0 < Qpower 2 (j - 53))%Q as Hpos by (apply Qpower_0_lt; reflexivity).
  rewrite Qpower_plus by discriminate. change (Qpower 2 1) with 2%Q. lra.
Qed.

Lemma mul_below x y j k : 0 <= j -> 0 <= k -> j + k <= 100 -> below j x -> below k y -> below (j + k + 1) (num_mul x y).
Proof.
  intros Hj Hk Hjk (p & -> & Hp) (q & -> & Hq). change (num_mul (Fin p) (Fin q)) with (to_double (p * q)).
  apply to_double_below; [lia|]. rewrite Qabs_Qmult, Qpower_plus by discriminate. pose proof (Qabs_nonneg p). pose proof (Qabs_nonneg q). nra.
Qed.

Lemma add_below x y j : 0 <= j <= 99 -> below j x -> below j y -> below (j + 2) (num_add x y).
Proof.
  intros Hj (p & -> & Hp) (q & -> & Hq). change (num_add (Fin p) (Fin q)) with (to_double (p + q)).
  replace (j + 2) with ((j + 1) + 1) by lia. apply to_double_below; [lia|]. rewrite Qpower_plus by discriminate. change (Qpower 2 1) with 2%Q.
  pose proof (Qabs_triangle p q). lra.
Qed.

Lemma neg_below x j : below j x -> below j (num_neg x).
Proof. intros (p & -> & Hp). exists (- p)%Q. split; [done|]. by rewrite Qabs_opp. Qed.

Lemma below_mono x j k : j <= k -> below j x -> below k x.
Proof.
  intros Hjk (p & -> & Hp). exists p. split; [done|]. eapply Qlt_le_trans; [exact Hp|]. apply Qpower_le_compat_l; [lia|discriminate].
Qed.

Lemma int_below z j : 0 <= j -> Z.abs z < 2 ^ j -> below j (of_Z z).
Proof.
  intros Hj Hz. exists (inject_Z z). split; [done|]. change 2%Q with (inject_Z 2). rewrite <- Zpower_Qpower by lia.
  unfold Qlt, Qabs, inject_Z; cbn. lia.
Qed.

Lemma floor_half z : Qfloor (inject_Z z + (1 # 2)) = z.
Proof. apply Qfloor_unique; [lra|]. rewrite inject_Z_plus. change (inject_Z 1) with 1%Q. lra. Qed.

(** Clamping and rounding: the result is an integer between zero and the cap. *)
Lemma clamp_round x m : 0 <= m -> (exists r, x = Fin r) ->
  exists z, num_max (of_Z 0) (num_round (num_min x (of_Z m))) = of_Z z /\ 0 <= z <= m.
Proof.
  intros Hm (r & ->). assert (exists z, num_round (num_min (Fin r) (of_Z m)) = of_Z z /\ z <= m) as (z & -> & Hz).
  { unfold num_min, of_Z, num_le. destruct (Qle_bool r (inject_Z m)) eqn:E.
    - apply Qle_bool_iff in E. exists (Qfloor (r + (1 # 2))). split; [done|].
      assert (Qfloor (r + (1 # 2)) <= Qfloor (inject_Z m + (1 # 2))) as H by (apply Qfloor_resp_le; lra).
      by rewrite floor_half in H.
    - exists m. split; [|lia]. cbn [num_round]. unfold of_Z. by rewrite floor_half. }
  rewrite num_max_int. exists (Z.max 0 z). split; [done|lia].
Qed.

(** A retry delay with jitter is a whole number of milliseconds between zero and
    the configured maximum, for every attempt and every random draw. *)
Theorem backoff_delay_bounded initial mult maxd ratio random withJitter attempt :
  0 <= initial -> 1 <= mult -> 0 <= maxd < 2 ^ 40 -> 1 <= attempt -> below 1 ratio -> below 1 random ->
  exists z, calculateBackoffDelay initial mult maxd ratio random withJitter attempt = of_Z z /\ 0 <= z <= maxd.
Proof.
  intros Hi Hmu Hm Ha Hra Hrd. unfold calculateBackoffDelay. cbv zeta.
  assert (0 <= backoff_base initial mult maxd attempt <= maxd) as Hb.
  { unfold backoff_base. assert (0 <= mult ^ (attempt - 1)) by (apply Z.pow_nonneg; lia). nia. }
  revert Hb. generalize (backoff_base initial mult maxd attempt). intros b Hb. destruct (negb withJitter || _).
  - exists b. split; [|done]. cbn [num_round of_Z]. unfold of_Z. by rewrite floor_half.
  - apply clamp_round; [lia|]. assert (below 40 (of_Z b)) as Hbb by (apply int_below; lia).
    assert (below 42 (num_mul (of_Z b) ratio)) as Hs by (apply (mul_below _ _ 40 1); (lia || done)).
    assert (below 49 (num_add (num_sub (of_Z b) (num_mul (of_Z b) ratio)) (num_mul random (num_mul (of_Z 2) (num_mul (of_Z b) ratio))))) as (r & -> & _); [|eauto].
    apply (add_below _ _ 47); [lia| |].
    + apply (below_mono _ 44); [lia|]. unfold num_sub. apply (add_below _ _ 42); [lia| |by apply neg_below]. apply (below_mono _ 40); [lia|done].
    + apply (below_mono _ 47); [lia|]. apply (mul_below _ _ 1 45); [lia|lia|lia|done|]. apply (mul_below _ _ 2 42); [lia|lia|lia| |done]. apply int_below; lia.
Qed.

(** ** What never works *)

(** Enqueueing filters by hash alone, without a school and without the bypass, so
    the tenant scope refuses it: no transaction is ever queued. *)
Theorem enqueue_always_refused connected accepts now id tx sid st ds :
  enqueueTransaction connected accepts now id tx sid st ds = Throw (TenantScopeError "PendingVerification" op_findOneAndUpdate).
Proof. done. Qed.

(** So does the first step of processing a job, and the error handler does it
    again: a job ends with the tenant scope's error and changes nothing. *)
Theorem queue_job_never_progresses {A} (rest : list pv_doc -> list pv_doc * result job_error A) now tx ds :
  _jobProcessor rest now tx ds = (ds, Throw (scope_error (TenantScopeError "PendingVerification" op_findOneAndUpdate))).
Proof. done. Qed.

(** Stuck payments are looked for across schools without the bypass: the search is
    refused and none is ever requeued. *)
Theorem stuck_payments_never_requeued connected accepts {P} submitted submittedAt live p_tx p_school p_student threshold now id limit (ps : list P) ds :
  reconcileStuckPayments connected accepts submitted submittedAt live p_tx p_school p_student threshold now id limit ps ds
  = Throw (TenantScopeError "Payment" op_find).
Proof. done. Qed.

(** The two backends do not agree on what is permanent, which their shared contract
    promises: an underpayment is dead-lettered by one and retried by the other. *)
Theorem backends_disagree :
  ("UNDERPAID" ∈ PERMANENT_FAIL_CODES) /\ isPermanent (JobError (Some "UNDERPAID") None) = false /\
  ("DUPLICATE_TX" ∉ PERMANENT_FAIL_CODES) /\ isPermanent (JobError (Some "DUPLICATE_TX") None) = true.
Proof. by_decision. Qed.

(** ** The hypotheses can hold *)

Lemma recovery_offers_every_job_witness :
  recoverPendingJobs true (fun tx => negb (tx =? "b")%string) demo_docs
  = (map (fun d => if bool_decide (pv_st d = processing) then back_to_pending d else d) demo_docs, 3%nat, ["a"; "b"; "c"; "d"]).
Proof. apply (recovery_offers_every_job (fun tx => negb (tx =? "b")%string) demo_docs). by_decision. Defined.

Lemma backoff_delay_bounded_witness :
  exists z, calculateBackoffDelay 60000 2 3600000 (to_double (1 # 5)) (Fin (3 # 4)) true 4 = of_Z z /\ 0 <= z <= 3600000.
Proof.
  apply (backoff_delay_bounded 60000 2 3600000 (to_double (1 # 5)) (Fin (3 # 4)) true 4); try lia.
  - eexists. split; [vm_compute; reflexivity|reflexivity].
  - eexists. split; [reflexivity|reflexivity].
Defined.
End TransactionQueue.
