(* ===== verification/Consistency.v ===== *)
(** Consistency of the books: backend/src/services/consistencyService.js and the
    report and schedule of backend/src/services/reconciliationService.js.

    Scanning the ledger backwards page by page, comparing stored payments with it,
    recomputing each student's balance, and the drift report.  Horizon's pages are
    a parameter, and so is the database's sum of stored amounts.  (reconcileAll
    names a constant that is declared nowhere and cannot run; it is not
    modelled, nor is the short-lived cache of ledger totals of the report.) *)

From Stdlib Require Import Ascii ZArith QArith Qround Qabs Qpower Qminmax Lia Lqa.
From stdpp Require Import base list strings gmap.
From S2P Require Import Prelude JsNumber JsString StellarAmount DecimalLib Money PaymentStatus PaymentModel StudentBalance StellarRetry LedgerPayments.
Import PaymentModel.
Local Open Scope string_scope.
Local Open Scope Z_scope.
Local Open Scope list_scope.

Module Consistency.
Import StellarRetry LedgerPayments StudentBalance.

(** [parseFloat(x.toFixed(7))] *)
Definition fixed7 (x : number) : number := match toFixed x DECIMALS with Some t => parseFloat t | None => x end.

(** The literal [0.0000001]. *)
Definition TOLERANCE : number := to_double (1 # 10000000).

(** ** Scanning the ledger *)

Definition CHAIN_PAGE_SIZE : nat := 200.
Definition CHAIN_MAX_PAGES : nat := 50.

Record chain_tx := ChainTx { ct_hash : string; ct_memo : option string; ct_created_at : Z; ct_token : string; ct_ops : list operation }.

Definition before_cutoff (cutoff : option Z) (tx : chain_tx) : bool :=
  match cutoff with Some c => negb (c =? 0) && (ct_created_at tx <? c) | None => false end.

(** The records of one page: those kept, the cursor after them, and whether the
    look-back boundary was reached. *)
Fixpoint scan_batch (cutoff : option Z) (batch : list chain_tx) (records : list chain_tx) (cursor : option string)
    : list chain_tx * option string * bool :=
  match batch with
  | [] => (records, cursor, false)
  | tx :: rest =>
    if before_cutoff cutoff tx then (records, cursor, true)
    else scan_batch cutoff rest (records ++ [tx]) (Some (ct_token tx))
  end.

Section Scan.
(** The page Horizon serves after a cursor, newest first, after retries. *)
Variable fetch : option string -> result herror (list chain_tx).

Fixpoint scan_pages (left : nat) (cutoff : option Z) (records : list chain_tx) (cursor : option string) : result herror (list chain_tx) :=
  match left with
  | O => Ok records
  | S left' =>
    match fetch cursor with
    | Throw e => Throw e
    | Ok batch =>
      if (length batch =? 0)%nat then Ok records else
      let '(records', cursor', stop) := scan_batch cutoff batch records cursor in
      if stop then Ok records' else
      if (length batch <? CHAIN_PAGE_SIZE)%nat then Ok records' else scan_pages left' cutoff records' cursor'
    end
  end.

(** [lookbackDays <= 0] disables the window. *)
Definition cutoff_of (now lookbackDays : Z) : option Z := if 0 <? lookbackDays then Some (now - lookbackDays * 24 * 60 * 60 * 1000) else None.

Definition fetchChainTransactions (now lookbackDays : Z) : result herror (list chain_tx) :=
  scan_pages CHAIN_MAX_PAGES (cutoff_of now lookbackDays) [] None.
End Scan.

(** ** Comparing stored payments *)

Inductive mismatch_type := missing_on_chain | amount_mismatch | student_mismatch | student_balance_drift.

#[export] Instance mismatch_type_eq_dec : EqDecision mismatch_type.
Proof. solve_decision. Defined.

(** The kind, and the transaction or student it is about. *)
Record mismatch := Mismatch { m_type : mismatch_type; m_about : string }.

Record on_chain := OnChain { oc_memo : option string; oc_amount : number }.

(** The first plain payment operation to the wallet. *)
Definition find_payOp (address : string) (ops : list operation) : option operation :=
  List.find (fun op => bool_decide (op_type op = "payment") && bool_decide (op_to op = Some address)) ops.

Definition parse_amount (s : option string) : number := match s with Some s => parseFloat (chars s) | None => NaN end.

Definition memo_text (m : option string) : option string :=
  match m with Some m => if str_truthy m then Some (text (trim (chars m))) else None | None => None end.

Definition chainMap (address : string) (txs : list chain_tx) : gmap string on_chain :=
  foldl (fun m tx => match find_payOp address (ct_ops tx) with
                     | Some op => <[ct_hash tx := OnChain (memo_text (ct_memo tx)) (fixed7 (parse_amount (op_amount op)))]> m
                     | None => m
                     end) ∅ txs.

Definition compare_payment (m : gmap string on_chain) (p : payment) : list mismatch :=
  match m !! p_txHash p with
  | None => [Mismatch missing_on_chain (p_txHash p)]
  | Some oc =>
    (if num_gt (num_abs (num_sub (oc_amount oc) (p_amount p))) TOLERANCE then [Mismatch amount_mismatch (p_txHash p)] else []) ++
    (match oc_memo oc with
     | Some memo => if str_truthy memo && negb (memo =? p_studentId p)%string then [Mismatch student_mismatch (p_txHash p)] else []
     | None => []
     end)
  end.

(** ** Recomputing balances *)
Section Balances.
(** [$sum: '$amount'] over stored doubles. *)
Variable fsum : list number -> number.

Definition success_match (school stu : string) (e : entry) : bool :=
  let p := e_payment e in
  (p_schoolId p =? school)%string && (p_studentId p =? stu)%string && bool_decide (p_status p = S_SUCCESS) && bool_decide (p_deletedAt p = None).

(** No group when nothing matches. *)
Definition payment_total (school stu : string) (l : list entry) : number :=
  match List.filter (success_match school stu) l with
  | [] => of_Z 0
  | es => fsum (map (fun e => p_amount (e_payment e)) es)
  end.

Definition computed_total (school : string) (s : student) (l : list entry) : number :=
  fixed7 (num_add (payment_total school (st_studentId s) l) (num_or (st_creditAdjustments s) (of_Z 0))).

Definition computed_remaining (total : number) (s : student) : number := num_max (of_Z 0) (num_sub (st_feeAmount s) total).

Definition drifts (total : number) (s : student) : bool :=
  num_gt (num_abs (num_sub total (num_or (st_totalPaid s) (of_Z 0)))) TOLERANCE ||
  num_gt (num_abs (num_sub (computed_remaining total s) (num_or (default (of_Z 0) (st_remainingBalance s)) (of_Z 0)))) TOLERANCE.

Definition repaired (total remaining : number) (paid : bool) (s : student) : student :=
  Student (st_schoolId s) (st_studentId s) (st_class s) (st_academicYear s) (st_feeAmount s) (st_fees s) paid total (Some remaining)
    (st_creditAdjustments s) (st_deletedAt s).

Definition check_student (school : string) (l : list entry) (acc : list student * list mismatch) (s : student) : list student * list mismatch :=
  let total := computed_total school s l in
  if drifts total s then
    (replace_student school (st_studentId s) (repaired total (computed_remaining total s) (num_ge total (st_feeAmount s))) acc.1,
     acc.2 ++ [Mismatch student_balance_drift (st_studentId s)])
  else acc.

Definition checkStudentBalanceConsistency (school : string) (d : db) : db * list mismatch :=
  let live := List.filter (fun s => (st_schoolId s =? school)%string && bool_decide (st_deletedAt s = None)) (students d) in
  let '(ss, ms) := foldl (check_student school (ledger d)) (students d, []) live in
  (set_students ss d, ms).

Record school_result := SchoolResult { sr_school : string; sr_error : bool; sr_db : nat; sr_chain : nat; sr_mismatches : list mismatch }.

(** [scanned] is the answer of fetchChainTransactions; the soft-delete hook keeps
    the live payments. *)
Definition checkSchoolConsistency (school address : string) (scanned : result herror (list chain_tx)) (d : db) : db * result herror school_result :=
  match scanned with
  | Throw e => (d, Throw e)
  | Ok txs =>
    let dbPayments := List.filter (fun p => (p_schoolId p =? school)%string && bool_decide (p_deletedAt p = None)) (map e_payment (ledger d)) in
    let m := chainMap address txs in
    let '(d', drift) := checkStudentBalanceConsistency school d in
    (d', Ok (SchoolResult school false (length dbPayments) (size m) (flat_map (compare_payment m) dbPayments ++ drift)))
  end.

(** Every school is checked whatever happens to the others. *)
Definition settle (school : string) (r : result herror school_result) : school_result :=
  match r with Ok x => x | Throw _ => SchoolResult school true 0 0 [] end.

Definition checkConsistency (schools : list (string * string)) (scan : string -> result herror (list chain_tx)) (d : db) : db * list school_result :=
  foldl (fun '(d, rs) '(school, address) =>
           let '(d', r) := checkSchoolConsistency school address (scan address) d in (d', rs ++ [settle school r])) (d, []) schools.
End Balances.

(** ** The drift report *)

Definition add_total (m : gmap string number) (asset : string) (x : number) : gmap string number :=
  <[asset := fixed7 (num_add (num_or (default (of_Z 0) (m !! asset)) (of_Z 0)) x)]> m.

Definition asset_or_XLM (a : option string) : string := match a with Some s => str_or s "XLM" | None => "XLM" end.

Definition dbTotalsByAsset (school : string) (ps : list payment) : gmap string number :=
  foldl (fun m p => add_total m (asset_or_XLM (p_assetCode p)) (num_or (p_amount p) (of_Z 0))) ∅
    (List.filter (fun p => (p_schoolId p =? school)%string && bool_decide (p_status p = S_SUCCESS) && bool_decide (p_deletedAt p = None)) ps).

Definition chainTotalsByAsset (address : string) (txs : list chain_tx) : gmap string number :=
  foldl (fun m tx => match find_payOp address (ct_ops tx) with
                     | Some op => add_total m (asset_or_XLM (asset_code op)) (fixed7 (parse_amount (op_amount op)))
                     | None => m
                     end) ∅ txs.

Record asset_report := AssetReport { ar_db : number; ar_chain : number; ar_drift : number; ar_percentage : number; ar_alert : bool }.

Definition report_asset (threshold : number) (db chain : gmap string number) (asset : string) : asset_report :=
  let dbTotal := num_or (default (of_Z 0) (db !! asset)) (of_Z 0) in
  let chainTotal := num_or (default (of_Z 0) (chain !! asset)) (of_Z 0) in
  let drift := fixed7 (num_abs (num_sub chainTotal dbTotal)) in
  let pct := if num_gt dbTotal (of_Z 0) then num_mul (num_div drift dbTotal) (of_Z 100) else of_Z 0 in
  AssetReport dbTotal chainTotal drift pct (num_gt pct threshold).

Definition generateReconciliationReport (threshold : number) (school address : string) (ps : list payment) (txs : list chain_tx)
    : gmap string asset_report * bool :=
  let db := dbTotalsByAsset school ps in
  let chain := chainTotalsByAsset address txs in
  let assets := elements (dom db ∪ dom chain : gset string) in
  (list_to_map (map (fun a => (a, report_asset threshold db chain a)) assets),
   existsb (fun a => ar_alert (report_asset threshold db chain a)) assets).

(** ** The schedule *)

(** [run] is whether reconciliation itself succeeds, ending at [completed]; the
    persisted time is 0 when it never ran.  Answers whether it ran. *)
Definition runReconciliationIfDue (INTERVAL_MS now completed : Z) (run : bool) (lastRunAt : Z) : Z * bool :=
  if negb (lastRunAt =? 0) && (now - lastRunAt <? INTERVAL_MS) then (lastRunAt, false)
  else if run then (completed, true) else (lastRunAt, false).

(** ** The scan reads what the ledger holds *)
Section ScanFacts.
(** The wallet's history, newest first; tokens are unique. *)
Variable history : list chain_tx.
Variable cutoff : option Z.

Fixpoint after (c : option string) (h : list chain_tx) : list chain_tx :=
  match c, h with
  | None, _ => h
  | Some _, [] => []
  | Some tok, tx :: h' => if (ct_token tx =? tok)%string then h' else after c h'
  end.

(** The transactions before the first one older than the boundary. *)
Fixpoint kept (h : list chain_tx) : list chain_tx :=
  match h with
  | [] => []
  | tx :: h' => if before_cutoff cutoff tx then [] else tx :: kept h'
  end.

Lemma after_token a tx b : NoDup (map ct_token (a ++ tx :: b)) -> after (Some (ct_token tx)) (a ++ tx :: b) = b.
Proof.
  induction a as [|x a IH]; cbn; intros Hn; apply NoDup_cons in Hn as [Hx Hn].
  - by rewrite String.eqb_refl.
  - destruct (String.eqb_spec (ct_token x) (ct_token tx)) as [E|E]; [|by apply IH]. destruct Hx. rewrite E, map_app, elem_of_app. right. cbn. by left.
Qed.

Lemma kept_app a b : kept a = a -> kept (a ++ b) = a ++ kept b.
Proof.
  induction a as [|x a IH]; cbn; [done|]. destruct (before_cutoff cutoff x); [done|]. intros [= H]. by rewrite IH.
Qed.

Lemma scan_batch_spec batch : forall records cursor,
  let '(records', cursor', stop) := scan_batch cutoff batch records cursor in
  records' = records ++ kept batch /\ (stop = false -> kept batch = batch /\
    cursor' = match last batch with Some tx => Some (ct_token tx) | None => cursor end) /\
  (stop = true -> forall b, kept (batch ++ b) = kept batch).
Proof.
  induction batch as [|tx batch IH]; intros records cursor; cbn [scan_batch kept].
  - by rewrite app_nil_r.
  - cbn [app kept]. destruct (before_cutoff cutoff tx) eqn:E; [by rewrite app_nil_r|].
    specialize (IH (records ++ [tx]) (Some (ct_token tx))). destruct (scan_batch cutoff batch (records ++ [tx]) _) as [[r c] stop].
    destruct IH as (H1 & H2 & H3). rewrite H1, <- app_assoc. split; [done|]. split.
    + intros Hs. destruct (H2 Hs) as [Hk Hc]. rewrite Hk. split; [done|]. rewrite Hc. destruct batch as [|y batch]; [done|]. rewrite last_cons_cons.
      destruct (last (y :: batch)) eqn:El; [done|]. by apply last_None in El.
    + intros Hs b. by rewrite H3.
Qed.

Lemma scan_pages_spec fetch left : (forall c, fetch c = Ok (take CHAIN_PAGE_SIZE (after c history))) -> NoDup (map ct_token history) ->
  forall seen rest cursor, history = seen ++ rest -> after cursor history = rest -> kept seen = seen ->
  scan_pages fetch left cutoff seen cursor = Ok (seen ++ kept (take (left * CHAIN_PAGE_SIZE) rest)).
Proof.
  intros Hf Hn. induction left as [|left IH]; intros seen rest cursor Hh Hc Hk; cbn [scan_pages].
  - by rewrite app_nil_r.
  - rewrite Hf, Hc. set (batch := take CHAIN_PAGE_SIZE rest). change (S left * CHAIN_PAGE_SIZE)%nat with (CHAIN_PAGE_SIZE + left * CHAIN_PAGE_SIZE)%nat.
    assert (take (CHAIN_PAGE_SIZE + left * CHAIN_PAGE_SIZE) rest = batch ++ take (left * CHAIN_PAGE_SIZE) (drop CHAIN_PAGE_SIZE rest)) as ->.
    { unfold batch. by rewrite take_take_drop. }
    pose proof (scan_batch_spec batch seen cursor) as Hb.
    destruct (scan_batch cutoff batch seen cursor) as [[r c] stop]. destruct Hb as (H1 & H2 & H3).
    destruct (Nat.eqb_spec (length batch) 0) as [E|E].
    { apply nil_length_inv in E. unfold batch in E. apply take_nil_inv in E as [?| ->]; [done|]. by rewrite drop_nil, take_nil, app_nil_r. }
    destruct stop; [by rewrite H1, H3|]. destruct (H2 eq_refl) as [Hkb Hcur].
    rewrite (kept_app batch) by done. destruct (Nat.ltb_spec (length batch) CHAIN_PAGE_SIZE) as [Hl|Hl].
    { unfold batch in Hl |- *. rewrite length_take in Hl. rewrite (drop_ge rest) by lia. rewrite take_nil, app_nil_r, H1. by fold batch; rewrite Hkb. }
    rewrite app_assoc, H1, Hkb. apply IH.
    + rewrite Hh, <- app_assoc. f_equal. unfold batch. by rewrite take_drop.
    + destruct (last batch) as [tx|] eqn:El; [|apply last_None in El; rewrite El in E; done].
      apply last_Some in El as [b' Eb]. rewrite Hcur. assert (history = (seen ++ b') ++ tx :: drop CHAIN_PAGE_SIZE rest) as Eh.
      { rewrite Hh, <- app_assoc. f_equal. rewrite <- (take_drop CHAIN_PAGE_SIZE rest) at 1. fold batch. rewrite Eb, <- app_assoc. done. }
      rewrite Eh. apply after_token. by rewrite <- Eh.
    + rewrite kept_app, Hkb by done. done.
Qed.
End ScanFacts.

(** Scanning the ledger ends and is complete: against a Horizon that serves the
    wallet's history in pages, the scan gives exactly the transactions inside the
    look-back window, newest first, out of the latest ten thousand. *)
Theorem chain_scan_complete history fetch now days : NoDup (map ct_token history) ->
  (forall c, fetch c = Ok (take CHAIN_PAGE_SIZE (after c history))) ->
  fetchChainTransactions fetch now days = Ok (kept (cutoff_of now days) (take (CHAIN_MAX_PAGES * CHAIN_PAGE_SIZE) history)).
Proof.
  intros Hn Hf. unfold fetchChainTransactions. apply (scan_pages_spec history (cutoff_of now days) fetch CHAIN_MAX_PAGES Hf Hn [] history None); try done.
  by destruct history.
Qed.

(** ** A balance that was just stored shows no drift *)

(** A finite double within [e] of [q]. *)
Definition close (x : number) (q e : Q) : Prop := exists r, x = Fin r /\ (- e <= r - q <= e)%Q.

(** Half a unit in the last place of a double below [2 ^ j]. *)
Abbreviation hulp j := ((1 # 2) * Qpower 2 (j - 53))%Q.

Lemma close_double q j : 0 <= j <= 1000 -> (- Qpower 2 j < q < Qpower 2 j)%Q -> close (to_double q) q (hulp j).
Proof.
  intros Hj Hq. destruct (to_double_near q j) as (r & -> & Hr & _); [done|by apply Qabs_Qlt_condition|].
  exists r. split; [done|]. by apply Qabs_Qle_condition in Hr.
Qed.

Lemma close_add x y p q e1 e2 j : 0 <= j <= 1000 -> close x p e1 -> close y q e2 ->
  (p + q + e1 + e2 < Qpower 2 j)%Q -> (- Qpower 2 j < p + q - e1 - e2)%Q -> close (num_add x y) (p + q) (e1 + e2 + hulp j).
Proof.
  intros Hj (a & -> & Ha) (b & -> & Hb) H1 H2. change (num_add (Fin a) (Fin b)) with (to_double (a + b)).
  destruct (close_double (a + b) j) as (r & -> & Hr); [done|split; lra|]. exists r. split; [done|]. split; lra.
Qed.

Lemma close_neg x q e : close x q e -> close (num_neg x) (- q) e.
Proof. intros (r & -> & Hr). exists (- r)%Q. split; [done|]. split; lra. Qed.

Lemma close_or x q e : close x q e -> close (num_or x (of_Z 0)) q e.
Proof.
  intros (r & -> & Hr). unfold num_or, num_truthy. destruct (negb (Qnum r =? 0)) eqn:E; [by exists r|].
  apply negb_false_iff, Z.eqb_eq in E. exists 0%Q. split; [done|]. assert (r == 0)%Q as E0 by (unfold Qeq; cbn; lia). by rewrite E0 in Hr.
Qed.

Lemma close_max0 x q e : (0 <= e)%Q -> close x q e -> close (num_max (of_Z 0) x) (Qmax 0 q) e.
Proof.
  intros He (r & -> & Hr). unfold num_max, of_Z, num_le. destruct (Qle_bool (inject_Z 0) r) eqn:E.
  - apply Qle_bool_iff in E. change (inject_Z 0) with 0%Q in E. exists r. split; [done|].
    destruct (Q.max_spec 0 q) as [[? ->]|[? ->]]; split; lra.
  - assert (r < 0)%Q as E' by (apply Qnot_le_lt; intros H; apply (Qle_bool_iff 0 r) in H; unfold inject_Z in E; congruence).
    exists (inject_Z 0). split; [done|]. change (inject_Z 0) with 0%Q. destruct (Q.max_spec 0 q) as [[? ->]|[? ->]]; split; lra.
Qed.

Lemma close_within d e : close d 0 e -> (e <= 99 # 1000000000)%Q -> num_gt (num_abs d) TOLERANCE = false.
Proof.
  intros (r & -> & Hr) He. unfold num_gt, TOLERANCE.
  assert (exists t, to_double (1 # 10000000) = Fin t /\ (99 # 1000000000 < t)%Q) as (t & -> & Ht)
    by (eexists; split; [vm_compute; reflexivity|reflexivity]).
  cbn. unfold Qltb. apply negb_false_iff, Qle_bool_iff. apply Qabs_Qle_condition. split; lra.
Qed.

Lemma fixed7_close x z : close x (z # 10000000) (1 # 40000000) -> Z.abs z < 2 ^ 60 -> fixed7 x = stroopsToNumber z.
Proof.
  intros (r & -> & Hr) Hz. unfold fixed7.
  assert (Qabs (r - (z # 10000000)) <= 1 # 33000000)%Q as Hc by (apply Qabs_Qle_condition; split; lra).
  assert (Qabs r < inject_Z (10 ^ 21))%Q as Hr21.
  { apply Qabs_Qlt_condition. rewrite Zfrac in Hr. change (inject_Z (10 ^ 21)) with 1000000000000000000000%Q.
    assert (- 2000000000000000000 <= inject_Z z <= 2000000000000000000)%Q by (split; unfold Qle; simpl; lia). split; lra. }
  destruct (toFixed_parse r Hr21) as (t & -> & ->). by rewrite (toFixed_int_close r z Hc), stroopsToNumber_nearest.
Qed.

Lemma stroops_close z j : 0 <= j <= 1000 -> (- Qpower 2 j < z # 10000000 < Qpower 2 j)%Q -> close (stroopsToNumber z) (z # 10000000) (hulp j).
Proof. intros Hj Hz. rewrite stroopsToNumber_nearest. by apply close_double. Qed.

Lemma zsum_nonneg zs : Forall (fun z => 0 <= z) zs -> 0 <= zsum zs.
Proof. induction 1; cbn; lia. Qed.

Section NoDrift.
Variable fsum : list number -> number.
(** The database adds stored stroop amounts with an error below a tenth of a
    stroop, for totals below 2^25 units. *)
Hypothesis fsum_close : forall zs, Forall (fun z => 0 <= z) zs -> zsum zs < 2 ^ 25 * 10000000 ->
  close (fsum (stroopsToNumber <$> zs)) (zsum zs # 10000000) (1 # 100000000).
Variables (school : string) (l : list entry) (z : entry -> Z) (zf zc : Z) (s : student).
Let counted := List.filter (success_match school (st_studentId s)) l.
Let P := zsum (z <$> counted).
Hypothesis Hz : forall e, e ∈ counted -> p_amount (e_payment e) = stroopsToNumber (z e) /\ 0 <= z e.
Hypothesis HP : P < 2 ^ 25 * 10000000.
Hypothesis Hc : st_creditAdjustments s = stroopsToNumber zc /\ Z.abs zc < 2 ^ 25 * 10000000.
Hypothesis Hf : st_feeAmount s = stroopsToNumber zf /\ 0 <= zf < 2 ^ 26 * 10000000.

Lemma counted_nonneg : Forall (fun y => 0 <= y) (z <$> counted).
Proof. apply Forall_forall. intros y Hy. apply list_elem_of_fmap in Hy as (x & -> & Hx). by apply Hz. Qed.

Lemma P_nonneg : 0 <= P.
Proof. apply zsum_nonneg, counted_nonneg. Qed.

Lemma payment_total_close : close (payment_total fsum school (st_studentId s) l) (P # 10000000) (1 # 100000000).
Proof.
  unfold payment_total. fold counted. pose proof counted_nonneg as Hnn.
  assert (map (fun e => p_amount (e_payment e)) counted = stroopsToNumber <$> (z <$> counted)) as Em.
  { rewrite <- list_fmap_compose. apply map_ext_in. intros x Hx%list_elem_of_In. by apply Hz. }
  assert (close (fsum (map (fun e => p_amount (e_payment e)) counted)) (P # 10000000) (1 # 100000000)) as Hcl by (rewrite Em; by apply fsum_close).
  destruct (decide (counted = [])) as [E|E].
  - assert (P = 0) as -> by (unfold P; by rewrite E). rewrite E. exists (inject_Z 0). split; [done|]. vm_compute. split; discriminate.
  - clearbody P. revert E Hcl. clear. intros E Hcl. by destruct counted.
Qed.

(** The check recomputes the number the updater stores. *)
Lemma computed_total_exact : computed_total fsum school s l = stroopsToNumber (P + zc).
Proof.
  unfold computed_total. pose proof P_nonneg as HP0. destruct Hc as [-> Hzc]. apply fixed7_close; [|lia].
  assert (close (num_add (payment_total fsum school (st_studentId s) l) (num_or (stroopsToNumber zc) (of_Z 0)))
    ((P # 10000000) + (zc # 10000000)) ((1 # 100000000) + hulp 25 + hulp 26)) as (r & Hr & Hb).
  { assert (0 <= inject_Z P <= 335544319999999)%Q by (split; unfold Qle; simpl; lia).
    assert (-335544319999999 <= inject_Z zc <= 335544319999999)%Q by (split; unfold Qle; simpl; lia).
    assert (hulp 25 == 1 # 536870912)%Q as E25 by reflexivity. change (Qpower 2 25) with 33554432%Q in *.
    apply close_add; [lia|apply payment_total_close| | |].
    - apply close_or, stroops_close; [lia|]. rewrite Zfrac. change (Qpower 2 25) with 33554432%Q. split; lra.
    - rewrite (Zfrac P), (Zfrac zc), E25. change (Qpower 2 26) with 67108864%Q. lra.
    - rewrite (Zfrac P), (Zfrac zc), E25. change (Qpower 2 26) with 67108864%Q. lra. }
  exists r. split; [done|]. rewrite (Zfrac P), (Zfrac zc) in Hb. rewrite Zfrac, inject_Z_plus.
  assert (hulp 25 == 1 # 536870912)%Q as E25 by reflexivity. assert (hulp 26 == 1 # 268435456)%Q as E26 by reflexivity.
  rewrite E25, E26 in Hb. split; lra.
Qed.

Hypothesis Htotal : st_totalPaid s = stroopsToNumber (P + zc).
Hypothesis Hrem : st_remainingBalance s = Some (stroopsToNumber (Z.max 0 (zf - (P + zc)))).

Lemma stored_balance_shows_no_drift : drifts (computed_total fsum school s l) s = false.
Proof.
  unfold drifts. rewrite computed_total_exact, Htotal, Hrem. cbn [default]. pose proof P_nonneg as HP0. destruct Hc as [_ Hzc]. destruct Hf as [Ef Hzf].
  set (t := P + zc) in *. assert (- 335544320000000 < inject_Z t < 671088640000000)%Q as Ht by (split; unfold Qlt; simpl; lia).
  assert (0 <= inject_Z zf < 671088640000000)%Q as Hfq by (split; [unfold Qle|unfold Qlt]; simpl; lia).
  assert (hulp 26 == 1 # 268435456)%Q as E26 by reflexivity. assert (hulp 27 == 1 # 134217728)%Q as E27 by reflexivity.
  assert (hulp 1 <= 1 # 1000000000)%Q as E1 by (vm_compute; discriminate). assert (hulp 28 == 1 # 67108864)%Q as E28 by reflexivity.
  assert (close (stroopsToNumber t) (t # 10000000) (hulp 26)) as Hct.
  { apply stroops_close; [lia|]. rewrite Zfrac. change (Qpower 2 26) with 67108864%Q. split; lra. }
  assert (close (stroopsToNumber zf) (zf # 10000000) (hulp 26)) as Hcf.
  { apply stroops_close; [lia|]. rewrite Zfrac. change (Qpower 2 26) with 67108864%Q. split; lra. }
  apply orb_false_iff. split.
  - destruct (close_add _ _ _ _ _ _ 1 ltac:(lia) Hct (close_neg _ _ _ (close_or _ _ _ Hct))) as (r & Hr & Hb).
    { rewrite E26, Zfrac. change (Qpower 2 1) with 2%Q. lra. }
    { rewrite E26, Zfrac. change (Qpower 2 1) with 2%Q. lra. }
    apply (close_within _ (hulp 26 + hulp 26 + hulp 1)).
    + exists r. split; [exact Hr|]. rewrite Zfrac in Hb. split; lra.
    + rewrite E26. lra.
  - set (m := Z.max 0 (zf - t)). assert (Qmax 0 ((zf # 10000000) + - (t # 10000000)) == m # 10000000)%Q as Em.
    { unfold m. rewrite (Zfrac zf), (Zfrac t), (Zfrac (Z.max _ _)). destruct (Z.max_spec 0 (zf - t)) as [[Hm ->]|[Hm ->]].
      - rewrite Q.max_r; [unfold Zminus; rewrite inject_Z_plus, inject_Z_opp; ring|].
        assert (inject_Z t <= inject_Z zf)%Q by (unfold Qle; simpl; lia). lra.
      - rewrite Q.max_l; [reflexivity|]. assert (inject_Z zf <= inject_Z t)%Q by (unfold Qle; simpl; lia). lra. }
    assert (0 <= inject_Z m < 1342177280000000)%Q as Hmq by (split; [unfold Qle|unfold Qlt]; unfold m; simpl; lia).
    assert (close (computed_remaining (stroopsToNumber t) s) (m # 10000000) (hulp 26 + hulp 26 + hulp 28)) as Hcr.
    { unfold computed_remaining. rewrite Ef.
      assert (close (num_sub (stroopsToNumber zf) (stroopsToNumber t)) ((zf # 10000000) + - (t # 10000000)) (hulp 26 + hulp 26 + hulp 28)) as Hs.
      { apply close_add; [lia|done|by apply close_neg| |]; rewrite E26, (Zfrac zf), (Zfrac t); change (Qpower 2 28) with 268435456%Q; lra. }
      apply close_max0 in Hs; [|rewrite E26, E28; lra]. destruct Hs as (r & Hr & Hb). exists r. split; [done|]. by rewrite Em in Hb. }
    assert (close (stroopsToNumber m) (m # 10000000) (hulp 28)) as Hcm.
    { apply stroops_close; [lia|]. rewrite Zfrac. change (Qpower 2 28) with 268435456%Q. split; lra. }
    destruct (close_add _ _ _ _ _ _ 1 ltac:(lia) Hcr (close_neg _ _ _ (close_or _ _ _ Hcm))) as (r & Hr & Hb).
    { rewrite E26, E28, Zfrac. change (Qpower 2 1) with 2%Q. lra. }
    { rewrite E26, E28, Zfrac. change (Qpower 2 1) with 2%Q. lra. }
    apply (close_within _ (hulp 26 + hulp 26 + hulp 28 + hulp 28 + hulp 1)).
    + exists r. split; [exact Hr|]. rewrite Zfrac in Hb. split; lra.
    + rewrite E26, E28. lra.
Qed.
End NoDrift.

Lemma filter_ext_in {A} (f g : A -> bool) l : (forall x, x ∈ l -> f x = g x) -> List.filter f l = List.filter g l.
Proof. induction l as [|x l IH]; intros H; cbn; [done|]. rewrite (H x) by by left. rewrite IH; [done|]. intros y Hy. apply H. by right. Qed.

(** The updater and the consistency check agree: right after a student's balance
    was updated the check finds no drift and repairs nothing, for whole stroop
    amounts and a student none of whose successful payments is under suspicion. *)
Theorem updated_balance_shows_no_drift `{DL : DecimalLib} `{MS : !MongoSum} fsum school stu d s z zfee zf zc :
  (forall zs, Forall (fun z => 0 <= z) zs -> zsum zs < 2 ^ 25 * 10000000 ->
     close (fsum (stroopsToNumber <$> zs)) (zsum zs # 10000000) (1 # 100000000)) ->
  find_student school stu (students d) = Some s ->
  (forall e, e ∈ ledger d -> success_match school stu e = true ->
     p_amount (e_payment e) = stroopsToNumber (z e) /\ 0 <= z e < 10 ^ 15 /\ p_isSuspicious (e_payment e) = false) ->
  st_feeAmount s = stroopsToNumber zf /\ 0 <= zf < 2 ^ 26 * 10000000 ->
  st_creditAdjustments s = stroopsToNumber zc /\ Z.abs zc < 2 ^ 25 * 10000000 ->
  Forall (fun c => fc_amount c = stroopsToNumber (zfee c) /\ 0 <= zfee c < 10 ^ 15) (st_fees s) ->
  paid_by d z (success_match school stu) < 2 ^ 25 * 10000000 ->
  exists d' s', updateStudentBalance school stu true d = (d', Ok (Some s')) /\ find_student school stu (students d') = Some s' /\
    drifts (computed_total fsum school s' (ledger d')) s' = false.
Proof.
  intros Hsum Hfind Hz [Hf1 Hf2] [Hc1 Hc2] Hfees HP.
  assert (forall e, e ∈ ledger d -> canonicalPaidMatch school stu None e = success_match school stu e) as Hsame.
  { intros e He. unfold canonicalPaidMatch, success_match. specialize (Hz e He). unfold success_match in Hz. rewrite andb_true_r.
    destruct (p_schoolId _ =? school)%string; [|done]. destruct (p_studentId _ =? stu)%string; [|done]. cbn [andb] in *.
    destruct (bool_decide (p_status _ = _)); destruct (bool_decide (p_deletedAt _ = None)); try done; cbn [andb] in *.
    by destruct (Hz eq_refl) as (_ & _ & ->). }
  assert (paid_by d z (canonicalPaidMatch school stu None) = paid_by d z (success_match school stu)) as Epaid
    by (unfold paid_by; by rewrite (filter_ext_in _ _ _ Hsame)).
  destruct (stored_balance_spec school stu d s z zfee zf zc) as (d' & Hup & Hfind' & _ & El & _).
  - done.
  - intros e He Hm. rewrite Hsame in Hm by done. by destruct (Hz e He Hm) as (? & ? & _).
  - split; [done|lia].
  - split; [done|lia].
  - done.
  - rewrite Epaid. lia.
  - exists d', (with_balance (stroop_spec (paid_by d z (canonicalPaidMatch school stu None) + zc) zf) (category_spec school stu d z zfee <$> st_fees s) s).
    split; [done|]. split; [done|]. rewrite El. destruct (find_student_Some _ _ _ _ Hfind) as (_ & Hstu & _).
    apply (stored_balance_shows_no_drift fsum Hsum school (ledger d) z zf zc); cbn [st_studentId st_creditAdjustments st_feeAmount st_totalPaid st_remainingBalance with_balance];
      rewrite ?Hstu; try done.
    + intros e [Hm He]%elem_of_filterb. destruct (Hz e He Hm) as (? & ? & _). split; [done|lia].
    + cbn. by rewrite Epaid.
    + cbn. by rewrite Epaid.
Qed.

(** ** The hypotheses can hold *)

(** A sum that rounds once. *)
Definition demo_fsum (l : list number) : number := stroopsToNumber (zsum (stroops_of <$> l)).

Lemma demo_fsum_close zs : Forall (fun z => 0 <= z) zs -> zsum zs < 2 ^ 25 * 10000000 ->
  close (demo_fsum (stroopsToNumber <$> zs)) (zsum zs # 10000000) (1 # 100000000).
Proof.
  intros Hnn Hb. unfold demo_fsum. rewrite <- list_fmap_compose.
  assert (stroops_of ∘ stroopsToNumber <$> zs = zs) as ->.
  { assert (zsum zs < 10 ^ 15) as Hb' by lia. clear Hb. induction Hnn as [|y ys Hy Hys IH]; [done|]. pose proof (zsum_nonneg ys Hys). cbn in Hb'.
    rewrite fmap_cons. cbn. rewrite stroops_of_number by lia. f_equal. apply IH. lia. }
  pose proof (zsum_nonneg zs Hnn). assert (0 <= inject_Z (zsum zs) < 335544320000000)%Q by (split; [unfold Qle|unfold Qlt]; simpl; lia).
  destruct (stroops_close (zsum zs) 25) as (r & Hr & Hc); [lia|rewrite Zfrac; change (Qpower 2 25) with 33554432%Q; split; lra|].
  exists r. split; [done|]. assert (hulp 25 <= 1 # 100000000)%Q by (vm_compute; discriminate). split; lra.
Qed.

Definition hist : list chain_tx := [ChainTx "t1" None 200 "k1" []; ChainTx "t2" None 100 "k2" []; ChainTx "t3" None (- 1) "k3" []].

Lemma chain_scan_complete_witness :
  fetchChainTransactions (fun c => Ok (take CHAIN_PAGE_SIZE (after c hist))) 86400050 1
  = Ok (kept (Some 50) (take (CHAIN_MAX_PAGES * CHAIN_PAGE_SIZE) hist)).
Proof. apply (chain_scan_complete hist (fun c => Ok (take CHAIN_PAGE_SIZE (after c hist))) 86400050 1); [by_decision|done]. Defined.

Lemma updated_balance_shows_no_drift_witness :
  exists d' s', updateStudentBalance (DL := exact_decimal) (MS := exact_sum) "SCH-1" "STU-1" true a_db = (d', Ok (Some s')) /\
    find_student "SCH-1" "STU-1" (students d') = Some s' /\
    drifts (computed_total demo_fsum "SCH-1" s' (ledger d')) s' = false.
Proof.
  apply (updated_balance_shows_no_drift (DL := exact_decimal) (MS := exact_sum) demo_fsum "SCH-1" "STU-1" a_db
    (a_student [FeeCategory "tuition" (stroopsToNumber 1000000) false (of_Z 0) None] 7000000 4000000)
    entry_stroops (fun c => stroops_of (fc_amount c)) 7000000 4000000).
  - exact demo_fsum_close.
  - reflexivity.
  - intros e He _. apply Forall_forall with (x := e) (l := ledger a_db); [|done]. repeat constructor; vm_compute; done.
  - split; [reflexivity|done].
  - split; [reflexivity|done].
  - repeat constructor; vm_compute; done.
  - vm_compute. done.
Defined.

(** ** What the check gets wrong *)

Definition suspicious_db : db :=
  Db [a_student [] 1000000000 0]
     [Entry (Payment 1 "SCH-1" "STU-1" "tx" 0 (stroopsToNumber 1000000000) None S_SUCCESS true Confirmation.Confirmation.FINALIZED
              Confirmation.Confirmation.confirmed None None) None 10] [] [].

(** A successful payment under suspicion is not counted by the updater but is by
    the check, which reports drift and marks the fee as paid; the next update takes
    it back, and so on. *)
Theorem repair_credits_suspicious_payment :
  let d1 := (updateStudentBalance (DL := exact_decimal) (MS := exact_sum) "SCH-1" "STU-1" true suspicious_db).1 in
  let '(d2, ms) := checkStudentBalanceConsistency demo_fsum "SCH-1" d1 in
  let d3 := (updateStudentBalance (DL := exact_decimal) (MS := exact_sum) "SCH-1" "STU-1" true d2).1 in
  map st_feePaid (students d1) = [false] /\ ms = [Mismatch student_balance_drift "STU-1"] /\
  map st_feePaid (students d2) = [true] /\ d3 = d1.
Proof. vm_compute. done. Qed.

Definition path_op : operation :=
  Operation "path_payment_strict_receive" (Some "GW") (Some "GP") (Some "native") None None (Some "9.0") (Some "native") None None (Some "5.0").

(** A payment the poller credits, made by a path payment, is reported as missing on
    the ledger. *)
Theorem path_payment_reported_missing :
  (exists v, extractValidPayment (SDK := exact_sdk) xlm (Ok [path_op]) tx0 "GW" = Ok (Some v)) /\
  compare_payment (chainMap "GW" [ChainTx (tx_hash tx0) (tx_memo tx0) 0 "k" [path_op]])
    (Payment 1 "SCH-1" "STU-1" (tx_hash tx0) 0 (of_Z 5) None S_SUCCESS false Confirmation.Confirmation.FINALIZED
       Confirmation.Confirmation.confirmed None None) = [Mismatch missing_on_chain (tx_hash tx0)].
Proof. split; [eexists; vm_compute; reflexivity|]. vm_compute. reflexivity. Qed.

(** All stored payments are compared with the look-back window of the ledger: one
    made before the window is reported as missing. *)
Theorem old_payment_reported_missing :
  let ledger_history := [ChainTx "old" None 1000 "k" [Operation "payment" (Some "GW") None (Some "native") None None (Some "5.0") None None None None]] in
  let fetch c := Ok (take CHAIN_PAGE_SIZE (after c ledger_history)) in
  match fetchChainTransactions fetch (1001 + 90 * 86400000) 90 with
  | Ok txs => compare_payment (chainMap "GW" txs)
      (Payment 1 "SCH-1" "STU-1" "old" 0 (of_Z 5) None S_SUCCESS false Confirmation.Confirmation.FINALIZED
         Confirmation.Confirmation.confirmed None None) = [Mismatch missing_on_chain "old"]
  | Throw _ => False
  end.
Proof. vm_compute. done. Qed.

(** Money that arrived while nothing was recorded raises no alert, however much it
    is: the percentage is taken of what the books say. *)
Theorem unrecorded_income_raises_no_alert :
  (generateReconciliationReport (to_double (1 # 2)) "SCH-1" "GW" []
     [ChainTx "t" None 0 "k" [Operation "payment" (Some "GW") None (Some "native") None None (Some "1000000.0") None None None None]]).2 = false.
Proof. vm_compute. reflexivity. Qed.
End Consistency.
