(* ===== verification/Auth.v ===== *)
(** Who may call what: backend/src/middleware/auth.js (super-admin and school
    guards, address blocking), backend/src/middleware/schoolContext.js (which
    school a request is for) and backend/src/services/tokenService.js (access
    tokens and the session denylist).  The jsonwebtoken package is a class with
    the laws its documentation states; the user collection is a parameter.
    Redis and the process cache are the key-value servers of DistributedLock. *)

From Stdlib Require Import Ascii ZArith Lia.
From stdpp Require Import countable base strings gmap list.
From S2P Require Import Prelude JsString DistributedLock.
Local Open Scope string_scope.
Local Open Scope Z_scope.
Local Open Scope list_scope.

(** ** Tokens *)

Module Jwt.

(** The claims the middleware reads.  The empty string is an absent claim or
    [null]; [c_roles] is [None] when the claim is not an array. *)
Record claims := Claims {
  c_role : string; c_roles : option (list string);
  c_userId : string; c_sub : string; c_id : string; c_username : string;
  c_schoolId : string; c_sid : string; c_jti : string; c_sessionId : string;
  c_tokenVersion : Z; c_iat : option Z; c_mfaSetupPending : bool }.

Record sign_options := SignOptions {
  so_algorithm : string; so_expiresIn : Z; so_issuer : option string;
  so_audience : option string; so_jwtid : option string }.

Record verify_options := VerifyOptions {
  vo_algorithms : list string; vo_issuer : option string; vo_audience : option string }.

Inductive jwt_error := TokenExpiredError | JsonWebTokenError.

(** A token without options: HS256, no issuer and no audience.  Verifying
    without options accepts every HMAC algorithm. *)
Definition sign_defaults (expiresIn : Z) : sign_options := SignOptions "HS256" expiresIn None None None.
Definition verify_defaults : verify_options := VerifyOptions ["HS256"; "HS384"; "HS512"] None None.

Definition demanded (given want : option string) : bool :=
  match want with None => true | Some w => bool_decide (given = Some w) end.

Definition options_match (so : sign_options) (vo : verify_options) : bool :=
  bool_decide (so_algorithm so ∈ vo_algorithms vo)
  && demanded (so_issuer so) (vo_issuer vo) && demanded (so_audience so) (vo_audience vo).

(** What a verified token carries: the payload, when it was issued and its id. *)
Definition stamp (so : sign_options) (now : Z) (p : claims) : claims :=
  Claims (c_role p) (c_roles p) (c_userId p) (c_sub p) (c_id p) (c_username p)
    (c_schoolId p) (c_sid p) (default (c_jti p) (so_jwtid so)) (c_sessionId p)
    (c_tokenVersion p) (Some now) (c_mfaSetupPending p).

(** jsonwebtoken and the key derivation of node's crypto; times are in seconds. *)
Class JwtLib := {
  jwt_sign : claims -> string -> sign_options -> Z -> string;
  jwt_verify : string -> string -> verify_options -> Z -> result jwt_error claims;
  hkdf : string -> string;
  jwt_sign_truthy : forall p key so now, str_truthy (jwt_sign p key so now) = true;
  jwt_verify_signed : forall p key so now vo t, str_truthy key = true -> options_match so vo = true ->
    t < now + so_expiresIn so -> jwt_verify (jwt_sign p key so now) key vo t = Ok (stamp so now p);
  jwt_verify_expired : forall p key so now vo t, str_truthy key = true ->
    so_algorithm so ∈ vo_algorithms vo -> now + so_expiresIn so <= t ->
    jwt_verify (jwt_sign p key so now) key vo t = Throw TokenExpiredError;
  (** Whatever the keys, an accepted token was signed with the demanded options. *)
  jwt_verify_options : forall p key so now key' vo t c,
    jwt_verify (jwt_sign p key so now) key' vo t = Ok c -> options_match so vo = true;
  hkdf_truthy : forall s, str_truthy (hkdf s) = true }.

(** *** An instance *)

Definition claims_tuple (c : claims) :=
  (c_role c, c_roles c, (c_userId c, c_sub c, c_id c, c_username c),
   (c_schoolId c, c_sid c, c_jti c, c_sessionId c), (c_tokenVersion c, c_iat c, c_mfaSetupPending c)).
#[export] Instance claims_eq_dec : EqDecision claims.
Proof. solve_decision. Defined.
#[export] Instance claims_countable : Countable claims.
Proof.
  refine (inj_countable' claims_tuple
    (fun '(r, rs, (u, s, i, n), (sc, sid, j, se), (v, iat, m)) => Claims r rs u s i n sc sid j se v iat m) _).
  by intros [].
Defined.

(** A token in clear: the bits of everything that was signed. *)
Fixpoint bits (p : positive) : string :=
  match p with xH => "." | xO p => String "0" (bits p) | xI p => String "1" (bits p) end.
Fixpoint unbits (s : string) : option positive :=
  match s with
  | String "0" s => xO <$> unbits s
  | String "1" s => xI <$> unbits s
  | "." => Some xH
  | _ => None
  end.
Lemma unbits_bits p : unbits (bits p) = Some p.
Proof. by induction p as [p IH|p IH|]; simpl; rewrite ?IH. Qed.

Abbreviation clear := (claims * string * (string * Z * option string * option string * option string) * Z)%type.
Definition so_tuple (so : sign_options) :=
  (so_algorithm so, so_expiresIn so, so_issuer so, so_audience so, so_jwtid so).
Definition so_of (x : string * Z * option string * option string * option string) : sign_options :=
  let '(a, e, i, u, j) := x in SignOptions a e i u j.

Definition clear_sign (p : claims) (key : string) (so : sign_options) (now : Z) : string :=
  bits (encode ((p, key, so_tuple so, now) : clear)).

Definition clear_verify (tok key : string) (vo : verify_options) (t : Z) : result jwt_error claims :=
  match unbits tok ≫= (decode : positive -> option clear) with
  | None => Throw JsonWebTokenError
  | Some (p, k, sot, now) =>
    let so := so_of sot in
    if negb (str_truthy key && bool_decide (k = key) && bool_decide (so_algorithm so ∈ vo_algorithms vo))
    then Throw JsonWebTokenError
    else if now + so_expiresIn so <=? t then Throw TokenExpiredError
    else if demanded (so_issuer so) (vo_issuer vo) && demanded (so_audience so) (vo_audience vo)
    then Ok (stamp so now p) else Throw JsonWebTokenError
  end.

Lemma clear_verify_signed p key so now key' vo t :
  clear_verify (clear_sign p key so now) key' vo t =
  (if negb (str_truthy key' && bool_decide (key = key') && bool_decide (so_algorithm so ∈ vo_algorithms vo))
   then Throw JsonWebTokenError
   else if now + so_expiresIn so <=? t then Throw TokenExpiredError
   else if demanded (so_issuer so) (vo_issuer vo) && demanded (so_audience so) (vo_audience vo)
   then Ok (stamp so now p) else Throw JsonWebTokenError).
Proof.
  unfold clear_verify, clear_sign. rewrite unbits_bits. cbn [mbind option_bind]. rewrite decode_encode.
  by destruct so.
Qed.

#[refine] Definition clear_jwt : JwtLib := {|
  jwt_sign := clear_sign; jwt_verify := clear_verify; hkdf s := ("derived:" ++ s)%string |}.
Proof.
  - intros. unfold clear_sign. by destruct (encode _).
  - intros p key so now vo t Hk Ho Ht. unfold options_match in Ho.
    apply andb_prop in Ho as [Ho Hu]. apply andb_prop in Ho as [Ha Hi].
    rewrite clear_verify_signed, Hk, Ha, Hi, Hu, bool_decide_true by done. simpl.
    by destruct (Z.leb_spec (now + so_expiresIn so) t); [lia|].
  - intros p key so now vo t Hk Ha Ht. rewrite clear_verify_signed, Hk, !bool_decide_true by done. simpl.
    by destruct (Z.leb_spec (now + so_expiresIn so) t); [|lia].
  - intros p key so now key' vo t c. rewrite clear_verify_signed. unfold options_match.
    destruct (str_truthy key'), (bool_decide (key = key')), (bool_decide (so_algorithm so ∈ vo_algorithms vo)),
      (now + so_expiresIn so <=? t), (demanded (so_issuer so) (vo_issuer vo)), (demanded (so_audience so) (vo_audience vo));
      simpl; by intros.
  - done.
Defined.
End Jwt.
Import Jwt.

(** ** The two key-value stores a guard uses *)

Module Stores.
Import DistributedLock.

(** The process cache ([node-cache], whose keys are still served in the
    millisecond they expire) and Redis; both run on the same clock. *)
Record stores := Stores { s_redis : redis; s_cache : redis }.

Definition both (f : redis -> redis) (s : stores) : stores := Stores (f (s_redis s)) (f (s_cache s)).
Definition wait (dt : Z) : stores -> stores := both (tick dt).
Definition time_s (s : stores) : Z := clock (s_cache s) / 1000.
Definition on_redis (f : redis -> redis) (s : stores) : stores := Stores (f (s_redis s)) (s_cache s).
Definition on_cache (f : redis -> redis) (s : stores) : stores := Stores (s_redis s) (f (s_cache s)).

Definition cache_set (k : string) (v : rval) (ttl : Z) (s : stores) : stores :=
  on_cache (rset k (Entry v (Some (clock (s_cache s) + ttl * 1000 + 1)))) s.
Definition redis_set_ex (k : string) (v : rval) (ttl : Z) (s : stores) : stores :=
  on_redis (rset k (Entry v (Some (clock (s_redis s) + ttl * 1000)))) s.

Definition rval_truthy (v : rval) : bool :=
  match v with VTok t => str_truthy t | VInt n => negb (n =? 0) end.
Definition has (k : string) (r : redis) : bool :=
  match rget k r with Some e => rval_truthy (e_val e) | None => false end.
Definition exists_key (k : string) (r : redis) : bool :=
  match rget k r with Some _ => true | None => false end.
(** [get(k) || 0] of a counter. *)
Definition count_of (k : string) (r : redis) : Z :=
  match rget k r with Some (Entry (VInt n) _) => n | _ => 0 end.

(** [EXPIRE]. *)
Definition expire (k : string) (ttl : Z) (r : redis) : redis :=
  match rget k r with Some e => rset k (Entry (e_val e) (Some (clock r + ttl * 1000))) r | None => r end.

(** How the Redis calls of one request end; [e_ready] is [redis && isRedisReady()],
    [e_exists] and [e_get] say that those reads return. *)
Record redis_env := RedisEnv {
  e_ready : bool; e_exists : bool; e_get : bool; e_incr : fault; e_expire : fault; e_set : fault }.
Definition healthy : redis_env := RedisEnv true true true NoFault NoFault NoFault.
Definition no_redis : redis_env := RedisEnv false true true NoFault NoFault NoFault.

(** A call that changes the server: the state after it, and whether it returned. *)
Definition attempt (f : fault) (op : stores -> stores) (s : stores) : stores * bool :=
  match f with NoFault => (op s, true) | LostReply => (op s, false) | LostRequest => (s, false) end.

(** One more failure in Redis: count it under [fk] in a window of [window]
    seconds and, from [thr] failures on, set the flag [bk] in both stores for
    [ttl] seconds.  [None]: a call threw; [Some true]: the flag was set. *)
Definition bump (e : redis_env) (fk bk : string) (window thr ttl : Z) (s : stores) : stores * option bool :=
  match incr fk (s_redis s) with
  | None => (s, None)
  | Some (n, r) =>
    let '(s, ok) := attempt (e_incr e) (on_redis (fun _ => r)) s in
    if negb ok then (s, None) else
    let '(s, ok) := if n =? 1 then attempt (e_expire e) (on_redis (expire fk window)) s else (s, true) in
    if negb ok then (s, None) else
    if thr <=? n then
      let '(s, ok) := attempt (e_set e) (redis_set_ex bk (VTok "1") ttl) s in
      if negb ok then (s, None) else (cache_set bk (VTok "true") ttl s, Some true)
    else (s, Some false)
  end.

(** A running count, and a flag that is set, as Redis stores them. *)
Definition counting (fk bk : string) (n until : Z) (s : stores) : Prop :=
  store (s_redis s) !! fk = Some (Entry (VInt n) (Some until)) /\ store (s_redis s) !! bk = None.
Definition flagged (bk : string) (until : Z) (s : stores) : Prop :=
  store (s_redis s) !! bk = Some (Entry (VTok "1") (Some until)).
Definition redis_time (s : stores) : Z := clock (s_redis s).

Section Counting.
Context (fk bk : string) (window thr ttl : Z) (Hkeys : fk <> bk) (Hthr : 1 < thr).

(** The first failure starts a window. *)
Lemma bump_first s : store (s_redis s) !! fk = None -> store (s_redis s) !! bk = None ->
  exists s', bump healthy fk bk window thr ttl s = (s', Some false) /\
    redis_time s' = redis_time s /\ counting fk bk 1 (redis_time s + window * 1000) s'.
Proof.
  intros Hf Hb. unfold bump, incr, rget. rewrite Hf. cbn -[Z.leb].
  destruct (Z.leb_spec thr 1); [lia|]. eexists. split; [reflexivity|]. unfold redis_time, counting, expire, rget.
  cbn. rewrite lookup_insert_eq. cbn. by rewrite lookup_insert_eq, !lookup_insert_ne by done.
Qed.

(** A later one inside the window counts, and the last one raises the flag. *)
Lemma bump_next s n until : counting fk bk n until s -> 1 <= n -> redis_time s < until ->
  exists s' b, bump healthy fk bk window thr ttl s = (s', Some b) /\ redis_time s' = redis_time s /\
    if n + 1 <? thr then counting fk bk (n + 1) until s' else flagged bk (redis_time s + ttl * 1000) s'.
Proof.
  intros [Hf Hb] Hn Ht. unfold bump, incr, rget. rewrite Hf. unfold live; cbn [e_exp]. unfold redis_time in Ht.
  destruct (Z.ltb_spec (clock (s_redis s)) until); [|lia]. cbn -[Z.add Z.eqb Z.leb Z.ltb Z.mul].
  destruct (Z.eqb_spec (n + 1) 1); [lia|]. cbn -[Z.add Z.eqb Z.leb Z.ltb Z.mul].
  destruct (Z.leb_spec thr (n + 1)), (Z.ltb_spec (n + 1) thr); try lia; eexists _, _; (split; [reflexivity|]);
    unfold counting, flagged, redis_time; cbn -[Z.add Z.mul].
  - by rewrite lookup_insert_eq.
  - by rewrite lookup_insert_eq, lookup_insert_ne by done.
Qed.

(** [thr] failures, the pauses between them adding up to less than the window,
    raise the flag; [f] is a handler that counts a failure while there is no flag. *)
Context {W : Type} (stores_of : W -> stores) (f : W -> W) (pause : Z -> W -> W).
Hypothesis f_bumps : forall w, store (s_redis (stores_of w)) !! bk = None ->
  forall s' b, bump healthy fk bk window thr ttl (stores_of w) = (s', Some b) -> s_redis (stores_of (f w)) = s_redis s'.
Hypothesis pause_waits : forall d w, s_redis (stores_of (pause d w)) = tick d (s_redis (stores_of w)).

Fixpoint repeat_with (pauses : list Z) (w : W) : W :=
  match pauses with [] => f w | d :: ds => repeat_with ds (pause d (f w)) end.

Lemma repeat_flags pauses : forall w n until, counting fk bk n until (stores_of w) ->
  1 <= n -> n + Z.of_nat (length pauses) = thr - 1 -> Forall (fun d => 0 <= d) pauses ->
  redis_time (stores_of w) + foldr Z.add 0 pauses < until ->
  flagged bk (redis_time (stores_of (repeat_with pauses w)) + ttl * 1000) (stores_of (repeat_with pauses w)).
Proof.
  induction pauses as [|d ds IH]; intros w n until Hw Hn Hl Hp Ht; simpl in *.
  - destruct (bump_next (stores_of w) n until) as (s' & b & Hs & Hc & Hb); [done..|lia|].
    destruct (Z.ltb_spec (n + 1) thr); [lia|]. apply f_bumps in Hs; [|apply Hw].
    unfold flagged, redis_time in *. rewrite Hs. by rewrite Hc.
  - apply Forall_cons in Hp as [Hd Hp]. assert (0 <= foldr Z.add 0 ds) by (clear -Hp; induction Hp; simpl; lia).
    destruct (bump_next (stores_of w) n until) as (s' & b & Hs & Hc & Hb); [done..|lia|].
    destruct (Z.ltb_spec (n + 1) thr); [|lia]. apply f_bumps in Hs; [|apply Hw].
    apply (IH _ (n + 1) until); [|lia|lia|done|]; unfold counting, redis_time in *; rewrite pause_waits, Hs; cbn [store clock tick]; [done|lia].
Qed.

Lemma failures_flag pauses w :
  store (s_redis (stores_of w)) !! fk = None -> store (s_redis (stores_of w)) !! bk = None ->
  Z.of_nat (length pauses) = thr - 1 -> Forall (fun d => 0 <= d) pauses -> foldr Z.add 0 pauses < window * 1000 ->
  flagged bk (redis_time (stores_of (repeat_with pauses w)) + ttl * 1000) (stores_of (repeat_with pauses w)).
Proof.
  intros Hf Hb Hl Hp Hs. destruct pauses as [|d ds]; simpl in Hl; [lia|]. apply Forall_cons in Hp as [Hd Hp]. simpl in Hs.
  destruct (bump_first (stores_of w)) as (s' & Hs' & Hc & Hw); [done..|]. apply f_bumps in Hs'; [|done].
  cbn [repeat_with]. apply (repeat_flags ds _ 1 (redis_time (stores_of w) + window * 1000)); [|lia|lia|done|];
    unfold counting, redis_time in *; rewrite pause_waits, Hs'; cbn [store clock tick]; [done|lia].
Qed.
End Counting.

Lemma flagged_exists bk until dt s : flagged bk until s -> redis_time s + dt < until ->
  exists_key bk (tick dt (s_redis s)) = true.
Proof.
  unfold flagged, exists_key, rget, redis_time. intros H Ht. cbn [store clock tick]. rewrite H. unfold live; cbn [e_exp].
  by destruct (Z.ltb_spec (clock (s_redis s) + dt) until); [|lia].
Qed.
End Stores.
Import Stores.

(** ** services/tokenService.js *)

Module TokenService.
Import DistributedLock.

Definition ISSUER : string := "stellaredupay-api".
Definition AUDIENCE : string := "stellaredupay-admin".
Definition ALGORITHM : string := "HS256".

(** The environment; the empty string is an unset variable. *)
Record config := Config { JWT_SIGNING_KEY : string; JWT_SECRET : string; ACCESS_TTL : Z }.

Section Tokens.
Context `{JL : JwtLib} (cfg : config).

Definition getSigningKey : result jwt_error string :=
  if str_truthy (JWT_SIGNING_KEY cfg) then Ok (JWT_SIGNING_KEY cfg)
  else if negb (str_truthy (JWT_SECRET cfg)) then Throw JsonWebTokenError
  else Ok (hkdf (JWT_SECRET cfg)).

Definition with_sid (sid : string) (p : claims) : claims :=
  Claims (c_role p) (c_roles p) (c_userId p) (c_sub p) (c_id p) (c_username p)
    (c_schoolId p) sid (c_jti p) (c_sessionId p) (c_tokenVersion p) (c_iat p) (c_mfaSetupPending p).

Record signed := Signed { sg_token : string; sg_sid : string; sg_expiresIn : Z }.

(** [opt_expiresIn] and [opt_sid] are the caller's options (0 and the empty
    string when absent), [random_sid] and [uuid] the random draws. *)
Definition sign (payload : claims) (opt_expiresIn : Z) (opt_sid random_sid uuid : string) (now : Z)
  : result jwt_error signed :=
  let expiresIn := if opt_expiresIn =? 0 then ACCESS_TTL cfg else opt_expiresIn in
  let sid := str_or opt_sid random_sid in
  key ← getSigningKey;
  Ok (Signed (jwt_sign (with_sid sid payload) key
                (SignOptions ALGORITHM expiresIn (Some ISSUER) (Some AUDIENCE) (Some uuid)) now) sid expiresIn).

Definition verify (token : string) (now : Z) : result jwt_error claims :=
  key ← getSigningKey;
  jwt_verify token key (VerifyOptions [ALGORITHM] (Some ISSUER) (Some AUDIENCE)) now.

Definition revokedSidKey (sid : string) : string := ("revoked:sid:" ++ sid)%string.

(** The session denylist. *)
Definition revokeSession (e : redis_env) (sid : string) (ttlSeconds : Z) (s : stores) : stores :=
  if negb (str_truthy sid) then s else
  let ttl := if ttlSeconds =? 0 then ACCESS_TTL cfg else ttlSeconds in
  let s := cache_set (revokedSidKey sid) (VTok "true") ttl s in
  if e_ready e then (attempt (e_set e) (redis_set_ex (revokedSidKey sid) (VTok "1") ttl) s).1 else s.

Definition isSessionRevoked (e : redis_env) (sid : string) (s : stores) : bool :=
  if negb (str_truthy sid) then false
  else if has (revokedSidKey sid) (s_cache s) then true
  else if e_ready e && e_get e then has (revokedSidKey sid) (s_redis s)
  else false.
End Tokens.
End TokenService.
Import TokenService.

(** ** middleware/auth.js *)

Module AuthMiddleware.
Import DistributedLock.

Definition IP_FAIL_WINDOW : Z := 300.
Definition IP_FAIL_THRESHOLD : Z := 5.
Definition IP_BLOCK_TTL : Z := 900.

Definition ipFailKey (ip : string) : string := ("ip_auth_fail:" ++ ip)%string.
Definition ipBlockKey (ip : string) : string := ("ip_blocked:" ++ ip)%string.

(** What the guards read of a request; absent values are empty strings. *)
Record request := Request {
  rq_ip : string; rq_remoteAddress : string;
  rq_authorization : string; rq_admin_token : string;
  rq_x_school_id : string; rq_x_school_slug : string;
  rq_query_schoolId : string; rq_params_schoolId : string; rq_path : string }.

Record user := User { u_isActive : option bool; u_tokenVersion : Z }.

Record audit := Audit { a_schoolId : string; a_action : string; a_code : string }.

(** The state the guards change: the stores, the audit log (newest last; the
    audit service never throws) and the alerts raised. *)
Record world := World { w_stores : stores; w_audit : list audit; w_alerts : list string }.
Definition on_stores (f : stores -> stores) (w : world) : world :=
  World (f (w_stores w)) (w_audit w) (w_alerts w).

(** A guard answers the request or lets it through with the fields it sets. *)
Record passed := Passed { n_user : claims; n_schoolId : option string }.
Inductive reply := Next (p : passed) | Resp (status : Z) (code : string).

Definition client_ip (q : request) : string := str_or (rq_ip q) (str_or (rq_remoteAddress q) "unknown").

Definition bearer (q : request) : string :=
  if starts_with (chars "Bearer ") (chars (rq_authorization q))
  then text (drop 7 (chars (rq_authorization q))) else "".
Definition request_token (q : request) : string := str_or (rq_admin_token q) (bearer q).

Definition isSuperAdmin (c : claims) : bool :=
  bool_decide (c_role c = "admin")
  || match c_roles c with Some rs => bool_decide ("super_admin" ∈ rs) | None => false end.

(** One more failure of an address in the process cache. *)
Definition count_in_cache (ip : string) (w : world) : world :=
  let n := count_of (ipFailKey ip) (s_cache (w_stores w)) + 1 in
  let w := on_stores (cache_set (ipFailKey ip) (VInt n) IP_FAIL_WINDOW) w in
  if IP_FAIL_THRESHOLD <=? n
  then let w := on_stores (cache_set (ipBlockKey ip) (VTok "true") IP_BLOCK_TTL) w in
       World (w_stores w) (w_audit w) (w_alerts w ++ [ip])
  else w.

Definition track_failure (e : redis_env) (ip : string) (w : world) : world :=
  if e_ready e
  then match bump e (ipFailKey ip) (ipBlockKey ip) IP_FAIL_WINDOW IP_FAIL_THRESHOLD IP_BLOCK_TTL (w_stores w) with
       | (s, Some blocked) => World s (w_audit w) (if blocked then w_alerts w ++ [ip] else w_alerts w)
       | (s, None) => count_in_cache ip (on_stores (fun _ => s) w)
       end
  else count_in_cache ip w.

Definition handleAuthFailure (e : redis_env) (q : request) (ip code : string) (countTowardsBlock : bool)
    (w : world) : world * reply :=
  let w := World (w_stores w) (w_audit w ++ [Audit (str_or (rq_x_school_id q) "system") "auth_failure" code]) (w_alerts w) in
  ((if countTowardsBlock then track_failure e ip w else w), Resp 401 code).

(** The address block, looked up in Redis, or in the cache when Redis is away. *)
Definition isBlocked (e : redis_env) (ip : string) (s : stores) : bool :=
  if e_ready e
  then if e_exists e then exists_key (ipBlockKey ip) (s_redis s) else has (ipBlockKey ip) (s_cache s)
  else has (ipBlockKey ip) (s_cache s).

Section Guards.
Context `{JL : JwtLib} (cfg : config) (findById : string -> result unit (option user)).

(** [None]: the token's user is still entitled to it. *)
Definition checkSessionRevoked (c : claims) : option reply :=
  if bool_decide (c_role c = "admin") && negb (str_truthy (c_userId c)) && negb (str_truthy (c_sub c)) then None else
  let userId := str_or (c_userId c) (str_or (c_sub c) (c_id c)) in
  if negb (str_truthy userId) then None else
  match findById userId with
  | Throw _ => Some (Resp 500 "SESSION_CHECK_FAILED")
  | Ok None => Some (Resp 401 "SESSION_REVOKED")
  | Ok (Some u) =>
    if bool_decide (u_isActive u = Some false) then Some (Resp 401 "SESSION_REVOKED")
    else if negb (u_tokenVersion u =? c_tokenVersion c) then Some (Resp 401 "SESSION_REVOKED")
    else None
  end.

Definition requireAdminAuth (e : redis_env) (q : request) (w : world) : world * reply :=
  let ip := client_ip q in
  if isBlocked e ip (w_stores w) then (w, Resp 429 "IP_BLOCKED") else
  let token := request_token q in
  if negb (str_truthy token) then handleAuthFailure e q ip "MISSING_AUTH_TOKEN" false w else
  match verify cfg token (time_s (w_stores w)) with
  | Throw TokenExpiredError => handleAuthFailure e q ip "TOKEN_EXPIRED" false w
  | Throw JsonWebTokenError => handleAuthFailure e q ip "INVALID_AUTH_TOKEN" true w
  | Ok c =>
    if isSessionRevoked e (c_sid c) (w_stores w) then handleAuthFailure e q ip "SESSION_REVOKED" false w else
    if negb (isSuperAdmin c) then (w, Resp 403 "INSUFFICIENT_ROLE") else
    match checkSessionRevoked c with
    | Some r => (w, r)
    | None => (w, Next (Passed c None))
    end
  end.

Definition has_role (allowed : list string) (c : claims) : bool :=
  existsb (fun r => bool_decide (r ∈ default [] (c_roles c))) allowed.

(** The tenant and role rules for tokens that are not a super-admin's. *)
Definition tenant_check (allowed : list string) (q : request) (c : claims) : option reply :=
  if negb (str_truthy (c_schoolId c)) then Some (Resp 403 "MISSING_TENANT_CLAIM") else
  let requested := str_or (rq_x_school_id q) (str_or (rq_query_schoolId q) (rq_params_schoolId q)) in
  if str_truthy requested && negb (bool_decide (c_schoolId c = requested)) then Some (Resp 403 "TENANT_MISMATCH") else
  if (0 <? Z.of_nat (length allowed)) && negb (has_role allowed c) then Some (Resp 403 "INSUFFICIENT_ROLE")
  else None.

Definition requireSchoolAuth (allowedRoles : list string) (e : redis_env) (q : request) (w : world)
  : world * reply :=
  let ip := client_ip q in
  if isBlocked e ip (w_stores w) then (w, Resp 429 "IP_BLOCKED") else
  let token := request_token q in
  if negb (str_truthy token) then handleAuthFailure e q ip "MISSING_AUTH_TOKEN" false w else
  match verify cfg token (time_s (w_stores w)) with
  | Throw TokenExpiredError => handleAuthFailure e q ip "TOKEN_EXPIRED" false w
  | Throw JsonWebTokenError => handleAuthFailure e q ip "INVALID_AUTH_TOKEN" true w
  | Ok c =>
    if isSessionRevoked e (c_sid c) (w_stores w) then handleAuthFailure e q ip "SESSION_REVOKED" false w else
    match checkSessionRevoked c with
    | Some r => (w, r)
    | None =>
      match (if isSuperAdmin c then None else tenant_check allowedRoles q c) with
      | Some r => (w, r)
      | None =>
        let isEnvSuperAdmin := bool_decide (c_role c = "admin") in
        if negb isEnvSuperAdmin && str_truthy (rq_x_school_id q) && str_truthy (c_schoolId c)
           && negb (bool_decide (c_schoolId c = rq_x_school_id q))
        then handleAuthFailure e q ip "TENANT_MISMATCH" true w
        else if (0 <? Z.of_nat (length allowedRoles)) && negb isEnvSuperAdmin
                && negb (existsb (fun r => bool_decide (r ∈ allowedRoles)) (default [] (c_roles c)))
        then (w, Resp 403 "INSUFFICIENT_ROLE")
        else (w, Next (Passed c (if isSuperAdmin c then None else Some (c_schoolId c))))
      end
    end
  end.
End Guards.
End AuthMiddleware.
Import AuthMiddleware.

(** ** middleware/schoolContext.js *)

Module SchoolContext.
Import DistributedLock.

Definition SUPER_ADMIN_AUDIT_WINDOW_MS : Z := 60 * 60 * 1000.
Definition SCHOOL_TTL : Z := 300.

Record school := School {
  sc_schoolId : string; sc_slug : string; sc_isActive : bool;
  sc_maintenanceMode : bool; sc_stellarAddress : string }.

(** Schools in the process cache with the time they are served until. *)
Record state := State { st_world : world; st_schools : gmap string (school * Z) }.

Definition ctx_now (st : state) : Z := clock (s_cache (w_stores (st_world st))).
Definition school_key (idOrSlug : string) : string := ("school:" ++ idOrSlug)%string.

Definition cached_school (k : string) (st : state) : option school :=
  match st_schools st !! k with
  | Some (s, until) => if ctx_now st <=? until then Some s else None
  | None => None
  end.
Definition cache_school (k : string) (s : school) (st : state) : state :=
  State (st_world st) (<[k := (s, ctx_now st + SCHOOL_TTL * 1000)]> (st_schools st)).

Inductive ctx_reply := CtxNext (s : school) | CtxResp (status : Z) (code : string) | CtxError.

(** An access of a super-admin is recorded once per session, school and hour. *)
Definition auditSuperAdminAccess (c : claims) (sch : school) (st : state) : state :=
  let performedBy := str_or (c_username c) (str_or (c_userId c) (str_or (c_sub c) (str_or (c_id c) "super_admin"))) in
  let iat := match c_iat c with Some z => Z_to_string z | None => "undefined" end in
  let sessionId := str_or (c_jti c) (str_or (c_sessionId c) (performedBy ++ ":" ++ iat)%string) in
  let hourBucket := ctx_now st / SUPER_ADMIN_AUDIT_WINDOW_MS in
  let dedupKey := ("superadmin-audit:" ++ sessionId ++ ":" ++ sc_schoolId sch ++ ":" ++ Z_to_string hourBucket)%string in
  let w := st_world st in
  if has dedupKey (s_cache (w_stores w)) then st else
  let w := on_stores (cache_set dedupKey (VTok "true") (SUPER_ADMIN_AUDIT_WINDOW_MS / 1000)) w in
  State (World (w_stores w) (w_audit w ++ [Audit (sc_schoolId sch) "super_admin_school_override" ""]) (w_alerts w))
        (st_schools st).

Definition ends_with (p l : string) : bool := starts_with (rev (chars p)) (rev (chars l)).

Definition effectiveId (q : request) : string :=
  let isSSERoute := bool_decide (rq_path q = "/events") || ends_with "/payments/events" (rq_path q) in
  str_or (rq_x_school_id q) (if isSSERoute then rq_query_schoolId q else "").

Definition lookupKey (q : request) : string :=
  str_or (effectiveId q) (str_trim (toLowerCase (rq_x_school_slug q))).

(** The school document a request names: cached, or read and then cached under
    both of its names if it is active. *)
Definition findSchool (db : result unit (list school)) (q : request) (st : state)
  : state * result unit (option school) :=
  match cached_school (school_key (lookupKey q)) st with
  | Some s => (st, Ok (Some s))
  | None =>
    match db with
    | Throw x => (st, Throw x)
    | Ok docs =>
      let query s := if str_truthy (effectiveId q) then bool_decide (sc_schoolId s = effectiveId q)
                     else bool_decide (sc_slug s = lookupKey q) in
      match List.find query docs with
      | None => (st, Ok None)
      | Some s =>
        let st := if sc_isActive s && str_truthy (sc_schoolId s) then cache_school (school_key (sc_schoolId s)) s st else st in
        let st := if sc_isActive s && str_truthy (sc_slug s) then cache_school (school_key (sc_slug s)) s st else st in
        (st, Ok (Some s))
      end
    end
  end.

Section Resolve.
Context `{JL : JwtLib} (cfg : config) (db : result unit (list school)).

(** The tenant binding: [None] lets the request through. *)
Definition bind_tenant (q : request) (sch : school) (st : state) : state * option ctx_reply :=
  let rawToken := request_token q in
  if negb (str_truthy rawToken) then (st, None) else
  match jwt_verify rawToken (JWT_SECRET cfg) verify_defaults (time_s (w_stores (st_world st))) with
  | Throw _ => (st, None)
  | Ok c =>
    let other := negb (bool_decide (c_schoolId c = sc_schoolId sch)) in
    if isSuperAdmin c
    then (if negb (str_truthy (c_schoolId c)) || other then auditSuperAdminAccess c sch st else st, None)
    else if str_truthy (c_schoolId c) && other then (st, Some (CtxResp 403 "TENANT_MISMATCH"))
    else (st, None)
  end.

Definition resolveSchool (q : request) (st : state) : state * ctx_reply :=
  if negb (str_truthy (effectiveId q)) && negb (str_truthy (rq_x_school_slug q))
  then (st, CtxResp 400 "MISSING_SCHOOL_CONTEXT") else
  match findSchool db q st with
  | (st, Throw _) => (st, CtxError)
  | (st, Ok None) => (st, CtxResp 404 "NOT_FOUND")
  | (st, Ok (Some sch)) =>
    if negb (sc_isActive sch) then (st, CtxResp 403 "SCHOOL_INACTIVE") else
    match bind_tenant q sch st with
    | (st, Some r) => (st, r)
    | (st, None) =>
      if sc_maintenanceMode sch then (st, CtxResp 503 "SCHOOL_MAINTENANCE_MODE")
      else (st, CtxNext sch)
    end
  end.

(** A guarded route: the school context, then the role guard.  The handler runs
    with [req.school], [req.schoolId] and [req.user]. *)
Definition guarded_route (findById : string -> result unit (option user)) (allowedRoles : list string)
    (e : redis_env) (q : request) (st : state) : state * option (school * string * claims) :=
  match resolveSchool q st with
  | (st, CtxNext sch) =>
    let '(w, r) := requireSchoolAuth cfg findById allowedRoles e q (st_world st) in
    (State w (st_schools st),
     match r with Next p => Some (sch, default (sc_schoolId sch) (n_schoolId p), n_user p) | _ => None end)
  | (st, _) => (st, None)
  end.
End Resolve.
End SchoolContext.
Import SchoolContext.

(** ** Properties of the guards *)

Module AuthProperties.
Import DistributedLock.

Section Guards.
Context `{JL : JwtLib} (cfg : config) (findById : string -> result unit (option user)).

(** What a school route may rely on once the guard let a request through. *)
Definition entitled (allowedRoles : list string) (q : request) (c : claims) : Prop :=
  c_role c = "admin" \/
  ((rq_x_school_id q = "" \/ c_schoolId c = "" \/ c_schoolId c = rq_x_school_id q) /\
   (allowedRoles = [] \/ exists r, r ∈ allowedRoles /\ r ∈ default [] (c_roles c))).

Lemma not_truthy s : str_truthy s = false <-> s = "".
Proof. by destruct s. Qed.

Lemma handleAuthFailure_reply e q ip code n w : (handleAuthFailure e q ip code n w).2 = Resp 401 code.
Proof. done. Qed.

Lemma tenant_check_None allowed q c : tenant_check allowed q c = None ->
  str_truthy (c_schoolId c) = true /\
  (rq_x_school_id q = "" \/ rq_x_school_id q = c_schoolId c).
Proof.
  unfold tenant_check. destruct (str_truthy (c_schoolId c)) eqn:Hs; simpl; [|done].
  unfold str_or. destruct (str_truthy (rq_x_school_id q)) eqn:Hx; simpl.
  - rewrite Hx. simpl. case_bool_decide; simpl; [|done]. by split; [|right].
  - intros _. split; [done|]. left. by apply not_truthy.
Qed.

Lemma existsb_elem (f : string -> bool) l : existsb f l = true <-> exists r, r ∈ l /\ f r = true.
Proof. rewrite existsb_exists. split; intros (r & H & Hf); exists r; split; auto; by apply list_elem_of_In. Qed.

(** The one way through the school guard. *)
Lemma school_guard_inv allowed e q w w' p :
  requireSchoolAuth cfg findById allowed e q w = (w', Next p) ->
  w' = w /\ isBlocked e (client_ip q) (w_stores w) = false /\
  verify cfg (request_token q) (time_s (w_stores w)) = Ok (n_user p) /\
  isSessionRevoked e (c_sid (n_user p)) (w_stores w) = false /\
  checkSessionRevoked findById (n_user p) = None /\
  entitled allowed q (n_user p) /\
  (if isSuperAdmin (n_user p) then n_schoolId p = None
   else n_schoolId p = Some (c_schoolId (n_user p)) /\ str_truthy (c_schoolId (n_user p)) = true /\
        (rq_x_school_id q = "" \/ rq_x_school_id q = c_schoolId (n_user p))).
Proof.
  unfold requireSchoolAuth. destruct (isBlocked _ _ _); [done|].
  destruct (negb (str_truthy (request_token q))); [done|].
  destruct (verify _ _ _) as [c|[]] eqn:Hv; [|done..].
  destruct (isSessionRevoked _ _ _) eqn:Hr; [done|].
  destruct (checkSessionRevoked findById c) as [r|] eqn:Hc.
  { intros [= -> ->]. exfalso. revert Hc. unfold checkSessionRevoked. by crush_match. }
  destruct (if isSuperAdmin c then None else tenant_check allowed q c) as [r|] eqn:Ht.
  { intros [= -> ->]. exfalso. revert Ht. unfold tenant_check. by crush_match. }
  destruct (_ && negb (bool_decide (c_schoolId c = rq_x_school_id q))) eqn:Hm; [done|].
  destruct ((0 <? Z.of_nat (length allowed)) && _ && _) eqn:Hroles; [done|].
  intros [= <- <-]. cbn [n_user n_schoolId]. do 5 (split; [done|]). split.
  - unfold entitled. destruct (bool_decide_reflect (c_role c = "admin")) as [|Hadm]; [by left|]. right. split.
    + rewrite <- !not_truthy. destruct (str_truthy (rq_x_school_id q)), (str_truthy (c_schoolId c)); try (by auto).
      simpl in Hm. apply negb_false_iff, bool_decide_eq_true in Hm. auto.
    + destruct allowed as [|a al]; [by left|]. right. simpl in Hroles. apply negb_false_iff in Hroles.
      apply existsb_elem in Hroles as (r & Hr1 & Hr2). exists r. split; [|done]. by apply bool_decide_eq_true in Hr2.
  - destruct (isSuperAdmin c); [done|]. apply tenant_check_None in Ht as [Ht1 Ht2]. done.
Qed.
End Guards.

(** *** A school route serves the token's own school *)

(** Slugs are stored in lower case (models/schoolModel.js). *)
Definition slug_lower (s : school) : Prop := toLowerCase (sc_slug s) = sc_slug s.

Definition cache_entry_ok (k : string) (v : school * Z) : Prop :=
  (k = school_key (sc_schoolId v.1) \/ k = school_key (sc_slug v.1)) /\ slug_lower v.1.
Definition school_cache_ok (st : state) : Prop := map_Forall cache_entry_ok (st_schools st).

Section Tenants.
Context `{JL : JwtLib} (cfg : config).

(** States of a server: guarded requests of any kind on any database contents,
    and time passing. *)
Inductive reachable : state -> Prop :=
| reach_start w : reachable (State w ∅)
| reach_request st docs users roles e q : reachable st -> Forall slug_lower docs ->
    reachable (guarded_route cfg (Ok docs) users roles e q st).1
| reach_db_error st users roles e q : reachable st ->
    reachable (guarded_route cfg (Throw tt) users roles e q st).1
| reach_wait st dt : reachable st ->
    reachable (State (on_stores (wait dt) (st_world st)) (st_schools st)).

Lemma cache_school_ok k s st : cache_entry_ok k (s, 0) -> school_cache_ok st -> school_cache_ok (cache_school k s st).
Proof.
  intros Hk H. unfold school_cache_ok, cache_school; cbn [st_schools]. by apply map_Forall_insert_2.
Qed.

Lemma cached_school_spec k st s : school_cache_ok st -> cached_school k st = Some s -> cache_entry_ok k (s, 0).
Proof.
  unfold cached_school. intros H. destruct (st_schools st !! k) as [[s' u]|] eqn:E; [|done].
  specialize (H _ _ E). case_match; [|done]. by intros [= <-].
Qed.

Lemma find_spec {A} (f : A -> bool) l x : List.find f l = Some x -> x ∈ l /\ f x = true.
Proof. intros H. apply find_some in H as [H1 H2]. split; [by apply list_elem_of_In|done]. Qed.

(** The school that is found is the one the request names, under one of its two
    names, and the cache stays sound. *)
Lemma findSchool_spec docs q st st' r : Forall slug_lower docs -> school_cache_ok st ->
  findSchool (Ok docs) q st = (st', r) ->
  school_cache_ok st' /\
  (forall s, r = Ok (Some s) -> slug_lower s /\ (sc_schoolId s = lookupKey q \/ sc_slug s = lookupKey q)).
Proof.
  intros Hdocs Hst. unfold findSchool. destruct (cached_school _ st) as [s|] eqn:Hc.
  { intros [= <- <-]. split; [done|]. intros s' [= <-].
    apply cached_school_spec in Hc as [Hk Hl]; [|done]. split; [done|]. unfold school_key in Hk. simpl in Hk.
    by destruct Hk as [[= Hk]|[= Hk]]; [left|right]. }
  destruct (List.find _ docs) as [s|] eqn:Hf.
  2: { intros [= <- <-]. split; [done|]. by intros s. }
  apply find_spec in Hf as [Hin Hq]. eapply (Forall_forall slug_lower) in Hdocs; [|exact Hin].
  intros [= <- <-]. split.
  - destruct (sc_isActive s && str_truthy (sc_slug s)), (sc_isActive s && str_truthy (sc_schoolId s)); try done;
      repeat (apply cache_school_ok; [split; [by auto|done]|]); done.
  - intros ? [= <-]. split; [done|]. destruct (str_truthy (effectiveId q)) eqn:He; apply bool_decide_eq_true in Hq; [|by right].
    left. unfold lookupKey, str_or. by rewrite He.
Qed.

Lemma findSchool_db_error q st : (findSchool (Throw tt) q st).1 = st.
Proof. unfold findSchool. by case_match. Qed.

Lemma bind_tenant_schools q sch st : st_schools (bind_tenant cfg q sch st).1 = st_schools st.
Proof. unfold bind_tenant, auditSuperAdminAccess. cbv zeta. by repeat (case_match; try done). Qed.

Lemma resolveSchool_schools db q st :
  st_schools (resolveSchool cfg db q st).1 = st_schools st \/
  st_schools (resolveSchool cfg db q st).1 = st_schools (findSchool db q st).1.
Proof.
  unfold resolveSchool. case_match; [by left|]. destruct (findSchool db q st) as [st' [[sch|]|]]; [|by right..].
  cbn [fst]. case_match; [by right|].
  pose proof (bind_tenant_schools q sch st') as Hb. destruct (bind_tenant cfg q sch st') as [st2 [r|]]; cbn [fst] in Hb.
  - by right.
  - case_match; by right.
Qed.

Lemma guarded_route_schools db users roles e q st :
  st_schools (guarded_route cfg db users roles e q st).1 = st_schools (resolveSchool cfg db q st).1.
Proof.
  unfold guarded_route. destruct (resolveSchool cfg db q st) as [st' []]; [|done..].
  by destruct (requireSchoolAuth _ _ _ _ _ _).
Qed.

Lemma reachable_cache_ok st : reachable st -> school_cache_ok st.
Proof.
  induction 1 as [w|st docs users roles e q _ IH Hd|st users roles e q _ IH|st dt _ IH]; [apply map_Forall_empty| | |done].
  - unfold school_cache_ok. rewrite guarded_route_schools.
    destruct (resolveSchool_schools (Ok docs) q st) as [->| ->]; [done|].
    destruct (findSchool (Ok docs) q st) as [st' r] eqn:E. by apply findSchool_spec in E as [? _].
  - unfold school_cache_ok. rewrite guarded_route_schools.
    destruct (resolveSchool_schools (Throw tt) q st) as [->| ->]; [done|]. by rewrite findSchool_db_error.
Qed.

Lemma resolveSchool_next docs q st st' sch : Forall slug_lower docs -> school_cache_ok st ->
  resolveSchool cfg (Ok docs) q st = (st', CtxNext sch) ->
  sc_isActive sch = true /\ sc_maintenanceMode sch = false /\ slug_lower sch /\
  (sc_schoolId sch = lookupKey q \/ sc_slug sch = lookupKey q).
Proof.
  intros Hd Hst. unfold resolveSchool. case_match; [done|].
  destruct (findSchool (Ok docs) q st) as [st1 [[s|]|]] eqn:E; [|done..].
  destruct (sc_isActive s) eqn:Ha; [|done]. simpl.
  destruct (bind_tenant cfg q s st1) as [st2 [r|]] eqn:Hb.
  { intros [= -> ->]. exfalso. revert Hb. unfold bind_tenant. by crush_match. }
  destruct (sc_maintenanceMode s) eqn:Hm; [done|]. intros [= <- <-].
  apply findSchool_spec in E as [_ E]; [|done..]. by destruct (E s eq_refl).
Qed.

(** The ids createSchool generates (schoolController.js): no lower-case slug is one. *)
Definition generated_id (id : string) : Prop := exists hex, id = ("SCH-" ++ hex)%string.

Lemma generated_id_not_lower id : generated_id id -> toLowerCase id <> id.
Proof.
  intros [hex ->] H. apply (f_equal chars) in H. unfold toLowerCase in H. rewrite chars_text in H.
  discriminate H.
Qed.

(** The denylist entry of a session, written out: alive, with the mark the
    store keeps ("true" in a process cache, "1" in Redis). *)
Definition denied (mark sid : string) (r : redis) : Prop :=
  exists until, store r !! ("revoked:sid:" ++ sid)%string = Some (Entry (VTok mark) (Some until)) /\ clock r < until.

Lemma denied_has mark sid r : denied mark sid r -> str_truthy mark = true -> has (revokedSidKey sid) r = true.
Proof.
  intros (u & Hk & Hu) Hm. unfold has, rget, revokedSidKey. rewrite Hk. unfold live; cbn [e_exp].
  by destruct (Z.ltb_spec (clock r) u); [|lia].
Qed.

Lemma session_not_denied e sid s : isSessionRevoked e sid s = false -> sid <> "" ->
  ~ denied "true" sid (s_cache s) /\ (e_ready e = true -> e_get e = true -> ~ denied "1" sid (s_redis s)).
Proof.
  unfold isSessionRevoked. intros H Hs. assert (str_truthy sid = true) as Ht by (by destruct sid).
  rewrite Ht in H. cbn [negb] in H. destruct (has (revokedSidKey sid) (s_cache s)) eqn:Hc; [done|]. split.
  - intros D. by rewrite (denied_has _ _ _ D) in Hc.
  - intros He Hg D. rewrite He, Hg in H. cbn [andb] in H. by rewrite (denied_has _ _ _ D) in H.
Qed.

(** The user a token was issued to still holds it: the document exists, is not
    deactivated and has the token's version. *)
Definition held_by (users : string -> result unit (option user)) (c : claims) (id : string) : Prop :=
  exists u, users id = Ok (Some u) /\ u_isActive u <> Some false /\ u_tokenVersion u = c_tokenVersion c.

Lemma session_held users c : checkSessionRevoked users c = None -> c_role c <> "admin" ->
  (c_userId c <> "" -> held_by users c (c_userId c)) /\
  (c_userId c = "" -> c_sub c <> "" -> held_by users c (c_sub c)) /\
  (c_userId c = "" -> c_sub c = "" -> c_id c <> "" -> held_by users c (c_id c)).
Proof.
  unfold checkSessionRevoked. intros H Hr. rewrite bool_decide_false in H by done. cbn [andb] in H. cbv zeta in H.
  assert (forall id, str_truthy id = true ->
    (if negb (str_truthy id) then None else
     match users id with
     | Throw _ => Some (Resp 500 "SESSION_CHECK_FAILED")
     | Ok None => Some (Resp 401 "SESSION_REVOKED")
     | Ok (Some u) =>
       if bool_decide (u_isActive u = Some false) then Some (Resp 401 "SESSION_REVOKED")
       else if negb (u_tokenVersion u =? c_tokenVersion c) then Some (Resp 401 "SESSION_REVOKED") else None
     end) = None -> held_by users c id) as K.
  { intros id -> K. cbn [negb] in K. destruct (users id) as [[u|]|] eqn:Hu; [|done..].
    case_bool_decide; [done|]. destruct (Z.eqb_spec (u_tokenVersion u) (c_tokenVersion c)); [|done]. by exists u. }
  assert (forall z, z <> "" -> str_truthy z = true) as T by (by intros []).
  split; [|split].
  - intros Hu. apply K; [by apply T|]. unfold str_or in H. by rewrite (T _ Hu) in H.
  - intros Hu Hs. apply K; [by apply T|]. unfold str_or in H. rewrite Hu in H. cbn [str_truthy] in H.
    by rewrite (T _ Hs) in H.
  - intros Hu Hs Hi. apply K; [by apply T|]. unfold str_or in H. rewrite Hu, Hs in H. exact H.
Qed.

(** C24: in every reachable state, when a request with an X-School-ID header
    reaches the handler of a guarded route with a token that is not a
    super-admin's: the handler's school id and the header are the token's school;
    the school document is that school's, when the token's school id is one
    createSchool generates ("SCH-..."; otherwise it is that school's or the one
    whose slug is spelled like the id, which the shared cache key allows), and is
    active and not in maintenance; the token carries a role of the route and
    verifies now; the user it names exists, is not deactivated and has the
    token's version; and its session has no live denylist entry in the process
    cache, nor, when Redis is ready and can be read, in Redis.  Nothing is said
    of a session revoked by another process while Redis is away (the guard then
    lets it through), nor of requests that name the school by slug. *)
Theorem tenant_isolation st docs users roles e q st' sch sid c :
  reachable st -> Forall slug_lower docs -> rq_x_school_id q <> "" ->
  guarded_route cfg (Ok docs) users roles e q st = (st', Some (sch, sid, c)) -> isSuperAdmin c = false ->
  let s := w_stores (st_world st') in
  (sid = c_schoolId c /\ rq_x_school_id q = c_schoolId c /\
   (generated_id (c_schoolId c) -> sc_schoolId sch = c_schoolId c) /\
   (sc_schoolId sch = c_schoolId c \/ sc_slug sch = c_schoolId c)) /\
  (sc_isActive sch = true /\ sc_maintenanceMode sch = false) /\
  (roles = [] \/ exists r, r ∈ roles /\ r ∈ default [] (c_roles c)) /\
  verify cfg (request_token q) (time_s s) = Ok c /\
  ((c_userId c <> "" -> held_by users c (c_userId c)) /\
   (c_userId c = "" -> c_sub c <> "" -> held_by users c (c_sub c)) /\
   (c_userId c = "" -> c_sub c = "" -> c_id c <> "" -> held_by users c (c_id c))) /\
  (c_sid c <> "" -> ~ denied "true" (c_sid c) (s_cache s) /\
     (e_ready e = true -> e_get e = true -> ~ denied "1" (c_sid c) (s_redis s))).
Proof.
  intros Hr Hd Hx Hg Hsa. apply reachable_cache_ok in Hr. unfold guarded_route in Hg.
  assert (str_truthy (rq_x_school_id q) = true) as Ht by (by destruct (rq_x_school_id q)).
  destruct (resolveSchool cfg (Ok docs) q st) as [st1 [s| |]] eqn:Er; [|done..].
  apply resolveSchool_next in Er as (Ha & Hm & Hl & Hname); [|done..].
  destruct (requireSchoolAuth cfg users roles e q (st_world st1)) as [w [p|]] eqn:Eg; [|done].
  apply school_guard_inv in Eg as (-> & _ & Hv & Hrev & Hc & Hent & Hs).
  injection Hg as Hst Hsch Hsid Hp. subst st' s c sid. rewrite Hsa in Hs. destruct Hs as (Hs & _ & [Hq|Hq]).
  { by rewrite Hq in Hx. }
  rewrite Hs. assert (lookupKey q = rq_x_school_id q) as Hk.
  { unfold lookupKey, effectiveId, str_or. by rewrite Ht, Ht. }
  rewrite Hk, Hq in Hname. assert (c_role (n_user p) <> "admin") as Hna.
  { intros E. unfold isSuperAdmin in Hsa. rewrite E in Hsa. by vm_compute in Hsa. }
  cbv zeta. cbn [st_world]. split; [|split; [done|split; [|split; [done|split]]]].
  - split; [done|]. split; [done|]. split; [|done]. intros Hgen. destruct Hname as [|Hname]; [done|].
    exfalso. apply (generated_id_not_lower _ Hgen). rewrite <- Hname. exact Hl.
  - by destruct Hent as [|[_ Hent]].
  - by apply session_held.
  - by apply session_not_denied.
Qed.
End Tenants.

(** *** Tokens and the denylist *)

Lemma rget_rset k k' e r : rget k (rset k' e r) =
  if bool_decide (k = k') then (if live (clock r) e then Some e else None) else rget k r.
Proof.
  unfold rget, rset; cbn [store clock]. case_bool_decide as E; [subst; by rewrite lookup_insert_eq|by rewrite lookup_insert_ne].
Qed.

Lemma has_later k v until r dt : store r !! k = Some (Entry v (Some until)) -> rval_truthy v = true ->
  clock r + dt < until -> has k (tick dt r) = true.
Proof.
  intros Hs Hv Ht. unfold has, rget, tick; cbn [store clock]. rewrite Hs. unfold live; cbn [e_exp].
  by destruct (Z.ltb_spec (clock r + dt) until); [|lia].
Qed.

Section Tokens.
Context `{JL : JwtLib} (cfg : config).

Lemma getSigningKey_truthy key : getSigningKey cfg = Ok key -> str_truthy key = true.
Proof.
  unfold getSigningKey. destruct (str_truthy (JWT_SIGNING_KEY cfg)) eqn:E1; [by intros [= <-]|].
  destruct (str_truthy (JWT_SECRET cfg)); [|done]. intros [= <-]. apply hkdf_truthy.
Qed.

(** A token that was issued is accepted, with its payload and session, exactly
    until it expires; afterwards it is reported as expired. *)
Theorem access_token_roundtrip payload exp osid rsid uuid now sg t :
  sign cfg payload exp osid rsid uuid now = Ok sg ->
  verify cfg (sg_token sg) t =
  if t <? now + sg_expiresIn sg
  then Ok (stamp (SignOptions ALGORITHM (sg_expiresIn sg) (Some ISSUER) (Some AUDIENCE) (Some uuid)) now
             (with_sid (sg_sid sg) payload))
  else Throw TokenExpiredError.
Proof.
  unfold sign, verify. destruct (getSigningKey cfg) as [key|] eqn:Hk; [|done].
  cbn [mbind result_bind]. intros [= <-]. cbn [sg_token sg_expiresIn sg_sid]. apply getSigningKey_truthy in Hk.
  match goal with |- _ = (if t <? ?x then _ else _) => destruct (Z.ltb_spec t x) as [Ht|Ht] end.
  - apply jwt_verify_signed; [done| |done].
    unfold options_match, demanded; cbn [so_algorithm so_issuer so_audience vo_algorithms vo_issuer vo_audience].
    by rewrite !bool_decide_true by set_solver.
  - apply jwt_verify_expired; [done|cbn [so_algorithm vo_algorithms]; set_solver|done].
Qed.

(** A revoked session is refused by the process that revoked it until the
    longest-lived token has expired, whatever Redis does; and by every process
    that can read Redis, when the write went through. *)
Theorem revoked_session_stays_out e e' sid s ttl dt :
  str_truthy sid = true -> 0 < ttl -> 0 <= dt < ttl * 1000 ->
  isSessionRevoked e' sid (wait dt (revokeSession cfg e sid ttl s)) = true /\
  (e_ready e = true -> e_set e = NoFault -> e_ready e' = true -> e_get e' = true ->
   forall cache, isSessionRevoked e' sid (Stores (tick dt (s_redis (revokeSession cfg e sid ttl s))) cache) = true).
Proof.
  intros Hs Ht Hdt. unfold revokeSession. rewrite Hs. cbn [negb].
  destruct (Z.eqb_spec ttl 0) as [|_]; [lia|]. split.
  - unfold isSessionRevoked. rewrite Hs. cbn [negb].
    replace (has (revokedSidKey sid) (s_cache (wait dt _))) with true; [done|]. symmetry.
    set (s1 := cache_set (revokedSidKey sid) (VTok "true") ttl s).
    assert (s_cache (if e_ready e then (attempt (e_set e) (redis_set_ex (revokedSidKey sid) (VTok "1") ttl) s1).1 else s1) = s_cache s1) as Hc.
    { by destruct (e_ready e), (e_set e). }
    unfold wait, both; cbn [s_cache]. rewrite Hc.
    eapply has_later; [cbn; apply lookup_insert_eq|done|]. cbn. lia.
  - intros -> -> Hr Hg cache. unfold isSessionRevoked. rewrite Hs, Hr, Hg. cbn [negb andb s_cache s_redis].
    destruct (has (revokedSidKey sid) cache); [done|].
    eapply has_later; [cbn; apply lookup_insert_eq|done|]. cbn. lia.
Qed.
End Tokens.

(** *** Blocking addresses *)

Section Blocking.
Context `{JL : JwtLib} (cfg : config) (findById : string -> result unit (option user)).

(** A request with a token that is not genuine, at any time. *)
Definition forged (q : request) : Prop :=
  str_truthy (request_token q) = true /\
  forall t, verify cfg (request_token q) t = Throw JsonWebTokenError.

Definition guard (roles : list string) (q : request) (w : world) : world :=
  (requireSchoolAuth cfg findById roles healthy q w).1.

(** A request, then a pause and another request, and so on. *)
Definition hammer (roles : list string) (q : request) (pauses : list Z) (w : world) : world :=
  repeat_with (guard roles q) (fun d => on_stores (wait d)) pauses w.

Lemma fail_block_keys ip ip' : ipFailKey ip <> ipBlockKey ip'.
Proof. unfold ipFailKey, ipBlockKey. simpl. discriminate. Qed.

Lemma guard_forged roles q w : forged q ->
  store (s_redis (w_stores w)) !! ipBlockKey (client_ip q) = None ->
  guard roles q w = (handleAuthFailure healthy q (client_ip q) "INVALID_AUTH_TOKEN" true w).1.
Proof.
  intros [Ht Hv] Hb. unfold guard, requireSchoolAuth.
  assert (isBlocked healthy (client_ip q) (w_stores w) = false) as ->.
  { unfold isBlocked, healthy, exists_key, rget; cbn. by rewrite Hb. }
  by rewrite Ht, Hv.
Qed.

Lemma guard_bumps roles q w : forged q -> store (s_redis (w_stores w)) !! ipBlockKey (client_ip q) = None ->
  forall s' b, bump healthy (ipFailKey (client_ip q)) (ipBlockKey (client_ip q)) IP_FAIL_WINDOW IP_FAIL_THRESHOLD IP_BLOCK_TTL
    (w_stores w) = (s', Some b) -> s_redis (w_stores (guard roles q w)) = s_redis s'.
Proof.
  intros Hq Hb s' b Hs. rewrite guard_forged by done. unfold handleAuthFailure, track_failure. cbn [fst w_stores healthy e_ready].
  by rewrite Hs.
Qed.

(** Five requests from one address with forged tokens, less than five minutes
    from the first to the last, block the address: for the next fifteen minutes
    every request from it is answered 429 before its token is looked at. *)
Theorem forged_tokens_block_address roles q pauses w roles' q' dt :
  forged q -> store (s_redis (w_stores w)) !! ipFailKey (client_ip q) = None ->
  store (s_redis (w_stores w)) !! ipBlockKey (client_ip q) = None ->
  length pauses = 4%nat -> Forall (fun d => 0 <= d) pauses -> foldr Z.add 0 pauses < 300 * 1000 ->
  client_ip q' = client_ip q -> 0 <= dt < 900 * 1000 ->
  let w' := on_stores (wait dt) (hammer roles q pauses w) in
  requireSchoolAuth cfg findById roles' healthy q' w' = (w', Resp 429 "IP_BLOCKED") /\
  requireAdminAuth cfg findById healthy q' w' = (w', Resp 429 "IP_BLOCKED").
Proof.
  intros Hq Hf Hb Hl Hp Hsum Hip Hdt w'.
  assert (isBlocked healthy (client_ip q') (w_stores w') = true) as HB.
  { unfold isBlocked, healthy; cbn [e_ready e_exists]. rewrite Hip. apply (flagged_exists _
      (redis_time (w_stores (hammer roles q pauses w)) + IP_BLOCK_TTL * 1000)); [|unfold IP_BLOCK_TTL; lia].
    unfold hammer. eapply (failures_flag _ _ IP_FAIL_WINDOW IP_FAIL_THRESHOLD); [apply fail_block_keys|done| |done|done|done| |done|done].
    - intros w0 Hw0 s' b. by apply guard_bumps.
    - by rewrite Hl. }
  unfold requireSchoolAuth, requireAdminAuth. by rewrite HB.
Qed.
End Blocking.

(** *** Other addresses are not affected *)

Definition same_block (ip : string) (s s' : stores) : Prop :=
  clock (s_redis s') = clock (s_redis s) /\ clock (s_cache s') = clock (s_cache s) /\
  store (s_redis s') !! ipBlockKey ip = store (s_redis s) !! ipBlockKey ip /\
  store (s_cache s') !! ipBlockKey ip = store (s_cache s) !! ipBlockKey ip.

#[local] Instance same_block_preorder ip : PreOrder (same_block ip).
Proof.
  split; [done|]. intros s1 s2 s3 (H1 & H2 & H3 & H4) (K1 & K2 & K3 & K4).
  repeat split; congruence.
Qed.

Lemma cache_set_same ip k v ttl s : k <> ipBlockKey ip -> same_block ip s (cache_set k v ttl s).
Proof. intros Hk. repeat split; try done. cbn. by rewrite lookup_insert_ne. Qed.
Lemma redis_set_same ip k v ttl s : k <> ipBlockKey ip -> same_block ip s (redis_set_ex k v ttl s).
Proof. intros Hk. repeat split; try done. cbn. by rewrite lookup_insert_ne. Qed.
Lemma expire_same ip k ttl s : k <> ipBlockKey ip -> same_block ip s (on_redis (expire k ttl) s).
Proof.
  intros Hk. unfold on_redis, expire. repeat split; cbn; try (by case_match).
  case_match; [|done]. cbn. by rewrite lookup_insert_ne.
Qed.
Lemma incr_same ip k n r s : k <> ipBlockKey ip -> incr k (s_redis s) = Some (n, r) ->
  same_block ip s (on_redis (fun _ => r) s).
Proof.
  intros Hk. unfold incr. destruct (rget _ _) as [[[]]|]; intros H; simplify_eq;
    repeat split; cbn; by rewrite ?lookup_insert_ne.
Qed.
Lemma attempt_same ip f op s : same_block ip s (op s) -> same_block ip s (attempt f op s).1.
Proof. by destruct f. Qed.

Lemma block_key_ne ip ip' : ip <> ip' -> ipBlockKey ip <> ipBlockKey ip'.
Proof. intros H E. apply H. unfold ipBlockKey in E. simpl in E. by injection E. Qed.

Lemma count_in_cache_same ip ip' w : ip' <> ip ->
  same_block ip (w_stores w) (w_stores (count_in_cache ip' w)).
Proof.
  intros Hne. unfold count_in_cache. cbv zeta. case_match; cbn [w_stores on_stores].
  - etransitivity; apply cache_set_same; [apply fail_block_keys|by apply block_key_ne].
  - apply cache_set_same, fail_block_keys.
Qed.

Lemma bump_same e ip ip' window thr ttl s : ip' <> ip ->
  same_block ip s (bump e (ipFailKey ip') (ipBlockKey ip') window thr ttl s).1.
Proof.
  intros Hne. unfold bump. destruct (incr _ _) as [[n r]|] eqn:Hi; [|done].
  pose proof (attempt_same ip (e_incr e) (on_redis (fun _ => r)) s
    (incr_same ip _ _ _ _ (fail_block_keys _ _) Hi)) as H1.
  destruct (attempt (e_incr e) _ _) as [s1 []]; cbn [fst negb] in *; [|done].
  assert (same_block ip s1 (if n =? 1 then attempt (e_expire e) (on_redis (expire (ipFailKey ip') window)) s1 else (s1, true)).1) as H2.
  { case_match; [|done]. apply attempt_same, expire_same, fail_block_keys. }
  destruct (if n =? 1 then _ else _) as [s2 []]; cbn [fst negb] in *; [|by etransitivity].
  case_match; [|by etransitivity].
  pose proof (attempt_same ip (e_set e) _ s2 (redis_set_same ip (ipBlockKey ip') (VTok "1") ttl s2 ltac:(by apply block_key_ne))) as H3.
  destruct (attempt (e_set e) _ _) as [s3 []]; cbn [fst negb] in *.
  - do 3 (etransitivity; [eassumption|]). apply cache_set_same. by apply block_key_ne.
  - do 2 (etransitivity; [eassumption|]). done.
Qed.

Lemma handleAuthFailure_same e q ip ip' code n w : ip' <> ip ->
  same_block ip (w_stores w) (w_stores (handleAuthFailure e q ip' code n w).1).
Proof.
  intros Hne. unfold handleAuthFailure, track_failure. cbn [fst w_stores]. destruct n; [|done].
  destruct (e_ready e); [|by apply (count_in_cache_same ip ip' (World _ _ _))].
  pose proof (bump_same e ip ip' IP_FAIL_WINDOW IP_FAIL_THRESHOLD IP_BLOCK_TTL (w_stores w) Hne) as H1.
  destruct (bump _ _ _ _ _ _ _) as [s2 [b|]]; cbn [fst] in H1; [done|].
  etransitivity; [exact H1|]. by apply (count_in_cache_same ip ip' (World _ _ _)).
Qed.

Lemma same_block_blocked e ip s s' : same_block ip s s' -> isBlocked e ip s' = isBlocked e ip s.
Proof.
  intros (H1 & H2 & H3 & H4). unfold isBlocked, exists_key, has, rget.
  by rewrite H1, H2, H3, H4.
Qed.

(** Whatever one address sends, and however Redis behaves, no other address is
    blocked or released by it. *)
Theorem address_block_is_local `{JL : JwtLib} cfg findById roles e q w e' ip :
  client_ip q <> ip ->
  isBlocked e' ip (w_stores (requireSchoolAuth cfg findById roles e q w).1) = isBlocked e' ip (w_stores w).
Proof.
  intros Hne. apply same_block_blocked. unfold requireSchoolAuth. cbv zeta.
  repeat (case_match; try done); try (by apply handleAuthFailure_same).
Qed.

(** *** Tokens of the login handler *)

Section LoginTokens.
Context `{JL : JwtLib} (cfg : config) (findById : string -> result unit (option user)).

(** The login, refresh and MFA handlers sign with neither issuer nor audience;
    the guards demand both, so no such token gets through, whatever the keys. *)
Theorem login_token_never_accepted p key ttl now roles e q w :
  request_token q = jwt_sign p key (sign_defaults ttl) now ->
  forall n, (requireSchoolAuth cfg findById roles e q w).2 <> Next n.
Proof.
  intros Hq n Hn. destruct (requireSchoolAuth cfg findById roles e q w) as [w' r] eqn:E. cbn [snd] in Hn. subst r.
  apply school_guard_inv in E as (_ & _ & Hv & _). revert Hv. rewrite Hq. unfold verify.
  destruct (getSigningKey cfg) as [k|]; [|done]. cbn [mbind result_bind].
  intros Hv. by apply jwt_verify_options in Hv.
Qed.

(** The exemption for the environment's super-admin asks for a token without a
    user id, but the login handler puts one in: the user collection is asked for
    the id "super_admin", and a failing look-up answers 500. *)
Theorem env_admin_needs_user_row c : c_role c = "admin" -> c_userId c = "super_admin" ->
  findById "super_admin" = Throw tt ->
  checkSessionRevoked findById c = Some (Resp 500 "SESSION_CHECK_FAILED").
Proof. intros Hr Hu Hf. unfold checkSessionRevoked. rewrite Hr, Hu. cbn. by rewrite Hf. Qed.

(** A super-admin of the database passes the "super-admin bypass", and is then
    held to the route's role list like everybody else. *)
Theorem db_super_admin_needs_listed_role roles e q w c :
  isBlocked e (client_ip q) (w_stores w) = false -> str_truthy (request_token q) = true ->
  verify cfg (request_token q) (time_s (w_stores w)) = Ok c -> isSessionRevoked e (c_sid c) (w_stores w) = false ->
  checkSessionRevoked findById c = None ->
  c_role c = "user" -> c_roles c = Some ["super_admin"] -> rq_x_school_id q = "" ->
  roles <> [] -> "super_admin" ∉ roles ->
  requireSchoolAuth cfg findById roles e q w = (w, Resp 403 "INSUFFICIENT_ROLE").
Proof.
  intros Hb Ht Hv Hr Hc Hrole Hroles Hx Hne Hnin. unfold requireSchoolAuth.
  rewrite Hb, Ht, Hv, Hr, Hc. unfold isSuperAdmin. rewrite Hrole, Hroles, Hx. cbn.
  rewrite (bool_decide_false ("super_admin" ∈ roles)) by done. by destruct roles.
Qed.
End LoginTokens.

(** *** Executions *)

Definition cfg0 : config := Config "" "s3cret" 28800.
Definition world0 : world := World (Stores (Redis ∅ 5000) (Redis ∅ 5000)) [] [].
Definition staff_of (schoolId : string) (pending : bool) : claims :=
  Claims "user" (Some ["staff"]) "u1" "" "" "" schoolId "" "" "" 0 None pending.
Definition users0 (id : string) : result unit (option user) := Ok (Some (User (Some true) 0)).

Definition token_of (c : claims) : string :=
  match @sign clear_jwt cfg0 c 0 "" "sid-1" "uuid-1" 1 with Ok sg => sg_token sg | Throw _ => "" end.
Definition request_of (c : claims) (id slug : string) : request :=
  Request "10.0.0.1" "" "" (token_of c) id slug "" "" "/students".
Definition school_a : school := School "SCH-A" "alpha" true false "GA".
Definition school_b : school := School "SCH-B" "beta" true false "GB".

Definition route0 : state * option (school * string * claims) :=
  @guarded_route clear_jwt cfg0 (Ok [school_b; school_a]) users0 ["owner"; "staff"] healthy
    (request_of (staff_of "SCH-A" false) "SCH-A" "") (State world0 ∅).
Definition plain_user (r : option (school * string * claims)) : bool :=
  match r with Some (_, _, c) => negb (isSuperAdmin c) | None => false end.

Lemma route0_served : plain_user route0.2 = true.
Proof. vm_compute. reflexivity. Qed.
Lemma route0_claims : (fun '(_, _, c) => (c_schoolId c, c_userId c, c_sid c)) <$> route0.2 = Some ("SCH-A", "u1", "sid-1").
Proof. vm_compute. reflexivity. Qed.

Lemma tenant_isolation_witness :
  exists st' sch sid c, route0 = (st', Some (sch, sid, c)) /\ sid = c_schoolId c /\ sc_schoolId sch = c_schoolId c /\
    held_by users0 c "u1" /\ ~ denied "1" "sid-1" (s_redis (w_stores (st_world st'))).
Proof.
  pose proof route0_served as Hr. pose proof route0_claims as Hc.
  destruct route0 as [st' [[[sch sid] c]|]] eqn:E; [|discriminate Hr].
  exists st', sch, sid, c. split; [reflexivity|]. injection Hc as H1 H2 H3.
  destruct (@tenant_isolation clear_jwt cfg0 (State world0 ∅) [school_b; school_a] users0 ["owner"; "staff"] healthy
    (request_of (staff_of "SCH-A" false) "SCH-A" "") st' sch sid c
    (@reach_start clear_jwt cfg0 world0) ltac:(by repeat constructor) ltac:(discriminate) E
    (proj1 (negb_true_iff _) Hr)) as [[K1 [_ [K2 _]]] [_ [_ [_ [[K3 _] K4]]]]].
  rewrite H1, H2, H3 in *. split; [exact K1|]. split; [apply K2; exists "A"; reflexivity|].
  split; [apply K3; discriminate|]. apply K4; [discriminate|reflexivity|reflexivity].
Defined.

(** A token with the claim that should confine it to MFA enrolment passes every
    route: no guard reads the claim. *)
Theorem restricted_token_passes :
  exists p, (@requireSchoolAuth clear_jwt cfg0 users0 ["staff"] healthy
               (request_of (staff_of "SCH-A" true) "SCH-A" "") world0).2 = Next p /\
            c_mfaSetupPending (n_user p) = true.
Proof. eexists. split; [vm_compute; reflexivity|done]. Qed.

(** Naming the school by its slug escapes the tenant binding: the school context
    verifies tokens with another key than the guard and ignores the failure, and
    the guard compares ids only.  The handler of school A's staff then works with
    school B's document. *)
Theorem slug_serves_other_school :
  exists st' c, @guarded_route clear_jwt cfg0 (Ok [school_a; school_b]) users0 ["staff"] healthy
    (request_of (staff_of "SCH-A" false) "" "beta") (State world0 ∅) = (st', Some (school_b, "SCH-A", c)).
Proof. eexists _, _. vm_compute. reflexivity. Qed.

Definition forged_request : request := Request "10.0.0.9" "" "" "x" "" "" "" "" "/".

Lemma forged_request_forged : @forged clear_jwt cfg0 forged_request.
Proof. split; [done|]. intros t. reflexivity. Qed.

Definition attacked : world :=
  on_stores (wait 1000) (@hammer clear_jwt cfg0 users0 [] forged_request [1000; 0; 5000; 200000] world0).

Lemma forged_tokens_block_address_witness :
  @requireSchoolAuth clear_jwt cfg0 users0 ["staff"] healthy forged_request attacked = (attacked, Resp 429 "IP_BLOCKED") /\
  @requireAdminAuth clear_jwt cfg0 users0 healthy forged_request attacked = (attacked, Resp 429 "IP_BLOCKED").
Proof.
  exact (@forged_tokens_block_address clear_jwt cfg0 users0 [] forged_request [1000; 0; 5000; 200000] world0
           ["staff"] forged_request 1000 forged_request_forged
           ltac:(vm_compute; reflexivity) ltac:(vm_compute; reflexivity) eq_refl
           ltac:(repeat constructor; discriminate) eq_refl eq_refl ltac:(split; [discriminate|reflexivity])).
Defined.

(** When the first EXPIRE of a window is lost, the counter never expires: five
    forged tokens a month apart block the address. *)
Definition expire_lost : redis_env := RedisEnv true true true NoFault LostRequest NoFault.
Definition month : Z := 30 * 24 * 3600 * 1000.
Definition later_failure (w : world) : world :=
  (@requireSchoolAuth clear_jwt cfg0 users0 [] healthy forged_request (on_stores (wait month) w)).1.

Theorem lost_expiry_counts_forever :
  let w1 := (@requireSchoolAuth clear_jwt cfg0 users0 [] expire_lost forged_request world0).1 in
  isBlocked healthy "10.0.0.9" (w_stores (Nat.iter 4 later_failure w1)) = true.
Proof. vm_compute. reflexivity. Qed.

Lemma access_token_roundtrip_witness :
  exists sg, @sign clear_jwt cfg0 (staff_of "SCH-A" false) 60 "" "sid-1" "uuid-1" 1 = Ok sg /\
    @verify clear_jwt cfg0 (sg_token sg) 61 = Throw TokenExpiredError.
Proof.
  destruct (@sign clear_jwt cfg0 (staff_of "SCH-A" false) 60 "" "sid-1" "uuid-1" 1) as [sg|e] eqn:E;
    [|exfalso; revert E; unfold sign; cbn; discriminate].
  exists sg. split; [reflexivity|].
  rewrite (@access_token_roundtrip clear_jwt cfg0 (staff_of "SCH-A" false) 60 "" "sid-1" "uuid-1" 1 sg 61 E).
  revert E. unfold sign. cbn -[clear_sign]. intros [= <-]. reflexivity.
Defined.
End AuthProperties.
