(* ===== verification/Mfa.v ===== *)
(** Second factors: backend/src/controllers/mfaController.js.  Secrets at rest,
    backup codes (generation, normal form, matching, single use, attempt limit)
    and the school and user handlers.  bcrypt, the TOTP package and node's
    crypto are a class of operations with the laws used. *)

From Stdlib Require Import Ascii ZArith Lia.
From stdpp Require Import base strings gmap list.
From S2P Require Import Prelude JsString.
Local Open Scope string_scope.
Local Open Scope Z_scope.
Local Open Scope list_scope.

Module Mfa.

Abbreviation bytes := (list ascii).

(** ** The packages *)

Class Crypto := {
  bcrypt_hash : string -> string -> string;          (** text and salt *)
  bcrypt_compare : string -> string -> bool;
  totp_verify : string -> string -> Z -> bool;       (** secret, code, time; window 1 *)
  mfa_key : string -> bytes;                         (** keyed hash of the fixed label *)
  gcm_seal : bytes -> bytes -> bytes -> bytes * bytes;   (** key, iv, plain: ciphertext and tag *)
  gcm_open : bytes -> bytes -> bytes -> bytes -> option bytes;  (** key, iv, tag, ciphertext *)
  base64 : bytes -> string;
  unbase64 : string -> bytes;

  bcrypt_complete : forall x salt, bcrypt_compare x (bcrypt_hash x salt) = true;
  (** bcrypt reads 72 bytes. *)
  bcrypt_sound : forall x y salt, bcrypt_compare x (bcrypt_hash y salt) = true ->
    take 72 (chars x) = take 72 (chars y);
  gcm_tag_length : forall k iv p, length (gcm_seal k iv p).2 = 16%nat;
  gcm_open_seal : forall k iv p, gcm_open k iv (gcm_seal k iv p).2 (gcm_seal k iv p).1 = Some p;
  unbase64_base64 : forall b, unbase64 (base64 b) = b }.

(** ** Secrets at rest *)

Section Secrets.
Context `{CR : Crypto} (JWT_SECRET : string).

(** [None]: the call throws. *)
Definition getMfaEncryptionKey : option bytes :=
  if str_truthy JWT_SECRET then Some (mfa_key JWT_SECRET) else None.

Definition encryptMfaSecret (iv : bytes) (plaintext : string) : option string :=
  key ← getMfaEncryptionKey;
  let '(enc, tag) := gcm_seal key iv (chars plaintext) in
  Some (base64 (iv ++ tag ++ enc)).

Definition decryptMfaSecret (ciphertext : string) : option string :=
  key ← getMfaEncryptionKey;
  let data := unbase64 ciphertext in
  let iv := take 12 data in
  let tag := take 16 (drop 12 data) in
  let enc := drop 28 data in
  p ← gcm_open key iv tag enc; Some (text p).

Definition verifyTotpCode (encryptedSecret token : string) (now : Z) : bool :=
  match decryptMfaSecret encryptedSecret with
  | Some secret => totp_verify secret token now
  | None => false
  end.
End Secrets.

(** ** Backup codes *)

Definition BACKUP_CODE_COUNT : nat := 10.
Definition BACKUP_CODE_ALPHABET : bytes := chars "0123456789ABCDEFGHJKMNPQRSTVWXYZ".
Definition BACKUP_CODE_LENGTH : nat := 10.
Definition BACKUP_CODE_HASH_PREFIX : string := "bcrypt$".
Definition BACKUP_CODE_MAX_ATTEMPTS : Z := 5.
Definition BACKUP_CODE_WINDOW_MS : Z := 15 * 60 * 1000.

Definition alnum (c : ascii) : bool :=
  let z := code c in ((48 <=? z) && (z <=? 57)) || ((65 <=? z) && (z <=? 90)).
(** The Crockford aliases. *)
Definition alias (c : ascii) : ascii :=
  if bool_decide (c = "O"%char) then "0"%char
  else if bool_decide (c = "I"%char) || bool_decide (c = "L"%char) then "1"%char else c.

Definition normalizeBackupCode (s : string) : string :=
  text (map alias (List.filter alnum (map upper (chars s)))).

(** Ten symbols from ten random bytes. *)
Definition raw_code (random : list Z) : bytes :=
  map (fun b => nth (Z.to_nat (b mod 32)) BACKUP_CODE_ALPHABET "0"%char) random.
Definition backup_code (random : list Z) : string :=
  text (take 5 (raw_code random) ++ ["-"%char] ++ drop 5 (raw_code random)).
Definition generateBackupCodes (random : list (list Z)) : list string := map backup_code random.

Record backup := Backup { b_hash : string; b_used : bool }.

Definition isLegacyBackupCodeHash (hash : string) : bool :=
  negb (starts_with (chars BACKUP_CODE_HASH_PREFIX) (chars hash)).
Definition stored_hash (hash : string) : string :=
  text (drop (String.length BACKUP_CODE_HASH_PREFIX) (chars hash)).

Section Codes.
Context `{CR : Crypto}.

Definition hashBackupCode (salt code : string) : string :=
  (BACKUP_CODE_HASH_PREFIX ++ bcrypt_hash (normalizeBackupCode code) salt)%string.
Definition hashBackupCodes (salts codes : list string) : list string := zip_with hashBackupCode salts codes.

Fixpoint match_from (normalized : string) (i : nat) (codes : list backup) : option nat :=
  match codes with
  | [] => None
  | entry :: rest =>
    if b_used entry || isLegacyBackupCodeHash (b_hash entry) then match_from normalized (S i) rest
    else if bcrypt_compare normalized (stored_hash (b_hash entry)) then Some i
    else match_from normalized (S i) rest
  end.

(** [None] is the answer -1. *)
Definition findMatchingBackupCodeIndex (codes : list backup) (code : string) : option nat :=
  let normalized := normalizeBackupCode code in
  if negb (str_truthy normalized) then None else match_from normalized 0 codes.
End Codes.

(** ** The attempt limit *)

Record attempts := Attempts { windowStart : Z; count : Z }.
Abbreviation backupCodeAttempts := (gmap string attempts).

Inductive limit := Allowed | Limited (retryAfterMs : Z).

Definition in_window (now : Z) (e : option attempts) : option attempts :=
  match e with
  | Some a => if BACKUP_CODE_WINDOW_MS <? now - windowStart a then None else Some a
  | None => None
  end.

Definition checkBackupCodeRateLimit (key : string) (now : Z) (m : backupCodeAttempts) : backupCodeAttempts * limit :=
  match in_window now (m !! key) with
  | None => (<[key := Attempts now 0]> m, Allowed)
  | Some a =>
    if BACKUP_CODE_MAX_ATTEMPTS <=? count a
    then (m, Limited (BACKUP_CODE_WINDOW_MS - (now - windowStart a))) else (m, Allowed)
  end.

Definition recordBackupCodeAttempt (key : string) (now : Z) (m : backupCodeAttempts) : backupCodeAttempts :=
  match in_window now (m !! key) with
  | None => <[key := Attempts now 1]> m
  | Some a => <[key := Attempts (windowStart a) (count a + 1)]> m
  end.

Definition clearBackupCodeAttempts (key : string) (m : backupCodeAttempts) : backupCodeAttempts := delete key m.

(** ** Documents and handlers *)

(** A school (identified by its slug) or a user; an empty secret is [null]. *)
Record holder := Holder {
  h_isActive : bool; h_mfaEnabled : bool; h_mfaSecret : string; h_mfaBackupCodes : list backup;
  h_schoolId : string; h_email : string }.

Record state := State {
  schools : gmap string holder; users : gmap string holder;
  rates : backupCodeAttempts;
  audits : list (string * string);      (** action and target *)
  revoked : list string }.              (** users whose sessions were revoked *)

Definition set_school (slug : string) (h : holder) (st : state) : state :=
  State (<[slug := h]> (schools st)) (users st) (rates st) (audits st) (revoked st).
Definition set_user (id : string) (h : holder) (st : state) : state :=
  State (schools st) (<[id := h]> (users st)) (rates st) (audits st) (revoked st).
Definition set_rates (r : backupCodeAttempts) (st : state) : state :=
  State (schools st) (users st) r (audits st) (revoked st).
Definition log (action target : string) (st : state) : state :=
  State (schools st) (users st) (rates st) (audits st ++ [(action, target)]) (revoked st).
Definition revokeAll (userId : string) (st : state) : state :=
  State (schools st) (users st) (rates st) (audits st) (revoked st ++ [userId]).

Definition with_secret (enabled : bool) (secret : string) (codes : list backup) (h : holder) : holder :=
  Holder (h_isActive h) enabled secret codes (h_schoolId h) (h_email h).
Definition with_used (idx : nat) (h : holder) : holder :=
  with_secret (h_mfaEnabled h) (h_mfaSecret h)
    (alter (fun b => Backup (b_hash b) true) idx (h_mfaBackupCodes h)) h.

Inductive reply := Done | Setup (secret : string) (codes : list string) | Codes (codes : list string) | Fail (status : Z) (code : string).

(** What a request draws: the TOTP secret, the bytes and salts of the backup
    codes and the initialisation vector. *)
Record draws := Draws { d_secret : string; d_random : list (list Z); d_salts : list string; d_iv : bytes }.

Section Handlers.
Context `{CR : Crypto} (JWT_SECRET : string).

Definition fresh_codes (d : draws) : list backup :=
  map (fun h => Backup h false) (hashBackupCodes (d_salts d) (generateBackupCodes (d_random d))).

Definition active_school (slug : string) (st : state) : option holder :=
  match schools st !! slug with Some h => if h_isActive h then Some h else None | None => None end.

Definition setupMfa (slug : string) (d : draws) (st : state) : state * reply :=
  if negb (str_truthy slug) then (st, Fail 400 "MISSING_SCHOOL_SLUG") else
  match active_school slug st with
  | None => (st, Fail 404 "SCHOOL_NOT_FOUND")
  | Some h =>
    if h_mfaEnabled h then (st, Fail 400 "MFA_ALREADY_ACTIVE") else
    match encryptMfaSecret JWT_SECRET (d_iv d) (d_secret d) with
    | None => (st, Fail 500 "MFA_SETUP_ERROR")
    | Some sealed =>
      (log "MFA_SECRET_GENERATED" slug (set_school slug (with_secret (h_mfaEnabled h) sealed (fresh_codes d) h) st),
       Setup (d_secret d) (generateBackupCodes (d_random d)))
    end
  end.

(** The secret of the request body, or else the stored one: [Some None] is no
    secret at all, [None] a stored one that does not decrypt. *)
Definition pending_secret (body : string) (h : holder) : option (option string) :=
  if str_truthy body then Some (Some body)
  else if str_truthy (h_mfaSecret h) then Some <$> decryptMfaSecret JWT_SECRET (h_mfaSecret h)
  else Some None.

Definition enable (setter : holder -> state -> state) (action target : string) (iv : bytes)
    (secret code : string) (now : Z) (h : holder) (st : state) : state * reply :=
  match pending_secret secret h with
  | None => (st, Fail 500 "MFA_ENABLE_ERROR")
  | Some None => (st, Fail 400 "MFA_NOT_SETUP")
  | Some (Some verifySecret) =>
    if negb (str_truthy verifySecret) then (st, Fail 400 "MFA_NOT_SETUP") else
    if negb (totp_verify verifySecret code now) then (st, Fail 400 "INVALID_MFA_CODE") else
    match encryptMfaSecret JWT_SECRET iv verifySecret with
    | None => (st, Fail 500 "MFA_ENABLE_ERROR")
    | Some sealed => (log action target (setter (with_secret true sealed (h_mfaBackupCodes h) h) st), Done)
    end
  end.

Definition verifyAndEnableMfa (slug secret code : string) (iv : bytes) (now : Z) (st : state) : state * reply :=
  if negb (str_truthy slug) then (st, Fail 400 "MISSING_SCHOOL_SLUG") else
  if negb (str_truthy code) then (st, Fail 400 "MISSING_MFA_CODE") else
  match active_school slug st with
  | None => (st, Fail 404 "SCHOOL_NOT_FOUND")
  | Some h => enable (set_school slug) "MFA_ENABLED" slug iv secret code now h st
  end.

(** The stored secret must decrypt and fit the code. *)
Definition check_current (code : string) (now : Z) (h : holder) : option reply :=
  if negb (str_truthy (h_mfaSecret h)) then Some (Fail 400 "MFA_NOT_CONFIGURED") else
  match decryptMfaSecret JWT_SECRET (h_mfaSecret h) with
  | None => Some (Fail 500 "MFA_DISABLE_ERROR")
  | Some secret => if totp_verify secret code now then None else Some (Fail 400 "INVALID_MFA_CODE")
  end.

Definition disableMfa (slug code : string) (now : Z) (st : state) : state * reply :=
  if negb (str_truthy slug) then (st, Fail 400 "MISSING_SCHOOL_SLUG") else
  if negb (str_truthy code) then (st, Fail 400 "MISSING_MFA_CODE") else
  match active_school slug st with
  | None => (st, Fail 404 "SCHOOL_NOT_FOUND")
  | Some h =>
    match check_current code now h with
    | Some r => (st, r)
    | None => (log "MFA_DISABLED" slug (set_school slug (with_secret false "" [] h) st), Done)
    end
  end.

(** [timingSafeEqual] throws on buffers of different lengths. *)
Definition env_password (envHash envPassword password : string) : option bool :=
  if str_truthy envHash then Some (bcrypt_compare password envHash)
  else if str_truthy envPassword then
    if (String.length password =? String.length envPassword)%nat
    then Some (bool_decide (password = envPassword)) else None
  else Some false.

Definition regenerateBackupCodes (envHash envPassword : string) (slug code password : string) (d : draws) (now : Z)
    (st : state) : state * reply :=
  if negb (str_truthy slug) then (st, Fail 400 "MISSING_SCHOOL_SLUG") else
  match active_school slug st with
  | None => (st, Fail 404 "SCHOOL_NOT_FOUND")
  | Some h =>
    let totp := if negb (str_truthy code) then inr false
                else if negb (str_truthy (h_mfaSecret h)) then inl (Fail 400 "MFA_NOT_CONFIGURED")
                else match decryptMfaSecret JWT_SECRET (h_mfaSecret h) with
                     | None => inl (Fail 500 "MFA_REGENERATE_ERROR")
                     | Some s => if totp_verify s code now then inr true else inl (Fail 401 "INVALID_MFA_CODE")
                     end in
    let verified := match totp with
                    | inr false => if negb (str_truthy password) then inr false else
                                   match env_password envHash envPassword password with
                                   | None => inl (Fail 500 "MFA_REGENERATE_ERROR")
                                   | Some true => inr true
                                   | Some false => inl (Fail 401 "INVALID_PASSWORD")
                                   end
                    | other => other
                    end in
    match verified with
    | inl r => (st, r)
    | inr false => (st, Fail 400 "VERIFICATION_REQUIRED")
    | inr true =>
      (log "MFA_BACKUP_CODES_REGENERATED" slug
         (set_school slug (with_secret (h_mfaEnabled h) (h_mfaSecret h) (fresh_codes d) h) st),
       Codes (generateBackupCodes (d_random d)))
    end
  end.

Definition no_user_mfa (userId : string) : bool := negb (str_truthy userId) || bool_decide (userId = "super_admin").

Definition setupUserMfa (userId : string) (d : draws) (st : state) : state * reply :=
  if no_user_mfa userId then (st, Fail 403 "MFA_NOT_AVAILABLE") else
  match users st !! userId with
  | None => (st, Fail 404 "USER_NOT_FOUND")
  | Some h =>
    match encryptMfaSecret JWT_SECRET (d_iv d) (d_secret d) with
    | None => (st, Fail 500 "MFA_SETUP_ERROR")
    | Some sealed =>
      (log "USER_MFA_SETUP_INITIATED" userId (set_user userId (with_secret (h_mfaEnabled h) sealed (fresh_codes d) h) st),
       Setup (d_secret d) (generateBackupCodes (d_random d)))
    end
  end.

(** The handler ends by rotating the tokens of a restricted session
    ([mfaSetupPending]); with a refresh cookie it calls a method the session
    store does not have, and the exception is answered 500. *)
Definition verifyAndEnableUserMfa (mfaSetupPending : bool) (refreshCookie userId secret code : string) (iv : bytes)
    (now : Z) (st : state) : state * reply :=
  if no_user_mfa userId then (st, Fail 403 "MFA_NOT_AVAILABLE") else
  if negb (str_truthy code) then (st, Fail 400 "MISSING_MFA_CODE") else
  match users st !! userId with
  | None => (st, Fail 404 "USER_NOT_FOUND")
  | Some h =>
    match enable (set_user userId) "USER_MFA_ENABLED" userId iv secret code now h st with
    | (st, Done) =>
      if mfaSetupPending && str_truthy refreshCookie then (st, Fail 500 "MFA_ENABLE_ERROR") else (st, Done)
    | other => other
    end
  end.

Definition disableUserMfa (userId code : string) (now : Z) (st : state) : state * reply :=
  if no_user_mfa userId then (st, Fail 403 "MFA_NOT_AVAILABLE") else
  if negb (str_truthy code) then (st, Fail 400 "MISSING_MFA_CODE") else
  match users st !! userId with
  | None => (st, Fail 404 "USER_NOT_FOUND")
  | Some h =>
    match check_current code now h with
    | Some r => (st, r)
    | None => (log "USER_MFA_DISABLED" userId (revokeAll userId (set_user userId (with_secret false "" [] h) st)), Done)
    end
  end.

(** *** Consuming a backup code: a look-up, then a guarded update *)

Inductive consumed := NotFound | RateLimited (retryAfterMs : Z) | Invalid | Consumed.

Inductive account := UserAccount (userId : string) | SchoolAccount (slug : string).
#[export] Instance account_eq_dec : EqDecision account.
Proof. solve_decision. Defined.

Definition rate_key (a : account) : string :=
  match a with UserAccount id => ("user:" ++ id)%string | SchoolAccount slug => ("school:" ++ slug)%string end.
Definition get_holder (a : account) (st : state) : option holder :=
  match a with UserAccount id => users st !! id | SchoolAccount slug => active_school slug st end.
Definition set_holder (a : account) (h : holder) (st : state) : state :=
  match a with UserAccount id => set_user id h st | SchoolAccount slug => set_school slug h st end.

(** The look-up: an answer, or the index to claim. *)
Definition lookup_code (a : account) (code : string) (now : Z) (st : state) : state * (consumed + nat) :=
  match get_holder a st with
  | None => (st, inl NotFound)
  | Some h =>
    match checkBackupCodeRateLimit (rate_key a) now (rates st) with
    | (r, Limited ms) => (set_rates r st, inl (RateLimited ms))
    | (r, Allowed) =>
      match findMatchingBackupCodeIndex (h_mfaBackupCodes h) code with
      | None => (set_rates (recordBackupCodeAttempt (rate_key a) now r) st, inl Invalid)
      | Some idx => (set_rates r st, inr idx)
      end
    end
  end.

(** The update: only if the element is still unused. *)
Definition claim_code (a : account) (idx : nat) (now : Z) (st : state) : state * consumed :=
  let lost := (set_rates (recordBackupCodeAttempt (rate_key a) now (rates st)) st, Invalid) in
  match get_holder a st with
  | Some h =>
    match h_mfaBackupCodes h !! idx with
    | Some (Backup _ false) =>
      (set_rates (clearBackupCodeAttempts (rate_key a) (rates st)) (set_holder a (with_used idx h) st), Consumed)
    | _ => lost
    end
  | None => lost
  end.

(** Both calls in a row. *)
Definition consume (a : account) (code : string) (now : Z) (st : state) : state * consumed :=
  match lookup_code a code now st with
  | (st, inl r) => (st, r)
  | (st, inr idx) => claim_code a idx now st
  end.
Definition consumeUserBackupCode (userId : string) := consume (UserAccount userId).
Definition consumeSchoolBackupCode (slug : string) := consume (SchoolAccount slug).
End Handlers.

(** ** Secrets survive storage *)

Section Storage.
Context `{CR : Crypto} (JWT_SECRET : string).

(** A secret sealed with a twelve-byte vector is read back unchanged. *)
Theorem mfa_secret_roundtrip iv secret sealed : length iv = 12%nat ->
  encryptMfaSecret JWT_SECRET iv secret = Some sealed -> decryptMfaSecret JWT_SECRET sealed = Some secret.
Proof.
  unfold encryptMfaSecret, decryptMfaSecret. destruct (getMfaEncryptionKey _) as [key|]; [|done].
  cbn [mbind option_bind]. intros Hiv. destruct (gcm_seal key iv (chars secret)) as [enc tag] eqn:E. intros [= <-].
  pose proof (gcm_tag_length key iv (chars secret)) as Ht. pose proof (gcm_open_seal key iv (chars secret)) as Ho.
  rewrite E in Ht, Ho. cbn [fst snd] in Ht, Ho. rewrite unbase64_base64.
  rewrite take_app_length' by done. rewrite drop_app_length' by done. rewrite take_app_length' by done.
  rewrite app_assoc, drop_app_length' by (rewrite length_app; lia). rewrite Ho. cbn. by rewrite text_chars.
Qed.
End Storage.

(** ** The normal form of backup codes *)

Definition symbol (c : ascii) : Prop := c ∈ BACKUP_CODE_ALPHABET.

Lemma symbol_normal c : symbol c -> upper c = c /\ alnum c = true /\ alias c = c.
Proof.
  unfold symbol. intros H. assert (forallb (fun c => bool_decide (upper c = c) && alnum c && bool_decide (alias c = c))
    BACKUP_CODE_ALPHABET = true) as HF by (vm_compute; reflexivity).
  rewrite forallb_forall in HF. specialize (HF c). rewrite <- list_elem_of_In in HF. specialize (HF H).
  apply andb_prop in HF as [HF H3]. apply andb_prop in HF as [H1 H2].
  by apply bool_decide_eq_true in H1, H3.
Qed.

Lemma raw_code_symbols r : Forall symbol (raw_code r).
Proof.
  unfold raw_code. apply Forall_fmap, Forall_forall. intros b _. unfold compose, symbol.
  apply list_elem_of_In, nth_In. pose proof (Z.mod_pos_bound b 32 ltac:(lia)). change (length BACKUP_CODE_ALPHABET) with 32%nat. lia.
Qed.

Lemma normal_symbols l : Forall symbol l -> map alias (List.filter alnum (map upper l)) = l.
Proof.
  induction 1 as [|c l Hc Hl IH]; simpl; [done|]. apply symbol_normal in Hc as (H1 & H2 & H3).
  rewrite H1, H2. simpl. by rewrite H3, IH.
Qed.

(** A printed code has its ten symbols as normal form: the dash is dropped. *)
Lemma normalize_backup_code r : normalizeBackupCode (backup_code r) = text (raw_code r).
Proof.
  unfold normalizeBackupCode, backup_code. rewrite chars_text. f_equal.
  pose proof (raw_code_symbols r) as H.
  rewrite !map_app, !List.filter_app, !map_app.
  rewrite (normal_symbols (take 5 _)), (normal_symbols (drop 5 _)) by auto using Forall_take, Forall_drop.
  apply take_drop.
Qed.

(** Different draws modulo 32 give codes that no spelling confuses. *)
Lemma raw_code_inj r1 r2 : raw_code r1 = raw_code r2 -> map (fun b => b mod 32) r1 = map (fun b => b mod 32) r2.
Proof.
  revert r2. induction r1 as [|a r1 IH]; intros [|b r2]; simpl; try done. intros [= Hab Hr].
  f_equal; [|by apply IH].
  pose proof (Z.mod_pos_bound a 32 ltac:(lia)). pose proof (Z.mod_pos_bound b 32 ltac:(lia)).
  assert (NoDup BACKUP_CODE_ALPHABET) as Hnd by (apply (bool_decide_unpack _); vm_compute; exact I).
  apply NoDup_ListNoDup in Hnd.
  apply (proj1 (NoDup_nth _ "0"%char) Hnd) in Hab; [lia|change (length BACKUP_CODE_ALPHABET) with 32%nat; lia..].
Qed.

(** ** Which texts a set of codes accepts *)

Section Matching.
Context `{CR : Crypto}.

Lemma hash_not_legacy salt c : isLegacyBackupCodeHash (hashBackupCode salt c) = false.
Proof. unfold isLegacyBackupCodeHash, hashBackupCode, BACKUP_CODE_HASH_PREFIX. reflexivity. Qed.

Lemma stored_hash_spec salt c : stored_hash (hashBackupCode salt c) = bcrypt_hash (normalizeBackupCode c) salt.
Proof. unfold stored_hash, hashBackupCode, BACKUP_CODE_HASH_PREFIX. apply text_chars. Qed.

Lemma bcrypt_code x r salt : length r = BACKUP_CODE_LENGTH ->
  bcrypt_compare x (bcrypt_hash (text (raw_code r)) salt) = bool_decide (x = text (raw_code r)).
Proof.
  intros Hr. case_bool_decide as E; [subst; apply bcrypt_complete|].
  destruct (bcrypt_compare _ _) eqn:Hc; [|done]. exfalso. apply E. apply bcrypt_sound in Hc.
  assert (length (raw_code r) = 10%nat) as Hl by (unfold raw_code; by rewrite length_map).
  rewrite chars_text, (take_ge (raw_code r)) in Hc by lia.
  assert (length (chars x) = 10%nat) as Hx.
  { apply (f_equal length) in Hc. rewrite length_take in Hc. lia. }
  rewrite take_ge in Hc by lia. by rewrite <- Hc, text_chars.
Qed.

(** Where a stored code is unused and current, matching is equality of normal forms. *)
Definition accepts (x : string) (b : backup) : bool :=
  negb (b_used b) && negb (isLegacyBackupCodeHash (b_hash b)) && bcrypt_compare x (stored_hash (b_hash b)).

Lemma match_from_cons x i b codes :
  match_from x i (b :: codes) = if accepts x b then Some i else match_from x (S i) codes.
Proof. simpl. unfold accepts. by destruct (b_used b), (isLegacyBackupCodeHash (b_hash b)), (bcrypt_compare _ _). Qed.

Lemma match_from_spec x codes i : match match_from x i codes with
  | Some j => exists k b, j = (i + k)%nat /\ codes !! k = Some b /\ accepts x b = true
  | None => Forall (fun b => accepts x b = false) codes end.
Proof.
  revert i. induction codes as [|b codes IH]; intros i; [constructor|].
  rewrite match_from_cons. destruct (accepts x b) eqn:Ha; [exists 0%nat, b; split; [lia|done]|].
  specialize (IH (S i)). destruct (match_from x (S i) codes) as [j|]; [|by constructor].
  destruct IH as (k & b' & -> & Hk & Hb). exists (S k), b'. split; [lia|done].
Qed.

Lemma fresh_codes_lookup d k b : fresh_codes d !! k = Some b ->
  exists salt r, d_random d !! k = Some r /\ b = Backup (hashBackupCode salt (backup_code r)) false.
Proof.
  unfold fresh_codes, hashBackupCodes, generateBackupCodes. rewrite list_lookup_fmap, fmap_Some.
  intros (h & Hh & ->). apply lookup_zip_with_Some in Hh as (salt & c & -> & _ & Hc).
  rewrite list_lookup_fmap, fmap_Some in Hc. destruct Hc as (r & Hr & ->). eauto.
Qed.

Lemma fresh_codes_elem d k r : (length (d_random d) <= length (d_salts d))%nat -> d_random d !! k = Some r ->
  exists salt, fresh_codes d !! k = Some (Backup (hashBackupCode salt (backup_code r)) false).
Proof.
  intros Hl Hr. destruct (lookup_lt_is_Some_2 (d_salts d) k) as [salt Hs].
  { apply lookup_lt_Some in Hr. lia. }
  exists salt. unfold fresh_codes, hashBackupCodes, generateBackupCodes.
  rewrite list_lookup_fmap, (proj2 (lookup_zip_with_Some _ _ _ _ (hashBackupCode salt (backup_code r)))); [done|].
  exists salt, (backup_code r). by rewrite list_lookup_fmap, Hr.
Qed.

Lemma accepts_fresh x salt r : length r = BACKUP_CODE_LENGTH ->
  accepts x (Backup (hashBackupCode salt (backup_code r)) false) = bool_decide (x = text (raw_code r)).
Proof.
  intros Hr. unfold accepts. cbn [b_used b_hash negb]. rewrite hash_not_legacy, stored_hash_spec, normalize_backup_code.
  cbn [negb andb]. by apply bcrypt_code.
Qed.

Lemma text_raw_truthy r : length r = BACKUP_CODE_LENGTH -> str_truthy (text (raw_code r)) = true.
Proof. by destruct r. Qed.

(** A freshly issued set of backup codes accepts exactly the texts that spell one
    of them: letter case, dashes, blanks and the look-alikes O, I and L do not
    matter, and nothing else is accepted. *)
Theorem backup_codes_accept_spellings d typed :
  Forall (fun r => length r = BACKUP_CODE_LENGTH) (d_random d) ->
  (length (d_random d) <= length (d_salts d))%nat ->
  (exists i, findMatchingBackupCodeIndex (fresh_codes d) typed = Some i) <->
  (exists r, r ∈ d_random d /\ normalizeBackupCode typed = normalizeBackupCode (backup_code r)).
Proof.
  intros Hlen Hsalts. rewrite Forall_forall in Hlen. unfold findMatchingBackupCodeIndex.
  setoid_rewrite normalize_backup_code. split.
  - intros [i Hi]. destruct (str_truthy (normalizeBackupCode typed)) eqn:Ht; [|done]. cbn [negb] in Hi.
    pose proof (match_from_spec (normalizeBackupCode typed) (fresh_codes d) 0) as Hm. rewrite Hi in Hm.
    destruct Hm as (k & b & _ & Hk & Ha). apply fresh_codes_lookup in Hk as (salt & r & Hr & ->).
    apply list_elem_of_lookup_2 in Hr. exists r. split; [done|].
    rewrite accepts_fresh in Ha by auto. by apply bool_decide_eq_true in Ha.
  - intros (r & Hr & Hn). rewrite Hn, text_raw_truthy by auto. cbn [negb].
    pose proof (match_from_spec (text (raw_code r)) (fresh_codes d) 0) as Hm.
    destruct (match_from (text (raw_code r)) 0 (fresh_codes d)) as [j|]; [eauto|]. exfalso.
    apply list_elem_of_lookup in Hr as [k Hk]. destruct (fresh_codes_elem d k r Hsalts Hk) as [salt Hs].
    eapply Forall_lookup_1 in Hm; [|exact Hs]. rewrite accepts_fresh, bool_decide_true in Hm by (try apply Hlen; eauto using list_elem_of_lookup_2).
    done.
Qed.
End Matching.

(** ** The attempt limit *)

(** Wrong codes presented one after the other, and how many of them are
    compared with the stored codes at all. *)
Fixpoint wrong_codes (key : string) (times : list Z) (m : backupCodeAttempts) : nat :=
  match times with
  | [] => 0
  | now :: rest =>
    match checkBackupCodeRateLimit key now m with
    | (m, Allowed) => S (wrong_codes key rest (recordBackupCodeAttempt key now m))
    | (m, Limited _) => wrong_codes key rest m
    end
  end.

Lemma in_window_some now a : now - windowStart a <= BACKUP_CODE_WINDOW_MS -> in_window now (Some a) = Some a.
Proof. intros H. unfold in_window. by destruct (Z.ltb_spec BACKUP_CODE_WINDOW_MS (now - windowStart a)); [lia|]. Qed.

Lemma wrong_codes_window key start n times : forall m,
  m !! key = Some (Attempts start n) -> 0 <= n <= 5 ->
  Forall (fun t => t - start <= BACKUP_CODE_WINDOW_MS) times ->
  wrong_codes key times m = Nat.min (length times) (Z.to_nat (5 - n)).
Proof.
  revert n. induction times as [|t times IH]; intros n m Hm Hn Ht; [done|].
  apply Forall_cons in Ht as [Ht Hts]. cbn [wrong_codes]. unfold checkBackupCodeRateLimit, recordBackupCodeAttempt.
  rewrite Hm, in_window_some by done. cbn [count windowStart]. unfold BACKUP_CODE_MAX_ATTEMPTS.
  destruct (Z.leb_spec 5 n).
  - rewrite (IH n) by done. replace (5 - n) with 0 by lia. simpl. lia.
  - rewrite Hm, in_window_some by done. cbn [count windowStart].
    rewrite (IH (n + 1)); [|by rewrite lookup_insert_eq|lia|done]. simpl length. lia.
Qed.

(** Within one window of fifteen minutes exactly the first five wrong codes are
    examined, however many are presented. *)
Theorem wrong_codes_examined key first times m : m !! key = None ->
  Forall (fun t => t - first <= BACKUP_CODE_WINDOW_MS) times ->
  wrong_codes key (first :: times) m = Nat.min (S (length times)) 5.
Proof.
  intros Hm Ht. cbn [wrong_codes]. unfold checkBackupCodeRateLimit, recordBackupCodeAttempt.
  rewrite Hm. cbn [in_window]. rewrite lookup_insert_eq, in_window_some by (cbn; unfold BACKUP_CODE_WINDOW_MS; lia).
  cbn [count windowStart].
  rewrite (wrong_codes_window key first 1); [|by rewrite lookup_insert_eq|lia|done]. simpl Z.to_nat. lia.
Qed.

(** ** Concurrent requests spend a code once *)

Section Interleaving.
Context `{CR : Crypto}.

(** One database round trip of one request. *)
Inductive step :=
| Look (req : nat) (a : account) (code : string) (now : Z)
| Claim (req : nat) (now : Z).

(** The documents, what each request is about to claim, and what was granted. *)
Record run_state := Run {
  r_st : state; r_pending : gmap nat (account * nat * string); r_won : list (account * nat * string) }.

Definition run_step (s : step) (r : run_state) : run_state :=
  match s with
  | Look req a code now =>
    match lookup_code a code now (r_st r) with
    | (st, inl _) => Run st (delete req (r_pending r)) (r_won r)
    | (st, inr idx) => Run st (<[req := (a, idx, code)]> (r_pending r)) (r_won r)
    end
  | Claim req now =>
    match r_pending r !! req with
    | None => r
    | Some (a, idx, code) =>
      match claim_code a idx now (r_st r) with
      | (st, Consumed) => Run st (delete req (r_pending r)) (r_won r ++ [(a, idx, code)])
      | (st, _) => Run st (delete req (r_pending r)) (r_won r)
      end
    end
  end.
Definition run (steps : list step) (st : state) : run_state :=
  foldl (fun r s => run_step s r) (Run st ∅ []) steps.

Definition code_at (a : account) (i : nat) (st : state) : option backup :=
  get_holder a st ≫= fun h => h_mfaBackupCodes h !! i.

Lemma code_at_rates a i r st : code_at a i (set_rates r st) = code_at a i st.
Proof. by destruct a. Qed.

Lemma get_set_holder a a' h h' st : get_holder a st = Some h -> h_isActive h' = h_isActive h ->
  get_holder a' (set_holder a h' st) = if bool_decide (a' = a) then Some h' else get_holder a' st.
Proof.
  intros Hg Ha. destruct a as [id|slug], a' as [id'|slug']; cbn in *; unfold active_school in *; cbn in *.
  - case_bool_decide as E; simplify_eq; [by rewrite lookup_insert_eq|]. by rewrite lookup_insert_ne by (intros ->; by apply E).
  - by rewrite bool_decide_false.
  - by rewrite bool_decide_false.
  - case_bool_decide as E; simplify_eq.
    + rewrite lookup_insert_eq, Ha. destruct (schools st !! slug) as [h1|]; [|done]. destruct (h_isActive h1) eqn:E; [|done]. simplify_eq. by rewrite E.
    + by rewrite lookup_insert_ne by (intros ->; by apply E).
Qed.

(** A granted claim marks exactly one unused code; anything else leaves them all. *)
Lemma claim_code_spec a idx now st st' res : claim_code a idx now st = (st', res) ->
  (res = Consumed /\ exists b, code_at a idx st = Some b /\ b_used b = false /\
     forall a' i, code_at a' i st' = if bool_decide (a' = a /\ i = idx) then Some (Backup (b_hash b) true) else code_at a' i st) \/
  (res = Invalid /\ forall a' i, code_at a' i st' = code_at a' i st).
Proof.
  unfold claim_code. cbv zeta. destruct (get_holder a st) as [h|] eqn:Hg.
  2: { intros [= <- <-]. right. split; [done|]. intros. apply code_at_rates. }
  destruct (h_mfaBackupCodes h !! idx) as [[hash []]|] eqn:Hc;
    intros [= <- <-]; [right; split; [done|intros; apply code_at_rates]| |right; split; [done|intros; apply code_at_rates]].
  left. split; [done|]. exists (Backup hash false). split; [unfold code_at; by rewrite Hg|]. split; [done|].
  intros a' i. rewrite code_at_rates. unfold code_at. rewrite (get_set_holder a a' h) by done.
  destruct (bool_decide_reflect (a' = a)) as [->|Hne].
  - cbn [mbind option_bind with_used with_secret h_mfaBackupCodes]. rewrite Hg. cbn [mbind option_bind].
    destruct (decide (i = idx)) as [->|Hi].
    + rewrite bool_decide_true by done. by rewrite list_lookup_alter_eq, Hc.
    + rewrite bool_decide_false by tauto. by rewrite list_lookup_alter_ne.
  - by rewrite bool_decide_false by tauto.
Qed.

Lemma lookup_code_spec a code now st st' res : lookup_code a code now st = (st', res) ->
  (forall a' i, code_at a' i st' = code_at a' i st) /\
  (forall idx, res = inr idx -> exists b, code_at a idx st = Some b /\ accepts (normalizeBackupCode code) b = true).
Proof.
  unfold lookup_code. destruct (get_holder a st) as [h|] eqn:Hg; [|by intros [= <- <-]].
  destruct (checkBackupCodeRateLimit _ _ _) as [r []]; [|intros [= <- <-]; split; [intros; apply code_at_rates|done]].
  destruct (findMatchingBackupCodeIndex _ _) as [idx|] eqn:Hf; intros [= <- <-];
    (split; [intros; apply code_at_rates|]); [|done].
  intros idx' [= <-]. unfold findMatchingBackupCodeIndex in Hf. cbv zeta in Hf. destruct (negb _); [done|].
  pose proof (match_from_spec (normalizeBackupCode code) (h_mfaBackupCodes h) 0) as Hm. rewrite Hf in Hm.
  destruct Hm as (k & b & -> & Hk & Ha). exists b. split; [unfold code_at; by rewrite Hg|done].
Qed.

(** Codes are only ever marked used. *)
Definition spent_more (st st' : state) : Prop :=
  forall a i b', code_at a i st' = Some b' ->
    exists b, code_at a i st = Some b /\ b_hash b' = b_hash b /\ (b_used b' = false -> b_used b = false).

Definition run_ok (st0 : state) (r : run_state) : Prop :=
  spent_more st0 (r_st r) /\
  (forall a i b, code_at a i st0 = Some b -> is_Some (code_at a i (r_st r))) /\
  (forall req a i c, r_pending r !! req = Some (a, i, c) ->
     exists b, code_at a i st0 = Some b /\ accepts (normalizeBackupCode c) b = true) /\
  (forall a i c, (a, i, c) ∈ r_won r ->
     (exists b, code_at a i st0 = Some b /\ accepts (normalizeBackupCode c) b = true) /\
     (exists b, code_at a i (r_st r) = Some b /\ b_used b = true)) /\
  NoDup (map fst (r_won r)).

Lemma accepts_hash x b b' : b_hash b' = b_hash b -> (b_used b' = false -> b_used b = false) ->
  accepts x b' = true -> accepts x b = true.
Proof.
  unfold accepts. intros -> Hu. destruct (b_used b'); [done|]. by rewrite Hu.
Qed.

Lemma run_step_ok st0 s r : run_ok st0 r -> run_ok st0 (run_step s r).
Proof.
  intros Hr. pose proof Hr as (Hs & He & Hp & Hw & Hn). destruct s as [req a c now|req now]; cbn [run_step].
  - destruct (lookup_code a c now (r_st r)) as [st res] eqn:E. apply lookup_code_spec in E as [Hc Hi].
    assert (run_ok st0 (Run st (r_pending r) (r_won r))) as (Hs' & He' & Hp' & Hw' & Hn').
    { split_and!; cbn [r_st r_pending r_won]; [| |done|by intros a' i' c' H; rewrite Hc; apply Hw|done].
      - intros a' i' b'. rewrite Hc. apply Hs.
      - intros a' i' b'. rewrite Hc. apply He. }
    destruct res as [|idx]; split_and!; cbn [r_st r_pending r_won]; try done.
    + intros req' a' i' c'. rewrite lookup_delete_Some. intros [_ H]. by apply (Hp' req').
    + intros req' a' i' c'. rewrite lookup_insert_Some. intros [[_ [= <- <- <-]]|[_ H]]; [|by apply (Hp' req')].
      destruct (Hi idx eq_refl) as (b & Hb & Ha). destruct (Hs _ _ _ Hb) as (b0 & Hb0 & Hh & Hu).
      exists b0. split; [done|]. by apply (accepts_hash _ b0 b).
  - destruct (r_pending r !! req) as [[[a idx] c]|] eqn:Er; [|done].
    destruct (claim_code a idx now (r_st r)) as [st res] eqn:E.
    apply claim_code_spec in E as [(-> & b & Hb & Hub & Hc)|(-> & Hc)]; split_and!; cbn [r_st r_pending r_won].
    + intros a' i' b'. rewrite Hc. case_bool_decide as Ei; [|apply Hs]. destruct Ei as [-> ->]. intros [= <-].
      destruct (Hs _ _ _ Hb) as (b0 & Hb0 & Hh & Hu). by exists b0.
    + intros a' i' b' Hb'. rewrite Hc. case_bool_decide; [done|]. by eapply He.
    + intros req' a' i' c'. rewrite lookup_delete_Some. intros [_ H]. by apply (Hp req').
    + intros a' i' c'. rewrite elem_of_app, list_elem_of_singleton. intros [H|[= -> -> ->]].
      * destruct (Hw _ _ _ H) as [H1 (b1 & Hb1 & Hu1)]. split; [done|]. setoid_rewrite Hc. case_bool_decide; eauto.
      * split; [by apply (Hp req)|]. setoid_rewrite Hc. rewrite bool_decide_true by done. eauto.
    + rewrite map_app. apply NoDup_app. split; [done|]. split; [|apply NoDup_singleton].
      intros x Hx Hx'. apply list_elem_of_singleton in Hx'. subst x. apply list_elem_of_fmap in Hx as ([[a' i'] c'] & [= <- <-] & Hin).
      apply Hw in Hin as [_ (b1 & Hb1 & Hu1)]. congruence.
    + intros a' i' b'. rewrite Hc. apply Hs.
    + intros a' i' b'. rewrite Hc. apply He.
    + intros req' a' i' c'. rewrite lookup_delete_Some. intros [_ H]. by apply (Hp req').
    + intros a' i' c' H. setoid_rewrite Hc. by apply Hw.
    + done.
Qed.

(** In every interleaving of the two steps of requests that spend backup codes,
    and while nothing replaces the codes, every granted request presented a text
    that one of the account's unused codes accepts, and no code is granted twice.
    (No route calls the two functions: the login handler looks a code up itself.) *)
Theorem backup_code_spent_once steps st :
  NoDup (map fst (r_won (run steps st))) /\
  forall a i c, (a, i, c) ∈ r_won (run steps st) ->
    exists b, code_at a i st = Some b /\ b_used b = false /\ accepts (normalizeBackupCode c) b = true.
Proof.
  assert (run_ok st (run steps st)) as (_ & _ & _ & Hw & Hn).
  { unfold run. assert (run_ok st (Run st ∅ [])) as H0.
    { split_and!; cbn [r_st r_pending r_won].
      - intros a i b' H. by exists b'.
      - intros a i b H. by eexists.
      - done.
      - by intros a i c H%elem_of_nil.
      - constructor. }
    revert H0. generalize (Run st ∅ []). induction steps as [|s steps IH]; intros r Hr; [done|].
    cbn [foldl]. apply IH. by apply run_step_ok. }
  split; [done|]. intros a i c H. destruct (Hw _ _ _ H) as [(b & Hb & Ha) _]. exists b. split; [done|]. split; [|done].
  unfold accepts in Ha. by destruct (b_used b).
Qed.
End Interleaving.

(** ** Turning the factor off *)

Section Disabling.
Context `{CR : Crypto} (JWT_SECRET : string).

(** A user's factor is only removed with a code of the stored secret, and every
    session of the user is revoked with it; otherwise nothing changes. *)
Theorem user_mfa_disabled_only_with_code userId code now st st' r :
  disableUserMfa JWT_SECRET userId code now st = (st', r) ->
  match r with
  | Done => exists h secret, users st !! userId = Some h /\
      decryptMfaSecret JWT_SECRET (h_mfaSecret h) = Some secret /\ totp_verify secret code now = true /\
      users st' !! userId = Some (with_secret false "" [] h) /\ revoked st' = revoked st ++ [userId]
  | _ => st' = st
  end.
Proof.
  unfold disableUserMfa. destruct (no_user_mfa userId); [by intros [= <- <-]|].
  destruct (negb (str_truthy code)); [by intros [= <- <-]|].
  destruct (users st !! userId) as [h|] eqn:Hu; [|by intros [= <- <-]].
  unfold check_current. destruct (negb _); [by intros [= <- <-]|].
  destruct (decryptMfaSecret _ _) as [secret|] eqn:Hd; [|by intros [= <- <-]].
  destruct (totp_verify secret code now) eqn:Ht; intros [= <- <-]; [|done].
  exists h, secret. cbn. by rewrite lookup_insert_eq.
Qed.
End Disabling.

(** ** Executions *)

(** A stand-in that hides nothing: hashing and sealing keep the text, and a
    secret is its own code. *)
#[refine] Definition plain_crypto : Crypto := {|
  bcrypt_hash x _ := x; bcrypt_compare x h := bool_decide (x = h);
  totp_verify secret code _ := bool_decide (code = secret);
  mfa_key := chars;
  gcm_seal _ _ p := (p, repeat "t"%char 16); gcm_open _ _ _ p := Some p;
  base64 := text; unbase64 := chars |}.
Proof.
  - intros. by apply bool_decide_eq_true.
  - intros x y salt H. by apply bool_decide_eq_true in H as ->.
  - done.
  - done.
  - apply chars_text.
Defined.

Definition iv0 : bytes := repeat "v"%char 12.
Definition draws_of (n : Z) (secret : string) : draws :=
  Draws secret [map (Z.add n) [1; 2; 3; 4; 5; 6; 7; 8; 9; 10]; map (Z.add n) [11; 12; 13; 14; 15; 16; 17; 18; 19; 20]] ["s"; "t"] iv0.
Definition sealed (secret : string) : string := default "" (@encryptMfaSecret plain_crypto "jwt" iv0 secret).
Definition enrolled (secret : string) : holder :=
  Holder true true (sealed secret) (@fresh_codes plain_crypto (draws_of 0 "")) "SCH-A" "a@b.c".
Definition state0 : state := State {["alpha" := enrolled "school"]} {["u1" := enrolled "mine"]} ∅ [] [].

Lemma backup_codes_accept_spellings_witness :
  exists i, @findMatchingBackupCodeIndex plain_crypto (@fresh_codes plain_crypto (draws_of 0 "")) " bcdef ghjkm " = Some i.
Proof.
  apply (proj2 (@backup_codes_accept_spellings plain_crypto (draws_of 0 "") " bcdef ghjkm "
    ltac:(repeat constructor) ltac:(simpl; lia))).
  exists [11; 12; 13; 14; 15; 16; 17; 18; 19; 20]. split; [vm_compute; apply list_elem_of_further; apply list_elem_of_here|].
  vm_compute. reflexivity.
Defined.

(** Setting up MFA again replaces the active secret of a user, without a code;
    the school handler refuses this. *)
Theorem setup_overwrites_active_secret :
  let st' := (@setupUserMfa plain_crypto "jwt" "u1" (draws_of 7 "theirs") state0).1 in
  exists h, users st' !! "u1" = Some h /\ h_mfaEnabled h = true /\
    @verifyTotpCode plain_crypto "jwt" (h_mfaSecret h) "theirs" 0 = true /\
    @verifyTotpCode plain_crypto "jwt" (h_mfaSecret h) "mine" 0 = false.
Proof. eexists. split_and!; vm_compute; reflexivity. Qed.

(** The school handler that enables MFA accepts any secret the caller brings, also
    while MFA is active: the refusal of setup is bypassed. *)
Theorem enabling_replaces_active_secret :
  let '(st', r) := @verifyAndEnableMfa plain_crypto "jwt" "alpha" "theirs" "theirs" iv0 0 state0 in
  r = Done /\ @setupMfa plain_crypto "jwt" "alpha" (draws_of 7 "theirs") state0 = (state0, Fail 400 "MFA_ALREADY_ACTIVE") /\
  exists h, schools st' !! "alpha" = Some h /\ @verifyTotpCode plain_crypto "jwt" (h_mfaSecret h) "theirs" 0 = true.
Proof. vm_compute. split; [done|]. split; [done|]. eexists. split; reflexivity. Qed.

(** The claim names the code by its position: a request that matched an old code
    before the codes were replaced is still granted, and spends a new one. *)
Theorem replaced_code_still_granted :
  let '(st1, found) := @lookup_code plain_crypto (UserAccount "u1") "12345-6789A" 0 state0 in
  let st2 := (@setupUserMfa plain_crypto "jwt" "u1" (draws_of 7 "mine") st1).1 in
  found = inr 0%nat /\
  (@lookup_code plain_crypto (UserAccount "u1") "12345-6789A" 0 st2).2 = inl Invalid /\
  (claim_code (UserAccount "u1") 0 0 st2).2 = Consumed /\
  b_used <$> code_at (UserAccount "u1") 0 (claim_code (UserAccount "u1") 0 0 st2).1 = Some true.
Proof. vm_compute. done. Qed.

(** An enrolment from a restricted session with a refresh cookie takes effect and
    is answered 500. *)
Theorem enrolment_reported_failed :
  let '(st', r) := @verifyAndEnableUserMfa plain_crypto "jwt" true "cookie" "u1" "new" "new" iv0 0 state0 in
  r = Fail 500 "MFA_ENABLE_ERROR" /\
  exists h, users st' !! "u1" = Some h /\ @verifyTotpCode plain_crypto "jwt" (h_mfaSecret h) "new" 0 = true.
Proof. vm_compute. split; [done|]. eexists. split; reflexivity. Qed.
End Mfa.
