(* ===== verification/Login.v ===== *)
(** Signing in: backend/src/services/sessionStore.js (sessions and refresh-token
    families), and of backend/src/controllers/authController.js the lockout, the
    login, refresh, logout and session handlers as they meet that store.  Uses
    the stores and tokens of Auth and the second factor of Mfa. *)

From Stdlib Require Import Ascii ZArith Lia.
From stdpp Require Import base strings gmap sets list.
From S2P Require Import Prelude JsString DistributedLock Auth Mfa.
Import Auth.Stores.
Local Open Scope string_scope.
Local Open Scope Z_scope.
Local Open Scope list_scope.

(** ** services/sessionStore.js *)

Module SessionStore.

(** A refresh token; an empty family is none, and an expiry that is not a number
    never passes. *)
Record entry := Entry { rt_userId : string; rt_sessionId : string; rt_familyId : string; rt_expiresAt : option Z }.

(** A user's sessions in the order they were added. *)
Abbreviation session_map := (list (string * string)).

Record store := Store {
  sessions : gmap string session_map;
  refreshTokens : gmap string entry;
  families : gmap string (gset string) }.

Definition isExpired (now : Z) (e : option entry) : bool :=
  match e with
  | None => true
  | Some e => match rt_expiresAt e with Some t => t <=? now | None => false end
  end.

Definition getUserSessions (userId : string) (st : store) : session_map := default [] (sessions st !! userId).

(** [Map.prototype.get], [set] and [delete] on an ordered map. *)
Definition map_get (k : string) (m : session_map) : option string :=
  snd <$> List.find (fun kv => bool_decide (kv.1 = k)) m.
Definition map_delete (k : string) (m : session_map) : session_map :=
  List.filter (fun kv => negb (bool_decide (kv.1 = k))) m.
Definition map_has (k : string) (m : session_map) : bool := existsb (fun kv => bool_decide (kv.1 = k)) m.
Definition map_set (k v : string) (m : session_map) : session_map :=
  if map_has k m then map (fun kv => if bool_decide (kv.1 = k) then (k, v) else kv) m else m ++ [(k, v)].

Definition getSession (userId sessionId : string) (st : store) : option string :=
  map_get sessionId (getUserSessions userId st).

Definition setSession (userId sessionId session : string) (st : store) : store :=
  Store (<[userId := map_set sessionId session (getUserSessions userId st)]> (sessions st))
    (refreshTokens st) (families st).

Definition deleteSession (userId sessionId : string) (st : store) : store * bool :=
  match sessions st !! userId with
  | None => (st, false)
  | Some m => (Store (<[userId := map_delete sessionId m]> (sessions st)) (refreshTokens st) (families st),
               map_has sessionId m)
  end.

Definition listSessions (userId : string) (st : store) : list string := map snd (getUserSessions userId st).

Definition setRefreshToken (token : string) (e : entry) (st : store) : store :=
  Store (sessions st) (<[token := e]> (refreshTokens st))
    (if str_truthy (rt_familyId e)
     then <[rt_familyId e := {[token]} ∪ default ∅ (families st !! rt_familyId e)]> (families st)
     else families st).

Definition getRefreshToken (now : Z) (token : string) (st : store) : store * option entry :=
  match refreshTokens st !! token with
  | None => (st, None)
  | Some e => if isExpired now (Some e)
              then (Store (sessions st) (delete token (refreshTokens st)) (families st), None)
              else (st, Some e)
  end.

Definition deleteRefreshToken (token : string) (st : store) : store * option entry :=
  let e := refreshTokens st !! token in
  let fams := match e with
              | Some e =>
                if str_truthy (rt_familyId e) then
                  match families st !! rt_familyId e with
                  | Some fam => let fam := fam ∖ {[token]} in
                                if bool_decide (fam = ∅) then delete (rt_familyId e) (families st)
                                else <[rt_familyId e := fam]> (families st)
                  | None => families st
                  end
                else families st
              | None => families st
              end in
  (Store (sessions st) (delete token (refreshTokens st)) fams, e).

Definition revokeFamily (familyId : string) (st : store) : store * nat :=
  match families st !! familyId with
  | None => (st, 0%nat)
  | Some fam =>
    (Store (sessions st) (filter (fun kv => kv.1 ∉ fam) (refreshTokens st)) (delete familyId (families st)),
     size (filter (fun kv : string * entry => kv.1 ∈ fam) (refreshTokens st)))
  end.

Definition clear (_ : store) : store := Store ∅ ∅ ∅.

Record revoked := Revoked { rv_sessions : nat; rv_refreshTokens : nat }.

Definition familyIds (userId : string) (st : store) : gset string :=
  list_to_set (omap (fun kv : string * entry =>
      if bool_decide (rt_userId kv.2 = userId) && str_truthy (rt_familyId kv.2) then Some (rt_familyId kv.2) else None)
    (map_to_list (refreshTokens st))).

Definition revokeAllUserSessions (userId : string) (st : store) : store * revoked :=
  (Store (delete userId (sessions st))
     (filter (fun kv => rt_userId kv.2 <> userId) (refreshTokens st))
     (filter (fun kv => kv.1 ∉ familyIds userId st) (families st)),
   Revoked (length (getUserSessions userId st))
     (size (filter (fun kv : string * entry => rt_userId kv.2 = userId) (refreshTokens st)))).

(** *** The invariant *)

(** Operations on the store; [owner] says whose a family is (families are drawn
    at random for one login). *)
Inductive op :=
| SetSession (u s v : string) | DeleteSession (u s : string)
| SetToken (t : string) (e : entry) | GetToken (now : Z) (t : string) | DeleteToken (t : string)
| RevokeFamily (f : string) | RevokeAll (u : string) | Clear.

Definition exec (o : op) (st : store) : store :=
  match o with
  | SetSession u s v => setSession u s v st
  | DeleteSession u s => (deleteSession u s st).1
  | SetToken t e => setRefreshToken t e st
  | GetToken now t => (getRefreshToken now t st).1
  | DeleteToken t => (deleteRefreshToken t st).1
  | RevokeFamily f => (revokeFamily f st).1
  | RevokeAll u => (revokeAllUserSessions u st).1
  | Clear => clear st
  end.
Definition run (ops : list op) (st : store) : store := foldl (fun st o => exec o st) st ops.

Section Invariant.
Context (owner : string -> string).

Definition owned (e : entry) : Prop := str_truthy (rt_familyId e) = true -> owner (rt_familyId e) = rt_userId e.
Definition op_ok (o : op) : Prop := match o with SetToken _ e => owned e | _ => True end.

(** Every token that works is in its family. *)
Definition store_ok (st : store) : Prop :=
  forall t e, refreshTokens st !! t = Some e ->
    owned e /\
    (str_truthy (rt_familyId e) = true -> exists fam, families st !! rt_familyId e = Some fam /\ t ∈ fam).

Lemma setRefreshToken_ok t e st : owned e -> store_ok st -> store_ok (setRefreshToken t e st).
Proof.
  intros He Hst t' e'. cbn [refreshTokens families setRefreshToken]. rewrite lookup_insert_Some.
  intros [[<- <-]|[Hne Ht]].
  - split; [done|]. intros Hf. rewrite Hf. rewrite lookup_insert_eq. eexists. split; [done|set_solver].
  - destruct (Hst _ _ Ht) as [Ho Hfam]. split; [done|]. intros Hf'. destruct (Hfam Hf') as (fam & Hl & Hin).
    destruct (str_truthy (rt_familyId e)); [|eauto].
    destruct (decide (rt_familyId e = rt_familyId e')) as [E|E].
    + rewrite E, lookup_insert_eq, Hl. eexists. split; [done|set_solver].
    + rewrite lookup_insert_ne by done. eauto.
Qed.

(** Forgetting tokens keeps the invariant as long as the survivors stay listed. *)
Lemma forget_ok st toks fams sess : store_ok st ->
  (forall t e, toks !! t = Some e -> refreshTokens st !! t = Some e) ->
  (forall t e fam, toks !! t = Some e -> str_truthy (rt_familyId e) = true ->
     families st !! rt_familyId e = Some fam -> t ∈ fam ->
     exists fam', fams !! rt_familyId e = Some fam' /\ t ∈ fam') ->
  store_ok (Store sess toks fams).
Proof.
  intros Hst Ht Hf t e He. cbn [refreshTokens families] in *. destruct (Hst _ _ (Ht _ _ He)) as [Ho Hfam].
  split; [done|]. intros Htr. destruct (Hfam Htr) as (fam & Hl & Hin). eauto.
Qed.

Lemma deleteRefreshToken_ok t st : store_ok st -> store_ok (deleteRefreshToken t st).1.
Proof.
  intros Hst. apply (forget_ok st); [done| |].
  - intros t' e'. rewrite lookup_delete_Some. tauto.
  - intros t' e' fam. rewrite lookup_delete_Some. intros [Hne Ht'] Htr Hl Hin. cbv zeta.
    destruct (refreshTokens st !! t) as [e|]; [|eauto]. destruct (str_truthy (rt_familyId e)); [|eauto].
    destruct (families st !! rt_familyId e) as [f|] eqn:Ef; [|eauto].
    destruct (decide (rt_familyId e = rt_familyId e')) as [E|E].
    + rewrite E in *. simplify_eq. case_bool_decide as Hemp; [set_solver|]. rewrite lookup_insert_eq.
      eexists. split; [done|set_solver].
    + case_bool_decide; [rewrite lookup_delete_ne by done|rewrite lookup_insert_ne by done]; eauto.
Qed.

Lemma revokeFamily_ok f st : store_ok st -> store_ok (revokeFamily f st).1.
Proof.
  intros Hst. unfold revokeFamily. destruct (families st !! f) as [fam|] eqn:Ef; [|done].
  apply (forget_ok st); [done| |].
  - intros t e. by rewrite map_lookup_filter_Some; intros [? _].
  - intros t e fam' . rewrite map_lookup_filter_Some. intros [Ht Hnin] Htr Hl Hin.
    exists fam'. split; [|done]. rewrite lookup_delete_ne; [done|]. intros ->. simplify_eq. by apply Hnin.
Qed.

Lemma familyIds_spec u st f : f ∈ familyIds u st <->
  exists t e, refreshTokens st !! t = Some e /\ rt_userId e = u /\ str_truthy (rt_familyId e) = true /\ rt_familyId e = f.
Proof.
  unfold familyIds. rewrite elem_of_list_to_set, list_elem_of_omap. split.
  - intros ([t e] & Hin & Hf). apply elem_of_map_to_list in Hin. cbn [snd] in Hf.
    case_bool_decide; [|done]. destruct (str_truthy (rt_familyId e)) eqn:Htr; [|done]. injection Hf as Hf. simplify_eq. eauto 10.
  - intros (t & e & Ht & Hu & Htr & Hf). exists (t, e). rewrite elem_of_map_to_list. split; [done|]. cbn [snd].
    by rewrite bool_decide_true, Htr; [cbn; f_equal|].
Qed.

Lemma revokeAll_ok u st : store_ok st -> store_ok (revokeAllUserSessions u st).1.
Proof.
  intros Hst. apply (forget_ok st); [done| |].
  - intros t e. by rewrite map_lookup_filter_Some; intros [? _].
  - intros t e fam. rewrite map_lookup_filter_Some. cbn [snd]. intros [Ht Hu] Htr Hl Hin.
    exists fam. split; [|done]. apply map_lookup_filter_Some. split; [done|]. cbn [fst].
    rewrite familyIds_spec. intros (t' & e' & Ht' & Hu' & Htr' & Hf). apply Hu.
    destruct (Hst _ _ Ht) as [Ho _], (Hst _ _ Ht') as [Ho' _]. rewrite <- Ho, <- Hu', <- Ho' by done. by rewrite Hf.
Qed.

Lemma exec_ok o st : op_ok o -> store_ok st -> store_ok (exec o st).
Proof.
  destruct o; cbn [exec op_ok]; intros Ho Hst.
  - exact Hst.
  - unfold deleteSession. by case_match.
  - by apply setRefreshToken_ok.
  - unfold getRefreshToken. case_match; [|done]. case_match; [|done].
    apply (forget_ok st); [done| |eauto]. intros t' e'. rewrite lookup_delete_Some. tauto.
  - by apply deleteRefreshToken_ok.
  - by apply revokeFamily_ok.
  - by apply revokeAll_ok.
  - intros t e. cbn. by rewrite lookup_empty.
Qed.

Lemma run_ok ops st : Forall op_ok ops -> store_ok st -> store_ok (run ops st).
Proof.
  revert st. induction ops as [|o ops IH]; intros st Hops Hst; [done|]. apply Forall_cons in Hops as [Ho Hops].
  cbn [run foldl]. apply IH; [done|by apply exec_ok].
Qed.

(** After any history of the store, revoking a refresh-token family leaves no
    token of that family and touches no other token; revoking a user leaves no
    session and no token of the user, keeps every other user's, and reports how
    many there were. *)
Theorem revocation_is_complete ops f u : Forall op_ok ops ->
  let st := run ops (Store ∅ ∅ ∅) in
  (forall t e, str_truthy f = true -> refreshTokens (revokeFamily f st).1 !! t = Some e -> rt_familyId e <> f) /\
  (forall t e, refreshTokens st !! t = Some e ->
     refreshTokens (revokeAllUserSessions u st).1 !! t = (if bool_decide (rt_userId e = u) then None else Some e)) /\
  (forall u', listSessions u' (revokeAllUserSessions u st).1 = if bool_decide (u' = u) then [] else listSessions u' st) /\
  rv_sessions (revokeAllUserSessions u st).2 = length (listSessions u st).
Proof.
  intros Hops st. assert (store_ok st) as Hst.
  { apply run_ok; [done|]. intros t e. cbn. by rewrite lookup_empty. }
  split_and!.
  - intros t e Hf. unfold revokeFamily. destruct (families st !! f) as [fam|] eqn:Ef.
    + cbn [fst refreshTokens]. rewrite map_lookup_filter_Some. intros [Ht Hnin] E. subst f.
      destruct (Hst _ _ Ht) as [_ Hfam]. destruct (Hfam Hf) as (fam' & Hl & Hin). simplify_eq. by apply Hnin.
    + cbn [fst]. intros Ht E. subst f. destruct (Hst _ _ Ht) as [_ Hfam]. destruct (Hfam Hf) as (fam' & Hl & _). congruence.
  - intros t e Ht. cbn [fst refreshTokens revokeAllUserSessions]. case_bool_decide as E.
    + apply map_lookup_filter_None. right. intros e' He'. simplify_eq. by cbn; intros ?.
    + apply map_lookup_filter_Some. by split.
  - intros u'. unfold listSessions, getUserSessions. cbn [fst sessions revokeAllUserSessions]. case_bool_decide as E.
    + subst. by rewrite lookup_delete_eq.
    + by rewrite lookup_delete_ne.
  - cbn. unfold listSessions. by rewrite length_map.
Qed.
End Invariant.

Definition history0 : list op :=
  [SetToken "t1" (Entry "u1" "s1" "f1" None); SetSession "u1" "s1" "x"; SetToken "t2" (Entry "u2" "s2" "f2" None);
   DeleteToken "t2"; SetToken "t3" (Entry "u1" "s1" "f1" (Some 9))].

Lemma revocation_is_complete_witness :
  listSessions "u1" (revokeAllUserSessions "u1" (run history0 (Store ∅ ∅ ∅))).1 = [] /\
  rv_sessions (revokeAllUserSessions "u1" (run history0 (Store ∅ ∅ ∅))).2 = 1%nat.
Proof.
  destruct (revocation_is_complete (fun f => if bool_decide (f = "f1") then "u1" else "u2") history0 "f1" "u1"
    ltac:(repeat constructor; try (intros _; vm_compute; reflexivity))) as (_ & _ & Hl & Hn).
  split; [exact (Hl "u1")|]. rewrite Hn. vm_compute. reflexivity.
Defined.

(** The methods of the store, and calling one: a call of anything else is a
    [TypeError]. *)
Definition store_methods : list string :=
  ["getUserSessions"; "getSession"; "setSession"; "deleteSession"; "listSessions"; "setRefreshToken";
   "getRefreshToken"; "deleteRefreshToken"; "revokeFamily"; "clear"].
Definition call (method : string) : result unit unit :=
  if bool_decide (method ∈ store_methods) then Ok tt else Throw tt.
End SessionStore.

(** ** controllers/authController.js: lockout and login *)

Module Login.
Import DistributedLock.

Definition LOGIN_FAIL_WINDOW : Z := 900.
Definition LOGIN_FAIL_THRESHOLD : Z := 5.
Definition LOGIN_LOCK_TTL : Z := 900.

Definition loginLockKey (id : string) : string := ("loginLock:" ++ id)%string.
Definition loginFailKey (id : string) : string := ("loginFail:" ++ id)%string.

Definition isLockedOut (e : redis_env) (loginId : string) (s : stores) : bool :=
  if has (loginLockKey loginId) (s_cache s) then true
  else if e_ready e && e_exists e then exists_key (loginLockKey loginId) (s_redis s)
  else false.

Definition recordLoginFailure (e : redis_env) (loginId : string) (s : stores) : stores :=
  let fk := loginFailKey loginId in
  let lk := loginLockKey loginId in
  let newCount := count_of fk (s_cache s) + 1 in
  let s := cache_set fk (VInt newCount) LOGIN_FAIL_WINDOW s in
  if e_ready e then (bump e fk lk LOGIN_FAIL_WINDOW LOGIN_FAIL_THRESHOLD LOGIN_LOCK_TTL s).1
  else if LOGIN_FAIL_THRESHOLD <=? newCount then cache_set lk (VTok "true") LOGIN_LOCK_TTL s
  else s.

Definition clearLoginFailures (e : redis_env) (loginId : string) (s : stores) : stores :=
  let drop2 r := rdel (loginLockKey loginId) (rdel (loginFailKey loginId) r) in
  let s := on_cache drop2 s in
  if e_ready e then (attempt (e_set e) (on_redis drop2) s).1 else s.

(** The value of an expression: a number, or a promise of one, which is no
    number until it is awaited. *)
Inductive jsval := JNumber (z : Z) | JPromise (of_ : jsval).
Definition strict_equals (a b : jsval) : bool :=
  match a, b with JNumber x, JNumber y => x =? y | _, _ => false end.

Record body := Body { lb_username : string; lb_email : string; lb_password : string; lb_mfaCode : string }.

Record login_env := LoginEnv {
  ADMIN_USERNAME : string; ADMIN_PASSWORD_HASH : string; ADMIN_PASSWORD : string;
  REQUIRE_MFA : bool; le_JWT_SECRET : string }.

Record dbuser := DbUser {
  du_id : string; du_passwordHash : string; du_mfaEnabled : bool; du_mfaSecret : string;
  du_mfaBackupCodes : list Mfa.backup; du_schoolId : string; du_roles : list string }.

Inductive reply :=
| Resp (status : Z) (code : string)
| RequiresMfa
| LoggedIn (payload : Jwt.claims) (mfaSetupRequired : bool)
| Crash.     (** an exception no handler catches *)

Definition safeEqual (a b : string) : bool := bool_decide (a = b).

Definition payload_of (role : string) (roles : list string) (userId username schoolId : string) (pending : bool) : Jwt.claims :=
  Jwt.Claims role (Some roles) userId "" "" username schoolId "" "" "" 0 None pending.

(** The first thing it does is to call [setToken] of the session store. *)
Definition issueRefreshToken : result unit unit :=
  _ ← SessionStore.call "setToken"; SessionStore.call "setSession".

Section Handler.
Context `{CR : Mfa.Crypto} (env : login_env)
  (findUser : string -> result unit (option dbuser))      (** active users by e-mail *)
  (findSchool : string -> option bool).                   (** [requireMfa] of an active school; [None]: none, or an error *)

Definition verifyBackupCode (codes : list Mfa.backup) (code : string) : jsval :=
  JPromise (JNumber (match Mfa.findMatchingBackupCodeIndex codes code with Some i => Z.of_nat i | None => -1 end)).

(** Sign, store the refresh token and answer with the cookies. *)
Definition finish_login (payload : Jwt.claims) (mfaSetupPending : bool) : reply :=
  if negb (str_truthy (le_JWT_SECRET env)) then Crash else
  match issueRefreshToken with
  | Throw _ => Resp 500 "TOKEN_STORE_ERROR"
  | Ok _ => LoggedIn payload mfaSetupPending
  end.

Definition login_id (b : body) : string := toLowerCase (str_trim (str_or (lb_email b) (lb_username b))).

Definition env_login (e : redis_env) (loginId password : string) (s : stores) : stores * reply :=
  if negb (str_truthy (ADMIN_USERNAME env)) || (negb (str_truthy (ADMIN_PASSWORD env)) && negb (str_truthy (ADMIN_PASSWORD_HASH env)))
  then (s, Resp 500 "AUTH_MISCONFIGURED") else
  let usernameMatch := str_truthy loginId && safeEqual loginId (ADMIN_USERNAME env) in
  let credValid := usernameMatch && str_truthy password &&
    (if str_truthy (ADMIN_PASSWORD_HASH env) then Mfa.bcrypt_compare password (ADMIN_PASSWORD_HASH env)
     else safeEqual password (ADMIN_PASSWORD env)) in
  if negb credValid then (recordLoginFailure e loginId s, Resp 401 "INVALID_CREDENTIALS") else
  (clearLoginFailures e loginId s,
   finish_login (payload_of "admin" ["super_admin"] "super_admin" loginId "" false) false).

(** The second factor of a user: [Some] is the answer that ends the login, with
    whether the failure counts. *)
Definition mfa_gate (now : Z) (u : dbuser) (mfaCode : string) : option (bool * reply) :=
  if du_mfaEnabled u && str_truthy (du_mfaSecret u) then
    if negb (str_truthy mfaCode) then Some (false, RequiresMfa) else
    if Mfa.verifyTotpCode (le_JWT_SECRET env) (du_mfaSecret u) mfaCode now then None else
    let bcIdx := verifyBackupCode (du_mfaBackupCodes u) mfaCode in
    if strict_equals bcIdx (JNumber (-1)) then Some (true, Resp 401 "INVALID_MFA_CODE") else None
  else None.

Definition db_login (e : redis_env) (loginId password mfaCode : string) (s : stores) : stores * reply :=
  match findUser loginId with
  | Throw _ => (s, Resp 503 "AUTH_DB_ERROR")
  | Ok None => (recordLoginFailure e loginId s, Resp 401 "INVALID_CREDENTIALS")
  | Ok (Some u) =>
    if negb (str_truthy password && Mfa.bcrypt_compare password (du_passwordHash u))
    then (recordLoginFailure e loginId s, Resp 401 "INVALID_CREDENTIALS") else
    match mfa_gate (time_s s) u mfaCode with
    | Some (counts, r) => ((if counts : bool then recordLoginFailure e loginId s else s), r)
    | None =>
      let userHasPersonalMfa := du_mfaEnabled u && str_truthy (du_mfaSecret u) in
      let schoolRequiresMfa := negb userHasPersonalMfa && str_truthy (du_schoolId u) && default false (findSchool (du_schoolId u)) in
      let mfaSetupPending := negb userHasPersonalMfa && (REQUIRE_MFA env || schoolRequiresMfa) in
      (clearLoginFailures e loginId s,
       finish_login (payload_of "user" (du_roles u) (du_id u) "" (du_schoolId u) mfaSetupPending) mfaSetupPending)
    end
  end.

Definition handleLogin (e : redis_env) (b : body) (s : stores) : stores * reply :=
  let loginId := login_id b in
  if isLockedOut e loginId s then (s, Resp 429 "ACCOUNT_LOCKED") else
  if negb (str_truthy (lb_email b)) then env_login e loginId (lb_password b) s
  else db_login e loginId (lb_password b) (lb_mfaCode b) s.

(** *** The lockout *)

Lemma lock_fail_keys id id' : loginFailKey id <> loginLockKey id'.
Proof. unfold loginFailKey, loginLockKey. simpl. discriminate. Qed.

Lemma bump_ignores_cache e fk bk window thr ttl s c :
  s_redis (bump e fk bk window thr ttl (Stores (s_redis s) c)).1 = s_redis (bump e fk bk window thr ttl s).1.
Proof.
  unfold bump. cbn [s_redis]. destruct (incr fk (s_redis s)) as [[n r]|]; [|done].
  destruct (e_incr e), (n =? 1), (e_expire e), (thr <=? n), (e_set e); reflexivity.
Qed.

Lemma failure_bumps id s s' b :
  bump healthy (loginFailKey id) (loginLockKey id) LOGIN_FAIL_WINDOW LOGIN_FAIL_THRESHOLD LOGIN_LOCK_TTL s = (s', Some b) ->
  s_redis (recordLoginFailure healthy id s) = s_redis s'.
Proof.
  intros Hs. unfold recordLoginFailure, cache_set, on_cache. cbn [e_ready healthy].
  rewrite (bump_ignores_cache healthy). by rewrite Hs.
Qed.

(** A wrong password, or an unknown address, is counted. *)
Lemma bad_password_recorded e b s u : isLockedOut e (login_id b) s = false -> str_truthy (lb_email b) = true ->
  findUser (login_id b) = Ok u ->
  match u with Some u => Mfa.bcrypt_compare (lb_password b) (du_passwordHash u) = false | None => True end ->
  handleLogin e b s = (recordLoginFailure e (login_id b) s, Resp 401 "INVALID_CREDENTIALS").
Proof.
  intros Hl He Hf Hu. unfold handleLogin, db_login. rewrite Hl, He, Hf. cbn [negb].
  destruct u as [u|]; [|done]. by rewrite Hu, andb_false_r.
Qed.

(** Five recorded login failures of one account, less than fifteen minutes from
    the first to the last, lock the account: for the next fifteen minutes every
    login for it, with whatever password and code, is answered 429 and changes
    nothing. *)
Theorem failed_logins_lock_account id pauses s b dt :
  store (s_redis s) !! loginFailKey id = None -> store (s_redis s) !! loginLockKey id = None ->
  length pauses = 4%nat -> Forall (fun d => 0 <= d) pauses -> foldr Z.add 0 pauses < 900 * 1000 ->
  login_id b = id -> 0 <= dt < 900 * 1000 ->
  let s' := wait dt (repeat_with (recordLoginFailure healthy id) wait pauses s) in
  handleLogin healthy b s' = (s', Resp 429 "ACCOUNT_LOCKED").
Proof.
  intros Hf Hb Hl Hp Hsum Hid Hdt s'. unfold handleLogin. rewrite Hid.
  assert (isLockedOut healthy id s' = true) as ->; [|done].
  unfold isLockedOut. destruct (has _ _); [done|]. cbn [e_ready e_exists healthy andb].
  apply (flagged_exists _ (redis_time (repeat_with (recordLoginFailure healthy id) wait pauses s) + LOGIN_LOCK_TTL * 1000));
    [|unfold LOGIN_LOCK_TTL; lia].
  eapply (failures_flag (loginFailKey id) (loginLockKey id) LOGIN_FAIL_WINDOW LOGIN_FAIL_THRESHOLD LOGIN_LOCK_TTL
    (lock_fail_keys id id) ltac:(done) (fun s => s)); [|done|done|done| |done|done].
  - intros w _ s1 b1. apply failure_bumps.
  - by rewrite Hl.
Qed.

(** *** What the login gets wrong *)

(** The backup-code check answers a promise, which never equals -1: behind a
    correct password every non-empty second-factor code passes. *)
Theorem any_mfa_code_passes now u mfaCode : str_truthy mfaCode = true -> mfa_gate now u mfaCode = None.
Proof.
  intros Hc. unfold mfa_gate. rewrite Hc. cbn [negb]. destruct (du_mfaEnabled u && _); [|done].
  by destruct (Mfa.verifyTotpCode _ _ _ _).
Qed.

(** The session store has no [setToken]: no login succeeds. *)
Theorem login_never_succeeds e b s : forall payload pending, (handleLogin e b s).2 <> LoggedIn payload pending.
Proof.
  intros payload pending. assert (Hfin : forall p m, finish_login p m <> LoggedIn payload pending).
  { intros p m. unfold finish_login. case_match; [done|]. by vm_compute. }
  unfold handleLogin, env_login, db_login. cbv zeta.
  repeat (case_match; cbn [snd]; try done; try apply Hfin).
  all: match goal with H : mfa_gate _ _ _ = Some _ |- _ => revert H; unfold mfa_gate; repeat (case_match; try done); by intros [= _ <-] end.
Qed.

(** The name typed in is put in lower case and then compared exactly: an
    administrator whose configured name has a capital is always refused. *)
Theorem capital_admin_refused e b s : str_truthy (lb_email b) = false ->
  str_truthy (ADMIN_USERNAME env) = true -> str_truthy (ADMIN_PASSWORD env) = true ->
  toLowerCase (ADMIN_USERNAME env) <> ADMIN_USERNAME env ->
  (handleLogin e b s).2 = Resp 429 "ACCOUNT_LOCKED" \/ (handleLogin e b s).2 = Resp 401 "INVALID_CREDENTIALS".
Proof.
  intros He Hn Hp Hcase. unfold handleLogin, env_login. rewrite He, Hn, Hp. cbn [negb orb andb].
  case_match; [by left|]. right.
  assert (safeEqual (login_id b) (ADMIN_USERNAME env) = false) as ->; [|by rewrite andb_false_r].
  apply bool_decide_eq_false. intros E. apply Hcase. rewrite <- E. unfold login_id.
  unfold toLowerCase. rewrite chars_text, map_map. f_equal. apply map_ext. intros c.
  unfold lower. destruct (((65 <=? code c) && (code c <=? 90))) eqn:Hc; [|by rewrite Hc].
  apply andb_prop in Hc as [H1 H2]. apply Z.leb_le in H1, H2. rewrite code_chr by lia.
  by destruct (Z.leb_spec 65 (code c + 32)), (Z.leb_spec (code c + 32) 90); simpl; try lia.
Qed.
End Handler.

(** When every Redis call fails, failures are only counted in the process and the
    lock is never set: the account can be tried for ever. *)
Definition redis_down : redis_env := RedisEnv true false false LostRequest LostRequest LostRequest.

Theorem redis_errors_disable_lockout id n s :
  store (s_cache s) !! loginLockKey id = None -> store (s_redis s) !! loginLockKey id = None ->
  isLockedOut redis_down id (Nat.iter n (recordLoginFailure redis_down id) s) = false.
Proof.
  intros Hc Hr. assert (store (s_cache (Nat.iter n (recordLoginFailure redis_down id) s)) !! loginLockKey id = None) as H.
  { induction n as [|n IH]; [done|].
    change (Nat.iter (S n) (recordLoginFailure redis_down id) s) with (recordLoginFailure redis_down id (Nat.iter n (recordLoginFailure redis_down id) s)).
    revert IH. generalize (Nat.iter n (recordLoginFailure redis_down id) s).
    intros s1 H1. unfold recordLoginFailure, bump. cbn [e_ready redis_down e_incr].
    assert (forall v ttl, store (s_cache (cache_set (loginFailKey id) v ttl s1)) !! loginLockKey id = None) as H2.
    { intros v ttl. cbn. by rewrite lookup_insert_ne by apply lock_fail_keys. }
    cbv zeta. destruct (incr (loginFailKey id) _) as [[m r]|]; cbn [fst attempt negb]; apply H2. }
  unfold isLockedOut, has, rget. by rewrite H.
Qed.

Definition stores0 : stores := Stores (Redis ∅ 0) (Redis ∅ 0).
Definition locked0 : stores := wait 5 (repeat_with (recordLoginFailure healthy "a@b.c") wait [10; 0; 20; 800000] stores0).
Lemma failed_logins_lock_account_witness :
  @handleLogin Mfa.plain_crypto (LoginEnv "" "" "" false "x") (fun _ => Ok None) (fun _ => None) healthy
    (Body "" "A@b.c" "guess" "") locked0 = (locked0, Resp 429 "ACCOUNT_LOCKED").
Proof.
  exact (@failed_logins_lock_account Mfa.plain_crypto (LoginEnv "" "" "" false "x") (fun _ => Ok None) (fun _ => None)
    "a@b.c" [10; 0; 20; 800000] stores0 (Body "" "A@b.c" "guess" "") 5
    ltac:(vm_compute; reflexivity) ltac:(vm_compute; reflexivity) eq_refl ltac:(repeat constructor; discriminate)
    eq_refl ltac:(vm_compute; reflexivity) ltac:(split; [discriminate|reflexivity])).
Defined.
End Login.
