(* ===== verification/RateLimiter.v ===== *)
(** The request limiter: backend/src/middleware/rateLimiter.js.  A sliding-window
    estimate over two fixed buckets, counted in Redis or, when it is away, in the
    process.  Bucket numbers, weights and estimates are doubles. *)

From Stdlib Require Import Ascii ZArith QArith Qround Qabs Qpower Lia Lqa.
From stdpp Require Import base strings gmap list.
From S2P Require Import Prelude JsNumber JsString DistributedLock Auth.
Import Auth.Stores.
Local Open Scope string_scope.
Local Open Scope Z_scope.
Local Open Scope list_scope.

Module RateLimiter.
Import DistributedLock.

(** ** The decision *)

Definition num_ceil (a : number) : number :=
  match a with Fin q => Fin (inject_Z (Qceiling q)) | _ => a end.

Record bucket_info := BucketInfo { bi_bucket : number; bi_weight : number; bi_resetSeconds : number }.

Definition _bucketInfo (now windowMs : number) : bucket_info :=
  let bucket := num_floor (num_div now windowMs) in
  let bucketStart := num_mul bucket windowMs in
  let elapsed := num_sub now bucketStart in
  let weight := num_max (of_Z 0) (num_min (of_Z 1) (num_div (num_sub windowMs elapsed) windowMs)) in
  let resetSeconds := num_max (of_Z 1)
    (num_ceil (num_div (num_sub (num_add bucketStart windowMs) now) (of_Z 1000))) in
  BucketInfo bucket weight resetSeconds.

Definition _slidingWindowCount (currentCount previousCount weight : number) : number :=
  num_add currentCount (num_mul previousCount weight).

(** ** Counting *)

(** The text of an integral double in a key. *)
Definition num_text (a : number) : string :=
  match a with Fin q => Z_to_string (Qfloor q) | _ => "NaN" end.

Definition bucket_key (clientKey : string) (bucket : number) : string := (clientKey ++ ":" ++ num_text bucket)%string.
Definition previous (bucket : number) : number := num_sub bucket (of_Z 1).

(** The process store: a [node-cache] that throws when it holds [maxKeys] keys
    and another one is set.  Keys expire; what is still held counts. *)
Record memory := Memory { m_store : redis; m_maxKeys : nat }.
Definition keys_held (m : memory) : nat :=
  size (filter (fun kv : string * entry => live (clock (m_store m)) kv.2 = true) (store (m_store m))).

Definition memory_set (k : string) (v : Z) (ttlMs : Z) (m : memory) : option memory :=
  if negb (exists_key k (m_store m)) && (m_maxKeys m <=? keys_held m)%nat then None
  else Some (Memory (rset k (Entry (VInt v) (Some (clock (m_store m) + ttlMs + 1))) (m_store m)) (m_maxKeys m)).

(** [None]: the call throws. *)
Definition _inMemoryBucketCount (windowMs : Z) (clientKey : string) (bucket : number) (m : memory) : option (memory * Z) :=
  let key := bucket_key clientKey bucket in
  let next := count_of key (m_store m) + 1 in
  m' ← memory_set key next (windowMs * 2) m; Some (m', next).

Definition _inMemoryPreviousCount (clientKey : string) (bucket : number) (m : memory) : Z :=
  count_of (bucket_key clientKey (previous bucket)) (m_store m).

(** The counts after a call to Redis; [e_get] is the read of the pipeline.  The
    pipeline has run when one of its commands failed. *)
Definition _redisBucketCount (e : redis_env) (prefix clientKey : string) (bucket : number) (ttlSec : Z) (r : redis)
  : redis * option (Z * Z) :=
  let currentKey := bucket_key (prefix ++ ":" ++ clientKey)%string bucket in
  let previousKey := bucket_key (prefix ++ ":" ++ clientKey)%string (previous bucket) in
  match incr currentKey r with
  | None => (r, None)
  | Some (currentCount, r1) =>
    match e_incr e with
    | LostRequest => (r, None)
    | LostReply => (r1, None)
    | NoFault =>
      if negb (e_get e) then (r1, None) else
      let previousCount := count_of previousKey r1 in
      if currentCount =? 1 then
        match e_expire e with
        | NoFault => (expire currentKey ttlSec r1, Some (currentCount, previousCount))
        | LostReply => (expire currentKey ttlSec r1, None)
        | LostRequest => (r1, None)
        end
      else (r1, Some (currentCount, previousCount))
    end
  end.

(** ** The middleware *)

Record limiter := Limiter { windowMs : Z; max_ : Z; name : string }.
Definition ttlSec (l : limiter) : Z := - ((- (windowMs l * 2)) / 1000) + 1.

Record state := State { st_redis : redis; st_memory : memory }.

(** [Next], a refusal with its [Retry-After], or an exception in the handler,
    which leaves the request unanswered. *)
Inductive reply := Next | TooMany (retryAfter : number) | Crash.

Definition decide_request (l : limiter) (info : bucket_info) (current previous_ : Z) : reply :=
  let c := _slidingWindowCount (of_Z current) (of_Z previous_) (bi_weight info) in
  if num_gt c (of_Z (max_ l)) then TooMany (bi_resetSeconds info) else Next.

Definition rl (l : limiter) (e : redis_env) (clientKey : string) (st : state) : state * reply :=
  let clientKey := str_or clientKey "unknown" in
  let info := _bucketInfo (of_Z (clock (st_redis st))) (of_Z (windowMs l)) in
  let fallback st :=
    match _inMemoryBucketCount (windowMs l) clientKey (bi_bucket info) (st_memory st) with
    | None => (st, Crash)
    | Some (m, current) =>
      (State (st_redis st) m, decide_request l info current (_inMemoryPreviousCount clientKey (bi_bucket info) m))
    end in
  if e_ready e then
    match _redisBucketCount e (name l) clientKey (bi_bucket info) (ttlSec l) (st_redis st) with
    | (r, Some (current, prev)) => (State r (st_memory st), decide_request l info current prev)
    | (r, None) => fallback (State r (st_memory st))
    end
  else fallback st.

Definition syncLimiter : limiter := Limiter 60000 1 "rl:sync".
Definition strictLimiter : limiter := Limiter (15 * 60 * 1000) 10 "rl:strict".
Definition generalLimiter : limiter := Limiter (15 * 60 * 1000) 100 "rl:general".

(** ** Doubles are exact enough *)

Lemma num_div_int a b : b <> 0 -> num_div (of_Z a) (of_Z b) = to_double (inject_Z a / inject_Z b).
Proof. intros Hb. cbn. by destruct (Z.eqb_spec b 0). Qed.

Lemma Qdiv_int_cmp a b k : 0 < b ->
  ((inject_Z a / inject_Z b < inject_Z k)%Q <-> a < k * b) /\ ((inject_Z k <= inject_Z a / inject_Z b)%Q <-> k * b <= a).
Proof.
  intros Hb. assert (0 < inject_Z b)%Q as Hq by (by apply inject_Z_pos).
  rewrite !Zlt_Qlt, !Zle_Qle, !inject_Z_mult. split; split; intros H.
  - apply (Qmult_lt_r _ _ (inject_Z b)) in H; [|done]. rewrite Qmult_comm, Qmult_div_r in H by lra. done.
  - apply Qlt_shift_div_r; done.
  - apply (Qmult_le_r _ _ (inject_Z b)) in H; [|done]. rewrite (Qmult_comm (_ / _)), Qmult_div_r in H by lra. done.
  - apply Qle_shift_div_l; done.
Qed.

(** [Math.floor(a / b)] is integer division. *)
Lemma floor_div_exact a b : 0 <= a < 2 ^ 52 -> 0 < b < 2 ^ 52 ->
  num_floor (num_div (of_Z a) (of_Z b)) = of_Z (a / b).
Proof.
  intros Ha Hb. rewrite num_div_int by lia.
  assert (0 < inject_Z b)%Q as Hqb by (apply inject_Z_pos; lia).
  set (k := a / b). assert (Hk0 : 0 <= k) by (apply Z.div_pos; lia).
  pose proof (Z.div_mod a b ltac:(lia)) as Hdm. pose proof (Z.mod_pos_bound a b ltac:(lia)) as Hm. fold k in Hdm.
  destruct (Z.eq_dec (a mod b) 0) as [Hz|Hnz].
  { rewrite (to_double_int _ k); [unfold of_Z; cbn [num_floor]; by rewrite Qfloor_Z|nia|].
    apply Qle_antisym; [|apply Qdiv_int_cmp; lia].
    apply Qle_shift_div_r; [done|]. rewrite <- inject_Z_mult, <- Zle_Qle. lia. }
  set (j := Z.log2 (Z.max 1 k) + 1).
  assert (Hj : 2 ^ (j - 1) <= Z.max 1 k < 2 ^ j).
  { unfold j. pose proof (Z.log2_spec (Z.max 1 k) ltac:(lia)) as H. rewrite Z.add_simpl_r, Z.add_1_r. done. }
  assert (0 <= Z.log2 (Z.max 1 k) < 53) as Hl.
  { split; [apply Z.log2_nonneg|]. apply Z.log2_lt_pow2; [lia|]. nia. }
  destruct (to_double_near (inject_Z a / inject_Z b) j) as (r & -> & He & _).
  { unfold j. lia. }
  { rewrite Qabs_pos by (apply Qle_shift_div_l; [done|]; rewrite Qmult_0_l; change 0%Q with (inject_Z 0); rewrite <- Zle_Qle; lia).
    change 2%Q with (inject_Z 2). rewrite <- Zpower_Qpower by (unfold j; lia). apply Qdiv_int_cmp; [lia|]. nia. }
  assert (Herr : ((1 # 2) * Qpower 2 (j - 53) < / inject_Z b)%Q).
  { replace (j - 53) with ((j - 1) + (-52)) by lia. rewrite Qpower_plus by discriminate.
    change 2%Q with (inject_Z 2) at 1. rewrite <- Zpower_Qpower by (unfold j; lia).
    apply (Qmult_lt_r _ _ (inject_Z b)); [done|]. rewrite (Qmult_comm (/ _)), Qmult_inv_r by lra.
    change (Qpower 2 (-52)) with (1 # 4503599627370496)%Q.
    assert (inject_Z (2 ^ (j - 1)) * inject_Z b < inject_Z (2 ^ 52))%Q.
    { rewrite <- inject_Z_mult, <- Zlt_Qlt. nia. }
    change (inject_Z (2 ^ 52)) with 4503599627370496%Q in *. lra. }
  assert (Hq : (inject_Z a / inject_Z b == inject_Z k + inject_Z (a mod b) * / inject_Z b)%Q).
  { rewrite Hdm at 1. rewrite inject_Z_plus, inject_Z_mult. field. lra. }
  assert (Hlo : (/ inject_Z b <= inject_Z (a mod b) * / inject_Z b <= 1 - / inject_Z b)%Q).
  { assert (0 < / inject_Z b)%Q by (by apply Qinv_lt_0_compat).
    assert (inject_Z b * / inject_Z b == 1)%Q by (apply Qmult_inv_r; lra).
    assert (1 <= inject_Z (a mod b))%Q by (change 1%Q with (inject_Z 1); rewrite <- Zle_Qle; lia).
    assert (inject_Z (a mod b) <= inject_Z b - 1)%Q.
    { change 1%Q with (inject_Z 1). unfold Qminus. rewrite <- inject_Z_opp, <- inject_Z_plus, <- Zle_Qle. lia. }
    split; nra. }
  rewrite Hq in He. apply Qabs_Qle_condition in He.
  cbn [num_floor]. unfold of_Z. do 2 f_equal. apply Qfloor_unique; rewrite ?inject_Z_plus; change (inject_Z 1) with 1%Q; lra.
Qed.

Section Decision.
Context (W : Z) (HW : 0 < W < 2 ^ 31).

Definition bucket_of (now : Z) : Z := now / W.

Lemma bucketInfo_bucket now : 0 <= now < 2 ^ 52 -> bi_bucket (_bucketInfo (of_Z now) (of_Z W)) = of_Z (bucket_of now).
Proof. intros Hn. cbn [bi_bucket _bucketInfo]. apply floor_div_exact; lia. Qed.

(** The weight of the previous bucket is a fraction, and positive: nothing of the
    bucket is left only when the next one begins. *)
Lemma bucketInfo_weight now : 0 <= now < 2 ^ 52 ->
  exists w, bi_weight (_bucketInfo (of_Z now) (of_Z W)) = Fin w /\ (1 # 2 * Z.to_pos W <= w)%Q /\ (w <= 1)%Q.
Proof.
  intros Hn. cbn [bi_weight _bucketInfo]. rewrite floor_div_exact by lia.
  pose proof (Z.div_mod now W ltac:(lia)) as Hdm. pose proof (Z.mod_pos_bound now W ltac:(lia)) as Hm.
  assert (0 <= now / W) by (apply Z.div_pos; lia).
  rewrite num_mul_int by nia. rewrite num_sub_int by nia. rewrite num_sub_int by lia.
  replace (W - (now - now / W * W)) with (W - now mod W) by lia. set (x := W - now mod W).
  rewrite num_div_int by lia. assert (0 < inject_Z W)%Q as HqW by (apply inject_Z_pos; lia).
  assert (Hx : (/ inject_Z W <= inject_Z x / inject_Z W <= 1)%Q).
  { split; [|apply Qle_shift_div_r; [done|]; rewrite Qmult_1_l, <- Zle_Qle; lia].
    unfold Qdiv. assert (0 < / inject_Z W)%Q by (by apply Qinv_lt_0_compat).
    assert (1 <= inject_Z x)%Q by (change 1%Q with (inject_Z 1); rewrite <- Zle_Qle; lia). nra. }
  assert (Hinv : (/ inject_Z W == 1 # Z.to_pos W)%Q) by (destruct W; try lia; done).
  assert (Hbig : (1 # 2147483648 <= 1 # Z.to_pos W)%Q) by (unfold Qle; cbn; lia).
  assert (Hhalf : (1 # 2 * Z.to_pos W == (1 # 2) * (1 # Z.to_pos W))%Q) by (unfold Qeq; cbn; lia).
  rewrite Hinv in Hx. assert (0 < 1 # Z.to_pos W)%Q by done.
  destruct (to_double_near (inject_Z x / inject_Z W) 1) as (r & -> & He & Hr0); [lia| |].
  { rewrite Qabs_pos by lra. change (Qpower 2 1) with 2%Q. lra. }
  change ((1 # 2) * Qpower 2 (1 - 53))%Q with ((1 # 2) * (1 # 4503599627370496))%Q in He.
  apply Qabs_Qle_condition in He.
  assert (Hrlo : ((1 # 2) * (1 # Z.to_pos W) <= r)%Q) by lra.
  unfold num_min, of_Z. cbn [num_le]. destruct (Qle_bool (inject_Z 1) r) eqn:E1; unfold num_max; cbn [num_le].
  - exists 1%Q. split; [done|]. split; [|lra]. assert (1 # Z.to_pos W <= 1)%Q by (unfold Qle; cbn; lia). lra.
  - exists r. assert (Qle_bool (inject_Z 0) r = true) as -> by (apply Qle_bool_iff; change (inject_Z 0) with 0%Q; lra).
    split; [done|]. split; [lra|]. destruct (Qlt_le_dec 1 r) as [Hlt|]; [|done]. exfalso.
    assert (Qle_bool (inject_Z 1) r = true) by (apply Qle_bool_iff; change (inject_Z 1) with 1%Q; lra). congruence.
Qed.

(** The estimate, up to the rounding of two operations. *)
Lemma estimate_near cur prev w : 0 <= cur < 2 ^ 30 -> 0 <= prev < 2 ^ 20 -> (0 <= w)%Q -> (w <= 1)%Q ->
  exists c, _slidingWindowCount (of_Z cur) (of_Z prev) (Fin w) = Fin c /\
    (Qabs (c - (inject_Z cur + inject_Z prev * w)) <= 1 # 4194304)%Q.
Proof.
  intros Hc Hp Hw0 Hw1. unfold _slidingWindowCount.
  change (num_mul (of_Z prev) (Fin w)) with (to_double (inject_Z prev * w)).
  assert (0 <= inject_Z prev <= 1048576)%Q as Hpq by (split; unfold Qle; cbn; lia).
  assert (0 <= inject_Z cur <= 1073741824)%Q as Hcq by (split; unfold Qle; cbn; lia).
  destruct (to_double_near (inject_Z prev * w) 21) as (p & -> & He & _); [lia| |].
  { rewrite Qabs_pos by nra. change (Qpower 2 21) with 2097152%Q. nra. }
  change ((1 # 2) * Qpower 2 (21 - 53))%Q with ((1 # 2) * (1 # 4294967296))%Q in He.
  apply Qabs_Qle_condition in He.
  change (num_add (of_Z cur) (Fin p)) with (to_double (inject_Z cur + p)).
  destruct (to_double_near (inject_Z cur + p) 31) as (c & -> & He2 & _); [lia| |].
  { apply Qabs_case; intros; change (Qpower 2 31) with 2147483648%Q; nra. }
  change ((1 # 2) * Qpower 2 (31 - 53))%Q with ((1 # 2) * (1 # 4194304))%Q in He2.
  apply Qabs_Qle_condition in He2. exists c. split; [done|]. apply Qabs_Qle_condition. split; nra.
Qed.
End Decision.

(** ** Keys *)

Lemma Z_to_string_inj a b : 0 <= a -> 0 <= b -> Z_to_string a = Z_to_string b -> a = b.
Proof.
  intros Ha Hb H. apply (f_equal chars) in H. unfold Z_to_string in H. rewrite !chars_text in H. unfold Z_text in H.
  destruct (Z.ltb_spec a 0); [lia|]. destruct (Z.ltb_spec b 0); [lia|].
  by rewrite <- (dec_digits_val a), <- (dec_digits_val b), H by done.
Qed.

Lemma bucket_key_int k b : bucket_key k (of_Z b) = (k ++ ":" ++ Z_to_string b)%string.
Proof. unfold bucket_key, num_text, of_Z. by rewrite Qfloor_Z. Qed.

Lemma bucket_key_inj k a b : 0 <= a -> 0 <= b -> bucket_key k (of_Z a) = bucket_key k (of_Z b) -> a = b.
Proof.
  intros Ha Hb. rewrite !bucket_key_int. intros H. apply (inj (String.append k)) in H.
  apply (inj (String.append ":")) in H. by apply Z_to_string_inj.
Qed.

(** ** One client, Redis at hand *)

Section Client.
Context (l : limiter) (client : string) (HW : 0 < windowMs l < 2 ^ 31) (Hclient : str_truthy client = true).

Definition key_of (b : Z) : string := bucket_key (name l ++ ":" ++ client)%string (of_Z b).
Definition now_of (st : state) : Z := clock (st_redis st).
Definition advance (d : Z) (st : state) : state :=
  State (tick d (st_redis st)) (Memory (tick d (m_store (st_memory st))) (m_maxKeys (st_memory st))).
Definition current_bucket (st : state) : Z := bucket_of (windowMs l) (now_of st).

(** What is stored for a bucket: nothing, or a count that lasts. *)
Definition stored (b : Z) (st : state) : option entry := store (st_redis st) !! key_of b.

Lemma ttlSec_covers : 2 * windowMs l <= ttlSec l * 1000.
Proof. unfold ttlSec. pose proof (Z.div_mod (- (windowMs l * 2)) 1000 ltac:(lia)). pose proof (Z.mod_pos_bound (- (windowMs l * 2)) 1000 ltac:(lia)). lia. Qed.

Lemma bucket_bounds t : current_bucket t * windowMs l <= now_of t < (current_bucket t + 1) * windowMs l.
Proof.
  unfold current_bucket, bucket_of. pose proof (Z.div_mod (now_of t) (windowMs l) ltac:(lia)).
  pose proof (Z.mod_pos_bound (now_of t) (windowMs l) ltac:(lia)). lia.
Qed.

(** What one request does: the bucket's count goes up, nothing else changes, and
    the decision uses the new count, the previous bucket's and a weight. *)
Lemma rl_step st n : 0 <= now_of st < 2 ^ 52 ->
  match rget (key_of (current_bucket st)) (st_redis st) with
  | None => n = 0
  | Some e => 1 <= n /\ exists u, e = Entry (VInt n) (Some u)
  end ->
  exists w st' until, (1 # 2 * Z.to_pos (windowMs l) <= w)%Q /\ (w <= 1)%Q /\
    rl l healthy client st = (st', if num_gt (_slidingWindowCount (of_Z (n + 1))
        (of_Z (count_of (key_of (current_bucket st - 1)) (st_redis st))) (Fin w)) (of_Z (max_ l))
      then TooMany (bi_resetSeconds (_bucketInfo (of_Z (now_of st)) (of_Z (windowMs l)))) else Next) /\
    now_of st' = now_of st /\
    stored (current_bucket st) st' = Some (Entry (VInt (n + 1)) (Some until)) /\
    (forall e u, rget (key_of (current_bucket st)) (st_redis st) = Some e -> e_exp e = Some u -> until = u) /\
    (rget (key_of (current_bucket st)) (st_redis st) = None -> until = now_of st + ttlSec l * 1000) /\
    (forall b, 0 <= b -> b <> current_bucket st -> stored b st' = stored b st).
Proof.
  intros Hnow Hn. pose proof (bucket_bounds st) as Hb.
  assert (Hb0 : 0 <= current_bucket st) by (apply Z.div_pos; lia).
  destruct (bucketInfo_weight (windowMs l) HW (now_of st) Hnow) as (w & Hw & Hw0 & Hw1).
  exists w. unfold rl. unfold str_or. rewrite Hclient. cbn [healthy e_ready]. unfold _redisBucketCount.
  fold (now_of st). rewrite bucketInfo_bucket by done. fold (current_bucket st).
  unfold previous. rewrite num_sub_int by nia. fold (key_of (current_bucket st)). fold (key_of (current_bucket st - 1)).
  unfold decide_request. rewrite Hw. unfold incr.
  assert (Hother : forall b e r, 0 <= b -> b <> current_bucket st ->
    store (rset (key_of (current_bucket st)) e r) !! key_of b = store r !! key_of b).
  { intros b e r H1 H2. cbn. rewrite lookup_insert_ne; [done|]. intros E. by apply bucket_key_inj in E. }
  assert (Hprev : forall e, count_of (key_of (current_bucket st - 1)) (rset (key_of (current_bucket st)) e (st_redis st))
    = count_of (key_of (current_bucket st - 1)) (st_redis st)).
  { intros e. unfold count_of, rget. cbn [clock rset]. destruct (Z.eq_dec (current_bucket st) 0) as [E0|].
    - cbn. rewrite lookup_insert_ne; [done|]. unfold key_of. rewrite !bucket_key_int, E0.
      intros E. apply (inj (String.append _)) in E. apply (inj (String.append ":")) in E. by vm_compute in E.
    - rewrite Hother by lia. done. }
  destruct (rget (key_of (current_bucket st)) (st_redis st)) as [e|] eqn:Hg.
  - destruct Hn as [Hn [u ->]]. cbn [healthy e_incr e_get negb]. destruct (Z.eqb_spec (n + 1) 1) as [E1|E1]; [lia|].
    eexists _, u. rewrite Hprev. split_and!; try done.
    + unfold stored. cbn. by rewrite lookup_insert_eq.
    + by intros ? ? [= <-] [= <-].
    + intros b H1 H2. unfold stored. cbn [st_redis]. by rewrite Hother.
  - subst n. cbn [healthy e_incr e_get negb e_expire]. cbn [Z.add Z.eqb Pos.eqb].
    assert (Hex : forall r, expire (key_of (current_bucket st)) (ttlSec l) (rset (key_of (current_bucket st)) (Entry (VInt 1) None) r)
      = rset (key_of (current_bucket st)) (Entry (VInt 1) (Some (clock r + ttlSec l * 1000))) (rset (key_of (current_bucket st)) (Entry (VInt 1) None) r)).
    { intros r. unfold expire, rget. cbn. by rewrite lookup_insert_eq. }
    eexists _, _. rewrite Hprev, Hex. split_and!; try done.
    + unfold stored. cbn. by rewrite lookup_insert_eq.
    + intros b H1 H2. unfold stored. cbn [st_redis]. by rewrite !Hother.
Qed.

Definition admits (r : reply) : nat := match r with Next => 1 | _ => 0 end.

(** Requests of the client while Redis answers, each after a pause: how many
    are let through. *)
Fixpoint served (pauses : list Z) (st : state) : nat :=
  match pauses with
  | [] => 0
  | d :: ds => let '(st', r) := rl l healthy client (advance d st) in admits r + served ds st'
  end.

Definition small_count (e : option entry) : Prop :=
  match e with None => True | Some e => exists n u, e = Entry (VInt n) u /\ 0 <= n < 2 ^ 20 end.

Lemma small_count_of b st : small_count (stored b st) -> 0 <= count_of (key_of b) (st_redis st) < 2 ^ 20.
Proof.
  unfold small_count, stored, count_of, rget. destruct (store (st_redis st) !! key_of b) as [e|]; [|lia].
  intros (n & u & -> & Hn). destruct (live _ _); lia.
Qed.

(** A request is let through only while the bucket's count is within the limit. *)
Lemma admitted_within cur prev w : 0 <= cur < 2 ^ 30 -> 0 <= prev < 2 ^ 20 -> (0 <= w)%Q -> (w <= 1)%Q -> max_ l < cur ->
  num_gt (_slidingWindowCount (of_Z cur) (of_Z prev) (Fin w)) (of_Z (max_ l)) = true.
Proof.
  intros Hc Hp Hw0 Hw1 Hm. destruct (estimate_near cur prev w Hc Hp Hw0 Hw1) as (c & -> & He).
  apply Qabs_Qle_condition in He. unfold num_gt, of_Z. cbn [num_lt]. unfold Qltb. apply negb_true_iff.
  destruct (Qle_bool c (inject_Z (max_ l))) eqn:E; [|done]. exfalso. apply Qle_bool_iff in E.
  assert (inject_Z (max_ l) + 1 <= inject_Z cur)%Q.
  { change 1%Q with (inject_Z 1). rewrite <- inject_Z_plus, <- Zle_Qle. lia. }
  assert (0 <= inject_Z prev)%Q by (change 0%Q with (inject_Z 0); rewrite <- Zle_Qle; lia). nra.
Qed.

Definition in_bucket (b t : Z) : Prop := b * windowMs l <= t < (b + 1) * windowMs l.

Lemma in_bucket_current b st : in_bucket b (now_of st) -> current_bucket st = b.
Proof.
  intros H. unfold current_bucket, bucket_of. symmetry. apply (Z.div_unique _ _ b (now_of st - b * windowMs l)).
  - left. unfold in_bucket in H. lia.
  - lia.
Qed.

Lemma weight_nonneg w : (1 # 2 * Z.to_pos (windowMs l) <= w)%Q -> (0 <= w)%Q.
Proof. intros H. eapply Qle_trans; [|exact H]. done. Qed.

Lemma advance_now d st : now_of (advance d st) = now_of st + d.
Proof. done. Qed.
Lemma advance_stored d b st : stored b (advance d st) = stored b st.
Proof. done. Qed.

Lemma stored_live b st n until : stored b st = Some (Entry (VInt n) (Some until)) -> now_of st < until ->
  rget (key_of b) (st_redis st) = Some (Entry (VInt n) (Some until)).
Proof.
  unfold stored, rget, now_of. intros -> H. unfold live; cbn [e_exp]. by destruct (Z.ltb_spec (clock (st_redis st)) until); [|lia].
Qed.

Lemma pauses_nonneg pauses : Forall (fun d => 0 <= d) pauses -> 0 <= foldr Z.add 0 pauses.
Proof. induction 1; simpl; lia. Qed.

(** A client that was refused counts all the same: with a limit of one, whoever
    asks once in every bucket is served once and then never again. *)
Lemma refused_after_request prev w : windowMs l <= 2 ^ 20 -> max_ l = 1 -> 1 <= prev < 2 ^ 20 ->
  (1 # 2 * Z.to_pos (windowMs l) <= w)%Q -> (w <= 1)%Q ->
  num_gt (_slidingWindowCount (of_Z 1) (of_Z prev) (Fin w)) (of_Z (max_ l)) = true.
Proof.
  intros HW2 -> Hp Hw0 Hw1. destruct (estimate_near 1 prev w) as (c & -> & He); [lia|lia|by apply weight_nonneg|done|].
  apply Qabs_Qle_condition in He. unfold num_gt, of_Z. cbn [num_lt]. unfold Qltb. apply negb_true_iff.
  destruct (Qle_bool c (inject_Z 1)) eqn:E; [|done]. exfalso. apply Qle_bool_iff in E.
  assert (1 # 2097152 <= 1 # 2 * Z.to_pos (windowMs l))%Q by (unfold Qle; cbn; lia).
  assert (1 <= inject_Z prev)%Q by (change 1%Q with (inject_Z 1); rewrite <- Zle_Qle; lia).
  change (inject_Z 1) with 1%Q in *. nra.
Qed.

(** Each pause leads into the next bucket. *)
Fixpoint one_per_bucket (pauses : list Z) (st : state) : Prop :=
  match pauses with
  | [] => True
  | d :: ds => current_bucket (advance d st) = current_bucket st + 1 /\ 0 <= now_of (advance d st) < 2 ^ 52 /\
               one_per_bucket ds (rl l healthy client (advance d st)).1
  end.

Lemma starved pauses : windowMs l <= 2 ^ 20 -> max_ l = 1 -> forall st until,
  0 <= current_bucket st -> stored (current_bucket st) st = Some (Entry (VInt 1) (Some until)) ->
  (current_bucket st + 2) * windowMs l <= until ->
  (forall b, current_bucket st < b -> stored b st = None) -> one_per_bucket pauses st -> served pauses st = 0%nat.
Proof.
  intros HW2 Hmax. induction pauses as [|d ds IH]; intros st until Hb0 Hst Hu Hnone Hp; [done|].
  destruct Hp as (Hb & Hnow & Hp). set (st1 := advance d st) in *. pose proof (bucket_bounds st1) as Hbd.
  assert (Hrg : rget (key_of (current_bucket st1)) (st_redis st1) = None).
  { unfold rget. change (store (st_redis st1) !! key_of (current_bucket st1)) with (stored (current_bucket st1) st).
    by rewrite Hnone by lia. }
  destruct (rl_step st1 0) as (w & st' & u & Hw0 & Hw1 & Hrl & Hn' & Hst' & _ & Hexp & Hoth); [done|by rewrite Hrg|].
  cbn [served]. fold st1. rewrite Hrl in *. cbn [fst] in Hp.
  assert (Hprev : count_of (key_of (current_bucket st1 - 1)) (st_redis st1) = 1).
  { unfold count_of. replace (current_bucket st1 - 1) with (current_bucket st) by lia.
    rewrite (stored_live (current_bucket st) st1 1 until); [done|exact Hst|nia]. }
  rewrite Hprev. change (0 + 1) with 1. rewrite refused_after_request by (done || lia). cbn [admits].
  assert (Hcur' : current_bucket st' = current_bucket st1) by (unfold current_bucket; by rewrite Hn').
  apply (IH st' u); rewrite ?Hcur'.
  - lia.
  - done.
  - rewrite (Hexp Hrg). pose proof ttlSec_covers. nia.
  - intros b Hlt. rewrite Hoth by lia. apply (Hnone b). lia.
  - done.
Qed.

(** With a limit of one request a client that asks once in every bucket, which is
    what Retry-After tells it to do, is served the first time and never again. *)
Theorem patient_client_starves pauses st : windowMs l <= 2 ^ 20 -> max_ l = 1 ->
  0 <= now_of st < 2 ^ 52 -> (forall b, -1 <= b -> stored b st = None) ->
  one_per_bucket pauses (rl l healthy client st).1 ->
  (rl l healthy client st).2 = Next /\ served pauses (rl l healthy client st).1 = 0%nat.
Proof.
  intros HW2 Hmax Hnow Hnone Hp. pose proof (bucket_bounds st) as Hbd.
  assert (Hb0 : 0 <= current_bucket st) by (apply Z.div_pos; lia).
  assert (Hrg : forall b, -1 <= b -> rget (key_of b) (st_redis st) = None).
  { intros b Hb. unfold rget. change (store (st_redis st) !! key_of b) with (stored b st). by rewrite Hnone. }
  destruct (rl_step st 0) as (w & st' & u & Hw0 & Hw1 & Hrl & Hn' & Hst' & _ & Hexp & Hoth); [done|by rewrite Hrg by lia|].
  rewrite Hrl in *. cbn [fst snd] in *. unfold count_of in *. rewrite Hrg, Hmax in * by lia.
  assert (Hcur' : current_bucket st' = current_bucket st) by (unfold current_bucket; by rewrite Hn').
  split.
  - assert (num_gt (_slidingWindowCount (of_Z (0 + 1)) (of_Z 0) (Fin w)) (of_Z 1) = false) as ->; [|done].
    destruct (estimate_near 1 0 w) as (c & Hc & He); [lia|lia|by apply weight_nonneg|done|].
    unfold _slidingWindowCount in *. change (num_mul (of_Z 0) (Fin w)) with (to_double (inject_Z 0 * w)) in *.
    rewrite (to_double_int _ 0) in * by (try lia; change (inject_Z 0) with 0%Q; ring). rewrite num_add_int by lia.
    unfold num_gt. by rewrite num_lt_int.
  - apply (starved pauses HW2 Hmax st' u); rewrite ?Hcur'.
    + done.
    + done.
    + rewrite (Hexp eq_refl). pose proof ttlSec_covers. nia.
    + intros b Hlt. rewrite Hoth by lia. apply Hnone. lia.
    + done.
Qed.
End Client.

(** ** Several processes, and a Redis that fails

    The processes share Redis; each has its own store to fall back on.  All
    clocks agree. *)

(** The count kept under a key, and that it is a count which outlives [T]. *)
Definition held_count (k : string) (r : redis) : Z :=
  match store r !! k with Some (Entry (VInt n) _) => n | _ => 0 end.
Definition lasting (T : Z) (k : string) (r : redis) : Prop :=
  match store r !! k with
  | None => True
  | Some e => exists n, e_val e = VInt n /\ 0 <= n /\ match e_exp e with None => True | Some u => T <= u end
  end.
Definition small_held (k : string) (r : redis) : Prop := 0 <= held_count k r < 2 ^ 20.

(** [r'] counts at least what [r] counts, and keeps the other key. *)
Record grows (T : Z) (k k' : string) (r r' : redis) : Prop := Grows {
  g_clock : clock r' = clock r; g_lasting : lasting T k r'; g_more : held_count k r <= held_count k r' <= held_count k r + 1;
  g_other : store r' !! k' = store r !! k' }.

Section Held.
Context (T : Z) (k k' : string) (Hne : k <> k').

Lemma grows_refl r : lasting T k r -> grows T k k' r r.
Proof. intros H. split; [done|done|lia|done]. Qed.

Lemma rget_held r : lasting T k r -> clock r < T ->
  match rget k r with None => held_count k r = 0 /\ store r !! k = None | Some e => e_val e = VInt (held_count k r) /\ store r !! k = Some e end.
Proof.
  unfold lasting, held_count, rget. destruct (store r !! k) as [[v x]|] eqn:E; [|done]. intros (n & Hv & Hn & Hx) Ht. cbn in *. subst v.
  assert (live (clock r) (Entry (VInt n) x) = true) as ->; [|done]. unfold live; cbn. destruct x as [u|]; [|done].
  by destruct (Z.ltb_spec (clock r) u); [|lia].
Qed.

Lemma count_of_held r : lasting T k r -> clock r < T -> count_of k r = held_count k r.
Proof.
  intros Hl Ht. pose proof (rget_held r Hl Ht) as H. unfold count_of. destruct (rget k r) as [[v x]|]; [|by destruct H as [-> _]].
  destruct H as [Hv _]. cbn in Hv. by subst v.
Qed.

Lemma held_nonneg r : lasting T k r -> 0 <= held_count k r.
Proof. unfold lasting, held_count. destruct (store r !! k) as [[[] x]|]; [lia| |lia]. intros (m & [= ->] & Hm & _). lia. Qed.

Lemma rset_grows n x r : lasting T k r -> held_count k r <= n <= held_count k r + 1 -> match x with None => True | Some u => T <= u end ->
  grows T k k' r (rset k (Entry (VInt n) x) r) /\ held_count k (rset k (Entry (VInt n) x) r) = n.
Proof.
  intros Hl Hn Hx. pose proof (held_nonneg r Hl).
  assert (E : held_count k (rset k (Entry (VInt n) x) r) = n) by (unfold held_count; cbn; by rewrite lookup_insert_eq).
  split; [|done]. split; [done| |by rewrite E|cbn; by rewrite lookup_insert_ne].
  unfold lasting. cbn. rewrite lookup_insert_eq. exists n. split_and!; [done|lia|done].
Qed.

Lemma incr_grows r n r' : lasting T k r -> clock r < T -> incr k r = Some (n, r') ->
  grows T k k' r r' /\ n = held_count k r + 1 /\ held_count k r' = n.
Proof.
  intros Hl Ht. pose proof (rget_held r Hl Ht) as H. unfold incr. destruct (rget k r) as [[v x]|] eqn:E.
  - destruct H as [Hv Hs]. cbn in Hv. subst v. intros [= <- <-]. assert (Hx : match x with None => True | Some u => T <= u end).
    { unfold lasting in Hl. rewrite Hs in Hl. by destruct Hl as (? & _ & _ & ?). }
    by destruct (rset_grows (held_count k r + 1) x r Hl ltac:(lia) Hx).
  - destruct H as [Hz Hs]. intros [= <- <-]. destruct (rset_grows 1 None r Hl ltac:(lia) I). split_and!; [done|lia|done].
Qed.

Lemma expire_grows ttl r : lasting T k r -> clock r < T -> T <= clock r + ttl * 1000 ->
  grows T k k' r (expire k ttl r) /\ held_count k (expire k ttl r) = held_count k r.
Proof.
  intros Hl Ht Hu. pose proof (rget_held r Hl Ht) as H. unfold expire. destruct (rget k r) as [[v x]|] eqn:E.
  - destruct H as [Hv Hs]. cbn in Hv. subst v. cbn [e_val]. by apply rset_grows; [|lia|].
  - by split; [apply grows_refl|].
Qed.

Lemma grows_trans r r1 r2 : grows T k k' r r1 -> grows T k k' r1 r2 -> held_count k r2 = held_count k r1 -> grows T k k' r r2.
Proof. intros [] [] H. split; [congruence|done|lia|congruence]. Qed.
End Held.

Section Fleet.
Context (l : limiter) (client : string) (HW : 0 < windowMs l < 2 ^ 31) (Hclient : str_truthy client = true).

Definition memory_key (b : Z) : string := bucket_key client (of_Z b).

Record fleet := Fleet { f_redis : redis; f_memories : list memory }.
(** A request of the client: the pause before it, the process that serves it
    and what becomes of its calls to Redis. *)
Record request := Request { q_pause : Z; q_process : nat; q_env : redis_env }.

Definition advance_all (d : Z) (f : fleet) : fleet :=
  Fleet (tick d (f_redis f)) (map (fun m => Memory (tick d (m_store m)) (m_maxKeys m)) (f_memories f)).
Definition serve (q : request) (f : fleet) : fleet * nat :=
  match f_memories f !! q_process q with
  | Some m =>
    let '(st, r) := rl l (q_env q) client (State (f_redis f) m) in
    (Fleet (st_redis st) (<[q_process q := st_memory st]> (f_memories f)), admits r)
  | None => (f, 0%nat)
  end.

(** How many of them are let through. *)
Fixpoint admitted (qs : list request) (f : fleet) : nat :=
  match qs with
  | [] => 0
  | q :: qs => let '(f', n) := serve q (advance_all (q_pause q) f) in n + admitted qs f'
  end.

(** Redis answers every call of the request. *)
Definition answers (e : redis_env) : bool :=
  e_ready e && e_get e && match e_incr e, e_expire e with NoFault, NoFault => true | _, _ => false end.

Lemma keys_differ c b : 0 <= b -> bucket_key c (of_Z b) <> bucket_key c (of_Z (b - 1)).
Proof.
  intros Hb H. rewrite !bucket_key_int in H. apply (inj (String.append c)) in H. apply (inj (String.append ":")) in H.
  destruct (Z.eq_dec b 0) as [->|]; [by vm_compute in H|]. apply Z_to_string_inj in H; lia.
Qed.

(** A request that is let through was counted within the limit. *)
Lemma decide_within now cur prev : 0 <= now < 2 ^ 52 -> 0 <= cur < 2 ^ 30 -> 0 <= prev < 2 ^ 20 ->
  decide_request l (_bucketInfo (of_Z now) (of_Z (windowMs l))) cur prev = Next -> cur <= max_ l.
Proof.
  intros Hn Hc Hp. unfold decide_request. destruct (bucketInfo_weight (windowMs l) HW now Hn) as (w & -> & Hw0 & Hw1).
  destruct (Z.le_gt_cases cur (max_ l)) as [|Hgt]; [done|]. rewrite admitted_within; [done|lia|lia| |done|done].
  by apply weight_nonneg in Hw0.
Qed.

Section Bucket.
Context (b : Z) (Hb : 1 <= b) (Hmax : (b + 1) * windowMs l < 2 ^ 52).
Let T : Z := (b + 1) * windowMs l.

(** What holds of a store of either kind all through the bucket. *)
Definition sound (c : string) (r : redis) : Prop :=
  lasting T (bucket_key c (of_Z b)) r /\ small_held (bucket_key c (of_Z (b - 1))) r.
Abbreviation in_redis := (name l ++ ":" ++ client)%string.

Definition grown (c : string) : redis -> redis -> Prop := grows T (bucket_key c (of_Z b)) (bucket_key c (of_Z (b - 1))).
Definition count (c : string) (r : redis) : Z := held_count (bucket_key c (of_Z b)) r.

Lemma small_previous c r : sound c r -> 0 <= count_of (bucket_key c (of_Z (b - 1))) r < 2 ^ 20.
Proof.
  intros [_ H]. unfold small_held, held_count, count_of, rget in *. destruct (store r !! _) as [[[] x]|]; [by destruct (live _ _)| |lia].
  destruct (live _ _); lia.
Qed.

Lemma grown_sound c r r' : sound c r -> grown c r r' -> sound c r'.
Proof. intros [_ H] []. split; [done|]. unfold small_held, held_count in *. by rewrite g_other0. Qed.

Lemma redis_count e r : sound in_redis r -> in_bucket l b (clock r) ->
  let '(r', o) := _redisBucketCount e (name l) client (of_Z b) (ttlSec l) r in
  grown in_redis r r' /\
  match o with
  | Some (cur, prev) => cur = count in_redis r + 1 /\ count in_redis r' = cur /\ 0 <= prev < 2 ^ 20
  | None => answers e = false \/ e_ready e = false
  end.
Proof.
  intros Hs Hin. assert (Ht : clock r < T) by apply Hin. pose proof (ttlSec_covers l) as Httl.
  assert (Hne : bucket_key in_redis (of_Z b) <> bucket_key in_redis (of_Z (b - 1))) by (apply keys_differ; lia).
  unfold _redisBucketCount, previous. rewrite num_sub_int by (unfold in_bucket in Hin; nia).
  destruct (incr (bucket_key in_redis (of_Z b)) r) as [[n r1]|] eqn:Ei.
  2: { exfalso. pose proof (rget_held T _ r (proj1 Hs) Ht) as H. unfold incr in Ei.
       destruct (rget _ r) as [[v x]|]; [|done]. destruct H as [Hv _]. cbn in Hv. by subst v. }
  destruct (incr_grows T _ _ Hne r n r1 (proj1 Hs) Ht Ei) as (G & Hn & Hn').
  assert (Hr : grown in_redis r r) by (apply grows_refl, Hs).
  assert (Hs1 : sound in_redis r1) by (by eapply grown_sound).
  unfold answers. destruct (e_incr e); [|split; [done|by left; rewrite andb_false_r]..].
  destruct (e_get e); cbn [negb]; [|split; [done|left; by rewrite andb_false_r]].
  pose proof (small_previous in_redis r1 Hs1) as Hp.
  destruct (expire_grows T _ _ Hne (ttlSec l) r1 (proj1 Hs1)) as [G2 E2];
    [by rewrite (g_clock _ _ _ _ _ G)|rewrite (g_clock _ _ _ _ _ G); unfold in_bucket, T in *; nia|].
  pose proof (grows_trans _ _ _ _ _ _ G G2 E2) as G3.
  destruct (n =? 1); [destruct (e_expire e)|].
  - split; [exact G3|]. unfold count. by rewrite E2.
  - split; [exact G|left; by rewrite andb_false_r].
  - split; [exact G3|left; by rewrite andb_false_r].
  - by split.
Qed.

Lemma memory_count m : sound client (m_store m) -> in_bucket l b (clock (m_store m)) ->
  match _inMemoryBucketCount (windowMs l) client (of_Z b) m with
  | None => True
  | Some (m', cur) => grown client (m_store m) (m_store m') /\ cur = count client (m_store m) + 1 /\ count client (m_store m') = cur /\
      0 <= _inMemoryPreviousCount client (of_Z b) m' < 2 ^ 20
  end.
Proof.
  intros Hs Hin. assert (Ht : clock (m_store m) < T) by apply Hin.
  unfold _inMemoryBucketCount, memory_set. destruct (negb _ && _); [done|]. cbn [mbind option_bind].
  rewrite (count_of_held T _ _ (proj1 Hs) Ht).
  destruct (rset_grows T (bucket_key client (of_Z b)) (bucket_key client (of_Z (b - 1))) ltac:(apply keys_differ; lia)
    (held_count (bucket_key client (of_Z b)) (m_store m) + 1) (Some (clock (m_store m) + windowMs l * 2 + 1)) (m_store m) (proj1 Hs)) as [G E];
    [lia|unfold in_bucket, T in *; nia|].
  cbn [m_store]. split_and!; [done|done|done|..]; unfold _inMemoryPreviousCount, previous; rewrite num_sub_int by (unfold in_bucket in Hin; nia);
    cbn [m_store]; apply small_previous; by eapply grown_sound.
Qed.

(** One request: the counts of Redis and of the process grow, and it is let
    through only on a count within the limit; on the process's own count only
    when Redis did not answer. *)
Lemma rl_grows e st : sound in_redis (st_redis st) -> sound client (m_store (st_memory st)) ->
  in_bucket l b (clock (st_redis st)) -> clock (m_store (st_memory st)) = clock (st_redis st) ->
  count in_redis (st_redis st) + 1 < 2 ^ 30 -> count client (m_store (st_memory st)) + 1 < 2 ^ 30 ->
  let '(st', r) := rl l e client st in
  grown in_redis (st_redis st) (st_redis st') /\ grown client (m_store (st_memory st)) (m_store (st_memory st')) /\
  (r = Next ->
    (count in_redis (st_redis st') = count in_redis (st_redis st) + 1 /\ count in_redis (st_redis st') <= max_ l) \/
    (answers e = false /\ count client (m_store (st_memory st')) = count client (m_store (st_memory st)) + 1 /\
     count client (m_store (st_memory st')) <= max_ l)).
Proof.
  intros HR HM Hin Hclk HcR HcM. assert (Hnow : 0 <= clock (st_redis st) < 2 ^ 52) by (unfold in_bucket in Hin; nia).
  pose proof (held_nonneg T _ _ (proj1 HR)) as HR0. pose proof (held_nonneg T _ _ (proj1 HM)) as HM0. fold (count in_redis (st_redis st)) in HR0.
  fold (count client (m_store (st_memory st))) in HM0.
  assert (Hbucket : bi_bucket (_bucketInfo (of_Z (clock (st_redis st))) (of_Z (windowMs l))) = of_Z b).
  { rewrite bucketInfo_bucket by done. f_equal. by apply (in_bucket_current l b st). }
  unfold rl. unfold str_or. rewrite Hclient, Hbucket.
  pose proof (memory_count (st_memory st) HM ltac:(by rewrite Hclk)) as Hmc.
  assert (HMr : grown client (m_store (st_memory st)) (m_store (st_memory st))) by (apply grows_refl, HM).
  assert (HRr : grown in_redis (st_redis st) (st_redis st)) by (apply grows_refl, HR).
  pose proof (redis_count e (st_redis st) HR Hin) as Hrc.
  destruct (e_ready e) eqn:He.
  - destruct (_redisBucketCount e _ _ _ _ _) as [r' [[cur prev]|]]; destruct Hrc as [G Hrc].
    + destruct Hrc as (E1 & E2 & Hp). cbn [st_redis st_memory]. split_and!; [done|done|]. intros Hd. left. rewrite E2. split; [done|].
      by apply (decide_within (clock (st_redis st)) cur prev) in Hd; [|done|lia|].
    + destruct Hrc as [Hrc|]; [|done]. cbn [st_redis st_memory].
      destruct (_inMemoryBucketCount _ _ _ _) as [[m' cur]|]; cbn [st_redis st_memory]; [|by split_and!].
      destruct Hmc as (G2 & E1 & E2 & Hp). split_and!; [done|done|]. intros Hd. right. rewrite E2. split_and!; [done|done|].
      by eapply (decide_within (clock (st_redis st))) in Hd; [|done|lia|].
  - assert (Ha : answers e = false) by (unfold answers; by rewrite He).
    destruct (_inMemoryBucketCount _ _ _ _) as [[m' cur]|]; cbn [st_redis st_memory]; [|by split_and!].
    destruct Hmc as (G2 & E1 & E2 & Hp). split_and!; [done|done|]. intros Hd. right. rewrite E2. split_and!; [done|done|].
    by eapply (decide_within (clock (st_redis st))) in Hd; [|done|lia|].
Qed.

(** What is still to be had from a store. *)
Definition room (c : string) (r : redis) : Z := Z.max 0 (max_ l - count c r).
Definition room_at (f : fleet) (i : nat) : Z :=
  match f_memories f !! i with Some m => room client (m_store m) | None => 0 end.
Definition rooms (F : list nat) (f : fleet) : Z := foldr Z.add 0 (map (room_at f) F).

Record ready (n : Z) (f : fleet) : Prop := Ready {
  r_redis : sound in_redis (f_redis f); r_redis_count : count in_redis (f_redis f) + n < 2 ^ 30;
  r_memories : Forall (fun m => sound client (m_store m) /\ clock (m_store m) = clock (f_redis f) /\ count client (m_store m) + n < 2 ^ 30)
                 (f_memories f) }.

Lemma ready_advance d n f : ready n f -> ready n (advance_all d f).
Proof.
  intros [H1 H2 H3]. split; [exact H1|exact H2|]. cbn [f_memories f_redis advance_all]. apply Forall_map.
  eapply Forall_impl; [exact H3|]. intros m (K1 & K2 & K3). split_and!; [exact K1|cbn; by rewrite K2|exact K3].
Qed.

Lemma rooms_advance d F f : rooms F (advance_all d f) = rooms F f.
Proof.
  unfold rooms. f_equal. apply map_ext. intros i. unfold room_at. cbn [f_memories advance_all].
  change (map ?g ?ms) with (g <$> ms). rewrite list_lookup_fmap. by destruct (f_memories f !! i).
Qed.

Lemma rooms_nonneg F f : 0 <= rooms F f.
Proof.
  unfold rooms. induction F as [|i F IH]; cbn; [lia|]. assert (0 <= room_at f i); [|lia].
  unfold room_at. destruct (f_memories f !! i); unfold room; lia.
Qed.

Lemma sum_le (g h : nat -> Z) F : (forall i, g i <= h i) -> foldr Z.add 0 (map g F) <= foldr Z.add 0 (map h F).
Proof. intros H. induction F as [|i F IH]; cbn; [lia|]. specialize (H i). lia. Qed.
Lemma sum_lt (g h : nat -> Z) F i : (forall j, g j <= h j) -> i ∈ F -> g i + 1 <= h i ->
  foldr Z.add 0 (map g F) + 1 <= foldr Z.add 0 (map h F).
Proof.
  intros H Hi Hlt. induction F as [|j F IH]; [by apply elem_of_nil in Hi|]. cbn. apply elem_of_cons in Hi as [<-|Hi].
  - pose proof (sum_le g h F H). lia.
  - specialize (IH Hi). specialize (H j). lia.
Qed.

Lemma serve_spends F q f n : 0 <= n -> ready (n + 1) f -> in_bucket l b (clock (f_redis f)) ->
  (answers (q_env q) = false -> q_process q ∈ F) ->
  let '(f', k) := serve q f in
  ready n f' /\ clock (f_redis f') = clock (f_redis f) /\
  Z.of_nat k + room in_redis (f_redis f') + rooms F f' <= room in_redis (f_redis f) + rooms F f.
Proof.
  intros Hn [H1 H2 H3] Hin HF. unfold serve. destruct (f_memories f !! q_process q) as [m|] eqn:Em.
  2: { split_and!; [|done|lia]. split; [done|lia|]. eapply Forall_impl; [exact H3|]. intros ? (? & ? & ?). split_and!; [done|done|lia]. }
  destruct (Forall_lookup_1 _ _ _ _ H3 Em) as (K1 & K2 & K3).
  pose proof (rl_grows (q_env q) (State (f_redis f) m) H1 K1 Hin K2) as Hg. cbn [st_redis st_memory] in Hg.
  destruct (rl l (q_env q) client (State (f_redis f) m)) as [st r]. destruct Hg as (G1 & G2 & Hr); [lia|lia|].
  assert (M1 : count in_redis (f_redis f) <= count in_redis (st_redis st) <= count in_redis (f_redis f) + 1) by apply G1.
  assert (M2 : count client (m_store m) <= count client (m_store (st_memory st)) <= count client (m_store m) + 1) by apply G2.
  assert (Hle : forall i, room_at (Fleet (st_redis st) (<[q_process q := st_memory st]> (f_memories f))) i <= room_at f i).
  { intros i. unfold room_at. cbn [f_memories]. destruct (decide (i = q_process q)) as [->|Hi].
    - rewrite list_lookup_insert_eq, Em by (by eapply lookup_lt_Some). unfold room. lia.
    - by rewrite list_lookup_insert_ne. }
  split_and!; [|exact (g_clock _ _ _ _ _ G1)|].
  - split; cbn [f_redis f_memories]; [by eapply grown_sound|lia|]. apply Forall_insert.
    + eapply Forall_impl; [exact H3|]. intros x (? & Hx & ?). split_and!; [done| |lia]. rewrite Hx. symmetry. exact (g_clock _ _ _ _ _ G1).
    + pose proof (g_clock _ _ _ _ _ G1) as C1. pose proof (g_clock _ _ _ _ _ G2) as C2. cbn [st_redis st_memory] in C1, C2.
      split_and!; [by eapply grown_sound|congruence|lia].
  - cbn [f_redis]. unfold rooms. pose proof (sum_le _ _ F Hle) as Hsum. destruct r; cbn [admits]; [|unfold room in *; lia..].
    destruct (Hr eq_refl) as [[E1 E2]|(Ha & E1 & E2)]; [unfold room in *; lia|].
    pose proof (sum_lt _ _ F (q_process q) Hle (HF Ha)) as Hlt. unfold room in *. unfold room_at in Hlt at 1 2. cbn [f_memories] in Hlt.
    rewrite list_lookup_insert_eq, Em in Hlt by (by eapply lookup_lt_Some). unfold room in Hlt. lia.
Qed.

Lemma admitted_spends F qs : forall f, ready (Z.of_nat (length qs)) f -> in_bucket l b (clock (f_redis f)) ->
  Forall (fun q => 0 <= q_pause q) qs -> in_bucket l b (clock (f_redis f) + foldr Z.add 0 (map q_pause qs)) ->
  Forall (fun q => answers (q_env q) = false -> q_process q ∈ F) qs ->
  Z.of_nat (admitted qs f) <= room in_redis (f_redis f) + rooms F f.
Proof.
  induction qs as [|q qs IH]; intros f Hr Hin Hp Hend HF.
  { pose proof (rooms_nonneg F f). cbn. unfold room. lia. }
  apply Forall_cons in Hp as [Hd Hp]. apply Forall_cons in HF as [Hq HF]. cbn [map foldr length] in *.
  pose proof (pauses_nonneg (map q_pause qs) ltac:(by apply Forall_map)) as Hds.
  assert (Hin' : in_bucket l b (clock (f_redis (advance_all (q_pause q) f)))) by (cbn; unfold in_bucket in *; lia).
  pose proof (serve_spends F q (advance_all (q_pause q) f) (Z.of_nat (length qs)) ltac:(lia)) as Hs.
  cbn [admitted]. destruct (serve q (advance_all (q_pause q) f)) as [f' k].
  destruct Hs as (R & C & S); [apply ready_advance; by rewrite Nat2Z.inj_succ in Hr|done|done|].
  rewrite rooms_advance in S. change (room in_redis (f_redis (advance_all (q_pause q) f))) with (room in_redis (f_redis f)) in S.
  specialize (IH f' R). rewrite C in IH. cbn [f_redis advance_all clock tick] in IH.
  rewrite <- Z.add_assoc in IH. specialize (IH Hin' Hp Hend HF). lia.
Qed.
End Bucket.

(** A bucket begins: no store has a count for it yet, and the counts of the one
    before are below a million. *)
Definition fresh (b : Z) (f : fleet) : Prop :=
  store (f_redis f) !! key_of l client b = None /\ small_held (key_of l client (b - 1)) (f_redis f) /\
  Forall (fun m => clock (m_store m) = clock (f_redis f) /\ store (m_store m) !! memory_key b = None /\
                   small_held (memory_key (b - 1)) (m_store m)) (f_memories f).

(** C27: of one client's requests within one bucket, in whatever rhythm they
    come, whichever process serves each and however Redis fails, at most [max]
    are let through on the count in Redis, and at most [max] more by each
    process at which some request was not answered by Redis; so at most [max]
    while Redis answers.  (Doubles and their rounding included; the requests are
    fewer than 2^30, the clocks of the processes agree and stay below 2^52
    milliseconds, and Redis does not lose what it has counted.) *)
Theorem bucket_admissions_bounded b F qs f : 1 <= b -> (b + 1) * windowMs l < 2 ^ 52 -> 0 <= max_ l ->
  fresh b f -> Z.of_nat (length qs) < 2 ^ 30 ->
  in_bucket l b (clock (f_redis f)) -> Forall (fun q => 0 <= q_pause q) qs ->
  in_bucket l b (clock (f_redis f) + foldr Z.add 0 (map q_pause qs)) ->
  Forall (fun q => answers (q_env q) = false -> q_process q ∈ F) qs ->
  Z.of_nat (admitted qs f) <= max_ l * (1 + Z.of_nat (length F)).
Proof.
  intros Hb Hmax Hm (F1 & F2 & F3) Hlen Hin Hp Hend HF.
  assert (Hz : forall c r, store r !! bucket_key c (of_Z b) = None -> lasting ((b + 1) * windowMs l) (bucket_key c (of_Z b)) r /\ count b c r = 0).
  { intros c r E. unfold lasting, count, held_count. by rewrite E. }
  destruct (Hz _ _ F1) as [Z1 Z2].
  assert (Hr : ready b (Z.of_nat (length qs)) f).
  { split; [by split|lia|]. eapply Forall_impl; [exact F3|]. intros m (K1 & K2 & K3). destruct (Hz _ _ K2) as [Y1 Y2]. split_and!; [by split|done|lia]. }
  pose proof (admitted_spends b Hb Hmax F qs f Hr Hin Hp Hend HF) as H.
  assert (rooms b F f <= max_ l * Z.of_nat (length F)).
  { clear - Hm F3 Hz. unfold rooms. induction F as [|i F IH]; cbn [map foldr length]; [lia|].
    assert (room_at b f i <= max_ l); [|lia]. unfold room_at. destruct (f_memories f !! i) as [m|] eqn:E; [|lia].
    destruct (Forall_lookup_1 _ _ _ _ F3 E) as (_ & K & _). destruct (Hz _ _ K) as [_ Y]. unfold room. lia. }
  unfold room in H. lia.
Qed.
End Fleet.

(** ** Executions *)

Definition empty_state (now : Z) (maxKeys : nat) : state := State (Redis ∅ now) (Memory (Redis ∅ now) maxKeys).

(** Two processes; after eleven requests Redis is away. *)
Definition two_processes : fleet := Fleet (Redis ∅ 900000) [Memory (Redis ∅ 900000) 10; Memory (Redis ∅ 900000) 10].
Definition outage : list request :=
  repeat (Request 5 0 healthy) 11 ++ repeat (Request 5 0 no_redis) 11 ++ repeat (Request 5 1 no_redis) 11.

Lemma bucket_admissions_bounded_witness :
  Z.of_nat (admitted strictLimiter "10.0.0.1" outage two_processes) <= 30.
Proof.
  apply (bucket_admissions_bounded strictLimiter "10.0.0.1" ltac:(vm_compute; split; reflexivity) eq_refl 1 [0%nat; 1%nat] outage two_processes).
  - discriminate.
  - reflexivity.
  - discriminate.
  - split; [reflexivity|]. split; [vm_compute; split; [discriminate|reflexivity]|].
    repeat constructor; vm_compute; discriminate.
  - reflexivity.
  - split; [discriminate|reflexivity].
  - unfold outage. apply Forall_app; split; [|apply Forall_app; split]; apply List.Forall_forall; intros q Hq;
      apply repeat_spec in Hq; subst q; discriminate.
  - vm_compute. split; [discriminate|reflexivity].
  - unfold outage. apply Forall_app; split; [|apply Forall_app; split]; apply List.Forall_forall; intros q Hq;
      apply repeat_spec in Hq; subst q; intros H; [discriminate H|constructor|constructor; constructor].
Defined.

(** The bound is reached: an outage in the middle of a bucket gives the client
    a new allowance at each process. *)
Theorem outage_renews_allowance : admitted strictLimiter "10.0.0.1" outage two_processes = 30%nat.
Proof. vm_compute. reflexivity. Qed.

(** Ten requests at the end of a bucket, and nine spread over the next: nineteen
    of a limit of ten pass within one window of fifteen minutes. *)
Definition burst : list Z := 899999 :: repeat 0 9 ++ [90001; 90000; 90000; 90000; 90000; 90000; 90000; 90000; 90000].
Theorem trailing_window_nearly_doubles :
  foldr Z.add 0 (tail burst) < windowMs strictLimiter /\
  served strictLimiter "10.0.0.1" burst (empty_state 900000 10) = 19%nat.
Proof. vm_compute. split; reflexivity. Qed.

(** A school that obeys Retry-After after its first manual synchronisation. *)
Definition obey (st : state) (r : reply) : Z :=
  match r with TooMany (Fin q) => 1000 * Qfloor q | _ => windowMs syncLimiter end.
Fixpoint obedient (n : nat) (st : state) : list bool :=
  match n with
  | O => []
  | S n => let '(st', r) := rl syncLimiter healthy "sync:SCH-A" st in
           (match r with Next => true | _ => false end) :: obedient n (advance (obey st' r) st')
  end.
Theorem obedient_school_starves : obedient 6 (empty_state 120500 10) = [true; false; false; false; false; false].
Proof. vm_compute. reflexivity. Qed.

(** The process store throws when it is full: while Redis is away, a request of a
    client that is not in it gets no answer at all. *)
Theorem full_store_leaves_request_unanswered :
  let st1 := (rl strictLimiter no_redis "10.0.0.1" (empty_state 900000 1)).1 in
  (rl strictLimiter no_redis "10.0.0.2" st1).2 = Crash.
Proof. vm_compute. reflexivity. Qed.
End RateLimiter.
