(* ===== verification/FeeEngine.v ===== *)
(** The dynamic fee engine: backend/src/services/feeAdjustmentEngine.js.  Rules with
    conditions, kept in descending priority and applied to a running fee in
    decimals; one engine per school. *)

From Stdlib Require Import Ascii ZArith QArith Qround Qabs Qminmax Lia Lqa Sorting.Sorted.
From stdpp Require Import base strings gmap list.
From S2P Require Import Prelude JsNumber JsString StellarAmount DecimalLib Money.
Local Open Scope string_scope.
Local Open Scope Z_scope.
Local Open Scope list_scope.

Module FeeEngine.

(** ** Data *)

Record context := Context_ {
  isEarly : bool; isLate : bool; userType : string; totalPaymentsThisMonth : number;
  promoCode : string; baseAmount : number }.

(** [r_isFixed] is [rule.isFixed === true]; an absent description is empty. *)
Record rule := Rule {
  r_id : string; r_name : string; r_type : string; r_condition : context -> bool;
  r_value : number; r_priority : number; r_isFixed : bool; r_description : string }.

Record adjustment := Adjustment {
  a_ruleName : string; a_type : string; a_value : number;
  amountAdjusted : number; finalFeeAfterRule : number; a_reason : string }.

Record outcome := Outcome {
  baseFee : number; finalFee : number; adjustments : list adjustment;
  effectiveRate : number; totalAdjustments : nat; clamped : bool }.

(** [(a, b) => b.priority - a.priority]; a comparator's NaN counts as zero. *)
Definition priority_cmp (a b : rule) : Z := num_sign (num_sub (r_priority b) (r_priority a)).
Definition sort_rules (l : list rule) : list rule := js_sort priority_cmp l.

Definition loadDefaultRules : list rule :=
  sort_rules
    [Rule "early-payment" "Early Payment Discount" "discount" isEarly (of_Z 15) (of_Z 10) false
       "15% discount for payments made at least 7 days in advance";
     Rule "student-discount" "Student Discount" "discount" (fun c => bool_decide (userType c = "student")) (of_Z 20) (of_Z 8) false
       "20% discount for verified students";
     Rule "late-penalty" "Late Payment Penalty" "penalty" isLate (of_Z 12) (of_Z 15) false
       "12% penalty for late payments";
     Rule "volume-discount" "Volume Discount" "discount" (fun c => num_ge (totalPaymentsThisMonth c) (of_Z 3)) (of_Z 10) (of_Z 12) false
       "10% discount for 3 or more payments in a month";
     Rule "promo-edu2026" "Promo Code Discount" "discount"
       (fun c => str_truthy (promoCode c) && bool_decide (toUpperCase (promoCode c) = "EDU2026")) (of_Z 25) (of_Z 5) false
       "Special 25% discount with promo code EDU2026"].

(** [r] is an object whose [value] is a number and whose [condition] is a
    function. *)
Definition addRule (r : rule) (rules : list rule) : result string (list rule) :=
  if negb (str_truthy (r_id r)) then Throw "rule.id is required" else
  if negb (str_truthy (r_name r)) then Throw "rule.name is required" else
  if negb (bool_decide (r_type r ∈ ["discount"; "penalty"])) then Throw "rule.type must be 'discount' or 'penalty'" else
  if num_lt (r_value r) (of_Z 0) then Throw "rule.value must be a non-negative number" else
  Ok (sort_rules (rules ++ [r])).

(** ** Calculation *)

Section Calculation.
Context `{DL : DecimalLib}.

Definition rule_is_fixed (r : rule) : bool :=
  r_isFixed r || starts_with (chars "fixed") (chars (toLowerCase (r_description r))).

Definition adjustment_amount (currentFee : dec) (r : rule) : dec :=
  let ruleValue := dec_of_number (r_value r) in
  let percentage := dec_div (dec_mul currentFee ruleValue) (dec_of_number (of_Z 100)) in
  if bool_decide (r_type r = "discount")
  then dec_negated (if rule_is_fixed r then ruleValue else percentage)
  else if bool_decide (r_type r = "penalty")
  then (if rule_is_fixed r then ruleValue else percentage)
  else ruleValue.

Definition to_cents (d : dec) : number := dec_toNumber (dec_toDP 2 d).

Fixpoint apply_rules (rules : list rule) (ctx : context) (currentFee : dec) (adjs : list adjustment)
  : dec * list adjustment :=
  match rules with
  | [] => (currentFee, adjs)
  | r :: rest =>
    if r_condition r ctx then
      let amount := adjustment_amount currentFee r in
      let currentFee := dec_plus currentFee amount in
      apply_rules rest ctx currentFee
        (adjs ++ [Adjustment (r_name r) (r_type r) (r_value r) (to_cents (dec_abs amount)) (to_cents currentFee) (r_description r)])
    else apply_rules rest ctx currentFee adjs
  end.

Definition calculateFee (rules : list rule) (ctx : context) : outcome :=
  let base := dec_of_number (num_or (baseAmount ctx) (of_Z 0)) in
  let '(currentFee, adjs) := apply_rules rules ctx base [] in
  let zero := dec_of_number (of_Z 0) in
  let final := dec_max zero currentFee in
  let rate := if dec_gt base zero
              then to_cents (dec_mul (dec_div final base) (dec_of_number (of_Z 100))) else of_Z 100 in
  Outcome (to_cents base) (to_cents final) adjs rate (length adjs) (dec_lt currentFee zero).

(** ** The reference: rationals *)

Definition ref_amount (fee v : Q) (r : rule) : Q :=
  let x := if rule_is_fixed r then v else (fee * v / 100)%Q in
  if bool_decide (r_type r = "discount") then (- x)%Q else x.

(** The running fee over rules with their values, and whether every step is within
    the twenty digits decimal.js keeps. *)
Fixpoint ref_run (rules : list (rule * Q)) (fee : Q) : Q :=
  match rules with [] => fee | (r, v) :: rest => ref_run rest (fee + ref_amount fee v r) end.
Fixpoint fits_run (rules : list (rule * Q)) (fee : Q) : Prop :=
  match rules with
  | [] => True
  | (r, v) :: rest => fits20 (fee * v) /\ fits20 (fee * v / 100) /\ fits20 (fee + ref_amount fee v r) /\
                      fits_run rest (fee + ref_amount fee v r)
  end.

Definition values_of (rules : list rule) (vs : list Q) : Prop :=
  Forall2 (fun r v => denotes (dec_of_number (r_value r)) v /\ r_type r ∈ ["discount"; "penalty"]) rules vs.

Definition matching (ctx : context) (rules : list rule) : list rule := List.filter (fun r => r_condition r ctx) rules.

Lemma engine_plus_denotes d e p q : denotes d p -> denotes e q -> fits20 (p + q) -> denotes (dec_plus d e) (p + q).
Proof.
  intros (p' & Hv & Hp)%denotes_val (q' & Hw & Hq)%denotes_val Hf.
  assert (fits20 (p' + q')) as Hf' by (by rewrite Hp, Hq).
  unfold denotes. etransitivity; [exact (dec_plus_exact d e p' q' Hv Hw Hf')|]. simpl. by rewrite Hp, Hq.
Qed.

Lemma mul_denotes d e p q : denotes d p -> denotes e q -> fits20 (p * q) -> denotes (dec_mul d e) (p * q).
Proof.
  intros (p' & Hv & Hp)%denotes_val (q' & Hw & Hq)%denotes_val Hf.
  assert (fits20 (p' * q')) as Hf' by (by rewrite Hp, Hq).
  unfold denotes. etransitivity; [exact (dec_mul_exact d e p' q' Hv Hw Hf')|]. simpl. by rewrite Hp, Hq.
Qed.

Lemma div_denotes d e p q : denotes d p -> denotes e q -> ~ (q == 0)%Q -> fits20 (p / q) -> denotes (dec_div d e) (p / q).
Proof.
  intros (p' & Hv & Hp)%denotes_val (q' & Hw & Hq)%denotes_val Hz Hf.
  assert (fits20 (p' / q')) as Hf' by (by rewrite Hp, Hq).
  assert (~ (q' == 0)%Q) as Hz' by (by rewrite Hq).
  unfold denotes. etransitivity; [exact (dec_div_exact d e p' q' Hv Hw Hz' Hf')|]. simpl. by rewrite Hp, Hq.
Qed.

Lemma negated_denotes d p : denotes d p -> denotes (dec_negated d) (- p).
Proof.
  intros (p' & Hv & Hp)%denotes_val. unfold denotes. etransitivity; [exact (dec_negated_exact d p' Hv)|].
  simpl. by rewrite Hp.
Qed.

Lemma amount_denotes d fee r v : denotes d fee -> denotes (dec_of_number (r_value r)) v -> r_type r ∈ ["discount"; "penalty"] ->
  fits20 (fee * v) -> fits20 (fee * v / 100) -> denotes (adjustment_amount d r) (ref_amount fee v r).
Proof.
  intros Hd Hv Ht Hm Hq.
  assert (denotes (dec_div (dec_mul d (dec_of_number (r_value r))) (dec_of_number (of_Z 100))) (fee * v / 100)) as Hp.
  { apply div_denotes; [by apply mul_denotes| |discriminate|done].
    exact (dec_of_number_int 100 ltac:(lia)). }
  unfold adjustment_amount, ref_amount.
  rewrite !elem_of_cons in Ht. destruct Ht as [->|[->|Ht]]; [| |by apply elem_of_nil in Ht]; cbn.
  - apply negated_denotes. by destruct (rule_is_fixed r).
  - by destruct (rule_is_fixed r).
Qed.

Lemma apply_rules_filter rules ctx d adjs :
  apply_rules rules ctx d adjs = apply_rules (matching ctx rules) ctx d adjs.
Proof.
  revert d adjs. induction rules as [|r rules IH]; intros d adjs; simpl; [done|].
  destruct (r_condition r ctx) eqn:E; simpl; rewrite ?E; apply IH.
Qed.

Lemma apply_rules_exact rules vs ctx : values_of rules vs -> Forall (fun r => r_condition r ctx = true) rules ->
  forall d fee adjs, denotes d fee -> fits_run (zip rules vs) fee ->
  denotes (apply_rules rules ctx d adjs).1 (ref_run (zip rules vs) fee) /\
  length (apply_rules rules ctx d adjs).2 = (length adjs + length rules)%nat.
Proof.
  induction 1 as [|r v rules vs [Hv Ht] Hvs IH]; intros Hc d fee adjs Hd Hf; simpl; [split; [done|lia]|].
  apply Forall_cons in Hc as [Hr Hc]. rewrite Hr. destruct Hf as (H1 & H2 & H3 & H4).
  destruct (IH Hc (dec_plus d (adjustment_amount d r)) (fee + ref_amount fee v r)%Q
    (adjs ++ [Adjustment (r_name r) (r_type r) (r_value r) (to_cents (dec_abs (adjustment_amount d r)))
       (to_cents (dec_plus d (adjustment_amount d r))) (r_description r)])) as [IH1 IH2].
  - apply engine_plus_denotes; [done| |done]. by apply amount_denotes.
  - done.
  - split; [done|]. rewrite IH2, length_app. simpl. lia.
Qed.

(** While no step needs more than twenty digits, the fee is the one of exact
    arithmetic: every matching rule, in order of priority, moves the running fee,
    and the result is clamped at zero and rounded to cents once. *)
Theorem engine_fee_exact rules ctx vs base :
  values_of (matching ctx rules) vs -> denotes (dec_of_number (num_or (baseAmount ctx) (of_Z 0))) base ->
  fits_run (zip (matching ctx rules) vs) base ->
  finalFee (calculateFee rules ctx) = to_double (round_half_up 2 (Qmax 0 (ref_run (zip (matching ctx rules) vs) base))) /\
  totalAdjustments (calculateFee rules ctx) = length (matching ctx rules).
Proof.
  intros Hvs Hb Hf. unfold calculateFee. rewrite apply_rules_filter.
  assert (Forall (fun r => r_condition r ctx = true) (matching ctx rules)) as Hc.
  { apply Forall_forall. intros r. unfold matching. rewrite elem_of_filterb. tauto. }
  destruct (apply_rules_exact _ _ ctx Hvs Hc _ _ [] Hb Hf) as [H1 H2].
  destruct (apply_rules (matching ctx rules) ctx _ []) as [d adjs]. cbn [fst snd finalFee totalAdjustments] in *.
  split; [|done]. unfold to_cents. apply toNumber_denotes, toDP_denotes, max_denotes; [|done]. apply zero_denotes.
Qed.
End Calculation.

(** ** Priorities *)

Definition ranked (r : rule) : Prop := exists p, r_priority r = Fin p /\ on_grid p.
Definition higher_first (a b : rule) : Prop :=
  forall p q, r_priority a = Fin p -> r_priority b = Fin q -> (q <= p)%Q.

Lemma engine_priority_cmp_le a b p q : r_priority a = Fin p -> r_priority b = Fin q -> on_grid p -> on_grid q ->
  priority_cmp a b <= 0 <-> (q <= p)%Q.
Proof.
  intros Ha Hb Hp Hq. unfold priority_cmp. rewrite Ha, Hb, num_sub_sign by done.
  destruct (Qcompare_spec q p) as [E|E|E]; split; intros; try lia; lra.
Qed.

Lemma engine_priority_total a b : ranked a -> ranked b -> priority_cmp a b <= 0 \/ priority_cmp b a <= 0.
Proof.
  intros (p & Hp & Gp) (q & Hq & Gq). rewrite (engine_priority_cmp_le a b p q), (engine_priority_cmp_le b a q p) by done.
  destruct (Qlt_le_dec p q); [right; lra|by left].
Qed.

Lemma engine_priority_trans a b c : ranked a -> ranked b -> ranked c ->
  priority_cmp a b <= 0 -> priority_cmp b c <= 0 -> priority_cmp a c <= 0.
Proof.
  intros (p & Hp & Gp) (q & Hq & Gq) (r & Hr & Gr).
  rewrite (engine_priority_cmp_le a b p q), (engine_priority_cmp_le b c q r), (engine_priority_cmp_le a c p r) by done. intros; lra.
Qed.

(** Rules are always in descending priority: a rule that was added is applied after
    every rule of higher priority and before every rule of lower priority. *)
Theorem rules_stay_in_priority_order added : Forall ranked added ->
  forall rules, Forall ranked rules -> StronglySorted (cmp_le priority_cmp) rules ->
  match foldl (fun acc r => rs ← acc; addRule r rs) (Ok rules) added with
  | Ok rs => Forall ranked rs /\ StronglySorted (cmp_le priority_cmp) rs /\ rs ≡ₚ rules ++ added
  | Throw _ => True
  end.
Proof.
  induction 1 as [|r added Hr Hadded IH]; intros rules Hrules Hs; simpl; [by rewrite app_nil_r|].
  assert (Hthrow : forall e, foldl (fun acc r => rs ← acc; addRule r rs) (Throw e : result string (list rule)) added = Throw e).
  { intros e. clear. induction added as [|x added IH]; [done|apply IH]. }
  destruct (addRule r rules) as [rs|e] eqn:E; [|by rewrite Hthrow].
  assert (rs = sort_rules (rules ++ [r])) as -> by (revert E; unfold addRule; repeat (case_match; try done); congruence).
  assert (Forall ranked (rules ++ [r])) as Hall by (apply Forall_app; auto).
  specialize (IH (sort_rules (rules ++ [r]))). unfold sort_rules in *.
  assert (Forall ranked (js_sort priority_cmp (rules ++ [r]))) as H1 by (by rewrite js_sort_perm).
  specialize (IH H1 (js_sort_sorted _ ranked engine_priority_total engine_priority_trans _ Hall)).
  case_match; [|done]. destruct IH as (I1 & I2 & I3). split; [done|]. split; [done|].
  rewrite I3, js_sort_perm, <- app_assoc. done.
Qed.

(** ** One engine per school *)

Abbreviation registry := (gmap string (list rule)).

Definition getEngineForSchool (schoolId : string) (reg : registry) : result string (registry * list rule) :=
  if negb (str_truthy schoolId) then Throw "schoolId is required and must be a string" else
  match reg !! schoolId with
  | Some rules => Ok (reg, rules)
  | None => Ok (<[schoolId := loadDefaultRules]> reg, loadDefaultRules)
  end.
Definition clearEngineCache (_ : registry) : registry := ∅.

Definition addRuleForSchool (schoolId : string) (r : rule) (reg : registry) : result string registry :=
  '(reg, rules) ← getEngineForSchool schoolId reg;
  rules ← addRule r rules; Ok (<[schoolId := rules]> reg).

(** A rule of one school is never seen by another. *)
Theorem school_rules_isolated s1 s2 r reg reg' : s1 <> s2 -> addRuleForSchool s1 r reg = Ok reg' ->
  snd <$> getEngineForSchool s2 reg' = snd <$> getEngineForSchool s2 reg.
Proof.
  intros Hne. unfold addRuleForSchool, getEngineForSchool at 1.
  destruct (str_truthy s1); [|done]. cbn [negb].
  destruct (reg !! s1); cbn [mbind result_bind]; (destruct (addRule _ _); [|done]); cbn [mbind result_bind]; intros [= <-];
    unfold getEngineForSchool; rewrite ?lookup_insert_ne by done; by repeat case_match.
Qed.

(** ** The example of the module's comment *)

Definition scholarship (prio : Z) : rule :=
  Rule "student-discount" "Scholarship" "discount" (fun _ => true) (of_Z 20) (of_Z prio) false "20% discount".
Definition surcharge (prio : Z) : rule :=
  Rule "surcharge" "Surcharge" "penalty" (fun _ => true) (of_Z 100) (of_Z prio) true "flat".
Definition ctx0 : context := Context_ false false "" (of_Z 0) "" (of_Z 1000).

Lemma engine_fee_exact_witness :
  finalFee (@calculateFee exact_decimal (sort_rules [scholarship 8; surcharge 20]) ctx0) =
  to_double (round_half_up 2 (Qmax 0 (ref_run [(surcharge 20, 100%Q); (scholarship 8, 20%Q)] 1000))).
Proof.
  assert (Hfit : forall z, Z.abs z < 10 ^ 20 -> forall q, (q == inject_Z z)%Q -> fits20 q).
  { intros z Hz q Hq. rewrite Hq. apply fits20_int. exact Hz. }
  refine (proj1 (@engine_fee_exact exact_decimal (sort_rules [scholarship 8; surcharge 20]) ctx0 [100%Q; 20%Q] 1000%Q _ _ _)).
  - replace (matching ctx0 _) with [surcharge 20; scholarship 8] by (vm_compute; reflexivity).
    repeat (constructor; [split; [vm_compute; reflexivity|cbn; set_solver]|]). constructor.
  - vm_compute. reflexivity.
  - cbn [matching]. repeat split.
    + apply (Hfit 100000); vm_compute; reflexivity.
    + apply (Hfit 1000); vm_compute; reflexivity.
    + apply (Hfit 1100); vm_compute; reflexivity.
    + apply (Hfit 22000); vm_compute; reflexivity.
    + apply (Hfit 220); vm_compute; reflexivity.
    + apply (Hfit 880); vm_compute; reflexivity.
Defined.

(** Surcharge first gives 880, scholarship first 900, as the comment says. *)
Theorem priority_changes_fee :
  finalFee (@calculateFee exact_decimal (sort_rules [scholarship 8; surcharge 20]) ctx0) = of_Z 880 /\
  finalFee (@calculateFee exact_decimal (sort_rules [scholarship 20; surcharge 8]) ctx0) = of_Z 900.
Proof. split; vm_compute; reflexivity. Qed.

(** A value that is not a number passes the check for negative values, and makes
    every fee NaN. *)
Theorem nan_value_accepted :
  exists rs, addRule (Rule "x" "X" "discount" (fun _ => true) NaN (of_Z 1) true "") [] = Ok rs /\
    finalFee (@calculateFee exact_decimal rs ctx0) = NaN.
Proof. eexists. split; [reflexivity|]. vm_compute. reflexivity. Qed.
End FeeEngine.
