(* ===== verification/Users.v ===== *)
(** Managing users: backend/src/controllers/userController.js.  Super-admin and
    school-owner handlers, invitations and password resets, with the session
    store of Login and the token check of Auth.  Hashing is a parameter. *)

From Stdlib Require Import Ascii ZArith Lia.
From stdpp Require Import base strings gmap sets list.
From S2P Require Import Prelude JsString DistributedLock Auth Mfa Login.
Local Open Scope string_scope.
Local Open Scope Z_scope.
Local Open Scope list_scope.

Module Users.

Definition MIN_PASSWORD_LENGTH : nat := 12.
Definition DAY_MS : Z := 24 * 60 * 60 * 1000.

Record user := User {
  u_id : string; u_email : string; u_passwordHash : string; u_schoolId : string;
  u_roles : list string; u_isActive : bool; u_tokenVersion : Z;
  u_invitation : option (string * Z);     (** token hash and expiry *)
  u_reset : option (string * Z) }.

Record state := State { users : list user; store : SessionStore.store; audits : list (string * string) }.

Inductive reply := Ok_ (status : Z) | Listed (l : list user) | Fail (status : Z) (code : string).

Definition set_users (us : list user) (st : state) : state := State us (store st) (audits st).
Definition log (action target : string) (st : state) : state := State (users st) (store st) (audits st ++ [(action, target)]).

Definition findById (id : string) (st : state) : option user := List.find (fun u => bool_decide (u_id u = id)) (users st).
Definition findByEmail (email : string) (st : state) : option user := List.find (fun u => bool_decide (u_email u = email)) (users st).

(** [findByIdAndUpdate]. *)
Definition update (id : string) (f : user -> user) (st : state) : state :=
  set_users (map (fun u => if bool_decide (u_id u = id) then f u else u) (users st)) st.

Definition validatePassword (password : string) : bool := (MIN_PASSWORD_LENGTH <=? String.length password)%nat.
Definition normalize_email (e : string) : string := toLowerCase (str_trim e).

Definition all_roles : list string := ["super_admin"; "owner"; "staff"; "read_only"].
Definition school_roles : list string := ["owner"; "staff"; "read_only"].
Definition roles_valid (valid roles : list string) : bool := forallb (fun r => bool_decide (r ∈ valid)) roles.

(** Bump the token version; the revocation of refresh tokens that follows calls
    [listUserSessions], which the session store does not have, and is abandoned. *)
Definition revokeUserSessions (id : string) (st : state) : state :=
  update id (fun u => User (u_id u) (u_email u) (u_passwordHash u) (u_schoolId u) (u_roles u) (u_isActive u)
                        (u_tokenVersion u + 1) (u_invitation u) (u_reset u)) st.
Lemma listUserSessions_missing : SessionStore.call "listUserSessions" = Throw tt.
Proof. reflexivity. Qed.

Definition revokeAllUserSessions (id : string) (st : state) : state :=
  State (users st) (SessionStore.revokeAllUserSessions id (store st)).1 (audits st).

(** Optional changes, as [$set] applies them. *)
Definition set_fields (roles : option (list string)) (isActive : option bool) (u : user) : user :=
  User (u_id u) (u_email u) (u_passwordHash u) (u_schoolId u) (default (u_roles u) roles) (default (u_isActive u) isActive)
    (u_tokenVersion u) (u_invitation u) (u_reset u).

Section Handlers.
Context `{CR : Mfa.Crypto} (sha256 : string -> string) (valid_email : string -> bool).

Definition hashToken (token : string) : string := sha256 token.

(** An invited user: inactive, with a random password and a token for a week. *)
Definition invited (id email schoolId : string) (roles : list string) (tempPassword salt token : string) (now : Z) : user :=
  User id email (Mfa.bcrypt_hash tempPassword salt) schoolId roles false 0 (Some (hashToken token, now + 7 * DAY_MS)) None.

(** What a request draws: the document's id, the temporary password, salt and token. *)
Record draws := Draws { d_id : string; d_temp : string; d_salt : string; d_token : string }.

(** *** Super-admin *)

Definition createUser (email schoolId : string) (roles : list string) (d : draws) (now : Z) (st : state) : state * reply :=
  if negb (str_truthy email && str_truthy schoolId && negb (bool_decide (roles = [])))
  then (st, Fail 400 "VALIDATION_ERROR") else
  if negb (roles_valid all_roles roles) then (st, Fail 400 "INVALID_ROLES") else
  match findByEmail (normalize_email email) st with
  | Some _ => (st, Fail 409 "USER_EXISTS")
  | None =>
    (log "user_created" (d_id d)
       (set_users (users st ++ [invited (d_id d) (normalize_email email) schoolId roles (d_temp d) (d_salt d) (d_token d) now]) st),
     Ok_ 201)
  end.

(** Newest first; [users] is in order of creation. *)
Definition listUsers (schoolId role : string) (isActive : option string) (st : state) : state * reply :=
  (st, Listed (rev (List.filter (fun u =>
     (negb (str_truthy schoolId) || bool_decide (u_schoolId u = schoolId)) &&
     (negb (str_truthy role) || bool_decide (role ∈ u_roles u)) &&
     match isActive with None => true | Some a => Bool.eqb (u_isActive u) (bool_decide (a = "true")) end) (users st)))).

Definition getUser (id : string) (st : state) : state * reply :=
  match findById id st with
  | None => (st, Fail 404 "NOT_FOUND")
  | Some u => (st, Listed [u])
  end.

Definition revoke_after (id : string) (roles : option (list string)) (isActive : option bool) (st : state) : state :=
  let st := match roles, isActive with None, None => st | _, _ => revokeUserSessions id st end in
  if bool_decide (isActive = Some false) then revokeAllUserSessions id st else st.

Definition updateUser (id : string) (roles : option (list string)) (isActive : option bool) (st : state) : state * reply :=
  match findById id st with
  | None => (st, Fail 404 "NOT_FOUND")
  | Some _ =>
    if match roles with Some rs => negb (roles_valid all_roles rs) | None => false end
    then (st, Fail 400 "INVALID_ROLES") else
    (log "user_updated" id (revoke_after id roles isActive (update id (set_fields roles isActive) st)), Ok_ 200)
  end.

Definition deleteUser (id : string) (st : state) : state * reply :=
  match findById id st with
  | None => (st, Fail 404 "NOT_FOUND")
  | Some _ =>
    let st := revokeUserSessions id st in
    let st := set_users (List.filter (fun u => negb (bool_decide (u_id u = id))) (users st)) st in
    (log "user_deleted" id (revokeAllUserSessions id st), Ok_ 200)
  end.

(** *** School owners; [caller] is the token's school, empty for super-admins *)

Definition foreign (caller schoolId : string) : bool := str_truthy caller && negb (bool_decide (caller = schoolId)).

Definition createSchoolUser (caller schoolId email : string) (roles : list string) (d : draws) (now : Z) (st : state)
  : state * reply :=
  if foreign caller schoolId then (st, Fail 403 "FORBIDDEN") else
  if negb (str_truthy email && negb (bool_decide (roles = []))) then (st, Fail 400 "VALIDATION_ERROR") else
  if bool_decide ("super_admin" ∈ roles) then (st, Fail 403 "FORBIDDEN") else
  if negb (roles_valid school_roles roles) then (st, Fail 400 "INVALID_ROLES") else
  match findByEmail (normalize_email email) st with
  | Some _ => (st, Fail 409 "USER_EXISTS")
  | None =>
    (log "user_created" (d_id d)
       (set_users (users st ++ [invited (d_id d) (normalize_email email) schoolId roles (d_temp d) (d_salt d) (d_token d) now]) st),
     Ok_ 201)
  end.

Definition listSchoolUsers (caller schoolId : string) (st : state) : state * reply :=
  if foreign caller schoolId then (st, Fail 403 "FORBIDDEN") else
  (st, Listed (rev (List.filter (fun u => bool_decide (u_schoolId u = schoolId)) (users st)))).

Definition active_owner (schoolId : string) (u : user) : bool :=
  bool_decide (u_schoolId u = schoolId) && bool_decide ("owner" ∈ u_roles u) && u_isActive u.

(** The checks of an update (the reads), and the writes that follow them. *)
Definition check_update (caller callerId schoolId id : string) (roles : option (list string)) (isActive : option bool)
    (st : state) : option reply :=
  if match roles, isActive with
     | None, None => true
     | Some rs, _ => bool_decide (rs = []) || negb (roles_valid school_roles rs)
     | None, _ => false
     end then Some (Fail 400 "VALIDATION_ERROR") else
  match findById id st with
  | None => Some (Fail 404 "NOT_FOUND")
  | Some u =>
    if negb (bool_decide (u_schoolId u = schoolId)) then Some (Fail 403 "FORBIDDEN") else
    if foreign caller schoolId then Some (Fail 403 "FORBIDDEN") else
    let isSelf := str_truthy callerId && bool_decide (callerId = id) in
    let drops_owner := match roles with Some rs => negb (bool_decide ("owner" ∈ rs)) | None => false end in
    let deactivates := bool_decide (isActive = Some false) in
    if isSelf && drops_owner then Some (Fail 409 "SELF_DEMOTION_FORBIDDEN") else
    if isSelf && deactivates then Some (Fail 409 "SELF_DEACTIVATION_FORBIDDEN") else
    if match roles with Some rs => bool_decide ("super_admin" ∈ rs) | None => false end then Some (Fail 403 "FORBIDDEN") else
    if bool_decide ("owner" ∈ u_roles u) && u_isActive u && (drops_owner || deactivates)
       && (length (List.filter (active_owner schoolId) (users st)) <=? 1)%nat
    then Some (Fail 409 "LAST_OWNER") else None
  end.

Definition apply_update (id : string) (roles : option (list string)) (isActive : option bool) (st : state) : state :=
  log "user_updated" id (revoke_after id roles isActive (update id (set_fields roles isActive) st)).

Definition updateSchoolUser (caller callerId schoolId id : string) (roles : option (list string)) (isActive : option bool)
    (st : state) : state * reply :=
  match check_update caller callerId schoolId id roles isActive st with
  | Some r => (st, r)
  | None => (apply_update id roles isActive st, Ok_ 200)
  end.

(** *** Passwords *)

Definition token_matches (token : string) (now : Z) (t : option (string * Z)) : bool :=
  match t with Some (h, expires) => bool_decide (h = hashToken token) && (now <? expires) | None => false end.

Definition setPassword (token password salt : string) (now : Z) (st : state) : state * reply :=
  if negb (str_truthy token && str_truthy password) then (st, Fail 400 "VALIDATION_ERROR") else
  if negb (validatePassword password) then (st, Fail 400 "WEAK_PASSWORD") else
  match List.find (fun u => token_matches token now (u_invitation u)) (users st) with
  | None => (st, Fail 400 "INVALID_TOKEN")
  | Some u =>
    (log "password_set" (u_id u)
       (update (u_id u) (fun u => User (u_id u) (u_email u) (Mfa.bcrypt_hash password salt) (u_schoolId u) (u_roles u) true
                                     (u_tokenVersion u) None (u_reset u)) st), Ok_ 200)
  end.

Definition requestPasswordReset (email token : string) (now : Z) (st : state) : state * reply :=
  if negb (valid_email (normalize_email email)) then (st, Ok_ 200) else
  match List.find (fun u => bool_decide (u_email u = normalize_email email) && u_isActive u) (users st) with
  | None => (st, Ok_ 200)
  | Some u =>
    (log "password_reset_requested" (u_id u)
       (update (u_id u) (fun u => User (u_id u) (u_email u) (u_passwordHash u) (u_schoolId u) (u_roles u) (u_isActive u)
                                     (u_tokenVersion u) (u_invitation u) (Some (hashToken token, now + 60 * 60 * 1000))) st), Ok_ 200)
  end.

Definition resetPassword (token password salt : string) (now : Z) (st : state) : state * reply :=
  if negb (str_truthy token && str_truthy password) then (st, Fail 400 "VALIDATION_ERROR") else
  if negb (validatePassword password) then (st, Fail 400 "WEAK_PASSWORD") else
  match List.find (fun u => token_matches token now (u_reset u)) (users st) with
  | None => (st, Fail 400 "INVALID_TOKEN")
  | Some u =>
    let st := update (u_id u) (fun u => User (u_id u) (u_email u) (Mfa.bcrypt_hash password salt) (u_schoolId u) (u_roles u)
                                     (u_isActive u) (u_tokenVersion u) (u_invitation u) None) st in
    (log "password_reset" (u_id u) (revokeAllUserSessions (u_id u) (revokeUserSessions (u_id u) st)), Ok_ 200)
  end.
End Handlers.

(** ** What the handlers do to the documents *)

Section Properties.
Context `{CR : Mfa.Crypto} (sha256 : string -> string) (valid_email : string -> bool).

Definition touched (roles : option (list string)) (isActive : option bool) (u : user) : user :=
  let u := set_fields roles isActive u in
  match roles, isActive with
  | None, None => u
  | _, _ => User (u_id u) (u_email u) (u_passwordHash u) (u_schoolId u) (u_roles u) (u_isActive u)
              (u_tokenVersion u + 1) (u_invitation u) (u_reset u)
  end.

Lemma users_log a t st : users (log a t st) = users st. Proof. done. Qed.
Lemma users_revokeAll id st : users (revokeAllUserSessions id st) = users st. Proof. done. Qed.

Lemma map_at_map_at id (f g : user -> user) us : (forall u, u_id (f u) = u_id u) ->
  map (fun u => if bool_decide (u_id u = id) then g u else u) (map (fun u => if bool_decide (u_id u = id) then f u else u) us) =
  map (fun u => if bool_decide (u_id u = id) then g (f u) else u) us.
Proof.
  intros Hf. rewrite map_map. apply map_ext. intros u. destruct (bool_decide (u_id u = id)) eqn:E; rewrite ?Hf, E; done.
Qed.

Lemma apply_update_users id roles isActive st :
  users (apply_update id roles isActive st) = map (fun u => if bool_decide (u_id u = id) then touched roles isActive u else u) (users st).
Proof.
  unfold apply_update, revoke_after. rewrite users_log.
  assert (forall st', users (if bool_decide (isActive = Some false) then revokeAllUserSessions id st' else st') = users st') as ->
    by (intros; by case_bool_decide).
  destruct roles, isActive; cbn [touched]; unfold revokeUserSessions, update, set_users; cbn [users];
    rewrite ?map_at_map_at by done; done.
Qed.

Lemma find_user_spec (f : user -> bool) us u : List.find f us = Some u -> (u ∈ us) /\ f u = true.
Proof. intros H. apply find_some in H as [H1 H2]. split; [by apply list_elem_of_In|done]. Qed.

(** ** A school keeps an owner *)

Definition has_owner (schoolId : string) (st : state) : Prop := exists u, (u ∈ users st) /\ active_owner schoolId u = true.

(** Every handler that writes users.  [LateWrite] is the write of a school's
    update on its own: its checks were passed earlier, and other requests have
    been served since. *)
Inductive request :=
| CreateUser (email schoolId : string) (roles : list string) (d : draws) (now : Z)
| UpdateUser (id : string) (roles : option (list string)) (isActive : option bool)
| DeleteUser (id : string)
| CreateSchoolUser (caller schoolId email : string) (roles : list string) (d : draws) (now : Z)
| UpdateSchoolUser (caller callerId schoolId id : string) (roles : option (list string)) (isActive : option bool)
| LateWrite (id : string) (roles : option (list string)) (isActive : option bool)
| SetPassword (token password salt : string) (now : Z)
| RequestPasswordReset (email token : string) (now : Z)
| ResetPassword (token password salt : string) (now : Z).

Definition serve (q : request) (st : state) : state :=
  match q with
  | CreateUser email schoolId roles d now => (createUser sha256 email schoolId roles d now st).1
  | UpdateUser id roles isActive => (updateUser id roles isActive st).1
  | DeleteUser id => (deleteUser id st).1
  | CreateSchoolUser caller schoolId email roles d now => (createSchoolUser sha256 caller schoolId email roles d now st).1
  | UpdateSchoolUser caller callerId schoolId id roles isActive => (updateSchoolUser caller callerId schoolId id roles isActive st).1
  | LateWrite id roles isActive => apply_update id roles isActive st
  | SetPassword token password salt now => (setPassword sha256 token password salt now st).1
  | RequestPasswordReset email token now => (requestPasswordReset sha256 valid_email email token now st).1
  | ResetPassword token password salt now => (resetPassword sha256 token password salt now st).1
  end.
Definition serve_all (qs : list request) (st : state) : state := foldl (fun st q => serve q st) st qs.

(** The ids the requests draw for new users. *)
Definition drawn (q : request) : list string :=
  match q with CreateUser _ _ _ d _ | CreateSchoolUser _ _ _ _ d _ => [d_id d] | _ => [] end.

(** The user [id] is the school's only active owner, and the change takes the
    role or the activity away. *)
Definition last_owner (s id : string) (st : state) : Prop :=
  exists w, List.filter (active_owner s) (users st) = [w] /\ u_id w = id.
Definition demotes (roles : option (list string)) (isActive : option bool) : Prop :=
  (exists rs, roles = Some rs /\ "owner" ∉ rs) \/ isActive = Some false.
Definition takes_last_owner (s : string) (q : request) (st : state) : Prop :=
  match q with
  | UpdateUser id roles isActive | LateWrite id roles isActive => last_owner s id st /\ demotes roles isActive
  | DeleteUser id => last_owner s id st
  | _ => False
  end.

(** Among two different users there is one with another id. *)
Lemma another_user l id : NoDup (map u_id l) -> (2 <= length l)%nat -> exists u, (u ∈ l) /\ u_id u <> id.
Proof.
  intros Hnd Hl. destruct l as [|a [|b l]]; simpl in Hl; [lia|lia|].
  destruct (decide (u_id a = id)) as [E|E]; [|exists a; split; [constructor|done]].
  exists b. split; [constructor; constructor|]. intros E2. simpl in Hnd. inversion_clear Hnd as [|? ? Ha _].
  apply Ha. rewrite E, E2. constructor.
Qed.

Lemma touched_id roles a u : u_id (touched roles a u) = u_id u.
Proof. by destruct roles, a. Qed.

Lemma touched_active_owner s roles isActive u :
  active_owner s (touched roles isActive u) =
  bool_decide (u_schoolId u = s) && bool_decide ("owner" ∈ default (u_roles u) roles) && default (u_isActive u) isActive.
Proof. by destruct roles, isActive. Qed.

Lemma active_owner_spec s u : active_owner s u = true <-> u_schoolId u = s /\ "owner" ∈ u_roles u /\ u_isActive u = true.
Proof. unfold active_owner. rewrite !andb_true_iff, !bool_decide_eq_true. tauto. Qed.

(** An owner other than [id], or only [id]. *)
Lemma owner_cases s id st : NoDup (map u_id (users st)) -> has_owner s st ->
  (exists u, (u ∈ users st) /\ active_owner s u = true /\ u_id u <> id) \/ last_owner s id st.
Proof.
  intros Hnd (w & Hw & How). assert (Hf : w ∈ List.filter (active_owner s) (users st)) by (by apply elem_of_filterb).
  destruct (Nat.le_gt_cases 2 (length (List.filter (active_owner s) (users st)))) as [Hl|Hl].
  - left. destruct (another_user (List.filter (active_owner s) (users st)) id) as (u & Hu & Hne); [by apply NoDup_map_filterb|done|].
    apply elem_of_filterb in Hu as [H1 H2]. by exists u.
  - destruct (List.filter (active_owner s) (users st)) as [|x [|y l]] eqn:E; cbn in Hl; [by apply elem_of_nil in Hf| |lia].
    apply list_elem_of_singleton in Hf. subst x. destruct (decide (u_id w = id)); [right; by exists w|left; by exists w].
Qed.

Lemma touched_keeps s roles isActive u : active_owner s u = true -> ~ demotes roles isActive -> active_owner s (touched roles isActive u) = true.
Proof.
  intros (Hs & Ho & Ha)%active_owner_spec Hd. rewrite touched_active_owner, !andb_true_iff, !bool_decide_eq_true. split_and!; [done| |].
  - destruct roles as [rs|]; [|done]. cbn. destruct (decide ("owner" ∈ rs)); [done|]. exfalso. apply Hd. left. by exists rs.
  - destruct isActive as [[]|]; [done| |done]. exfalso. apply Hd. by right.
Qed.

Lemma demotes_dec roles isActive : demotes roles isActive \/ ~ demotes roles isActive.
Proof.
  unfold demotes. destruct (decide (isActive = Some false)); [by left; right|]. destruct roles as [rs|].
  - destruct (decide ("owner" ∈ rs)); [right|left; left; by exists rs]. by intros [(? & [= <-] & ?)|].
  - right. by intros [(? & ? & ?)|].
Qed.

(** A write to one user takes the last owner or leaves one. *)
Lemma write_keeps_owner s id roles isActive st : NoDup (map u_id (users st)) -> has_owner s st ->
  has_owner s (apply_update id roles isActive st) \/ (last_owner s id st /\ demotes roles isActive).
Proof.
  intros Hnd Ho. unfold has_owner at 1. rewrite apply_update_users. setoid_rewrite list_elem_of_fmap.
  destruct (owner_cases s id st Hnd Ho) as [(u & Hu & Hau & Hne)|(w & Hf & Hid)].
  - left. exists u. split; [|done]. exists u. split; [by rewrite bool_decide_false|done].
  - destruct (demotes_dec roles isActive) as [Hd|Hd]; [right; split; [by exists w|done]|left].
    assert (Hw : w ∈ List.filter (active_owner s) (users st)) by (rewrite Hf; constructor).
    apply elem_of_filterb in Hw as [Haw Hw]. exists (touched roles isActive w). split; [|by apply touched_keeps].
    exists w. split; [by rewrite bool_decide_true|done].
Qed.

(** The check of the school's route. *)
Lemma check_protects_owner caller callerId schoolId id roles isActive s st : NoDup (map u_id (users st)) ->
  check_update caller callerId schoolId id roles isActive st = None -> last_owner s id st -> ~ demotes roles isActive.
Proof.
  intros Hnd Hc (w & Hf & Hid) Hd.
  assert (Hw : w ∈ List.filter (active_owner s) (users st)) by (rewrite Hf; constructor).
  apply elem_of_filterb in Hw as [Haw Hw]. apply active_owner_spec in Haw as (Hs & Ho & Ha).
  revert Hc. unfold check_update. case_match; [done|].
  assert (findById id st = Some w) as ->.
  { unfold findById. destruct (List.find _ _) as [u|] eqn:Ef.
    - apply find_user_spec in Ef as [Hu Eu]. apply bool_decide_eq_true in Eu. f_equal. apply (NoDup_fmap_eq u_id (users st)); [done..|congruence].
    - exfalso. eapply find_none in Ef; [|by apply list_elem_of_In]. by rewrite bool_decide_true in Ef. }
  destruct (bool_decide_reflect (u_schoolId w = schoolId)) as [Esch|]; [|done]. cbn [negb].
  destruct (foreign _ _); [done|]. cbv zeta.
  set (drops := match roles with Some rs => negb (bool_decide ("owner" ∈ rs)) | None => false end).
  set (super := match roles with Some rs => bool_decide ("super_admin" ∈ rs) | None => false end).
  destruct (_ && drops); [done|]. destruct (_ && bool_decide (isActive = Some false)); [done|]. destruct super; [done|].
  rewrite (bool_decide_true ("owner" ∈ u_roles w)), Ha by done. rewrite <- Esch, Hs, Hf. cbn [andb length Nat.leb].
  assert (drops || bool_decide (isActive = Some false) = true) as ->; [|done].
  destruct Hd as [(rs & -> & Hrs)| ->]; unfold drops; [by rewrite bool_decide_false|by rewrite bool_decide_true, orb_true_r].
Qed.

Lemma map_filter_sublist {A B} (g : A -> B) (f : A -> bool) l : map g (List.filter f l) `sublist_of` map g l.
Proof. induction l as [|x l IH]; cbn; [done|]. destruct (f x); cbn; [by constructor|by constructor]. Qed.

(** A write that leaves school, roles and activity of every user, or activates. *)
Lemma update_keeps s id (f : user -> user) us :
  (forall u, active_owner s u = true -> active_owner s (f u) = true) ->
  (exists u, (u ∈ us) /\ active_owner s u = true) ->
  exists u, (u ∈ map (fun u => if bool_decide (u_id u = id) then f u else u) us) /\ active_owner s u = true.
Proof.
  intros Hf (u & Hu & Ha). exists (if bool_decide (u_id u = id) then f u else u). split; [|by case_bool_decide; [apply Hf|]].
  change (map ?g us) with (g <$> us). rewrite list_elem_of_fmap. by exists u.
Qed.

Lemma map_at_ids id (f : user -> user) us : (forall u, u_id (f u) = u_id u) ->
  map u_id (map (fun u => if bool_decide (u_id u = id) then f u else u) us) = map u_id us.
Proof. intros Hf. rewrite map_map. apply map_ext. intros u. by case_bool_decide. Qed.

Lemma serve_keeps_owner s q st : NoDup (map u_id (users st)) -> has_owner s st ->
  has_owner s (serve q st) \/ takes_last_owner s q st.
Proof.
  intros Hnd Ho. destruct q as [email sch roles d now|id roles a|id|caller sch email roles d now|caller cid sch id roles a|id roles a
    |tok pw salt now|email tok now|tok pw salt now]; cbn [serve takes_last_owner].
  - left. unfold createUser. repeat (case_match; [done|]). destruct Ho as (u & Hu & Ha). exists u.
    split; [cbn [fst]; rewrite users_log; cbn; by apply elem_of_app; left|done].
  - unfold updateUser. destruct (findById id st); [|by left]. case_match; [by left|]. by apply write_keeps_owner.
  - unfold deleteUser. destruct (findById id st) as [x|]; [|by left]. destruct (owner_cases s id st Hnd Ho) as [(u & Hu & Ha & Hne)|]; [left|by right].
    exists u. split; [|done]. cbn [fst]. rewrite users_log, users_revokeAll. cbn [set_users users]. apply elem_of_filterb.
    split; [by rewrite bool_decide_false|]. unfold revokeUserSessions, update. cbn [set_users users].
    change (map ?g (users st)) with (g <$> users st). rewrite list_elem_of_fmap. exists u. by rewrite bool_decide_false.
  - left. unfold createSchoolUser. repeat (case_match; [done|]). destruct Ho as (u & Hu & Ha). exists u.
    split; [cbn [fst]; rewrite users_log; cbn; by apply elem_of_app; left|done].
  - unfold updateSchoolUser. destruct (check_update _ _ _ _ _ _ _) as [r|] eqn:Hc; [by left|]. cbn [fst].
    destruct (write_keeps_owner s id roles a st Hnd Ho) as [|[Hl Hd]]; [by left|]. exfalso. by eapply check_protects_owner.
  - by apply write_keeps_owner.
  - left. unfold setPassword. do 2 (case_match; [done|]). destruct (List.find _ _) as [u|]; [|done]. cbn [fst].
    unfold has_owner. rewrite users_log. cbn [update set_users users]. apply update_keeps; [|done].
    intros x (H1 & H2 & H3)%active_owner_spec. by apply active_owner_spec.
  - left. unfold requestPasswordReset. case_match; [done|]. destruct (List.find _ _) as [u|]; [|done]. cbn [fst].
    unfold has_owner. rewrite users_log. cbn [update set_users users]. by apply update_keeps.
  - left. unfold resetPassword. do 2 (case_match; [done|]). destruct (List.find _ _) as [u|]; [|done]. cbn [fst].
    unfold has_owner. rewrite users_log, users_revokeAll. unfold revokeUserSessions. cbn [update set_users users].
    apply update_keeps; [done|]. by apply update_keeps.
Qed.

Lemma serve_ids q st : exists l, (l = [] \/ l = drawn q) /\ map u_id (users (serve q st)) `sublist_of` map u_id (users st) ++ l.
Proof.
  assert (Same : forall st', map u_id (users st') = map u_id (users st) ->
    exists l, (l = [] \/ l = drawn q) /\ map u_id (users st') `sublist_of` map u_id (users st) ++ l).
  { intros st' ->. exists []. split; [by left|]. by rewrite app_nil_r. }
  destruct q as [email sch roles d now|id roles a|id|caller sch email roles d now|caller cid sch id roles a|id roles a
    |tok pw salt now|email tok now|tok pw salt now]; cbn [serve].
  - unfold createUser. repeat (case_match; [by apply Same|]). cbn [fst]. rewrite users_log. cbn [set_users users].
    exists [d_id d]. split; [by right|]. by rewrite map_app.
  - unfold updateUser. destruct (findById id st); [|by apply Same]. case_match; [by apply Same|]. cbn [fst]. apply Same.
    change (log "user_updated" id _) with (apply_update id roles a st). rewrite apply_update_users. apply map_at_ids, touched_id.
  - unfold deleteUser. destruct (findById id st); [|by apply Same]. cbn [fst]. rewrite users_log, users_revokeAll. cbn [set_users users].
    exists []. split; [by left|]. rewrite app_nil_r. etrans; [apply map_filter_sublist|].
    unfold revokeUserSessions, update. cbn [set_users users]. by rewrite map_at_ids.
  - unfold createSchoolUser. repeat (case_match; [by apply Same|]). cbn [fst]. rewrite users_log. cbn [set_users users].
    exists [d_id d]. split; [by right|]. by rewrite map_app.
  - unfold updateSchoolUser. destruct (check_update _ _ _ _ _ _ _); [by apply Same|]. cbn [fst]. apply Same.
    rewrite apply_update_users. apply map_at_ids, touched_id.
  - apply Same. rewrite apply_update_users. apply map_at_ids, touched_id.
  - unfold setPassword. do 2 (case_match; [by apply Same|]). destruct (List.find _ _); [|by apply Same]. cbn [fst]. apply Same.
    rewrite users_log. cbn [update set_users users]. by apply map_at_ids.
  - unfold requestPasswordReset. case_match; [by apply Same|]. destruct (List.find _ _); [|by apply Same]. cbn [fst]. apply Same.
    rewrite users_log. cbn [update set_users users]. by apply map_at_ids.
  - unfold resetPassword. do 2 (case_match; [by apply Same|]). destruct (List.find _ _); [|by apply Same]. cbn [fst]. apply Same.
    rewrite users_log, users_revokeAll. unfold revokeUserSessions. cbn [update set_users users]. rewrite !map_at_ids; done.
Qed.

(** C28: over any sequence of the requests that write users, the writes of
    school updates that overlap other requests included, a school that has an
    active owner keeps one, unless one of the requests takes it: a super-admin's
    PATCH or DELETE of /admin/users, or an overlapping write, that is aimed at
    the school's only active owner and demotes, deactivates or deletes it (none
    of these looks for other owners; the school's own route, served whole, never
    takes the last one).  Ids of new users are fresh. *)
Theorem school_keeps_an_owner s qs st : NoDup (map u_id (users st) ++ concat (map drawn qs)) -> has_owner s st ->
  has_owner s (serve_all qs st) \/
  exists i q, qs !! i = Some q /\ takes_last_owner s q (serve_all (take i qs) st).
Proof.
  revert st. induction qs as [|q qs IH]; intros st Hnd Ho; [by left|]. cbn [serve_all foldl].
  assert (Hnd0 : NoDup (map u_id (users st))) by (by apply NoDup_app in Hnd as (? & _)).
  destruct (serve_keeps_owner s q st Hnd0 Ho) as [Ho'|Ht]; [|right; by exists 0%nat, q].
  destruct (IH (serve q st)) as [|(i & q' & Hi & Ht)]; [|done|by left|right; by exists (S i), q'].
  destruct (serve_ids q st) as (l & Hl & Hsub). cbn [map concat] in Hnd.
  eapply sublist_NoDup; [exact Hnd|]. rewrite app_assoc. apply sublist_app; [|done]. etrans; [exact Hsub|].
  apply sublist_app; [done|]. destruct Hl as [-> | ->]; [apply sublist_nil_l|done].
Qed.

(** ** No escalation *)

Definition plain (u : user) : Prop := "super_admin" ∉ u_roles u.

Lemma school_roles_plain rs : roles_valid school_roles rs = true -> "super_admin" ∉ rs.
Proof.
  unfold roles_valid. rewrite forallb_forall. intros H Hin. apply list_elem_of_In in Hin. apply H in Hin.
  apply bool_decide_eq_true in Hin. unfold school_roles in Hin. set_solver.
Qed.

(** School endpoints never make anyone a super-admin, and change nothing in
    another school than the caller's. *)
Theorem school_endpoints_stay_in_school caller callerId schoolId id email roles roles' isActive d now st :
  (Forall plain (users st) ->
     Forall plain (users (createSchoolUser sha256 caller schoolId email roles d now st).1) /\
     Forall plain (users (updateSchoolUser caller callerId schoolId id roles' isActive st).1)) /\
  (str_truthy caller = true -> caller <> schoolId ->
     (createSchoolUser sha256 caller schoolId email roles d now st).1 = st /\
     (updateSchoolUser caller callerId schoolId id roles' isActive st).1 = st).
Proof.
  split.
  - intros Hp. split.
    + unfold createSchoolUser. repeat (case_match; [done|]). cbn [fst]. rewrite users_log. cbn [set_users users].
      apply Forall_app. split; [done|]. constructor; [|constructor]. unfold plain. cbn. intros Hin.
      match goal with H : bool_decide ("super_admin" ∈ roles) = false |- _ => apply bool_decide_eq_false in H; done end.
    + unfold updateSchoolUser. destruct (check_update _ _ _ _ _ _ _) eqn:Hc; [done|]. cbn [fst].
      rewrite apply_update_users. apply Forall_forall. intros u Hu. apply list_elem_of_fmap in Hu as (w & -> & Hw).
      rewrite Forall_forall in Hp. specialize (Hp w Hw). case_bool_decide; [|done].
      unfold plain in *. assert (u_roles (touched roles' isActive w) = default (u_roles w) roles') as -> by (by destruct roles', isActive).
      destruct roles' as [rs|]; [|done]. cbn. apply school_roles_plain. revert Hc. unfold check_update.
      destruct (roles_valid school_roles rs); [done|]. by rewrite orb_true_r.
  - intros Ht Hne. assert (foreign caller schoolId = true) as Hf.
    { unfold foreign. by rewrite Ht, bool_decide_false. }
    split; [unfold createSchoolUser; by rewrite Hf|].
    unfold updateSchoolUser, check_update. rewrite Hf. repeat (case_match; try done).
Qed.

(** ** Reset links *)

(** A reset link works once, and asking for a new one disables it: afterwards the
    old token is refused, at any time and with any password. *)
Theorem reset_link_works_once token password salt now st st' :
  (forall u w, u ∈ users st -> w ∈ users st -> fst <$> u_reset u = Some (sha256 token) ->
     fst <$> u_reset w = Some (sha256 token) -> u = w) ->
  NoDup (map u_id (users st)) ->
  resetPassword sha256 token password salt now st = (st', Ok_ 200) ->
  forall password' salt' now', exists code, resetPassword sha256 token password' salt' now' st' = (st', Fail 400 code).
Proof.
  intros Huniq Hnd Hr password' salt' now'. revert Hr. unfold resetPassword at 1. do 2 (case_match; [done|]).
  destruct (List.find _ (users st)) as [u|] eqn:Hf; [|done]. intros [= <-].
  apply find_user_spec in Hf as [Hu Htok].
  assert (Hh : fst <$> u_reset u = Some (sha256 token)).
  { unfold token_matches in Htok. destruct (u_reset u) as [[h x]|]; [|done]. apply andb_prop in Htok as [Htok _].
    apply bool_decide_eq_true in Htok. by subst h. }
  unfold resetPassword. do 2 (case_match; [by eexists|]).
  rewrite users_log, users_revokeAll. unfold revokeUserSessions, update, set_users. cbn [users].
  rewrite map_at_map_at by done.
  destruct (List.find _ _) as [w|] eqn:Hf2; [|by eexists]. exfalso.
  apply find_user_spec in Hf2 as [Hw Hm]. apply list_elem_of_fmap in Hw as (w0 & -> & Hw0). revert Hm.
  case_bool_decide as E; [done|]. intros Hm. apply E. f_equal.
  assert (fst <$> u_reset w0 = Some (sha256 token)) as Hh0.
  { unfold token_matches in Hm. destruct (u_reset w0) as [[h x]|]; [|done]. apply andb_prop in Hm as [Hm _].
    apply bool_decide_eq_true in Hm. by subst h. }
  by apply Huniq.
Qed.
End Properties.

(** ** Worked inputs and what goes wrong *)

Definition owner (id : string) : user := User id (id ++ "@a.org")%string "h" "SCH-A" ["owner"] true 0 None None.
Definition two_owners : state := State [owner "u1"; owner "u2"] (SessionStore.Store ∅ ∅ ∅) [].
Definition demote (by_ who : string) : request := UpdateSchoolUser "SCH-A" by_ "SCH-A" who (Some ["staff"]) None.
Abbreviation serve0 := (@serve Mfa.plain_crypto (fun x => x) (fun _ => true)).
Abbreviation serve_all0 := (@serve_all Mfa.plain_crypto (fun x => x) (fun _ => true)).
Definition busy_day : list request :=
  [demote "u1" "u2"; CreateUser "n@a.org" "SCH-A" ["owner"] (Draws "n1" "tmp" "s" "tok") 0; demote "u2" "u1";
   DeleteUser "u2"; demote "u3" "u1"].

Lemma school_keeps_an_owner_witness :
  has_owner "SCH-A" (serve_all0 busy_day two_owners) \/
  exists i q, busy_day !! i = Some q /\ takes_last_owner "SCH-A" q (serve_all0 (take i busy_day) two_owners).
Proof.
  apply (@school_keeps_an_owner Mfa.plain_crypto (fun x => x) (fun _ => true) "SCH-A" busy_day two_owners).
  - cbn. repeat (constructor; [set_solver|]). constructor.
  - exists (owner "u1"). split; [constructor|reflexivity].
Defined.

(** On that day nobody takes the last owner, and one is left; a super-admin
    who then deletes it is not stopped. *)
Theorem admin_takes_last_owner :
  map u_id (List.filter (active_owner "SCH-A") (users (serve_all0 busy_day two_owners))) = ["u1"] /\
  List.filter (active_owner "SCH-A") (users (serve_all0 (busy_day ++ [DeleteUser "u1"]) two_owners)) = [] /\
  List.filter (active_owner "SCH-A") (users (serve_all0 (busy_day ++ [UpdateUser "u1" None (Some false)]) two_owners)) = [].
Proof. split_and!; reflexivity. Qed.

(** The count of owners is read before the update is written: two owners who
    demote each other at the same time both pass the check, and the school is left
    with no owner. *)
Theorem concurrent_demotions_leave_no_owner :
  check_update "SCH-A" "u1" "SCH-A" "u2" (Some ["staff"]) None two_owners = None /\
  check_update "SCH-A" "u2" "SCH-A" "u1" (Some ["staff"]) None two_owners = None /\
  List.filter (active_owner "SCH-A")
    (users (apply_update "u1" (Some ["staff"]) None (apply_update "u2" (Some ["staff"]) None two_owners))) = [].
Proof. split_and!; reflexivity. Qed.

(** Deactivating an invited user leaves the invitation valid: its link activates
    the account again. *)
Definition invitee_gone : state :=
  (@updateUser "n1" None (Some false)
    (@createUser Mfa.plain_crypto (fun x => x) "N@a.org" "SCH-A" ["staff"] (Draws "n1" "tmp" "s" "tok") 0 (State [] (SessionStore.Store ∅ ∅ ∅) [])).1).1.
Theorem deactivated_invitee_returns :
  map u_isActive (users invitee_gone) = [false] /\
  map u_isActive (users (@setPassword Mfa.plain_crypto (fun x => x) "tok" "a long password" "s" 1 invitee_gone).1) = [true].
Proof. split; reflexivity. Qed.

(** What the session check of the guards reads of a user. *)
Definition seen_by_guard (st : state) (id : string) : result unit (option AuthMiddleware.user) :=
  Ok ((fun u => AuthMiddleware.User (Some (u_isActive u)) (u_tokenVersion u)) <$> findById id st).

(** Login tokens carry no token version, which the check reads as 0.  Once a
    user's version has been raised no token a login issues passes the check. *)
Theorem login_after_revocation_refused st id u username :
  str_truthy id = true -> findById id st = Some u -> 0 <= u_tokenVersion u ->
  AuthMiddleware.checkSessionRevoked (seen_by_guard (revokeUserSessions id st))
    (Login.payload_of "user" (u_roles u) id username (u_schoolId u) false)
  = Some (AuthMiddleware.Resp 401 "SESSION_REVOKED").
Proof.
  intros Hid Hf Hv.
  assert (seen_by_guard (revokeUserSessions id st) id = Ok (Some (AuthMiddleware.User (Some (u_isActive u)) (u_tokenVersion u + 1)))) as Hs.
  { unfold seen_by_guard, findById, revokeUserSessions, update in *. cbn [users set_users].
    revert Hf. induction (users st) as [|w us IH]; simpl; [done|].
    destruct (bool_decide (u_id w = id)) eqn:E; cbn; rewrite E; [by intros [= ->]|done]. }
  unfold AuthMiddleware.checkSessionRevoked, Login.payload_of, str_or. cbn [Jwt.c_role Jwt.c_userId Jwt.c_sub Jwt.c_id Jwt.c_tokenVersion].
  rewrite Hid. cbn [negb andb]. rewrite andb_false_r, Hs. cbn [AuthMiddleware.u_isActive AuthMiddleware.u_tokenVersion].
  cbn [andb]. rewrite Hid. cbn [negb]. case_bool_decide; [done|]. destruct (Z.eqb_spec (u_tokenVersion u + 1) 0); [lia|done].
Qed.
End Users.
