(* ===== verification/ParentPortal.v ===== *)
(** The parent portal: backend/src/services/parentPortalService.js (magic links),
    backend/src/middleware/parentAuth.js, backend/src/models/parentAccessTokenModel.js
    and backend/src/controllers/parentPortalController.js.  Signing and hashing are
    parameters; disputes and payments are the ones of Dispute, plans those of
    PaymentPlan.  Sending the link by e-mail and rendering a receipt are left out. *)

From Stdlib Require Import Ascii ZArith Lia.
From stdpp Require Import countable base strings gmap list.
From S2P Require Import Prelude JsNumber JsString PaymentStatus PaymentModel PaymentAdmin AuditChain Dispute PaymentPlan Auth.
Import Jwt.
Local Open Scope string_scope.
Local Open Scope Z_scope.
Local Open Scope list_scope.

Module ParentPortal.
Import PaymentModel.
#[local] Existing Instance PaymentPlan.plan_status_eq_dec.

Definition PORTAL_AUDIENCE : string := "parent-portal".
Definition MAX_TTL_DAYS : Z := 180.
Definition DAY_SECONDS : Z := 24 * 3600.

(** ** Collections *)

Record student := Student {
  s_schoolId : string; s_studentId : string; s_parentEmail : string; s_parentEmailHash : option string;
  s_feeAmount : number; s_totalPaid : number; s_remainingBalance : option number;
  s_reminderOptOut : bool; s_deletedAt : option Z }.

Record access := Access {
  pt_schoolId : string; pt_tokenId : string; pt_tokenHash : string; pt_studentIds : list string;
  pt_parentEmailHash : option string; pt_expiresAt : Z;
  pt_revoked : option (Z * string * option string);    (** when, by whom and why *)
  pt_createdBy : string; pt_lastUsedAt : option Z; pt_useCount : Z }.

Record receipt := Receipt { rc_schoolId : string; rc_txHash : string; rc_opIndex : Z; rc_studentId : string }.

Record world := World {
  w_db : Dispute.db; w_students : list student; w_plans : list PaymentPlan.plan; w_receipts : list receipt;
  w_tokens : list access; w_audits : list (string * string) }.

Definition with_tokens (ts : list access) (w : world) : world :=
  World (w_db w) (w_students w) (w_plans w) (w_receipts w) ts (w_audits w).
Definition with_students (ss : list student) (w : world) : world :=
  World (w_db w) ss (w_plans w) (w_receipts w) (w_tokens w) (w_audits w).
Definition with_db (b : Dispute.db) (w : world) : world :=
  World b (w_students w) (w_plans w) (w_receipts w) (w_tokens w) (w_audits w).
Definition _audit (action target : string) (w : world) : world :=
  World (w_db w) (w_students w) (w_plans w) (w_receipts w) (w_tokens w) (w_audits w ++ [(action, target)]).

(** What the portal's tokens carry, and the package that signs them; seconds. *)
Record pclaims := PClaims { pc_typ : string; pc_sid : string; pc_jti : string }.

Class PortalJwt := {
  portal_sign : pclaims -> string -> string -> Z -> Z -> string;
  portal_verify : string -> string -> string -> Z -> result jwt_error pclaims;
  portal_sign_truthy : forall p key aud ttl now, str_truthy (portal_sign p key aud ttl now) = true;
  portal_verify_signed : forall p key aud ttl now t, t < now + ttl ->
    portal_verify (portal_sign p key aud ttl now) key aud t = Ok p;
  portal_verify_expired : forall p key aud ttl now t, now + ttl <= t ->
    portal_verify (portal_sign p key aud ttl now) key aud t = Throw TokenExpiredError }.

(** The key derived from the server's secret, and the default lifetime. *)
Record config := Config { signingKey : string; DEFAULT_TTL_DAYS : Z }.

(** [requested] is [None] when [parseInt] gives no number. *)
Definition _ttlDays (cfg : config) (requested : option Z) : Z :=
  match requested with
  | Some n => if n <=? 0 then DEFAULT_TTL_DAYS cfg else Z.min n MAX_TTL_DAYS
  | None => DEFAULT_TTL_DAYS cfg
  end.

Section Service.
Context `{PJ : PortalJwt} (sha256 : string -> string) (cfg : config).

Definition _hashToken (token : string) : string := sha256 token.
Definition hashParentEmail (email : string) : option string :=
  if str_truthy email then Some (sha256 (toLowerCase (str_trim email))) else None.

Definition in_school (schoolId : string) (s : student) : bool :=
  bool_decide (s_schoolId s = schoolId) && bool_decide (s_deletedAt s = None).

Definition _resolveStudents (schoolId : string) (studentIds : list string) (parentEmail : string) (ss : list student)
  : result (Z * string) (list student) :=
  if negb (bool_decide (studentIds = [])) then
    let unique := remove_dups studentIds in
    let students := List.filter (fun s => in_school schoolId s && bool_decide (s_studentId s ∈ unique)) ss in
    if negb (length students =? length unique)%nat then Throw (404, "STUDENT_NOT_FOUND") else Ok students
  else if str_truthy parentEmail then
    let students := List.filter (fun s => in_school schoolId s && bool_decide (s_parentEmailHash s = hashParentEmail parentEmail)) ss in
    if bool_decide (students = []) then Throw (404, "STUDENT_NOT_FOUND") else Ok students
  else Throw (400, "VALIDATION_ERROR").

Record link := Link { l_tokenId : string; l_token : string; l_expiresAt : Z; l_studentIds : list string }.

Definition is_record (schoolId tokenId : string) (r : access) : bool :=
  bool_decide (pt_schoolId r = schoolId) && bool_decide (pt_tokenId r = tokenId).

(** [now] is in milliseconds; the unique index refuses a second record with the
    same school and token id. *)
Definition issueParentLink (now : Z) (tokenId schoolId : string) (studentIds : list string) (parentEmail : string)
    (ttlDays : option Z) (createdBy : string) (w : world) : result (Z * string) (world * link) :=
  students ← _resolveStudents schoolId studentIds parentEmail (w_students w);
  let days := _ttlDays cfg ttlDays in
  let expiresAt := now + days * DAY_SECONDS * 1000 in
  let token := portal_sign (PClaims "parent" schoolId tokenId) (signingKey cfg) PORTAL_AUDIENCE (days * DAY_SECONDS) (now / 1000) in
  let email := str_or parentEmail (default "" (s_parentEmail <$> List.find (fun s => str_truthy (s_parentEmail s)) students)) in
  if existsb (is_record schoolId tokenId) (w_tokens w)
  then Throw (500, "E11000") else
  let ids := map s_studentId students in
  let r := Access schoolId tokenId (_hashToken token) ids (hashParentEmail email) expiresAt None
             (str_or createdBy "system") None 0 in
  Ok (with_tokens (w_tokens w ++ [r]) w, Link tokenId token expiresAt ids).

Definition used (now : Z) (r : access) : access :=
  Access (pt_schoolId r) (pt_tokenId r) (pt_tokenHash r) (pt_studentIds r) (pt_parentEmailHash r) (pt_expiresAt r)
    (pt_revoked r) (pt_createdBy r) (Some now) (pt_useCount r + 1).

Definition verifyParentToken (now : Z) (token : string) (w : world) : world * result (Z * string) access :=
  if negb (str_truthy token) then (w, Throw (401, "PARENT_TOKEN_MISSING")) else
  match portal_verify token (signingKey cfg) PORTAL_AUDIENCE (now / 1000) with
  | Throw TokenExpiredError => (w, Throw (401, "PARENT_TOKEN_EXPIRED"))
  | Throw JsonWebTokenError => (w, Throw (401, "PARENT_TOKEN_INVALID"))
  | Ok p =>
    if negb (bool_decide (pc_typ p = "parent") && str_truthy (pc_sid p) && str_truthy (pc_jti p))
    then (w, Throw (401, "PARENT_TOKEN_INVALID")) else
    match List.find (is_record (pc_sid p) (pc_jti p)) (w_tokens w) with
    | None => (w, Throw (401, "PARENT_TOKEN_INVALID"))
    | Some r =>
      if negb (bool_decide (pt_tokenHash r = _hashToken token)) then (w, Throw (401, "PARENT_TOKEN_INVALID")) else
      match pt_revoked r with
      | Some _ => (w, Throw (401, "PARENT_TOKEN_REVOKED"))
      | None =>
        if pt_expiresAt r <=? now then (w, Throw (401, "PARENT_TOKEN_EXPIRED")) else
        (with_tokens (map (fun x => if is_record (pt_schoolId r) (pt_tokenId r) x then used now x else x) (w_tokens w)) w, Ok r)
      end
    end
  end.

Definition revoke (now : Z) (by_ : string) (reason : option string) (r : access) : access :=
  Access (pt_schoolId r) (pt_tokenId r) (pt_tokenHash r) (pt_studentIds r) (pt_parentEmailHash r) (pt_expiresAt r)
    (Some (now, by_, reason)) (pt_createdBy r) (pt_lastUsedAt r) (pt_useCount r).
Definition unrevoked (r : access) : bool := bool_decide (pt_revoked r = None).

(** [findOneAndUpdate]: at most one record has the school and the token id. *)
Definition revokeParentLink (now : Z) (schoolId tokenId by_ : string) (reason : option string) (w : world) : world * option access :=
  let hit r := is_record schoolId tokenId r && unrevoked r in
  (with_tokens (map (fun r => if hit r then revoke now by_ reason r else r) (w_tokens w)) w,
   revoke now by_ reason <$> List.find hit (w_tokens w)).

Definition revokeLinksForStudent (now : Z) (schoolId studentId by_ : string) (reason : option string) (w : world) : world * Z :=
  let hit r := bool_decide (pt_schoolId r = schoolId) && bool_decide (studentId ∈ pt_studentIds r) && unrevoked r in
  (with_tokens (map (fun r => if hit r then revoke now by_ reason r else r) (w_tokens w)) w,
   Z.of_nat (length (List.filter hit (w_tokens w)))).

(** Newest first; the records are in order of creation. *)
Definition listParentLinks (now : Z) (schoolId studentId : string) (includeInactive : bool) (w : world) : list access :=
  take 200 (rev (List.filter (fun r =>
    bool_decide (pt_schoolId r = schoolId) && (negb (str_truthy studentId) || bool_decide (studentId ∈ pt_studentIds r)) &&
    (includeInactive || (unrevoked r && (now <? pt_expiresAt r)))) (w_tokens w))).

(** The expiry index of the collection: records go thirty days after they expired. *)
Definition purge (now : Z) (w : world) : world :=
  with_tokens (List.filter (fun r => now <? pt_expiresAt r + 30 * DAY_SECONDS * 1000) (w_tokens w)) w.

(** ** The guard *)

Record request := Request { rq_parent_token : string; rq_authorization : string }.

(** The regular expression of the [Authorization] header; no match and an empty
    match are both a missing token. *)
Definition _extractToken (q : request) : string :=
  if str_truthy (rq_parent_token q) then str_trim (rq_parent_token q) else
  let l := chars (rq_authorization q) in
  if bool_decide (toLowerCase (text (take 6 l)) = "parent") && match drop 6 l with c :: _ => is_space c | [] => false end
  then text (trim (drop 6 l)) else "".

Record parent := Parent { pa_tokenId : string; pa_schoolId : string; pa_studentIds : list string; pa_expiresAt : Z }.

Definition requireParentAuth (now : Z) (q : request) (w : world) : world * result (Z * string) parent :=
  match verifyParentToken now (_extractToken q) w with
  | (w', Ok r) => (w', Ok (Parent (pt_tokenId r) (pt_schoolId r) (pt_studentIds r) (pt_expiresAt r)))
  | (w', Throw e) => (w', Throw e)
  end.

Definition requireLinkedStudent (p : parent) (studentId : string) : bool := bool_decide (studentId ∈ pa_studentIds p).

(** ** What a parent sees *)

Record plan_summary := PlanSummary {
  ps_status : PaymentPlan.plan_status; ps_total : number; ps_paidAmount : number; ps_installments : nat;
  ps_paid : nat; ps_overdue : nat; ps_next : option (number * number * Z * bool) }.

Definition due_cmp (a b : PaymentPlan.installment) : Z := PaymentPlan.dueDate a - PaymentPlan.dueDate b.

Definition _summarisePlan (now : Z) (p : PaymentPlan.plan) : plan_summary :=
  let ordered := js_sort due_cmp (PaymentPlan.installments p) in
  let paid_of i := num_or (PaymentPlan.paidAmount i) (of_Z 0) in
  PlanSummary (PaymentPlan.plan_state p) (PaymentPlan.totalAmount p)
    (foldl (fun sum i => num_add sum (paid_of i)) (of_Z 0) ordered) (length ordered)
    (length (List.filter PaymentPlan.paid ordered))
    (length (List.filter (fun i => negb (PaymentPlan.paid i) && (PaymentPlan.dueDate i <? now)) ordered))
    ((fun i => (PaymentPlan.amount i, paid_of i, PaymentPlan.dueDate i, PaymentPlan.dueDate i <? now))
       <$> List.find (fun i => negb (PaymentPlan.paid i)) ordered).

Definition _balance (s : student) : number :=
  match s_remainingBalance s with
  | Some b => b
  | None => num_max (of_Z 0) (num_sub (num_or (s_feeAmount s) (of_Z 0)) (num_or (s_totalPaid s) (of_Z 0)))
  end.

Record view := View { v_student : student; v_balance : number; v_plan : option plan_summary }.

Inductive reply :=
| Fail (status : Z) (code : string)
| Overview (views : list view) (expiresAt : Z)
| History (page limit : Z) (total : nat) (payments : list payment)
| ReceiptOut (r : receipt)
| Disputed (d : Dispute.dispute)
| DuplicateDispute (id : nat)
| Preferences (optOut : bool)
| LinkOut (l : link)
| Links (ls : list access)
| Revoked (r : access)
| RevokedCount (n : Z).

Definition join_ids (ids : list string) : string := String.concat "," ids.

(** A later plan of a student replaces an earlier one in the map. *)
Definition plan_of (studentId : string) (plans : list PaymentPlan.plan) : option PaymentPlan.plan :=
  List.find (fun p => bool_decide (PaymentPlan.planStudent p = studentId)) (rev plans).

Definition getOverview (now : Z) (p : parent) (w : world) : world * reply :=
  let mine s := in_school (pa_schoolId p) s && bool_decide (s_studentId s ∈ pa_studentIds p) in
  let plans := List.filter (fun x => bool_decide (PaymentPlan.planSchool x = pa_schoolId p)
     && bool_decide (PaymentPlan.planStudent x ∈ pa_studentIds p) && bool_decide (PaymentPlan.plan_state x = PaymentPlan.active)
     && bool_decide (PaymentPlan.planDeletedAt x = None)) (w_plans w) in
  (_audit "parent_portal_view" (join_ids (pa_studentIds p)) w,
   Overview (map (fun s => View s (_balance s) (_summarisePlan now <$> plan_of (s_studentId s) plans))
               (List.filter mine (w_students w))) (pa_expiresAt p)).

Definition payments_of (schoolId studentId : string) (w : world) : list payment :=
  rev (List.filter (fun x => bool_decide (p_schoolId x = schoolId) && bool_decide (p_studentId x = studentId)
     && bool_decide (p_deletedAt x = None)) (Dispute.payments (w_db w))).

(** [page] and [limit] as parsed from the query, [None] when they are no numbers. *)
Definition getPaymentHistory (p : parent) (studentId : string) (page limit : option Z) (w : world) : world * reply :=
  let limit := AuditChain.clamp_limit limit 20 100 in
  let page := Z.max (match page with Some n => if n =? 0 then 1 else n | None => 1 end) 1 in
  let all := payments_of (pa_schoolId p) studentId w in
  (_audit "parent_portal_view" studentId w,
   History page limit (length all) (take (Z.to_nat limit) (drop (Z.to_nat ((page - 1) * limit)) all))).

Definition getReceipt (p : parent) (txHash format : string) (w : world) : world * reply :=
  match List.find (fun r => bool_decide (rc_txHash r = txHash) && bool_decide (rc_schoolId r = pa_schoolId p)
                            && (rc_opIndex r =? 0)) (w_receipts w) with
  | Some r =>
    if negb (bool_decide (rc_studentId r ∈ pa_studentIds p)) then (w, Fail 404 "NOT_FOUND") else
    let w := _audit "parent_portal_receipt" (rc_studentId r) w in
    if negb (bool_decide (toLowerCase (str_or format "json") ∈ ["json"; "pdf"])) then (w, Fail 400 "INVALID_FORMAT")
    else (w, ReceiptOut r)
  | None => (w, Fail 404 "NOT_FOUND")
  end.

(** ** What a parent may change *)

Definition slice200 (s : string) : string := text (take 200 (chars s)).

Definition portal_raiser (raisedBy : Dispute.arg) : string :=
  let by_ := text (Dispute.trimmed raisedBy) in
  slice200 ((if str_truthy by_ then slice200 by_ else "Parent (portal)") ++ " [portal]").

(** The new document; the schema trims the names it stores. *)
Definition portal_dispute (SLA_HOURS now : Z) (id : nat) (schoolId txHash studentId raiser reason : string) : Dispute.dispute :=
  Dispute.DisputeDoc id schoolId txHash studentId (str_trim raiser) reason None None None [] Dispute.D_open None
    (Some (now + SLA_HOURS * 60 * 60 * 1000)) None None 0 None now None None None.

Definition raiseDispute (SLA_HOURS now : Z) (id : nat) (p : parent) (txHash reason raisedBy : Dispute.arg) (w : world)
  : world * reply :=
  match txHash with
  | Dispute.Str tx =>
    if negb (str_truthy tx) then (w, Fail 400 "VALIDATION_ERROR") else
    let reason := Dispute.trimmed reason in
    if (length reason =? 0)%nat || (1000 <? length reason)%nat then (w, Fail 400 "VALIDATION_ERROR") else
    let b := w_db w in
    match Dispute.find_payment (pa_schoolId p) tx (Dispute.payments b) with
    | None => (w, Fail 404 "NOT_FOUND")
    | Some x =>
      if negb (bool_decide (p_studentId x ∈ pa_studentIds p)) then (w, Fail 404 "NOT_FOUND") else
      match List.find (fun d => bool_decide (Dispute.d_school d = pa_schoolId p) && bool_decide (Dispute.d_tx d = tx)
                                && Dispute.active (Dispute.d_status d)) (Dispute.disputes b) with
      | Some d => (w, DuplicateDispute (Dispute.d_id d))
      | None =>
        let d := Dispute.pre_save now
          (portal_dispute SLA_HOURS now id (pa_schoolId p) tx (p_studentId x) (portal_raiser raisedBy) (text reason)) in
        if negb (Dispute.dispute_valid d && Dispute.index_ok (Dispute.disputes b) d) then (w, Fail 500 "E11000") else
        let b' := Dispute.Db (Dispute.disputes b ++ [d]) (Dispute.payments b)
                    (<[(pa_schoolId p, p_studentId x) := true]> (Dispute.holds b)) (Dispute.refreshed b) in
        (_audit "parent_portal_dispute" (p_studentId x) (with_db b' w), Disputed d)
      end
    end
  | _ => (w, Fail 400 "VALIDATION_ERROR")
  end.

Definition set_opt_out (o : bool) (s : student) : student :=
  Student (s_schoolId s) (s_studentId s) (s_parentEmail s) (s_parentEmailHash s) (s_feeAmount s) (s_totalPaid s)
    (s_remainingBalance s) o (s_deletedAt s).

(** [reminderOptOut] is [None] when the body holds no boolean; the index makes a
    student unique. *)
Definition updatePreferences (p : parent) (studentId : string) (reminderOptOut : option bool) (w : world) : world * reply :=
  match reminderOptOut with
  | None => (w, Fail 400 "VALIDATION_ERROR")
  | Some o =>
    let hit s := in_school (pa_schoolId p) s && bool_decide (s_studentId s = studentId) in
    match List.find hit (w_students w) with
    | None => (w, Fail 404 "NOT_FOUND")
    | Some _ =>
      (_audit "parent_portal_preferences" studentId
         (with_students (map (fun s => if hit s then set_opt_out o s else s) (w_students w)) w), Preferences o)
    end
  end.

(** ** Staff *)

Definition createLink (now : Z) (tokenId schoolId : string) (studentIds : list string) (parentEmail : string)
    (ttlDays : option Z) (staff : string) (w : world) : world * reply :=
  match issueParentLink now tokenId schoolId studentIds parentEmail ttlDays staff w with
  | Ok (w', l) => (_audit "parent_portal_link_issued" (join_ids (l_studentIds l)) w', LinkOut l)
  | Throw (status, code) => (w, Fail status code)
  end.

Definition listLinks (now : Z) (schoolId studentId : string) (includeInactive : bool) (w : world) : world * reply :=
  (w, Links (listParentLinks now schoolId studentId includeInactive w)).

Definition revokeLink (now : Z) (schoolId tokenId staff : string) (reason : option string) (w : world) : world * reply :=
  match revokeParentLink now schoolId tokenId staff (text ∘ take 500 ∘ chars <$> reason) w with
  | (w', Some r) => (_audit "parent_portal_link_revoked" (join_ids (pt_studentIds r)) w', Revoked r)
  | (w', None) => (w', Fail 404 "NOT_FOUND")
  end.

Definition revokeStudentLinks (now : Z) (schoolId studentId staff : string) (reason : option string) (w : world) : world * reply :=
  let '(w', n) := revokeLinksForStudent now schoolId studentId staff (text ∘ take 500 ∘ chars <$> reason) w in
  (_audit "parent_portal_link_revoked" studentId w', RevokedCount n).

(** The parent routes: the guards in front of a handler. *)
Definition parent_route (now : Z) (q : request) (handler : parent -> world -> world * reply) (w : world) : world * reply :=
  match requireParentAuth now q w with
  | (w', Throw (status, code)) => (w', Fail status code)
  | (w', Ok p) => handler p w'
  end.
Definition for_student (studentId : string) (handler : parent -> world -> world * reply) (p : parent) (w : world)
  : world * reply :=
  if requireLinkedStudent p studentId then handler p w else (w, Fail 404 "NOT_FOUND").
End Service.

(** ** Links: what a token opens *)

(** The abstract service: the links issued so far, each with its token.  There are
    no hashes and no signatures, and a link opens for whoever presents its token
    until it is revoked or expires ([lv_exp], in seconds). *)
Record live := Live {
  lv_school : string; lv_tokenId : string; lv_token : string; lv_students : list string;
  lv_expiresAt : Z; lv_exp : Z; lv_revoked : bool }.

Inductive event :=
| Issue (now : Z) (tokenId schoolId : string) (studentIds : list string) (parentEmail : string) (ttlDays : option Z) (by_ : string)
| Present (now : Z) (token : string)
| Revoke (now : Z) (schoolId tokenId by_ : string) (reason : option string)
| RevokeStudent (now : Z) (schoolId studentId by_ : string) (reason : option string)
| Purge (now : Z).

Section Links.
Context `{PJ : PortalJwt} (sha256 : string -> string) (cfg : config).

Definition exec (e : event) (w : world) : world :=
  match e with
  | Issue now tid sid ids email ttl by_ =>
    match issueParentLink sha256 cfg now tid sid ids email ttl by_ w with Ok (w', _) => w' | Throw _ => w end
  | Present now tok => (verifyParentToken sha256 cfg now tok w).1
  | Revoke now sid tid by_ why => (revokeParentLink now sid tid by_ why w).1
  | RevokeStudent now sid st by_ why => (revokeLinksForStudent now sid st by_ why w).1
  | Purge now => purge now w
  end.
Definition run (es : list event) (w : world) : world := foldl (fun w e => exec e w) w es.

Definition close (hit : live -> bool) (ls : list live) : list live :=
  map (fun l => if hit l then Live (lv_school l) (lv_tokenId l) (lv_token l) (lv_students l) (lv_expiresAt l) (lv_exp l) true else l) ls.

Definition spec_step (ss : list student) (ls : list live) (e : event) : list live :=
  match e with
  | Issue now tid sid ids email ttl _ =>
    match _resolveStudents sha256 sid ids email ss with
    | Throw _ => ls
    | Ok students =>
      if existsb (fun l => bool_decide (lv_school l = sid) && bool_decide (lv_tokenId l = tid)) ls then ls else
      let secs := _ttlDays cfg ttl * DAY_SECONDS in
      ls ++ [Live sid tid (portal_sign (PClaims "parent" sid tid) (signingKey cfg) PORTAL_AUDIENCE secs (now / 1000))
               (map s_studentId students) (now + secs * 1000) (now / 1000 + secs) false]
    end
  | Present _ _ => ls
  | Revoke _ sid tid _ _ => close (fun l => bool_decide (lv_school l = sid) && bool_decide (lv_tokenId l = tid)) ls
  | RevokeStudent _ sid st _ _ => close (fun l => bool_decide (lv_school l = sid) && bool_decide (st ∈ lv_students l)) ls
  | Purge now => List.filter (fun l => now <? lv_expiresAt l + 30 * DAY_SECONDS * 1000) ls
  end.
Definition links (ss : list student) (es : list event) : list live := foldl (spec_step ss) [] es.

Definition opens (now : Z) (tok : string) (l : live) : Prop :=
  lv_token l = tok /\ lv_revoked l = false /\ now / 1000 < lv_exp l.

(** Schools and token ids are not empty. *)
Definition event_ok (e : event) : Prop :=
  match e with Issue _ tid sid _ _ _ _ => str_truthy tid = true /\ str_truthy sid = true | _ => True end.

(** *** The simulation *)

Record stands_for (r : access) (l : live) : Prop := {
  sf_school : pt_schoolId r = lv_school l;
  sf_tokenId : pt_tokenId r = lv_tokenId l;
  sf_hash : pt_tokenHash r = sha256 (lv_token l);
  sf_students : pt_studentIds r = lv_students l;
  sf_open : unrevoked r = negb (lv_revoked l);
  sf_expires : pt_expiresAt r = lv_expiresAt l;
  sf_window : lv_exp l * 1000 <= lv_expiresAt l;
  sf_token : exists ttl iat, lv_exp l = iat + ttl /\
    lv_token l = portal_sign (PClaims "parent" (lv_school l) (lv_tokenId l)) (signingKey cfg) PORTAL_AUDIENCE ttl iat;
  sf_named : str_truthy (lv_school l) = true /\ str_truthy (lv_tokenId l) = true }.

Definition key (r : access) : string * string := (pt_schoolId r, pt_tokenId r).

Record simulates (ss : list student) (w : world) (ls : list live) : Prop := {
  sim_links : Forall2 stands_for (w_tokens w) ls;
  sim_keys : NoDup (map key (w_tokens w));
  sim_students : w_students w = ss }.

Lemma Forall2_filterb {A B} (R : A -> B -> Prop) f g l k :
  Forall2 R l k -> (forall x y, R x y -> f x = g y) -> Forall2 R (List.filter f l) (List.filter g k).
Proof.
  intros H Hfg. induction H as [|x y l k Hxy H IH]; simpl; [done|]. rewrite (Hfg x y Hxy).
  destruct (g y); [by constructor|done].
Qed.

Lemma Forall2_existsb {A B} (R : A -> B -> Prop) f g l k :
  Forall2 R l k -> (forall x y, R x y -> f x = g y) -> existsb f l = existsb g k.
Proof. intros H Hfg. induction H as [|x y l k Hxy H IH]; simpl; [done|]. by rewrite (Hfg x y Hxy), IH. Qed.

Lemma is_record_key sid tid r : is_record sid tid r = true <-> key r = (sid, tid).
Proof.
  unfold is_record, key. rewrite andb_true_iff, !bool_decide_eq_true. split; [by intros [-> ->]|by intros [= -> ->]].
Qed.

Lemma map_keeps_keys (f : access -> access) rs : (forall r, key (f r) = key r) -> map key (map f rs) = map key rs.
Proof. intros Hf. rewrite map_map. by apply map_ext. Qed.

(** Updating records that keep their names, contents and openness keeps the relation. *)
Lemma simulates_map ss w ls (f : access -> access) (g : live -> live) :
  simulates ss w ls -> (forall r, key (f r) = key r) ->
  (forall r l, stands_for r l -> stands_for (f r) (g l)) ->
  simulates ss (with_tokens (map f (w_tokens w)) w) (map g ls).
Proof.
  intros [H1 H2 H3] Hk Hs. split; simpl; [|by rewrite map_keeps_keys|done].
  apply Forall2_fmap. eapply Forall2_impl; [done|]. auto.
Qed.

Lemma used_stands_for now r l : stands_for r l -> stands_for (used now r) l.
Proof. intros []. by split. Qed.

Lemma closed_stands_for now by_ why (b : bool) r l : stands_for r l ->
  stands_for (if b && unrevoked r then revoke now by_ why r else r)
    (if b then Live (lv_school l) (lv_tokenId l) (lv_token l) (lv_students l) (lv_expiresAt l) (lv_exp l) true else l).
Proof.
  intros []. destruct b; [|done]. cbn [andb]. destruct (unrevoked r) eqn:E; by split.
Qed.

Lemma sim_present ss w ls now tok : simulates ss w ls -> simulates ss (verifyParentToken sha256 cfg now tok w).1 ls.
Proof.
  intros H. unfold verifyParentToken. destruct (negb _); [done|]. destruct (portal_verify _ _ _ _) as [p|[]]; [|done..].
  destruct (negb _); [done|]. destruct (List.find _ _) as [r|]; [|done]. destruct (negb _); [done|].
  destruct (pt_revoked r); [done|]. destruct (_ <=? _); [done|]. cbn [fst].
  rewrite <- (map_id ls). apply (simulates_map ss w ls _ (fun l => l)); [done|by intros x; destruct (is_record _ _ x)|].
  intros x l Hx. destruct (is_record _ _ x); [by apply used_stands_for|done].
Qed.

Lemma sim_issue ss w ls now tid sid ids email ttl by_ :
  simulates ss w ls -> str_truthy tid = true -> str_truthy sid = true ->
  simulates ss (exec (Issue now tid sid ids email ttl by_) w) (spec_step ss ls (Issue now tid sid ids email ttl by_)).
Proof.
  intros Hsim Ht Hs. destruct Hsim as [H1 H2 H3]. cbn [exec spec_step]. unfold issueParentLink. rewrite H3.
  destruct (_resolveStudents _ _ _ _ _) as [students|e]; cbn [mbind result_bind]; [|by split].
  rewrite (Forall2_existsb stands_for (is_record sid tid)
    (fun l => bool_decide (lv_school l = sid) && bool_decide (lv_tokenId l = tid)) _ _ H1).
  2: { intros r l []. unfold is_record. by rewrite sf_school0, sf_tokenId0. }
  destruct (existsb _ ls) eqn:Ex; [by split|]. split; cbn [with_tokens w_tokens w_students]; [| |done].
  - apply Forall2_app; [done|]. constructor; [|constructor]. split; cbn; try done.
    + pose proof (Z.mul_div_le now 1000 ltac:(lia)); lia.
    + by eexists _, _.
  - rewrite map_app. apply NoDup_app. split; [done|]. split; [|apply NoDup_singleton].
    intros k Hk Hk2. apply list_elem_of_singleton in Hk2 as ->. apply list_elem_of_fmap in Hk as (r & Hkr & Hr).
    assert (existsb (is_record sid tid) (w_tokens w) = true) as Hin.
    { apply existsb_exists. exists r. split; [by apply list_elem_of_In|]. by apply is_record_key. }
    rewrite (Forall2_existsb stands_for _ (fun l => bool_decide (lv_school l = sid) && bool_decide (lv_tokenId l = tid)) _ _ H1) in Hin;
      [congruence|]. intros r' l []. unfold is_record. by rewrite sf_school0, sf_tokenId0.
Qed.

Lemma sim_step ss w ls e : simulates ss w ls -> event_ok e -> simulates ss (exec e w) (spec_step ss ls e).
Proof.
  intros Hsim He. destruct e as [now tid sid ids email ttl by_|now tok|now sid tid by_ why|now sid st by_ why|now]; cbn [exec].
  - destruct He. by apply sim_issue.
  - by apply sim_present.
  - cbn [revokeParentLink fst spec_step]. unfold close. apply simulates_map; [done| |].
    + intros r. by destruct (_ && _).
    + intros r l Hr. destruct (Hr) as []. unfold is_record. rewrite sf_school0, sf_tokenId0. by apply closed_stands_for.
  - cbn [revokeLinksForStudent fst spec_step]. unfold close. apply simulates_map; [done| |].
    + intros r. by destruct (_ && _).
    + intros r l Hr. destruct (Hr) as []. rewrite sf_school0, sf_students0. by apply closed_stands_for.
  - destruct Hsim as [H1 H2 H3]. split; cbn; [| |done].
    + apply Forall2_filterb; [done|]. intros r l []. by rewrite sf_expires0.
    + by apply NoDup_map_filterb.
Qed.

Lemma sim_run ss es w : Forall event_ok es -> w_tokens w = [] -> w_students w = ss -> simulates ss (run es w) (links ss es).
Proof.
  intros He Hw Hs. assert (simulates ss w []) as H0 by (split; rewrite ?Hw; [constructor|constructor|done]).
  clear Hw Hs. unfold run, links. revert w H0. generalize (@nil live) as ls.
  induction es as [|e es IH]; intros ls w H0; [done|]. apply Forall_cons in He as [He Hes]. cbn [foldl].
  apply IH; [done|]. by apply sim_step.
Qed.

(** *** The refinement *)

Definition grants (r : access) (l : live) : Prop :=
  pt_schoolId r = lv_school l /\ pt_tokenId r = lv_tokenId l /\ pt_studentIds r = lv_students l.

Lemma find_record_of rs r : NoDup (map key rs) -> r ∈ rs -> List.find (is_record (pt_schoolId r) (pt_tokenId r)) rs = Some r.
Proof.
  intros Hnd Hr. destruct (List.find _ rs) as [x|] eqn:E.
  - apply find_some in E as [Hx Ex]. apply list_elem_of_In in Hx. apply is_record_key in Ex. f_equal.
    by apply (NoDup_fmap_eq key rs).
  - exfalso. eapply find_none in E; [|by apply list_elem_of_In]. by rewrite (proj2 (is_record_key _ _ r)) in E.
Qed.

Lemma accepted_opens ss w ls now tok r : Inj (=) (=) sha256 -> simulates ss w ls ->
  (verifyParentToken sha256 cfg now tok w).2 = Ok r -> exists l, (l ∈ ls) /\ opens now tok l /\ grants r l.
Proof.
  intros Hinj [H1 H2 _]. unfold verifyParentToken. destruct (negb (str_truthy tok)); [done|].
  destruct (portal_verify tok _ _ _) as [p|[]] eqn:Hv; [|done..]. destruct (negb (_ && _)); [done|].
  destruct (List.find _ _) as [x|] eqn:Hf; [|done]. apply find_some in Hf as [Hx _]. apply list_elem_of_In in Hx.
  destruct (bool_decide_reflect (pt_tokenHash x = _hashToken sha256 tok)) as [Hh|]; [|done]. cbn [negb].
  destruct (pt_revoked x) eqn:Hrev; [done|]. destruct (_ <=? _); [done|]. intros [= <-].
  apply list_elem_of_lookup in Hx as [i Hi]. destruct (Forall2_lookup_l _ _ _ _ _ H1 Hi) as (l & Hl & []).
  exists l. split; [by eapply list_elem_of_lookup_2|]. split; [|done].
  assert (lv_token l = tok) as Htok by (apply Hinj; by rewrite <- sf_hash0).
  split; [done|]. split.
  - unfold unrevoked in sf_open0. rewrite Hrev, bool_decide_true in sf_open0 by done. by destruct (lv_revoked l).
  - destruct sf_token0 as (ttl & iat & -> & Et). rewrite <- Htok, Et in Hv.
    destruct (Z_lt_le_dec (now / 1000) (iat + ttl)) as [|Hle]; [done|]. by rewrite portal_verify_expired in Hv.
Qed.

Lemma open_accepted ss w ls now tok l : simulates ss w ls -> l ∈ ls -> opens now tok l ->
  exists r, (verifyParentToken sha256 cfg now tok w).2 = Ok r /\ grants r l.
Proof.
  intros [H1 H2 _] Hl (<- & Hopen & Hnow). apply list_elem_of_lookup in Hl as [i Hi].
  destruct (Forall2_lookup_r _ _ _ _ _ H1 Hi) as (r & Hr & []). exists r. split; [|done].
  destruct sf_token0 as (ttl & iat & Hexp & Et), sf_named0 as [Hs Ht]. unfold verifyParentToken. rewrite Et.
  rewrite portal_sign_truthy, portal_verify_signed by lia. cbn [negb pc_typ pc_sid pc_jti]. rewrite Hs, Ht.
  rewrite bool_decide_true by done. cbn [andb negb]. rewrite <- sf_school0, <- sf_tokenId0.
  rewrite find_record_of by (done || by eapply list_elem_of_lookup_2).
  rewrite bool_decide_true by (rewrite sf_hash0, Et, sf_school0, sf_tokenId0; done). cbn [negb].
  unfold unrevoked in sf_open0. rewrite Hopen in sf_open0. apply bool_decide_eq_true in sf_open0. rewrite sf_open0.
  destruct (Z.leb_spec (pt_expiresAt r) now) as [Hle|]; [|done].
  exfalso. pose proof (Z.mul_div_le now 1000 ltac:(lia)). pose proof (Z.mod_pos_bound now 1000 ltac:(lia)).
  pose proof (Z.div_mod now 1000 ltac:(lia)). lia.
Qed.

(** C29: after any history of issuing, presenting, revoking and purging, a token is
    accepted exactly when it is the token of an issued link that is neither
    revoked nor expired, and it then grants exactly the school and the students
    of that link. *)
Theorem portal_refines_links es w now tok : Inj (=) (=) sha256 -> Forall event_ok es -> w_tokens w = [] ->
  (forall r, (verifyParentToken sha256 cfg now tok (run es w)).2 = Ok r ->
     exists l, (l ∈ links (w_students w) es) /\ opens now tok l /\ grants r l) /\
  (forall l, l ∈ links (w_students w) es -> opens now tok l ->
     exists r, (verifyParentToken sha256 cfg now tok (run es w)).2 = Ok r /\ grants r l).
Proof.
  intros Hinj He Hw. pose proof (sim_run (w_students w) es w He Hw eq_refl) as Hsim. split.
  - intros r. by apply (accepted_opens (w_students w)).
  - intros l. by apply (open_accepted (w_students w)).
Qed.

(** *** Whom a link covers *)

(** Every student a link covers was a student of the link's school when it was issued. *)
Lemma resolved_in_school sid ids email ss students : _resolveStudents sha256 sid ids email ss = Ok students ->
  Forall (fun s => (s ∈ ss) /\ in_school sid s = true) students.
Proof.
  unfold _resolveStudents. intros H. apply Forall_forall. intros s Hs. revert H.
  destruct (negb (bool_decide (ids = []))); [|destruct (str_truthy email); [|done]]; cbv zeta;
    [destruct (negb _); [done|]|destruct (bool_decide _); [done|]]; intros [= <-];
    apply elem_of_filterb in Hs as [Hb Hs]; split; try done; by apply andb_prop in Hb as [? _].
Qed.

Lemma close_elem hit l ls : l ∈ close hit ls -> exists l', (l' ∈ ls) /\ lv_school l = lv_school l' /\ lv_students l = lv_students l'.
Proof. intros (l' & -> & Hl)%list_elem_of_fmap. exists l'. split; [done|]. by destruct (hit l'). Qed.

Theorem links_cover_school_students ss es l : l ∈ links ss es ->
  Forall (fun id => exists s, (s ∈ ss) /\ in_school (lv_school l) s = true /\ s_studentId s = id) (lv_students l).
Proof.
  set (covered l := Forall (fun id => exists s, (s ∈ ss) /\ in_school (lv_school l) s = true /\ s_studentId s = id) (lv_students l)).
  assert (forall ls, Forall covered ls -> Forall covered (foldl (spec_step ss) ls es)) as H.
  { induction es as [|e es IH]; intros ls Hls; [done|]. cbn [foldl]. apply IH. clear IH.
    rewrite Forall_forall in Hls. apply Forall_forall. intros x Hx. destruct e; cbn [spec_step] in Hx.
    - destruct (_resolveStudents _ _ _ _ _) as [students|] eqn:E; [|by apply Hls]. destruct (existsb _ _); [by apply Hls|].
      apply elem_of_app in Hx as [Hx| ->%list_elem_of_singleton]; [by apply Hls|]. unfold covered. cbn.
      apply resolved_in_school in E. apply Forall_fmap. eapply Forall_impl; [done|]. intros s [? ?]. by exists s.
    - by apply Hls.
    - apply close_elem in Hx as (y & Hy & E1 & E2). unfold covered. rewrite E1, E2. by apply Hls.
    - apply close_elem in Hx as (y & Hy & E1 & E2). unfold covered. rewrite E1, E2. by apply Hls.
    - apply elem_of_filterb in Hx as [_ Hx]. by apply Hls. }
  intros Hl. specialize (H [] ltac:(constructor)). rewrite Forall_forall in H. by apply H.
Qed.

(** ** What a parent reaches *)

Definition mine (p : parent) (schoolId studentId : string) : Prop := schoolId = pa_schoolId p /\ studentId ∈ pa_studentIds p.

(** The payments of one student that are not deleted. *)
Definition student_payments (p : parent) (st : string) (w : world) : list payment :=
  List.filter (fun x => bool_decide (p_schoolId x = pa_schoolId p /\ p_studentId x = st /\ p_deletedAt x = None)) (Dispute.payments (w_db w)).

Definition reply_scoped (p : parent) (w : world) (r : reply) : Prop :=
  match r with
  | Fail _ _ | Preferences _ => True
  | Overview views _ =>
    Forall (fun v => (v_student v ∈ w_students w) /\ mine p (s_schoolId (v_student v)) (s_studentId (v_student v)) /\
      v_balance v = _balance (v_student v) /\
      match v_plan v with
      | None => True
      | Some sum => exists now pl, (pl ∈ w_plans w) /\ mine p (PaymentPlan.planSchool pl) (PaymentPlan.planStudent pl) /\
          PaymentPlan.planStudent pl = s_studentId (v_student v) /\ sum = _summarisePlan now pl
      end) views
  | History _ _ total ps =>
    exists st, st ∈ pa_studentIds p /\ total = length (student_payments p st w) /\ Forall (fun x => x ∈ student_payments p st w) ps
  | ReceiptOut r => (r ∈ w_receipts w) /\ mine p (rc_schoolId r) (rc_studentId r)
  | Disputed d => mine p (Dispute.d_school d) (Dispute.d_student d)
  | DuplicateDispute id =>
    exists d x, (d ∈ Dispute.disputes (w_db w)) /\ Dispute.d_id d = id /\ Dispute.d_school d = pa_schoolId p /\
      (x ∈ Dispute.payments (w_db w)) /\ p_txHash x = Dispute.d_tx d /\ mine p (p_schoolId x) (p_studentId x)
  | LinkOut _ | Links _ | Revoked _ | RevokedCount _ => False
  end.

(** The only writes: the reminder preference and the hold of linked students, and
    new disputes about their payments; payments are never touched. *)
Definition writes_scoped (p : parent) (w w' : world) : Prop :=
  Forall2 (fun s s' => s' = s \/ (mine p (s_schoolId s) (s_studentId s) /\ exists o, s' = set_opt_out o s)) (w_students w) (w_students w') /\
  (exists ds, Dispute.disputes (w_db w') = Dispute.disputes (w_db w) ++ ds /\
     Forall (fun d => mine p (Dispute.d_school d) (Dispute.d_student d)) ds) /\
  Dispute.payments (w_db w') = Dispute.payments (w_db w) /\
  (forall sid st, ~ mine p sid st -> Dispute.holds (w_db w') !! (sid, st) = Dispute.holds (w_db w) !! (sid, st)) /\
  w_tokens w' = w_tokens w /\ w_receipts w' = w_receipts w /\ w_plans w' = w_plans w.

Inductive parent_handler : (parent -> world -> world * reply) -> Prop :=
| PH_overview now : parent_handler (getOverview now)
| PH_history st page limit : parent_handler (for_student st (fun p => getPaymentHistory p st page limit))
| PH_receipt tx fmt : parent_handler (fun p => getReceipt p tx fmt)
| PH_dispute sla now id tx why by_ : parent_handler (fun p => raiseDispute sla now id p tx why by_)
| PH_preferences st o : parent_handler (for_student st (fun p => updatePreferences p st o)).

Lemma writes_refl p w w' : w_students w' = w_students w -> w_db w' = w_db w -> w_tokens w' = w_tokens w ->
  w_receipts w' = w_receipts w -> w_plans w' = w_plans w -> writes_scoped p w w'.
Proof.
  unfold writes_scoped. intros -> -> -> -> ->. split_and!; try done; [|exists []; by rewrite app_nil_r].
  induction (w_students w); constructor; [by left|done].
Qed.

Ltac unwritten := split; [exact Logic.I|by apply writes_refl].

Lemma payments_of_student p st w : payments_of (pa_schoolId p) st w = rev (student_payments p st w).
Proof.
  unfold payments_of, student_payments. f_equal. apply List.filter_ext. intros x.
  by rewrite !bool_decide_and, andb_assoc.
Qed.

Lemma history_scoped p st page limit w : st ∈ pa_studentIds p -> reply_scoped p w (getPaymentHistory p st page limit w).2.
Proof.
  intros Hst. cbn. exists st. rewrite payments_of_student, length_rev. split_and!; [done|done|].
  apply Forall_forall. intros x Hx. apply list_elem_of_lookup in Hx as [i Hi]. apply lookup_take_Some in Hi as [Hi _].
  rewrite lookup_drop in Hi. apply list_elem_of_lookup_2 in Hi. by apply list_elem_of_In, in_rev, list_elem_of_In in Hi.
Qed.

Lemma dispute_scoped sla now id p tx why by_ w :
  let '(w', r) := raiseDispute sla now id p tx why by_ w in reply_scoped p w r /\ writes_scoped p w w'.
Proof.
  unfold raiseDispute. destruct tx as [|tx|]; [unwritten| |unwritten].
  destruct (negb (str_truthy tx)); [unwritten|]. destruct (_ || _); [unwritten|]. cbv zeta.
  destruct (Dispute.find_payment _ _ _) as [x|] eqn:Ep; [|unwritten].
  destruct (bool_decide_reflect (p_studentId x ∈ pa_studentIds p)) as [Hin|]; [|unwritten]. cbn [negb].
  destruct (List.find _ (Dispute.disputes (w_db w))) as [d0|] eqn:Ed.
  { split; [|by apply writes_refl]. apply find_some in Ed as [Hd0 Ed]. apply andb_prop in Ed as [Ed _]. apply andb_prop in Ed as [Ed1 Ed2].
    apply bool_decide_eq_true in Ed1, Ed2. unfold Dispute.find_payment in Ep. apply find_some in Ep as [Hx Ep].
    rewrite !andb_true_iff, !bool_decide_eq_true in Ep. cbn. exists d0, x. rewrite !list_elem_of_In. split_and!; try done; try (split; [tauto|done]).
    destruct Ep as [[Ep1 Ep2] ?]. congruence. }
  destruct (negb _); [unwritten|].
  set (d := portal_dispute _ _ _ _ _ _ _ _).
  assert (Dispute.d_school (Dispute.pre_save now d) = pa_schoolId p /\ Dispute.d_student (Dispute.pre_save now d) = p_studentId x) as [E1 E2].
  { unfold Dispute.pre_save. cbn [Dispute.d_slaDeadline d portal_dispute]. repeat case_match; done. }
  assert (mine p (Dispute.d_school (Dispute.pre_save now d)) (Dispute.d_student (Dispute.pre_save now d))) as Hm by (by rewrite E1, E2).
  split; [done|]. split_and!; cbn; try done.
  - induction (w_students w); constructor; [by left|done].
  - exists [Dispute.pre_save now d]. split; [done|]. by constructor.
  - intros sid st Hn. rewrite lookup_insert_ne; [done|]. intros [= <- <-]. by apply Hn.
Qed.

Lemma preferences_scoped p st o w : st ∈ pa_studentIds p ->
  let '(w', r) := updatePreferences p st o w in reply_scoped p w r /\ writes_scoped p w w'.
Proof.
  intros Hst. unfold updatePreferences. destruct o as [o|]; [|unwritten]. cbv zeta.
  destruct (List.find _ _) as [s0|]; [|unwritten]. split; [done|]. split_and!; cbn; try done.
  - induction (w_students w) as [|s ss IH]; cbn; constructor; [|done].
    destruct (in_school (pa_schoolId p) s && bool_decide (s_studentId s = st)) eqn:E; [|by left]. right. split; [|by exists o].
    apply andb_prop in E as [E1 E2]. apply andb_prop in E1 as [E1 _]. apply bool_decide_eq_true in E1, E2. by subst st.
  - exists []. by rewrite app_nil_r.
Qed.

Lemma handler_scoped h p w : parent_handler h -> let '(w', r) := h p w in reply_scoped p w r /\ writes_scoped p w w'.
Proof.
  intros [now|st page limit|tx fmt|sla now id tx why by_|st o].
  - cbn. split; [|by apply writes_refl]. apply Forall_fmap, Forall_forall. intros s Hs.
    apply elem_of_filterb in Hs as [Hs Hin]. apply andb_prop in Hs as [H1 H2]. apply andb_prop in H1 as [H1 _].
    apply bool_decide_eq_true in H1, H2. cbn. split_and!; [done|by split|done|].
    destruct (plan_of _ _) as [pl|] eqn:E; [|done]. cbn. unfold plan_of in E. apply find_some in E as [Hpl E].
    apply bool_decide_eq_true in E. apply in_rev, filter_In in Hpl as [Hpl Hf]. rewrite !andb_true_iff, !bool_decide_eq_true in Hf.
    exists now, pl. split_and!; [by apply list_elem_of_In|by split; tauto|done|done].
  - unfold for_student, requireLinkedStudent. case_bool_decide; [|unwritten].
    pose proof (history_scoped p st page limit w) as Hh. destruct (getPaymentHistory _ _ _ _ _) as [w' r] eqn:E.
    split; [by apply Hh|]. injection E as <- _. by apply writes_refl.
  - unfold getReceipt. destruct (List.find _ _) as [r|] eqn:Hf; [|unwritten].
    destruct (bool_decide_reflect (rc_studentId r ∈ pa_studentIds p)) as [Hin|]; [|unwritten]. cbn [negb].
    apply find_some in Hf as [Hmem Hr]. apply andb_prop in Hr as [Hr _]. apply andb_prop in Hr as [_ Hr].
    apply bool_decide_eq_true in Hr. apply list_elem_of_In in Hmem. destruct (negb _); (split; [done|by apply writes_refl]).
  - apply dispute_scoped.
  - unfold for_student, requireLinkedStudent. case_bool_decide; [|unwritten]. by apply preferences_scoped.
Qed.

(** C30: on every parent route, whatever the token and the parameters: the overview
    shows students of the presented link's school and list only, each with its own
    balance and the summary of a plan of that school and student; a history counts
    and shows payments of one linked student of the school only; a receipt and a
    dispute that is opened are of a linked student; and a refusal as duplicate
    names a dispute of the school about a transaction that also paid for a linked
    student (with several operations in one transaction it may be another
    student's: [duplicate_names_other_family]).  Nothing is changed but the reminder
    preference and the hold of linked students and new disputes about their
    payments; without an accepted token nothing is shown or changed. *)
Theorem parent_sees_only_linked_students now q h w : parent_handler h ->
  match requireParentAuth sha256 cfg now q w with
  | (w1, Ok p) => let '(w', r) := parent_route sha256 cfg now q h w in reply_scoped p w1 r /\ writes_scoped p w1 w'
  | (w1, Throw (status, code)) => parent_route sha256 cfg now q h w = (w, Fail status code)
  end.
Proof.
  intros Hh. unfold parent_route. destruct (requireParentAuth sha256 cfg now q w) as [w1 [p|[status code]]] eqn:E.
  - by apply handler_scoped.
  - revert E. unfold requireParentAuth, verifyParentToken. destruct (negb _); [by intros [= <- <- <-]|].
    destruct (portal_verify _ _ _ _) as [c|[]]; [|by intros [= <- <- <-]..]. destruct (negb _); [by intros [= <- <- <-]|].
    destruct (List.find _ _) as [r|]; [|by intros [= <- <- <-]]. destruct (negb _); [by intros [= <- <- <-]|].
    destruct (pt_revoked r); [by intros [= <- <- <-]|]. destruct (_ <=? _); [by intros [= <- <- <-]|done].
Qed.
End Links.

(** ** Paging and disputes *)

Lemma pages_concat {A} (l : list A) (n k : nat) :
  concat (map (fun i => take n (drop (i * n) l)) (seq 0 k)) = take (k * n) l.
Proof.
  induction k as [|k IH]; [done|]. rewrite seq_S, map_app, concat_app, IH. cbn [map concat]. rewrite app_nil_r, Nat.add_0_l.
  rewrite take_take_drop. f_equal. cbn [Nat.mul]. lia.
Qed.

Definition page_of (p : parent) (st : string) (limit : option Z) (w : world) (i : nat) : list payment :=
  match (getPaymentHistory p st (Some (Z.of_nat i + 1)) limit w).2 with History _ _ _ ps => ps | _ => [] end.

(** The pages of a history, put together, are all payments of the student, newest
    first, each once. *)
Theorem history_pages_complete p st limit w k :
  (length (payments_of (pa_schoolId p) st w) <= k * Z.to_nat (AuditChain.clamp_limit limit 20 100))%nat ->
  concat (map (page_of p st limit w) (seq 0 k)) = payments_of (pa_schoolId p) st w.
Proof.
  intros Hk. rewrite <- (take_ge (payments_of (pa_schoolId p) st w) (k * Z.to_nat (AuditChain.clamp_limit limit 20 100))) at 1 by done.
  rewrite <- pages_concat. f_equal. apply map_ext. intros i. unfold page_of, getPaymentHistory. cbv zeta. cbn [snd].
  destruct (Z.eqb_spec (Z.of_nat i + 1) 0); [lia|]. f_equal. f_equal.
  pose proof (AuditChain.clamp_limit_range limit 20 100 ltac:(lia)). rewrite Z.max_l by lia. nia.
Qed.

(** A dispute raised in the portal keeps the invariant of the disputes. *)
Theorem portal_dispute_invariant sla now id p tx why by_ w :
  Dispute.dispute_inv (w_db w) -> id ∉ map Dispute.d_id (Dispute.disputes (w_db w)) ->
  Dispute.dispute_inv (w_db (raiseDispute sla now id p tx why by_ w).1).
Proof.
  intros Hi Hid. unfold raiseDispute. destruct tx as [|tx|]; [done| |done].
  destruct (negb (str_truthy tx)); [done|]. destruct (_ || _); [done|]. cbv zeta.
  destruct (Dispute.find_payment _ _ _) as [x|]; [|done]. destruct (negb _); [done|]. destruct (List.find _ _); [done|].
  set (d := Dispute.pre_save _ _). destruct (Dispute.dispute_valid d && Dispute.index_ok _ d) eqn:E; [|done].
  apply andb_prop in E as [_ E]. cbn [fst w_db with_db _audit negb]. apply Dispute.add_inv; [done| | |done].
  - unfold d. by destruct (Dispute.pre_save_keeps now (portal_dispute sla now id (pa_schoolId p) tx (p_studentId x)
      (portal_raiser by_) (text (Dispute.trimmed why)))) as [-> _].
  - unfold d, Dispute.pre_save, Dispute.dispute_wf. cbn. repeat case_match; cbn; split; done.
Qed.

(** ** An instance and worked inputs *)

Abbreviation clear_token := ((string * string * string) * string * string * Z)%type.
Definition clear_portal_sign (p : pclaims) (key aud : string) (ttl now : Z) : string :=
  bits (encode (((pc_typ p, pc_sid p, pc_jti p), key, aud, now + ttl) : clear_token)).
Definition clear_portal_verify (tok key aud : string) (t : Z) : result jwt_error pclaims :=
  match unbits tok ≫= (decode : positive -> option clear_token) with
  | Some (ty, sid, jti, k, a, exp) =>
    if negb (bool_decide (k = key) && bool_decide (a = aud)) then Throw JsonWebTokenError
    else if exp <=? t then Throw TokenExpiredError else Ok (PClaims ty sid jti)
  | None => Throw JsonWebTokenError
  end.

#[refine] Definition clear_portal : PortalJwt := {| portal_sign := clear_portal_sign; portal_verify := clear_portal_verify |}.
Proof.
  - intros. unfold clear_portal_sign. by destruct (encode _).
  - intros p key aud ttl now t Ht. unfold clear_portal_verify, clear_portal_sign. rewrite unbits_bits. cbn [mbind option_bind].
    rewrite decode_encode, !bool_decide_true by done. cbn [andb negb]. destruct p.
    by destruct (Z.leb_spec (now + ttl) t); [lia|].
  - intros p key aud ttl now t Ht. unfold clear_portal_verify, clear_portal_sign. rewrite unbits_bits. cbn [mbind option_bind].
    rewrite decode_encode, !bool_decide_true by done. cbn [andb negb]. destruct p.
    by destruct (Z.leb_spec (now + ttl) t); [|lia].
Defined.

Definition cfg0 : config := Config "k" 30.
Definition pupil (sid id : string) : student := Student sid id "p@a.org" None (of_Z 100) (of_Z 40) None false None.
Definition world0 : world :=
  World (Dispute.db0 S_SUCCESS) [pupil "SCH1" "ST1"; pupil "SCH1" "ST2"; pupil "SCH2" "ST1"] [] [] [] [].
Definition history0 : list event :=
  [Issue 5000 "t1" "SCH1" ["ST1"] "" (Some 7) "staff"; Issue 6000 "t2" "SCH1" ["ST2"] "" None "staff";
   Revoke 9000 "SCH1" "t2" "staff" None].
Definition token1 : string := @clear_portal_sign (PClaims "parent" "SCH1" "t1") "k" PORTAL_AUDIENCE (7 * DAY_SECONDS) 5.
Definition link1 : live := Live "SCH1" "t1" token1 ["ST1"] (5000 + 7 * DAY_SECONDS * 1000) (5 + 7 * DAY_SECONDS) false.

Lemma portal_refines_links_witness :
  exists r, (@verifyParentToken clear_portal (fun x => x) cfg0 10000 token1
               (@run clear_portal (fun x => x) cfg0 history0 world0)).2 = Ok r /\ pt_studentIds r = ["ST1"].
Proof.
  destruct (proj2 (@portal_refines_links clear_portal (fun x => x) cfg0 history0 world0 10000 token1
    ltac:(by intros x y) ltac:(repeat constructor) ltac:(reflexivity)) link1) as (r & Hr & Hg).
  - vm_compute. apply list_elem_of_here.
  - vm_compute. repeat split.
  - exists r. split; [exact Hr|]. exact (proj2 (proj2 Hg)).
Defined.

Definition played0 : world := @run clear_portal (fun x => x) cfg0 history0 world0.

Lemma parent_sees_only_linked_students_witness :
  exists p, (@requireParentAuth clear_portal (fun x => x) cfg0 10000 (Request token1 "") played0).2 = Ok p /\
    reply_scoped p (@requireParentAuth clear_portal (fun x => x) cfg0 10000 (Request token1 "") played0).1
      (@parent_route clear_portal (fun x => x) cfg0 10000 (Request token1 "") (getOverview 10000) played0).2.
Proof.
  pose proof (@parent_sees_only_linked_students clear_portal (fun x => x) cfg0 10000 (Request token1 "")
    (getOverview 10000) played0 (PH_overview 10000)) as H.
  assert (exists w1 p, @requireParentAuth clear_portal (fun x => x) cfg0 10000 (Request token1 "") played0 = (w1, Ok p)) as (w1 & p & E).
  { eexists _, _. vm_compute. reflexivity. }
  rewrite E in H |- *. exists p. split; [reflexivity|]. destruct (parent_route _ _ _ _ _ _). exact (proj1 H).
Defined.

(** Staff who flag a payment move it to [DISPUTED]; the portal opens the dispute and
    leaves the payment as it was. *)
Definition parent1 : parent := Parent "t1" (p_schoolId (Dispute.pay 1 "aa" S_SUCCESS)) [p_studentId (Dispute.pay 1 "aa" S_SUCCESS)] 0.
Theorem portal_dispute_leaves_payment :
  let b := w_db (raiseDispute 72 0 1 parent1 (Dispute.Str "aa") (Dispute.Str "wrong amount") Dispute.Absent world0).1 in
  (length (Dispute.disputes b), map p_status (Dispute.payments b)) = (1%nat, [S_SUCCESS; S_SUCCESS]) /\
  map p_status (Dispute.payments (Dispute.flagDispute 72 0 1 (Dispute.flag_req "aa") (w_db world0)).1) = [S_DISPUTED; S_SUCCESS].
Proof. split; vm_compute; reflexivity. Qed.

(** Two operations of one transaction pay for two families.  Staff open a
    dispute for the first one, whose payment is deleted later: the other parent is
    refused and told the id of that dispute. *)
Definition op_of (i opIndex : Z) (st : string) (deletedAt : option Z) : payment :=
  Payment i "SCH1" st "aa" opIndex (of_Z 10) (Some "XLM") S_SUCCESS false (p_confirmationState (Dispute.pay 1 "aa" S_SUCCESS)) (p_confirmationStatus (Dispute.pay 1 "aa" S_SUCCESS)) None deletedAt.
Definition two_families (deletedAt : option Z) (ds : list Dispute.dispute) : world :=
  World (Dispute.Db ds [op_of 1 0 "STU1" deletedAt; op_of 2 1 "ST1" None] ∅ []) [pupil "SCH1" "STU1"; pupil "SCH1" "ST1"] [] [] [] [].
Theorem duplicate_names_other_family :
  let ds := Dispute.disputes (Dispute.flagDispute 72 0 7 (Dispute.flag_req "aa") (w_db (two_families None []))).1 in
  map (fun d => (Dispute.d_id d, Dispute.d_student d)) ds = [(7%nat, "STU1")] /\
  (raiseDispute 72 5 8 (Parent "t1" "SCH1" ["ST1"] 0) (Dispute.Str "aa") (Dispute.Str "wrong amount") Dispute.Absent
     (two_families (Some 3) ds)).2 = DuplicateDispute 7.
Proof. split; vm_compute; reflexivity. Qed.
End ParentPortal.
