(* ===== verification/Reminders.v ===== *)
(** Fee reminders: backend/src/services/reminderService.js and
    backend/src/models/reminderLogModel.js.  The calendar (Intl), the providers and
    the database's answers are parameters; the send itself is a recorded event. *)

From Stdlib Require Import ZArith Lia Sorted.
From stdpp Require Import base strings gmap relations list.
From S2P Require Import Prelude JsNumber JsString.
Local Open Scope string_scope.
Local Open Scope Z_scope.
Local Open Scope list_scope.

Module Reminders.

Definition DAY_MS : Z := 24 * 60 * 60 * 1000.
Definition CIRCUIT_FAILURE_THRESHOLD : Z := 5.
Definition CIRCUIT_HALF_OPEN_AFTER_MS : Z := 10 * 60 * 1000.

Record student := Student {
  s_schoolId : string; s_studentId : string; s_feePaid : bool; s_reminderOptOut : bool; s_disputeHold : bool;
  s_parentEmail : string; s_parentEmailSuppressed : bool; s_parentPhone : string; s_academicYear : string;
  s_feeAmount : number; s_remainingBalance : option number; s_paymentDeadline : option Z;
  s_reminderCount : Z; s_reminderPeriod : string; s_lastReminderSentAt : option Z }.

Record school := School {
  sc_schoolId : string; sc_isActive : bool; sc_timezone : string; sc_reminderEnabled : option bool;
  sc_startHour : option Z; sc_endHour : option Z; sc_channel : string; sc_currentFeePeriod : string }.

Inductive channel := email | sms | whatsapp.
#[export] Instance channel_eq_dec : EqDecision channel.
Proof. solve_decision. Defined.

Inductive log_status := sent | skipped | failed.
Record log := Log {
  lg_schoolId : string; lg_studentId : string; lg_windowStart : Z; lg_createdAt : Z; lg_status : log_status;
  lg_channels : list channel; lg_escalation : Z }.
Definition log_key (l : log) : string * string * Z := (lg_schoolId l, lg_studentId l, lg_windowStart l).

(** What a provider answers; [Fault] is an exception. *)
Inductive delivery := Sent | NotSent | Fault.

(** The configuration (the TTL of the logs is 0 when the variable is unset or no
    number) and the outside world: local hour and local date (days since
    the epoch) of a time in a zone; the answers of the providers and whether the
    insertion of a log fails, by the number of the student in the run. *)
Record env := Env {
  MAX_COUNT : Z; COOLDOWN_HOURS : Z; REMINDER_LOG_TTL_SECONDS : Z;
  emailConfigured : bool; twilioConfigured : bool; smtpOk : bool;
  local_hour : string -> Z -> Z; local_date : string -> Z -> Z;
  clock : nat -> Z; send : channel -> nat -> delivery; claim_fault : nat -> bool }.

Section Service.
Variable e : env.

(** models/reminderLogModel.js *)
Definition TTL_SECONDS : Z := if REMINDER_LOG_TTL_SECONDS e =? 0 then 90 * 24 * 60 * 60 else REMINDER_LOG_TTL_SECONDS e.

Record channel_status := ChannelStatus { cs_enabled : bool; cs_email : bool; cs_sms : bool }.
Definition getReminderChannelStatus : channel_status :=
  ChannelStatus (emailConfigured e || twilioConfigured e) (emailConfigured e) (twilioConfigured e).

Definition isInSendWindow (now : Z) (sch : school) : bool :=
  let hour := local_hour e (str_or (sc_timezone sch) "UTC") now in
  (default 8 (sc_startHour sch) <=? hour) && (hour <? default 18 (sc_endHour sch)).

(** [Math.ceil] of the days left. *)
Definition computeEscalationLevel (now : Z) (s : student) : Z :=
  match s_paymentDeadline s with
  | None => 1
  | Some deadline =>
    let days := - ((- (deadline - now)) / DAY_MS) in
    if days <=? 0 then 3 else if days <=? 6 then 2 else 1
  end.

Definition hasEmail (s : student) : bool := str_truthy (s_parentEmail s) && negb (s_parentEmailSuppressed s).
Definition hasPhone (s : student) : bool := str_truthy (s_parentPhone s) && twilioConfigured e.
Definition currentPeriod (sch : school) (s : student) : string := str_or (sc_currentFeePeriod sch) (s_academicYear s).

Definition isEligible (now : Z) (sch : school) (s : student) : bool :=
  if s_feePaid s then false else
  if s_reminderOptOut s then false else
  if s_disputeHold s then false else
  if MAX_COUNT e <=? s_reminderCount s then false else
  if negb (hasEmail s) && negb (hasPhone s) then false else
  if str_truthy (currentPeriod sch s) && negb (bool_decide (s_reminderPeriod s = currentPeriod sch s)) then true else
  match s_lastReminderSentAt s with
  | Some t => negb (now - t <? COOLDOWN_HOURS e * 60 * 60 * 1000)
  | None => true
  end.

Definition computeWindowStart (timezone : string) (now : Z) : Z := local_date e timezone now * DAY_MS.

Definition determineReminderChannels (sch : school) (s : student) : list channel :=
  let pref := str_or (sc_channel sch) "email" in
  let chosen :=
    if bool_decide (pref = "sms") then (if hasPhone s then [sms] else [])
    else if bool_decide (pref = "whatsapp") then (if hasPhone s then [whatsapp] else [])
    else if bool_decide (pref = "email-sms") || bool_decide (pref = "both") then
      (if hasEmail s then [email] else []) ++ (if hasPhone s then [sms] else [])
    else (if hasEmail s then [email] else []) in
  if bool_decide (chosen = []) && hasPhone s then [sms] else chosen.

(** ** One run *)

Inductive circuit_state := Closed | Open_ | HalfOpen.
#[export] Instance circuit_state_eq_dec : EqDecision circuit_state.
Proof. solve_decision. Defined.

Record summary := Summary { n_schools : nat; n_eligible : Z; n_sent : Z; n_failed : Z; n_skipped : Z }.
Definition skip1 (n : summary) := Summary (n_schools n) (n_eligible n) (n_sent n) (n_failed n) (n_skipped n + 1).
Definition eligible1 (n : summary) := Summary (n_schools n) (n_eligible n + 1) (n_sent n) (n_failed n) (n_skipped n).
Definition sent1 (n : summary) := Summary (n_schools n) (n_eligible n) (n_sent n + 1) (n_failed n) (n_skipped n).
Definition failed1 (n : summary) := Summary (n_schools n) (n_eligible n) (n_sent n) (n_failed n + 1) (n_skipped n).

(** The collections, the breaker of the process, the count of students examined
    (which indexes the clock and the answers) and the messages that went out. *)
Record state := State {
  students : list student; logs : list log;
  circuit : circuit_state; failures : Z; openedAt : Z;
  steps : nat; summ : summary; outbox : list (string * string * Z * channel) }.

Definition set_summ (f : summary -> summary) (st : state) : state :=
  State (students st) (logs st) (circuit st) (failures st) (openedAt st) (steps st) (f (summ st)) (outbox st).
Definition set_circuit (c : circuit_state) (opened : Z) (st : state) : state :=
  State (students st) (logs st) c (failures st) opened (steps st) (summ st) (outbox st).
Definition set_failures (n : Z) (st : state) : state :=
  State (students st) (logs st) (circuit st) n (openedAt st) (steps st) (summ st) (outbox st).
Definition set_logs (ls : list log) (st : state) : state :=
  State (students st) ls (circuit st) (failures st) (openedAt st) (steps st) (summ st) (outbox st).
Definition set_students (ss : list student) (st : state) : state :=
  State ss (logs st) (circuit st) (failures st) (openedAt st) (steps st) (summ st) (outbox st).
Definition next_step (st : state) : state :=
  State (students st) (logs st) (circuit st) (failures st) (openedAt st) (S (steps st)) (summ st) (outbox st).
Definition posted (k : string * string * Z) (cs : list channel) (st : state) : state :=
  State (students st) (logs st) (circuit st) (failures st) (openedAt st) (steps st) (summ st) (outbox st ++ map (pair k) cs).

(** The unique index on school, student and day. *)
Definition claim (now : Z) (k : string * string * Z) (ls : list log) : option (list log) :=
  if existsb (fun l => bool_decide (log_key l = k)) ls then None
  else Some (ls ++ [Log k.1.1 k.1.2 k.2 now sent [] 1]).

(** The channels that sent, or the exception of the first that threw, with the
    channels that had sent before. *)
Fixpoint send_all (i : nat) (cs : list channel) : list channel * bool :=
  match cs with
  | [] => ([], true)
  | c :: cs' =>
    match send e c i with
    | Fault => ([], false)
    | Sent => let '(l, ok) := send_all i cs' in (c :: l, ok)
    | NotSent => send_all i cs'
    end
  end.

Definition update_log (k : string * string * Z) (status : log_status) (cs : list channel) (level : option Z) (ls : list log) : list log :=
  map (fun l => if bool_decide (log_key l = k)
    then Log (lg_schoolId l) (lg_studentId l) (lg_windowStart l) (lg_createdAt l) status cs (default (lg_escalation l) level) else l) ls.

Definition reminded (now : Z) (period : string) (s : student) : student :=
  Student (s_schoolId s) (s_studentId s) (s_feePaid s) (s_reminderOptOut s) (s_disputeHold s) (s_parentEmail s)
    (s_parentEmailSuppressed s) (s_parentPhone s) (s_academicYear s) (s_feeAmount s) (s_remainingBalance s)
    (s_paymentDeadline s) (s_reminderCount s + 1) period (Some now).

Definition same_student (s : student) (x : student) : bool :=
  bool_decide (s_schoolId x = s_schoolId s) && bool_decide (s_studentId x = s_studentId s).

(** The handler of exceptions; true leaves the loop over the school's students. *)
Definition on_failure (now : Z) (st : state) : state * bool :=
  let st := set_failures (failures st + 1) (set_summ failed1 st) in
  if (CIRCUIT_FAILURE_THRESHOLD <=? failures st) && bool_decide (circuit st = Closed) then (set_circuit Open_ now st, true)
  else if bool_decide (circuit st = HalfOpen) then (set_circuit Open_ now st, true)
  else (st, false).

Definition remaining (s : student) : number :=
  match s_remainingBalance s with Some b => b | None => num_max (of_Z 0) (num_or (s_feeAmount s) (of_Z 0)) end.

(** After the slot of the day is claimed: send, then record. *)
Definition deliver (now : Z) (sch : school) (s : student) (k : string * string * Z) (st : state) : state * bool :=
  let '(went, ok) := send_all (steps st) (determineReminderChannels sch s) in
  let st := posted k went st in
  if negb ok then on_failure now st else
  if bool_decide (went = []) then (set_summ skip1 (set_logs (update_log k skipped [] None (logs st)) st), false) else
  let st := set_students (map (fun x => if same_student s x then reminded now (currentPeriod sch s) x else x) (students st)) st in
  let st := set_logs (update_log k sent went (Some (computeEscalationLevel now s)) (logs st)) st in
  (set_failures 0 (set_circuit Closed (openedAt st) (set_summ sent1 st)), false).

Definition remind_one (now : Z) (sch : school) (s : student) (st : state) : state * bool :=
  if negb (isEligible now sch s) then (set_summ skip1 st, false) else
  let closed_now := bool_decide (circuit st = Open_) && (now - openedAt st <? CIRCUIT_HALF_OPEN_AFTER_MS) in
  if closed_now then (set_summ skip1 st, false) else
  let st := if bool_decide (circuit st = Open_) then set_circuit HalfOpen (openedAt st) st else st in
  let st := set_summ eligible1 st in
  if num_le (remaining s) (of_Z 0) then (set_summ skip1 st, false) else
  let k := (sc_schoolId sch, s_studentId s, computeWindowStart (str_or (sc_timezone sch) "UTC") now) in
  if claim_fault e (steps st) then on_failure now st else
  match claim now k (logs st) with
  | None => (set_summ skip1 st, false)
  | Some ls => deliver now sch s k (set_logs ls st)
  end.

(** The students of a school as they were read; [break] leaves the loop. *)
Fixpoint remind_all (sch : school) (snapshot : list student) (st : state) : state :=
  match snapshot with
  | [] => st
  | s :: rest =>
    let '(st, stop) := remind_one (clock e (steps st)) sch s st in
    let st := next_step st in
    if stop then st else remind_all sch rest st
  end.

Definition unpaid_of (sch : school) (ss : list student) : list student :=
  List.filter (fun s => bool_decide (s_schoolId s = sc_schoolId sch) && negb (s_feePaid s) && negb (s_reminderOptOut s)
    && ((emailConfigured e && str_truthy (s_parentEmail s)) || (twilioConfigured e && str_truthy (s_parentPhone s)))) ss.

Definition remind_school (sch : school) (st : state) : state :=
  if bool_decide (sc_reminderEnabled sch = Some false) then set_summ skip1 st else
  if negb (isInSendWindow (clock e (steps st)) sch) then set_summ skip1 st else
  remind_all sch (unpaid_of sch (students st)) st.

Definition processReminders (schools : list school) (st : state) : state :=
  let zero := set_summ (fun _ => Summary 0 0 0 0 0) st in
  if negb (cs_enabled getReminderChannelStatus) then zero else
  if cs_email getReminderChannelStatus && negb (smtpOk e) then zero else
  let active := List.filter sc_isActive schools in
  foldl (fun st sch => remind_school sch st) (set_summ (fun _ => Summary (length active) 0 0 0 0) st) active.

(** ** What one student's turn does *)

Definition slot (now : Z) (sch : school) (s : student) : string * string * Z :=
  (sc_schoolId sch, s_studentId s, computeWindowStart (str_or (sc_timezone sch) "UTC") now).

(** Nobody is reminded of a paid or disputed fee, against their wish, beyond the
    cap, or without a balance. *)
Definition due (now : Z) (sch : school) (s : student) : Prop :=
  isEligible now sch s = true /\ num_le (remaining s) (of_Z 0) = false.

Inductive turn (now : Z) (sch : school) (s : student) (st st' : state) : Prop :=
| Quiet : outbox st' = outbox st -> students st' = students st -> turn now sch s st st'
| Partial went : due now sch s -> outbox st' = outbox st ++ map (pair (slot now sch s)) went -> students st' = students st ->
    (exists c, c ∈ determineReminderChannels sch s /\ send e c (steps st) = Fault) -> turn now sch s st st'
| Delivered went : due now sch s -> outbox st' = outbox st ++ map (pair (slot now sch s)) went ->
    students st' = map (fun x => if same_student s x then reminded now (currentPeriod sch s) x else x) (students st) ->
    turn now sch s st st'.

Lemma on_failure_frame now st : let st' := (on_failure now st).1 in
  outbox st' = outbox st /\ students st' = students st /\ logs st' = logs st /\ steps st' = steps st.
Proof. unfold on_failure. cbv zeta. destruct (_ && _); [done|]. by destruct (bool_decide _). Qed.

Lemma send_all_fault i cs : (send_all i cs).2 = false -> exists c, (c ∈ cs) /\ send e c i = Fault.
Proof.
  induction cs as [|c cs IH]; simpl; [done|]. destruct (send e c i) eqn:E.
  - destruct (send_all i cs) as [l ok]. intros H. destruct (IH H) as (x & Hx & Ex). exists x. split; [by constructor|done].
  - intros H. destruct (IH H) as (x & Hx & Ex). exists x. split; [by constructor|done].
  - intros _. exists c. split; [constructor|done].
Qed.

Lemma deliver_turn now sch s st st1 : due now sch s -> outbox st1 = outbox st -> students st1 = students st -> steps st1 = steps st ->
  turn now sch s st (deliver now sch s (slot now sch s) st1).1 /\ steps (deliver now sch s (slot now sch s) st1).1 = steps st.
Proof.
  intros Hd Ho Hs Hn. unfold deliver. destruct (send_all (steps st1) _) as [went ok] eqn:E. destruct ok; cbn [negb].
  - destruct (bool_decide_reflect (went = [])) as [->|Hne]; cbn [fst]; split; try done.
    + apply Quiet; cbn; [by rewrite Ho, app_nil_r|done].
    + apply (Delivered _ _ _ _ _ went); cbn; [done|by rewrite Ho|by rewrite Hs].
  - destruct (on_failure_frame now (posted (slot now sch s) went st1)) as (H1 & H2 & _ & H4). split; [|by rewrite H4].
    apply (Partial _ _ _ _ _ went); [done|by rewrite H1; cbn; rewrite Ho|by rewrite H2|].
    rewrite <- Hn. apply send_all_fault. by rewrite E.
Qed.

Lemma remind_one_turn now sch s st :
  turn now sch s st (remind_one now sch s st).1 /\ steps (remind_one now sch s st).1 = steps st.
Proof.
  unfold remind_one. destruct (isEligible now sch s) eqn:He; cbn [negb]; [|split; [by apply Quiet|done]].
  destruct (_ && _); [split; [by apply Quiet|done]|].
  set (st1 := if bool_decide (circuit st = Open_) then _ else _).
  assert (outbox st1 = outbox st /\ students st1 = students st /\ steps st1 = steps st) as (H1 & H2 & H3)
    by (unfold st1; by destruct (bool_decide _)).
  destruct (num_le (remaining s) (of_Z 0)) eqn:Hr; [split; [by apply Quiet|done]|].
  destruct (claim_fault e _).
  - destruct (on_failure_frame now (set_summ eligible1 st1)) as (G1 & G2 & _ & G4).
    split; [apply Quiet; by rewrite ?G1, ?G2|by rewrite G4].
  - change (sc_schoolId sch, s_studentId s, computeWindowStart (str_or (sc_timezone sch) "UTC") now) with (slot now sch s).
    destruct (claim now (slot now sch s) _) as [ls|]; [|split; [by apply Quiet|done]]. by apply deliver_turn.
Qed.

(** ** Runs as sequences of turns *)

Definition skey (s : student) : string * string := (s_schoolId s, s_studentId s).

(** A turn is taken by a current document of an active school with reminders on. *)
Inductive rstep (st st' : state) : Prop :=
| RQuiet : outbox st' = outbox st -> students st' = students st -> rstep st st'
| RTurn now sch s : s ∈ students st -> s_schoolId s = sc_schoolId sch -> sc_isActive sch = true ->
    sc_reminderEnabled sch <> Some false -> turn now sch s st st' -> rstep st st'.

Lemma same_student_key s x : same_student s x = true <-> skey x = skey s.
Proof. unfold same_student, skey. rewrite andb_true_iff, !bool_decide_eq_true. split; [by intros [-> ->]|by intros [= -> ->]]. Qed.

Lemma reminded_keys now per s ss :
  map skey (map (fun x => if same_student s x then reminded now per x else x) ss) = map skey ss.
Proof. rewrite map_map. apply map_ext. intros x. by destruct (same_student s x). Qed.

Lemma turn_keys now sch s st st' : turn now sch s st st' -> map skey (students st') = map skey (students st).
Proof. intros [_ ->|went _ _ -> _|went _ _ ->]; [done..|]. apply reminded_keys. Qed.

Lemma rstep_keys st st' : rstep st st' -> map skey (students st') = map skey (students st).
Proof. intros [_ ->|now sch s _ _ _ _ H]; [done|]. by eapply turn_keys. Qed.

(** A turn leaves the documents of other students alone. *)
Lemma turn_others now sch s st st' x : turn now sch s st st' -> skey x <> skey s -> x ∈ students st -> x ∈ students st'.
Proof.
  intros [_ ->|went _ _ -> _|went _ _ ->] Hk Hx; [done..|]. apply list_elem_of_fmap. exists x. split; [|done].
  destruct (same_student s x) eqn:E; [|done]. by apply same_student_key in E.
Qed.

Lemma remind_all_steps sch snap st : sc_isActive sch = true -> sc_reminderEnabled sch <> Some false -> NoDup (map skey snap) ->
  Forall (fun s => (s ∈ students st) /\ s_schoolId s = sc_schoolId sch) snap -> rtc rstep st (remind_all sch snap st).
Proof.
  intros Ha Hen. revert st. induction snap as [|s snap IH]; intros st Hnd Hsnap; [done|]. cbn [remind_all].
  apply NoDup_cons in Hnd as [Hs Hnd]. apply Forall_cons in Hsnap as [[Hin Hsch] Hsnap].
  destruct (remind_one_turn (clock e (steps st)) sch s st) as [Ht _].
  destruct (remind_one _ sch s st) as [st1 stop]. cbn [fst] in Ht.
  assert (rtc rstep st (next_step st1)) as Hstep.
  { apply rtc_l with st1; [by eapply RTurn|]. apply rtc_once. by apply RQuiet. }
  destruct stop; [done|]. etrans; [exact Hstep|]. apply IH; [done|].
  rewrite Forall_forall in Hsnap |- *. intros x Hx. destruct (Hsnap x Hx) as [H1 H2]. split; [|done].
  apply (turn_others _ _ _ _ _ _ Ht); [|done]. intros E. apply Hs. rewrite <- E. by apply (list_elem_of_fmap_2 skey).
Qed.

Lemma steps_keys st st' : rtc rstep st st' -> map skey (students st') = map skey (students st).
Proof. induction 1 as [|a b c H _ IH]; [done|]. rewrite IH. by apply rstep_keys. Qed.

Lemma remind_school_steps sch st : sc_isActive sch = true -> NoDup (map skey (students st)) -> rtc rstep st (remind_school sch st).
Proof.
  intros Ha Hnd. unfold remind_school. destruct (bool_decide_reflect (sc_reminderEnabled sch = Some false)) as [|Hen].
  { apply rtc_once. by apply RQuiet. }
  destruct (negb _); [apply rtc_once; by apply RQuiet|]. apply remind_all_steps; [done..| |].
  - by apply NoDup_map_filterb.
  - apply Forall_forall. intros s Hs. apply elem_of_filterb in Hs as [Hb Hs]. split; [done|].
    apply andb_prop in Hb as [Hb _]. apply andb_prop in Hb as [Hb _]. apply andb_prop in Hb as [Hb _].
    by apply bool_decide_eq_true in Hb.
Qed.

Lemma processReminders_steps schools st : NoDup (map skey (students st)) -> rtc rstep st (processReminders schools st).
Proof.
  intros Hnd. unfold processReminders. destruct (negb _); [apply rtc_once; by apply RQuiet|].
  destruct (_ && _); [apply rtc_once; by apply RQuiet|]. cbv zeta.
  apply rtc_l with (set_summ (fun _ => Summary (length (List.filter sc_isActive schools)) 0 0 0 0) st); [by apply RQuiet|].
  assert (Forall (fun sch => sc_isActive sch = true) (List.filter sc_isActive schools)) as Hact.
  { apply Forall_forall. intros x Hx. apply elem_of_filterb in Hx. tauto. }
  set (st0 := set_summ _ st). assert (NoDup (map skey (students st0))) as Hnd0 by done. clearbody st0.
  generalize (List.filter sc_isActive schools) as l, Hact. clear Hact Hnd. intros l. revert st0 Hnd0.
  induction l as [|sch l IH]; intros st0 Hnd0 Hact; [done|]. apply Forall_cons in Hact as [H1 H2]. cbn [foldl].
  pose proof (remind_school_steps sch st0 H1 Hnd0) as Hr. etrans; [exact Hr|]. apply IH; [|done].
  by rewrite (steps_keys _ _ Hr).
Qed.

(** ** The cap *)

Definition message : Type := string * string * Z * channel.
Definition for_ (s : string * string) (m : message) : bool := bool_decide (m.1.1 = s).
(** The days on which messages about a student went out. *)
Definition days (k : string * string) (o : list message) : gset Z := list_to_set (map (fun m => m.1.2) (List.filter (for_ k) o)).

Lemma days_app k o o' : days k (o ++ o') = days k o ∪ days k o'.
Proof. unfold days. by rewrite List.filter_app, map_app, list_to_set_app_L. Qed.

Lemma days_slot k now sch s went :
  days k (map (pair (slot now sch s)) went) ⊆ (if bool_decide ((sc_schoolId sch, s_studentId s) = k) then {[(slot now sch s).2]} else ∅).
Proof.
  intros d Hd. unfold days in Hd. apply elem_of_list_to_set, list_elem_of_fmap in Hd as (m & -> & Hm).
  apply elem_of_filterb in Hm as [Hf Hm]. apply list_elem_of_fmap in Hm as (c & -> & _). unfold for_ in Hf. cbn in Hf.
  apply bool_decide_eq_true in Hf. rewrite bool_decide_true by done. cbn. set_solver.
Qed.

Lemma size_add (X Y : gset Z) d : Y ⊆ {[d]} -> (size (X ∪ Y) <= size X + 1)%nat.
Proof.
  intros HY. transitivity (size (X ∪ {[d]})); [apply subseteq_size; set_solver|].
  rewrite size_union_alt, <- (size_singleton d (C := gset Z)). pose proof (subseteq_size (C := gset Z) ({[d]} ∖ X) {[d]} ltac:(set_solver)). lia.
Qed.

Definition counted (st : state) : Prop :=
  NoDup (map skey (students st)) /\
  Forall (fun s => Z.of_nat (size (days (skey s) (outbox st))) <= s_reminderCount s <= MAX_COUNT e) (students st).

Lemma rstep_counted st st' : (forall c i, send e c i <> Fault) -> counted st -> rstep st st' -> counted st'.
Proof.
  intros Hnf [Hnd Hc] Hst. split; [by rewrite (rstep_keys _ _ Hst)|].
  destruct Hst as [-> ->|now sch s Hin Hsch _ _ Ht]; [done|].
  destruct Ht as [-> ->|went _ _ _ (c & _ & Hf)|went Hd -> ->]; [done|by apply Hnf in Hf|].
  rewrite Forall_forall in Hc. apply Forall_forall. intros x Hx. apply list_elem_of_fmap in Hx as (y & -> & Hy).
  pose proof (Hc y Hy) as Hcy. rewrite days_app.
  assert (s_reminderCount s < MAX_COUNT e) as Hlt.
  { destruct Hd as [Hd _]. unfold isEligible in Hd. do 3 (case_match; [done|]). by destruct (Z.leb_spec (MAX_COUNT e) (s_reminderCount s)). }
  destruct (same_student s y) eqn:E.
  - apply same_student_key in E. assert (y = s) as -> by (by apply (NoDup_fmap_eq skey (students st))).
    change (skey (reminded now (currentPeriod sch s) s)) with (skey s).
    change (s_reminderCount (reminded now (currentPeriod sch s) s)) with (s_reminderCount s + 1).
    pose proof (days_slot (skey s) now sch s went) as Hds. rewrite bool_decide_true in Hds by (unfold skey; by rewrite Hsch).
    pose proof (size_add (days (skey s) (outbox st)) _ _ Hds). lia.
  - cbv iota. assert (days (skey y) (map (pair (slot now sch s)) went) = ∅) as ->; [|by rewrite union_empty_r_L].
    apply set_eq. intros d. split; [|set_solver]. intros Hd'. apply days_slot in Hd'.
    rewrite bool_decide_false in Hd'; [done|]. intros Eq. apply not_true_iff_false in E. apply E, same_student_key.
    rewrite <- Eq. unfold skey. by rewrite Hsch.
Qed.

Definition run_all (runs : list (list school)) (st : state) : state := foldl (fun st schools => processReminders schools st) st runs.

(** While no provider throws, over any number of runs at any times, messages
    about a student go out on at most [REMINDER_MAX_COUNT] days, and the student's
    counter never falls behind that number. *)
Theorem reminders_capped runs st : (forall c i, send e c i <> Fault) -> NoDup (map skey (students st)) -> outbox st = [] ->
  Forall (fun s => 0 <= s_reminderCount s <= MAX_COUNT e) (students st) ->
  Forall (fun s => Z.of_nat (size (days (skey s) (outbox (run_all runs st)))) <= s_reminderCount s <= MAX_COUNT e)
    (students (run_all runs st)).
Proof.
  intros Hnf Hnd Ho Hc. assert (counted st) as H0.
  { split; [done|]. rewrite Ho. eapply Forall_impl; [exact Hc|]. intros s Hs. by cbn. }
  clear Hnd Ho Hc. unfold run_all. revert st H0. induction runs as [|schools runs IH]; intros st H0; [apply H0|]. cbn [foldl].
  apply IH. pose proof (processReminders_steps schools st (proj1 H0)) as Hr. clear IH.
  induction Hr as [|a b c Hab _ IH]; [done|]. apply IH. by eapply rstep_counted.
Qed.

(** ** Several replicas *)

(** Each replica works on one student at a time: it claims the slot (one insertion)
    and later sends.  Replicas may crash in between; the database drops old logs. *)
Inductive rep_event :=
| TryClaim (i : nat) (sch : school) (s : student)
| Post (i : nat)
| Crash (i : nat)
| ExpireLogs.

(** A reminder as it is sent: of which student, and in which zone and at what
    time its slot was claimed. *)
Record reminder := Reminder { rm_school : string; rm_student : string; rm_zone : string; rm_at : Z }.
Definition reminder_of (t : Z) (sch : school) (s : student) : reminder :=
  Reminder (sc_schoolId sch) (s_studentId s) (str_or (sc_timezone sch) "UTC") t.

Record replicas := Replicas {
  r_logs : list log; r_pending : gmap nat reminder; r_posted : list reminder }.

Definition rep_step (r : replicas) (te : Z * rep_event) : replicas :=
  let '(t, ev) := te in
  match ev with
  | TryClaim i sch s =>
    match r_pending r !! i, claim t (slot t sch s) (r_logs r) with
    | None, Some ls => Replicas ls (<[i := reminder_of t sch s]> (r_pending r)) (r_posted r)
    | _, _ => r
    end
  | Post i =>
    match r_pending r !! i with
    | Some m => Replicas (r_logs r) (delete i (r_pending r)) (r_posted r ++ [m])
    | None => r
    end
  | Crash i => Replicas (r_logs r) (delete i (r_pending r)) (r_posted r)
  | ExpireLogs => Replicas (List.filter (fun l => t <? lg_createdAt l + TTL_SECONDS * 1000) (r_logs r)) (r_pending r) (r_posted r)
  end.

(** The slot a reminder claimed. *)
Definition rm_key (m : reminder) : string * string * Z := (rm_school m, rm_student m, computeWindowStart (rm_zone m) (rm_at m)).
Definition posted_keys (r : replicas) : list (string * string * Z) := map rm_key (r_posted r).
Definition pending_key (r : replicas) (i : nat) : option (string * string * Z) := rm_key <$> r_pending r !! i.

Record rep_inv (T : Z) (r : replicas) : Prop := {
  ri_once : NoDup (posted_keys r);
  ri_fresh : forall i k, pending_key r i = Some k -> k ∉ posted_keys r;
  ri_apart : forall i j k, pending_key r i = Some k -> pending_key r j = Some k -> i = j;
  ri_blocked : forall k, (k ∈ posted_keys r) \/ (exists i, pending_key r i = Some k) ->
    (k ∈ map log_key (r_logs r)) \/ k.2 + 2 * DAY_MS < T;
  ri_logs : Forall (fun l => lg_windowStart l <= lg_createdAt l + 2 * DAY_MS) (r_logs r) }.

Lemma pending_insert ls ps r i m j : pending_key (Replicas ls (<[i := m]> (r_pending r)) ps) j = if decide (i = j) then Some (rm_key m) else pending_key r j.
Proof. unfold pending_key. cbn. case_decide as H; [subst; by rewrite lookup_insert_eq|by rewrite lookup_insert_ne]. Qed.
Lemma pending_delete ls ps r i j : pending_key (Replicas ls (delete i (r_pending r)) ps) j = if decide (i = j) then None else pending_key r j.
Proof. unfold pending_key. cbn. case_decide as H; [subst; by rewrite lookup_delete_eq|by rewrite lookup_delete_ne]. Qed.

Lemma claim_Some t k ls ls' : claim t k ls = Some ls' -> (k ∉ map log_key ls) /\ exists l, ls' = ls ++ [l] /\ log_key l = k /\ lg_createdAt l = t.
Proof.
  unfold claim. destruct (existsb _ ls) eqn:E; [done|]. intros [= <-]. split.
  - intros Hin. apply list_elem_of_fmap in Hin as (l & -> & Hl). apply not_true_iff_false in E. apply E. apply existsb_exists.
    exists l. split; [by apply list_elem_of_In|by apply bool_decide_true].
  - eexists. split_and!; [done| |done]. by destruct k as [[a b] c].
Qed.

Lemma slot_claim_inv T t i m ls' r : rep_inv T r -> T <= t -> t - 2 * DAY_MS <= (rm_key m).2 <= t + 2 * DAY_MS -> r_pending r !! i = None ->
  claim t (rm_key m) (r_logs r) = Some ls' -> rep_inv t (Replicas ls' (<[i := m]> (r_pending r)) (r_posted r)).
Proof.
  intros [H1 H2 H3 H4 H5] Ht Hk Hi (Hnew & l & -> & Hl & Hcr)%claim_Some. set (k := rm_key m) in *.
  assert (Hfree : ~ ((k ∈ posted_keys r) \/ exists j, pending_key r j = Some k)) by (intros [?|?]%H4; [done|lia]).
  split; [done| | | |]; try setoid_rewrite pending_insert; try change (posted_keys (Replicas _ _ (r_posted r))) with (posted_keys r).
  - intros j x. case_decide; [intros [= <-]; tauto|apply H2].
  - intros a b x. case_decide as Ea; case_decide as Eb; try congruence.
    + intros [= <-] Hb. exfalso. apply Hfree. eauto.
    + intros Ha [= <-]. exfalso. apply Hfree. eauto.
    + apply H3.
  - intros x Hx. cbn [r_logs]. rewrite map_app. setoid_rewrite elem_of_app. destruct (decide (x = k)) as [->|Hne].
    + left. right. cbn. rewrite Hl. constructor.
    + destruct (H4 x) as [?|?]; [|tauto|right; lia]. destruct Hx as [?|[j Hj]]; [tauto|]. right. exists j.
      case_decide; [by injection Hj as <-|done].
  - apply Forall_app. split; [done|]. constructor; [|constructor].
    assert (lg_windowStart l = k.2) as -> by (by rewrite <- Hl). lia.
Qed.

(** Dropping pending work keeps the invariant. *)
Lemma drop_inv T i r : rep_inv T r -> rep_inv T (Replicas (r_logs r) (delete i (r_pending r)) (r_posted r)).
Proof.
  intros [H1 H2 H3 H4 H5]. split; [done| | | |done]; try setoid_rewrite pending_delete; try change (posted_keys (Replicas _ _ (r_posted r))) with (posted_keys r).
  - intros j x. case_decide; [done|apply H2].
  - intros a b x. case_decide; [done|]. case_decide; [done|apply H3].
  - intros x Hx. apply H4. destruct Hx as [?|[j Hj]]; [by left|]. case_decide; [done|]. eauto.
Qed.

Section Daily.
(** A local date is within two days of the time, and logs are kept longer than
    four days. *)
Hypothesis calendar : forall tz u, Z.abs (local_date e tz u * DAY_MS - u) <= 2 * DAY_MS.
Hypothesis kept : 4 * DAY_MS < TTL_SECONDS * 1000.

Lemma rep_step_inv T r t ev : rep_inv T r -> T <= t -> rep_inv t (rep_step r (t, ev)).
Proof.
  intros Hinv Ht. assert (Hkeep : rep_inv t r).
  { destruct Hinv as [H1 H2 H3 H4 H5]. split; try done. intros k Hk. destruct (H4 k Hk); [tauto|right; lia]. }
  destruct ev as [i sch s|i|i|]; cbn [rep_step].
  - destruct (r_pending r !! i) eqn:Hi; [done|]. destruct (claim t _ _) as [ls|] eqn:Hc; [|done].
    apply (slot_claim_inv T t i (reminder_of t sch s) _ r); try done. pose proof (calendar (str_or (sc_timezone sch) "UTC") t) as Hd.
    cbn. unfold computeWindowStart. lia.
  - destruct (r_pending r !! i) as [m|] eqn:Hi; [|done]. pose proof Hkeep as [H1 H2 H3 H4 _].
    assert (Hp : pending_key r i = Some (rm_key m)) by (unfold pending_key; by rewrite Hi).
    destruct (drop_inv t i r Hkeep) as [_ K2 K3 K4 K5].
    assert (E : forall ls ps, posted_keys (Replicas ls ps (r_posted r ++ [m])) = posted_keys r ++ [rm_key m]) by (intros; unfold posted_keys; cbn; by rewrite map_app).
    split; rewrite ?E; [| |exact K3| |exact K5].
    + apply NoDup_app. split; [done|]. split; [|apply NoDup_singleton]. intros x Hx ->%list_elem_of_singleton. by eapply H2.
    + intros j x. rewrite pending_delete. case_decide as Hj; [done|]. intros Hx. rewrite elem_of_app, list_elem_of_singleton.
      intros [Hin| ->]; [by eapply H2|]. apply Hj. by eapply H3.
    + intros x Hx. apply H4. rewrite elem_of_app, list_elem_of_singleton in Hx. setoid_rewrite pending_delete in Hx.
      destruct Hx as [[?| ->]|(j & Hj)]; [by left|eauto|]. case_decide; [done|eauto].
  - by apply drop_inv.
  - destruct Hkeep as [H1 H2 H3 H4 H5]. split; [done..| |]; cbn [r_logs].
    + intros k Hk. destruct (H4 k Hk) as [Hin|]; [|tauto]. apply list_elem_of_fmap in Hin as (l & -> & Hl).
      rewrite Forall_forall in H5. specialize (H5 l Hl). destruct (Z.ltb_spec t (lg_createdAt l + TTL_SECONDS * 1000)) as [Hlt|Hge].
      * left. apply (list_elem_of_fmap_2 log_key). apply elem_of_filterb. split; [by apply Z.ltb_lt|done].
      * right. cbn. lia.
    + rewrite Forall_forall in H5 |- *. intros l Hl. apply elem_of_filterb in Hl as [_ Hl]. auto.
Qed.

Lemma rep_run_inv trace : forall T r, rep_inv T r -> Forall (fun a : Z * rep_event => T <= a.1) trace ->
  Sorted.StronglySorted (fun a b : Z * rep_event => a.1 <= b.1) trace -> NoDup (posted_keys (foldl rep_step r trace)).
Proof.
  induction trace as [|[t ev] trace IH]; intros T r Hr HT Hsort; [apply Hr|]. cbn [foldl].
  apply Sorted.StronglySorted_inv in Hsort as [Hs1 Hs2]. apply Forall_cons in HT as [HT _]. apply (IH t); [|done|done].
  by apply (rep_step_inv T).
Qed.

(** C31: however many replicas run, in whatever interleaving and with crashes, and
    although old logs expire: no student of a school gets two reminders whose
    slots were claimed on the same local date of the school's zone, the date
    being that of the clock of the database and the replicas.  Logs must be kept
    for more than four days (by default they are kept for ninety), and times in
    the trace do not go back. *)
Theorem one_reminder_per_day trace : Sorted.StronglySorted (fun a b : Z * rep_event => a.1 <= b.1) trace ->
  let posted := r_posted (foldl rep_step (Replicas [] ∅ []) trace) in
  forall i j m m', posted !! i = Some m -> posted !! j = Some m' ->
    rm_school m = rm_school m' -> rm_student m = rm_student m' ->
    local_date e (rm_zone m) (rm_at m) = local_date e (rm_zone m') (rm_at m') -> i = j.
Proof.
  intros Hsort posted i j m m' Hi Hj E1 E2 E3. assert (NoDup (map rm_key posted)) as Hnd.
  { destruct trace as [|[t ev] trace]; [constructor|]. apply (rep_run_inv ((t, ev) :: trace) t); [| |done].
    - split; unfold posted_keys, pending_key; cbn; try done; [constructor|].
      intros x [Hx|[k Hk]]; [by apply elem_of_nil in Hx|by rewrite lookup_empty in Hk].
    - apply Sorted.StronglySorted_inv in Hsort as [_ Hs2]. constructor; [cbn; lia|done]. }
  eapply (NoDup_lookup (map rm_key posted)); [done| |];
    change (map rm_key posted) with (rm_key <$> posted); rewrite list_lookup_fmap; [rewrite Hi|rewrite Hj]; cbn; [done|].
  unfold rm_key, computeWindowStart. by rewrite E1, E2, E3.
Qed.
End Daily.

(** ** The breaker *)

(** While the breaker is open nothing is sent, claimed or recorded. *)
Lemma open_circuit_quiet now sch s st : circuit st = Open_ -> now - openedAt st < CIRCUIT_HALF_OPEN_AFTER_MS ->
  remind_one now sch s st = (set_summ skip1 st, false).
Proof.
  intros Hc Ho. unfold remind_one. destruct (isEligible now sch s); [|done]. rewrite Hc.
  cbn [negb]. rewrite bool_decide_true by done. by destruct (Z.ltb_spec (now - openedAt st) CIRCUIT_HALF_OPEN_AFTER_MS); [|lia].
Qed.

(** During an outage (every provider throws) a run that starts with a closed
    breaker and ends within ten minutes bothers the providers for at most five
    students, whatever the number of students and schools. *)
Definition outage_inv (st : state) : Prop :=
  0 <= n_failed (summ st) /\
  ((circuit st = Closed /\ failures st = n_failed (summ st) /\ n_failed (summ st) < CIRCUIT_FAILURE_THRESHOLD) \/
   (circuit st = Open_ /\ n_failed (summ st) <= CIRCUIT_FAILURE_THRESHOLD /\
    forall i, clock e i - openedAt st < CIRCUIT_HALF_OPEN_AFTER_MS)).

Lemma send_all_outage i cs : (forall c j, send e c j = Fault) -> cs <> [] -> send_all i cs = ([], false).
Proof. intros Hf. destruct cs as [|c cs]; [done|]. intros _. cbn. by rewrite Hf. Qed.

Lemma on_failure_outage i st : (forall a b, clock e a - clock e b < CIRCUIT_HALF_OPEN_AFTER_MS) ->
  outage_inv st -> circuit st = Closed -> outage_inv (on_failure (clock e i) st).1.
Proof.
  intros Hfast [H0 Hinv] Hc. destruct Hinv as [(_ & Hf & Hlt)|(Hc' & _)]; [|congruence].
  unfold on_failure. cbv zeta. cbn [failures circuit set_failures set_summ summ]. rewrite Hc, Hf.
  rewrite (bool_decide_true (Closed = Closed)), andb_true_r by done.
  destruct (Z.leb_spec CIRCUIT_FAILURE_THRESHOLD (n_failed (summ st) + 1)); cbn [fst].
  - split; cbn; [lia|]. right. split; [done|]. split; [lia|]. intros j. apply Hfast.
  - rewrite bool_decide_false by done. cbn [fst]. split; cbn; [lia|]. left. split; [done|]. split; [done|lia].
Qed.

Lemma remind_one_outage i sch s st : (forall c j, send e c j = Fault) -> (forall a b, clock e a - clock e b < CIRCUIT_HALF_OPEN_AFTER_MS) ->
  outage_inv st -> outage_inv (remind_one (clock e i) sch s st).1.
Proof.
  intros Hf Hfast Hinv. destruct (Hinv) as [_ [(Hc & _)|(Hc & _ & Ho)]].
  2: { by rewrite open_circuit_quiet. }
  unfold remind_one. destruct (negb _); [done|]. rewrite Hc, (bool_decide_false (Closed = Open_)) by done. cbn [andb].
  destruct (num_le _ _); [done|].
  assert (outage_inv (set_summ eligible1 st)) as He by done.
  destruct (claim_fault e _); [by apply on_failure_outage|].
  destruct (claim _ _ _) as [ls|]; [|done]. unfold deliver.
  destruct (determineReminderChannels sch s) as [|c cs] eqn:Ech; [done|]. rewrite send_all_outage by done. cbn [negb].
  by apply on_failure_outage.
Qed.

Lemma remind_all_outage sch snap st : (forall c j, send e c j = Fault) -> (forall a b, clock e a - clock e b < CIRCUIT_HALF_OPEN_AFTER_MS) ->
  outage_inv st -> outage_inv (remind_all sch snap st).
Proof.
  intros Hf Hfast. revert st. induction snap as [|s snap IH]; intros st Hinv; [done|]. cbn [remind_all].
  pose proof (remind_one_outage (steps st) sch s st Hf Hfast Hinv) as H1. destruct (remind_one _ sch s st) as [st1 stop].
  destruct stop; [done|by apply IH].
Qed.

Theorem outage_is_bounded schools st : (forall c j, send e c j = Fault) -> (forall a b, clock e a - clock e b < CIRCUIT_HALF_OPEN_AFTER_MS) ->
  circuit st = Closed -> failures st = 0 -> n_failed (summ (processReminders schools st)) <= CIRCUIT_FAILURE_THRESHOLD.
Proof.
  intros Hf Hfast Hc H0. unfold processReminders. destruct (negb _); [done|]. destruct (_ && _); [done|]. cbv zeta.
  set (st0 := set_summ _ st). assert (outage_inv st0) as Hinv by (split; cbn; [lia|]; left; split_and!; done). clearbody st0.
  generalize (List.filter sc_isActive schools) as l. intros l.
  assert (outage_inv (foldl (fun st sch => remind_school sch st) st0 l)) as [_ [(_ & _ & H)|(_ & H & _)]]; [|lia|done].
  revert st0 Hinv. induction l as [|sch l IH]; intros st0 Hinv; [done|]. cbn [foldl]. apply IH. unfold remind_school.
  destruct (bool_decide _); [done|]. destruct (negb _); [done|]. by apply remind_all_outage.
Qed.
End Service.

(** ** Worked inputs and what goes wrong *)

(** UTC; a run starts every day at noon, and each examines one student. *)
Definition env_of (sending : channel -> nat -> delivery) (every : Z) : env :=
  Env 5 48 0 true true true (fun _ t => t / 3600000 mod 24) (fun _ t => t / DAY_MS) (fun i => 12 * 3600000 + Z.of_nat i * every)
    sending (fun _ => false).
Definition calm : env := env_of (fun _ _ => Sent) (3 * DAY_MS).
Definition pupil : student :=
  Student "SCH1" "ST1" false false false "p@a.org" false "+1555" "2026" (of_Z 100) None None 0 "2026" None.
Definition school1 (pref period : string) : school := School "SCH1" true "" None None None pref period.
Definition start : state := State [pupil] [] Closed 0 0 0 (Summary 0 0 0 0 0) [].

Lemma reminders_capped_witness :
  Forall (fun s => Z.of_nat (size (days (skey s) (outbox (run_all calm (repeat [school1 "both" ""] 8) start)))) <= s_reminderCount s <= 5)
    (students (run_all calm (repeat [school1 "both" ""] 8) start)).
Proof.
  exact (reminders_capped calm (repeat [school1 "both" ""] 8) start ltac:(discriminate)
    ltac:(constructor; [set_solver|constructor]) eq_refl ltac:(constructor; [cbn; lia|constructor])).
Defined.

Definition race : list (Z * rep_event) :=
  [(1000, TryClaim 1 (school1 "" "") pupil); (1001, TryClaim 2 (school1 "" "") pupil); (1002, Post 1); (1003, Post 2);
   (90 * DAY_MS + 1000, ExpireLogs); (90 * DAY_MS + 2000, TryClaim 2 (school1 "" "") pupil); (90 * DAY_MS + 3000, Post 2)].
Lemma race_calendar : forall tz u, Z.abs (local_date calm tz u * DAY_MS - u) <= 2 * DAY_MS.
Proof.
  intros tz u. cbn. unfold DAY_MS. pose proof (Z.mod_pos_bound u (24 * 60 * 60 * 1000) ltac:(lia)).
  pose proof (Z.div_mod u (24 * 60 * 60 * 1000) ltac:(lia)). lia.
Qed.
Lemma race_sorted : Sorted.StronglySorted (fun a b : Z * rep_event => a.1 <= b.1) race.
Proof. unfold race, DAY_MS. repeat (apply Sorted.SSorted_cons || apply Sorted.SSorted_nil); repeat constructor; cbn; lia. Qed.
Lemma one_reminder_per_day_witness :
  let posted := r_posted (foldl (rep_step calm) (Replicas [] ∅ []) race) in
  map rm_at posted = [1000; 90 * DAY_MS + 2000] /\
  forall i j m m', posted !! i = Some m -> posted !! j = Some m' ->
    rm_school m = rm_school m' -> rm_student m = rm_student m' ->
    local_date calm (rm_zone m) (rm_at m) = local_date calm (rm_zone m') (rm_at m') -> i = j.
Proof.
  split; [vm_compute; reflexivity|].
  exact (one_reminder_per_day calm race_calendar ltac:(reflexivity) race race_sorted).
Defined.

(** The comment says that tracking is reset when the fee period changes; the cap is
    tested before the period and the counter is never reset, so a parent who was
    reminded five times in one year gets no reminder in the next. *)
Theorem cap_survives_period : forall now period,
  isEligible calm now (school1 "email" period)
    (Student "SCH1" "ST1" false false false "p@a.org" false "" "2027" (of_Z 100) None None 5 "2026" None) = false.
Proof. reflexivity. Qed.

(** E-mail works and Twilio throws: every day the parent gets an e-mail, the
    counter stays at zero and neither the cap nor the cooldown applies. *)
Definition no_twilio : env := env_of (fun c _ => match c with email => Sent | _ => Fault end) DAY_MS.
Theorem partial_failure_escapes_cap :
  let st := run_all no_twilio (repeat [school1 "both" ""] 8) start in
  (length (outbox st), map s_reminderCount (students st)) = (8%nat, [0]) /\ MAX_COUNT no_twilio = 5.
Proof. split; vm_compute; reflexivity. Qed.

(** A send that throws leaves the log of the day, with the default status [sent]:
    later runs of the day skip the student. *)
Definition first_fails : env := env_of (fun _ i => match i with O => Fault | _ => Sent end) 3600000.
Theorem failed_send_blocks_day :
  let st := run_all first_fails (repeat [school1 "email" ""] 3) start in
  outbox st = [] /\ map lg_status (logs st) = [sent].
Proof. split; vm_compute; reflexivity. Qed.

(** A school that prefers SMS and a parent with an e-mail address only: every run
    counts the parent as eligible and claims the day, and nothing is sent. *)
Theorem email_only_parent_never_reached : forall s, hasPhone calm s = false ->
  determineReminderChannels calm (school1 "sms" "") s = [].
Proof. intros s Hp. unfold determineReminderChannels. cbn -[hasPhone]. by rewrite Hp. Qed.
End Reminders.
