(* ===== verification/Students.v ===== *)
(** Students: backend/src/controllers/studentController.js with
    backend/src/services/studentQuota.js, backend/src/utils/generateStudentId.js and
    the name checks of backend/src/middleware/validate.js.  Registration, deletion and
    restoring within the school's quota, changes of the profile, the public lookup and
    the bulk import.  The quota lock is the one of DistributedLock, the balance the
    one of StudentBalance.  The listing, caches and audit details are left out; the
    source of the bulk handler is cut off after the validation and the dry run. *)

From Stdlib Require Import Ascii ZArith Lia.
From stdpp Require Import base strings gmap list.
From S2P Require Import Prelude JsNumber JsString DecimalLib Money StudentBalance DistributedLock Dispute PaymentPlan Auth ParentPortal.
Import DistributedLock.
Local Open Scope string_scope.
Local Open Scope Z_scope.
Local Open Scope list_scope.

Module Students.

(** ** Documents *)

(** The balance fields are StudentBalance's; the empty text is [null]. *)
Record doc := Doc {
  d_bal : StudentBalance.student; d_name : string; d_parentEmail : string; d_emailHash : option string; d_parentPhone : string;
  d_deadline : option Z; d_optOut : bool; d_suppressed : bool; d_reminderCount : Z; d_lastReminderSentAt : option Z }.
Definition d_schoolId (x : doc) : string := StudentBalance.st_schoolId (d_bal x).
Definition d_studentId (x : doc) : string := StudentBalance.st_studentId (d_bal x).
Definition d_class (x : doc) : string := StudentBalance.st_class (d_bal x).
Definition d_deletedAt (x : doc) : option Z := StudentBalance.st_deletedAt (d_bal x).
Definition d_key (x : doc) : string * string := (d_schoolId x, d_studentId x).

Definition with_bal (f : StudentBalance.student -> StudentBalance.student) (x : doc) : doc :=
  Doc (f (d_bal x)) (d_name x) (d_parentEmail x) (d_emailHash x) (d_parentPhone x) (d_deadline x) (d_optOut x) (d_suppressed x)
    (d_reminderCount x) (d_lastReminderSentAt x).
Definition set_deletedAt (t : option Z) (s : StudentBalance.student) : StudentBalance.student :=
  StudentBalance.Student (StudentBalance.st_schoolId s) (StudentBalance.st_studentId s) (StudentBalance.st_class s)
    (StudentBalance.st_academicYear s) (StudentBalance.st_feeAmount s) (StudentBalance.st_fees s) (StudentBalance.st_feePaid s)
    (StudentBalance.st_totalPaid s) (StudentBalance.st_remainingBalance s) (StudentBalance.st_creditAdjustments s) t.

(** The hook before a save recomputes the totals from the fee categories. *)
Definition save (cap : nat) (x : doc) : doc := with_bal (fun s => (StudentBalance.student_pre_save cap s).1) x.

Record fee_structure := FeeStructure {
  fs_schoolId : string; fs_className : string; fs_feeAmount : number; fs_isActive : bool;
  fs_deadline : option Z; fs_deletedAt : option Z }.

(** Of a payment only whose it is and whether its student is deleted. *)
Record pay := Pay { py_schoolId : string; py_studentId : string; py_studentDeleted : bool }.

(** [ledger] holds the payments and periods the balance is computed from (its own
    list of students is not used), [history] the fee history. *)
Record state := State {
  docs : list doc; structures : list fee_structure; pays : list pay; locks : redis; audits : list (string * string);
  ledger : StudentBalance.db; history : list StudentBalance.student }.
Definition set_docs (l : list doc) (st : state) : state :=
  State l (structures st) (pays st) (locks st) (audits st) (ledger st) (history st).
Definition set_pays (l : list pay) (st : state) : state :=
  State (docs st) (structures st) l (locks st) (audits st) (ledger st) (history st).
Definition set_locks (r : redis) (st : state) : state :=
  State (docs st) (structures st) (pays st) r (audits st) (ledger st) (history st).
Definition set_ledger (d : StudentBalance.db) (st : state) : state :=
  State (docs st) (structures st) (pays st) (locks st) (audits st) d (history st).
Definition add_history (x : StudentBalance.student) (st : state) : state :=
  State (docs st) (structures st) (pays st) (locks st) (audits st) (ledger st) (history st ++ [x]).
Definition log (action target : string) (st : state) : state :=
  State (docs st) (structures st) (pays st) (locks st) (audits st ++ [(action, target)]) (ledger st) (history st).

(** An error: the status it is answered with (middleware/errorHandler.js) and its code. *)
Definition error : Type := Z * string.

Definition at_ (schoolId studentId : string) (x : doc) : bool :=
  bool_decide (d_schoolId x = schoolId) && bool_decide (d_studentId x = studentId).
Definition live_ (x : doc) : bool := bool_decide (d_deletedAt x = None).
(** The plugin hides deleted documents from [findOne]. *)
Definition findOne (schoolId studentId : string) (l : list doc) : option doc :=
  List.find (fun x => at_ schoolId studentId x && live_ x) l.
Definition findAny (schoolId studentId : string) (l : list doc) : option doc := List.find (at_ schoolId studentId) l.

(** ** The quota *)

Definition LOCK_TTL_MS : Z := 10000.
Definition quotaKey (schoolId : string) : string := ("student-quota:" ++ schoolId)%string.
Definition active_count (schoolId : string) (l : list doc) : Z :=
  Z.of_nat (length (List.filter (fun x => bool_decide (d_schoolId x = schoolId) && live_ x) l)).

(** Free seats; [None] is Infinity.  No limit and a limit of 0 are the same. *)
Definition seats (schoolId : string) (maxStudents : Z) (l : list doc) : option Z :=
  if maxStudents =? 0 then None else Some (Z.max 0 (maxStudents - active_count schoolId l)).
Definition no_seat (remaining : option Z) : bool := match remaining with Some n => n <? 1 | None => false end.

Definition withStudentQuota (token schoolId : string) (maxStudents : Z)
    (fn : option Z -> list doc -> result error (list doc)) (st : state) : state * result error unit :=
  match withLock NoFault NoFault token (quotaKey schoolId) LOCK_TTL_MS
          (fun _ _ r => (r, fn (seats schoolId maxStudents (docs st)) (docs st))) (locks st) with
  | (r, Throw err) => (set_locks r st, Throw err)
  | (r, Ok None) => (set_locks r st, Throw (409, "STUDENT_QUOTA_BUSY"))
  | (r, Ok (Some (l, _))) => (set_locks r (set_docs l st), Ok tt)
  end.

(** The unique index on school and id covers deleted documents too. *)
Definition insert (x : doc) (l : list doc) : result error (list doc) :=
  if existsb (at_ (d_schoolId x) (d_studentId x)) l then Throw (500, "E11000") else Ok (l ++ [x]).

Definition createStudentWithinQuota (token : string) (maxStudents : Z) (x : doc) (st : state) : state * result error unit :=
  withStudentQuota token (d_schoolId x) maxStudents
    (fun remaining l => if no_seat remaining then Throw (403, "STUDENT_QUOTA_EXCEEDED") else insert x l) st.

Section Handlers.
Context `{DL : DecimalLib} `{MS : !MongoSum} (sha256 : string -> string) (cap : nat).

(** ** Registration *)

(** [candidates] are the ids drawn. *)
Fixpoint generateStudentId (candidates : list string) (schoolId : string) (l : list doc) : result error string :=
  match candidates with
  | [] => Throw (500, "STUDENT_ID_GENERATION_FAILED")
  | id :: rest => match findOne schoolId id l with None => Ok id | Some _ => generateStudentId rest schoolId l end
  end.
Definition MAX_ID_RETRIES : nat := 5.

Record registration := Registration {
  g_studentId : string; g_name : string; g_class : string; g_fee : option number; g_email : string; g_phone : string }.

Definition new_doc (schoolId studentId : string) (g : registration) (fee : number) (deadline : option Z) : doc :=
  Doc (StudentBalance.Student schoolId studentId (g_class g) None fee [] false (of_Z 0) None (of_Z 0) None)
    (g_name g) (g_email g) (ParentPortal.hashParentEmail sha256 (g_email g)) (g_phone g) deadline false false 0 None.

Definition structure (schoolId className : string) (ok : fee_structure -> bool) (l : list fee_structure) : option fee_structure :=
  List.find (fun f => bool_decide (fs_schoolId f = schoolId) && bool_decide (fs_className f = className)
                      && bool_decide (fs_deletedAt f = None) && ok f) l.

(** What is registered: the id, the fee and the deadline, or the refusal. *)
Definition registration_check (candidates : list string) (schoolId : string) (g : registration) (st : state)
  : result error (string * number * option Z) :=
  studentId ← (if str_truthy (g_studentId g) then Ok (g_studentId g)
               else generateStudentId (take MAX_ID_RETRIES candidates) schoolId (docs st));
  match findOne schoolId studentId (docs st) with
  | Some _ => Throw (409, "DUPLICATE_STUDENT")
  | None =>
    match findAny schoolId studentId (docs st) with
    | Some _ => Throw (409, "STUDENT_PREVIOUSLY_DELETED")
    | None =>
      if str_truthy (g_class g) && bool_decide (structure schoolId (g_class g) (fun _ => true) (structures st) = None)
      then Throw (400, "FEE_STRUCTURE_NOT_FOUND") else
      let active := if str_truthy (g_class g) then structure schoolId (g_class g) fs_isActive (structures st) else None in
      match g_fee g, active with
      | Some fee, _ => Ok (studentId, fee, None)
      | None, Some f => Ok (studentId, fs_feeAmount f, fs_deadline f)
      | None, None => Throw (400, "VALIDATION_ERROR")
      end
    end
  end.

(** [meanwhile] is what other requests do between the checks and the insertion. *)
Definition registerStudent (token token' : string) (candidates candidates' : list string) (schoolId : string) (maxStudents : Z)
    (g : registration) (meanwhile : state -> state) (st : state) : state * result error string :=
  match registration_check candidates schoolId g st with
  | Throw e => (st, Throw e)
  | Ok (studentId, fee, deadline) =>
    match createStudentWithinQuota token maxStudents (new_doc schoolId studentId g fee deadline) (meanwhile st) with
    | (st, Ok _) => (log "student_create" studentId st, Ok studentId)
    | (st, Throw e) =>
      if negb (bool_decide (e = (500, "E11000"))) then (st, Throw e) else
      if str_truthy (g_studentId g) then (st, Throw (409, "DUPLICATE_STUDENT")) else
      match generateStudentId (take MAX_ID_RETRIES candidates') schoolId (docs st) with
      | Throw _ => (st, Throw (503, "STUDENT_ID_GENERATION_FAILED"))
      | Ok id' =>
        match createStudentWithinQuota token' maxStudents (new_doc schoolId id' g fee deadline) st with
        | (st, Ok _) => (st, Ok id')
        | (st, Throw _) => (st, Throw (409, "DUPLICATE_STUDENT"))
        end
      end
    end
  end.

(** ** Deleting and restoring *)

Definition change (schoolId studentId : string) (f : doc -> doc) (l : list doc) : list doc :=
  map (fun x => if at_ schoolId studentId x then f x else x) l.
Definition mark_pays (schoolId studentId : string) (b : bool) (l : list pay) : list pay :=
  map (fun p => if bool_decide (py_schoolId p = schoolId) && bool_decide (py_studentId p = studentId)
                then Pay (py_schoolId p) (py_studentId p) b else p) l.

Definition deleteStudent (now : Z) (schoolId studentId : string) (st : state) : state * result error unit :=
  match findOne schoolId studentId (docs st) with
  | None =>
    match findAny schoolId studentId (docs st) with
    | Some _ => (st, Throw (409, "STUDENT_ALREADY_DELETED"))
    | None => (st, Throw (404, "NOT_FOUND"))
    end
  | Some _ =>
    let st := set_docs (change schoolId studentId (save cap ∘ with_bal (set_deletedAt (Some now))) (docs st)) st in
    (log "student_delete" studentId (set_pays (mark_pays schoolId studentId true (pays st)) st), Ok tt)
  end.

Definition restoreStudent (token : string) (schoolId studentId : string) (maxStudents : Z) (st : state) : state * result error unit :=
  match findAny schoolId studentId (docs st) with
  | None => (st, Throw (404, "NOT_FOUND"))
  | Some x =>
    if live_ x then (st, Throw (409, "STUDENT_NOT_DELETED")) else
    match withStudentQuota token schoolId maxStudents
            (fun remaining l => if no_seat remaining then Throw (403, "STUDENT_QUOTA_EXCEEDED")
                                else Ok (change schoolId studentId (save cap ∘ with_bal (set_deletedAt None)) l)) st with
    | (st, Throw e) => (st, Throw e)
    | (st, Ok _) => (log "student_restore" studentId (set_pays (mark_pays schoolId studentId false (pays st)) st), Ok tt)
    end
  end.

(** ** Changing a student *)

(** The fields of the request; [None] is absent, the empty text [null].  The fee is
    the number [Number] makes of it. *)
Record changes := Changes {
  c_name : option string; c_class : option string; c_fee : option number; c_optOut : option bool;
  c_email : option string; c_phone : option string }.

Definition positive_number (n : number) : bool := match n with Fin _ => num_gt n (of_Z 0) | _ => false end.

(** The fee that is set: the explicit one, or the one of the new class. *)
Definition changed_fee (schoolId : string) (c : changes) (l : list fee_structure) : result error (option number) :=
  match c_fee c, c_class c with
  | Some fee, _ => if positive_number fee then Ok (Some fee) else Throw (400, "VALIDATION_ERROR")
  | None, Some cl =>
    match structure schoolId cl fs_isActive l with
    | Some f => Ok (Some (fs_feeAmount f))
    | None => Throw (400, "NO_FEE_STRUCTURE")
    end
  | None, None => Ok None
  end.

Definition set_update (c : changes) (fee : option number) (x : doc) : doc :=
  let s := d_bal x in
  Doc (StudentBalance.Student (StudentBalance.st_schoolId s) (StudentBalance.st_studentId s) (default (StudentBalance.st_class s) (c_class c))
         (StudentBalance.st_academicYear s) (default (StudentBalance.st_feeAmount s) fee) (StudentBalance.st_fees s)
         (StudentBalance.st_feePaid s) (StudentBalance.st_totalPaid s) (StudentBalance.st_remainingBalance s)
         (StudentBalance.st_creditAdjustments s) (StudentBalance.st_deletedAt s))
    (default (d_name x) (c_name c)) (d_parentEmail x) (d_emailHash x) (d_parentPhone x) (d_deadline x)
    (default (d_optOut x) (c_optOut c)) (d_suppressed x) (d_reminderCount x) (d_lastReminderSentAt x).

(** A new address starts a clean reminder history; the hook hashes an address that
    is not [null]. *)
Definition set_email (e : string) (x : doc) : doc :=
  Doc (d_bal x) (d_name x) e (if str_truthy e then ParentPortal.hashParentEmail sha256 e else d_emailHash x) (d_parentPhone x)
    (d_deadline x) (d_optOut x) false 0 None.
Definition set_phone (p : string) (x : doc) : doc :=
  Doc (d_bal x) (d_name x) (d_parentEmail x) (d_emailHash x) p (d_deadline x) (d_optOut x) (d_suppressed x) 0 None.

Definition set_contacts (c : changes) (x : doc) : doc :=
  let x := match c_email c with
           | Some e => let e := toLowerCase (str_trim e) in if bool_decide (e = d_parentEmail x) then x else set_email e x
           | None => x
           end in
  match c_phone c with
  | Some p => let p := str_trim p in if bool_decide (p = d_parentPhone x) then x else set_phone p x
  | None => x
  end.

(** StudentBalance's update over these documents. *)
Definition rebalance (schoolId studentId : string) (st : state) : state * result money_error (option StudentBalance.student) :=
  let '(d, r) := StudentBalance.updateStudentBalance schoolId studentId true
                   (StudentBalance.set_students (map d_bal (docs st)) (ledger st)) in
  (set_ledger d (set_docs (zip_with (fun x s => with_bal (fun _ => s) x) (docs st) (StudentBalance.students d)) st), r).

Definition updateStudent (schoolId studentId : string) (c : changes) (st : state) : state * result error unit :=
  match findOne schoolId studentId (docs st) with
  | None => (st, Throw (404, "NOT_FOUND"))
  | Some original =>
    if match c_email c with Some e => str_truthy e && negb (Dispute.email_re (trim (chars e))) | None => false end
    then (st, Throw (400, "VALIDATION_ERROR")) else
    match changed_fee schoolId c (structures st) with
    | Throw e => (st, Throw e)
    | Ok fee =>
      let st := set_docs (change schoolId studentId (save cap ∘ set_contacts c ∘ set_update c fee) (docs st)) st in
      let changed := match fee with Some f => negb (num_eqb f (StudentBalance.st_feeAmount (d_bal original))) | None => false end in
      if negb changed then (log "student_update" studentId st, Ok tt) else
      match rebalance schoolId studentId st with
      | (st, Throw _) => (st, Throw (500, "INTERNAL_ERROR"))
      | (st, Ok s) =>
        let now_ := default (d_bal original) (match s with Some s => Some s | None => d_bal <$> findOne schoolId studentId (docs st) end) in
        (log "student_update" studentId (add_history now_ st), Ok tt)
      end
    end
  end.

(** ** The public lookup *)

Fixpoint words (l : list ascii) (cur : list ascii) : list (list ascii) :=
  match l with
  | [] => match cur with [] => [] | _ => [rev cur] end
  | c :: l' => if is_space c then match cur with [] => words l' [] | _ => rev cur :: words l' [] end else words l' (c :: cur)
  end.
Definition initial (w : list ascii) : list ascii := take 1 w.
Definition maskName (name : string) : string :=
  match words (trim (chars name)) [] with
  | [] => if str_truthy name then "undefined***" else "Unknown"
  | [w] => text (initial w ++ chars "***")
  | w :: ws => text (initial w ++ chars "*** " ++ initial (List.last ws []) ++ chars ".")
  end.

Definition getPublicStudentInfo (schoolId studentId : string) (st : state) : result error (string * string) :=
  match findOne schoolId studentId (docs st) with
  | None => Throw (404, "NOT_FOUND")
  | Some x => Ok (maskName (d_name x), d_class x)
  end.

(** ** Bulk import *)

Record row := Row { r_studentId : string; r_name : string; r_class : string; r_fee : option number; r_email : string; r_phone : string }.

Definition NAME_MAX_LENGTH : nat := 100.
Definition CLASS_MAX_LENGTH : nat := 50.

Fixpoint join_space (ws : list (list ascii)) : list ascii :=
  match ws with [] => [] | [w] => w | w :: ws' => w ++ " "%char :: join_space ws' end.
(** [normalize('NFC')] changes nothing in texts of code units below 256. *)
Definition normaliseName (v : string) : string := text (join_space (words (trim (chars v)) [])).
Definition control (c : ascii) : bool :=
  let n := N_of_ascii c in (n <? 32)%N || ((127 <=? n)%N && (n <=? 159)%N).
Definition nameError (v : string) (maxLength : nat) : bool :=
  negb (str_truthy v) || (maxLength <? String.length v)%nat || existsb control (chars v).

(** [/^[A-Za-z0-9_-]{3,20}$/] *)
Definition id_char (c : ascii) : bool :=
  let n := N_of_ascii c in
  ((48 <=? n) && (n <=? 57))%N || ((65 <=? n) && (n <=? 90))%N || ((97 <=? n) && (n <=? 122))%N || (n =? 95)%N || (n =? 45)%N.
Definition STUDENT_ID_RE (l : list ascii) : bool := (3 <=? length l)%nat && (length l <=? 20)%nat && forallb id_char l.

(** The fields in error, in order. *)
Definition validateStudentRow (r : row) : list string :=
  (if STUDENT_ID_RE (trim (chars (r_studentId r))) then [] else ["studentId"]) ++
  (if nameError (normaliseName (r_name r)) NAME_MAX_LENGTH then ["name"] else []) ++
  (if nameError (normaliseName (r_class r)) CLASS_MAX_LENGTH then ["class"] else []) ++
  (match r_fee r with Some n => if positive_number n then [] else ["feeAmount"] | None => [] end).

(** One entry of the report: the line of the file and what happened. *)
Inductive outcome := Created | Failed (code : string).
Record detail := Detail { dt_row : nat; dt_id : string; dt_outcome : outcome }.
Record results := Results { rs_created : nat; rs_failed : nat; rs_details : list detail }.

Section Bulk.
Context (MAX_DETAILS CHUNK_SIZE : nat).

Definition note (d : detail) (rs : results) : results :=
  if (length (rs_details rs) <? MAX_DETAILS)%nat then Results (rs_created rs) (rs_failed rs) (rs_details rs ++ [d]) else rs.
Definition fail_row (d : detail) (rs : results) : results := note d (Results (rs_created rs) (S (rs_failed rs)) (rs_details rs)).

(** The fee of a row: its own, or that of the class named exactly so. *)
Definition row_fee (schoolId : string) (l : list fee_structure) (r : row) : option number :=
  match r_fee r with Some n => Some n | None => fs_feeAmount <$> structure schoolId (str_trim (r_class r)) fs_isActive l end.

Definition row_doc (schoolId : string) (r : row) (fee : number) : doc :=
  Doc (StudentBalance.Student schoolId (str_trim (r_studentId r)) (normaliseName (r_class r)) None fee [] false (of_Z 0) None (of_Z 0) None)
    (normaliseName (r_name r)) (toLowerCase (str_trim (r_email r))) (ParentPortal.hashParentEmail sha256 (toLowerCase (str_trim (r_email r))))
    (str_trim (r_phone r)) None false false 0 None.

Fixpoint validate_rows (schoolId : string) (fss : list fee_structure) (i : nat) (rows : list row) (rs : results)
  : results * list (nat * doc) :=
  match rows with
  | [] => (rs, [])
  | r :: rest =>
    match validateStudentRow r, row_fee schoolId fss r with
    | _ :: _, _ => validate_rows schoolId fss (S i) rest (fail_row (Detail (i + 2) (r_studentId r) (Failed "VALIDATION_ERROR")) rs)
    | [], None => validate_rows schoolId fss (S i) rest (fail_row (Detail (i + 2) (r_studentId r) (Failed "FEE_STRUCTURE_NOT_FOUND")) rs)
    | [], Some fee => let '(rs', ds) := validate_rows schoolId fss (S i) rest rs in (rs', (i, row_doc schoolId r fee) :: ds)
    end
  end.

(** [insertMany] with [ordered: false]: every document that the index admits. *)
Fixpoint insertMany (ds : list (nat * doc)) (l : list doc) : list doc * list (nat * doc) * list (nat * doc) :=
  match ds with
  | [] => (l, [], [])
  | (i, x) :: ds' =>
    match insert x l with
    | Ok l' => let '(l'', ins, errs) := insertMany ds' l' in (l'', (i, x) :: ins, errs)
    | Throw _ => let '(l'', ins, errs) := insertMany ds' l in (l'', ins, (i, x) :: errs)
    end
  end.

(** A failed insertion counts only while there is room for its detail. *)
Definition insert_error (rs : results) (e : nat * doc) : results :=
  if (length (rs_details rs) <? MAX_DETAILS)%nat
  then Results (rs_created rs) (S (rs_failed rs)) (rs_details rs ++ [Detail (e.1 + 2) (d_studentId e.2) (Failed "DUPLICATE_STUDENT_ID")])
  else rs.

Definition insert_chunk (chunk : list (nat * doc)) (x : list doc * results) : list doc * results :=
  let '(l', ins, errs) := insertMany chunk x.1 in
  let rs := Results (rs_created x.2 + length ins) (rs_failed x.2) (rs_details x.2) in
  let rs := foldl (fun rs e => note (Detail (e.1 + 2) (d_studentId e.2) Created) rs) rs ins in
  (l', foldl insert_error rs errs).

Fixpoint chunks {A} (fuel : nat) (l : list A) : list (list A) :=
  match fuel, l with
  | S fuel', _ :: _ => take CHUNK_SIZE l :: chunks fuel' (drop CHUNK_SIZE l)
  | _, _ => []
  end.

Definition insertValidatedRows (ds : list (nat * doc)) (x : list doc * results) : list doc * results :=
  foldl (fun x chunk => insert_chunk chunk x) x (chunks (length ds) ds).

(** The part of the handler that is in the source: validation and, for a dry run,
    the ids that exist already. *)
Definition bulk_validate (schoolId : string) (rows : list row) (st : state) : result error (results * list (nat * doc)) :=
  if bool_decide (length rows = 0%nat) then Throw (400, "VALIDATION_ERROR")
  else Ok (validate_rows schoolId (structures st) 0 rows (Results 0 0 [])).
End Bulk.
End Handlers.

(** ** Identity: what the quota and the unique index look at *)

Definition ident (x : doc) : (string * string) * option Z := (d_key x, d_deletedAt x).
Definition keys (l : list doc) : list (string * string) := map d_key l.

Lemma save_ident cap x : ident (save cap x) = ident x.
Proof. unfold save, with_bal, ident, d_key, d_schoolId, d_studentId, d_deletedAt, StudentBalance.student_pre_save. cbn. by destruct (drop _ _). Qed.

Lemma mark_ident cap t x : ident ((save cap ∘ with_bal (set_deletedAt t)) x) = (d_key x, t).
Proof. cbn [compose]. by rewrite save_ident. Qed.

Lemma active_ident schoolId l l' : map ident l = map ident l' -> active_count schoolId l = active_count schoolId l'.
Proof.
  intros H. unfold active_count. f_equal. revert l' H. induction l as [|x l IH]; intros [|y l'] H; try done.
  injection H as Hs Hi Hd H'. cbn [List.filter]. unfold live_. rewrite Hs, Hd. specialize (IH l' H').
  destruct (_ && _); cbn [length]; [by f_equal|done].
Qed.

Lemma keys_ident l l' : map ident l = map ident l' -> keys l = keys l'.
Proof. intros H. unfold keys. transitivity (map fst (map ident l)); [by rewrite map_map|]. by rewrite H, map_map. Qed.

Lemma at_key schoolId studentId x : at_ schoolId studentId x = true <-> d_key x = (schoolId, studentId).
Proof. unfold at_, d_key. rewrite andb_true_iff, !bool_decide_eq_true. naive_solver. Qed.

Lemma change_keys schoolId studentId f l : (forall x, d_key (f x) = d_key x) -> keys (change schoolId studentId f l) = keys l.
Proof. intros Hf. unfold keys, change. rewrite map_map. apply map_ext. intros x. by destruct (at_ _ _ x). Qed.

Lemma change_ident schoolId studentId f l : (forall x, ident (f x) = ident x) -> map ident (change schoolId studentId f l) = map ident l.
Proof. intros Hf. unfold change. rewrite map_map. apply map_ext. intros x. by destruct (at_ _ _ x). Qed.

Lemma change_none schoolId studentId f l : (schoolId, studentId) ∉ keys l -> change schoolId studentId f l = l.
Proof.
  intros Hn. unfold change. rewrite <-(map_id l) at 2. apply map_ext_in. intros x Hx%list_elem_of_In.
  destruct (at_ _ _ x) eqn:E; [|done]. apply at_key in E. destruct Hn. rewrite <-E. by apply (list_elem_of_fmap_2 d_key).
Qed.

(** What is counted: an active student of the school. *)
Definition counted (schoolId : string) (x : doc) : bool := bool_decide (d_schoolId x = schoolId) && live_ x.
Lemma active_cons schoolId x l : active_count schoolId (x :: l) = (if counted schoolId x then 1 else 0) + active_count schoolId l.
Proof. unfold active_count, counted. cbn [List.filter]. destruct (_ && _); cbn [length]; lia. Qed.
Lemma active_nonneg schoolId l : 0 <= active_count schoolId l.
Proof. unfold active_count. lia. Qed.
Lemma active_app schoolId l l' : active_count schoolId (l ++ l') = active_count schoolId l + active_count schoolId l'.
Proof. unfold active_count. rewrite List.filter_app, length_app. lia. Qed.

Lemma change_active_le schoolId school' studentId f l : (forall x, counted schoolId (f x) = true -> counted schoolId x = true) ->
  active_count schoolId (change school' studentId f l) <= active_count schoolId l.
Proof.
  intros Hf. induction l as [|x l IH]; cbn [change map]; [done|]. rewrite !active_cons. fold (change school' studentId f l).
  destruct (at_ _ _ x); [|lia]. specialize (Hf x). destruct (counted _ (f x)); [rewrite Hf by done; lia|].
  destruct (counted _ x); lia.
Qed.

(** With unique ids a change of one student moves the count by at most one. *)
Lemma change_active_one schoolId school' studentId f l : NoDup (keys l) ->
  active_count schoolId (change school' studentId f l) <= active_count schoolId l + 1.
Proof.
  induction l as [|x l IH]; cbn [change map keys]; [done|]. fold (change school' studentId f l) (keys l). intros [Hx Hn]%NoDup_cons.
  rewrite !active_cons. destruct (at_ _ _ x) eqn:E.
  - apply at_key in E. rewrite E in Hx. rewrite change_none by done. destruct (counted _ (f x)), (counted _ x); lia.
  - specialize (IH Hn). lia.
Qed.

Lemma insert_spec x l : insert x l = (if decide (d_key x ∈ keys l) then Throw (500, "E11000") else Ok (l ++ [x])).
Proof.
  unfold insert. destruct (existsb _ l) eqn:E.
  - apply existsb_exists in E as (y & Hy%list_elem_of_In & Hk). apply at_key in Hk. rewrite decide_True; [done|].
    change (d_schoolId x, d_studentId x) with (d_key x) in Hk. rewrite <-Hk. by apply (list_elem_of_fmap_2 d_key).
  - rewrite decide_False; [done|]. intros (y & Hk & Hy)%list_elem_of_fmap. apply not_true_iff_false in E. apply E.
    apply existsb_exists. exists y. split; [by apply list_elem_of_In|]. by apply at_key.
Qed.

(** ** Concurrent writers of one school *)

Section Quota.
Context (cap : nat) (schoolId : string) (maxStudents : Z).

(** How far the callback of one lock holder is. *)
Inductive phase := Holding | Counted (remaining : option Z) | Finished.
Record system := System { q_st : state; q_phase : gmap string phase }.

(** One step of one request: the calls on the lock of the school, each of which may
    lose its request or its reply, the count, the write of a holder whose lease is
    not over, and what needs no lock: deletions, changes that keep ids and deletions,
    writes of other schools, audit entries and flags of payments. *)
Inductive qstep : system -> system -> Prop :=
  | q_acquire st ph f token r o : ph !! token = None ->
      acquire_redis f token (quotaKey schoolId) LOCK_TTL_MS (locks st) = (r, o) ->
      qstep (System st ph) (System (set_locks r st) (<[token := match o with Some _ => Holding | None => Finished end]> ph))
  | q_count st ph token : ph !! token = Some Holding ->
      qstep (System st ph) (System st (<[token := Counted (seats schoolId maxStudents (docs st))]> ph))
  | q_create st ph token n x l : ph !! token = Some (Counted n) -> owned (quotaKey schoolId) token (locks st) = true ->
      no_seat n = false -> insert x (docs st) = Ok l ->
      qstep (System st ph) (System (set_docs l st) (<[token := Finished]> ph))
  | q_restore st ph token n studentId : ph !! token = Some (Counted n) -> owned (quotaKey schoolId) token (locks st) = true ->
      no_seat n = false ->
      qstep (System st ph)
        (System (set_docs (change schoolId studentId (save cap ∘ with_bal (set_deletedAt None)) (docs st)) st) (<[token := Finished]> ph))
  | q_refuse st ph token n : ph !! token = Some (Counted n) -> qstep (System st ph) (System st (<[token := Finished]> ph))
  | q_renew st ph f token : qstep (System st ph) (System (set_locks (renew_redis f (quotaKey schoolId) token LOCK_TTL_MS (locks st)).1 st) ph)
  | q_release st ph f token : qstep (System st ph) (System (set_locks (release_redis f (quotaKey schoolId) token (locks st)).1 st) ph)
  | q_tick st ph dt : 0 <= dt -> qstep (System st ph) (System (set_locks (tick dt (locks st)) st) ph)
  | q_delete st ph now school' studentId :
      qstep (System st ph) (System (deleteStudent cap now school' studentId st).1 ph)
  | q_change st ph l : map ident l = map ident (docs st) -> qstep (System st ph) (System (set_docs l st) ph)
  | q_other st ph l : NoDup (keys l) -> List.filter (counted schoolId) l = List.filter (counted schoolId) (docs st) ->
      qstep (System st ph) (System (set_docs l st) ph)
  | q_note st ph st' : docs st' = docs st -> locks st' = locks st -> qstep (System st ph) (System st' ph).

Lemma quotaKey_plain : is_fence_key (quotaKey schoolId) = false.
Proof. reflexivity. Qed.

Lemma owned_unique k t t' r : owned k t r = true -> owned k t' r = true -> t = t'.
Proof. unfold owned. destruct (rget k r); [|done]. rewrite !bool_decide_eq_true. congruence. Qed.

Lemma owned_acquire f t t0 r : owned (quotaKey schoolId) t (acquire_redis f t0 (quotaKey schoolId) LOCK_TTL_MS r).1 = true ->
  t = t0 \/ owned (quotaKey schoolId) t r = true.
Proof.
  destruct (acquire_redis _ _ _ _ r) as [r' o] eqn:E. cbn [fst].
  apply acquire_redis_cases in E as [[-> _]|[-> _]]; [by right|]. unfold ACQUIRE_WITH_FENCE_SCRIPT.
  destruct (match rget _ _ with Some _ => _ | None => _ end) eqn:Eh; [by right|].
  destruct (incr _ _) as [[z r1]|]; [|by right]. cbn [fst]. unfold owned at 1. rewrite rget_rset_eq.
  destruct (live _ _); [|done]. cbn. rewrite bool_decide_eq_true. by left.
Qed.

Lemma owned_release f k t t0 r : owned k t (release_redis f k t0 r).1 = true -> owned k t r = true.
Proof.
  destruct (release_redis_cases f k t0 r) as [->|[_ ->]]; [done|]. unfold owned, rget, rdel. cbn. by rewrite lookup_delete_eq.
Qed.

Lemma owned_renew f k t t0 ttl r : owned k t (renew_redis f k t0 ttl r).1 = true -> owned k t r = true.
Proof.
  destruct (renew_redis_cases f k t0 ttl r) as [->|(e & He & Ht & ->)]; [done|].
  unfold owned. rewrite rget_rset_eq, He. by destruct (live _ _).
Qed.

Lemma owned_tick k t dt r : 0 <= dt -> owned k t (tick dt r) = true -> owned k t r = true.
Proof.
  unfold owned, rget, tick, live. cbn. destruct (store r !! k) as [e|]; [|done]. intros Hd.
  destruct (e_exp e) as [x|]; [|done]. destruct (_ <? _) eqn:E; [|done]. intros H.
  apply Z.ltb_lt in E. by rewrite (proj2 (Z.ltb_lt _ _)) by lia.
Qed.

(** A holder that has counted still finds the seats it counted. *)
Record quota_ok (s : system) : Prop := {
  qo_unique : NoDup (keys (docs (q_st s)));
  qo_max : active_count schoolId (docs (q_st s)) <= maxStudents;
  qo_seats t n : q_phase s !! t = Some (Counted n) -> owned (quotaKey schoolId) t (locks (q_st s)) = true ->
    exists z, n = Some z /\ active_count schoolId (docs (q_st s)) + z <= maxStudents }.

(** A step that changes the documents without raising the count. *)
Lemma quota_docs st ph l : quota_ok (System st ph) -> NoDup (keys l) ->
  active_count schoolId l <= active_count schoolId (docs st) -> quota_ok (System (set_docs l st) ph).
Proof.
  intros [Hu Hm Hs] Hn Hle. split; cbn in *; [done|lia|].
  intros t n Ht Ho. destruct (Hs t n Ht Ho) as (z & -> & Hz). exists z. split; [done|lia].
Qed.

(** A step of the lock that hands it to nobody who counted before. *)
Lemma quota_locks st ph ph' r : quota_ok (System st ph) ->
  (forall t n, ph' !! t = Some (Counted n) -> ph !! t = Some (Counted n)) ->
  (forall t n, ph' !! t = Some (Counted n) -> owned (quotaKey schoolId) t r = true -> owned (quotaKey schoolId) t (locks st) = true) ->
  quota_ok (System (set_locks r st) ph').
Proof. intros [Hu Hm Hs] Hp Ho. split; cbn in *; [done..|]. intros t n Ht Hown. eapply Hs; eauto. Qed.

(** A write in a counted seat. *)
Lemma quota_write st ph token n l : quota_ok (System st ph) -> ph !! token = Some (Counted n) ->
  owned (quotaKey schoolId) token (locks st) = true -> no_seat n = false -> NoDup (keys l) ->
  active_count schoolId l <= active_count schoolId (docs st) + 1 ->
  quota_ok (System (set_docs l st) (<[token := Finished]> ph)).
Proof.
  intros [Hu Hm Hs] Ht Ho Hn Hl Hle. destruct (Hs token n Ht Ho) as (z & -> & Hz). cbn in *.
  apply Z.ltb_ge in Hn. split; cbn; [done|lia|].
  intros t' n' [[_ ?]|[Hne _]]%lookup_insert_Some Ho'; [done|]. destruct Hne. by eapply owned_unique.
Qed.

Lemma insert_active x l l' : insert x l = Ok l' -> NoDup (keys l) -> NoDup (keys l') /\ active_count schoolId l' <= active_count schoolId l + 1.
Proof.
  rewrite insert_spec. destruct (decide _) as [|Hn]; [done|]. intros [= <-] Hl. split.
  - unfold keys. rewrite map_app. apply NoDup_app. split; [done|]. split; [|apply NoDup_singleton]. cbn.
    intros k Hk ->%list_elem_of_singleton. done.
  - rewrite active_app, active_cons. change (active_count schoolId []) with 0. destruct (counted _ x); lia.
Qed.

Lemma deleteStudent_docs now school' studentId st :
  docs (deleteStudent cap now school' studentId st).1 = docs st \/
  docs (deleteStudent cap now school' studentId st).1 = change school' studentId (save cap ∘ with_bal (set_deletedAt (Some now))) (docs st).
Proof. unfold deleteStudent. destruct (findOne _ _ _); [by right|]. left. by destruct (findAny _ _ _). Qed.

Lemma marked_key t x : d_key ((save cap ∘ with_bal (set_deletedAt t)) x) = d_key x.
Proof. exact (f_equal fst (mark_ident cap t x)). Qed.
Lemma marked_deleted t x : d_deletedAt ((save cap ∘ with_bal (set_deletedAt t)) x) = t.
Proof. exact (f_equal snd (mark_ident cap t x)). Qed.

Lemma qstep_ok s s' : 0 < maxStudents -> qstep s s' -> quota_ok s -> quota_ok s'.
Proof.
  intros Hpos Hstep H. destruct Hstep as
    [st ph f token r o Hph Ha|st ph token Hph|st ph token n x l Hph Ho Hn Hi|st ph token n id Hph Ho Hn|st ph token n Hph
    |st ph f token|st ph f token|st ph dt Hdt|st ph now school' id|st ph l Hl|st ph l Hu Hl|st ph st' Hl Hr]; pose proof (qo_unique _ H) as Hd; cbn in Hd.
  - apply (quota_locks _ ph); [done|..].
    + intros t n [[_ Hx]|[_ Hx]]%lookup_insert_Some; [by destruct o|done].
    + intros t n Ht Ho. destruct (owned_acquire f t token (locks st)) as [->|?]; [by rewrite Ha| |done].
      rewrite lookup_insert_eq in Ht. by destruct o.
  - destruct H as [Hu Hm Hs]. cbn in *. split; cbn; [done..|].
    intros t n [[-> [= <-]]|[_ Ht]]%lookup_insert_Some Ho; [|by apply (Hs t)].
    unfold seats. rewrite (proj2 (Z.eqb_neq _ _)) by lia. eexists. split; [done|]. lia.
  - destruct (insert_active _ _ _ Hi Hd). by eapply quota_write.
  - eapply quota_write; [done..| |by apply change_active_one]. by rewrite change_keys by apply marked_key.
  - apply (quota_locks _ ph ph) with (r := locks st) in H; [|done..]. destruct H as [Hu Hm Hs]. split; cbn in *; [done..|].
    intros t m [[_ ?]|[_ Ht]]%lookup_insert_Some; [done|]. by apply Hs.
  - apply (quota_locks _ ph); [done..|]. intros t n _. apply owned_renew.
  - apply (quota_locks _ ph); [done..|]. intros t n _. apply owned_release.
  - apply (quota_locks _ ph); [done..|]. intros t n _. by apply owned_tick.
  - assert (Hk : locks (deleteStudent cap now school' id st).1 = locks st)
      by (unfold deleteStudent; destruct (findOne _ _ _); [done|]; by destruct (findAny _ _ _)).
    assert (Hc : forall l, NoDup (keys l) -> active_count schoolId l <= active_count schoolId (docs st) ->
      docs (deleteStudent cap now school' id st).1 = l -> quota_ok (System (deleteStudent cap now school' id st).1 ph)).
    { intros l Hl Hle Hdocs. destruct (quota_docs st ph l H Hl Hle) as [Hu Hm Hs]. cbn in *. split; cbn; rewrite Hdocs; [done..|]. by rewrite Hk. }
    destruct (deleteStudent_docs now school' id st) as [E|E]; eapply Hc; try exact E; [done..| |].
    + by rewrite change_keys by apply marked_key.
    + apply change_active_le. intros x. unfold counted, live_. by rewrite marked_deleted, andb_false_r.
  - apply quota_docs; [done|by rewrite (keys_ident _ _ Hl)|by rewrite (active_ident _ _ _ Hl)].
  - apply quota_docs; [done..|]. unfold active_count. unfold counted in Hl. by rewrite Hl.
  - destruct H as [Hu Hm Hs]. cbn in *. split; cbn; rewrite Hl; [done..|]. by rewrite Hr.
Qed.

(** C21: the quota holds in every interleaving of registrations, restores, deletions and
    changes, as long as a holder writes within its lease. *)
Theorem student_quota_holds st s' : 0 < maxStudents -> NoDup (keys (docs st)) -> active_count schoolId (docs st) <= maxStudents ->
  rtc qstep (System st ∅) s' -> NoDup (keys (docs (q_st s'))) /\ active_count schoolId (docs (q_st s')) <= maxStudents.
Proof.
  intros Hpos Hu Hm Hr.
  assert (H : quota_ok s').
  { assert (H0 : quota_ok (System st ∅)) by (split; cbn; [done..|]; intros t n; by rewrite lookup_empty).
    revert H0. induction Hr as [|s1 s2 s3 Hs _ IH]; [done|]. intros H0. apply IH. by eapply qstep_ok. }
  split; apply H.
Qed.

(** ** The handlers are runs of these steps *)

Lemma acquired_owned token r r' a : acquire_redis NoFault token (quotaKey schoolId) LOCK_TTL_MS r = (r', Some a) ->
  a_token a = token /\ owned (quotaKey schoolId) token r' = true.
Proof.
  unfold acquire_redis, ACQUIRE_WITH_FENCE_SCRIPT.
  destruct (match rget _ _ with Some _ => _ | None => _ end); [done|].
  destruct (incr _ _) as [[z r1]|]; [|done]. intros [= <- <-]. split; [done|].
  unfold owned. rewrite rget_rset_eq. unfold live. cbn. rewrite (proj2 (Z.ltb_lt _ _)) by (unfold LOCK_TTL_MS; lia).
  cbn. by apply bool_decide_eq_true.
Qed.

(** The callback's own write is one step, from any lock state in which it holds. *)
Definition writes (token : string) (fn : option Z -> list doc -> result error (list doc)) (st : state) : Prop :=
  forall r ph l, ph !! token = Some (Counted (seats schoolId maxStudents (docs st))) -> owned (quotaKey schoolId) token r = true ->
    fn (seats schoolId maxStudents (docs st)) (docs st) = Ok l ->
    qstep (System (set_locks r st) ph) (System (set_docs l (set_locks r st)) (<[token := Finished]> ph)).

Lemma withStudentQuota_run token fn st st' res ph : ph !! token = None -> writes token fn st ->
  withStudentQuota token schoolId maxStudents fn st = (st', res) ->
  rtc qstep (System st ph) (System st' (<[token := Finished]> ph)).
Proof.
  intros Hph Hw. unfold withStudentQuota, withLock.
  destruct (acquire_redis _ _ _ _ (locks st)) as [r1 [a|]] eqn:Ha.
  2: { intros [= <- _]. apply rtc_once. by apply (q_acquire st ph NoFault token r1 None). }
  destruct (acquired_owned _ _ _ _ Ha) as [-> Ho].
  destruct (release_redis NoFault _ token r1) as [r3 b] eqn:Hrel.
  pose proof (q_acquire st ph _ _ _ _ Hph Ha) as S1. cbn in S1.
  pose proof (q_count (set_locks r1 st) (<[token := Holding]> ph) token (lookup_insert_eq _ _ _)) as S2. rewrite insert_insert_eq in S2.
  specialize (Hw r1 (<[token := Counted (seats schoolId maxStudents (docs st))]> ph)). rewrite lookup_insert_eq, insert_insert_eq in Hw.
  destruct (fn _ (docs st)) as [l|e].
  - intros [= <- _]. eapply rtc_l; [exact S1|]. eapply rtc_l; [exact S2|]. eapply rtc_l; [by apply Hw|]. apply rtc_once.
    pose proof (q_release (set_docs l (set_locks r1 st)) (<[token := Finished]> ph) NoFault token) as S4. cbn in S4. by rewrite Hrel in S4.
  - intros [= <- _]. eapply rtc_l; [exact S1|]. eapply rtc_l; [exact S2|].
    eapply rtc_l; [apply (q_refuse _ _ token (seats schoolId maxStudents (docs st))); apply lookup_insert_eq|]. rewrite insert_insert_eq. apply rtc_once.
    pose proof (q_release (set_locks r1 st) (<[token := Finished]> ph) NoFault token) as S4. cbn in S4. by rewrite Hrel in S4.
Qed.

Lemma create_run token x st st' res ph : ph !! token = None -> d_schoolId x = schoolId ->
  createStudentWithinQuota token maxStudents x st = (st', res) -> rtc qstep (System st ph) (System st' (<[token := Finished]> ph)).
Proof.
  intros Hph Hs H. unfold createStudentWithinQuota in H. rewrite Hs in H. eapply withStudentQuota_run; [done| |exact H].
  intros r ph' l Hc Ho. destruct (no_seat _) eqn:En; [done|]. intros Hi. by eapply q_create.
Qed.

(** A restore is such a run. *)
Lemma restore_run token studentId st st' res ph : ph !! token = None ->
  restoreStudent cap token schoolId studentId maxStudents st = (st', res) ->
  exists ph', rtc qstep (System st ph) (System st' ph').
Proof.
  intros Hph. unfold restoreStudent. destruct (findAny _ _ _) as [x|]; [|intros [= <- _]; by exists ph].
  destruct (live_ x); [intros [= <- _]; by exists ph|].
  destruct (withStudentQuota _ _ _ _ st) as [st1 r1] eqn:E.
  apply (withStudentQuota_run _ _ _ _ _ ph) in E; [|done|].
  2: { intros r ph' l Hc Ho. destruct (no_seat _) eqn:En; [done|]. intros [= <-]. exact (q_restore (set_locks r st) ph' token _ studentId Hc Ho En). }
  destruct r1 as [u|e]; intros [= <- _]; exists (<[token := Finished]> ph); [|done].
  etrans; [exact E|]. apply rtc_once. by apply q_note.
Qed.

(** A registration is a run, whatever other requests do between its checks and its
    insertion. *)
Lemma register_run sha256 token token' cs cs' g meanwhile st ph ph1 st' res :
  token <> token' -> ph1 !! token = None -> ph1 !! token' = None ->
  rtc qstep (System st ph) (System (meanwhile st) ph1) ->
  registerStudent sha256 token token' cs cs' schoolId maxStudents g meanwhile st = (st', res) ->
  exists ph', rtc qstep (System st ph) (System st' ph').
Proof.
  intros Hne Ht Ht' Hm. unfold registerStudent. destruct (registration_check _ _ _ _) as [[[id fee] dl]|e]; [|intros [= <- _]; by exists ph].
  destruct (createStudentWithinQuota token _ _ _) as [st1 r1] eqn:E1. apply (create_run _ _ _ _ _ ph1) in E1; [|done..].
  assert (H1 : rtc qstep (System st ph) (System st1 (<[token := Finished]> ph1))) by (etrans; eassumption).
  assert (Hstay : st1 = st' -> exists ph', rtc qstep (System st ph) (System st' ph')) by (intros <-; eauto).
  destruct r1 as [u|e].
  { intros [= <- _]. eexists. etrans; [exact H1|]. apply rtc_once. by apply q_note. }
  destruct (negb _); [intros [= <- _]; by apply Hstay|]. destruct (str_truthy _); [intros [= <- _]; by apply Hstay|].
  destruct (generateStudentId _ _ _) as [id'|]; [|intros [= <- _]; by apply Hstay].
  destruct (createStudentWithinQuota token' _ _ _) as [st2 r2] eqn:E2.
  apply (create_run _ _ _ _ _ (<[token := Finished]> ph1)) in E2; [|by rewrite lookup_insert_ne|done].
  assert (H2 : rtc qstep (System st ph) (System st2 (<[token' := Finished]> (<[token := Finished]> ph1)))) by (etrans; eassumption).
  intros H. destruct r2; injection H as <- _; eauto.
Qed.
End Quota.

(** ** Registration and ids *)

(** What a write under the quota does to the documents. *)
Lemma createStudentWithinQuota_docs token maxStudents x st st' r : createStudentWithinQuota token maxStudents x st = (st', r) ->
  match r with
  | Ok _ => docs st' = docs st ++ [x] /\ d_key x ∉ keys (docs st)
  | Throw _ => docs st' = docs st
  end.
Proof.
  unfold createStudentWithinQuota, withStudentQuota, withLock.
  destruct (acquire_redis _ _ _ _ _) as [r1 [a|]]; [|by intros [= <- <-]].
  destruct (no_seat _); [destruct (release_redis _ _ _ _); by intros [= <- <-]|]. rewrite insert_spec.
  destruct (decide _) as [|Hn]; destruct (release_redis _ _ _ _); by intros [= <- <-].
Qed.

(** A successful registration adds exactly one document, with an id that no student
    of the school has or ever had; a refused one adds none. *)
Theorem registered_id_is_new sha256 token token' cs cs' schoolId maxStudents g meanwhile st st' r :
  registerStudent sha256 token token' cs cs' schoolId maxStudents g meanwhile st = (st', r) ->
  match r with
  | Ok id => exists x, docs st' = docs (meanwhile st) ++ [x] /\ d_key x = (schoolId, id) /\ d_name x = g_name g /\
      d_deletedAt x = None /\ (schoolId, id) ∉ keys (docs (meanwhile st))
  | Throw _ => docs st' = docs st \/ docs st' = docs (meanwhile st)
  end.
Proof.
  unfold registerStudent. destruct (registration_check _ _ _ _) as [[[id fee] dl]|e]; [|intros [= <- <-]; by left].
  destruct (createStudentWithinQuota token _ _ _) as [st1 r1] eqn:E1. apply createStudentWithinQuota_docs in E1. destruct r1 as [u|e].
  { intros [= <- <-]. destruct E1 as [E1 Hn]. cbn. eexists. by rewrite E1. }
  destruct (negb _); [intros [= <- <-]; by right|]. destruct (str_truthy _); [intros [= <- <-]; by right|].
  destruct (generateStudentId _ _ _) as [id'|]; [|intros [= <- <-]; by right].
  destruct (createStudentWithinQuota token' _ _ _) as [st2 r2] eqn:E2. apply createStudentWithinQuota_docs in E2. rewrite E1 in E2.
  destruct r2; intros [= <- <-]; [|by right]. destruct E2 as [E2 Hn]. eexists. by rewrite E2.
Qed.

Lemma find_at_none schoolId studentId l : findAny schoolId studentId l = None <-> (schoolId, studentId) ∉ keys l.
Proof.
  unfold findAny. split.
  - intros H (y & Hk & Hy)%list_elem_of_fmap. apply list_elem_of_In in Hy. apply (find_none _ _ H) in Hy.
    apply not_true_iff_false in Hy. apply Hy. by apply at_key.
  - intros Hn. destruct (List.find _ l) as [y|] eqn:E; [|done]. apply find_some in E as [Hy%list_elem_of_In Hk].
    apply at_key in Hk. destruct Hn. rewrite <-Hk. by apply (list_elem_of_fmap_2 d_key).
Qed.

(** An id that was deleted is refused. *)
Theorem deleted_id_refused sha256 token token' cs cs' schoolId maxStudents g meanwhile st x :
  str_truthy (g_studentId g) = true -> findAny schoolId (g_studentId g) (docs st) = Some x ->
  findOne schoolId (g_studentId g) (docs st) = None ->
  registerStudent sha256 token token' cs cs' schoolId maxStudents g meanwhile st = (st, Throw (409, "STUDENT_PREVIOUSLY_DELETED")).
Proof. intros Ht Hx Hf. unfold registerStudent, registration_check. rewrite Ht. cbn. by rewrite Hf, Hx. Qed.

(** ** Deleting and restoring *)

Lemma findOne_some schoolId studentId l x : findOne schoolId studentId l = Some x -> x ∈ l /\ d_key x = (schoolId, studentId) /\ d_deletedAt x = None.
Proof.
  intros [Hx%list_elem_of_In [Hk Hl]%andb_true_iff]%find_some. apply at_key in Hk. unfold live_ in Hl. by apply bool_decide_eq_true in Hl.
Qed.

Lemma change_change schoolId studentId f g l : (forall x, d_key (f x) = d_key x) ->
  change schoolId studentId g (change schoolId studentId f l) = change schoolId studentId (g ∘ f) l.
Proof.
  intros Hf. unfold change. rewrite map_map. apply map_ext. intros x. destruct (at_ schoolId studentId x) eqn:E; [|by rewrite E].
  cbn. apply at_key in E. rewrite <-Hf in E. apply at_key in E. by rewrite E.
Qed.

Lemma change_id schoolId studentId f l x : NoDup (keys l) -> x ∈ l -> d_key x = (schoolId, studentId) -> f x = x ->
  change schoolId studentId f l = l.
Proof.
  intros Hn Hx Hk Hf. unfold change. rewrite <-(map_id l) at 2. apply map_ext_in. intros y Hy%list_elem_of_In.
  destruct (at_ _ _ y) eqn:E; [|done]. apply at_key in E. assert (y = x) as -> by (eapply (NoDup_fmap_eq d_key); eauto; congruence). done.
Qed.

Lemma change_lookup schoolId studentId f l x : (forall y, d_key (f y) = d_key y) -> NoDup (keys l) -> x ∈ l -> d_key x = (schoolId, studentId) ->
  findAny schoolId studentId (change schoolId studentId f l) = Some (f x).
Proof.
  intros Hf Hn Hx Hk. induction l as [|y l IH]; [by apply not_elem_of_nil in Hx|]. cbn [keys map] in Hn. apply NoDup_cons in Hn as [Hy Hn].
  cbn [change map findAny List.find]. destruct (at_ schoolId studentId y) eqn:E.
  - apply at_key in E. apply elem_of_cons in Hx as [->|Hx].
    + assert (at_ schoolId studentId (f y) = true) as -> by (apply at_key; by rewrite Hf). done.
    + destruct Hy. rewrite E, <-Hk. by apply (list_elem_of_fmap_2 d_key).
  - apply elem_of_cons in Hx as [->|Hx]; [apply at_key in Hk; congruence|]. rewrite E. by apply IH.
Qed.

(** Deleting frees exactly one seat. *)
Lemma change_active_minus schoolId studentId f l x : (forall y, counted schoolId (f y) = false) -> NoDup (keys l) -> x ∈ l ->
  d_key x = (schoolId, studentId) -> d_deletedAt x = None -> active_count schoolId (change schoolId studentId f l) = active_count schoolId l - 1.
Proof.
  intros Hf Hn Hx Hk Hd. induction l as [|y l IH]; [by apply not_elem_of_nil in Hx|]. cbn [keys map] in Hn. apply NoDup_cons in Hn as [Hy Hn].
  cbn [change map]. fold (change schoolId studentId f l). rewrite !active_cons. destruct (at_ schoolId studentId y) eqn:E.
  - apply at_key in E. rewrite Hf. rewrite E in Hy. rewrite change_none by done. apply elem_of_cons in Hx as [->|Hx].
    + assert (counted schoolId y = true) as ->; [|lia]. unfold counted, live_. injection Hk as -> _. by rewrite Hd, !bool_decide_true.
    + destruct Hy. rewrite <-Hk. by apply (list_elem_of_fmap_2 d_key).
  - apply elem_of_cons in Hx as [->|Hx]; [apply at_key in Hk; congruence|]. rewrite IH by done. lia.
Qed.

Lemma mark_mark schoolId studentId l : Forall (fun p => py_schoolId p = schoolId -> py_studentId p = studentId -> py_studentDeleted p = false) l ->
  mark_pays schoolId studentId false (mark_pays schoolId studentId true l) = l.
Proof.
  intros H. unfold mark_pays. rewrite map_map. rewrite <-(map_id l) at 2. apply map_ext_in. intros p Hp%list_elem_of_In.
  eapply Forall_forall in H; [|exact Hp].
  destruct (bool_decide (py_schoolId p = schoolId) && bool_decide (py_studentId p = studentId)) eqn:E; cbn; rewrite E; [|done].
  apply andb_true_iff in E as [E1%bool_decide_eq_true E2%bool_decide_eq_true]. rewrite <-(H E1 E2). by destruct p.
Qed.

Lemma mark_twice cap now x : StudentBalance.st_fees (d_bal x) = [] -> d_deletedAt x = None ->
  ((save cap ∘ with_bal (set_deletedAt None)) ∘ (save cap ∘ with_bal (set_deletedAt (Some now)))) x = x.
Proof.
  destruct x as [[sc id cl yr fee fs paid tot rem cr del] n e h p dl oo su rc ls]. cbn. intros -> ->.
  unfold save, with_bal, StudentBalance.student_pre_save. cbn. by rewrite drop_nil.
Qed.

(** Deleting a student without fee categories and restoring it puts the student and
    the payments back as they were; the seat it left is there for it. *)
Theorem delete_restore_roundtrip cap now token schoolId studentId maxStudents st x r a :
  NoDup (keys (docs st)) -> findOne schoolId studentId (docs st) = Some x -> StudentBalance.st_fees (d_bal x) = [] ->
  maxStudents = 0 \/ active_count schoolId (docs st) <= maxStudents ->
  Forall (fun p => py_schoolId p = schoolId -> py_studentId p = studentId -> py_studentDeleted p = false) (pays st) ->
  acquire_redis NoFault token (quotaKey schoolId) LOCK_TTL_MS (locks st) = (r, Some a) ->
  exists st1 st2, deleteStudent cap now schoolId studentId st = (st1, Ok tt) /\ (schoolId, studentId) ∈ keys (docs st1) /\
    active_count schoolId (docs st1) = active_count schoolId (docs st) - 1 /\
    restoreStudent cap token schoolId studentId maxStudents st1 = (st2, Ok tt) /\ docs st2 = docs st /\ pays st2 = pays st.
Proof.
  intros Hn Hx Hfees Hq Hp Ha. destruct (release_redis NoFault (quotaKey schoolId) (a_token a) r) as [r3 b] eqn:Hrel. destruct (findOne_some _ _ _ _ Hx) as (Hin & Hk & Hd).
  set (f := save cap ∘ with_bal (set_deletedAt (Some now))). assert (Hf : forall y, d_key (f y) = d_key y) by apply marked_key.
  assert (Hc : active_count schoolId (change schoolId studentId f (docs st)) = active_count schoolId (docs st) - 1).
  { eapply change_active_minus; try done. intros y. unfold counted, live_, f. by rewrite marked_deleted, andb_false_r. }
  unfold deleteStudent. rewrite Hx. fold f. eexists _, _. split; [done|]. cbn [docs log set_pays set_docs].
  split. { rewrite change_keys by done. rewrite <-Hk. by apply (list_elem_of_fmap_2 d_key). }
  split; [done|]. unfold restoreStudent. cbn [docs log set_pays set_docs pays]. rewrite (change_lookup _ _ _ _ _ Hf Hn Hin Hk).
  assert (live_ (f x) = false) as -> by (unfold live_, f; by rewrite marked_deleted).
  unfold withStudentQuota, withLock. cbn [docs log set_pays set_docs locks]. rewrite Ha.
  assert (no_seat (seats schoolId maxStudents (change schoolId studentId f (docs st))) = false) as ->.
  { unfold seats, no_seat. destruct (maxStudents =? 0) eqn:E; [done|]. apply Z.eqb_neq in E. apply Z.ltb_ge. rewrite Hc. lia. }
  rewrite Hrel. split; [done|]. cbn [docs log set_pays set_docs set_locks pays]. split.
  - rewrite change_change by done. eapply change_id; [done..|]. by apply mark_twice.
  - by apply mark_mark.
Qed.

(** ** Changes keep identities *)

Lemma set_contacts_ident sha256 c x : ident (set_contacts sha256 c x) = ident x.
Proof.
  unfold set_contacts. set (y := match c_email c with Some _ => _ | None => _ end).
  assert (Hy : ident y = ident x) by (subst y; destruct (c_email c); [|done]; by case_bool_decide).
  destruct (c_phone c); [|done]. by case_bool_decide.
Qed.

Definition bal_ident (s : StudentBalance.student) : (string * string) * option Z :=
  (StudentBalance.st_schoolId s, StudentBalance.st_studentId s, StudentBalance.st_deletedAt s).
Lemma ident_bal l : map ident l = map bal_ident (map d_bal l).
Proof. by rewrite map_map. Qed.

Lemma replace_ident schoolId studentId f l : (forall s, bal_ident (f s) = bal_ident s) ->
  map bal_ident (StudentBalance.replace_student schoolId studentId f l) = map bal_ident l.
Proof. intros Hf. induction l as [|s l IH]; [done|]. cbn. destruct (_ && _); cbn; [by rewrite Hf|by rewrite IH]. Qed.

Section Updates.
Context `{DL : DecimalLib} `{MS : !MongoSum} (sha256 : string -> string) (cap : nat).

Lemma balance_students schoolId studentId b d : map bal_ident (StudentBalance.students (StudentBalance.updateStudentBalance schoolId studentId b d).1)
  = map bal_ident (StudentBalance.students d).
Proof.
  unfold StudentBalance.updateStudentBalance. destruct (StudentBalance.find_student _ _ _) as [s|]; [|done].
  unfold mbind, result_bind. destruct (StudentBalance.canonical_classification _ _ _ _) as [c|]; [|done].
  destruct (if b then _ else _) as [fees|]; [|done].
  set (d' := StudentBalance.set_students _ d).
  assert (Hd : map bal_ident (StudentBalance.students d') = map bal_ident (StudentBalance.students d)) by (by apply replace_ident).
  destruct (StudentBalance.syncCurrentPeriodFee schoolId studentId d') as [d''|] eqn:E; [|done]. cbn [fst]. rewrite <-Hd. f_equal.
  unfold StudentBalance.syncCurrentPeriodFee, mbind, result_bind in E. repeat (case_match; simplify_eq; try done).
Qed.

Lemma rebalance_ident schoolId studentId st : map ident (docs (rebalance schoolId studentId st).1) = map ident (docs st).
Proof.
  unfold rebalance. pose proof (balance_students schoolId studentId true (StudentBalance.set_students (map d_bal (docs st)) (ledger st))) as H.
  destruct (StudentBalance.updateStudentBalance _ _ _ _) as [d r]. cbn in *. revert H. generalize (StudentBalance.students d).
  generalize (docs st). induction l as [|x l IH]; intros [|s l'] H; try done. injection H as Hs Hi Hd H. cbn. rewrite (IH _ H). f_equal.
  unfold ident, d_key, d_schoolId, d_studentId, d_deletedAt. cbn. by rewrite Hs, Hi, Hd.
Qed.

(** A change of a student keeps every id and every deletion mark: it is one of the
    steps above. *)
Lemma updateStudent_ident schoolId studentId c st : map ident (docs (updateStudent sha256 cap schoolId studentId c st).1) = map ident (docs st).
Proof.
  unfold updateStudent. destruct (findOne _ _ _) as [o|]; [|done]. destruct (match c_email c with Some _ => _ | None => _ end); [done|].
  destruct (changed_fee _ _ _) as [fee|]; [|done].
  set (st1 := set_docs _ st).
  assert (H1 : map ident (docs st1) = map ident (docs st)).
  { apply change_ident. intros x. cbn [compose]. by rewrite save_ident, set_contacts_ident. }
  destruct (negb _); [done|]. pose proof (rebalance_ident schoolId studentId st1) as H2.
  destruct (rebalance _ _ st1) as [st2 [s|]]; cbn in *; congruence.
Qed.
End Updates.

(** ** The import *)

Definition stored (x : list doc * list (nat * doc) * list (nat * doc)) : list doc := x.1.1.
Definition inserted (x : list doc * list (nat * doc) * list (nat * doc)) : list (nat * doc) := x.1.2.
Definition rejected (x : list doc * list (nat * doc) * list (nat * doc)) : list (nat * doc) := x.2.

Lemma insertMany_app ds ds' l : let x := insertMany ds l in let y := insertMany ds' (stored x) in
  insertMany (ds ++ ds') l = (stored y, inserted x ++ inserted y, rejected x ++ rejected y).
Proof.
  cbn. revert l. induction ds as [|[i d] ds IH]; intros l; cbn [insertMany app].
  { cbn. by destruct (insertMany ds' l) as [[? ?] ?]. }
  destruct (insert d l) as [l'|]; rewrite IH; [destruct (insertMany ds l') as [[? ?] ?]|destruct (insertMany ds l) as [[? ?] ?]]; done.
Qed.

(** [insertMany] appends what it inserts, and what it rejects is not new. *)
Lemma insertMany_stored ds l : stored (insertMany ds l) = l ++ map snd (inserted (insertMany ds l)).
Proof.
  revert l. induction ds as [|[i d] ds IH]; intros l; cbn [insertMany]; [by rewrite app_nil_r|]. rewrite insert_spec.
  destruct (decide _); [|specialize (IH (l ++ [d]))]; [specialize (IH l)|];
    destruct (insertMany ds _) as [[? ?] ?]; cbn in *; rewrite IH; [done|]. by rewrite <-app_assoc.
Qed.
Lemma insertMany_split ds l : ds ≡ₚ inserted (insertMany ds l) ++ rejected (insertMany ds l).
Proof.
  revert l. induction ds as [|[i d] ds IH]; intros l; cbn [insertMany]; [done|].
  destruct (insert d l) as [l'|]; [specialize (IH l')|specialize (IH l)]; destruct (insertMany ds _) as [[? ?] ?]; cbn in *; [by constructor|].
  by rewrite <-Permutation_middle, <-IH.
Qed.
Lemma insertMany_unique ds l : NoDup (keys l) -> NoDup (keys (stored (insertMany ds l))).
Proof.
  revert l. induction ds as [|[i d] ds IH]; intros l Hl; cbn [insertMany]; [done|].
  destruct (insert d l) as [l'|] eqn:E; [apply (insert_active "") in E as [E _]; [|done]; specialize (IH l' E)|specialize (IH l Hl)];
    by destruct (insertMany ds _) as [[? ?] ?].
Qed.
Lemma rejected_known ds l : Forall (fun e => d_key e.2 ∈ keys (stored (insertMany ds l))) (rejected (insertMany ds l)).
Proof.
  revert l. induction ds as [|[i d] ds IH]; intros l; cbn [insertMany]; [constructor|]. rewrite insert_spec. destruct (decide _) as [Hin|].
  - specialize (IH l). pose proof (insertMany_stored ds l) as Hs. destruct (insertMany ds l) as [[? ?] ?]. cbn in *. constructor; [|done].
    subst. unfold keys. rewrite map_app. apply elem_of_app. by left.
  - specialize (IH (l ++ [d])). by destruct (insertMany ds _) as [[? ?] ?].
Qed.

Section Import.
Context (MAX_DETAILS CHUNK_SIZE : nat).

Lemma note_created d rs : rs_created (note MAX_DETAILS d rs) = rs_created rs.
Proof. unfold note. by destruct (_ <? _)%nat. Qed.
Lemma notes_created {A} (f : A -> detail) l rs : rs_created (foldl (fun rs e => note MAX_DETAILS (f e) rs) rs l) = rs_created rs.
Proof. revert rs. induction l as [|x l IH]; intros rs; cbn; [done|]. by rewrite IH, note_created. Qed.
Lemma errors_created l rs : rs_created (foldl (insert_error MAX_DETAILS) rs l) = rs_created rs.
Proof. revert rs. induction l as [|x l IH]; intros rs; cbn; [done|]. rewrite IH. unfold insert_error. by destruct (_ <? _)%nat. Qed.

Lemma insert_chunk_spec c x : (insert_chunk MAX_DETAILS c x).1 = stored (insertMany c x.1) /\
  rs_created (insert_chunk MAX_DETAILS c x).2 = (rs_created x.2 + length (inserted (insertMany c x.1)))%nat.
Proof. unfold insert_chunk. destruct (insertMany c x.1) as [[l' ins] errs]. cbn. by rewrite errors_created, notes_created. Qed.

Lemma chunks_concat {A} fuel (l : list A) : (1 <= CHUNK_SIZE)%nat -> (length l <= fuel)%nat -> concat (chunks CHUNK_SIZE fuel l) = l.
Proof.
  intros Hc. revert l. induction fuel as [|n IH]; intros [|x l] Hl; cbn [chunks concat length] in *; [done|lia|done|].
  rewrite IH; [by rewrite take_drop|]. rewrite length_drop. cbn. lia.
Qed.

Lemma chunked_spec cs x : (foldl (fun x c => insert_chunk MAX_DETAILS c x) x cs).1 = stored (insertMany (concat cs) x.1) /\
  rs_created (foldl (fun x c => insert_chunk MAX_DETAILS c x) x cs).2 = (rs_created x.2 + length (inserted (insertMany (concat cs) x.1)))%nat.
Proof.
  revert x. induction cs as [|c cs IH]; intros x; cbn [foldl concat]; [cbn; split; [done|lia]|].
  destruct (IH (insert_chunk MAX_DETAILS c x)) as [-> ->]. destruct (insert_chunk_spec c x) as [-> ->].
  rewrite insertMany_app. cbn [stored inserted fst snd]. rewrite length_app. split; [done|lia].
Qed.

(** Inserting in chunks stores what one insertion of all rows stores: every row with
    a new id, in order, the rest rejected as known; and the report counts them. *)
Theorem chunked_import_exact ds l rs : (1 <= CHUNK_SIZE)%nat -> NoDup (keys l) ->
  let '(l', rs') := insertValidatedRows MAX_DETAILS CHUNK_SIZE ds (l, rs) in
  l' = stored (insertMany ds l) /\ l' = l ++ map snd (inserted (insertMany ds l)) /\ NoDup (keys l') /\
  ds ≡ₚ inserted (insertMany ds l) ++ rejected (insertMany ds l) /\
  Forall (fun e => d_key e.2 ∈ keys l') (rejected (insertMany ds l)) /\
  rs_created rs' = (rs_created rs + length (inserted (insertMany ds l)))%nat.
Proof.
  intros Hc Hl. unfold insertValidatedRows. destruct (chunked_spec (chunks CHUNK_SIZE (length ds) ds) (l, rs)) as [H1 H2].
  rewrite chunks_concat in H1, H2 by done. destruct (foldl _ _ _) as [l' rs']. cbn [fst snd] in *. rewrite H1.
  split; [done|]. split; [apply insertMany_stored|]. split; [by apply insertMany_unique|]. split; [apply insertMany_split|].
  split; [apply rejected_known|done].
Qed.

(** The report lists at most [MAX_DETAILS] rows. *)
Lemma note_bounded d rs : (length (rs_details rs) <= MAX_DETAILS)%nat -> (length (rs_details (note MAX_DETAILS d rs)) <= MAX_DETAILS)%nat.
Proof. unfold note. destruct (_ <? _)%nat eqn:E; [|done]. apply Nat.ltb_lt in E. cbn. rewrite length_app. cbn. lia. Qed.
End Import.

(** ** The public lookup *)

(** What a stranger learns of a name of two words or more: two letters. *)
Theorem masked_name_reveals_initials n n' w ws w' ws' :
  words (trim (chars n)) [] = w :: ws -> words (trim (chars n')) [] = w' :: ws' -> ws <> [] -> ws' <> [] ->
  initial w = initial w' -> initial (List.last ws []) = initial (List.last ws' []) -> maskName n = maskName n'.
Proof. intros H H' Hn Hn' Hi Hl. unfold maskName. rewrite H, H'. destruct ws, ws'; try done. by rewrite Hi, Hl. Qed.

(** ** Where the code departs from what it says *)

(** Removing the parent's address leaves its hash, by which the parent portal finds
    the student. *)
Theorem removed_email_keeps_hash sha256 c x : c_email c = Some "" -> c_phone c = None -> d_parentEmail x <> "" ->
  d_parentEmail (set_contacts sha256 c x) = "" /\ d_emailHash (set_contacts sha256 c x) = d_emailHash x.
Proof. intros He Hp Hne. unfold set_contacts. rewrite He, Hp. change (toLowerCase (str_trim "")) with "". by rewrite bool_decide_false. Qed.

(** The fee a request sets on a student with fee categories is not the one saved. *)
Theorem explicit_fee_of_categories_lost cap c f x : (length (StudentBalance.st_fees (d_bal x)) <= cap)%nat -> StudentBalance.st_fees (d_bal x) <> [] ->
  StudentBalance.st_feeAmount (d_bal (save cap (set_update c (Some f) x))) = StudentBalance.sum_numbers StudentBalance.fc_amount (StudentBalance.st_fees (d_bal x)).
Proof.
  intros Hc Hn. unfold save, with_bal, set_update, StudentBalance.student_pre_save. cbn.
  replace (length _ - cap)%nat with 0%nat by lia. cbn. by destruct (StudentBalance.st_fees (d_bal x)).
Qed.

Definition a_doc (id : string) (fee : Z) : doc :=
  Doc (StudentBalance.Student "SCH" id "G1" None (of_Z fee) [] false (of_Z 0) None (of_Z 0) None) "Ada Obi" "" None "" None false false 0 None.
Definition a_state (l : list doc) : state := State l [] [Pay "SCH" "STU1" false] (Redis ∅ 0) [] (StudentBalance.Db [] [] [] []) [].

(** Failed insertions are counted only while the report has room for them. *)
Theorem failures_beyond_details_uncounted :
  let ds := [(0%nat, a_doc "STU1" 5); (1%nat, a_doc "STU2" 5)] in
  let x := insertValidatedRows 1 500 ds ([a_doc "STU1" 5; a_doc "STU2" 5], Results 0 0 []) in
  rs_failed x.2 = 1%nat /\ length (rejected (insertMany ds [a_doc "STU1" 5; a_doc "STU2" 5])) = 2%nat.
Proof. by vm_compute. Qed.

(** The write of a holder whose lease ran out after it counted is not refused: two
    students for one seat. *)
Theorem lapsed_lease_exceeds_quota : exists l1 l2,
  no_seat (seats "SCH" 1 []) = false /\ insert (a_doc "STU1" 5) [] = Ok l1 /\ insert (a_doc "STU2" 5) l1 = Ok l2 /\ active_count "SCH" l2 = 2.
Proof. eexists _, _. by vm_compute. Qed.

(** ** Witnesses *)

Lemma student_quota_holds_witness :
  let st' := (createStudentWithinQuota "t1" 1 (a_doc "STU1" 5) (a_state [])).1 in
  docs st' = [a_doc "STU1" 5] /\ NoDup (keys (docs st')) /\ active_count "SCH" (docs st') <= 1.
Proof.
  cbv zeta. split; [by vm_compute|].
  apply (student_quota_holds 20 "SCH" 1 (a_state [])
           (System (createStudentWithinQuota "t1" 1 (a_doc "STU1" 5) (a_state [])).1 (<["t1" := Finished]> ∅))).
  - lia.
  - constructor.
  - by vm_compute.
  - eapply (create_run _ _ _ _ (a_doc "STU1" 5)); [apply lookup_empty|done|]. apply surjective_pairing.
Defined.

Lemma registered_id_is_new_witness :
  exists x, docs (registerStudent id "t1" "t2" [] [] "SCH" 0 (Registration "STU9" "Ada Obi" "" (Some (of_Z 5)) "" "") id (a_state [a_doc "STU1" 5])).1
    = [a_doc "STU1" 5; x] /\ d_key x = ("SCH", "STU9").
Proof.
  destruct (registered_id_is_new id "t1" "t2" [] [] "SCH" 0 (Registration "STU9" "Ada Obi" "" (Some (of_Z 5)) "" "") id (a_state [a_doc "STU1" 5])
    (registerStudent id "t1" "t2" [] [] "SCH" 0 (Registration "STU9" "Ada Obi" "" (Some (of_Z 5)) "" "") id (a_state [a_doc "STU1" 5])).1 (Ok "STU9"))
    as (x & Hx & Hk & _); [by vm_compute|]. exists x. by rewrite Hx.
Defined.

Lemma delete_restore_roundtrip_witness :
  exists st1 st2, deleteStudent 20 7 "SCH" "STU1" (a_state [a_doc "STU1" 5]) = (st1, Ok tt) /\
    restoreStudent 20 "t1" "SCH" "STU1" 1 st1 = (st2, Ok tt) /\ docs st2 = [a_doc "STU1" 5].
Proof.
  destruct (delete_restore_roundtrip 20 7 "t1" "SCH" "STU1" 1 (a_state [a_doc "STU1" 5]) (a_doc "STU1" 5)
    (acquire_redis NoFault "t1" (quotaKey "SCH") LOCK_TTL_MS (Redis ∅ 0)).1 (Acquired "t1" 1)) as (st1 & st2 & H1 & _ & _ & H2 & H3 & _).
  - apply NoDup_singleton.
  - by vm_compute.
  - done.
  - right. by vm_compute.
  - by repeat constructor.
  - by vm_compute.
  - by exists st1, st2.
Defined.

Lemma chunked_import_exact_witness :
  let ds := [(0%nat, a_doc "STU1" 5); (1%nat, a_doc "STU2" 5); (2%nat, a_doc "STU2" 6)] in
  (insertValidatedRows 100 2 ds ([a_doc "STU1" 5], Results 0 0 [])).1 = [a_doc "STU1" 5; a_doc "STU2" 5].
Proof.
  cbv zeta. pose proof (chunked_import_exact 100 2 [(0%nat, a_doc "STU1" 5); (1%nat, a_doc "STU2" 5); (2%nat, a_doc "STU2" 6)]
    [a_doc "STU1" 5] (Results 0 0 [])) as H. destruct (insertValidatedRows _ _ _ _) as [l' rs']. cbn [fst].
  destruct H as [-> _]; [lia|apply NoDup_singleton|by vm_compute].
Defined.

End Students.
