(* ===== verification/FrontAmount.v ===== *)
(** FrontAmount: the form check [validateStellarAmount] of
    frontend/src/utils/stellarAmount.js.  The conversions of that file are the
    backend's (StellarAmount), which it mirrors line by line. *)

From Stdlib Require Import Ascii ZArith QArith Lia.
From stdpp Require Import base strings list.
From S2P Require Import Prelude JsNumber JsString StellarAmount.
Local Open Scope string_scope.
Local Open Scope Z_scope.
Local Open Scope list_scope.

Module FrontAmount.

(** The text the form works on; [None] is a text that is no plain decimal, which is
    what [String] or [toFixed] make of numbers that are not finite or too large. *)
Definition raw_text (input : amount_arg) : option (list ascii) :=
  match input with
  | ANumber x => toFixed x DECIMALS
  | AString s => Some (trim (chars s))
  | ABigInt z => Some (Z_text z)
  | ANull | AUndefined => Some []
  end.

(** An optional sign, digits and optionally a point and digits, less the texts
    without a digit. *)
Definition unsigned (raw : list ascii) : list ascii := if starts_with ["-"%char] raw then tail raw else raw.
Definition plain_decimal (raw : list ascii) : bool :=
  match split_decimal (unsigned raw) with
  | None => false
  | Some _ => negb (bool_decide (raw = chars ".") || bool_decide (raw = chars "-") || bool_decide (raw = chars "-."))
  end.

Definition strip_zeros (l : list ascii) : list ascii := rev (drop_while (Ascii.eqb "0"%char) (rev l)).
Fixpoint after_dot (l : list ascii) : option (list ascii) :=
  match l with [] => None | c :: l' => if Ascii.eqb c "."%char then Some l' else after_dot l' end.
Definition significantDecimals (str : list ascii) : nat :=
  match after_dot str with None => 0%nat | Some f => length (strip_zeros f) end.

Inductive verdict := Invalid (code : string) | Valid (normalized : string) (stroops : Z).

Definition nonzero_digit (c : ascii) : bool := is_digit c && negb (Ascii.eqb c "0"%char).

(** [ANull] and [AUndefined] are absent bounds; a bound that does not parse throws. *)
Definition outside (raw : list ascii) (bound : amount_arg) (bad : Z) : result amount_error bool :=
  match bound with
  | ANull | AUndefined => Ok false
  | _ => c ← compareAmounts (AString (text raw)) bound; Ok (c =? bad)
  end.

Definition validateStellarAmount (input min max : amount_arg) : result amount_error verdict :=
  match raw_text input with
  | None => Ok (Invalid "INVALID_FORMAT")
  | Some [] => Ok (Invalid "REQUIRED")
  | Some raw =>
    if negb (plain_decimal raw) then Ok (Invalid "INVALID_FORMAT") else
    if (DECIMALS <? significantDecimals raw)%nat then Ok (Invalid "TOO_PRECISE") else
    match toStroops (AString (text raw)) with
    | Throw _ => Ok (Invalid "INVALID_FORMAT")
    | Ok stroops =>
      if stroops <=? 0 then
        Ok (Invalid (if negb (starts_with ["-"%char] raw) && existsb nonzero_digit raw then "BELOW_MIN_STROOP" else "INVALID_AMOUNT"))
      else
        match outside raw min (-1) with
        | Throw e => Throw e
        | Ok true => Ok (Invalid "AMOUNT_TOO_LOW")
        | Ok false =>
          match outside raw max 1 with
          | Throw e => Throw e
          | Ok true => Ok (Invalid "AMOUNT_TOO_HIGH")
          | Ok false => Ok (Valid (fromStroops stroops) stroops)
          end
        end
    end
  end.

(** ** Accepted amounts *)

Abbreviation digits l := (Forall (fun c => is_digit c = true) l).

Lemma split_decimal_spec l i fo : split_decimal l = Some (i, fo) ->
  digits i /\ match fo with None => l = i | Some f => l = i ++ "."%char :: f /\ digits f end.
Proof.
  unfold split_decimal. destruct (span_digits l) as [i' r] eqn:E. apply span_digits_spec in E as [-> Hi].
  destruct r as [|c r]; [intros [= <- <-]; by rewrite app_nil_r|].
  destruct (decide (c = "."%char)) as [->|Hc].
  2: { intros H. exfalso. destruct c as [[] [] [] [] [] [] [] []]; done. }
  destruct (span_digits r) as [f r'] eqn:Ef. apply span_digits_spec in Ef as [-> Hf].
  destruct r'; intros [= <- <-]. by rewrite app_nil_r.
Qed.

Lemma strip_zeros_spec l : exists k, l = strip_zeros l ++ replicate k "0"%char.
Proof.
  cut (exists k, rev (rev l) = strip_zeros l ++ replicate k "0"%char); [by rewrite rev_involutive|]. unfold strip_zeros. induction (rev l) as [|c r [k IH]]; [by exists 0%nat|].
  cbn [drop_while]. destruct (Ascii.eqb_spec "0"%char c) as [<-|Hc]; [|exists 0%nat; cbn; by rewrite app_nil_r].
  exists (S k). rewrite replicate_S_end, app_assoc, <-IH. done.
Qed.

Lemma after_dot_digits i l : digits i -> after_dot (i ++ l) = after_dot l.
Proof.
  induction 1 as [|c i Hc _ IH]; [done|]. cbn [app after_dot]. destruct (Ascii.eqb_spec c "."%char) as [->|]; [done|exact IH].
Qed.

(** The fraction digits of a decimal text. *)
Definition fraction (fo : option (list ascii)) : list ascii := default [] fo.

Lemma significant_fraction (neg : bool) i fo l : digits i -> unsigned l = i ++ match fo with None => [] | Some f => "."%char :: f end ->
  starts_with ["-"%char] l = neg -> significantDecimals l = length (strip_zeros (fraction fo)).
Proof.
  intros Hi Hl Hn. unfold significantDecimals, unsigned in *.
  assert (after_dot l = after_dot (if starts_with ["-"%char] l then tail l else l)) as ->.
  { destruct l as [|c l]; [done|]. cbn [starts_with]. by destruct (Ascii.eqb_spec "-"%char c) as [<-|]; cbn [andb]. }
  rewrite Hl, after_dot_digits by done. by destruct fo.
Qed.

(** The stroops of a text with at most seven significant decimals are its exact
    value. *)
Lemma exact_fraction i F : digits i -> digits F -> (length (strip_zeros F) <= DECIMALS)%nat ->
  (digits_val i * STROOPS_PER_UNIT + digits_val (take DECIMALS (F ++ replicate DECIMALS "0"%char))
   + (if (DECIMALS <? length F)%nat && (5 <=? digit_val (nth DECIMALS F "0"%char)) then 1 else 0)) * 10 ^ Z.of_nat (length F)
  = digits_val (i ++ F) * STROOPS_PER_UNIT.
Proof.
  intros Hi HF Hl. destruct (strip_zeros_spec F) as [k Hk]. set (G := strip_zeros F) in *. clearbody G. subst F.
  assert (Hr : (if (DECIMALS <? length (G ++ replicate k "0"%char))%nat && (5 <=? digit_val (nth DECIMALS (G ++ replicate k "0"%char) "0"%char)) then 1 else 0) = 0).
  { assert (nth DECIMALS (G ++ replicate k "0"%char) "0"%char = "0"%char) as ->; [|by rewrite andb_false_r].
    rewrite app_nth2 by lia. clear HF. generalize (DECIMALS - length G)%nat as m. induction k as [|k IH]; intros [|m]; try done. apply IH. }
  rewrite Hr, Z.add_0_r, <-app_assoc, <-replicate_add.
  assert (Ht : digits_val (take DECIMALS (G ++ replicate (k + DECIMALS) "0"%char)) = digits_val G * 10 ^ (7 - Z.of_nat (length G))).
  { rewrite <-take_zeros_val by done. f_equal. unfold DECIMALS in *. rewrite !take_app_ge, !take_replicate by lia. do 2 f_equal. lia. }
  rewrite Ht, !digits_val_app, digits_val_zeros, length_app, length_replicate, Nat2Z.inj_add. unfold DECIMALS in Hl.
  change STROOPS_PER_UNIT with (10 ^ 7). rewrite !Z.pow_add_r by lia.
  assert (10 ^ 7 = 10 ^ (7 - Z.of_nat (length G)) * 10 ^ Z.of_nat (length G)) as -> by (rewrite <-Z.pow_add_r by lia; f_equal; lia). ring.
Qed.

Definition point (fo : option (list ascii)) : list ascii := match fo with None => [] | Some f => "."%char :: f end.

Lemma plain_spec raw : plain_decimal raw = true -> raw <> [] -> exists i fo, split_decimal (unsigned raw) = Some (i, fo) /\
  digits i /\ digits (fraction fo) /\ unsigned raw = i ++ point fo /\ unsigned raw <> [] /\ unsigned raw <> chars ".".
Proof.
  unfold plain_decimal. destruct (split_decimal (unsigned raw)) as [[i fo]|] eqn:E; [|done]. intros H Hne. exists i, fo.
  apply negb_true_iff, orb_false_iff in H as [[H1 H2]%orb_false_iff H3]. apply bool_decide_eq_false in H1, H2, H3.
  destruct (split_decimal_spec _ _ _ E) as [Hi Hf]. split; [done|]. split; [done|]. split; [destruct fo; [apply Hf|constructor]|].
  split; [destruct fo; cbn; [apply Hf|by rewrite app_nil_r]|]. unfold unsigned in *.
  destruct raw as [|c raw]; [done|]. cbn [starts_with] in *. destruct (Ascii.eqb_spec "-"%char c) as [<-|]; cbn [andb] in *; [|done].
  cbn [tail]. split; intros ->; [by apply H2|by apply H3].
Qed.

Lemma plain_not_space raw i fo : digits i -> digits (fraction fo) -> unsigned raw = i ++ point fo -> Forall (fun c => is_space c = false) raw.
Proof.
  intros Hi Hf Hu. assert (Hs : Forall (fun c => is_space c = false) (unsigned raw)).
  { rewrite Hu. apply Forall_app. split; [by apply digits_not_space|]. destruct fo; [|constructor]. constructor; [done|by apply digits_not_space]. }
  unfold unsigned in Hs. destruct raw as [|c raw]; [done|]. cbn [starts_with] in Hs.
  destruct (Ascii.eqb_spec "-"%char c) as [<-|]; cbn [andb tail] in Hs; [by constructor|done].
Qed.

Lemma plain_stroops raw : plain_decimal raw = true -> raw <> [] -> (significantDecimals raw <= DECIMALS)%nat ->
  exists i fo n, split_decimal (unsigned raw) = Some (i, fo) /\ digits i /\ digits (fraction fo) /\ unsigned raw = i ++ point fo /\
    toStroops (AString (text raw)) = Ok (if starts_with ["-"%char] raw then - n else n) /\
    n * 10 ^ Z.of_nat (length (fraction fo)) = digits_val (i ++ fraction fo) * STROOPS_PER_UNIT.
Proof.
  intros Hp Hne Hs. destruct (plain_spec raw Hp Hne) as (i & fo & E & Hi & Hf & Hu & Hn1 & Hn2). exists i, fo. eexists.
  split; [done|]. split; [done|]. split; [done|]. split; [done|]. split.
  - rewrite toStroops_text_string by (done || exact (plain_not_space raw i fo Hi Hf Hu)). unfold toStroops_text. fold (unsigned raw). rewrite E.
    rewrite !bool_decide_false by done. cbn [orb]. rewrite !default_digits_val. fold (fraction fo). done.
  - rewrite (significant_fraction _ i fo raw Hi Hu eq_refl) in Hs. rewrite <-(exact_fraction i (fraction fo)) by done.
    destruct (_ && _); f_equal; lia.
Qed.

Lemma digits_zero l : digits l -> digits_val l = 0 -> existsb nonzero_digit l = false.
Proof.
  induction l as [|c l IH] using rev_ind; [done|]. intros [Hl [Hc _]%Forall_cons]%Forall_app.
  rewrite digits_val_snoc. pose proof (digits_val_range l Hl) as [H0 _]. pose proof (digit_val_range c Hc) as Hd. intros H.
  rewrite existsb_app, IH by (try done; lia). cbn. unfold nonzero_digit. rewrite Hc. cbn.
  destruct (Ascii.eqb_spec c "0"%char) as [|Hx]; [done|]. exfalso. apply Hx. unfold digit_val in *.
  rewrite <-(chr_code c). replace (code c) with 48 by lia. reflexivity.
Qed.

(** An amount the form accepts is positive, within the bounds, is submitted as a
    text of the same number of stroops, and that number is exactly what was typed:
    nothing is rounded. *)
Theorem accepted_amount_exact s min max n z : validateStellarAmount (AString s) min max = Ok (Valid n z) ->
  0 < z /\ toStroops (AString s) = Ok z /\ toStroops (AString n) = Ok z /\
  (forall m, toStroops min = Ok m -> m <= z) /\ (forall m, toStroops max = Ok m -> z <= m) /\
  exists i fo, digits i /\ digits (fraction fo) /\ trim (chars s) = i ++ point fo /\
    (decimal_val i (fraction fo) * inject_Z STROOPS_PER_UNIT == inject_Z z)%Q.
Proof.
  unfold validateStellarAmount. cbn [raw_text]. destruct (trim (chars s)) as [|c r] eqn:Er; [done|]. set (raw := c :: r) in *.
  destruct (plain_decimal raw) eqn:Ep; [|done]. destruct (_ <? _)%nat eqn:El; [done|]. apply Nat.ltb_ge in El. cbn [negb].
  destruct (plain_stroops raw Ep) as (i & fo & k & _ & Hi & Hf & Hu & Hz & Hv); [done..|]. rewrite Hz.
  assert (Hk : 0 <= k).
  { pose proof (digits_val_range (i ++ fraction fo) ltac:(by apply Forall_app)) as [H0 _].
    pose proof (Z.pow_pos_nonneg 10 (Z.of_nat (length (fraction fo)))). unfold STROOPS_PER_UNIT in Hv. nia. }
  destruct (_ <=? 0) eqn:E0; [done|]. apply Z.leb_gt in E0.
  destruct (starts_with ["-"%char] raw) eqn:Eneg; [lia|].
  destruct (outside raw min (-1)) as [[]|] eqn:Emin; [done| |done]. destruct (outside raw max 1) as [[]|] eqn:Emax; [done| |done].
  intros [= <- <-]. split; [done|].
  assert (Hs : Forall (fun c => is_space c = false) raw) by exact (plain_not_space raw i fo Hi Hf Hu).
  split. { rewrite toStroops_text_string in Hz by done. unfold toStroops. rewrite Er. fold raw. rewrite Hz. destruct s; [by apply (f_equal length) in Er|done]. }
  split; [apply toStroops_fromStroops|].
  assert (Hcmp : forall b bad m, toStroops b = Ok m -> outside raw b bad = Ok false -> (if k <? m then -1 else if m <? k then 1 else 0) <> bad).
  { intros b bad m Hb. unfold outside, compareAmounts. rewrite Hz, Hb. cbn. destruct b; try done; intros [= H%Z.eqb_neq]; done. }
  split. { intros m Hm. specialize (Hcmp _ _ _ Hm Emin). destruct (Z.ltb_spec k m); [done|lia]. }
  split. { intros m Hm. specialize (Hcmp _ _ _ Hm Emax). destruct (Z.ltb_spec k m); [lia|]. destruct (Z.ltb_spec m k); [done|lia]. }
  exists i, fo. split; [done|]. split; [done|]. split. { unfold unsigned in Hu. by rewrite Eneg in Hu. }
  unfold decimal_val, Qeq, Qmult, inject_Z. cbn [Qnum Qden]. rewrite Pos.mul_1_r, Z2Pos.id by (apply Z.pow_pos_nonneg; lia). lia.
Qed.

(** Every positive decimal of at most seven significant places is accepted when no
    bound is set, and the sub-stroop answer is never given. *)
Theorem positive_amount_accepted s i fo : trim (chars s) = i ++ point fo -> digits i -> digits (fraction fo) ->
  (length (strip_zeros (fraction fo)) <= DECIMALS)%nat -> 0 < digits_val (i ++ fraction fo) ->
  exists n z, validateStellarAmount (AString s) AUndefined AUndefined = Ok (Valid n z).
Proof.
  intros Er Hi Hf Hl Hpos. unfold validateStellarAmount. cbn [raw_text]. rewrite Er.
  assert (Hneg : starts_with ["-"%char] (i ++ point fo) = false).
  { destruct Hi as [|c i Hc Hi]; [by destruct fo|by apply digit_not_minus]. }
  assert (Hne : i ++ point fo <> []). { intros [-> Hp]%app_eq_nil. by destruct fo. }
  assert (Hsp : split_decimal (i ++ point fo) = Some (i, fo)).
  { destruct fo; [by apply split_decimal_text|]. unfold split_decimal. cbn. by rewrite span_digits_app. }
  assert (Hp : plain_decimal (i ++ point fo) = true).
  { unfold plain_decimal, unsigned. rewrite Hneg.
    rewrite Hsp.
    rewrite !bool_decide_false; [done|..]; intros H; rewrite H in Hneg; try done.
    destruct i as [|c i]; [|injection H as -> H; by apply Forall_cons in Hi as [? _]]. destruct fo as [f|]; [|done]. by injection H as ->. }
  assert (Hu : unsigned (i ++ point fo) = i ++ point fo) by (unfold unsigned; by rewrite Hneg).
  assert (Hs : (significantDecimals (i ++ point fo) <= DECIMALS)%nat) by (by rewrite (significant_fraction false i fo)).
  destruct (i ++ point fo) as [|c r] eqn:E; [done|]. rewrite Hp. cbn [negb]. rewrite (proj2 (Nat.ltb_ge _ _)) by done.
  destruct (plain_stroops _ Hp Hne Hs) as (i' & fo' & k & Hsp' & _ & _ & _ & Hz & Hv). rewrite Hz, Hneg.
  rewrite Hu in Hsp'. simplify_eq. rewrite (proj2 (Z.leb_gt _ _)); [by eexists _, _|].
  pose proof (Z.pow_pos_nonneg 10 (Z.of_nat (length (fraction fo)))). unfold STROOPS_PER_UNIT in Hv. nia.
Qed.

(** A positive amount below one stroop is answered as too precise: the answer the
    comment describes for it is never given. *)
Theorem sub_stroop_answer_never_given input min max : validateStellarAmount input min max <> Ok (Invalid "BELOW_MIN_STROOP").
Proof.
  unfold validateStellarAmount. destruct (raw_text input) as [[|c r]|]; [done| |done]. set (raw := c :: r) in *.
  destruct (plain_decimal raw) eqn:Ep; [|done]. destruct (_ <? _)%nat eqn:El; [done|]. apply Nat.ltb_ge in El. cbn [negb].
  destruct (plain_stroops raw Ep) as (i & fo & k & _ & Hi & Hf & Hu & Hz & Hv); [done..|]. rewrite Hz.
  destruct (_ <=? 0) eqn:E0.
  2: { destruct (outside raw min (-1)) as [[]|]; [done| |done]. by destruct (outside raw max 1) as [[]|]. }
  apply Z.leb_le in E0. destruct (starts_with ["-"%char] raw) eqn:Eneg; [done|]. cbn [negb andb].
  pose proof (digits_val_range (i ++ fraction fo) ltac:(by apply Forall_app)) as [H0 _].
  pose proof (Z.pow_pos_nonneg 10 (Z.of_nat (length (fraction fo)))) as Hp. unfold STROOPS_PER_UNIT in Hv.
  assert (Hd : existsb nonzero_digit (i ++ fraction fo) = false) by (apply digits_zero; [by apply Forall_app|nia]).
  assert (existsb nonzero_digit raw = false) as ->; [|done]. unfold unsigned in Hu. rewrite Eneg in Hu. rewrite Hu.
  rewrite existsb_app in Hd |- *. by destruct fo.
Qed.

Lemma accepted_amount_exact_witness : validateStellarAmount (AString " 250.5000000000 ") (AString "1") ANull = Ok (Valid "250.5000000" 2505000000) /\
  toStroops (AString " 250.5000000000 ") = Ok 2505000000.
Proof.
  split; [reflexivity|].
  apply (accepted_amount_exact " 250.5000000000 " (AString "1") ANull "250.5000000" 2505000000). reflexivity.
Defined.
End FrontAmount.
