(* ===== verification/Sse.v ===== *)
(** Sse: the event streams of backend/src/services/sseService.js.  A replica keeps
    the open connections of each school; an event is published in Redis and every
    replica that subscribed to the school writes it to its own connections.  Payloads
    are the values that are serialised; a message survives [JSON.stringify] and
    [JSON.parse].  The order of writes between schools is not modelled. *)

From Stdlib Require Import ZArith Lia.
From stdpp Require Import base strings gmap fin_maps list.
From S2P Require Import Prelude DistributedLock.
Import DistributedLock.
Local Open Scope string_scope.
Local Open Scope list_scope.

Module Sse.

(** ** State *)

Record payload := Payload { p_event : string; p_data : string; p_correlationId : option string }.
Inductive msg := Event (p : payload) | Degraded (reason : string) | Recovered | Ping | Retry.

(** Connections are numbers; [beating] holds those with a heartbeat timer, [subs]
    the channels the subscriber is on, [log] what was written, oldest first. *)
Record replica := Replica {
  clients : gmap string (list nat); beating : list nat; subs : gset string; listening : bool; healthy : bool; log : list (nat * msg) }.

(** What the outside does during one call: which sockets throw on a write, and
    whether the subscriber's commands succeed. *)
Record env := Env { broken : nat -> bool; sub_ok : bool }.

Definition set_clients (m : gmap string (list nat)) (r : replica) : replica :=
  Replica m (beating r) (subs r) (listening r) (healthy r) (log r).
Definition set_beating (l : list nat) (r : replica) : replica := Replica (clients r) l (subs r) (listening r) (healthy r) (log r).
Definition set_subs (s : gset string) (r : replica) : replica := Replica (clients r) (beating r) s (listening r) (healthy r) (log r).
Definition set_healthy (b : bool) (r : replica) : replica := Replica (clients r) (beating r) (subs r) (listening r) b (log r).
Definition write (c : nat) (m : msg) (r : replica) : replica :=
  Replica (clients r) (beating r) (subs r) (listening r) (healthy r) (log r ++ [(c, m)]).

(** The connections of a school, in the order they were added. *)
Definition conns (schoolId : string) (r : replica) : list nat := default [] (clients r !! schoolId).
Definition all_conns (r : replica) : list nat := concat (map snd (map_to_list (clients r))).

Section Service.
Context (redisEnabled : bool) (MAX_CONNECTIONS_PER_SCHOOL : nat).

(** ** Degraded and recovered signals *)

Definition _broadcastSystemEvent (e : env) (m : msg) (r : replica) : replica :=
  foldl (fun r c => if broken e c then r else write c m r) r (all_conns r).

Definition _onPublisherDown (e : env) (reason : string) (r : replica) : replica :=
  if healthy r then _broadcastSystemEvent e (Degraded reason) (set_healthy false r) else r.
Definition _onPublisherUp (e : env) (r : replica) : replica :=
  if healthy r then r else _broadcastSystemEvent e Recovered (set_healthy true r).

Definition subscribeSchool (e : env) (schoolId : string) (r : replica) : replica :=
  if redisEnabled && sub_ok e then set_subs ({[schoolId]} ∪ subs r) r else r.
Definition unsubscribeSchool (e : env) (schoolId : string) (r : replica) : replica :=
  if redisEnabled && sub_ok e then set_subs (subs r ∖ {[schoolId]}) r else r.

(** ** The registry *)

Definition add (c : nat) (l : list nat) : list nat := if bool_decide (c ∈ l) then l else l ++ [c].
Definition delete_ (c : nat) (l : list nat) : list nat := List.filter (fun x => negb (bool_decide (x = c))) l.

Definition addClient (e : env) (schoolId : string) (c : nat) (r : replica) : replica * bool :=
  if (MAX_CONNECTIONS_PER_SCHOOL <=? length (conns schoolId r))%nat && bool_decide (is_Some (clients r !! schoolId)) then (r, false) else
  let r1 := match clients r !! schoolId with Some _ => r | None => subscribeSchool e schoolId r end in
  let r2 := set_clients (<[schoolId := add c (conns schoolId r)]> (clients r1)) r1 in
  let r3 := if redisEnabled && negb (healthy r2) && negb (broken e c) then write c (Degraded "degraded at connect time") r2 else r2 in
  (set_beating (add c (beating r3)) r3, true).

Definition removeClient (e : env) (schoolId : string) (c : nat) (r : replica) : replica :=
  let r := set_beating (delete_ c (beating r)) r in
  match clients r !! schoolId with
  | None => r
  | Some l =>
    match delete_ c l with
    | [] => unsubscribeSchool e schoolId (set_clients (delete schoolId (clients r)) r)
    | l' => set_clients (<[schoolId := l']> (clients r)) r
    end
  end.

(** The timer of a connection. *)
Definition heartbeat (e : env) (schoolId : string) (c : nat) (r : replica) : replica :=
  if bool_decide (c ∈ beating r) then if broken e c then removeClient e schoolId c r else write c Ping r else r.

(** ** Events *)

Definition fanout (e : env) (schoolId : string) (p : payload) (r : replica) : replica :=
  foldl (fun r c => if broken e c then removeClient e schoolId c r else write c (Event p) r) r (conns schoolId r).

(** A message of the channel of a school. *)
Definition onSubscriberMessage (e : env) (schoolId : string) (p : payload) (r : replica) : replica :=
  if listening r && bool_decide (schoolId ∈ subs r) then fanout e schoolId p r else r.

Definition enrich (p : payload) (correlationId : option string) : payload :=
  match correlationId with Some id => Payload (p_event p) (p_data p) (Some id) | None => p end.

(** What [emit] does in the replica itself, and the message it leaves in the
    channel.  A publication may fail before or after Redis has it. *)
Definition emit (e : env) (f : fault) (schoolId : string) (p : payload) (correlationId : option string) (r : replica)
  : replica * option payload :=
  let p := enrich p correlationId in
  if redisEnabled then
    match f with
    | NoFault => (r, Some p)
    | LostRequest => (fanout e schoolId p (_onPublisherDown e "publish failed" r), None)
    | LostReply => (fanout e schoolId p (_onPublisherDown e "publish failed" r), Some p)
    end
  else (fanout e schoolId p r, None).

Definition getStats (r : replica) : nat * nat := (size (clients r), length (all_conns r)).

(** ** Shutting down *)

Definition close_one (e : env) (r : replica) (x : string * nat) : replica :=
  if broken e x.2 then r else removeClient e x.1 x.2 (set_beating (delete_ x.2 (beating r)) (write x.2 Retry r)).
Definition pairs (r : replica) : list (string * nat) := concat (map (fun kv => map (pair kv.1) kv.2) (map_to_list (clients r))).
Definition closeAll (e : env) (r : replica) : replica := foldl (close_one e) r (pairs r).

Definition close (e : env) (r : replica) : replica :=
  Replica (clients r) (beating r) (if redisEnabled && sub_ok e then subs r ∖ dom (clients r) else subs r)
    (if redisEnabled then false else listening r) (healthy r) (log r).

(** ** All replicas *)

(** [emit] by replica [i]: every replica receives the message of the channel. *)
Definition emit_all (e : env) (f : fault) (i : nat) (schoolId : string) (p : payload) (correlationId : option string) (rs : list replica)
  : list replica :=
  match rs !! i with
  | None => rs
  | Some r =>
    let '(r', m) := emit e f schoolId p correlationId r in
    let rs := <[i := r']> rs in
    match m with Some p => map (onSubscriberMessage e schoolId p) rs | None => rs end
  end.

(** ** Writes *)

Definition sound (e : env) (c : nat) : bool := negb (broken e c).

Lemma unsubscribe_log e s r : log (unsubscribeSchool e s r) = log r.
Proof. unfold unsubscribeSchool. by destruct (_ && _). Qed.
Lemma remove_log e s c r : log (removeClient e s c r) = log r.
Proof.
  unfold removeClient. cbn [clients set_beating]. destruct (clients r !! s) as [l|]; [|done]. destruct (delete_ c l); [|done].
  by rewrite unsubscribe_log.
Qed.
Lemma remove_healthy e s c r : healthy (removeClient e s c r) = healthy r.
Proof.
  unfold removeClient, unsubscribeSchool. cbn [clients set_beating]. destruct (clients r !! s) as [l|]; [|done].
  destruct (delete_ c l); [|done]. by destruct (_ && _).
Qed.

Lemma fold_writes_log e s p l r :
  log (foldl (fun r c => if broken e c then removeClient e s c r else write c (Event p) r) r l)
  = log r ++ map (fun c => (c, Event p)) (List.filter (sound e) l).
Proof.
  revert r. induction l as [|c l IH]; intros r; cbn [foldl List.filter]; [by rewrite app_nil_r|]. rewrite IH. unfold sound at 2.
  destruct (broken e c); cbn [negb]; [by rewrite remove_log|]. cbn [write log]. by rewrite <-app_assoc.
Qed.

(** A fan-out writes the event once to every sound connection of the school, in
    order, and to nobody else. *)
Lemma fanout_log e s p r : log (fanout e s p r) = log r ++ map (fun c => (c, Event p)) (List.filter (sound e) (conns s r)).
Proof. apply fold_writes_log. Qed.
Lemma fanout_healthy e s p r : healthy (fanout e s p r) = healthy r.
Proof.
  unfold fanout. generalize (conns s r) as l. intros l. revert r. induction l as [|c l IH]; intros r; cbn [foldl]; [done|].
  rewrite IH. destruct (broken e c); [apply remove_healthy|done].
Qed.

Lemma broadcast_spec e m r : _broadcastSystemEvent e m r =
  Replica (clients r) (beating r) (subs r) (listening r) (healthy r) (log r ++ map (fun c => (c, m)) (List.filter (sound e) (all_conns r))).
Proof.
  unfold _broadcastSystemEvent. generalize (all_conns r) as l. intros l. revert r. induction l as [|c l IH]; intros r; cbn [foldl List.filter].
  { rewrite app_nil_r. by destruct r. }
  unfold sound at 1. destruct (broken e c); cbn [negb]; rewrite IH; cbn; [done|]. by rewrite <-app_assoc.
Qed.

(** ** The registry *)

(** No empty and no overfull set, and the subscriptions are those of the schools
    with connections. *)
Record wf (r : replica) : Prop := {
  wf_sets s l : clients r !! s = Some l -> l <> [] /\ NoDup l /\ (length l <= MAX_CONNECTIONS_PER_SCHOOL)%nat;
  wf_subs : redisEnabled = true -> subs r = dom (clients r) }.

Lemma wf_same r r' : clients r' = clients r -> subs r' = subs r -> wf r -> wf r'.
Proof. intros Hc Hs [H1 H2]. split; [by rewrite Hc|by rewrite Hc, Hs]. Qed.

Lemma delete_NoDup c l : NoDup l -> NoDup (delete_ c l).
Proof. intros H. unfold delete_. rewrite <-(map_id (List.filter _ l)). apply NoDup_map_filterb. by rewrite map_id. Qed.
Lemma delete_elem c x l : x ∈ delete_ c l <-> x <> c /\ (x ∈ l).
Proof. unfold delete_. rewrite elem_of_filterb, negb_true_iff, bool_decide_eq_false. done. Qed.
Lemma delete_length c l : (length (delete_ c l) <= length l)%nat.
Proof. apply List.filter_length_le. Qed.
Lemma add_spec c l : NoDup l -> NoDup (add c l) /\ add c l <> [] /\ (length (add c l) <= S (length l))%nat.
Proof.
  intros Hl. unfold add. case_bool_decide as H; [repeat split; [done| |lia]; by intros ->; apply not_elem_of_nil in H|].
  repeat split; [|by destruct l|rewrite length_app; cbn; lia]. apply NoDup_app. split; [done|]. split; [|apply NoDup_singleton].
  by intros x Hx ->%list_elem_of_singleton.
Qed.
Lemma add_elem c x l : x ∈ add c l <-> x = c \/ (x ∈ l).
Proof. unfold add. case_bool_decide; [naive_solver|]. rewrite elem_of_app, list_elem_of_singleton. naive_solver. Qed.

Lemma wf_remove e s c r : sub_ok e = true -> wf r -> wf (removeClient e s c r).
Proof.
  intros Hok [H1 H2]. unfold removeClient. cbn [clients set_beating]. destruct (clients r !! s) as [l|] eqn:E; [|by split].
  destruct (H1 s l E) as (_ & Hn & Hl). pose proof (delete_NoDup c l Hn) as Hd. pose proof (delete_length c l) as Hdl.
  destruct (delete_ c l) as [|x l'] eqn:Ed.
  - unfold unsubscribeSchool. rewrite Hok, andb_true_r. split.
    + intros s' l0 H. apply (H1 s'). destruct redisEnabled; cbn in H; by apply lookup_delete_Some in H as [_ H].
    + intros Hr. rewrite Hr. cbn. by rewrite dom_delete_L, H2.
  - split; cbn.
    + intros s' l0 [[_ <-]|[_ H]]%lookup_insert_Some; [|by apply (H1 s')]. split; [done|]. split; [done|]. cbn in *. lia.
    + intros Hr. rewrite dom_insert_lookup_L by (by rewrite E). by apply H2.
Qed.

Lemma subscribe_clients e s r : clients (subscribeSchool e s r) = clients r.
Proof. unfold subscribeSchool. by destruct (redisEnabled && sub_ok e). Qed.
Lemma wf_add e s c r : (1 <= MAX_CONNECTIONS_PER_SCHOOL)%nat -> sub_ok e = true -> wf r -> wf (addClient e s c r).1.
Proof.
  intros Hmax Hok [H1 H2]. unfold addClient. destruct (_ && _) eqn:Ecap; [by split|]. cbn [fst].
  set (r1 := match clients r !! s with Some _ => _ | None => _ end).
  assert (Hc1 : clients r1 = clients r) by (subst r1; destruct (clients r !! s); [done|apply subscribe_clients]).
  set (r2 := set_clients _ r1).
  eapply (wf_same r2); [by destruct (redisEnabled && negb (healthy r2) && negb (broken e c))..|]. subst r2. split; cbn [clients subs set_clients].
  - intros s' l [[<- <-]|[_ H]]%lookup_insert_Some; [|rewrite Hc1 in H; by apply (H1 s')]. unfold conns in *.
    destruct (clients r !! s) as [l0|] eqn:E; cbn [default from_option id] in *.
    + destruct (H1 s l0 E) as (_ & Hn & Hl). destruct (add_spec c l0 Hn) as (? & ? & ?). rewrite bool_decide_true, andb_true_r in Ecap by done.
      apply Nat.leb_gt in Ecap. split; [done|]. split; [done|]. lia.
    + destruct (add_spec c []) as (? & ? & ?); [constructor|]. split; [done|]. split; [done|]. cbn in *. lia.
  - intros Hr. rewrite dom_insert_L, Hc1, <-H2 by done. subst r1. destruct (clients r !! s) as [l0|] eqn:E.
    + assert (s ∈ subs r); [|set_solver]. rewrite H2 by done. by apply elem_of_dom.
    + unfold subscribeSchool. rewrite Hr, Hok. cbn. done.
Qed.

(** Everything that happens to one replica. *)
Inductive event :=
  | Add (schoolId : string) (c : nat) | Remove (schoolId : string) (c : nat) | Beat (schoolId : string) (c : nat)
  | Message (schoolId : string) (p : payload) | Emit (f : fault) (schoolId : string) (p : payload) (correlationId : option string)
  | PublisherDown (reason : string) | PublisherUp | CloseAll.
Definition exec (e : env) (ev : event) (r : replica) : replica :=
  match ev with
  | Add s c => (addClient e s c r).1
  | Remove s c => removeClient e s c r
  | Beat s c => heartbeat e s c r
  | Message s p => onSubscriberMessage e s p r
  | Emit f s p id => (emit e f s p id r).1
  | PublisherDown reason => if redisEnabled then _onPublisherDown e reason r else r
  | PublisherUp => if redisEnabled then _onPublisherUp e r else r
  | CloseAll => closeAll e r
  end.

Lemma wf_down e reason r : wf r -> wf (_onPublisherDown e reason r).
Proof. intros H. unfold _onPublisherDown. destruct (healthy r); [|done]. rewrite broadcast_spec. by apply (wf_same r). Qed.
Lemma wf_up e r : wf r -> wf (_onPublisherUp e r).
Proof. intros H. unfold _onPublisherUp. destruct (healthy r); [done|]. rewrite broadcast_spec. by apply (wf_same r). Qed.
Lemma wf_fanout e s p r : sub_ok e = true -> wf r -> wf (fanout e s p r).
Proof.
  intros Hok. unfold fanout. generalize (conns s r) as l. intros l. revert r. induction l as [|c l IH]; intros r H; cbn [foldl]; [done|].
  apply IH. destruct (broken e c); [by apply wf_remove|by apply (wf_same r)].
Qed.
Lemma wf_closeAll e r : sub_ok e = true -> wf r -> wf (closeAll e r).
Proof.
  intros Hok. unfold closeAll. generalize (pairs r) as l. intros l. revert r. induction l as [|[s c] l IH]; intros r H; cbn [foldl]; [done|].
  apply IH. unfold close_one. cbn. destruct (broken e c); [done|]. apply wf_remove; [done|]. by apply (wf_same r).
Qed.

(** The registry stays well formed while the subscriber answers. *)
Lemma exec_registry e ev r : (1 <= MAX_CONNECTIONS_PER_SCHOOL)%nat -> sub_ok e = true -> wf r -> wf (exec e ev r).
Proof.
  intros Hm Hok H. destruct ev as [s c|s c|s c|s p|f s p id|reason| |]; cbn [exec].
  - by apply wf_add.
  - by apply wf_remove.
  - unfold heartbeat. case_bool_decide; [|done]. destruct (broken e c); [by apply wf_remove|by apply (wf_same r)].
  - unfold onSubscriberMessage. destruct (listening r && _); [by apply wf_fanout|done].
  - unfold emit. destruct redisEnabled; [|by apply wf_fanout]. destruct f; [done|..]; apply wf_fanout; try done; by apply wf_down.
  - destruct redisEnabled; [by apply wf_down|done].
  - destruct redisEnabled; [by apply wf_up|done].
  - by apply wf_closeAll.
Qed.

Definition run (evs : list (env * event)) (r : replica) : replica := foldl (fun r x => exec x.1 x.2 r) r evs.

(** Whatever happens to a replica, it never holds more than the cap for a school and
    is subscribed exactly to the schools it holds connections of, as long as the
    subscriber answers. *)
Theorem registry_invariant evs h : (1 <= MAX_CONNECTIONS_PER_SCHOOL)%nat -> Forall (fun x => sub_ok x.1 = true) evs ->
  let r := run evs (Replica ∅ [] ∅ true h []) in
  (forall s, (length (conns s r) <= MAX_CONNECTIONS_PER_SCHOOL)%nat /\ NoDup (conns s r)) /\
  (redisEnabled = true -> forall s, s ∈ subs r <-> conns s r <> []).
Proof.
  intros Hm Hev. cbv zeta. set (r := run evs _).
  assert (H : wf r).
  { subst r. unfold run. assert (H0 : wf (Replica ∅ [] ∅ true h [])) by (split; [done|]; intros _; cbn; by rewrite dom_empty_L).
    revert H0. generalize (Replica ∅ [] ∅ true h []). induction Hev as [|[e ev] evs He _ IH]; intros r0 H0; [done|]. cbn [foldl fst snd].
    apply IH. by apply exec_registry. }
  clearbody r. destruct H as [H1 H2]. split.
  - intros s. unfold conns. destruct (clients r !! s) as [l|] eqn:E; cbn; [|split; [lia|constructor]]. by destruct (H1 s l E) as (_ & ? & ?).
  - intros Hr s. rewrite H2, elem_of_dom by done. unfold conns. split.
    + intros [l E]. rewrite E. cbn. by destruct (H1 s l E).
    + destruct (clients r !! s) as [l|]; [by exists l|done].
Qed.

(** ** Delivery across replicas *)

Lemma message_log e s p r : wf r -> redisEnabled = true -> listening r = true ->
  log (onSubscriberMessage e s p r) = log r ++ map (fun c => (c, Event p)) (List.filter (sound e) (conns s r)).
Proof.
  intros [_ H2] Hr Hl. unfold onSubscriberMessage. rewrite Hl. cbn [andb]. case_bool_decide as Hs; [apply fanout_log|].
  rewrite H2 in Hs by done. apply not_elem_of_dom in Hs. unfold conns. rewrite Hs. cbn. by rewrite app_nil_r.
Qed.

(** An event that is published reaches every sound connection of its school on
    every replica exactly once, and no other connection. *)
Theorem event_delivered_once e i s p id rs r0 : redisEnabled = true -> rs !! i = Some r0 ->
  Forall (fun r => wf r /\ listening r = true) rs ->
  forall j r, rs !! j = Some r -> exists r', emit_all e NoFault i s p id rs !! j = Some r' /\
    log r' = log r ++ map (fun c => (c, Event (enrich p id))) (List.filter (sound e) (conns s r)) /\ NoDup (conns s r).
Proof.
  intros Hr Hi Hwf j r Hj. unfold emit_all. rewrite Hi. unfold emit. rewrite Hr. rewrite list_insert_id by done.
  destruct (Forall_lookup_1 _ _ _ _ Hwf Hj) as [Hw Hl]. exists (onSubscriberMessage e s (enrich p id) r). split.
  - change (map ?f rs) with (f <$> rs). by rewrite list_lookup_fmap, Hj.
  - split; [by apply message_log|]. destruct Hw as [H1 _]. unfold conns. destruct (clients r !! s) as [l|] eqn:E; [by apply (H1 s)|constructor].
Qed.

(** ** What a connection has been told *)

Section Told.
Context (c : nat).

(** The last word of the service on its state, as one connection has it. *)
Definition told_step (b : bool) (x : nat * msg) : bool :=
  if bool_decide (x.1 = c) then match x.2 with Degraded _ => true | Recovered => false | _ => b end else b.
Definition told (l : list (nat * msg)) : bool := foldl told_step false l.
Definition quiet (x : nat * msg) : Prop := x.1 = c -> match x.2 with Degraded _ | Recovered => False | _ => True end.

Definition connected (r : replica) : Prop := exists s, c ∈ conns s r.
Definition informed (r : replica) : Prop :=
  (redisEnabled = false -> healthy r = true) /\ (connected r -> told (log r) = negb (healthy r)).

Record quiet_step (r r' : replica) : Prop := {
  qs_healthy : healthy r' = healthy r;
  qs_conns s : c ∈ conns s r' -> c ∈ conns s r;
  qs_log : exists l, log r' = log r ++ l /\ Forall quiet l }.

#[local] Instance quiet_step_refl : Reflexive quiet_step.
Proof. intros r. split; [done..|]. exists []. by rewrite app_nil_r. Qed.
#[local] Instance quiet_step_trans : Transitive quiet_step.
Proof.
  intros r1 r2 r3 [H1 H2 (l & H3 & H4)] [H1' H2' (l' & H3' & H4')]. split; [congruence|auto|].
  exists (l ++ l'). rewrite H3', H3, app_assoc. split; [done|]. by apply Forall_app.
Qed.

Lemma quiet_told l b : Forall quiet l -> foldl told_step b l = b.
Proof.
  induction 1 as [|[x m] l Hx _ IH] in b |- *; [done|]. cbn [foldl]. rewrite <-(IH b) at 2. f_equal. unfold told_step, quiet in *. cbn in *.
  case_bool_decide as He; [|done]. specialize (Hx He). by destruct m.
Qed.
Lemma quiet_informed r r' : quiet_step r r' -> informed r -> informed r'.
Proof.
  intros [H1 H2 (l & H3 & H4)] [Hd Hi]. split; [by rewrite H1|]. intros [s Hs]. rewrite H1, H3. unfold told. rewrite foldl_app, quiet_told by done.
  apply Hi. exists s. auto.
Qed.

Lemma quiet_write x m r : quiet (x, m) -> quiet_step r (write x m r).
Proof. intros H. split; [done..|]. exists [(x, m)]. split; [done|]. by constructor. Qed.
Lemma quiet_remove e s x r : quiet_step r (removeClient e s x r).
Proof.
  split; [apply remove_healthy| |exists []; by rewrite app_nil_r, remove_log].
  intros s'. unfold removeClient, conns. cbn [clients set_beating]. destruct (clients r !! s) as [l|] eqn:E; [|done].
  destruct (delete_ x l) as [|y l'] eqn:Ed.
  - assert (Hu : forall q, clients (unsubscribeSchool e s q) = clients q) by (intros q; unfold unsubscribeSchool; by destruct (redisEnabled && sub_ok e)).
    rewrite Hu. cbn. destruct (decide (s = s')) as [<-|]; [rewrite lookup_delete_eq; cbn; by intros ?%not_elem_of_nil|by rewrite lookup_delete_ne].
  - cbn. destruct (decide (s = s')) as [<-|]; [|by rewrite lookup_insert_ne]. rewrite lookup_insert_eq, E. cbn. rewrite <-Ed, delete_elem. tauto.
Qed.
Lemma quiet_fold {A} (f : replica -> A -> replica) l r : (forall r x, quiet_step r (f r x)) -> quiet_step r (foldl f r l).
Proof. intros Hf. revert r. induction l as [|x l IH]; intros r; cbn [foldl]; [reflexivity|]. etrans; [apply Hf|apply IH]. Qed.
Lemma quiet_fanout e s p r : quiet_step r (fanout e s p r).
Proof. apply quiet_fold. intros r' x. destruct (broken e x); [apply quiet_remove|by apply quiet_write]. Qed.
Lemma quiet_beating l r : quiet_step r (set_beating l r).
Proof. split; [done..|]. exists []. by rewrite app_nil_r. Qed.
Lemma quiet_closeAll e r : quiet_step r (closeAll e r).
Proof.
  apply quiet_fold. intros r' [s x]. unfold close_one. cbn. destruct (broken e x); [reflexivity|].
  etrans; [by apply (quiet_write x Retry)|]. etrans; [apply quiet_beating|]. apply quiet_remove.
Qed.

Lemma connected_all r : connected r -> c ∈ all_conns r.
Proof.
  intros [s Hs]. unfold conns in Hs. destruct (clients r !! s) as [l|] eqn:E; [|by apply not_elem_of_nil in Hs]. cbn in Hs.
  unfold all_conns. apply list_elem_of_In, in_concat. exists l. split; [|by apply list_elem_of_In]. apply in_map_iff. exists (s, l).
  split; [done|]. by apply list_elem_of_In, elem_of_map_to_list.
Qed.

(** A broadcast tells every sound connection. *)
Lemma told_broadcast e m b l : (m = Recovered /\ b = false \/ exists reason, m = Degraded reason /\ b = true) -> broken e c = false -> c ∈ l ->
  forall x, foldl told_step x (map (fun d => (d, m)) (List.filter (sound e) l)) = b.
Proof.
  intros Hm Hb. assert (Hs : forall x, told_step x (c, m) = b).
  { intros x. unfold told_step. cbn. rewrite bool_decide_true by done. by destruct Hm as [[-> ->]|(? & -> & ->)]. }
  assert (Hk : forall d, told_step b (d, m) = b).
  { intros d. unfold told_step. cbn. case_bool_decide; [|done]. by destruct Hm as [[-> ->]|(? & -> & ->)]. }
  assert (Hst : forall l, foldl told_step b (map (fun d => (d, m)) (List.filter (sound e) l)) = b).
  { intros l0. induction l0 as [|d l0 IH]; [done|]. cbn [List.filter]. destruct (sound e d); [|done]. cbn [map foldl]. by rewrite Hk. }
  induction l as [|d l IH]; [by intros ?%not_elem_of_nil|]. intros Hin x. cbn [List.filter].
  destruct (decide (d = c)) as [->|Hd]; [unfold sound at 1; rewrite Hb; cbn [negb map foldl]; by rewrite Hs|].
  assert (c ∈ l) by (by apply elem_of_cons in Hin as [?|?]). destruct (sound e d); [cbn [map foldl]|]; by apply IH.
Qed.

Lemma informed_down e reason r : redisEnabled = true -> broken e c = false -> informed r -> informed (_onPublisherDown e reason r).
Proof.
  intros Hr Hb [Hd Hi]. unfold _onPublisherDown. destruct (healthy r) eqn:Eh; [|by split; [rewrite Eh|rewrite Eh]].
  rewrite broadcast_spec. split; cbn; [by rewrite Hr|]. intros Hc. unfold told. rewrite foldl_app.
  apply told_broadcast with (b := true); [right; eauto|done|]. by apply connected_all.
Qed.
Lemma informed_up e r : redisEnabled = true -> broken e c = false -> informed r -> informed (_onPublisherUp e r).
Proof.
  intros Hr Hb [Hd Hi]. unfold _onPublisherUp. destruct (healthy r) eqn:Eh; [by split; [rewrite Eh|rewrite Eh]|].
  rewrite broadcast_spec. split; cbn; [done|]. intros Hc. unfold told. rewrite foldl_app.
  apply told_broadcast with (b := false); [by left|done|]. by apply connected_all.
Qed.

(** What [addClient] leaves: the log with at most the signal for the newcomer. *)
Lemma add_shape e s x r : (addClient e s x r).2 = true ->
  healthy (addClient e s x r).1 = healthy r /\
  log (addClient e s x r).1 = log r ++ (if redisEnabled && negb (healthy r) && sound e x then [(x, Degraded "degraded at connect time")] else []) /\
  forall s', conns s' (addClient e s x r).1 = if decide (s' = s) then add x (conns s r) else conns s' r.
Proof.
  unfold addClient. destruct (_ && _); [done|]. intros _. cbn [fst].
  set (r1 := match clients r !! s with Some _ => _ | None => _ end).
  assert (H1 : clients r1 = clients r /\ healthy r1 = healthy r /\ log r1 = log r).
  { subst r1. destruct (clients r !! s); [done|]. unfold subscribeSchool. by destruct (redisEnabled && sub_ok e). }
  destruct H1 as (Hc & Hh & Hl). cbn [healthy set_clients]. rewrite Hh. unfold sound.
  assert (Hconns : forall s', conns s' (set_clients (<[s := add x (conns s r)]> (clients r1)) r1) = if decide (s' = s) then add x (conns s r) else conns s' r).
  { intros s'. unfold conns at 1. cbn. rewrite Hc. destruct (decide (s' = s)) as [->|]; [by rewrite lookup_insert_eq|by rewrite lookup_insert_ne]. }
  destruct (redisEnabled && negb (healthy r) && negb (broken e x)); cbn [set_beating healthy log write set_clients];
    rewrite ?Hh, ?Hl, ?app_nil_r; (split; [done|]; split; [done|exact Hconns]).
Qed.

Definition fresh (r : replica) : Prop := Forall (fun x => x.1 <> c) (log r).

Lemma informed_add e s x r : broken e c = false -> (x = c -> fresh r) -> informed r -> informed (addClient e s x r).1.
Proof.
  intros Hb Hf Hinf. destruct (addClient e s x r).2 eqn:Ea.
  2: { unfold addClient in *. by destruct (_ && _). }
  destruct (add_shape e s x r Ea) as (Hh & Hl & Hc). destruct (decide (x = c)) as [->|Hx].
  - destruct Hinf as [Hd _]. split; [by rewrite Hh|]. intros _. rewrite Hl, Hh. unfold told, sound. rewrite foldl_app, Hb, andb_true_r.
    rewrite (quiet_told (log r)). 2: { eapply Forall_impl; [by apply Hf|]. by intros y Hy Hy'. }
    destruct (healthy r), redisEnabled; cbn; try done; [|by specialize (Hd eq_refl)]. unfold told_step. cbn. by rewrite bool_decide_true.
  - eapply quiet_informed; [|exact Hinf]. split; [done| |].
    + intros s'. rewrite Hc. destruct (decide (s' = s)) as [->|]; [|done]. rewrite add_elem. by intros [->|?].
    + eexists. split; [exact Hl|]. destruct (_ && _); [|constructor]. constructor; [|constructor]. intros Hy. by destruct Hx.
Qed.

(** One event, with the connection sound and added only once. *)
Definition allowed (r : replica) (x : env * event) : Prop :=
  broken x.1 c = false /\ forall s, x.2 = Add s c -> fresh r.
Inductive history : replica -> list (env * event) -> Prop :=
  | h_nil r : history r []
  | h_cons r x evs : allowed r x -> history (exec x.1 x.2 r) evs -> history r (x :: evs).

Lemma informed_exec r x : allowed r x -> informed r -> informed (exec x.1 x.2 r).
Proof.
  destruct x as [e ev]. intros [Hb Hf] H. cbn in *. destruct ev as [s d|s d|s d|s p|f s p id|reason| |]; cbn [exec].
  - apply informed_add; [done| |done]. intros ->. by eapply Hf.
  - eapply quiet_informed; [apply quiet_remove|done].
  - unfold heartbeat. case_bool_decide; [|done]. destruct (broken e d); (eapply quiet_informed; [|exact H]); [apply quiet_remove|by apply quiet_write].
  - unfold onSubscriberMessage. destruct (listening r && _); [|done]. eapply quiet_informed; [apply quiet_fanout|done].
  - unfold emit. destruct redisEnabled eqn:Er; [|eapply quiet_informed; [apply quiet_fanout|done]].
    destruct f; [done|..]; (eapply quiet_informed; [apply quiet_fanout|]); by apply informed_down.
  - destruct redisEnabled eqn:Er; [by apply informed_down|done].
  - destruct redisEnabled eqn:Er; [by apply informed_up|done].
  - eapply quiet_informed; [apply quiet_closeAll|done].
Qed.

(** A sound connection always knows: the last signal it was sent is the state of the
    publisher, also when it connected while the publisher was down. *)
Theorem connections_know_degradation evs :
  history (Replica ∅ [] ∅ true true []) evs ->
  let r := run evs (Replica ∅ [] ∅ true true []) in connected r -> told (log r) = negb (healthy r).
Proof.
  intros Hh. cbv zeta. assert (H0 : informed (Replica ∅ [] ∅ true true [])).
  { split; [done|]. intros [s Hs]. unfold conns in Hs. cbn in Hs. rewrite lookup_empty in Hs. by apply not_elem_of_nil in Hs. }
  revert H0 Hh. unfold run. generalize (Replica ∅ [] ∅ true true []). induction evs as [|x evs IH]; intros r H0 Hh; [apply H0|].
  inversion Hh as [|? ? ? Ha Hr]; subst. cbn [foldl]. apply IH; [by apply informed_exec|done].
Qed.
End Told.

(** ** Shutting down *)

Lemma close_shrinks e l r s c : c ∈ conns s (foldl (close_one e) r l) -> c ∈ conns s r.
Proof.
  revert r. induction l as [|[s' d] l IH]; intros r; cbn [foldl]; [done|]. intros H%IH. revert H. unfold close_one. cbn.
  destruct (broken e d); [done|]. intros H. by apply (qs_conns _ _ _ (quiet_remove c e s' d _)) in H.
Qed.

Lemma removed_gone e s c r : c ∉ conns s (removeClient e s c r).
Proof.
  unfold removeClient, conns. cbn [clients set_beating]. destruct (clients r !! s) as [l|] eqn:E; [|cbn; rewrite E; apply not_elem_of_nil].
  destruct (delete_ c l) as [|y l'] eqn:Ed.
  - assert (Hu : forall q, clients (unsubscribeSchool e s q) = clients q) by (intros q; unfold unsubscribeSchool; by destruct (redisEnabled && sub_ok e)).
    rewrite Hu. cbn. rewrite lookup_delete_eq. apply not_elem_of_nil.
  - cbn. rewrite lookup_insert_eq. cbn. rewrite <-Ed, delete_elem. tauto.
Qed.

Lemma closed_gone e l r s c : (forall d, broken e d = false) -> (s, c) ∈ l -> c ∉ conns s (foldl (close_one e) r l).
Proof.
  intros Hb. revert r. induction l as [|[s' d] l IH]; intros r Hin; [by apply not_elem_of_nil in Hin|]. cbn [foldl].
  apply elem_of_cons in Hin as [[= <- <-]|Hin]; [|by apply IH]. intros H%close_shrinks. revert H. unfold close_one. cbn. rewrite Hb.
  apply removed_gone.
Qed.

Lemma pairs_conns s c r : c ∈ conns s r -> (s, c) ∈ pairs r.
Proof.
  unfold conns. destruct (clients r !! s) as [l|] eqn:E; [|by intros ?%not_elem_of_nil]. cbn. intros Hc. unfold pairs.
  apply list_elem_of_In, in_concat. exists (map (pair s) l). split; [|by apply in_map, list_elem_of_In].
  apply in_map_iff. exists (s, l). split; [done|]. by apply list_elem_of_In, elem_of_map_to_list.
Qed.

(** After a graceful shutdown with sound sockets no connection and no subscription
    is left. *)
Theorem closeAll_empties e r : wf r -> sub_ok e = true -> (forall d, broken e d = false) ->
  clients (closeAll e r) = ∅ /\ (redisEnabled = true -> subs (closeAll e r) = ∅).
Proof.
  intros Hw Hok Hb. pose proof (wf_closeAll e r Hok Hw) as [H1 H2].
  assert (Hc : clients (closeAll e r) = ∅).
  { apply map_empty. intros s. destruct (clients (closeAll e r) !! s) as [[|c l]|] eqn:E; [by destruct (H1 s [] E)| |done]. exfalso.
    assert (Hin : c ∈ conns s (closeAll e r)) by (unfold conns; rewrite E; cbn; by left).
    apply (closed_gone e (pairs r) r s c Hb); [|exact Hin]. apply pairs_conns. by apply (close_shrinks e (pairs r)). }
  split; [done|]. intros Hr. by rewrite H2, Hc, dom_empty_L.
Qed.

End Service.

(** ** Where the code departs from what it says *)

Definition calm : env := Env (fun _ => false) true.
Definition empty_replica : replica := Replica ∅ [] ∅ true true [].
Definition an_event : payload := Payload "payment.confirmed" "{}" None.

(** When the reply of a publication is lost, the replica delivers twice. *)
Theorem lost_reply_delivers_twice :
  let r := (addClient true 100 calm "SCH" 1 empty_replica).1 in
  map log (emit_all true calm LostReply 0 "SCH" an_event None [r]) = [[(1%nat, Degraded "publish failed"); (1%nat, Event an_event); (1%nat, Event an_event)]].
Proof. by vm_compute. Qed.

(** A publication that fails once leaves the replica degraded through any number of
    successful ones; only a new connection of the client ends it. *)
Theorem degraded_after_success n r :
  healthy (foldl (fun r _ => (emit true calm NoFault "SCH" an_event None r).1) r (replicate n tt)) = healthy r.
Proof. induction n as [|n IH] in r |- *; [done|]. cbn. apply IH. Qed.

(** A failed subscription is not retried: the connections of the school hear
    nothing, and are told nothing. *)
Theorem failed_subscription_is_silent :
  let r := (addClient true 100 (Env (fun _ => false) false) "SCH" 1 empty_replica).1 in
  conns "SCH" r = [1%nat] /\ healthy r = true /\ map log (emit_all true calm NoFault 0 "SCH" an_event None [(addClient true 100 calm "SCH" 2 r).1]) = [[]].
Proof. by vm_compute. Qed.

(** A connection whose last write fails survives the shutdown, with its timer. *)
Theorem closeAll_keeps_broken :
  let r := (addClient true 100 calm "SCH" 1 empty_replica).1 in
  let r' := closeAll true (Env (fun _ => true) true) r in conns "SCH" r' = [1%nat] /\ beating r' = [1%nat].
Proof. by vm_compute. Qed.

(** ** Witnesses *)

Lemma registry_invariant_witness :
  ("SCH" ∈ subs (run true 1 [(calm, Add "SCH" 1); (calm, Add "SCH" 2)] empty_replica)) /\
  conns "SCH" (run true 1 [(calm, Add "SCH" 1); (calm, Add "SCH" 2)] empty_replica) = [1%nat].
Proof.
  split; [|by vm_compute].
  apply (registry_invariant true 1 [(calm, Add "SCH" 1); (calm, Add "SCH" 2)] true); [lia|by repeat constructor|done|by vm_compute].
Defined.

Lemma event_delivered_once_witness :
  exists r', emit_all true calm NoFault 0 "SCH" an_event None [empty_replica; (addClient true 100 calm "SCH" 1 empty_replica).1] !! 1%nat = Some r' /\
    log r' = [(1%nat, Event an_event)].
Proof.
  destruct (event_delivered_once true 100 calm 0 "SCH" an_event None [empty_replica; (addClient true 100 calm "SCH" 1 empty_replica).1] empty_replica
    eq_refl eq_refl) with (j := 1%nat) (r := (addClient true 100 calm "SCH" 1 empty_replica).1) as (r' & Hr' & Hl & _); [|done|by exists r'].
  assert (H0 : wf true 100 empty_replica) by (split; [done|]; intros _; cbn; by rewrite dom_empty_L).
  apply Forall_cons. split; [by split|]. apply Forall_cons. split; [|constructor]. split; [|done]. apply wf_add; [lia|done|done].
Defined.

Lemma connections_know_degradation_witness :
  told 1 (log (run true 100 [(calm, PublisherDown "down"); (calm, Add "SCH" 1)] empty_replica)) = true.
Proof.
  apply (connections_know_degradation true 100 1 [(calm, PublisherDown "down"); (calm, Add "SCH" 1)]).
  - constructor; [by split|]. constructor; [|constructor]. split; [done|]. intros s _. by vm_compute.
  - exists "SCH". vm_compute. by left.
Defined.

End Sse.
