(* ===== verification/Streaming.v ===== *)
(** Streaming: backend/src/services/horizonStreamingService.js.  One connection to
    Horizon per active school, with reconnection, the cursor that is stored after
    every message, and the reconciliation with the list of active schools.  What
    [processTransaction] does with a transaction is Poller's; here only whether it
    returns or throws.  A paging token is the position of its transaction in the
    history of the account, 0 the empty cursor.  Metrics and logging are left out. *)

From Stdlib Require Import ZArith Lia.
From stdpp Require Import base strings gmap fin_maps list.
From S2P Require Import Prelude.
Local Open Scope string_scope.
Local Open Scope Z_scope.
Local Open Scope list_scope.

Module Streaming.

(** ** One stream *)

(** [s_open] is whether [_closeStream] is set, [s_timer] the delay of the pending
    reconnection. *)
Record stream := Stream {
  s_cursor : nat; s_open : bool; s_timer : option Z; s_delay : Z; s_active : bool; s_lastMessageAt : option Z }.

Section Backoff.
Context (RECONNECT_INITIAL_MS RECONNECT_MAX_MS : Z).

Definition new_stream (cursor : nat) : stream := Stream cursor false None RECONNECT_INITIAL_MS false None.

Definition _clearReconnectTimer (s : stream) : stream :=
  Stream (s_cursor s) (s_open s) None (s_delay s) (s_active s) (s_lastMessageAt s).
Definition _scheduleReconnect (s : stream) : stream :=
  if s_active s
  then Stream (s_cursor s) (s_open s) (Some (s_delay s)) (Z.min (s_delay s * 2) RECONNECT_MAX_MS) true (s_lastMessageAt s)
  else s.

(** [opens]: whether [stream()] returns instead of throwing. *)
Definition _connect (opens : bool) (s : stream) : stream :=
  if s_active s then
    if opens then Stream (s_cursor s) true (s_timer s) RECONNECT_INITIAL_MS true (s_lastMessageAt s) else _scheduleReconnect s
  else s.

Definition start (opens : bool) (s : stream) : stream :=
  if s_active s then s
  else _connect opens (Stream (s_cursor s) (s_open s) (s_timer s) (s_delay s) true (s_lastMessageAt s)).
Definition stop (s : stream) : stream := Stream (s_cursor s) false None (s_delay s) false (s_lastMessageAt s).

Definition close_ (s : stream) : stream := Stream (s_cursor s) false (s_timer s) (s_delay s) (s_active s) (s_lastMessageAt s).
Definition _onError (s : stream) : stream := if s_active s then _scheduleReconnect (close_ s) else s.

(** The timer of [_scheduleReconnect]. *)
Definition timer_fires (opens : bool) (s : stream) : stream :=
  match s_timer s with None => s | Some _ => _connect opens (_clearReconnectTimer s) end.

(** ** A message *)

(** What reading the school again gives; what processing the transaction gives. *)
Inductive refresh := FreshSchool | Deactivated | ReadFailed.
Inductive processing := Returns | Throws.

Definition message_begins (now : Z) (s : stream) : stream :=
  Stream (s_cursor s) (s_open s) (s_timer s) (s_delay s) (s_active s) (Some now).
Definition set_cursor (c : nat) (s : stream) : stream :=
  Stream c (s_open s) (s_timer s) (s_delay s) (s_active s) (s_lastMessageAt s).

(** The rest of [_onMessage], with the cursor it asks to store. *)
Definition message_ends (f : refresh) (p : processing) (tx : nat) (s : stream) : stream * option nat :=
  match f, p with
  | Deactivated, _ => (stop s, None)
  | _, Throws => (s, None)
  | _, Returns => if bool_decide (tx = s_cursor s) then (s, None) else (set_cursor tx s, Some tx)
  end.

Definition lagSeconds (now : Z) (s : stream) : option Z := (fun t => (now - t) / 1000) <$> s_lastMessageAt s.

(** ** The stream with the history, the stored cursor and the calls in flight *)

(** [w_next] is what an open connection sends next; [w_done] are the transactions
    that were processed without an error. *)
Record world := World { w_stream : stream; w_db : nat; w_next : nat; w_flight : list nat; w_done : list nat }.

Inductive event :=
  | Deliver (now : Z)                                     (* Horizon sends the next transaction *)
  | Finish (i : nat) (f : refresh) (p : processing) (stored : bool)   (* a call of [_onMessage] completes *)
  | StreamError | TimerFires (opens : bool) | Start (opens : bool) | Stop
  | Restart (opens : bool).                               (* the process is replaced *)

Definition reconnect (before : stream) (s : stream) (next : nat) : nat :=
  if s_open s && negb (s_open before) then S (s_cursor s) else next.
Definition set_stream (s : stream) (w : world) : world :=
  World s (w_db w) (reconnect (w_stream w) s (w_next w)) (w_flight w) (w_done w).

Definition exec (length_ : nat) (ev : event) (w : world) : world :=
  match ev with
  | Deliver now =>
    if s_open (w_stream w) && (w_next w <=? length_)%nat then
      if s_active (w_stream w)
      then World (message_begins now (w_stream w)) (w_db w) (S (w_next w)) (w_flight w ++ [w_next w]) (w_done w)
      else World (w_stream w) (w_db w) (S (w_next w)) (w_flight w) (w_done w)
    else w
  | Finish i f p stored =>
    match w_flight w !! i with
    | None => w
    | Some tx =>
      let '(s, c) := message_ends f p tx (w_stream w) in
      World s (match c with Some c => if stored then c else w_db w | None => w_db w end) (w_next w)
        (delete i (w_flight w))
        (match f, p with Deactivated, _ => w_done w | _, Throws => w_done w | _, Returns => w_done w ++ [tx] end)
    end
  | StreamError => set_stream (_onError (w_stream w)) w
  | TimerFires opens => set_stream (timer_fires opens (w_stream w)) w
  | Start opens => set_stream (start opens (w_stream w)) w
  | Stop => set_stream (stop (w_stream w)) w
  | Restart opens =>
    let s := start opens (new_stream (w_db w)) in World s (w_db w) (S (w_db w)) [] (w_done w)
  end.
Definition run (length_ : nat) (evs : list event) (w : world) : world := foldl (fun w ev => exec length_ ev w) w evs.

(** ** All streams *)

(** One pass over the active schools (with their stored cursors).  The second
    component are the streams that were stopped. *)
Definition reconcile (opens : string -> bool) (schools : list (string * nat)) (m : gmap string stream)
  : gmap string stream * gmap string stream :=
  let active := list_to_set (C := gset string) (schools.*1) in
  let kept := filter (fun kv => kv.1 ∈ active) m in
  (foldl (fun m x => match m !! x.1 with Some _ => m | None => <[x.1 := start (opens x.1) (new_stream x.2)]> m end) kept schools,
   stop <$> filter (fun kv => kv.1 ∉ active) m).

(** The service: its flag, its timers and its streams. *)
Record service := Service { v_running : bool; v_timers : nat; v_streams : gmap string stream }.

(** [startStreaming] up to and after the first reconciliation it waits for; the
    second half does not look at the flag again. *)
Definition startStreaming_begin (v : service) : option service :=
  if v_running v then None else Some (Service true (v_timers v) (v_streams v)).
Definition startStreaming_end (SAFETY_NET_INTERVAL_MS : Z) (opens : string -> bool) (schools : list (string * nat)) (v : service) : service :=
  Service (v_running v) (v_timers v + (if 0 <? SAFETY_NET_INTERVAL_MS then 3 else 2)) (reconcile opens schools (v_streams v)).1.
Definition stopStreaming (v : service) : service := if v_running v then Service false 0 ∅ else v.

(** ** Connection life cycle *)

(** A running stream is connected or has exactly one reconnection pending, with a
    delay within the bounds; a stopped one has neither. *)
Record live_inv (s : stream) : Prop := {
  li_delay : RECONNECT_INITIAL_MS <= s_delay s <= RECONNECT_MAX_MS;
  li_timer d : s_timer s = Some d -> RECONNECT_INITIAL_MS <= d <= RECONNECT_MAX_MS;
  li_conn : if s_active s then s_open s = negb (bool_decide (is_Some (s_timer s))) else s_open s = false /\ s_timer s = None }.

Hypothesis initial_pos : 0 < RECONNECT_INITIAL_MS.
Hypothesis initial_le_max : RECONNECT_INITIAL_MS <= RECONNECT_MAX_MS.

Ltac live := split; cbn in *; [lia|intros; simplify_eq; lia|done].

Lemma live_new c : live_inv (new_stream c).
Proof. live. Qed.
Lemma live_schedule s : live_inv s -> s_active s = true -> s_open s = false -> live_inv (_scheduleReconnect s).
Proof. intros [H1 H2 H3] Ha Ho. unfold _scheduleReconnect. rewrite Ha. live. Qed.
Lemma live_connect opens s : live_inv s -> s_active s = true -> s_open s = false -> s_timer s = None -> live_inv (_connect opens s).
Proof.
  intros H Ha Ho Ht. unfold _connect. rewrite Ha. destruct opens; [|by apply live_schedule]. destruct H as [H1 H2 H3]. rewrite Ht. live.
Qed.
Lemma connect_live opens s : s_active s = true -> s_open s = false -> s_timer s = None -> RECONNECT_INITIAL_MS <= s_delay s <= RECONNECT_MAX_MS ->
  live_inv (_connect opens s).
Proof. intros Ha Ho Ht Hd. unfold _connect, _scheduleReconnect. rewrite Ha. destruct opens; [rewrite Ht|]; live. Qed.
Lemma live_start opens s : live_inv s -> live_inv (start opens s).
Proof.
  intros H. unfold start. destruct (s_active s) eqn:Ha; [done|]. destruct H as [H1 H2 H3]. rewrite Ha in H3. destruct H3. by apply connect_live.
Qed.
Lemma live_stop s : live_inv s -> live_inv (stop s).
Proof. intros [H1 H2 H3]. live. Qed.
Lemma live_error s : live_inv s -> live_inv (_onError s).
Proof.
  intros H. unfold _onError. destruct (s_active s) eqn:Ha; [|done]. unfold _scheduleReconnect. cbn. rewrite Ha. destruct H as [H1 H2 H3]. live.
Qed.
Lemma live_timer opens s : live_inv s -> live_inv (timer_fires opens s).
Proof.
  intros H. unfold timer_fires. destruct (s_timer s) as [d|] eqn:Et; [|done]. destruct H as [H1 H2 H3].
  destruct (s_active s) eqn:Ha; [|by destruct H3; congruence]. apply connect_live; cbn; try done. rewrite H3, Et. done.
Qed.
Lemma live_message_ends f p tx s : live_inv s -> live_inv (message_ends f p tx s).1.
Proof.
  intros H. unfold message_ends. destruct f, p; cbn; try done; try (by apply live_stop); case_bool_decide; cbn; try done; by destruct H as [H1 H2 H3]; split.
Qed.

Lemma exec_live n ev w : live_inv (w_stream w) -> live_inv (w_stream (exec n ev w)).
Proof.
  intros H. destruct ev as [now|i f p st| |opens|opens| |opens]; cbn [exec set_stream w_stream].
  - destruct (_ && _); [|done]. destruct (s_active (w_stream w)); [|done]. cbn. destruct H as [H1 H2 H3]. by split.
  - destruct (w_flight w !! i) as [tx|]; [|done]. pose proof (live_message_ends f p tx _ H) as H'. by destruct (message_ends f p tx (w_stream w)).
  - by apply live_error.
  - by apply live_timer.
  - by apply live_start.
  - by apply live_stop.
  - apply live_start, live_new.
Qed.

(** C19: in every run a started stream is connected or waits at most [RECONNECT_MAX_MS]
    for its next attempt, and a stopped stream holds no connection and no timer. *)
Theorem stream_never_stranded n evs c : let s := w_stream (run n evs (World (new_stream c) c (S c) [] [])) in
  if s_active s
  then s_open s = true /\ s_timer s = None \/ s_open s = false /\ exists d, s_timer s = Some d /\ RECONNECT_INITIAL_MS <= d <= RECONNECT_MAX_MS
  else s_open s = false /\ s_timer s = None.
Proof.
  cbv zeta. assert (H : live_inv (w_stream (run n evs (World (new_stream c) c (S c) [] [])))).
  { unfold run. assert (H0 : live_inv (w_stream (World (new_stream c) c (S c) [] []))) by apply live_new. revert H0.
    generalize (World (new_stream c) c (S c) [] []). induction evs as [|ev evs IH]; intros w H0; cbn [foldl]; [done|]. apply IH. by apply exec_live. }
  destruct H as [H1 H2 H3]. destruct (s_active _); [|done]. destruct (s_timer _) as [d|] eqn:Et; [right|left].
  - split; [by rewrite H3|]. exists d. auto.
  - split; [by rewrite H3|done].
Qed.

(** ** The cursor *)

(** One message at a time, and no transaction that throws. *)
Definition orderly (w : world) (ev : event) : Prop :=
  match ev with Deliver _ => w_flight w = [] | Finish _ f p _ => p = Returns | _ => True end.
Inductive orderly_run (n : nat) : world -> list event -> Prop :=
  | or_nil w : orderly_run n w []
  | or_cons w ev evs : orderly w ev -> orderly_run n (exec n ev w) evs -> orderly_run n w (ev :: evs).

Definition finished (c0 : nat) (w : world) (t : nat) : Prop := (c0 < t)%nat -> t ∈ w_done w.
Record gap_inv (c0 : nat) (w : world) : Prop := {
  gi_cursor t : (t <= s_cursor (w_stream w))%nat -> finished c0 w t;
  gi_db t : (t <= w_db w)%nat -> finished c0 w t;
  gi_next t : s_open (w_stream w) = true -> (t < w_next w)%nat -> finished c0 w t \/ (t ∈ w_flight w);
  gi_flight u t : u ∈ w_flight w -> (t < u)%nat -> finished c0 w t;
  gi_one : (length (w_flight w) <= 1)%nat }.

Lemma gap_set_stream c0 s w : s_cursor s = s_cursor (w_stream w) -> gap_inv c0 w -> gap_inv c0 (set_stream s w).
Proof.
  intros Hc [H1 H2 H3 H4 H5]. split; cbn; [by rewrite Hc|done| |done|done].
  intros t Ho. unfold reconnect. rewrite Ho. destruct (s_open (w_stream w)) eqn:E; cbn.
  - by apply H3.
  - intros Ht. left. apply H1. lia.
Qed.

Lemma connect_cursor opens s : s_cursor (_connect opens s) = s_cursor s.
Proof. unfold _connect, _scheduleReconnect. destruct (s_active s), opens; done. Qed.
Lemma start_cursor opens s : s_cursor (start opens s) = s_cursor s.
Proof. unfold start. destruct (s_active s); [done|]. by rewrite connect_cursor. Qed.
Lemma timer_cursor opens s : s_cursor (timer_fires opens s) = s_cursor s.
Proof. unfold timer_fires. destruct (s_timer s); [|done]. by rewrite connect_cursor. Qed.
Lemma error_cursor s : s_cursor (_onError s) = s_cursor s.
Proof. unfold _onError, _scheduleReconnect. cbn. by destruct (s_active s). Qed.

Lemma gap_finish c0 n i f st w : gap_inv c0 w -> gap_inv c0 (exec n (Finish i f Returns st) w).
Proof.
  intros [H1 H2 H3 H4 H5]. cbn [exec]. destruct (w_flight w !! i) as [tx|] eqn:Ei; [|by split].
  assert (Hfl : w_flight w = [tx] /\ i = 0%nat).
  { destruct (w_flight w) as [|a [|b l]]; [done| |cbn in H5; lia]. by destruct i as [|[|]]; simplify_eq/=. }
  destruct Hfl as [Hfl ->]. rewrite Hfl. cbn [delete list_delete].
  assert (Hlt : forall t, (t < tx)%nat -> finished c0 w t) by (intros t; apply H4; rewrite Hfl; by left).
  destruct f; cbn [message_ends].
  2: { split; cbn; [done..|intros t [=]|by intros u t ?%not_elem_of_nil|lia]. }
  all: assert (Hd : forall t, finished c0 w t \/ t = tx -> (c0 < t)%nat -> t ∈ w_done w ++ [tx])
    by (intros t Ht Hc0; apply elem_of_app; destruct Ht as [Ht|Ht]; [left; by apply Ht|right; subst; by left]);
    assert (Hle : forall t, (t <= tx)%nat -> finished c0 w t \/ t = tx) by (intros t Ht; destruct (decide (t = tx)); [by right|left; apply Hlt; lia]).
  all: case_bool_decide as Hc; split; cbn; unfold finished; cbn [w_done];
    try (by intros u t ?%not_elem_of_nil); try lia.
  all: intros t; try (intros Ho); intros Ht; try (intros Hc0).
  all: try (left; intros Hc0); apply Hd; try done.
  all: try (by left; apply H1); try (by left; apply H2); try (apply Hle; lia).
  all: try (destruct st; [apply Hle; lia|left; by apply H2]).
  all: destruct (H3 t Ho Ht) as [?|Hin]; [by left|right]; rewrite Hfl in Hin; by apply list_elem_of_singleton in Hin.
Qed.

Lemma exec_gap c0 n ev w : orderly w ev -> live_inv (w_stream w) -> gap_inv c0 w -> gap_inv c0 (exec n ev w).
Proof.
  intros Ho Hlive H. destruct ev as [now|i f p st| |opens|opens| |opens]; cbn [orderly] in Ho.
  - cbn [exec]. destruct (s_open (w_stream w)) eqn:Eo; cbn [andb]; [|done]. destruct (_ <=? _)%nat; [|done].
    destruct H as [H1 H2 H3 H4 H5]. destruct (s_active (w_stream w)) eqn:Ea.
    + rewrite Ho in *. split; cbn; [done|done| |  |lia].
      * intros t _ Ht. destruct (decide (t = w_next w)) as [->|]; [right; by left|]. destruct (H3 t Eo) as [?|?]; [lia|by left|by apply not_elem_of_nil in H].
      * intros u t ->%list_elem_of_singleton Ht. destruct (H3 t Eo Ht) as [?|Hx]; [done|by apply not_elem_of_nil in Hx].
    + destruct Hlive as [_ _ Hl]. rewrite Ea in Hl. destruct Hl. congruence.
  - subst p. by apply gap_finish.
  - apply gap_set_stream; [apply error_cursor|done].
  - apply gap_set_stream; [apply timer_cursor|done].
  - apply gap_set_stream; [apply start_cursor|done].
  - by apply gap_set_stream.
  - destruct H as [H1 H2 H3 H4 H5]. cbn [exec]. split; cbn [w_stream w_db w_next w_flight w_done].
    + intros t. rewrite start_cursor. cbn. apply H2.
    + done.
    + intros t _ Ht. left. apply H2. lia.
    + by intros u t ?%not_elem_of_nil.
    + cbn. lia.
Qed.

(** When messages are handled one at a time and none throws, everything up to the
    stored cursor has been processed: whatever disconnects, reconnects and restarts,
    a stream that resumes there leaves no gap. *)
Theorem orderly_stream_gap_free n c0 evs : let w0 := World (new_stream c0) c0 (S c0) [] [] in
  orderly_run n w0 evs -> forall t, (c0 < t <= w_db (run n evs w0))%nat -> t ∈ w_done (run n evs w0).
Proof.
  cbv zeta. intros Ho. assert (H0 : gap_inv c0 (World (new_stream c0) c0 (S c0) [] [])).
  { split; cbn; unfold finished; try lia; try done. by intros u t ?%not_elem_of_nil. }
  assert (Hl : live_inv (w_stream (World (new_stream c0) c0 (S c0) [] []))) by apply live_new.
  revert H0 Hl Ho. unfold run. generalize (World (new_stream c0) c0 (S c0) [] []).
  induction evs as [|ev evs IH]; intros w H0 Hl Ho; cbn [foldl].
  - intros t [Hc Ht]. by apply (gi_db _ _ H0).
  - inversion Ho as [|? ? ? Hev Hrest]; subst. apply IH; [by apply exec_gap|by apply exec_live|done].
Qed.

(** ** Reconciliation *)

Definition open_new (opens : string -> bool) (m : gmap string stream) (x : string * nat) : gmap string stream :=
  match m !! x.1 with Some _ => m | None => <[x.1 := start (opens x.1) (new_stream x.2)]> m end.

Lemma open_new_spec opens schools m : let m' := foldl (open_new opens) m schools in
  dom m' = dom m ∪ list_to_set (C := gset string) (schools.*1) /\
  (forall k s, m !! k = Some s -> m' !! k = Some s) /\
  (forall k s, m !! k = None -> m' !! k = Some s -> exists c, ((k, c) ∈ schools) /\ s = start (opens k) (new_stream c)).
Proof.
  cbv zeta. revert m. induction schools as [|[k0 c0] schools IH]; intros m; cbn [foldl fmap list_fmap list_to_set].
  { split; [set_solver|]. split; [done|]. intros k s H1 H2. congruence. }
  destruct (IH (open_new opens m (k0, c0))) as (Hd & Hk & Hn). unfold open_new in *. cbn [fst snd] in *. destruct (m !! k0) as [s0|] eqn:E.
  - split; [|split].
    + rewrite Hd. assert (k0 ∈ dom m) by (by apply elem_of_dom). set_solver.
    + done.
    + intros k s H1 H2. destruct (Hn k s H1 H2) as (c & Hin & ->). exists c. split; [by right|done].
  - split; [|split].
    + rewrite Hd, dom_insert_L. set_solver.
    + intros k s H. apply Hk. rewrite lookup_insert_ne; [done|]. congruence.
    + intros k s H1 H2. destruct (decide (k = k0)) as [->|Hne].
      * rewrite (Hk k0 _ (lookup_insert_eq _ _ _)) in H2. simplify_eq. exists c0. split; [by left|done].
      * destruct (Hn k s) as (c & Hin & ->); [by rewrite lookup_insert_ne|done|]. exists c. split; [by right|done].
Qed.

(** After a reconciliation there is a stream for exactly the active schools: those
    that were there are untouched, the new ones start at the stored cursor, and the
    others have been stopped. *)
Theorem reconcile_exact opens schools m : let '(m', stopped) := reconcile opens schools m in
  dom m' = list_to_set (schools.*1) /\
  (forall k s, m' !! k = Some s -> m !! k = Some s \/
     m !! k = None /\ exists c, ((k, c) ∈ schools) /\ s = start (opens k) (new_stream c)) /\
  (forall k s, stopped !! k = Some s <-> exists s0, m !! k = Some s0 /\ (k ∉ schools.*1) /\ s = stop s0).
Proof.
  unfold reconcile. set (kept := filter _ m). destruct (open_new_spec opens schools kept) as (Hd & Hk & Hn). fold (open_new opens).
  split; [|split].
  - rewrite Hd. assert (dom kept ⊆ list_to_set (C := gset string) (schools.*1)); [|set_solver].
    intros k [s Hs]%elem_of_dom. by apply map_lookup_filter_Some in Hs as [_ Hs].
  - intros k s Hs. destruct (kept !! k) as [s0|] eqn:E.
    + pose proof (Hk k s0 E). left. apply map_lookup_filter_Some in E as [E _]. congruence.
    + destruct (Hn k s E Hs) as (c & Hin & ->). right. split; [|by exists c].
      apply map_lookup_filter_None in E as [E|E]; [done|]. destruct (m !! k) as [s0|] eqn:Em; [|done]. exfalso. apply (E s0 eq_refl). cbn.
      apply elem_of_list_to_set. by apply (list_elem_of_fmap_2 fst _ (k, c)).
  - intros k s. rewrite lookup_fmap, fmap_Some. setoid_rewrite map_lookup_filter_Some. cbn. setoid_rewrite elem_of_list_to_set. naive_solver.
Qed.

(** ** Where the code departs from what it says *)

(** Opening resets the delay, and [stream()] reports its errors later: while errors
    come that way every reconnection waits the initial delay. *)
Theorem backoff_never_grows n s : s_active s = true -> s_open s = true -> s_delay s = RECONNECT_INITIAL_MS ->
  s_timer (_onError (foldl (fun s _ => timer_fires true (_onError s)) s (replicate n tt))) = Some RECONNECT_INITIAL_MS.
Proof.
  revert s. induction n as [|n IH]; intros s Ha Ho Hd; cbn [replicate foldl].
  - unfold _onError, _scheduleReconnect. cbn. by rewrite Ha, Hd.
  - apply IH; unfold timer_fires, _onError, _scheduleReconnect, _connect; cbn; by rewrite Ha.
Qed.

(** A transaction that throws is passed over by the next one that does not: the
    cursor, which is also the one of the safety-net poll, stands behind it. *)
Theorem throwing_transaction_skipped :
  let w := run 2 [Start true; Deliver 0; Finish 0 FreshSchool Throws true; Deliver 1; Finish 0 FreshSchool Returns true] (World (new_stream 0) 0 1 [] []) in
  w_db w = 2%nat /\ w_done w = [2%nat].
Proof. done. Qed.

(** Calls overlap: the later message stores its cursor while the earlier one is
    being processed, and a restart then loses the earlier one. *)
Theorem overlapping_messages_lost :
  let w := run 2 [Start true; Deliver 0; Deliver 1; Finish 1 FreshSchool Returns true; Restart true] (World (new_stream 0) 0 1 [] []) in
  w_next w = 3%nat /\ w_flight w = [] /\ w_done w = [2%nat].
Proof. done. Qed.

(** A stream that stopped itself when it met an inactive school stays in the table;
    when the school is active again it is not restarted. *)
Theorem reactivated_school_stays_stopped opens s c : (reconcile opens [("SCH", c)] {["SCH" := stop s]}).1 = {["SCH" := stop s]}.
Proof.
  unfold reconcile. cbn. rewrite map_filter_singleton_True by (cbn; set_solver). by rewrite lookup_singleton_eq.
Qed.

(** A stop during the start leaves the timers and the streams of the start behind. *)
Theorem stop_during_start_leaks opens interval : 0 < interval ->
  exists v, startStreaming_begin (Service false 0 ∅) = Some v /\
    startStreaming_end interval opens [("SCH", 0%nat)] (stopStreaming v) = Service false 3 {["SCH" := start (opens "SCH") (new_stream 0)]}.
Proof.
  intros H. eexists. split; [done|]. unfold startStreaming_end, stopStreaming, reconcile. cbn. rewrite (proj2 (Z.ltb_lt _ _)) by done.
  by rewrite map_filter_empty, lookup_empty.
Qed.

End Backoff.

(** ** Witnesses *)

Lemma stream_never_stranded_witness :
  let s := w_stream (run 1000 64000 1 [Start true; StreamError; TimerFires false] (World (new_stream 1000 0) 0 1 [] [])) in
  s_active s = true /\ s_open s = false /\ s_timer s = Some 2000.
Proof.
  cbv zeta. split; [done|]. pose proof (stream_never_stranded 1000 64000 ltac:(lia) ltac:(lia) 1 [Start true; StreamError; TimerFires false] 0) as H.
  cbn in H. destruct H as [[? _]|[H _]]; [done|]. by split.
Defined.

Lemma orderly_stream_gap_free_witness :
  1%nat ∈ w_done (run 1000 64000 2 [Start true; Deliver 0; Finish 0 FreshSchool Returns true; Restart true] (World (new_stream 1000 0) 0 1 [] [])).
Proof.
  apply (orderly_stream_gap_free 1000 64000 ltac:(lia) ltac:(lia) 2 0 [Start true; Deliver 0; Finish 0 FreshSchool Returns true; Restart true]).
  - repeat constructor.
  - vm_compute. lia.
Defined.

End Streaming.
