(* ===== verification/Csv.v ===== *)
(** Csv: backend/src/utils/csv.js, with a reader of RFC 4180 files as the reference
    it is checked against.  [String(value)] has been taken; a value is its text. *)

From Stdlib Require Import Ascii.
From stdpp Require Import base strings list.
From S2P Require Import Prelude JsString.
Local Open Scope string_scope.
Local Open Scope list_scope.

Module Csv.

Definition QUOTE : ascii := "034"%char.
Definition COMMA : ascii := ","%char.
Definition LF : ascii := "010"%char.
Definition CR : ascii := "013"%char.
Definition TAB : ascii := "009"%char.

(** The first characters a spreadsheet takes for a formula. *)
Definition trigger_char (c : ascii) : bool := existsb (Ascii.eqb c) ["="; "+"; "-"; "@"; TAB; CR]%char.
Definition FORMULA_TRIGGER (l : list ascii) : bool := match l with c :: _ => trigger_char c | [] => false end.

Definition special (c : ascii) : bool := existsb (Ascii.eqb c) [COMMA; QUOTE; LF; CR].
Definition double_quotes (l : list ascii) : list ascii := concat (map (fun c => if Ascii.eqb c QUOTE then [QUOTE; QUOTE] else [c]) l).

Definition neutralise (l : list ascii) : list ascii := if FORMULA_TRIGGER l then "'"%char :: l else l.
Definition csvEscape_text (l : list ascii) : list ascii :=
  let str := neutralise l in
  if existsb special str then QUOTE :: double_quotes str ++ [QUOTE] else str.
Definition csvEscape (s : string) : string := text (csvEscape_text (chars s)).

Fixpoint join (sep : ascii) (ls : list (list ascii)) : list ascii :=
  match ls with [] => [] | [l] => l | l :: ls' => l ++ sep :: join sep ls' end.
Definition csvRow (values : list (list ascii)) : list ascii := join COMMA (map csvEscape_text values).

(** [csvTransform]: the lines of a stream of documents; [toRow] may throw.  The
    header is written before the first document. *)
Fixpoint csvTransform {D E} (toRow : D -> result E (list (list ascii))) (header : option (list (list ascii))) (wroteHeader : bool) (docs : list D)
  : list ascii * option E :=
  match docs with
  | [] => ([], None)
  | d :: ds =>
    match toRow d with
    | Throw e => ([], Some e)
    | Ok row =>
      let head := match header with Some h => if wroteHeader then [] else csvRow h ++ [LF] | None => [] end in
      let '(rest, err) := csvTransform toRow header true ds in
      (head ++ csvRow row ++ LF :: rest, err)
    end
  end.

(** ** The reader *)

(** Where the reader is: before a field, in a plain one, within quotes, behind a
    quote that ends the field or is the first of two. *)
Inductive mode := Start | Plain | Quoted | QuoteSeen.

Fixpoint read (m : mode) (cur : list ascii) (row : list (list ascii)) (l : list ascii) : list (list (list ascii)) :=
  match l with
  | [] => [rev (rev cur :: row)]
  | c :: l' =>
    match m with
    | Quoted => if Ascii.eqb c QUOTE then read QuoteSeen cur row l' else read Quoted (c :: cur) row l'
    | Start | Plain | QuoteSeen =>
      if Ascii.eqb c QUOTE
      then match m with Start => read Quoted [] row l' | QuoteSeen => read Quoted (QUOTE :: cur) row l' | _ => read Plain (c :: cur) row l' end
      else if Ascii.eqb c COMMA then read Start [] (rev cur :: row) l'
      else if Ascii.eqb c LF then rev (rev cur :: row) :: read Start [] [] l'
      else read Plain (c :: cur) row l'
    end
  end.
Definition read_csv (l : list ascii) : list (list (list ascii)) := read Start [] [] l.

(** ** Round trip *)

(** What follows a field. *)
Definition delimited (rest : list ascii) : Prop := match rest with [] => True | c :: _ => c = COMMA \/ c = LF end.
Definition field_ends (f : list ascii) (row : list (list ascii)) (rest : list ascii) : list (list (list ascii)) :=
  match rest with
  | [] => [rev (f :: row)]
  | c :: r => if Ascii.eqb c COMMA then read Start [] (f :: row) r else rev (f :: row) :: read Start [] [] r
  end.

Lemma read_delimited m cur row rest : m <> Quoted -> delimited rest -> read m cur row rest = field_ends (rev cur) row rest.
Proof. destruct rest as [|c r]; [done|]. intros Hm [->| ->]; by destruct m. Qed.

Lemma read_plain f : forall m cur row rest, m <> Quoted -> m <> QuoteSeen -> existsb special f = false -> delimited rest ->
  read m cur row (f ++ rest) = field_ends (rev cur ++ f) row rest.
Proof.
  induction f as [|c f IH]; intros m cur row rest Hm Hm' Hf Hd; cbn [app].
  - rewrite app_nil_r. by apply read_delimited.
  - cbn [existsb] in Hf. apply orb_false_iff in Hf as [Hc Hf]. unfold special in Hc. cbn [existsb] in Hc.
    apply orb_false_iff in Hc as [Hc1 [Hc2 [Hc3 _]%orb_false_iff]%orb_false_iff].
    assert (read m cur row (c :: f ++ rest) = read Plain (c :: cur) row (f ++ rest)) as ->.
    { cbn [read]. rewrite Hc1, Hc2, Hc3. by destruct m. }
    rewrite IH by done. cbn [rev]. by rewrite <-app_assoc.
Qed.

Lemma read_quoted f : forall cur row rest, delimited rest ->
  read Quoted cur row (double_quotes f ++ QUOTE :: rest) = field_ends (rev cur ++ f) row rest.
Proof.
  induction f as [|c f IH]; intros cur row rest Hd.
  - rewrite app_nil_r. cbn. by apply read_delimited.
  - unfold double_quotes. cbn [map concat]. fold (double_quotes f). destruct (Ascii.eqb_spec c QUOTE) as [->|Hc].
    + cbn [app read]. rewrite IH by done. cbn [rev]. by rewrite <-app_assoc.
    + cbn [app read]. destruct (Ascii.eqb_spec c QUOTE); [done|]. rewrite IH by done. cbn [rev]. by rewrite <-app_assoc.
Qed.

Lemma read_field v row rest : delimited rest -> read Start [] row (csvEscape_text v ++ rest) = field_ends (neutralise v) row rest.
Proof.
  intros Hd. unfold csvEscape_text. destruct (existsb special (neutralise v)) eqn:E.
  - cbn [app]. rewrite <-app_assoc. cbn [read app]. by rewrite read_quoted.
  - by rewrite read_plain.
Qed.

(** A cell of a line: text that is written as it is, or escaped. *)
Inductive cell := Raw (l : list ascii) | Esc (l : list ascii).
Definition cell_text (c : cell) : list ascii := match c with Raw l => l | Esc l => csvEscape_text l end.
Definition cell_value (c : cell) : list ascii := match c with Raw l => l | Esc l => neutralise l end.
Definition cell_ok (c : cell) : Prop := match c with Raw l => existsb special l = false | Esc _ => True end.
Definition csv_line (cs : list cell) : list ascii := join COMMA (map cell_text cs).

Lemma read_cell c row rest : cell_ok c -> delimited rest -> read Start [] row (cell_text c ++ rest) = field_ends (cell_value c) row rest.
Proof. destruct c as [l|l]; intros Hc Hd; [by apply read_plain|by apply read_field]. Qed.

Lemma read_line cs row rest : cs <> [] -> Forall cell_ok cs -> match rest with c :: _ => c = LF | [] => True end ->
  read Start [] row (csv_line cs ++ rest) =
  match rest with [] => [rev row ++ map cell_value cs] | _ :: r => (rev row ++ map cell_value cs) :: read Start [] [] r end.
Proof.
  intros Hne Hok Hlf. assert (Hd : delimited rest) by (destruct rest; [done|by right]). revert row Hne.
  induction Hok as [|c cs Hc Hcs IH]; intros row Hne; [done|]. destruct cs as [|c' cs].
  - cbn. rewrite read_cell by done. destruct rest as [|x r]; [done|]. subst x. done.
  - change (csv_line (c :: c' :: cs)) with (cell_text c ++ COMMA :: csv_line (c' :: cs)). rewrite <-app_assoc. cbn [app].
    rewrite read_cell by (done || by left). cbn [field_ends]. change (Ascii.eqb COMMA COMMA) with true. cbn iota. rewrite IH by done.
    destruct rest; cbn [rev map]; by rewrite <-app_assoc.
Qed.

(** Lines one under the other, each read back as its cells. *)
Lemma read_lines lines : lines <> [] -> Forall (fun cs => cs <> [] /\ Forall cell_ok cs) lines ->
  read_csv (join LF (map csv_line lines)) = map (map cell_value) lines.
Proof.
  unfold read_csv. induction lines as [|cs lines IH]; [done|]. intros _ [[Hne Hok] Hls]%Forall_cons. destruct lines as [|cs' lines]; cbn [map join].
  - rewrite <-(app_nil_r (csv_line cs)), read_line by done. done.
  - rewrite read_line by done. cbn [rev app map]. f_equal. by apply IH.
Qed.

(** A file of rows, one per line, as it is written and as it is read. *)
Fixpoint csv_file (rows : list (list (list ascii))) : list ascii :=
  match rows with [] => [] | [r] => csvRow r | r :: rs => csvRow r ++ LF :: csv_file rs end.

Lemma csv_file_lines rows : csv_file rows = join LF (map csv_line (map (map Esc) rows)).
Proof.
  assert (H : forall r, csvRow r = csv_line (map Esc r)) by (intros r; unfold csvRow, csv_line; by rewrite map_map).
  induction rows as [|r [|r' rows] IH]; [done|apply H|]. cbn [csv_file map join] in *. by rewrite IH, H.
Qed.

Lemma read_file rows : rows <> [] -> Forall (fun r => r <> []) rows -> read_csv (csv_file rows) = map (map neutralise) rows.
Proof.
  intros Hne Hr. rewrite csv_file_lines, read_lines.
  - rewrite map_map. apply map_ext. intros r. by rewrite map_map.
  - by destruct rows.
  - apply Forall_map. eapply Forall_impl; [exact Hr|]. intros r Hr'. split; [by destruct r|]. apply Forall_map, Forall_true. done.
Qed.

(** C32: reading a written file gives back every row and every cell, whatever characters
    they hold, up to the quote that disarms formulas; and no cell read back starts
    a formula. *)
Theorem csv_roundtrip rows : rows <> [] -> Forall (fun r => r <> []) rows ->
  read_csv (csv_file rows) = map (map neutralise) rows /\
  Forall (Forall (fun f => FORMULA_TRIGGER f = false)) (read_csv (csv_file rows)).
Proof.
  intros Hne Hr. rewrite read_file by done. split; [done|]. apply Forall_map, Forall_true. intros r. apply Forall_map, Forall_true. intros v.
  unfold compose, neutralise. by destruct (FORMULA_TRIGGER v) eqn:E.
Qed.

(** A cell that triggers nothing is read back as it was. *)
Corollary csv_exact rows : rows <> [] -> Forall (fun r => r <> []) rows -> Forall (Forall (fun f => FORMULA_TRIGGER f = false)) rows ->
  read_csv (csv_file rows) = rows.
Proof.
  intros Hne Hr Ht. rewrite read_file by done.
  rewrite <-(map_id rows) at 2. apply map_ext_in. intros r Hr'%list_elem_of_In. rewrite <-(map_id r) at 2. apply map_ext_in. intros v Hv%list_elem_of_In.
  eapply Forall_forall in Ht; [|exact Hr']. eapply Forall_forall in Ht; [|exact Hv]. unfold neutralise. by rewrite Ht.
Qed.

(** The transform writes the header and the rows of the documents before the first
    that throws, each with its line end. *)
Lemma csvTransform_rows {D E} (toRow : D -> result E (list (list ascii))) header (ds : list D) (rows : list (list (list ascii))) :
  Forall2 (fun d r => toRow d = Ok r) ds rows -> ds <> [] ->
  csvTransform toRow (Some header) false ds = (concat (map (fun r => csvRow r ++ [LF]) (header :: rows)), None).
Proof.
  intros H Hne. assert (Htl : forall ds rows, Forall2 (fun d r => toRow d = Ok r) ds rows ->
    csvTransform toRow (Some header) true ds = (concat (map (fun r => csvRow r ++ [LF]) rows), None)).
  { clear. intros ds rows. induction 1 as [|d r ds rows Hd _ IH]; [done|]. cbn [csvTransform]. rewrite Hd, IH. cbn. by rewrite <-app_assoc. }
  destruct H as [|d r ds rows Hd H]; [done|]. cbn [csvTransform]. rewrite Hd, (Htl _ _ H). cbn. by rewrite <-!app_assoc.
Qed.

(** Escaping twice does not survive a reading: the cell keeps the quotes. *)
Theorem escaped_twice_keeps_quotes :
  read_csv (csvRow [csvEscape_text (chars "A,B")]) = [[QUOTE :: chars "A,B" ++ [QUOTE]]].
Proof. reflexivity. Qed.

Lemma csv_roundtrip_witness :
  read_csv (csv_file [[chars "id"; chars "a,b"]; [chars "=1"; []]]) = [[chars "id"; chars "a,b"]; [chars "'=1"; []]].
Proof. apply (csv_roundtrip [[chars "id"; chars "a,b"]; [chars "=1"; []]]); [done|by repeat constructor]. Defined.

End Csv.
