(* ===== verification/Reports.v ===== *)
(** Reports: backend/src/services/reportService.js.  Day boundaries in a time zone, the
    buckets of a report and its totals per asset, the files it is exported as; the
    fee statuses are those of backend/src/services/metricsRollupService.js, whose
    rollups are in Rollups.  A calendar date is its number of days since 1970-01-01 and a time
    zone its offset at every instant, in milliseconds.  Hints, time limits and the
    breakdown by class, the filter by period and the fiat sums are left out. *)

From Stdlib Require Import Ascii ZArith Lia.
From stdpp Require Import base strings gmap fin_maps list.
From S2P Require Import Prelude JsNumber JsString Csv.
Local Open Scope string_scope.
Local Open Scope Z_scope.
Local Open Scope list_scope.

Module Reports.

Definition DAY : Z := 86400000.

(** ** Day boundaries *)

Section Zone.
Context (offset : Z -> Z).

(** What [Intl.DateTimeFormat] shows of an instant, to the second. *)
Definition local_day (t : Z) : Z := (t + offset t) / DAY.
Definition local_seconds (t : Z) : Z := ((t + offset t) mod DAY) / 1000.

Definition day_pass (day approxUtc : Z) : Z := approxUtc - local_seconds approxUtc * 1000 + (day * DAY - local_day approxUtc * DAY).
Definition localDayStartUTC (day : Z) : Z := day_pass day (day_pass day (day * DAY)).
Definition localDayEndUTC (day : Z) : Z := localDayStartUTC (day + 1).

(** Lower bound inclusive, upper bound exclusive. *)
Definition buildDateRangeFilter (startDate endDate : option Z) : option Z * option Z :=
  (localDayStartUTC <$> startDate, localDayEndUTC <$> endDate).
Definition in_range (r : option Z * option Z) (t : Z) : bool :=
  match r.1 with Some a => a <=? t | None => true end && match r.2 with Some b => t <? b | None => true end.
End Zone.

(** [Math.ceil((end - start) / day) + 1], the end being the last millisecond. *)
Definition dateRangeDays (startDate endDate : Z) : Z :=
  let span := (endDate + 1) * DAY - 1 - startDate * DAY in - (- span / DAY) + 1.

(** ** Payments and buckets *)

Inductive fee_status := Valid | Partial | Overpaid | Underpaid | Unknown.
#[export] Instance fee_status_dec : EqDecision fee_status.
Proof. solve_decision. Defined.

(** [feeValidationStatus] as stored; anything else counts as unknown. *)
Definition _normaliseFeeStatus (status : option string) : fee_status :=
  match status with
  | Some s => if bool_decide (s = "valid") then Valid else if bool_decide (s = "partial") then Partial
              else if bool_decide (s = "underpaid") then Underpaid else if bool_decide (s = "overpaid") then Overpaid else Unknown
  | None => Unknown
  end.

Record payment := Payment {
  p_schoolId : string; p_studentId : string; p_success : bool; p_studentDeleted : bool; p_deletedAt : option Z;
  p_confirmedAt : option Z; p_updatedAt : Z; p_feeStatus : option string; p_assetCode : option string; p_amount : number;
  p_fiatAmount : option number }.
Definition asset_of (p : payment) : string := default "XLM" (p_assetCode p).

(** The counters of a row or of a summary. *)
Record buckets := Buckets { b_payments : nat; b_valid : nat; b_partial : nat; b_overpaid : nat; b_underpaid : nat; b_unknown : nat }.
Definition count (f : payment -> bool) (l : list payment) : nat := length (List.filter f l).
Definition has_status (s : fee_status) (p : payment) : bool := bool_decide (_normaliseFeeStatus (p_feeStatus p) = s).
Definition tally (l : list payment) : buckets :=
  Buckets (length l) (count (has_status Valid) l) (count (has_status Partial) l) (count (has_status Overpaid) l)
    (count (has_status Underpaid) l) (count (has_status Unknown) l).
Definition add_buckets (a b : buckets) : buckets :=
  Buckets (b_payments a + b_payments b) (b_valid a + b_valid b) (b_partial a + b_partial b) (b_overpaid a + b_overpaid b)
    (b_underpaid a + b_underpaid b) (b_unknown a + b_unknown b).
Definition no_buckets : buckets := Buckets 0 0 0 0 0 0.

(** ** A report *)

Section Report.
Context (offset : Z -> Z) (mongo_sum : list number -> number) (mongo_round : number -> number).

Definition matches (schoolId : string) (range : option Z * option Z) (p : payment) : bool :=
  bool_decide (p_schoolId p = schoolId) && p_success p && negb (p_studentDeleted p) && bool_decide (p_deletedAt p = None)
  && match range with
     | (None, None) => true
     | _ => match p_confirmedAt p with Some t => in_range range t | None => false end
     end.

(** [$ifNull: ['$confirmedAt', '$updatedAt']] *)
Definition row_day (p : payment) : Z := local_day offset (default (p_updatedAt p) (p_confirmedAt p)).

(** [toFixed(7)] without trailing zeros; amounts of 1e21 and more, which print with an
    exponent, are left out. *)
Definition trim_zeros (l : list ascii) : list ascii := rev (drop_while (Ascii.eqb "0"%char) (rev l)).
Definition drop_point (l : list ascii) : list ascii := match rev l with "."%char :: r => rev r | _ => l end.
Definition toExactAmountString (x : number) : string :=
  match x with
  | Fin _ => match toFixed x 7 with
             | Some t => text (drop_point (trim_zeros t))
             | None => "0"
             end
  | _ => "0"
  end.

(** One row of the breakdown by date. *)
Record row := Row { r_day : Z; r_buckets : buckets; r_totals : gmap string string; r_students : nat }.

Definition asset_sum (l : list payment) (asset : string) : number :=
  mongo_round (mongo_sum (map p_amount (List.filter (fun p => bool_decide (asset_of p = asset)) l))).
Definition row_totals (l : list payment) : gmap string string :=
  list_to_map (map (fun a => (a, toExactAmountString (asset_sum l a))) (remove_dups (map asset_of l))).

Definition row_of (l : list payment) (day : Z) : row :=
  let ps := List.filter (fun p => row_day p =? day) l in
  Row day (tally ps) (row_totals ps) (length (remove_dups (map p_studentId ps))).

(** The dates that occur, in order. *)
Definition days (l : list payment) : list Z := js_sort Z.sub (remove_dups (map row_day l)).

Definition aggregateByDate (schoolId : string) (startDate endDate : option Z) (payments : list payment) : list row :=
  let ps := List.filter (matches schoolId (buildDateRangeFilter offset startDate endDate)) payments in
  map (row_of ps) (days ps).

(** Totals are added per asset, through their texts. *)
Definition merge_one (acc : gmap string string) (kv : string * string) : gmap string string :=
  let prev := parseFloat (chars (default "0" (acc !! kv.1))) in
  let next := parseFloat (chars (str_or kv.2 "0")) in
  <[kv.1 := toExactAmountString (num_add prev next)]> acc.
Definition mergeAssetTotals (acc totals : gmap string string) : gmap string string := foldl merge_one acc (map_to_list totals).

Record summary := Summary { s_buckets : buckets; s_totals : gmap string string }.
Definition generateReport_summary (rows : list row) : summary :=
  foldl (fun acc r => Summary (add_buckets (s_buckets acc) (r_buckets r)) (mergeAssetTotals (s_totals acc) (r_totals r)))
    (Summary no_buckets ∅) rows.

End Report.

(** ** Boundaries *)

Section Boundaries.
Context (offset : Z -> Z) (whole_seconds : forall t, offset t mod 1000 = 0).

Lemma day_pass_spec day t : t mod 1000 = 0 -> day_pass offset day t = day * DAY - offset t.
Proof.
  intros Ht. unfold day_pass, local_seconds, local_day, DAY.
  assert (H : (t + offset t) mod 1000 = 0) by (rewrite Z.add_mod, Ht, whole_seconds by lia; done).
  assert (H' : ((t + offset t) mod 86400000) mod 1000 = 0).
  { apply Z.mod_divide in H; [|lia]. apply Z.mod_divide; [lia|]. rewrite Z.mod_eq by lia. apply Z.divide_sub_r; [done|].
    apply Z.divide_mul_l. by exists 86400. }
  pose proof (Z.div_mod (t + offset t) 86400000 ltac:(lia)). pose proof (Z.div_mod ((t + offset t) mod 86400000) 1000 ltac:(lia)). lia.
Qed.

(** The two passes in closed form: local midnight of the date, with the offset of
    the first guess. *)
Lemma localDayStartUTC_closed day : localDayStartUTC offset day = day * DAY - offset (day * DAY - offset (day * DAY)).
Proof.
  unfold localDayStartUTC. assert (H0 : (day * DAY) mod 1000 = 0) by (unfold DAY; replace (day * 86400000) with (day * 86400 * 1000) by lia; apply Z.mod_mul; lia).
  rewrite (day_pass_spec day (day * DAY)) by done. apply day_pass_spec. rewrite Zminus_mod, H0, whole_seconds. done.
Qed.

(** In a zone without clock changes a payment is within a range of dates exactly
    when its local date is. *)
Theorem date_range_exact o a b t : (forall t, offset t = o) ->
  in_range (buildDateRangeFilter offset (Some a) (Some b)) t = true <-> a <= local_day offset t <= b.
Proof.
  intros Ho. unfold in_range, buildDateRangeFilter, localDayEndUTC. cbn [fst snd fmap option_fmap option_map].
  rewrite !localDayStartUTC_closed, !Ho, andb_true_iff, Z.leb_le, Z.ltb_lt. unfold local_day. rewrite Ho. unfold DAY. split.
  - intros [H1 H2]. split; [apply Z.div_le_lower_bound; lia|]. apply Z.lt_succ_r. apply Z.div_lt_upper_bound; lia.
  - intros [H1 H2]. pose proof (Z.div_mod (t + o) 86400000 ltac:(lia)). pose proof (Z.mod_pos_bound (t + o) 86400000 ltac:(lia)). lia.
Qed.
End Boundaries.

(** The number of days a report states is one more than its range has. *)
Theorem dateRangeDays_off_by_one a b : dateRangeDays a b = (b - a + 1) + 1.
Proof.
  unfold dateRangeDays, DAY. cbv zeta. replace (- ((b + 1) * 86400000 - 1 - a * 86400000)) with (1 + (- (b - a + 1)) * 86400000) by lia.
  rewrite Z.div_add by lia. rewrite Z.div_small by lia. lia.
Qed.

(** ** Buckets *)

Lemma count_app f a b : count f (a ++ b) = (count f a + count f b)%nat.
Proof. unfold count. by rewrite List.filter_app, length_app. Qed.
Lemma tally_app a b : tally (a ++ b) = add_buckets (tally a) (tally b).
Proof. unfold tally, add_buckets. cbn. by rewrite length_app, !count_app. Qed.
Lemma count_perm f a b : a ≡ₚ b -> count f a = count f b.
Proof. intros H. unfold count. by rewrite (filterb_perm f a b H). Qed.
Lemma tally_perm a b : a ≡ₚ b -> tally a = tally b.
Proof. intros H. unfold tally. by rewrite (Permutation_length H), !(count_perm _ _ _ H). Qed.

Lemma buckets_sum l : let b := tally l in (b_valid b + b_partial b + b_overpaid b + b_underpaid b + b_unknown b = b_payments b)%nat.
Proof.
  cbv zeta. induction l as [|p l IH]; [done|]. unfold tally, count, has_status in *. cbn [b_valid b_partial b_overpaid b_underpaid b_unknown b_payments] in *.
  cbn [List.filter]. destruct (_normaliseFeeStatus (p_feeStatus p)); repeat (case_bool_decide; try done); cbn [length]; lia.
Qed.

(** Splitting by a key and putting the groups together loses and repeats nothing. *)
Lemma groups_perm (key : payment -> Z) ds l : NoDup ds -> Forall (fun p => key p ∈ ds) l ->
  concat (map (fun d => List.filter (fun p => key p =? d) l) ds) ≡ₚ l.
Proof.
  intros Hn. revert l. induction Hn as [|d ds Hd Hn IH]; intros l Hl; cbn [map concat].
  { destruct Hl as [|p l Hp]; [done|]. by apply not_elem_of_nil in Hp. }
  etrans; [|apply (filterb_split (fun p => key p =? d) l)]. apply Permutation_app_head.
  etrans; [|apply (IH (List.filter (fun p => negb (key p =? d)) l))].
  - rewrite (map_ext_in _ (fun d' => List.filter (fun p => key p =? d') (List.filter (fun p => negb (key p =? d)) l))); [done|].
    intros d' Hd'%list_elem_of_In. rewrite filterb_filterb. apply List.filter_ext. intros p.
    destruct (Z.eqb_spec (key p) d') as [->|]; [|done]. cbn. destruct (Z.eqb_spec d' d) as [->|]; done.
  - apply Forall_forall. intros p [Hp Hin]%elem_of_filterb. eapply Forall_forall in Hl; [|exact Hin]. apply elem_of_cons in Hl as [Hk|?]; [|done].
    by rewrite Hk, Z.eqb_refl in Hp.
Qed.

Section Totals.
Context (offset : Z -> Z) (mongo_sum : list number -> number) (mongo_round : number -> number).

Lemma summary_fold rows acc :
  s_buckets (foldl (fun acc r => Summary (add_buckets (s_buckets acc) (r_buckets r)) (mergeAssetTotals (s_totals acc) (r_totals r))) acc rows)
  = foldl add_buckets (s_buckets acc) (map r_buckets rows).
Proof. revert acc. induction rows as [|r rows IH]; intros acc; cbn [foldl map]; [done|]. by rewrite IH. Qed.

Lemma fold_tally a groups : foldl add_buckets (tally a) (map tally groups) = tally (a ++ concat groups).
Proof.
  revert a. induction groups as [|g gs IH]; intros a; cbn [foldl map concat]; [by rewrite app_nil_r|]. by rewrite <-tally_app, IH, <-app_assoc.
Qed.

(** The counters of a report, added up over its dates, are those of the payments it
    is about, counted at once: every payment is in exactly one row, and the statuses
    add up to the payments. *)
Theorem report_conserves_payments schoolId startDate endDate payments :
  let range := buildDateRangeFilter offset startDate endDate in
  let b := s_buckets (generateReport_summary (aggregateByDate offset mongo_sum mongo_round schoolId startDate endDate payments)) in
  b = tally (List.filter (matches schoolId range) payments) /\
  (b_valid b + b_partial b + b_overpaid b + b_underpaid b + b_unknown b = b_payments b)%nat.
Proof.
  cbv zeta. set (ps := List.filter (matches schoolId (buildDateRangeFilter offset startDate endDate)) payments).
  assert (H : s_buckets (generateReport_summary (aggregateByDate offset mongo_sum mongo_round schoolId startDate endDate payments)) = tally ps).
  { unfold generateReport_summary, aggregateByDate. fold ps. rewrite summary_fold. cbn [s_buckets]. rewrite map_map. cbn [row_of r_buckets].
    rewrite <-(map_map (fun d => List.filter (fun p => row_day offset p =? d) ps) tally). change no_buckets with (tally []). rewrite fold_tally. cbn [app].
    apply tally_perm, groups_perm.
    - unfold days. rewrite js_sort_perm. apply NoDup_remove_dups.
    - apply Forall_forall. intros p Hp. unfold days. rewrite js_sort_elem, elem_of_remove_dups. by apply (list_elem_of_fmap_2 (row_day offset)). }
  rewrite H. split; [done|]. apply buckets_sum.
Qed.

(** ** Assets are never added together *)

Definition add_amount (prev : option string) (next : string) : string :=
  toExactAmountString (num_add (parseFloat (chars (default "0" prev))) (parseFloat (chars (str_or next "0")))).

Lemma fold_merge l acc a : NoDup (l.*1) ->
  foldl merge_one acc l !! a = match (list_to_map l : gmap string string) !! a with Some v => Some (add_amount (acc !! a) v) | None => acc !! a end.
Proof.
  revert acc. induction l as [|[k v] l IH]; intros acc Hn; cbn [foldl].
  { by rewrite list_to_map_nil, lookup_empty. }
  cbn [fmap list_fmap fst] in Hn. apply NoDup_cons in Hn as [Hk Hn]. rewrite IH, list_to_map_cons by done. unfold merge_one. cbn [fst snd].
  destruct (decide (k = a)) as [->|Hne].
  - rewrite !lookup_insert_eq. by rewrite not_elem_of_list_to_map_1.
  - by rewrite !lookup_insert_ne.
Qed.

Lemma merge_lookup acc totals a : mergeAssetTotals acc totals !! a =
  match totals !! a with Some v => Some (add_amount (acc !! a) v) | None => acc !! a end.
Proof. unfold mergeAssetTotals. rewrite fold_merge by apply NoDup_fst_map_to_list. by rewrite list_to_map_to_list. Qed.

(** The total of an asset in a summary is what its own totals of the dates add up
    to, in order; those of other assets play no part. *)
Theorem totals_per_asset rows a : s_totals (generateReport_summary rows) !! a =
  foldl (fun acc v => Some (add_amount acc v)) None (omap (fun r => r_totals r !! a) rows).
Proof.
  unfold generateReport_summary. assert (H : forall acc, s_totals (foldl (fun acc r => Summary (add_buckets (s_buckets acc) (r_buckets r))
      (mergeAssetTotals (s_totals acc) (r_totals r))) acc rows) !! a
    = foldl (fun acc v => Some (add_amount acc v)) (s_totals acc !! a) (omap (fun r => r_totals r !! a) rows)).
  { induction rows as [|r rows IH]; intros acc; cbn [foldl omap list_omap]; [done|]. rewrite IH. cbn [s_totals]. rewrite merge_lookup.
    by destruct (r_totals r !! a). }
  rewrite H. cbn. by rewrite lookup_empty.
Qed.
End Totals.

(** ** The files *)

Import Csv.

Definition num (n : nat) : list ascii := Z_text (Z.of_nat n).

(** A report as it is printed: texts are those of [String]. *)
Record file_row := FileRow { f_name : list ascii; f_totals : list (list ascii * list ascii); f_counts : list nat }.
Record file_report := FileReport {
  f_generatedAt : list ascii; f_schoolId : list ascii; f_startDate : list ascii; f_endDate : list ascii; f_rangeDays : option nat;
  f_summary : list (list ascii * list ascii); f_fiat : list ascii; f_coverage : list ascii; f_summaryCounts : list (string * nat);
  f_byDate : list file_row; f_byClass : list file_row }.

Definition REPORT_CSV_SCHEMA_VERSION : nat := 2.
Definition or_all_time (t : list ascii) : list ascii := match t with [] => chars "all time" | _ => t end.
Definition labelled (label : string) (v : list ascii) : list cell := [Raw (chars label); Esc v].
Definition row_lines (r : file_row) : list (list cell) :=
  match f_totals r with
  | [] => [[Esc (f_name r); Raw []; Raw []] ++ map (fun n => Esc (num n)) (f_counts r)]
  | ts => map (fun t => [Esc (f_name r); Esc t.1; Esc t.2] ++ map (fun n => Esc (num n)) (f_counts r)) ts
  end.
Definition titles (l : list string) : list cell := map (fun t => Raw (chars t)) l.

Definition report_lines (f : file_report) : list (list cell) :=
  [labelled "Schema Version" (num REPORT_CSV_SCHEMA_VERSION); labelled "Generated At" (f_generatedAt f); labelled "School ID" (f_schoolId f);
   labelled "Period Start" (or_all_time (f_startDate f)); labelled "Period End" (or_all_time (f_endDate f))] ++
  (match f_rangeDays f with Some n => [labelled "Date Range Days" (num n)] | None => [] end) ++
  [titles [""]; titles ["--- Summary ---"]; titles ["Asset"; "Total Amount"]] ++
  map (fun t => [Esc t.1; Esc t.2]) (f_summary f) ++
  [labelled "Total Fiat" (f_fiat f); labelled "Fiat Coverage %" (f_coverage f)] ++
  map (fun c => labelled c.1 (num c.2)) (f_summaryCounts f) ++
  [titles [""]; titles ["--- Daily Breakdown ---"];
   titles ["Date"; "Asset"; "Total Amount"; "Payment Count"; "Valid"; "Partial"; "Overpaid"; "Underpaid"; "Unknown"; "Unique Students"]] ++
  concat (map row_lines (f_byDate f)) ++
  (match f_byClass f with
   | [] => []
   | rows => [titles [""]; titles ["--- Class Breakdown ---"];
              titles ["Class"; "Asset"; "Total Collected"; "Payment Count"; "Paid Students"; "Unpaid Students"]] ++ concat (map row_lines rows)
   end).
Definition reportToCsv (f : file_report) : list ascii := join LF (map csv_line (report_lines f)).

Lemma row_lines_ok r : Forall (fun cs => cs <> [] /\ Forall cell_ok cs) (row_lines r).
Proof.
  unfold row_lines. assert (Hc : Forall cell_ok (map (fun n => Esc (num n)) (f_counts r))) by (by apply Forall_map, Forall_true).
  destruct (f_totals r) as [|t ts]; [repeat constructor; done|]. apply Forall_map, Forall_true. intros x. split; [done|]. by repeat constructor.
Qed.

(** Whatever the names of schools and classes hold, the file is read back as the
    cells that were written. *)
Theorem report_file_readable f : Forall (fun c => existsb special (chars c.1) = false) (f_summaryCounts f) ->
  read_csv (reportToCsv f) = map (map cell_value) (report_lines f).
Proof.
  intros Hl. unfold reportToCsv. apply read_lines; [done|]. unfold report_lines.
  assert (Hrows : forall rows, Forall (fun cs => cs <> [] /\ Forall cell_ok cs) (concat (map row_lines rows))).
  { intros rows. apply Forall_concat, Forall_map, Forall_true. apply row_lines_ok. }
  repeat (apply Forall_app; split); try (repeat constructor; done); try apply Hrows.
  - destruct (f_rangeDays f); by repeat constructor.
  - apply Forall_map, Forall_true. intros x. by repeat constructor.
  - apply Forall_map. eapply Forall_impl; [exact Hl|]. intros x Hx. split; [done|]. by repeat constructor.
  - destruct (f_byClass f) as [|r rows]; [constructor|]. apply Forall_app. split; [by repeat constructor|apply Hrows].
Qed.

(** ** The accounting export *)

Record accounting := Accounting {
  a_schoolId : list ascii; a_txHash : list ascii; a_studentId : list ascii; a_class : list ascii; a_confirmedAt : list ascii;
  a_assetCode : list ascii; a_assetType : list ascii; a_amount : list ascii; a_feeAmount : list ascii; a_feeStatus : list ascii;
  a_excess : list ascii; a_fiatAmount : list ascii; a_fiatCurrency : list ascii; a_fiatRate : list ascii; a_reference : list ascii; a_status : list ascii }.

Definition ACCOUNTING_SCHEMA_VERSION : nat := 1.
Definition ACCOUNTING_HEADERS_V1 : list (list ascii) := map chars
  ["schema_version"; "exported_at"; "school_id"; "tx_hash"; "student_id"; "class"; "confirmed_at"; "asset_code"; "asset_type"; "crypto_amount";
   "fee_amount"; "fee_validation_status"; "excess_amount"; "fiat_amount_at_payment"; "fiat_currency_at_payment"; "fiat_rate_at_payment";
   "reference_code"; "status"].

(** The cells, some of them escaped already. *)
Definition accounting_cells (exportedAt : list ascii) (r : accounting) : list (list ascii) :=
  [num ACCOUNTING_SCHEMA_VERSION; exportedAt; csvEscape_text (a_schoolId r); csvEscape_text (a_txHash r); csvEscape_text (a_studentId r);
   csvEscape_text (a_class r); a_confirmedAt r; csvEscape_text (a_assetCode r); csvEscape_text (a_assetType r); a_amount r; a_feeAmount r;
   csvEscape_text (a_feeStatus r); a_excess r; a_fiatAmount r; csvEscape_text (a_fiatCurrency r); a_fiatRate r; csvEscape_text (a_reference r);
   csvEscape_text (a_status r)].
Definition formatAccountingRow (exportedAt : list ascii) (r : accounting) : list ascii := csvRow (accounting_cells exportedAt r).

Definition generateAccountingCsv (exportedAt : list ascii) (rows : list accounting) : list ascii :=
  join LF (csvRow ACCOUNTING_HEADERS_V1 :: map (formatAccountingRow exportedAt) rows).
Definition generateAccountingCsvStream (exportedAt : list ascii) (rows : list accounting) : list ascii :=
  csvRow ACCOUNTING_HEADERS_V1 ++ [LF] ++ concat (map (fun r => formatAccountingRow exportedAt r ++ [LF]) rows).

Lemma join_lines l ls : join LF (l :: ls) ++ [LF] = concat (map (fun x => x ++ [LF]) (l :: ls)).
Proof.
  revert l. induction ls as [|l' ls IH]; intros l; [cbn; by rewrite app_nil_r|]. change (join LF (l :: l' :: ls)) with (l ++ LF :: join LF (l' :: ls)).
  rewrite <-app_assoc. cbn [app]. rewrite IH. cbn [map concat]. by rewrite <-(app_assoc l [LF]).
Qed.

(** Streaming the export writes the buffered file and a last line end. *)
Theorem accounting_stream_equals_file exportedAt rows :
  generateAccountingCsvStream exportedAt rows = generateAccountingCsv exportedAt rows ++ [LF].
Proof. unfold generateAccountingCsvStream, generateAccountingCsv. rewrite join_lines. cbn [map concat]. by rewrite map_map, <-app_assoc. Qed.

(** A text that needs no escaping. *)
Definition plain (l : list ascii) : Prop := existsb special l = false /\ FORMULA_TRIGGER l = false.
Lemma plain_escape l : plain l -> csvEscape_text l = l /\ neutralise l = l.
Proof. intros [H1 H2]. unfold csvEscape_text, neutralise. by rewrite H2, H1. Qed.

Definition a_fields (r : accounting) : list (list ascii) :=
  [a_schoolId r; a_txHash r; a_studentId r; a_class r; a_assetCode r; a_assetType r; a_feeStatus r; a_fiatCurrency r; a_reference r; a_status r].

(** An export whose texts need no escaping is read back as written: one row per
    payment under the header. *)
Theorem accounting_rows_readable exportedAt rows : Forall (fun r => Forall plain (a_fields r)) rows ->
  read_csv (generateAccountingCsv exportedAt rows) = map (map neutralise) (ACCOUNTING_HEADERS_V1 :: map (accounting_cells exportedAt) rows) /\
  Forall (fun r => accounting_cells exportedAt r = [num ACCOUNTING_SCHEMA_VERSION; exportedAt; a_schoolId r; a_txHash r; a_studentId r; a_class r;
    a_confirmedAt r; a_assetCode r; a_assetType r; a_amount r; a_feeAmount r; a_feeStatus r; a_excess r; a_fiatAmount r; a_fiatCurrency r; a_fiatRate r;
    a_reference r; a_status r]) rows.
Proof.
  intros Hp. split.
  - assert (H : generateAccountingCsv exportedAt rows = csv_file (ACCOUNTING_HEADERS_V1 :: map (accounting_cells exportedAt) rows)).
    { assert (Hl : forall r, csvRow r = csv_line (map Esc r)) by (intros r; unfold csvRow, csv_line; by rewrite map_map).
      rewrite csv_file_lines. unfold generateAccountingCsv. rewrite map_map. cbn [map]. rewrite map_map, Hl. by do 2 f_equal. }
    rewrite H. apply read_file; [done|]. constructor; [done|]. by apply Forall_map, Forall_true.
  - eapply Forall_impl; [exact Hp|]. intros r Hr. unfold a_fields in Hr.
    repeat (apply Forall_cons in Hr as [[? _]%plain_escape Hr]). unfold accounting_cells. congruence.
Qed.

(** A class with a comma comes back with quotes around it. *)
Theorem accounting_escapes_twice r exportedAt : a_class r = chars "Grade 1, A" ->
  nth 5 (map neutralise (accounting_cells exportedAt r)) [] = QUOTE :: chars "Grade 1, A" ++ [QUOTE].
Proof. intros H. unfold accounting_cells. by rewrite H. Qed.
End Reports.
