(* ===== verification/Rollups.v ===== *)
(** Rollups: backend/src/services/metricsRollupService.js over
    backend/src/models/metricsModel.js, with the reading of the rollups by
    getDashboardMetrics of backend/src/services/reportService.js.  Only the paths of the
    schema are stored: Mongoose drops the others from an update.  Fiat sums are left
    out. *)

From Stdlib Require Import ZArith Lia.
From stdpp Require Import base strings gmap fin_maps list.
From S2P Require Import Prelude JsNumber Reports.
Import Reports.
Local Open Scope string_scope.
Local Open Scope Z_scope.
Local Open Scope list_scope.

Module Rollups.

(** ** Periods *)

(** The day and the month (counted from year 0) of an instant, in UTC. *)
Definition _dayKey (t : Z) : Z := t / DAY.
Definition month_of (day : Z) : Z :=
  let z := day + 719468 in
  let era := z / 146097 in
  let doe := z mod 146097 in
  let yoe := (doe - doe / 1460 + doe / 36524 - doe / 146096) / 365 in
  let doy := doe - (365 * yoe + yoe / 4 - yoe / 100) in
  let mp := (5 * doy + 2) / 153 in
  let m := if mp <? 10 then mp + 3 else mp - 9 in
  (yoe + era * 400 + (if m <=? 2 then 1 else 0)) * 12 + (m - 1).
Definition _monthKey (t : Z) : Z := month_of (_dayKey t).

Example month_of_epoch : month_of 0 = 1970 * 12.
Proof. reflexivity. Qed.
Example month_of_leap_day : month_of 19782 = 2024 * 12 + 1 /\ month_of 19783 = 2024 * 12 + 2.
Proof. split; reflexivity. Qed.

(** ** Documents *)

(** The counters the schema has. *)
Record counters := Counters { c_payments : nat; c_valid : nat; c_overpaid : nat; c_underpaid : nat }.
Record doc := Doc { m_counters : counters; m_totalAmount : number; m_uniqueStudents : nat; m_reconciledAt : option Z }.
Definition fresh_doc : doc := Doc (Counters 0 0 0 0) (of_Z 0) 0 None.

Definition add_counters (a b : counters) : counters :=
  Counters (c_payments a + c_payments b) (c_valid a + c_valid b) (c_overpaid a + c_overpaid b) (c_underpaid a + c_underpaid b).
Definition counters_of (l : list payment) : counters :=
  Counters (length l) (count (has_status Valid) l) (count (has_status Overpaid) l) (count (has_status Underpaid) l).

Record store := Store { daily : gmap (string * Z) doc; monthly : gmap (string * Z) doc }.
Definition empty_store : store := Store ∅ ∅.

(** ** One payment *)

Definition _statusCounters (p : payment) : counters := counters_of [p].
(** [$inc] with an upsert. *)
Definition inc (c : counters) (k : string * Z) (m : gmap (string * Z) doc) : gmap (string * Z) doc :=
  let d := default fresh_doc (m !! k) in
  <[k := Doc (add_counters (m_counters d) c) (m_totalAmount d) (m_uniqueStudents d) (m_reconciledAt d)]> m.
Definition incrementPaymentMetrics (now : Z) (p : payment) (st : store) : store :=
  if p_success p then
    let t := default now (p_confirmedAt p) in
    Store (inc (_statusCounters p) (p_schoolId p, _dayKey t) (daily st)) (inc (_statusCounters p) (p_schoolId p, _monthKey t) (monthly st))
  else st.

(** ** Rebuilding *)

(** The whole days from [startDate] to [endDate]. *)
Definition utc_range (startDate endDate : Z) : option Z * option Z := (Some (startDate * DAY), Some ((endDate + 1) * DAY)).
Definition day_of (p : payment) : Z := _dayKey (default 0 (p_confirmedAt p)).

Definition group (key : payment -> Z) (l : list payment) (k : Z) : list payment := List.filter (fun p => key p =? k) l.

(** A row of the aggregation: a day, its counters, its students. *)
Record drow := DRow { w_day : Z; w_counters : counters; w_students : list string }.
Definition daily_rows (ps : list payment) : list drow :=
  map (fun d => DRow d (counters_of (group day_of ps d)) (remove_dups (map p_studentId (group day_of ps d)))) (remove_dups (map day_of ps)).

(** What is stored for a period: the key, the counters and the number of students.
    The months add up the rows of their days. *)
Definition entry : Type := Z * counters * nat.
Definition daily_entries (rows : list drow) : list entry := map (fun r => (w_day r, w_counters r, length (w_students r))) rows.
Definition monthly_entries (rows : list drow) : list entry :=
  map (fun m => let rs := List.filter (fun r => month_of (w_day r) =? m) rows in
                (m, foldl add_counters (Counters 0 0 0 0) (map w_counters rs), length (remove_dups (concat (map w_students rs)))))
    (remove_dups (map (fun r => month_of (w_day r)) rows)).

(** [$set] with an upsert; what is not set stays. *)
Definition set_doc (now : Z) (c : counters) (n : nat) (k : string * Z) (m : gmap (string * Z) doc) : gmap (string * Z) doc :=
  <[k := Doc c (m_totalAmount (default fresh_doc (m !! k))) n (Some now)]> m.
Definition set_all (now : Z) (schoolId : string) (es : list entry) (m : gmap (string * Z) doc) : gmap (string * Z) doc :=
  foldl (fun m e => set_doc now e.1.2 e.2 (schoolId, e.1.1) m) m es.

Definition reconcileMetrics (now : Z) (schoolId : string) (startDate endDate : Z) (payments : list payment) (st : store) : store :=
  let rows := daily_rows (List.filter (matches schoolId (utc_range startDate endDate)) payments) in
  Store (set_all now schoolId (daily_entries rows) (daily st)) (set_all now schoolId (monthly_entries rows) (monthly st)).

(** ** The dashboard *)

Definition docs_of (schoolId : string) (m : gmap (string * Z) doc) : list doc :=
  map snd (List.filter (fun kd => bool_decide (kd.1.1 = schoolId)) (map_to_list m)).
Definition sum_amounts (l : list number) : number := foldl num_add (of_Z 0) l.
(** [fees.totalCollected], [today.totalCollected] and [today.paymentCount]. *)
Definition dashboard_collected (schoolId : string) (st : store) : number := sum_amounts (map m_totalAmount (docs_of schoolId (monthly st))).
Definition dashboard_today (now : Z) (schoolId : string) (st : store) : number * nat :=
  match daily st !! (schoolId, _dayKey now) with Some d => (m_totalAmount d, c_payments (m_counters d)) | None => (of_Z 0, 0%nat) end.

(** ** The scheduler *)

Section Scheduler.
Context (RECONCILE_INTERVAL_MS : Z).
Definition due (now : Z) (lastRunAt : option Z) : bool :=
  match lastRunAt with Some t => negb (now - t <? RECONCILE_INTERVAL_MS) | None => true end.
(** A check at [now]; a run that succeeds ends at [completedAt].  The time of the
    last run is stored, so that it outlives the process. *)
Definition _runIfDue (now : Z) (outcome : option Z) (lastRunAt : option Z) : option Z * bool :=
  if due now lastRunAt then (match outcome with Some completedAt => Some completedAt | None => lastRunAt end, true) else (lastRunAt, false).
End Scheduler.

(** ** Counters *)

Lemma counters_app a b : counters_of (a ++ b) = add_counters (counters_of a) (counters_of b).
Proof. unfold counters_of, add_counters. cbn. by rewrite length_app, !count_app. Qed.
Lemma counters_perm a b : a ≡ₚ b -> counters_of a = counters_of b.
Proof. intros H. unfold counters_of. by rewrite (Permutation_length H), !(count_perm _ _ _ H). Qed.

(** What a period holds after increments: the counters of its payments. *)
Definition holds (m : gmap (string * Z) doc) (k : string * Z) (l : list payment) : Prop :=
  m_counters <$> m !! k = match l with [] => None | _ => Some (counters_of l) end.

Lemma inc_holds m k k' l p : holds m k' l -> holds (inc (_statusCounters p) k m) k' (if decide (k = k') then l ++ [p] else l).
Proof.
  unfold holds, inc. intros H. destruct (decide (k = k')) as [->|Hne]; [|by rewrite lookup_insert_ne].
  rewrite lookup_insert_eq. cbn. destruct (l ++ [p]) as [|x l'] eqn:E; [by destruct l|]. rewrite <-E, counters_app. unfold _statusCounters. f_equal. f_equal.
  destruct l as [|y l]; destruct (m !! k') as [d|]; cbn in *; try done. by injection H.
Qed.

Definition keyed (key : payment -> Z) (k : string * Z) (p : payment) : bool := bool_decide ((p_schoolId p, key p) = k).

Lemma incs_hold now ps k : Forall (fun p => p_success p = true /\ is_Some (p_confirmedAt p)) ps ->
  let st := foldl (fun st p => incrementPaymentMetrics now p st) empty_store ps in
  holds (daily st) k (List.filter (keyed day_of k) ps) /\ holds (monthly st) k (List.filter (keyed (fun p => month_of (day_of p)) k) ps).
Proof.
  cbv zeta. induction ps as [|p ps IH] using rev_ind; [by intros _; split|]. intros [Hps [[Hs [t Ht]] _]%Forall_cons]%Forall_app.
  specialize (IH Hps) as [IHd IHm]. rewrite foldl_app. cbn [foldl]. set (st := foldl _ empty_store ps) in *. clearbody st.
  rewrite !List.filter_app. unfold incrementPaymentMetrics. rewrite Hs, Ht. cbn [default from_option id daily monthly].
  assert (Hd : day_of p = _dayKey t) by (unfold day_of; by rewrite Ht).
  split.
  - apply (inc_holds _ (p_schoolId p, _dayKey t) _ _ p) in IHd. revert IHd. cbn [List.filter].
    assert (keyed day_of k p = bool_decide ((p_schoolId p, _dayKey t) = k)) as -> by (unfold keyed; by rewrite Hd).
    destruct (decide _); [rewrite bool_decide_true by done|rewrite bool_decide_false by done; rewrite app_nil_r]; done.
  - apply (inc_holds _ (p_schoolId p, _monthKey t) _ _ p) in IHm. revert IHm. cbn [List.filter].
    assert (keyed (fun p => month_of (day_of p)) k p = bool_decide ((p_schoolId p, _monthKey t) = k)) as -> by (unfold keyed; by rewrite Hd).
    destruct (decide _); [rewrite bool_decide_true by done|rewrite bool_decide_false by done; rewrite app_nil_r]; done.
Qed.

Lemma set_all_other now schoolId es m k : k.1 <> schoolId \/ (k.2 ∉ map (fun e : entry => e.1.1) es) -> set_all now schoolId es m !! k = m !! k.
Proof.
  unfold set_all. revert m. induction es as [|e es IH]; intros m Hk; cbn [foldl]; [done|]. rewrite IH.
  - unfold set_doc. rewrite lookup_insert_ne; [done|]. intros <-. cbn in Hk. destruct Hk as [Hk|Hk]; [done|]. apply Hk. by left.
  - destruct Hk as [Hk|Hk]; [by left|right]. intros Hin. apply Hk. by right.
Qed.
Lemma set_all_entry now schoolId es m k c n : NoDup (map (fun e : entry => e.1.1) es) -> (k, c, n) ∈ es ->
  set_all now schoolId es m !! (schoolId, k) = Some (Doc c (m_totalAmount (default fresh_doc (m !! (schoolId, k)))) n (Some now)).
Proof.
  revert m. induction es as [|e es IH]; intros m Hn Hin; [by apply not_elem_of_nil in Hin|]. cbn [map] in Hn. apply NoDup_cons in Hn as [He Hn].
  unfold set_all. cbn [foldl]. fold (set_all now schoolId es (set_doc now e.1.2 e.2 (schoolId, e.1.1) m)). apply elem_of_cons in Hin as [<-|Hin].
  - rewrite set_all_other by (by right). unfold set_doc. cbn. by rewrite lookup_insert_eq.
  - rewrite IH by done. unfold set_doc. rewrite lookup_insert_ne; [done|]. intros [= Hk]. apply He. rewrite Hk.
    by apply (list_elem_of_fmap_2 (fun e : entry => e.1.1) _ (k, c, n)).
Qed.

Lemma fold_counters a groups : foldl add_counters (counters_of a) (map counters_of groups) = counters_of (a ++ concat groups).
Proof.
  revert a. induction groups as [|g gs IH]; intros a; cbn [foldl map concat]; [by rewrite app_nil_r|]. by rewrite <-counters_app, IH, <-app_assoc.
Qed.

(** The row of a month counts the payments of the month. *)
Lemma month_counters ps m :
  foldl add_counters (Counters 0 0 0 0) (map w_counters (List.filter (fun r => month_of (w_day r) =? m) (daily_rows ps)))
  = counters_of (group (fun p => month_of (day_of p)) ps m).
Proof.
  set (ds := List.filter (fun d => month_of d =? m) (remove_dups (map day_of ps))). set (g := group (fun p => month_of (day_of p)) ps m).
  assert (Hr : map w_counters (List.filter (fun r => month_of (w_day r) =? m) (daily_rows ps)) = map counters_of (map (fun d => List.filter (fun p => day_of p =? d) g) ds)).
  { unfold daily_rows, ds. induction (remove_dups (map day_of ps)) as [|d l IH]; [done|]. cbn [map List.filter w_day].
    destruct (month_of d =? m) eqn:E; [|exact IH]. cbn [map w_counters]. rewrite IH. do 2 f_equal. unfold g, group. rewrite filterb_filterb.
    apply List.filter_ext. intros p. destruct (Z.eqb_spec (day_of p) d) as [->|]; [by rewrite E|done]. }
  rewrite Hr. change (Counters 0 0 0 0) with (counters_of []). rewrite fold_counters. cbn [app]. apply counters_perm, groups_perm.
  - unfold ds. rewrite <-(map_id (List.filter _ _)). apply NoDup_map_filterb. rewrite map_id. apply NoDup_remove_dups.
  - apply Forall_forall. intros p [Hp Hin]%elem_of_filterb. unfold ds. apply elem_of_filterb. split; [done|].
    apply elem_of_remove_dups. by apply (list_elem_of_fmap_2 day_of).
Qed.

Lemma group_none key ps k : (k ∉ map key ps) -> group key ps k = [].
Proof.
  intros H. unfold group. destruct (List.filter _ ps) as [|p l] eqn:E; [done|]. destruct H.
  assert (Hp : p ∈ List.filter (fun p => key p =? k) ps) by (rewrite E; by left). apply elem_of_filterb in Hp as [Hk%Z.eqb_eq Hp].
  rewrite <-Hk. by apply (list_elem_of_fmap_2 key).
Qed.
Lemma group_some key ps k : k ∈ map key ps -> group key ps k <> [].
Proof.
  intros (p & -> & Hp)%list_elem_of_fmap H. assert (Hin : p ∈ group key ps (key p)) by (apply elem_of_filterb; by rewrite Z.eqb_refl).
  rewrite H in Hin. by apply not_elem_of_nil in Hin.
Qed.

(** A rebuilding stores, for every day and every month with payments in its range,
    the counters of those payments, and nothing else. *)
Lemma reconcile_spec now schoolId a b payments st : let ps := List.filter (matches schoolId (utc_range a b)) payments in
  let st' := reconcileMetrics now schoolId a b payments st in
  (forall d, m_counters <$> daily st' !! (schoolId, d) = match group day_of ps d with [] => m_counters <$> daily st !! (schoolId, d) | l => Some (counters_of l) end) /\
  (forall m, m_counters <$> monthly st' !! (schoolId, m) =
     match group (fun p => month_of (day_of p)) ps m with [] => m_counters <$> monthly st !! (schoolId, m) | l => Some (counters_of l) end).
Proof.
  cbv zeta. unfold reconcileMetrics. cbn [daily monthly]. set (ps := List.filter _ payments).
  assert (Hd : map (fun e : entry => e.1.1) (daily_entries (daily_rows ps)) = remove_dups (map day_of ps)).
  { unfold daily_entries, daily_rows. by rewrite !map_map, map_id. }
  assert (Hm : map (fun e : entry => e.1.1) (monthly_entries (daily_rows ps)) = remove_dups (map (fun r => month_of (w_day r)) (daily_rows ps))).
  { unfold monthly_entries. by rewrite map_map, map_id. }
  assert (Hrows : forall m, m ∈ map (fun r => month_of (w_day r)) (daily_rows ps) <-> m ∈ map (fun p => month_of (day_of p)) ps).
  { intros m. unfold daily_rows. rewrite map_map. cbn [w_day]. rewrite !list_elem_of_fmap. setoid_rewrite elem_of_remove_dups. split.
    - intros (d & -> & (p & -> & Hp)%list_elem_of_fmap). by exists p.
    - intros (p & -> & Hp). exists (day_of p). split; [done|]. by apply (list_elem_of_fmap_2 day_of). }
  split; intros k.
  - destruct (decide (k ∈ map day_of ps)) as [Hk|Hk].
    + erewrite set_all_entry; [|rewrite Hd; apply NoDup_remove_dups|]. 2: { unfold daily_entries, daily_rows. rewrite map_map.
        apply (list_elem_of_fmap_2 (fun d => (d, counters_of (group day_of ps d), length (remove_dups (map p_studentId (group day_of ps d)))))). by apply elem_of_remove_dups. }
      cbn. apply group_some in Hk. by destruct (group day_of ps k).
    + rewrite set_all_other by (right; rewrite Hd; by rewrite elem_of_remove_dups). by rewrite group_none.
  - destruct (decide (k ∈ map (fun p => month_of (day_of p)) ps)) as [Hk|Hk].
    + erewrite set_all_entry; [|rewrite Hm; apply NoDup_remove_dups|]. 2: { unfold monthly_entries.
        apply (list_elem_of_fmap_2 (fun m => let rs := List.filter (fun r => month_of (w_day r) =? m) (daily_rows ps) in
          (m, foldl add_counters (Counters 0 0 0 0) (map w_counters rs), length (remove_dups (concat (map w_students rs)))))). apply elem_of_remove_dups. by apply Hrows. }
      cbn. rewrite month_counters. apply group_some in Hk. by destruct (group _ ps k).
    + rewrite set_all_other by (right; rewrite Hm, elem_of_remove_dups; by rewrite Hrows). by rewrite group_none.
Qed.

Lemma filterb_all {A} (f : A -> bool) l : Forall (fun x => f x = true) l -> List.filter f l = l.
Proof. induction 1 as [|x l Hx _ IH]; cbn [List.filter]; [done|]. by rewrite Hx, IH. Qed.

Lemma matches_spec schoolId a b p : matches schoolId (utc_range a b) p = true -> p_schoolId p = schoolId /\ p_success p = true /\ is_Some (p_confirmedAt p).
Proof.
  unfold matches, utc_range. rewrite !andb_true_iff, bool_decide_eq_true. intros [[[[H1 H2] _] _] H3]. split; [done|]. split; [done|].
  by destruct (p_confirmedAt p).
Qed.

Lemma keyed_group schoolId key ps k : Forall (fun p => p_schoolId p = schoolId) ps -> List.filter (keyed key (schoolId, k)) ps = group key ps k.
Proof.
  intros H. unfold group. induction H as [|p ps Hp _ IH]; [done|]. cbn [List.filter]. unfold keyed at 1. rewrite Hp, IH.
  destruct (Z.eqb_spec (key p) k) as [->|Hne]; [by rewrite bool_decide_true|]. rewrite bool_decide_false; [done|]. congruence.
Qed.

(** Counting payments as they come and rebuilding the rollups from them agree, for
    every day and every month. *)
Theorem increments_equal_rebuild now now' schoolId a b ps : Forall (fun p => matches schoolId (utc_range a b) p = true) ps ->
  let counted := foldl (fun st p => incrementPaymentMetrics now p st) empty_store ps in
  let rebuilt := reconcileMetrics now' schoolId a b ps empty_store in
  forall k, m_counters <$> daily counted !! (schoolId, k) = m_counters <$> daily rebuilt !! (schoolId, k) /\
            m_counters <$> monthly counted !! (schoolId, k) = m_counters <$> monthly rebuilt !! (schoolId, k).
Proof.
  intros Hps counted rebuilt k. destruct (reconcile_spec now' schoolId a b ps empty_store) as [Hd Hm].
  rewrite filterb_all in Hd, Hm by done. specialize (Hd k). specialize (Hm k). cbn [empty_store daily monthly] in Hd, Hm. rewrite lookup_empty in Hd, Hm.
  assert (Hs : Forall (fun p => p_schoolId p = schoolId) ps) by (eapply Forall_impl; [exact Hps|]; intros p Hp; by apply matches_spec in Hp as (? & _)).
  destruct (incs_hold now ps (schoolId, k)) as [Hd' Hm'].
  { eapply Forall_impl; [exact Hps|]. intros p Hp. by apply matches_spec in Hp as (_ & ? & ?). }
  rewrite keyed_group in Hd', Hm' by done. unfold holds in Hd', Hm'. subst counted rebuilt. rewrite Hd, Hm, Hd', Hm'.
  split; [destruct (group day_of ps k); reflexivity|]. destruct (group (fun p => month_of (day_of p)) ps k); reflexivity.
Qed.

(** ** The dashboard's collected amount *)

Inductive op := Increment (now : Z) (p : payment) | Reconcile (now : Z) (schoolId : string) (a b : Z) (payments : list payment).
Definition apply (st : store) (o : op) : store :=
  match o with
  | Increment now p => incrementPaymentMetrics now p st
  | Reconcile now schoolId a b payments => reconcileMetrics now schoolId a b payments st
  end.

Definition no_amount (m : gmap (string * Z) doc) : Prop := forall k d, m !! k = Some d -> m_totalAmount d = of_Z 0.
Lemma no_amount_default m k : no_amount m -> m_totalAmount (default fresh_doc (m !! k)) = of_Z 0.
Proof. intros H. destruct (m !! k) as [d|] eqn:E; [by apply (H k)|done]. Qed.
Lemma no_amount_insert m k d : no_amount m -> m_totalAmount d = of_Z 0 -> no_amount (<[k := d]> m).
Proof. intros H Hd k' d' [[_ <-]|[_ H']]%lookup_insert_Some; [done|by apply (H k')]. Qed.
Lemma no_amount_set_all now schoolId es m : no_amount m -> no_amount (set_all now schoolId es m).
Proof.
  unfold set_all. revert m. induction es as [|e es IH]; intros m H; cbn [foldl]; [done|]. apply IH. apply no_amount_insert; [done|]. by apply no_amount_default.
Qed.
Lemma no_amount_apply o st : no_amount (daily st) /\ no_amount (monthly st) -> no_amount (daily (apply st o)) /\ no_amount (monthly (apply st o)).
Proof.
  intros [Hd Hm]. destruct o as [now p|now schoolId a b payments]; cbn [apply].
  - unfold incrementPaymentMetrics. destruct (p_success p); [|done]. cbn [daily monthly]. split; (apply no_amount_insert; [done|]); by apply no_amount_default.
  - split; by apply no_amount_set_all.
Qed.

(** Nothing writes [totalAmount]: the amounts are incremented under a path the
    schema does not have.  The dashboard shows 0 collected, today and ever, whatever
    has been paid. *)
Theorem dashboard_always_zero ops now schoolId : let st := foldl apply empty_store ops in
  dashboard_collected schoolId st = of_Z 0 /\ (dashboard_today now schoolId st).1 = of_Z 0.
Proof.
  cbv zeta. assert (H : no_amount (daily (foldl apply empty_store ops)) /\ no_amount (monthly (foldl apply empty_store ops))).
  { assert (H0 : no_amount (daily empty_store) /\ no_amount (monthly empty_store)) by (split; intros k d; cbn; by rewrite lookup_empty).
    revert H0. generalize empty_store. induction ops as [|o ops IH]; intros st H0; [done|]. cbn [foldl]. apply IH. by apply no_amount_apply. }
  destruct H as [Hd Hm]. split.
  - unfold dashboard_collected, sum_amounts, docs_of.
    assert (Hz : Forall (fun kd : (string * Z) * doc => m_totalAmount kd.2 = of_Z 0) (map_to_list (monthly (foldl apply empty_store ops)))).
    { apply Forall_forall. intros [k d] Hk%elem_of_map_to_list. by apply (Hm k). }
    induction Hz as [|[k d] l Hx _ IH]; [done|]. cbn [List.filter fst snd]. case_bool_decide; [|done]. cbn [map foldl snd]. cbn in Hx. rewrite Hx.
    replace (num_add (of_Z 0) (of_Z 0)) with (of_Z 0) by (by vm_compute). done.
  - unfold dashboard_today. destruct (daily _ !! _) as [d|] eqn:E; [|done]. by apply (Hd (schoolId, _dayKey now)).
Qed.

(** ** Where the code departs from what it says *)

Definition paid (day : Z) (status : string) : payment :=
  Payment "SCH" "STU1" true false None (Some (day * DAY)) 0 (Some status) None (of_Z 1) None.

(** A rebuilding from the middle of a month overwrites the month with what is in its
    range: 10 January 1970 is day 9. *)
Theorem rebuilding_truncates_month :
  let st := foldl apply empty_store [Increment 0 (paid 2 "valid"); Increment 0 (paid 20 "valid")] in
  m_counters <$> monthly st !! ("SCH", 1970 * 12) = Some (Counters 2 2 0 0) /\
  m_counters <$> monthly (reconcileMetrics 0 "SCH" 9 40 [paid 2 "valid"; paid 20 "valid"] st) !! ("SCH", 1970 * 12) = Some (Counters 1 1 0 0).
Proof. split; by vm_compute. Qed.

(** A day whose payments are gone is not rebuilt. *)
Theorem emptied_day_keeps_counters now schoolId a b payments st d :
  group day_of (List.filter (matches schoolId (utc_range a b)) payments) d = [] ->
  m_counters <$> daily (reconcileMetrics now schoolId a b payments st) !! (schoolId, d) = m_counters <$> daily st !! (schoolId, d).
Proof. intros H. destruct (reconcile_spec now schoolId a b payments st) as [Hd _]. rewrite Hd. by rewrite H. Qed.

(** The stored statuses do not add up to the payments when one is partial. *)
Theorem stored_buckets_fall_short :
  m_counters <$> daily (incrementPaymentMetrics 0 (paid 2 "partial") empty_store) !! ("SCH", 2) = Some (Counters 1 0 0 0).
Proof. by vm_compute. Qed.

(** ** The scheduler runs once per interval *)

Section Spacing.
Context (RECONCILE_INTERVAL_MS : Z).

(** Checks at increasing times with runs that end before the next check. *)
Inductive checks : Z -> option Z -> list Z -> Prop :=
  | checks_nil t l : checks t l []
  | checks_skip t l now runs : t <= now -> due RECONCILE_INTERVAL_MS now l = false -> checks now l runs -> checks t l runs
  | checks_fail t l now runs : t <= now -> due RECONCILE_INTERVAL_MS now l = true -> checks now (_runIfDue RECONCILE_INTERVAL_MS now None l).1 runs -> checks t l runs
  | checks_run t l now ended runs : t <= now -> now <= ended -> due RECONCILE_INTERVAL_MS now l = true ->
      checks ended (_runIfDue RECONCILE_INTERVAL_MS now (Some ended) l).1 runs -> checks t l (now :: runs).

(** Successful runs start at least an interval apart, through any restarts. *)
Theorem runs_spaced t l runs : checks t l runs -> match l with Some last => forall r, head runs = Some r -> last + RECONCILE_INTERVAL_MS <= r | None => True end /\
  forall i r r', runs !! i = Some r -> runs !! S i = Some r' -> r + RECONCILE_INTERVAL_MS <= r'.
Proof.
  induction 1 as [t l|t l now runs Ht Hd Hc IH|t l now runs Ht Hd Hc IH|t l now ended runs Ht He Hd Hc IH].
  - split; [by destruct l|done].
  - done.
  - unfold _runIfDue in IH. rewrite Hd in IH. done.
  - unfold _runIfDue in IH. rewrite Hd in IH. cbn [fst] in IH. destruct IH as [IH1 IH2]. split.
    + destruct l as [last|]; [|done]. intros r [= <-]. unfold due in Hd. apply negb_true_iff, Z.ltb_ge in Hd. lia.
    + intros [|i] r r' Hr Hr'; [|by apply (IH2 i)]. cbn in Hr, Hr'. injection Hr as <-. destruct runs as [|x runs]; [done|]. cbn in Hr'. injection Hr' as <-.
      specialize (IH1 x eq_refl). lia.
Qed.
End Spacing.

Lemma increments_equal_rebuild_witness :
  m_counters <$> monthly (foldl (fun st p => incrementPaymentMetrics 0 p st) empty_store [paid 2 "valid"; paid 3 "partial"]) !! ("SCH", 1970 * 12)
  = m_counters <$> monthly (reconcileMetrics 5 "SCH" 0 30 [paid 2 "valid"; paid 3 "partial"] empty_store) !! ("SCH", 1970 * 12).
Proof. apply (increments_equal_rebuild 0 5 "SCH" 0 30 [paid 2 "valid"; paid 3 "partial"]). repeat constructor. Defined.

End Rollups.
