(* ===== verification/Workers.v ===== *)
(** Workers: the heartbeat registry of backend/src/services/workerHeartbeat.js and the
    verdict the health check of backend/src/controllers/healthController.js makes of
    it. *)

From Stdlib Require Import ZArith Lia.
From stdpp Require Import base strings gmap list.
From S2P Require Import Prelude.
Local Open Scope string_scope.
Local Open Scope Z_scope.
Local Open Scope list_scope.

Module Workers.

Record config := Config { expectedIntervalMs : Z; gracePeriodMs : Z }.
Record entry := Entry { startedAt : Z; lastBeat : option Z }.
Abbreviation registry := (gmap string entry).

Definition WORKER_NAMES : list string :=
  ["polling_sync"; "retry_worker"; "consistency_scheduler"; "reminder_scheduler"; "tx_queue_worker"; "job_recovery_scheduler"; "horizon_streaming"].
(** The configuration with the defaults of the environment. *)
Definition WORKER_CONFIG : list (string * config) :=
  [("polling_sync", Config 30000 60000); ("retry_worker", Config 60000 60000); ("consistency_scheduler", Config 300000 60000);
   ("reminder_scheduler", Config 86400000 120000); ("tx_queue_worker", Config 300000 120000); ("job_recovery_scheduler", Config 60000 60000)].

Definition ping (now : Z) (name : string) (r : registry) : registry :=
  <[name := Entry (match r !! name with Some e => startedAt e | None => now end) (Some now)]> r.
Definition markStarted (now : Z) (name : string) (r : registry) : registry :=
  match r !! name with Some _ => r | None => <[name := Entry now None]> r end.
Definition markStopped (name : string) (r : registry) : registry := delete name r.

Inductive status := NotStarted | Starting | Healthy | Stale (byMs : Z).
Definition threshold (c : config) : Z := expectedIntervalMs c + gracePeriodMs c.
Definition worker_status (now : Z) (c : config) (e : option entry) : status :=
  match e with
  | None => NotStarted
  | Some e =>
    match lastBeat e with
    | None => if now - startedAt e <? gracePeriodMs c then Starting else Stale (now - startedAt e - gracePeriodMs c)
    | Some t => if threshold c <? now - t then Stale (now - t - threshold c) else Healthy
    end
  end.
Definition healthy_status (s : status) : bool := match s with Healthy | Starting => true | _ => false end.

Definition checkLiveness (now : Z) (cfg : list (string * config)) (r : registry) : bool * list (string * status) :=
  let workers := map (fun nc => (nc.1, worker_status now nc.2 (r !! nc.1))) cfg in
  (forallb (fun ws => healthy_status ws.2) workers, workers).

(** ** The verdict of the health check *)

Inductive overall := OverallHealthy | OverallDegraded | OverallUnhealthy.
Definition http_status (o : overall) : Z := match o with OverallUnhealthy => 503 | _ => 200 end.

(** [before] is the verdict of the checks that come earlier. *)
Definition health_workers (pollIntervalMs now : Z) (cfg : list (string * config)) (r : registry) (before : overall) : overall :=
  let o := if (checkLiveness now cfg r).1 then before else OverallUnhealthy in
  match r !! "tx_queue_worker" ≫= lastBeat with
  | None => o
  | Some t =>
    if pollIntervalMs * 5 <? now - t then OverallUnhealthy
    else if (pollIntervalMs * 2 <? now - t) && match o with OverallHealthy => true | _ => false end then OverallDegraded else o
  end.

(** ** Histories *)

Inductive event := Ping (name : string) | Started (name : string) | Stopped (name : string).
Definition exec (r : registry) (x : Z * event) : registry :=
  match x.2 with Ping n => ping x.1 n r | Started n => markStarted x.1 n r | Stopped n => markStopped n r end.
Definition run (h : list (Z * event)) : registry := foldl exec ∅ h.

Definition concerns (name : string) (ev : event) : bool :=
  match ev with Ping n | Started n | Stopped n => bool_decide (n = name) end.
(** The last beat a history tells of, since the worker was last stopped. *)
Definition beat_step (name : string) (b : option Z) (x : Z * event) : option Z :=
  match x.2 with
  | Ping n => if bool_decide (n = name) then Some x.1 else b
  | Stopped n => if bool_decide (n = name) then None else b
  | Started _ => b
  end.
Definition last_beat (name : string) (h : list (Z * event)) : option Z := foldl (beat_step name) None h.

(** The registry holds the last beat of every worker. *)
Lemma run_beat name h : run h !! name ≫= lastBeat = last_beat name h.
Proof.
  unfold run, last_beat. induction h as [|[t ev] h IH] using rev_ind; [done|]. rewrite !foldl_app. cbn [foldl]. set (r := foldl exec ∅ h) in *. clearbody r.
  unfold exec, beat_step. cbn [fst snd]. destruct ev as [n|n|n].
  - unfold ping. case_bool_decide as Hn; [subst; by rewrite lookup_insert_eq|by rewrite lookup_insert_ne].
  - unfold markStarted. destruct (r !! n) as [e|] eqn:E; [done|]. destruct (decide (n = name)) as [->|]; [|by rewrite lookup_insert_ne].
    rewrite lookup_insert_eq. cbn. by rewrite E in IH.
  - unfold markStopped. case_bool_decide as Hn; [subst; by rewrite lookup_delete_eq|by rewrite lookup_delete_ne].
Qed.

(** Once a worker has beaten, it is reported healthy exactly while its last beat is
    within its interval and grace, and stale by what it is over. *)
Theorem liveness_exact name c h t now : last_beat name h = Some t ->
  worker_status now c (run h !! name) = if threshold c <? now - t then Stale (now - t - threshold c) else Healthy.
Proof.
  intros H. rewrite <-run_beat in H. unfold worker_status. destruct (run h !! name) as [e|]; [|done]. cbn in H. by rewrite H.
Qed.

(** ** Where the code departs from what it says *)

(** Before its first beat a worker has only the grace, not its interval: the
    reminder scheduler, which beats once a day, is stale two minutes after the start. *)
Theorem first_beat_gets_no_interval name c h now e : run h !! name = Some e -> lastBeat e = None -> gracePeriodMs c <= now - startedAt e ->
  worker_status now c (run h !! name) = Stale (now - startedAt e - gracePeriodMs c).
Proof. intros H Hb Hg. unfold worker_status. rewrite H, Hb. by rewrite (proj2 (Z.ltb_ge _ _)). Qed.

(** A worker that is not started in this process makes every health check fail. *)
Theorem unstarted_worker_unhealthy now cfg r name c : (name, c) ∈ cfg -> r !! name = None -> (checkLiveness now cfg r).1 = false.
Proof.
  intros Hin Hn. unfold checkLiveness. cbn [fst]. apply not_true_iff_false. rewrite forallb_forall. intros H.
  specialize (H (name, worker_status now c (r !! name))). rewrite Hn in H. discriminate H. apply in_map_iff. exists (name, c).
  split; [cbn; by rewrite Hn|]. by apply list_elem_of_In.
Qed.

(** The streaming worker is registered but never looked at. *)
Theorem streaming_never_checked : ("horizon_streaming" ∈ WORKER_NAMES) /\ ("horizon_streaming" ∉ map fst WORKER_CONFIG).
Proof. split; by_decision. Qed.

(** A queue that is quiet for five poll intervals is answered 503, though the
    registry allows it five minutes and its grace. *)
Theorem quiet_queue_unhealthy pollIntervalMs now cfg r t before : r !! "tx_queue_worker" ≫= lastBeat = Some t -> pollIntervalMs * 5 < now - t ->
  http_status (health_workers pollIntervalMs now cfg r before) = 503.
Proof. intros H Hq. unfold health_workers. rewrite H. by rewrite (proj2 (Z.ltb_lt _ _)). Qed.

End Workers.
