(* ===== verification/FieldCrypto.v ===== *)
(** Secrets at rest: backend/src/services/webhookSecretEncryption.js,
    services/studentPiiEncryption.js and utils/signerKeyManager.js, the model
    hooks that call them (models/studentModel.js, disputeModel.js,
    webhookEndpointModel.js) and the migrations that encrypt what was stored
    before (migrations/021, 029 and 030).

    AES-256-GCM is a class of operations with its laws.  Node's hexadecimal
    and base64 decoders are written out, because which of the two a value is
    read with is what makes it readable.  Text is a list of bytes, so the
    conversions from and to UTF-8 are the identity. *)

From Stdlib Require Import Ascii ZArith Lia.
From stdpp Require Import base strings gmap list.
From S2P Require Import Prelude JsString.
Local Open Scope string_scope.
Local Open Scope Z_scope.
Local Open Scope list_scope.

(** ** Hexadecimal and base64 *)
Module Codec.

Abbreviation bytes := (list ascii).

Definition hex_digit (n : Z) : ascii := if n <? 10 then chr (48 + n) else chr (87 + n).

Definition hex_value (c : ascii) : option Z :=
  let z := code c in
  if (48 <=? z) && (z <=? 57) then Some (z - 48)
  else if (97 <=? z) && (z <=? 102) then Some (z - 87)
  else if (65 <=? z) && (z <=? 70) then Some (z - 55) else None.

(** [buf.toString('hex')] *)
Definition to_hex (l : bytes) : list ascii :=
  concat (map (fun c => [hex_digit (code c / 16); hex_digit (code c mod 16)]) l).

(** [Buffer.from(text, 'hex')]: pairs of digits up to the first that is not
    one. *)
Fixpoint of_hex (l : list ascii) : bytes :=
  match l with
  | a :: b :: l' =>
    match hex_value a, hex_value b with
    | Some x, Some y => chr (16 * x + y) :: of_hex l'
    | _, _ => []
    end
  | _ => []
  end.

(** The sixty-four letters, and the two that differ in base64url. *)
Definition b64_letter (url : bool) (n : Z) : ascii :=
  if n <? 26 then chr (65 + n) else if n <? 52 then chr (71 + n) else if n <? 62 then chr (n - 4)
  else if n =? 62 then (if url then "-"%char else "+"%char) else (if url then "_"%char else "/"%char).

(** Decoding knows both alphabets. *)
Definition b64_value (c : ascii) : option Z :=
  let z := code c in
  if (65 <=? z) && (z <=? 90) then Some (z - 65)
  else if (97 <=? z) && (z <=? 122) then Some (z - 71)
  else if (48 <=? z) && (z <=? 57) then Some (z + 4)
  else if (z =? 43) || (z =? 45) then Some 62
  else if (z =? 47) || (z =? 95) then Some 63 else None.

Fixpoint sextets (l : list Z) : list Z :=
  match l with
  | a :: b :: c :: l' => a / 4 :: (a mod 4) * 16 + b / 16 :: (b mod 16) * 4 + c / 64 :: c mod 64 :: sextets l'
  | [a; b] => [a / 4; (a mod 4) * 16 + b / 16; (b mod 16) * 4]
  | [a] => [a / 4; (a mod 4) * 16]
  | [] => []
  end.

Fixpoint octets (l : list Z) : list Z :=
  match l with
  | p :: q :: r :: s :: l' =>
    p * 4 + q / 16 :: (q mod 16) * 16 + r / 4 :: (r mod 4) * 64 + s :: octets l'
  | [p; q; r] => [p * 4 + q / 16; (q mod 16) * 16 + r / 4]
  | [p; q] => [p * 4 + q / 16]
  | _ => []
  end.

Definition b64_padding (l : bytes) : list ascii :=
  match (length l mod 3)%nat with 1%nat => ["="; "="]%char | 2%nat => ["="]%char | _ => [] end.

(** [buf.toString('base64url')] has no padding. *)
Definition to_base64url (l : bytes) : list ascii := map (b64_letter true) (sextets (map code l)).
Definition to_base64 (l : bytes) : list ascii := map (b64_letter false) (sextets (map code l)) ++ b64_padding l.

(** [Buffer.from(text, 'base64')] and ['base64url']: up to a padding
    character, other characters skipped. *)
Fixpoint b64_values (l : list ascii) : list Z :=
  match l with
  | [] => []
  | c :: l' => if bool_decide (c = "="%char) then []
               else match b64_value c with Some v => v :: b64_values l' | None => b64_values l' end
  end.

Definition of_base64 (l : list ascii) : bytes := map chr (octets (b64_values l)).

(** *** Round trips *)

Lemma hex_value_digit n : 0 <= n < 16 -> hex_value (hex_digit n) = Some n.
Proof.
  intros H. unfold hex_value, hex_digit. destruct (Z.ltb_spec n 10); rewrite code_chr by lia; zbool; f_equal; lia.
Qed.

Lemma of_to_hex l : of_hex (to_hex l) = l.
Proof.
  induction l as [|c l IH]; [done|]. pose proof (code_range c) as Hc.
  unfold to_hex in *. cbn [map concat app of_hex].
  rewrite !hex_value_digit by (split; [apply Z.div_pos || apply Z.mod_pos_bound|apply Z.div_lt_upper_bound || apply Z.mod_pos_bound]; lia).
  rewrite IH. f_equal. rewrite <- (chr_code c) at 3. f_equal. pose proof (Z.div_mod (code c) 16). lia.
Qed.

Lemma b64_value_letter url n : 0 <= n < 64 -> b64_value (b64_letter url n) = Some n /\ b64_letter url n <> "="%char.
Proof.
  intros H. assert (Hall : forallb (fun n => match b64_value (b64_letter url (Z.of_nat n)) with
     | Some v => (v =? Z.of_nat n) && negb (bool_decide (b64_letter url (Z.of_nat n) = "="%char)) | None => false end) (seq 0 64) = true)
    by (destruct url; vm_compute; reflexivity).
  rewrite forallb_forall in Hall. specialize (Hall (Z.to_nat n)). rewrite Z2Nat.id in Hall by lia.
  specialize (Hall ltac:(apply List.in_seq; lia)).
  destruct (b64_value _) as [v|]; [|done]. apply andb_prop in Hall as [E1 E2]. apply Z.eqb_eq in E1 as ->.
  apply negb_true_iff, bool_decide_eq_false in E2. done.
Qed.

Lemma b64_values_letters url l rest : Forall (fun n => 0 <= n < 64) l ->
  b64_values (map (b64_letter url) l ++ rest) = l ++ b64_values rest.
Proof.
  induction 1 as [|n l Hn _ IH]; [done|]. cbn [map app b64_values].
  destruct (b64_value_letter url n Hn) as [-> Hne]. rewrite bool_decide_eq_false_2 by done. by rewrite IH.
Qed.

(** Induction three at a time. *)
Lemma list_ind3 {A} (P : list A -> Prop) :
  P [] -> (forall a, P [a]) -> (forall a b, P [a; b]) -> (forall a b c l, P l -> P (a :: b :: c :: l)) -> forall l, P l.
Proof.
  intros H0 H1 H2 H3. fix IH 1. intros [|a [|b [|c l]]]; [exact H0|apply H1|apply H2|apply H3, IH].
Qed.

Lemma sextets_range l : Forall (fun z => 0 <= z < 256) l -> Forall (fun n => 0 <= n < 64) (sextets l).
Proof.
  induction l as [|a|a b|a b c l IH] using list_ind3; intros H; decompose_Forall_hyps; cbn [sextets].
  - constructor.
  - repeat constructor; Z.div_mod_to_equations; lia.
  - repeat constructor; Z.div_mod_to_equations; lia.
  - repeat (constructor; [Z.div_mod_to_equations; lia|]). by apply IH.
Qed.

Lemma octets_sextets l : Forall (fun z => 0 <= z < 256) l -> octets (sextets l) = l.
Proof.
  induction l as [|a|a b|a b c l IH] using list_ind3; intros H; decompose_Forall_hyps; cbn [sextets octets]; [done|..].
  - f_equal. Z.div_mod_to_equations; lia.
  - f_equal; [|f_equal]; Z.div_mod_to_equations; lia.
  - rewrite IH by done. f_equal; [|f_equal; [|f_equal]]; Z.div_mod_to_equations; lia.
Qed.

Lemma codes_range l : Forall (fun z => 0 <= z < 256) (map code l).
Proof. induction l; constructor; [apply code_range|done]. Qed.

Lemma chr_codes l : map chr (map code l) = l.
Proof. induction l as [|c l IH]; [done|]. cbn. by rewrite chr_code, IH. Qed.

Lemma of_to_base64url l : of_base64 (to_base64url l) = l.
Proof.
  unfold of_base64, to_base64url. rewrite <- (app_nil_r (map (b64_letter true) _)), b64_values_letters by apply sextets_range, codes_range.
  cbn. rewrite app_nil_r, octets_sextets by apply codes_range. apply chr_codes.
Qed.

Lemma of_to_base64 l : of_base64 (to_base64 l) = l.
Proof.
  unfold of_base64, to_base64. rewrite b64_values_letters by apply sextets_range, codes_range.
  replace (b64_values (b64_padding l)) with (@nil Z) by (unfold b64_padding; by destruct (length l mod 3)%nat as [|[|[|]]]).
  rewrite app_nil_r, octets_sextets by apply codes_range. apply chr_codes.
Qed.

(** Lower case is the normal form of hexadecimal text. *)
Lemma lower_hex_digit n : 0 <= n < 16 -> lower (hex_digit n) = hex_digit n.
Proof. intros H. unfold lower, hex_digit. destruct (Z.ltb_spec n 10); rewrite code_chr by lia; zbool. Qed.

Lemma hex_digit_visible n : 0 <= n < 16 -> is_space (hex_digit n) = false.
Proof. intros H. unfold is_space, hex_digit. destruct (Z.ltb_spec n 10); rewrite code_chr by lia; zbool. Qed.

Lemma lower_to_hex l : map lower (to_hex l) = to_hex l.
Proof.
  unfold to_hex. induction l as [|c l IH]; [done|]. pose proof (code_range c). cbn [map concat app]. rewrite IH.
  rewrite !lower_hex_digit by (Z.div_mod_to_equations; lia). done.
Qed.
End Codec.

(** ** AES-256-GCM *)
Module FieldCrypto.
Import Codec.

Class Gcm := {
  gcm_seal : bytes -> bytes -> bytes -> bytes * bytes;          (** key, iv, plaintext: ciphertext and tag *)
  gcm_open : bytes -> bytes -> bytes -> bytes -> option bytes;  (** key, iv, tag, ciphertext; [None] throws *)
  gcm_tag_length : forall k iv p, length (gcm_seal k iv p).2 = 16%nat;
  gcm_text_length : forall k iv p, length (gcm_seal k iv p).1 = length p;
  gcm_open_seal : forall k iv p, gcm_open k iv (gcm_seal k iv p).2 (gcm_seal k iv p).1 = Some p }.

Inductive crypto_error :=
  KEY_REQUIRED | BAD_KEY | BAD_PREVIOUS_KEY | AUTH_FAILED | BAD_SEED | BAD_BLOB | TOO_SHORT | BAD_SOURCE | NO_SECRET_ID | FETCH_FAILED
| NOT_DECRYPTED.

Definition IV_LENGTH : nat := 12.
Definition TAG_LENGTH : nat := 16.
Definition ENC_PREFIX : list ascii := chars "enc:".

Definition isEncrypted (s : string) : bool := starts_with ENC_PREFIX (chars s).

(** [/^[0-9a-fA-F]{64}$/] *)
Definition is_key (hex : string) : bool :=
  (length (chars hex) =? 64)%nat && forallb (fun c => bool_decide (is_Some (hex_value c))) (chars hex).

Definition env_text (o : option string) : option string :=
  match o with Some s => if str_truthy s then Some s else None | None => None end.

(** The variables the two services read. *)
Record env := Env {
  NODE_ENV : option string; ALLOW_PLAINTEXT_PII : option string;
  WEBHOOK_SECRET_ENCRYPTION_KEY : option string; WEBHOOK_KEY_OLD : option string; WEBHOOK_KEY_PREVIOUS : option string;
  STUDENT_PII_ENCRYPTION_KEY : option string; STUDENT_PII_KEY_PREVIOUS : option string
}.

Definition production (e : env) : bool := bool_decide (NODE_ENV e = Some "production").
Definition plaintext_allowed (e : env) : bool := bool_decide (ALLOW_PLAINTEXT_PII e = Some "true").

Section Services.
Context `{G : Gcm}.

(** The three parts of a stored value. *)
Definition open_parts (buf key : bytes) : option bytes :=
  gcm_open key (take IV_LENGTH buf) (drop (length buf - TAG_LENGTH) buf)
    (take (length buf - TAG_LENGTH - IV_LENGTH) (drop IV_LENGTH buf)).

Definition sealed_value (key iv : bytes) (plaintext : string) : bytes :=
  let '(c, tag) := gcm_seal key iv (chars plaintext) in iv ++ c ++ tag.

(** *** Webhook secrets *)

Definition _assertKeyConfiguredInProduction (e : env) : result crypto_error unit :=
  if negb (production e) then Ok tt
  else if bool_decide (is_Some (env_text (WEBHOOK_SECRET_ENCRYPTION_KEY e))) then Ok tt
  else if plaintext_allowed e then Ok tt else Throw KEY_REQUIRED.

Definition webhook_getKey (e : env) : result crypto_error (option bytes) :=
  match env_text (WEBHOOK_SECRET_ENCRYPTION_KEY e) with
  | None => _ ← _assertKeyConfiguredInProduction e; Ok None
  | Some hex => if is_key hex then Ok (Some (of_hex (chars hex))) else Throw BAD_KEY
  end.

Definition webhook_getPreviousKey (e : env) : result crypto_error (option bytes) :=
  match (match env_text (WEBHOOK_KEY_OLD e) with Some h => Some h | None => env_text (WEBHOOK_KEY_PREVIOUS e) end) with
  | None => Ok None
  | Some hex => if is_key hex then Ok (Some (of_hex (chars hex))) else Throw BAD_PREVIOUS_KEY
  end.

Definition webhook_isEncryptionEnabled (e : env) : bool := bool_decide (is_Some (env_text (WEBHOOK_SECRET_ENCRYPTION_KEY e))).

Definition isPlaintextFallbackActive (e : env) : bool :=
  production e && negb (webhook_isEncryptionEnabled e) && plaintext_allowed e.

Definition encryptWebhookSecret (e : env) (iv : bytes) (plaintext : string) : result crypto_error string :=
  if negb (str_truthy plaintext) then Ok plaintext
  else if isEncrypted plaintext then Ok plaintext
  else
    k ← webhook_getKey e;
    match k with
    | None => Ok plaintext
    | Some key => Ok (text (ENC_PREFIX ++ to_base64url (sealed_value key iv plaintext)))
    end.

(** The previous key is only looked at when the current one fails, and a
    malformed one then makes the call throw. *)
Definition decryptWebhookSecret (e : env) (value : string) : result crypto_error string :=
  if negb (str_truthy value) then Ok value
  else if negb (isEncrypted value) then Ok value
  else
    k ← webhook_getKey e;
    match k with
    | None => Ok value
    | Some key =>
      let buf := of_base64 (drop 4 (chars value)) in
      if (length buf <? IV_LENGTH + 1 + TAG_LENGTH)%nat then Ok value
      else match open_parts buf key with
           | Some p => Ok (text p)
           | None =>
             k' ← webhook_getPreviousKey e;
             match k' with
             | None => Ok value
             | Some previousKey => match open_parts buf previousKey with Some p => Ok (text p) | None => Ok value end
             end
           end
    end.

(** *** Parents' contacts *)

Definition _parseKey (hex : option string) (err : crypto_error) : result crypto_error (option bytes) :=
  match env_text hex with
  | None => Ok None
  | Some h => if is_key h then Ok (Some (of_hex (chars h))) else Throw err
  end.

Definition pii_getKey (e : env) : result crypto_error (option bytes) := _parseKey (STUDENT_PII_ENCRYPTION_KEY e) BAD_KEY.
Definition pii_getPreviousKey (e : env) : result crypto_error (option bytes) := _parseKey (STUDENT_PII_KEY_PREVIOUS e) BAD_PREVIOUS_KEY.

Definition pii_isEncryptionEnabled (e : env) : result crypto_error bool :=
  key ← pii_getKey e;
  match key with
  | Some _ => Ok true
  | None => if production e && negb (plaintext_allowed e) then Throw KEY_REQUIRED else Ok false
  end.

Definition encryptStudentPii (e : env) (iv : bytes) (plaintext : string) : result crypto_error string :=
  if negb (str_truthy plaintext) then Ok plaintext
  else if isEncrypted plaintext then Ok plaintext
  else
    k ← pii_getKey e;
    match k with
    | None => _ ← pii_isEncryptionEnabled e; Ok plaintext
    | Some key => Ok (text (ENC_PREFIX ++ to_hex (sealed_value key iv plaintext)))
    end.

Fixpoint first_opening (buf : bytes) (keys : list bytes) : option bytes :=
  match keys with
  | [] => None
  | k :: keys' => match open_parts buf k with Some p => Some p | None => first_opening buf keys' end
  end.

(** The previous key is parsed before any key is tried. *)
Definition decryptStudentPii (e : env) (value : string) : result crypto_error string :=
  if negb (str_truthy value) then Ok value
  else if negb (isEncrypted value) then Ok value
  else
    k ← pii_getKey e;
    match k with
    | None => _ ← pii_isEncryptionEnabled e; Ok value
    | Some key =>
      let buf := of_hex (drop 4 (chars value)) in
      if (length buf <? IV_LENGTH + 1 + TAG_LENGTH)%nat then Ok value
      else
        k' ← pii_getPreviousKey e;
        Ok (match first_opening buf (key :: match k' with Some p => [p] | None => [] end) with
            | Some p => text p | None => value end)
    end.

(** *** The hooks of the models *)

(** A document in memory; the flags are [isModified]. *)
Record contact := Contact {
  parentEmail : option string; parentPhone : option string; parentEmailHash : option string;
  modifiedEmail : bool; modifiedPhone : bool
}.

(** The setters of the schema: [trim], and [lowercase] for the address. *)
Definition set_parentEmail (s : string) (d : contact) : contact :=
  let v := toLowerCase (str_trim s) in
  Contact (Some v) (parentPhone d) (parentEmailHash d) (modifiedEmail d || negb (bool_decide (parentEmail d = Some v))) (modifiedPhone d).
Definition set_parentPhone (s : string) (d : contact) : contact :=
  let v := str_trim s in
  Contact (parentEmail d) (Some v) (parentEmailHash d) (modifiedEmail d) (modifiedPhone d || negb (bool_decide (parentPhone d = Some v))).
Definition set_parentEmailHash (h : option string) (d : contact) : contact :=
  Contact (parentEmail d) (parentPhone d) h (modifiedEmail d) (modifiedPhone d).

Variable hash : string -> option string.   (** [hashParentEmail] *)

Definition contact_pre_save (e : env) (iv1 iv2 : bytes) (d : contact) : result crypto_error contact :=
  d1 ← match parentEmail d with
       | Some email => if modifiedEmail d then c ← encryptStudentPii e iv1 email; Ok (set_parentEmail c (set_parentEmailHash (hash email) d)) else Ok d
       | None => Ok d
       end;
  match parentPhone d1 with
  | Some phone => if modifiedPhone d1 then c ← encryptStudentPii e iv2 phone; Ok (set_parentPhone c d1) else Ok d1
  | None => Ok d1
  end.

(** [post('save')] and [post('init')] have the same body. *)
Definition contact_decrypt (e : env) (d : contact) : result crypto_error contact :=
  d1 ← match parentEmail d with Some v => p ← decryptStudentPii e v; Ok (set_parentEmail p d) | None => Ok d end;
  match parentPhone d1 with Some v => p ← decryptStudentPii e v; Ok (set_parentPhone p d1) | None => Ok d1 end.

(** What is stored by a save, and what a later load hands out. *)
Definition contact_load (e : env) (stored : contact) : result crypto_error contact :=
  contact_decrypt e (Contact (parentEmail stored) (parentPhone stored) (parentEmailHash stored) false false).

(** The contact fields of a dispute. *)
Definition raiser_setter (s : string) : string := str_trim s.

Fixpoint dispute_pre_save (e : env) (fields : list (option string * bool * bytes)) : result crypto_error (list (option string)) :=
  match fields with
  | [] => Ok []
  | (v, modified, iv) :: rest =>
    v' ← match v with
         | Some s => if modified then c ← encryptStudentPii e iv s; Ok (Some (raiser_setter c)) else Ok (Some s)
         | None => Ok None
         end;
    rest' ← dispute_pre_save e rest; Ok (v' :: rest')
  end.

Fixpoint _decryptContact (e : env) (fields : list (option string)) : result crypto_error (list (option string)) :=
  match fields with
  | [] => Ok []
  | v :: rest =>
    v' ← match v with Some s => p ← decryptStudentPii e s; Ok (Some (raiser_setter p)) | None => Ok None end;
    rest' ← _decryptContact e rest; Ok (v' :: rest')
  end.

(** The two secrets of a webhook endpoint: saving and loading. *)
Definition endpoint_pre_save (e : env) (iv1 iv2 : bytes) (modSecret modPrevious : bool) (secret previous : option string)
    : result crypto_error (option string * option string) :=
  s ← match secret with Some v => if modSecret then Some <$> encryptWebhookSecret e iv1 v else Ok (Some v) | None => Ok None end;
  p ← match previous with Some v => if modPrevious then Some <$> encryptWebhookSecret e iv2 v else Ok (Some v) | None => Ok None end;
  Ok (s, p).

Definition decryptLeanEndpoint (e : env) (secret previous : option string) : result crypto_error (option string * option string) :=
  s ← match secret with Some v => Some <$> decryptWebhookSecret e v | None => Ok None end;
  p ← match previous with Some v => Some <$> decryptWebhookSecret e v | None => Ok None end;
  Ok (s, p).
End Services.

(** ** Signing keys *)

Section Signer.
Context `{G : Gcm}.
(** [StrKey.isValidEd25519SecretSeed] of the Stellar SDK. *)
Variable isValidEd25519SecretSeed : string -> bool.

(** The module variable and the two environment variables. *)
Record signer := Signer { _cachedMasterKeyHex : option string; SIGNER_MASTER_KEY : option string; SIGNER_MASTER_KEY_OLD : option string }.

Definition master_hex (s : signer) : option string :=
  match env_text (_cachedMasterKeyHex s) with Some h => Some h | None => env_text (SIGNER_MASTER_KEY s) end.

Definition getMasterKey (s : signer) : result crypto_error bytes :=
  match master_hex s with
  | None => Throw KEY_REQUIRED
  | Some hex => if is_key hex then Ok (of_hex (chars hex)) else Throw BAD_KEY
  end.

Definition isMasterKeyConfigured (s : signer) : bool :=
  match master_hex s with Some hex => is_key hex | None => false end.

(** What a secrets provider answered, parsed: not JSON, JSON that is no
    object, or an object with its two properties. *)
Inductive parsed := NotJson | NoObject | KeyObject (named key : option string).

Definition _extractHexFromRaw (JSON_parse : string -> parsed) (raw : option string) : string :=
  let trimmed := str_trim (default "" raw) in
  match JSON_parse trimmed with
  | KeyObject a b => str_trim (match env_text a with Some x => x | None => default "" (env_text b) end)
  | _ => trimmed
  end.

Record key_source := KeySource { SIGNER_KEY_SOURCE : option string; SIGNER_MASTER_KEY_SECRET_ID : option string; SIGNER_MASTER_KEY_HTTP_URL : option string }.

(** [fetched]: the provider's answer, [None] when the request fails.  The
    answer is cached before it is validated. *)
Definition initializeMasterKey (JSON_parse : string -> parsed) (src : key_source) (fetched : option (option string)) (s : signer)
    : result crypto_error unit * signer :=
  let source := toLowerCase (default "env" (env_text (SIGNER_KEY_SOURCE src))) in
  let accept :=
    match fetched with
    | None => (Throw FETCH_FAILED, s)
    | Some raw =>
      let hex := _extractHexFromRaw JSON_parse raw in
      let s' := Signer (Some hex) (SIGNER_MASTER_KEY s) (SIGNER_MASTER_KEY_OLD s) in
      (if is_key hex then Ok tt else Throw BAD_KEY, s')
    end in
  if (source =? "env")%string then (Ok tt, s)
  else if (source =? "aws_secrets_manager")%string then
    match env_text (SIGNER_MASTER_KEY_SECRET_ID src) with None => (Throw NO_SECRET_ID, s) | Some _ => accept end
  else if (source =? "http")%string then
    match env_text (SIGNER_MASTER_KEY_HTTP_URL src) with None => (Throw NO_SECRET_ID, s) | Some _ => accept end
  else (Throw BAD_SOURCE, s).

Definition encryptSecretKey (s : signer) (iv : bytes) (secretKey : string) : result crypto_error string :=
  if negb (isValidEd25519SecretSeed secretKey) then Throw BAD_SEED
  else key ← getMasterKey s; Ok (text (to_base64 (sealed_value key iv secretKey))).

Definition decryptSecretKey (s : signer) (encryptedBlob : string) : result crypto_error string :=
  if negb (str_truthy encryptedBlob) then Throw BAD_BLOB
  else
    let buf := of_base64 (chars encryptedBlob) in
    if (length buf <? IV_LENGTH + 1 + TAG_LENGTH)%nat then Throw TOO_SHORT
    else
      key ← getMasterKey s;
      p ← of_option (open_parts buf key) AUTH_FAILED;
      if isValidEd25519SecretSeed (text p) then Ok (text p) else Throw BAD_SEED.

(** Assigning [undefined] to a variable of [process.env] stores the text. *)
Definition env_assign (v : option string) : option string := Some (default "undefined" v).

Definition reEncryptSecretKey (s : signer) (iv : bytes) (oldEncryptedBlob : string) : result crypto_error string * signer :=
  match env_text (SIGNER_MASTER_KEY_OLD s) with
  | None => (Throw KEY_REQUIRED, s)
  | Some oldKeyHex =>
    if negb (is_key oldKeyHex) then (Throw BAD_PREVIOUS_KEY, s)
    else
      let overridden := Signer None (Some oldKeyHex) (SIGNER_MASTER_KEY_OLD s) in
      let restored := Signer (_cachedMasterKeyHex s) (env_assign (SIGNER_MASTER_KEY s)) (SIGNER_MASTER_KEY_OLD s) in
      (secretKey ← decryptSecretKey overridden oldEncryptedBlob; encryptSecretKey restored iv secretKey, restored)
  end.
End Signer.

(** ** The migrations *)

Section Migrations.
Context `{G : Gcm}.

(** Migrations 021 and 029 have functions of their own, both base64url. *)
Definition migration_encrypt (plaintext : string) (key iv : bytes) : string :=
  text (ENC_PREFIX ++ to_base64url (sealed_value key iv plaintext)).

(** No length test: a tag shorter than sixteen bytes is refused, a wrong one
    does not authenticate. *)
Definition migration_decrypt (value : string) (key : bytes) : result crypto_error string :=
  if negb (isEncrypted value) then Ok value
  else
    let buf := of_base64 (drop 4 (chars value)) in
    if (length buf <? TAG_LENGTH)%nat then Throw AUTH_FAILED
    else p ← of_option (open_parts buf key) AUTH_FAILED; Ok (text p).

(** Migration 021 on the stored secrets of schools: encrypt, skip. *)
Definition up_021 (key : option bytes) (secrets : list (bytes * option string)) : list (option string) :=
  map (fun x => match key, x.2 with
                | Some k, Some v => if isEncrypted v then Some v else Some (migration_encrypt v k x.1)
                | _, o => o
                end) secrets.

Fixpoint down_021 (key : bytes) (secrets : list (option string)) : list (option string) * option crypto_error :=
  match secrets with
  | [] => ([], None)
  | s :: rest =>
    match s with
    | Some v => if isEncrypted v
                then match migration_decrypt v key with
                     | Ok p => let '(r, e) := down_021 key rest in (Some p :: r, e)
                     | Throw e => (s :: rest, Some e)
                     end
                else let '(r, e) := down_021 key rest in (s :: r, e)
    | None => let '(r, e) := down_021 key rest in (s :: r, e)
    end
  end.

(** A student as stored. *)
Record raw_student := RawStudent { rs_email : option string; rs_phone : option string; rs_hash : option string }.

Variable _hashEmail : string -> string.

Definition up_029_student (key : option bytes) (iv1 iv2 : bytes) (st : raw_student) : result crypto_error raw_student :=
  '(email', hash') ←
    match env_text (rs_email st) with
    | Some email =>
      plaintext ← (match key with Some k => if isEncrypted email then migration_decrypt email k else Ok email | None => Ok email end);
      Ok (match key with Some k => if isEncrypted email then rs_email st else Some (migration_encrypt email k iv1) | None => rs_email st end,
          Some (_hashEmail plaintext))
    | None => Ok (rs_email st, rs_hash st)
    end;
  let phone' := match env_text (rs_phone st), key with
                | Some phone, Some k => if isEncrypted phone then rs_phone st else Some (migration_encrypt phone k iv2)
                | _, _ => rs_phone st
                end in
  Ok (RawStudent email' phone' hash').

(** One student after the other: a throw leaves the rest as they are. *)
Fixpoint up_029 (key : option bytes) (sts : list (bytes * bytes * raw_student)) : list raw_student * option crypto_error :=
  match sts with
  | [] => ([], None)
  | (iv1, iv2, st) :: rest =>
    match up_029_student key iv1 iv2 st with
    | Ok st' => let '(r, e) := up_029 key rest in (st' :: r, e)
    | Throw e => (map snd sts, Some e)
    end
  end.

(** Migration 030, on the pair of secrets of each endpoint.  It can only throw
    for a malformed key, at the first value it encrypts. *)
Definition up_030_field (e : env) (iv : bytes) (v : option string) : result crypto_error (option string) :=
  match v with
  | Some s => if str_truthy s && negb (isEncrypted s) then Some <$> encryptWebhookSecret e iv s else Ok v
  | None => Ok None
  end.

Definition up_030 (e : env) (eps : list (bytes * bytes * (option string * option string)))
    : result crypto_error (list (option string * option string)) :=
  if negb (webhook_isEncryptionEnabled e) then Ok (map snd eps)
  else foldr (fun x acc => let '(iv1, iv2, (s, p)) := x in
                s' ← up_030_field e iv1 s; p' ← up_030_field e iv2 p; rest ← acc; Ok ((s', p') :: rest)) (Ok []) eps.

Definition down_030_field (e : env) (v : option string) : result crypto_error (option string) :=
  match v with
  | Some s => if isEncrypted s
              then p ← decryptWebhookSecret e s; if isEncrypted p then Throw NOT_DECRYPTED else Ok (Some p)
              else Ok v
  | None => Ok None
  end.

(** An endpoint of which one secret does not decrypt stays as it is and is
    counted. *)
Fixpoint down_030 (e : env) (eps : list (option string * option string)) : result crypto_error (list (option string * option string) * nat) :=
  match eps with
  | [] => Ok ([], 0%nat)
  | x :: rest =>
    '(x', failed) ← match (s' ← down_030_field e x.1; p' ← down_030_field e x.2; Ok (s', p')) with
                    | Ok y => Ok (y, 0%nat)
                    | Throw NOT_DECRYPTED => Ok (x, 1%nat)
                    | Throw err => Throw err
                    end;
    '(r, n) ← down_030 e rest; Ok (x' :: r, (failed + n)%nat)
  end.
End Migrations.

(** ** What is stored can be read *)

Section Facts.
Context `{G : Gcm}.

Lemma Ok_inj {E A} (a b : A) : @Ok E A a = Ok b -> a = b.
Proof. congruence. Qed.

Lemma sealed_length key iv p : length iv = IV_LENGTH -> length (sealed_value key iv p) = (28 + length (chars p))%nat.
Proof.
  intros Hiv. unfold sealed_value. pose proof (gcm_tag_length key iv (chars p)) as Ht. pose proof (gcm_text_length key iv (chars p)) as Hc.
  destruct (gcm_seal key iv (chars p)) as [c t]; simpl in *. rewrite !length_app, Hiv, Ht, Hc. unfold IV_LENGTH. lia.
Qed.

Lemma open_sealed_parts key key' iv p : length iv = IV_LENGTH ->
  open_parts (sealed_value key iv p) key' = gcm_open key' iv (gcm_seal key iv (chars p)).2 (gcm_seal key iv (chars p)).1.
Proof.
  intros Hiv. unfold open_parts. rewrite sealed_length by done. unfold sealed_value.
  pose proof (gcm_tag_length key iv (chars p)) as Ht. pose proof (gcm_text_length key iv (chars p)) as Hc.
  destruct (gcm_seal key iv (chars p)) as [c t]; simpl in *. 
  replace (take IV_LENGTH (iv ++ c ++ t)) with iv by (rewrite <- Hiv; by rewrite take_app_length).
  replace (drop IV_LENGTH (iv ++ c ++ t)) with (c ++ t) by (rewrite <- Hiv; by rewrite drop_app_length).
  rewrite Nat.sub_0_r, <- Hc, take_app_length. f_equal.
  change (S (S (S (S (S (S (S (S (S (S (S (S (length c))))))))))))) with (12 + length c)%nat.
  change 12%nat with IV_LENGTH. rewrite <- Hiv, <- length_app. by rewrite app_assoc, drop_app_length.
Qed.

Lemma open_sealed key iv p : length iv = IV_LENGTH -> open_parts (sealed_value key iv p) key = Some (chars p).
Proof. intros Hiv. rewrite open_sealed_parts by done. apply gcm_open_seal. Qed.

Lemma sealed_long key iv p : length iv = IV_LENGTH -> str_truthy p = true -> (length (sealed_value key iv p) <? IV_LENGTH + 1 + TAG_LENGTH)%nat = false.
Proof. intros Hiv Hp. rewrite sealed_length by done. apply Nat.ltb_ge. destruct p; [done|]. cbn. unfold IV_LENGTH, TAG_LENGTH. lia. Qed.

Lemma isEncrypted_enc l : isEncrypted (text (ENC_PREFIX ++ l)) = true.
Proof. unfold isEncrypted. by rewrite chars_text. Qed.

Lemma truthy_enc l : str_truthy (text (ENC_PREFIX ++ l)) = true.
Proof. done. Qed.

Lemma drop_enc l : drop 4 (chars (text (ENC_PREFIX ++ l))) = l.
Proof. by rewrite chars_text. Qed.

(** A key that authenticates nothing of what another one sealed: what a
    reader with the wrong key sees. *)
Definition rejects (key' key iv : bytes) (p : string) : Prop :=
  gcm_open key' iv (gcm_seal key iv (chars p)).2 (gcm_seal key iv (chars p)).1 = None.

(** A webhook secret survives its encryption: read back with the key it was
    written with, or, while a key rotation lasts, with a new key that rejects
    it and the old one at hand. *)
Theorem webhook_secret_roundtrip e e' iv secret stored :
  length iv = IV_LENGTH -> isEncrypted secret = false ->
  encryptWebhookSecret e iv secret = Ok stored ->
  webhook_getKey e' = webhook_getKey e \/
  (exists new old, webhook_getKey e' = Ok (Some new) /\ webhook_getKey e = Ok (Some old) /\
     webhook_getPreviousKey e' = Ok (Some old) /\ rejects new old iv secret) ->
  decryptWebhookSecret e' stored = Ok secret /\ (stored = secret \/ isEncrypted stored = true).
Proof.
  intros Hiv Hne Henc Hkey. unfold encryptWebhookSecret in Henc. destruct (str_truthy secret) eqn:Ht; cbn [negb] in Henc.
  2:{ apply Ok_inj in Henc as <-. split; [|by left]. unfold decryptWebhookSecret. by rewrite Ht. }
  rewrite Hne in Henc. apply bind_Ok in Henc as (k & Hk & Henc). destruct k as [key|].
  2:{ apply Ok_inj in Henc as <-. split; [|by left]. unfold decryptWebhookSecret. by rewrite Ht, Hne. }
  apply Ok_inj in Henc as <-. split; [|right; apply isEncrypted_enc].
  unfold decryptWebhookSecret. rewrite isEncrypted_enc. cbn [negb]. rewrite truthy_enc, drop_enc, of_to_base64url. cbn [negb].
  destruct Hkey as [->|(new & old & -> & Hold & Hprev & Hrej)].
  - rewrite Hk. cbn [mbind result_bind]. rewrite sealed_long, open_sealed by done. by rewrite text_chars.
  - rewrite Hk in Hold. injection Hold as ->. cbn [mbind result_bind]. rewrite sealed_long by done. rewrite (open_sealed_parts old new) by done.
    rewrite Hrej, Hprev. cbn [mbind result_bind]. rewrite open_sealed by done. by rewrite text_chars.
Qed.

(** What a second environment needs to read what the first one wrote. *)
Definition pii_reads (e' e : env) (iv : bytes) (p : string) : Prop :=
  (pii_getKey e' = pii_getKey e /\ exists k, pii_getPreviousKey e' = Ok k) \/
  exists new old, pii_getKey e' = Ok (Some new) /\ pii_getKey e = Ok (Some old) /\
    pii_getPreviousKey e' = Ok (Some old) /\ rejects new old iv p.

Lemma pii_stored e iv p stored : isEncrypted p = false -> encryptStudentPii e iv p = Ok stored ->
  stored = p \/ exists key, pii_getKey e = Ok (Some key) /\ str_truthy p = true /\ stored = text (ENC_PREFIX ++ to_hex (sealed_value key iv p)).
Proof.
  intros Hne H. unfold encryptStudentPii in H. destruct (str_truthy p) eqn:Ht; cbn [negb] in H; [|apply Ok_inj in H as <-; by left].
  rewrite Hne in H. apply bind_Ok in H as (k & Hk & H). destruct k as [key|].
  - apply Ok_inj in H as <-. right. by exists key.
  - apply bind_Ok in H as (? & _ & H). apply Ok_inj in H as <-. by left.
Qed.

Lemma pii_roundtrip e e' iv p stored : length iv = IV_LENGTH -> isEncrypted p = false ->
  encryptStudentPii e iv p = Ok stored -> pii_reads e' e iv p -> decryptStudentPii e' stored = Ok p.
Proof.
  intros Hiv Hne Henc Hkey. destruct (pii_stored _ _ _ _ Hne Henc) as [->|(key & Hk & Ht & ->)].
  { unfold decryptStudentPii. rewrite Hne. by destruct (str_truthy p). }
  unfold decryptStudentPii. rewrite isEncrypted_enc, truthy_enc, drop_enc, of_to_hex. cbn [negb].
  destruct Hkey as [[-> [k' Hprev]]|(new & old & -> & Hold & Hprev & Hrej)].
  - rewrite Hk. cbn [mbind result_bind]. rewrite sealed_long, Hprev by done. cbn [mbind result_bind first_opening].
    rewrite open_sealed by done. by rewrite text_chars.
  - rewrite Hk in Hold. injection Hold as ->. cbn [mbind result_bind]. rewrite sealed_long, Hprev by done. cbn [mbind result_bind first_opening].
    rewrite (open_sealed_parts old new) by done. rewrite Hrej, open_sealed by done. by rewrite text_chars.
Qed.

(** The setters of the schema leave stored contacts alone: they are lower
    case and free of blanks. *)
Lemma stored_normal l : toLowerCase (str_trim (text (ENC_PREFIX ++ to_hex l))) = text (ENC_PREFIX ++ to_hex l)
  /\ str_trim (text (ENC_PREFIX ++ to_hex l)) = text (ENC_PREFIX ++ to_hex l).
Proof.
  assert (Hns : Forall (fun c => is_space c = false) (ENC_PREFIX ++ to_hex l)).
  { apply Forall_app. split; [repeat constructor|]. unfold to_hex. apply Forall_concat, Forall_map, Forall_forall. intros c _.
    pose proof (code_range c). repeat constructor; apply hex_digit_visible; Z.div_mod_to_equations; lia. }
  assert (E : str_trim (text (ENC_PREFIX ++ to_hex l)) = text (ENC_PREFIX ++ to_hex l)).
  { unfold str_trim. rewrite chars_text, trim_id by done. done. }
  split; [|done]. rewrite E. unfold toLowerCase. rewrite chars_text, map_app, lower_to_hex. done.
Qed.

(** A parent's contact survives a save and a load, in the same environment or
    across a key rotation, the setters of the schema included; and the blind
    index is the hash of the address that was saved. *)
Theorem contact_roundtrip hash e e' iv1 iv2 email phone h0 stored :
  length iv1 = IV_LENGTH -> length iv2 = IV_LENGTH ->
  toLowerCase (str_trim email) = email -> str_trim phone = phone ->
  isEncrypted email = false -> isEncrypted phone = false ->
  contact_pre_save hash e iv1 iv2 (Contact (Some email) (Some phone) h0 true true) = Ok stored ->
  pii_reads e' e iv1 email -> pii_reads e' e iv2 phone ->
  parentEmailHash stored = hash email /\
  exists d, contact_load e' stored = Ok d /\ parentEmail d = Some email /\ parentPhone d = Some phone.
Proof.
  intros Hiv1 Hiv2 Hem Hph Hne1 Hne2 Hsave R1 R2.
  unfold contact_pre_save in Hsave. cbn [parentEmail modifiedEmail] in Hsave.
  apply bind_Ok in Hsave as (d1 & Hd1 & Hsave). apply bind_Ok in Hd1 as (c1 & Hc1 & Hd1). apply Ok_inj in Hd1 as <-.
  cbn [parentPhone set_parentEmail set_parentEmailHash modifiedPhone] in Hsave.
  apply bind_Ok in Hsave as (c2 & Hc2 & Hsave). apply Ok_inj in Hsave as <-. split; [done|].
  assert (N1 : toLowerCase (str_trim c1) = c1).
  { destruct (pii_stored _ _ _ _ Hne1 Hc1) as [->|(key & _ & _ & ->)]; [done|apply stored_normal]. }
  assert (N2 : str_trim c2 = c2).
  { destruct (pii_stored _ _ _ _ Hne2 Hc2) as [->|(key & _ & _ & ->)]; [done|apply stored_normal]. }
  unfold contact_load, contact_decrypt. cbn [parentEmail parentPhone set_parentPhone set_parentEmail]. rewrite N1, N2.
  rewrite (pii_roundtrip _ e' _ _ _ Hiv1 Hne1 Hc1 R1). cbn [mbind result_bind parentPhone set_parentEmail].
  rewrite (pii_roundtrip _ e' _ _ _ Hiv2 Hne2 Hc2 R2). cbn [mbind result_bind].
  eexists. split; [done|]. cbn. by rewrite Hem, Hph.
Qed.

(** Saving what could not be decrypted stores it again unchanged: nothing is
    encrypted twice. *)
Lemma encrypted_kept e iv v : isEncrypted v = true -> encryptStudentPii e iv v = Ok v /\ encryptWebhookSecret e iv v = Ok v.
Proof. intros H. unfold encryptStudentPii, encryptWebhookSecret. rewrite H. by destruct (str_truthy v). Qed.

(** ** Signing keys *)

Section SignerFacts.
Variable valid_seed : string -> bool.
Hypothesis seed_nonempty : valid_seed "" = false.

Lemma signer_roundtrip s s' iv sk blob : length iv = IV_LENGTH -> getMasterKey s' = getMasterKey s ->
  encryptSecretKey valid_seed s iv sk = Ok blob -> decryptSecretKey valid_seed s' blob = Ok sk.
Proof.
  intros Hiv Hk H. unfold encryptSecretKey in H. destruct (valid_seed sk) eqn:Hv; [cbn [negb] in H|done].
  apply bind_Ok in H as (key & Hkey & H). apply Ok_inj in H as <-.
  assert (Ht : str_truthy sk = true) by (destruct sk; [congruence|done]).
  unfold decryptSecretKey. rewrite chars_text, of_to_base64, sealed_long by done.
  assert (str_truthy (text (to_base64 (sealed_value key iv sk))) = true) as ->.
  { destruct (to_base64 (sealed_value key iv sk)) as [|c l] eqn:E; [|done]. apply (f_equal of_base64) in E. rewrite of_to_base64 in E.
    pose proof (sealed_length key iv sk Hiv) as L. rewrite E in L. cbn in L. lia. }
  cbn [negb]. rewrite Hk, Hkey. cbn [mbind result_bind]. rewrite open_sealed by done. cbn [of_option mbind result_bind].
  by rewrite text_chars, Hv.
Qed.

(** Rotating the master key: a blob sealed under the old key comes out sealed
    under the current one and opens to the same secret, wherever the current
    key comes from, and the module goes on with the keys it had. *)
Theorem reEncrypt_rotates s iv iv' sk blob old :
  length iv = IV_LENGTH -> length iv' = IV_LENGTH ->
  SIGNER_MASTER_KEY_OLD s = Some old -> is_key old = true -> isMasterKeyConfigured s = true ->
  encryptSecretKey valid_seed (Signer None (Some old) None) iv sk = Ok blob ->
  exists blob' s', reEncryptSecretKey valid_seed s iv' blob = (Ok blob', s') /\
    decryptSecretKey valid_seed s' blob' = Ok sk /\ getMasterKey s' = getMasterKey s /\ SIGNER_MASTER_KEY_OLD s' = Some old.
Proof.
  intros Hiv Hiv' Hold Hok Hcur Hblob.
  assert (Hne : env_text (Some old) = Some old) by (destruct old; [done|reflexivity]).
  set (s' := Signer (_cachedMasterKeyHex s) (env_assign (SIGNER_MASTER_KEY s)) (SIGNER_MASTER_KEY_OLD s)).
  assert (Hsame : getMasterKey s' = getMasterKey s).
  { unfold isMasterKeyConfigured, master_hex in Hcur. unfold getMasterKey, master_hex, s'. cbn [_cachedMasterKeyHex SIGNER_MASTER_KEY].
    destruct (env_text (_cachedMasterKeyHex s)); [done|]. by destruct (SIGNER_MASTER_KEY s). }
  assert (exists key, getMasterKey s = Ok key) as [key Hkey].
  { unfold isMasterKeyConfigured in Hcur. unfold getMasterKey. destruct (master_hex s); [|done]. rewrite Hcur. eauto. }
  assert (Hv : valid_seed sk = true). { unfold encryptSecretKey in Hblob. by destruct (valid_seed sk). }
  assert (Hdec : decryptSecretKey valid_seed (Signer None (Some old) (SIGNER_MASTER_KEY_OLD s)) blob = Ok sk).
  { apply (signer_roundtrip (Signer None (Some old) None) _ iv); done. }
  exists (text (to_base64 (sealed_value key iv' sk))), s'. split_and!; [| |done|].
  - unfold reEncryptSecretKey. rewrite Hold, Hne, Hok. cbn [negb]. rewrite Hold in Hdec. rewrite Hdec.
    cbn [mbind result_bind]. subst s'. rewrite Hold in Hsame |- *. f_equal. unfold encryptSecretKey. rewrite Hv, Hsame, Hkey. done.
  - apply (signer_roundtrip s' s' iv'); [done..|]. unfold encryptSecretKey. by rewrite Hv, Hsame, Hkey.
  - done.
Qed.
End SignerFacts.

(** ** The migrations *)

Lemma migrated_021 e key iv v : length iv = IV_LENGTH -> webhook_getKey e = Ok (Some key) -> str_truthy v = true ->
  decryptWebhookSecret e (migration_encrypt v key iv) = Ok v.
Proof.
  intros Hiv Hk Ht. unfold decryptWebhookSecret, migration_encrypt. rewrite isEncrypted_enc, truthy_enc, drop_enc, of_to_base64url.
  cbn [negb]. rewrite Hk. cbn [mbind result_bind]. rewrite sealed_long, open_sealed by done. by rewrite text_chars.
Qed.

Lemma migration_decrypt_encrypt key iv v : length iv = IV_LENGTH -> migration_decrypt (migration_encrypt v key iv) key = Ok v.
Proof.
  intros Hiv. unfold migration_decrypt, migration_encrypt. rewrite isEncrypted_enc, drop_enc, of_to_base64url. cbn [negb].
  destruct (Nat.ltb_spec (length (sealed_value key iv v)) TAG_LENGTH) as [Hl|_].
  { rewrite sealed_length in Hl by done. unfold TAG_LENGTH in Hl. lia. }
  rewrite open_sealed by done. cbn. by rewrite text_chars.
Qed.

(** Migration 021 up and down gives back the secrets it found in clear. *)
Theorem migration_021_roundtrip key rows :
  Forall (fun x => length x.1 = IV_LENGTH /\ forall v, x.2 = Some v -> isEncrypted v = false) rows ->
  down_021 key (up_021 (Some key) rows) = (map snd rows, None).
Proof.
  induction 1 as [|[iv [v|]] rows [Hiv Hv] _ IH]; [done|..]; unfold up_021 in *; cbn [map snd fst down_021] in *.
  - rewrite (Hv v eq_refl). change (isEncrypted (migration_encrypt v key iv)) with true. cbn iota.
    rewrite migration_decrypt_encrypt by done. by rewrite IH.
  - by rewrite IH.
Qed.

Definition is_hex (c : ascii) : Prop := is_Some (hex_value c).

Lemma of_hex_digits n : forall l, (n <= length (of_hex l))%nat -> Forall is_hex (take (2 * n) l).
Proof.
  induction n as [|n IH]; intros l H; [constructor|]. replace (2 * S n)%nat with (S (S (2 * n))) by lia.
  destruct l as [|a [|b l]]; cbn in H; [lia|lia|]. destruct (hex_value a) eqn:Ea, (hex_value b) eqn:Eb; cbn in H; try lia.
  cbn [take]. constructor; [by eexists|]. constructor; [by eexists|]. apply IH. lia.
Qed.

(** A contact that migration 029 encrypted does not come back: the service
    reads hexadecimal where the migration wrote base64url, and hands out the
    stored text instead, unless the first fifty-eight characters happen to be
    hexadecimal digits. *)
Theorem migration_029_unreadable e key iv email v :
  pii_getKey e = Ok (Some key) -> decryptStudentPii e (migration_encrypt email key iv) = Ok v ->
  v = migration_encrypt email key iv \/ Forall is_hex (take 58 (to_base64url (sealed_value key iv email))).
Proof.
  intros Hk H. unfold decryptStudentPii in H. rewrite Hk in H. unfold migration_encrypt in H.
  rewrite isEncrypted_enc, truthy_enc, drop_enc in H. cbn [negb mbind result_bind] in H.
  destruct (Nat.ltb_spec (length (of_hex (to_base64url (sealed_value key iv email)))) (IV_LENGTH + 1 + TAG_LENGTH)) as [_|Hl].
  - apply Ok_inj in H as <-. by left.
  - right. by apply (of_hex_digits 29).
Qed.

Lemma up_030_field_stored e iv v v' : up_030_field e iv v = Ok v' -> v' = v \/
  exists s key, v = Some s /\ str_truthy s = true /\ isEncrypted s = false /\ webhook_getKey e = Ok (Some key) /\
    v' = Some (migration_encrypt s key iv).
Proof.
  destruct v as [s|]; cbn [up_030_field]; [|intros H; apply Ok_inj in H as <-; by left].
  destruct (str_truthy s) eqn:Ht; [|intros H; apply Ok_inj in H as <-; by left].
  destruct (isEncrypted s) eqn:He; cbn [andb negb]; [intros H; apply Ok_inj in H as <-; by left|].
  unfold encryptWebhookSecret. rewrite Ht, He. cbn [negb]. destruct (webhook_getKey e) as [[key|]|]; cbn [mbind result_bind fmap result_fmap];
    intros H; try done; apply Ok_inj in H as <-; [right|by left].
  exists s, key. done.
Qed.

Lemma field_030_roundtrip e iv v v' : length iv = IV_LENGTH -> (forall s, v = Some s -> isEncrypted s = false) ->
  up_030_field e iv v = Ok v' -> down_030_field e v' = Ok v.
Proof.
  intros Hiv Hv H. destruct (up_030_field_stored _ _ _ _ H) as [->|(s & key & -> & Ht & He & Hk & ->)].
  - destruct v as [s|]; [|done]. cbn [down_030_field]. by rewrite (Hv s eq_refl).
  - cbn [down_030_field]. change (isEncrypted (migration_encrypt s key iv)) with true. cbn iota.
    rewrite (migrated_021 e key iv s Hiv Hk Ht). cbn [mbind result_bind]. by rewrite He.
Qed.

(** Migration 030 up and down gives back every endpoint's two secrets. *)
Theorem migration_030_roundtrip e rows stored :
  Forall (fun x => length x.1.1 = IV_LENGTH /\ length x.1.2 = IV_LENGTH /\
     (forall s, x.2.1 = Some s \/ x.2.2 = Some s -> isEncrypted s = false)) rows ->
  up_030 e rows = Ok stored -> down_030 e stored = Ok (map snd rows, 0%nat).
Proof.
  intros HF. unfold up_030. destruct (webhook_isEncryptionEnabled e); cbn [negb].
  2:{ intros H. apply Ok_inj in H as <-. induction HF as [|[[iv1 iv2] [s p]] rows (_ & _ & Hv) _ IH]; [done|].
      cbn [map snd down_030 fst]. rewrite IH. destruct s as [s|], p as [p|]; cbn [down_030_field fst snd];
        rewrite ?(Hv _ (or_introl eq_refl)), ?(Hv _ (or_intror eq_refl)); done. }
  revert stored. induction HF as [|[[iv1 iv2] [s p]] rows (H1 & H2 & Hv) _ IH]; intros stored H; cbn [foldr] in H.
  { apply Ok_inj in H as <-. done. }
  apply bind_Ok in H as (s' & Hs & H). apply bind_Ok in H as (p' & Hp & H). apply bind_Ok in H as (rest & Hr & H). apply Ok_inj in H as <-.
  cbn [down_030 fst snd map]. rewrite (IH rest Hr).
  rewrite (field_030_roundtrip _ _ _ _ H1 (fun x E => Hv x (or_introl E)) Hs). cbn [mbind result_bind].
  rewrite (field_030_roundtrip _ _ _ _ H2 (fun x E => Hv x (or_intror E)) Hp). done.
Qed.
End Facts.

(** ** Concrete runs *)

(** A cipher that leaves the text alone and stamps it with the key. *)
Definition stamp (k : bytes) : bytes := take 16 (k ++ replicate 16 "0"%char).

#[local] Program Instance stamping : Gcm := {
  gcm_seal := fun k _ p => (p, stamp k);
  gcm_open := fun k _ tag c => if bool_decide (tag = stamp k) then Some c else None }.
Next Obligation. intros k iv p. cbn. unfold stamp. rewrite length_take, length_app, length_replicate. lia. Qed.
Next Obligation. done. Qed.
Next Obligation. intros k iv p. cbn. by rewrite bool_decide_eq_true_2. Qed.

Definition key_a : string := text (replicate 64 "a"%char).
Definition key_b : string := text (replicate 64 "b"%char).
Definition an_iv : bytes := map (fun n => chr (Z.of_nat n)) (seq 120 12).
Definition env_of (webhook old pii previous : option string) : env := Env (Some "production") None webhook old None pii previous.
Definition a_hash (s : string) : option string := Some ("h:" ++ s)%string.

Lemma webhook_secret_roundtrip_witness : exists stored,
  encryptWebhookSecret (env_of (Some key_a) None None None) an_iv "s3cret" = Ok stored /\
  decryptWebhookSecret (env_of (Some key_b) (Some key_a) None None) stored = Ok "s3cret" /\ isEncrypted stored = true.
Proof.
  eexists. split; [reflexivity|]. split; [|reflexivity].
  refine (proj1 (webhook_secret_roundtrip (env_of (Some key_a) None None None) (env_of (Some key_b) (Some key_a) None None)
    an_iv "s3cret" _ eq_refl eq_refl eq_refl _)).
  right. exists (of_hex (chars key_b)), (of_hex (chars key_a)). repeat split; vm_compute; reflexivity.
Defined.

Lemma contact_roundtrip_witness : exists stored d,
  contact_pre_save a_hash (env_of None None (Some key_a) None) an_iv an_iv (Contact (Some "a@b.ng") (Some "+234") None true true) = Ok stored /\
  isEncrypted (default "" (parentEmail stored)) = true /\
  contact_load (env_of None None (Some key_b) (Some key_a)) stored = Ok d /\ parentEmail d = Some "a@b.ng" /\ parentPhone d = Some "+234".
Proof.
  eexists. assert (R : forall p, pii_reads (env_of None None (Some key_b) (Some key_a)) (env_of None None (Some key_a) None) an_iv p).
  { intros p. right. exists (of_hex (chars key_b)), (of_hex (chars key_a)). repeat split; vm_compute; reflexivity. }
  edestruct (contact_roundtrip a_hash (env_of None None (Some key_a) None) (env_of None None (Some key_b) (Some key_a)) an_iv an_iv
    "a@b.ng" "+234" None) as [_ [d Hd]]; [vm_compute; reflexivity..|apply R|apply R|].
  exists d. split; [vm_compute; reflexivity|]. split; [vm_compute; reflexivity|]. exact Hd.
Defined.

Definition seed_ok (s : string) : bool := starts_with ["S"%char] (chars s).

Lemma reEncrypt_rotates_witness : exists blob,
  encryptSecretKey seed_ok (Signer None (Some key_a) None) an_iv "SABC" = Ok blob /\
  exists blob' s', reEncryptSecretKey seed_ok (Signer (Some key_b) None (Some key_a)) an_iv blob = (Ok blob', s') /\
    decryptSecretKey seed_ok s' blob' = Ok "SABC" /\ getMasterKey s' = getMasterKey (Signer (Some key_b) None (Some key_a)) /\
    SIGNER_MASTER_KEY_OLD s' = Some key_a.
Proof.
  eexists. split; [vm_compute; reflexivity|].
  apply (reEncrypt_rotates seed_ok eq_refl (Signer (Some key_b) None (Some key_a)) an_iv an_iv "SABC" _ key_a); vm_compute; reflexivity.
Defined.

Lemma migration_021_roundtrip_witness :
  down_021 (of_hex (chars key_a)) (up_021 (Some (of_hex (chars key_a))) [(an_iv, Some "s3cret"); (an_iv, None)]) = ([Some "s3cret"; None], None).
Proof.
  apply (migration_021_roundtrip (of_hex (chars key_a)) [(an_iv, Some "s3cret"); (an_iv, None)]).
  repeat constructor; cbn; intros v [= <-]; reflexivity.
Defined.

Lemma migration_030_roundtrip_witness : exists stored,
  up_030 (env_of (Some key_a) None None None) [(an_iv, an_iv, (Some "s3cret", None))] = Ok stored /\
  down_030 (env_of (Some key_a) None None None) stored = Ok ([(Some "s3cret", None)], 0%nat).
Proof.
  eexists. split; [vm_compute; reflexivity|].
  apply (migration_030_roundtrip (env_of (Some key_a) None None None) [(an_iv, an_iv, (Some "s3cret", None))]); [|vm_compute; reflexivity].
  repeat constructor. intros s [[= <-]|[=]]. reflexivity.
Defined.

(** The migrated address is handed out as its ciphertext. *)
Lemma migration_029_unreadable_witness : exists v,
  decryptStudentPii (env_of None None (Some key_a) None) (migration_encrypt "a@b.ng" (of_hex (chars key_a)) an_iv) = Ok v /\
  v = migration_encrypt "a@b.ng" (of_hex (chars key_a)) an_iv /\ v <> "a@b.ng".
Proof.
  assert (exists v, decryptStudentPii (env_of None None (Some key_a) None) (migration_encrypt "a@b.ng" (of_hex (chars key_a)) an_iv) = Ok v)
    as [v Hv] by (eexists; vm_compute; reflexivity).
  exists v. split; [exact Hv|].
  destruct (migration_029_unreadable (env_of None None (Some key_a) None) (of_hex (chars key_a)) an_iv "a@b.ng" v eq_refl Hv) as [->|F].
  - split; [reflexivity|vm_compute; discriminate].
  - exfalso. vm_compute in F. apply Forall_inv_tail, Forall_inv in F. by destruct F.
Defined.

(** Running migration 029 over students the service has saved throws at the
    first of them: its own decoder does not read their encoding. *)
Theorem migration_029_rerun_fails : exists stored,
  encryptStudentPii (env_of None None (Some key_a) None) an_iv "a@b.ng" = Ok stored /\
  up_029 (fun s => s) (Some (of_hex (chars key_a))) [(an_iv, an_iv, RawStudent (Some stored) None None)] =
    ([RawStudent (Some stored) None None], Some AUTH_FAILED).
Proof. eexists. split; vm_compute; reflexivity. Qed.

(** A base64url value does not survive the lower-case setter of the address. *)
Theorem base64url_lowercased_lost :
  let stored := migration_encrypt "a@b.ng" (of_hex (chars key_a)) an_iv in
  migration_decrypt stored (of_hex (chars key_a)) = Ok "a@b.ng" /\
  migration_decrypt (toLowerCase stored) (of_hex (chars key_a)) <> Ok "a@b.ng".
Proof. vm_compute. split; [reflexivity|discriminate]. Qed.

(** A secret a caller chose to begin with the marker is stored in clear. *)
Theorem marked_secret_stored_in_clear iv secret e : isEncrypted secret = true -> encryptWebhookSecret e iv secret = Ok secret.
Proof. intros H. by apply encrypted_kept. Qed.

Lemma marked_secret_stored_in_clear_witness :
  encryptWebhookSecret (env_of (Some key_a) None None None) an_iv "enc:not-really" = Ok "enc:not-really".
Proof. apply (marked_secret_stored_in_clear an_iv "enc:not-really"). reflexivity. Defined.

(** Rotating keys with the master key in a secrets provider leaves the text
    "undefined" in the environment. *)
Theorem reEncrypt_pollutes_environment : exists blob,
  encryptSecretKey seed_ok (Signer None (Some key_a) None) an_iv "SABC" = Ok blob /\
  (reEncryptSecretKey seed_ok (Signer (Some key_b) None (Some key_a)) an_iv blob).2 = Signer (Some key_b) (Some "undefined") (Some key_a).
Proof. eexists. split; vm_compute; reflexivity. Qed.
End FieldCrypto.
