(* ===== verification/Migrations.v ===== *)
(** Database migrations: backend/src/services/migrationRunner.js with the
    model of its records (models/migrationModel.js), the index migrations
    032_fix_payment_txhash_indexes, 034_receipt_op_index and
    035_add_payment_op_index, and the status migration
    036_unify_fee_validation_status.

    A migration is what it does to the data: the new data, and what it throws.
    A run is a function; several instances deploying at once are a step
    relation in which each step is one database command.  Collections of the
    index migrations are documents and indexes, with MongoDB's rules for
    unique and sparse ones. *)

From Stdlib Require Import Ascii ZArith Lia.
From stdpp Require Import base strings gmap relations list.
From S2P Require Import Prelude JsString.
Local Open Scope string_scope.
Local Open Scope Z_scope.
Local Open Scope list_scope.

(** ** The runner *)
Module Runner.

(** [path.basename(file, '.js')] *)
Definition basename (file : string) : string :=
  let l := chars file in
  let stem := take (length l - 3) l in
  if bool_decide (l = stem ++ chars ".js") then text stem else file.

(** [f.endsWith('.js')] *)
Definition is_js (file : string) : bool :=
  let l := chars file in bool_decide (drop (length l - 3) l = chars ".js").

(** [Array.prototype.sort] without a comparator. *)
Definition str_cmp (a b : string) : Z :=
  match String.compare a b with Lt => -1 | Eq => 0 | Gt => 1 end.

Inductive run_error := NoDirectory | BadExports (files : list string) | UpFailed (version : string) | NoFile (version : string) | NoDown (version : string)
| DownFailed (version : string).

Section Runner.
Variable D : Type.

(** [None] for an export that is missing; the boolean is a throw. *)
Record migration := Migration {
  m_file : string; m_version : option string; m_up : D -> D * bool; m_down : option (D -> D * bool)
}.

(** A record of the collection.  The schema's default fills [appliedAt] when
    the lock is inserted. *)
Record entry := Entry { e_version : string; lockedAt : Z; appliedAt : option Z }.

Record db := Db { entries : list entry; data : D }.

Definition recorded (v : string) (l : list entry) : bool := existsb (fun e => (e_version e =? v)%string) l.
Definition remove_entry (v : string) (l : list entry) : list entry := List.filter (fun e => negb (e_version e =? v)%string) l.
Definition set_applied (v : string) (t : Z) (l : list entry) : list entry :=
  map (fun e => if (e_version e =? v)%string then Entry (e_version e) (lockedAt e) (Some t) else e) l.

(** The export contract. *)
Definition conforms (m : migration) : bool :=
  match m_version m with
  | Some v => str_truthy (str_trim v) && (v =? basename (m_file m))%string
  | None => false
  end.

Definition files (dir : list migration) : list migration :=
  js_sort (fun a b => str_cmp (m_file a) (m_file b)) (List.filter (fun m => is_js (m_file m)) dir).

Definition version_of (m : migration) : string := default "" (m_version m).

(** [clock]: the two times read for a migration. *)
Fixpoint run_loop (clock : string -> Z * Z) (todo : list migration) (s : db) : result run_error unit * db :=
  match todo with
  | [] => (Ok tt, s)
  | m :: rest =>
    let v := version_of m in
    if recorded v (entries s) then run_loop clock rest s
    else
      let claimed := entries s ++ [Entry v (clock v).1 (Some (clock v).1)] in
      match m_up m (data s) with
      | (d, false) => run_loop clock rest (Db (set_applied v (clock v).2 claimed) d)
      | (d, true) => (Throw (UpFailed v), Db (remove_entry v claimed) d)
      end
  end.

Definition runMigrations (clock : string -> Z * Z) (dir : option (list migration)) (s : db) : result run_error unit * db :=
  match dir with
  | None => (Throw NoDirectory, s)
  | Some d =>
    match List.filter (fun m => negb (conforms m)) (files d) with
    | [] => run_loop clock (files d) s
    | bad => (Throw (BadExports (map m_file bad)), s)
    end
  end.

(** [findOne({ appliedAt: exists }).sort({ appliedAt: -1 })] *)
Definition last_applied (l : list entry) : option entry :=
  head (js_sort (fun a b => default 0 (appliedAt b) - default 0 (appliedAt a))
          (List.filter (fun e => bool_decide (is_Some (appliedAt e))) l)).

Definition rollback (dir : list migration) (s : db) : result run_error unit * db :=
  match last_applied (entries s) with
  | None => (Ok tt, s)
  | Some e =>
    match List.find (fun m => bool_decide (m_version m = Some (e_version e))) (List.filter (fun m => is_js (m_file m)) dir) with
    | None => (Throw (NoFile (e_version e)), s)
    | Some m =>
      match m_down m with
      | None => (Throw (NoDown (e_version e)), s)
      | Some down =>
        match down (data s) with
        | (d, false) => (Ok tt, Db (remove_entry (e_version e) (entries s)) d)
        | (d, true) => (Throw (DownFailed (e_version e)), Db (entries s) d)
        end
      end
    end
  end.

(** *** Several instances at once *)

Record instance := Instance { todo : list migration; running : option migration; failed : bool }.

(** [completed]: the versions whose [up] came to its end, in that order. *)
Record system := System { sys_db : db; instances : list instance; completed : list string }.

Inductive event := Claim | Finish (at_ : Z) | Crash.

Definition set_instance (i : nat) (x : instance) (s : system) : list instance := <[i := x]> (instances s).

(** One step of instance [i]. *)
Definition sys_step (i : nat) (now : Z) (ev : event) (s : system) : option system :=
  x ← instances s !! i;
  match ev, running x, todo x with
  | Claim, None, m :: rest =>
    let v := version_of m in
    if recorded v (entries (sys_db s))
    then Some (System (sys_db s) (set_instance i (Instance rest None (failed x)) s) (completed s))
    else Some (System (Db (entries (sys_db s) ++ [Entry v now (Some now)]) (data (sys_db s)))
                 (set_instance i (Instance rest (Some m) (failed x)) s) (completed s))
  | Finish t, Some m, rest =>
    let v := version_of m in
    match m_up m (data (sys_db s)) with
    | (d, false) => Some (System (Db (set_applied v t (entries (sys_db s))) d)
                            (set_instance i (Instance rest None (failed x)) s) (completed s ++ [v]))
    | (d, true) => Some (System (Db (remove_entry v (entries (sys_db s))) d)
                           (set_instance i (Instance [] None true) s) (completed s))
    end
  | Crash, _, _ => Some (System (sys_db s) (set_instance i (Instance [] None true) s) (completed s))
  | _, _, _ => None
  end.

Definition steps_to (s s' : system) : Prop := exists i now ev, sys_step i now ev s = Some s'.

Fixpoint run_schedule (l : list (nat * Z * event)) (s : system) : option system :=
  match l with
  | [] => Some s
  | (i, now, ev) :: l' => s' ← sys_step i now ev s; run_schedule l' s'
  end.

(** [n] instances starting on the same directory. *)
Definition deploy (n : nat) (ms : list migration) (s : db) : system :=
  System s (replicate n (Instance ms None false)) [].
End Runner.

Arguments Migration {D}. Arguments m_file {D}. Arguments m_version {D}. Arguments m_up {D}. Arguments m_down {D}.
Arguments Db {D}. Arguments entries {D}. Arguments data {D}. Arguments conforms {D}. Arguments files {D}. Arguments version_of {D}.
Arguments run_loop {D}. Arguments runMigrations {D}. Arguments rollback {D}.
Arguments Instance {D}. Arguments todo {D}. Arguments running {D}. Arguments failed {D}.
Arguments System {D}. Arguments sys_db {D}. Arguments instances {D}. Arguments completed {D}. Arguments set_instance {D}.
Arguments sys_step {D}. Arguments steps_to {D}. Arguments run_schedule {D}. Arguments deploy {D}.

(** ** One run *)

Lemma recorded_elem v l : recorded v l = true <-> exists e, (e ∈ l) /\ e_version e = v.
Proof.
  unfold recorded. rewrite existsb_exists. split; intros (e & H & E); exists e.
  - rewrite list_elem_of_In. split; [done|]. by apply String.eqb_eq.
  - rewrite <- list_elem_of_In. split; [done|]. by apply String.eqb_eq.
Qed.

Lemma recorded_app v l1 l2 : recorded v (l1 ++ l2) = recorded v l1 || recorded v l2.
Proof. apply existsb_app. Qed.

Lemma recorded_applied v w t l : recorded v (set_applied w t l) = recorded v l.
Proof.
  unfold recorded, set_applied. induction l as [|e l IH]; [done|]. cbn. rewrite IH. f_equal. by destruct (e_version e =? w)%string.
Qed.

Lemma recorded_remove v w l : recorded v (remove_entry w l) = recorded v l && negb (v =? w)%string.
Proof.
  unfold recorded, remove_entry. induction l as [|e l IH]; [done|]. cbn. destruct (String.eqb_spec (e_version e) w) as [->|Hne]; cbn.
  - rewrite IH. destruct (String.eqb_spec w v) as [->|]; cbn; [|done]. rewrite String.eqb_refl. cbn. by rewrite andb_false_r.
  - rewrite IH. destruct (String.eqb_spec (e_version e) v) as [<-|]; cbn; [|done]. by apply String.eqb_neq in Hne as ->.
Qed.

Section OneRun.
Variable D : Type.
Implicit Types (ms : list (migration D)) (s : db D).

(** A file whose export does not repeat its name refuses the whole run before
    anything is applied. *)
Theorem nonconforming_refused clock dir m s : m ∈ dir -> is_js (m_file m) = true -> conforms m = false ->
  exists bad, runMigrations clock (Some dir) s = (Throw (BadExports bad), s) /\ m_file m ∈ bad.
Proof.
  intros Hm Hjs Hc. unfold runMigrations.
  assert (Hin : m ∈ List.filter (fun m => negb (conforms m)) (files dir)).
  { apply elem_of_filterb. rewrite Hc. split; [done|]. apply js_sort_elem, elem_of_filterb. done. }
  destruct (List.filter _ (files dir)) as [|b l] eqn:E; [by apply elem_of_nil in Hin|].
  exists (map m_file (b :: l)). split; [done|]. by apply list_elem_of_fmap_2.
Qed.

(** The reference: the pending migrations in order, up to the first that
    throws. *)
Fixpoint apply_all ms (d : D) : D * list string * option string :=
  match ms with
  | [] => (d, [], None)
  | m :: rest =>
    match m_up m d with
    | (d', false) => let '(d2, done_, e) := apply_all rest d' in (d2, version_of m :: done_, e)
    | (d', true) => (d', [], Some (version_of m))
    end
  end.

Definition pending (l : list entry) ms : list (migration D) := List.filter (fun m => negb (recorded (version_of m) l)) ms.

Lemma pending_ext l l' ms : (forall m, m ∈ ms -> recorded (version_of m) l' = recorded (version_of m) l) -> pending l' ms = pending l ms.
Proof. intros H. apply List.filter_ext_in. intros m Hm. rewrite (H m); [done|]. by apply list_elem_of_In. Qed.

(** A run is that reference: it applies what is not recorded, in order, each
    once; it records exactly what succeeded; a failure is thrown, leaves its
    migration unrecorded and the rest untouched, so the next run resumes
    there. *)
Theorem run_applies_pending clock ms s : NoDup (map version_of ms) ->
  let '(d, done_, e) := apply_all (pending (entries s) ms) (data s) in
  let '(r, s') := run_loop clock ms s in
  data s' = d /\ r = (match e with None => Ok tt | Some v => Throw (UpFailed v) end) /\
  forall v, recorded v (entries s') = recorded v (entries s) || bool_decide (v ∈ done_).
Proof.
  revert s. induction ms as [|m ms IH]; intros s ND; unfold pending; cbn [List.filter run_loop].
  { cbn. repeat split. intros v. by rewrite orb_false_r. }
  inversion ND as [|? ? Hnot ND']; subst. destruct (recorded (version_of m) (entries s)) eqn:Hrec; cbn [negb apply_all]; [by apply IH|].
  destruct (m_up m (data s)) as [d' [|]] eqn:Hup; cbn [entries data].
  - repeat split. intros v. rewrite recorded_remove, recorded_app. cbn. rewrite !orb_false_r.
    destruct (String.eqb_spec v (version_of m)) as [->|Hne]; [by rewrite andb_false_r|].
    assert ((version_of m =? v)%string = false) as -> by (apply String.eqb_neq; congruence). by rewrite orb_false_r, andb_true_r.
  - set (s1 := Db _ d'). specialize (IH s1 ND').
    assert (Hrs : forall v, recorded v (entries s1) = recorded v (entries s) || (version_of m =? v)%string).
    { intros v. unfold s1. cbn [entries]. rewrite recorded_applied, recorded_app. cbn. by rewrite orb_false_r. }
    assert (Hp : pending (entries s1) ms = pending (entries s) ms).
    { apply pending_ext. intros m' Hm'. rewrite Hrs. assert ((version_of m =? version_of m')%string = false) as ->; [|by rewrite orb_false_r].
      apply String.eqb_neq. intros E. apply Hnot. rewrite E. by apply list_elem_of_fmap_2. }
    rewrite Hp in IH. change (data s1) with d' in IH. fold (pending (entries s) ms).
    destruct (apply_all (pending (entries s) ms) d') as [[d2 done_] e]. destruct (run_loop clock ms s1) as [r s'].
    destruct IH as (Hd & Hr & Hv). repeat split; [done|done|]. intros v. rewrite Hv, Hrs, <- orb_assoc. f_equal.
    destruct (String.eqb_spec (version_of m) v) as [->|Hne]; cbn.
    + symmetry. apply bool_decide_eq_true. by left.
    + apply bool_decide_ext. split; [by right|]. intros [E|]%elem_of_cons; [congruence|done].
Qed.
End OneRun.

(** ** Many instances *)

Section Deployment.
Variable D : Type.
Implicit Types (s : system D) (x : instance D).

#[local] Arguments recorded : simpl never.
#[local] Arguments remove_entry : simpl never.
#[local] Arguments set_applied : simpl never.

Definition in_flight x : option string := version_of <$> running x.

(** What has been done or is being done. *)
Definition claims s : list string := completed s ++ omap in_flight (instances s).

Lemma omap_split (l : list (instance D)) i x : l !! i = Some x ->
  omap in_flight l ≡ₚ option_list (in_flight x) ++ omap in_flight (delete i l).
Proof.
  intros H. rewrite (delete_Permutation _ _ _ H) at 1. cbn. by destruct (in_flight x).
Qed.

Lemma omap_insert_split (l : list (instance D)) i x y : l !! i = Some x ->
  omap in_flight (<[i := y]> l) ≡ₚ option_list (in_flight y) ++ omap in_flight (delete i l).
Proof.
  intros H. rewrite (omap_split _ i y) by (apply list_lookup_insert_eq; by eapply lookup_lt_Some).
  f_equiv. replace (delete i (<[i := y]> l)) with (delete i l); [done|]. symmetry.
  revert i H. induction l as [|a l IH]; intros [|i] H; [done..|]. cbn. f_equal. by apply IH.
Qed.

Definition once_inv s : Prop := NoDup (claims s) /\ forall v, v ∈ claims s -> recorded v (entries (sys_db s)) = true.

Lemma claims_step i x y c s e : instances s !! i = Some x ->
  claims (System e (set_instance i y s) c) ≡ₚ c ++ option_list (in_flight y) ++ omap in_flight (delete i (instances s)).
Proof. intros H. unfold claims, set_instance. cbn. by rewrite (omap_insert_split _ _ _ _ H). Qed.

Lemma claims_here i x s : instances s !! i = Some x ->
  claims s ≡ₚ completed s ++ option_list (in_flight x) ++ omap in_flight (delete i (instances s)).
Proof. intros H. unfold claims. by rewrite (omap_split _ _ _ H). Qed.

Lemma recorded_last v w l a b : recorded v (l ++ [Entry w a b]) = recorded v l || (w =? v)%string.
Proof. rewrite recorded_app. f_equal. unfold recorded. cbn. by rewrite orb_false_r. Qed.

Lemma NoDup_middle (a r : list string) v : NoDup (a ++ v :: r) -> (v ∉ a ++ r) /\ NoDup (a ++ r).
Proof. rewrite <- Permutation_middle. by intros ?%NoDup_cons. Qed.

Lemma once_intro s c : claims s ≡ₚ c -> NoDup c -> (forall v, v ∈ c -> recorded v (entries (sys_db s)) = true) -> once_inv s.
Proof. intros E ND H. split; [by rewrite E|]. intros v. rewrite E. apply H. Qed.

Lemma once_step i now ev s s' : sys_step i now ev s = Some s' -> once_inv s -> once_inv s'.
Proof.
  unfold sys_step. intros H [ND Hrec]. destruct (instances s !! i) as [x|] eqn:Hx; [cbn [mbind option_bind] in H|done].
  pose proof (claims_here _ _ _ Hx) as E. rewrite E in ND. setoid_rewrite E in Hrec. clear E.
  pose proof (fun y c e => once_intro _ _ (claims_step i x y c s e Hx)) as Hnew.
  unfold in_flight in Hnew, ND, Hrec at 1. fold in_flight in Hnew, ND, Hrec.
  set (rest := omap in_flight (delete i (instances s))) in *.
  destruct ev, (running x) as [m|] eqn:Hrun, (todo x) as [|m' l] eqn:Htodo; try done; cbn in ND, Hrec.
  1: destruct (recorded _ _) eqn:E; injection H as <-; apply Hnew; cbn; [done|done|..].
  { rewrite <- Permutation_middle. constructor; [|done]. intros Hin. apply Hrec in Hin. by rewrite Hin in E. }
  { intros v Hv. rewrite recorded_last. apply elem_of_app in Hv as [Hv|Hv]; [rewrite Hrec; [done|set_solver]|].
      apply elem_of_cons in Hv as [->|Hv]; [by rewrite String.eqb_refl, orb_true_r|]. rewrite Hrec; [done|set_solver]. }
  1-2: destruct (m_up m (data (sys_db s))) as [d [|]]; injection H as <-; apply Hnew; cbn;
    [by apply NoDup_middle in ND as [_ ?]
    |intros v Hv; rewrite recorded_remove; apply NoDup_middle in ND as [Hn _]; rewrite Hrec by set_solver;
     cbn; apply negb_true_iff, String.eqb_neq; by intros ->
    |by rewrite <- app_assoc
    |intros v Hv; rewrite recorded_applied; apply Hrec; by rewrite <- app_assoc in Hv].
  1-2: injection H as <-; apply Hnew; cbn; [by apply NoDup_middle in ND as [_ ?]|intros v Hv; apply Hrec; set_solver].
  1-2: injection H as <-; by apply Hnew.
Qed.

Lemma once_steps s s' : rtc steps_to s s' -> once_inv s -> once_inv s'.
Proof. induction 1 as [|s1 s2 s3 (i & now & ev & H) _ IH]; [done|]. intros Hi. apply IH. by eapply once_step. Qed.

Lemma deploy_claims n ms d : claims (deploy n ms d) = [].
Proof. unfold claims, deploy. cbn. by induction n. Qed.

Lemma deploy_once n ms d s : rtc steps_to (deploy n ms d) s -> NoDup (claims s).
Proof.
  intros H. apply once_steps in H as [ND _]; [done|]. split; rewrite deploy_claims; [constructor|].
  intros v Hv. by apply elem_of_nil in Hv.
Qed.

(** However many instances start, whatever their interleaving, and even when
    some throw or die: no migration runs to its end twice, none runs in two
    instances at a time, and none runs that has already been completed. *)
Theorem migrations_run_once n ms d s : rtc steps_to (deploy n ms d) s -> NoDup (claims s).
Proof. apply deploy_once. Qed.

(** Until an instance fails, what is recorded is what was recorded at the
    start and what the instances have claimed, and every instance still has
    to come to what is not. *)
Definition fair_inv (e0 : list entry) (ms : list (migration D)) s : Prop :=
  Forall (fun x => failed x = false) (instances s) ->
  (forall v, recorded v (entries (sys_db s)) = true <-> recorded v e0 = true \/ v ∈ claims s) /\
  (forall v, v ∈ claims s -> recorded v e0 = false) /\
  forall x m, x ∈ instances s -> m ∈ ms -> recorded (version_of m) (entries (sys_db s)) = true \/ m ∈ todo x.

Lemma not_failed_before i x y s : instances s !! i = Some x -> failed y = failed x ->
  Forall (fun x => failed x = false) (set_instance i y s) -> Forall (fun x => failed x = false) (instances s).
Proof.
  intros Hx E H. rewrite Forall_lookup in H |- *. intros j z Hz. destruct (decide (j = i)) as [->|Hne].
  - assert (z = x) as -> by congruence. rewrite <- E. apply (H i). apply list_lookup_insert_eq. by eapply lookup_lt_Some.
  - apply (H j). unfold set_instance. by rewrite list_lookup_insert_ne.
Qed.

Lemma failed_now i x y s : instances s !! i = Some x -> failed y = true -> ~ Forall (fun x => failed x = false) (set_instance i y s).
Proof.
  intros Hx E H. rewrite Forall_lookup in H. specialize (H i y). rewrite H in E; [done|].
  apply list_lookup_insert_eq. by eapply lookup_lt_Some.
Qed.

Lemma elem_set_instance i y z s : z ∈ set_instance i y s -> z = y \/ z ∈ instances s.
Proof.
  intros (j & Hj)%list_elem_of_lookup. unfold set_instance in Hj. apply list_lookup_insert_Some in Hj as [(_ & -> & _)|[_ Hj]]; [by left|].
  right. by eapply list_elem_of_lookup_2.
Qed.

Lemma fair_step e0 ms i now ev s s' : sys_step i now ev s = Some s' -> fair_inv e0 ms s -> fair_inv e0 ms s'.
Proof.
  unfold sys_step. intros H Hinv. destruct (instances s !! i) as [x|] eqn:Hx; [cbn [mbind option_bind] in H|done].
  pose proof (claims_here _ _ _ Hx) as Hcl. pose proof (fun y c e => claims_step i x y c s e Hx) as Hcl'.
  assert (Hxin : x ∈ instances s) by by eapply list_elem_of_lookup_2.
  unfold in_flight in Hcl, Hcl' at 1. fold in_flight in Hcl, Hcl'.
  set (rest := omap in_flight (delete i (instances s))) in *.
  destruct ev as [|t|].
  - destruct (running x) as [|] eqn:Hrun; [done|]. destruct (todo x) as [|m' l] eqn:Htodo; [done|]. cbn in Hcl.
    destruct (recorded _ _) eqn:E; injection H as <-; intros Hnf; apply (not_failed_before i x) in Hnf; [|done|done| |done|done];
      destruct (Hinv Hnf) as (A & B & C); setoid_rewrite Hcl'; setoid_rewrite Hcl in A; setoid_rewrite Hcl in B; cbn.
    + split_and!; [done|done|]. intros z m [->|Hz]%elem_set_instance Hm; [|by apply C].
      destruct (C x m Hxin Hm) as [|Hin]; [by left|]. rewrite Htodo in Hin. apply elem_of_cons in Hin as [->|]; [by left|by right].
    + assert (B0 : recorded (version_of m') e0 = false).
      { apply not_true_iff_false. intros B0. assert (Hb : recorded (version_of m') (entries (sys_db s)) = true) by (apply A; by left).
        by rewrite E in Hb. }
      split_and!.
      * intros v. rewrite recorded_last, orb_true_iff, A, String.eqb_eq. set_solver.
      * intros v Hv. destruct (decide (v = version_of m')) as [->|Hne]; [done|]. apply B. set_solver.
      * intros z m Hz Hm. rewrite recorded_last. apply elem_set_instance in Hz as [->|Hz].
        -- destruct (C x m Hxin Hm) as [->|Hin]; [by left|]. rewrite Htodo in Hin.
           apply elem_of_cons in Hin as [->|]; [left; by rewrite String.eqb_refl, orb_true_r|by right].
        -- destruct (C z m Hz Hm) as [->|]; [by left|by right].
  - destruct (running x) as [m0|] eqn:Hrun; [|by destruct (todo x)]. cbn in Hcl.
    destruct (m_up m0 (data (sys_db s))) as [d [|]]; injection H as <-; intros Hnf; [by eapply failed_now in Hnf|].
    apply (not_failed_before i x) in Hnf; [|done|done]. destruct (Hinv Hnf) as (A & B & C).
    setoid_rewrite Hcl'. setoid_rewrite Hcl in A. setoid_rewrite Hcl in B. cbn. setoid_rewrite recorded_applied.
    split_and!.
    + intros v. rewrite A. set_solver.
    + intros v Hv. apply B. set_solver.
    + intros z m [->|Hz]%elem_set_instance Hm; [cbn; by apply C|by apply C].
  - assert (s' = System (sys_db s) (set_instance i (Instance [] None true) s) (completed s)) as ->
      by (destruct (running x), (todo x); congruence).
    intros Hnf. by eapply failed_now in Hnf.
Qed.

Lemma fair_steps e0 ms s s' : rtc steps_to s s' -> fair_inv e0 ms s -> fair_inv e0 ms s'.
Proof. induction 1 as [|s1 s2 s3 (i & now & ev & H) _ IH]; [done|]. intros Hi. apply IH. by eapply fair_step. Qed.

(** When instances deploy together and all come to the end without a failure,
    every migration that was not recorded before has run, exactly once, and
    nothing else has. *)
Theorem deployment_applies_everything n ms d s : rtc steps_to (deploy n ms d) s ->
  Forall (fun x => todo x = [] /\ running x = None /\ failed x = false) (instances s) -> instances s <> [] ->
  NoDup (completed s) /\
  forall m, m ∈ ms -> (version_of m ∈ completed s <-> recorded (version_of m) (entries d) = false).
Proof.
  intros Hsteps Hend Hne. pose proof (deploy_once n ms d s Hsteps) as ND.
  assert (Hcl : claims s = completed s).
  { unfold claims. assert (omap in_flight (instances s) = []) as ->; [|apply app_nil_r]. clear -Hend.
    induction Hend as [|x l (_ & Hr & _) _ IH]; [done|]. cbn. unfold in_flight at 1. by rewrite Hr. }
  rewrite Hcl in ND. split; [done|].
  assert (Hf : fair_inv (entries d) ms (deploy n ms d)).
  { intros _. rewrite deploy_claims. split_and!.
    - intros v. cbn. set_solver.
    - intros v Hv. by apply elem_of_nil in Hv.
    - intros x m Hx Hm. cbn in Hx. apply elem_of_replicate in Hx as [-> _]. by right. }
  destruct (fair_steps _ _ _ _ Hsteps Hf) as (A & B & C).
  { eapply Forall_impl; [exact Hend|]. by intros x (_ & _ & ?). }
  rewrite Hcl in A, B. intros m Hm. split; [apply B|]. intros H0.
  destruct (instances s) as [|x l] eqn:Ei; [done|]. destruct (C x m ltac:(left) Hm) as [Hr|Hin].
  - apply A in Hr as [Hr|Hr]; [by rewrite H0 in Hr|done].
  - inversion Hend as [|? ? (Ht & _) _]; subst. rewrite Ht in Hin. by apply elem_of_nil in Hin.
Qed.
End Deployment.

(** ** Rolling back *)

Lemma sort_insert_head {A} (cmp : A -> A -> Z) x e l : head l = Some e -> 0 < cmp x e -> head (sort_insert cmp x l) = Some e.
Proof. destruct l as [|y l]; [done|]. intros [= ->] H. cbn. destruct (Z.leb_spec (cmp x e) 0); [lia|done]. Qed.

Lemma sort_head_last {A} (cmp : A -> A -> Z) l e : Forall (fun x => 0 < cmp x e) l -> head (js_sort cmp (l ++ [e])) = Some e.
Proof.
  unfold js_sort. rewrite foldr_app. induction 1 as [|x l Hx _ IH]; [done|]. cbn [foldr]. by apply sort_insert_head.
Qed.

Lemma applied_fresh v t l : recorded v l = false -> set_applied v t l = l /\ remove_entry v l = l.
Proof.
  unfold recorded, set_applied, remove_entry. induction l as [|e l IH]; [done|]. cbn.
  destruct (e_version e =? v)%string; [done|]. cbn. intros H. destruct (IH H) as [-> ->]. done.
Qed.

Section Rollback.
Variable D : Type.

(** Rolling back right after a migration was applied calls its [down] and
    forgets its record: when [down] undoes [up], nothing of it remains. *)
Theorem rollback_undoes clock dir (m : migration D) down d s :
  m_version m <> None -> recorded (version_of m) (entries s) = false ->
  Forall (fun e => default 0 (appliedAt e) < (clock (version_of m)).2) (entries s) ->
  m ∈ dir -> is_js (m_file m) = true -> (forall m', m' ∈ dir -> m_version m' = m_version m -> m' = m) ->
  m_up m (data s) = (d, false) -> m_down m = Some down -> down d = (data s, false) ->
  exists s1, run_loop clock [m] s = (Ok tt, s1) /\ rollback dir s1 = (Ok tt, s).
Proof.
  intros Hv Hrec Hold Hm Hjs Huniq Hup Hdown Hback. cbn [run_loop]. rewrite Hrec, Hup.
  set (v := version_of m) in *. eexists. split; [reflexivity|].
  assert (Es : set_applied v (clock v).2 (entries s ++ [Entry v (clock v).1 (Some (clock v).1)]) = entries s ++ [Entry v (clock v).1 (Some (clock v).2)]).
  { unfold set_applied. rewrite map_app. fold (set_applied v (clock v).2 (entries s)). rewrite (proj1 (applied_fresh v _ _ Hrec)). cbn. by rewrite String.eqb_refl. }
  unfold rollback. cbn [entries data]. rewrite Es.
  assert (last_applied (entries s ++ [Entry v (clock v).1 (Some (clock v).2)]) = Some (Entry v (clock v).1 (Some (clock v).2))) as ->.
  { unfold last_applied. rewrite List.filter_app. cbn. apply sort_head_last. rewrite Forall_forall in Hold |- *.
    intros e [_ He]%elem_of_filterb. specialize (Hold e He). cbn. lia. }
  cbn [e_version].
  assert (Hf : List.find (fun m' : migration D => bool_decide (m_version m' = Some v)) (List.filter (fun m' => is_js (m_file m')) dir) = Some m).
  { destruct (List.find _ _) as [m'|] eqn:E.
    - apply List.find_some in E as [Hin Ev]. apply bool_decide_eq_true in Ev. f_equal. apply Huniq.
      + apply list_elem_of_In, elem_of_filterb in Hin. apply Hin.
      + rewrite Ev. unfold v, version_of. by destruct (m_version m).
    - assert (Hin : m ∈ List.filter (fun m' => is_js (m_file m')) dir) by by apply elem_of_filterb.
      apply list_elem_of_In in Hin. apply (List.find_none _ _ E) in Hin. apply bool_decide_eq_false in Hin. exfalso. apply Hin.
      unfold v, version_of. by destruct (m_version m). }
  rewrite Hf, Hdown, Hback. f_equal. destruct s as [es ds]. cbn in *. f_equal. unfold remove_entry. rewrite List.filter_app.
  fold (remove_entry v es). rewrite (proj2 (applied_fresh v 0 _ Hrec)). cbn. rewrite String.eqb_refl. cbn. apply app_nil_r.
Qed.
End Rollback.

(** ** Concrete runs *)

(** Migrations that note their number. *)
Definition noting (n : nat) (file version : string) : migration (list nat) :=
  Migration file (Some version) (fun d => (d ++ [n], false)) (Some (fun d => (take (length d - 1) d, false))).
Definition two : list (migration (list nat)) := [noting 1 "001_a.js" "001_a"; noting 2 "002_b.js" "002_b"].
Definition no_clock (v : string) : Z * Z := (5, 7).

(** What eight files of the directory export as their version. *)
Definition exports_015 : option string := Some "014_add_payment_report_index".
Definition exports_017 : option string := Some "015_add_school_webhook_secret".
Definition exports_020 : option string := Some "017_tenant_isolate_source_validation_rules".
Definition exports_021 : option string := Some "017_encrypt_webhook_secrets".
Definition exports_034_class : option string := Some "018_add_school_class_options".
Definition exports_034_receipt : option string := None.
Definition exports_035_stroops : option string := None.
Definition exports_036_unify : option string := None.

Definition shipped : list (migration (list nat)) :=
  map (fun x => Migration (fst x) (snd x) (fun d => (d, false)) None)
    [("015_add_payment_report_index.js", exports_015); ("017_add_school_webhook_secret.js", exports_017);
     ("020_tenant_isolate_source_validation_rules.js", exports_020); ("021_encrypt_webhook_secrets.js", exports_021);
     ("034_add_school_class_options.js", exports_034_class); ("034_receipt_op_index.js", exports_034_receipt);
     ("035_backfill_monetary_stroops.js", exports_035_stroops); ("036_unify_fee_validation_status.js", exports_036_unify)].

(** The directory as it is shipped can not be run. *)
Lemma nonconforming_refused_witness : exists bad,
  runMigrations no_clock (Some (two ++ shipped)) (Db [] []) = (Throw (BadExports bad), Db [] []) /\ "021_encrypt_webhook_secrets.js" ∈ bad.
Proof.
  apply (nonconforming_refused (list nat) no_clock (two ++ shipped)
           (Migration "021_encrypt_webhook_secrets.js" exports_021 (fun d => (d, false)) None)); [|reflexivity..].
  apply elem_of_app. right. unfold shipped. cbn [map fst snd]. do 3 right. left.
Defined.

Lemma run_applies_pending_witness :
  (run_loop no_clock two (Db [] [])).1 = Ok tt /\ data (run_loop no_clock two (Db [] [])).2 = [1%nat; 2%nat].
Proof.
  pose proof (run_applies_pending (list nat) no_clock two (Db [] []) ltac:(apply NoDup_ListNoDup; by repeat constructor; cbn; intuition congruence)) as H.
  destruct (run_loop no_clock two (Db [] [])) as [r s']. cbn in H |- *. destruct H as (-> & -> & _). done.
Defined.

Definition together : list (nat * Z * event) :=
  [(0%nat, 1, Claim); (1%nat, 2, Claim); (1%nat, 3, Claim); (1%nat, 4, Finish 4); (0%nat, 5, Finish 5); (0%nat, 6, Claim)].

Lemma schedule_steps {D} l : forall s s' : system D, run_schedule l s = Some s' -> rtc steps_to s s'.
Proof.
  induction l as [|[[i now] ev] l IH]; intros s s' H; [by injection H as <-|]. cbn [run_schedule] in H.
  destruct (sys_step i now ev s) as [s1|] eqn:E; [|done]. econstructor; [by exists i, now, ev|]. by apply IH.
Qed.

Lemma migrations_run_once_witness : exists s, run_schedule together (deploy 2 two (Db [] [])) = Some s /\ NoDup (claims (list nat) s).
Proof.
  eexists. split; [vm_compute; reflexivity|].
  apply (migrations_run_once (list nat) 2 two (Db [] [])). apply (schedule_steps together). vm_compute. reflexivity.
Defined.

Lemma deployment_applies_everything_witness : exists s, run_schedule together (deploy 2 two (Db [] [])) = Some s /\
  NoDup (completed s) /\ "001_a" ∈ completed s.
Proof.
  eexists. split; [vm_compute; reflexivity|].
  edestruct (deployment_applies_everything (list nat) 2 two (Db [] [])) as [ND Hall].
  - apply (schedule_steps together). vm_compute. reflexivity.
  - repeat constructor.
  - discriminate.
  - split; [exact ND|]. apply (proj2 (Hall (noting 1 "001_a.js" "001_a") ltac:(left))). reflexivity.
Defined.

Lemma rollback_undoes_witness : exists s1,
  run_loop no_clock [noting 2 "002_b.js" "002_b"] (Db [Entry "001_a" 1 (Some 2)] [1%nat]) = (Ok tt, s1) /\
  rollback two s1 = (Ok tt, Db [Entry "001_a" 1 (Some 2)] [1%nat]).
Proof.
  apply (rollback_undoes (list nat) no_clock two (noting 2 "002_b.js" "002_b") (fun d => (take (length d - 1) d, false)) [1%nat; 2%nat]);
    try reflexivity; [discriminate|repeat constructor|right; left|].
  intros m' Hm E. repeat (apply elem_of_cons in Hm as [->|Hm]; [try discriminate E; try reflexivity|]). by apply elem_of_nil in Hm.
Defined.

(** A second instance passes over a migration that is still running: it
    applies the next one before it, and ends its run successfully. *)
Theorem migrations_out_of_order : exists s,
  run_schedule (take 4 together) (deploy 2 two (Db [] [])) = Some s /\
  completed s = ["002_b"] /\ data (sys_db s) = [2%nat] /\ instances s !! 1%nat = Some (Instance [] None false).
Proof. eexists. split; [vm_compute; reflexivity|]. done. Qed.

(** A migration whose process died stays recorded as applied: the next run
    reports success without it. *)
Theorem crashed_migration_skipped : exists s,
  run_schedule [(0%nat, 1, Claim); (0%nat, 2, Crash)] (deploy 1 two (Db [] [])) = Some s /\
  run_loop no_clock two (sys_db s) = (Ok tt, Db [Entry "001_a" 1 (Some 1); Entry "002_b" 5 (Some 7)] [2%nat]).
Proof. eexists. split; vm_compute; reflexivity. Qed.

(** A rollback while a migration is running takes that one: the default of
    the schema has dated it already. *)
Theorem rollback_takes_running : exists s,
  run_schedule [(0%nat, 9, Claim)] (deploy 1 [noting 2 "002_b.js" "002_b"] (Db [Entry "001_a" 1 (Some 2)] [1%nat])) = Some s /\
  rollback two (sys_db s) = (Ok tt, Db [Entry "001_a" 1 (Some 2)] []).
Proof. eexists. split; vm_compute; reflexivity. Qed.
End Runner.
