(* ===== verification/DataMigrations.v ===== *)
(** Migrations that change indexes and statuses: backend/migrations/
    032_fix_payment_txhash_indexes.js, 034_receipt_op_index.js,
    035_add_payment_op_index.js and 036_unify_fee_validation_status.js.

    A collection is its documents and its indexes.  A document is a map from
    field names to values.  Creating an index, inserting and updating follow
    MongoDB's rules: a unique index refuses two documents with the same key, a
    missing field counts as null, a sparse index leaves out documents without
    any of its fields. *)

From Stdlib Require Import Ascii ZArith QArith Lia.
From stdpp Require Import base strings gmap list.
From S2P Require Import Prelude.
Local Open Scope string_scope.
Local Open Scope Z_scope.
Local Open Scope list_scope.

(** ** Indexes *)
Module Indexes.

Inductive value := VNull | VStr (s : string) | VNum (z : Z).
#[export] Instance value_eq_dec : EqDecision value.
Proof. solve_decision. Defined.

Abbreviation doc := (gmap string value).

Record index := Index { i_name : string; i_keys : list string; i_unique : bool; i_sparse : bool }.
#[export] Instance index_eq_dec : EqDecision index.
Proof. solve_decision. Defined.

Record collection := Coll { docs : list doc; indexes : list index }.

Inductive db_error := DuplicateKey | IndexOptionsConflict | IndexKeySpecsConflict | IndexNotFound.

Definition field (k : string) (d : doc) : value := default VNull (d !! k).

(** The key of a document, [None] when the index leaves it out. *)
Definition key_of (i : index) (d : doc) : option (list value) :=
  if i_sparse i && forallb (fun k => bool_decide (d !! k = None)) (i_keys i) then None
  else Some (map (fun k => field k d) (i_keys i)).

Definition respects (i : index) (ds : list doc) : bool :=
  negb (i_unique i) || bool_decide (NoDup (omap (key_of i) ds)).

Definition respects_all (c : collection) (ds : list doc) : bool := forallb (fun i => respects i ds) (indexes c).

Definition insert_doc (d : doc) (c : collection) : result db_error collection :=
  if respects_all c (docs c ++ [d]) then Ok (Coll (docs c ++ [d]) (indexes c)) else Throw DuplicateKey.

(** [updateMany(filter, { $set: ... })] *)
Definition update_many (sel : doc -> bool) (f : doc -> doc) (c : collection) : result db_error collection :=
  let ds := map (fun d => if sel d then f d else d) (docs c) in
  if respects_all c ds then Ok (Coll ds (indexes c)) else Throw DuplicateKey.

Definition createIndex (i : index) (c : collection) : result db_error collection :=
  match List.find (fun j => bool_decide (i_keys j = i_keys i) && Bool.eqb (i_sparse j) (i_sparse i)) (indexes c) with
  | Some j => if bool_decide (j = i) then Ok c else Throw IndexOptionsConflict
  | None => if existsb (fun j => (i_name j =? i_name i)%string) (indexes c) then Throw IndexKeySpecsConflict
            else if respects i (docs c) then Ok (Coll (docs c) (indexes c ++ [i])) else Throw DuplicateKey
  end.

Definition dropIndex (name : string) (c : collection) : result db_error collection :=
  if existsb (fun j => (i_name j =? name)%string) (indexes c)
  then Ok (Coll (docs c) (List.filter (fun j => negb (i_name j =? name)%string) (indexes c)))
  else Throw IndexNotFound.

Definition missing (k : string) (d : doc) : bool := bool_decide (d !! k = None).
(** [{ k: null }] also matches a missing field. *)
Definition is_null (k : string) (d : doc) : bool := bool_decide (field k d = VNull).

(** *** Migration 032 *)

Definition legacy_032 (c : collection) : option index :=
  List.find (fun i => i_unique i && bool_decide ("txHash" ∈ i_keys i) && negb (bool_decide ("schoolId" ∈ i_keys i))) (indexes c).

Definition schoolId_txHash_unique : index := Index "schoolId_1_txHash_1_unique" ["schoolId"; "txHash"] true false.
Definition txHash_sparse_unique : index := Index "txHash_1_sparse_unique" ["txHash"] true true.

(** An index that exists under other options is left as it is. *)
Definition ensureIndex (i : index) (c : collection) : result db_error collection :=
  match createIndex i c with Throw IndexOptionsConflict => Ok c | r => r end.

Definition drop_first (o : option index) (c : collection) : result db_error collection :=
  match o with Some i => dropIndex (i_name i) c | None => Ok c end.

Definition up_032_fix (c : collection) : result db_error collection :=
  c1 ← drop_first (legacy_032 c) c;
  c2 ← ensureIndex schoolId_txHash_unique c1;
  ensureIndex txHash_sparse_unique c2.

(** *** Migration 034 *)

Definition receipt_index : index := Index "schoolId_1_txHash_1_opIndex_1" ["schoolId"; "txHash"; "opIndex"] true false.

Definition isTxHashOnlyUniqueIndex (i : index) : bool := bool_decide (i_keys i = ["txHash"]).

(** The name, or the three keys in whatever order. *)
Definition is_compound (i : index) : bool :=
  (i_name i =? i_name receipt_index)%string ||
  ((length (i_keys i) =? 3)%nat && forallb (fun k => bool_decide (k ∈ i_keys i)) ["schoolId"; "txHash"; "opIndex"]).

(** [None]: the collection does not exist. *)
Definition up_034_receipt (o : option collection) : result db_error (option collection) :=
  match o with
  | None => Ok None
  | Some c =>
    c1 ← update_many (missing "opIndex") (insert "opIndex" (VNum 0)) c;
    c2 ← update_many (is_null "opIndex") (insert "opIndex" (VNum 0)) c1;
    let c3 := Coll (docs c2) (List.filter (fun i => negb (isTxHashOnlyUniqueIndex i)) (indexes c2)) in
    if existsb is_compound (indexes c2) then Ok (Some c3) else Some <$> createIndex receipt_index c3
  end.

(** *** Migration 035 *)

Definition legacy_035 (c : collection) : option index :=
  List.find (fun i => i_unique i && bool_decide (i_keys i = ["txHash"])) (indexes c).

Definition op_index : index := Index "txHash_1_opIndex_1" ["txHash"; "opIndex"] true false.

Definition PLACEHOLDER_FILTER (d : doc) : bool :=
  bool_decide (d !! "studentId" = Some (VStr "unknown")) && bool_decide (d !! "amount" = Some (VNum 0))
  && bool_decide (d !! "status" = Some (VStr "FAILED")).

Definition truthy_value (v : value) : bool :=
  match v with VNull => false | VStr s => negb (s =? "")%string | VNum z => negb (z =? 0) end.
Definition or_value (a b : value) : value := if truthy_value a then a else b.

Definition to_attempt (now : Z) (d : doc) : doc :=
  <["txHash" := field "txHash" d]> (<["schoolId" := field "schoolId" d]>
  (<["code" := or_value (field "rejectionCode" d) (or_value (field "failureCode" d) (VStr "UNKNOWN"))]>
  (<["message" := or_value (field "failureReason" d) (or_value (field "message" d) VNull)]>
  (<["attemptedAt" := or_value (field "createdAt" d) (or_value (field "updatedAt" d) (VNum now))]>
  (<["migratedAt" := VNum now]> (<["source" := VStr "migration_035"]> (<["originalPaymentId" := field "_id" d]> ∅))))))).

Definition up_035_op (now : Z) (payments attempts : collection) : result db_error (collection * collection) :=
  p1 ← update_many (missing "opIndex") (insert "opIndex" (VNum 0)) payments;
  p2 ← drop_first (legacy_035 p1) p1;
  p3 ← createIndex op_index p2;
  let placeholders := List.filter PLACEHOLDER_FILTER (docs p3) in
  let p4 := Coll (List.filter (fun d => negb (PLACEHOLDER_FILTER d)) (docs p3)) (indexes p3) in
  let a1 := Coll (docs attempts ++ map (to_attempt now) placeholders) (indexes attempts) in
  a2 ← createIndex (Index "txHash_1_schoolId_1" ["txHash"; "schoolId"] false false) a1;
  a3 ← createIndex (Index "attemptedAt_1" ["attemptedAt"] false false) a2;
  Ok (p4, a3).

(** ** What the indexes then allow *)

Lemma NoDup_omap_app {A B} (f : A -> option B) l x :
  NoDup (omap f (l ++ [x])) <-> NoDup (omap f l) /\ forall y, f x = Some y -> y ∉ omap f l.
Proof.
  rewrite omap_app. cbn. destruct (f x) as [y|] eqn:E; cbn.
  - rewrite NoDup_app. split.
    + intros (H1 & H2 & _). split; [done|]. intros z [= <-] Hz. apply (H2 y Hz). by left.
    + intros [H1 H2]. split_and!; [done| |apply NoDup_singleton]. intros z Hz [->|H]%elem_of_cons; [by eapply H2|by apply elem_of_nil in H].
  - rewrite app_nil_r. split; [done|]. by intros [? _].
Qed.

(** Two documents with the same key under a unique index. *)
Lemma insert_refused i d e c : i ∈ indexes c -> i_unique i = true -> e ∈ docs c -> is_Some (key_of i e) -> key_of i d = key_of i e ->
  insert_doc d c = Throw DuplicateKey.
Proof.
  intros Hi Hu He [y Hy] Hk. unfold insert_doc. destruct (respects_all c (docs c ++ [d])) eqn:E; [|done].
  exfalso. unfold respects_all in E. rewrite forallb_forall in E. specialize (E i ltac:(by apply list_elem_of_In)).
  unfold respects in E. rewrite Hu in E. cbn in E. apply bool_decide_eq_true, NoDup_omap_app in E as [_ E].
  apply (E y); [by rewrite Hk|]. apply list_elem_of_omap. by exists e.
Qed.

Lemma createIndex_spec i c c' : createIndex i c = Ok c' ->
  docs c' = docs c /\ (forall j, j ∈ indexes c' <-> j ∈ indexes c \/ j = i) /\ (i ∈ indexes c \/ respects i (docs c) = true).
Proof.
  unfold createIndex. destruct (List.find _ _) as [j|] eqn:E.
  - destruct (bool_decide (j = i)) eqn:Ej; [|done]. apply bool_decide_eq_true in Ej as ->. intros [= <-].
    apply List.find_some in E as [Hin _]. apply list_elem_of_In in Hin. set_solver.
  - destruct (existsb _ _); [done|]. destruct (respects i (docs c)) eqn:R; [|done]. intros [= <-]. cbn. set_solver.
Qed.

Lemma update_many_spec sel f c c' : update_many sel f c = Ok c' ->
  docs c' = map (fun d => if sel d then f d else d) (docs c) /\ indexes c' = indexes c.
Proof. unfold update_many. destruct (respects_all _ _); [|done]. by intros [= <-]. Qed.

Lemma drop_first_spec o c c' : drop_first o c = Ok c' ->
  docs c' = docs c /\ forall j, j ∈ indexes c' <-> j ∈ indexes c /\ forall i, o = Some i -> i_name j <> i_name i.
Proof.
  destruct o as [i|]; cbn.
  - unfold dropIndex. destruct (existsb _ _); [|done]. intros [= <-]. split; [done|]. intros j. cbn. rewrite elem_of_filterb, negb_true_iff, String.eqb_neq.
    split; [intros [H1 H2]; split; [done|by intros ? [= <-]]|intros [H1 H2]; split; [by apply H2|done]].
  - intros [= <-]. split; [done|]. intros j. split; [done|]. by intros [? _].
Qed.

Definition backfilled (d : doc) : doc := if missing "opIndex" d then <["opIndex" := VNum 0]> d else d.

Lemma backfilled_field k d : k <> "opIndex" -> backfilled d !! k = d !! k.
Proof. intros H. unfold backfilled. destruct (missing _ _); [|done]. by rewrite lookup_insert_ne. Qed.

Lemma backfilled_placeholder d : PLACEHOLDER_FILTER (backfilled d) = PLACEHOLDER_FILTER d.
Proof. unfold PLACEHOLDER_FILTER. by rewrite !backfilled_field by done. Qed.

Lemma up_035_spec now p a p' a' : up_035_op now p a = Ok (p', a') ->
  docs p' = List.filter (fun d => negb (PLACEHOLDER_FILTER d)) (map backfilled (docs p)) /\
  docs a' = docs a ++ map (to_attempt now) (List.filter PLACEHOLDER_FILTER (map backfilled (docs p))) /\
  (forall j, j ∈ indexes p' <-> (j ∈ indexes p /\ forall i, legacy_035 p = Some i -> i_name j <> i_name i) \/ j = op_index) /\
  (op_index ∈ indexes p \/ respects op_index (map backfilled (docs p)) = true).
Proof.
  intros H. unfold up_035_op in H. apply bind_Ok in H as (p1 & H1 & H). apply bind_Ok in H as (p2 & H2 & H). apply bind_Ok in H as (p3 & H3 & H).
  apply bind_Ok in H as (a2 & H4 & H). apply bind_Ok in H as (a3 & H5 & H). injection H as <- <-.
  apply update_many_spec in H1 as [D1 I1]. apply drop_first_spec in H2 as [D2 I2].
  apply createIndex_spec in H3 as (D3 & I3 & R3). apply createIndex_spec in H4 as (D4 & _ & _). apply createIndex_spec in H5 as (D5 & _ & _).
  assert (Ed : docs p3 = map backfilled (docs p)) by (rewrite D3, D2; exact D1).
  assert (El : legacy_035 p1 = legacy_035 p) by (unfold legacy_035; by rewrite I1).
  cbn [docs indexes] in *. rewrite <- Ed. split_and!; [done|by rewrite D5, D4| |].
  - intros j. rewrite I3, I2, I1, El. done.
  - destruct R3 as [R3|R3]; [left|right; by rewrite D3]. apply I2 in R3 as [R3 _]. by rewrite I1 in R3.
Qed.

(** With the per-school index of migration 032 in place, migration 035 does
    not make room for a second operation: a payment of a transaction that a
    school already has a payment of is refused, whatever its operation. *)
Theorem second_operation_blocked now p a p' a' e d :
  up_035_op now p a = Ok (p', a') -> NoDup (map i_name (indexes p)) -> schoolId_txHash_unique ∈ indexes p ->
  e ∈ docs p -> PLACEHOLDER_FILTER e = false ->
  field "schoolId" d = field "schoolId" e -> field "txHash" d = field "txHash" e ->
  insert_doc d p' = Throw DuplicateKey.
Proof.
  intros Hup ND Hi He Hp Hs Ht. apply up_035_spec in Hup as (Ed & _ & Ei & _).
  apply (insert_refused schoolId_txHash_unique d (backfilled e)).
  - apply Ei. left. split; [done|]. intros i Hl Hn. apply List.find_some in Hl as [Hin Hk]. apply list_elem_of_In in Hin.
    apply andb_prop in Hk as [_ Hk]. apply bool_decide_eq_true in Hk.
    assert (i = schoolId_txHash_unique) as -> by (apply (NoDup_fmap_eq i_name (indexes p)); done). done.
  - done.
  - rewrite Ed. apply elem_of_filterb. rewrite backfilled_placeholder, Hp. split; [done|]. by apply list_elem_of_fmap_2.
  - by eexists.
  - unfold key_of, field. cbn. rewrite !backfilled_field by done. unfold field in Hs, Ht. by rewrite Hs, Ht.
Qed.

(** Where the legacy index on the transaction hash is the only unique one, a
    payment's identity becomes its transaction and operation: exactly those
    that repeat both are refused. *)
Theorem operation_identity now p a p' a' d :
  up_035_op now p a = Ok (p', a') ->
  (forall i, i ∈ indexes p -> i_unique i = true -> i_keys i = ["txHash"]) ->
  (forall i j, i ∈ indexes p -> j ∈ indexes p -> i_unique i = true -> i_unique j = true -> i = j) ->
  (exists c, insert_doc d p' = Ok c) <->
  forall e, e ∈ docs p' -> ~ (field "txHash" e = field "txHash" d /\ field "opIndex" e = field "opIndex" d).
Proof.
  intros Hup Hk Hone. apply up_035_spec in Hup as (Ed & _ & Ei & Er).
  destruct Er as [Er|Er]; [by apply Hk in Er|]. unfold respects in Er. cbn in Er. apply bool_decide_eq_true in Er.
  assert (Hu : forall j, j ∈ indexes p' -> i_unique j = true -> j = op_index).
  { intros j [[Hj Hn]| ->]%Ei Hju; [|done]. exfalso. destruct (legacy_035 p) as [i|] eqn:El.
    - pose proof El as Hl. apply List.find_some in Hl as [Hin Hl]. apply list_elem_of_In in Hin. apply andb_prop in Hl as [Hiu _].
      apply (Hn i eq_refl). f_equal. by apply Hone.
    - pose proof (List.find_none _ _ El j ltac:(by apply list_elem_of_In)) as Hf. cbn in Hf. rewrite Hju, (Hk j Hj Hju) in Hf. done. }
  assert (NDp : NoDup (omap (key_of op_index) (docs p'))).
  { rewrite Ed. revert Er. generalize (map backfilled (docs p)). clear. intros l. induction l as [|x l IH]; [done|]. cbn.
    intros [Hx Hl]%NoDup_cons. specialize (IH Hl). destruct (negb _); [|done]. cbn. constructor; [|done]. intros Hin. apply Hx.
    apply list_elem_of_omap in Hin as (y & Hy & Ey). apply elem_of_filterb in Hy as [_ Hy]. apply list_elem_of_omap. by exists y. }
  assert (Hins : (exists c, insert_doc d p' = Ok c) <-> NoDup (omap (key_of op_index) (docs p' ++ [d]))).
  { unfold insert_doc. split.
    - destruct (respects_all p' (docs p' ++ [d])) eqn:E; [|by intros [c Hc]]. intros _. unfold respects_all in E. rewrite forallb_forall in E.
      specialize (E op_index ltac:(apply list_elem_of_In, Ei; by right)). unfold respects in E. cbn in E. by apply bool_decide_eq_true in E.
    - intros ND. assert (respects_all p' (docs p' ++ [d]) = true) as ->; [|by eexists]. apply forallb_forall. intros j Hj%list_elem_of_In.
      unfold respects. destruct (i_unique j) eqn:Ej; [|done]. rewrite (Hu j Hj Ej). by apply bool_decide_eq_true. }
  rewrite Hins, NoDup_omap_app. split.
  - intros [_ H] e He [Et Eo]. apply (H _ eq_refl). apply list_elem_of_omap. exists e. split; [done|]. cbn. by rewrite Et, Eo.
  - intros H. split; [done|]. intros y [= <-] (e & He & Ee)%list_elem_of_omap. apply (H e He). cbn in Ee. by injection Ee as -> ->.
Qed.

(** The failure placeholders leave the payments, and none is lost. *)
Theorem placeholders_moved now p a p' a' : up_035_op now p a = Ok (p', a') ->
  (forall d, d ∈ docs p' -> PLACEHOLDER_FILTER d = false) /\
  (length (docs p') + length (docs a') = length (docs p) + length (docs a))%nat /\
  forall d, d ∈ docs p -> PLACEHOLDER_FILTER d = true -> exists t, (t ∈ docs a') /\ field "txHash" t = field "txHash" d /\ field "schoolId" t = field "schoolId" d.
Proof.
  intros Hup. apply up_035_spec in Hup as (Ed & Ea & _ & _). rewrite Ed, Ea. split_and!.
  - intros d [Hd _]%elem_of_filterb. by apply negb_true_iff.
  - rewrite length_app, length_map. pose proof (filterb_split PLACEHOLDER_FILTER (map backfilled (docs p))) as Hs.
    apply Permutation_length in Hs. rewrite length_app, length_map in Hs. lia.
  - intros d Hd Hp. exists (to_attempt now (backfilled d)). split.
    + apply elem_of_app. right. apply list_elem_of_fmap_2, elem_of_filterb. rewrite backfilled_placeholder. split; [done|]. by apply list_elem_of_fmap_2.
    + unfold field, to_attempt. cbn. rewrite !lookup_insert_eq, lookup_insert_ne by done. rewrite lookup_insert_eq. cbn.
      unfold field. by rewrite !backfilled_field.
Qed.

Lemma respects_update sel f c c' : update_many sel f c = Ok c' -> forall i, i ∈ indexes c -> respects i (docs c') = true.
Proof.
  unfold update_many. destruct (respects_all _ _) eqn:E; [|done]. intros [= <-] i Hi. unfold respects_all in E. rewrite forallb_forall in E.
  apply E. by apply list_elem_of_In.
Qed.

Lemma update_many_none sel f c : (forall d, d ∈ docs c -> sel d = false) -> (forall i, i ∈ indexes c -> respects i (docs c) = true) ->
  update_many sel f c = Ok c.
Proof.
  intros Hs Hr. unfold update_many.
  assert (map (fun d => if sel d then f d else d) (docs c) = docs c) as ->.
  { revert Hs. generalize (docs c). intros l. induction l as [|d l IH]; intros Hs; [done|]. cbn. rewrite Hs by by left.
    rewrite IH; [done|]. intros x Hx. apply Hs. by right. }
  assert (respects_all c (docs c) = true) as ->; [|by destruct c].
  apply forallb_forall. intros i Hi. by apply Hr, list_elem_of_In.
Qed.

(** Migration 034 keys receipts by school, transaction and operation; running
    it again changes nothing. *)
Theorem receipt_index_idempotent c c' :
  (forall i, i ∈ indexes c -> i_name i = i_name receipt_index -> i_keys i = i_keys receipt_index) ->
  up_034_receipt (Some c) = Ok (Some c') ->
  up_034_receipt (Some c') = Ok (Some c') /\
  (forall d, d ∈ docs c' -> field "opIndex" d <> VNull) /\ (forall i, i ∈ indexes c' -> i_keys i <> ["txHash"]) /\
  existsb is_compound (indexes c') = true.
Proof.
  intros Hname H. cbn [up_034_receipt] in H. apply bind_Ok in H as (c1 & H1 & H). apply bind_Ok in H as (c2 & H2 & H).
  pose proof (respects_update _ _ _ _ H2) as R2. apply update_many_spec in H1 as [D1 I1]. apply update_many_spec in H2 as [D2 I2].
  set (c3 := Coll (docs c2) (List.filter (fun i => negb (isTxHashOnlyUniqueIndex i)) (indexes c2))) in *.
  assert (Hn : forall d, d ∈ docs c2 -> field "opIndex" d <> VNull).
  { intros d Hd. rewrite D2 in Hd. apply list_elem_of_fmap in Hd as (e & -> & _). destruct (is_null "opIndex" e) eqn:En.
    - unfold field. by rewrite lookup_insert_eq.
    - unfold is_null in En. by apply bool_decide_eq_false in En. }
  assert (R3 : forall i, i ∈ indexes c3 -> respects i (docs c3) = true).
  { intros i [_ Hi]%elem_of_filterb. apply R2. by rewrite <- I2. }
  assert (Hc' : docs c' = docs c2 /\ existsb is_compound (indexes c') = true /\ (forall i, i ∈ indexes c' -> i ∈ indexes c3 \/ i = receipt_index) /\
                (forall i, i ∈ indexes c' -> respects i (docs c') = true)).
  { destruct (existsb is_compound (indexes c2)) eqn:Ec.
    - injection H as <-. split_and!; [done| |by left|done]. rewrite existsb_exists in Ec |- *. destruct Ec as (i & Hi & Ei). exists i. split; [|done].
      apply list_elem_of_In, elem_of_filterb. rewrite list_elem_of_In. split; [|done]. unfold isTxHashOnlyUniqueIndex.
      destruct (bool_decide (i_keys i = ["txHash"])) eqn:Ek; [|done]. exfalso. apply bool_decide_eq_true in Ek.
      unfold is_compound in Ei. rewrite Ek in Ei. cbn in Ei. rewrite orb_false_r in Ei. apply String.eqb_eq, Hname in Ei; [by rewrite Ek in Ei|]. rewrite <- I1, <- I2. by apply list_elem_of_In.
    - destruct (createIndex receipt_index c3) as [c4|] eqn:E4; [|done]. injection H as <-.
      pose proof E4 as E5. apply createIndex_spec in E5 as (D4 & I4 & R4). rewrite D4. split_and!; [done| |intros i Hi; by apply I4|].
      + apply existsb_exists. exists receipt_index. split; [apply list_elem_of_In, I4; by right|done].
      + intros i [Hi| ->]%I4; [by apply R3|]. destruct R4 as [R4|R4]; [by apply R3|done]. }
  destruct Hc' as (D' & C' & I' & R').
  assert (Hn' : forall d, d ∈ docs c' -> field "opIndex" d <> VNull) by (intros d Hd; apply Hn; by rewrite <- D').
  assert (Hk' : forall i, i ∈ indexes c' -> i_keys i <> ["txHash"]).
  { intros i [Hi| ->]%I'; [|done]. apply elem_of_filterb in Hi as [Hi _]. unfold isTxHashOnlyUniqueIndex in Hi.
    by apply negb_true_iff, bool_decide_eq_false in Hi. }
  split_and!; [|done..]. cbn [up_034_receipt].
  assert (Hu : forall sel, sel = missing "opIndex" \/ sel = is_null "opIndex" -> update_many sel (insert "opIndex" (VNum 0)) c' = Ok c').
  { intros sel Hsel. apply update_many_none; [|done]. intros d Hd. specialize (Hn' d Hd). unfold field in Hn'.
    destruct Hsel as [-> | ->]; apply bool_decide_eq_false; unfold field; destruct (d !! "opIndex"); cbn in *; congruence. }
  rewrite (Hu (missing "opIndex")) by by left. cbn [mbind result_bind]. rewrite (Hu (is_null "opIndex")) by by right. cbn [mbind result_bind].
  rewrite C'. do 2 f_equal. destruct c' as [dl il]. cbn in *. f_equal.
  assert (Hall : forall i, i ∈ il -> negb (isTxHashOnlyUniqueIndex i) = true).
  { intros i Hi. apply negb_true_iff, bool_decide_eq_false. by apply Hk'. }
  clear -Hall. induction il as [|i il IH]; [done|]. cbn. rewrite Hall by by left. f_equal. apply IH. intros j Hj. apply Hall. by right.
Qed.

(** *** Concrete collections *)

Definition pay (school tx : string) (op : option Z) : doc :=
  let d : doc := <["schoolId" := VStr school]> (<["txHash" := VStr tx]> ∅) in
  match op with Some n => <["opIndex" := VNum n]> d | None => d end.
Definition placeholder (tx : string) : doc :=
  <["studentId" := VStr "unknown"]> (<["amount" := VNum 0]> (<["status" := VStr "FAILED"]> (pay "S" tx None))).
Definition legacy : index := Index "txHash_1" ["txHash"] true false.
Definition old_payments : collection := Coll [pay "S" "aa" None; placeholder "bb"] [legacy].
Definition no_attempts : collection := Coll [] [].

Definition payments_032 : collection :=
  Coll [pay "S" "aa" None; placeholder "bb"] [schoolId_txHash_unique; txHash_sparse_unique].

Lemma migrated_032 : up_032_fix old_payments = Ok payments_032.
Proof. vm_compute. reflexivity. Qed.

Definition p_after (p : collection) : collection := match up_035_op 5 p no_attempts with Ok (p', _) => p' | Throw _ => p end.
Definition a_after (p : collection) : collection := match up_035_op 5 p no_attempts with Ok (_, a') => a' | Throw _ => p end.

Lemma second_operation_blocked_witness :
  up_032_fix old_payments = Ok payments_032 /\ insert_doc (pay "S" "aa" (Some 1)) (p_after payments_032) = Throw DuplicateKey.
Proof.
  split; [apply migrated_032|].
  apply (second_operation_blocked 5 payments_032 no_attempts (p_after payments_032) (a_after payments_032) (pay "S" "aa" None)).
  - vm_compute. reflexivity.
  - apply NoDup_ListNoDup. cbn. repeat constructor; cbn; intuition congruence.
  - left.
  - left.
  - reflexivity.
  - reflexivity.
  - reflexivity.
Defined.

Lemma operation_identity_witness : exists c, insert_doc (pay "S" "aa" (Some 1)) (p_after old_payments) = Ok c.
Proof.
  apply (operation_identity 5 old_payments no_attempts (p_after old_payments) (a_after old_payments)).
  - vm_compute. reflexivity.
  - intros i Hi _. cbn in Hi. apply list_elem_of_singleton in Hi as ->. reflexivity.
  - intros i j Hi Hj _ _. cbn in Hi, Hj. apply list_elem_of_singleton in Hi as ->. apply list_elem_of_singleton in Hj as ->. reflexivity.
  - intros e He. assert (E : docs (p_after old_payments) = [pay "S" "aa" (Some 0)]) by (vm_compute; reflexivity). rewrite E in He.
    apply list_elem_of_singleton in He as ->. vm_compute. intros [_ E']. discriminate E'.
Defined.

Lemma placeholders_moved_witness : (length (docs (p_after old_payments)) + length (docs (a_after old_payments)) = 2)%nat.
Proof.
  destruct (placeholders_moved 5 old_payments no_attempts (p_after old_payments) (a_after old_payments)) as (_ & H & _);
    [vm_compute; reflexivity|exact H].
Defined.

Definition receipts : collection := Coll [pay "S" "aa" None] [legacy].
Definition receipts_034 : collection := Coll [pay "S" "aa" (Some 0)] [receipt_index].

Lemma receipt_index_idempotent_witness : up_034_receipt (Some receipts) = Ok (Some receipts_034) /\
  up_034_receipt (Some receipts_034) = Ok (Some receipts_034).
Proof.
  split; [vm_compute; reflexivity|].
  apply (receipt_index_idempotent receipts receipts_034); [|vm_compute; reflexivity].
  intros i Hi Hn. cbn in Hi. apply list_elem_of_singleton in Hi as ->. discriminate Hn.
Defined.
End Indexes.

(** ** One vocabulary for fee validation *)
Module FeeStatus.

Definition CANONICAL_STATUSES : list string := ["valid"; "underpaid"; "overpaid"; "partial"; "unknown"].

Record payment := Payment {
  fs_id : nat; fs_studentId : option string; fs_schoolId : option string; fs_amount : option Q; fs_status : option string
}.

(** The shapes plans have been stored in. *)
Record fee_plan := Plan {
  pl_studentId : string; pl_schoolId : string; pl_active : bool;
  pl_installmentAmount : option Q; pl_amount : option Q; pl_installments : option Q
}.

Definition positive (q : Q) : bool := negb (Qle_bool q 0).

Definition resolveExpectedInstallment (p : fee_plan) : option Q :=
  match pl_installmentAmount p with
  | Some a => if positive a then Some a else
      match pl_amount p, pl_installments p with
      | Some t, Some n => if positive n then Some (t / n)%Q else None
      | _, _ => None
      end
  | None =>
      match pl_amount p, pl_installments p with
      | Some t, Some n => if positive n then Some (t / n)%Q else None
      | _, _ => None
      end
  end.

(** The query of [findOne]: the school only when the payment has one. *)
Definition active_plan (plans : list fee_plan) (student : string) (school : option string) : option fee_plan :=
  List.find (fun p => (pl_studentId p =? student)%string && pl_active p &&
                      match school with Some s => (pl_schoolId p =? s)%string | None => true end) plans.

Definition hasMissedInstallmentOnActivePlan (plans : list fee_plan) (p : payment) : bool :=
  match fs_studentId p with
  | None => false
  | Some student =>
    match active_plan plans student (fs_schoolId p) with
    | None => false
    | Some pl =>
      match resolveExpectedInstallment pl with
      | None => false
      | Some expected => negb (Qle_bool expected (default 0%Q (fs_amount p)))
      end
    end
  end.

Definition with_status (s : string) (p : payment) : payment :=
  Payment (fs_id p) (fs_studentId p) (fs_schoolId p) (fs_amount p) (Some s).

(** The fields the cursor asks for: the amount is not one of them. *)
Definition projected (p : payment) : payment := Payment (fs_id p) (fs_studentId p) (fs_schoolId p) None (fs_status p).

(** [{ feeValidationStatus: { $nin: CANONICAL_STATUSES } }] matches a missing
    field too. *)
Definition normalize (p : payment) : payment :=
  match fs_status p with
  | Some s => if bool_decide (s ∈ CANONICAL_STATUSES) then p else with_status "unknown" p
  | None => with_status "unknown" p
  end.

Definition is_underpaid (p : payment) : bool := bool_decide (fs_status p = Some "underpaid").

(** The id_batches of five hundred are all taken, so together they are one
    update of the collected ids. *)
Fixpoint id_batches (fuel : nat) (ids : list nat) : list (list nat) :=
  match fuel, ids with
  | S f, _ :: _ => take 500 ids :: id_batches f (drop 500 ids)
  | _, _ => []
  end.

Definition to_partial (batch : list nat) (ps : list payment) : list payment :=
  map (fun p => if bool_decide (fs_id p ∈ batch) && is_underpaid p then with_status "partial" p else p) ps.

Definition up_036_unify (plans : list fee_plan) (ps : list payment) : list payment :=
  let ps1 := map normalize ps in
  let toPartialIds := map fs_id (List.filter (fun p => negb (hasMissedInstallmentOnActivePlan plans (projected p))) (List.filter is_underpaid ps1)) in
  foldl (fun acc b => to_partial b acc) ps1 (id_batches (length toPartialIds) toPartialIds).

(** *** What it leaves *)

(** One payment at a time: what the migration does. *)
Definition unified (plans : list fee_plan) (p : payment) : payment :=
  let p1 := normalize p in
  if is_underpaid p1 && negb (hasMissedInstallmentOnActivePlan plans (projected p1)) then with_status "partial" p1 else p1.

Lemma id_batches_cover fuel : forall ids, (length ids <= fuel)%nat -> concat (id_batches fuel ids) = ids.
Proof.
  induction fuel as [|f IH]; intros [|i ids] H; [done|cbn in H; lia|done|]. cbn [id_batches concat].
  rewrite IH; [apply take_drop|]. rewrite length_drop. cbn [length] in *. lia.
Qed.

Lemma foldl_partial bs : forall ps, foldl (fun acc b => to_partial b acc) ps bs = to_partial (concat bs) ps.
Proof.
  induction bs as [|b bs IH]; intros ps; cbn [foldl concat].
  - unfold to_partial. induction ps as [|p ps IH]; [done|]. cbn. by rewrite <- IH.
  - rewrite IH. unfold to_partial. rewrite map_map. apply map_ext. intros p. unfold is_underpaid.
    destruct (decide (fs_id p ∈ b)) as [H1|H1], (decide (fs_id p ∈ concat bs)) as [H2|H2];
      rewrite ?(bool_decide_eq_true_2 (fs_id p ∈ b)), ?(bool_decide_eq_false_2 (fs_id p ∈ b)) by done;
      destruct (bool_decide (fs_status p = Some "underpaid")) eqn:Es; cbn; rewrite ?andb_false_r, ?Es; try done;
      rewrite ?(bool_decide_eq_true_2 (fs_id p ∈ b ++ concat bs)), ?(bool_decide_eq_false_2 (fs_id p ∈ b ++ concat bs)) by set_solver;
      rewrite ?(bool_decide_eq_true_2 (fs_id p ∈ concat bs)), ?(bool_decide_eq_false_2 (fs_id p ∈ concat bs)) by done; cbn; by rewrite ?Es.
Qed.

Lemma unify_pointwise plans ps : NoDup (map fs_id ps) -> up_036_unify plans ps = map (unified plans) ps.
Proof.
  intros ND. unfold up_036_unify. rewrite foldl_partial, id_batches_cover by done.
  unfold to_partial. rewrite map_map. apply map_ext_in. intros p Hp. unfold unified.
  destruct (is_underpaid (normalize p)) eqn:Eu; [|by rewrite andb_false_r]. cbn [andb]. rewrite andb_true_r.
  assert (NDn : NoDup (map fs_id (map normalize ps))).
  { rewrite map_map. erewrite map_ext; [exact ND|]. intros q. unfold normalize. by destruct (fs_status q); [case_bool_decide|]. }
  assert (Hin : normalize p ∈ map normalize ps) by (apply list_elem_of_fmap_2; by apply list_elem_of_In).
  destruct (hasMissedInstallmentOnActivePlan plans (projected (normalize p))) eqn:Em; cbn [negb].
  - rewrite bool_decide_eq_false_2; [done|]. intros (q & Eq & Hq)%list_elem_of_fmap. apply elem_of_filterb in Hq as [Hm [_ Hq]%elem_of_filterb].
    assert (q = normalize p) as -> by (apply (NoDup_fmap_eq fs_id (map normalize ps)); done). by rewrite Em in Hm.
  - rewrite bool_decide_eq_true_2; [done|]. apply list_elem_of_fmap_2. apply elem_of_filterb. rewrite Em. split; [done|]. by apply elem_of_filterb.
Qed.

Lemma unified_id plans p : fs_id (unified plans p) = fs_id p.
Proof. unfold unified, normalize. destruct (fs_status p); [case_bool_decide|]; by destruct (_ && _). Qed.

Lemma normalize_canonical p : exists s, fs_status (normalize p) = Some s /\ s ∈ CANONICAL_STATUSES.
Proof.
  unfold normalize. destruct (fs_status p) as [s|] eqn:E; [case_bool_decide; [by exists s|]|]; exists "unknown"; (split; [done|]); apply list_elem_of_In; cbn; tauto.
Qed.

Lemma normalize_fixed p s : fs_status p = Some s -> s ∈ CANONICAL_STATUSES -> normalize p = p.
Proof. intros E H. unfold normalize. by rewrite E, bool_decide_eq_true_2. Qed.

Lemma unified_twice plans p : unified plans (unified plans p) = unified plans p.
Proof.
  destruct (normalize_canonical p) as (s & Es & Hs). unfold unified at 2 3.
  destruct (is_underpaid (normalize p) && negb (hasMissedInstallmentOnActivePlan plans (projected (normalize p)))) eqn:E.
  - unfold unified. rewrite (normalize_fixed _ "partial") by (done || (apply list_elem_of_In; cbn; tauto)). done.
  - unfold unified. rewrite (normalize_fixed _ s) by done. by rewrite E.
Qed.

(** After migration 036 every payment carries a status of the vocabulary, a
    second run changes nothing, and what stays underpaid is what belongs to a
    student with an active plan that expects a positive instalment. *)
Theorem statuses_unified plans ps : NoDup (map fs_id ps) ->
  up_036_unify plans (up_036_unify plans ps) = up_036_unify plans ps /\
  (forall p, p ∈ up_036_unify plans ps -> exists s, fs_status p = Some s /\ s ∈ CANONICAL_STATUSES) /\
  (forall p, p ∈ up_036_unify plans ps -> fs_status p = Some "underpaid" -> hasMissedInstallmentOnActivePlan plans (projected p) = true).
Proof.
  intros ND. pose proof (unify_pointwise plans ps ND) as E.
  assert (ND' : NoDup (map fs_id (up_036_unify plans ps))) by (rewrite E, map_map; erewrite map_ext; [exact ND|intros; apply unified_id]).
  split_and!.
  - rewrite (unify_pointwise plans _ ND'), E, map_map. apply map_ext. intros p. apply unified_twice.
  - intros p. rewrite E. intros (q & -> & _)%list_elem_of_fmap. unfold unified. destruct (_ && _); [|apply normalize_canonical].
    exists "partial". split; [done|]. apply list_elem_of_In; cbn; tauto.
  - intros p. rewrite E. intros (q & -> & _)%list_elem_of_fmap Hs. unfold unified in *.
    destruct (is_underpaid (normalize q) && _) eqn:Eq; [done|]. unfold is_underpaid in Eq. rewrite (bool_decide_eq_true_2 _ Hs) in Eq.
    cbn in Eq. by apply negb_false_iff in Eq.
Qed.

Definition a_plan : fee_plan := Plan "STU-1" "SCH-1" true (Some (100 # 1)%Q) None None.
Definition paid_in_full : payment := Payment 1 (Some "STU-1") (Some "SCH-1") (Some (100 # 1)%Q) (Some "underpaid").

Lemma statuses_unified_witness :
  up_036_unify [a_plan] (up_036_unify [a_plan] [paid_in_full; Payment 2 None None None None]) =
  up_036_unify [a_plan] [paid_in_full; Payment 2 None None None None].
Proof.
  apply (statuses_unified [a_plan] [paid_in_full; Payment 2 None None None None]). apply NoDup_ListNoDup. cbn. repeat constructor; cbn; intuition congruence.
Defined.

(** A payment of the whole instalment stays underpaid: the amount is not
    among the fields read. *)
Theorem full_installment_stays_underpaid :
  hasMissedInstallmentOnActivePlan [a_plan] paid_in_full = false /\
  up_036_unify [a_plan] [paid_in_full] = [paid_in_full].
Proof. vm_compute. split; reflexivity. Qed.
End FeeStatus.
