(* ===== verification/WebhookAdmin.v ===== *)
(** Webhook endpoints and their administration:
    backend/src/services/webhookEndpointService.js,
    controllers/webhookEndpointsController.js, utils/webhookSecretPolicy.js,
    the endpoint schema of models/webhookEndpointModel.js, and the migrations
    031 and 036 that brought older endpoints into it.

    The handlers are functions from the stored endpoints to a response and the
    stored endpoints.  What they call outside (the step-up check, the check of
    an address, random secrets, the outcome of a request) is an argument.
    Deliveries are Webhook's. *)

From Stdlib Require Import Ascii ZArith Lia.
From stdpp Require Import base strings gmap relations list.
From S2P Require Import Prelude JsString Webhook.
Local Open Scope string_scope.
Local Open Scope Z_scope.
Local Open Scope list_scope.

Module WebhookAdmin.
Import Webhook.

(** ** Secrets a caller may choose *)

Definition MIN_SECRET_LENGTH : nat := 32.
Definition MAX_SECRET_LENGTH : nat := 512.
Definition MIN_SECRET_ENTROPY_BITS : Z := 128.

Definition count (c : ascii) (l : list ascii) : nat := length (List.filter (Ascii.eqb c) l).

(** [estimateEntropyBits(value) < bits]: with [n] characters of which the
    [i]-th letter occurs [c_i] times the estimate is [n log n - sum c_i log
    c_i], so the comparison is one of integers. *)
Definition entropy_below (bits : Z) (s : string) : bool :=
  let l := chars s in
  let n := Z.of_nat (length l) in
  let powers := foldr (fun c acc => Z.of_nat (count c l) ^ Z.of_nat (count c l) * acc) 1 (remove_dups l) in
  if str_truthy s then n ^ n <? 2 ^ bits * powers else 0 <? bits.

Inductive secret_problem := NotAString | TooShort | TooLong | Whitespace | Predictable.
#[export] Instance secret_problem_eq_dec : EqDecision secret_problem.
Proof. solve_decision. Defined.

(** [None] for a value that is not a string. *)
Definition validateWebhookSecretStrength (secret : option string) : option secret_problem :=
  match secret with
  | None => Some NotAString
  | Some s =>
    let l := chars s in
    if (length l <? MIN_SECRET_LENGTH)%nat then Some TooShort
    else if (MAX_SECRET_LENGTH <? length l)%nat then Some TooLong
    else if existsb is_space l then Some Whitespace
    else if entropy_below MIN_SECRET_ENTROPY_BITS s then Some Predictable else None
  end.

(** ** Rotation *)

Definition MAX_ROTATION_OVERLAP_S : Z := 7 * 24 * 60 * 60.

(** What [overlapSeconds] is: absent ([undefined], [null] or the empty text),
    or [Number(raw)], [None] when that is not an integer. *)
Inductive raw_overlap := OverlapAbsent | OverlapNumber (n : option Z).

Section Rotation.
Variable DEFAULT_ROTATION_OVERLAP_S : Z.

Definition parseOverlapSeconds (raw : raw_overlap) : option Z :=
  match raw with
  | OverlapAbsent => Some DEFAULT_ROTATION_OVERLAP_S
  | OverlapNumber (Some v) => if (v <? 0) || (MAX_ROTATION_OVERLAP_S <? v) then None else Some v
  | OverlapNumber None => None
  end.
End Rotation.

(** A stored endpoint: what deliveries use, and the rest. *)
Record ep_doc := EpDoc {
  w_ep : endpoint; w_rotatedAt : option Z; w_description : option string; w_createdBy : option string; w_source : string; w_createdAt : Z
}.

Definition SOURCE_API : string := "api".
Definition SOURCE_LEGACY : string := "legacy_school_webhook".

Definition with_secrets (secret previous : option string) (expires : option Z) (e : endpoint) : endpoint :=
  Endpoint (ep_id e) (ep_school e) (ep_url e) secret previous expires (ep_signatureVersions e) (ep_isActive e) (ep_events e) (ep_sequence e).

Definition applySecretRotation (newSecret : string) (overlapSeconds now : Z) (d : ep_doc) : ep_doc :=
  let e := w_ep d in
  let e' := match or_null (ep_secret e) None with
            | Some s => if 0 <? overlapSeconds then with_secrets (Some newSecret) (Some s) (Some (now + overlapSeconds * 1000)) e
                        else with_secrets (Some newSecret) None None e
            | None => with_secrets (Some newSecret) None None e
            end in
  EpDoc e' (Some now) (w_description d) (w_createdBy d) (w_source d) (w_createdAt d).

Definition purge_one (now : Z) (e : endpoint) : endpoint :=
  match ep_previousExpires e with
  | Some t => if t <=? now then with_secrets (ep_secret e) None None e else e
  | None => e
  end.

Definition on_endpoint (f : endpoint -> endpoint) (d : ep_doc) : ep_doc :=
  EpDoc (f (w_ep d)) (w_rotatedAt d) (w_description d) (w_createdBy d) (w_source d) (w_createdAt d).

Definition purgeExpiredPreviousSecrets (now : Z) (st : list ep_doc) : list ep_doc := map (on_endpoint (purge_one now)) st.

(** ** The schema's lists *)

Definition WEBHOOK_EVENTS : list string :=
  ["payment.confirmed"; "payment.pending"; "payment.failed"; "payment.suspicious"; "payment.refunded"; "payment.refund_rejected";
   "dispute.created"; "dispute.under_review"; "dispute.resolved"; "dispute.reopened"; "dispute.sla_breached"; "refund.initiated"; "refund.completed"].
Definition LEGACY_SCHOOL_EVENTS : list string :=
  ["payment.confirmed"; "payment.refunded"; "dispute.created"; "dispute.under_review"; "dispute.resolved"; "dispute.reopened"].
Definition SIGNATURE_VERSIONS : list string := ["v1"; "v2"].
Definition DEFAULT_SIGNATURE_VERSIONS : list string := ["v2"].

Definition subset_of (l ref : list string) : bool := forallb (fun x => bool_decide (x ∈ ref)) l.
Definition non_empty {A} (l : list A) : bool := match l with [] => false | _ => true end.

(** [None] for a value that is no array; the result is whether it is valid. *)
Definition _validateSignatureVersions (versions : option (list string)) : bool :=
  match versions with
  | Some l => non_empty l && subset_of l SIGNATURE_VERSIONS && bool_decide ("v2" ∈ l)
  | None => false
  end.

Definition valid_events (events : option (list string)) : bool :=
  match events with Some l => non_empty l && subset_of l WEBHOOK_EVENTS | None => false end.

(** ** The deprecated per-school route *)

Definition findLegacySchoolEndpoint (schoolId : string) (st : list ep_doc) : option ep_doc :=
  List.find (fun d => (ep_school (w_ep d) =? schoolId)%string && (w_source d =? SOURCE_LEGACY)%string) st.

Definition save (d : ep_doc) (st : list ep_doc) : list ep_doc :=
  map (fun x => if (ep_id (w_ep x) =? ep_id (w_ep d))%nat then d else x) st.

Definition with_url (url : string) (active : bool) (e : endpoint) : endpoint :=
  Endpoint (ep_id e) (ep_school e) url (ep_secret e) (ep_previousSecret e) (ep_previousExpires e) (ep_signatureVersions e) active (ep_events e) (ep_sequence e).

(** [fresh]: the id and the secret a new endpoint would get.  The endpoint,
    whether it was created, and its secret when it was. *)
Definition upsertLegacySchoolEndpoint (schoolId url : string) (createdBy : option string) (fresh : nat * string) (now : Z) (st : list ep_doc)
    : (ep_doc * bool * option string) * list ep_doc :=
  match findLegacySchoolEndpoint schoolId st with
  | Some d => let d' := on_endpoint (with_url url true) d in ((d', false, None), save d' st)
  | None =>
    let d := EpDoc (Endpoint fresh.1 schoolId url (Some fresh.2) None None (Some LEGACY_SIGNATURE_VERSIONS) true LEGACY_SCHOOL_EVENTS 0)
               None (Some "School webhook (registered via deprecated /api/schools/:slug/webhooks)") createdBy SOURCE_LEGACY now in
    ((d, true, Some fresh.2), st ++ [d])
  end.

(** ** The handlers *)

Inductive response :=
| Rejected (status : Z) (code : string)
| Created (d : ep_doc) (secret : string)
| Listed (l : list ep_doc)
| Shown (d : ep_doc)
| Rotated (id : nat) (secret : string) (rotatedAt : Z) (previousExpires : option Z)
| Deleted
| Tested (ok : bool) (error : option send_error).

(** What is sent to a client: the secrets are left out. *)
Definition public (d : ep_doc) : ep_doc := on_endpoint (with_secrets None None (ep_previousExpires (w_ep d))) d.

(** [[...new Set(l)]]: first occurrences. *)
Fixpoint new_set (l : list string) : list string :=
  match l with [] => [] | x :: l' => x :: List.filter (fun y => negb (y =? x)%string) (new_set l') end.

Inductive raw_secret := SecretNull | SecretText (s : string) | SecretOther.

(** The body of a create or update request.  A field is [None] when it is
    undefined; a value of the wrong type is [Some None]. *)
Record ep_body := EpBody {
  b_url : option string; b_secret : option raw_secret; b_events : option (option (list string));
  b_isActive : option bool; b_description : option string; b_versions : option (option (list string)); b_overlap : raw_overlap
}.

Inductive request :=
| CreateEndpoint (b : ep_body) | ListEndpoints | GetEndpoint (id : nat) | UpdateEndpoint (id : nat) (b : ep_body)
| RotateSecret (id : nat) (overlap : raw_overlap) | DeleteEndpoint (id : nat) | SendTestEvent (id : nat).

(** What the handlers ask of the world: the step-up check (a refusal, or
    none), whether an address is public, the id and secret drawn, the caller,
    the time, and the outcome of a test request. *)
Record world := World {
  step_up : option (Z * string); url_ok : string -> bool; fresh_id : nat; fresh_secret : string; performedBy : string; now : Z;
  send_allowed : bool; send_outcome : http_outcome; delivery_id : string; v1_sunset : Z; default_overlap : Z
}.

Definition find_own (schoolId : string) (id : nat) (st : list ep_doc) : option ep_doc :=
  List.find (fun d => (ep_id (w_ep d) =? id)%nat && (ep_school (w_ep d) =? schoolId)%string) st.

Definition NOT_FOUND : response := Rejected 404 "NOT_FOUND".
Definition INVALID : response := Rejected 400 "VALIDATION_ERROR".

Definition secret_text (r : raw_secret) : option string := match r with SecretText s => Some s | _ => None end.

(** [secret !== undefined && secret !== null && secret !== ''] *)
Definition secret_given (o : option raw_secret) : bool :=
  match o with None | Some SecretNull => false | Some (SecretText s) => str_truthy s | Some SecretOther => true end.

Definition strong (r : raw_secret) : bool := bool_decide (validateWebhookSecretStrength (secret_text r) = None).

Definition createEndpoint (schoolId : string) (w : world) (b : ep_body) (st : list ep_doc) : response * list ep_doc :=
  match step_up w with
  | Some (status, code) => (Rejected status code, st)
  | None =>
    match or_null (b_url b) None with
    | None => (INVALID, st)
    | Some url =>
      match b_events b with
      | Some (Some events) =>
        if negb (non_empty events && subset_of events WEBHOOK_EVENTS) then (INVALID, st)
        else if secret_given (b_secret b) && negb (strong (default SecretNull (b_secret b))) then (Rejected 400 "WEAK_WEBHOOK_SECRET", st)
        else if match b_versions b with Some v => negb (_validateSignatureVersions v) | None => false end then (INVALID, st)
        else if negb (url_ok w url) then (Rejected 400 "INVALID_WEBHOOK_URL", st)
        else
          let secret := if secret_given (b_secret b) then default "" (b_secret b ≫= secret_text) else fresh_secret w in
          let versions := match b_versions b with Some (Some l) => new_set l | _ => DEFAULT_SIGNATURE_VERSIONS end in
          let d := EpDoc (Endpoint (fresh_id w) schoolId (str_trim url) (Some secret) None None (Some versions) (default true (b_isActive b)) events 0)
                     None (match b_description b with Some s => if str_truthy s then Some (str_trim s) else None | None => None end)
                     (Some (performedBy w)) SOURCE_API (now w) in
          (Created (public d) secret, st ++ [d])
      | _ => (INVALID, st)
      end
    end
  end.

(** The checks of an update in their order: the endpoint as it would be saved,
    or the refusal. *)
Definition updated (w : world) (b : ep_body) (d : ep_doc) : result response ep_doc :=
  d1 ← match b_url b with
       | None => Ok d
       | Some url =>
         _ ← (if (url =? ep_url (w_ep d))%string then Ok tt
              else match step_up w with Some (status, code) => Throw (Rejected status code) | None => Ok tt end);
         _ ← guard_else (url_ok w url) (Rejected 400 "INVALID_WEBHOOK_URL");
         Ok (on_endpoint (fun e => with_url (str_trim url) (ep_isActive e) e) d)
       end;
  d2 ← match b_secret b with
       | None => Ok d1
       | Some r =>
         _ ← guard_else (strong r) (Rejected 400 "WEAK_WEBHOOK_SECRET");
         overlap ← of_option (parseOverlapSeconds (default_overlap w) (b_overlap b)) INVALID;
         Ok (applySecretRotation (default "" (secret_text r)) overlap (now w) d1)
       end;
  d3 ← match b_versions b with
       | None => Ok d2
       | Some v =>
         _ ← guard_else (_validateSignatureVersions v) INVALID;
         Ok (on_endpoint (fun e => Endpoint (ep_id e) (ep_school e) (ep_url e) (ep_secret e) (ep_previousSecret e) (ep_previousExpires e)
                                     (Some (new_set (default [] v))) (ep_isActive e) (ep_events e) (ep_sequence e)) d2)
       end;
  d4 ← match b_events b with
       | None => Ok d3
       | Some v =>
         _ ← guard_else (valid_events v) INVALID;
         Ok (on_endpoint (fun e => Endpoint (ep_id e) (ep_school e) (ep_url e) (ep_secret e) (ep_previousSecret e) (ep_previousExpires e)
                                     (ep_signatureVersions e) (ep_isActive e) (default [] v) (ep_sequence e)) d3)
       end;
  let d5 := match b_isActive b with Some a => on_endpoint (fun e => with_url (ep_url e) a e) d4 | None => d4 end in
  Ok (match b_description b with
      | Some s => EpDoc (w_ep d5) (w_rotatedAt d5) (Some (str_trim s)) (w_createdBy d5) (w_source d5) (w_createdAt d5)
      | None => d5 end).

Definition updateEndpoint (schoolId : string) (w : world) (id : nat) (b : ep_body) (st : list ep_doc) : response * list ep_doc :=
  match find_own schoolId id st with
  | None => (NOT_FOUND, st)
  | Some d => match updated w b d with Ok d' => (Shown (public d'), save d' st) | Throw r => (r, st) end
  end.

Definition rotateSecret (schoolId : string) (w : world) (id : nat) (raw : raw_overlap) (st : list ep_doc) : response * list ep_doc :=
  match find_own schoolId id st with
  | None => (NOT_FOUND, st)
  | Some d =>
    match parseOverlapSeconds (default_overlap w) raw with
    | None => (INVALID, st)
    | Some overlap =>
      let d' := applySecretRotation (fresh_secret w) overlap (now w) d in
      (Rotated id (fresh_secret w) (now w) (ep_previousExpires (w_ep d')), save d' st)
    end
  end.

Definition deleteEndpoint (schoolId : string) (id : nat) (st : list ep_doc) : response * list ep_doc :=
  match find_own schoolId id st with
  | None => (NOT_FOUND, st)
  | Some d => (Deleted, List.filter (fun x => negb (ep_id (w_ep x) =? ep_id (w_ep d))%nat) st)
  end.

Definition listEndpoints (schoolId : string) (st : list ep_doc) : response :=
  Listed (map public (js_sort (fun a b => w_createdAt b - w_createdAt a) (List.filter (fun d => (ep_school (w_ep d) =? schoolId)%string) st))).

Definition getEndpoint (schoolId : string) (id : nat) (st : list ep_doc) : response :=
  match find_own schoolId id st with Some d => Shown (public d) | None => NOT_FOUND end.

Definition TEST_EVENT : string := "webhook.test".

Definition _buildTestPayload (schoolId : string) : payload :=
  <["test" := "true"]> (<["message" := "This is a test webhook event from StellarEduPay."]> (<["schoolId" := schoolId]>
  (<["txHash" := text (repeat "0"%char 64)]> (<["transactionHash" := text (repeat "0"%char 64)]> (<["amount" := "100.0000000"]>
  (<["asset" := "XLM"]> (<["assetCode" := "XLM"]> (<["status" := "SUCCESS"]> (<["referenceCode" := "TEST-0000"]> ∅))))))))).

(** The request made and how it ended; nothing is queued. *)
Definition sendTestDelivery (w : world) (e : endpoint) : option Webhook.request * option send_error :=
  if negb (url_ok w (ep_url e)) then (None, Some URL_VALIDATION_FAILED)
  else _sendToUrl (v1_sunset w) (now w) (send_allowed w) (send_outcome w) (ep_url e) TEST_EVENT (_buildTestPayload (ep_school e))
         (ep_secret e) (_activePreviousSecret (now w) e) (ep_signatureVersions e) (delivery_id w) None.

Definition sendTestEvent (schoolId : string) (w : world) (id : nat) (st : list ep_doc) : response :=
  match find_own schoolId id st with
  | None => NOT_FOUND
  | Some d => let '(_, err) := sendTestDelivery w (w_ep d) in Tested (bool_decide (err = None)) err
  end.

(** [schoolId]: what the school context resolved, [None] when nothing.  Only
    creating and listing test it; a query with an undefined field matches
    documents without one, and every endpoint has one. *)
Definition handle (schoolId : option string) (w : world) (rq : request) (st : list ep_doc) : response * list ep_doc :=
  match schoolId with
  | None => match rq with
            | CreateEndpoint _ | ListEndpoints => (Rejected 400 "MISSING_SCHOOL_ID", st)
            | _ => (NOT_FOUND, st)
            end
  | Some s =>
    match rq with
    | CreateEndpoint b => createEndpoint s w b st
    | ListEndpoints => (listEndpoints s st, st)
    | GetEndpoint id => (getEndpoint s id st, st)
    | UpdateEndpoint id b => updateEndpoint s w id b st
    | RotateSecret id raw => rotateSecret s w id raw st
    | DeleteEndpoint id => deleteEndpoint s id st
    | SendTestEvent id => (sendTestEvent s w id st, st)
    end
  end.

(** ** The delivery log *)

Record delivery := Delivery { dl_id : nat; dl_school : string; dl_endpoint : nat; dl_event : string; dl_payload : payload; dl_success : bool; dl_createdAt : Z }.

(** A replay fires the logged event at the endpoint as it is now. *)
Inductive replay := ReplayRejected (status : Z) (code : string) | ReplayFired (e : endpoint) (event : string) (p : payload).

Definition replayDelivery (schoolId : string) (id : nat) (log : list delivery) (st : list ep_doc) : replay :=
  match List.find (fun d => (dl_id d =? id)%nat) log with
  | None => ReplayRejected 404 "NOT_FOUND"
  | Some d =>
    if negb (dl_school d =? schoolId)%string then ReplayRejected 403 "FORBIDDEN"
    else match find_own schoolId (dl_endpoint d) st with
         | None => ReplayRejected 404 "NOT_FOUND"
         | Some ep => ReplayFired (w_ep ep) (dl_event d) (dl_payload d)
         end
  end.

(** [page], [limit]: [parseInt] of the query, [None] for NaN. *)
Definition listDeliveries (schoolId : string) (page limit : option Z) (endpointId : option nat) (event : option string) (success : option bool)
    (log : list delivery) : nat * Z * Z * list delivery :=
  let or_default o d := match o with Some z => if z =? 0 then d else z | None => d end in
  let page' := Z.max 1 (or_default page 1) in
  let limit' := Z.min 100 (Z.max 1 (or_default limit 20)) in
  let hits := List.filter (fun d => (dl_school d =? schoolId)%string &&
                match endpointId with Some i => (dl_endpoint d =? i)%nat | None => true end &&
                match event with Some x => negb (str_truthy x) || (dl_event d =? x)%string | None => true end &&
                match success with Some b => Bool.eqb (dl_success d) b | None => true end) log in
  (length hits, page', limit',
   take (Z.to_nat limit') (drop (Z.to_nat ((page' - 1) * limit')) (js_sort (fun a b => dl_createdAt b - dl_createdAt a) hits))).

(** ** Migration 031 *)

Definition up_031 (st : list endpoint) : list endpoint :=
  map (fun e => match ep_signatureVersions e with
                | None => Endpoint (ep_id e) (ep_school e) (ep_url e) (ep_secret e) (ep_previousSecret e) (ep_previousExpires e)
                            (Some ["v1"; "v2"]) (ep_isActive e) (ep_events e) (ep_sequence e)
                | Some _ => e
                end) st.

(** ** Rotation *)

Section RotationFacts.
Variable hmac : string -> list ascii -> list ascii.
Hypothesis digest_hex : forall s m, length (hmac s m) = 64%nat /\ Forall (fun c => is_lower_hex c = true) (hmac s m).

Definition v2_header (ts id rawBody : list ascii) (t : Z) (d : ep_doc) : list ascii :=
  buildSignatureV2Header hmac ts id rawBody [ep_secret (w_ep d); _activePreviousSecret t (w_ep d)].

(** A rotation drops no receiver and ends on time.  Deliveries after it carry
    a signature that the new secret verifies; while the overlap lasts the old
    secret verifies them too, and from its end on it no longer does, unless
    the two secrets sign alike. *)
Theorem rotation_keeps_receivers old new overlap t0 d ts id rawBody t :
  ep_secret (w_ep d) = Some old -> str_truthy old = true -> str_truthy new = true -> 0 < overlap ->
  let d' := applySecretRotation new overlap t0 d in
  let accepted := verifySignatureV2Header hmac ts id rawBody (v2_header ts id rawBody t d') in
  accepted new = true /\
  (t < t0 + overlap * 1000 -> accepted old = true) /\
  (t0 + overlap * 1000 <= t -> accepted old = true ->
     generateSignatureV2 hmac ts id rawBody new = generateSignatureV2 hmac ts id rawBody old).
Proof.
  intros Hs Ho Hn Hov. unfold applySecretRotation. rewrite Hs. cbn [or_null]. rewrite Ho.
  destruct (Z.ltb_spec 0 overlap); [|lia]. cbn zeta. unfold v2_header. cbn [w_ep with_secrets ep_secret].
  assert (Ha : forall t, active_secrets [Some new; _activePreviousSecret t (with_secrets (Some new) (Some old) (Some (t0 + overlap * 1000)) (w_ep d))]
               = if t <? t0 + overlap * 1000 then [new; old] else [new]).
  { intros t'. unfold _activePreviousSecret. cbn [with_secrets ep_previousSecret ep_previousExpires]. rewrite Ho. cbn [andb].
    unfold active_secrets. destruct (t' <? _); cbn; rewrite Hn, ?Ho; done. }
  split_and!.
  - apply (signature_header_roundtrip hmac digest_hex). split; [done|]. exists new. rewrite Ha. split; [|done]. destruct (t <? _); left.
  - intros Ht. apply (signature_header_roundtrip hmac digest_hex). split; [done|]. exists old. rewrite Ha.
    destruct (Z.ltb_spec t (t0 + overlap * 1000)); [|lia]. split; [|done]. right. left.
  - intros Ht Hacc. apply (signature_header_roundtrip hmac digest_hex) in Hacc as (_ & x & Hx & E). rewrite Ha in Hx.
    destruct (Z.ltb_spec t (t0 + overlap * 1000)); [lia|]. by apply list_elem_of_singleton in Hx as ->.
Qed.
End RotationFacts.

(** Purging is invisible to deliveries, and leaves no secret past its time. *)
Theorem purge_invisible now t e : now <= t ->
  _activePreviousSecret t (purge_one now e) = _activePreviousSecret t e /\
  forall x, ep_previousExpires (purge_one now e) = Some x -> now < x.
Proof.
  intros Ht. unfold purge_one, _activePreviousSecret. destruct (ep_previousExpires e) as [x|] eqn:E.
  - destruct (Z.leb_spec x now) as [Hx|Hx]; cbn.
    + split; [|done]. destruct (ep_previousSecret e); [|done]. destruct (Z.ltb_spec t x); [lia|]. by rewrite andb_false_r.
    + rewrite E. split; [done|]. by intros y [= <-].
  - rewrite E. by destruct (ep_previousSecret e).
Qed.

(** Backfilling the signature versions changes no delivery. *)
Theorem backfill_keeps_versions sunset now st :
  map (fun e => resolveSignatureVersions sunset (ep_signatureVersions e) now) (up_031 st) =
  map (fun e => resolveSignatureVersions sunset (ep_signatureVersions e) now) st.
Proof. unfold up_031. rewrite map_map. apply map_ext. intros e. destruct (ep_signatureVersions e) eqn:E; [by rewrite E|done]. Qed.

(** ** What one school's requests can do *)

Definition own (s : string) (d : ep_doc) : bool := (ep_school (w_ep d) =? s)%string.
Definition ids (st : list ep_doc) : list nat := map (fun d => ep_id (w_ep d)) st.

Lemma find_own_filter s id st : find_own s id (List.filter (own s) st) = find_own s id st.
Proof.
  unfold find_own. induction st as [|d st IH]; [done|]. cbn. unfold own at 1. destruct (ep_school (w_ep d) =? s)%string eqn:E; cbn.
  - by rewrite E, IH.
  - by rewrite ?E, andb_false_r, IH.
Qed.

Lemma find_own_spec s id st d : find_own s id st = Some d -> (d ∈ st) /\ ep_id (w_ep d) = id /\ ep_school (w_ep d) = s.
Proof.
  intros [Hin H]%List.find_some. apply andb_prop in H as [H1 H2]. apply Nat.eqb_eq in H1. apply String.eqb_eq in H2.
  by rewrite list_elem_of_In.
Qed.

Lemma save_own s d d' st : NoDup (ids st) -> d ∈ st -> ep_id (w_ep d') = ep_id (w_ep d) -> own s d = true -> own s d' = true ->
  List.filter (own s) (save d' st) = save d' (List.filter (own s) st) /\
  List.filter (fun x => negb (own s x)) (save d' st) = List.filter (fun x => negb (own s x)) st.
Proof.
  intros ND Hd Hid Ho Ho'.
  assert (Hsame : forall x, x ∈ st -> (ep_id (w_ep x) =? ep_id (w_ep d'))%nat = true -> x = d).
  { intros x Hx E. apply Nat.eqb_eq in E. apply (NoDup_fmap_eq (fun d => ep_id (w_ep d)) st); [done..|]. cbn. congruence. }
  clear ND Hd. induction st as [|x st IH]; [done|]. destruct IH as [IH1 IH2]; [intros y Hy; apply Hsame; by right|].
  specialize (Hsame x ltac:(left)). unfold save in *. cbn [map List.filter].
  destruct (ep_id (w_ep x) =? ep_id (w_ep d'))%nat eqn:E.
  - rewrite (Hsame eq_refl) in E |- *. rewrite Ho, Ho'. cbn. rewrite E, IH1, IH2. done.
  - destruct (own s x); cbn; rewrite ?E, IH1, IH2; done.
Qed.

Lemma updated_keeps w b d d' : updated w b d = Ok d' -> ep_id (w_ep d') = ep_id (w_ep d) /\ ep_school (w_ep d') = ep_school (w_ep d).
Proof.
  unfold updated. intros H. apply bind_Ok in H as (d1 & H1 & H). apply bind_Ok in H as (d2 & H2 & H). apply bind_Ok in H as (d3 & H3 & H).
  apply bind_Ok in H as (d4 & H4 & H).
  assert (E1 : ep_id (w_ep d1) = ep_id (w_ep d) /\ ep_school (w_ep d1) = ep_school (w_ep d)).
  { destruct (b_url b); [|by injection H1 as <-]. apply bind_Ok in H1 as (? & _ & H1). apply bind_Ok in H1 as (? & _ & H1). by injection H1 as <-. }
  assert (E2 : ep_id (w_ep d2) = ep_id (w_ep d1) /\ ep_school (w_ep d2) = ep_school (w_ep d1)).
  { destruct (b_secret b); [|by injection H2 as <-]. apply bind_Ok in H2 as (? & _ & H2). apply bind_Ok in H2 as (? & _ & H2). injection H2 as <-.
    unfold applySecretRotation. destruct (or_null _ _); [destruct (0 <? _)|]; done. }
  assert (E3 : ep_id (w_ep d3) = ep_id (w_ep d2) /\ ep_school (w_ep d3) = ep_school (w_ep d2)).
  { destruct (b_versions b); [|by injection H3 as <-]. apply bind_Ok in H3 as (? & _ & H3). by injection H3 as <-. }
  assert (E4 : ep_id (w_ep d4) = ep_id (w_ep d3) /\ ep_school (w_ep d4) = ep_school (w_ep d3)).
  { destruct (b_events b); [|by injection H4 as <-]. apply bind_Ok in H4 as (? & _ & H4). by injection H4 as <-. }
  injection H as <-. destruct (b_description b), (b_isActive b); cbn; intuition congruence.
Qed.

Lemma rotated_keeps new overlap t d : ep_id (w_ep (applySecretRotation new overlap t d)) = ep_id (w_ep d) /\
  ep_school (w_ep (applySecretRotation new overlap t d)) = ep_school (w_ep d).
Proof. unfold applySecretRotation. destruct (or_null _ _); [destruct (0 <? _)|]; done. Qed.

Lemma filterb_comm {A} (f g : A -> bool) (l : list A) : List.filter f (List.filter g l) = List.filter g (List.filter f l).
Proof. rewrite !filterb_filterb. apply List.filter_ext. intros x. apply andb_comm. Qed.

(** One school's requests neither see nor change another school's endpoints:
    the others' stay as they are, and the response and the caller's endpoints
    are what they would be if there were no others; so an id of another school
    is answered like an id of nobody. *)
Theorem endpoints_isolated s w rq st r st' : NoDup (ids st) -> handle (Some s) w rq st = (r, st') ->
  List.filter (fun d => negb (own s d)) st' = List.filter (fun d => negb (own s d)) st /\
  handle (Some s) w rq (List.filter (own s) st) = (r, List.filter (own s) st').
Proof.
  intros ND. destruct rq as [b| |id|id b|id raw|id|id]; cbn [handle].
  - unfold createEndpoint. destruct (step_up w) as [[? ?]|]; [intros [= <- <-]; done|].
    destruct (or_null (b_url b) None); [|intros [= <- <-]; done]. destruct (b_events b) as [[events|]|]; [|intros [= <- <-]; done..].
    destruct (negb _); [intros [= <- <-]; done|]. destruct (secret_given _ && _); [intros [= <- <-]; done|].
    destruct (match b_versions b with Some v => _ | None => _ end); [intros [= <- <-]; done|]. destruct (negb _); [intros [= <- <-]; done|].
    intros [= <- <-]. rewrite !List.filter_app. cbn. unfold own at 2 4. cbn. rewrite String.eqb_refl. cbn. by rewrite app_nil_r.
  - intros [= <- <-]. split; [done|]. unfold listEndpoints. fold (own s). rewrite filterb_filterb. do 4 f_equal. apply List.filter_ext. intros d. by destruct (own s d).
  - intros [= <- <-]. split; [done|]. unfold getEndpoint. by rewrite find_own_filter.
  - unfold updateEndpoint. rewrite find_own_filter. destruct (find_own s id st) as [d|] eqn:Ef; [|by intros [= <- <-]].
    apply find_own_spec in Ef as (Hd & _ & Hs). destruct (updated w b d) as [d'|] eqn:Eu; [|by intros [= <- <-]].
    apply updated_keeps in Eu as [E1 E2]. intros [= <- <-].
    destruct (save_own s d d' st ND Hd E1) as [-> ->]; [by apply String.eqb_eq|apply String.eqb_eq; congruence|done].
  - unfold rotateSecret. rewrite find_own_filter. destruct (find_own s id st) as [d|] eqn:Ef; [|by intros [= <- <-]].
    apply find_own_spec in Ef as (Hd & _ & Hs). destruct (parseOverlapSeconds _ _) as [ov|]; [|by intros [= <- <-]].
    destruct (rotated_keeps (fresh_secret w) ov (now w) d) as [E1 E2]. intros [= <- <-].
    destruct (save_own s d (applySecretRotation (fresh_secret w) ov (now w) d) st ND Hd E1) as [-> ->]; [by apply String.eqb_eq|apply String.eqb_eq; congruence|done].
  - unfold deleteEndpoint. rewrite find_own_filter. destruct (find_own s id st) as [d|] eqn:Ef; [|by intros [= <- <-]].
    apply find_own_spec in Ef as (Hd & Hi & Hs). intros [= <- <-].
    assert (Hsame : forall x, x ∈ st -> ep_id (w_ep x) = ep_id (w_ep d) -> own s x = true).
    { intros x Hx E. assert (x = d) as -> by (apply (NoDup_fmap_eq (fun d => ep_id (w_ep d)) st); done). by apply String.eqb_eq. }
    split; [|f_equal; apply filterb_comm]. rewrite filterb_comm.
    clear -Hsame. induction st as [|x st IH]; [done|]. cbn. specialize (IH ltac:(intros y Hy; apply Hsame; by right)).
    destruct (own s x) eqn:Eo; cbn; [done|]. destruct (Nat.eqb_spec (ep_id (w_ep x)) (ep_id (w_ep d))) as [E|]; cbn; [|by rewrite IH].
    rewrite (Hsame x) in Eo; [done|left|done].
  - intros [= <- <-]. split; [done|]. unfold sendTestEvent. by rewrite find_own_filter.
Qed.

(** ** Well-formed endpoints *)

Definition well_formed (d : ep_doc) : Prop :=
  let e := w_ep d in
  (exists s, ep_secret e = Some s /\ s <> "") /\
  (is_Some (ep_previousSecret e) <-> is_Some (ep_previousExpires e)) /\
  (ep_events e <> [] /\ forall x, x ∈ ep_events e -> x ∈ WEBHOOK_EVENTS) /\
  (exists l, ep_signatureVersions e = Some l /\ ("v2" ∈ l) /\ forall x, x ∈ l -> x ∈ SIGNATURE_VERSIONS).

Lemma new_set_elem x l : x ∈ new_set l <-> x ∈ l.
Proof.
  induction l as [|y l IH]; [done|]. cbn. rewrite !elem_of_cons, elem_of_filterb, negb_true_iff, String.eqb_neq, IH.
  destruct (decide (x = y)); tauto.
Qed.

Lemma subset_of_spec l ref : subset_of l ref = true <-> forall x, x ∈ l -> x ∈ ref.
Proof.
  unfold subset_of. rewrite forallb_forall. split; intros H x Hx.
  - apply list_elem_of_In, H in Hx. by apply bool_decide_eq_true in Hx.
  - apply bool_decide_eq_true, H. by apply list_elem_of_In.
Qed.

Lemma strong_text r : strong r = true -> exists s, secret_text r = Some s /\ s <> "".
Proof.
  unfold strong. intros H%bool_decide_eq_true. destruct (secret_text r) as [s|]; [|done]. exists s. split; [done|]. by intros ->.
Qed.

Lemma versions_ok v : _validateSignatureVersions v = true -> exists l, v = Some l /\ ("v2" ∈ l) /\ forall x, x ∈ l -> x ∈ SIGNATURE_VERSIONS.
Proof.
  destruct v as [l|]; [|done]. cbn. intros [[_ Hs]%andb_prop Hv]%andb_prop. exists l. split; [done|].
  split; [by apply bool_decide_eq_true in Hv|by apply subset_of_spec].
Qed.

Lemma events_ok v : valid_events v = true -> exists l, v = Some l /\ l <> [] /\ forall x, x ∈ l -> x ∈ WEBHOOK_EVENTS.
Proof.
  destruct v as [l|]; [|done]. cbn. intros [Hn Hs]%andb_prop. exists l. split; [done|]. split; [by destruct l|by apply subset_of_spec].
Qed.

Lemma rotation_well_formed new overlap t d : new <> "" -> well_formed d -> well_formed (applySecretRotation new overlap t d).
Proof.
  intros Hn (Hs & Hp & He & Hv). unfold applySecretRotation, well_formed.
  destruct (or_null _ _); [destruct (0 <? _)|]; cbn; (split_and!; [by exists new| |by apply He|by apply He|done]); split; intros [? ?]; first [done|by eexists].
Qed.

Lemma update_well_formed w b d d' : well_formed d -> updated w b d = Ok d' -> well_formed d'.
Proof.
  intros Hwf H. unfold updated in H. apply bind_Ok in H as (d1 & H1 & H). apply bind_Ok in H as (d2 & H2 & H).
  apply bind_Ok in H as (d3 & H3 & H). apply bind_Ok in H as (d4 & H4 & H).
  assert (W1 : well_formed d1).
  { destruct (b_url b); [|by injection H1 as <-]. apply bind_Ok in H1 as (? & _ & H1). apply bind_Ok in H1 as (? & _ & H1). by injection H1 as <-. }
  assert (W2 : well_formed d2).
  { destruct (b_secret b) as [r|]; [|by injection H2 as <-]. apply bind_Ok in H2 as (? & Hg & H2). apply bind_Ok in H2 as (? & _ & H2). injection H2 as <-.
    unfold guard_else in Hg. destruct (strong r) eqn:Hr; [|done]. apply strong_text in Hr as (s & -> & Hs). by apply rotation_well_formed. }
  assert (W3 : well_formed d3).
  { destruct (b_versions b) as [v|]; [|by injection H3 as <-]. apply bind_Ok in H3 as (? & Hg & H3). injection H3 as <-.
    unfold guard_else in Hg. destruct (_validateSignatureVersions v) eqn:Hv; [|done]. apply versions_ok in Hv as (l & -> & Hv2 & Hsub).
    destruct W2 as (Ws & Wp & We & _). split_and!; try done; [by apply We|by apply We|]. cbn. exists (new_set l). setoid_rewrite new_set_elem. done. }
  assert (W4 : well_formed d4).
  { destruct (b_events b) as [v|]; [|by injection H4 as <-]. apply bind_Ok in H4 as (? & Hg & H4). injection H4 as <-.
    unfold guard_else in Hg. destruct (valid_events v) eqn:Hv; [|done]. apply events_ok in Hv as (l & -> & Hne & Hsub).
    destruct W3 as (Ws & Wp & _ & Wv). by split_and!. }
  injection H as <-. by destruct (b_description b), (b_isActive b).
Qed.

Lemma save_Forall (P : ep_doc -> Prop) d st : P d -> Forall P st -> Forall P (save d st).
Proof. intros Hd H. unfold save. apply Forall_map. eapply Forall_impl; [exact H|]. intros x Hx. by destruct (_ =? _)%nat. Qed.

Lemma find_own_P (P : ep_doc -> Prop) s id st d : Forall P st -> find_own s id st = Some d -> P d.
Proof. intros H Hf. apply find_own_spec in Hf as (Hd & _). rewrite Forall_forall in H. by apply H. Qed.

Lemma create_well_formed s w b st r st' : fresh_secret w <> "" -> Forall well_formed st -> createEndpoint s w b st = (r, st') -> Forall well_formed st'.
Proof.
  intros Hf Hst. unfold createEndpoint. destruct (step_up w) as [[? ?]|]; [by intros [= <- <-]|].
  destruct (or_null (b_url b) None) as [url|]; [|by intros [= <- <-]]. destruct (b_events b) as [[events|]|]; [|by intros [= <- <-]..].
  destruct (non_empty events && subset_of events WEBHOOK_EVENTS) eqn:Ee; cbn [negb]; [|by intros [= <- <-]].
  destruct (secret_given (b_secret b) && negb (strong (default SecretNull (b_secret b)))) eqn:Es; [by intros [= <- <-]|].
  destruct (match b_versions b with Some v => negb (_validateSignatureVersions v) | None => false end) eqn:Ev; [by intros [= <- <-]|].
  destruct (url_ok w url); cbn [negb]; [|by intros [= <- <-]]. intros [= <- <-]. apply Forall_app. split; [done|]. constructor; [|constructor].
  apply (events_ok (Some events)) in Ee as (l & [= <-] & Hne & Hsub). split_and!; cbn.
  - destruct (secret_given (b_secret b)) eqn:Eg; [|by eexists]. cbn in Es. apply negb_false_iff, strong_text in Es as (x & Hx & Hne').
    destruct (b_secret b) as [r0|]; [|done]. cbn in *. rewrite Hx. by eexists.
  - split; intros [? ?]; done.
  - done.
  - done.
  - destruct (b_versions b) as [v|].
    + apply negb_false_iff, versions_ok in Ev as (l & -> & Hv & Hs'). exists (new_set l). setoid_rewrite new_set_elem. done.
    + exists DEFAULT_SIGNATURE_VERSIONS. split_and!; [done|left|]. intros x Hx. apply list_elem_of_singleton in Hx as ->. by right; left.
Qed.

Lemma handle_well_formed sid w rq st r st' : fresh_secret w <> "" -> Forall well_formed st -> handle sid w rq st = (r, st') -> Forall well_formed st'.
Proof.
  intros Hf Hst. destruct sid as [s|]; [|by destruct rq; intros [= <- <-]]. destruct rq as [b| |id|id b|id raw|id|id]; cbn [handle].
  - by apply create_well_formed.
  - by intros [= <- <-].
  - by intros [= <- <-].
  - unfold updateEndpoint. destruct (find_own s id st) as [d|] eqn:Ef; [|by intros [= <- <-]]. destruct (updated w b d) as [d'|] eqn:Eu; [|by intros [= <- <-]].
    intros [= <- <-]. apply save_Forall; [|done]. eapply update_well_formed; [|done]. by eapply find_own_P.
  - unfold rotateSecret. destruct (find_own s id st) as [d|] eqn:Ef; [|by intros [= <- <-]]. destruct (parseOverlapSeconds _ _); [|by intros [= <- <-]].
    intros [= <- <-]. apply save_Forall; [|done]. apply rotation_well_formed; [done|]. by eapply find_own_P.
  - unfold deleteEndpoint. destruct (find_own s id st); [|by intros [= <- <-]]. intros [= <- <-]. apply Forall_forall. intros x [_ Hx]%elem_of_filterb.
    rewrite Forall_forall in Hst. by apply Hst.
  - by intros [= <- <-].
Qed.

(** Everything that writes endpoints; the last one is the write of the
    deprecated PUT /schools/:schoolId/webhook-secret, whatever its overlap. *)
Inductive write :=
| Handled (schoolId : option string) (w : world) (rq : request)
| Upserted (schoolId url : string) (createdBy : option string) (fresh : nat * string) (at_ : Z)
| Purged (at_ : Z)
| LegacyRotated (schoolId newSecret : string) (overlap at_ : Z).

Definition apply_write (x : write) (st : list ep_doc) : list ep_doc :=
  match x with
  | Handled sid w rq => (handle sid w rq st).2
  | Upserted s url by_ fresh t => (upsertLegacySchoolEndpoint s url by_ fresh t st).2
  | Purged t => purgeExpiredPreviousSecrets t st
  | LegacyRotated s new overlap t =>
    match findLegacySchoolEndpoint s st with Some d => save (applySecretRotation new overlap t d) st | None => st end
  end.

Definition draws_secret (x : write) : Prop :=
  match x with Handled _ w _ => fresh_secret w <> "" | Upserted _ _ _ fresh _ => fresh.2 <> "" | Purged _ => True
  | LegacyRotated _ new _ _ => new <> "" end.

(** C36: whatever is written, by whomever and in whatever order: every endpoint has
    a signing secret, a previous secret exactly together with its expiry,
    subscribes to at least one known event and to no other, and receives at
    least the second signature version. *)
Theorem endpoints_well_formed ws : Forall draws_secret ws -> Forall well_formed (foldl (fun st x => apply_write x st) [] ws).
Proof.
  assert (H : forall st, Forall well_formed st -> Forall draws_secret ws -> Forall well_formed (foldl (fun st x => apply_write x st) st ws)).
  { induction ws as [|x ws IH]; intros st Hst Hd; [done|]. inversion Hd as [|? ? Hx Hd']; subst. cbn. apply IH; [|done].
    destruct x as [sid w rq|s url by_ fresh t|t|s new ov t]; cbn [apply_write].
    - destruct (handle sid w rq st) as [r st'] eqn:E. by eapply handle_well_formed.
    - unfold upsertLegacySchoolEndpoint. destruct (findLegacySchoolEndpoint s st) as [d|] eqn:E; cbn.
      + apply save_Forall; [|done]. apply List.find_some in E as [E _]. rewrite Forall_forall in Hst. apply (Hst d). by apply list_elem_of_In.
      + apply Forall_app. split; [done|]. constructor; [|constructor]. split_and!; cbn; [by eexists|split; by intros []|done| |].
        * apply subset_of_spec. by vm_compute.
        * exists LEGACY_SIGNATURE_VERSIONS. split_and!; [done|by right; left|done].
    - unfold purgeExpiredPreviousSecrets. apply Forall_map. eapply Forall_impl; [exact Hst|]. intros d (Hs & Hp & He & Hv).
      unfold well_formed, on_endpoint, purge_one. cbn. destruct (ep_previousExpires (w_ep d)) as [y|] eqn:Ey; cbn.
      + destruct (y <=? t); cbn; (split_and!; [done| |by apply He|by apply He|done]); [split; intros [? ?]; first [done|by eexists]|by rewrite Ey].
      + split_and!; [done|by rewrite Ey|by apply He|by apply He|done].
    - destruct (findLegacySchoolEndpoint s st) as [d|] eqn:E; [|done]. apply save_Forall; [|done]. apply rotation_well_formed; [done|].
      apply List.find_some in E as [E _]. rewrite Forall_forall in Hst. apply (Hst d). by apply list_elem_of_In. }
  intros Hd. by apply H.
Qed.

(** *** Concrete requests *)

Definition long_secret : string := "Zk3!pQ7@vL9#xT2$mW5%rB8^nC1&yD4*".
Definition a_world : world := World None (fun _ => true) 1 "generated-secret" "admin" 1000 true (Responded 200) "d1" 9999 86400.
Definition a_body : ep_body := EpBody (Some "https://h") None (Some (Some ["payment.confirmed"])) None None None OverlapAbsent.
Definition an_ep (id : nat) (school : string) : ep_doc :=
  EpDoc (Endpoint id school "https://h" (Some "old") None None (Some ["v2"]) true ["payment.confirmed"] 0) None None None SOURCE_API 0.

Lemma rotation_keeps_receivers_witness :
  verifySignatureV2Header demo_hmac (chars "1") (chars "d") (chars "b") (v2_header demo_hmac (chars "1") (chars "d") (chars "b") 500
    (applySecretRotation "new" 60 0 (an_ep 1 "S"))) "old" = true.
Proof.
  apply (rotation_keeps_receivers demo_hmac demo_hex "old" "new" 60 0 (an_ep 1 "S") (chars "1") (chars "d") (chars "b") 500); reflexivity || lia.
Defined.

Lemma purge_invisible_witness :
  _activePreviousSecret 70000 (purge_one 60000 (w_ep (applySecretRotation "new" 60 0 (an_ep 1 "S")))) = None.
Proof.
  rewrite (proj1 (purge_invisible 60000 70000 (w_ep (applySecretRotation "new" 60 0 (an_ep 1 "S"))) ltac:(lia))). reflexivity.
Defined.

Lemma endpoints_isolated_witness :
  handle (Some "S") a_world (DeleteEndpoint 2) [an_ep 1 "S"; an_ep 2 "T"] = (NOT_FOUND, [an_ep 1 "S"; an_ep 2 "T"]) /\
  handle (Some "S") a_world (DeleteEndpoint 2) [an_ep 1 "S"] = (NOT_FOUND, [an_ep 1 "S"]).
Proof.
  split; [reflexivity|].
  refine (proj2 (endpoints_isolated "S" a_world (DeleteEndpoint 2) [an_ep 1 "S"; an_ep 2 "T"] NOT_FOUND [an_ep 1 "S"; an_ep 2 "T"] _ eq_refl)).
  apply NoDup_ListNoDup. cbn. repeat constructor; cbn; lia.
Defined.

Lemma endpoints_well_formed_witness : Forall well_formed
  (foldl (fun st x => apply_write x st) [] [Handled (Some "S") a_world (CreateEndpoint a_body); Upserted "S" "https://l" None (2%nat, "g") 5; LegacyRotated "S" "h" 60 7; Purged 9]).
Proof. apply (endpoints_well_formed [_; _; _; _]). repeat constructor; discriminate. Defined.

(** A well-drawn secret of thirty-two hexadecimal characters is refused: no
    such text holds more than 128 bits, and this one holds a little less. *)
Theorem random_hex_secret_refused :
  validateWebhookSecretStrength (Some "9f86d081884c7d659a2feaa0c55ad015") = Some Predictable /\
  validateWebhookSecretStrength (Some "0123456789abcdef0123456789abcdef") = None /\
  validateWebhookSecretStrength (Some long_secret) = None.
Proof. vm_compute. done. Qed.

(** Two registrations of a school's first webhook at once leave two. *)
Theorem legacy_registered_twice :
  let create fresh st := (upsertLegacySchoolEndpoint "S" "https://h" None fresh 1 st).1.1.1 in
  let both := [create (1%nat, "a") []; create (2%nat, "b") []] in
  length (List.filter (fun d => (ep_school (w_ep d) =? "S")%string && (w_source d =? SOURCE_LEGACY)%string) both) = 2%nat.
Proof. reflexivity. Qed.

(** A replay tells another school's delivery from one that does not exist. *)
Theorem replay_reveals_existence log st d : d ∈ log -> NoDup (map dl_id log) -> dl_school d <> "S" ->
  replayDelivery "S" (dl_id d) log st = ReplayRejected 403 "FORBIDDEN" /\
  forall id, id ∉ map dl_id log -> replayDelivery "S" id log st = ReplayRejected 404 "NOT_FOUND".
Proof.
  intros Hd ND Hs. split.
  - unfold replayDelivery. destruct (List.find _ log) as [x|] eqn:E.
    + apply List.find_some in E as [Hx Ex]. apply Nat.eqb_eq in Ex. apply list_elem_of_In in Hx.
      assert (x = d) as -> by (apply (NoDup_fmap_eq dl_id log); done). by apply String.eqb_neq in Hs as ->.
    + apply list_elem_of_In in Hd. apply (List.find_none _ _ E) in Hd. by rewrite Nat.eqb_refl in Hd.
  - intros id Hid. unfold replayDelivery. destruct (List.find _ log) as [x|] eqn:E; [|done].
    apply List.find_some in E as [Hx Ex]. apply Nat.eqb_eq in Ex. exfalso. apply Hid. subst id. apply list_elem_of_fmap_2. by apply list_elem_of_In.
Qed.

Lemma replay_reveals_existence_witness :
  replayDelivery "S" 7 [Delivery 7 "T" 1 "payment.confirmed" ∅ true 0] [] = ReplayRejected 403 "FORBIDDEN".
Proof.
  apply (replay_reveals_existence [Delivery 7 "T" 1 "payment.confirmed" ∅ true 0] [] (Delivery 7 "T" 1 "payment.confirmed" ∅ true 0));
    [left|apply NoDup_singleton|discriminate].
Defined.
End WebhookAdmin.
