(* ===== verification/Schools.v ===== *)
(** Schools and their administration: backend/src/controllers/schoolController.js
    and services/schoolSettingsService.js.

    The step-up check, a school's settings with their precedence, and the
    handlers that create, change, rotate, deactivate and reactivate schools.
    The bcrypt and Stellar packages, the lockout and second-factor services
    (which the repository does not contain), the funding check and Horizon are
    parameters.  Audit entries are the names of their actions. *)

From Stdlib Require Import Ascii ZArith QArith Lia.
From stdpp Require Import base strings gmap list.
From S2P Require Import Prelude JsString StellarRetry Poller WebhookAdmin.
Import StellarRetry.
Local Open Scope string_scope.
Local Open Scope Z_scope.
Local Open Scope list_scope.

(** ** The step-up check *)
Module StepUp.

(** What the lockout service would do; a call may throw. *)
Record lockout (L : Type) := Lockout {
  isLockedOut : string -> L -> option bool;
  recordLoginFailure : string -> L -> option L;
  resetLoginFailures : option (string -> L -> option L)
}.
Arguments Lockout {L}. Arguments isLockedOut {L}. Arguments recordLoginFailure {L}. Arguments resetLoginFailures {L}.

Record user := User { u_email : string; u_passwordHash : option string; u_mfaEnabled : bool; u_mfaSecret : string }.

Record request := Request {
  q_user : option user; q_ip : option string; q_password : option string; q_mfaCode : option string;
  q_school_mfa : option (bool * string)   (** the school's [mfaEnabled] and [mfaSecret] *)
}.

Record admin_env := AdminEnv { ADMIN_PASSWORD_HASH : option string; ADMIN_PASSWORD : option string }.

Inductive reason := locked_out | missing_password | invalid_password | missing_mfa_code | invalid_mfa_code.

(** The verdict and the audit entry; [None] for a call that throws. *)
Inductive outcome := Passed (mfaUsed : bool) | Refused (r : reason).

Definition given (o : option string) : option string := match o with Some s => if str_truthy s then Some s else None | None => None end.

Section Verify.
Variable L : Type.
Variable bcrypt_compare : string -> string -> bool.
(** [mfaService]: [None] when it cannot be loaded or has neither function. *)
Variable verify_token : option (string -> string -> bool).
(** [lockoutService]: [None] when it cannot be loaded. *)
Variable service : option (lockout L).
Variable env : admin_env.

Definition db_user (q : request) : option (user * string) :=
  match q_user q with Some u => match given (u_passwordHash u) with Some h => Some (u, h) | None => None end | None => None end.

Definition lockout_key (q : request) : string :=
  match db_user q with
  | Some (u, _) => u_email u
  | None => default "env-admin" (given (q_ip q))
  end.

Definition password_ok (q : request) (password : string) : bool :=
  match db_user q with
  | Some (_, h) => bcrypt_compare password h
  | None =>
    match given (ADMIN_PASSWORD_HASH env) with
    | Some h => bcrypt_compare password h
    | None => match given (ADMIN_PASSWORD env) with Some p => bool_decide (password = p) | None => false end
    end
  end.

Definition mfa_secret (q : request) : option string :=
  match db_user q with
  | Some (u, _) => if u_mfaEnabled u then Some (u_mfaSecret u) else None
  | None => match q_school_mfa q with Some (true, s) => Some s | _ => None end
  end.

(** A failure to record or to reset is swallowed. *)
Definition best_effort (f : L -> option L) (l : L) : L := default l (f l).

Definition verifyStepUp (q : request) (l : L) : option (outcome * L) :=
  match service with
  | None => None
  | Some sv =>
    let key := lockout_key q in
    if match isLockedOut sv key l with Some true => true | _ => false end then Some (Refused locked_out, l)
    else
      match given (q_password q) with
      | None => Some (Refused missing_password, l)
      | Some password =>
        if negb (password_ok q password) then Some (Refused invalid_password, best_effort (recordLoginFailure sv key) l)
        else
          let reset l := match resetLoginFailures sv with Some f => best_effort (f key) l | None => l end in
          match mfa_secret q with
          | None => Some (Passed false, reset l)
          | Some secret =>
            match given (q_mfaCode q) with
            | None => Some (Refused missing_mfa_code, l)
            | Some c =>
              if match verify_token with Some f => f secret c | None => false end then Some (Passed true, reset l)
              else Some (Refused invalid_mfa_code, best_effort (recordLoginFailure sv key) l)
            end
          end
      end
  end.

(** A step-up passes only an account that is not locked, with the password of
    that account and not another's, and with its second factor where one is
    enabled; a wrong password or code is counted against exactly that
    account. *)
Theorem step_up_sound q l o l' : verifyStepUp q l = Some (o, l') ->
  match o with
  | Passed used =>
    (exists sv, service = Some sv /\ isLockedOut sv (lockout_key q) l <> Some true) /\
    (exists p, q_password q = Some p /\ password_ok q p = true) /\
    used = bool_decide (is_Some (mfa_secret q)) /\
    forall secret, mfa_secret q = Some secret -> exists f c, verify_token = Some f /\ q_mfaCode q = Some c /\ f secret c = true
  | Refused (invalid_password | invalid_mfa_code) =>
    exists sv, service = Some sv /\ l' = default l (recordLoginFailure sv (lockout_key q) l)
  | Refused _ => l' = l
  end.
Proof.
  unfold verifyStepUp. destruct service as [sv|]; [|done].
  destruct (isLockedOut sv (lockout_key q) l) as [[|]|] eqn:El; [intros [= <- <-]; done|..];
  (destruct (given (q_password q)) as [p|] eqn:Ep; [|intros [= <- <-]; done];
   assert (Hp : q_password q = Some p) by (unfold given in Ep; destruct (q_password q) as [x|]; [|done]; destruct (str_truthy x); congruence);
   destruct (password_ok q p) eqn:Epw; cbn [negb]; [|intros [= <- <-]; by exists sv];
   destruct (mfa_secret q) as [secret|] eqn:Em;
   [destruct (given (q_mfaCode q)) as [c|] eqn:Ec; [|intros [= <- <-]; done];
    assert (Hc : q_mfaCode q = Some c) by (unfold given in Ec; destruct (q_mfaCode q) as [x|]; [|done]; destruct (str_truthy x); congruence);
    destruct verify_token as [f|] eqn:Ev; [destruct (f secret c) eqn:Ef|]; intros [= <- <-]; [|by exists sv..];
    split_and!; [exists sv; by rewrite El|by exists p|done|intros s [= <-]; by exists f, c]
   |intros [= <- <-]; split_and!; [exists sv; by rewrite El|by exists p|done|done]]).
Qed.
End Verify.
End StepUp.

(** ** Settings *)
Module Settings.

(** The values a setting can have. *)
Inductive sval := SNum (z : Z) | SBool (b : bool) | SOther (text : string).
#[export] Instance sval_eq_dec : EqDecision sval.
Proof. solve_decision. Defined.

Abbreviation settings := (gmap string sval).

Definition SETTING_KEYS : list string :=
  ["maxSyncBatchSize"; "reminderEnabled"; "reminderIntervalMs"; "maintenanceMode"; "betaFeatures"; "acceptedAnchors"].
Definition SYSTEM_CONFIG_MAP : list string := ["maxSyncBatchSize"; "reminderEnabled"; "reminderIntervalMs"; "maintenanceMode"].

Definition DEFAULTS : settings :=
  <["maxSyncBatchSize" := SNum 20]> (<["reminderEnabled" := SBool true]> (<["reminderIntervalMs" := SNum 86400000]>
  (<["maintenanceMode" := SBool false]> ∅))).

Definition validator (key : string) (v : sval) : bool :=
  if (key =? "maxSyncBatchSize")%string then match v with SNum z => (1 <=? z) && (z <=? 1000) | _ => false end
  else if (key =? "reminderEnabled")%string then match v with SBool _ => true | _ => false end
  else if (key =? "reminderIntervalMs")%string then match v with SNum z => (60000 <=? z) && (z <=? 604800000) | _ => false end
  else if (key =? "maintenanceMode")%string then match v with SBool _ => true | _ => false end
  else true.

Inductive setting_error := UnknownKey | InvalidValue.

Definition validateSetting (key : string) (v : sval) : result setting_error unit :=
  if negb (bool_decide (key ∈ SETTING_KEYS)) then Throw UnknownKey
  else if validator key v then Ok tt else Throw InvalidValue.

(** [school]: the overrides of the school, [None] when there is no school;
    [system]: the stored system values. *)
Definition getSchoolSetting (school : option settings) (system : settings) (key : string) : option sval :=
  if negb (bool_decide (key ∈ SETTING_KEYS)) then None
  else match school ≫= lookup key with
       | Some v => Some v
       | None =>
         match (if bool_decide (key ∈ SYSTEM_CONFIG_MAP) then system !! key else None) with
         | Some v => Some v
         | None => DEFAULTS !! key
         end
       end.

Definition getSchoolSettings (school : option settings) (system : settings) : settings :=
  let merged := foldl (fun m key => match system !! key with Some v => <[key := v]> m | None => m end) DEFAULTS SYSTEM_CONFIG_MAP in
  default ∅ school ∪ merged.

Definition setSchoolSetting (key : string) (v : sval) (s : settings) : result setting_error settings :=
  _ ← validateSetting key v; Ok (<[key := v]> s).

Definition clearSchoolSetting (key : string) (s : settings) : result setting_error settings :=
  if negb (bool_decide (key ∈ SETTING_KEYS)) then Throw UnknownKey else Ok (delete key s).

(** The PATCH handler: known keys in the order of the body, one write each; a
    refused value ends it with what was written so far. *)
Fixpoint updateSchoolSettings (body : list (string * sval)) (s : settings) : settings * result setting_error (list (string * sval)) :=
  match body with
  | [] => (s, Ok [])
  | (key, v) :: rest =>
    if bool_decide (key ∈ SETTING_KEYS) then
      match setSchoolSetting key v s with
      | Ok s' => let '(s2, r) := updateSchoolSettings rest s' in (s2, r' ← r; Ok ((key, v) :: r'))
      | Throw e => (s, Throw e)
      end
    else updateSchoolSettings rest s
  end.

Lemma merged_lookup (system : settings) key :
  foldl (fun (m : settings) k => match system !! k with Some v => <[k := v]> m | None => m end) DEFAULTS SYSTEM_CONFIG_MAP !! key =
  match (if bool_decide (key ∈ SYSTEM_CONFIG_MAP) then system !! key else None) with Some v => Some v | None => DEFAULTS !! key end.
Proof.
  assert (H : forall l m, foldl (fun (m : settings) k => match system !! k with Some v => <[k := v]> m | None => m end) m l !! key =
    match (if bool_decide (key ∈ l) then system !! key else None) with Some v => Some v | None => m !! key end).
  { induction l as [|k l IH]; intros m; cbn [foldl]; [done|]. rewrite IH. destruct (decide (key ∈ l)) as [Hl|Hl].
    - rewrite !bool_decide_eq_true_2 by (done || by right). destruct (system !! key) eqn:E; [done|].
      destruct (system !! k) eqn:Ek; [|done]. rewrite lookup_insert_ne by congruence. done.
    - rewrite (bool_decide_eq_false_2 (key ∈ l)) by done. destruct (decide (key = k)) as [->|Hne].
      + rewrite bool_decide_eq_true_2 by left. destruct (system !! k); [by rewrite lookup_insert_eq|done].
      + rewrite bool_decide_eq_false_2 by (intros [?|?]%elem_of_cons; done). destruct (system !! k); [|done]. by rewrite lookup_insert_ne. }
  apply H.
Qed.

(** Reading one setting and reading all of them agree on every known key: the
    school's own value, else the system's, else the default. *)
Theorem settings_agree school system key : key ∈ SETTING_KEYS ->
  getSchoolSettings school system !! key = getSchoolSetting school system key.
Proof.
  intros Hk. unfold getSchoolSettings, getSchoolSetting. rewrite bool_decide_eq_true_2 by done. cbn [negb].
  rewrite lookup_union, merged_lookup. destruct school as [s|]; cbn; [|rewrite lookup_empty; by rewrite option_union_left_id].
  destruct (s !! key); cbn; [by rewrite union_Some_l|by rewrite option_union_left_id].
Qed.

(** Setting and reading a value gives it back and leaves the others; clearing
    it gives back what was inherited. *)
Theorem settings_roundtrip system key v s s' : setSchoolSetting key v s = Ok s' ->
  getSchoolSetting (Some s') system key = Some v /\
  (forall k, k <> key -> getSchoolSetting (Some s') system k = getSchoolSetting (Some s) system k) /\
  exists s'', clearSchoolSetting key s' = Ok s'' /\ forall k, getSchoolSetting (Some s'') system k =
    if bool_decide (k = key) then getSchoolSetting None system k else getSchoolSetting (Some s) system k.
Proof.
  unfold setSchoolSetting, validateSetting. intros H. apply bind_Ok in H as (? & Hv & [= <-]).
  destruct (bool_decide (key ∈ SETTING_KEYS)) eqn:Ek; [|done]. cbn [negb] in Hv. unfold getSchoolSetting, clearSchoolSetting. cbn [mbind option_bind]. rewrite Ek. cbn [negb].
  split_and!.
  - by rewrite lookup_insert_eq.
  - intros k Hne. by rewrite lookup_insert_ne.
  - eexists. split; [done|]. intros k. cbn. destruct (decide (k = key)) as [->|Hne].
    + by rewrite (bool_decide_eq_true_2 (key = key)), lookup_delete_eq by done.
    + rewrite (bool_decide_eq_false_2 (k = key)) by done. by rewrite lookup_delete_ne, lookup_insert_ne.
Qed.

(** Whatever the requests, every stored value is one its validator accepts. *)
Theorem settings_valid bodies : map_Forall (fun k v => validateSetting k v = Ok tt)
  (foldl (fun s b => (updateSchoolSettings b s).1) ∅ bodies).
Proof.
  assert (H : forall b s, map_Forall (fun k v => validateSetting k v = Ok tt) s -> map_Forall (fun k v => validateSetting k v = Ok tt) (updateSchoolSettings b s).1).
  { induction b as [|[k v] b IH]; intros s Hs; cbn [updateSchoolSettings]; [done|]. destruct (bool_decide _); [|by apply IH].
    unfold setSchoolSetting. destruct (validateSetting k v) as [[]|] eqn:Ev; cbn; [|done].
    specialize (IH (<[k := v]> s)). destruct (updateSchoolSettings b (<[k := v]> s)) as [s2 r]. apply IH. by apply map_Forall_insert_2. }
  induction bodies as [|b bs IH] using rev_ind; [apply map_Forall_empty|]. rewrite foldl_app. by apply H.
Qed.

Lemma settings_agree_witness : getSchoolSettings (Some {["reminderEnabled" := SBool false]}) {["maxSyncBatchSize" := SNum 5]} !! "maxSyncBatchSize" = Some (SNum 5).
Proof. rewrite (settings_agree (Some {["reminderEnabled" := SBool false]}) {["maxSyncBatchSize" := SNum 5]} "maxSyncBatchSize" ltac:(left)). reflexivity. Defined.

Lemma settings_roundtrip_witness : getSchoolSetting (Some (<["maxSyncBatchSize" := SNum 7]> ∅)) ∅ "maxSyncBatchSize" = Some (SNum 7).
Proof. apply (settings_roundtrip ∅ "maxSyncBatchSize" (SNum 7) ∅). reflexivity. Defined.

(** A body with one refused value is written up to it, and reported as an
    error. *)
Theorem settings_partly_written :
  updateSchoolSettings [("reminderEnabled", SBool false); ("maxSyncBatchSize", SNum 0)] ∅ = ({["reminderEnabled" := SBool false]}, Throw InvalidValue).
Proof. reflexivity. Qed.
End Settings.

(** ** Schools *)
Module Schools.
Import WalletRotation.

Record school := School {
  sc_schoolId : string; sc_name : string; sc_slug : string; sc_wallet : wallet; sc_previousStellarAddress : option string;
  sc_ingestStartsAt : option Z; sc_isActive : bool; sc_network : string; sc_adminEmail : option string; sc_address : option string;
  sc_multiplier : option Q; sc_localCurrency : option string; sc_timezone : option string; sc_classOptions : option (list string)
}.

Inductive response :=
| Rejected (status : Z) (code : string)
| Answered (status : Z) (s : school)
| Failed.                               (** an exception of the handler *)

(** What the handlers ask of packages and services. *)
Record services := Services {
  isValidEd25519PublicKey : string -> bool; isValidTimezone : string -> bool; isSupportedCurrency : string -> bool;
  funding_warning : string -> bool;                       (** the account is unfunded *)
  latest_token : string -> result herror (option string); (** Horizon's newest paging token *)
  stepped_up : option bool                                (** the step-up check, [None] when it throws *)
}.

Section Handlers.
Variable o : services.
Variable now : Z.

Definition find_school (id : string) (db : list school) : option school :=
  List.find (fun s => (sc_schoolId s =? id)%string) db.
Definition find_active (id : string) (db : list school) : option school :=
  List.find (fun s => (sc_schoolId s =? id)%string && sc_isActive s) db.
Definition put (s : school) (db : list school) : list school :=
  map (fun x => if (sc_schoolId x =? sc_schoolId s)%string then s else x) db.

Definition blank (t : option string) : bool := match t with Some s => negb (str_truthy (str_trim s)) | None => true end.

(** [/^[a-z0-9-]{2,60}$/] *)
Definition slug_char (c : ascii) : bool :=
  let z := code c in ((97 <=? z) && (z <=? 122)) || ((48 <=? z) && (z <=? 57)) || (z =? 45).
Definition slug_ok (s : string) : bool :=
  let l := chars s in (2 <=? length l)%nat && (length l <=? 60)%nat && forallb slug_char l.

Definition network_ok (n : string) : bool := (n =? "testnet")%string || (n =? "mainnet")%string.

(** [None]: not a number. *)
Definition multiplier_ok (m : option Q) : bool :=
  match m with Some q => Qle_bool (11 # 10) q && Qle_bool q (100 # 1) | None => false end.

(** A field is [None] when undefined. *)
Record create_body := CreateBody {
  c_name : option string; c_slug : option string; c_stellarAddress : option string; c_network : option string; c_adminEmail : option string;
  c_address : option string; c_timezone : option string; c_multiplier : option (option Q); c_localCurrency : option string
}.

Definition text_or (t : option string) (d : string) : string := match t with Some s => str_or s d | None => d end.
Definition text_or_null (t : option string) : option string := match t with Some s => if str_truthy s then Some s else None | None => None end.

Definition create_errors (b : create_body) : bool :=
  blank (c_name b)
  || match text_or_null (c_slug b) with Some s => negb (slug_ok (toLowerCase (str_trim s))) | None => true end
  || match text_or_null (c_stellarAddress b) with Some a => negb (isValidEd25519PublicKey o a) | None => true end
  || match text_or_null (c_network b) with Some n => negb (network_ok n) | None => false end
  || match c_multiplier b with Some m => negb (multiplier_ok m) | None => false end.

(** [schoolId]: the one drawn. *)
Definition createSchool (schoolId : string) (b : create_body) (db : list school) : response * list school :=
  if create_errors b then (Rejected 400 "VALIDATION_ERROR", db)
  else if match c_timezone b with Some tz => negb (isValidTimezone o tz) | None => false end then (Rejected 400 "INVALID_TIMEZONE", db)
  else if match c_localCurrency b with Some c => negb (isSupportedCurrency o c) | None => false end then (Rejected 400 "UNSUPPORTED_CURRENCY", db)
  else
    let address := default "" (c_stellarAddress b) in
    let slug := toLowerCase (str_trim (default "" (c_slug b))) in
    if existsb (fun s => (sc_schoolId s =? schoolId)%string || (sc_slug s =? slug)%string) db then (Rejected 409 "DUPLICATE_SCHOOL", db)
    else
      let s := School schoolId (str_trim (default "" (c_name b))) slug (Wallet address None None (Some now) []) None (Some now) true
                 (text_or (c_network b) "testnet") (text_or_null (c_adminEmail b)) (text_or_null (c_address b))
                 (match c_multiplier b with Some m => m | None => None end) (toUpperCase <$> c_localCurrency b) (c_timezone b) None in
      (Answered (if funding_warning o address then 202 else 201) s, db ++ [s]).

Record update_body := UpdateBody {
  u_name : option string; u_stellarAddress : option string; u_network : option string; u_adminEmail : option string; u_address : option string;
  u_multiplier : option (option Q); u_amountConfig_ok : bool; u_localCurrency : option string; u_classOptions : option (option (list string))
}.

Definition class_options_ok (v : option (list string)) : bool :=
  match v with Some (x :: l) => forallb (fun t => str_truthy (str_trim t)) (x :: l) | _ => false end.

(** What a rotation writes, computed from the document that was read. *)
Definition commit_rotation (newAddress : string) (r : rotation) (w : wallet) : wallet :=
  Wallet newAddress (rot_syncCursor r) (Some (rot_activeFrom r)) (w_createdAt w) (walletHistory w ++ [rot_retired r]).

Definition with_wallet (w : wallet) (s : school) : school :=
  School (sc_schoolId s) (sc_name s) (sc_slug s) w (sc_previousStellarAddress s) (sc_ingestStartsAt s) (sc_isActive s) (sc_network s)
    (sc_adminEmail s) (sc_address s) (sc_multiplier s) (sc_localCurrency s) (sc_timezone s) (sc_classOptions s).

Definition over {A} (x : option A) (y : option A) : option A := match x with Some a => Some a | None => y end.

(** The plain fields. *)
Definition with_fields (b : update_body) (s : school) : school :=
  School (sc_schoolId s) (match u_name b with Some n => str_trim n | None => sc_name s end) (sc_slug s) (sc_wallet s) (sc_previousStellarAddress s)
    (sc_ingestStartsAt s) (sc_isActive s) (match u_network b with Some n => n | None => sc_network s end) (over (u_adminEmail b) (sc_adminEmail s))
    (over (u_address b) (sc_address s)) (match u_multiplier b with Some m => over m (sc_multiplier s) | None => sc_multiplier s end)
    (over (toUpperCase <$> u_localCurrency b) (sc_localCurrency s)) (sc_timezone s)
    (match u_classOptions b with Some (Some l) => Some (map str_trim l) | _ => sc_classOptions s end).

(** The checks before the school is looked up, in their order. *)
Definition update_checks (b : update_body) : result response unit :=
  let address := text_or_null (u_stellarAddress b) in
  _ ← match address with
      | Some _ => match stepped_up o with Some true => Ok tt | Some false => Throw (Rejected 403 "STEP_UP_REQUIRED") | None => Throw Failed end
      | None => Ok tt
      end;
  _ ← guard_else (match address with Some a => isValidEd25519PublicKey o a | None => true end) (Rejected 400 "INVALID_STELLAR_ADDRESS");
  _ ← guard_else (match u_multiplier b with Some m => multiplier_ok m | None => true end) (Rejected 400 "INVALID_SUSPICIOUS_PAYMENT_MULTIPLIER");
  _ ← guard_else (u_amountConfig_ok b) (Rejected 400 "INVALID_SUSPICIOUS_AMOUNT_CONFIG");
  _ ← guard_else (match u_localCurrency b with Some c => isSupportedCurrency o c | None => true end) (Rejected 400 "UNSUPPORTED_CURRENCY");
  guard_else (match u_classOptions b with Some v => class_options_ok v | None => true end) (Rejected 400 "INVALID_CLASS_OPTIONS").

(** The schema's own validation of what is set. *)
Definition validators_ok (b : update_body) : bool :=
  match u_name b with Some n => str_truthy (str_trim n) | None => true end
  && match u_stellarAddress b with Some a => isValidEd25519PublicKey o a | None => true end
  && match u_network b with Some n => network_ok n | None => true end.

(** The wallet as the update writes it; [None] when Horizon does not answer. *)
Definition new_wallet (original : wallet) (address : option string) : option wallet :=
  match text_or_null address with
  | Some a =>
    if (a =? stellarAddress original)%string then Some original
    else match buildWalletRotation (latest_token o a) false now original with
         | Ok r => Some (commit_rotation a r original)
         | Throw _ => None
         end
  | None => Some original
  end.

Definition updateSchool (id : string) (b : update_body) (db : list school) : response * list school :=
  match update_checks b with
  | Throw r => (r, db)
  | Ok _ =>
    match find_active id db with
    | None => (Rejected 404 "NOT_FOUND", db)
    | Some s =>
      match new_wallet (sc_wallet s) (u_stellarAddress b) with
      | None => (Rejected 503 "HORIZON_UNAVAILABLE", db)
      | Some w =>
        if negb (validators_ok b) then (Rejected 400 "VALIDATION_ERROR", db)
        else
          let s' := with_wallet w (with_fields b s) in
          let warn := match text_or_null (u_stellarAddress b) with Some a => funding_warning o a | None => false end in
          (Answered (if warn then 202 else 200) s', put s' db)
      end
    end
  end.

Definition rotated_school (newAddress : string) (r : rotation) (s : school) : school :=
  School (sc_schoolId s) (sc_name s) (sc_slug s) (commit_rotation newAddress r (sc_wallet s)) (Some (stellarAddress (sc_wallet s))) (Some now)
    (sc_isActive s) (sc_network s) (sc_adminEmail s) (sc_address s) (sc_multiplier s) (sc_localCurrency s) (sc_timezone s) (sc_classOptions s).

Definition rotateStellarAddress (id : string) (address reason : option string) (backfill : bool) (db : list school) : response * list school :=
  if blank reason then (Rejected 400 "REASON_REQUIRED", db)
  else match text_or_null address with
  | None => (Rejected 400 "INVALID_STELLAR_ADDRESS", db)
  | Some a =>
    if negb (isValidEd25519PublicKey o a) then (Rejected 400 "INVALID_STELLAR_ADDRESS", db)
    else match stepped_up o with
    | None => (Failed, db)
    | Some false => (Rejected 403 "STEP_UP_REQUIRED", db)
    | Some true =>
      match find_active id db with
      | None => (Rejected 404 "NOT_FOUND", db)
      | Some s =>
        if (stellarAddress (sc_wallet s) =? a)%string then (Rejected 400 "STELLAR_ADDRESS_UNCHANGED", db)
        else match buildWalletRotation (latest_token o a) backfill now (sc_wallet s) with
        | Throw _ => (Rejected 503 "HORIZON_UNAVAILABLE", db)
        | Ok r => let s' := rotated_school a r s in (Answered (if funding_warning o a then 202 else 200) s', put s' db)
        end
      end
    end
  end.

Definition set_active (b : bool) (s : school) : school :=
  School (sc_schoolId s) (sc_name s) (sc_slug s) (sc_wallet s) (sc_previousStellarAddress s) (sc_ingestStartsAt s) b (sc_network s)
    (sc_adminEmail s) (sc_address s) (sc_multiplier s) (sc_localCurrency s) (sc_timezone s) (sc_classOptions s).

(** The school is found whether or not it is active. *)
Definition deactivateSchool (id : string) (db : list school) : response * list school :=
  match find_school id db with
  | Some s => (Answered 200 (set_active false s), put (set_active false s) db)
  | None => (Rejected 404 "NOT_FOUND", db)
  end.
Definition activateSchool (id : string) (db : list school) : response * list school :=
  match find_school id db with
  | Some s => (Answered 200 (set_active true s), put (set_active true s) db)
  | None => (Rejected 404 "NOT_FOUND", db)
  end.

(** The deprecated webhook routes. *)
Definition registerWebhook (url_ok : string -> bool) (slug : string) (webhookUrl : option string) (performedBy : option string) (fresh : nat * string)
    (db : list school) (eps : list WebhookAdmin.ep_doc) : result response (WebhookAdmin.ep_doc * bool * option string) * list WebhookAdmin.ep_doc :=
  match text_or_null webhookUrl with
  | None => (Throw (Rejected 400 "VALIDATION_ERROR"), eps)
  | Some url =>
    if negb (url_ok url) then (Throw (Rejected 400 "INVALID_WEBHOOK_URL"), eps)
    else match List.find (fun s => (sc_slug s =? slug)%string && sc_isActive s) db with
    | None => (Throw (Rejected 404 "NOT_FOUND"), eps)
    | Some s => let '(r, eps') := WebhookAdmin.upsertLegacySchoolEndpoint (sc_schoolId s) url performedBy fresh now eps in (Ok r, eps')
    end
  end.

Definition rotateWebhookSecret (default_overlap : Z) (id : string) (raw : WebhookAdmin.raw_overlap) (newSecret : string)
    (db : list school) (eps : list WebhookAdmin.ep_doc) : result response WebhookAdmin.ep_doc * list WebhookAdmin.ep_doc :=
  match stepped_up o with
  | None => (Throw Failed, eps)
  | Some false => (Throw (Rejected 403 "STEP_UP_REQUIRED"), eps)
  | Some true =>
    match find_active id db with
    | None => (Throw (Rejected 404 "NOT_FOUND"), eps)
    | Some s =>
      match WebhookAdmin.parseOverlapSeconds default_overlap raw with
      | None => (Throw (Rejected 400 "VALIDATION_ERROR"), eps)
      | Some overlap =>
        match WebhookAdmin.findLegacySchoolEndpoint (sc_schoolId s) eps with
        | None => (Throw (Rejected 404 "NOT_FOUND"), eps)
        | Some d => let d' := WebhookAdmin.applySecretRotation newSecret overlap now d in (Ok d', WebhookAdmin.save d' eps)
        end
      end
    end
  end.
End Handlers.

(** ** A school keeps its wallets *)

Inductive op :=
| Create (schoolId : string) (b : create_body)
| Update (id : string) (b : update_body)
| Rotate (id : string) (address reason : option string) (backfill : bool)
| Deactivate (id : string)
| Activate (id : string).

Definition perform (o : services) (now : Z) (x : op) (db : list school) : response * list school :=
  match x with
  | Create id b => createSchool o now id b db
  | Update id b => updateSchool o now id b db
  | Rotate id a r f => rotateStellarAddress o now id a r f db
  | Deactivate id => deactivateSchool id db
  | Activate id => activateSchool id db
  end.

(** Every address a school has or had. *)
Definition addresses (s : school) : list string := stellarAddress (sc_wallet s) :: omap r_address (walletHistory (sc_wallet s)).

Definition drains_fully (e : retired_entry) : Prop :=
  exists u, r_activeUntil e = Some u /\ r_drainUntil e = Some (u + WALLET_DRAIN_WINDOW_MS).

(** [b]: every address is kept too. *)
Definition evolves (b : bool) (s s' : school) : Prop :=
  sc_schoolId s' = sc_schoolId s /\ sc_slug s' = sc_slug s /\
  (exists l, walletHistory (sc_wallet s') = walletHistory (sc_wallet s) ++ l) /\
  (Forall drains_fully (walletHistory (sc_wallet s)) -> Forall drains_fully (walletHistory (sc_wallet s'))) /\
  (b = true -> forall a, a ∈ addresses s -> a ∈ addresses s').

#[local] Instance evolves_preorder b : PreOrder (evolves b).
Proof.
  split; [intros s; split_and!; try done; by exists []; rewrite app_nil_r|].
  intros x y z (H1 & H2 & [l H3] & H4 & H5) (K1 & K2 & [k K3] & K4 & K5). split_and!; [congruence|congruence| | |].
  - exists (l ++ k). by rewrite K3, H3, app_assoc.
  - intros H. by apply K4, H4.
  - intros Hb a Ha. by apply (K5 Hb), (H5 Hb).
Qed.

Lemma evolves_weaken b s s' : evolves true s s' -> evolves b s s'.
Proof. intros (H1 & H2 & H3 & H4 & H5). split_and!; auto. Qed.

Definition distinct (db : list school) : Prop := NoDup (map sc_schoolId db) /\ NoDup (map sc_slug db).

Definition progresses (b : bool) (db db' : list school) : Prop :=
  distinct db' /\ forall s, s ∈ db -> exists s', (s' ∈ db') /\ evolves b s s'.

Lemma progresses_refl b db : distinct db -> progresses b db db.
Proof. intros H. split; [done|]. intros s Hs. by exists s. Qed.

Lemma put_progresses b s s' db : distinct db -> s ∈ db -> evolves b s s' -> progresses b db (put s' db).
Proof.
  intros [ND1 ND2] Hs Hev. pose proof Hev as (Eid & Eslug & _).
  assert (Hx : forall x, x ∈ db -> sc_schoolId x = sc_schoolId s' -> x = s).
  { intros x Hx E. apply (NoDup_fmap_eq sc_schoolId db); [done..|congruence]. }
  assert (E1 : map sc_schoolId (put s' db) = map sc_schoolId db /\ map sc_slug (put s' db) = map sc_slug db).
  { clear ND1 ND2 Hs. unfold put. induction db as [|x db IH]; [done|]. cbn. destruct IH as [-> ->]; [intros y Hy; apply Hx; by right|].
    destruct (String.eqb_spec (sc_schoolId x) (sc_schoolId s')) as [E|_]; [|done].
    rewrite (Hx x ltac:(left) E). by rewrite Eid, Eslug. }
  destruct E1 as [E1 E2]. split; [split; by rewrite ?E1, ?E2|]. intros x Hin.
  exists (if (sc_schoolId x =? sc_schoolId s')%string then s' else x). split.
  - unfold put. apply (list_elem_of_fmap_2 (fun x => if (sc_schoolId x =? sc_schoolId s')%string then s' else x)). done.
  - destruct (String.eqb_spec (sc_schoolId x) (sc_schoolId s')) as [E|_]; [|done]. by rewrite (Hx x Hin E).
Qed.

Lemma find_active_in id db s : find_active id db = Some s -> s ∈ db.
Proof. intros [H _]%List.find_some. by apply list_elem_of_In. Qed.
Lemma find_school_in id db s : find_school id db = Some s -> s ∈ db.
Proof. intros [H _]%List.find_some. by apply list_elem_of_In. Qed.

Lemma rotation_keeps newest backfill now w r : buildWalletRotation newest backfill now w = Ok r ->
  drains_fully (rot_retired r) /\ r_address (rot_retired r) = Some (stellarAddress w).
Proof. intros H. apply bind_Ok in H as (c & _ & [= <-]). split; [by eexists|done]. Qed.

(** Writing a rotation: the retired address is added to the history, and the
    addresses stay if the one that was retired is still the current one. *)
Lemma commit_evolves b a r s s' : drains_fully (rot_retired r) ->
  (b = true -> r_address (rot_retired r) = Some (stellarAddress (sc_wallet s))) ->
  sc_schoolId s' = sc_schoolId s -> sc_slug s' = sc_slug s -> sc_wallet s' = commit_rotation a r (sc_wallet s) -> evolves b s s'.
Proof.
  intros Hd Ha E1 E2 E3. unfold evolves, addresses. rewrite E3. cbn. split_and!; [done|done|by eexists| |].
  - intros HF. apply Forall_app. by repeat constructor.
  - intros Hb x Hx. specialize (Ha Hb). rewrite omap_app. cbn. rewrite Ha. set_solver.
Qed.

Lemma same_wallet s s' b : sc_schoolId s' = sc_schoolId s -> sc_slug s' = sc_slug s -> sc_wallet s' = sc_wallet s -> evolves b s s'.
Proof.
  intros E1 E2 E3. unfold evolves, addresses. rewrite E3. split_and!; try done. exists []. by rewrite app_nil_r.
Qed.

Lemma create_progresses o now id b db : distinct db -> progresses true db (createSchool o now id b db).2.
Proof.
  intros Hd. unfold createSchool. destruct (create_errors _ _); [by apply progresses_refl|].
  destruct (match c_timezone b with Some tz => _ | None => _ end); [by apply progresses_refl|].
  destruct (match c_localCurrency b with Some c => _ | None => _ end); [by apply progresses_refl|].
  destruct (existsb _ db) eqn:E; [by apply progresses_refl|]. cbn.
  assert (Hno : forall s, s ∈ db -> sc_schoolId s <> id /\ sc_slug s <> toLowerCase (str_trim (default "" (c_slug b)))).
  { intros s Hs. apply not_true_iff_false in E. split; intros Ex; apply E, existsb_exists; exists s; rewrite <- list_elem_of_In;
      (split; [done|]); rewrite Ex, String.eqb_refl; by rewrite ?orb_true_r. }
  destruct Hd as [ND1 ND2]. split.
  - split; rewrite map_app; apply NoDup_app; (split_and!; [done| |apply NoDup_singleton]); intros x (s & -> & Hs)%list_elem_of_fmap Hx;
      apply list_elem_of_singleton in Hx; destruct (Hno s Hs); cbn in Hx; congruence.
  - intros s Hs. exists s. split; [by apply elem_of_app; left|done].
Qed.

Lemma perform_progresses o now x db : distinct db -> progresses true db (perform o now x db).2.
Proof.
  intros Hd. destruct x as [id b|id b|id a r f|id|id]; cbn [perform].
  - by apply create_progresses.
  - unfold updateSchool. destruct (update_checks o b); [|by apply progresses_refl]. destruct (find_active id db) as [s|] eqn:Ef; [|by apply progresses_refl].
    destruct (new_wallet o now (sc_wallet s) (u_stellarAddress b)) as [w|] eqn:Ew; [|by apply progresses_refl].
    destruct (negb _); [by apply progresses_refl|]. apply (put_progresses true s); [done|by eapply find_active_in|].
    unfold new_wallet in Ew. destruct (text_or_null (u_stellarAddress b)) as [a0|]; [destruct (a0 =? _)%string|]; [by injection Ew as <-; apply same_wallet| |by injection Ew as <-; apply same_wallet].
    destruct (buildWalletRotation _ _ _ _) as [r|] eqn:Er; [|done]. injection Ew as <-.
    destruct (rotation_keeps _ _ _ _ _ Er) as [K1 K2]. by apply (commit_evolves _ a0 r).
  - unfold rotateStellarAddress. destruct (blank r); [by apply progresses_refl|]. destruct (text_or_null a) as [a'|]; [|by apply progresses_refl].
    destruct (negb _); [by apply progresses_refl|]. destruct (stepped_up o) as [[|]|]; [|by apply progresses_refl..].
    destruct (find_active id db) as [s|] eqn:Ef; [|by apply progresses_refl]. destruct (_ =? _)%string; [by apply progresses_refl|].
    destruct (buildWalletRotation _ _ _ _) as [rot|] eqn:Er; [|by apply progresses_refl]. apply (put_progresses true s); [done|by eapply find_active_in|].
    destruct (rotation_keeps _ _ _ _ _ Er) as [K1 K2]. by apply (commit_evolves _ a' rot).
  - unfold deactivateSchool. destruct (find_school id db) as [s|] eqn:Ef; [|by apply progresses_refl].
    apply (put_progresses true s); [done|by eapply find_school_in|by apply (same_wallet s)].
  - unfold activateSchool. destruct (find_school id db) as [s|] eqn:Ef; [|by apply progresses_refl].
    apply (put_progresses true s); [done|by eapply find_school_in|by apply (same_wallet s)].
Qed.

(** *** Requests that overlap

    A change of a school reads the document, asks Horizon, and writes later: its
    write is computed from the document as it was read. *)

Record write := Write {
  wr_id : string; wr_body : option update_body;      (** [None]: the rotation route *)
  wr_change : option (string * option rotation);     (** the address that is set, and what retires the old one *)
  wr_read : string; wr_now : Z }.

Definition set_address (a : string) (w : wallet) : wallet :=
  Wallet a (syncCursor w) (walletActiveFrom w) (w_createdAt w) (walletHistory w).
Definition changed (c : option (string * option rotation)) (w : wallet) : wallet :=
  match c with None => w | Some (a, None) => set_address a w | Some (a, Some r) => commit_rotation a r w end.

Definition written (w : write) (s : school) : school :=
  match wr_body w with
  | Some b => with_wallet (changed (wr_change w) (sc_wallet s)) (with_fields b s)
  | None =>
    School (sc_schoolId s) (sc_name s) (sc_slug s) (changed (wr_change w) (sc_wallet s)) (Some (wr_read w)) (Some (wr_now w))
      (sc_isActive s) (sc_network s) (sc_adminEmail s) (sc_address s) (sc_multiplier s) (sc_localCurrency s) (sc_timezone s) (sc_classOptions s)
  end.

Definition update_change (o : services) (now : Z) (w : wallet) (b : update_body) : option (option (string * option rotation)) :=
  match text_or_null (u_stellarAddress b) with
  | None => Some None
  | Some a =>
    if (a =? stellarAddress w)%string then Some (Some (a, None))
    else match buildWalletRotation (latest_token o a) false now w with Ok r => Some (Some (a, Some r)) | Throw _ => None end
  end.

(** The first half of the two handlers that change the address: [None] when
    the request is answered without a write. *)
Definition read (o : services) (now : Z) (x : op) (db : list school) : option write :=
  match x with
  | Update id b =>
    match update_checks o b, find_active id db with
    | Ok _, Some s =>
      match update_change o now (sc_wallet s) b with
      | Some c => if validators_ok o b then Some (Write id (Some b) c (stellarAddress (sc_wallet s)) now) else None
      | None => None
      end
    | _, _ => None
    end
  | Rotate id a reason f =>
    match (rotateStellarAddress o now id a reason f db).1, find_active id db, text_or_null a with
    | Answered _ _, Some s, Some a =>
      match buildWalletRotation (latest_token o a) f now (sc_wallet s) with
      | Ok r => Some (Write id None (Some (a, Some r)) (stellarAddress (sc_wallet s)) now)
      | Throw _ => None
      end
    | _, _, _ => None
    end
  | _ => None
  end.

(** The second half: the update asks for an active school, the rotation saves
    the document it has. *)
Definition commit (w : write) (db : list school) : list school :=
  match (match wr_body w with Some _ => find_active | None => find_school end) (wr_id w) db with
  | Some s => put (written w s) db
  | None => db
  end.

Lemma find_active_school id db s : distinct db -> find_active id db = Some s -> find_school id db = Some s.
Proof.
  intros [ND _] Hf. unfold find_active in Hf. apply List.find_some in Hf as [Hin [Hid _]%andb_prop]. unfold find_school.
  destruct (List.find _ db) as [s'|] eqn:E.
  - apply List.find_some in E as [Hin' Hid']. apply String.eqb_eq in Hid, Hid'. f_equal.
    apply (NoDup_fmap_eq sc_schoolId db); [done|by apply list_elem_of_In..|congruence].
  - apply (find_none _ _ E) in Hin. congruence.
Qed.

(** The two halves are the handlers: with nothing in between they do what the
    whole request does, and a request without a write changes nothing. *)
Lemma read_commit o now x db : distinct db -> (match x with Update _ _ | Rotate _ _ _ _ => True | _ => False end) ->
  (perform o now x db).2 = match read o now x db with Some w => commit w db | None => db end.
Proof.
  intros Hd Hx. destruct x as [|id b|id a r f| |]; [done| | |done..]; cbn [perform read].
  - unfold updateSchool. destruct (update_checks o b) as [u|]; [|done]. destruct (find_active id db) as [s|] eqn:Ef; [|done].
    unfold new_wallet, update_change. destruct (text_or_null (u_stellarAddress b)) as [a|].
    + destruct (String.eqb_spec a (stellarAddress (sc_wallet s))) as [->|Hne].
      * destruct (validators_ok o b); [|done]. unfold commit. cbn [negb snd wr_id wr_body]. rewrite Ef. unfold written. cbn.
        f_equal. f_equal. by destruct (sc_wallet s).
      * destruct (buildWalletRotation _ _ _ _) as [rot|]; [|done]. destruct (validators_ok o b); [|done].
        unfold commit. cbn [negb snd wr_id wr_body]. by rewrite Ef.
    + destruct (validators_ok o b); [|done]. unfold commit. cbn [negb snd wr_id wr_body]. by rewrite Ef.
  - unfold rotateStellarAddress. destruct (blank r); [done|]. destruct (text_or_null a) as [a'|]; [|done].
    destruct (negb _); [done|]. destruct (stepped_up o) as [[|]|]; [|done..]. destruct (find_active id db) as [s|] eqn:Ef; [|done].
    destruct (_ =? _)%string; [done|]. destruct (buildWalletRotation _ _ _ _) as [rot|]; [|done]. cbn [fst snd].
    unfold commit. cbn [wr_body wr_id]. by rewrite (find_active_school id db s Hd Ef).
Qed.

(** Requests in any interleaving: a request that is served at once, one that
    has read the school, and the write of the [n]-th of those. *)
Inductive event :=
| Serve (o : services) (now : Z) (x : op)
| Read (o : services) (now : Z) (x : op)
| Commit (n : nat).

Record system := System { s_db : list school; s_pending : list write }.

Definition step (e : event) (s : system) : system :=
  match e with
  | Serve o now x => System (perform o now x (s_db s)).2 (s_pending s)
  | Read o now x => System (s_db s) (s_pending s ++ option_list (read o now x (s_db s)))
  | Commit n =>
    match s_pending s !! n with
    | Some w => System (commit w (s_db s)) (delete n (s_pending s))
    | None => s
    end
  end.
Definition run (es : list event) (s : system) : system := foldl (fun s e => step e s) s es.

(** No change of an address is overtaken by another one of the same school. *)
Definition in_time (e : event) (s : system) : bool :=
  match e with
  | Commit n =>
    match s_pending s !! n with
    | Some w => bool_decide (wr_change w = None) ||
        match find_school (wr_id w) (s_db s) with Some x => (stellarAddress (sc_wallet x) =? wr_read w)%string | None => true end
    | None => true
    end
  | _ => true
  end.
Fixpoint not_overtaken (es : list event) (s : system) : bool :=
  match es with [] => true | e :: es => in_time e s && not_overtaken es (step e s) end.

Definition write_ok (w : write) : Prop :=
  match wr_change w with
  | Some (a, None) => a = wr_read w
  | Some (a, Some r) => drains_fully (rot_retired r) /\ r_address (rot_retired r) = Some (wr_read w)
  | None => True
  end.

Lemma read_ok o now x db w : read o now x db = Some w -> write_ok w.
Proof.
  destruct x as [|id b|id a r f| |]; [done| | |done..]; cbn [read].
  - destruct (update_checks o b) as [u|]; [|done]. destruct (find_active id db) as [s|]; [|done]. unfold update_change.
    destruct (text_or_null _) as [a|]; [destruct (String.eqb_spec a (stellarAddress (sc_wallet s))) as [->|]|].
    + destruct (validators_ok o b); [|done]. by intros [= <-].
    + destruct (buildWalletRotation _ _ _ _) as [rot|] eqn:E; [|done]. destruct (validators_ok o b); [|done]. intros [= <-].
      by eapply rotation_keeps.
    + destruct (validators_ok o b); [|done]. by intros [= <-].
  - destruct (rotateStellarAddress _ _ _ _ _ _ _).1; [done| |done]. destruct (find_active id db) as [s'|]; [|done].
    destruct (text_or_null a) as [a'|]; [|done]. destruct (buildWalletRotation _ _ _ _) as [rot|] eqn:E; [|done]. intros [= <-].
    by eapply rotation_keeps.
Qed.

Lemma written_evolves b w s : write_ok w -> (b = true -> wr_change w = None \/ stellarAddress (sc_wallet s) = wr_read w) ->
  evolves b s (written w s).
Proof.
  intros Hw Hb. assert (Ew : sc_schoolId (written w s) = sc_schoolId s /\ sc_slug (written w s) = sc_slug s /\
    sc_wallet (written w s) = changed (wr_change w) (sc_wallet s)) by (unfold written; by destruct (wr_body w)).
  destruct Ew as (E1 & E2 & E3). unfold write_ok in Hw. destruct (wr_change w) as [[a [r|]]|] eqn:Ec; cbn [changed] in E3.
  - destruct Hw as [Hd Ha]. eapply commit_evolves; [done| |done..]. intros H. destruct (Hb H) as [?|Hr]; [done|]. by rewrite Ha, Hr.
  - subst a. unfold evolves, addresses. rewrite E3. cbn. split_and!; try done; [by exists []; rewrite app_nil_r|].
    intros H. by destruct (Hb H) as [?|<-].
  - by apply same_wallet.
Qed.

Lemma commit_progresses b w db : distinct db -> write_ok w ->
  (b = true -> wr_change w = None \/ forall s, find_school (wr_id w) db = Some s -> stellarAddress (sc_wallet s) = wr_read w) ->
  progresses b db (commit w db).
Proof.
  intros Hd Hw Hb. unfold commit. destruct (match wr_body w with Some _ => _ | None => _ end (wr_id w) db) as [s|] eqn:E; [|by apply progresses_refl].
  assert (find_school (wr_id w) db = Some s) as Ef by (destruct (wr_body w); [by apply find_active_school|done]).
  apply (put_progresses b s); [done|by eapply find_school_in|]. apply written_evolves; [done|]. intros H.
  destruct (Hb H) as [?|K]; [by left|right; by apply K].
Qed.

Lemma progresses_trans b x y z : progresses b x y -> (distinct y -> progresses b y z) -> progresses b x z.
Proof.
  intros [D1 H1] K. destruct (K D1) as [D2 H2]. split; [done|]. intros s Hs. destruct (H1 s Hs) as (s1 & Hs1 & E1).
  destruct (H2 s1 Hs1) as (s2 & Hs2 & E2). exists s2. split; [done|]. by etrans.
Qed.

Lemma step_progresses b e s : distinct (s_db s) -> Forall write_ok (s_pending s) -> (b = true -> in_time e s = true) ->
  progresses b (s_db s) (s_db (step e s)) /\ Forall write_ok (s_pending (step e s)).
Proof.
  intros Hd Hp Hb. destruct e as [o now x|o now x|n]; cbn [step in_time] in *.
  - split; [|done]. destruct (perform_progresses o now x (s_db s) Hd) as [D H]. split; [done|]. intros y Hy.
    destruct (H y Hy) as (y' & Hy' & E). exists y'. split; [done|by apply evolves_weaken].
  - split; [by apply progresses_refl|]. apply Forall_app. split; [done|]. destruct (read o now x (s_db s)) as [w|] eqn:E; [|constructor].
    repeat constructor. by eapply read_ok.
  - destruct (s_pending s !! n) as [w|] eqn:E; [|split; [by apply progresses_refl|done]]. cbn [s_db s_pending]. split.
    + apply commit_progresses; [done|by eapply Forall_lookup_1|]. intros H. specialize (Hb H).
      apply orb_prop in Hb as [Hb%bool_decide_eq_true|Hb]; [by left|right]. intros y Hy. rewrite Hy in Hb. by apply String.eqb_eq.
    + by apply Forall_delete.
Qed.

Lemma run_progresses b es : forall s, distinct (s_db s) -> Forall write_ok (s_pending s) -> (b = true -> not_overtaken es s = true) ->
  progresses b (s_db s) (s_db (run es s)).
Proof.
  induction es as [|e es IH]; intros s Hd Hp Hb; [by apply progresses_refl|]. cbn [run foldl].
  destruct (step_progresses b e s Hd Hp) as [H1 H2]; [intros H; by apply Hb, andb_prop in H as [? _]|].
  apply (progresses_trans b _ _ _ H1). intros D. apply IH; [done..|]. intros H. by apply Hb, andb_prop in H as [_ ?].
Qed.

(** C26: in every interleaving of requests that create, update, rotate,
    deactivate and activate schools, where a change of the address may be
    written after other requests have changed the school it read: ids and slugs
    stay unique, no school disappears or changes its id or slug, no entry of a
    wallet history is lost or altered, and every entry drains for the whole window
    after it was retired.  When moreover no write of an address is overtaken by
    another one of the same school, every address a school ever had is still its
    current one or in its history (an overtaken write loses one:
    [concurrent_rotations_forget]). *)
Theorem schools_keep_wallets es db : distinct db ->
  let db' := s_db (run es (System db [])) in distinct db' /\
  forall s, s ∈ db -> exists s', (s' ∈ db') /\ sc_schoolId s' = sc_schoolId s /\ sc_slug s' = sc_slug s /\
    (exists l, walletHistory (sc_wallet s') = walletHistory (sc_wallet s) ++ l) /\
    (Forall drains_fully (walletHistory (sc_wallet s)) -> Forall drains_fully (walletHistory (sc_wallet s'))) /\
    (not_overtaken es (System db []) = true -> forall a, a ∈ addresses s -> a ∈ addresses s').
Proof. intros Hd. apply (run_progresses (not_overtaken es (System db [])) es (System db [])); [done|constructor|done]. Qed.

(** *** Concrete requests *)

Definition services_of (up : option bool) : services :=
  Services (fun a => starts_with ["G"%char] (chars a)) (fun _ => true) (fun _ => true) (fun _ => false) (fun _ => Ok (Some "900")) up.
Definition a_school : school :=
  School "SCH-1" "Lincoln" "lincoln" (Wallet "GA" (Some "100") None (Some 0) []) None (Some 0) true "testnet" None None None None None None.
Definition only_address (a : string) : update_body := UpdateBody None (Some a) None None None None true None None.

Definition overlapping : list event :=
  [Read (services_of (Some true)) 5 (Rotate "SCH-1" (Some "GB") (Some "lost") false); Serve (services_of (Some true)) 6 (Deactivate "SCH-1");
   Commit 0; Serve (services_of (Some true)) 7 (Activate "SCH-1"); Serve (services_of (Some true)) 9 (Update "SCH-1" (only_address "GC"))].

Lemma schools_keep_wallets_witness : exists s',
  (s' ∈ s_db (run overlapping (System [a_school] []))) /\ "GA" ∈ addresses s'.
Proof.
  destruct (schools_keep_wallets overlapping [a_school]) as [_ H]; [split; apply NoDup_singleton|].
  destruct (H a_school ltac:(left)) as (s' & Hs' & _ & _ & _ & _ & Ha). exists s'. split; [exact Hs'|].
  apply Ha; [vm_compute; reflexivity|left].
Defined.

(** Without the lockout module the step-up check throws, so a rotation by
    either route, and a rotation of the webhook secret, always fail. *)
Theorem no_rotation_without_lockout o now id a b reason backfill eps ov raw sec db : stepped_up o = None ->
  isValidEd25519PublicKey o a = true -> str_truthy a = true -> blank (Some reason) = false -> u_stellarAddress b = Some a ->
  rotateStellarAddress o now id (Some a) (Some reason) backfill db = (Failed, db) /\
  updateSchool o now id b db = (Failed, db) /\
  rotateWebhookSecret o now ov id raw sec db eps = (Throw Failed, eps).
Proof.
  intros Hs Hv Ht Hr Hb. unfold rotateStellarAddress, updateSchool, update_checks, rotateWebhookSecret. rewrite Hr, Hb, Hs. cbn [text_or_null].
  rewrite Ht, Hv. done.
Qed.

Lemma no_rotation_without_lockout_witness :
  rotateStellarAddress (services_of None) 5 "SCH-1" (Some "GB") (Some "lost") false [a_school] = (Failed, [a_school]).
Proof. apply (no_rotation_without_lockout (services_of None) 5 "SCH-1" "GB" (only_address "GB") "lost" false [] 0 WebhookAdmin.OverlapAbsent "" [a_school]); reflexivity. Defined.

(** Changing the address through PATCH starts the new cursor, but neither the
    previous address nor the date from which transactions are ingested. *)
Theorem update_leaves_previous_address :
  exists s s', (perform (services_of (Some true)) 9 (Update "SCH-1" (only_address "GB")) [a_school]).2 = [s] /\
  (perform (services_of (Some true)) 9 (Rotate "SCH-1" (Some "GB") (Some "lost") false) [a_school]).2 = [s'] /\
  sc_wallet s = sc_wallet s' /\
  (sc_previousStellarAddress s, sc_ingestStartsAt s) = (None, Some 0) /\ (sc_previousStellarAddress s', sc_ingestStartsAt s') = (Some "GA", Some 9).
Proof. do 2 eexists. split_and!; reflexivity. Qed.

(** Two changes of the address at once both start from the document they
    read: the first one's address is nowhere afterwards. *)
Theorem concurrent_rotations_forget :
  let o := services_of (Some true) in
  let es := [Read o 5 (Rotate "SCH-1" (Some "GB") (Some "lost") false); Read o 6 (Rotate "SCH-1" (Some "GC") (Some "lost") false); Commit 0; Commit 0] in
  map addresses (s_db (run (take 3 es) (System [a_school] []))) = [["GB"; "GA"]] /\
  map addresses (s_db (run es (System [a_school] []))) = [["GC"; "GA"; "GA"]].
Proof. split; reflexivity. Qed.
End Schools.
