(* ===== verification/EmailEvents.v ===== *)
(** Callbacks of e-mail providers and the suppression list:
    backend/src/controllers/emailWebhookController.js,
    backend/src/services/email/webhookVerification.js, providerEvents.js,
    suppressionList.js and index.js (sendEmail),
    backend/src/services/emailDeliveryService.js,
    backend/src/middleware/validateInboundWebhook.js and
    genericEmailWebhookAuth.js, with their models.

    A callback carries the fields the provider documents; a field that may be
    absent is an [option].  Hashes, the verification of RSA and ECDSA
    signatures, the URL parser, the text of a JSON notification and what the
    network answers are parameters. *)

From Stdlib Require Import Ascii ZArith Lia.
From stdpp Require Import base strings gmap relations list.
From S2P Require Import Prelude JsString ParentPortal FieldCrypto.
Local Open Scope string_scope.
Local Open Scope Z_scope.
Local Open Scope list_scope.

Module MailAuth.

(** ** Addresses on Amazon's hosts *)

(** What [new URL] gives; the code reads these fields. *)
Record url := Url { u_protocol : string; u_username : string; u_password : string; u_port : string;
                    u_hostname : string; u_pathname : string }.

Definition host_char (c : ascii) : bool :=
  ((97 <=? code c) && (code c <=? 122)) || is_digit c || Ascii.eqb c "-".

Definition ends_with (s l : list ascii) : bool := starts_with (rev s) (rev l).

(** [/^sns\.[a-z0-9-]+\.amazonaws\.com(\.cn)?$/] *)
Definition SNS_HOST_RE (l : list ascii) : bool :=
  let region suffix :=
    ends_with (chars suffix) l &&
    let r := take (length l - 4 - length (chars suffix)) (drop 4 l) in
    (4 + length (chars suffix) <? length l)%nat && forallb host_char r in
  starts_with (chars "sns.") l && (region ".amazonaws.com" || region ".amazonaws.com.cn").

Section Sns.
Variable parse_url : string -> option url.

Definition isAllowedSnsUrl (rawUrl : option string) (requirePem : bool) : bool :=
  match rawUrl ≫= parse_url with
  | None => false
  | Some u =>
    if negb (bool_decide (u_protocol u = "https:")) then false
    else if str_truthy (u_username u) || str_truthy (u_password u)
            || (str_truthy (u_port u) && negb (bool_decide (u_port u = "443"))) then false
    else if negb (SNS_HOST_RE (chars (toLowerCase (u_hostname u)))) then false
    else negb (requirePem && negb (ends_with (chars ".pem") (chars (u_pathname u))))
  end.

(** An envelope of Amazon SNS, as [JSON.parse] gives it. *)
Record envelope := Envelope {
  e_Type : option string; e_Message : option string; e_MessageId : option string; e_Subject : option string;
  e_Timestamp : option string; e_TopicArn : option string; e_SubscribeURL : option string; e_Token : option string;
  e_Signature : option string; e_SigningCertURL : option string; e_SignatureVersion : option string }.

Definition e_field (m : envelope) (key : string) : option string :=
  if String.eqb key "Message" then e_Message m
  else if String.eqb key "MessageId" then e_MessageId m
  else if String.eqb key "Subject" then e_Subject m
  else if String.eqb key "Timestamp" then e_Timestamp m
  else if String.eqb key "TopicArn" then e_TopicArn m
  else if String.eqb key "SubscribeURL" then e_SubscribeURL m
  else if String.eqb key "Token" then e_Token m
  else if String.eqb key "Type" then e_Type m else None.

Definition notification_keys : list string := ["Message"; "MessageId"; "Subject"; "Timestamp"; "TopicArn"; "Type"].
Definition confirmation_keys : list string :=
  ["Message"; "MessageId"; "SubscribeURL"; "Timestamp"; "Token"; "TopicArn"; "Type"].

Definition signed_keys (m : envelope) : option (list string) :=
  if bool_decide (e_Type m = Some "Notification") then Some notification_keys
  else if bool_decide (e_Type m = Some "SubscriptionConfirmation") || bool_decide (e_Type m = Some "UnsubscribeConfirmation")
  then Some confirmation_keys else None.

Definition nl : ascii := chr 10.

Fixpoint sign_lines (m : envelope) (keys : list string) : option (list ascii) :=
  match keys with
  | [] => Some []
  | k :: ks =>
    match e_field m k with
    | None => if String.eqb k "Subject" then sign_lines m ks else None
    | Some v => rest ← sign_lines m ks; Some (chars k ++ [nl] ++ chars v ++ [nl] ++ rest)
    end
  end.

Definition buildSnsStringToSign (m : envelope) : option (list ascii) :=
  keys ← signed_keys m; sign_lines m keys.

Inductive algorithm := RSA_SHA1 | RSA_SHA256.

Variable verify : algorithm -> string -> list ascii -> string -> bool.   (** [verifier.verify]; [false] when it throws *)

(** The certificates fetched so far, oldest first: a [Map] keeps insertion order. *)
Definition cert_cache := list (string * string).
Definition CERT_CACHE_MAX : nat := 50.

Definition cached_cert (c : cert_cache) (certUrl : string) : option string :=
  snd <$> List.find (fun p => bool_decide (p.1 = certUrl)) c.

Section Fetch.
(** What the host answers now: [None] when the request fails or the body is
    not a PEM certificate. *)
Variable fetch : string -> option string.

Definition _fetchSigningCert (certUrl : string) (c : cert_cache) : option string * cert_cache :=
  match cached_cert c certUrl with
  | Some pem => (Some pem, c)
  | None =>
    match fetch certUrl with
    | None => (None, c)
    | Some pem =>
      let c1 := if (CERT_CACHE_MAX <=? length c)%nat then drop 1 c else c in
      (Some pem, c1 ++ [(certUrl, pem)])
    end
  end.

(** [None] is [valid]; [Some reason] is not. *)
Definition verifySnsMessage (m : envelope) (c : cert_cache) : option string * cert_cache :=
  match e_Signature m, e_SigningCertURL m with
  | Some sig, Some certUrl =>
    if negb (str_truthy sig && str_truthy certUrl) then (Some "UNSIGNED_SNS_MESSAGE", c) else
    let alg := if bool_decide (e_SignatureVersion m = Some "1") then Some RSA_SHA1
               else if bool_decide (e_SignatureVersion m = Some "2") then Some RSA_SHA256 else None in
    match alg with
    | None => (Some "UNSUPPORTED_SNS_SIGNATURE_VERSION", c)
    | Some a =>
      if negb (isAllowedSnsUrl (Some certUrl) true) then (Some "INVALID_SNS_CERT_URL", c) else
      match buildSnsStringToSign m with
      | None => (Some "MALFORMED_SNS_MESSAGE", c)
      | Some text =>
        match _fetchSigningCert certUrl c with
        | (None, c') => (Some "SNS_CERT_FETCH_FAILED", c')
        | (Some pem, c') => (if verify a pem text sig then None else Some "INVALID_SNS_SIGNATURE", c')
        end
      end
    end
  | _, _ => (Some "UNSIGNED_SNS_MESSAGE", c)
  end.
End Fetch.
End Sns.

(** ** Shared secrets and SendGrid's signature *)

Section Secrets.
Variable sha256 : string -> string.

Definition safeEqualSecret (provided : option string) (expected : string) : bool :=
  match provided with
  | None => false
  | Some p => if negb (str_truthy expected) then false else bool_decide (sha256 p = sha256 expected)
  end.
End Secrets.

Section SendGrid.
(** [createVerify('SHA256')] with the parsed public key over the bytes; [false]
    when the key does not parse or the verifier throws. *)
Variable verify_ec : string -> list ascii -> string -> bool.

(** The raw body is absent when no parser captured it. *)
Definition verifySendGridSignature (publicKey : string) (signature timestamp : option string) (rawBody : option (list ascii))
  : option string :=
  match signature, timestamp with
  | Some s, Some t =>
    if negb (str_truthy s && str_truthy t) then Some "MISSING_SENDGRID_SIGNATURE" else
    match rawBody with
    | None => Some "MISSING_RAW_BODY"
    | Some b => if verify_ec publicKey (chars t ++ b) s then None else Some "INVALID_SENDGRID_SIGNATURE"
    end
  | _, _ => Some "MISSING_SENDGRID_SIGNATURE"
  end.
End SendGrid.

(** ** Lemmas *)

Lemma starts_with_app p l : starts_with p (p ++ l) = true.
Proof. induction p as [|c p IH]; simpl; [done|]. by rewrite Ascii.eqb_refl. Qed.

Lemma starts_with_elim p l : starts_with p l = true -> exists r, l = p ++ r.
Proof.
  revert l. induction p as [|c p IH]; intros l; simpl; [eauto|].
  destruct l as [|d l]; [done|]. intros [->%Ascii.eqb_eq H]%andb_prop. destruct (IH _ H) as [r ->]. by exists r.
Qed.

Lemma ends_with_elim s l : ends_with s l = true -> exists r, l = r ++ s.
Proof.
  intros [r Hr]%starts_with_elim. exists (rev r). apply (f_equal (@rev ascii)) in Hr.
  by rewrite rev_involutive, rev_app_distr, rev_involutive in Hr.
Qed.

Lemma ends_with_app r s : ends_with s (r ++ s) = true.
Proof. unfold ends_with. rewrite rev_app_distr. apply starts_with_app. Qed.

(** An accepted host is a single non-empty label between the fixed parts. *)
Lemma SNS_HOST_RE_spec l : SNS_HOST_RE l = true <->
  exists region suffix, (suffix = ".amazonaws.com" \/ suffix = ".amazonaws.com.cn")
    /\ l = chars "sns." ++ region ++ chars suffix /\ region <> [] /\ Forall (fun c => host_char c = true) region.
Proof.
  unfold SNS_HOST_RE. rewrite andb_true_iff, orb_true_iff, !andb_true_iff. split.
  - intros [[r Hr]%starts_with_elim H].
    assert (forall suffix, ends_with (chars suffix) l = true ->
      (4 + length (chars suffix) < length l)%nat ->
      forallb host_char (take (length l - 4 - length (chars suffix)) (drop 4 l)) = true ->
      exists region, l = chars "sns." ++ region ++ chars suffix /\ region <> [] /\ Forall (fun c => host_char c = true) region) as A.
    { intros suffix [q Hq]%ends_with_elim Hlen Hf. subst l.
      change (drop 4 (chars "sns." ++ r)) with r in Hf.
      assert (length q + length (chars suffix) = 4 + length r)%nat as El.
      { apply (f_equal length) in Hq. rewrite !length_app in Hq. simpl in Hq. lia. }
      rewrite length_app in Hlen, Hf. change (length (chars "sns.")) with 4%nat in Hlen, Hf.
      assert (r = drop 4 q ++ chars suffix) as Er.
      { change r with (drop 4 (chars "sns." ++ r)). rewrite Hq, drop_app_le by lia. done. }
      exists (drop 4 q). rewrite <- Er. split; [done|].
      assert (length (drop 4 q) = length q - 4)%nat by apply length_drop. split.
      - intros E. rewrite E in *. simpl in *. lia.
      - apply forallb_Forall. rewrite Er in Hf.
        rewrite take_app_length' in Hf; [done|]. rewrite length_app. lia. }
    destruct H as [[He [Hlen Hf]]|[He [Hlen Hf]]]; apply Nat.ltb_lt in Hlen;
      destruct (A _ He Hlen Hf) as (region & E & Hne & Hall); exists region; eexists; eauto.
  - intros (region & suffix & Hs & -> & Hne & Hf). split; [apply starts_with_app|].
    assert (ends_with (chars suffix) (chars "sns." ++ region ++ chars suffix) = true
      /\ (4 + length (chars suffix) < length (chars "sns." ++ region ++ chars suffix))%nat
      /\ forallb host_char (take (length (chars "sns." ++ region ++ chars suffix) - 4 - length (chars suffix))
           (drop 4 (chars "sns." ++ region ++ chars suffix))) = true) as (H1 & H2 & H3).
    { split; [rewrite app_assoc; apply ends_with_app|].
      change (drop 4 (chars "sns." ++ region ++ chars suffix)) with (region ++ chars suffix).
      rewrite !length_app. change (length (chars "sns.")) with 4%nat. destruct region as [|c region]; [done|].
      split; [simpl; lia|]. rewrite take_app_length' by (simpl; lia). by apply forallb_Forall. }
    destruct Hs as [-> | ->]; [left|right]; (split; [done|]; split; [|done]); by apply Nat.ltb_lt.
Qed.

(** The text is a sequence of lines, keys and values in turn. *)
Fixpoint signed_lines (m : envelope) (keys : list string) : option (list (list ascii)) :=
  match keys with
  | [] => Some []
  | k :: ks =>
    match e_field m k with
    | None => if String.eqb k "Subject" then signed_lines m ks else None
    | Some v => rest ← signed_lines m ks; Some (chars k :: chars v :: rest)
    end
  end.

Definition unlines (ls : list (list ascii)) : list ascii := concat (map (fun l => l ++ [nl]) ls).

Lemma sign_lines_unlines m keys : sign_lines m keys = unlines <$> signed_lines m keys.
Proof.
  induction keys as [|k ks IH]; simpl; [done|]. destruct (e_field m k) as [v|].
  - rewrite IH. destruct (signed_lines m ks) as [ls|]; simpl; [|done]. unfold unlines. simpl. by rewrite <- !app_assoc.
  - by destruct (String.eqb _ _).
Qed.

Lemma line_inj (a b r r' : list ascii) : nl ∉ a -> nl ∉ b -> a ++ nl :: r = b ++ nl :: r' -> a = b /\ r = r'.
Proof.
  revert b. induction a as [|c a IH]; intros [|d b]; simpl; intros Ha Hb H; simplify_eq; [done| | |].
  - by rewrite not_elem_of_cons in Hb; destruct Hb.
  - by rewrite not_elem_of_cons in Ha; destruct Ha.
  - rewrite not_elem_of_cons in Ha, Hb. destruct (IH b) as [-> ->]; [tauto..|done|done].
Qed.

Lemma unlines_inj ls ls' : Forall (fun l => nl ∉ l) ls -> Forall (fun l => nl ∉ l) ls' ->
  unlines ls = unlines ls' -> ls = ls'.
Proof.
  intros H. revert ls'. induction H as [|l ls Hl Hls IH]; intros [|l' ls'] H'; [done| | |].
  - unfold unlines. simpl. intros E%(f_equal length). rewrite !length_app in E. simpl in E. lia.
  - unfold unlines. simpl. intros E%(f_equal length). rewrite !length_app in E. simpl in E. lia.
  - apply Forall_cons in H' as [Hl' H']. unfold unlines. simpl. rewrite <- !app_assoc. simpl.
    intros [-> E]%line_inj; [|done|done]. f_equal. by apply IH.
Qed.

(** No field contains a line break. *)
Definition single_line (m : envelope) : Prop := forall k v, e_field m k = Some v -> nl ∉ chars v.

Lemma signed_lines_single m keys ls : single_line m -> Forall (fun k => nl ∉ chars k) keys ->
  signed_lines m keys = Some ls -> Forall (fun l => nl ∉ l) ls.
Proof.
  intros Hm. revert ls. induction keys as [|k ks IH]; simpl; intros ls Hk H; simplify_eq; [done|].
  apply Forall_cons in Hk as [Hk Hks]. destruct (e_field m k) as [v|] eqn:E.
  - destruct (signed_lines m ks) as [r|]; simplify_eq/=. constructor; [done|]. constructor; [by eapply Hm|by apply IH].
  - destruct (String.eqb _ _); [by apply IH|done].
Qed.

Lemma signed_keys_cases m keys : signed_keys m = Some keys -> keys = notification_keys \/ keys = confirmation_keys.
Proof. unfold signed_keys. destruct (bool_decide _); [intros; simplify_eq; auto|]. destruct (_ || _); intros; simplify_eq; auto. Qed.

Lemma keys_single m keys : signed_keys m = Some keys -> Forall (fun k => nl ∉ chars k) keys.
Proof. intros [-> | ->]%signed_keys_cases; by_decision. Qed.

Lemma notification_lines m ls : signed_lines m notification_keys = Some ls ->
  exists M I Ti A T, e_Message m = Some M /\ e_MessageId m = Some I /\ e_Timestamp m = Some Ti /\ e_TopicArn m = Some A /\ e_Type m = Some T
    /\ ls = [chars "Message"; chars M; chars "MessageId"; chars I]
            ++ (match e_Subject m with Some Su => [chars "Subject"; chars Su] | None => [] end)
            ++ [chars "Timestamp"; chars Ti; chars "TopicArn"; chars A; chars "Type"; chars T].
Proof.
  destruct m as [T M I Su Ti A U To G C V]. unfold notification_keys. cbn -[chars].
  destruct M as [M|], I as [I|], Ti as [Ti|], A as [A|], T as [T|]; cbn -[chars]; try (destruct Su; cbn; done).
  intros H. exists M, I, Ti, A, T. destruct Su as [Su|]; cbn -[chars] in *; simplify_eq; done.
Qed.

Lemma confirmation_lines m ls : signed_lines m confirmation_keys = Some ls ->
  exists M I U Ti To A T, e_Message m = Some M /\ e_MessageId m = Some I /\ e_SubscribeURL m = Some U /\ e_Timestamp m = Some Ti
    /\ e_Token m = Some To /\ e_TopicArn m = Some A /\ e_Type m = Some T
    /\ ls = [chars "Message"; chars M; chars "MessageId"; chars I; chars "SubscribeURL"; chars U; chars "Timestamp"; chars Ti;
             chars "Token"; chars To; chars "TopicArn"; chars A; chars "Type"; chars T].
Proof.
  destruct m as [T M I Su Ti A U To G C V]. unfold confirmation_keys. cbn -[chars].
  destruct M as [M|], I as [I|], U as [U|], Ti as [Ti|], To as [To|], A as [A|], T as [T|]; cbn -[chars]; try done.
  intros H. simplify_eq. by exists M, I, U, Ti, To, A, T.
Qed.

Lemma chars_inj s s' : chars s = chars s' -> s = s'.
Proof. intros E. by rewrite <- (text_chars s), E, text_chars. Qed.

(** On fields without line breaks the signed text determines every signed field. *)
Lemma signed_text_binds m m' t : single_line m -> single_line m' ->
  buildSnsStringToSign m = Some t -> buildSnsStringToSign m' = Some t ->
  e_Type m = e_Type m' /\ e_TopicArn m = e_TopicArn m' /\ e_MessageId m = e_MessageId m' /\ e_Message m = e_Message m'
  /\ e_Timestamp m = e_Timestamp m' /\ (e_Type m <> Some "Notification" -> e_SubscribeURL m = e_SubscribeURL m').
Proof.
  unfold buildSnsStringToSign. intros Hm Hm' H H'.
  destruct (signed_keys m) as [ks|] eqn:K; [|done]. destruct (signed_keys m') as [ks'|] eqn:K'; [|done]. simpl in H, H'.
  rewrite sign_lines_unlines in H, H'.
  destruct (signed_lines m ks) as [ls|] eqn:L; [|done]. destruct (signed_lines m' ks') as [ls'|] eqn:L'; [|done].
  cbn [fmap option_fmap option_map] in H, H'.
  assert (ls' = ls) as -> by (apply unlines_inj; [eapply signed_lines_single; [exact Hm'|exact (keys_single _ _ K')|done]
    |eapply signed_lines_single; [exact Hm|exact (keys_single _ _ K)|done]|congruence]). destruct (signed_keys_cases _ _ K) as [-> | ->], (signed_keys_cases _ _ K') as [-> | ->].
  - destruct (notification_lines _ _ L) as (? & ? & ? & ? & ? & -> & -> & -> & -> & E & ->).
    destruct (notification_lines _ _ L') as (? & ? & ? & ? & ? & -> & -> & -> & -> & E' & Ed).
    rewrite E, E'. unfold signed_keys in K. rewrite E in K.
    destruct (e_Subject m), (e_Subject m'); cbn -[chars] in Ed; try discriminate Ed; simplify_list_eq.
    all: repeat match goal with Q : chars _ = chars _ |- _ => apply chars_inj in Q; subst end.
    all: do 5 (split; [done|]); intros Hn; rewrite bool_decide_false in K by done; destruct (_ || _); discriminate K.
  - destruct (notification_lines _ _ L) as (? & ? & ? & ? & ? & _ & _ & _ & _ & _ & ->).
    destruct (confirmation_lines _ _ L') as (? & ? & ? & ? & ? & ? & ? & _ & _ & _ & _ & _ & _ & _ & Ed).
    destruct (e_Subject m); cbn -[chars] in Ed; simplify_list_eq.
  - destruct (notification_lines _ _ L') as (? & ? & ? & ? & ? & _ & _ & _ & _ & _ & ->).
    destruct (confirmation_lines _ _ L) as (? & ? & ? & ? & ? & ? & ? & _ & _ & _ & _ & _ & _ & _ & Ed).
    destruct (e_Subject m'); cbn -[chars] in Ed; simplify_list_eq.
  - destruct (confirmation_lines _ _ L) as (? & ? & ? & ? & ? & ? & ? & -> & -> & -> & -> & _ & -> & -> & ->).
    destruct (confirmation_lines _ _ L') as (? & ? & ? & ? & ? & ? & ? & -> & -> & -> & -> & _ & -> & -> & Ed).
    simplify_list_eq. repeat match goal with Q : chars _ = chars _ |- _ => apply chars_inj in Q; subst end. done.
Qed.
End MailAuth.

Module EmailEvents.
Import MailAuth Codec.

(** ** Stored documents *)

Record suppression := Suppression {
  p_reason : option string; p_bounceType : option string; p_source : option string; p_detail : option string; p_suppressedAt : Z }.

(** The fields of a student the code reads or writes here. *)
Record student := Student {
  s_schoolId : string; s_studentId : string; s_parentEmailHash : option string; s_contactEmail : option string;
  s_deletedAt : option Z; s_reminderOptOut : bool; s_suppressed : bool; s_suppressionReason : option string;
  s_suppressedAt : option Z; s_lastStatus : option string; s_lastAt : option Z }.

(** A delivery; the free-form [payload] is left out. *)
Record delivery := Delivery {
  d_id : Z; d_schoolId : string; d_studentId : string; d_type : string; d_provider : string; d_messageId : option string;
  d_status : string; d_reason : option string; d_sentAt : option Z; d_deliveredAt : option Z; d_openedAt : option Z;
  d_bouncedAt : option Z; d_complaintAt : option Z }.

(** The collections, keyed by address and by delivery id where an index is
    unique, and the certificates of this process. *)
Record world := World {
  m_suppressions : gmap string suppression; m_students : list student; m_deliveries : list delivery;
  m_nonces : gmap string Z; m_certs : cert_cache }.

Definition with_suppressions f w := World (f (m_suppressions w)) (m_students w) (m_deliveries w) (m_nonces w) (m_certs w).
Definition with_students f w := World (m_suppressions w) (f (m_students w)) (m_deliveries w) (m_nonces w) (m_certs w).
Definition with_deliveries f w := World (m_suppressions w) (m_students w) (f (m_deliveries w)) (m_nonces w) (m_certs w).
Definition with_nonces f w := World (m_suppressions w) (m_students w) (m_deliveries w) (f (m_nonces w)) (m_certs w).
Definition with_certs c w := World (m_suppressions w) (m_students w) (m_deliveries w) (m_nonces w) c.

(** ** The suppression list *)

Definition normalize (email : option string) : string := toLowerCase (str_trim (default "" email)).

Definition blocks (r : suppression) : bool :=
  negb (bool_decide (p_reason r = Some "bounce") && bool_decide (p_bounceType r = Some "soft")).

Definition isSuppressed (email : option string) (w : world) : bool :=
  let addr := normalize email in
  if negb (str_truthy addr) then false else
  match m_suppressions w !! addr with None => false | Some r => blocks r end.

(** [isBlocking], the method of the model. *)
Definition isBlocking (r : suppression) : bool :=
  bool_decide (p_reason r = Some "complaint") || bool_decide (p_reason r = Some "manual") || bool_decide (p_reason r = Some "unsubscribe")
  || (bool_decide (p_reason r = Some "bounce") && bool_decide (p_bounceType r = Some "hard")).

Section Mail.
Variable sha256 : string -> string.

Definition opted_out (addr : string) (s : student) : student :=
  if bool_decide (s_deletedAt s = None)
     && (bool_decide (s_parentEmailHash s = ParentPortal.hashParentEmail sha256 addr) || bool_decide (s_contactEmail s = Some addr))
     && negb (s_reminderOptOut s)
  then Student (s_schoolId s) (s_studentId s) (s_parentEmailHash s) (s_contactEmail s) (s_deletedAt s) true (s_suppressed s)
         (s_suppressionReason s) (s_suppressedAt s) (s_lastStatus s) (s_lastAt s)
  else s.

Definition _optOutStudents (addr : string) (w : world) : world := with_students (map (opted_out addr)) w.

(** The update validators are off, so any reason is stored. *)
Definition suppress (now : Z) (email reason bounceType source detail : option string) (w : world) : world :=
  let addr := normalize email in
  if negb (str_truthy addr) then w else
  let w1 := with_suppressions <[addr := Suppression reason bounceType source detail now]> w in
  if negb (bool_decide (reason = Some "bounce")) || bool_decide (bounceType = Some "hard") then _optOutStudents addr w1 else w1.

(** A missing bounce type counts as hard. *)
Definition recordBounce (now : Z) (email bounceType source detail : option string) (w : world) : world :=
  suppress now email (Some "bounce") (Some (default "hard" bounceType)) source detail w.

Definition recordComplaint (now : Z) (email source detail : option string) (w : world) : world :=
  suppress now email (Some "complaint") None source detail w.

Definition remove (email : option string) (w : world) : bool * world :=
  let addr := normalize email in
  if negb (str_truthy addr) then (false, w) else
  (bool_decide (is_Some (m_suppressions w !! addr)), with_suppressions (base.delete addr) w).

(** ** Sending *)

Inductive mail_result :=
| NoRecipient
| SuppressedRecipient
| Sent (messageId : string) (attempts : nat)
| SendFailed (attempts : nat) (error : string).

(** The provider's answer to the n-th attempt; also how many attempts it was
    asked for. *)
Fixpoint send_loop (provider : nat -> result string string) (attempt : nat) (left : nat) (lastError : string) : mail_result * nat :=
  match left with
  | O => (SendFailed (attempt - 1) lastError, (attempt - 1)%nat)
  | S left' =>
    match provider attempt with
    | Ok messageId => (Sent messageId attempt, attempt)
    | Throw e => send_loop provider (S attempt) left' e
    end
  end.

Definition sendEmail (MAX_RETRIES : nat) (to : option string) (provider : nat -> result string string) (w : world) : mail_result * nat :=
  match to with
  | None => (NoRecipient, 0%nat)
  | Some a =>
    if negb (str_truthy a) then (NoRecipient, 0%nat)
    else if isSuppressed to w then (SuppressedRecipient, 0%nat)
    else send_loop provider 1 MAX_RETRIES ""
  end.

(** ** Provider events *)

Inductive kind := KDelivered | KOpened | KBounce | KComplaint | KFailed | KInherited.

(** [DELIVERY_EVENT_TYPES], and the status it maps to. *)
Definition DELIVERY_EVENT_TYPES (k : kind) : option string :=
  match k with
  | KDelivered => Some "delivered" | KOpened => Some "opened" | KBounce => Some "bounced" | KComplaint => Some "complaint"
  | KFailed => Some "failed" | KInherited => None
  end.

(** Names every object inherits: looking one of them up gives a value too. *)
Definition inherited_names : list string :=
  ["constructor"; "__defineGetter__"; "__defineSetter__"; "hasOwnProperty"; "__lookupGetter__"; "__lookupSetter__"; "isPrototypeOf";
   "propertyIsEnumerable"; "toString"; "valueOf"; "__proto__"; "toLocaleString"].

Definition GENERIC_KINDS (eventType : string) : option kind :=
  if bool_decide (eventType = "delivered") then Some KDelivered
  else if bool_decide (eventType = "opened") then Some KOpened
  else if bool_decide (eventType = "bounced") || bool_decide (eventType = "bounce") then Some KBounce
  else if bool_decide (eventType = "complaint") then Some KComplaint
  else if bool_decide (eventType = "failed") then Some KFailed
  else if bool_decide (eventType ∈ inherited_names) then Some KInherited else None.

(** A time stamp: a number (or a text that is one), or a text with what [Date]
    makes of it. *)
Inductive stamp := TNumber (n : Z) | TText (t : option Z).

Definition MAX_DATE_MS : Z := 8640000000000000.

Definition _toDate (value : option stamp) : option Z :=
  match value with
  | None => None
  | Some (TText t) => t
  | Some (TNumber n) => let ms := if n <? 10 ^ 12 then n * 1000 else n in if Z.abs ms <=? MAX_DATE_MS then Some ms else None
  end.

(** What a pre-normalised event says beyond the normal form. *)
Record raw_event := Raw { r_provider : option string; r_schoolId : option string; r_studentId : option string; r_type : option string; r_reason : option string }.

Record event := Event {
  v_kind : kind; v_email : option string; v_bounceType : option string; v_detail : option string; v_messageId : option string;
  v_timestamp : option Z; v_raw : option raw_event }.

(** [a || b] on values that may be absent. *)
Definition opt_or (a b : option string) : option string :=
  match a with Some s => if str_truthy s then a else b | None => b end.

(** A notification of Amazon SES. *)
Record ses_msg := SesMsg {
  n_messageId : option string; n_notificationType : option string; n_eventType : option string;
  n_bounce : option (option string * list (option string * option string) * option stamp);
  n_complaint : option (option string * list (option string) * option stamp);
  n_delivery : option (option string * list (option string) * option stamp);
  n_open : option (option stamp); n_destination : list string }.

Section Parsing.
Variable JSON_parse : string -> option ses_msg.   (** the [Message] of an envelope; [None] when it is not JSON *)

(** [direct] is the body read as a notification. *)
Definition _parseSes (body : envelope) (direct : ses_msg) : list event :=
  let msg := match e_Message body with Some t => default direct (JSON_parse t) | None => direct end in
  let messageId := opt_or (n_messageId msg) None in
  let type := opt_or (n_notificationType msg) (n_eventType msg) in
  if bool_decide (type = Some "Bounce") && bool_decide (is_Some (n_bounce msg)) then
    match n_bounce msg with
    | Some (bounceType, recipients, ts) =>
      let hard := bool_decide (bounceType = Some "Permanent") in
      map (fun r => Event KBounce r.1 (Some (if hard then "hard" else "soft")) r.2 messageId (_toDate ts) None) recipients
    | None => []
    end
  else if bool_decide (type = Some "Complaint") && bool_decide (is_Some (n_complaint msg)) then
    match n_complaint msg with
    | Some (feedback, recipients, ts) => map (fun e => Event KComplaint e None feedback messageId (_toDate ts) None) recipients
    | None => []
    end
  else if bool_decide (type = Some "Delivery") && bool_decide (is_Some (n_delivery msg)) then
    match n_delivery msg with
    | Some (response, recipients, ts) => map (fun e => Event KDelivered e None response messageId (_toDate ts) None) recipients
    | None => []
    end
  else if bool_decide (type = Some "Open") then
    match n_open msg with
    | Some ts => [Event KOpened (opt_or (head (n_destination msg)) None) None None messageId (_toDate ts) None]
    | None => []
    end
  else [].

Record sg_event := SgEvent {
  g_email : option string; g_messageId : option string; g_timestamp : option stamp; g_event : option string; g_type : option string;
  g_reason : option string; g_response : option string }.

Fixpoint before_dot (l : list ascii) : list ascii :=
  match l with [] => [] | c :: l' => if Ascii.eqb c "." then [] else c :: before_dot l' end.

Definition sg_events (ev : sg_event) : list event :=
  if negb (str_truthy (default "" (g_email ev))) then [] else
  let id := (fun s => text (before_dot (chars s))) <$> g_messageId ev in
  let mk k bounceType detail := [Event k (g_email ev) bounceType detail id (_toDate (g_timestamp ev)) None] in
  let named e := bool_decide (g_event ev = Some e) in
  if named "bounce" || named "dropped" then
    mk KBounce (Some (if bool_decide (g_type ev = Some "bounce") || named "bounce" then "hard" else "soft")) (g_reason ev)
  else if named "spamreport" then mk KComplaint None (Some "spamreport")
  else if named "delivered" then mk KDelivered None (opt_or (g_response ev) None)
  else if named "open" then mk KOpened None None else [].

Definition _parseSendGrid (body : list sg_event) : list event := concat (map sg_events body).

Record gen_event := GenEvent {
  x_eventType : option string; x_email : option string; x_recipient : option string; x_bounceType : option string;
  x_messageId : option string; x_timestamp : option stamp; x_raw : raw_event }.

Definition gen_events (ev : gen_event) : list event :=
  match x_eventType ev ≫= GENERIC_KINDS with
  | None => []
  | Some k =>
    [Event k (opt_or (x_email ev) (opt_or (x_recipient ev) None))
       (match k with KBounce => Some (if bool_decide (x_bounceType ev = Some "soft") then "soft" else "hard") | _ => None end)
       (opt_or (r_reason (x_raw ev)) None) (opt_or (x_messageId ev) None) (_toDate (x_timestamp ev)) (Some (x_raw ev))]
  end.

Definition _parseGeneric (body : list gen_event) : list event := concat (map gen_events body).

(** A call's body, by the provider of the route. *)
Inductive payload :=
| PSes (e : envelope) (direct : ses_msg)
| PSendGrid (l : list sg_event)
| PGeneric (l : list gen_event).

Definition provider_of (p : payload) : string :=
  match p with PSes _ _ => "ses" | PSendGrid _ => "sendgrid" | PGeneric _ => "generic" end.

Definition parseEvents (p : payload) : list event :=
  match p with PSes e d => _parseSes e d | PSendGrid l => _parseSendGrid l | PGeneric l => _parseGeneric l end.
End Parsing.

(** ** Delivery status *)

Definition student_is (schoolId studentId : string) (s : student) : bool :=
  bool_decide (s_schoolId s = schoolId) && bool_decide (s_studentId s = studentId) && bool_decide (s_deletedAt s = None).

(** [findOneAndUpdate]: the first match only. *)
Fixpoint update_first {A} (p : A -> bool) (f : A -> A) (l : list A) : list A :=
  match l with [] => [] | x :: l' => if p x then f x :: l' else x :: update_first p f l' end.

Definition shouldSuppress (status : string) : bool := bool_decide (status = "bounced") || bool_decide (status = "complaint").

Definition suppressStudentEmail (now : Z) (schoolId studentId status : string) (reason : option string) (w : world) : world :=
  with_students (update_first (student_is schoolId studentId) (fun s =>
    Student (s_schoolId s) (s_studentId s) (s_parentEmailHash s) (s_contactEmail s) (s_deletedAt s) (s_reminderOptOut s) true
      (opt_or reason (Some status)) (Some now) (Some status) (Some now))) w.

Definition updateStudentDeliveryStatus (schoolId studentId : string) (status : string) (at_ : Z) (w : world) : world :=
  if negb (str_truthy schoolId && str_truthy studentId) then w else
  with_students (update_first (student_is schoolId studentId) (fun s =>
    Student (s_schoolId s) (s_studentId s) (s_parentEmailHash s) (s_contactEmail s) (s_deletedAt s) (s_reminderOptOut s) (s_suppressed s)
      (s_suppressionReason s) (s_suppressedAt s) (Some status) (Some at_))) w.

Definition is_message (provider messageId : string) (d : delivery) : bool :=
  bool_decide (d_provider d = provider) && bool_decide (d_messageId d = Some messageId).

(** The dates of an update; an [undefined] date leaves the stored one. *)
Definition stamped (status : string) (ts : option Z) (d : delivery) : delivery :=
  let on s old := match ts with Some t => if bool_decide (status = s) then Some t else old | None => old end in
  Delivery (d_id d) (d_schoolId d) (d_studentId d) (d_type d) (d_provider d) (d_messageId d) (d_status d) (d_reason d) (d_sentAt d)
    (on "delivered" (d_deliveredAt d)) (on "opened" (d_openedAt d)) (on "bounced" (d_bouncedAt d)) (on "complaint" (d_complaintAt d)).

Definition delivered_update (now : Z) (status : string) (reason : option string) (ts : option Z) (d : delivery) : delivery :=
  let e := stamped status ts d in
  Delivery (d_id e) (d_schoolId e) (d_studentId e) (d_type e) (d_provider e) (d_messageId e) status reason
    (if bool_decide (status = "delivered") && bool_decide (d_sentAt e = None) then Some now else d_sentAt e)
    (d_deliveredAt e) (d_openedAt e) (d_bouncedAt e) (d_complaintAt e).

Definition DELIVERY_TYPES : list string := ["reminder"; "receipt"].

(** The schema of a delivery: what [EmailDelivery.create] accepts.  The index
    on provider and message id is sparse, which spares only documents without
    either field: a null message id is indexed. *)
Definition create_delivery (d : delivery) (w : world) : world * result string unit :=
  if negb (str_truthy (d_schoolId d) && str_truthy (d_studentId d) && bool_decide (d_type d ∈ DELIVERY_TYPES)) then (w, Throw "ValidationError")
  else if existsb (fun e => bool_decide (d_provider e = d_provider d) && bool_decide (d_messageId e = d_messageId d)) (m_deliveries w)
  then (w, Throw "E11000")
  else (with_deliveries (fun l => l ++ [d]) w, Ok tt).

Definition createEmailDelivery (now : Z) (d : delivery) (w : world) : world * result string unit :=
  match create_delivery d w with
  | (w1, Ok _) => (updateStudentDeliveryStatus (d_schoolId d) (d_studentId d) (d_status d) (default now (d_sentAt d)) w1, Ok tt)
  | (w1, Throw e) => (w1, Throw e)
  end.

Definition handleEmailProviderEvent (now : Z) (newId : Z) (provider messageId : string) (k : kind) (ts : option Z) (reason : option string)
    (raw : raw_event) (w : world) : world * result string unit :=
  match DELIVERY_EVENT_TYPES k with
  | None => (w, Throw "providerMessageId and eventType are required")
  | Some status =>
    match List.find (is_message provider messageId) (m_deliveries w) with
    | Some d =>
      let w1 := with_deliveries (update_first (is_message provider messageId) (delivered_update now status reason ts)) w in
      (if shouldSuppress status && str_truthy (d_schoolId d) && str_truthy (d_studentId d)
       then suppressStudentEmail now (d_schoolId d) (d_studentId d) status reason w1 else w1, Ok tt)
    | None =>
      let at_ s := if bool_decide (status = s) then Some (default now ts) else None in
      let schoolId := default "" (r_schoolId raw) in
      let studentId := default "" (r_studentId raw) in
      let d := Delivery newId schoolId studentId (default "unknown" (opt_or (r_type raw) (Some "unknown"))) provider (Some messageId) status reason
                 (at_ "sent") (at_ "delivered") (at_ "opened") (at_ "bounced") (at_ "complaint") in
      match create_delivery d w with
      | (w1, Ok _) => (if shouldSuppress status && str_truthy schoolId && str_truthy studentId
                       then suppressStudentEmail now schoolId studentId status reason w1 else w1, Ok tt)
      | (w1, Throw e) => (w1, Throw e)
      end
    end
  end.

Definition no_raw : raw_event := Raw None None None None None.

(** One event: the suppression list first, then the delivery.  The number of
    the new document comes from outside. *)
Definition record_suppression (now : Z) (provider : string) (ev : event) (w : world) : world * nat :=
  if str_truthy (default "" (v_email ev)) then
    match v_kind ev with
    | KBounce => (recordBounce now (v_email ev) (v_bounceType ev) (Some provider) (v_detail ev) w, 1%nat)
    | KComplaint => (recordComplaint now (v_email ev) (Some provider) (v_detail ev) w, 1%nat)
    | _ => (w, 0%nat)
    end
  else (w, 0%nat).

Definition update_delivery (now newId : Z) (provider : string) (ev : event) (w : world) : world * result string nat :=
  match v_messageId ev with
  | None => (w, Ok 0%nat)
  | Some id =>
    if negb (str_truthy id) then (w, Ok 0%nat) else
    let raw := default no_raw (v_raw ev) in
    match handleEmailProviderEvent now newId (default provider (opt_or (r_provider raw) (Some provider))) id (v_kind ev) (v_timestamp ev)
            (opt_or (v_detail ev) (opt_or (r_reason raw) None)) raw w with
    | (w2, Ok _) => (w2, Ok 1%nat)
    | (w2, Throw e) => (w2, Throw e)
    end
  end.

Definition processEvent (now newId : Z) (provider : string) (ev : event) (w : world) : world * result string (nat * nat) :=
  let '(w1, s) := record_suppression now provider ev w in
  match update_delivery now newId provider ev w1 with
  | (w2, Ok d) => (w2, Ok (s, d))
  | (w2, Throw e) => (w2, Throw e)
  end.

(** A throw ends the loop; what earlier events did stays. *)
Fixpoint process_loop (now newId : Z) (provider : string) (events : list event) (s d : nat) (w : world) : world * result string (nat * nat) :=
  match events with
  | [] => (w, Ok (s, d))
  | ev :: rest =>
    match processEvent now newId provider ev w with
    | (w1, Ok (s1, d1)) => process_loop now (newId + 1) provider rest (s + s1) (d + d1) w1
    | (w1, Throw e) => (w1, Throw e)
    end
  end.

Definition processEvents (now newId : Z) (provider : string) (events : list event) (w : world) : world * result string (nat * nat * nat) :=
  match process_loop now newId provider events 0 0 w with
  | (w1, Ok (s, d)) => (w1, Ok (length events, s, d))
  | (w1, Throw e) => (w1, Throw e)
  end.

(** ** Authentication *)

(** The environment; an empty secret or key counts as absent. *)
Record config := Config { c_production : bool; c_secret : option string; c_topics : list string; c_sgKey : option string }.

Definition isWebhookAuthConfigured (cfg : config) : bool :=
  bool_decide (is_Some (c_secret cfg)) || negb (bool_decide (c_topics cfg = [])) || bool_decide (is_Some (c_sgKey cfg)).

Record request := Request {
  q_queryToken : bool; q_headerToken : option string; q_sgSignature : option string; q_sgTimestamp : option string;
  q_rawBody : option (list ascii); q_verified : bool }.

Inductive auth := AuthOk (sns : option envelope) | AuthNo (status : Z) (reason : string).

Section Handler.
Variable parse_url : string -> option url.
Variable verify : algorithm -> string -> list ascii -> string -> bool.
Variable verify_ec : string -> list ascii -> string -> bool.
Variable JSON_parse : string -> option ses_msg.
Variable cfg : config.
Variable REPLAY_TOLERANCE_S : Z.

Definition has_type (e : envelope) : bool := bool_decide (is_Some (e_Type e)).

Definition authenticateWebhook (fetch : string -> option string) (q : request) (p : payload) (certs : cert_cache) : auth * cert_cache :=
  let secretOk := match c_secret cfg with Some s => safeEqualSecret sha256 (q_headerToken q) s | None => false end in
  if q_queryToken q then (AuthNo 400 "SECRET_IN_QUERY_STRING", certs) else
  match p with
  | PGeneric _ => (if q_verified q then AuthOk None else AuthNo 401 "UNAUTHENTICATED", certs)
  | _ =>
    if c_production cfg && negb (isWebhookAuthConfigured cfg) then (AuthNo 503 "EMAIL_WEBHOOK_NOT_CONFIGURED", certs)
    else if bool_decide (is_Some (q_headerToken q)) && bool_decide (is_Some (c_secret cfg)) && negb secretOk
    then (AuthNo 401 "INVALID_SHARED_SECRET", certs)
    else match p with
    | PSes e _ =>
      if has_type e && (str_truthy (default "" (e_Signature e)) || c_production cfg || negb (bool_decide (c_topics cfg = []))) then
        match verifySnsMessage parse_url verify fetch e certs with
        | (Some reason, certs') => (AuthNo 401 reason, certs')
        | (None, certs') =>
          if bool_decide (c_topics cfg = []) then
            (if c_production cfg then AuthNo 403 "SNS_TOPIC_ALLOWLIST_NOT_CONFIGURED" else AuthOk (Some e), certs')
          else (if bool_decide (e_TopicArn e ∈ Some <$> c_topics cfg) then AuthOk (Some e) else AuthNo 403 "SNS_TOPIC_NOT_ALLOWED", certs')
        end
      else (if c_production cfg then AuthNo 401 "UNSIGNED_SNS_MESSAGE"
            else if secretOk || negb (isWebhookAuthConfigured cfg) then AuthOk None else AuthNo 401 "UNAUTHENTICATED", certs)
    | _ =>
      match c_sgKey cfg with
      | Some key =>
        (match verifySendGridSignature verify_ec key (q_sgSignature q) (q_sgTimestamp q) (q_rawBody q) with
         | Some reason => AuthNo 401 reason
         | None => AuthOk None
         end, certs)
      | None =>
        (if secretOk then AuthOk None
         else if negb (c_production cfg) && negb (isWebhookAuthConfigured cfg) then AuthOk None
         else AuthNo 401 (if bool_decide (is_Some (c_secret cfg)) then "INVALID_SHARED_SECRET" else "UNAUTHENTICATED"), certs)
      end
    end
  end.

(** ** Replays *)

Inductive replay := Fresh | Replayed | Skewed.

Definition nonce_of (q : request) (p : payload) : option string :=
  match p with
  | PSes e _ => (fun id => "email:ses:" +:+ id) <$> e_MessageId e
  | PSendGrid _ =>
    match q_sgSignature q, q_sgTimestamp q with
    | Some s, Some t => if str_truthy s && str_truthy t then Some ("email:sendgrid:" +:+ sha256 (t +:+ "." +:+ s)) else None
    | _, _ => None
    end
  | PGeneric _ => None
  end.

Definition within_tolerance (now : Z) (timestamp : string) : bool :=
  match parseInt10 timestamp with Some ts => Z.abs (now / 1000 - ts) <=? REPLAY_TOLERANCE_S | None => false end.

(** [store_ok]: the nonce collection answers; if it does not, the call is
    processed. *)
Definition checkReplay (now : Z) (store_ok : bool) (q : request) (p : payload) (w : world) : replay * world :=
  let skewed := match p, q_sgSignature q, q_sgTimestamp q with
                | PSendGrid _, Some s, Some t => str_truthy s && str_truthy t && negb (within_tolerance now t)
                | _, _, _ => false
                end in
  if skewed then (Skewed, w) else
  match nonce_of q p with
  | None => (Fresh, w)
  | Some n =>
    if negb store_ok then (Fresh, w)
    else match m_nonces w !! n with
         | Some _ => (Replayed, w)
         | None => (Fresh, with_nonces <[n := now]> w)
         end
  end.

(** ** The route *)

Inductive reply :=
| Refused (status : Z) (reason : string)
| Confirmed
| Acknowledged
| Duplicate
| Processed (events suppressed updates : nat)
| Broken (status : Z).

Inductive body := UnsupportedProvider | Unparsable | Parsed (p : payload).

(** The world outside during one call: what a host answers to a request for a
    certificate, whether the subscription is confirmed, whether the nonce
    collection answers. *)
Record call_env := Outside { o_fetch : string -> option string; o_subscribed : bool; o_store_ok : bool; o_newId : Z }.

Definition handleWebhook (now : Z) (o : call_env) (q : request) (b : body) (w : world) : reply * world :=
  match b with
  | UnsupportedProvider => (Refused 400 "UNSUPPORTED_PROVIDER", w)
  | Unparsable => (Refused 400 "INVALID_PAYLOAD", w)
  | Parsed p =>
    match authenticateWebhook (o_fetch o) q p (m_certs w) with
    | (AuthNo status reason, certs) => (Refused status reason, with_certs certs w)
    | (AuthOk sns, certs) =>
      let w0 := with_certs certs w in
      if bool_decide ((sns ≫= e_Type) = Some "SubscriptionConfirmation") then
        (if negb (isAllowedSnsUrl parse_url (sns ≫= e_SubscribeURL) false) then Refused 400 "INVALID_SNS_SUBSCRIBE_URL"
         else if o_subscribed o then Confirmed else Broken 502, w0)
      else if bool_decide ((sns ≫= e_Type) = Some "UnsubscribeConfirmation") then (Acknowledged, w0)
      else match checkReplay now (o_store_ok o) q p w0 with
           | (Skewed, w1) => (Refused 400 "TIMESTAMP_SKEW", w1)
           | (Replayed, w1) => (Duplicate, w1)
           | (Fresh, w1) =>
             match processEvents now (o_newId o) (provider_of p) (parseEvents JSON_parse p) w1 with
             | (w2, Ok (n, s, d)) => (Processed n s d, w2)
             | (w2, Throw _) => (Broken 500, w2)
             end
           end
    end
  end.
End Handler.

(** ** Administration *)

Inductive audit_action := SuppressionAdded (email reason : string) | SuppressionRemoved (email : string) (removed : bool).

(** An absent reason is [manual]. *)
Definition addSuppression (now : Z) (email reason bounceType detail : option string) (w : world) : option audit_action * world :=
  match email with
  | None => (None, w)
  | Some e =>
    if negb (str_truthy e) then (None, w) else
    let r := default "manual" reason in
    (Some (SuppressionAdded e r), suppress now email (Some r) bounceType (Some "admin") detail w)
  end.

Definition removeSuppression (email : string) (w : world) : audit_action * world :=
  let '(removed, w') := remove (Some email) w in (SuppressionRemoved email removed, w').

(** ** Pre-normalised callbacks *)

Section Inbound.
Variable hmac : string -> list ascii -> list ascii.   (** HMAC-SHA256 of a body under a secret, as bytes *)
Variable TOLERANCE_SECONDS : Z.

Record inbound := Inbound { i_signature : option string; i_timestamp : option string; i_deliveryId : option string; i_rawBody : list ascii }.

Definition verifySignature (rawBody : list ascii) (signatureHeader : option string) (secret : string) : bool :=
  match signatureHeader with
  | None => false
  | Some h =>
    if negb (str_truthy h && str_truthy secret) then false else
    let l := chars h in
    let hex := if starts_with (chars "sha256=") l then drop 7 l else l in
    bool_decide (of_hex (to_hex (hmac secret rawBody)) = of_hex hex)
  end.

(** [Ok] calls the next handler. *)
Definition validateInboundWebhook (secret : option string) (now : Z) (store_ok : bool) (i : inbound) (w : world)
  : result (Z * string) unit * world :=
  match i_timestamp i with
  | None => (Throw (400, "MISSING_TIMESTAMP"), w)
  | Some t =>
    if negb (str_truthy t) then (Throw (400, "MISSING_TIMESTAMP"), w)
    else if negb (within_tolerance TOLERANCE_SECONDS now t) then (Throw (400, "TIMESTAMP_SKEW"), w)
    else if match secret with Some k => str_truthy k && negb (verifySignature (i_rawBody i) (i_signature i) k) | None => false end
    then (Throw (401, "INVALID_SIGNATURE"), w)
    else match i_deliveryId i with
    | None => (Ok tt, w)
    | Some id =>
      if negb (str_truthy id) || negb store_ok then (Ok tt, w)
      else match m_nonces w !! id with
           | Some _ => (Throw (409, "DUPLICATE_DELIVERY"), w)
           | None => (Ok tt, with_nonces <[id := now]> w)
           end
    end
  end.

Definition genericEmailWebhookAuth (production : bool) (secret : option string) (now : Z) (store_ok : bool) (i : inbound) (w : world)
  : result (Z * string) unit * world :=
  match secret with
  | Some k => if str_truthy k then validateInboundWebhook secret now store_ok i w
              else if production then (Throw (503, "EMAIL_WEBHOOK_NOT_CONFIGURED"), w) else (Ok tt, w)
  | None => if production then (Throw (503, "EMAIL_WEBHOOK_NOT_CONFIGURED"), w) else (Ok tt, w)
  end.
End Inbound.

End Mail.

(** [list]: the page that is read. *)
Definition suppression_page (limit skip : option Z) : Z * Z :=
  let or_default d x := match x with Some z => if z =? 0 then d else z | None => d end in
  (Z.min (Z.max (or_default 50 limit) 1) 200, Z.max (or_default 0 skip) 0).

(** ** Histories *)

Section History.
Variable sha256 : string -> string.
Variable parse_url : string -> option url.
Variable verify : algorithm -> string -> list ascii -> string -> bool.
Variable verify_ec : string -> list ascii -> string -> bool.
Variable JSON_parse : string -> option ses_msg.
Variable cfg : config.
Variable REPLAY_TOLERANCE_S TTL_SECONDS : Z.

(** A callback, the expiry of a nonce at some time after its lifetime, and the
    two administrative requests. *)
Inductive op :=
| OCall (now : Z) (o : call_env) (q : request) (b : body)
| OExpire (now : Z) (nonce : string)
| OAdd (now : Z) (email reason bounceType detail : option string)
| ORemove (now : Z) (email : string).

Definition op_time (x : op) : Z :=
  match x with OCall now _ _ _ => now | OExpire now _ => now | OAdd now _ _ _ _ => now | ORemove now _ => now end.

Definition expire (now : Z) (n : string) (w : world) : world :=
  match m_nonces w !! n with
  | Some at_ => if at_ + TTL_SECONDS * 1000 <=? now then with_nonces (base.delete n) w else w
  | None => w
  end.

Definition call := handleWebhook sha256 parse_url verify verify_ec JSON_parse cfg REPLAY_TOLERANCE_S.

Definition step (x : op) (w : world) : option reply * world :=
  match x with
  | OCall now o q b => let '(r, w') := call now o q b w in (Some r, w')
  | OExpire now n => (None, expire now n w)
  | OAdd now e r b d => (None, (addSuppression sha256 now e r b d w).2)
  | ORemove _ e => (None, (removeSuppression e w).2)
  end.

Fixpoint exec (h : list op) (w : world) : list (op * option reply) * world :=
  match h with
  | [] => ([], w)
  | x :: h' => let '(r, w1) := step x w in let '(t, w2) := exec h' w1 in ((x, r) :: t, w2)
  end.

(** The events of a callback reached the suppression list and the deliveries. *)
Definition took_effect (r : option reply) : bool :=
  match r with Some (Processed _ _ _) => true | Some (Broken s) => s =? 500 | _ => false end.

Definition signed_with (t s : string) (x : op) : bool :=
  match x with
  | OCall _ _ q (Parsed (PSendGrid _)) => bool_decide (q_sgTimestamp q = Some t) && bool_decide (q_sgSignature q = Some s)
  | _ => false
  end.

Definition effects (t s : string) (tr : list (op * option reply)) : nat :=
  length (List.filter (fun p => signed_with t s p.1 && took_effect p.2) tr).

(** The nonce collection answers throughout. *)
Definition store_answers (x : op) : Prop := match x with OCall _ o _ _ => o_store_ok o = true | _ => True end.

(** Times do not run backwards, from [t] on. *)
Fixpoint clock (t : Z) (h : list op) : Prop :=
  match h with [] => True | x :: h' => t <= op_time x /\ clock (op_time x) h' end.

(** ** Replays are recognised *)

Lemma suppress_frame now e r b so d w : m_nonces (suppress sha256 now e r b so d w) = m_nonces w
  /\ m_deliveries (suppress sha256 now e r b so d w) = m_deliveries w.
Proof. unfold suppress. destruct (negb _); [done|]. by destruct (_ || _). Qed.

Lemma provider_event_frame now i p id k ts r raw w : m_nonces (handleEmailProviderEvent now i p id k ts r raw w).1 = m_nonces w
  /\ m_suppressions (handleEmailProviderEvent now i p id k ts r raw w).1 = m_suppressions w.
Proof.
  unfold handleEmailProviderEvent. destruct (DELIVERY_EVENT_TYPES k) as [st|]; [|done]. destruct (List.find _ _) as [d|].
  - cbn [fst]. by destruct (_ && _ && _).
  - unfold create_delivery. destruct (negb _); [done|]. destruct (existsb _ _); [done|]. cbn [fst]. by destruct (_ && _ && _).
Qed.

Lemma update_delivery_frame now i p ev w : m_nonces (update_delivery now i p ev w).1 = m_nonces w
  /\ m_suppressions (update_delivery now i p ev w).1 = m_suppressions w.
Proof.
  unfold update_delivery. destruct (v_messageId ev) as [id|]; [|done]. destruct (negb _); [done|]. cbv zeta.
  match goal with |- context [handleEmailProviderEvent ?a ?b ?c ?d ?e ?f ?g ?h w] =>
    pose proof (provider_event_frame a b c d e f g h w) as F; destruct (handleEmailProviderEvent a b c d e f g h w) as [w2 [?|?]] end; done.
Qed.

Lemma process_event_nonces now i p ev w : m_nonces (processEvent sha256 now i p ev w).1 = m_nonces w.
Proof.
  unfold processEvent. assert (m_nonces (record_suppression sha256 now p ev w).1 = m_nonces w) as E.
  { unfold record_suppression. destruct (str_truthy _); [|done]. destruct (v_kind ev); try done; apply suppress_frame. }
  destruct (record_suppression sha256 now p ev w) as [w1 s]. pose proof (proj1 (update_delivery_frame now i p ev w1)) as F.
  destruct (update_delivery now i p ev w1) as [w2 [d|e]]; cbn [fst] in *; congruence.
Qed.

Lemma process_loop_nonces now p evs : forall i s d w, m_nonces (process_loop sha256 now i p evs s d w).1 = m_nonces w.
Proof.
  induction evs as [|ev evs IH]; intros i s d w; simpl; [done|].
  pose proof (process_event_nonces now i p ev w) as E. destruct (processEvent sha256 now i p ev w) as [w1 [[s1 d1]|e]]; cbn [fst] in *; [|done].
  by rewrite IH.
Qed.

Lemma process_events_nonces now i p evs w : m_nonces (processEvents sha256 now i p evs w).1 = m_nonces w.
Proof.
  unfold processEvents. pose proof (process_loop_nonces now p evs i 0 0 w) as E.
  by destruct (process_loop _ _ _ _ _ _ _ _) as [w1 [[s d]|e]].
Qed.

(** What a callback does to the nonces, and when its events take effect. *)
Lemma call_replay now o q b w r w' : call now o q b w = (r, w') ->
  if took_effect (Some r) then exists p w0 w1, b = Parsed p /\ m_nonces w0 = m_nonces w
      /\ checkReplay sha256 REPLAY_TOLERANCE_S now (o_store_ok o) q p w0 = (Fresh, w1) /\ m_nonces w' = m_nonces w1
  else m_nonces w' = m_nonces w.
Proof.
  unfold call, handleWebhook. destruct b as [| |p]; [intros [= <- <-]; done..|].
  destruct (authenticateWebhook _ _ _ _ _ _ _ _ _) as [[sns|st rs] certs]; [|intros [= <- <-]; done].
  destruct (bool_decide _).
  { destruct (negb _); [intros [= <- <-]; done|]. destruct (o_subscribed o); intros [= <- <-]; done. }
  destruct (bool_decide _); [intros [= <- <-]; done|].
  destruct (checkReplay _ _ _ _ _ _ _) as [[| |] w1] eqn:Hr.
  - pose proof (process_events_nonces now (o_newId o) (provider_of p) (parseEvents JSON_parse p) w1) as E.
    destruct (processEvents _ _ _ _ _ _) as [w2 [[[n s] d]|e]]; cbn [fst] in E; intros [= <- <-]; cbn [took_effect Z.eqb Pos.eqb];
      exists p, (with_certs certs w), w1; done.
  - intros [= <- <-]. cbn [took_effect]. unfold checkReplay in Hr. destruct (match p with PSes _ _ => _ | _ => _ end); [done|].
    destruct (nonce_of _ _ _); [|done]. destruct (negb _); [done|]. destruct (m_nonces _ !! _); [|done]. by injection Hr as <-.
  - intros [= <- <-]. cbn [took_effect]. unfold checkReplay in Hr. destruct (match p with PSes _ _ => _ | _ => _ end); [by injection Hr as <-|].
    destruct (nonce_of _ _ _); [|done]. destruct (negb _); [done|]. by destruct (m_nonces _ !! _).
Qed.

Lemma fresh_nonces now q p w w1 : checkReplay sha256 REPLAY_TOLERANCE_S now true q p w = (Fresh, w1) ->
  match nonce_of sha256 q p with
  | None => m_nonces w1 = m_nonces w
  | Some n => m_nonces w !! n = None /\ m_nonces w1 = <[n := now]> (m_nonces w)
  end.
Proof.
  unfold checkReplay. destruct (match p with PSes _ _ => _ | _ => _ end); [done|].
  destruct (nonce_of sha256 q p) as [n|]; cbn [negb]; [|by intros [= <-]].
  destruct (m_nonces w !! n) eqn:E; [done|]. by intros [= <-].
Qed.

(** The nonce [n] was stored at [t0] and is still there, or its lifetime is over. *)
Definition remembered (n : string) (t0 now : Z) (w : world) : Prop :=
  m_nonces w !! n = Some t0 \/ t0 + TTL_SECONDS * 1000 <= now.

Lemma step_remembers n t0 now x w : store_answers x -> now <= op_time x ->
  remembered n t0 now w -> remembered n t0 (op_time x) (step x w).2.
Proof.
  intros Hs Ht [H|H]; [|right; lia]. destruct x as [t o q b|t k|t e r b d|t e]; cbn [step op_time] in *.
  - destruct (call t o q b w) as [r w'] eqn:E. cbn [snd]. apply call_replay in E.
    destruct (took_effect (Some r)); [|left; congruence].
    destruct E as (p & w0 & w1 & -> & E0 & Hf & E1). rewrite Hs in Hf. apply fresh_nonces in Hf.
    left. rewrite E1. destruct (nonce_of sha256 q p) as [m|]; [|congruence].
    destruct Hf as [Hn ->]. rewrite E0 in *. rewrite lookup_insert_ne; [done|]. congruence.
  - cbn [snd]. unfold expire. destruct (m_nonces w !! k) as [a|] eqn:Ek; [|by left].
    destruct (Z.leb_spec (a + TTL_SECONDS * 1000) t); [|by left].
    destruct (decide (k = n)) as [->|Hne]; [right; congruence|]. left. cbn. by rewrite lookup_delete_ne.
  - cbn [snd]. left. unfold addSuppression. destruct e as [e|]; [|done]. destruct (negb _); [done|]. cbn [snd].
    by rewrite (proj1 (suppress_frame _ _ _ _ _ _ _)).
  - cbn [snd]. left. unfold removeSuppression, remove. by destruct (negb _).
Qed.

Hypothesis window_below_ttl : 2 * REPLAY_TOLERANCE_S + 1 < TTL_SECONDS.

(** A signed call that takes effect is within the window and stores its nonce. *)
Lemma effect_stores t s x w : str_truthy t = true -> str_truthy s = true -> store_answers x -> signed_with t s x = true ->
  took_effect (step x w).1 = true ->
  let n := "email:sendgrid:" +:+ sha256 (t +:+ "." +:+ s) in
  within_tolerance REPLAY_TOLERANCE_S (op_time x) t = true /\ m_nonces w !! n = None /\ m_nonces (step x w).2 !! n = Some (op_time x).
Proof.
  intros Ht Hsg Hs Hx He. destruct x as [now o q [| |[| l|]]|? ?|? ? ? ? ?|? ?]; try done. cbn [signed_with step op_time] in *.
  apply andb_prop in Hx as [Hqt%bool_decide_eq_true Hqs%bool_decide_eq_true].
  destruct (call now o q _ w) as [r w'] eqn:E. cbn [fst snd] in *. apply call_replay in E. rewrite He in E.
  destruct E as (p & w0 & w1 & Ep & E0 & Hf & E1). injection Ep as <-. rewrite Hs in Hf.
  pose proof (fresh_nonces _ _ _ _ _ Hf) as Hn. unfold checkReplay in Hf.
  cbn [nonce_of] in Hn. rewrite Hqt, Hqs, Ht, Hsg in *. cbn [andb] in *.
  destruct (within_tolerance REPLAY_TOLERANCE_S now t); [|done]. destruct Hn as [Hnone Hins]. rewrite E0 in *.
  split; [done|]. split; [done|]. rewrite E1, Hins. apply lookup_insert_eq.
Qed.

Lemma windows_close now t0 t : within_tolerance REPLAY_TOLERANCE_S now t = true -> within_tolerance REPLAY_TOLERANCE_S t0 t = true ->
  t0 + TTL_SECONDS * 1000 <= now -> False.
Proof.
  unfold within_tolerance. destruct (parseInt10 t) as [z|]; [|done]. intros H1%Z.leb_le H2%Z.leb_le H.
  pose proof (Z.mod_pos_bound now 1000). pose proof (Z.mod_pos_bound t0 1000).
  pose proof (Z.div_mod now 1000). pose proof (Z.div_mod t0 1000). lia.
Qed.

Lemma remembered_no_effect t s h t0 now w : str_truthy t = true -> str_truthy s = true ->
  within_tolerance REPLAY_TOLERANCE_S t0 t = true -> Forall store_answers h -> clock now h ->
  remembered ("email:sendgrid:" +:+ sha256 (t +:+ "." +:+ s)) t0 now w -> effects t s (exec h w).1 = 0%nat.
Proof.
  intros Ht Hs Hw. revert now w. induction h as [|x h IH]; intros now w Hst Hc Hr; [done|].
  apply Forall_cons in Hst as [Hx Hst]. destruct Hc as [Hle Hc]. cbn [exec].
  pose proof (step_remembers _ _ _ _ _ Hx Hle Hr) as Hr'.
  destruct (step x w) as [r w1] eqn:E. cbn [snd] in Hr'. specialize (IH _ _ Hst Hc Hr').
  destruct (exec h w1) as [tr w2]. cbn [fst] in *. unfold effects in *. cbn [List.filter fst snd].
  destruct (signed_with t s x && took_effect r) eqn:He; [|done]. exfalso.
  apply andb_prop in He as [H1 H2]. destruct (effect_stores t s x w Ht Hs Hx H1) as (Hin & Hnone & _); [by rewrite E|].
  destruct Hr as [Hr|Hr]; [congruence|]. eapply (windows_close (op_time x) t0 t); [done|done|lia].
Qed.

Lemma effects_at_most_once t s h now w : str_truthy t = true -> str_truthy s = true -> Forall store_answers h -> clock now h ->
  (effects t s (exec h w).1 <= 1)%nat.
Proof.
  intros Ht Hs. revert now w. induction h as [|x h IH]; intros now w Hst Hc; [unfold effects; simpl; lia|].
  apply Forall_cons in Hst as [Hx Hst]. destruct Hc as [Hle Hc]. cbn [exec].
  destruct (step x w) as [r w1] eqn:E. specialize (IH (op_time x) w1 Hst Hc).
  destruct (exec h w1) as [tr w2] eqn:Eh. cbn [fst] in *. unfold effects in *. cbn [List.filter fst snd].
  destruct (signed_with t s x && took_effect r) eqn:He; [|done].
  apply andb_prop in He as [H1 H2]. destruct (effect_stores t s x w Ht Hs Hx H1) as (Hin & _ & Hstored); [by rewrite E|].
  rewrite E in Hstored. cbn [snd] in Hstored.
  assert (effects t s (exec h w1).1 = 0%nat) as Z0 by (eapply remembered_no_effect; eauto; by left).
  rewrite Eh in Z0. unfold effects in Z0. cbn [fst] in Z0. cbn [length]. lia.
Qed.

(** ** Who may write *)

(** What an authenticated callback proves, in production. *)
Definition authentic (fetch : string -> option string) (q : request) (p : payload) (certs : cert_cache) : Prop :=
  match p with
  | PSes e _ => exists certUrl pem alg txt sig,
      e_SigningCertURL e = Some certUrl /\ isAllowedSnsUrl parse_url (Some certUrl) true = true
      /\ (cached_cert certs certUrl = Some pem \/ fetch certUrl = Some pem)
      /\ buildSnsStringToSign e = Some txt /\ e_Signature e = Some sig /\ verify alg pem txt sig = true
      /\ e_TopicArn e ∈ Some <$> c_topics cfg
  | PSendGrid _ =>
      (exists key sig ts raw, c_sgKey cfg = Some key /\ q_sgSignature q = Some sig /\ q_sgTimestamp q = Some ts /\ q_rawBody q = Some raw
         /\ verify_ec key (chars ts ++ raw) sig = true)
      \/ (exists secret token, c_secret cfg = Some secret /\ q_headerToken q = Some token /\ sha256 token = sha256 secret)
  | PGeneric _ => q_verified q = true
  end.

Lemma fetched_from fetch certUrl certs pem certs' : _fetchSigningCert fetch certUrl certs = (Some pem, certs') ->
  cached_cert certs certUrl = Some pem \/ fetch certUrl = Some pem.
Proof.
  unfold _fetchSigningCert. destruct (cached_cert certs certUrl) as [x|]; [intros [= -> _]; by left|].
  destruct (fetch certUrl) as [x|]; [|done]. intros [= -> _]. by right.
Qed.

Lemma verify_sns_valid fetch e certs certs' : verifySnsMessage parse_url verify fetch e certs = (None, certs') ->
  exists certUrl pem alg txt sig, e_SigningCertURL e = Some certUrl /\ isAllowedSnsUrl parse_url (Some certUrl) true = true
    /\ (cached_cert certs certUrl = Some pem \/ fetch certUrl = Some pem)
    /\ buildSnsStringToSign e = Some txt /\ e_Signature e = Some sig /\ verify alg pem txt sig = true.
Proof.
  unfold verifySnsMessage. destruct (e_Signature e) as [sig|]; [|done]. destruct (e_SigningCertURL e) as [certUrl|]; [|done].
  destruct (negb (str_truthy sig && str_truthy certUrl)); [done|].
  destruct (if bool_decide (e_SignatureVersion e = Some "1") then _ else _) as [alg|]; [|done].
  destruct (isAllowedSnsUrl parse_url (Some certUrl) true) eqn:Ha; cbn [negb]; [|done].
  destruct (buildSnsStringToSign e) as [txt|]; [|done].
  destruct (_fetchSigningCert fetch certUrl certs) as [[pem|] c'] eqn:Hf; [|done].
  destruct (verify alg pem txt sig) eqn:Hv; [|done]. intros _.
  exists certUrl, pem, alg, txt, sig. pose proof (fetched_from _ _ _ _ _ Hf). done.
Qed.

Lemma safe_equal_secret token secret : safeEqualSecret sha256 token secret = true ->
  exists tk, token = Some tk /\ sha256 tk = sha256 secret.
Proof.
  unfold safeEqualSecret. destruct token as [tk|]; [|done]. destruct (negb _); [done|].
  intros H%bool_decide_eq_true. eauto.
Qed.

Lemma authenticate_ok fetch q p certs sns certs' : c_production cfg = true ->
  authenticateWebhook sha256 parse_url verify verify_ec cfg fetch q p certs = (AuthOk sns, certs') -> authentic fetch q p certs.
Proof.
  intros Hp. unfold authenticateWebhook, authentic. rewrite Hp. destruct (q_queryToken q); [done|].
  destruct p as [e d|l|l]; [| |destruct (q_verified q); done].
  - destruct (true && negb (isWebhookAuthConfigured cfg)); [done|].
    destruct (bool_decide (is_Some (q_headerToken q)) && _ && _); [done|].
    rewrite orb_true_r. cbn [orb]. destruct (has_type e && true); [|done].
    destruct (verifySnsMessage parse_url verify fetch e certs) as [[r|] c'] eqn:Hv; [done|].
    destruct (bool_decide (c_topics cfg = [])); [done|].
    destruct (bool_decide (e_TopicArn e ∈ Some <$> c_topics cfg)) eqn:Ht; [|done]. intros _.
    apply bool_decide_eq_true in Ht. apply verify_sns_valid in Hv as (u & pem & alg & txt & sig & H1 & H2 & H3 & H4 & H5 & H6).
    by exists u, pem, alg, txt, sig.
  - destruct (true && negb (isWebhookAuthConfigured cfg)); [done|].
    destruct (bool_decide (is_Some (q_headerToken q)) && _ && _); [done|].
    destruct (c_sgKey cfg) as [key|].
    + unfold verifySendGridSignature. destruct (q_sgSignature q) as [sig|]; [|done]. destruct (q_sgTimestamp q) as [ts|]; [|done].
      destruct (negb _); [done|]. destruct (q_rawBody q) as [raw|]; [|done].
      destruct (verify_ec key (chars ts ++ raw) sig) eqn:Hv; [|done]. intros _. left. by exists key, sig, ts, raw.
    + destruct (c_secret cfg) as [secret|]; [|done].
      destruct (safeEqualSecret sha256 (q_headerToken q) secret) eqn:Hs; [|done]. intros _. right.
      apply safe_equal_secret in Hs as (tk & -> & E). by exists secret, tk.
Qed.

(** The stored documents, without the certificates of the process. *)
Definition stored (w : world) := (m_suppressions w, m_students w, m_deliveries w, m_nonces w).

Lemma refused_stored now o q b w r w' : call now o q b w = (r, w') ->
  (forall p sns certs, b = Parsed p ->
     authenticateWebhook sha256 parse_url verify verify_ec cfg (o_fetch o) q p (m_certs w) <> (AuthOk sns, certs)) -> stored w' = stored w.
Proof.
  unfold call, handleWebhook. destruct b as [| |p]; [intros [= <- <-]; done..|].
  destruct (authenticateWebhook _ _ _ _ _ _ _ _ _) as [[sns|st rs] certs] eqn:E; intros H Hno; [|by injection H as <- <-].
  by destruct (Hno p sns certs eq_refl E).
Qed.

(** ** Suppression lasts *)

Definition blocked (a : string) (w : world) : Prop := exists r, m_suppressions w !! a = Some r /\ blocks r = true.

Lemma suppressed_blocked e w : isSuppressed e w = true <-> str_truthy (normalize e) = true /\ blocked (normalize e) w.
Proof.
  unfold isSuppressed, blocked. destruct (str_truthy (normalize e)); cbn [negb]; [|naive_solver].
  destruct (m_suppressions w !! normalize e); naive_solver.
Qed.

Definition soft (reason bounceType : option string) : Prop := reason = Some "bounce" /\ bounceType = Some "soft".

Lemma suppress_blocks a now e r b so d w : blocked a w -> ~ (normalize e = a /\ soft r b) ->
  blocked a (suppress sha256 now e r b so d w).
Proof.
  intros Hb Hn. unfold suppress. destruct (negb _); [done|].
  assert (blocked a (with_suppressions <[normalize e := Suppression r b so d now]> w)) as A.
  { unfold blocked. cbn [m_suppressions with_suppressions]. destruct (decide (normalize e = a)) as [<-|Hne].
    - exists (Suppression r b so d now). rewrite lookup_insert_eq. split; [done|]. unfold blocks. cbn.
      destruct (decide (r = Some "bounce")) as [->|]; [|by rewrite bool_decide_false].
      rewrite (bool_decide_false (b = _)); [done|]. intros ->. by apply Hn.
    - by rewrite lookup_insert_ne. }
  by destruct (_ || _).
Qed.

Lemma suppress_now_blocked now e r b so d w : str_truthy (normalize e) = true -> ~ soft r b ->
  isSuppressed e (suppress sha256 now e r b so d w) = true.
Proof.
  intros Ht Hn. apply suppressed_blocked. split; [done|]. unfold suppress. rewrite Ht. cbn [negb].
  assert (blocked (normalize e) (with_suppressions <[normalize e := Suppression r b so d now]> w)) as A.
  { exists (Suppression r b so d now). cbn. rewrite lookup_insert_eq. split; [done|]. unfold blocks. cbn.
    destruct (decide (r = Some "bounce")) as [->|]; [|by rewrite bool_decide_false].
    rewrite (bool_decide_false (b = _)); [done|]. intros ->. by apply Hn. }
  by destruct (_ || _).
Qed.

Definition soft_bounce_at (a : string) (ev : event) : Prop :=
  v_kind ev = KBounce /\ v_bounceType ev = Some "soft" /\ normalize (v_email ev) = a.

Lemma process_event_blocks a now i p ev w : blocked a w -> ~ soft_bounce_at a ev -> blocked a (processEvent sha256 now i p ev w).1.
Proof.
  intros Hb Hn. unfold processEvent. assert (blocked a (record_suppression sha256 now p ev w).1) as E.
  { unfold record_suppression. destruct (str_truthy _); [|done]. destruct (v_kind ev) eqn:Ek; try done; apply suppress_blocks; try done.
    - intros [H1 [_ H2]]. apply Hn. split; [done|]. split; [|done]. destruct (v_bounceType ev); simplify_eq/=; done.
    - by intros [_ [H _]]. }
  destruct (record_suppression sha256 now p ev w) as [w1 s]. pose proof (proj2 (update_delivery_frame now i p ev w1)) as F.
  unfold blocked in *. destruct (update_delivery now i p ev w1) as [w2 [d|e]]; cbn [fst] in *; by rewrite F.
Qed.

Lemma process_loop_blocks a now p evs : forall i s d w, blocked a w -> Forall (fun ev => ~ soft_bounce_at a ev) evs ->
  blocked a (process_loop sha256 now i p evs s d w).1.
Proof.
  induction evs as [|ev evs IH]; intros i s d w Hb Hf; simpl; [done|]. apply Forall_cons in Hf as [Hev Hf].
  pose proof (process_event_blocks a now i p ev w Hb Hev) as E.
  destruct (processEvent sha256 now i p ev w) as [w1 [[s1 d1]|e]]; cbn [fst] in *; [|done]. by apply IH.
Qed.

(** Nothing in the operation lifts the suppression of [a]. *)
Definition keeps_suppressed (a : string) (x : op) : Prop :=
  match x with
  | OCall _ _ _ (Parsed p) => Forall (fun ev => ~ soft_bounce_at a ev) (parseEvents JSON_parse p)
  | OAdd _ e r b _ => ~ (normalize e = a /\ soft (Some (default "manual" r)) b)
  | ORemove _ e => normalize (Some e) <> a
  | _ => True
  end.

Lemma check_replay_suppressions now ok q p w : m_suppressions (checkReplay sha256 REPLAY_TOLERANCE_S now ok q p w).2 = m_suppressions w.
Proof.
  unfold checkReplay. destruct (match p with PSes _ _ => _ | _ => _ end); [done|]. destruct (nonce_of _ _ _); [|done].
  destruct (negb _); [done|]. by destruct (m_nonces _ !! _).
Qed.

Lemma step_blocks a x w : keeps_suppressed a x -> blocked a w -> blocked a (step x w).2.
Proof.
  intros Hk Hb. destruct x as [now o q b|now n|now e r b d|now e]; cbn [step keeps_suppressed] in *.
  - unfold call, handleWebhook. destruct b as [| |p]; [done..|].
    destruct (authenticateWebhook _ _ _ _ _ _ _ _ _) as [[sns|st rs] certs]; [|done].
    destruct (bool_decide _); [destruct (negb _); [done|]; by destruct (o_subscribed o)|]. destruct (bool_decide _); [done|].
    pose proof (check_replay_suppressions now (o_store_ok o) q p (with_certs certs w)) as E.
    destruct (checkReplay _ _ _ _ _ _ _) as [[| |] w1]; cbn [snd] in E; [|unfold blocked in *; cbn [snd]; by rewrite E..].
    assert (blocked a w1) as Hb1 by (unfold blocked in *; by rewrite E). unfold processEvents.
    pose proof (process_loop_blocks a now (provider_of p) _ (o_newId o) 0 0 w1 Hb1 Hk) as F.
    by destruct (process_loop _ _ _ _ _ _ _ _) as [w2 [[s d]|er]].
  - cbn [snd]. unfold expire. destruct (m_nonces w !! n); [|done]. by destruct (_ <=? _).
  - cbn [snd]. unfold addSuppression. destruct e as [e|]; [|done]. destruct (negb _); [done|]. by apply suppress_blocks.
  - cbn [snd]. unfold removeSuppression, remove. destruct (negb _); [done|]. cbn. unfold blocked. cbn.
    by rewrite lookup_delete_ne.
Qed.

Lemma exec_blocks a h : forall w, Forall (keeps_suppressed a) h -> blocked a w -> blocked a (exec h w).2.
Proof.
  induction h as [|x h IH]; intros w Hf Hb; [done|]. apply Forall_cons in Hf as [Hx Hf]. cbn [exec].
  pose proof (step_blocks a x w Hx Hb) as H1. destruct (step x w) as [r w1]. cbn [snd] in H1.
  specialize (IH w1 Hf H1). by destruct (exec h w1).
Qed.
End History.

(** ** Normal addresses *)

Lemma drop_while_map f g l : (forall c, f (g c) = f c) -> drop_while f (map g l) = map g (drop_while f l).
Proof. intros E. induction l as [|c l IH]; simpl; [done|]. rewrite E. by destruct (f c). Qed.

Lemma drop_while_suffix f l : exists p, l = p ++ drop_while f l.
Proof.
  induction l as [|c l [p IH]]; simpl; [by exists []|]. destruct (f c); [exists (c :: p); simpl; by f_equal|by exists []].
Qed.

Lemma drop_while_idem f l : drop_while f (drop_while f l) = drop_while f l.
Proof. induction l as [|c l IH]; simpl; [done|]. destruct (f c) eqn:E; [done|]. simpl. by rewrite E. Qed.

Lemma trim_idem l : trim (trim l) = trim l.
Proof.
  unfold trim. set (d := drop_while is_space l). destruct (drop_while_suffix is_space (rev d)) as [p Hp].
  set (t := rev (drop_while is_space (rev d))).
  assert (drop_while is_space t = t) as Et.
  { assert (d = t ++ rev p) as Ed.
    { apply (f_equal (@rev ascii)) in Hp. by rewrite rev_involutive, rev_app_distr in Hp. }
    destruct t as [|c t']; [done|]. pose proof (drop_while_idem is_space l) as I. fold d in I. rewrite Ed in I. simpl in I |- *.
    destruct (is_space c); [|done]. exfalso. destruct (drop_while_suffix is_space (t' ++ rev p)) as [q Hq].
    apply (f_equal length) in I, Hq. rewrite (length_app q) in Hq. simpl in I. lia. }
  rewrite Et. unfold t. by rewrite rev_involutive, drop_while_idem.
Qed.

Lemma is_space_lower c : is_space (lower c) = is_space c.
Proof. destruct c as [[] [] [] [] [] [] [] []]; vm_compute; done. Qed.
Lemma lower_lower c : lower (lower c) = lower c.
Proof. destruct c as [[] [] [] [] [] [] [] []]; vm_compute; done. Qed.

Lemma trim_map_lower l : trim (map lower l) = map lower (trim l).
Proof.
  unfold trim. rewrite drop_while_map by apply is_space_lower. rewrite <- map_rev.
  rewrite drop_while_map by apply is_space_lower. by rewrite map_rev.
Qed.

Lemma normalize_idem e : normalize (Some (normalize e)) = normalize e.
Proof.
  change (normalize (Some (normalize e))) with (toLowerCase (str_trim (normalize e))).
  unfold normalize, toLowerCase, str_trim. rewrite !chars_text, trim_map_lower, trim_idem.
  f_equal. rewrite List.map_map. apply List.map_ext, lower_lower.
Qed.

Lemma Forall_update_first {A} (P : A -> Prop) p f (l : list A) : Forall P l -> (forall x, P x -> P (f x)) -> Forall P (update_first p f l).
Proof. intros H Hf. induction H as [|x l Hx H IH]; simpl; [done|]. destruct (p x); constructor; auto. Qed.

(** Every student of the address is opted out. *)
Definition all_opted_out (sha256 : string -> string) (addr : string) (w : world) : Prop :=
  Forall (fun s => s_deletedAt s = None -> s_parentEmailHash s = Some (sha256 addr) -> s_reminderOptOut s = true) (m_students w).

Lemma update_delivery_opted sha256 addr now i p ev w : all_opted_out sha256 addr w -> all_opted_out sha256 addr (update_delivery now i p ev w).1.
Proof.
  intros H. unfold update_delivery. destruct (v_messageId ev) as [id|]; [|done]. destruct (negb _); [done|]. cbv zeta.
  assert (forall sc st status reason w1, all_opted_out sha256 addr w1 -> all_opted_out sha256 addr (suppressStudentEmail now sc st status reason w1)) as A
    by (intros; by apply Forall_update_first).
  unfold handleEmailProviderEvent. destruct (DELIVERY_EVENT_TYPES _) as [status|]; [|done]. destruct (List.find _ _) as [d|].
  - destruct (_ && _ && _); [by apply A|done].
  - unfold create_delivery. destruct (negb _); [done|]. destruct (existsb _ _); [done|]. destruct (_ && _ && _); [by apply A|done].
Qed.

(** ** Properties *)

Section Properties.
Variable sha256 : string -> string.
Variable parse_url : string -> option url.
Variable verify : algorithm -> string -> list ascii -> string -> bool.
Variable verify_ec : string -> list ascii -> string -> bool.
Variable JSON_parse : string -> option ses_msg.
Variable cfg : config.
Variable REPLAY_TOLERANCE_S TTL_SECONDS : Z.

Abbreviation run := (exec sha256 parse_url verify verify_ec JSON_parse cfg REPLAY_TOLERANCE_S TTL_SECONDS).

(** A signed SendGrid callback takes effect at most once in any history, with
    expiring nonces, as long as the window of accepted time stamps is shorter
    than the life of a nonce and the nonce collection answers. *)
Theorem sendgrid_callback_once t s h start w :
  2 * REPLAY_TOLERANCE_S + 1 < TTL_SECONDS -> str_truthy t = true -> str_truthy s = true ->
  Forall store_answers h -> clock start h ->
  (effects t s (run h w).1 <= 1)%nat.
Proof. intros. by eapply effects_at_most_once. Qed.

(** In production the stored documents change only by a callback that proved
    its origin: a signature that a certificate from Amazon's hosts verifies
    over the message, from an allowed topic; SendGrid's signature over the
    body, or the shared secret; a verified generic callback. *)
Theorem production_callbacks_authenticated now o q b w r w' :
  c_production cfg = true ->
  call sha256 parse_url verify verify_ec JSON_parse cfg REPLAY_TOLERANCE_S now o q b w = (r, w') ->
  stored w' <> stored w ->
  exists p, b = Parsed p /\ authentic sha256 parse_url verify verify_ec cfg (o_fetch o) q p (m_certs w).
Proof.
  intros Hp H Hne. destruct b as [| |p]; [by injection H as <- <-..|]. exists p. split; [done|].
  destruct (authenticateWebhook sha256 parse_url verify verify_ec cfg (o_fetch o) q p (m_certs w)) as [[sns|st rs] certs] eqn:E;
    [by eapply authenticate_ok|]. destruct Hne. eapply refused_stored; [exact H|]. intros p' sns' certs' [= <-]. by rewrite E.
Qed.

(** C38: a suppressed address gets no mail after any history that neither removes
    the address nor reports a soft bounce of it, however it is spelled. *)
Theorem suppressed_never_mailed MAX_RETRIES addr addr' provider h w :
  isSuppressed (Some addr) w = true -> Forall (keeps_suppressed JSON_parse (normalize (Some addr))) h ->
  normalize (Some addr') = normalize (Some addr) ->
  sendEmail MAX_RETRIES (Some addr') provider (run h w).2 = (SuppressedRecipient, 0%nat).
Proof.
  intros [Ht Hb]%suppressed_blocked Hk E. unfold sendEmail.
  assert (str_truthy addr' = true) as ->.
  { destruct addr'; [|done]. rewrite <- E in Ht. vm_compute in Ht. done. }
  cbn [negb]. replace (isSuppressed (Some addr') _) with true; [done|]. symmetry. apply suppressed_blocked. rewrite E.
  split; [done|]. by apply exec_blocks.
Qed.
End Properties.

(** A complaint suppresses the address and opts out every student of any
    school whose stored hash is that of the address. *)
Theorem complaint_stops_mail sha256 now newId provider ev w w' r :
  v_kind ev = KComplaint -> str_truthy (normalize (v_email ev)) = true ->
  processEvent sha256 now newId provider ev w = (w', r) ->
  isSuppressed (v_email ev) w' = true /\ all_opted_out sha256 (normalize (v_email ev)) w'.
Proof.
  intros Hk Ht H. unfold processEvent, record_suppression in H. rewrite Hk in H.
  assert (str_truthy (default "" (v_email ev)) = true) as Hd.
  { unfold normalize in Ht. destruct (default "" (v_email ev)); [|done]. by vm_compute in Ht. }
  rewrite Hd in H. set (w1 := recordComplaint sha256 now (v_email ev) (Some provider) (v_detail ev) w) in H.
  assert (isSuppressed (v_email ev) w1 = true) as H1 by (apply suppress_now_blocked; [done|]; by intros [? _]).
  assert (all_opted_out sha256 (normalize (v_email ev)) w1) as H2.
  { unfold w1, recordComplaint, suppress. rewrite Ht. cbn [negb]. rewrite bool_decide_false by done. cbn [negb orb].
    apply Forall_map, Forall_true. intros s. unfold opted_out, ParentPortal.hashParentEmail. rewrite Ht.
    change (toLowerCase (str_trim (normalize (v_email ev)))) with (normalize (Some (normalize (v_email ev)))). rewrite normalize_idem.
    destruct (decide (s_deletedAt s = None)) as [Hx|]; [|by destruct (_ && _ && _)].
    destruct (decide (s_parentEmailHash s = Some (sha256 (normalize (v_email ev))))) as [Hy|]; [|by destruct (_ && _ && _)].
    rewrite !bool_decide_true by done. cbn [andb orb]. by destruct (s_reminderOptOut s) eqn:Eo. }
  pose proof (update_delivery_opted sha256 _ now newId provider ev w1 H2) as H3.
  pose proof (proj2 (update_delivery_frame now newId provider ev w1)) as F.
  assert ((update_delivery now newId provider ev w1).1 = w') as <- by (destruct (update_delivery now newId provider ev w1) as [w2 [d|e]]; by injection H as <- <-).
  split; [|done]. apply suppressed_blocked in H1. apply suppressed_blocked. unfold blocked in *. by rewrite F.
Qed.

(** An event of SES or SendGrid for a message without a delivery record throws:
    the record it would create lacks the school, the student and a known type. *)
Theorem untracked_event_throws sha256 now newId provider ev id w :
  v_messageId ev = Some id -> str_truthy id = true -> v_raw ev = None -> v_kind ev <> KInherited ->
  Forall (fun d => is_message provider id d = false) (m_deliveries w) ->
  (processEvent sha256 now newId provider ev w).2 = Throw "ValidationError".
Proof.
  intros Hid Ht Hr Hk Hd. unfold processEvent.
  assert (m_deliveries (record_suppression sha256 now provider ev w).1 = m_deliveries w) as E.
  { unfold record_suppression. destruct (str_truthy (default "" (v_email ev))); [|done]. destruct (v_kind ev); try done; apply suppress_frame. }
  destruct (record_suppression sha256 now provider ev w) as [w1 s]. cbn [fst] in E.
  unfold update_delivery. rewrite Hid, Ht, Hr. cbn -[handleEmailProviderEvent]. unfold handleEmailProviderEvent.
  destruct (DELIVERY_EVENT_TYPES (v_kind ev)) as [st|] eqn:Hst; [|by destruct (v_kind ev)].
  replace (if str_truthy provider then _ else _) with (Some provider) by (by destruct (str_truthy provider)). simpl.
  destruct (List.find _ _) as [d|] eqn:Hf; [|done]. apply find_exists in Hf as [Hin Hm]. rewrite E in Hin.
  rewrite Forall_forall in Hd. rewrite Hd in Hm; done.
Qed.

(** ** Concrete callbacks *)

Definition sns_url : url := Url "https:" "" "" "" "sns.eu-west-1.amazonaws.com" "/cert.pem".
Definition two_bounces : ses_msg :=
  SesMsg (Some "M1") (Some "Bounce") None (Some (Some "Permanent", [(Some "a@x.org", None); (Some "B@x.org ", None)], None)) None None None [].
Definition no_msg : ses_msg := SesMsg None None None None None None None [].
Definition notification : envelope :=
  Envelope (Some "Notification") (Some "m") (Some "id-1") None (Some "now") (Some "arn") None None (Some "sig") (Some "url") (Some "1").
Definition production : config := Config true None ["arn"] (Some "key").
Definition no_headers : request := Request false None None None None false.
Definition sg_headers : request := Request false None (Some "sig") (Some "1700000000") (Some []) false.
Definition online : call_env := Outside (fun _ => Some "pem") true true 1.
Definition nobody : world := World ∅ [] [] ∅ [].
Definition demo_call := call (fun s => s) (fun _ => Some sns_url) (fun _ _ _ _ => true) (fun _ _ _ => true) (fun _ => Some two_bounces) production 300.
Definition spam : sg_event := SgEvent (Some "P@x.org") None None (Some "spamreport") None None None.
Definition spam_call (now : Z) : op := OCall now online sg_headers (Parsed (PSendGrid [spam])).
Definition demo_student : student := Student "S" "1" (Some "p@x.org") None None false false None None None None.
Definition one_student : world := World ∅ [demo_student] [] ∅ [].

Lemma sendgrid_callback_once_witness :
  (effects "1700000000" "sig" (exec (fun s => s) (fun _ => None) (fun _ _ _ _ => true) (fun _ _ _ => true) (fun _ => None) production 300 86400
     [spam_call 1700000000000; spam_call 1700000100000; OExpire 1700086400000 "email:sendgrid:1700000000.sig"; spam_call 1700086400000] nobody).1 <= 1)%nat.
Proof.
  apply (sendgrid_callback_once _ _ _ _ _ _ 300 86400 _ _ _ 0); [lia|done|done|repeat constructor|].
  vm_compute; repeat split; discriminate.
Defined.

(** The first of those calls does take effect. *)
Example spam_takes_effect :
  (exec (fun s => s) (fun _ => None) (fun _ _ _ _ => true) (fun _ _ _ => true) (fun _ => None) production 300 86400
     [spam_call 1700000000000; spam_call 1700000100000; OExpire 1700086400000 "email:sendgrid:1700000000.sig"; spam_call 1700086400000] nobody).1.*2
  = [Some (Processed 1 1 0); Some Duplicate; None; Some (Refused 400 "TIMESTAMP_SKEW")].
Proof. vm_compute. reflexivity. Qed.

Lemma production_callbacks_authenticated_witness :
  exists p, Parsed (PSes notification no_msg) = Parsed p
    /\ authentic (fun s => s) (fun _ => Some sns_url) (fun _ _ _ _ => true) (fun _ _ _ => true) production (o_fetch online) no_headers p (m_certs nobody).
Proof.
  eapply (production_callbacks_authenticated _ _ _ _ (fun _ => Some two_bounces) production 300 5 online no_headers (Parsed (PSes notification no_msg)) nobody
    (demo_call 5 online no_headers (Parsed (PSes notification no_msg)) nobody).1 (demo_call 5 online no_headers (Parsed (PSes notification no_msg)) nobody).2).
  - reflexivity.
  - unfold demo_call. apply surjective_pairing.
  - intros E. apply (f_equal (fun x => bool_decide (is_Some (x.1.1.1 !! "a@x.org")))) in E. vm_compute in E. discriminate E.
Defined.

Lemma suppressed_never_mailed_witness :
  sendEmail 3 (Some " P@X.org") (fun _ => Ok "id")
    (exec (fun s => s) (fun _ => None) (fun _ _ _ _ => true) (fun _ _ _ => true) (fun _ => None) production 300 86400 [spam_call 1700000000000]
      (suppress (fun s => s) 1 (Some "p@x.org") (Some "manual") None None None one_student)).2 = (SuppressedRecipient, 0%nat).
Proof.
  apply (suppressed_never_mailed _ _ _ _ _ _ _ _ 3 "p@x.org"); [vm_compute; reflexivity| |vm_compute; reflexivity].
  constructor; [|constructor]. cbn. constructor; [|constructor]. by intros [? _].
Defined.

Lemma complaint_stops_mail_witness :
  let w' := (processEvent (fun s => s) 1 1 "sendgrid" (Event KComplaint (Some "P@x.org") None None None None None) one_student).1 in
  isSuppressed (Some "P@x.org") w' = true /\ all_opted_out (fun s => s) "p@x.org" w'.
Proof.
  apply (complaint_stops_mail (fun s => s) 1 1 "sendgrid" (Event KComplaint (Some "P@x.org") None None None None None) one_student _
    (processEvent (fun s => s) 1 1 "sendgrid" (Event KComplaint (Some "P@x.org") None None None None None) one_student).2);
    [reflexivity|vm_compute; reflexivity|apply surjective_pairing].
Defined.

(** A permanent bounce of two recipients of an untracked message: the callback
    fails after the first, the second is never suppressed, and the provider's
    redelivery is acknowledged as a duplicate. *)
Theorem failed_callback_is_not_retried :
  let '(r1, w1) := demo_call 5 online no_headers (Parsed (PSes notification no_msg)) nobody in
  let '(r2, w2) := demo_call 60000 online no_headers (Parsed (PSes notification no_msg)) w1 in
  r1 = Broken 500 /\ r2 = Duplicate /\ isSuppressed (Some "a@x.org") w2 = true /\ isSuppressed (Some "b@x.org") w2 = false.
Proof. vm_compute. done. Qed.

(** A soft bounce after a complaint lets mail through again. *)
Theorem soft_bounce_lifts_complaint :
  let w1 := recordComplaint (fun s => s) 1 (Some "p@x.org") (Some "ses") None nobody in
  let w2 := recordBounce (fun s => s) 2 (Some "p@x.org") (Some "soft") (Some "ses") None w1 in
  isSuppressed (Some "p@x.org") w1 = true /\ isSuppressed (Some "p@x.org") w2 = false.
Proof. vm_compute. done. Qed.

(** A message of SES is processed again once its nonce has expired: its own
    time stamp is not checked. *)
Theorem ses_replayed_after_expiry :
  let '(_, w1) := demo_call 5 online no_headers (Parsed (PSes notification no_msg)) nobody in
  let w2 := expire 86400 86400005 "email:ses:id-1" w1 in
  (demo_call 86400005 online no_headers (Parsed (PSes notification no_msg)) w2).1 = Broken 500.
Proof. vm_compute. reflexivity. Qed.

(** The signature of a generic callback covers the body only: with a new time
    stamp and a new delivery id the same body passes again, at any time. *)
Theorem generic_replay_accepted hmac TOLERANCE_SECONDS secret now t i w :
  verifySignature hmac (i_rawBody i) (i_signature i) secret = true ->
  str_truthy t = true -> within_tolerance TOLERANCE_SECONDS now t = true ->
  validateInboundWebhook hmac TOLERANCE_SECONDS (Some secret) now true (Inbound (i_signature i) (Some t) None (i_rawBody i)) w = (Ok tt, w).
Proof.
  intros Hv Ht Hw. unfold validateInboundWebhook. cbn [i_timestamp i_rawBody i_signature i_deliveryId]. rewrite Ht, Hw, Hv. cbn [negb].
  by rewrite andb_false_r.
Qed.

(** A second delivery without a message id is refused by the index. *)
Theorem second_queued_delivery_refused :
  let queued id := Delivery id "S" "1" "reminder" "generic" None "queued" None None None None None None in
  (createEmailDelivery 1 (queued 2) (createEmailDelivery 1 (queued 1) one_student).1).2 = Throw "E11000".
Proof. vm_compute. reflexivity. Qed.

(** A bounce an administrator enters without a type stops mail, while the
    student is not opted out and the model says it does not block. *)
Theorem untyped_bounce_disagrees :
  let w := (addSuppression (fun s => s) 1 (Some "p@x.org") (Some "bounce") None None one_student).2 in
  isSuppressed (Some "p@x.org") w = true /\ isBlocking <$> (m_suppressions w !! "p@x.org") = Some false
  /\ m_students w = m_students one_student.
Proof. vm_compute. done. Qed.

(** A late delivery report overwrites that the message was opened. *)
Theorem opened_goes_back_to_delivered :
  let d := Delivery 1 "S" "1" "reminder" "ses" (Some "M") "opened" None (Some 1) None (Some 2) None None in
  d_status <$> m_deliveries (processEvent (fun s => s) 5 2 "ses" (Event KDelivered None None None (Some "M") (Some 1) None) (World ∅ [] [d] ∅ [])).1
  = ["delivered"].
Proof. vm_compute. reflexivity. Qed.

(** The certificates of a process stay bounded. *)
Lemma cert_cache_bounded fetch u c : (length c <= CERT_CACHE_MAX)%nat -> (length (_fetchSigningCert fetch u c).2 <= CERT_CACHE_MAX)%nat.
Proof.
  intros H. unfold _fetchSigningCert. destruct (cached_cert c u); [done|]. destruct (fetch u); [|done]. cbn [snd]. rewrite length_app. cbn [length].
  destruct (Nat.leb_spec CERT_CACHE_MAX (length c)) as [Hc|Hc]; [rewrite length_drop|]; unfold CERT_CACHE_MAX in *; lia.
Qed.
End EmailEvents.
