(* ===== verification/Receipts.v ===== *)
(** Signed receipts: backend/src/services/receiptService.js with
    models/receiptModel.js, and the two receipt handlers of
    controllers/paymentAdminController.js.

    An amount is signed as the text of its stroop count, so that the way a
    number is printed does not matter.  The keyed hash, the printing of a
    number ([String(x)]) and the numeric reading of other texts ([Number(s)])
    are parameters; a date is its milliseconds, which its ISO text determines. *)

From Stdlib Require Import Ascii ZArith QArith Lia.
From stdpp Require Import base strings gmap countable pretty list.
From S2P Require Import Prelude JsNumber JsString StellarAmount.
Local Open Scope string_scope.
Local Open Scope Z_scope.
Local Open Scope list_scope.

Module Receipts.

(** ** Amounts as stroop texts *)

(** The parts of the numeric pattern: an optional sign, digits, optionally a
    point and digits, optionally an exponent, and nothing else. *)
Record literal := Literal { n_neg : bool; n_int : list ascii; n_frac : list ascii; n_exp : Z }.

Definition sign_of (l : list ascii) : bool * list ascii :=
  match l with
  | c :: l' => if Ascii.eqb c "-" then (true, l') else if Ascii.eqb c "+" then (false, l') else (false, l)
  | [] => (false, [])
  end.

(** The exponent, when there is one, ends the text. *)
Definition match_exp (l : list ascii) : option Z :=
  match l with
  | [] => Some 0
  | c :: l' =>
    if Ascii.eqb c "e" || Ascii.eqb c "E" then
      let '(neg, r) := sign_of l' in
      match span_digits r with
      | ([], _) => None
      | (d, []) => Some (if neg then - digits_val d else digits_val d)
      | _ => None
      end
    else None
  end.

Definition match_literal (l : list ascii) : option literal :=
  let '(neg, l1) := sign_of l in
  let '(i, l2) := span_digits l1 in
  let '(f, l3) := match l2 with "."%char :: r => span_digits r | _ => ([], l2) end in
  (fun e => Literal neg i f e) <$> match_exp l3.

(** The digits after moving the point by the exponent: before and after it. *)
Definition shifted (n : literal) : list ascii * list ascii :=
  let intPart := default_digits (n_int n) in
  let digits := intPart ++ n_frac n in
  let pointPos := Z.of_nat (length intPart) + n_exp n in
  let '(digits, pointPos) := if pointPos <? 0 then (replicate (Z.to_nat (- pointPos)) "0"%char ++ digits, 0) else (digits, pointPos) in
  let digits := if Z.of_nat (length digits) <? pointPos
                then digits ++ replicate (Z.to_nat pointPos - length digits) "0"%char else digits in
  (take (Z.to_nat pointPos) digits, drop (Z.to_nat pointPos) digits).

Definition literal_stroops (n : literal) : Z :=
  let '(whole, frac) := shifted n in
  let fracPadded := take 7 (frac ++ chars "0000000") in
  digits_val (default_digits whole) * 10000000 + digits_val (default_digits fracPadded).

(** [sign + stroops.toString()] *)
Definition literal_text (n : literal) : string :=
  text ((if n_neg n then ["-"%char] else []) ++ dec_digits (literal_stroops n)).

Section Service.
Variable Number : string -> number.      (** [Number(str)] *)
Variable js_text : number -> string.     (** [String(x)] *)

Definition stroops_of_text (str : string) : string :=
  let t := trim (chars str) in
  match t with
  | [] => "0"
  | _ =>
    match match_literal t with
    | Some n => literal_text n
    | None =>
      match Number (text t) with
      | Fin q => match toFixed (Fin q) 7 ≫= match_literal with Some n => literal_text n | None => "0" end
      | _ => "0"
      end
    end
  end.

Definition toStroopsString (amount : option number) : string :=
  match amount with None => "0" | Some x => stroops_of_text (js_text x) end.

(** ** Receipts *)

Record receipt := Receipt {
  rc_txHash : string; rc_opIndex : Z; rc_studentId : string; rc_studentName : option string; rc_schoolId : string;
  rc_schoolName : option string; rc_amount : number; rc_assetCode : option string; rc_feeAmount : option number;
  rc_feeValidationStatus : string; rc_memo : option string; rc_confirmedAt : Z; rc_signature : option string }.

(** The signed object; its keys are already in order. *)
Record payload := Payload {
  y_amount : string; y_assetCode : string; y_confirmedAt : Z; y_opIndex : Z; y_schoolId : string; y_studentId : string; y_txHash : string }.

Definition or_XLM (asset : option string) : string := match asset with Some a => str_or a "XLM" | None => "XLM" end.

Definition buildCanonicalPayload (r : receipt) : payload :=
  Payload (toStroopsString (Some (rc_amount r))) (or_XLM (rc_assetCode r)) (rc_confirmedAt r) (rc_opIndex r)
    (rc_schoolId r) (rc_studentId r) (rc_txHash r).

(** HMAC-SHA256 of the JSON text under the secret, in hexadecimal. *)
Variable hmac : string -> payload -> string.
Variable secret : option string.         (** RECEIPT_SIGNATURE_SECRET *)

Definition generateReceiptSignature (r : receipt) : result string string :=
  match secret with
  | Some k => if str_truthy k then Ok (hmac k (buildCanonicalPayload r)) else Throw "RECEIPT_SIGNATURE_SECRET is not set"
  | None => Throw "RECEIPT_SIGNATURE_SECRET is not set"
  end.

(** Buffers of different lengths are unequal without a comparison; equal
    buffers are equal texts. *)
Definition verifyReceiptSignature (r : receipt) : result string bool :=
  match rc_signature r with
  | None => Ok false
  | Some s => if negb (str_truthy s) then Ok false else
    expected ← generateReceiptSignature r; Ok (bool_decide (s = expected))
  end.

(** A payment as [createReceipt] reads it. *)
Record paid := Paid {
  pd_schoolId : string; pd_txHash : string; pd_opIndex : option Z; pd_studentId : string; pd_amount : number;
  pd_assetCode : option string; pd_feeAmount : option number; pd_feeValidationStatus : option string; pd_memo : option string;
  pd_confirmedAt : option Z }.

(** [feeAmount || null]: zero and NaN are falsy. *)
Definition number_or_null (x : option number) : option number :=
  match x with Some (Fin q) => if Qeq_bool q 0 then None else x | Some (Infinity _) => x | _ => None end.

Definition text_or_null (x : option string) : option string :=
  match x with Some s => if str_truthy s then x else None | None => None end.

Definition is_receipt (schoolId txHash : string) (opIndex : Z) (r : receipt) : bool :=
  bool_decide (rc_schoolId r = schoolId) && bool_decide (rc_txHash r = txHash) && bool_decide (rc_opIndex r = opIndex).

Definition receipt_doc (now : Z) (studentName schoolName : option string) (p : paid) : receipt :=
  Receipt (pd_txHash p) (default 0 (pd_opIndex p)) (pd_studentId p) studentName (pd_schoolId p) schoolName (pd_amount p)
    (Some (or_XLM (pd_assetCode p))) (number_or_null (pd_feeAmount p)) (default "unknown" (text_or_null (pd_feeValidationStatus p)))
    (text_or_null (pd_memo p)) (default now (pd_confirmedAt p)) None.

Definition with_signature (s : string) (r : receipt) : receipt :=
  Receipt (rc_txHash r) (rc_opIndex r) (rc_studentId r) (rc_studentName r) (rc_schoolId r) (rc_schoolName r) (rc_amount r)
    (rc_assetCode r) (rc_feeAmount r) (rc_feeValidationStatus r) (rc_memo r) (rc_confirmedAt r) (Some s).

(** The upsert: an existing receipt is returned as it is. *)
Definition createReceipt (now : Z) (studentName schoolName : option string) (p : paid) (rs : list receipt)
  : result string (receipt * list receipt) :=
  let doc := receipt_doc now studentName schoolName p in
  s ← generateReceiptSignature doc;
  match List.find (is_receipt (rc_schoolId doc) (rc_txHash doc) (rc_opIndex doc)) rs with
  | Some r => Ok (r, rs)
  | None => let r := with_signature s doc in Ok (r, rs ++ [r])
  end.

Definition getReceiptByTxHash (txHash schoolId : string) (opIndex : Z) (rs : list receipt) : option receipt :=
  List.find (is_receipt schoolId txHash opIndex) rs.

(** ** The handlers *)

Inductive answer := Found (r : receipt) | Created (r : receipt) | NotFound | Failed (why : string).

Definition RECEIPT_STATUSES : list string := ["valid"; "overpaid"; "underpaid"; "unknown"].

(** [Receipt.create] runs the validators of the schema, and the index on
    school, transaction and operation is unique. *)
Definition generateReceipt (schoolId txHash : string) (confirmed : list paid) (rs : list receipt) : answer * list receipt :=
  match List.find (fun r => bool_decide (rc_txHash r = txHash) && bool_decide (rc_schoolId r = schoolId)) rs with
  | Some r => (Found r, rs)
  | None =>
    match List.find (fun p => bool_decide (pd_txHash p = txHash) && bool_decide (pd_schoolId p = schoolId)) confirmed with
    | None => (NotFound, rs)
    | Some p =>
      match pd_confirmedAt p with
      | None => (Failed "ValidationError", rs)
      | Some c =>
        let status := default "unknown" (pd_feeValidationStatus p) in
        if negb (bool_decide (status ∈ RECEIPT_STATUSES)) then (Failed "ValidationError", rs) else
        let r := Receipt (pd_txHash p) 0 (pd_studentId p) None (pd_schoolId p) None (pd_amount p) (Some (or_XLM (pd_assetCode p)))
                   (pd_feeAmount p) status (pd_memo p) c None in
        (Created r, rs ++ [r])
      end
    end
  end.

(** [None] for a receipt that is not there; otherwise [valid]. *)
Definition verifyReceipt (r : option receipt) : option bool :=
  match r with
  | None => None
  | Some r => Some (match verifyReceiptSignature r with Ok b => b | Throw _ => false end)
  end.
End Service.

(** ** What the stroop text is *)

Abbreviation digits l := (Forall (fun c => is_digit c = true) l).

Lemma digits_val_nonneg l : digits l -> 0 <= digits_val l.
Proof. intros H. by apply digits_val_range in H as [? _]. Qed.

Lemma fraction_stroops F : digits F ->
  digits_val (take 7 (F ++ chars "0000000")) = digits_val F * 10 ^ 7 / 10 ^ Z.of_nat (length F).
Proof.
  intros HF. destruct (Nat.le_gt_cases (length F) 7) as [Hle|Hgt].
  - rewrite take_app_ge by lia. rewrite digits_val_app.
    replace (digits_val (take (7 - length F) (chars "0000000"))) with 0.
    2:{ change (chars "0000000") with (replicate 7 "0"%char). by rewrite take_replicate, digits_val_zeros. }
    rewrite length_take. change (length (chars "0000000")) with 7%nat.
    replace (10 ^ 7) with (10 ^ Z.of_nat (7 - length F) * 10 ^ Z.of_nat (length F)).
    2:{ rewrite <- Z.pow_add_r by lia. f_equal. lia. }
    rewrite Z.mul_assoc, Z.div_mul by (apply Z.pow_nonzero; lia).
    rewrite Nat.min_l by lia. lia.
  - rewrite take_app_le by lia.
    assert (F = take 7 F ++ drop 7 F) as EF by (by rewrite take_drop).
    set (A := take 7 F) in *. set (R := drop 7 F) in *.
    assert (digits A /\ digits R) as [HA HR] by (rewrite EF in HF; by apply Forall_app in HF).
    assert (length F = 7 + length R)%nat as El by (unfold R; rewrite length_drop; lia).
    replace (digits_val F) with (digits_val (A ++ R)) by (by rewrite <- EF). rewrite digits_val_app, El.
    replace (Z.of_nat (7 + length R)) with (Z.of_nat (length R) + 7) by lia.
    rewrite Z.pow_add_r by lia. rewrite Z.div_mul_cancel_r by (try apply Z.pow_nonzero; lia).
    pose proof (digits_val_range _ HR). symmetry. rewrite Z.div_add_l by (apply Z.pow_nonzero; lia).
    rewrite Z.div_small by lia. lia.
Qed.

(** Splitting digits at a point. *)
Lemma split_stroops ds k : digits ds -> (k <= length ds)%nat ->
  digits_val (take k ds) * 10000000 + digits_val (take 7 (drop k ds ++ chars "0000000"))
  = digits_val ds * 10 ^ 7 / 10 ^ Z.of_nat (length ds - k).
Proof.
  intros Hd Hk. assert (digits (take k ds) /\ digits (drop k ds)) as [H1 H2] by (rewrite <- (take_drop k ds) in Hd; by apply Forall_app in Hd).
  rewrite fraction_stroops by done. rewrite length_drop.
  replace (digits_val ds) with (digits_val (take k ds ++ drop k ds)) by (by rewrite take_drop). rewrite digits_val_app, length_drop.
  set (m := Z.of_nat (length ds - k)).
  replace ((digits_val (take k ds) * 10 ^ m + digits_val (drop k ds)) * 10 ^ 7)
    with (digits_val (take k ds) * 10 ^ 7 * 10 ^ m + digits_val (drop k ds) * 10 ^ 7) by ring.
  rewrite Z.div_add_l by (apply Z.pow_nonzero; lia). reflexivity.
Qed.

Lemma default_digits_digits l : digits l -> digits (default_digits l).
Proof. destruct l; [by repeat constructor|done]. Qed.

Lemma default_digits_val_app l r : digits_val (default_digits l ++ r) = digits_val (l ++ r).
Proof. destruct l; [|done]. cbn [default_digits]. by rewrite (digits_val_app ["0"%char]), (digits_val_app []). Qed.

Lemma take_nonempty_default l : digits_val (default_digits l) = digits_val l.
Proof. by destruct l. Qed.

(** The stroop count of a literal is its value times 10^7, cut off after the
    point. *)
Lemma literal_stroops_value n : digits (n_int n) -> digits (n_frac n) ->
  literal_stroops n =
    let m := Z.of_nat (length (n_frac n)) - n_exp n in
    let D := digits_val (n_int n ++ n_frac n) in
    if 0 <=? m then D * 10 ^ 7 / 10 ^ m else D * 10 ^ 7 * 10 ^ (- m).
Proof.
  intros HI HF. unfold literal_stroops, shifted. cbv zeta. set (I := default_digits (n_int n)).
  assert (digits (I ++ n_frac n)) as Hd by (apply Forall_app; split; [by apply default_digits_digits|done]).
  assert (forall k, digits (replicate k "0"%char)) as Hz by (intros k; apply Forall_replicate; reflexivity).
  rewrite <- (default_digits_val_app (n_int n)). fold I.
  destruct (Z.ltb_spec (Z.of_nat (length I) + n_exp n) 0) as [Hp|Hp].
  - rewrite (proj2 (Z.ltb_ge _ _)) by lia. change (Z.to_nat 0) with 0%nat. rewrite !take_nonempty_default.
    set (ds := replicate _ _ ++ _). assert (digits ds) as Hds by (apply Forall_app; auto).
    rewrite split_stroops by (done || lia). rewrite Nat.sub_0_r.
    assert (length ds = Z.to_nat (- (Z.of_nat (length I) + n_exp n)) + length (I ++ n_frac n))%nat as El.
    { unfold ds. by rewrite length_app, length_replicate. }
    rewrite length_app in El. rewrite (proj2 (Z.leb_le _ _)) by lia.
    replace (digits_val ds) with (digits_val (I ++ n_frac n)) by (unfold ds; rewrite (digits_val_app (replicate _ _)), digits_val_zeros; lia).
    do 2 f_equal. lia.
  - set (pp := Z.of_nat (length I) + n_exp n) in *. rewrite length_app.
    destruct (Z.ltb_spec (Z.of_nat (length I + length (n_frac n))) pp) as [Hq|Hq].
    + set (ds := _ ++ replicate _ _). assert (digits ds) as Hds by (apply Forall_app; auto).
      assert (length ds = Z.to_nat pp) as El by (unfold ds; rewrite !length_app, length_replicate; lia).
      rewrite !take_nonempty_default. rewrite split_stroops by (done || lia). rewrite El, Nat.sub_diag. cbn [Z.of_nat Z.pow].
      rewrite Z.div_1_r. rewrite (proj2 (Z.leb_gt _ _)) by lia. unfold ds. rewrite (digits_val_app (I ++ n_frac n)), digits_val_zeros, length_replicate, Z.add_0_r.
      replace (Z.of_nat (Z.to_nat pp - (length I + length (n_frac n)))) with (- (Z.of_nat (length (n_frac n)) - n_exp n)) by lia. ring.
    + rewrite !take_nonempty_default. rewrite split_stroops by (done || rewrite length_app; lia).
      rewrite (proj2 (Z.leb_le _ _)) by lia. rewrite length_app. do 2 f_equal. lia.
Qed.

Lemma match_decimal I F : digits I -> digits F -> match_literal (decimal_text false I F) = Some (Literal false I F 0).
Proof.
  intros HI HF. unfold match_literal, decimal_text. cbn [app].
  assert (sign_of (I ++ "."%char :: F) = (false, I ++ "."%char :: F)) as ->.
  { destruct HI as [|c I Hc HI]; [done|]. cbn. destruct (Ascii.eqb_spec c "-") as [->|]; [done|]. by destruct (Ascii.eqb_spec c "+") as [->|]. }
  rewrite span_digits_app; [|done|by intros c r [= <- _]]. rewrite <- (app_nil_r F) at 1. rewrite span_digits_app; done.
Qed.

(** Up to seven decimals the receipt signs exactly the stroops that the amount
    arithmetic computes from the same text. *)
Theorem receipt_amount_agrees Number I F z :
  digits I -> digits F -> I ++ F <> [] -> (length F <= DECIMALS)%nat ->
  toStroops_text (decimal_text false I F) = Ok z ->
  stroops_of_text Number (text (decimal_text false I F)) = text (dec_digits z).
Proof.
  intros HI HF Hne Hl Hz. unfold stroops_of_text. rewrite chars_text.
  rewrite trim_id by (by apply decimal_text_not_space).
  assert (decimal_text false I F <> []) as Hnn by (unfold decimal_text; destruct I; done).
  destruct (decimal_text false I F) as [|c l] eqn:E; [done|]. rewrite <- E in *. rewrite match_decimal by done.
  unfold literal_text. cbn [n_neg app]. do 2 f_equal. rewrite literal_stroops_value by done. cbn [n_int n_frac n_exp]. cbv zeta.
  rewrite (proj2 (Z.leb_le _ _)) by lia. rewrite toStroops_decimal in Hz by done. cbv zeta in Hz. injection Hz as <-.
  rewrite (proj2 (Nat.ltb_ge _ _)) by done. cbn [andb]. rewrite take_zeros_val by done. rewrite digits_val_app, Z.sub_0_r.
  unfold STROOPS_PER_UNIT, DECIMALS in *. set (k := Z.of_nat (length F)) in *.
  replace (10 ^ 7) with (10 ^ (7 - k) * 10 ^ k) by (rewrite <- Z.pow_add_r by lia; f_equal; lia).
  rewrite Z.mul_assoc, Z.div_mul by (apply Z.pow_nonzero; lia).
  replace 10000000 with (10 ^ k * 10 ^ (7 - k)) by (rewrite <- Z.pow_add_r by lia; replace (k + (7 - k)) with 7 by lia; done). ring.
Qed.

(** Beyond that it cuts off where the arithmetic rounds. *)
Theorem receipt_amount_cut_off :
  stroops_of_text (fun _ => NaN) "0.7999999999999999" = "7999999" /\ toStroops (AString "0.7999999999999999") = Ok 8000000
  /\ stroops_of_text (fun _ => NaN) "1e-7" = "1" /\ toStroops (AString "1e-7") = Throw TypeError.
Proof. vm_compute. done. Qed.

(** ** Signatures *)

Section Signed.
Variable Number : string -> number.
Variable js_text : number -> string.
Variable hmac : string -> payload -> string.

Lemma verified_signature key r : verifyReceiptSignature Number js_text hmac (Some key) r = Ok true ->
  rc_signature r = Some (hmac key (buildCanonicalPayload Number js_text r)).
Proof.
  unfold verifyReceiptSignature, generateReceiptSignature. destruct (rc_signature r) as [s|]; [|done].
  destruct (negb _); [done|]. destruct (str_truthy key); [|done]. cbn. intros [= H%bool_decide_eq_true]. by rewrite H.
Qed.

(** Two receipts that verify with the same signature agree in every signed
    field: amount in stroops, asset, time, operation, school, student,
    transaction. *)
Theorem receipt_tamper_evident key r r' :
  (forall a b, hmac key a = hmac key b -> a = b) ->
  verifyReceiptSignature Number js_text hmac (Some key) r = Ok true ->
  verifyReceiptSignature Number js_text hmac (Some key) r' = Ok true ->
  rc_signature r = rc_signature r' ->
  buildCanonicalPayload Number js_text r = buildCanonicalPayload Number js_text r'.
Proof. intros Hinj H%verified_signature H'%verified_signature E. apply Hinj. congruence. Qed.

(** *** Creating receipts in any order, by either way *)

Variable secret : option string.
Hypothesis hmac_text : forall key p, str_truthy (hmac key p) = true.

Record request := Request { qr_now : Z; qr_student : option string; qr_school : option string; qr_payment : paid }.

(** A receipt is asked of the service, or of POST /:txHash/receipt, which sees
    the confirmed payments. *)
Inductive event :=
| Issue (q : request)
| Handled (schoolId txHash : string) (confirmed : list paid).

Definition serve (ev : event) (rs : list receipt) : option receipt * list receipt :=
  match ev with
  | Issue q =>
    match createReceipt Number js_text hmac secret (qr_now q) (qr_student q) (qr_school q) (qr_payment q) rs with
    | Ok (r, rs') => (Some r, rs')
    | Throw _ => (None, rs)
    end
  | Handled schoolId txHash confirmed =>
    match generateReceipt schoolId txHash confirmed rs with
    | (Found r, rs') | (Created r, rs') => (Some r, rs')
    | (_, rs') => (None, rs')
    end
  end.

(** The receipts after the events, and what each one was answered with. *)
Fixpoint serve_all (evs : list event) (rs : list receipt) : list (option receipt) * list receipt :=
  match evs with
  | [] => ([], rs)
  | ev :: evs' => let '(o, rs1) := serve ev rs in let '(out, rs2) := serve_all evs' rs1 in (o :: out, rs2)
  end.

Definition receipt_key (r : receipt) : string * string * Z := (rc_schoolId r, rc_txHash r, rc_opIndex r).
Definition payment_key (p : paid) : string * string * Z := (pd_schoolId p, pd_txHash p, default 0 (pd_opIndex p)).

(** The receipt says whose payment it is and how much was paid. *)
Definition describes (p : paid) (r : receipt) : Prop :=
  rc_schoolId r = pd_schoolId p /\ rc_txHash r = pd_txHash p /\ rc_studentId r = pd_studentId p /\ rc_amount r = pd_amount p.

(** Where a receipt comes from: the service signed it for that operation, or the
    handler made it, unsigned and for operation 0. *)
Definition signed_for (q : request) (r : receipt) : Prop :=
  describes (qr_payment q) r /\ receipt_key r = payment_key (qr_payment q) /\
  verifyReceiptSignature Number js_text hmac secret r = Ok true.
Definition unsigned_for (txHash : string) (confirmed : list paid) (r : receipt) : Prop :=
  (exists p, (p ∈ confirmed) /\ describes p r) /\ rc_txHash r = txHash /\ rc_opIndex r = 0 /\ rc_signature r = None.
Definition source (ev : event) (r : receipt) : Prop :=
  match ev with Issue q => signed_for q r | Handled schoolId txHash confirmed => unsigned_for txHash confirmed r /\ rc_schoolId r = schoolId end.

Definition has_secret : bool := match secret with Some k => str_truthy k | None => false end.

(** What an event is answered with, among the receipts [rs] there are at the end. *)
Definition answered (rs : list receipt) (ev : event) (o : option receipt) : Prop :=
  match ev, o with
  | Issue q, Some r => (r ∈ rs) /\ receipt_key r = payment_key (qr_payment q)
  | Issue q, None => has_secret = false
  | Handled schoolId txHash _, Some r => (r ∈ rs) /\ rc_schoolId r = schoolId /\ rc_txHash r = txHash
  | Handled _ _ _, None => True
  end.

Lemma is_receipt_key k r : is_receipt k.1.1 k.1.2 k.2 r = true <-> receipt_key r = k.
Proof.
  unfold is_receipt, receipt_key. rewrite !andb_true_iff, !bool_decide_eq_true. destruct k as [[a b] c]; cbn.
  split; [by intros [[-> ->] ->]|by intros [= -> -> ->]].
Qed.

(** One event: at most one receipt is added, of a new operation and with a source. *)
Lemma serve_spec ev rs : let '(o, rs') := serve ev rs in
  (rs' = rs \/ exists r, rs' = rs ++ [r] /\ (receipt_key r ∉ map receipt_key rs) /\ source ev r) /\ answered rs' ev o.
Proof.
  destruct ev as [q|sid tx cs]; cbn [serve].
  - unfold createReceipt. set (doc := receipt_doc _ _ _ _). unfold generateReceiptSignature. destruct secret as [k|] eqn:Es.
    2: { split; [by left|]. cbn. unfold has_secret. by rewrite Es. }
    destruct (str_truthy k) eqn:Ek; [|split; [by left|]; cbn; unfold has_secret; by rewrite Es].
    cbn [mbind result_bind]. destruct (List.find _ rs) as [r|] eqn:Hf.
    + apply find_exists in Hf as [Hin Hr]. split; [by left|]. cbn. split; [done|]. by apply (is_receipt_key (payment_key (qr_payment q))).
    + split; [right|].
      * eexists. split; [done|]. split.
        -- intros Hin. apply list_elem_of_fmap in Hin as (r & E & Hr). pose proof (find_none_forall _ _ Hf _ Hr) as Hn.
           symmetry in E. apply is_receipt_key in E. exact (eq_true_false_abs _ E Hn).
        -- split; [done|]. split; [done|]. unfold verifyReceiptSignature, generateReceiptSignature.
           cbn [rc_signature with_signature]. rewrite hmac_text, Es, Ek. cbn. by rewrite bool_decide_true.
      * cbn. split; [|done]. apply elem_of_app. right. constructor.
  - unfold generateReceipt. destruct (List.find _ rs) as [r|] eqn:Hf.
    + apply find_exists in Hf as [Hin Hr]. rewrite andb_true_iff, !bool_decide_eq_true in Hr. split; [by left|]. cbn. tauto.
    + destruct (List.find _ cs) as [p|] eqn:Hp; [|split; [by left|done]]. apply find_exists in Hp as [Hpin Hp].
      rewrite andb_true_iff, !bool_decide_eq_true in Hp. destruct Hp as [Hp1 Hp2].
      destruct (pd_confirmedAt p) as [c|]; [|split; [by left|done]]. destruct (negb _); [split; [by left|done]|].
      split; [right|].
      * eexists. split; [done|]. split.
        -- intros Hin. apply list_elem_of_fmap in Hin as (r & E & Hr). pose proof (find_none_forall _ _ Hf _ Hr) as Hn.
           unfold receipt_key in E. cbn in E. injection E as E1 E2 E3. cbn in Hn. rewrite <- E1, <- E2, Hp1, Hp2 in Hn.
           by rewrite !bool_decide_true in Hn.
        -- split; [|done]. split; [by exists p|]. by cbn.
      * cbn. split; [|done]. apply elem_of_app. right. constructor.
Qed.

Lemma serve_all_ok evs : forall rs, NoDup (map receipt_key rs) ->
  let '(out, rs') := serve_all evs rs in
  NoDup (map receipt_key rs') /\ (rs `prefix_of` rs') /\
  (forall r, r ∈ rs' -> (r ∈ rs) \/ exists ev, (ev ∈ evs) /\ source ev r) /\
  Forall2 (answered rs') evs out.
Proof.
  induction evs as [|ev evs IH]; intros rs Hnd; cbn [serve_all]; [by split_and!; auto|].
  pose proof (serve_spec ev rs) as Hs. destruct (serve ev rs) as [o rs1]. destruct Hs as [Hrs Ha].
  assert (Hnd1 : NoDup (map receipt_key rs1)).
  { destruct Hrs as [->|(r & -> & Hn & _)]; [done|]. rewrite map_app. apply NoDup_app. split; [done|]. split; [|by apply NoDup_singleton].
    intros k Hk1 Hk2. cbn in Hk2. by apply list_elem_of_singleton in Hk2 as ->. }
  specialize (IH rs1 Hnd1). destruct (serve_all evs rs1) as [out rs2]. destruct IH as (K1 & K2 & K3 & K4).
  assert (Hpre : rs `prefix_of` rs1) by (destruct Hrs as [->|(r & -> & _)]; [done|by apply prefix_app_r]).
  split_and!; [done|by etrans| |].
  - intros r Hr. destruct (K3 r Hr) as [Hr1|(ev' & Hev & Hsrc)]; [|right; exists ev'; split; [by constructor|done]].
    destruct Hrs as [->|(r0 & -> & _ & Hsrc)]; [by left|]. apply elem_of_app in Hr1 as [|Hr1]; [by left|right].
    apply list_elem_of_singleton in Hr1 as ->. exists ev. split; [constructor|done].
  - constructor; [|done]. assert (Hmono : forall r, r ∈ rs1 -> r ∈ rs2) by (intros r Hr; destruct K2 as [l ->]; apply elem_of_app; by left).
    destruct ev, o as [r|]; cbn in *; [|done| |done]; destruct Ha; split; auto.
Qed.
End Signed.

(** C39: receipts asked of the service and of POST /:txHash/receipt, in any order
    and with or without a configured secret.  There is never more than one
    receipt per school, transaction and operation, and none is ever changed or
    removed.  Every receipt names the school, transaction, student and amount of
    a payment it was asked for, and either the service signed it, for that
    operation, with a signature that verifies, or the handler made it, for
    operation 0 and without a signature (such a receipt never verifies, and the
    service answers with it from then on).  Every request to the service is
    answered with the receipt of its operation, unless no secret is configured:
    then it fails. *)
Theorem receipts_one_per_operation Number js_text hmac secret evs :
  (forall key p, str_truthy (hmac key p) = true) ->
  let '(out, rs) := serve_all Number js_text hmac secret evs [] in
  NoDup (map receipt_key rs) /\
  (forall r, r ∈ rs -> exists ev, (ev ∈ evs) /\ source Number js_text hmac secret ev r) /\
  Forall2 (answered secret rs) evs out /\
  (forall more, rs `prefix_of` (serve_all Number js_text hmac secret more rs).2).
Proof.
  intros Ht. pose proof (serve_all_ok Number js_text hmac secret Ht evs [] ltac:(constructor)) as H.
  destruct (serve_all _ _ _ _ _ _) as [out rs]. destruct H as (H1 & _ & H3 & H4). split_and!; [done| |done|].
  - intros r Hr. destruct (H3 r Hr) as [Hr'|]; [by apply elem_of_nil in Hr'|done].
  - intros more. pose proof (serve_all_ok Number js_text hmac secret Ht more rs H1) as K. destruct (serve_all _ _ _ _ _ _). apply K.
Qed.

(** ** Concrete receipts *)

Definition demo_hmac (key : string) (p : payload) : string :=
  key +:+ ":" +:+ y_amount p +:+ ":" +:+ y_txHash p.
Definition demo_payment : paid := Paid "SCH" "ab" None "S-1" (Fin 5) None None (Some "partial") None (Some 7).
Definition demo_request : request := Request 9 (Some "Ada") None demo_payment.

Lemma receipt_amount_agrees_witness :
  stroops_of_text (fun _ => NaN) (text (decimal_text false (chars "12") (chars "5"))) = text (dec_digits 125000000).
Proof.
  apply (receipt_amount_agrees (fun _ => NaN) (chars "12") (chars "5") 125000000);
    [by_decision|by_decision|discriminate|vm_compute; lia|vm_compute; reflexivity].
Defined.

Definition full_hmac (key : string) (p : payload) : string :=
  pretty (Npos (encode (y_amount p, y_assetCode p, y_confirmedAt p, y_opIndex p, (y_schoolId p, y_studentId p, y_txHash p)))).

Lemma full_hmac_inj key a b : full_hmac key a = full_hmac key b -> a = b.
Proof.
  unfold full_hmac. intros H%(inj pretty). injection H as H. apply (inj encode) in H. destruct a, b. cbn in H. naive_solver.
Qed.

Definition demo_receipt (name : option string) : receipt :=
  with_signature (full_hmac "k" (Payload "50000000" "XLM" 7 0 "SCH" "S-1" "ab"))
    (Receipt "ab" 0 "S-1" name "SCH" None (Fin 5) (Some "XLM") None "partial" None 7 None).

Lemma receipt_tamper_evident_witness :
  buildCanonicalPayload (fun _ => NaN) (fun _ => "5") (demo_receipt None) = buildCanonicalPayload (fun _ => NaN) (fun _ => "5") (demo_receipt (Some "Ada")).
Proof.
  apply (receipt_tamper_evident (fun _ => NaN) (fun _ => "5") full_hmac "k" _ _ (full_hmac_inj "k")); vm_compute; reflexivity.
Defined.

Definition demo_events : list event :=
  [Handled "SCH" "cd" [Paid "SCH" "cd" None "S-2" (Fin 3) None None (Some "valid") None (Some 8)]; Issue demo_request; Issue demo_request].
Lemma receipts_one_per_operation_witness :
  let '(out, rs) := serve_all (fun _ => NaN) (fun _ => "5") demo_hmac (Some "k") demo_events [] in
  NoDup (map receipt_key rs) /\ Forall2 (answered (Some "k") rs) demo_events out.
Proof.
  pose proof (receipts_one_per_operation (fun _ => NaN) (fun _ => "5") demo_hmac (Some "k") demo_events) as H.
  destruct (serve_all _ _ _ _ _ _) as [out rs]. destruct H as (H1 & _ & H3 & _); [|split; assumption].
  intros key p. unfold demo_hmac. destruct key; reflexivity.
Defined.

Example second_request_finds_first :
  map (fun r => (rc_txHash r, bool_decide (rc_signature r = None))) (serve_all (fun _ => NaN) (fun _ => "5") demo_hmac (Some "k") demo_events []).2
  = [("cd", true); ("ab", false)].
Proof. vm_compute. reflexivity. Qed.

(** A receipt issued by the administrative handler carries no signature, so it
    never verifies, and it blocks the signed one. *)
Theorem handler_receipt_never_verifies Number js_text hmac secret schoolId txHash confirmed rs r rs' :
  generateReceipt schoolId txHash confirmed rs = (Created r, rs') ->
  verifyReceipt Number js_text hmac secret (Some r) = Some false.
Proof.
  unfold generateReceipt. destruct (List.find _ rs); [done|]. destruct (List.find _ confirmed) as [p|]; [|done].
  destruct (pd_confirmedAt p); [|done]. destruct (negb _); [done|]. by intros [= <- _].
Qed.

(** For a partial payment the handler fails: the schema of receipts does not
    know the status, which the updating path never checks. *)
Theorem partial_payment_has_no_receipt :
  (generateReceipt "SCH" "ab" [demo_payment] []).1 = Failed "ValidationError"
  /\ exists r rs, createReceipt (fun _ => NaN) (fun _ => "5") demo_hmac (Some "k") 9 None None demo_payment [] = Ok (r, rs)
       /\ rc_feeValidationStatus r = "partial".
Proof. split; [vm_compute; reflexivity|]. eexists _, _. vm_compute. done. Qed.
End Receipts.
