(* ===== verification/PaymentOps.v ===== *)
(** The operational handlers of
    backend/src/controllers/paymentAdminController.js: locks on payment rows,
    the listing and retrying of dead-letter jobs, the review of suspicious
    payments, the refund routes over Refund, and the manual synchronisation
    under the distributed lock.  A Module for each.

    What a handler calls in another component is that component's function, or
    an argument when it is outside (the job queue, the synchronisation). *)

From Stdlib Require Import ZArith Lia Sorting.Sorted.
From stdpp Require Import base strings gmap pretty list.
From S2P Require Import Prelude JsNumber JsString ModelPlugins Confirmation PaymentStatus PaymentModel PaymentAdmin DistributedLock Refund.
Local Open Scope string_scope.
Local Open Scope Z_scope.
Local Open Scope list_scope.

(** ** Locks on payment rows *)

Module RowLock.

Record row := Row { w_id : Z; w_schoolId : string; w_deletedAt : option Z; w_lockedUntil : option Z; w_lockHolder : option string }.

Definition DEFAULT_LOCK_MS : Z := 30000.

Inductive answer := Locked (lockId : string) (until : Z) | AlreadyLocked (until : option Z) | Unlocked | NotFound | Invalid.

Definition own_row (schoolId : string) (paymentId : Z) (r : row) : bool :=
  (w_id r =? paymentId) && bool_decide (w_schoolId r = schoolId) && bool_decide (w_deletedAt r = None).

Definition free (now : Z) (r : row) : bool := match w_lockedUntil r with None => true | Some t => t <=? now end.

(** [findOneAndUpdate]: the ids of a collection are unique. *)
Definition set_lock (p : row -> bool) (until : option Z) (holder : option string) (rs : list row) : list row :=
  map (fun r => if p r then Row (w_id r) (w_schoolId r) (w_deletedAt r) until holder else r) rs.

(** [lockDurationMs || 30000]; [lockId] is the fresh text the handler makes. *)
Definition lockPaymentForUpdate (now : Z) (lockId schoolId : string) (paymentId : Z) (lockDurationMs : option Z) (rs : list row)
  : answer * list row :=
  let duration := match lockDurationMs with Some d => if d =? 0 then DEFAULT_LOCK_MS else d | None => DEFAULT_LOCK_MS end in
  let deadline := now + duration in
  if existsb (fun r => own_row schoolId paymentId r && free now r) rs
  then (Locked lockId deadline, set_lock (fun r => own_row schoolId paymentId r && free now r) (Some deadline) (Some lockId) rs)
  else match List.find (own_row schoolId paymentId) rs with
       | None => (NotFound, rs)
       | Some r => (AlreadyLocked (w_lockedUntil r), rs)
       end.

Definition unlockPayment (schoolId : string) (paymentId : Z) (lockId : option string) (rs : list row) : answer * list row :=
  match lockId with
  | None => (Invalid, rs)
  | Some id =>
    if negb (str_truthy id) then (Invalid, rs) else
    let mine r := own_row schoolId paymentId r && bool_decide (w_lockHolder r = Some id) in
    if existsb mine rs then (Unlocked, set_lock mine None None rs) else (NotFound, rs)
  end.

Inductive request :=
| Lock (now : Z) (lockId schoolId : string) (paymentId : Z) (duration : option Z)
| Unlock (now : Z) (schoolId : string) (paymentId : Z) (lockId : option string).

Definition serve (q : request) (rs : list row) : answer * list row :=
  match q with
  | Lock now id sc p d => lockPaymentForUpdate now id sc p d rs
  | Unlock _ sc p id => unlockPayment sc p id rs
  end.

Fixpoint serve_all (qs : list request) (rs : list row) : list answer * list row :=
  match qs with
  | [] => ([], rs)
  | q :: qs' => let '(a, rs1) := serve q rs in let '(os, rs2) := serve_all qs' rs1 in (a :: os, rs2)
  end.

Definition request_time (q : request) : Z := match q with Lock now _ _ _ _ => now | Unlock now _ _ _ => now end.

(** The request asks to lock this payment. *)
Definition wants (schoolId : string) (paymentId : Z) (q : request) : bool :=
  match q with Lock _ _ sc p _ => (p =? paymentId) && bool_decide (sc = schoolId) | _ => false end.

Definition releases (lockId : string) (q : request) : bool :=
  match q with Unlock _ _ _ (Some id) => bool_decide (id = lockId) | _ => false end.

(** Payment [paymentId] of the school is held under [lockId] until [deadline]. *)
Definition held (schoolId : string) (paymentId : Z) (lockId : string) (deadline : Z) (rs : list row) : Prop :=
  forall r, r ∈ rs -> own_row schoolId paymentId r = true -> w_lockedUntil r = Some deadline /\ w_lockHolder r = Some lockId.

Lemma set_lock_held schoolId paymentId lockId deadline p u h rs :
  held schoolId paymentId lockId deadline rs ->
  (forall r, r ∈ rs -> own_row schoolId paymentId r = true -> p r = false) ->
  held schoolId paymentId lockId deadline (set_lock p u h rs).
Proof.
  intros Hh Hp r' Hr' Ho. unfold set_lock in Hr'. apply list_elem_of_fmap in Hr' as (r & -> & Hr).
  assert (own_row schoolId paymentId r = true) as Hor by (by destruct (p r)).
  rewrite (Hp r Hr Hor) in *. by apply Hh.
Qed.

Lemma own_row_same s s' i i' r : own_row s i r = true -> own_row s' i' r = true -> s = s' /\ i = i'.
Proof.
  unfold own_row. rewrite !andb_true_iff, !bool_decide_eq_true, !Z.eqb_eq. naive_solver.
Qed.

Lemma serve_held schoolId paymentId lockId deadline q rs :
  held schoolId paymentId lockId deadline rs -> request_time q < deadline -> releases lockId q = false ->
  held schoolId paymentId lockId deadline (serve q rs).2.
Proof.
  intros Hh Ht Hr. destruct q as [now id sc p d|now sc p [id|]]; cbn [serve request_time releases] in *.
  - unfold lockPaymentForUpdate. destruct (existsb _ rs); [|by destruct (List.find _ rs)].
    apply set_lock_held; [done|]. intros r Hin Ho. destruct (own_row sc p r) eqn:E; [|done].
    destruct (Hh r Hin Ho) as [Hu _]. unfold free. rewrite Hu. cbn. apply Z.leb_gt. lia.
  - unfold unlockPayment. destruct (negb _); [done|]. destruct (existsb _ rs); [|done].
    apply set_lock_held; [done|]. intros r Hin Ho. destruct (Hh r Hin Ho) as [_ ->].
    rewrite (bool_decide_false (Some lockId = Some id)); [apply andb_false_r|]. apply bool_decide_eq_false in Hr. congruence.
  - done.
Qed.

Lemma held_refuses schoolId paymentId lockId deadline q rs :
  held schoolId paymentId lockId deadline rs -> request_time q < deadline -> wants schoolId paymentId q = true ->
  match (serve q rs).1 with AlreadyLocked u => u = Some deadline | NotFound => True | _ => False end.
Proof.
  intros Hh Ht Hw. destruct q as [now id sc p d|]; [|done]. cbn [serve request_time wants] in *.
  apply andb_prop in Hw as [->%Z.eqb_eq ->%bool_decide_eq_true]. unfold lockPaymentForUpdate.
  destruct (existsb _ rs) eqn:E.
  - apply existsb_exists in E as (r & Hin%list_elem_of_In & [Ho Hf]%andb_prop). destruct (Hh r Hin Ho) as [Hu _].
    unfold free in Hf. rewrite Hu in Hf. apply Z.leb_le in Hf. lia.
  - destruct (List.find _ rs) as [r|] eqn:Hf; [|done]. apply find_exists in Hf as [Hin Ho]. by destruct (Hh r Hin Ho) as [-> _].
Qed.

(** While a payment is locked, until its deadline and unless its own lock id
    is presented, every other request to lock it is turned away with that
    deadline, whatever the requests. *)
Theorem row_lock_excludes schoolId paymentId lockId deadline qs rs :
  held schoolId paymentId lockId deadline rs ->
  Forall (fun q => request_time q < deadline /\ releases lockId q = false) qs ->
  Forall2 (fun q a => wants schoolId paymentId q = true ->
    match a with AlreadyLocked u => u = Some deadline | NotFound => True | _ => False end) qs (serve_all qs rs).1.
Proof.
  revert rs. induction qs as [|q qs IH]; intros rs Hh Hq; cbn [serve_all]; [constructor|].
  apply Forall_cons in Hq as [[Ht Hr] Hq]. pose proof (held_refuses _ _ _ _ q rs Hh Ht) as H1.
  pose proof (serve_held _ _ _ _ q rs Hh Ht Hr) as H2. destruct (serve q rs) as [a rs1]. specialize (IH rs1 H2 Hq).
  destruct (serve_all qs rs1) as [os rs2]. by constructor.
Qed.

Definition demo_rows : list row := [Row 1 "SCH" None None None].

(** A granted lock is held until its deadline, and another request is refused. *)
Lemma row_lock_excludes_witness :
  let rs := (lockPaymentForUpdate 0 "a" "SCH" 1 None demo_rows).2 in
  Forall2 (fun q a => wants "SCH" 1 q = true ->
    match a with AlreadyLocked u => u = Some 30000 | NotFound => True | _ => False end) [Lock 29999 "b" "SCH" 1 None]
    (serve_all [Lock 29999 "b" "SCH" 1 None] rs).1.
Proof.
  apply (row_lock_excludes "SCH" 1 "a" 30000).
  - intros r Hr _. vm_compute in Hr. apply list_elem_of_In in Hr. destruct Hr as [<-|[]]. split; reflexivity.
  - constructor; [|constructor]. split; [reflexivity|reflexivity].
Defined.
End RowLock.

(** ** Dead-letter jobs *)

Module DeadLetters.

Definition DLQ_DEFAULT_PAGE_SIZE : Z := 100.
Definition DLQ_MAX_PAGE_SIZE : Z := 500.

(** [start], [end]: [parseInt] of the query, [None] for NaN. *)
Definition parseDlqRange (start_ end_ : option Z) : Z * Z :=
  let start := Z.max 0 (default 0 start_) in
  match end_ with
  | Some rawEnd => if start <=? rawEnd then (start, Z.min rawEnd (start + DLQ_MAX_PAGE_SIZE - 1)) else (start, start + DLQ_DEFAULT_PAGE_SIZE - 1)
  | None => (start, start + DLQ_DEFAULT_PAGE_SIZE - 1)
  end.

Record job := Job { j_id : string; j_schoolId : option string; j_failedReason : string }.

Record viewer := Viewer { v_admin : bool; v_schoolId : option string }.

Definition isDlqCrossTenantViewer (v : viewer) : bool := v_admin v && negb (str_truthy (default "" (v_schoolId v))).

(** [String(undefined)] is [undefined]. *)
Definition jobBelongsToSchool (j : job) (schoolId : option string) : bool :=
  bool_decide (default "undefined" (j_schoolId j) = default "undefined" schoolId).

Definition visible (v : viewer) (j : job) : bool := isDlqCrossTenantViewer v || jobBelongsToSchool j (v_schoolId v).

(** One job of a batch: the page so far and the count of jobs the caller may see. *)
Definition take_job (v : viewer) (start end_ : Z) (acc : list job * Z) (j : job) : list job * Z :=
  let '(jobs, total) := acc in
  if negb (visible v j) then (jobs, total)
  else (if (start <=? total) && (Z.of_nat (length jobs) <=? end_) then jobs ++ [j] else jobs, total + 1).

(** The scan in batches of the failed jobs [all]; [queue.getFailed(a, b)] is the
    jobs from [a] to [b]. *)
Fixpoint scan (fuel : nat) (v : viewer) (start end_ : Z) (all : list job) (offset : nat) (acc : list job * Z) : list job * Z :=
  match fuel with
  | O => acc
  | S fuel' =>
    if end_ <? Z.of_nat (length acc.1) then acc else
    let batch := take (Z.to_nat DLQ_MAX_PAGE_SIZE) (drop offset all) in
    match batch with
    | [] => acc
    | _ =>
      let acc' := fold_left (take_job v start end_) batch acc in
      if (length batch <? Z.to_nat DLQ_MAX_PAGE_SIZE)%nat then acc'
      else scan fuel' v start end_ all (offset + length batch) acc'
    end
  end.

Inductive answer := Page (jobs : list job) (total : Z) | Queued | NotFound | Unavailable | Thrown.

(** What the module of the queue exports. *)
Definition retryQueueSetup_exports : list string :=
  ["initializeRetryQueue"; "getRetryQueueHealth"; "getSystemStatus"; "setupGracefulShutdown"; "setupMonitoring"; "gracefulShutdown"].

(** [queue]: the queue that [getDeadLetterQueue] returns; calling what a module
    does not export throws. *)
Definition getDeadLetterJobs (exports : list string) (queue : option (list job)) (v : viewer) (start_ end_ : option Z) : answer :=
  if negb (bool_decide ("getDeadLetterQueue" ∈ exports)) then Thrown else
  match queue with
  | None => Page [] 0
  | Some all =>
    let '(start, end1) := parseDlqRange start_ end_ in
    let '(jobs, total) := scan (S (length all)) v start end1 all 0 ([], 0) in Page jobs total
  end.

Definition retryDeadLetterJob (exports : list string) (queue : option (list job)) (v : viewer) (jobId : string) : answer :=
  if negb (bool_decide ("getDeadLetterQueue" ∈ exports)) then Thrown else
  match queue with
  | None => Unavailable
  | Some all =>
    match List.find (fun j => bool_decide (j_id j = jobId)) all with
    | None => NotFound
    | Some j => if negb (visible v j) then NotFound else Queued
    end
  end.

(** *** What a page holds *)

Section Scan.
Variable v : viewer.
Variable start end_ : Z.
Hypothesis range_ok : 0 <= start <= end_.

(** The page and the count after the jobs [l] were read. *)
Definition page_of (l : list job) : list job * Z :=
  (take (Z.to_nat end_ + 1) (drop (Z.to_nat start) (List.filter (visible v) l)), Z.of_nat (length (List.filter (visible v) l))).

Lemma take_job_page l j : take_job v start end_ (page_of l) j = page_of (l ++ [j]).
Proof.
  unfold take_job, page_of. rewrite List.filter_app. cbn [List.filter]. destruct (visible v j); cbn [negb]; [|by rewrite app_nil_r].
  set (F := List.filter (visible v) l). rewrite length_app. cbn [length].
  f_equal; [|lia]. destruct (Z.leb_spec start (Z.of_nat (length F))) as [Hs|Hs]; cbn [andb].
  - rewrite drop_app_le by lia. set (G := drop (Z.to_nat start) F).
    destruct (Z.leb_spec (Z.of_nat (length (take (Z.to_nat end_ + 1) G))) end_) as [He|He]; rewrite length_take in He.
    + rewrite take_ge by lia. by rewrite take_ge by (rewrite length_app; cbn; lia).
    + by rewrite take_app_le by lia.
  - rewrite (drop_ge F) by lia. rewrite drop_ge; [done|]. rewrite length_app. cbn. lia.
Qed.

Lemma fold_page batch l : fold_left (take_job v start end_) batch (page_of l) = page_of (l ++ batch).
Proof.
  revert l. induction batch as [|j batch IH]; intros l; cbn [fold_left]; [by rewrite app_nil_r|].
  rewrite take_job_page, IH. by rewrite <- app_assoc.
Qed.

(** A full page does not change with more jobs. *)
Lemma page_full l r : end_ < Z.of_nat (length (page_of l).1) -> (page_of (l ++ r)).1 = (page_of l).1.
Proof.
  unfold page_of. cbn [fst]. rewrite length_take, length_drop. intros H. rewrite List.filter_app.
  rewrite drop_app_le by lia. rewrite take_app_le; [done|]. rewrite length_drop. lia.
Qed.

Lemma scan_page all fuel : forall offset, (offset <= length all)%nat -> (length all - offset < fuel)%nat ->
  (scan fuel v start end_ all offset (page_of (take offset all))).1 = (page_of all).1.
Proof.
  induction fuel as [|fuel IH]; intros offset Ho Hf; [lia|]. cbn [scan].
  destruct (Z.ltb_spec end_ (Z.of_nat (length (page_of (take offset all)).1))) as [Hfull|_].
  { rewrite <- (page_full (take offset all) (drop offset all)) by done. by rewrite take_drop. }
  set (batch := take (Z.to_nat DLQ_MAX_PAGE_SIZE) (drop offset all)).
  assert (length batch = Nat.min (Z.to_nat DLQ_MAX_PAGE_SIZE) (length all - offset)) as El
    by (unfold batch; by rewrite length_take, length_drop).
  assert (take offset all ++ batch = take (offset + length batch) all) as Eb.
  { unfold batch at 1. rewrite take_take_drop. destruct (Nat.le_gt_cases (Z.to_nat DLQ_MAX_PAGE_SIZE) (length all - offset)) as [H|H].
    - rewrite El. by rewrite Nat.min_l by lia.
    - rewrite !take_ge by lia. done. }
  pose proof (fold_page batch (take offset all)) as Ef. rewrite Eb in Ef.
  assert (1 <= Z.to_nat DLQ_MAX_PAGE_SIZE)%nat as Hpos by (vm_compute; lia).
  destruct batch as [|j batch'] eqn:Hb.
  { cbn [length] in El. assert (offset = length all) as -> by lia. by rewrite take_ge by lia. }
  rewrite Ef. destruct (Nat.ltb_spec (length (j :: batch')) (Z.to_nat DLQ_MAX_PAGE_SIZE)) as [Hs|Hs].
  - rewrite take_ge by lia. done.
  - apply IH; cbn [length] in *; lia.
Qed.

End Scan.

Lemma parseDlqRange_ok s e : 0 <= (parseDlqRange s e).1 <= (parseDlqRange s e).2
  /\ (parseDlqRange s e).2 < (parseDlqRange s e).1 + DLQ_MAX_PAGE_SIZE.
Proof.
  unfold parseDlqRange, DLQ_MAX_PAGE_SIZE, DLQ_DEFAULT_PAGE_SIZE. destruct e as [r|]; cbn [fst snd]; [|lia].
  destruct (Z.leb_spec (Z.max 0 (default 0 s)) r); cbn [fst snd]; lia.
Qed.

(** The scan ends with the jobs the caller may see from position [start] on, in
    the order of the queue, but [end + 1] of them rather than the [end - start
    + 1] of the range; jobs of other schools never appear. *)
Theorem dlq_page_spec exports all v s e jobs total :
  "getDeadLetterQueue" ∈ exports -> getDeadLetterJobs exports (Some all) v s e = Page jobs total ->
  let '(start, end1) := parseDlqRange s e in
  jobs = take (Z.to_nat end1 + 1) (drop (Z.to_nat start) (List.filter (visible v) all))
  /\ Forall (fun j => visible v j = true) jobs.
Proof.
  intros Hx. unfold getDeadLetterJobs. rewrite bool_decide_true by done. cbn [negb].
  pose proof (parseDlqRange_ok s e) as [Hr _]. destruct (parseDlqRange s e) as [start end1]. cbn [fst snd] in Hr.
  pose proof (scan_page v start end1 Hr all (S (length all)) 0 ltac:(lia) ltac:(lia)) as Hs.
  assert (page_of v start end1 (take 0 all) = ([], 0)) as E0.
  { unfold page_of. rewrite take_0. cbn [List.filter length]. rewrite drop_nil, take_nil. done. }
  rewrite E0 in Hs. destruct (scan _ _ _ _ _ _ _) as [js t]. cbn [fst] in Hs. intros [= <- <-]. split; [done|]. subst js.
  unfold page_of. cbn [fst]. apply Forall_take, Forall_drop. apply Forall_forall. intros j Hj. by apply elem_of_filterb in Hj as [? _].
Qed.

Definition demo_jobs : list job := map (fun n => Job (pretty.pretty n) (Some (if Nat.even n then "A" else "B")) "x") (seq 0 10).

Lemma dlq_page_spec_witness :
  let '(start, end1) := parseDlqRange (Some 2) (Some 3) in
  exists jobs total, getDeadLetterJobs ["getDeadLetterQueue"] (Some demo_jobs) (Viewer false (Some "A")) (Some 2) (Some 3) = Page jobs total
    /\ jobs = take (Z.to_nat end1 + 1) (drop (Z.to_nat start) (List.filter (visible (Viewer false (Some "A"))) demo_jobs))
    /\ Forall (fun j => visible (Viewer false (Some "A")) j = true) jobs.
Proof.
  eexists _, _. split; [vm_compute; reflexivity|].
  apply (dlq_page_spec ["getDeadLetterQueue"] demo_jobs (Viewer false (Some "A")) (Some 2) (Some 3) _ 5); [by_decision|vm_compute; reflexivity].
Defined.

(** A page from 2 to 3 holds three jobs where five are visible. *)
Theorem dlq_page_too_long : match getDeadLetterJobs ["getDeadLetterQueue"] (Some demo_jobs) (Viewer false (Some "A")) (Some 2) (Some 3) with
  | Page jobs _ => length jobs = 3%nat | _ => False end.
Proof. vm_compute. reflexivity. Qed.

(** The total counts the jobs that were read, not those that exist. *)
Theorem dlq_total_partial :
  let all := replicate 1200 (Job "1" (Some "A") "x") in
  match getDeadLetterJobs ["getDeadLetterQueue"] (Some all) (Viewer false (Some "A")) (Some 0) (Some 9) with
  | Page jobs total => length jobs = 10%nat /\ total = 500 | _ => False end.
Proof. vm_compute. done. Qed.

(** With what the module exports, both handlers throw on every request. *)
Theorem dead_letter_routes_throw queue v s e jobId :
  getDeadLetterJobs retryQueueSetup_exports queue v s e = Thrown /\ retryDeadLetterJob retryQueueSetup_exports queue v jobId = Thrown.
Proof. split; reflexivity. Qed.
End DeadLetters.

(** ** Suspicious payments *)

Module Review.
Import PaymentModel.

Inductive review_status := Flagged | Cleared | ConfirmedFraud.
#[export] Instance review_status_eq_dec : EqDecision review_status.
Proof. solve_decision. Defined.

(** A payment with its review fields. *)
Record reviewed := Reviewed {
  v_payment : payment; v_status : review_status; v_by : option string; v_at : option Z; v_note : option string; v_suspicionReason : option string }.

Record audit_entry := AuditEntry { u_schoolId : string; u_by : string; u_txHash : string; u_from : review_status; u_to : review_status }.

Record db := Db { payments : list reviewed; audit : list audit_entry }.

Inductive answer := Reviewed_ok (p : reviewed) | Invalid | NotFound | NotFlagged.

Inductive action := Clear | ConfirmFraud.

(** [None] for any other text. *)
Definition parse_action (s : string) : option action :=
  if bool_decide (s = "clear") then Some Clear else if bool_decide (s = "confirm_fraud") then Some ConfirmFraud else None.

Definition set_suspicious (b : bool) (p : payment) : payment :=
  Payment (p_id p) (p_schoolId p) (p_studentId p) (p_txHash p) (p_opIndex p) (p_amount p) (p_assetCode p) (p_status p) b
    (p_confirmationState p) (p_confirmationStatus p) (p_rejectedAt p) (p_deletedAt p).

Definition review (now : Z) (by_ : string) (a : action) (note : option string) (r : reviewed) : reviewed :=
  let p := match a with Clear => set_suspicious false (v_payment r) | ConfirmFraud => v_payment r end in
  Reviewed (syncDerivedLifecycleFields now (Some (v_payment r)) p) (match a with Clear => Cleared | ConfirmFraud => ConfirmedFraud end)
    (Some by_) (Some now) (match note with Some n => if str_truthy n then note else None | None => None end) (v_suspicionReason r).

Definition own (schoolId txHash : string) (r : reviewed) : bool :=
  bool_decide (p_schoolId (v_payment r) = schoolId) && bool_decide (p_txHash (v_payment r) = txHash)
  && bool_decide (p_deletedAt (v_payment r) = None).

(** [save] writes the loaded document. *)
Definition save (old new_ : reviewed) (l : list reviewed) : list reviewed :=
  map (fun r => if p_id (v_payment r) =? p_id (v_payment old) then new_ else r) l.

Definition reviewSuspiciousPayment (now : Z) (schoolId : string) (performedBy : option string) (txHash act : string) (note : option string) (d : db)
  : answer * db :=
  match parse_action act with
  | None => (Invalid, d)
  | Some a =>
    match List.find (own schoolId txHash) (payments d) with
    | None => (NotFound, d)
    | Some r =>
      if negb (p_isSuspicious (v_payment r)) && bool_decide (v_status r = Flagged) then (NotFlagged, d) else
      let by_ := str_or (default "" performedBy) "unknown" in
      let r' := review now by_ a note r in
      (Reviewed_ok r', Db (save r r' (payments d)) (audit d ++ [AuditEntry schoolId by_ txHash (v_status r) (v_status r')]))
    end
  end.

(** Confirmed fraud stays out of the balance. *)
Definition fraud_excluded (r : reviewed) : Prop := v_status r = ConfirmedFraud -> p_isSuspicious (v_payment r) = true.

Lemma review_keeps now by_ a note r : let p := v_payment (review now by_ a note r) in
  p_status p = p_status (v_payment r) /\ p_amount p = p_amount (v_payment r) /\ p_studentId p = p_studentId (v_payment r).
Proof. cbv zeta. unfold review, syncDerivedLifecycleFields. cbn [v_payment]. destruct a, (_ || _), (_ && _); done. Qed.

Lemma sync_suspicious now st p : p_isSuspicious (syncDerivedLifecycleFields now st p) = p_isSuspicious p.
Proof. unfold syncDerivedLifecycleFields. destruct (_ || _), (_ && _); done. Qed.

Lemma save_split old new_ l1 l2 : NoDup (map (fun r => p_id (v_payment r)) (l1 ++ old :: l2)) ->
  save old new_ (l1 ++ old :: l2) = l1 ++ new_ :: l2.
Proof.
  assert (forall l, p_id (v_payment old) ∉ map (fun r => p_id (v_payment r)) l -> save old new_ l = l) as A.
  { intros l Hn. induction l as [|q l IH]; simpl in *; [done|]. rewrite not_elem_of_cons in Hn. destruct Hn as [H1 H2].
    rewrite (proj2 (Z.eqb_neq _ _)) by congruence. f_equal. by apply IH. }
  rewrite map_app. simpl. intros (_ & Hd & [Hnr _]%NoDup_cons)%NoDup_app. unfold save in *. rewrite map_app. cbn [map]. rewrite Z.eqb_refl.
  rewrite (A l2) by done. rewrite (A l1); [done|]. intros Hx. apply (Hd _ Hx). by left.
Qed.

(** Every review that is answered with success touches one payment of the
    caller's school and writes one audit entry; any other answer changes
    nothing.  Status, amount and student of the payment never change. *)
Theorem review_effect now schoolId by_ txHash act note d a d' :
  NoDup (map (fun r => p_id (v_payment r)) (payments d)) ->
  reviewSuspiciousPayment now schoolId by_ txHash act note d = (a, d') ->
  match a with
  | Reviewed_ok r' => exists r l1 l2, payments d = l1 ++ r :: l2 /\ payments d' = l1 ++ r' :: l2
      /\ p_schoolId (v_payment r) = schoolId /\ p_txHash (v_payment r) = txHash
      /\ p_status (v_payment r') = p_status (v_payment r) /\ p_amount (v_payment r') = p_amount (v_payment r)
      /\ p_studentId (v_payment r') = p_studentId (v_payment r)
      /\ exists e, audit d' = audit d ++ [e] /\ u_from e = v_status r /\ u_to e = v_status r'
  | _ => d' = d
  end.
Proof.
  intros Hnd. unfold reviewSuspiciousPayment. destruct (parse_action act) as [ac|]; [|by intros [= <- <-]].
  destruct (List.find _ _) as [r|] eqn:Hf; [|by intros [= <- <-]]. destruct (_ && _); [by intros [= <- <-]|].
  intros [= <- <-]. apply find_exists in Hf as [Hin Ho]. unfold own in Ho.
  rewrite !andb_true_iff, !bool_decide_eq_true in Ho. destruct Ho as [[Hs Ht] _].
  apply list_elem_of_split in Hin as (l1 & l2 & E). exists r, l1, l2. rewrite E in *.
  destruct (review_keeps now (str_or (default "" by_) "unknown") ac note r) as (K1 & K2 & K3).
  cbn [payments audit]. rewrite save_split by done. do 7 (split; [done|]). eexists. split; [reflexivity|]. done.
Qed.

Definition flagged_payment : reviewed :=
  Reviewed (Payment 1 "SCH" "S-1" "ab" 0 (of_Z 5) None S_SUCCESS true Confirmation.CONFIRMED Confirmation.confirmed None None) Flagged None None None (Some "r").
Definition demo_db : db := Db [flagged_payment] [].

Lemma review_effect_witness : exists r' d', reviewSuspiciousPayment 9 "SCH" (Some "ann") "ab" "clear" None demo_db = (Reviewed_ok r', d')
  /\ exists r l1 l2, payments demo_db = l1 ++ r :: l2 /\ payments d' = l1 ++ r' :: l2.
Proof.
  eexists _, _. split; [vm_compute; reflexivity|].
  destruct (review_effect 9 "SCH" (Some "ann") "ab" "clear" None demo_db _ _ ltac:(by_decision) eq_refl) as (r & l1 & l2 & H1 & H2 & _).
  exists r, l1, l2. split; [exact H1|exact H2].
Defined.

(** A payment cleared first and then confirmed as fraud keeps counting: the
    confirmation does not set the flag again. *)
Theorem confirmed_fraud_still_counts :
  let d1 := (reviewSuspiciousPayment 9 "SCH" None "ab" "clear" None demo_db).2 in
  let d2 := (reviewSuspiciousPayment 10 "SCH" None "ab" "confirm_fraud" None d1).2 in
  map v_status (payments d2) = [ConfirmedFraud] /\ map (fun r => p_isSuspicious (v_payment r)) (payments d2) = [false].
Proof. vm_compute. done. Qed.

(** While no review clears, confirmed fraud stays flagged. *)
Theorem fraud_excluded_without_clearing now schoolId by_ txHash note d :
  Forall fraud_excluded (payments d) -> Forall (fun r => v_status r <> Cleared) (payments d) ->
  Forall fraud_excluded (payments (reviewSuspiciousPayment now schoolId by_ txHash "confirm_fraud" note d).2).
Proof.
  intros H1 H2. unfold reviewSuspiciousPayment. change (parse_action "confirm_fraud") with (Some ConfirmFraud). cbv iota beta.
  destruct (List.find _ _) as [r|] eqn:Hf; [|done]. apply find_exists in Hf as [Hin _].
  rewrite Forall_forall in H1, H2. pose proof (H1 r Hin) as Hr1. pose proof (H2 r Hin) as Hr2.
  destruct (negb (p_isSuspicious (v_payment r)) && bool_decide (v_status r = Flagged)) eqn:E; [by apply Forall_forall|].
  cbn [snd payments]. apply Forall_map, Forall_forall. intros q Hq. destruct (_ =? _); [|by apply H1].
  intros _. unfold review. cbn [v_payment].
  assert (p_isSuspicious (v_payment r) = true) as Hs.
  { destruct (p_isSuspicious (v_payment r)) eqn:Es; [done|]. cbn in E. apply bool_decide_eq_false in E.
    destruct (v_status r) eqn:Ev; [done|done|]. specialize (Hr1 Ev). congruence. }
  by rewrite sync_suspicious.
Qed.

Lemma fraud_excluded_without_clearing_witness :
  Forall fraud_excluded (payments (reviewSuspiciousPayment 9 "SCH" None "ab" "confirm_fraud" None demo_db).2).
Proof. apply fraud_excluded_without_clearing; (constructor; [|constructor]); done. Defined.
End Review.

(** ** Refund routes *)

Module RefundRoutes.
Import PaymentModel DistributedLock Refund.

Inductive refund_action := refund_initiated | refund_approved | refund_rejected | refund_completed.

Record audit_entry := AuditEntry { x_schoolId : string; x_action : refund_action; x_by : string; x_targetId : string; x_refundId : Z; x_amount : number }.

(** The handlers' answers: a refund with a status, an error with a status and a
    code, or the error handed to [next]. *)
Inductive answer := Created (r : refund) | Json (r : refund) | Error (status : Z) (c : code) | NextError (c : code).

Definition ok (a : answer) : bool := match a with Created _ | Json _ => true | _ => false end.

Record state := State { s_db : db; s_audit : list audit_entry }.

(** Who calls: the audit context's name and the claims of the token. *)
Record caller := Caller { c_performedBy : option string; c_admin : option admin_claims; c_schoolId : string }.

Definition with_principal (c : caller) (s : state) (k : principal -> answer * state) : answer * state :=
  match buildPrincipal (c_performedBy c) (c_admin c) with
  | Throw e => (Error 403 e, s)
  | Ok p => k p
  end.

Definition finish (c : caller) (a : refund_action) (p : principal) (target : refund -> string) (wrap : refund -> answer) (fail : code -> answer)
    (s : state) (out : db * result code refund) : answer * state :=
  match out with
  | (d, Ok r) => (wrap r, State d (s_audit s ++ [AuditEntry (c_schoolId c) a (displayName p) (target r) (rf_id r) (rf_amount r)]))
  | (d, Throw e) => (fail e, State d (s_audit s))
  end.

(** [refund._id.toString()] is the text of the id. *)
Definition id_text (r : refund) : string := Z_to_string (rf_id r).

(** [amount]: absent, or [Number(amount)]. *)
Definition initiatePaymentRefund (e : env) (c : caller) (txHash reason : string) (amount : option number) (s : state) : answer * state :=
  if negb (str_truthy reason) then (Error 400 VALIDATION_ERROR, s) else
  match find_payment (c_schoolId c) txHash (fun q => bool_decide (p_status q = S_SUCCESS)) (payments (s_db s)) with
  | None => (Error 404 NOT_FOUND, s)
  | Some payment =>
    with_principal c s (fun p =>
      let refundAmount := default (p_amount payment) amount in
      if negb (isFinite refundAmount) || num_le refundAmount (of_Z 0) then (Error 400 VALIDATION_ERROR, s) else
      finish c refund_initiated p (fun _ => txHash) Created
        (fun e => match e with AMOUNT_EXCEEDS_REFUNDABLE => Error 400 e | REFUND_ALREADY_EXISTS => Error 409 e | _ => NextError e end) s
        (initiateRefund e (c_schoolId c) txHash (p_studentId payment) refundAmount reason (Some p) (s_db s)))
  end.

Definition decision_error (e : code) : answer :=
  match e with
  | SELF_APPROVAL_NOT_ALLOWED | INVALID_STATE => Error 400 e
  | UNKNOWN_PRINCIPAL => Error 403 e
  | _ => NextError e
  end.

Definition approvePaymentRefund (c : caller) (refundId : Z) (s : state) : answer * state :=
  with_principal c s (fun p =>
    finish c refund_approved p id_text Json decision_error s (approveRefund refundId (Some p) (c_schoolId c) (s_db s))).

Definition rejectPaymentRefund (e : env) (c : caller) (refundId : Z) (reason : string) (s : state) : answer * state :=
  if negb (str_truthy reason) then (Error 400 VALIDATION_ERROR, s) else
  with_principal c s (fun p =>
    finish c refund_rejected p id_text Json decision_error s (rejectRefund e refundId (Some p) reason (c_schoolId c) (s_db s))).

Definition completion_error (e : code) : answer :=
  match e with INVALID_STATE => Error 400 e | UNKNOWN_PRINCIPAL => Error 403 e | _ => NextError e end.

Definition completePaymentRefund (e : env) (c : caller) (refundId : Z) (refundTxHash : string) (s : state) : answer * state :=
  if negb (str_truthy refundTxHash) then (Error 400 VALIDATION_ERROR, s) else
  with_principal c s (fun p =>
    finish c refund_completed p id_text Json completion_error s (completeRefund e refundId refundTxHash (Some p) (c_schoolId c) (s_db s))).

Inductive route :=
| RInitiate (e : env) (c : caller) (txHash reason : string) (amount : option number)
| RApprove (c : caller) (refundId : Z)
| RReject (e : env) (c : caller) (refundId : Z) (reason : string)
| RComplete (e : env) (c : caller) (refundId : Z) (refundTxHash : string).

Definition handle (r : route) (s : state) : answer * state :=
  match r with
  | RInitiate e c tx why a => initiatePaymentRefund e c tx why a s
  | RApprove c id => approvePaymentRefund c id s
  | RReject e c id why => rejectPaymentRefund e c id why s
  | RComplete e c id h => completePaymentRefund e c id h s
  end.












(** *** The audit trail of a refund *)












Definition serve (rs : list route) (s : state) : state := fold_left (fun s r => (handle r s).2) rs s.



(** An audited refund by someone else, and a self-approval that is refused. *)
Definition ann : caller := Caller (Some "u1") None "SCH1".
Definition start : state := State sample_db [].
Example self_approval_over_http :
  let '(a1, s1) := handle (RInitiate (at_time 0) ann "aa" "dup" None) start in
  let '(a2, s2) := handle (RApprove ann 100) s1 in
  ok a1 = true /\ length (s_audit s1) = 1%nat /\ a2 = Error 400 SELF_APPROVAL_NOT_ALLOWED /\ s_audit s2 = s_audit s1.
Proof. vm_compute. done. Qed.


End RefundRoutes.

(** ** The manual synchronisation *)

Module ManualSync.
Import DistributedLock.

Inductive audit_result := SyncSuccess | SyncFailure.
Inductive answer := Busy | Complete | NextError.

(** What one call meets: the lock calls, its token, the outcome of
    [syncPaymentsForSchool], and whether the request has an audit context. *)
Record env := Env { e_acquire : fault; e_release : fault; e_token : string; e_ttl : Z; e_sync : result string unit; e_audited : bool }.

Definition lockKey (schoolId : string) : string := "sync:lock:" +:+ schoolId.

Definition syncAllPayments (e : env) (schoolId : string) (r : redis) : answer * list audit_result * redis :=
  match acquire_redis (e_acquire e) (e_token e) (lockKey schoolId) (e_ttl e) r with
  | (r1, None) => (Busy, [], r1)
  | (r1, Some a) =>
    let '(ans, log) := match e_sync e with
                       | Ok _ => (Complete, if e_audited e then [SyncSuccess] else [])
                       | Throw _ => (NextError, if e_audited e then [SyncFailure] else [])
                       end in
    (ans, log, (release_redis (e_release e) (lockKey schoolId) (a_token a) r1).1)
  end.

Lemma rget_rdel k r : rget k (rdel k r) = None.
Proof. unfold rget, rdel. cbn. by rewrite lookup_delete_eq. Qed.

(** A synchronisation runs only under the school's lock, is audited once with
    its outcome, and gives the lock back whatever happened, as long as the
    release arrives. *)
Theorem manual_sync_gives_lock_back e schoolId r ans log r' :
  e_release e = NoFault -> str_truthy (e_token e) = true ->
  syncAllPayments e schoolId r = (ans, log, r') ->
  match ans with
  | Busy => log = []
  | Complete => e_sync e = Ok tt /\ log = (if e_audited e then [SyncSuccess] else []) /\ owned (lockKey schoolId) (e_token e) r' = false
  | NextError => (exists x, e_sync e = Throw x) /\ log = (if e_audited e then [SyncFailure] else []) /\ owned (lockKey schoolId) (e_token e) r' = false
  end.
Proof.
  intros Hr Ht. unfold syncAllPayments.
  destruct (acquire_redis _ _ _ _ _) as [r1 [a|]] eqn:Ha; [|by intros [= <- <- _]].
  assert (a_token a = e_token e) as Eat.
  { unfold acquire_redis in Ha. destruct (e_acquire e); [|done|done]. by destruct (ACQUIRE_WITH_FENCE_SCRIPT _ _ _ _ _) as [? [[?|]|]]; simplify_eq. }
  assert (owned (lockKey schoolId) (e_token e) (release_redis (e_release e) (lockKey schoolId) (a_token a) r1).1 = false) as Ho.
  { rewrite Eat, Hr. unfold release_redis. rewrite Ht. cbn [negb]. unfold RELEASE_SCRIPT.
    destruct (owned (lockKey schoolId) (e_token e) r1) eqn:E; cbn [fst]; [|done]. unfold owned. by rewrite rget_rdel. }
  destruct (e_sync e) as [[]|x] eqn:Es; intros [= <- <- <-]; eauto.
Qed.

Lemma manual_sync_gives_lock_back_witness :
  let e := Env NoFault NoFault "tok" 60000 (Throw "timeout") true in
  owned (lockKey "SCH") "tok" (syncAllPayments e "SCH" (Redis ∅ 0)).2 = false.
Proof.
  cbv zeta. apply (manual_sync_gives_lock_back (Env NoFault NoFault "tok" 60000 (Throw "timeout") true) "SCH" (Redis ∅ 0) NextError [SyncFailure] _); reflexivity.
Defined.
End ManualSync.
