(* ===== verification/RetryQueue.v ===== *)
(** The queue-backed retries: backend/src/queue/transactionRetryQueue.js (the
    queue, its worker and the dead-letter queue),
    backend/src/services/bullMQRetryService.js (queueing failed transactions,
    looking at jobs), backend/src/controllers/bullMQAdminController.js and
    retryQueueController.js with the guard of backend/src/routes/retryQueueRoutes.js,
    and backend/src/config/retryQueueSetup.js.

    The job queue itself is a library: class [BullQueue] states what its
    documentation promises, and an instance keeps the jobs in a list.  An event
    of the log keeps its type and its subject; the other fields it prints, the
    sockets and the timers are left out. *)

From Stdlib Require Import ZArith Lia.
From stdpp Require Import base strings sets list.
From S2P Require Import Prelude JsNumber JsString ModelPlugins StellarRetry RetryWorker TransactionQueue.
Import RetryContract.
Local Open Scope string_scope.
Local Open Scope Z_scope.
Local Open Scope list_scope.

(** ** The library's queue *)

Inductive job_state := waiting | delayed | active | completed | failed.

#[export] Instance job_state_eq_dec : EqDecision job_state.
Proof. solve_decision. Defined.

Record metadata := Metadata {
  md_memo : option string; md_originalError : option string; md_originalErrorCode : option string;
  md_errorType : error_class; md_queuedAt : Z
}.

Record job_data := JobData { jd_transactionHash : string; jd_studentId : option string; jd_metadata : metadata; jd_queuedAt : Z }.

Record job := Job { j_id : string; j_data : job_data; j_attemptsMade : Z }.

(** Adding a job under an id that is taken leaves the queue as it was; a new job
    with a delay is delayed; only the job named changes; a job a worker holds
    cannot be removed. *)
Class BullQueue (Q : Type) := {
  getJob : string -> Q -> option (job * job_state);
  add : job -> Q -> Q;
  retry : string -> Q -> Q;
  remove : string -> Q -> option Q;
  jobs_in : job_state -> Q -> list job;
  add_taken : forall j q, getJob (j_id j) q <> None -> add j q = q;
  add_new : forall j q, getJob (j_id j) q = None -> getJob (j_id j) (add j q) = Some (j, delayed);
  add_other : forall j q i, i <> j_id j -> getJob i (add j q) = getJob i q;
  retry_failed : forall i q j, getJob i q = Some (j, failed) -> getJob i (retry i q) = Some (j, waiting);
  retry_other : forall i i' q, i' <> i -> getJob i' (retry i q) = getJob i' q;
  remove_held : forall i q j, getJob i q = Some (j, active) -> remove i q = None;
  remove_gone : forall i q j s, getJob i q = Some (j, s) -> s <> active ->
    exists q', remove i q = Some q' /\ getJob i q' = None /\ forall i', i' <> i -> getJob i' q' = getJob i' q;
  jobs_in_spec : forall i q j s, getJob i q = Some (j, s) -> j ∈ jobs_in s q
}.

(** [getFailed(0, end)] and its kin: positions 0 to [end], both included; a
    negative [end] counts from the last one. *)
Definition range {A} (end_ : Z) (l : list A) : list A :=
  if 0 <=? end_ then take (Z.to_nat (end_ + 1)) l else take (Z.to_nat (Z.of_nat (length l) + end_ + 1)) l.

(** *** A queue as the list of its jobs *)
Section ListQueue.
Implicit Types q : list (job * job_state).

Definition has_id (i : string) (e : job * job_state) : bool := (j_id e.1 =? i)%string.

Definition lq_get (i : string) (q : list (job * job_state)) : option (job * job_state) := List.find (has_id i) q.

Definition lq_add (j : job) (q : list (job * job_state)) : list (job * job_state) :=
  match lq_get (j_id j) q with Some _ => q | None => q ++ [(j, delayed)] end.

Definition lq_retry (i : string) (q : list (job * job_state)) : list (job * job_state) :=
  map (fun e => if has_id i e && bool_decide (e.2 = failed) then (e.1, waiting) else e) q.

Definition lq_remove (i : string) (q : list (job * job_state)) : option (list (job * job_state)) :=
  match lq_get i q with
  | Some (_, active) => None
  | _ => Some (List.filter (fun e => negb (has_id i e)) q)
  end.

Definition lq_jobs (s : job_state) (q : list (job * job_state)) : list job :=
  map fst (List.filter (fun e => bool_decide (e.2 = s)) q).

Lemma lq_get_app i q r : lq_get i (q ++ r) = match lq_get i q with Some e => Some e | None => lq_get i r end.
Proof. unfold lq_get. induction q as [|e q IH]; [done|]. cbn. by destruct (has_id i e). Qed.

Lemma has_id_other i i' e : i <> i' -> has_id i e = true -> has_id i' e = false.
Proof. unfold has_id. intros Hne H%String.eqb_eq. apply String.eqb_neq. congruence. Qed.

Lemma lq_find_filter i i' q : i' <> i -> lq_get i' (List.filter (fun e => negb (has_id i e)) q) = lq_get i' q.
Proof.
  intros Hne. unfold lq_get. induction q as [|e q IH]; [done|]. cbn [List.filter List.find].
  destruct (has_id i e) eqn:E; cbn [negb]; [by rewrite (has_id_other i i' e)|]. cbn [List.find]. by rewrite IH.
Qed.

Lemma lq_find_gone i q : lq_get i (List.filter (fun e => negb (has_id i e)) q) = None.
Proof.
  unfold lq_get. induction q as [|e q IH]; [done|]. cbn [List.filter]. destruct (has_id i e) eqn:E; cbn [negb]; [done|].
  cbn [List.find]. by rewrite E.
Qed.

Lemma lq_retry_get i i' q : lq_get i' (lq_retry i q) =
  (fun e => if bool_decide (i' = i) && bool_decide (e.2 = failed) then (e.1, waiting) else e) <$> lq_get i' q.
Proof.
  unfold lq_get, lq_retry. induction q as [|e q IH]; [done|]. cbn [map List.find].
  assert (has_id i' (if has_id i e && bool_decide (e.2 = failed) then (e.1, waiting) else e) = has_id i' e) as ->
    by (by destruct (_ && _)).
  destruct (has_id i' e) eqn:E; [|done]. cbn [fmap option_fmap option_map]. repeat f_equal.
  unfold has_id in *. apply String.eqb_eq in E as <-. destruct (String.eqb_spec (j_id e.1) i); [by rewrite (bool_decide_true (_ = i))|by rewrite (bool_decide_false (_ = i))].
Qed.

#[export] Program Instance list_queue : BullQueue (list (job * job_state)) :=
  {| getJob := lq_get; add := lq_add; retry := lq_retry; remove := lq_remove; jobs_in := lq_jobs |}.
Next Obligation. intros j q H. unfold lq_add. by destruct (lq_get (j_id j) q). Qed.
Next Obligation.
  intros j q H. unfold lq_add. rewrite H, lq_get_app, H. unfold lq_get, has_id. cbn. by rewrite String.eqb_refl.
Qed.
Next Obligation.
  intros j q i H. unfold lq_add. destruct (lq_get (j_id j) q); [done|]. rewrite lq_get_app.
  unfold lq_get at 2. cbn. rewrite (has_id_other (j_id j) i); [by destruct (lq_get i q)|done|apply String.eqb_refl].
Qed.
Next Obligation. intros i q j H. rewrite lq_retry_get, H. cbn. by rewrite bool_decide_true. Qed.
Next Obligation.
  intros i i' q H. rewrite lq_retry_get. rewrite bool_decide_false by done. cbn. by destruct (lq_get i' q).
Qed.
Next Obligation. intros i q j H. unfold lq_remove. by rewrite H. Qed.
Next Obligation.
  intros i q j s H Hs. unfold lq_remove. rewrite H. exists (List.filter (fun e => negb (has_id i e)) q).
  split; [by destruct s|]. split; [apply lq_find_gone|]. intros i' Hne. by apply lq_find_filter.
Qed.
Next Obligation.
  intros i q j s H. unfold lq_get in H. apply find_some in H as [Hin _]. unfold lq_jobs. apply list_elem_of_In, in_map_iff.
  exists (j, s). split; [done|]. apply filter_In. split; [done|]. cbn. by apply bool_decide_eq_true.
Qed.
End ListQueue.

Module RetryQueue.
Import RetryWorker.

(** ** The module's state *)

Record config := Config {
  c_enabled : bool; c_maxAttempts : Z; c_initialDelay : Z; c_maxDelay : Z; c_backoffMultiplier : Z; c_dlqEnabled : bool; c_concurrency : Z
}.

(** [parseInt(text, 10) || fallback] of a variable that may be unset. *)
Definition int_or (text : option string) (fallback : Z) : Z :=
  match text with None => fallback | Some t => match parseInt10 t with Some z => if z =? 0 then fallback else z | None => fallback end end.

Record environment := Env {
  env_RETRIES_ENABLED : option string; env_MAX_RETRY_ATTEMPTS : option string; env_INITIAL_RETRY_DELAY_MS : option string;
  env_MAX_RETRY_DELAY_MS : option string; env_RETRY_BACKOFF_MULTIPLIER : option string; env_DLQ_ENABLED : option string;
  env_QUEUE_CONCURRENCY : option string
}.

Definition read_config (e : environment) : config :=
  Config (negb (bool_decide (env_RETRIES_ENABLED e = Some "false"))) (int_or (env_MAX_RETRY_ATTEMPTS e) 10)
    (int_or (env_INITIAL_RETRY_DELAY_MS e) 60000) (int_or (env_MAX_RETRY_DELAY_MS e) 3600000)
    (int_or (env_RETRY_BACKOFF_MULTIPLIER e) 2) (negb (bool_decide (env_DLQ_ENABLED e = Some "false"))) (int_or (env_QUEUE_CONCURRENCY e) 5).

Record jobMetrics := Metrics {
  m_totalJobs : Z; m_successfulJobs : Z; m_failedJobs : Z; m_retriedJobs : Z; m_deadLetteredJobs : Z;
  m_lastJobProcessed : option Z; m_healthy : bool
}.

Record event := Event { ev_type : string; ev_subject : string }.

(** What [moveToDeadLetterQueue] adds. *)
Record dead_letter := DeadLetter {
  dl_originalJobId : string; dl_transactionHash : string; dl_studentId : option string;
  dl_error : option string; dl_errorCode : option string; dl_failedAttempts : Z; dl_failedAt : Z
}.

(** The connection and the objects made so far, the jobs the store holds, the
    dead letters, the counters and the log. *)
Record mstate (Q : Type) := MState {
  s_conn : bool; s_queue : bool; s_dlq : bool; s_events : bool; s_worker : bool;
  s_jobs : Q; s_dead : list dead_letter; s_metrics : jobMetrics; s_log : list event
}.
#[global] Arguments MState {Q}.
#[global] Arguments s_conn {Q}.
#[global] Arguments s_queue {Q}.
#[global] Arguments s_dlq {Q}.
#[global] Arguments s_events {Q}.
#[global] Arguments s_worker {Q}.
#[global] Arguments s_jobs {Q}.
#[global] Arguments s_dead {Q}.
#[global] Arguments s_metrics {Q}.
#[global] Arguments s_log {Q}.

(** [push], then [shift] beyond a thousand. *)
Definition push_event (e : event) (log : list event) : list event :=
  let log := log ++ [e] in if 1000 <? Z.of_nat (length log) then tail log else log.

Section Queue.
Context {Q : Type} `{BullQueue Q}.
Variable cfg : config.
(** Whether [getRedisClient()] answers with a client. *)
Variable redis : bool.

Definition logEvent (type subject : string) (s : mstate Q) : mstate Q :=
  MState (s_conn s) (s_queue s) (s_dlq s) (s_events s) (s_worker s) (s_jobs s) (s_dead s) (s_metrics s)
    (push_event (Event type subject) (s_log s)).

Definition with_jobs (q : Q) (s : mstate Q) : mstate Q :=
  MState (s_conn s) (s_queue s) (s_dlq s) (s_events s) (s_worker s) q (s_dead s) (s_metrics s) (s_log s).

Definition with_metrics (m : jobMetrics) (s : mstate Q) : mstate Q :=
  MState (s_conn s) (s_queue s) (s_dlq s) (s_events s) (s_worker s) (s_jobs s) (s_dead s) m (s_log s).

Definition with_dead (d : list dead_letter) (s : mstate Q) : mstate Q :=
  MState (s_conn s) (s_queue s) (s_dlq s) (s_events s) (s_worker s) (s_jobs s) d (s_metrics s) (s_log s).

Definition count_success (m : jobMetrics) := Metrics (m_totalJobs m) (m_successfulJobs m + 1) (m_failedJobs m) (m_retriedJobs m) (m_deadLetteredJobs m) (m_lastJobProcessed m) (m_healthy m).
Definition count_failed (m : jobMetrics) := Metrics (m_totalJobs m) (m_successfulJobs m) (m_failedJobs m + 1) (m_retriedJobs m) (m_deadLetteredJobs m) (m_lastJobProcessed m) (m_healthy m).
Definition count_retried (m : jobMetrics) := Metrics (m_totalJobs m) (m_successfulJobs m) (m_failedJobs m) (m_retriedJobs m + 1) (m_deadLetteredJobs m) (m_lastJobProcessed m) (m_healthy m).
Definition count_dead (m : jobMetrics) := Metrics (m_totalJobs m) (m_successfulJobs m) (m_failedJobs m) (m_retriedJobs m) (m_deadLetteredJobs m + 1) (m_lastJobProcessed m) (m_healthy m).

(** ** Making the connection and the queues *)

Definition initializeRedisConnection (s : mstate Q) : mstate Q :=
  if s_conn s then s else MState redis (s_queue s) (s_dlq s) (s_events s) (s_worker s) (s_jobs s) (s_dead s) (s_metrics s) (s_log s).

(** [create*]: made once, over a connection. *)
Definition made (has : mstate Q -> bool) (mk : mstate Q -> mstate Q) (what : string) (s : mstate Q) : result job_error (mstate Q) :=
  if has s then Ok s else
  let s1 := initializeRedisConnection s in
  if s_conn s1 then Ok (mk s1) else Throw (JobError None (Some ("Redis unavailable for " +:+ what +:+ " initialization"))).

Definition createTransactionRetryQueue : mstate Q -> result job_error (mstate Q) :=
  made s_queue (fun s => MState (s_conn s) true (s_dlq s) (s_events s) (s_worker s) (s_jobs s) (s_dead s) (s_metrics s) (s_log s)) "retry queue".

(** Nothing is made when dead letters are off. *)
Definition createDeadLetterQueue (s : mstate Q) : result job_error (mstate Q) :=
  if c_dlqEnabled cfg then
    made s_dlq (fun s => MState (s_conn s) (s_queue s) true (s_events s) (s_worker s) (s_jobs s) (s_dead s) (s_metrics s) (s_log s)) "dead-letter queue" s
  else Ok s.

Definition createQueueEvents : mstate Q -> result job_error (mstate Q) :=
  made s_events (fun s => MState (s_conn s) (s_queue s) (s_dlq s) true (s_worker s) (s_jobs s) (s_dead s) (s_metrics s) (s_log s)) "queue events".

Definition with_health (b : bool) (s : mstate Q) : mstate Q :=
  let m := s_metrics s in
  with_metrics (Metrics (m_totalJobs m) (m_successfulJobs m) (m_failedJobs m) (m_retriedJobs m) (m_deadLetteredJobs m) (m_lastJobProcessed m) b) s.

Definition setupEventListeners (s : mstate Q) : mstate Q :=
  match createQueueEvents s with
  | Ok s1 => logEvent "EVENT_LISTENERS_SETUP" "transaction-retry-queue" s1
  | Throw _ => with_health false s
  end.

Definition createRetryWorker (s : mstate Q) : result job_error (mstate Q) :=
  if s_worker s then Ok s else
  s1 ← createTransactionRetryQueue s;
  Ok (logEvent "WORKER_CREATED" "transaction-retry-queue"
       (MState (s_conn s1) (s_queue s1) (s_dlq s1) (s_events s1) true (s_jobs s1) (s_dead s1) (s_metrics s1) (s_log s1))).

(** What was made stays made when a later step throws. *)
Definition initializeQueue (s : mstate Q) : mstate Q * result job_error unit :=
  let s1 := initializeRedisConnection s in
  match createTransactionRetryQueue s1 with
  | Throw e => (s1, Throw e)
  | Ok s2 =>
    match createDeadLetterQueue s2 with
    | Throw e => (s2, Throw e)
    | Ok s3 =>
      let s4 := setupEventListeners s3 in
      match createRetryWorker s4 with
      | Throw e => (s4, Throw e)
      | Ok s5 => (logEvent "QUEUE_INITIALIZED" "" s5, Ok tt)
      end
    end
  end.

(** What the listeners do: the connection's, the queue's and the worker's. *)
Definition on_redis_event (ready : bool) : mstate Q -> mstate Q := with_health ready.

Definition on_queue_event (type jobId : string) (s : mstate Q) : mstate Q :=
  let m := s_metrics s in
  let s := if (type =? "EVENT_WAITING")%string
           then with_metrics (Metrics (m_totalJobs m + 1) (m_successfulJobs m) (m_failedJobs m) (m_retriedJobs m) (m_deadLetteredJobs m) (m_lastJobProcessed m) (m_healthy m)) s
           else s in
  logEvent type jobId s.

Definition on_worker_event (now : Z) (type jobId : string) (s : mstate Q) : mstate Q :=
  let m := s_metrics s in
  let s := if (type =? "WORKER_JOB_COMPLETED")%string
           then with_metrics (Metrics (m_totalJobs m) (m_successfulJobs m) (m_failedJobs m) (m_retriedJobs m) (m_deadLetteredJobs m) (Some now) (m_healthy m)) s
           else s in
  logEvent type jobId s.

(** ** Dead letters *)

(** [accepts]: what [dlq.add] answers. *)
Definition moveToDeadLetterQueue (now : Z) (accepts : result job_error unit) (j : job) (err : job_error) (s : mstate Q) : mstate Q :=
  if negb (c_dlqEnabled cfg) then logEvent "JOB_DLQ_SKIPPED" (j_id j) s else
  match createDeadLetterQueue s with
  | Throw _ => logEvent "DLQ_MOVE_ERROR" (j_id j) s
  | Ok s1 =>
    match accepts with
    | Throw _ => logEvent "DLQ_MOVE_ERROR" (j_id j) s1
    | Ok _ =>
      let d := DeadLetter (j_id j) (jd_transactionHash (j_data j)) (jd_studentId (j_data j)) (je_message err) (je_code err) (j_attemptsMade j) now in
      let s2 := with_dead (s_dead s1 ++ [d]) s1 in
      logEvent "JOB_MOVED_TO_DLQ" (j_id j) (with_metrics (count_dead (s_metrics s2)) s2)
    end
  end.

(** ** Processing a job *)
Section Process.
Context {P : Type} `{TenantDoc P}.
Variable p_txHash : P -> string.

(** What verifying a transaction gives, and what is handed to the recording. *)
Record verified := Verified {
  v_studentId : option string; v_hash : string; v_amount : number; v_feeAmount : option number;
  v_feeValidationStatus : string; v_memo : option string; v_date : option Z
}.

Record payment_args := PaymentArgs {
  pa_studentId : option string; pa_txHash : string; pa_amount : number; pa_feeAmount : option number;
  pa_feeValidationStatus : string; pa_memo : option string; pa_confirmedAt : Z
}.

Variable verifyTransaction : string -> result job_error (option verified).
Variable recordPayment : payment_args -> result job_error unit.

Definition isTransactionAlreadyProcessed (tx : string) (ps : list P) : result plugin_error bool :=
  existing ← Plugins.findOne "Payment" (Plugins.Query [("txHash", fun p => (p_txHash p =? tx)%string)] false false) ps;
  Ok (match existing with Some _ => true | None => false end).

Inductive job_answer := Skipped | Recorded (attempts : Z).

Definition truthy_or (a b : option string) : option string := match a with Some t => if str_truthy t then Some t else b | None => b end.

(** The job's data has no [memo] of its own: it is inside the metadata. *)
Definition args_of (now : Z) (d : job_data) (r : verified) : payment_args :=
  PaymentArgs (truthy_or (v_studentId r) (jd_studentId d)) (v_hash r) (v_amount r) (v_feeAmount r) (v_feeValidationStatus r)
    (truthy_or (v_memo r) None) (default now (v_date r)).

(** The [try] block: what it answers or throws. *)
Definition try_block (now : Z) (ps : list P) (j : job) : result job_error job_answer :=
  let tx := jd_transactionHash (j_data j) in
  match isTransactionAlreadyProcessed tx ps with
  | Throw e => Throw (TransactionQueue.scope_error e)
  | Ok true => Ok Skipped
  | Ok false =>
    r ← verifyTransaction tx;
    match r with
    | None => Throw (JobError None (Some ("Transaction " +:+ tx +:+ " verification returned null")))
    | Some v => _ ← recordPayment (args_of now (j_data j) v); Ok (Recorded (j_attemptsMade j + 1))
    end
  end.

(** The handler around the answer [a] of the [try] block. *)
Definition handle (now : Z) (accepts : result job_error unit) (j : job) (a : result job_error job_answer) (s : mstate Q)
  : mstate Q * result job_error job_answer :=
  let s := logEvent "JOB_PROCESSING" (j_id j) s in
  match a with
  | Ok Skipped => (logEvent "JOB_IDEMPOTENT_SKIP" (j_id j) s, Ok Skipped)
  | Ok (Recorded n) => (logEvent "JOB_COMPLETED" (j_id j) (with_metrics (count_success (s_metrics s)) s), Ok (Recorded n))
  | Throw err =>
    if isPermanent err || (c_maxAttempts cfg - 1 <=? j_attemptsMade j) then
      let s1 := moveToDeadLetterQueue now accepts j err s in
      (logEvent "JOB_FAILED_PERMANENT" (j_id j) (with_metrics (count_failed (s_metrics s1)) s1), Throw err)
    else
      (logEvent "JOB_RETRY_SCHEDULED" (j_id j) (with_metrics (count_retried (s_metrics s)) s), Throw err)
  end.

Definition processTransactionRetryJob (now : Z) (accepts : result job_error unit) (ps : list P) (j : job) (s : mstate Q)
  : mstate Q * result job_error job_answer :=
  handle now accepts j (try_block now ps j) s.
End Process.

(** The library's worker: a job whose processing throws is tried again, one more
    attempt made, while attempts are left; [env k] is what the world answers at
    the attempt after [k]: the time, the dead-letter queue and the [try] block. *)
Definition next_attempt (j : job) : job := Job (j_id j) (j_data j) (j_attemptsMade j + 1).

Fixpoint run_attempts (left : nat) (env : Z -> Z * result job_error unit * result job_error job_answer) (j : job) (s : mstate Q)
  : mstate Q * job_state :=
  match left with
  | O => (s, failed)
  | S left' =>
    let '(now, accepts, a) := env (j_attemptsMade j) in
    match handle now accepts j a s with
    | (s', Ok _) => (s', completed)
    | (s', Throw _) => run_attempts left' env (next_attempt j) s'
    end
  end.

(** ** Adding a transaction *)

Inductive add_answer := NotAdded | AlreadyCompleted (jobId : string) | AlreadyQueued (jobId : string) | Added (jobId : string).

Definition job_id_of (tx : string) : string := "tx-" +:+ tx.

(** The job object [queue.add] returns carries the id asked for, also when the
    id was taken. *)
Definition addTransactionToRetryQueue (now : Z) (tx : string) (studentId : option string) (md : metadata) (s : mstate Q)
  : mstate Q * result job_error add_answer :=
  if negb (c_enabled cfg) then (logEvent "RETRY_DISABLED" tx s, Ok NotAdded) else
  match createTransactionRetryQueue s with
  | Throw e => (logEvent "JOB_ADD_ERROR" tx s, Throw e)
  | Ok s1 =>
    let jobId := job_id_of tx in
    let enqueue :=
      let s2 := with_jobs (add (Job jobId (JobData tx studentId md now) 0) (s_jobs s1)) s1 in
      (logEvent "JOB_ADDED" jobId s2, Ok (Added jobId)) in
    match getJob jobId (s_jobs s1) with
    | Some (_, completed) => (logEvent "JOB_DUPLICATE_COMPLETED" jobId s1, Ok (AlreadyCompleted jobId))
    | Some (_, waiting) | Some (_, delayed) => (logEvent "JOB_DUPLICATE_PENDING" jobId s1, Ok (AlreadyQueued jobId))
    | _ => enqueue
    end
  end.

(** ** The statistics *)

Definition count_in (st : job_state) (s : mstate Q) : Z := Z.of_nat (length (jobs_in st (s_jobs s))).

Record queue_stats := QueueStats {
  qs_healthy : bool; qs_metrics : jobMetrics; qs_counts : option (Z * Z * Z * Z * Z);
  qs_totalJobs : Z; qs_recentEvents : list event
}.

Definition last_n {A} (n : nat) (l : list A) : list A := drop (length l - n) l.

(** The total of the counts replaces the module's own. *)
Definition getQueueStats (s : mstate Q) : queue_stats :=
  match createTransactionRetryQueue s with
  | Ok s1 =>
    let w := count_in waiting s1 in let a := count_in active s1 in let c := count_in completed s1 in
    let f := count_in failed s1 in let d := count_in delayed s1 in
    QueueStats (m_healthy (s_metrics s1)) (s_metrics s1) (Some (w, a, c, f, d)) (w + a + c + f + d) (last_n 50 (s_log s1))
  | Throw _ => QueueStats false (s_metrics s) None (m_totalJobs (s_metrics s)) (last_n 50 (s_log s))
  end.

(** Waiting, completed and failed jobs of the dead-letter queue, to which no
    worker is attached: every job that was added waits. *)
Definition getDLQStats (s : mstate Q) : option (Z * Z * Z) :=
  if negb (c_dlqEnabled cfg) || negb (s_dlq s) then None else Some (Z.of_nat (length (s_dead s)), 0, 0).

End Queue.

(** ** The service *)
Section Service.
Context {Q : Type} `{BullQueue Q}.
Variable cfg : config.
Variable redis : bool.

(** Whether [queueInstance] is set, the queue module, the pending verifications
    and whether the queue is paused. *)
Record service := Service { sv_instance : bool; sv_queue : mstate Q; sv_docs : list pv_doc; sv_paused : bool }.

Definition initializeRetryQueue (v : service) : service * result job_error unit :=
  if sv_instance v then (v, Ok tt) else
  match initializeQueue cfg redis (sv_queue v) with
  | (s, Ok _) => (Service true s (sv_docs v) (sv_paused v), Ok tt)
  | (s, Throw e) => (Service false s (sv_docs v) (sv_paused v), Throw e)
  end.

Definition note_queued (now : Z) (msg : string) (d : pv_doc) : pv_doc :=
  PvDoc (pv_id d) (pv_school d) (pv_tx d) (pv_student d) (pv_attempts d + 1) (pv_lastAttemptAt d) now queued (Some msg) (pv_resolvedAt d).

(** The upsert by hash, with the scope bypassed: validators do not run on an
    update, and what the schema does not list is dropped. *)
Definition upsert_pending (now : Z) (id : nat) (tx : string) (studentId : option string) (msg : string) (ds : list pv_doc) : list pv_doc :=
  if existsb (fun d => (pv_tx d =? tx)%string) ds then update_first (fun d => (pv_tx d =? tx)%string) (note_queued now msg) ds
  else ds ++ [PvDoc id None tx studentId 1 None now queued (Some msg) None].

Inductive queue_answer := PermanentError (errorCode : string) | QueuedAs (jobId : option string) (errorType : error_class).

Definition or_text (t : option string) (fallback : string) : string := default fallback (truthy_or t None).

(** [job?.id]: only the job object has an [id]. *)
Definition answer_id (a : add_answer) : option string := match a with Added i => Some i | _ => None end.

Definition queueFailedTransaction (now : Z) (id : nat) (tx : string) (studentId memo : option string) (error : option job_error) (v : service)
  : service * result job_error queue_answer :=
  match initializeRetryQueue v with
  | (v1, Throw e) => (v1, Throw e)
  | (v1, Ok _) =>
    let errorType := classifyError error in
    if bool_decide (errorType = permanent) then (v1, Ok (PermanentError (or_text (error ≫= je_code) "UNKNOWN"))) else
    let docs := upsert_pending now id tx studentId (or_text (error ≫= je_message) "Unknown error") (sv_docs v1) in
    let md := Metadata memo (error ≫= je_message) (error ≫= je_code) errorType now in
    match addTransactionToRetryQueue cfg redis now tx studentId md (sv_queue v1) with
    | (s, Ok a) => (Service (sv_instance v1) s docs (sv_paused v1), Ok (QueuedAs (answer_id a) errorType))
    | (s, Throw e) => (Service (sv_instance v1) s docs (sv_paused v1), Throw e)
    end
  end.

Inductive svc_error := NOT_FOUND | VALIDATION_ERROR (message : string) | OtherError (e : job_error).

(** Each operation on a job first makes sure of the queue. *)
Definition with_job {A} (jobId : string) (f : job -> job_state -> service -> service * result svc_error A) (v : service) : service * result svc_error A :=
  match initializeRetryQueue v with
  | (v1, Throw e) => (v1, Throw (OtherError e))
  | (v1, Ok _) => match getJob jobId (s_jobs (sv_queue v1)) with None => (v1, Throw NOT_FOUND) | Some (j, st) => f j st v1 end
  end.

Definition getJobDetails (jobId : string) : service -> service * result svc_error (job * job_state) :=
  with_job jobId (fun j st v => (v, Ok (j, st))).

Definition set_jobs (q : Q) (v : service) : service := Service (sv_instance v) (with_jobs q (sv_queue v)) (sv_docs v) (sv_paused v).

Definition state_name (st : job_state) : string :=
  match st with waiting => "waiting" | delayed => "delayed" | active => "active" | completed => "completed" | failed => "failed" end.

Definition retryJobImmediately (jobId : string) : service -> service * result svc_error string :=
  with_job jobId (fun _ st v =>
    if bool_decide (st = failed) then (set_jobs (retry jobId (s_jobs (sv_queue v))) v, Ok jobId)
    else (v, Throw (VALIDATION_ERROR ("Job " +:+ jobId +:+ " is not in failed state (current: " +:+ state_name st +:+ ")")))).

Definition removeJob (jobId : string) : service -> service * result svc_error string :=
  with_job jobId (fun _ _ v =>
    match remove jobId (s_jobs (sv_queue v)) with
    | Some q => (set_jobs q v, Ok jobId)
    | None => (v, Throw (OtherError (JobError None (Some "locked"))))
    end).

Definition set_paused (b : bool) (v : service) : service * result svc_error bool :=
  match initializeRetryQueue v with
  | (v1, Throw e) => (v1, Throw (OtherError e))
  | (v1, Ok _) => (Service (sv_instance v1) (sv_queue v1) (sv_docs v1) b, Ok b)
  end.

Definition pauseQueue : service -> service * result svc_error bool := set_paused true.
Definition resumeQueue : service -> service * result svc_error bool := set_paused false.

Definition parse_state (t : string) : option job_state :=
  if (t =? "waiting")%string then Some waiting else if (t =? "active")%string then Some active else
  if (t =? "completed")%string then Some completed else if (t =? "failed")%string then Some failed else
  if (t =? "delayed")%string then Some delayed else None.

Definition getJobsByState (state : string) (limit : Z) (v : service) : service * result svc_error (list job) :=
  match initializeRetryQueue v with
  | (v1, Throw e) => (v1, Throw (OtherError e))
  | (v1, Ok _) =>
    match parse_state state with
    | None => (v1, Throw (OtherError (JobError None (Some ("Invalid state: " +:+ state)))))
    | Some st => (v1, Ok (range limit (jobs_in st (s_jobs (sv_queue v1)))))
    end
  end.

(** The pending verifications by status, and the queue's figures. *)
Definition pending_counts (ds : list pv_doc) : list (pv_status * Z) :=
  map (fun st => (st, Z.of_nat (length (List.filter (fun d => bool_decide (pv_st d = st)) ds)))) (remove_dups (map pv_st ds)).

Record retry_stats := RetryStats { rs_bullmq : queue_stats; rs_deadLetter : option (Z * Z * Z); rs_pending : list (pv_status * Z); rs_redisConnected : bool }.

Definition getRetryQueueStats (v : service) : retry_stats :=
  let main := getQueueStats redis (sv_queue v) in
  RetryStats main (getDLQStats cfg (sv_queue v)) (pending_counts (sv_docs v)) (qs_healthy main).

Record health := Health { h_healthy : bool; h_redis : bool; h_queueSize : Z; h_failedJobs : Z; h_deadLetteredJobs : Z }.

Definition getHealthStatus (v : service) : health :=
  let stats := getRetryQueueStats v in
  Health (qs_healthy (rs_bullmq stats)) (rs_redisConnected stats) (qs_totalJobs (rs_bullmq stats))
    (m_failedJobs (qs_metrics (rs_bullmq stats))) (match rs_deadLetter stats with Some (_, _, f) => f | None => 0 end).

(** [drainWorker]: the queue module exports no [getWorker]. *)
Definition transactionRetryQueue_exports : list string :=
  ["initializeQueue"; "addTransactionToRetryQueue"; "getQueueStats"; "getDLQStats"; "calculateBackoffDelay"; "shutdownQueue"; "config"; "QUEUE_NAMES"].

Definition drainWorker (exports : list string) (drain : bool * Z * Z) : bool * Z * Z :=
  if bool_decide ("getWorker" ∈ exports) then drain else (true, 0, 0).

(** ** The handlers *)

Inductive http := OkJobs (jobs : list job) (total limit offset : Z) | OkState (state : string) (count : Z) (jobs : list job)
| OkId (jobId : string) | OkJob (j : job) (st : job_state) | OkQueued (a : queue_answer) | OkPaused (b : bool) | OkStats (st : retry_stats)
| HealthReport (code : Z) (h : health) | Err404 | Err400 | NextErr (e : svc_error) | Err503.

(** [Array.prototype.slice] with the bounds made absolute. *)
Definition js_slice {A} (from to : Z) (l : list A) : list A :=
  let n := Z.of_nat (length l) in
  let abs z := if z <? 0 then Z.max 0 (n + z) else Z.min z n in
  take (Z.to_nat (abs to - abs from)) (drop (Z.to_nat (abs from)) l).

Definition listFailedJobs (limit_ offset_ : option string) (v : service) : service * http :=
  let limit := int_or limit_ 50 in
  let offset := int_or offset_ 0 in
  match initializeRetryQueue v with
  | (v1, Throw e) => (v1, NextErr (OtherError e))
  | (v1, Ok _) =>
    match getJobsByState "failed" (limit + offset) v1 with
    | (v2, Ok jobs) => (v2, OkJobs (js_slice offset (offset + limit) jobs) (Z.of_nat (length jobs)) limit offset)
    | (v2, Throw e) => (v2, NextErr e)
    end
  end.

Definition error_answer (e : svc_error) : http :=
  match e with NOT_FOUND => Err404 | VALIDATION_ERROR _ => Err400 | OtherError _ => NextErr e end.

Definition getFailedJobDetails (jobId : string) (v : service) : service * http :=
  match getJobDetails jobId v with
  | (v1, Ok (j, st)) => (v1, OkJob j st)
  | (v1, Throw NOT_FOUND) => (v1, Err404)
  | (v1, Throw e) => (v1, NextErr e)
  end.

(** The audit entries (action and target); written only with an audit context. *)
Definition audited (ctx : bool) (action target : string) (log : list (string * string)) : list (string * string) :=
  if ctx then log ++ [(action, target)] else log.

Definition retryFailedJob (ctx : bool) (jobId : string) (v : service) (log : list (string * string)) : service * list (string * string) * http :=
  match retryJobImmediately jobId v with
  | (v1, Ok i) => (v1, audited ctx "retry_failed_payment_job" jobId log, OkId i)
  | (v1, Throw e) => (v1, log, error_answer e)
  end.

Definition discardFailedJob (ctx : bool) (jobId : string) (v : service) (log : list (string * string)) : service * list (string * string) * http :=
  match removeJob jobId v with
  | (v1, Ok i) => (v1, audited ctx "discard_failed_payment_job" jobId log, OkId i)
  | (v1, Throw NOT_FOUND) => (v1, log, Err404)
  | (v1, Throw e) => (v1, log, NextErr e)
  end.

(** [/api/retry-queue]: the guard in front of every route, and the routes. *)
Definition requireRetryQueue (backend : option string) (locals : list string) : bool :=
  negb (bool_decide (backend = Some "mongodb") || negb (bool_decide ("retryQueue" ∈ locals))).

Inductive route := R_state (state : string) (limit : option string) | R_job (jobId : string) | R_retry (jobId : string) | R_delete (jobId : string)
| R_stats | R_health | R_pause | R_resume
| R_queue (now : Z) (id : nat) (transactionHash studentId memo : option string) (error : option (option string)).

(** The body's error keeps its message only: a new [Error] is made of it. *)
Definition serve_route (r : route) (v : service) (log : list (string * string)) : service * list (string * string) * http :=
  match r with
  | R_state st limit =>
    match getJobsByState st (int_or limit 50) v with
    | (v1, Ok jobs) => (v1, log, OkState st (Z.of_nat (length jobs)) jobs)
    | (v1, Throw e) => (v1, log, NextErr e)
    end
  | R_job i => match getJobDetails i v with (v1, Ok (j, st)) => (v1, log, OkJob j st) | (v1, Throw e) => (v1, log, NextErr e) end
  | R_retry i =>
    match retryJobImmediately i v with
    | (v1, Ok i') => (v1, log ++ [("RETRY_QUEUE_JOB_RETRIED", i)], OkId i')
    | (v1, Throw e) => (v1, log, NextErr e)
    end
  | R_delete i =>
    match removeJob i v with
    | (v1, Ok i') => (v1, log ++ [("RETRY_QUEUE_JOB_DELETED", i)], OkId i')
    | (v1, Throw e) => (v1, log, NextErr e)
    end
  | R_stats => (v, log, OkStats (getRetryQueueStats v))
  | R_health => let h := getHealthStatus v in (v, log, HealthReport (if h_healthy h then 200 else 503) h)
  | R_pause =>
    match pauseQueue v with
    | (v1, Ok b) => (v1, log ++ [("RETRY_QUEUE_PAUSED", "")], OkPaused b)
    | (v1, Throw e) => (v1, log, NextErr e)
    end
  | R_resume =>
    match resumeQueue v with
    | (v1, Ok b) => (v1, log ++ [("RETRY_QUEUE_RESUMED", "")], OkPaused b)
    | (v1, Throw e) => (v1, log, NextErr e)
    end
  | R_queue now id tx st memo error =>
    match truthy_or tx None with
    | None => (v, log, NextErr (VALIDATION_ERROR "transactionHash is required"))
    | Some tx =>
      match queueFailedTransaction now id tx st memo ((fun m => JobError None m) <$> error) v with
      | (v1, Ok a) => (v1, log ++ [("RETRY_QUEUE_TRANSACTION_QUEUED", tx)], OkQueued a)
      | (v1, Throw e) => (v1, log, NextErr (OtherError e))
      end
    end
  end.

Definition retry_queue_api (backend : option string) (locals : list string) (r : route) (v : service) (log : list (string * string))
  : service * list (string * string) * http :=
  if requireRetryQueue backend locals then serve_route r v log else (v, log, Err503).
End Service.
#[global] Arguments service Q : clear implicits.

(** ** Starting up (config/retryQueueSetup.js) *)

Inductive init_status := not_started | init_ok | init_failed (error : string).
Record setup := Setup { u_isInitialized : bool; u_initState : init_status }.

Definition start_setup (outcome : result job_error unit) (u : setup) : setup * result job_error unit :=
  if u_isInitialized u then (u, Ok tt) else
  match outcome with
  | Ok _ => (Setup true init_ok, Ok tt)
  | Throw e => (Setup false (init_failed (default "" (je_message e))), Throw e)
  end.

Definition getRetryQueueHealth (u : setup) : init_status * bool := (u_initState u, u_isInitialized u).

(** The names the application puts on [app.locals]. *)
Definition APP_LOCALS : list string := [].

(** * Theorems *)

(** ** The event log *)

Lemma push_event_last e log : (length log <= 1000)%nat -> push_event e log = last_n 1000 (log ++ [e]).
Proof.
  intros Hl. unfold push_event, last_n. rewrite length_app. cbn [length].
  destruct (Z.ltb_spec 1000 (Z.of_nat (length log + 1))) as [Hf|Hf].
  - replace (length log + 1 - 1000)%nat with 1%nat by lia. by destruct (log ++ [e]).
  - by replace (length log + 1 - 1000)%nat with 0%nat by lia.
Qed.

Lemma last_n_app {A} n (l r : list A) : last_n n (last_n n l ++ r) = last_n n (l ++ r).
Proof.
  unfold last_n. rewrite !length_app, length_drop. destruct (Nat.le_gt_cases (length l) n) as [Hl|Hl].
  - replace (length l - n)%nat with 0%nat by lia. cbn [drop]. f_equal. lia.
  - rewrite <- (take_drop (length l - n) l) at 6. rewrite <- app_assoc.
    rewrite (drop_app_ge (take (length l - n) l)) by (rewrite length_take; lia). f_equal. rewrite length_take. lia.
Qed.

Lemma last_n_length {A} n (l : list A) : (length (last_n n l) <= n)%nat.
Proof. unfold last_n. rewrite length_drop. lia. Qed.

(** The log holds the last thousand events of a history, in order. *)
Theorem event_log_keeps_last es log : (length log <= 1000)%nat ->
  fold_left (fun l e => push_event e l) es log = last_n 1000 (log ++ es).
Proof.
  revert log. induction es as [|e es IH]; intros log Hl; cbn [fold_left].
  - rewrite app_nil_r. unfold last_n. by replace (length log - 1000)%nat with 0%nat by lia.
  - rewrite IH by (rewrite push_event_last by done; apply last_n_length).
    rewrite push_event_last by done. rewrite last_n_app. by rewrite <- app_assoc.
Qed.

Lemma event_log_keeps_last_witness :
  fold_left (fun l e => push_event e l) [Event "A" "1"; Event "B" "2"] [] = last_n 1000 ([] ++ [Event "A" "1"; Event "B" "2"]).
Proof. apply event_log_keeps_last. cbn. lia. Defined.

(** ** A job's attempts *)
Section Attempts.
Context {Q : Type} `{BullQueue Q}.
Variable cfg : config.

(** A failed attempt: when, whether the dead-letter queue takes a letter then,
    and the error. *)
Record failure := Failure { f_now : Z; f_accepts : result job_error unit; f_error : job_error }.

(** The handler gives up at a permanent error and at the last attempt; [k]
    attempts were made before. *)
Definition gives_up (k : Z) (f : failure) : bool := isPermanent (f_error f) || (c_maxAttempts cfg - 1 <=? k).
Definition delivered (f : failure) : bool := c_dlqEnabled cfg && match f_accepts f with Ok _ => true | Throw _ => false end.

Definition letter (j : job) (k : Z) (f : failure) : dead_letter :=
  DeadLetter (j_id j) (jd_transactionHash (j_data j)) (jd_studentId (j_data j)) (je_message (f_error f)) (je_code (f_error f)) k (f_now f).

(** The failures from attempt [k] on that the handler gives up at, with the
    number of the attempt, and the dead letters of those. *)
Fixpoint given_up (k : Z) (fails : list failure) : list (Z * failure) :=
  match fails with
  | [] => []
  | f :: fails' => (if gives_up k f then [(k, f)] else []) ++ given_up (k + 1) fails'
  end.
Definition letters (j : job) (k : Z) (fails : list failure) : list dead_letter :=
  map (fun x => letter j x.1 x.2) (List.filter (fun x => delivered x.2) (given_up k fails)).

Lemma letters_cons j k f fails : letters j k (f :: fails) =
  (if gives_up k f && delivered f then [letter j k f] else []) ++ letters j (k + 1) fails.
Proof. unfold letters. cbn [given_up]. destruct (gives_up k f); cbn; [|done]. by destruct (delivered f). Qed.

Lemma dlq_made (s : mstate Q) : c_dlqEnabled cfg = true -> exists s1, createDeadLetterQueue cfg true s = Ok s1 /\
  s_dead s1 = s_dead s /\ s_metrics s1 = s_metrics s /\ s_jobs s1 = s_jobs s.
Proof.
  intros dlq_on. unfold createDeadLetterQueue, made, initializeRedisConnection. rewrite dlq_on.
  destruct (s_dlq s), (s_conn s) eqn:E; rewrite ?E; cbn; by eexists.
Qed.

Lemma moved_effect now acc j e (s : mstate Q) : let f := Failure now acc e in
  let s' := moveToDeadLetterQueue cfg true now acc j e s in
  s_dead s' = s_dead s ++ (if delivered f then [letter j (j_attemptsMade j) f] else []) /\
  s_metrics s' = (if delivered f then count_dead (s_metrics s) else s_metrics s) /\ s_jobs s' = s_jobs s.
Proof.
  cbn zeta. unfold moveToDeadLetterQueue, delivered. cbn [f_accepts]. destruct (c_dlqEnabled cfg) eqn:E; cbn [negb andb].
  - destruct (dlq_made s E) as (s1 & -> & E1 & E2 & E3). destruct acc; cbn; rewrite ?E1, ?E2, ?E3, ?app_nil_r; done.
  - cbn. by rewrite app_nil_r.
Qed.

Lemma handle_fails now acc j e (s : mstate Q) : let f := Failure now acc e in let k := j_attemptsMade j in
  exists s', handle cfg true now acc j (Throw e) s = (s', Throw e) /\
  s_dead s' = s_dead s ++ (if gives_up k f && delivered f then [letter j k f] else []) /\
  s_metrics s' = (if gives_up k f then count_failed (if delivered f then count_dead (s_metrics s) else s_metrics s)
                  else count_retried (s_metrics s)) /\
  s_jobs s' = s_jobs s.
Proof.
  cbn zeta. unfold handle. change (isPermanent e || (c_maxAttempts cfg - 1 <=? j_attemptsMade j)) with (gives_up (j_attemptsMade j) (Failure now acc e)).
  destruct (gives_up (j_attemptsMade j) (Failure now acc e)).
  - destruct (moved_effect now acc j e (logEvent "JOB_PROCESSING" (j_id j) s)) as (E1 & E2 & E3).
    eexists. split; [reflexivity|]. cbn [s_dead s_metrics s_jobs logEvent with_metrics] in *. rewrite E1, E2, E3. done.
  - eexists. split; [reflexivity|]. cbn. by rewrite app_nil_r.
Qed.

(** The counters after the attempts [fails]. *)
Definition counted (j : job) (k : Z) (fails : list failure) (m : jobMetrics) : jobMetrics :=
  let gone := Z.of_nat (length (given_up k fails)) in
  Metrics (m_totalJobs m) (m_successfulJobs m) (m_failedJobs m + gone) (m_retriedJobs m + (Z.of_nat (length fails) - gone))
    (m_deadLetteredJobs m + Z.of_nat (length (letters j k fails))) (m_lastJobProcessed m) (m_healthy m).

Lemma letters_id j k fails : letters (next_attempt j) k fails = letters j k fails.
Proof. done. Qed.

Lemma counted_cons j k f fails m : counted j (k + 1) fails
    (if gives_up k f then count_failed (if delivered f then count_dead m else m) else count_retried m) = counted j k (f :: fails) m.
Proof.
  unfold counted. rewrite letters_cons. cbn [given_up length]. rewrite !length_app.
  destruct (gives_up k f), (delivered f); cbn -[Z.of_nat]; f_equal; lia.
Qed.

Lemma run_failures env fails : forall left j (s : mstate Q), (length fails <= left)%nat ->
  (forall i f, fails !! i = Some f -> env (j_attemptsMade j + Z.of_nat i) = (f_now f, f_accepts f, Throw (f_error f))) ->
  exists s', run_attempts cfg true left env j s = run_attempts cfg true (left - length fails) env (Job (j_id j) (j_data j) (j_attemptsMade j + Z.of_nat (length fails))) s' /\
  s_dead s' = s_dead s ++ letters j (j_attemptsMade j) fails /\ s_metrics s' = counted j (j_attemptsMade j) fails (s_metrics s) /\ s_jobs s' = s_jobs s.
Proof.
  induction fails as [|[now acc e] fails IH]; intros left j s Hl He.
  { exists s. rewrite Nat.sub_0_r. cbn [length]. rewrite Z.add_0_r. destruct j as [i d a]. unfold letters. cbn [given_up List.filter map].
    rewrite app_nil_r. split; [done|]. split; [done|]. split; [|done]. unfold counted, letters. destruct (s_metrics s). cbn. f_equal; lia. }
  destruct left as [|left]; [cbn in Hl; lia|]. cbn [run_attempts]. pose proof (He 0%nat _ eq_refl) as H0.
  change (Z.of_nat 0) with 0 in H0. rewrite Z.add_0_r in H0. cbn [f_now f_accepts f_error] in H0. rewrite H0.
  destruct (handle_fails now acc j e s) as (s1 & -> & Ed & Em & Ej).
  destruct (IH left (next_attempt j) s1) as (s' & -> & Ed' & Em' & Ej'); [cbn in Hl; lia| |].
  { intros i f Hi. cbn [j_attemptsMade next_attempt]. rewrite <- (He (S i) f Hi). f_equal. lia. }
  exists s'. cbn [j_id j_data j_attemptsMade next_attempt length Nat.sub] in *. rewrite letters_id in Ed'. split.
  { by replace (j_attemptsMade j + Z.of_nat (S (length fails))) with (j_attemptsMade j + 1 + Z.of_nat (length fails)) by lia. }
  split; [rewrite Ed', Ed, <- app_assoc, letters_cons; done|]. split; [|congruence]. rewrite Em', Em. exact (counted_cons j (j_attemptsMade j) (Failure now acc e) fails (s_metrics s)).
Qed.


Lemma letters_transient j fails : forall k, c_dlqEnabled cfg = true -> Forall (fun f => f_accepts f = Ok tt) fails ->
  Forall (fun f => isPermanent (f_error f) = false) fails -> k + Z.of_nat (length fails) = c_maxAttempts cfg ->
  (0 < length fails)%nat -> exists f, letters j k fails = [letter j (c_maxAttempts cfg - 1) f].
Proof.
  induction fails as [|f fails IH]; intros k Hd Ha Hp Hk Hl; [cbn in Hl; lia|]. apply Forall_cons in Ha as [A1 Ha]. apply Forall_cons in Hp as [H1 Hp].
  rewrite letters_cons. unfold gives_up, delivered. rewrite H1, Hd, A1. cbn [orb andb length] in *. destruct fails as [|f' fails].
  - replace (c_maxAttempts cfg - 1 <=? k) with true by (symmetry; apply Z.leb_le; cbn in Hk; lia). cbn. exists f.
    repeat f_equal. cbn in Hk. lia.
  - replace (c_maxAttempts cfg - 1 <=? k) with false by (symmetry; apply Z.leb_gt; cbn [length] in Hk; lia).
    apply (IH (k + 1)); [done..| |cbn; lia]. cbn [length] in *. lia.
Qed.
End Attempts.

(** *** Concrete figures *)
Definition demo_cfg : config := Config true 3 60000 3600000 2 true 5.
Definition demo_metrics : jobMetrics := Metrics 0 0 0 0 0 None true.
Definition demo_state (q : list (job * job_state)) : mstate (list (job * job_state)) := MState true true true true true q [] demo_metrics [].
Definition demo_md : metadata := Metadata None None None unknown 0.
Definition demo_job : job := Job "tx-ab" (JobData "ab" None demo_md 0) 0.
Definition network_error : job_error := JobError (Some "ETIMEDOUT") (Some "timeout").
Definition memo_error : job_error := JobError (Some "MISSING_MEMO") (Some "no memo").


(** A failure that can never succeed is not failed at once: a job whose every
    attempt ends in a permanent error is dead-lettered once per attempt. *)
Theorem permanent_failure_dead_lettered_each_time :
  let '(s', st) := run_attempts demo_cfg true 3 (fun _ => (7, Ok tt, Throw memo_error)) demo_job (demo_state []) in
  st = failed /\ length (s_dead s') = 3%nat /\ m_failedJobs (s_metrics s') = 3.
Proof. vm_compute. done. Qed.

(** ** The look-up of a processed transaction *)

(** Processing always stops at the look-up of an earlier payment, which names no
    school: neither the verification nor the recording is reached, whatever the
    payments, the ledger and the database. *)
Theorem retry_job_never_verifies {P} `{TenantDoc P} (p_tx : P -> string) verify record now (ps : list P) j :
  try_block p_tx verify record now ps j = Throw (TransactionQueue.scope_error (TenantScopeError "Payment" op_findOne)).
Proof. reflexivity. Qed.

(** So every job uses up its attempts and ends as one dead letter. *)
Theorem every_retry_job_dead_letters {Q} `{BullQueue Q} {P} `{TenantDoc P} (p_tx : P -> string) verify record (ps : list P) cfg j (s : mstate Q) :
  c_dlqEnabled cfg = true -> 0 < c_maxAttempts cfg -> j_attemptsMade j = 0 ->
  let env k := (k, Ok tt, try_block p_tx verify record k ps j) in
  let '(s', st) := run_attempts cfg true (Z.to_nat (c_maxAttempts cfg)) env j s in
  st = failed /\ exists d, s_dead s' = s_dead s ++ [d] /\ dl_originalJobId d = j_id j /\ dl_failedAttempts d = c_maxAttempts cfg - 1.
Proof.
  intros Hd Hm Hj env. set (e := TransactionQueue.scope_error (TenantScopeError "Payment" op_findOne)).
  set (fails := map (fun i => Failure (Z.of_nat i) (Ok tt) e) (seq 0 (Z.to_nat (c_maxAttempts cfg)))).
  assert (length fails = Z.to_nat (c_maxAttempts cfg)) as El by (unfold fails; by rewrite length_map, length_seq).
  assert (forall i f, fails !! i = Some f -> env (Z.of_nat i) = (f_now f, f_accepts f, Throw (f_error f))) as He.
  { intros i f Hi. unfold fails in Hi. rewrite list_lookup_fmap in Hi. destruct (seq _ _ !! i) as [k|] eqn:Ek; [|done].
    apply lookup_seq in Ek as [-> _]. injection Hi as <-. done. }
  pose proof (run_failures cfg env fails (Z.to_nat (c_maxAttempts cfg)) j s ltac:(lia)) as (s' & -> & Ed & _ & _).
  { intros i f Hi. rewrite Hj. by apply He. }
  rewrite El, Nat.sub_diag. cbn [run_attempts]. split; [done|].
  destruct (letters_transient cfg j fails 0) as (f & El').
  - done.
  - apply Forall_forall. intros x Hx. unfold fails in Hx. apply list_elem_of_fmap in Hx as (i & -> & _). reflexivity.
  - apply Forall_forall. intros x Hx. unfold fails in Hx. apply list_elem_of_fmap in Hx as (i & -> & _). reflexivity.
  - rewrite El. lia.
  - lia.
  - rewrite Hj in Ed. rewrite El' in Ed. eexists. split; [exact Ed|]. done.
Qed.

(** ** Adding *)
Section Adding.
Context {Q : Type} `{BullQueue Q}.
Variable cfg : config.
Hypothesis on : c_enabled cfg = true.

Lemma queue_made (s : mstate Q) : exists s1, createTransactionRetryQueue true s = Ok s1 /\ s_jobs s1 = s_jobs s.
Proof.
  unfold createTransactionRetryQueue, made, initializeRedisConnection. destruct (s_queue s), (s_conn s) eqn:E; rewrite ?E; cbn; by eexists.
Qed.

Lemma job_id_of_inj a b : job_id_of a = job_id_of b -> a = b.
Proof. intros E. by injection E. Qed.

Definition new_job (now : Z) (tx : string) (studentId : option string) (md : metadata) : job := Job (job_id_of tx) (JobData tx studentId md now) 0.

Lemma add_effect now tx st md (s : mstate Q) : let s' := (addTransactionToRetryQueue cfg true now tx st md s).1 in
  getJob (job_id_of tx) (s_jobs s') = Some (default (new_job now tx st md, delayed) (getJob (job_id_of tx) (s_jobs s))) /\
  forall i, i <> job_id_of tx -> getJob i (s_jobs s') = getJob i (s_jobs s).
Proof.
  cbn zeta. unfold addTransactionToRetryQueue. rewrite on. cbn [negb]. destruct (queue_made s) as (s1 & -> & <-).
  pose proof (add_other (new_job now tx st md) (s_jobs s1)) as Ho. pose proof (add_new (new_job now tx st md) (s_jobs s1)) as Hn.
  pose proof (add_taken (new_job now tx st md) (s_jobs s1)) as Ht. cbn [new_job j_id] in Ho, Hn, Ht. fold (new_job now tx st md).
  destruct (getJob (job_id_of tx) (s_jobs s1)) as [[j []]|] eqn:E; cbn [fst logEvent with_jobs s_jobs default];
    rewrite ?Ht by done; try (by rewrite E); split; auto.
Qed.

(** One request to add: time, transaction, student, metadata. *)
Definition request : Type := Z * string * option string * metadata.

Definition run_adds (rs : list request) (s : mstate Q) : mstate Q :=
  fold_left (fun s '(now, tx, st, md) => (addTransactionToRetryQueue cfg true now tx st md s).1) rs s.

Definition first_for (tx : string) (rs : list request) : option (job * job_state) :=
  match List.find (fun r => (r.1.1.2 =? tx)%string) rs with
  | Some (now, tx, st, md) => Some (new_job now tx st md, delayed)
  | None => None
  end.

(** However often and in whatever order transactions are added, each has one
    job: the one it had, else that of the first request for it. *)
Theorem adds_keep_one_job rs (s : mstate Q) tx :
  getJob (job_id_of tx) (s_jobs (run_adds rs s)) =
  match getJob (job_id_of tx) (s_jobs s) with Some x => Some x | None => first_for tx rs end.
Proof.
  revert s. induction rs as [|[[[now tx'] st] md] rs IH]; intros s; unfold run_adds; cbn [fold_left].
  { by destruct (getJob _ _). }
  change (fold_left _ rs ?s0) with (run_adds rs s0). rewrite IH. unfold first_for. cbn [List.find fst snd].
  destruct (add_effect now tx' st md s) as [H1 H2]. destruct (String.eqb_spec tx' tx) as [->|Hne].
  - rewrite H1. destruct (getJob (job_id_of tx) (s_jobs s)) as [x|]; [done|].
    reflexivity.
  - rewrite H2; [done|]. intros E%job_id_of_inj. congruence.
Qed.
End Adding.

Lemma adds_keep_one_job_witness :
  getJob (job_id_of "ab") (s_jobs (run_adds demo_cfg [(1, "ab", None, demo_md); (2, "cd", None, demo_md); (3, "ab", Some "S1", demo_md)] (demo_state [])))
  = Some (new_job 1 "ab" None demo_md, delayed).
Proof.
  rewrite (adds_keep_one_job demo_cfg eq_refl [(1, "ab", None, demo_md); (2, "cd", None, demo_md); (3, "ab", Some "S1", demo_md)] (demo_state []) "ab").
  reflexivity.
Defined.

(** ** Queueing a failed transaction *)

(** Neither backend reads the document any more: the database worker takes
    pending ones, the recovery pending and processing ones. *)
Definition out_of_reach (d : pv_doc) : Prop := (forall now, is_due now d = false) /\ TransactionQueue.unresolved d = false.

Lemma queued_out_of_reach d : pv_st d = queued -> out_of_reach d.
Proof. intros Hq. split; [intros now; unfold is_due; by rewrite Hq|]. unfold TransactionQueue.unresolved. cbn. by rewrite Hq. Qed.

Lemma update_first_elem {p u ds x} : x ∈ update_first p u ds -> x ∈ ds \/ exists d, d ∈ ds /\ p d = true /\ x = u d.
Proof.
  induction ds as [|d ds IH]; cbn [update_first]; [set_solver|]. destruct (p d) eqn:E; rewrite !elem_of_cons.
  - intros [->|H]; [right; exists d; set_solver|left; by right].
  - intros [->|H]; [left; by left|]. destruct (IH H) as [H1|(y & Hy & Hp & ->)]; [left; by right|].
    right. exists y. set_solver.
Qed.

Lemma update_first_unique u ds tx : NoDup (map pv_tx ds) -> (forall d, pv_tx (u d) = pv_tx d) ->
  forall x, x ∈ update_first (fun d => (pv_tx d =? tx)%string) u ds -> pv_tx x = tx -> exists d, d ∈ ds /\ x = u d.
Proof.
  intros Hn Hu. induction ds as [|d ds IH]; cbn [update_first]; [set_solver|]. cbn [map] in Hn. apply NoDup_cons in Hn as [Hni Hn].
  intros x Hx Ht. destruct (String.eqb_spec (pv_tx d) tx) as [Et|Et]; apply elem_of_cons in Hx as [->|Hx].
  - exists d. set_solver.
  - exfalso. apply Hni. rewrite Et, <- Ht. apply list_elem_of_fmap. by exists x.
  - congruence.
  - destruct (IH Hn x Hx Ht) as (y & Hy & ->). exists y. set_solver.
Qed.

Lemma upsert_queued now id tx st msg ds d : NoDup (map pv_tx ds) -> d ∈ upsert_pending now id tx st msg ds -> pv_tx d = tx -> pv_st d = queued.
Proof.
  intros Hn. unfold upsert_pending. destruct (existsb _ ds) eqn:E; intros Hd Ht.
  - by destruct (update_first_unique (note_queued now msg) ds tx Hn ltac:(done) d Hd Ht) as (y & _ & ->).
  - apply elem_of_app in Hd as [Hd|Hd]; [|by apply list_elem_of_singleton in Hd as ->].
    exfalso. assert (existsb (fun d => (pv_tx d =? tx)%string) ds = true) as E'; [|congruence].
    apply existsb_exists. exists d. split; [by apply list_elem_of_In|]. by apply String.eqb_eq.
Qed.

(** What queueing does, once the queue is set up: a permanent error leaves
    everything as it was; any other marks the document of the transaction
    queued, whatever its status was, and adds at most one job. *)
Theorem queue_failed_transaction_effect {Q} `{BullQueue Q} cfg now id tx st memo error (v : service Q) :
  sv_instance v = true -> c_enabled cfg = true -> NoDup (map pv_tx (sv_docs v)) ->
  let '(v', a) := queueFailedTransaction cfg true now id tx st memo error v in
  if bool_decide (classifyError error = permanent) then v' = v /\ a = Ok (PermanentError (or_text (error ≫= je_code) "UNKNOWN"))
  else sv_docs v' = upsert_pending now id tx st (or_text (error ≫= je_message) "Unknown error") (sv_docs v)
    /\ (forall d, d ∈ sv_docs v' -> pv_tx d = tx -> out_of_reach d)
    /\ (exists x, getJob (job_id_of tx) (s_jobs (sv_queue v')) = Some x)
    /\ (forall i, i <> job_id_of tx -> getJob i (s_jobs (sv_queue v')) = getJob i (s_jobs (sv_queue v))).
Proof.
  intros Hi Hon Hn. unfold queueFailedTransaction, initializeRetryQueue. rewrite Hi. case_bool_decide; [done|].
  set (md := Metadata memo _ _ _ _). pose proof (add_effect cfg Hon now tx st md (sv_queue v)) as [H1 H2].
  destruct (addTransactionToRetryQueue cfg true now tx st md (sv_queue v)) as [s [a|e]]; cbn [fst] in H1, H2; cbn [sv_docs sv_queue];
    (split; [done|]; split; [|split; [by eexists|done]]); intros d Hd Ht; eapply queued_out_of_reach, upsert_queued; eauto.
Qed.

Definition demo_doc (st : pv_status) : pv_doc := PvDoc 0 (Some "A") "ab" None 2 None 5 st None None.

Lemma queue_failed_transaction_effect_witness :
  let v := Service true (demo_state []) [demo_doc resolved] false in
  let '(v', a) := queueFailedTransaction demo_cfg true 9 1 "ab" None None (Some network_error) v in
  if bool_decide (classifyError (Some network_error) = permanent) then v' = v /\ a = Ok (PermanentError (or_text (Some network_error ≫= je_code) "UNKNOWN"))
  else sv_docs v' = upsert_pending 9 1 "ab" None (or_text (Some network_error ≫= je_message) "Unknown error") [demo_doc resolved]
    /\ (forall d, d ∈ sv_docs v' -> pv_tx d = "ab" -> out_of_reach d)
    /\ (exists x, getJob (job_id_of "ab") (s_jobs (sv_queue v')) = Some x)
    /\ (forall i, i <> job_id_of "ab" -> getJob i (s_jobs (sv_queue v')) = getJob i []).
Proof.
  apply (queue_failed_transaction_effect demo_cfg 9 1 "ab" None None (Some network_error) (Service true (demo_state []) [demo_doc resolved] false));
    [reflexivity|reflexivity|]. apply NoDup_singleton.
Defined.

(** A transaction whose job has failed is reported as queued again, but the job
    stays failed, and its document is now out of reach of the other backend. *)
Theorem failed_job_not_requeued {Q} `{BullQueue Q} cfg now id tx st memo error (v : service Q) j :
  sv_instance v = true -> c_enabled cfg = true -> s_queue (sv_queue v) = true ->
  bool_decide (classifyError error = permanent) = false -> getJob (job_id_of tx) (s_jobs (sv_queue v)) = Some (j, failed) ->
  let '(v', a) := queueFailedTransaction cfg true now id tx st memo error v in
  a = Ok (QueuedAs (Some (job_id_of tx)) (classifyError error)) /\ s_jobs (sv_queue v') = s_jobs (sv_queue v).
Proof.
  intros Hi Hon Hq Hp Hj. unfold queueFailedTransaction, initializeRetryQueue. rewrite Hi, Hp.
  unfold addTransactionToRetryQueue, createTransactionRetryQueue, made. rewrite Hon, Hq, Hj. cbn [negb]. split; [done|].
  cbn. apply add_taken. cbn. congruence.
Qed.

Lemma failed_job_not_requeued_witness :
  let v := Service true (demo_state [(demo_job, failed)]) [] false in
  let '(v', a) := queueFailedTransaction demo_cfg true 9 1 "ab" None None (Some network_error) v in
  a = Ok (QueuedAs (Some (job_id_of "ab")) (classifyError (Some network_error))) /\ s_jobs (sv_queue v') = [(demo_job, failed)].
Proof.
  apply (failed_job_not_requeued demo_cfg 9 1 "ab" None None (Some network_error) (Service true (demo_state [(demo_job, failed)]) [] false) demo_job);
    reflexivity.
Defined.

(** With retries switched off the answer still says queued, and a pending
    document is taken from the worker that would have retried it. *)
Theorem disabled_retries_report_queued :
  let cfg := Config false 3 60000 3600000 2 true 5 in
  let '(v', a) := queueFailedTransaction cfg true 9 1 "ab" None None (Some network_error) (Service true (demo_state []) [demo_doc pending] false) in
  a = Ok (QueuedAs None transient) /\ s_jobs (sv_queue v') = [] /\ map pv_st (sv_docs v') = [queued] /\ is_due 9 (demo_doc pending) = true.
Proof. vm_compute. done. Qed.

(** The route drops the error's code: a permanent error is queued for retries. *)
Theorem queue_route_drops_code :
  (serve_route demo_cfg true (R_queue 9 1 (Some "ab") None None (Some (je_message memo_error))) (Service true (demo_state []) [] false) []).2
    = OkQueued (QueuedAs (Some "tx-ab") unknown) /\ classifyError (Some memo_error) = permanent.
Proof. vm_compute. done. Qed.

(** ** Looking at jobs *)

Lemma js_slice_page {A} limit offset (l : list A) : 0 < limit -> 0 <= offset ->
  js_slice offset (offset + limit) l = take (Z.to_nat limit) (drop (Z.to_nat offset) l).
Proof.
  intros Hl Ho. unfold js_slice. destruct (Z.ltb_spec offset 0) as [|_]; [lia|]. destruct (Z.ltb_spec (offset + limit) 0) as [|_]; [lia|].
  destruct (Z.le_gt_cases (Z.of_nat (length l)) offset) as [H|H].
  - rewrite !drop_ge by lia. by rewrite !take_nil.
  - rewrite (Z.min_l offset) by lia. destruct (Z.le_gt_cases (offset + limit) (Z.of_nat (length l))) as [H'|H'].
    + rewrite Z.min_l by lia. f_equal. lia.
    + rewrite Z.min_r by lia. rewrite !take_ge by (rewrite length_drop; lia). done.
Qed.

(** A page of failed jobs is the jobs [offset] to [offset + limit - 1] of the
    queue; the total is of the jobs read for it, one more than the page's end
    when there are as many. *)
Theorem failed_jobs_page {Q} `{BullQueue Q} cfg limit_ offset_ (v : service Q) :
  sv_instance v = true -> 0 < int_or limit_ 50 -> 0 <= int_or offset_ 0 ->
  let all := jobs_in failed (s_jobs (sv_queue v)) in
  listFailedJobs cfg true limit_ offset_ v =
  (v, OkJobs (take (Z.to_nat (int_or limit_ 50)) (drop (Z.to_nat (int_or offset_ 0)) all))
        (Z.min (Z.of_nat (length all)) (int_or limit_ 50 + int_or offset_ 0 + 1)) (int_or limit_ 50) (int_or offset_ 0)).
Proof.
  intros Hi Hl Ho all. unfold listFailedJobs, getJobsByState, initializeRetryQueue. rewrite Hi, Hi.
  change (parse_state "failed") with (Some failed). cbv iota beta. fold all. set (limit := int_or limit_ 50) in *. set (offset := int_or offset_ 0) in *.
  unfold range. destruct (Z.leb_spec 0 (limit + offset)) as [_|]; [|lia]. repeat f_equal.
  - rewrite js_slice_page by done. rewrite !take_drop_commute, take_take. do 2 f_equal. lia.
  - rewrite length_take. lia.
Qed.

Lemma failed_jobs_page_witness :
  let v := Service true (demo_state [(demo_job, failed); (next_attempt demo_job, failed)]) [] false in
  let all := jobs_in failed (s_jobs (sv_queue v)) in
  length all = 2%nat /\
  listFailedJobs demo_cfg true (Some "1") (Some "1") v =
  (v, OkJobs (take (Z.to_nat (int_or (Some "1") 50)) (drop (Z.to_nat (int_or (Some "1") 0)) all))
        (Z.min (Z.of_nat (length all)) (int_or (Some "1") 50 + int_or (Some "1") 0 + 1)) (int_or (Some "1") 50) (int_or (Some "1") 0)).
Proof.
  split; [reflexivity|].
  apply (failed_jobs_page demo_cfg (Some "1") (Some "1") (Service true (demo_state [(demo_job, failed); (next_attempt demo_job, failed)]) [] false));
    [reflexivity|vm_compute; reflexivity|vm_compute; discriminate].
Defined.

(** Asking for the jobs of a state gives one more than the limit. *)
Theorem jobs_by_state_one_more {Q} `{BullQueue Q} cfg limit (v : service Q) :
  sv_instance v = true -> 0 <= limit < Z.of_nat (length (jobs_in waiting (s_jobs (sv_queue v)))) ->
  exists jobs, getJobsByState cfg true "waiting" limit v = (v, Ok jobs) /\ Z.of_nat (length jobs) = limit + 1.
Proof.
  intros Hi Hl. unfold getJobsByState, initializeRetryQueue. rewrite Hi. eexists. split; [reflexivity|]. unfold range.
  destruct (Z.leb_spec 0 limit); [|lia]. rewrite length_take. lia.
Qed.

(** Retrying a job: only a failed one, which then waits; any other is refused
    and nothing changes, and other jobs never do. *)
Theorem retry_failed_job_effect {Q} `{BullQueue Q} cfg ctx jobId (v : service Q) log :
  sv_instance v = true ->
  let '(v', log', a) := retryFailedJob cfg true ctx jobId v log in
  match getJob jobId (s_jobs (sv_queue v)) with
  | None => v' = v /\ log' = log /\ a = Err404
  | Some (j, failed) => getJob jobId (s_jobs (sv_queue v')) = Some (j, waiting) /\ a = OkId jobId
      /\ log' = (if ctx then log ++ [("retry_failed_payment_job", jobId)] else log) /\ sv_docs v' = sv_docs v
      /\ forall i, i <> jobId -> getJob i (s_jobs (sv_queue v')) = getJob i (s_jobs (sv_queue v))
  | Some _ => v' = v /\ log' = log /\ a = Err400
  end.
Proof.
  intros Hi. unfold retryFailedJob, retryJobImmediately, with_job, initializeRetryQueue. rewrite Hi.
  destruct (getJob jobId _) as [[j []]|] eqn:E; cbn; try done.
  split; [by apply retry_failed|]. repeat split; [done..|]. intros i Hne. by apply retry_other.
Qed.

Lemma retry_failed_job_effect_witness :
  let v := Service true (demo_state [(demo_job, failed)]) [] false in
  let '(v', log', a) := retryFailedJob demo_cfg true true "tx-ab" v [] in
  getJob "tx-ab" (s_jobs (sv_queue v')) = Some (demo_job, waiting) /\ a = OkId "tx-ab"
    /\ log' = [("retry_failed_payment_job", "tx-ab")] /\ sv_docs v' = []
    /\ forall i, i <> "tx-ab" -> getJob i (s_jobs (sv_queue v')) = getJob i [(demo_job, failed)].
Proof. exact (retry_failed_job_effect demo_cfg true "tx-ab" (Service true (demo_state [(demo_job, failed)]) [] false) [] eq_refl). Defined.

(** Discarding a failed job does not ask whether it failed: a job that waits for
    its first retry is gone as well. *)
Theorem discard_takes_any_job {Q} `{BullQueue Q} cfg ctx jobId (v : service Q) log j :
  sv_instance v = true -> getJob jobId (s_jobs (sv_queue v)) = Some (j, delayed) ->
  let '(v', _, a) := discardFailedJob cfg true ctx jobId v log in
  a = OkId jobId /\ getJob jobId (s_jobs (sv_queue v')) = None.
Proof.
  intros Hi Hj. unfold discardFailedJob, removeJob, with_job, initializeRetryQueue. rewrite Hi, Hj.
  destruct (remove_gone jobId _ j delayed Hj ltac:(done)) as (q & -> & Hg & _). done.
Qed.

(** ** The state of the system *)

(** The health report never shows a dead letter: it reads the count of failed
    jobs of a queue no worker serves. *)
Theorem health_hides_dead_letters {Q} `{BullQueue Q} cfg redis (v : service Q) : h_deadLetteredJobs (getHealthStatus cfg redis v) = 0.
Proof. unfold getHealthStatus, getRetryQueueStats, getDLQStats. cbn. by destruct (_ || _). Qed.

(** No route of the retry queue can be reached: the guard asks for a name that
    nothing puts on the application. *)
Theorem retry_queue_api_unavailable {Q} `{BullQueue Q} cfg redis backend r (v : service Q) log :
  retry_queue_api cfg redis backend APP_LOCALS r v log = (v, log, Err503).
Proof. unfold retry_queue_api, requireRetryQueue. cbn. by rewrite orb_true_r. Qed.

(** The drain at shutdown answers at once, whatever the worker is doing. *)
Theorem drain_never_waits drain : drainWorker transactionRetryQueue_exports drain = (true, 0, 0).
Proof. reflexivity. Qed.

(** Setting up: with a client everything is made, in one go or again after a
    failure; without one the first queue already throws, and nothing is made. *)
Theorem initialize_queue_spec {Q} `{BullQueue Q} cfg redis (s : mstate Q) :
  s_conn s = false -> s_queue s = false -> s_dlq s = false -> s_events s = false -> s_worker s = false ->
  let '(s', a) := initializeQueue cfg redis s in
  s_jobs s' = s_jobs s /\ s_dead s' = s_dead s /\ s_conn s' = redis /\ s_queue s' = redis /\ s_worker s' = redis /\ s_events s' = redis
  /\ s_dlq s' = redis && c_dlqEnabled cfg /\ (if redis then a = Ok tt else exists e, a = Throw e /\ s_log s' = s_log s).
Proof.
  intros Hc Hq Hd He Hw. unfold initializeQueue, createTransactionRetryQueue, made, initializeRedisConnection.
  rewrite Hc. cbn [s_queue]. rewrite Hq. cbn [s_conn]. destruct redis; cbn; [|repeat split; try done; by eexists].
  unfold createDeadLetterQueue, made, initializeRedisConnection. cbn. rewrite Hd.
  destruct (c_dlqEnabled cfg); unfold setupEventListeners, createQueueEvents, made, initializeRedisConnection; cbn; rewrite He; cbn;
    unfold createRetryWorker; cbn; rewrite Hw; cbn; done.
Qed.

Lemma initialize_queue_spec_witness :
  let s0 := MState false false false false false [(demo_job, delayed)] [] demo_metrics [] in
  let '(s', a) := initializeQueue demo_cfg true s0 in
  s_jobs s' = [(demo_job, delayed)] /\ s_dead s' = [] /\ s_conn s' = true /\ s_queue s' = true /\ s_worker s' = true /\ s_events s' = true
  /\ s_dlq s' = true && c_dlqEnabled demo_cfg /\ a = Ok tt.
Proof. apply (initialize_queue_spec demo_cfg true (MState false false false false false [(demo_job, delayed)] [] demo_metrics [])); reflexivity. Defined.

(** The health check says ok exactly when the queue was initialised, after any
    number of attempts. *)
Theorem setup_health_honest outcomes :
  let u := fold_left (fun u o => (start_setup o u).1) outcomes (Setup false not_started) in
  (getRetryQueueHealth u).1 = init_ok <-> (getRetryQueueHealth u).2 = true.
Proof.
  cbn zeta. assert (forall u, (u_initState u = init_ok <-> u_isInitialized u = true) ->
    let u' := fold_left (fun u o => (start_setup o u).1) outcomes u in (u_initState u' = init_ok <-> u_isInitialized u' = true)) as Hg.
  { induction outcomes as [|o os IH]; intros u Hu; cbn [fold_left]; [done|]. apply IH. unfold start_setup.
    destruct (u_isInitialized u) eqn:E; [cbn; by rewrite E|]. by destruct o. }
  apply Hg. done.
Qed.
End RetryQueue.
