(* ===== verification/PaymentFlow.v ===== *)
(** The payment flow of backend/src/controllers/paymentController.js: payment
    instructions, intents, the submission of a signed transaction and the
    verification of a payment, over the students and payments of StudentBalance,
    the locks of DistributedLock, the verified transactions of LedgerPayments
    and the retry documents of RetryWorker.

    What the ledger answers to a call (the verification, the latest ledger, a
    submission) is part of the call.  [recordPayment] is defined in no file of
    the repository: class [Recorder] is what its callers rely on.  The local
    currency of the answers and the receipt made in the background (Receipts)
    are left out. *)

From Stdlib Require Import Ascii ZArith QArith Lia.
From stdpp Require Import base strings sets gmap list.
From S2P Require Import Prelude JsNumber JsString StellarAmount DecimalLib Money ModelPlugins Confirmation PaymentStatus PaymentModel DistributedLock StellarRetry LedgerPayments RetryWorker TransactionQueue StudentBalance.
Import RetryContract Confirmation PaymentModel.
Local Open Scope string_scope.
Local Open Scope Z_scope.
Local Open Scope list_scope.

(** ** What is handed to the recording of a payment *)

Record payment_args := PaymentArgs {
  pa_schoolId : string; pa_studentId : string; pa_txHash : string; pa_amount : number; pa_feeAmount : option number;
  pa_feeValidationStatus : Money.fee_status; pa_excessAmount : number; pa_networkFee : number; pa_status : payment_status;
  pa_memo : string; pa_senderAddress : option string; pa_ledgerSequence : option Z; pa_confirmationStatus : legacy_status;
  pa_confirmationState : CONFIRMATION_STATES; pa_verifiedAt : Z
}.

(** A recording adds one live payment that carries the arguments, or throws and
    leaves the payments alone. *)
Class Recorder := {
  recordPayment : payment_args -> list StudentBalance.entry -> result job_error (list StudentBalance.entry);
  recordPayment_ok : forall a l l', recordPayment a l = Ok l' -> exists e, l' = l ++ [e] /\
    let p := StudentBalance.e_payment e in
    p_schoolId p = pa_schoolId a /\ p_studentId p = pa_studentId a /\ p_txHash p = pa_txHash a /\ p_amount p = pa_amount a /\
    p_status p = pa_status a /\ p_isSuspicious p = false /\ p_deletedAt p = None
}.

Module PaymentFlow.
Import LedgerPayments StellarRetry DistributedLock StudentBalance.

Definition PERMANENT_FAIL_CODES : list string :=
  ["TX_FAILED"; "MISSING_MEMO"; "INVALID_DESTINATION"; "UNSUPPORTED_ASSET"; "AMOUNT_TOO_LOW"; "AMOUNT_TOO_HIGH"; "UNDERPAID"].

Inductive intent_status := intent_pending | intent_completed | intent_expired.

#[export] Instance intent_status_eq_dec : EqDecision intent_status.
Proof. solve_decision. Defined.

Record intent := Intent {
  i_id : Z; i_schoolId : string; i_studentId : string; i_amount : number; i_feeCategory : option string;
  i_memo : string; i_status : intent_status; i_expiresAt : Z
}.

Record attempt := Attempt { at_schoolId : string; at_txHash : string; at_code : option string; at_message : option string; at_time : Z }.

Definition getExplorerUrl (mainnet : bool) (txHash : string) : option string :=
  if str_truthy txHash then Some ("https://stellar.expert/explorer/" +:+ (if mainnet then "public" else "testnet") +:+ "/tx/" +:+ txHash) else None.

Definition wrapStellarError (e : job_error) : job_error :=
  if str_truthy (default "" (je_code e)) then e
  else JobError (Some "STELLAR_NETWORK_ERROR") (Some ("Stellar network error: " +:+ default "undefined" (je_message e))).

(** ** Instructions and intents *)
Section Flow.
Context `{DL : DecimalLib} `{MS : !MongoSum}.

Definition computeRemainingBalance (fee : fee_category) : result money_error number :=
  match fc_remainingBalance fee with
  | Some r => d ← toMoney (MNumber r); Ok (dec_toNumber d)
  | None =>
    amount ← toMoney (MNumber (fc_amount fee));
    totalPaid ← toMoney (MNumber (num_or (fc_totalPaid fee) (of_Z 0)));
    Ok (dec_toNumber (dec_max (dec_of_number (of_Z 0)) (dec_minus amount totalPaid)))
  end.

Record category_info := CategoryInfo { ci_category : string; ci_amount : number; ci_paid : bool; ci_totalPaid : number; ci_remainingBalance : number }.

Definition category_info_of (f : fee_category) : result money_error category_info :=
  r ← computeRemainingBalance f;
  Ok (CategoryInfo (fc_category f) (fc_amount f) (fc_paid f) (num_or (fc_totalPaid f) (of_Z 0)) r).

Definition find_fee (category : string) (s : student) : option fee_category :=
  List.find (fun f => (fc_category f =? category)%string) (st_fees s).

Inductive instructions := AssetNotAccepted | Instructions (feeAmount : option number) (info : option category_info).

(** [asset.split(':')[0]] *)
Fixpoint before_colon (l : list Ascii.ascii) : list Ascii.ascii :=
  match l with [] => [] | c :: l' => if Ascii.eqb c ":"%char then [] else c :: before_colon l' end.

Definition getPaymentInstructions (accepted : list string) (schoolId studentId : string) (feeCategory asset : option string) (d : db)
  : result money_error instructions :=
  let asked := match asset with Some a => str_truthy a && negb (bool_decide (text (before_colon (chars a)) ∈ accepted)) | None => false end in
  if asked then Ok AssetNotAccepted else
  match find_student schoolId studentId (students d) with
  | None => Ok (Instructions None None)
  | Some s =>
    match (c ← feeCategory; if str_truthy c then find_fee c s else None) with
    | Some f => i ← category_info_of f; Ok (Instructions (Some (fc_amount f)) (Some i))
    | None => Ok (Instructions (Some (st_feeAmount s)) None)
    end
  end.

Inductive intent_answer := IntentCreated (i : intent) (info : option category_info) | IntentNotFound | InvalidFeeCategory
| LimitRefused | DuplicateIntent.

(** [valid]: what the limits say of an amount; [memo] and [id] are fresh; the
    index on school and memo is unique. *)
Definition createPaymentIntent (valid : number -> bool) (now ttl id : Z) (memo schoolId studentId : string) (feeCategory : option string)
  (d : db) (is_ : list intent) : result money_error (intent_answer * list intent) :=
  match find_student schoolId studentId (students d) with
  | None => Ok (IntentNotFound, is_)
  | Some s =>
    let category := match feeCategory with Some c => if str_truthy c then Some c else None | None => None end in
    let make amount info :=
      if negb (valid amount) then (LimitRefused, is_) else
      let i := Intent id schoolId studentId amount category memo intent_pending (now + ttl) in
      if existsb (fun x => (i_schoolId x =? schoolId)%string && (i_memo x =? memo)%string) is_ then (DuplicateIntent, is_)
      else (IntentCreated i info, is_ ++ [i]) in
    match category, st_fees s with
    | Some c, _ :: _ =>
      match find_fee c s with
      | None => Ok (InvalidFeeCategory, is_)
      | Some f => info ← category_info_of f; Ok (make (fc_amount f) (Some info))
      end
    | _, _ => Ok (make (st_feeAmount s) None)
    end
  end.

(** ** Verifying a payment *)

Record world := World {
  w_db : db; w_redis : redis; w_intents : list intent; w_attempts : list attempt; w_pending : list RetryWorker.pv_doc;
  w_audit : list (bool * string)   (** success or failure, and the hash *)
}.

(** One request and what it meets: how the lock calls end, what verifying the
    transaction answers (nothing: no payment to the wallet), the latest ledger,
    and the time that passes meanwhile. *)
Record call := Call {
  k_now : Z; k_schoolId : string; k_txHash : hash_arg; k_studentId : option string;
  k_verifyToken : string; k_studentToken : string; k_verifyTtl : Z; k_studentTtl : Z; k_elapsed : Z;
  k_acquire1 : fault; k_acquire2 : fault; k_release1 : fault; k_release2 : fault;
  k_verify : result job_error (option verified); k_latest : result job_error Z; k_pendingId : nat
}.

Definition set_db (d : db) (w : world) : world := World d (w_redis w) (w_intents w) (w_attempts w) (w_pending w) (w_audit w).
Definition set_redis (r : redis) (w : world) : world := World (w_db w) r (w_intents w) (w_attempts w) (w_pending w) (w_audit w).
Definition set_intents (l : list intent) (w : world) : world := World (w_db w) (w_redis w) l (w_attempts w) (w_pending w) (w_audit w).
Definition set_pending (l : list RetryWorker.pv_doc) (w : world) : world := World (w_db w) (w_redis w) (w_intents w) (w_attempts w) l (w_audit w).
Definition add_audit (ok : bool) (h : string) (w : world) : world :=
  World (w_db w) (w_redis w) (w_intents w) (w_attempts w) (w_pending w) (w_audit w ++ [(ok, h)]).

Definition recordVerificationAttempt (a : attempt) (w : world) : world :=
  World (w_db w) (w_redis w) (w_intents w) (w_attempts w ++ [a]) (w_pending w) (w_audit w).

(** [Payment.findOne({ schoolId, txHash, status: { $ne: 'REJECTED' } })] among
    the payments that are not deleted. *)
Definition is_existing (schoolId h : string) (e : entry) : bool :=
  let p := e_payment e in
  (p_schoolId p =? schoolId)%string && (p_txHash p =? h)%string && negb (bool_decide (p_status p = S_REJECTED)) && bool_decide (p_deletedAt p = None).

Definition existing_payment (schoolId h : string) (l : list entry) : option entry := List.find (is_existing schoolId h) l.

Record outcome := Outcome { oc_hash : string; oc_studentId : string; oc_amount : number; oc_class : classification }.

Inductive answer := BadRequest | Cached (e : entry) | Busy | QueuedForRetry | NothingForSchool | NoStudent | NextError (e : job_error) | Done (o : outcome).

Definition verifyLockKey (schoolId h : string) : string := "sync:lock:" +:+ schoolId +:+ ":verify:" +:+ h.

Definition money_failure (e : money_error) : job_error := JobError None (Some "[DecimalError] Invalid argument").
Definition of_money {A} (r : result money_error A) : result job_error A := match r with Ok a => Ok a | Throw e => Throw (money_failure e) end.
Definition of_text {A} (r : result string A) : result job_error A := match r with Ok a => Ok a | Throw e => Throw (JobError None (Some e)) end.

(** The status of the payment: the earlier payments and this one against the fee. *)
Definition classify_with (schoolId : string) (s : student) (amount : number) (l : list entry) : result money_error classification :=
  prevTotal ← sumCanonicalPayments schoolId (st_studentId s) None l;
  this ← toMoney (MNumber amount);
  classifyFeePayment (MDecimal (dec_plus prevTotal this)) (MNumber (st_feeAmount s)).

Section Verify.
Context `{Rec : Recorder}.
Variables CONFIRMATION_THRESHOLD FINALIZATION_THRESHOLD : Z.

Definition args_of (c : call) (s : student) (v : verified) (cl : classification) (conf : determination) : payment_args :=
  PaymentArgs (k_schoolId c) (st_studentId s) (v_hash v) (v_amount v) (Some (match v_feeAmount v with Some f => num_or f (st_feeAmount s) | None => st_feeAmount s end))
    (status cl) (excessAmount cl) (v_networkFee v) S_SUCCESS (v_memo v) (v_sender v) (numopt_or (v_ledger v) None)
    (d_confirmationStatus conf) (d_state conf) (k_now c).

(** The section under the student's lock: what it leaves in the database, and
    the answer or the error it throws. *)
Definition credit (c : call) (h : string) (s : student) (v : verified) (d : db) : db * result job_error answer :=
  match (cl ← of_money (classify_with (k_schoolId c) s (v_amount v) (ledger d));
         latest ← k_latest c;
         conf ← of_text (determineConfirmationState CONFIRMATION_THRESHOLD FINALIZATION_THRESHOLD latest (numopt_or (v_ledger v) None) None false);
         Ok (cl, conf)) with
  | Throw e => (d, Throw e)
  | Ok (cl, conf) =>
    match recordPayment (args_of c s v cl conf) (ledger d) with
    | Throw e =>
      if bool_decide (je_code e = Some "DUPLICATE_TX") then
        match existing_payment (k_schoolId c) h (ledger d) with Some p => (d, Ok (Cached p)) | None => (d, Throw e) end
      else (d, Throw e)
    | Ok l =>
      match updateStudentBalance (k_schoolId c) (st_studentId s) true (Db (students d) l (periods d) (period_fees d)) with
      | (d', Ok _) => (d', Ok (Done (Outcome (v_hash v) (st_studentId s) (v_amount v) cl)))
      | (d', Throw e) => (d', Throw (money_failure e))
      end
    end
  end.

(** An intent that ran out is marked and does not stop the payment. *)
Definition expire_intent (now : Z) (schoolId memo : string) (is_ : list intent) : list intent :=
  match List.find (fun i => (i_memo i =? memo)%string && (i_schoolId i =? schoolId)%string) is_ with
  | Some i =>
    if i_expiresAt i <? now then
      map (fun x => if (i_id x =? i_id i) && (i_schoolId x =? schoolId)%string
                    then Intent (i_id x) (i_schoolId x) (i_studentId x) (i_amount x) (i_feeCategory x) (i_memo x) intent_expired (i_expiresAt x) else x) is_
    else is_
  | None => is_
  end.

(** The student's lock around the section; the release is in a [finally]. *)
Definition with_student (c : call) (h : string) (s : student) (v : verified) (w : world) : world * result job_error answer :=
  let key := studentBalanceLockKey (k_schoolId c) (st_studentId s) in
  match acquire_redis (k_acquire2 c) (k_studentToken c) key (k_studentTtl c) (w_redis w) with
  | (r1, None) => (set_redis r1 w, Ok Busy)
  | (r1, Some a) =>
    let '(d, res) := credit c h s v (w_db w) in
    let w1 := set_db d (set_redis (release_redis (k_release2 c) key (a_token a) r1).1 w) in
    (match res with Ok (Done _) | Ok (Cached _) => add_audit true h w1 | _ => w1 end, res)
  end.

(** The verification under the lock of the transaction. *)
Definition verify_body (c : call) (h : string) (w0 : world) : world * result job_error answer :=
  let w := set_redis (tick (k_elapsed c) (w_redis w0)) w0 in
  match k_verify c with
  | Throw e =>
    if bool_decide (default "" (je_code e) ∈ PERMANENT_FAIL_CODES) then
      (recordVerificationAttempt (Attempt (k_schoolId c) h (je_code e) (je_message e) (k_now c)) (add_audit false h w), Ok (NextError e))
    else
      let w1 := add_audit true h w in
      match RetryWorker.queueForRetry (k_now c) (k_pendingId c) h (k_studentId c) (default "undefined" (je_message e)) (k_schoolId c) (w_pending w1) with
      | Ok ds => (set_pending ds w1, Ok QueuedForRetry)
      | Throw _ => (w1, Throw (JobError (Some "11000") (Some "duplicate key")))
      end
  | Ok None => (add_audit false h w, Ok NothingForSchool)
  | Ok (Some v) =>
    match find_student (k_schoolId c) (v_memo v) (students (w_db w)) with
    | None => (add_audit false h w, Ok NoStudent)
    | Some s => with_student c h s v (set_intents (expire_intent (k_now c) (k_schoolId c) (v_memo v) (w_intents w)) w)
    end
  end.

Definition hash_code (e : hash_error) : string :=
  match e with
  | MISSING_HASH => "MISSING_HASH" | INVALID_HASH_TYPE => "INVALID_HASH_TYPE"
  | INVALID_HASH_LENGTH _ => "INVALID_HASH_LENGTH" | INVALID_HASH_FORMAT => "INVALID_HASH_FORMAT"
  end.

(** [req.body.txHash] as the audit names it. *)
Definition raw_hash (c : call) : string := match k_txHash c with HashText t => t | _ => "unknown" end.

(** The handler: the outer [catch] audits what was thrown. *)
Definition verifyPayment (c : call) (w : world) : world * answer :=
  if negb (hash_truthy (k_txHash c)) then (add_audit false ("missing-tx:" +:+ k_schoolId c) w, BadRequest) else
  match validateTransactionHash (k_txHash c) with
  | Throw e => (add_audit false (raw_hash c) w, NextError (JobError (Some (hash_code e)) None))
  | Ok h =>
    match existing_payment (k_schoolId c) h (ledger (w_db w)) with
    | Some e => (add_audit true h w, Cached e)
    | None =>
      let key := verifyLockKey (k_schoolId c) h in
      match acquire_redis (k_acquire1 c) (k_verifyToken c) key (k_verifyTtl c) (w_redis w) with
      | (r1, None) => (set_redis r1 w, Busy)
      | (r1, Some a) =>
        let '(w1, res) := verify_body c h (set_redis r1 w) in
        let w2 := set_redis (release_redis (k_release1 c) key (a_token a) (w_redis w1)).1 w1 in
        match res with
        | Ok ans => (w2, ans)
        | Throw e => (add_audit false (raw_hash c) w2, NextError e)
        end
      end
    end
  end.
End Verify.
End Flow.

(** * Theorems *)
Section Theorems.
Context `{DL : DecimalLib} `{MS : !MongoSum} `{Rec : Recorder}.
Variables CT FT : Z.

(** ** Instructions *)

(** The balance shown for a fee category is the part of the fee that is not
    paid, to the stroop, and nothing when the fee is covered. *)
Theorem category_balance_exact f za zt :
  fc_remainingBalance f = None -> fc_amount f = stroopsToNumber za -> fc_totalPaid f = stroopsToNumber zt ->
  0 <= za < 10 ^ 15 -> 0 <= zt < 10 ^ 15 ->
  computeRemainingBalance f = Ok (stroopsToNumber (Z.max 0 (za - zt))).
Proof.
  intros Hr Ha Ht Hza Hzt. unfold computeRemainingBalance. rewrite Hr, Ha, Ht. cbn [toMoney mbind result_bind]. f_equal.
  rewrite (stroopsToNumber_nearest (Z.max 0 (za - zt))). apply toNumber_denotes. fold (units (Z.max 0 (za - zt))).
  assert (denotes (dec_minus (dec_of_number (stroopsToNumber za)) (dec_of_number (num_or (stroopsToNumber zt) (of_Z 0)))) (units za - units zt)) as Hm.
  { apply minus_denotes; [apply number_denotes; lia|apply number_or_denotes; lia|]. rewrite units_sub. apply (fits20_scaled (za - zt) 7). lia. }
  rewrite units_sub in Hm. pose proof (max_denotes _ _ _ _ zero_denotes Hm) as H. by rewrite units_max in H.
Qed.

(** ** The locks *)

Lemma release_frees key token r : str_truthy token = true -> owned key token (release_redis NoFault key token r).1 = false.
Proof.
  intros Ht. unfold release_redis. rewrite Ht. cbn [negb]. unfold RELEASE_SCRIPT.
  destruct (owned key token r) eqn:E; cbn [fst]; [|done]. unfold owned, rget, rdel. cbn. by rewrite lookup_delete_eq.
Qed.

Lemma release_keeps_free f key token k t r : owned k t r = false -> owned k t (release_redis f key token r).1 = false.
Proof.
  intros Ho. assert (owned k t (RELEASE_SCRIPT key token r).1 = false) as H.
  { unfold RELEASE_SCRIPT. destruct (owned key token r); cbn [fst]; [|done]. unfold owned, rget, rdel in *. cbn.
    destruct (decide (k = key)) as [->|Hne]; [by rewrite lookup_delete_eq|by rewrite lookup_delete_ne]. }
  unfold release_redis. destruct (negb _); [done|]. destruct f; [|done|done]. by destruct (RELEASE_SCRIPT key token r) as [r' x].
Qed.

(** Refused without a fault, nothing changed; otherwise only the key and its
    counter did. *)
Lemma acquire_owned token key ttl r k t : owned k t r = false -> k <> getFenceKey key -> k <> key \/ t <> token ->
  owned k t (acquire_redis NoFault token key ttl r).1 = false.
Proof.
  intros Ho Hf Hk. unfold acquire_redis, ACQUIRE_WITH_FENCE_SCRIPT.
  destruct (match rget key r with Some _ => _ | None => _ end); [done|].
  destruct (incr (getFenceKey key) r) as [[fence r1]|] eqn:Ei; [|done]. cbn [fst].
  assert (owned k t r1 = false /\ clock r1 = clock r) as [H1 Hc].
  { unfold incr in Ei. assert (forall e, owned k t (rset (getFenceKey key) e r) = false) as Hset.
    { intros e. unfold owned, rget, rset in *. cbn. by rewrite lookup_insert_ne. }
    destruct (rget (getFenceKey key) r) as [[[] ?]|]; simplify_eq; eauto. }
  unfold owned, rget, rset in *. cbn. destruct (decide (k = key)) as [->|Hne].
  - rewrite lookup_insert_eq. destruct Hk as [|Hk]; [done|]. destruct (live _ _); [|done]. cbn. by apply bool_decide_eq_false.
  - by rewrite lookup_insert_ne.
Qed.

Lemma acquire_token token key ttl r r' a : acquire_redis NoFault token key ttl r = (r', Some a) -> a_token a = token.
Proof. unfold acquire_redis. destruct (ACQUIRE_WITH_FENCE_SCRIPT _ _ _ _ _) as [? [[?|]|]]; by intros; simplify_eq. Qed.

Lemma tick_owned dt k t r : 0 <= dt -> owned k t r = false -> owned k t (tick dt r) = false.
Proof.
  intros Hd. unfold owned, rget, tick. cbn. destruct (store r !! k) as [e|]; [|done].
  destruct (live (clock r + dt) e) eqn:E; [|done]. enough (live (clock r) e = true) as -> by done.
  unfold live in *. destruct (e_exp e) as [x|]; [|done]. apply Z.ltb_lt in E. apply Z.ltb_lt. lia.
Qed.

Lemma acquire_released token key ttl r r1 a k :
  acquire_redis NoFault token key ttl r = (r1, Some a) -> str_truthy token = true ->
  owned k token r = false -> k <> getFenceKey key -> owned k token (release_redis NoFault key (a_token a) r1).1 = false.
Proof.
  intros Ha Ht Ho Hf. pose proof (acquire_token _ _ _ _ _ _ Ha) as ->. destruct (decide (k = key)) as [->|Hne]; [by apply release_frees|].
  apply release_keeps_free. pose proof (acquire_owned token key ttl r k token Ho Hf (or_introl Hne)) as H. by rewrite Ha in H.
Qed.

Lemma lock_not_fence k l : "sync:lock:" +:+ k <> getFenceKey l.
Proof. unfold getFenceKey, FENCE_PREFIX. discriminate. Qed.

(** No lock of a student is left under the call's token. *)
Definition students_free (c : call) (r : redis) : Prop :=
  forall stu, owned (studentBalanceLockKey (k_schoolId c) stu) (k_studentToken c) r = false.

Lemma with_student_free c h s v w : k_acquire2 c = NoFault -> k_release2 c = NoFault -> str_truthy (k_studentToken c) = true ->
  students_free c (w_redis w) -> students_free c (w_redis (with_student CT FT c h s v w).1).
Proof.
  intros Ha Hr Ht Hs stu. unfold with_student. rewrite Ha, Hr.
  destruct (acquire_redis _ _ _ _ _) as [r1 [a|]] eqn:E.
  - destruct (credit _ _ _ _ _ _ _) as [d res]. pose proof (acquire_released _ _ _ _ _ _ (studentBalanceLockKey (k_schoolId c) stu) E Ht (Hs stu)) as H.
    specialize (H (lock_not_fence _ _)). by destruct res as [[]|].
  - cbn. pose proof E as E'. unfold acquire_redis in E'. unfold ACQUIRE_WITH_FENCE_SCRIPT in E'.
    destruct (match rget _ (w_redis w) with Some _ => _ | None => _ end); [by simplify_eq|]. destruct (incr _ _) as [[]|]; by simplify_eq.
Qed.

Lemma verify_body_free c h w : k_acquire2 c = NoFault -> k_release2 c = NoFault -> str_truthy (k_studentToken c) = true -> 0 <= k_elapsed c ->
  students_free c (w_redis w) -> students_free c (w_redis (verify_body CT FT c h w).1).
Proof.
  intros Ha Hr Ht He Hs. assert (students_free c (tick (k_elapsed c) (w_redis w))) as Hs' by (intros stu; by apply tick_owned).
  unfold verify_body. destruct (k_verify c) as [[v|]|e]; [|done|].
  - destruct (find_student _ _ _) as [s|]; [|done]. by apply with_student_free.
  - destruct (bool_decide _); [done|]. by destruct (RetryWorker.queueForRetry _ _ _ _ _ _ _).
Qed.

(** Whatever a verification answers or throws, when no lock call is lost it
    leaves no lock behind: neither that of the transaction nor that of any
    student is held under its tokens. *)
Theorem verify_gives_locks_back c w h :
  k_acquire1 c = NoFault -> k_acquire2 c = NoFault -> k_release1 c = NoFault -> k_release2 c = NoFault ->
  str_truthy (k_verifyToken c) = true -> str_truthy (k_studentToken c) = true -> k_verifyToken c <> k_studentToken c -> 0 <= k_elapsed c ->
  owned (verifyLockKey (k_schoolId c) h) (k_verifyToken c) (w_redis w) = false -> students_free c (w_redis w) ->
  let w' := (verifyPayment CT FT c w).1 in
  (validateTransactionHash (k_txHash c) = Ok h -> owned (verifyLockKey (k_schoolId c) h) (k_verifyToken c) (w_redis w') = false)
  /\ students_free c (w_redis w').
Proof.
  intros Ha1 Ha2 Hr1 Hr2 Ht1 Ht2 Hne He Hv Hs. cbv zeta. unfold verifyPayment. destruct (negb _); [done|].
  destruct (validateTransactionHash _) as [h'|]; [|done]. destruct (existing_payment _ _ _); [done|]. rewrite Ha1, Hr1.
  destruct (acquire_redis _ _ _ _ _) as [r1 [a|]] eqn:E.
  - assert (students_free c r1) as Hs1.
    { intros stu. pose proof (acquire_owned (k_verifyToken c) (verifyLockKey (k_schoolId c) h') (k_verifyTtl c) (w_redis w)
        (studentBalanceLockKey (k_schoolId c) stu) (k_studentToken c) (Hs stu) (lock_not_fence _ _)) as H. rewrite E in H. apply H. by right. }
    pose proof (verify_body_free c h' (set_redis r1 w) Ha2 Hr2 Ht2 He Hs1) as Hb. destruct (verify_body _ _ _ _ _) as [w1 res]. cbn [fst] in Hb.
    pose proof (acquire_token _ _ _ _ _ _ E) as ->.
    split; [intros [= ->]|intros stu]; destruct res; cbn; first [by apply release_frees|apply release_keeps_free, Hb].
  - assert (r1 = w_redis w) as ->; [|done]. unfold acquire_redis, ACQUIRE_WITH_FENCE_SCRIPT in E.
    destruct (match rget _ (w_redis w) with Some _ => _ | None => _ end); [by simplify_eq|]. destruct (incr _ _) as [[]|]; by simplify_eq.
Qed.

(** ** What is recorded *)

Lemma sync_period_ledger school stu d d' : syncCurrentPeriodFee school stu d = Ok d' -> ledger d' = ledger d.
Proof.
  unfold syncCurrentPeriodFee. destruct (List.find _ (periods d)) as [p|]; [|by intros [= <-]].
  destruct (List.find _ (period_fees d)) as [f|]; [|by intros [= <-]].
  destruct (aggregate_total _) as [t|]; [|done]. cbn -[classifyFeePayment]. destruct (classifyFeePayment _ _) as [c|]; [|done]. cbn. by intros [= <-].
Qed.

Lemma balance_update_ledger school stu b d : ledger (updateStudentBalance school stu b d).1 = ledger d.
Proof.
  unfold updateStudentBalance. destruct (find_student _ _ _) as [s|]; [|done].
  destruct (_ ← canonical_classification _ _ _ _; _) as [f|]; [|done].
  destruct (syncCurrentPeriodFee _ _ _) as [d''|] eqn:E; [|done]. apply sync_period_ledger in E. cbn. by rewrite E.
Qed.

(** The payment a verification records, and when. *)
Definition recorded_by (c : call) (w : world) (l : list entry) (h : string) (v : verified) (s : student) (cl : classification) : Prop :=
  validateTransactionHash (k_txHash c) = Ok h /\ existing_payment (k_schoolId c) h (ledger (w_db w)) = None /\
  k_verify c = Ok (Some v) /\ find_student (k_schoolId c) (v_memo v) (students (w_db w)) = Some s /\
  classify_with (k_schoolId c) s (v_amount v) (ledger (w_db w)) = Ok cl /\
  exists conf, recordPayment (args_of c s v cl conf) (ledger (w_db w)) = Ok l.

Lemma credit_ledger c h s v d : let '(d', res) := credit CT FT c h s v d in
  (ledger d' = ledger d /\ (forall o, res <> Ok (Done o))) \/
  exists cl conf, classify_with (k_schoolId c) s (v_amount v) (ledger d) = Ok cl /\ recordPayment (args_of c s v cl conf) (ledger d) = Ok (ledger d') /\
    forall a, res = Ok a -> a = Done (Outcome (v_hash v) (st_studentId s) (v_amount v) cl).
Proof.
  unfold credit. destruct (classify_with _ _ _ _) as [cl|e] eqn:Ec; cbn [of_money mbind]; [|by left].
  destruct (k_latest c) as [latest|e]; [|by left]. cbn.
  destruct (of_text _) as [conf|e]; [|by left]. cbn. destruct (recordPayment _ _) as [l|e] eqn:Er.
  - pose proof (balance_update_ledger (k_schoolId c) (st_studentId s) true (Db (students d) l (periods d) (period_fees d))) as Hl.
    destruct (updateStudentBalance _ _ _ _) as [d' [x|e]]; cbn [fst ledger] in Hl; right; exists cl, conf; rewrite Hl; (split; [done|]); (split; [done|]); congruence.
  - destruct (bool_decide _); [|by left]. destruct (existing_payment _ _ _); by left.
Qed.

Lemma verify_body_ledger c h w : let '(w', res) := verify_body CT FT c h w in
  (ledger (w_db w') = ledger (w_db w) /\ (forall o, res <> Ok (Done o))) \/
  exists v s cl conf, k_verify c = Ok (Some v) /\ find_student (k_schoolId c) (v_memo v) (students (w_db w)) = Some s /\
    classify_with (k_schoolId c) s (v_amount v) (ledger (w_db w)) = Ok cl /\
    recordPayment (args_of c s v cl conf) (ledger (w_db w)) = Ok (ledger (w_db w')) /\
    forall a, res = Ok a -> a = Done (Outcome (v_hash v) (st_studentId s) (v_amount v) cl).
Proof.
  unfold verify_body. destruct (k_verify c) as [[v|]|e] eqn:Ev; [|by left|].
  - destruct (find_student _ _ _) as [s|] eqn:Es; [|by left]. unfold with_student. cbn [w_redis set_intents set_redis].
    destruct (acquire_redis _ _ _ _ _) as [r1 [a|]]; [|by left]. cbn [w_db].
    pose proof (credit_ledger c h s v (w_db w)) as Hc. destruct (credit _ _ _ _ _ _ _) as [d res].
    assert (forall b, ledger (w_db (match res with Ok (Done _) | Ok (Cached _) => add_audit true h b | _ => b end)) = ledger (w_db b)) as Hl
      by (by intros b; destruct res as [[]|]).
    rewrite Hl. cbn [w_db set_db]. destruct Hc as [Hc|(cl & conf & H1 & H2 & H3)]; [by left|right].
    exists v, s, cl, conf. done.
  - destruct (bool_decide _); [by left|]. destruct (RetryWorker.queueForRetry _ _ _ _ _ _ _); by left.
Qed.

Lemma verify_ledger c w : let '(w', ans) := verifyPayment CT FT c w in
  (ledger (w_db w') = ledger (w_db w) /\ (forall o, ans <> Done o)) \/
  exists h v s cl, recorded_by c w (ledger (w_db w')) h v s cl /\
    (ans = Done (Outcome (v_hash v) (st_studentId s) (v_amount v) cl) \/ exists e, ans = NextError e).
Proof.
  unfold verifyPayment. destruct (negb _); [by left|]. destruct (validateTransactionHash _) as [h|] eqn:Hh; [|by left].
  destruct (existing_payment _ _ _) eqn:Hx; [by left|]. destruct (acquire_redis _ _ _ _ _) as [r1 [a|]]; [|by left].
  pose proof (verify_body_ledger c h (set_redis r1 w)) as Hb. destruct (verify_body _ _ _ _ _) as [w1 res]. cbn [w_db set_redis] in Hb.
  destruct Hb as [[Hl Hn]|(v & s & cl & conf & H1 & H2 & H3 & H4 & H5)].
  - destruct res as [x|e]; left; cbn; (split; [done|]); [|done]. intros o ->. by apply (Hn o).
  - destruct res as [x|e]; right; exists h, v, s, cl; (split; [by repeat (split; [done|]); exists conf|]); [left; by apply H5|right; eauto].
Qed.

(** Payments are recorded only for a transaction that was verified for the
    school, whose memo names a student of it, and of which no payment was there
    yet; the record carries the verified amount and hash, with the status of
    the student's payments so far and this one.  Every other call leaves the
    payments as they were. *)
Theorem verify_records_verified c w : let '(w', ans) := verifyPayment CT FT c w in
  ledger (w_db w') = ledger (w_db w) \/
  exists h v s cl e, recorded_by c w (ledger (w_db w')) h v s cl /\ ledger (w_db w') = ledger (w_db w) ++ [e] /\
    p_schoolId (e_payment e) = k_schoolId c /\ p_studentId (e_payment e) = v_memo v /\ p_txHash (e_payment e) = v_hash v /\
    p_amount (e_payment e) = v_amount v /\ p_status (e_payment e) = S_SUCCESS.
Proof.
  pose proof (verify_ledger c w) as H. destruct (verifyPayment CT FT c w) as [w' ans].
  destruct H as [[H _]|(h & v & s & cl & Hr & _)]; [by left|right].
  pose proof Hr as (_ & _ & _ & Hs & _ & conf & Ho). apply recordPayment_ok in Ho as (e & He & H1 & H2 & H3 & H4 & H5 & _).
  apply find_student_Some in Hs as (_ & Est & _). exists h, v, s, cl, e. cbn in *. rewrite Est in H2. done.
Qed.

Lemma existing_new school h l e : existing_payment school h l = None -> is_existing school h e = true ->
  existing_payment school h (l ++ [e]) = Some e.
Proof.
  unfold existing_payment. induction l as [|x l IH]; cbn; [intros _; by intros ->|]. by destruct (is_existing school h x).
Qed.

(** C13: a payment that was verified is not recorded again: every later call for the
    hash answers with the payment that was recorded, and changes nothing but
    the audit. *)
Theorem verify_once c c' w w1 o h :
  verifyPayment CT FT c w = (w1, Done o) -> oc_hash o = h ->
  validateTransactionHash (k_txHash c) = Ok h -> validateTransactionHash (k_txHash c') = Ok h -> k_schoolId c' = k_schoolId c ->
  exists e, e ∈ ledger (w_db w1) /\ p_amount (e_payment e) = oc_amount o /\ p_studentId (e_payment e) = oc_studentId o /\
    verifyPayment CT FT c' w1 = (add_audit true h w1, Cached e).
Proof.
  intros Hv Ho Hh Hh' Hs. pose proof (verify_ledger c w) as H. rewrite Hv in H.
  destruct H as [[_ Hn]|(h0 & v & s & cl & Hr & [E|[x E]])]; [by destruct (Hn o)| |done]. injection E as ->. cbn in *.
  destruct Hr as (Hh0 & Hx & _ & Hst & _ & conf & Hrec). assert (h0 = h) as -> by congruence.
  apply recordPayment_ok in Hrec as (e & He & H1 & H2 & H3 & H4 & H5 & H6 & H7). cbn in H1, H2, H3, H4, H5.
  assert (is_existing (k_schoolId c) h e = true) as Hie.
  { unfold is_existing. rewrite H1, H3, H5, H7, Ho, !String.eqb_refl. done. }
  exists e. split; [rewrite He; set_solver|]. split; [done|]. split; [done|].
  unfold verifyPayment. rewrite Hh', Hs, He, (existing_new _ _ _ _ Hx Hie).
  destruct (k_txHash c') as [| |t]; try done. cbn [hash_truthy]. unfold validateTransactionHash in Hh'. by destruct (str_truthy t).
Qed.

(** The retry documents after [h] was queued for [school]: exactly one is for
    [h], it belongs to the school, waits to be retried from now on with the
    error's message, and keeps the attempts made so far; the others are as they
    were. *)
Definition queued_for_retry (now : Z) (h school message : string) (ds ds' : list RetryWorker.pv_doc) : Prop :=
  let for_h d := (RetryWorker.pv_tx d =? h)%string in
  exists d, List.filter for_h ds' = [d] /\ RetryWorker.pv_school d = Some school /\ RetryWorker.pv_st d = RetryWorker.pending /\
    RetryWorker.pv_nextRetryAt d = now /\ RetryWorker.pv_lastError d = Some message /\
    RetryWorker.pv_attempts d = zsum (RetryWorker.pv_attempts <$> List.filter for_h ds) /\
    List.filter (fun d => negb (for_h d)) ds' = List.filter (fun d => negb (for_h d)) ds.

Lemma filter_absent (ds : list RetryWorker.pv_doc) h :
  h ∉ RetryWorker.pv_tx <$> ds -> List.filter (fun d => (RetryWorker.pv_tx d =? h)%string) ds = [].
Proof.
  induction ds as [|d ds IH]; cbn; [done|]. intros [Hne Hn]%not_elem_of_cons.
  destruct (String.eqb_spec (RetryWorker.pv_tx d) h); [congruence|by apply IH].
Qed.

Lemma requeue_first now h school message ds :
  NoDup (RetryWorker.pv_tx <$> ds) ->
  existsb (fun d => (RetryWorker.pv_tx d =? h)%string && bool_decide (RetryWorker.pv_school d = Some school)) ds = true ->
  queued_for_retry now h school message ds
    (RetryWorker.update_first (fun d => (RetryWorker.pv_tx d =? h)%string && bool_decide (RetryWorker.pv_school d = Some school)) (RetryWorker.requeue now message) ds).
Proof.
  induction ds as [|d ds IH]; cbn [fmap list_fmap existsb]; [done|]. intros [Hd Hn]%NoDup_cons He.
  cbn [RetryWorker.update_first].
  destruct (String.eqb_spec (RetryWorker.pv_tx d) h) as [E|E]; cbn [andb orb] in He.
  - assert (List.filter (fun x => (RetryWorker.pv_tx x =? h)%string) ds = []) as Hf by (apply filter_absent; by rewrite <- E).
    assert (bool_decide (RetryWorker.pv_school d = Some school) = true) as Hs.
    { destruct (bool_decide _); [done|]. cbn in He. apply existsb_exists in He as (x & Hx & Hp). apply andb_true_iff in Hp as [Hp _].
      apply list_elem_of_In in Hx. assert (x ∈ List.filter (fun x => (RetryWorker.pv_tx x =? h)%string) ds) as H by (by apply elem_of_filterb). rewrite Hf in H. by apply elem_of_nil in H. }
    rewrite Hs. cbn [andb]. unfold queued_for_retry. cbn [List.filter]. cbn [RetryWorker.requeue RetryWorker.pv_tx].
    rewrite E, String.eqb_refl, Hf. cbn [negb]. eexists. split; [done|]. apply bool_decide_eq_true in Hs. cbn. split_and!; try done. lia.
  - destruct (IH Hn He) as (x & H1 & H2 & H3 & H4 & H5 & H6 & H7). exists x. cbn [andb List.filter]. apply String.eqb_neq in E. rewrite E. cbn [negb].
    split_and!; try done. by rewrite H7.
Qed.

(** [queueForRetry] queues the transaction unless a document of another school
    holds its hash, which is unique across schools. *)
Lemma queueForRetry_spec now id h stu message school ds :
  NoDup (RetryWorker.pv_tx <$> ds) ->
  match RetryWorker.queueForRetry now id h stu message school ds with
  | Ok ds' => queued_for_retry now h school message ds ds'
  | Throw _ => exists d, d ∈ ds /\ RetryWorker.pv_tx d = h /\ RetryWorker.pv_school d <> Some school
  end.
Proof.
  intros Hn. unfold RetryWorker.queueForRetry. destruct (existsb _ ds) eqn:E1; [by apply requeue_first|].
  destruct (existsb (fun d => (RetryWorker.pv_tx d =? h)%string) ds) eqn:E2.
  - apply existsb_exists in E2 as (d & Hd & Ht). apply list_elem_of_In in Hd. exists d. split; [done|]. split; [by apply String.eqb_eq|].
    intros Hs. apply not_true_iff_false in E1. apply E1, existsb_exists. exists d. rewrite Ht, (bool_decide_eq_true_2 _ Hs). split; [by apply list_elem_of_In|done].
  - assert (List.filter (fun x => (RetryWorker.pv_tx x =? h)%string) ds = []) as Hf.
    { apply filter_absent. intros (x & Ex & Hx)%list_elem_of_fmap. apply not_true_iff_false in E2. apply E2, existsb_exists. exists x.
      split; [by apply list_elem_of_In|]. rewrite Ex. apply String.eqb_refl. }
    unfold queued_for_retry. rewrite !List.filter_app, Hf. cbn. rewrite String.eqb_refl. cbn [negb]. rewrite app_nil_r.
    eexists. split_and!; done.
Qed.

Lemma credit_failed c h s v d : let '(d', res) := credit CT FT c h s v d in
  match res with Ok (Done _) => True | Ok (Cached _) => d' = d | Ok _ => False
  | Throw _ => d' = d \/ exists e, ledger d' = ledger d ++ [e] end.
Proof.
  unfold credit. destruct (classify_with _ _ _ _) as [cl|e]; cbn [of_money mbind result_bind]; [|by left].
  destruct (k_latest c) as [latest|e]; cbn [mbind result_bind]; [|by left].
  destruct (of_text _) as [conf|e]; cbn [mbind result_bind]; [|by left]. destruct (recordPayment _ _) as [l|e] eqn:Er.
  - pose proof (balance_update_ledger (k_schoolId c) (st_studentId s) true (Db (students d) l (periods d) (period_fees d))) as Hl.
    destruct (updateStudentBalance _ _ _ _) as [d' [x|e]]; [done|right]. apply recordPayment_ok in Er as (e' & -> & _). exists e'. exact Hl.
  - destruct (bool_decide _); [|by left]. destruct (existing_payment _ _ _); [done|by left].
Qed.

(** What a call that did not record the payment leaves of payments and
    balances: everything as it was; or, when it threw after the recording, the
    payment without the balance. *)
Definition leaves (w w' : world) (ans : answer) : Prop :=
  w_attempts w' = w_attempts w /\ w_pending w' = w_pending w /\
  (w_db w' = w_db w \/ exists e x, ans = NextError x /\ ledger (w_db w') = ledger (w_db w) ++ [e]).

Lemma with_student_leaves c h s v w :
  let '(w', res) := with_student CT FT c h s v w in
  w_attempts w' = w_attempts w /\ w_pending w' = w_pending w /\
  match res with Ok (Done _) => True | Ok (Cached _) | Ok Busy => w_db w' = w_db w | Ok _ => False
  | Throw _ => w_db w' = w_db w \/ exists e, ledger (w_db w') = ledger (w_db w) ++ [e] end.
Proof.
  unfold with_student. destruct (acquire_redis _ _ _ _ _) as [r1 [a|]]; [|done].
  pose proof (credit_failed c h s v (w_db w)) as Hc. destruct (credit _ _ _ _ _ _ _) as [d res].
  by destruct res as [[]|x].
Qed.

(** C14: what a verification that does not record the payment leaves behind
    (retry documents having different hashes, as their unique index keeps them).
    When the transaction could not be verified under its lock, payments,
    balances and intents are untouched; a permanent error adds an attempt and is
    handed on; any other error queues the transaction for its school, due now
    and with the attempts made so far, and answers so, unless a retry document
    of another school holds the hash, when nothing is queued and the error is
    handed on.  Requests turned away (no hash, already recorded, locked, nothing
    for the school, no student) change no payment, balance, attempt or retry
    document.  And when the transaction was verified but the call throws later,
    no attempt or retry document is written, and payments and balances are as
    they were or the payment has been recorded. *)
Theorem verify_failure_effect c w :
  NoDup (RetryWorker.pv_tx <$> w_pending w) ->
  let '(w', ans) := verifyPayment CT FT c w in
  (forall h e r1 a,
    validateTransactionHash (k_txHash c) = Ok h -> existing_payment (k_schoolId c) h (ledger (w_db w)) = None ->
    acquire_redis (k_acquire1 c) (k_verifyToken c) (verifyLockKey (k_schoolId c) h) (k_verifyTtl c) (w_redis w) = (r1, Some a) ->
    k_verify c = Throw e ->
    w_db w' = w_db w /\ w_intents w' = w_intents w /\
    if bool_decide (default "" (je_code e) ∈ PERMANENT_FAIL_CODES)
    then ans = NextError e /\ w_attempts w' = w_attempts w ++ [Attempt (k_schoolId c) h (je_code e) (je_message e) (k_now c)] /\ w_pending w' = w_pending w
    else w_attempts w' = w_attempts w /\
      ((ans = QueuedForRetry /\ queued_for_retry (k_now c) h (k_schoolId c) (default "undefined" (je_message e)) (w_pending w) (w_pending w')) \/
       ((exists x, ans = NextError x) /\ w_pending w' = w_pending w /\
        exists d, d ∈ w_pending w /\ RetryWorker.pv_tx d = h /\ RetryWorker.pv_school d <> Some (k_schoolId c)))) /\
  match ans with
  | BadRequest | Cached _ | Busy | NothingForSchool | NoStudent => leaves w w' ans
  | NextError _ => (exists r, k_verify c = Ok r) -> leaves w w' ans
  | QueuedForRetry | Done _ => True
  end.
Proof.
  intros Hn. unfold verifyPayment. destruct (hash_truthy (k_txHash c)) eqn:Et; cbn [negb].
  2: { split; [|by split_and!; [..|left]]. intros h e r1 a Hh. exfalso. revert Et Hh. unfold validateTransactionHash.
       destruct (k_txHash c) as [| |t]; [done|done|]. cbn. by intros ->. }
  destruct (validateTransactionHash (k_txHash c)) as [h|x] eqn:Eh; [|split; [done|]; intros _; split_and!; [done|done|by left]].
  destruct (existing_payment _ _ _) as [p0|] eqn:Ex; [split; [intros h' e r1 a [= <-]; by rewrite Ex|by split_and!; [..|left]]|].
  destruct (acquire_redis _ _ _ _ _) as [r1 [a|]] eqn:Ea;
    [|split; [intros h' e r1' a [= <-]; by rewrite Ea|by split_and!; [..|left]]].
  unfold verify_body. destruct (k_verify c) as [[v|]|e] eqn:Ev.
  - destruct (find_student _ _ _) as [s|]; [|split; [done|by split_and!; [..|left]]].
    set (w0 := set_intents _ _).
    pose proof (with_student_leaves c h s v w0) as Hl. destruct (with_student _ _ _ _ _ _ _) as [w1 res].
    destruct Hl as (H1 & H2 & H3). destruct res as [[]|x]; (split; [done|]); try exact I; try (by destruct H3).
    + split_and!; [done|done|by left].
    + split_and!; [done|done|by left].
    + intros _. destruct H3 as [H3|[e H3]]; (split_and!; [done|done|]); [by left|right; exists e, x; by split].
  - split; [done|by split_and!; [..|left]].
  - destruct (bool_decide _) eqn:Eb.
    + split; [|by intros [? ?]]. intros h' e' r1' a' [= <-] _ _ [= <-]. by rewrite Eb.
    + cbn [w_pending add_audit set_redis].
      pose proof (queueForRetry_spec (k_now c) (k_pendingId c) h (k_studentId c) (default "undefined" (je_message e)) (k_schoolId c) (w_pending w) Hn) as Hq.
      destruct (RetryWorker.queueForRetry _ _ _ _ _ _ _) as [ds|x]; (split; [|by try intros [? ?]]).
      * intros h' e' r1' a' [= <-] _ _ [= <-]. rewrite Eb. split_and!; [done|done|done|]. left. by split.
      * intros h' e' r1' a' [= <-] _ _ [= <-]. rewrite Eb. split_and!; [done|done|done|]. right. split; [by eexists|]. done.
Qed.

(** ** The balance after a verification *)

Lemma verify_done c w w' o : verifyPayment CT FT c w = (w', Done o) ->
  exists v s cl conf l x, k_verify c = Ok (Some v) /\ find_student (k_schoolId c) (v_memo v) (students (w_db w)) = Some s /\
    recordPayment (args_of c s v cl conf) (ledger (w_db w)) = Ok l /\
    updateStudentBalance (k_schoolId c) (st_studentId s) true (Db (students (w_db w)) l (periods (w_db w)) (period_fees (w_db w))) = (w_db w', Ok x).
Proof.
  unfold verifyPayment. destruct (negb _); [done|]. destruct (validateTransactionHash _) as [h|]; [|done].
  destruct (existing_payment _ _ _); [done|]. destruct (acquire_redis _ _ _ _ _) as [r1 [a|]]; [|done].
  destruct (verify_body _ _ _ _ _) as [w1 res] eqn:Eb. destruct res as [ans|e]; [|done]. intros [= <- ->]. cbn [w_db set_redis].
  revert Eb. unfold verify_body. destruct (k_verify c) as [[v|]|e]; [|done|].
  2: { destruct (bool_decide _); [done|]. by destruct (RetryWorker.queueForRetry _ _ _ _ _ _ _). }
  cbn [w_db set_redis]. destruct (find_student _ _ _) as [s|] eqn:Es; [|done]. unfold with_student. cbn [w_redis set_intents set_redis w_db].
  destruct (acquire_redis _ _ _ _ (tick _ _)) as [r2 [a2|]]; [|done]. destruct (credit _ _ _ _ _ _ _) as [d res] eqn:Ec.
  intros [= <- ->]. cbn [w_db add_audit set_db]. revert Ec. unfold credit.
  destruct (classify_with _ _ _ _) as [cl|]; [|done]. cbn [of_money mbind result_bind]. destruct (k_latest c) as [latest|]; [|done].
  cbn [mbind result_bind]. destruct (of_text _) as [conf|]; [|done]. cbn [mbind result_bind].
  destruct (recordPayment _ _) as [l|e] eqn:Er.
  - destruct (updateStudentBalance _ _ _ _) as [d' [x|]] eqn:Eu; [|done]. intros [= <- _]. exists v, s, cl, conf, l, x. done.
  - destruct (bool_decide _); [|done]. by destruct (existing_payment _ _ _).
Qed.

(** C12: after a payment of whole stroops is verified for a student whose fee,
    credits, fee categories and earlier payments are whole stroops (each below
    10^15, their sum below 10^19), the student's
    stored total is the successful payments there were, this payment and the
    credits; what remains is the fee less that, and the fee is paid when nothing
    remains.  Each fee category holds the successful payments of that category,
    with what remains of its amount and its flag to match, and no other student
    changes. *)
Theorem verified_payment_credited c w w' o v s zv zf zc :
  verifyPayment CT FT c w = (w', Done o) -> k_verify c = Ok (Some v) ->
  find_student (k_schoolId c) (v_memo v) (students (w_db w)) = Some s ->
  v_amount v = stroopsToNumber zv -> 0 <= zv < 10 ^ 15 ->
  st_feeAmount s = stroopsToNumber zf -> 0 <= zf < 10 ^ 15 ->
  st_creditAdjustments s = stroopsToNumber zc -> Z.abs zc < 10 ^ 15 ->
  Forall (fun f => fc_amount f = stroopsToNumber (stroops_of (fc_amount f)) /\ 0 <= stroops_of (fc_amount f) < 10 ^ 15) (st_fees s) ->
  (forall e, e ∈ ledger (w_db w) -> canonicalPaidMatch (k_schoolId c) (v_memo v) None e = true ->
    p_amount (e_payment e) = stroopsToNumber (entry_stroops e) /\ 0 <= entry_stroops e < 10 ^ 15) ->
  let before := zsum (entry_stroops <$> List.filter (canonicalPaidMatch (k_schoolId c) (v_memo v) None) (ledger (w_db w))) in
  before + zv < 10 ^ 19 ->
  let total := before + zv + zc in
  let of_category f := zsum (entry_stroops <$> List.filter (canonicalPaidMatch (k_schoolId c) (v_memo v) (Some (fc_category f))) (ledger (w_db w'))) in
  exists s', find_student (k_schoolId c) (v_memo v) (students (w_db w')) = Some s' /\
    st_totalPaid s' = stroopsToNumber total /\ st_remainingBalance s' = Some (stroopsToNumber (Z.max 0 (zf - total))) /\
    st_feePaid s' = (zf <=? total) /\
    st_fees s' = (fun f => FeeCategory (fc_category f) (fc_amount f) (stroops_of (fc_amount f) <=? of_category f) (stroopsToNumber (of_category f))
                             (Some (stroopsToNumber (Z.max 0 (stroops_of (fc_amount f) - of_category f))))) <$> st_fees s /\
    students (w_db w') = replace_student (k_schoolId c) (v_memo v) (fun _ => s') (students (w_db w)).
Proof.
  intros Hv Hk Hs Hav Hzv Hf Hzf Hc Hzc Hfees Hz before Hsum total of_category.
  destruct (verify_done _ _ _ _ Hv) as (v0 & s0 & cl & conf & l & x & Hk0 & Hs0 & Hrec & Hu).
  assert (v0 = v) as -> by congruence. assert (s0 = s) as -> by congruence.
  pose proof (find_student_Some _ _ _ _ Hs) as (_ & Est & _). rewrite Est in Hu.
  apply recordPayment_ok in Hrec as (e & -> & H1 & H2 & H3 & H4 & H5 & H6 & H7). cbn in H1, H2, H3, H4, H5. rewrite Est in H2.
  assert (canonicalPaidMatch (k_schoolId c) (v_memo v) None e = true) as Hm
    by (unfold canonicalPaidMatch; by rewrite H1, H2, H5, H6, H7, !String.eqb_refl).
  assert (entry_stroops e = zv) as Ez by (unfold entry_stroops; rewrite H4, Hav; apply stroops_of_number; lia).
  set (d1 := Db (students (w_db w)) (ledger (w_db w) ++ [e]) (periods (w_db w)) (period_fees (w_db w))) in *.
  assert (paid_by d1 entry_stroops (canonicalPaidMatch (k_schoolId c) (v_memo v) None) = before + zv) as Ep.
  { unfold paid_by, d1. cbn [ledger]. rewrite List.filter_app. cbn [List.filter]. rewrite Hm, fmap_app. cbn [fmap list_fmap]. rewrite Ez.
    unfold before. generalize (entry_stroops <$> List.filter (canonicalPaidMatch (k_schoolId c) (v_memo v) None) (ledger (w_db w))).
    intros zs. induction zs as [|z zs IH]; cbn; lia. }
  destruct (stored_balance_spec (k_schoolId c) (v_memo v) d1 s entry_stroops (fun f => stroops_of (fc_amount f)) zf zc) as (d' & Hd & Hfs & Hrep & Hled & _); try done.
  - intros e' He' Hm'. unfold d1 in He'. cbn in He'. apply elem_of_app in He' as [He'|He']; [by apply Hz|]. apply list_elem_of_singleton in He' as ->.
    rewrite Ez, H4, Hav. done.
  - by rewrite Ep.
  - rewrite Ep in Hd, Hfs, Hrep. rewrite Hd in Hu. injection Hu as Ed _. rewrite <- Ed. eexists. split; [exact Hfs|]. cbn. unfold total. split_and!; [done..| |exact Hrep].
    apply list_fmap_ext. intros i f _. unfold category_spec, of_category. by rewrite <- Ed, Hled.
Qed.
End Theorems.

(** ** The hypotheses can hold *)

(** A recording that refuses a second payment of a school's transaction. *)
Definition plain_record (a : payment_args) (l : list entry) : result job_error (list entry) :=
  if existsb (fun e => (p_schoolId (e_payment e) =? pa_schoolId a)%string && (p_txHash (e_payment e) =? pa_txHash a)%string) l
  then Throw (JobError (Some "DUPLICATE_TX") None)
  else Ok (l ++ [Entry (Payment 0 (pa_schoolId a) (pa_studentId a) (pa_txHash a) 0 (pa_amount a) None (pa_status a) false
                          (pa_confirmationState a) (pa_confirmationStatus a) None None) None (pa_verifiedAt a)]).

#[refine] Definition plain_recorder : Recorder := {| recordPayment := plain_record |}.
Proof.
  intros a l l'. unfold plain_record. destruct (existsb _ l); [done|]. intros [= <-]. eexists. split; [reflexivity|]. done.
Defined.

Definition a_hash : string := "abcdef0123456789abcdef0123456789abcdef0123456789abcdef0123456789".

Definition a_verified (amt : Z) : verified :=
  Verified a_hash None "STU-1" (stroopsToNumber amt) (Some "XLM") (Some "native") None (FeeValidation fs_unknown (of_Z 0)) (of_Z 0) "2026-01-01" (Some 90) None [].

Definition a_call (v : result job_error (option verified)) : call :=
  Call 5 "SCH-1" (HashText a_hash) None "t1" "t2" 30000 15000 7 NoFault NoFault NoFault NoFault v (Ok 100) 0.

Definition a_world (fee credit : Z) : world := World (Db [a_student [] fee credit] [] [] []) (Redis ∅ 0) [] [] [] [].

Definition run_verify (c : call) (w : world) : world * answer :=
  verifyPayment (DL := exact_decimal) (MS := exact_sum) (Rec := plain_recorder) 5 20 c w.

Lemma category_balance_exact_witness :
  let f := FeeCategory "tuition" (stroopsToNumber 5000000) true (stroopsToNumber 7000000) None in
  computeRemainingBalance (DL := exact_decimal) f = Ok (stroopsToNumber (Z.max 0 (5000000 - 7000000))).
Proof.
  apply (category_balance_exact (DL := exact_decimal)
    (FeeCategory "tuition" (stroopsToNumber 5000000) true (stroopsToNumber 7000000) None) 5000000 7000000); reflexivity || lia.
Defined.

Lemma verify_gives_locks_back_witness :
  let c := a_call (Ok (Some (a_verified 3000000))) in
  let w' := (run_verify c (a_world 7000000 0)).1 in
  (validateTransactionHash (k_txHash c) = Ok a_hash -> owned (verifyLockKey "SCH-1" a_hash) "t1" (w_redis w') = false)
  /\ students_free c (w_redis w').
Proof.
  apply (verify_gives_locks_back (DL := exact_decimal) (MS := exact_sum) (Rec := plain_recorder) 5 20
    (a_call (Ok (Some (a_verified 3000000)))) (a_world 7000000 0) a_hash); try reflexivity; done.
Defined.

Lemma verify_once_witness :
  let c := a_call (Ok (Some (a_verified 3000000))) in
  exists w1 o e, run_verify c (a_world 7000000 0) = (w1, Done o) /\
    run_verify (a_call (Throw (JobError None None))) w1 = (add_audit true a_hash w1, Cached e) /\ p_amount (e_payment e) = stroopsToNumber 3000000.
Proof.
  destruct (run_verify (a_call (Ok (Some (a_verified 3000000)))) (a_world 7000000 0)) as [w1 a] eqn:E.
  assert (exists o, a = Done o /\ oc_hash o = a_hash /\ oc_amount o = stroopsToNumber 3000000) as (o & -> & Ho & Hm).
  { vm_compute in E. injection E as _ <-. eexists. split; [reflexivity|]. split; vm_compute; reflexivity. }
  destruct (verify_once (DL := exact_decimal) (MS := exact_sum) (Rec := plain_recorder) 5 20
    (a_call (Ok (Some (a_verified 3000000)))) (a_call (Throw (JobError None None))) (a_world 7000000 0) w1 o a_hash E Ho) as (e & _ & H1 & _ & H2);
    [vm_compute; reflexivity|vm_compute; reflexivity|reflexivity|].
  exists w1, o, e. split; [done|]. split; [exact H2|]. by rewrite H1.
Defined.

Lemma verify_failure_effect_witness :
  let outage := a_call (Throw (JobError None (Some "timeout"))) in
  let failed := a_call (Throw (JobError (Some "TX_FAILED") (Some "failed"))) in
  let w := a_world 7000000 0 in
  queued_for_retry 5 a_hash "SCH-1" "timeout" [] (w_pending (run_verify outage w).1) /\
  (run_verify failed w).2 = NextError (JobError (Some "TX_FAILED") (Some "failed")) /\ length (w_attempts (run_verify failed w).1) = 1%nat.
Proof.
  cbv zeta. split.
  - pose proof (verify_failure_effect (DL := exact_decimal) (MS := exact_sum) (Rec := plain_recorder) 5 20
      (a_call (Throw (JobError None (Some "timeout")))) (a_world 7000000 0) ltac:(constructor)) as H.
    unfold run_verify. destruct (verifyPayment _ _ _ _) as [w' ans] eqn:E. destruct H as [H _].
    destruct (H a_hash (JobError None (Some "timeout")) (acquire_redis NoFault "t1" (verifyLockKey "SCH-1" a_hash) 30000 (Redis ∅ 0)).1 (Acquired "t1" 1)
      ltac:(vm_compute; reflexivity) ltac:(reflexivity) ltac:(vm_compute; reflexivity) eq_refl) as (_ & _ & H').
    rewrite bool_decide_false in H' by by_decision. destruct H' as (_ & [[_ H']|(_ & _ & d & Hd & _)]); [exact H'|by apply elem_of_nil in Hd].
  - pose proof (verify_failure_effect (DL := exact_decimal) (MS := exact_sum) (Rec := plain_recorder) 5 20
      (a_call (Throw (JobError (Some "TX_FAILED") (Some "failed")))) (a_world 7000000 0) ltac:(constructor)) as H.
    unfold run_verify. destruct (verifyPayment _ _ _ _) as [w' ans]. destruct H as [H _].
    destruct (H a_hash (JobError (Some "TX_FAILED") (Some "failed")) (acquire_redis NoFault "t1" (verifyLockKey "SCH-1" a_hash) 30000 (Redis ∅ 0)).1 (Acquired "t1" 1)
      ltac:(vm_compute; reflexivity) ltac:(reflexivity) ltac:(vm_compute; reflexivity) eq_refl) as (_ & _ & H').
    rewrite bool_decide_true in H' by by_decision. destruct H' as (H2 & H3 & _). cbn [fst snd]. by rewrite H3.
Defined.

(** A student with a fee category: the payment carries no category, so the
    total moves and the category does not. *)
Definition categories_world : world :=
  World (Db [a_student [FeeCategory "tuition" (stroopsToNumber 1000000) false (of_Z 0) None] 7000000 4000000] [] [] []) (Redis ∅ 0) [] [] [] [].

Lemma verified_payment_credited_witness :
  let c := a_call (Ok (Some (a_verified 3000000))) in
  exists w' o s', run_verify c categories_world = (w', Done o) /\
    find_student "SCH-1" "STU-1" (students (w_db w')) = Some s' /\ st_totalPaid s' = stroopsToNumber (0 + 3000000 + 4000000) /\ st_feePaid s' = true /\
    (fc_paid <$> st_fees s') = [false].
Proof.
  destruct (run_verify (a_call (Ok (Some (a_verified 3000000)))) categories_world) as [w1 a] eqn:E.
  assert (exists o, a = Done o) as (o & ->) by (vm_compute in E; injection E as _ <-; by eexists).
  assert (length (ledger (w_db w1)) = 1%nat /\ (e_feeCategory <$> ledger (w_db w1)) = [None]) as [_ El] by (vm_compute in E; injection E as <- _; done).
  destruct (verified_payment_credited (DL := exact_decimal) (MS := exact_sum) (Rec := plain_recorder) 5 20
    (a_call (Ok (Some (a_verified 3000000)))) categories_world w1 o (a_verified 3000000)
    (a_student [FeeCategory "tuition" (stroopsToNumber 1000000) false (of_Z 0) None] 7000000 4000000) 3000000 7000000 4000000 E)
    as (s' & H1 & H2 & _ & H3 & H4 & _);
    [exact eq_refl|exact eq_refl|exact eq_refl|lia|exact eq_refl|lia|exact eq_refl|lia|repeat constructor; vm_compute; done| |cbn; lia|].
  - intros e He _. exfalso. inversion He.
  - exists w1, o, s'. split; [done|]. split; [exact H1|]. split; [exact H2|]. split; [exact H3|]. rewrite H4.
    vm_compute in E. injection E as <- _. vm_compute. reflexivity.
Defined.

(** ** Where the label and the balance disagree *)

(** The status recorded with a payment leaves the student's credits out, which
    the balance counts: with a credit of 0.4 a payment of 0.3 settles a fee of
    0.7, and is recorded as partial with 0.4 remaining. *)
Theorem payment_label_ignores_credits :
  exists w' o s', run_verify (a_call (Ok (Some (a_verified 3000000)))) (a_world 7000000 4000000) = (w', Done o) /\
    status (oc_class o) = partial /\ remainingBalance (oc_class o) = stroopsToNumber 4000000 /\
    find_student "SCH-1" "STU-1" (students (w_db w')) = Some s' /\ st_feePaid s' = true /\ st_remainingBalance s' = Some (stroopsToNumber 0).
Proof. eexists _, _, _. split; [vm_compute; reflexivity|]. vm_compute. done. Qed.
End PaymentFlow.

(** ** Submitting a signed transaction *)
Module Submission.
Import LedgerPayments StellarRetry StudentBalance PaymentFlow.

(** A payment document with the fields a submission reads and writes. *)
Record row := Row {
  rw_entry : entry; rw_memo : string; rw_transactionHash : option string; rw_submittedAt : option Z;
  rw_confirmedAt : option Z; rw_ledgerSequence : option Z; rw_suspicionReason : option string
}.

Record sub_world := World { w_rows : list row; w_students : list student; w_periods : list period; w_fees : list period_fee; w_intents : list intent }.

Definition db_of (w : sub_world) : db := Db (w_students w) (map rw_entry (w_rows w)) (w_periods w) (w_fees w).
Definition set_rows (rs : list row) (w : sub_world) : sub_world := World rs (w_students w) (w_periods w) (w_fees w) (w_intents w).

Definition pay (r : row) : payment := e_payment (rw_entry r).
Definition set_pay (p : payment) (r : row) : row :=
  Row (Entry p (e_feeCategory (rw_entry r)) (e_createdAt (rw_entry r))) (rw_memo r) (rw_transactionHash r) (rw_submittedAt r)
    (rw_confirmedAt r) (rw_ledgerSequence r) (rw_suspicionReason r).

(** The parsed transaction: its hash, its memo, and its operations, which the
    handler does not look at. *)
Record signed_tx := Signed { sg_hash : string; sg_memo : option string; sg_operations : list operation }.

(** The answer of the network: an error's result code or message, or whether the
    transaction succeeded and in which ledger. *)
Definition network : Type := result string (bool * Z).

Inductive sub_answer := MissingXdr | NextError (code : string) | NoMemo | IntentNotFound | IntentNotPending | StudentNotFound
| SubmissionFailed (reason : string) | TxFailed | Submitted (hash : string) (ledger : Z).

(** [save()]: the hash is required and an empty text is as good as none; the
    hook derives the confirmation fields from the status. *)
Definition save (now : Z) (stored : option row) (r : row) (rs : list row) : result string (row * list row) :=
  if negb (str_truthy (p_txHash (pay r))) then Throw "VALIDATION_ERROR" else
  let r' := set_pay (syncDerivedLifecycleFields now (pay <$> stored) (pay r)) r in
  Ok (r', match stored with
          | Some _ => map (fun x => if p_id (pay x) =? p_id (pay r') then r' else x) rs
          | None => rs ++ [r']
          end).

Definition is_pending (schoolId : string) (memo : string) (r : row) : bool :=
  (p_schoolId (pay r) =? schoolId)%string && (rw_memo r =? memo)%string && bool_decide (p_status (pay r) = S_PENDING) && bool_decide (p_deletedAt (pay r) = None).

(** [.sort({ createdAt: -1 })]: the newest, the first of several. *)
Definition newer (a b : row) : row := if e_createdAt (rw_entry a) <? e_createdAt (rw_entry b) then b else a.
Definition newest (rs : list row) : option row := match rs with [] => None | r :: rs' => Some (fold_left newer rs' r) end.

(** The payment the transaction is for: by intent, or by the memo alone. *)
Definition find_record (schoolId memo : string) (paymentIntentId : option Z) (w : sub_world) : result sub_answer (option row) :=
  match paymentIntentId with
  | Some id =>
    match List.find (fun i => (i_id i =? id) && (i_schoolId i =? schoolId)%string) (w_intents w) with
    | None => Throw IntentNotFound
    | Some i =>
      if negb (bool_decide (i_status i = intent_pending)) then Throw IntentNotPending else
      Ok (List.find (fun r => is_pending schoolId (i_memo i) r && (p_studentId (pay r) =? i_studentId i)%string) (w_rows w))
    end
  | None => Ok (newest (List.filter (is_pending schoolId memo) (w_rows w)))
  end.

Definition fresh_payment (id now : Z) (schoolId studentId memo : string) : row :=
  Row (Entry (Payment id schoolId studentId "" 0 (of_Z 0) None S_PENDING false DETECTED pending_confirmation None None) None now)
    memo None None None None None.

Definition mark_submitted (now : Z) (h : string) (r : row) : row :=
  let r := set_pay (set_status S_SUBMITTED (pay r)) r in
  Row (rw_entry r) (rw_memo r) (Some h) (Some now) (rw_confirmedAt r) (rw_ledgerSequence r) (rw_suspicionReason r).

Definition mark_failed (reason : string) (r : row) : row :=
  let r := set_pay (set_status S_FAILED (pay r)) r in
  Row (rw_entry r) (rw_memo r) (rw_transactionHash r) (rw_submittedAt r) (rw_confirmedAt r) (rw_ledgerSequence r) (Some reason).

Definition mark_success (now ledger : Z) (r : row) : row :=
  let r := set_pay (set_status S_SUCCESS (pay r)) r in
  Row (rw_entry r) (rw_memo r) (rw_transactionHash r) (rw_submittedAt r) (Some now) (Some ledger) (rw_suspicionReason r).

Section Submit.
Context `{DL : DecimalLib} `{MS : !MongoSum}.

(** The steps once the record is known; [stored]: whether it was in the
    database. *)
Definition submit_record (now : Z) (h : string) (net : network) (stored : option row) (r : row) (w : sub_world) : sub_answer * sub_world :=
  match save now stored (mark_submitted now h r) (w_rows w) with
  | Throw code => (NextError code, w)
  | Ok (r1, rs1) =>
    match net with
    | Throw reason =>
      match save now (Some r1) (mark_failed reason r1) rs1 with
      | Ok (_, rs2) => (SubmissionFailed reason, set_rows rs2 w)
      | Throw code => (NextError code, set_rows rs1 w)
      end
    | Ok (false, _) =>
      match save now (Some r1) (mark_failed "Transaction was included in ledger but failed on-chain" r1) rs1 with
      | Ok (_, rs2) => (TxFailed, set_rows rs2 w)
      | Throw code => (NextError code, set_rows rs1 w)
      end
    | Ok (true, ledger) =>
      match save now (Some r1) (mark_success now ledger r1) rs1 with
      | Ok (_, rs2) =>
        let w2 := set_rows rs2 w in
        let '(d, _) := updateStudentBalance (p_schoolId (pay r)) (p_studentId (pay r)) true (db_of w2) in
        (Submitted h ledger, World rs2 (students d) (periods d) (period_fees d) (w_intents w))
      | Throw code => (NextError code, set_rows rs1 w)
      end
    end
  end.

(** [xdr]: [None] when it is missing; a balance that cannot be updated is only
    logged. *)
Definition submitTransaction (now id : Z) (schoolId : string) (xdr : option signed_tx) (paymentIntentId : option Z) (net : network) (w : sub_world)
  : sub_answer * sub_world :=
  match xdr with
  | None => (MissingXdr, w)
  | Some tx =>
    match validateTransactionHash (HashText (sg_hash tx)) with
    | Throw e => (NextError (hash_code e), w)
    | Ok h =>
      match sg_memo tx with
      | None => (NoMemo, w)
      | Some memo =>
        if negb (str_truthy memo) then (NoMemo, w) else
        match find_record schoolId memo paymentIntentId w with
        | Throw a => (a, w)
        | Ok (Some r) => submit_record now h net (Some r) r w
        | Ok None =>
          match find_student schoolId memo (w_students w) with
          | None => (StudentNotFound, w)
          | Some s => submit_record now h net None (fresh_payment id now schoolId (st_studentId s) memo) w
          end
        end
      end
    end
  end.

(** *** Theorems *)

Definition row_ids (rs : list row) : list Z := map (fun r => p_id (pay r)) rs.

(** Without a pending payment the submission is refused before the network is
    asked: the payment it makes has no hash of its own, which the schema
    requires.  Nothing is stored. *)
Theorem submit_without_pending_refused now id schoolId tx pid net w h memo s :
  validateTransactionHash (HashText (sg_hash tx)) = Ok h -> sg_memo tx = Some memo -> str_truthy memo = true ->
  find_record schoolId memo pid w = Ok None -> find_student schoolId memo (w_students w) = Some s ->
  submitTransaction now id schoolId (Some tx) pid net w = (NextError "VALIDATION_ERROR", w).
Proof. intros Hh Hm Ht Hf Hs. unfold submitTransaction. by rewrite Hh, Hm, Ht, Hf, Hs. Qed.

(** The status a submission leaves. *)
Definition final_status (net : network) : payment_status := match net with Ok (true, _) => S_SUCCESS | _ => S_FAILED end.

Lemma save_stored now q r rs : str_truthy (p_txHash (pay r)) = true ->
  save now (Some q) r rs = let r' := set_pay (syncDerivedLifecycleFields now (Some (pay q)) (pay r)) r in
    Ok (r', map (fun x => if p_id (pay x) =? p_id (pay r') then r' else x) rs).
Proof. intros Ht. unfold save. by rewrite Ht. Qed.

Lemma sync_keeps now q p : let p' := syncDerivedLifecycleFields now q p in
  p_id p' = p_id p /\ p_txHash p' = p_txHash p /\ p_status p' = p_status p /\ p_schoolId p' = p_schoolId p
  /\ p_studentId p' = p_studentId p /\ p_amount p' = p_amount p.
Proof. unfold syncDerivedLifecycleFields. destruct (_ || _), (_ && _); done. Qed.

(** Saving a row that was saved before under the same id. *)
Lemma save_twice now r1 r2 rs id : p_id (pay r1) = id -> p_id (pay r2) = id -> str_truthy (p_txHash (pay r2)) = true ->
  save now (Some r1) r2 (map (fun x => if p_id (pay x) =? id then r1 else x) rs) =
  let r' := set_pay (syncDerivedLifecycleFields now (Some (pay r1)) (pay r2)) r2 in
  Ok (r', map (fun x => if p_id (pay x) =? id then r' else x) rs).
Proof.
  intros E1 E2 Ht. rewrite save_stored by done. cbv zeta. set (r' := set_pay _ _).
  assert (p_id (pay r') = id) as -> by (destruct (sync_keeps now (Some (pay r1)) (pay r2)) as (H & _); unfold r'; cbn; by rewrite H).
  do 2 f_equal. rewrite map_map. apply map_ext. intros x.
  destruct (Z.eqb_spec (p_id (pay x)) id) as [|Hne]; [by rewrite E1, Z.eqb_refl|]. by destruct (Z.eqb_spec (p_id (pay x)) id).
Qed.

(** What saving a changed status leaves of a submitted row. *)
Lemma row_after now r1 r2 st : p_status (pay r1) = S_SUBMITTED -> p_status (pay r2) = st -> st = S_SUCCESS \/ st = S_FAILED ->
  let r' := set_pay (syncDerivedLifecycleFields now (Some (pay r1)) (pay r2)) r2 in
  p_id (pay r') = p_id (pay r2) /\ p_status (pay r') = st /\ rw_transactionHash r' = rw_transactionHash r2 /\
  p_amount (pay r') = p_amount (pay r2) /\ p_studentId (pay r') = p_studentId (pay r2) /\
  p_confirmationState (pay r') = deriveConfirmationState st.
Proof.
  intros H1 H2 Hst. cbv zeta. destruct (sync_keeps now (Some (pay r1)) (pay r2)) as (S1 & _ & S3 & _ & S5 & S6).
  cbn [pay set_pay rw_entry e_payment rw_transactionHash]. rewrite S1, S3, S5, S6, H2. repeat split. unfold syncDerivedLifecycleFields.
  rewrite H1, H2. rewrite (bool_decide_false (S_SUBMITTED = st)) by (destruct Hst; congruence). cbn [negb orb p_status set_derived].
  rewrite H2, (bool_decide_false (st = S_REJECTED)) by (destruct Hst; congruence). done.
Qed.

(** A pending payment with a hash ends as the network said: successful when the
    transaction was, failed otherwise, with its amount, its student and the
    confirmation fields that go with the status; the other payments stay. *)
Theorem submit_outcome now h net r w :
  str_truthy (p_txHash (pay r)) = true -> p_status (pay r) = S_PENDING ->
  let '(ans, w') := submit_record now h net (Some r) r w in
  exists r', w_rows w' = map (fun x => if p_id (pay x) =? p_id (pay r) then r' else x) (w_rows w) /\
    p_id (pay r') = p_id (pay r) /\ p_status (pay r') = final_status net /\ rw_transactionHash r' = Some h /\
    p_amount (pay r') = p_amount (pay r) /\ p_studentId (pay r') = p_studentId (pay r) /\
    p_confirmationState (pay r') = deriveConfirmationState (final_status net) /\
    (match net with Ok (true, n) => ans = Submitted h n | Ok (false, _) => ans = TxFailed | Throw m => ans = SubmissionFailed m end).
Proof.
  intros Ht Hp. unfold submit_record. rewrite save_stored by done. cbv zeta.
  destruct (sync_keeps now (Some (pay r)) (pay (mark_submitted now h r))) as (K1 & K2 & K3 & _ & K5 & K6).
  set (r1 := set_pay _ (mark_submitted now h r)).
  change (p_id (pay r1) = p_id (pay r)) in K1. change (p_txHash (pay r1) = p_txHash (pay r)) in K2. change (p_status (pay r1) = S_SUBMITTED) in K3.
  change (p_studentId (pay r1) = p_studentId (pay r)) in K5. change (p_amount (pay r1) = p_amount (pay r)) in K6.
  assert (rw_transactionHash r1 = Some h) as Kh by done. clearbody r1. rewrite K1.
  destruct net as [[[] n]|m].
  - rewrite save_twice by (cbn; congruence). cbv beta iota zeta. destruct (updateStudentBalance _ _ _ _) as [d x]. cbn [w_rows].
    eexists. split; [reflexivity|]. destruct (row_after now r1 (mark_success now n r1) S_SUCCESS) as (A1 & A2 & A3 & A4 & A5 & A6); [done|done|by left|].
    rewrite A1, A2, A3, A4, A5, A6. cbn. rewrite K1, K5, K6, Kh. done.
  - rewrite save_twice by (cbn; congruence). cbv beta iota zeta. eexists. split; [reflexivity|].
    destruct (row_after now r1 (mark_failed "Transaction was included in ledger but failed on-chain" r1) S_FAILED) as (A1 & A2 & A3 & A4 & A5 & A6);
      [done|done|by right|]. rewrite A1, A2, A3, A4, A5, A6. cbn. rewrite K1, K5, K6, Kh. done.
  - rewrite save_twice by (cbn; congruence). cbv beta iota zeta. eexists. split; [reflexivity|].
    destruct (row_after now r1 (mark_failed m r1) S_FAILED) as (A1 & A2 & A3 & A4 & A5 & A6);
      [done|done|by right|]. rewrite A1, A2, A3, A4, A5, A6. cbn. rewrite K1, K5, K6, Kh. done.
Qed.

(** The handler never looks at what the transaction pays: the operations make no
    difference to what is stored and answered. *)
Theorem submit_ignores_operations now id schoolId h memo ops ops' pid net w :
  submitTransaction now id schoolId (Some (Signed h memo ops)) pid net w = submitTransaction now id schoolId (Some (Signed h memo ops')) pid net w.
Proof. reflexivity. Qed.

(** With an intent given, the memo of the transaction is not compared with it. *)
Theorem submit_ignores_memo now id schoolId h memo memo' ops pid net w r :
  str_truthy memo = true -> str_truthy memo' = true -> find_record schoolId memo (Some pid) w = Ok (Some r) ->
  submitTransaction now id schoolId (Some (Signed h (Some memo) ops)) (Some pid) net w
  = submitTransaction now id schoolId (Some (Signed h (Some memo') ops)) (Some pid) net w.
Proof.
  intros H1 H2 Hf. unfold submitTransaction. cbn [sg_hash sg_memo]. destruct (validateTransactionHash _); [|done].
  rewrite H1, H2. change (find_record schoolId memo' (Some pid) w) with (find_record schoolId memo (Some pid) w). by rewrite Hf.
Qed.
End Submit.

Definition a_row (hash : string) : row :=
  Row (Entry (Payment 1 "SCH-1" "STU-1" hash 0 (stroopsToNumber 7000000) None S_PENDING false DETECTED pending_confirmation None None) None 3)
    "STU-1" None None None None None.

Definition a_sub (rs : list row) : sub_world := World rs [a_student [] 7000000 0] [] [] [].

Lemma submit_without_pending_refused_witness :
  submitTransaction (DL := exact_decimal) (MS := exact_sum) 9 2 "SCH-1" (Some (Signed a_hash (Some "STU-1") [])) None (Ok (true, 8)) (a_sub [])
  = (NextError "VALIDATION_ERROR", a_sub []).
Proof.
  apply (submit_without_pending_refused (DL := exact_decimal) (MS := exact_sum) 9 2 "SCH-1" (Signed a_hash (Some "STU-1") []) None (Ok (true, 8)) (a_sub [])
    a_hash "STU-1" (a_student [] 7000000 0)); vm_compute; reflexivity.
Defined.

Lemma submit_outcome_witness :
  let '(ans, w') := submit_record (DL := exact_decimal) (MS := exact_sum) 9 a_hash (Ok (true, 8)) (Some (a_row "t")) (a_row "t") (a_sub [a_row "t"]) in
  exists r', w_rows w' = [r'] /\ p_status (pay r') = S_SUCCESS /\ ans = Submitted a_hash 8.
Proof.
  pose proof (submit_outcome (DL := exact_decimal) (MS := exact_sum) 9 a_hash (Ok (true, 8)) (a_row "t") (a_sub [a_row "t"]) eq_refl eq_refl) as H.
  destruct (submit_record _ _ _ _ _ _) as [ans w']. destruct H as (r' & H1 & _ & H2 & _ & _ & _ & _ & H3). exists r'. done.
Defined.

(** Both steps of a successful submission are moves that the tables of statuses
    do not have, not even for an administrator. *)
Theorem submit_outside_tables (b : bool) :
  Constants.isTransitionAllowed S_PENDING S_SUBMITTED b = false /\ Constants.isTransitionAllowed S_SUBMITTED S_SUCCESS b = false
  /\ p_status (pay (mark_submitted 9 a_hash (a_row "t"))) = S_SUBMITTED /\ p_status (pay (mark_success 9 8 (mark_submitted 9 a_hash (a_row "t")))) = S_SUCCESS.
Proof. destruct b; vm_compute; done. Qed.

(** A transaction that pays nobody settles a pending fee: the payment counts in
    full and the student's fee is paid. *)
Theorem empty_transaction_settles_fee :
  let '(ans, w') := submitTransaction (DL := exact_decimal) (MS := exact_sum) 9 2 "SCH-1" (Some (Signed a_hash (Some "STU-1") [])) None (Ok (true, 8)) (a_sub [a_row "t"]) in
  ans = Submitted a_hash 8 /\ map st_feePaid (w_students w') = [true].
Proof. vm_compute. done. Qed.
End Submission.
