(* ===== verification/PaymentQueries.v ===== *)
(** Reading payments: backend/src/controllers/paymentQueryController.js (the
    school's payments with their filters and pages, overpayments, suspicious and
    pending payments, the balance and summary shown), and
    backend/src/services/paymentService.js (crediting every operation of a
    transaction).

    The sum the database computes over doubles is an argument.  Conversions to
    local currency and the exchange-rate view (Currency) are left out. *)

From Stdlib Require Import ZArith QArith Qabs Qminmax Lqa Lia.
From stdpp Require Import base strings sets list.
From S2P Require Import Prelude JsNumber JsString StellarAmount DecimalLib Money ModelPlugins Confirmation PaymentStatus PaymentModel StudentBalance LedgerPayments RetryQueue Consistency.
Import Confirmation PaymentModel.
Local Open Scope string_scope.
Local Open Scope Z_scope.
Local Open Scope list_scope.

Module PaymentQueries.
Import StudentBalance Consistency.

(** A payment document as the queries read it. *)
Record row := Row {
  rw_entry : entry; rw_confirmedAt : option Z; rw_transactionHash : option string; rw_studentDeleted : bool;
  rw_feeValidationStatus : string; rw_excessAmount : number
}.

Definition pay (r : row) : payment := e_payment (rw_entry r).

(** ** Pages *)

(** [Math.max(1, parseInt(page, 10) || 1)] and [Math.min(cap, Math.max(1,
    parseInt(limit, 10) || 50))] *)
Definition page_number (page : option string) : Z := Z.max 1 (RetryQueue.int_or page 1).
Definition page_size (cap : Z) (limit : option string) : Z := Z.min cap (Z.max 1 (RetryQueue.int_or limit 50)).

Definition page_of {A} (page limit : Z) (l : list A) : list A := take (Z.to_nat limit) (drop (Z.to_nat ((page - 1) * limit)) l).

(** [Math.ceil(total / limit)] *)
Definition ceil_div (total limit : Z) : Z := (total + limit - 1) / limit.

(** [.sort({ confirmedAt: -1 })]: a payment that is not confirmed comes last;
    among equals the order of the collection. *)
Definition newest_first : list row -> list row :=
  js_sort (fun a b => match rw_confirmedAt a, rw_confirmedAt b with
                      | Some x, Some y => y - x | Some _, None => -1 | None, Some _ => 1 | None, None => 0 end).

Record listing := Listing { l_rows : list row; l_page : Z; l_limit : Z; l_total : Z; l_totalPages : Z; l_hasNext : bool; l_hasPrev : bool }.

Definition list_page (page limit : Z) (matched : list row) : listing :=
  let total := Z.of_nat (length matched) in
  let pages := ceil_div total limit in
  Listing (page_of page limit (newest_first matched)) page limit total pages (page <? pages) (1 <? page).

(** ** The school's payments *)

Record query := Query {
  q_page : option string; q_limit : option string; q_startDate : option string; q_endDate : option string;
  q_minAmount : option string; q_maxAmount : option string; q_status : option string; q_studentId : option string; q_isSuspicious : option string
}.

Inductive answer := Invalid (what : string) | NotANumberPage | Listed (l : listing).

Section Queries.
Variable date_parse : string -> option Z.     (** [Date.parse], [None] for NaN *)
Variable to_number : string -> number.        (** [Number(text)] *)

Definition given (x : option string) : option string := match x with Some t => if str_truthy t then Some t else None | None => None end.

(** [end.setUTCHours(23, 59, 59, 999)] *)
Definition end_of_day (t : Z) : Z := t / 86400000 * 86400000 + 86399999.

(** A bound that was given must parse. *)
Definition date_bound (what : string) (x : option string) : result string (option Z) :=
  match given x with None => Ok None | Some t => match date_parse t with Some d => Ok (Some d) | None => Throw ("Invalid " +:+ what) end end.

Definition amount_bound (what : string) (x : option string) : result string (option number) :=
  match given x with None => Ok None | Some t => if isFinite (to_number t) then Ok (Some (to_number t)) else Throw ("Invalid " +:+ what) end.

(** The status texts, and the conditions of the filter; a bound on a date that is
    not there fails. *)
Definition bounded (lo hi : option Z) (x : option Z) : bool :=
  match lo, hi with
  | None, None => true
  | _, _ => match x with None => false | Some t => match lo with Some a => a <=? t | None => true end && match hi with Some b => t <=? b | None => true end end
  end.

Definition in_amounts (lo hi : option number) (x : number) : bool :=
  match lo with Some a => num_le a x | None => true end && match hi with Some b => num_le x b | None => true end.

Record conditions := Conditions { c_from : option Z; c_to : option Z; c_min : option number; c_max : option number;
  c_status : option string; c_studentId : option string; c_isSuspicious : option bool }.

Definition read_conditions (q : query) : result string conditions :=
  from ← date_bound "startDate" (q_startDate q);
  to ← date_bound "endDate" (q_endDate q);
  lo ← amount_bound "minAmount" (q_minAmount q);
  hi ← amount_bound "maxAmount" (q_maxAmount q);
  Ok (Conditions from (end_of_day <$> to) lo hi ((fun t => text (map upper (chars t))) <$> given (q_status q)) (given (q_studentId q))
        ((fun t => (t =? "true")%string) <$> q_isSuspicious q)).

(** The status as its text. *)
Variable status_text : payment_status -> string.

Definition matches (schoolId : string) (c : conditions) (r : row) : bool :=
  let p := pay r in
  (p_schoolId p =? schoolId)%string && negb (rw_studentDeleted r) && bool_decide (p_deletedAt p = None)
  && bounded (c_from c) (c_to c) (rw_confirmedAt r) && in_amounts (c_min c) (c_max c) (p_amount p)
  && match c_status c with Some s => (status_text (p_status p) =? s)%string | None => true end
  && match c_studentId c with Some s => (p_studentId p =? s)%string | None => true end
  && match c_isSuspicious c with Some b => Bool.eqb (p_isSuspicious p) b | None => true end.

(** Here [page] and [limit] have defaults only when they are absent: a text that
    is no number gives NaN, and what the driver makes of it is left open. *)
Definition getAllPayments (schoolId : string) (q : query) (rs : list row) : answer :=
  match read_conditions q with
  | Throw e => Invalid e
  | Ok c =>
    match parseInt10 (default "1" (q_page q)), parseInt10 (default "50" (q_limit q)) with
    | Some page, Some limit => Listed (list_page (Z.max 1 page) (Z.min 100 (Z.max 1 limit)) (List.filter (matches schoolId c) rs))
    | _, _ => NotANumberPage
    end
  end.

Definition getStudentPayments (schoolId studentId : string) (students : list student) (page limit : option string) (rs : list row) : option listing :=
  match find_student schoolId studentId students with
  | None => None
  | Some _ => Some (list_page (page_number page) (page_size 200 limit)
      (List.filter (fun r => (p_schoolId (pay r) =? schoolId)%string && (p_studentId (pay r) =? studentId)%string && bool_decide (p_deletedAt (pay r) = None)) rs))
  end.

(** The soft-delete hook leaves deleted payments out of the others. *)
Definition live_of (schoolId : string) (f : row -> bool) (r : row) : bool :=
  (p_schoolId (pay r) =? schoolId)%string && f r && bool_decide (p_deletedAt (pay r) = None).

Definition getSuspiciousPayments (schoolId : string) (page limit : option string) (rs : list row) : listing :=
  list_page (page_number page) (page_size 100 limit) (List.filter (live_of schoolId (fun r => p_isSuspicious (pay r))) rs).

Definition getPendingPayments (schoolId : string) (page limit : option string) (rs : list row) : listing :=
  list_page (page_number page) (page_size 100 limit)
    (List.filter (live_of schoolId (fun r => bool_decide (p_confirmationStatus (pay r) = pending_confirmation))) rs).

(** The excess is added up over the page. *)
Definition getOverpayments (schoolId : string) (page limit : option string) (rs : list row) : listing * number :=
  let l := list_page (page_number page) (page_size 100 limit) (List.filter (live_of schoolId (fun r => (rw_feeValidationStatus r =? "overpaid")%string)) rs) in
  (l, fold_left (fun s r => num_add s (num_or (rw_excessAmount r) (of_Z 0))) (l_rows l) (of_Z 0)).
End Queries.

(** ** The balance shown *)
Section Balance.
Variable fsum : list number -> number.        (** the database's sum of doubles *)

Definition amounts (l : list row) : list number := map (fun r => p_amount (pay r)) l.

Definition of_student (schoolId studentId : string) (r : row) : bool :=
  (p_schoolId (pay r) =? schoolId)%string && (p_studentId (pay r) =? studentId)%string && bool_decide (p_deletedAt (pay r) = None).

Record shown_category := ShownCategory { sc_category : string; sc_amount : number; sc_totalPaid : number; sc_remaining : number; sc_paid : bool; sc_count : Z }.

Record shown := Shown {
  sh_feeAmount : number; sh_totalPaid : number; sh_remaining : number; sh_excess : number; sh_feePaid : bool;
  sh_installments : Z; sh_categories : list shown_category; sh_hasDeleted : bool
}.

(** [parseFloat(total.toFixed(7))] of a group, [0] when there is none. *)
Definition total_of (l : list row) : number := match l with [] => of_Z 0 | _ => fixed7 (fsum (amounts l)) end.

Definition show_category (mine : list row) (f : fee_category) : shown_category :=
  let l := List.filter (fun r => bool_decide (e_feeCategory (rw_entry r) = Some (fc_category f))) mine in
  let total := total_of l in
  ShownCategory (fc_category f) (fc_amount f) total (num_max (of_Z 0) (num_sub (fc_amount f) total)) (num_ge total (fc_amount f)) (Z.of_nat (length l)).

Definition getStudentBalance (schoolId studentId : string) (students : list student) (rs : list row) : option shown :=
  match find_student schoolId studentId students with
  | None => None
  | Some s =>
    let mine := List.filter (of_student schoolId studentId) rs in
    let fee := st_feeAmount s in
    let totalPaid := total_of mine in
    Some (Shown fee totalPaid (fixed7 (num_max (of_Z 0) (num_sub fee totalPaid)))
      (if num_gt totalPaid fee then fixed7 (num_sub totalPaid fee) else of_Z 0) (num_ge totalPaid fee) (Z.of_nat (length mine))
      (map (show_category mine) (st_fees s))
      (existsb (fun r => (p_schoolId (pay r) =? schoolId)%string && (p_studentId (pay r) =? studentId)%string && negb (bool_decide (p_deletedAt (pay r) = None))) rs))
  end.

Record summary := Summary { su_students : Z; su_paid : Z; su_unpaid : Z; su_collected : number; su_categories : list (string * number * Z) }.

Definition getPaymentSummary (schoolId : string) (students : list student) (rs : list row) : summary :=
  let mine := List.filter (fun s => (st_schoolId s =? schoolId)%string && bool_decide (st_deletedAt s = None)) students in
  let paid := List.filter (fun s => st_feePaid s) mine in
  let ok r := live_of schoolId (fun r => bool_decide (p_status (pay r) = S_SUCCESS) && negb (rw_studentDeleted r)) r in
  let collected := List.filter ok rs in
  let categories := remove_dups (omap (fun r => e_feeCategory (rw_entry r)) collected) in
  Summary (Z.of_nat (length mine)) (Z.of_nat (length paid)) (Z.of_nat (length (List.filter (fun s => negb (st_feePaid s)) mine)))
    (total_of collected)
    (map (fun c => let l := List.filter (fun r => bool_decide (e_feeCategory (rw_entry r) = Some c)) collected in (c, total_of l, Z.of_nat (length l))) categories).
End Balance.

(** * Theorems *)

(** ** Pages *)

Lemma ceil_div_covers total limit : 0 < limit -> 0 <= total -> total <= ceil_div total limit * limit.
Proof. intros Hl Ht. unfold ceil_div. pose proof (Z.div_mod (total + limit - 1) limit ltac:(lia)). pose proof (Z.mod_pos_bound (total + limit - 1) limit Hl). nia. Qed.

Lemma pages_prefix {A} (l : list A) limit n : 0 < limit ->
  concat (map (fun i => page_of (Z.of_nat i + 1) limit l) (seq 0 n)) = take (n * Z.to_nat limit) l.
Proof.
  intros Hl. induction n as [|n IH]; [by rewrite take_0|]. rewrite seq_S, map_app, concat_app, IH. cbn [map concat]. rewrite app_nil_r.
  unfold page_of. replace (Z.to_nat ((Z.of_nat (0 + n) + 1 - 1) * limit)) with (n * Z.to_nat limit)%nat by nia.
  rewrite take_take_drop. f_equal. lia.
Qed.

Lemma newest_first_perm l : newest_first l ≡ₚ l.
Proof. apply js_sort_perm. Qed.

(** The pages of a listing put together are all that matched, each once, newest
    first; no page is longer than the limit. *)
Theorem pages_partition limit matched : 0 < limit ->
  let pages := Z.to_nat (l_totalPages (list_page 1 limit matched)) in
  concat (map (fun i => l_rows (list_page (Z.of_nat i + 1) limit matched)) (seq 0 pages)) = newest_first matched
  /\ newest_first matched ≡ₚ matched
  /\ forall page, Z.of_nat (length (l_rows (list_page page limit matched))) <= limit.
Proof.
  intros Hl. cbn [l_totalPages list_page l_rows]. split; [|split; [apply newest_first_perm|]].
  - rewrite (pages_prefix (newest_first matched) limit) by done. apply take_ge.
    rewrite (Permutation_length (newest_first_perm matched)).
    pose proof (ceil_div_covers (Z.of_nat (length matched)) limit Hl ltac:(lia)) as H. nia.
  - intros page. unfold page_of. rewrite length_take. lia.
Qed.

(** There is a next page exactly when a later page has a payment. *)
Theorem has_next_honest page limit matched : 0 < limit -> 1 <= page ->
  l_hasNext (list_page page limit matched) = true <-> l_rows (list_page (page + 1) limit matched) <> [].
Proof.
  intros Hl Hp. cbn [l_hasNext l_rows list_page]. rewrite Z.ltb_lt. unfold page_of.
  assert (page < ceil_div (Z.of_nat (length matched)) limit <-> page * limit < Z.of_nat (length matched)) as ->.
  { unfold ceil_div. pose proof (Z.div_mod (Z.of_nat (length matched) + limit - 1) limit ltac:(lia)).
    pose proof (Z.mod_pos_bound (Z.of_nat (length matched) + limit - 1) limit Hl). split; intros; nia. }
  rewrite <- length_zero_iff_nil, length_take, length_drop, (Permutation_length (newest_first_perm matched)).
  replace (page + 1 - 1) with page by lia. nia.
Qed.

(** ** The filters *)

(** A bound on the day of the end counts the whole day. *)
Lemma end_of_day_whole t d : t <= end_of_day d <-> t / 86400000 <= d / 86400000.
Proof.
  unfold end_of_day. pose proof (Z.div_mod t 86400000 ltac:(lia)). pose proof (Z.mod_pos_bound t 86400000 ltac:(lia)). split; intros; nia.
Qed.

(** What the school sees: a listing holds only payments of the school, not
    deleted, of a student that is still there, confirmed between the start and
    the end of the last day when dates are given. *)
Theorem listing_is_of_school date_parse to_number status_text schoolId q rs l r :
  getAllPayments date_parse to_number status_text schoolId q rs = Listed l -> r ∈ l_rows l ->
  r ∈ rs /\ p_schoolId (pay r) = schoolId /\ p_deletedAt (pay r) = None /\ rw_studentDeleted r = false
  /\ (forall t d, given (q_startDate q) = Some t -> date_parse t = Some d -> exists c, rw_confirmedAt r = Some c /\ d <= c)
  /\ (forall t d, given (q_endDate q) = Some t -> date_parse t = Some d -> exists c, rw_confirmedAt r = Some c /\ c / 86400000 <= d / 86400000).
Proof.
  unfold getAllPayments. destruct (read_conditions _ _ q) as [c|] eqn:Ec; [|done].
  destruct (parseInt10 _) as [page|]; [|done]. destruct (parseInt10 _) as [limit|]; [|done]. intros [= <-] Hr. cbn [l_rows list_page] in Hr.
  assert (r ∈ List.filter (matches status_text schoolId c) rs) as Hin.
  { rewrite <- newest_first_perm. unfold page_of in Hr. eapply elem_of_sublist; [exact Hr|].
    etransitivity; [apply sublist_take|apply sublist_drop]. }
  apply elem_of_filterb in Hin as [Hm Hin]. unfold matches in Hm. rewrite !andb_true_iff in Hm.
  destruct Hm as [[[[[[[H1 H2] H3] H4] _] _] _] _]. apply String.eqb_eq in H1. apply negb_true_iff in H2. apply bool_decide_eq_true in H3.
  do 4 (split; [done|]). revert Ec. unfold read_conditions.
  destruct (date_bound _ _ (q_startDate q)) as [from|] eqn:Ef; [|intros Ht; discriminate Ht]. cbn [mbind result_bind].
  destruct (date_bound _ _ (q_endDate q)) as [to|] eqn:Et; [|intros Ht; discriminate Ht]. cbn [mbind result_bind].
  destruct (amount_bound _ "minAmount" _) as [lo|]; [|intros Ht; discriminate Ht]. cbn [mbind result_bind].
  destruct (amount_bound _ "maxAmount" _) as [hi|]; [|intros Ht; discriminate Ht]. cbn [mbind result_bind]. intros [= <-]. cbn in H4.
  unfold date_bound in Ef, Et. split; intros t d Hg Hd; rewrite Hg, Hd in *; simplify_eq; cbn in H4.
  - destruct (rw_confirmedAt r) as [x|]; [|by destruct to]. exists x. split; [done|].
    destruct to; cbn in H4; rewrite ?andb_true_iff, ?Z.leb_le in H4; lia.
  - destruct (rw_confirmedAt r) as [x|]; [|by destruct from]. exists x. split; [done|]. apply end_of_day_whole.
    destruct from; cbn in H4; rewrite ?andb_true_iff, ?Z.leb_le in H4; lia.
Qed.

(** ** The balance shown *)
Section Shown.
Variable fsum : list number -> number.
Hypothesis fsum_close : forall zs, Forall (fun z => 0 <= z) zs -> zsum zs < 2 ^ 25 * 10000000 ->
  close (fsum (stroopsToNumber <$> zs)) (zsum zs # 10000000) (1 # 100000000).

Lemma total_of_exact l (z : row -> Z) : (forall r, r ∈ l -> p_amount (pay r) = stroopsToNumber (z r) /\ 0 <= z r) ->
  zsum (z <$> l) < 2 ^ 25 * 10000000 -> total_of fsum l = stroopsToNumber (zsum (z <$> l)).
Proof.
  intros Hz Hs. assert (Forall (fun y => 0 <= y) (z <$> l)) as Hnn.
  { apply Forall_forall. intros y Hy. apply list_elem_of_fmap in Hy as (x & -> & Hx). by apply Hz. }
  assert (amounts l = stroopsToNumber <$> (z <$> l)) as Em.
  { unfold amounts. rewrite <- list_fmap_compose. apply map_ext_in. intros x Hx%list_elem_of_In. by apply Hz. }
  pose proof (zsum_nonneg _ Hnn) as H0. destruct l as [|r l]; [by vm_compute|]. unfold total_of. rewrite Em. apply fixed7_close; [|lia].
  destruct (fsum_close _ Hnn Hs) as (x & -> & Hx). exists x. split; [done|]. split; lra.
Qed.

(** The balance shown is exact on whole stroops: the total is the sum of the
    student's payments that are not deleted, whatever became of them, and what
    remains is the fee less that. *)
Theorem shown_balance_exact schoolId studentId students rs s (z : row -> Z) zf :
  find_student schoolId studentId students = Some s ->
  (forall r, r ∈ rs -> of_student schoolId studentId r = true -> p_amount (pay r) = stroopsToNumber (z r) /\ 0 <= z r) ->
  let total := zsum (z <$> List.filter (of_student schoolId studentId) rs) in
  total < 2 ^ 25 * 10000000 -> st_feeAmount s = stroopsToNumber zf -> 0 <= zf < 2 ^ 25 * 10000000 ->
  exists b, getStudentBalance fsum schoolId studentId students rs = Some b /\
    sh_totalPaid b = stroopsToNumber total /\ sh_remaining b = stroopsToNumber (Z.max 0 (zf - total)).
Proof.
  intros Hs Hz total Ht Hf Hzf. unfold getStudentBalance. rewrite Hs. eexists. split; [reflexivity|]. cbn [sh_totalPaid sh_remaining].
  set (mine := List.filter _ rs) in *.
  assert (forall r, r ∈ mine -> p_amount (pay r) = stroopsToNumber (z r) /\ 0 <= z r) as Hz'.
  { intros r Hr. unfold mine in Hr. apply elem_of_filterb in Hr as [Hm Hr]. by apply Hz. }
  rewrite (total_of_exact mine z) by done. split; [done|]. fold total. rewrite Hf.
  assert (0 <= total) as H0.
  { apply zsum_nonneg, Forall_forall. intros y Hy. apply list_elem_of_fmap in Hy as (x & -> & Hx). by apply Hz'. }
  apply fixed7_close; [|lia]. clearbody total. assert (0 <= inject_Z total <= 335544319999999)%Q as Htq by (split; unfold Qle; simpl; lia).
  assert (0 <= inject_Z zf <= 335544319999999)%Q as Hfq by (split; unfold Qle; simpl; lia).
  assert (hulp 25 == 1 # 536870912)%Q as E25 by reflexivity. assert (hulp 26 == 1 # 268435456)%Q as E26 by reflexivity.
  assert (forall y, (0 <= inject_Z y <= 335544319999999)%Q -> close (stroopsToNumber y) (y # 10000000) (hulp 25)) as Hsc.
  { intros y Hy. apply stroops_close; [lia|]. rewrite LedgerPayments.Zfrac. change (Qpower 2 25) with 33554432%Q. split; lra. }
  assert (close (num_sub (stroopsToNumber zf) (stroopsToNumber total)) ((zf # 10000000) + - (total # 10000000)) (hulp 25 + hulp 25 + hulp 26)) as Hc.
  { unfold num_sub. apply close_add; [lia|by apply Hsc|by apply close_neg, Hsc| |];
      rewrite (LedgerPayments.Zfrac zf), (LedgerPayments.Zfrac total), E25; change (Qpower 2 26) with 67108864%Q; lra. }
  apply close_max0 in Hc as (x & -> & Hx); [|rewrite E25, E26; lra]. exists x. split; [done|].
  rewrite E25, E26 in Hx. assert (Z.max 0 (zf - total) # 10000000 == Qmax 0 ((zf # 10000000) + - (total # 10000000)))%Q as Em.
  { rewrite (LedgerPayments.Zfrac (Z.max 0 (zf - total))), (LedgerPayments.Zfrac zf), (LedgerPayments.Zfrac total). destruct (Z.max_spec 0 (zf - total)) as [[Hlt ->]|[Hge ->]].
    - rewrite Q.max_r; [unfold Z.sub; rewrite inject_Z_plus, inject_Z_opp; lra|]. assert (inject_Z total <= inject_Z zf)%Q by (rewrite <- Zle_Qle; lia). lra.
    - rewrite Q.max_l; [change (inject_Z 0) with 0%Q; lra|]. assert (inject_Z zf <= inject_Z total)%Q by (rewrite <- Zle_Qle; lia). lra. }
  rewrite Em. split; lra.
Qed.
End Shown.

(** Paid and unpaid students of the summary add up to the students. *)
Theorem summary_counts fsum schoolId students rs :
  let s := getPaymentSummary fsum schoolId students rs in su_paid s + su_unpaid s = su_students s.
Proof.
  cbn. set (mine := List.filter (fun s => _ && bool_decide (st_deletedAt s = None)) students). clearbody mine.
  rewrite <- Nat2Z.inj_add. f_equal. induction mine as [|s l IH]; [done|]. cbn. destruct (st_feePaid s); cbn; lia.
Qed.

(** ** Instances, and where the views disagree *)

Definition a_row (id amt : Z) (st : payment_status) : row := Row (Entry (a_payment id amt st) None 0) (Some id) None false "overpaid" (of_Z 1).

Lemma pages_partition_witness :
  let matched := [a_row 1 5 S_SUCCESS; a_row 2 5 S_SUCCESS; a_row 3 5 S_FAILED] in
  concat (map (fun i => l_rows (list_page (Z.of_nat i + 1) 2 matched)) (seq 0 2)) = newest_first matched /\
  newest_first matched ≡ₚ matched /\ forall page, Z.of_nat (length (l_rows (list_page page 2 matched))) <= 2.
Proof. apply (pages_partition 2 [a_row 1 5 S_SUCCESS; a_row 2 5 S_SUCCESS; a_row 3 5 S_FAILED]). lia. Defined.

Definition no_query : query := Query None None None None None None None None None.

Lemma listing_is_of_school_witness :
  exists l, getAllPayments (fun _ => None) (fun _ => NaN) (fun _ => "SUCCESS") "SCH-1" no_query [a_row 1 5 S_SUCCESS] = Listed l /\
    (a_row 1 5 S_SUCCESS ∈ l_rows l -> p_schoolId (pay (a_row 1 5 S_SUCCESS)) = "SCH-1" /\ rw_studentDeleted (a_row 1 5 S_SUCCESS) = false).
Proof.
  eexists. split; [reflexivity|]. intros H.
  destruct (listing_is_of_school (fun _ => None) (fun _ => NaN) (fun _ => "SUCCESS") "SCH-1" no_query [a_row 1 5 S_SUCCESS] _ _ eq_refl H) as (_ & H1 & _ & H2 & _).
  done.
Defined.

Lemma shown_balance_exact_witness :
  exists b, getStudentBalance demo_fsum "SCH-1" "STU-1" [a_student [] 7000000 0] [a_row 1 1000000 S_SUCCESS; a_row 2 2000000 S_SUCCESS] = Some b /\
    sh_totalPaid b = stroopsToNumber 3000000 /\ sh_remaining b = stroopsToNumber (Z.max 0 (7000000 - 3000000)).
Proof.
  apply (shown_balance_exact demo_fsum demo_fsum_close "SCH-1" "STU-1" [a_student [] 7000000 0] [a_row 1 1000000 S_SUCCESS; a_row 2 2000000 S_SUCCESS]
    (a_student [] 7000000 0) (fun r => stroops_of (p_amount (pay r))) 7000000).
  - reflexivity.
  - intros r Hr _. apply list_elem_of_In in Hr. destruct Hr as [<-|[<-|[]]]; vm_compute; split; [reflexivity|discriminate|reflexivity|discriminate].
  - vm_compute. reflexivity.
  - reflexivity.
  - lia.
Defined.

(** A payment that failed counts in the balance shown: the student owes
    everything by the stored balance and nothing by this one. *)
Theorem balance_shown_counts_failed :
  exists b d' s', getStudentBalance demo_fsum "SCH-1" "STU-1" [a_student [] 7000000 0] [a_row 1 7000000 S_FAILED] = Some b /\ sh_feePaid b = true /\
    updateStudentBalance (DL := exact_decimal) (MS := exact_sum) "SCH-1" "STU-1" true
      (Db [a_student [] 7000000 0] (map rw_entry [a_row 1 7000000 S_FAILED]) [] []) = (d', Ok (Some s')) /\
    st_feePaid s' = false /\ st_remainingBalance s' = Some (stroopsToNumber 7000000).
Proof. eexists _, _, _. split; [reflexivity|]. split; [vm_compute; reflexivity|]. split; [vm_compute; reflexivity|]. vm_compute. done. Qed.

(** The total excess is that of the page, not of the payments it counts. *)
Theorem excess_is_of_the_page :
  let '(l, excess) := getOverpayments "SCH-1" (Some "1") (Some "1") [a_row 1 5 S_SUCCESS; a_row 2 5 S_SUCCESS] in
  l_total l = 2 /\ excess = of_Z 1.
Proof. vm_compute. done. Qed.

(** A page that is no number is not refused here, as the dates are; elsewhere it
    counts as the first. *)
Theorem page_text_not_checked :
  getAllPayments (fun _ => None) (fun _ => NaN) (fun _ => "SUCCESS") "SCH-1" (Query (Some "x") None None None None None None None None) [] = NotANumberPage
  /\ page_number (Some "x") = 1.
Proof. vm_compute. done. Qed.
End PaymentQueries.
